(* ===== verification/_CoqProject ===== *)
-Q . S2P
Prelude.v
Arith.v
Memory.v
Text.v
Crc32.v
Buffer.v
Block.v
Mvhfs.v
MvhfsFormat.v
MvhfsDirectory.v
MvhfsSpec.v
MvhfsCorrect.v
Pmm.v
Vmm.v
VmmCorrect.v
VmmPages.v
Heap.v
HeapLayout.v
HeapBlocks.v
HeapCorrect.v
HeapClient.v
HeapSpec.v
HeapInit.v
Dma.v
Allocator.v
Module.v
Elf.v
ElfLayout.v
ModuleTable.v
ModuleCorrect.v
ModuleLoad.v
ElfCorrect.v
ElfSpec.v
ModuleSpec.v
Net.v
NetMessages.v
NetTables.v
Task.v
TaskCorrect.v
Ramfs.v
RamfsTree.v
RamfsCorrect.v
RamfsQuery.v
Firmware.v
Bootinfo.v
Acpi.v
AcpiSpec.v
AcpiCorrect.v
AcpiInit.v
Smbios.v
SmbiosSpec.v
SmbiosCorrect.v
Random.v
Clock.v
Log.v
Sync.v
