(* ===== verification/Prelude.v ===== *)
(** * MVH Kernel: a verification development

    The MVH kernel is a small x86-64 kernel in C.  The development translates
    its portable parts, function by function, into executable definitions and
    proves what they promise.  All source paths are relative to src/.

    ** The program and the files that model it

    - Core utilities (core/util.c, core/crc32.c): [Arith] has the integer
      functions, [Memory] the memory blocks, loads and stores over a flat memory
      in which pointers may alias, [Text] the strings and numbers in that memory,
      [Crc32] the checksum that the partition probe and the file system use.
    - Synchronisation (core/sync.c): [Sync] has every lock as a step function on
      the shared object, one atomic operation per step, and threads that run
      these steps in any interleaving.
    - Kernel log (core/log.c): [Log], a ring of characters.
    - Memory management.  [Pmm] is the bitmap of physical pages (memory/pmm.c).
      [Vmm] has the page tables (memory/vmm.c), whose pages come from [Pmm];
      [VmmCorrect] and [VmmPages] hold the proofs.  [Heap] is the kernel heap
      (memory/heap.c) over the bytes of the pages it takes from [Pmm] and maps
      with [Vmm]; [HeapLayout], [HeapBlocks], [HeapCorrect], [HeapClient],
      [HeapSpec] and [HeapInit] hold the proofs, from headers as bytes up to the
      client's view.  [Dma] has the buffers for devices (device/dma.c), runs of
      pages of [Pmm].
    - Random numbers (core/random.c): [Random], the block function and the pool.
    - Clocks (drivers/rtc.c, drivers/timer.c, part of drivers/hpet.c): [Clock].
    - Storage (storage/block.c): [Block], with the device table, the guarded
      requests and the MBR and GPT probe.  A driver is a parameter; the class
      [SectorStore] states what a disk promises.
    - The disk file system (fs/mvhfs.c): [Mvhfs] on top of [Block] and [Crc32];
      [MvhfsFormat], [MvhfsDirectory], [MvhfsSpec] and [MvhfsCorrect] hold the
      proofs, all against [SectorStore].
    - The RAM file system and the VFS layer (fs/ramfs.c, fs/vfs.c): [Ramfs];
      [RamfsTree], [RamfsCorrect] and [RamfsQuery] hold the proofs.
    - The network stack (net/net.c): [Net]; [NetMessages] for the message
      formats, [NetTables] for the ARP cache and the routing table.
    - The scheduler (task/task.c): [Task], whose stacks come from [Pmm];
      [TaskCorrect] holds the proofs.
    - Loadable modules (core/module.c): [Module] has the registry, the
      dependencies and the symbol table, [Elf] the loader of ELF images and the
      self test.  Images live in the heap, which both see through the class
      [Allocator] of the file of that name; its laws are proved there for
      [Heap].  [ModuleTable], [ModuleCorrect] (registration, handles, unloading),
      [ModuleLoad] (loading), [ElfLayout], [ElfCorrect], [ElfSpec] (linking) and
      [ModuleSpec] (all calls) hold the proofs.  The code of a module is an
      arbitrary function on the state that keeps to what kernel.c exports to it:
      it changes its own memory and heap blocks of its own, takes handles with
      module_acquire and gives back its own with module_release ([ModuleCode],
      [lawful] of [ModuleCorrect]).

    - What the firmware hands over.  [Firmware] has pointers into a memory of
      which only a part may be read; [Bootinfo] the record of the boot loader
      (core/bootinfo.c); [Acpi] the tables of processors, interrupts and buses
      (firmware/acpi.c), with [AcpiSpec] for what the tables say and
      [AcpiCorrect] and [AcpiInit] for the proofs; [Smbios] the description of
      the machine (firmware/smbios.c), with [SmbiosSpec] and [SmbiosCorrect].
      The memory is arbitrary: the theorems only assume that its first gigabyte
      (or what the boot loader mapped) can be read.

    [Prelude] (this file) has machine integers, arrays, loops, tactics and
    generic lemmas; [Buffer] has byte arrays with little- and big-endian
    accesses, and C strings in them.

    ** How the code is translated

    An integer of width w is a [Z] with the reductions of C written out ([u8] to
    [u64], [i32], [i64]).  An array is a list; a read or write outside it is the
    fault [None], and a theorem that a call returns [Some] says that the code
    does not fault.  Statics of a file are the fields of a record that every
    function takes and returns.  A status code is the number the code returns.
    Structs and enums are records and inductive types.  What an uninitialised
    array on the stack holds is a section variable, so that no theorem depends
    on it.  A critical section of a lock is one step, which the mutual exclusion
    theorem of [Sync] justifies.

    A C loop is a combinator of this file with fuel ([for_loop], [for_break],
    [while_loop]).  A loop that runs out of fuel returns [None], like a fault, so
    every theorem that a function returns also shows that its fuel was enough.
    The fuel of a counted loop is its bound; that of a scan of memory is the
    number of bytes there are; that of a walk of the heap is the number of bytes
    of the heap divided by the size of a header, and more where noted.

    ** What the theorems show

    - MVHFS: every operation takes the map from names to contents to its
      successor, or leaves it alone; a failed write or a power cut at any sector
      leaves the old map or the new one; mounting an arbitrary disk ends and
      accepts exactly the newest superblock whose checksums hold.
    - Block layer: no request outside a device reaches a driver; the partition
      probe answers what the disk's bytes determine.
    - Heap: the byte-level free list refines a map from addresses to bytes, for
      every sequence of calls, without faults or panics; NULL is returned exactly
      when the size searched for is not to be had; misuse is detected; a request
      of 4 GiB is cut to 16 bytes.
    - Page tables: map and unmap change the translation of one page only; after
      initialisation no page of the kernel image is writable and executable.
    - Page allocator: first fit, exact counters, and exactly which sequences of
      calls leave the bitmap (a free whose page number plus count wraps).
    - RAM file system: refinement of a tree of names, round trips of paths and
      contents.
    - Network: round trips of the message formats, detection of damage, the ARP
      cache as a map with expiry, route lookup as a best match.
    - Scheduler: invariant of every reachable state, the choice made by a yield,
      absence of starvation.
    - Synchronisation: mutual exclusion, FIFO order, consistent reads under every
      interleaving.
    - Modules: in every reachable state the reference counts are exact and the
      dependencies of live modules are live; every call has the promised effect,
      init functions are called once each and in order of the dependencies;
      loading a well-formed image is safe and leaks nothing, and the linked
      allocation holds exactly the sections with the values of the x86-64 ABI
      written over them.
    - Firmware: no contents of memory make the parsers fault, loop or store
      outside an array; the boot record, the ACPI tables and the SMBIOS table are
      accepted exactly when they are well formed, and what is published is what
      they say, a rejected ACPI table leaving no trace but its count.
    - Buffers for devices: aligned, in range and exclusive, given back exactly
      once; scatter lists are the unique cut of a range at the page borders.
    - Random numbers: the double rounds permute the states; the bytes handed
      out are the stream of the blocks, for any sizes of requests; the entropy
      count never wraps.
    - Clocks: dates, timer frequencies and nanoseconds are exact; noon and midnight
      are exchanged on a clock in 12-hour mode.
    - Log and CRC: the ring as a queue, detection of burst errors.

    ** What the theorems assume of callers

    Where the code goes wrong on some calls the theorems exclude those calls by
    a named predicate, and a lemma shows what the code does on them.

    - Heap ([HeapSpec.allowed]): pointers that the client holds, and requests of
      at most 2^32 - 24 bytes; [kmalloc_grants_4gib] shows a larger one.
    - RAM file system ([RamfsCorrect.all_keep_current]): no call removes the
      directory that is current then; [ramfs_remove_current] shows one that does.
    - Scheduler ([TaskCorrect.allowed]): a task sleeps, or a thread ends, only
      while another task is ready; [task_sleep_alone] shows a task that sleeps
      when none is.
    - Modules ([ModuleSpec.op_allowed]): builtin modules have no dependencies
      ([builtin_dependencies_unchecked]), callers give back only handles they
      hold, and images have sections of at most 16 MiB and a terminated string
      table ([elf_layout_wraps], [find_descriptor_faults]).
    - Sequence lock: the 32-bit sequence makes no complete turn during a read.

    ** Not modelled

    The assembly (boot, interrupt entry, context switch, AP start) and the code
    whose effect is on the hardware alone: arch/, the other drivers of drivers/,
    hal/, the ATA and virtio drivers (their contract is [SectorStore]), the table of
    device names and the key events of device/, the shell and boot sequence of
    kernel.c, the desktop, and the panic screen. *)

From Stdlib Require Export ZArith Lia Bool Btauto.
From stdpp Require Export prelude list gmap relations.

#[global] Open Scope Z_scope.

(** ** Machine integers

    An unsigned integer of width [w] is a [Z] in [0, 2^w); every operation of
    the source that can leave that range is followed by the reduction that C
    prescribes, written out with [u8] ... [u64] for the unsigned types and
    [i32], [i64] for conversions to the (two's complement) signed types. *)

Definition u8 (x : Z) : Z := x mod 2 ^ 8.
Definition u16 (x : Z) : Z := x mod 2 ^ 16.
Definition u32 (x : Z) : Z := x mod 2 ^ 32.
Definition u64 (x : Z) : Z := x mod 2 ^ 64.

Definition i32 (x : Z) : Z := (x + 2 ^ 31) mod 2 ^ 32 - 2 ^ 31.
Definition i64 (x : Z) : Z := (x + 2 ^ 63) mod 2 ^ 64 - 2 ^ 63.

Definition U32_MAX : Z := 2 ^ 32 - 1.
Definition U64_MAX : Z := 2 ^ 64 - 1.
Definition I64_MAX : Z := 2 ^ 63 - 1.
Definition I64_MIN : Z := - 2 ^ 63.

(** [fits w x]: [x] is a value of the unsigned type of width [w]. *)
Definition fits (w x : Z) : Prop := 0 <= x < 2 ^ w.

(** [sfits w x]: [x] is a value of the signed type of width [w]. *)
Definition sfits (w x : Z) : Prop := - 2 ^ (w - 1) <= x < 2 ^ (w - 1).

(** Bitwise complement at a width: [~x] of an unsigned [w]-bit integer. *)
Definition compl (w x : Z) : Z := 2 ^ w - 1 - x.

Declare Scope mvh_scope.
Delimit Scope mvh_scope with mvh.
Notation "a &&& b" := (Z.land a b) (at level 40, left associativity) : mvh_scope.
Notation "a ||| b" := (Z.lor a b) (at level 50, left associativity) : mvh_scope.
Notation "a ^^^ b" := (Z.lxor a b) (at level 45, left associativity) : mvh_scope.
Notation "a << b" := (Z.shiftl a b) (at level 42, left associativity) : mvh_scope.
Notation "a >> b" := (Z.shiftr a b) (at level 42, left associativity) : mvh_scope.
#[global] Open Scope mvh_scope.

#[global] Arguments Z.shiftl : simpl never.
#[global] Arguments Z.shiftr : simpl never.
#[global] Arguments Z.land : simpl never.
#[global] Arguments Z.lor : simpl never.
#[global] Arguments Z.lxor : simpl never.
#[global] Arguments Z.pow : simpl never.
#[global] Arguments Z.modulo : simpl never.
#[global] Arguments Z.div : simpl never.

(** ** Arrays

    A C array is a list; an access out of range is a fault, [None]. *)

Definition rd {A} (l : list A) (i : Z) : option A :=
  if i <? 0 then None else l !! Z.to_nat i.

Definition wr {A} (l : list A) (i : Z) (x : A) : option (list A) :=
  if (i <? 0) || (Z.of_nat (length l) <=? i) then None
  else Some (<[Z.to_nat i := x]> l).

(** ** Counted loops

    [for (i = from; i < from + count; i++) s = body(i, s)], where the body may
    fault; [for_break] is the same loop whose body may also leave the loop
    early with a result ([inr]). *)

Fixpoint for_loop {S : Type} (count : nat) (i : Z) (body : Z -> S -> option S) (s : S)
  : option S :=
  match count with
  | O => Some s
  | Datatypes.S count' => s' ← body i s; for_loop count' (i + 1) body s'
  end.

Fixpoint for_break {S R : Type} (count : nat) (i : Z)
  (body : Z -> S -> option (S + R)) (s : S) : option (S + R) :=
  match count with
  | O => Some (inl s)
  | Datatypes.S count' =>
      r ← body i s;
      match r with
      | inl s' => for_break count' (i + 1) body s'
      | inr v => Some (inr v)
      end
  end.

(** A loop whose exit is decided by its state: [while (cond) body] with a
    bound on the number of iterations.  [None] is a fault or an exhausted
    bound; the theorems about a loop show that its bound is enough. *)
Fixpoint while_loop {S R : Type} (fuel : nat) (body : S -> option (S + R)) (s : S)
  : option R :=
  match fuel with
  | O => None
  | Datatypes.S fuel' =>
      r ← body s;
      match r with
      | inl s' => while_loop fuel' body s'
      | inr v => Some v
      end
  end.

(** ** Tactics *)

Create Rewrite HintDb zb.
Create HintDb mvh discriminated.

(** Unfold the width functions everywhere. *)
Ltac widths :=
  unfold u8, u16, u32, u64, i32, i64, fits, sfits, compl, U32_MAX, U64_MAX, I64_MAX,
    I64_MIN in *.

(** Turn boolean comparisons on [Z] into propositions, in all hypotheses and
    in the goal, splitting on those that occur under an [if]. *)
Ltac bool_to_prop :=
  repeat match goal with
  | H : _ && _ = true |- _ => apply andb_true_iff in H as [? ?]
  | H : _ || _ = false |- _ => apply orb_false_iff in H as [? ?]
  | H : negb _ = true |- _ => apply negb_true_iff in H
  | H : negb _ = false |- _ => apply negb_false_iff in H
  | H : (_ <? _) = true |- _ => apply Z.ltb_lt in H
  | H : (_ <? _) = false |- _ => apply Z.ltb_ge in H
  | H : (_ <=? _) = true |- _ => apply Z.leb_le in H
  | H : (_ <=? _) = false |- _ => apply Z.leb_gt in H
  | H : (_ =? _) = true |- _ => apply Z.eqb_eq in H
  | H : (_ =? _) = false |- _ => apply Z.eqb_neq in H
  end.

Ltac split_if :=
  match goal with
  | |- context [if ?b then _ else _] => destruct b eqn:?; bool_to_prop
  | H : context [if ?b then _ else _] |- _ => destruct b eqn:?; bool_to_prop
  end.

(** Decide every comparison of the goal and the hypotheses, and close the
    cases that are contradictory or linear. *)
Ltac zcmp :=
  repeat match goal with
  | |- context [?a <=? ?b] => destruct (Z.leb_spec a b)
  | |- context [?a <? ?b] => destruct (Z.ltb_spec a b)
  | |- context [?a =? ?b] => destruct (Z.eqb_spec a b)
  | H : context [?a <=? ?b] |- _ => destruct (Z.leb_spec a b)
  | H : context [?a <? ?b] |- _ => destruct (Z.ltb_spec a b)
  | H : context [?a =? ?b] |- _ => destruct (Z.eqb_spec a b)
  end; simpl in *; try done; try lia.

(** Replace the powers of two of the machine widths by their values, so that
    [lia] sees constants. *)
Ltac pow2 :=
  change (2 ^ 1) with 2 in *; change (2 ^ 3) with 8 in *; change (2 ^ 8) with 256 in *;
  change (2 ^ 16) with 65536 in *;
  change (2 ^ 31) with 2147483648 in *; change (2 ^ 32) with 4294967296 in *;
  change (2 ^ 62) with 4611686018427387904 in *;
  change (2 ^ 63) with 9223372036854775808 in *;
  change (2 ^ 64) with 18446744073709551616 in *.

(** Machine arithmetic that is linear once the widths are constants. *)
Ltac warith := widths; pow2; lia.

(** Linear arithmetic with quotients and remainders by constants. *)
Ltac divlia := pow2; Z.to_euclidean_division_equations; lia.

(** Prove an equation between integers bit by bit. *)
#[export] Hint Rewrite Z.land_spec Z.lor_spec Z.lxor_spec Z.ldiff_spec : zb.
#[export] Hint Rewrite Z.shiftr_spec Z.shiftl_spec Z.lnot_spec using lia : zb.
#[export] Hint Rewrite Z.testbit_mod_pow2 Z.testbit_ones using lia : zb.
#[export] Hint Rewrite Z.testbit_0_l : zb.

Ltac zbits :=
  apply Z.bits_inj'; intros ?n ?Hn; autorewrite with zb.

(** One step of a computation: the first action is known. *)
Lemma bind_step {A B} (x : option A) (a : A) (f : A -> option B) (r : option B) :
  x = Some a -> f a = r -> (x ≫= f) = r.
Proof. by intros -> <-. Qed.

Lemma bind_some {A B} (a : A) (f : A -> option B) : (Some a ≫= f) = f a.
Proof. reflexivity. Qed.

(** ** Shared lemmas on integers *)

Lemma testbit_above (w x n : Z) : 0 <= x < 2 ^ w -> w <= n -> Z.testbit x n = false.
Proof.
  intros Hx Hn. destruct (Z.eq_dec x 0) as [->|Hne]; [apply Z.bits_0|].
  apply Z.bits_above_log2; [lia|].
  destruct (Z.lt_ge_cases w 0) as [Hw|Hw].
  - rewrite Z.pow_neg_r in Hx by done. lia.
  - apply Z.log2_lt_pow2; [lia|].
    apply Z.lt_le_trans with (2 ^ w); [lia|]. apply Z.pow_le_mono_r; lia.
Qed.

Lemma bits_below (w x : Z) :
  0 <= w -> (forall n, w <= n -> Z.testbit x n = false) -> 0 <= x < 2 ^ w.
Proof.
  intros Hw Hb. assert (x = x mod 2 ^ w) as ->.
  { zbits. destruct (Z.ltb_spec n w); simpl; [done|]. apply Hb; lia. }
  apply Z.mod_pos_bound. apply Z.pow_pos_nonneg; lia.
Qed.

Lemma u8_range x : fits 8 (u8 x). Proof. apply Z.mod_pos_bound; done. Qed.
Lemma u16_range x : fits 16 (u16 x). Proof. apply Z.mod_pos_bound; done. Qed.
Lemma u32_range x : fits 32 (u32 x). Proof. apply Z.mod_pos_bound; done. Qed.
Lemma u64_range x : fits 64 (u64 x). Proof. apply Z.mod_pos_bound; done. Qed.
#[export] Hint Resolve u8_range u16_range u32_range u64_range : mvh.

Lemma u8_small x : fits 8 x -> u8 x = x. Proof. apply Z.mod_small. Qed.
Lemma u16_small x : fits 16 x -> u16 x = x. Proof. apply Z.mod_small. Qed.
Lemma u32_small x : fits 32 x -> u32 x = x. Proof. apply Z.mod_small. Qed.
Lemma u64_small x : fits 64 x -> u64 x = x. Proof. apply Z.mod_small. Qed.

Lemma land_fits w x y : 0 <= w -> fits w x -> 0 <= y -> fits w (x &&& y).
Proof.
  intros Hw Hx Hy. apply bits_below; [done|]. intros n Hn.
  rewrite Z.land_spec, (testbit_above w x n) by (done || lia). done.
Qed.

Lemma lor_fits w x y : 0 <= w -> fits w x -> fits w y -> fits w (x ||| y).
Proof.
  intros Hw Hx Hy. apply bits_below; [done|]. intros n Hn.
  rewrite Z.lor_spec, (testbit_above w x n), (testbit_above w y n) by (done || lia). done.
Qed.

Lemma lxor_fits w x y : 0 <= w -> fits w x -> fits w y -> fits w (x ^^^ y).
Proof.
  intros Hw Hx Hy. apply bits_below; [done|]. intros n Hn.
  rewrite Z.lxor_spec, (testbit_above w x n), (testbit_above w y n) by (done || lia). done.
Qed.

Lemma shiftr_fits w x k : 0 <= w -> 0 <= k -> fits w x -> fits w (x >> k).
Proof.
  intros Hw Hk Hx. apply bits_below; [done|]. intros n Hn.
  rewrite Z.shiftr_spec by lia. apply (testbit_above w); [done|lia].
Qed.
#[export] Hint Resolve land_fits lor_fits lxor_fits shiftr_fits : mvh.

(** Complement at a width is bitwise negation of the low bits. *)
Lemma compl_testbit w x n :
  0 <= w -> fits w x -> 0 <= n ->
  Z.testbit (compl w x) n = (n <? w) && negb (Z.testbit x n).
Proof.
  intros Hw Hx Hn. unfold compl.
  assert (2 ^ w - 1 - x = Z.lnot x mod 2 ^ w) as ->.
  { unfold Z.lnot. rewrite <- (Z_mod_plus_full _ 1). rewrite Z.mod_small; unfold fits in Hx; lia. }
  rewrite Z.testbit_mod_pow2, Z.lnot_spec by lia. done.
Qed.

Lemma compl_range w x : fits w x -> fits w (compl w x).
Proof. unfold fits, compl. lia. Qed.

Lemma compl_involutive w x : compl w (compl w x) = x.
Proof. unfold compl. lia. Qed.

(** Masking with a low-bits constant is a remainder. *)
Lemma land_1 x : x &&& 1 = x mod 2.
Proof. exact (Z.land_ones x 1 ltac:(lia)). Qed.

Lemma land_mask x k : 0 <= k -> x &&& (2 ^ k - 1) = x mod 2 ^ k.
Proof. intros. rewrite <- Z.land_ones, Z.ones_equiv by lia. done. Qed.

(** Numbers with no bit in common add by or. *)
Lemma lor_add a b : a &&& b = 0 -> a ||| b = a + b.
Proof. intros H. pose proof (Z.add_lor_land a b). lia. Qed.

Lemma lor_shl a b k : 0 <= k -> 0 <= a < 2 ^ k -> a ||| (b << k) = a + b * 2 ^ k.
Proof.
  intros Hk Ha. rewrite lor_add; [by rewrite Z.shiftl_mul_pow2|].
  zbits. destruct (Z.ltb_spec n k).
  - by rewrite (Z.testbit_neg_r b) by lia; rewrite andb_false_r.
  - by rewrite (testbit_above k a) by (done || lia).
Qed.

Lemma lor_shl' a b k : 0 <= k -> 0 <= a < 2 ^ k -> (b << k) ||| a = a + b * 2 ^ k.
Proof. intros. rewrite Z.lor_comm. by apply lor_shl. Qed.

(** Little-endian assembly of bytes is positional. *)
Lemma join_bytes4 b0 b1 b2 b3 :
  fits 8 b0 -> fits 8 b1 -> fits 8 b2 -> fits 8 b3 ->
  b0 ||| u32 (b1 << 8) ||| u32 (b2 << 16) ||| u32 (b3 << 24) =
    b0 + b1 * 2 ^ 8 + b2 * 2 ^ 16 + b3 * 2 ^ 24.
Proof.
  unfold fits. intros. change (2 ^ 8) with 256 in *.
  rewrite !u32_small by (unfold fits; rewrite Z.shiftl_mul_pow2 by lia; lia).
  rewrite (lor_shl b0), (lor_shl _ b2), (lor_shl _ b3) by lia. done.
Qed.

(** ** Shared lemmas on arrays *)

Section arrays.
Context {A : Type}.
Implicit Types (l : list A) (i j : Z) (x y : A).

Lemma rd_Some l i x : rd l i = Some x <-> 0 <= i /\ l !! Z.to_nat i = Some x.
Proof. unfold rd. split_if; split; [done|lia|intros; split; [lia|done]|tauto]. Qed.

Lemma rd_is_Some l i : is_Some (rd l i) <-> 0 <= i < Z.of_nat (length l).
Proof.
  unfold rd. split_if.
  - split; [by intros []|lia].
  - rewrite lookup_lt_is_Some. lia.
Qed.

Lemma rd_ok l i : 0 <= i < Z.of_nat (length l) -> exists x, rd l i = Some x.
Proof. intros H. by apply rd_is_Some in H as [x ?]; eauto. Qed.

Lemma rd_range l i x : rd l i = Some x -> 0 <= i < Z.of_nat (length l).
Proof. intros H. apply rd_is_Some. by eexists. Qed.

Lemma wr_ok l i x : 0 <= i < Z.of_nat (length l) -> wr l i x = Some (<[Z.to_nat i := x]> l).
Proof. intros H. unfold wr. replace (_ || _) with false; [done|]. symmetry. lia. Qed.

Lemma wr_Some l i x l' :
  wr l i x = Some l' -> 0 <= i < Z.of_nat (length l) /\ l' = <[Z.to_nat i := x]> l.
Proof.
  unfold wr. split_if; [done|]. intros [= <-]. split; [lia|done].
Qed.

Lemma wr_length l i x l' : wr l i x = Some l' -> length l' = length l.
Proof. intros [_ ->]%wr_Some. apply length_insert. Qed.

Lemma rd_wr l i j x l' :
  wr l i x = Some l' -> rd l' j = if i =? j then Some x else rd l j.
Proof.
  intros [Hi ->]%wr_Some. unfold rd. destruct (Z.eqb_spec i j) as [<-|Hne].
  - replace (i <? 0) with false by lia. apply list_lookup_insert_eq. lia.
  - split_if; [done|]. apply list_lookup_insert_ne. lia.
Qed.

Lemma rd_eq (l1 l2 : list A) :
  length l1 = length l2 ->
  (forall i, 0 <= i < Z.of_nat (length l1) -> rd l1 i = rd l2 i) -> l1 = l2.
Proof.
  intros Hlen H. apply list_eq. intros i. destruct (decide (i < length l1)%nat) as [Hi|Hi].
  - specialize (H (Z.of_nat i)). unfold rd in H. rewrite Nat2Z.id in H.
    replace (Z.of_nat i <? 0) with false in H by lia. apply H. lia.
  - rewrite !lookup_ge_None_2 by lia. done.
Qed.

Lemma rd_app (l1 l2 : list A) i :
  rd (l1 ++ l2) i = if i <? Z.of_nat (length l1) then rd l1 i
                    else rd l2 (i - Z.of_nat (length l1)).
Proof.
  unfold rd. destruct (Z.ltb_spec i 0).
  - rewrite (proj2 (Z.ltb_lt _ _)) by lia. done.
  - destruct (Z.ltb_spec i (Z.of_nat (length l1))).
    + apply lookup_app_l. lia.
    + replace (i - _ <? 0) with false by lia. rewrite lookup_app_r by lia. f_equal. lia.
Qed.
End arrays.

(** ** Loop rules *)

Section loops.
Context {S R : Type}.

(** The invariant rule of a counted loop: a body that keeps the invariant and
    does not fault gives a loop that does not fault. *)
Lemma for_loop_rule (P : Z -> S -> Prop) (count : nat) (i : Z) (body : Z -> S -> option S) s :
  P i s ->
  (forall j s, i <= j < i + Z.of_nat count -> P j s ->
     exists s', body j s = Some s' /\ P (j + 1) s') ->
  exists s', for_loop count i body s = Some s' /\ P (i + Z.of_nat count) s'.
Proof.
  revert i s. induction count as [|count IH]; intros i s Hs Hbody.
  - exists s. split; [done|]. by rewrite Z.add_0_r.
  - destruct (Hbody i s) as (s1 & Hb & Hs1); [lia|done|].
    destruct (IH (i + 1) s1 Hs1) as (s' & Hl & Hs').
    { intros j s2 Hj. apply Hbody. lia. }
    exists s'. split; [by simpl; rewrite Hb|].
    by replace (i + Z.of_nat (Datatypes.S count)) with (i + 1 + Z.of_nat count) by lia.
Qed.

(** A counted loop whose body runs up to iteration [k] and faults there. *)
Lemma for_loop_fault (P : S -> Prop) (k : Z) (count : nat) (i : Z) (body : Z -> S -> option S) s :
  P s -> i <= k < i + Z.of_nat count ->
  (forall j s, i <= j < k -> P s -> exists s', body j s = Some s' /\ P s') ->
  (forall s, P s -> body k s = None) ->
  for_loop count i body s = None.
Proof.
  revert i s. induction count as [|count IH]; intros i s Hs Hk Hbody Hfault; [lia|].
  cbn [for_loop]. destruct (Z.eq_dec i k) as [->|Hne]; [by rewrite Hfault|].
  destruct (Hbody i s) as (s' & -> & Hs'); [lia|done|]. simpl.
  apply IH; [done|lia| |done]. intros j s2 Hj. apply Hbody. lia.
Qed.

(** The rule with early exit: the loop ends with the invariant at its bound,
    or with a result that satisfies [Q]. *)
Lemma for_break_rule (P : Z -> S -> Prop) (Q : R -> Prop) (count : nat) (i : Z)
    (body : Z -> S -> option (S + R)) s :
  P i s ->
  (forall j s, i <= j < i + Z.of_nat count -> P j s ->
     (exists s', body j s = Some (inl s') /\ P (j + 1) s') \/
     (exists v, body j s = Some (inr v) /\ Q v)) ->
  (exists s', for_break count i body s = Some (inl s') /\ P (i + Z.of_nat count) s') \/
  (exists v, for_break count i body s = Some (inr v) /\ Q v).
Proof.
  revert i s. induction count as [|count IH]; intros i s Hs Hbody.
  - left. exists s. split; [done|]. by rewrite Z.add_0_r.
  - destruct (Hbody i s) as [(s1 & Hb & Hs1)|(v & Hb & HQ)]; [lia|done| |].
    + destruct (IH (i + 1) s1 Hs1) as [(s' & Hl & Hs')|(v & Hl & HQ)].
      { intros j s2 Hj. apply Hbody. lia. }
      * left. exists s'. split; [by simpl; rewrite Hb|].
        by replace (i + Z.of_nat (Datatypes.S count)) with (i + 1 + Z.of_nat count) by lia.
      * right. exists v. split; [by simpl; rewrite Hb|done].
    + right. exists v. split; [by simpl; rewrite Hb|done].
Qed.

(** Total correctness of a bounded loop: a measure below the bound that every
    iteration decreases. *)
Lemma while_loop_rule (P : S -> Prop) (Q : R -> Prop) (m : S -> nat) (fuel : nat)
    (body : S -> option (S + R)) s :
  P s -> (m s < fuel)%nat ->
  (forall s, P s ->
     (exists s', body s = Some (inl s') /\ P s' /\ (m s' < m s)%nat) \/
     (exists v, body s = Some (inr v) /\ Q v)) ->
  exists v, while_loop fuel body s = Some v /\ Q v.
Proof.
  revert s. induction fuel as [|fuel IH]; intros s Hs Hm Hbody; [lia|].
  destruct (Hbody s Hs) as [(s' & Hb & Hs' & Hd)|(v & Hb & HQ)].
  - destruct (IH s' Hs') as (v & Hl & HQ); [lia|done|].
    exists v. split; [by simpl; rewrite Hb|done].
  - exists v. split; [by simpl; rewrite Hb|done].
Qed.

Lemma while_loop_ext fuel (f g : S -> option (S + R)) s :
  (forall s, f s = g s) -> while_loop fuel f s = while_loop fuel g s.
Proof.
  intros H. revert s. induction fuel as [|fuel IH]; intros s; [done|]. cbn [while_loop].
  rewrite H. destruct (g s) as [[s'|v]|]; simpl; auto.
Qed.

(** One iteration. *)
Lemma for_break_ext count i (f g : Z -> S -> option (S + R)) s :
  (forall j s, f j s = g j s) -> for_break count i f s = for_break count i g s.
Proof.
  intros H. revert i s. induction count as [|count IH]; intros i s; [done|]. cbn [for_break].
  rewrite H. destruct (g i s) as [[s'|]|]; [|done..]. apply IH.
Qed.

Lemma while_loop_S fuel (body : S -> option (S + R)) s :
  while_loop (Datatypes.S fuel) body s =
    r ← body s; match r with inl s' => while_loop fuel body s' | inr v => Some v end.
Proof. done. Qed.

Lemma for_loop_0 i (body : Z -> S -> option S) s : for_loop 0 i body s = Some s.
Proof. done. Qed.

Lemma for_break_0 i (body : Z -> S -> option (S + R)) s : for_break 0 i body s = Some (inl s).
Proof. done. Qed.

Lemma for_loop_S count i (body : Z -> S -> option S) s :
  for_loop (Datatypes.S count) i body s = s' ← body i s; for_loop count (i + 1) body s'.
Proof. done. Qed.

Lemma for_break_S count i (body : Z -> S -> option (S + R)) s :
  for_break (Datatypes.S count) i body s =
    r ← body i s;
    match r with inl s' => for_break count (i + 1) body s' | inr v => Some (inr v) end.
Proof. done. Qed.
End loops.

#[global] Arguments while_loop : simpl never.
#[global] Arguments for_loop : simpl never.
#[global] Arguments for_break : simpl never.

(** A loop over an array that replaces each element in turn. *)
Lemma map_loop {A} (f : A -> A) (body : Z -> list A -> option (list A)) (l : list A) (n : nat) :
  length l = n ->
  (forall i l x, 0 <= i -> l !! Z.to_nat i = Some x -> body i l = Some (<[Z.to_nat i := f x]> l)) ->
  for_loop n 0 body l = Some (f <$> l).
Proof.
  intros Hn Hbody.
  destruct (for_loop_rule (fun j s => s = (f <$> take (Z.to_nat j) l) ++ drop (Z.to_nat j) l)
              n 0 body l) as (l' & -> & E).
  - done.
  - intros j s Hj ->. destruct (lookup_lt_is_Some_2 l (Z.to_nat j)) as [x Hx]; [lia|].
    assert (length (f <$> take (Z.to_nat j) l) = Z.to_nat j) as Hlen
      by (rewrite length_fmap, length_take; lia).
    eexists. split.
    + apply Hbody; [lia|]. rewrite lookup_app_r, Hlen, Nat.sub_diag, lookup_drop, Nat.add_0_r by lia.
      exact Hx.
    + replace (Z.to_nat (j + 1)) with (S (Z.to_nat j)) by lia.
      rewrite (take_S_r _ _ x), fmap_app, <- app_assoc by done.
      rewrite insert_app_r_alt, Hlen, Nat.sub_diag by lia. f_equal.
      by rewrite (drop_S l x (Z.to_nat j)).
  - f_equal. rewrite E. rewrite take_ge, drop_ge, app_nil_r by lia. done.
Qed.
