(* ===== verification/Arith.v ===== *)
(** * Integer utilities (src/core/util.c)

    The width-checked arithmetic, alignment, bit-manipulation and byte-order
    functions of the kernel's utility library, on [Z] with the C reductions
    written out.  A C [int] used as a truth value is a [bool].  A function that
    stores its answer through a pointer returns its status code together with
    the value it stored, if any; [result] says whether the pointer is non-null. *)

From S2P Require Import Prelude.

Definition status : Type := Z * option Z.

Definition fail : status := (-1, None).
Definition done_with (v : Z) : status := (0, Some v).

(** ** Minimum, maximum, clamping *)

Definition mvh_min_u64 (left right : Z) : Z := if left <? right then left else right.
Definition mvh_max_u64 (left right : Z) : Z := if right <? left then left else right.
Definition mvh_clamp_u64 (value minimum maximum : Z) : Z :=
  if value <? minimum then minimum else if maximum <? value then maximum else value.
Definition mvh_min_u32 (left right : Z) : Z := if left <? right then left else right.
Definition mvh_max_u32 (left right : Z) : Z := if right <? left then left else right.
Definition mvh_clamp_u32 (value minimum maximum : Z) : Z :=
  if value <? minimum then minimum else if maximum <? value then maximum else value.
Definition mvh_min_i64 (left right : Z) : Z := if left <? right then left else right.
Definition mvh_max_i64 (left right : Z) : Z := if right <? left then left else right.
Definition mvh_clamp_i64 (value minimum maximum : Z) : Z :=
  if value <? minimum then minimum else if maximum <? value then maximum else value.

(** ** Powers of two and alignment *)

Definition mvh_is_power_of_two_u64 (value : Z) : bool :=
  negb (value =? 0) && ((value &&& u64 (value - 1)) =? 0).

Definition mvh_align_up_u64 (value alignment : Z) : Z :=
  if negb (mvh_is_power_of_two_u64 alignment) then 0 else
  let mask := u64 (alignment - 1) in
  if U64_MAX - mask <? value then 0 else u64 (value + mask) &&& compl 64 mask.

Definition mvh_align_down_u64 (value alignment : Z) : Z :=
  if mvh_is_power_of_two_u64 alignment then value &&& compl 64 (u64 (alignment - 1)) else 0.

(** The loop [for (shift = 1; shift < 64; shift <<= 1) value |= value >> shift]
    runs six times; seven units of fuel include the exit test. *)
Definition smear (value : Z) : option Z :=
  while_loop 7 (fun '(shift, value) =>
    Some (if shift <? 64 then inl (u32 (shift << 1), value ||| (value >> shift)) else inr value))
    (1, value).

Definition mvh_next_power_of_two_u64 (value : Z) : option Z :=
  if value <=? 1 then Some 1 else
  if 1 << 63 <? value then Some 0 else
  v ← smear (u64 (value - 1)); Some (u64 (v + 1)).

(** ** Checked and saturating arithmetic *)

Definition mvh_checked_add_u64 (left right : Z) (result : bool) : status :=
  if negb result || (U64_MAX - right <? left) then fail else done_with (u64 (left + right)).

Definition mvh_checked_mul_u64 (left right : Z) (result : bool) : status :=
  if negb result || (negb (left =? 0) && (U64_MAX / left <? right)) then fail
  else done_with (u64 (left * right)).

Definition mvh_checked_sub_u64 (left right : Z) (result : bool) : status :=
  if negb result || (left <? right) then fail else done_with (u64 (left - right)).

Definition mvh_checked_add_i64 (left right : Z) (result : bool) : status :=
  if negb result || ((0 <? right) && (I64_MAX - right <? left)) ||
     ((right <? 0) && (left <? I64_MIN - right)) then fail
  else done_with (i64 (left + right)).

Definition mvh_abs_i64 (value : Z) : Z :=
  if value <? 0 then u64 (u64 (- (value + 1)) + 1) else u64 value.

Definition mvh_checked_mul_i64 (left right : Z) (result : bool) : status :=
  if negb result then fail else
  let a := mvh_abs_i64 left in
  let b := mvh_abs_i64 right in
  let negative := xorb (left <? 0) (right <? 0) in
  let limit := if negative then 1 << 63 else I64_MAX in
  if negb (b =? 0) && (limit / b <? a) then fail else
  let product := u64 (a * b) in
  done_with (if negative && (product =? 1 << 63) then I64_MIN
             else if negative then - i64 product else i64 product).

Definition mvh_saturating_add_u64 (left right : Z) : Z :=
  if U64_MAX - right <? left then U64_MAX else u64 (left + right).
Definition mvh_saturating_sub_u64 (left right : Z) : Z :=
  if left <? right then 0 else u64 (left - right).
Definition mvh_saturating_mul_u64 (left right : Z) : Z :=
  if negb (left =? 0) && (U64_MAX / left <? right) then U64_MAX else u64 (left * right).

(** ** Division *)

(** Euclid's loop.  The product of the operands halves at every step but the
    first, so 130 units of fuel cover all 64-bit operands. *)
Definition mvh_gcd_u64 (left right : Z) : option Z :=
  while_loop 130 (fun '(left, right) =>
    Some (if negb (right =? 0) then inl (right, left mod right) else inr left)) (left, right).

Definition mvh_checked_lcm_u64 (left right : Z) (result : bool) : option status :=
  if negb result then Some fail else
  if (left =? 0) || (right =? 0) then Some (done_with 0) else
  gcd ← mvh_gcd_u64 left right;
  Some (mvh_checked_mul_u64 (left / gcd) right result).

Definition mvh_ceil_div_u64 (numerator denominator : Z) : Z :=
  if denominator =? 0 then 0
  else u64 (numerator / denominator + (if negb (numerator mod denominator =? 0) then 1 else 0)).

Definition mvh_round_up_multiple_u64 (value multiple : Z) : Z :=
  if multiple =? 0 then 0 else
  let remainder := value mod multiple in
  if remainder =? 0 then value else
  if U64_MAX - (multiple - remainder) <? value then 0 else u64 (value + multiple - remainder).

Definition mvh_round_down_multiple_u64 (value multiple : Z) : Z :=
  if multiple =? 0 then 0 else u64 (value - value mod multiple).

Definition mvh_div_round_nearest_u64 (numerator denominator : Z) : Z :=
  if denominator =? 0 then 0 else
  let quotient := numerator / denominator in
  let remainder := numerator mod denominator in
  if u64 (denominator - remainder) <=? remainder then u64 (quotient + 1) else quotient.

Definition mvh_average_u64 (left right : Z) : Z :=
  u64 ((left &&& right) + ((left ^^^ right) >> 1)).

Definition mvh_is_even_u64 (value : Z) : bool := (value &&& 1) =? 0.
Definition mvh_is_odd_u64 (value : Z) : bool := negb ((value &&& 1) =? 0).
Definition mvh_sign_i64 (value : Z) : Z :=
  (if 0 <? value then 1 else 0) - (if value <? 0 then 1 else 0).

(** ** Sequences, powers, roots *)

Definition mvh_fibonacci_u64 (index : Z) (result : bool) : option status :=
  if negb result then Some fail else
  r ← for_break (Z.to_nat index) 0 (fun _ '(previous, current) =>
        match mvh_checked_add_u64 previous current true with
        | (0, Some next) => Some (inl (current, next))
        | _ => Some (inr tt)
        end) (0, 1);
  Some (match r with inl (previous, _) => done_with previous | inr _ => fail end).

Definition mvh_factorial_u64 (value : Z) (result : bool) : option status :=
  if negb result then Some fail else
  r ← for_break (Z.to_nat (value - 1)) 2 (fun factor product =>
        match mvh_checked_mul_u64 product factor true with
        | (0, Some product') => Some (inl product')
        | _ => Some (inr tt)
        end) 1;
  Some (match r with inl product => done_with product | inr _ => fail end).

(** The three steps of the loop body: multiply, halve the exponent, square. *)
Definition pow_step (st : Z * Z * Z) : option ((Z * Z * Z) + status) :=
  let '(base, exponent, product) := st in
  if exponent =? 0 then Some (inr (done_with product)) else
  match (if negb ((exponent &&& 1) =? 0) then mvh_checked_mul_u64 product base true
         else done_with product) with
  | (0, Some product') =>
      let exponent' := exponent >> 1 in
      match (if negb (exponent' =? 0) then mvh_checked_mul_u64 base base true
             else done_with base) with
      | (0, Some base') => Some (inl (base', exponent', product'))
      | _ => Some (inr fail)
      end
  | _ => Some (inr fail)
  end.

(** A 32-bit exponent is shifted to zero in at most 32 iterations. *)
Definition mvh_pow_u64 (base exponent : Z) (result : bool) : option status :=
  if negb result then Some fail else while_loop 33 pow_step (base, exponent, 1).

Definition sqrt_start (value : Z) : option Z :=
  while_loop 33 (fun bit => Some (if value <? bit then inl (bit >> 2) else inr bit)) (1 << 62).

Definition sqrt_step (st : Z * Z * Z) : option ((Z * Z * Z) + Z) :=
  let '(value, result, bit) := st in
  if bit =? 0 then Some (inr result) else
  let '(value', result') :=
    if u64 (result + bit) <=? value
    then (u64 (value - u64 (result + bit)), u64 ((result >> 1) + bit))
    else (value, result >> 1) in
  Some (inl (value', result', bit >> 2)).

(** The probe bit starts at [2^62] and loses two binary digits per iteration. *)
Definition mvh_integer_sqrt_u64 (value : Z) : option Z :=
  bit ← sqrt_start value; while_loop 33 sqrt_step (value, 0, bit).

(** ** Logarithms and bit counts *)

Definition mvh_log2_floor_u64 (value : Z) : option Z :=
  while_loop 65 (fun '(value, result) =>
    Some (if negb (value =? 0) then inl (value >> 1, i32 (result + 1)) else inr result))
    (value, -1).

Definition mvh_log2_ceil_u64 (value : Z) : option Z :=
  if value =? 0 then Some (-1) else
  floor ← mvh_log2_floor_u64 value;
  Some (if (value &&& u64 (value - 1)) =? 0 then floor else i32 (floor + 1)).

Definition popcount_loop (fuel : nat) (value : Z) : option Z :=
  while_loop fuel (fun '(value, count) =>
    Some (if negb (value =? 0) then inl (value &&& (value - 1), u32 (count + 1)) else inr count))
    (value, 0).

Definition mvh_popcount32 (value : Z) : option Z := popcount_loop 33 value.
Definition mvh_popcount64 (value : Z) : option Z := popcount_loop 65 value.

Definition mvh_parity32 (value : Z) : option Z := c ← mvh_popcount32 value; Some (c &&& 1).
Definition mvh_parity64 (value : Z) : option Z := c ← mvh_popcount64 value; Some (c &&& 1).

Definition mvh_count_leading_zero32 (value : Z) : option Z :=
  if value =? 0 then Some 32 else
  while_loop 32 (fun '(value, count) =>
    Some (if (value &&& 2147483648) =? 0 then inl (u32 (value << 1), u32 (count + 1))
          else inr count)) (value, 0).

Definition mvh_count_trailing_zero32 (value : Z) : option Z :=
  if value =? 0 then Some 32 else
  while_loop 32 (fun '(value, count) =>
    Some (if (value &&& 1) =? 0 then inl (value >> 1, u32 (count + 1)) else inr count)) (value, 0).

Definition mvh_count_leading_zero64 (value : Z) : option Z :=
  if value =? 0 then Some 64 else
  while_loop 64 (fun '(value, count) =>
    Some (if (value &&& (1 << 63)) =? 0 then inl (u64 (value << 1), u32 (count + 1))
          else inr count)) (value, 0).

Definition mvh_count_trailing_zero64 (value : Z) : option Z :=
  if value =? 0 then Some 64 else
  while_loop 64 (fun '(value, count) =>
    Some (if (value &&& 1) =? 0 then inl (value >> 1, u32 (count + 1)) else inr count)) (value, 0).

(** ** Rotations, byte order, bit reversal *)

Definition mvh_rotate_left32 (value shift : Z) : Z :=
  let shift := shift &&& 31 in
  if shift =? 0 then value else u32 (value << shift) ||| (value >> (32 - shift)).
Definition mvh_rotate_right32 (value shift : Z) : Z :=
  let shift := shift &&& 31 in
  if shift =? 0 then value else (value >> shift) ||| u32 (value << (32 - shift)).
Definition mvh_rotate_left64 (value shift : Z) : Z :=
  let shift := shift &&& 63 in
  if shift =? 0 then value else u64 (value << shift) ||| (value >> (64 - shift)).
Definition mvh_rotate_right64 (value shift : Z) : Z :=
  let shift := shift &&& 63 in
  if shift =? 0 then value else (value >> shift) ||| u64 (value << (64 - shift)).

Definition mvh_bswap16 (value : Z) : Z := u16 ((value << 8) ||| (value >> 8)).
Definition mvh_bswap32 (value : Z) : Z :=
  u32 ((value &&& 255) << 24) ||| u32 ((value &&& 65280) << 8) |||
  ((value &&& 16711680) >> 8) ||| ((value &&& 4278190080) >> 24).
Definition mvh_bswap64 (value : Z) : Z :=
  u64 (mvh_bswap32 (u32 value) << 32) ||| mvh_bswap32 (u32 (value >> 32)).

Definition mvh_reverse_bits32 (value : Z) : option Z :=
  r ← for_loop 32 0 (fun _ '(result, value) =>
        Some (u32 (result << 1) ||| (value &&& 1), value >> 1)) (0, value);
  Some (fst r).
Definition mvh_reverse_bits64 (value : Z) : option Z :=
  r ← for_loop 64 0 (fun _ '(result, value) =>
        Some (u64 (result << 1) ||| (value &&& 1), value >> 1)) (0, value);
  Some (fst r).

(** ** Single bits and bit fields *)

Definition mvh_bit_set64 (value bit : Z) : Z :=
  if bit <? 64 then value ||| u64 (1 << bit) else value.
Definition mvh_bit_clear64 (value bit : Z) : Z :=
  if bit <? 64 then value &&& compl 64 (u64 (1 << bit)) else value.
Definition mvh_bit_test64 (value bit : Z) : bool :=
  (bit <? 64) && negb ((value &&& u64 (1 << bit)) =? 0).
Definition mvh_bit_toggle64 (value bit : Z) : Z :=
  if bit <? 64 then value ^^^ u64 (1 << bit) else value.

Definition mvh_mask_range64 (offset width : Z) : Z :=
  if (64 <=? offset) || (width =? 0) then 0 else
  let width := if 64 - offset <? width then 64 - offset else width in
  u64 ((if width =? 64 then U64_MAX else u64 (1 << width) - 1) << offset).

Definition mvh_extract_bits64 (value offset width : Z) : Z :=
  let mask := mvh_mask_range64 offset width in
  if 64 <=? offset then 0 else (value &&& mask) >> offset.

Definition mvh_insert_bits64 (original field offset width : Z) : Z :=
  let mask := mvh_mask_range64 offset width in
  if 64 <=? offset then original
  else (original &&& compl 64 mask) ||| (u64 (field << offset) &&& mask).

Definition mvh_next_set_bit64 (value start : Z) : option Z :=
  r ← for_break (Z.to_nat (64 - start)) start (fun bit _ =>
        Some (if negb ((value &&& u64 (1 << bit)) =? 0) then inr bit else inl tt)) tt;
  Some (match r with inl _ => -1 | inr bit => i32 bit end).

Definition mvh_previous_set_bit64 (value start : Z) : option Z :=
  while_loop 65 (fun bit =>
    Some (if 0 <=? bit then
            if negb ((value &&& u64 (1 << bit)) =? 0) then inr bit else inl (bit - 1)
          else inr (-1)))
    (if start <? 64 then start else 63).

Definition mvh_sign_extend64 (value width : Z) : Z :=
  if (width =? 0) || (64 <? width) then 0 else
  if width =? 64 then i64 value else
  let mask := u64 (1 << width) - 1 in
  let sign := u64 (1 << (width - 1)) in
  let value := value &&& mask in
  i64 (u64 ((value ^^^ sign) - sign)).

Definition mvh_count_byte64 (value byte : Z) : option Z :=
  for_loop 8 0 (fun index count =>
    Some (if u8 (value >> (index * 8)) =? byte then u32 (count + 1) else count)) 0.

(** ** Correctness *)

Lemma land_pow2_pred x k : 0 <= k -> fits k x -> 2 ^ k &&& x = 0.
Proof.
  intros Hk Hx. zbits. destruct (Z.eq_dec n k) as [->|Hne].
  - by rewrite (testbit_above k x k), andb_false_r by (done || lia).
  - by rewrite Z.pow2_bits_false by lia.
Qed.

Lemma is_power_of_two_spec v :
  fits 64 v -> mvh_is_power_of_two_u64 v = true <-> exists k, 0 <= k < 64 /\ v = 2 ^ k.
Proof.
  intros Hv. unfold mvh_is_power_of_two_u64. rewrite andb_true_iff, negb_true_iff, Z.eqb_neq, Z.eqb_eq.
  split.
  - intros [Hnz Hl]. rewrite u64_small in Hl by warith.
    pose proof (Z.log2_spec v) as Hlog. exists (Z.log2 v). split.
    { split; [apply Z.log2_nonneg|]. apply Z.log2_lt_pow2; unfold fits in *; lia. }
    destruct (Z.eq_dec v (2 ^ Z.log2 v)) as [|Hne]; [done|exfalso].
    assert (Z.log2 (v - 1) = Z.log2 v) as Hlp.
    { apply Z.log2_unique; [apply Z.log2_nonneg|]. unfold fits in *; lia. }
    apply (f_equal (fun z => Z.testbit z (Z.log2 v))) in Hl.
    rewrite Z.land_spec, Z.bits_0, Z.bit_log2, <- Hlp, Z.bit_log2 in Hl;
      unfold fits in *; try lia.
    pose proof (Z.pow_pos_nonneg 2 (Z.log2 v)). pose proof (Z.log2_nonneg v).
    destruct (Z.eq_dec v 1) as [->|]; [by contradiction Hne|lia].
  - intros (k & Hk & ->). pose proof (Z.pow_pos_nonneg 2 k). split; [lia|].
    rewrite u64_small by (unfold fits in *; lia).
    apply land_pow2_pred; unfold fits; lia.
Qed.

Lemma land_compl_mask x k :
  0 <= k < 64 -> fits 64 x -> x &&& compl 64 (2 ^ k - 1) = x / 2 ^ k * 2 ^ k.
Proof.
  intros Hk Hx. rewrite <- Z.shiftr_div_pow2, <- Z.shiftl_mul_pow2 by lia.
  replace (2 ^ k - 1) with (Z.ones k) by (rewrite Z.ones_equiv; lia).
  assert (fits 64 (Z.ones k)).
  { rewrite Z.ones_equiv. unfold fits. pose proof (Z.pow_pos_nonneg 2 k).
    pose proof (Z.pow_le_mono_r 2 k 64). lia. }
  zbits. rewrite compl_testbit, Z.testbit_ones_nonneg by (done || lia).
  destruct (Z.ltb_spec n k).
  - rewrite (Z.testbit_neg_r _ (n - k)) by lia. btauto.
  - rewrite Z.shiftr_spec by lia. replace (n - k + k) with n by lia.
    destruct (Z.ltb_spec n 64); [by rewrite andb_true_r|].
    rewrite (testbit_above 64 x) by (done || lia). done.
Qed.

(** The least multiple of a power of two that is at least [v]. *)
Lemma round_up_div v a : 0 < a -> v <= (v + (a - 1)) / a * a < v + a.
Proof.
  intros Ha. pose proof (Z.div_mod (v + (a - 1)) a). pose proof (Z.mod_pos_bound (v + (a - 1)) a).
  nia.
Qed.

(** [mvh_align_up_u64].  For a power-of-two alignment and a value whose
    rounded-up multiple fits the type, the result is the least multiple of the
    alignment that is not below the value; for every other argument (alignment
    not a power of two, or overflow) it is 0. *)
Theorem mvh_align_up_u64_spec value alignment :
  fits 64 value -> fits 64 alignment ->
  let r := mvh_align_up_u64 value alignment in
  if mvh_is_power_of_two_u64 alignment && (value + (alignment - 1) <=? U64_MAX)
  then (alignment | r) /\ value <= r < value + alignment
  else r = 0.
Proof.
  intros Hv Ha r. subst r. unfold mvh_align_up_u64.
  destruct (mvh_is_power_of_two_u64 alignment) eqn:Hp; simpl; [|done].
  apply is_power_of_two_spec in Hp as (k & Hk & ->); [|done].
  pose proof (Z.pow_pos_nonneg 2 k) as Hpos.
  rewrite (u64_small (2 ^ k - 1)) by (unfold fits in *; lia).
  destruct (Z.leb_spec (value + (2 ^ k - 1)) U64_MAX).
  - replace (_ <? _) with false by lia. rewrite (u64_small (value + _)) by warith.
    rewrite land_compl_mask by warith.
    pose proof (round_up_div value (2 ^ k)). split; [apply Z.divide_factor_r|lia].
  - by replace (_ <? _) with true by lia.
Qed.

Lemma mvh_align_up_u64_spec_witness :
  let r := mvh_align_up_u64 4097 4096 in
  if mvh_is_power_of_two_u64 4096 && (4097 + (4096 - 1) <=? U64_MAX)
  then (4096 | r) /\ 4097 <= r < 4097 + 4096
  else r = 0.
Proof. apply (mvh_align_up_u64_spec 4097 4096); split; done. Defined.

(** One smearing step. *)
Definition smear_by (s v : Z) : Z := v ||| (v >> s).

Lemma smear_unfold x :
  smear x = Some (smear_by 32 (smear_by 16 (smear_by 8 (smear_by 4 (smear_by 2 (smear_by 1 x)))))).
Proof. reflexivity. Qed.

Definition smeared (x s v : Z) : Prop :=
  forall n, 0 <= n -> Z.testbit v n = true <-> exists j, 0 <= j < s /\ Z.testbit x (n + j) = true.

Lemma smeared_step x s v : 0 < s -> smeared x s v -> smeared x (2 * s) (smear_by s v).
Proof.
  intros Hs Hv n Hn. unfold smear_by. rewrite Z.lor_spec, orb_true_iff, Z.shiftr_spec by lia.
  rewrite (Hv n), (Hv (n + s)) by lia. split.
  - intros [(j & Hj & Hb)|(j & Hj & Hb)].
    + exists j. split; [lia|done].
    + exists (s + j). split; [lia|]. by rewrite Z.add_assoc.
  - intros (j & Hj & Hb). destruct (Z.lt_ge_cases j s).
    + left. exists j. split; [lia|done].
    + right. exists (j - s). split; [lia|]. rewrite <- Hb. f_equal. lia.
Qed.

Lemma smear_spec x : 0 < x < 2 ^ 64 -> smear x = Some (2 ^ (Z.log2 x + 1) - 1).
Proof.
  intros Hx. rewrite smear_unfold. f_equal.
  assert (smeared x 1 x) as H0.
  { intros n Hn. split; [exists 0; split; [lia|by rewrite Z.add_0_r]|].
    intros (j & Hj & Hb). by replace (n + j) with n in Hb by lia. }
  do 6 (apply smeared_step in H0; [|lia]).
  match goal with |- ?v = _ => assert (smeared x 64 v) as Hv by exact H0; clear H0; revert Hv;
    generalize v end. intros v Hv.
  pose proof (Z.log2_nonneg x). assert (Z.log2 x < 64) by (apply Z.log2_lt_pow2; lia).
  replace (2 ^ (Z.log2 x + 1) - 1) with (Z.ones (Z.log2 x + 1)) by (rewrite Z.ones_equiv; lia).
  apply Z.bits_inj'. intros n Hn. rewrite Z.testbit_ones_nonneg by lia.
  destruct (Z.ltb_spec n (Z.log2 x + 1)).
  - apply Hv; [done|]. exists (Z.log2 x - n). split; [lia|].
    replace (n + (Z.log2 x - n)) with (Z.log2 x) by lia. apply Z.bit_log2. lia.
  - apply not_true_iff_false. intros (j & Hj & Hb)%Hv; [|done].
    rewrite Z.bits_above_log2 in Hb by lia. done.
Qed.

(** [mvh_next_power_of_two_u64].  The bit-smearing loop terminates and
    yields the least power of two that is not below the value, for every value
    up to [2^63]; above, where no power of two fits the type, it yields 0. *)
Theorem mvh_next_power_of_two_u64_spec value :
  fits 64 value ->
  exists r, mvh_next_power_of_two_u64 value = Some r /\
    if value <=? 2 ^ 63
    then (exists k, 0 <= k < 64 /\ r = 2 ^ k) /\ value <= r /\
         (forall k, 0 <= k -> value <= 2 ^ k -> r <= 2 ^ k)
    else r = 0.
Proof.
  intros Hv. unfold mvh_next_power_of_two_u64. change (1 << 63) with (2 ^ 63).
  destruct (Z.leb_spec value 1).
  { exists 1. split; [done|]. rewrite (proj2 (Z.leb_le _ _)) by lia.
    split; [by exists 0|]. split; [lia|]. intros k Hk _. pose proof (Z.pow_pos_nonneg 2 k). lia. }
  destruct (Z.ltb_spec (2 ^ 63) value).
  { exists 0. split; [done|]. by rewrite (proj2 (Z.leb_gt _ _)) by lia. }
  rewrite (proj2 (Z.leb_le value (2 ^ 63))) by lia.
  rewrite u64_small by warith. rewrite smear_spec by warith. cbn [mbind option_bind].
  set (k := Z.log2 (value - 1) + 1).
  pose proof (Z.log2_spec (value - 1)) as Hlog. pose proof (Z.log2_nonneg (value - 1)).
  assert (k <= 63) by (assert (Z.log2 (value - 1) < 63) by (apply Z.log2_lt_pow2; lia); lia).
  exists (2 ^ k). split.
  { replace (2 ^ k - 1 + 1) with (2 ^ k) by lia. f_equal. apply u64_small. split; [lia|].
    apply Z.pow_lt_mono_r; lia. }
  split; [exists k; lia|]. split; [unfold k; rewrite Z.add_1_r; lia|].
  intros k' Hk' Hle. apply Z.pow_le_mono_r; [lia|]. unfold k.
  assert (Z.log2 (value - 1) < k') by (apply Z.log2_lt_pow2; lia). lia.
Qed.

Lemma mvh_next_power_of_two_u64_spec_witness :
  exists r, mvh_next_power_of_two_u64 5000 = Some r /\
    if 5000 <=? 2 ^ 63
    then (exists k, 0 <= k < 64 /\ r = 2 ^ k) /\ 5000 <= r /\
         (forall k, 0 <= k -> 5000 <= 2 ^ k -> r <= 2 ^ k)
    else r = 0.
Proof. apply (mvh_next_power_of_two_u64_spec 5000). split; done. Defined.

(** ** Multiplication with overflow checks *)

Lemma div_lt_mul l r : 0 < l -> 0 <= r -> U64_MAX / l < r <-> U64_MAX < l * r.
Proof.
  intros Hl Hr. split; intros H.
  - pose proof (Z.mul_succ_div_gt U64_MAX l Hl). nia.
  - apply Z.div_lt_upper_bound; lia.
Qed.

Lemma checked_mul_u64_spec l r :
  fits 64 l -> fits 64 r ->
  mvh_checked_mul_u64 l r true = if l * r <=? U64_MAX then done_with (l * r) else fail.
Proof.
  intros Hl Hr. unfold mvh_checked_mul_u64. simpl.
  destruct (Z.eqb_spec l 0) as [->|Hnz]; simpl; [done|].
  pose proof (div_lt_mul l r) as Hd. unfold fits in *.
  destruct (Z.ltb_spec (U64_MAX / l) r); destruct (Z.leb_spec (l * r) U64_MAX); try lia; [done|].
  rewrite u64_small; [done|]. unfold fits, U64_MAX in *. nia.
Qed.

Lemma checked_add_u64_spec l r :
  fits 64 l -> fits 64 r ->
  mvh_checked_add_u64 l r true = if l + r <=? U64_MAX then done_with (l + r) else fail.
Proof.
  intros Hl Hr. unfold mvh_checked_add_u64. simpl.
  destruct (Z.ltb_spec (U64_MAX - r) l); destruct (Z.leb_spec (l + r) U64_MAX); try lia; [done|].
  by rewrite u64_small by warith.
Qed.

Lemma abs_i64_spec v : sfits 64 v -> mvh_abs_i64 v = Z.abs v.
Proof.
  intros Hv. unfold mvh_abs_i64. change (sfits 64 v) with (- 2 ^ 63 <= v < 2 ^ 63) in Hv.
  split_if; [rewrite (u64_small (- (v + 1))) by warith|]; rewrite u64_small by warith; lia.
Qed.

Lemma i64_small v : sfits 64 v -> i64 v = v.
Proof.
  intros Hv. change (sfits 64 v) with (- 2 ^ 63 <= v < 2 ^ 63) in Hv. unfold i64.
  rewrite Z.mod_small by (pow2; lia). lia.
Qed.

Lemma limit_div_spec limit a b :
  0 <= a -> 0 <= b -> 0 <= limit ->
  negb (b =? 0) && (limit / b <? a) = (limit <? a * b).
Proof.
  intros Ha Hb Hl. destruct (Z.eqb_spec b 0) as [->|Hnz]; simpl.
  - symmetry. apply Z.ltb_ge. lia.
  - apply eq_true_iff_eq. rewrite !Z.ltb_lt. split; intros H.
    + pose proof (Z.mul_succ_div_gt limit b). nia.
    + apply Z.div_lt_upper_bound; nia.
Qed.

(** [mvh_checked_mul_i64] is exact.  For all signed 64-bit operands it
    stores the mathematical product when that product is a signed 64-bit
    integer (the most negative one included), and reports -1 and stores
    nothing otherwise. *)
Theorem mvh_checked_mul_i64_exact left right :
  sfits 64 left -> sfits 64 right ->
  mvh_checked_mul_i64 left right true =
    if (I64_MIN <=? left * right) && (left * right <=? I64_MAX)
    then done_with (left * right) else fail.
Proof.
  intros Hl Hr. unfold mvh_checked_mul_i64. simpl negb. cbv iota.
  rewrite !abs_i64_spec by done.
  change (sfits 64 left) with (- 2 ^ 63 <= left < 2 ^ 63) in Hl.
  change (sfits 64 right) with (- 2 ^ 63 <= right < 2 ^ 63) in Hr.
  change (1 << 63) with (2 ^ 63). rewrite limit_div_spec by (try split_if; warith).
  assert (Z.abs left * Z.abs right = Z.abs (left * right)) as -> by (rewrite Z.abs_mul; lia).
  assert (xorb (left <? 0) (right <? 0) = true -> left * right <= 0) as Hneg.
  { destruct (Z.ltb_spec left 0), (Z.ltb_spec right 0); simpl; try done; nia. }
  assert (xorb (left <? 0) (right <? 0) = false -> 0 <= left * right) as Hpos.
  { destruct (Z.ltb_spec left 0), (Z.ltb_spec right 0); simpl; try done; nia. }
  set (p := left * right) in *. clearbody p. unfold fail, done_with, I64_MIN, I64_MAX.
  destruct (xorb _ _); cbv iota; simpl andb.
  - specialize (Hneg eq_refl). clear Hpos.
    destruct (Z.ltb_spec (2 ^ 63) (Z.abs p)).
    + replace ((- 2 ^ 63 <=? p) && _) with false by lia. done.
    + replace ((- 2 ^ 63 <=? p) && _) with true by lia. rewrite u64_small by warith.
      destruct (Z.eqb_spec (Z.abs p) (2 ^ 63)); repeat f_equal; [lia|].
      rewrite i64_small by (change (- 2 ^ 63 <= Z.abs p < 2 ^ 63); lia). lia.
  - specialize (Hpos eq_refl). clear Hneg.
    destruct (Z.ltb_spec (2 ^ 63 - 1) (Z.abs p)).
    + replace ((- 2 ^ 63 <=? p) && _) with false by lia. done.
    + replace ((- 2 ^ 63 <=? p) && _) with true by lia. rewrite u64_small by warith.
      repeat f_equal. rewrite i64_small by (change (- 2 ^ 63 <= Z.abs p < 2 ^ 63); lia). lia.
Qed.

Lemma mvh_checked_mul_i64_exact_witness :
  mvh_checked_mul_i64 (- 2 ^ 62) 2 true =
    if (I64_MIN <=? - 2 ^ 62 * 2) && (- 2 ^ 62 * 2 <=? I64_MAX)
    then done_with (- 2 ^ 62 * 2) else fail.
Proof. apply (mvh_checked_mul_i64_exact (- 2 ^ 62) 2); split; done. Defined.

(** ** Greatest common divisor *)

Definition gcd_measure (s : Z * Z) : nat :=
  let '(l, r) := s in
  if r =? 0 then 0%nat
  else Z.to_nat (1 + Z.log2 (l * r) + (if l <? r then 1 else 0)).

Lemma gcd_measure_step l r :
  0 <= l -> 0 < r -> (gcd_measure (r, (l mod r)%Z) < gcd_measure (l, r))%nat.
Proof.
  intros Hl Hr. unfold gcd_measure. rewrite (proj2 (Z.eqb_neq r 0)) by lia.
  pose proof (Z.mod_pos_bound l r Hr). pose proof (Z.log2_nonneg (l * r)).
  destruct (Z.eqb_spec (l mod r) 0); [split_if; lia|].
  replace (r <? l mod r) with false by lia.
  destruct (Z.ltb_spec l r).
  - rewrite Z.mod_small, (Z.mul_comm r l) by lia. lia.
  - pose proof (Z.div_mod l r). assert (1 <= l / r) by (apply Z.div_le_lower_bound; lia).
    assert (2 * (r * (l mod r)) < l * r) by nia.
    assert (0 < r * (l mod r)) by nia.
    assert (Z.log2 (r * (l mod r)) < Z.log2 (l * r)).
    { apply Z.log2_lt_pow2; [done|]. pose proof (Z.log2_spec (l * r)) as Hs.
      rewrite Z.pow_succ_r in Hs by apply Z.log2_nonneg. lia. }
    pose proof (Z.log2_nonneg (r * (l mod r))). lia.
Qed.

Lemma gcd_measure_bound l r : fits 64 l -> fits 64 r -> (gcd_measure (l, r) < 130)%nat.
Proof.
  intros Hl Hr. unfold gcd_measure. split_if; [lia|].
  assert (Z.log2 (l * r) < 128).
  { destruct (Z.eq_dec (l * r) 0) as [->|]; [done|]. apply Z.log2_lt_pow2; unfold fits in *; [nia|].
    change (2 ^ 128) with (2 ^ 64 * 2 ^ 64). nia. }
  split_if; lia.
Qed.

Lemma mvh_gcd_u64_spec left right :
  fits 64 left -> fits 64 right -> mvh_gcd_u64 left right = Some (Z.gcd left right).
Proof.
  intros Hl Hr. unfold mvh_gcd_u64.
  edestruct (while_loop_rule
    (fun '(l, r) => 0 <= l /\ 0 <= r /\ Z.gcd l r = Z.gcd left right)
    (fun v => v = Z.gcd left right) gcd_measure 130) as (v & -> & ->); [| | |done].
  - unfold fits in *. simpl. lia.
  - by apply gcd_measure_bound.
  - intros [l r] (H1 & H2 & H3). destruct (Z.eqb_spec r 0) as [->|]; simpl.
    + right. exists l. split; [done|]. rewrite <- H3, Z.gcd_0_r. lia.
    + left. exists (r, l mod r). split; [done|]. pose proof (Z.mod_pos_bound l r).
      split; [split; [lia|split; [lia|]]|apply gcd_measure_step; lia].
      rewrite Z.gcd_comm, Z.gcd_mod by done. by rewrite Z.gcd_comm.
Qed.

(** [mvh_checked_lcm_u64] is exact.  Euclid's loop terminates for all
    64-bit operands, and the function stores the least common multiple when
    it fits 64 bits and reports -1 otherwise; an intermediate overflow never
    spoils a representable result. *)
Theorem mvh_checked_lcm_u64_exact left right :
  fits 64 left -> fits 64 right ->
  mvh_checked_lcm_u64 left right true =
    Some (if Z.lcm left right <=? U64_MAX then done_with (Z.lcm left right) else fail).
Proof.
  intros Hl Hr. unfold mvh_checked_lcm_u64. simpl negb. cbv iota.
  destruct (Z.eqb_spec left 0) as [->|]; simpl; [done|].
  destruct (Z.eqb_spec right 0) as [->|]; simpl; [by rewrite Z.lcm_0_r|].
  rewrite mvh_gcd_u64_spec by done. simpl. f_equal.
  pose proof (Z.gcd_nonneg left right).
  assert (Z.gcd left right <> 0) by (intros [? ?]%Z.gcd_eq_0; lia).
  pose proof (Z.gcd_divide_l left right) as [q Hq].
  assert (left / Z.gcd left right = q) as Hdiv by (rewrite Hq at 1; by apply Z.div_mul).
  unfold fits in *. assert (0 <= q <= left) by nia.
  rewrite checked_mul_u64_spec by (unfold fits; rewrite ?Hdiv; lia).
  assert (Z.lcm left right = left / Z.gcd left right * right) as ->; [|done].
  rewrite Z.lcm_comm. unfold Z.lcm. rewrite (Z.gcd_comm right left), Hdiv.
  rewrite Z.abs_eq by nia. apply Z.mul_comm.
Qed.

Lemma mvh_checked_lcm_u64_exact_witness :
  mvh_checked_lcm_u64 12 18 true =
    Some (if Z.lcm 12 18 <=? U64_MAX then done_with (Z.lcm 12 18) else fail).
Proof. apply (mvh_checked_lcm_u64_exact 12 18); split; done. Defined.

(** ** Powers *)

Lemma odd_even_split e : 0 <= e -> e = 2 * (e >> 1) + (e &&& 1).
Proof.
  intros He. rewrite land_1, Z.shiftr_div_pow2 by lia. apply Z.div_mod. lia.
Qed.

(** The loop invariant of the square-and-multiply loop. *)
Definition pow_inv (b e : Z) (st : Z * Z * Z) : Prop :=
  let '(base, exponent, product) := st in
  fits 64 base /\ fits 32 exponent /\ fits 64 product /\ (1 <= product \/ base = 0) /\
  product * base ^ exponent = b ^ e.

Definition pow_measure (st : Z * Z * Z) : nat :=
  let exponent := snd (fst st) in
  if exponent =? 0 then 0%nat else Z.to_nat (Z.log2 exponent + 1).

Lemma pow_ge_self x n : 1 <= x -> 1 <= n -> x <= x ^ n.
Proof. intros Hx Hn. replace x with (x ^ 1) at 1 by lia. apply Z.pow_le_mono_r; lia. Qed.

Lemma pow_step_spec b e st :
  pow_inv b e st ->
  (exists st', pow_step st = Some (inl st') /\ pow_inv b e st' /\
     (pow_measure st' < pow_measure st)%nat) \/
  (exists v, pow_step st = Some (inr v) /\
     v = if b ^ e <=? U64_MAX then done_with (b ^ e) else fail).
Proof.
  destruct st as [[base exponent] product]. intros (Hb & He & Hp & Hnz & Heq).
  unfold pow_step. destruct (Z.eqb_spec exponent 0) as [->|Hne].
  { right. eexists. split; [done|]. rewrite Z.pow_0_r, Z.mul_1_r in Heq. subst product.
    by rewrite (proj2 (Z.leb_le _ _)) by warith. }
  assert (0 <= exponent) as He0 by (unfold fits in *; lia).
  pose proof (odd_even_split exponent He0) as Hs.
  set (h := exponent >> 1) in *. set (o := exponent &&& 1) in *.
  assert (o = 0 \/ o = 1) as Ho.
  { subst o. rewrite land_1. pose proof (Z.mod_pos_bound exponent 2). lia. }
  assert (0 <= h) by (subst h; apply Z.shiftr_nonneg; unfold fits in *; lia).
  assert (base ^ exponent = (base * base) ^ h * base ^ o) as Hpow.
  { rewrite Hs at 1. rewrite Z.pow_add_r, Z.pow_mul_r by lia. by rewrite Z.pow_2_r. }
  unfold fits in *. assert (0 < U64_MAX) as HU by done.
  assert ((if negb (o =? 0) then mvh_checked_mul_u64 product base true else done_with product) =
     if product * base ^ o <=? U64_MAX then done_with (product * base ^ o) else fail) as ->.
  { destruct Ho as [-> | ->]; simpl; rewrite ?Z.pow_1_r, ?Z.pow_0_r, ?Z.mul_1_r.
    - by rewrite (proj2 (Z.leb_le product U64_MAX)) by warith.
    - by apply checked_mul_u64_spec. }
  assert (1 <= base -> 1 <= (base * base) ^ h) as Hge1.
  { intros. pose proof (Z.pow_pos_nonneg (base * base) h). nia. }
  destruct (Z.leb_spec (product * base ^ o) U64_MAX) as [Hm|Hm]; simpl.
  2: { right. eexists. split; [done|]. rewrite (proj2 (Z.leb_gt _ _)); [done|].
       rewrite <- Heq, Hpow. destruct Ho as [-> | ->];
         rewrite ?Z.pow_1_r, ?Z.pow_0_r, ?Z.mul_1_r in *; [warith|].
       assert (1 <= base) by nia. specialize (Hge1 ltac:(lia)). nia. }
  assert (0 <= product * base ^ o /\ (1 <= product * base ^ o \/ base = 0)) as [Hp' Hnz'].
  { destruct Ho as [-> | ->]; rewrite ?Z.pow_1_r, ?Z.pow_0_r; nia. }
  destruct (Z.eqb_spec h 0) as [Hh|Hh]; simpl.
  - left. exists (base, h, product * base ^ o). split; [done|]. split.
    + rewrite Hh. unfold pow_inv, fits. split_and!; try done; try warith.
      rewrite <- Heq, Hpow, Hh, !Z.pow_0_r. lia.
    + unfold pow_measure. simpl. rewrite Hh, (proj2 (Z.eqb_neq exponent 0)) by done. simpl.
      pose proof (Z.log2_nonneg exponent). lia.
  - rewrite checked_mul_u64_spec by (unfold fits; lia).
    destruct (Z.leb_spec (base * base) U64_MAX) as [Hq|Hq]; simpl.
    + left. exists (base * base, h, product * base ^ o). split; [done|]. split.
      * unfold pow_inv, fits. split_and!; first [warith | nia].
      * unfold pow_measure. simpl. rewrite (proj2 (Z.eqb_neq exponent 0)) by done.
        rewrite (proj2 (Z.eqb_neq h 0)) by done.
        assert (Z.log2 h < Z.log2 exponent).
        { apply Z.log2_lt_pow2; [lia|].
          pose proof (Z.log2_spec exponent) as Hl. rewrite Z.pow_succ_r in Hl; [lia|].
          apply Z.log2_nonneg. }
        pose proof (Z.log2_nonneg h). lia.
    + right. eexists. split; [done|]. rewrite (proj2 (Z.leb_gt _ _)); [done|].
      rewrite <- Heq, Hpow. assert (1 <= base) by nia. destruct Hnz' as [Hnz'|]; [|lia].
      pose proof (pow_ge_self (base * base) h). nia.
Qed.

(** [mvh_pow_u64] is exact.  The square-and-multiply loop terminates for
    every base and 32-bit exponent, stores [base ^ exponent] when it fits 64
    bits, and reports overflow exactly when it does not: the squaring of the
    base is skipped when no exponent bit is left, so it never reports a
    spurious overflow. *)
Theorem mvh_pow_u64_exact base exponent :
  fits 64 base -> fits 32 exponent ->
  mvh_pow_u64 base exponent true =
    Some (if base ^ exponent <=? U64_MAX then done_with (base ^ exponent) else fail).
Proof.
  intros Hb He. unfold mvh_pow_u64. simpl negb. cbv iota.
  edestruct (while_loop_rule (pow_inv base exponent)
    (fun v => v = if base ^ exponent <=? U64_MAX then done_with (base ^ exponent) else fail)
    pow_measure 33) as (v & -> & ->); [| | |done].
  - unfold pow_inv. unfold fits in *. repeat split; try warith; lia.
  - unfold pow_measure. simpl. split_if; [lia|]. unfold fits in *.
    assert (Z.log2 exponent < 32) by (apply Z.log2_lt_pow2; lia). lia.
  - intros st Hst. by apply pow_step_spec.
Qed.

Lemma mvh_pow_u64_exact_witness :
  mvh_pow_u64 3 40 true = Some (if 3 ^ 40 <=? U64_MAX then done_with (3 ^ 40) else fail).
Proof. apply (mvh_pow_u64_exact 3 40); split; done. Defined.

(** ** Square root *)

(** The probe bit [4^k]: its number of remaining positions, and its shift. *)
Definition probe_measure (bit : Z) : nat :=
  if bit =? 0 then 0%nat else Z.to_nat (Z.log2 bit / 2 + 1).

Lemma pow4 k : 0 <= k -> 4 ^ k = 2 ^ k * 2 ^ k /\ 0 < 2 ^ k.
Proof.
  intros Hk. split; [change 4 with (2 * 2); apply Z.pow_mul_l|apply Z.pow_pos_nonneg; lia].
Qed.

Lemma probe_measure_pow4 k : 0 <= k -> probe_measure (4 ^ k) = Z.to_nat (k + 1).
Proof.
  intros Hk. unfold probe_measure. destruct (pow4 k Hk). split_if; [nia|].
  change 4 with (2 ^ 2). rewrite <- Z.pow_mul_r, Z.log2_pow2 by lia.
  by rewrite Z.mul_comm, Z.div_mul by lia.
Qed.

Lemma probe_shift k : 0 <= k -> 4 ^ k >> 2 = if k =? 0 then 0 else 4 ^ (k - 1).
Proof.
  intros Hk. rewrite Z.shiftr_div_pow2 by lia. change (2 ^ 2) with 4.
  destruct (Z.eqb_spec k 0) as [->|]; [done|].
  replace k with (k - 1 + 1) at 1 by lia. rewrite Z.pow_add_r, Z.pow_1_r by lia.
  by apply Z.div_mul.
Qed.

Lemma probe_decrease k : 0 <= k -> (probe_measure (4 ^ k >> 2) < probe_measure (4 ^ k))%nat.
Proof.
  intros Hk. rewrite probe_shift, (probe_measure_pow4 k) by done.
  destruct (Z.eqb_spec k 0) as [->|]; [unfold probe_measure; simpl; lia|].
  rewrite probe_measure_pow4; lia.
Qed.

Lemma sqrt_start_spec value :
  fits 64 value ->
  exists bit, sqrt_start value = Some bit /\
    (bit = 0 /\ value = 0 \/ exists k, 0 <= k <= 31 /\ bit = 4 ^ k /\ value < 4 * 4 ^ k).
Proof.
  intros Hv. unfold sqrt_start.
  apply (while_loop_rule
    (fun bit => bit = 0 /\ value = 0 \/ exists k, 0 <= k <= 31 /\ bit = 4 ^ k /\ value < 4 * 4 ^ k)
    _ probe_measure).
  - right. exists 31. unfold fits in *. split_and!; try done.
    change (4 * 4 ^ 31) with (2 ^ 64). lia.
  - change (1 << 62) with (4 ^ 31). rewrite probe_measure_pow4; lia.
  - intros bit [[-> ->]|(k & Hk & -> & Hlt)]; [by right; exists 0; eauto|].
    destruct (Z.ltb_spec value (4 ^ k)) as [Hb|Hb]; [left|right; eauto 10].
    exists (4 ^ k >> 2). split; [done|]. split; [|apply probe_decrease; lia].
    rewrite probe_shift by lia. destruct (Z.eqb_spec k 0) as [->|].
    + left. unfold fits in *. change (4 ^ 0) with 1 in Hb. lia.
    + right. exists (k - 1). split_and!; [lia..|done|].
      by rewrite <- Z.pow_succ_r, <- Z.add_1_r, Z.sub_add by lia.
Qed.

(** The invariant of the digit-by-digit loop with probe bit [4^k]: [a] is the
    root found so far, [value] the remainder, [result] the doubled root scaled
    to the position of the probe. *)
Definition sqrt_inv (v : Z) (st : Z * Z * Z) : Prop :=
  let '(value, result, bit) := st in
  bit = 0 /\ 0 <= result /\ result * result <= v < (result + 1) * (result + 1) \/
  exists k a, 0 <= k <= 31 /\ 0 <= a <= 2 ^ 32 - 2 * 2 ^ k /\ bit = 4 ^ k /\
    value = v - a * a /\ 0 <= value /\ result = a * (2 * 2 ^ k) /\
    v < (a + 2 * 2 ^ k) * (a + 2 * 2 ^ k).

(** The root after one step. *)
Lemma sqrt_step_unfold v k a :
  fits 64 v -> 0 <= k <= 31 -> 0 <= a <= 2 ^ 32 - 2 * 2 ^ k -> a * a <= v ->
  exists a', sqrt_step (v - a * a, a * (2 * 2 ^ k), 4 ^ k) =
      Some (inl (v - a' * a', a' * 2 ^ k, 4 ^ k >> 2)) /\
    (a' = a /\ v < (a + 2 ^ k) * (a + 2 ^ k) \/ a' = a + 2 ^ k /\ a' * a' <= v).
Proof.
  intros Hv Hk Ha Hsq. destruct (pow4 k) as [Hp4 Hk2]; [lia|].
  assert (2 ^ k <= 2 ^ 31) by (apply Z.pow_le_mono_r; lia).
  unfold sqrt_step. rewrite (proj2 (Z.eqb_neq (4 ^ k) 0)) by nia.
  assert ((a * (2 * 2 ^ k)) >> 1 = a * 2 ^ k) as ->.
  { rewrite Z.shiftr_div_pow2, Z.mul_assoc, (Z.mul_comm a 2), <- Z.mul_assoc, Z.mul_comm by lia.
    by apply Z.div_mul. }
  rewrite !(u64_small (a * (2 * 2 ^ k) + 4 ^ k)) by (unfold fits in *; pow2; nia).
  destruct (Z.leb_spec (a * (2 * 2 ^ k) + 4 ^ k) (v - a * a)).
  - exists (a + 2 ^ k). rewrite !u64_small by (unfold fits in *; pow2; nia).
    split; [do 4 f_equal; nia|]. right. split; [done|nia].
  - exists a. split; [done|]. left. split; [done|nia].
Qed.

Lemma sqrt_step_spec v st :
  fits 64 v -> sqrt_inv v st ->
  (exists st', sqrt_step st = Some (inl st') /\ sqrt_inv v st' /\
     (probe_measure (snd st') < probe_measure (snd st))%nat) \/
  (exists r, sqrt_step st = Some (inr r) /\ (0 <= r /\ r * r <= v < (r + 1) * (r + 1))).
Proof.
  destruct st as [[value result] bit].
  intros Hv [(-> & Hr & Hsq)|(k & a & Hk & Ha & -> & -> & Hnn & -> & Hup)].
  { right. by exists result. }
  left. destruct (sqrt_step_unfold v k a) as (a' & -> & Ha'); [done..|lia|].
  destruct (pow4 k) as [Hp4 Hk2]; [lia|].
  eexists. split; [done|]. split; [|apply probe_decrease; lia].
  unfold sqrt_inv. rewrite probe_shift by lia.
  destruct (Z.eqb_spec k 0) as [->|Hne].
  - left. change (2 ^ 0) with 1 in *. rewrite Z.mul_1_r. split; [done|]. nia.
  - right. exists (k - 1), a'.
    assert (2 * 2 ^ (k - 1) = 2 ^ k) as ->.
    { rewrite <- Z.pow_succ_r by lia. f_equal. lia. }
    split_and!; try done; nia.
Qed.

(** [mvh_integer_sqrt_u64].  Both loops terminate, no intermediate sum
    leaves 64 bits, and the result is the integer square root: the largest
    [r] with [r * r <= value]. *)
Theorem mvh_integer_sqrt_u64_spec value :
  fits 64 value ->
  exists r, mvh_integer_sqrt_u64 value = Some r /\ 0 <= r /\ r * r <= value < (r + 1) * (r + 1).
Proof.
  intros Hv. unfold mvh_integer_sqrt_u64.
  destruct (sqrt_start_spec value Hv) as (bit & -> & Hbit). cbn [mbind option_bind].
  apply (while_loop_rule (sqrt_inv value) _ (fun st => probe_measure (snd st))).
  - destruct Hbit as [[-> ->]|(k & Hk & -> & Hlt)]; [left; lia|right; exists k, 0].
    destruct (pow4 k) as [Hp4 Hk2]; [lia|].
    assert (2 * 2 ^ k <= 2 ^ 32) by (rewrite <- Z.pow_succ_r by lia; apply Z.pow_le_mono_r; lia).
    unfold fits in *. split_and!; try done; nia.
  - cbn [snd]. destruct Hbit as [[-> _]|(k & Hk & -> & _)]; [unfold probe_measure; simpl; lia|].
    rewrite probe_measure_pow4; lia.
  - intros st Hst. by apply sqrt_step_spec.
Qed.

Lemma mvh_integer_sqrt_u64_spec_witness :
  exists r, mvh_integer_sqrt_u64 1000000 = Some r /\
    0 <= r /\ r * r <= 1000000 < (r + 1) * (r + 1).
Proof. apply (mvh_integer_sqrt_u64_spec 1000000). split; done. Defined.

(** [mvh_mask_range64] is the set of bits of the range, cut at bit 63. *)
Lemma mask_range_testbit offset width n :
  0 <= offset -> 0 <= width -> 0 <= n ->
  Z.testbit (mvh_mask_range64 offset width) n = (offset <=? n) && (n <? offset + width) && (n <? 64).
Proof.
  intros Ho Hw Hn. unfold mvh_mask_range64.
  destruct (_ || _) eqn:He.
  { rewrite Z.bits_0. symmetry. lia. }
  set (w := if 64 - offset <? width then 64 - offset else width).
  assert (0 < w <= 64 - offset /\ (w = width \/ w = 64 - offset /\ w < width)) as Hwr.
  { unfold w. apply orb_false_iff in He. split_if; lia. }
  assert ((if w =? 64 then U64_MAX else u64 (1 << w) - 1) = Z.ones w) as ->.
  { rewrite Z.ones_equiv. destruct (Z.eqb_spec w 64) as [->|]; [done|].
    rewrite Z.shiftl_1_l, u64_small; [lia|]. split; [apply Z.pow_nonneg; lia|].
    apply Z.pow_lt_mono_r; lia. }
  unfold u64. rewrite Z.testbit_mod_pow2, Z.shiftl_spec by lia.
  destruct (Z.leb_spec offset n); simpl.
  - rewrite Z.testbit_ones_nonneg by lia. lia.
  - rewrite Z.testbit_neg_r by lia. lia.
Qed.

Lemma mask_range_fits offset width : 0 <= offset -> 0 <= width -> fits 64 (mvh_mask_range64 offset width).
Proof.
  intros Ho Hw. apply bits_below; [done|]. intros n Hn.
  rewrite mask_range_testbit by lia. lia.
Qed.

Lemma insert_bits_testbit original field offset width n :
  fits 64 original -> fits 64 field -> 0 <= offset -> 0 <= width -> 0 <= n ->
  Z.testbit (mvh_insert_bits64 original field offset width) n =
    if (offset <=? n) && (n <? offset + width) && (n <? 64)
    then Z.testbit field (n - offset) else Z.testbit original n.
Proof.
  intros Hor Hf Ho Hw Hn. unfold mvh_insert_bits64.
  destruct (Z.leb_spec 64 offset).
  { by replace (_ && _ && _) with false by lia. }
  rewrite Z.lor_spec, !Z.land_spec, compl_testbit, mask_range_testbit by (auto using mask_range_fits || lia).
  unfold u64. rewrite Z.testbit_mod_pow2, Z.shiftl_spec by lia.
  destruct (Z.ltb_spec n 64).
  - destruct (_ && _ && _); simpl; btauto.
  - rewrite (testbit_above 64 original) by (done || lia). rewrite !andb_false_r. done.
Qed.

(** [mvh_insert_bits64] and [mvh_extract_bits64].  Inserting a field
    leaves every bit outside the range as it was, and extracting the range
    then gives the field cut to the width that lies below bit 64, for every
    offset and width, ranges that run past bit 63 included. *)
Theorem insert_extract_bits64 original field offset width :
  fits 64 original -> fits 64 field -> 0 <= offset < 64 -> fits 32 width ->
  let r := mvh_insert_bits64 original field offset width in
  mvh_extract_bits64 r offset width = field mod 2 ^ Z.min width (64 - offset) /\
  fits 64 r /\
  forall n, 0 <= n -> n < offset \/ offset + width <= n -> Z.testbit r n = Z.testbit original n.
Proof.
  intros Hor Hf Ho Hw r. unfold fits in Hw.
  assert (forall n, 0 <= n -> Z.testbit r n = _) as Hr
    by (intros n Hn; apply insert_bits_testbit; (done || lia)).
  split_and!.
  - unfold mvh_extract_bits64. rewrite (proj2 (Z.leb_gt 64 offset)) by lia.
    zbits. rewrite Hr, mask_range_testbit by lia.
    destruct (Z.ltb_spec n (Z.min width (64 - offset))); simpl.
    + replace ((offset <=? n + offset) && _ && _) with true by lia.
      by rewrite andb_true_r, Z.add_simpl_r.
    + replace ((offset <=? n + offset) && _ && _) with false by lia. apply andb_false_r.
  - apply bits_below; [done|]. intros n Hn. rewrite Hr by lia.
    replace (_ && _ && _) with false by lia. by apply (testbit_above 64).
  - intros n Hn Hout. rewrite Hr by done. by replace (_ && _ && _) with false by lia.
Qed.

Lemma insert_extract_bits64_witness :
  let r := mvh_insert_bits64 U64_MAX 5 60 8 in
  mvh_extract_bits64 r 60 8 = 5 mod 2 ^ Z.min 8 (64 - 60) /\
  fits 64 r /\
  forall n, 0 <= n -> n < 60 \/ 60 + 8 <= n -> Z.testbit r n = Z.testbit U64_MAX n.
Proof. apply (insert_extract_bits64 U64_MAX 5 60 8); split; done. Defined.

(** The Fibonacci numbers, by the pair recursion the source iterates. *)
Fixpoint fib_pair (n : nat) : Z * Z :=
  match n with
  | O => (0, 1)
  | S m => let '(a, b) := fib_pair m in (b, a + b)
  end.

(** [fib n]: the reference definition by double recursion. *)
Fixpoint fib (n : nat) : Z :=
  match n with
  | O => 0
  | S O => 1
  | S ((S m) as p) => fib p + fib m
  end.

Lemma fib_pair_fib n : fib_pair n = (fib n, fib (S n)).
Proof.
  induction n as [|n IH]; [done|]. cbn [fib_pair]. rewrite IH. f_equal.
  change (fib n + fib (S n) = fib (S n) + fib n). lia.
Qed.

Lemma fib_pair_range n : 0 <= fst (fib_pair n) /\ 0 <= snd (fib_pair n).
Proof. induction n as [|n IH]; [done|]. cbn [fib_pair]. destruct (fib_pair n). simpl in *. lia. Qed.

Lemma fib_mono n m : (n <= m)%nat -> snd (fib_pair n) <= snd (fib_pair m).
Proof.
  induction 1 as [|m _ IH]; [done|]. cbn [fib_pair]. pose proof (fib_pair_range m).
  destruct (fib_pair m). simpl in *. lia.
Qed.

Definition fib_body (st : Z * Z) : option ((Z * Z) + unit) :=
  let '(previous, current) := st in
  match mvh_checked_add_u64 previous current true with
  | (0, Some next) => Some (inl (current, next))
  | _ => Some (inr tt)
  end.

Lemma fib_pair_92 : fib_pair 92 = (7540113804746346429, 12200160415121876738).
Proof. vm_compute. reflexivity. Qed.

Lemma fib_pair_bound n : (n <= 92)%nat ->
  0 <= fst (fib_pair n) /\ 0 <= snd (fib_pair n) <= 12200160415121876738.
Proof.
  intros Hn. pose proof (fib_mono n 92 Hn) as Hb. rewrite fib_pair_92 in Hb.
  pose proof (fib_pair_range n). simpl in Hb. lia.
Qed.

Lemma fib_pair_fst n : fst (fib_pair n) <= snd (fib_pair n).
Proof. destruct n as [|n]; [done|]. pose proof (fib_pair_range n). cbn [fib_pair].
  destruct (fib_pair n). simpl in *. lia. Qed.

Lemma fib_pair_S n : fib_pair (S n) = (snd (fib_pair n), fst (fib_pair n) + snd (fib_pair n)).
Proof. cbn [fib_pair]. by destruct (fib_pair n). Qed.

Lemma fib_snd n : snd (fib_pair n) = fib (S n).
Proof. by rewrite fib_pair_fib. Qed.

#[local] Opaque fib_pair fib.

Lemma fib_93_fits : fits 64 (fib 93).
Proof. rewrite <- (fib_snd 92), fib_pair_92. split; done. Qed.

Lemma fib_body_spec n :
  (n <= 92)%nat -> fib_body (fib_pair n) =
    Some (if (n =? 92)%nat then inr tt else inl (fib_pair (S n))).
Proof.
  intros Hn. unfold fib_body.
  pose proof (fib_pair_bound n Hn). pose proof (fib_pair_fst n).
  destruct (fib_pair n) as [a b] eqn:Hp. simpl in *.
  rewrite checked_add_u64_spec by warith.
  destruct (Nat.eqb_spec n 92) as [->|].
  { rewrite fib_pair_92 in Hp. by injection Hp as <- <-. }
  assert (fib_pair (S n) = (b, a + b)) as HS by (by rewrite fib_pair_S, Hp).
  pose proof (fib_pair_bound (S n) ltac:(lia)) as Hb'. rewrite HS in *. simpl in Hb'.
  by rewrite (proj2 (Z.leb_le (a + b) U64_MAX)) by warith.
Qed.

Lemma fib_loop_spec (count i : nat) :
  (i <= 92)%nat ->
  for_break count (Z.of_nat i) (fun _ => fib_body) (fib_pair i) =
    Some (if (count + i <=? 92)%nat then inl (fib_pair (count + i)) else inr tt).
Proof.
  revert i. induction count as [|count IH]; intros i Hi.
  - rewrite Nat.add_0_l. by rewrite (proj2 (Nat.leb_le i 92)) by done.
  - rewrite for_break_S, fib_body_spec by done. cbn [mbind option_bind].
    destruct (Nat.eqb_spec i 92) as [->|].
    + by rewrite (proj2 (Nat.leb_gt _ _)) by lia.
    + replace (Z.of_nat i + 1) with (Z.of_nat (S i)) by lia. rewrite IH by lia.
      by rewrite Nat.add_succ_comm.
Qed.

(** [mvh_fibonacci_u64].  Every index up to 92 gives its Fibonacci
    number; every larger index is refused.  The number at index 93 still fits
    64 bits, but the loop also computes the number after it and refuses. *)
Theorem mvh_fibonacci_u64_spec index :
  fits 32 index ->
  mvh_fibonacci_u64 index true =
    Some (if index <=? 92 then done_with (fib (Z.to_nat index)) else fail) /\
  fits 64 (fib 93).
Proof.
  intros Hi. split.
  - unfold mvh_fibonacci_u64. simpl.
    change (0, 1) with (fib_pair 0).
    pose proof (fib_loop_spec (Z.to_nat index) 0 ltac:(lia)) as Hl.
    unfold fib_body in Hl. change (Z.of_nat 0) with 0 in Hl. rewrite Hl. simpl.
    rewrite Nat.add_0_r. destruct (Z.leb_spec index 92).
    + rewrite (proj2 (Nat.leb_le _ _)) by lia. by rewrite fib_pair_fib.
    + by rewrite (proj2 (Nat.leb_gt _ _)) by (unfold fits in *; lia).
  - apply fib_93_fits.
Qed.

Lemma mvh_fibonacci_u64_spec_witness :
  mvh_fibonacci_u64 10 true =
    Some (if 10 <=? 92 then done_with (fib (Z.to_nat 10)) else fail) /\
  fits 64 (fib 93).
Proof. apply (mvh_fibonacci_u64_spec 10). split; done. Defined.
