(* ===== verification/Memory.v ===== *)
(** * Flat memory, and the [mvh_mem_*], load and store functions of util.c

    Memory is a finite map from addresses to bytes.  A pointer is an address,
    NULL is address 0, and an access to an address that is not mapped is a
    fault ([None]).  Two pointers may overlap: every store goes through the one
    map, so aliasing is what it is in the source.  Pointer arithmetic is not
    reduced modulo 2^64; a pointer past the end of the address space is
    undefined behaviour in C and unmapped here. *)

From S2P Require Import Prelude Arith.

Abbreviation mem := (gmap Z Z).

(** ** Accesses *)

Definition ld (m : mem) (a : Z) : option Z := m !! a.

Definition st (m : mem) (a v : Z) : option mem :=
  match m !! a with Some _ => Some (<[a := v]> m) | None => None end.

(** [n] bytes from [p] on are mapped. *)
Definition mapped (m : mem) (p n : Z) : Prop := forall a, p <= a < p + n -> is_Some (m !! a).

(** Every mapped location holds a byte. *)
Definition byte_mem (m : mem) : Prop := forall a v, m !! a = Some v -> fits 8 v.

(** The address [a] is one of the [n] bytes from [p] on. *)
Definition inside (p n a : Z) : bool := (p <=? a) && (a <? p + n).

(** [build p l]: the memory that holds the bytes [l] from [p] on. *)
Fixpoint build (p : Z) (l : list Z) : mem :=
  match l with [] => ∅ | b :: l => <[p := b]> (build (p + 1) l) end.

(** ** util.c: block operations *)

Definition mvh_mem_set (m : mem) (destination value size : Z) : option (mem * Z) :=
  if (destination =? 0) && negb (size =? 0) then Some (m, 0) else
  m ← for_loop (Z.to_nat size) 0 (fun index m => st m (destination + index) value) m;
  Some (m, destination).

Definition mvh_mem_zero (m : mem) (destination size : Z) : option (mem * Z) :=
  mvh_mem_set m destination 0 size.

Definition copy_byte (target input index : Z) (m : mem) : option mem :=
  b ← ld m (input + index); st m (target + index) b.

Definition mvh_mem_copy (m : mem) (destination source size : Z) : option (mem * Z) :=
  if ((destination =? 0) || (source =? 0)) && negb (size =? 0) then Some (m, 0) else
  m ← for_loop (Z.to_nat size) 0 (copy_byte destination source) m;
  Some (m, destination).

Definition mvh_mem_move (m : mem) (destination source size : Z) : option (mem * Z) :=
  if ((destination =? 0) || (source =? 0)) && negb (size =? 0) then Some (m, 0) else
  if size =? 0 then Some (m, destination) else
  if (source <? destination) && (destination <? source + size) then
    m ← for_loop (Z.to_nat size) 0 (fun k => copy_byte destination source (size - k - 1)) m;
    Some (m, destination)
  else
    m ← for_loop (Z.to_nat size) 0 (copy_byte destination source) m;
    Some (m, destination).

Definition mvh_mem_copy_checked (m : mem) (destination destination_size source size : Z)
  : option (mem * Z) :=
  if (destination_size <? size) ||
     (negb (size =? 0) && ((destination =? 0) || (source =? 0))) then Some (m, -1) else
  r ← mvh_mem_copy m destination source size;
  Some (fst r, 0).

Definition mvh_mem_compare (m : mem) (left right size : Z) : option Z :=
  if (left =? right) || (size =? 0) then Some 0 else
  if left =? 0 then Some (-1) else
  if right =? 0 then Some 1 else
  r ← for_break (Z.to_nat size) 0 (fun index _ =>
        a ← ld m (left + index); b ← ld m (right + index);
        Some (if negb (a =? b) then inr (if a <? b then -1 else 1) else inl tt)) tt;
  Some (match r with inl _ => 0 | inr v => v end).

Definition mvh_mem_equal (m : mem) (left right size : Z) : option bool :=
  r ← mvh_mem_compare m left right size; Some (r =? 0).

Definition mvh_mem_swap (m : mem) (left right size : Z) : option mem :=
  if (left =? 0) || (right =? 0) || (left =? right) then Some m else
  for_loop (Z.to_nat size) 0 (fun index m =>
    value ← ld m (left + index);
    b ← ld m (right + index);
    m ← st m (left + index) b;
    st m (right + index) value) m.

(** The result is an address, 0 when the byte is absent. *)
Definition mvh_mem_find (m : mem) (memory value size : Z) : option Z :=
  if memory =? 0 then Some 0 else
  r ← for_break (Z.to_nat size) 0 (fun index _ =>
        b ← ld m (memory + index);
        Some (if b =? value then inr (memory + index) else inl tt)) tt;
  Some (match r with inl _ => 0 | inr v => v end).

Definition mvh_mem_reverse (m : mem) (memory size : Z) : option (mem * Z) :=
  if memory =? 0 then Some (m, 0) else
  m ← for_loop (Z.to_nat (size / 2)) 0 (fun index m =>
        value ← ld m (memory + index);
        b ← ld m (memory + (size - index - 1));
        m ← st m (memory + index) b;
        st m (memory + (size - index - 1)) value) m;
  Some (m, memory).

Definition mvh_mem_is_zero (m : mem) (memory size : Z) : option bool :=
  if memory =? 0 then Some (size =? 0) else
  r ← for_break (Z.to_nat size) 0 (fun index _ =>
        b ← ld m (memory + index);
        Some (if negb (b =? 0) then inr tt else inl tt)) tt;
  Some (match r with inl _ => true | inr _ => false end).

Definition mvh_mem_xor (m : mem) (destination source size : Z) : option (mem * Z) :=
  if (destination =? 0) || (source =? 0) then Some (m, 0) else
  m ← for_loop (Z.to_nat size) 0 (fun index m =>
        t ← ld m (destination + index);
        b ← ld m (source + index);
        st m (destination + index) (t ^^^ b)) m;
  Some (m, destination).

Definition mvh_mem_count_byte (m : mem) (memory value size : Z) : option Z :=
  if memory =? 0 then Some 0 else
  for_loop (Z.to_nat size) 0 (fun index count =>
    b ← ld m (memory + index);
    Some (if b =? value then u64 (count + 1) else count)) 0.

Definition fnv_offset64 : Z := 14695981039346656037.
Definition fnv1a64_step (hash b : Z) : Z := u64 ((hash ^^^ b) * 1099511628211).

Definition mvh_mem_hash_fnv1a64 (m : mem) (memory size : Z) : option Z :=
  if memory =? 0 then Some fnv_offset64 else
  for_loop (Z.to_nat size) 0 (fun index hash =>
    b ← ld m (memory + index); Some (fnv1a64_step hash b)) fnv_offset64.

(** ** util.c: loads and stores with an explicit byte order *)

Definition mvh_load_le16 (m : mem) (p : Z) : option Z :=
  if p =? 0 then Some 0 else
  b0 ← ld m p; b1 ← ld m (p + 1);
  Some (b0 ||| u16 (b1 << 8)).

Definition mvh_load_le32 (m : mem) (p : Z) : option Z :=
  if p =? 0 then Some 0 else
  b0 ← ld m p; b1 ← ld m (p + 1); b2 ← ld m (p + 2); b3 ← ld m (p + 3);
  Some (b0 ||| u32 (b1 << 8) ||| u32 (b2 << 16) ||| u32 (b3 << 24)).

Definition mvh_load_le64 (m : mem) (p : Z) : option Z :=
  if p =? 0 then Some 0 else
  lo ← mvh_load_le32 m p; hi ← mvh_load_le32 m (p + 4);
  Some (lo ||| u64 (hi << 32)).

Definition mvh_store_le16 (m : mem) (p value : Z) : option mem :=
  if p =? 0 then Some m else
  m ← st m p (u8 value); st m (p + 1) (u8 (value >> 8)).

Definition mvh_store_le32 (m : mem) (p value : Z) : option mem :=
  if p =? 0 then Some m else
  m ← mvh_store_le16 m p (u16 value); mvh_store_le16 m (p + 2) (u16 (value >> 16)).

Definition mvh_store_le64 (m : mem) (p value : Z) : option mem :=
  if p =? 0 then Some m else
  m ← mvh_store_le32 m p (u32 value); mvh_store_le32 m (p + 4) (u32 (value >> 32)).

Definition mvh_load_be16 (m : mem) (p : Z) : option Z :=
  if p =? 0 then Some 0 else
  b0 ← ld m p; b1 ← ld m (p + 1);
  Some (u16 (b0 << 8) ||| b1).

Definition mvh_load_be32 (m : mem) (p : Z) : option Z :=
  if p =? 0 then Some 0 else
  hi ← mvh_load_be16 m p; lo ← mvh_load_be16 m (p + 2);
  Some (u32 (hi << 16) ||| lo).

Definition mvh_load_be64 (m : mem) (p : Z) : option Z :=
  if p =? 0 then Some 0 else
  hi ← mvh_load_be32 m p; lo ← mvh_load_be32 m (p + 4);
  Some (u64 (hi << 32) ||| lo).

Definition mvh_store_be16 (m : mem) (p value : Z) : option mem :=
  if p =? 0 then Some m else
  m ← st m p (u8 (value >> 8)); st m (p + 1) (u8 value).

Definition mvh_store_be32 (m : mem) (p value : Z) : option mem :=
  if p =? 0 then Some m else
  m ← mvh_store_be16 m p (u16 (value >> 16)); mvh_store_be16 m (p + 2) (u16 value).

Definition mvh_store_be64 (m : mem) (p value : Z) : option mem :=
  if p =? 0 then Some m else
  m ← mvh_store_be32 m p (u32 (value >> 32)); mvh_store_be32 m (p + 4) (u32 value).

(** A store to an array of 16- or 32-bit elements is little-endian on the
    target; element [index] of the array lies at [index * sizeof(element)]. *)
Definition mvh_mem_fill16 (m : mem) (destination value count : Z) : option mem :=
  if destination =? 0 then Some m else
  for_loop (Z.to_nat count) 0 (fun index m => mvh_store_le16 m (destination + index * 2) value) m.

Definition mvh_mem_fill32 (m : mem) (destination value count : Z) : option mem :=
  if destination =? 0 then Some m else
  for_loop (Z.to_nat count) 0 (fun index m => mvh_store_le32 m (destination + index * 4) value) m.

(** ** Lemmas on accesses *)

Lemma st_ok m a v : is_Some (m !! a) -> st m a v = Some (<[a := v]> m).
Proof. unfold st. by intros [x ->]. Qed.

Lemma st_Some m a v m' : st m a v = Some m' -> is_Some (m !! a) /\ m' = <[a := v]> m.
Proof. unfold st. destruct (m !! a) eqn:E; [|done]. intros [= <-]. by split; [eexists|]. Qed.

Lemma lookup_st (m : mem) a v b : <[a := v]> m !! b = if a =? b then Some v else m !! b.
Proof.
  destruct (Z.eqb_spec a b) as [->|]; [apply lookup_insert_eq|by apply lookup_insert_ne].
Qed.

Lemma inside_spec p n a : inside p n a = true <-> p <= a < p + n.
Proof. unfold inside. rewrite andb_true_iff. lia. Qed.

Lemma mapped_weaken m p n p' n' :
  mapped m p n -> p <= p' -> p' + n' <= p + n -> mapped m p' n'.
Proof. intros H ?? a ?. apply H. lia. Qed.

Lemma mapped_insert m a v p n : mapped m p n -> mapped (<[a := v]> m) p n.
Proof. intros H b Hb. rewrite lookup_st. split_if; [by eexists|]. by apply H. Qed.

Lemma byte_mem_insert m a v : byte_mem m -> fits 8 v -> byte_mem (<[a := v]> m).
Proof. intros H Hv b x. rewrite lookup_st. split_if; [by intros [= <-]|apply H]. Qed.
#[export] Hint Resolve mapped_insert byte_mem_insert : mvh.

Lemma build_lookup p l a :
  build p l !! a = if inside p (Z.of_nat (length l)) a then l !! Z.to_nat (a - p) else None.
Proof.
  revert p. induction l as [|b l IH]; intros p.
  - unfold inside. simpl. rewrite lookup_empty. split_if; [lia|done].
  - cbn [build length]. rewrite lookup_st, IH. destruct (Z.eqb_spec p a) as [->|].
    + rewrite (proj2 (inside_spec a _ a)) by lia. by rewrite Z.sub_diag.
    + destruct (inside (p + 1) _ a) eqn:E.
      * apply inside_spec in E.
        rewrite (proj2 (inside_spec p _ a)) by lia.
        by replace (Z.to_nat (a - p)) with (S (Z.to_nat (a - (p + 1)))) by lia.
      * replace (inside _ _ _) with false; [done|]. clear IH. unfold inside in *. zcmp.
Qed.

Lemma build_mapped p l q n :
  p <= q -> q + n <= p + Z.of_nat (length l) -> mapped (build p l) q n.
Proof.
  intros Hp Hq a Ha. rewrite build_lookup, (proj2 (inside_spec _ _ _)) by lia.
  apply lookup_lt_is_Some_2. lia.
Qed.

(** Case analysis on the addresses of pointwise statements about memories. *)
Ltac addr_cases :=
  unfold inside in *; repeat (split_if; simpl in *); subst; try lia; try done;
  try (f_equal; lia).

(** ** Block operations *)

(** Contents of memory [m'], which is [m] with the [n] bytes at [dst] replaced
    by [f] of their position. *)
Definition updated (m m' : mem) (dst n : Z) (f : Z -> option Z) : Prop :=
  forall a, m' !! a = if inside dst n a then f (a - dst) else m !! a.

Lemma updated_refl m dst f : updated m m dst 0 f.
Proof. intros a. addr_cases. Qed.

Lemma updated_snoc m m' dst i f v :
  0 <= i -> updated m m' dst i f -> f i = Some v ->
  updated m (<[dst + i := v]> m') dst (i + 1) f.
Proof.
  intros Hi Hu Hf a. rewrite lookup_st, Hu. unfold inside.
  destruct (Z.eqb_spec (dst + i) a) as [<-|].
  - rewrite (proj2 (andb_true_iff _ _)) by lia. by rewrite Z.add_simpl_l.
  - replace ((dst <=? a) && (a <? dst + (i + 1))) with ((dst <=? a) && (a <? dst + i)) by lia.
    done.
Qed.

Lemma updated_mapped m m' dst n f p k :
  updated m m' dst n f -> (forall i, 0 <= i < n -> is_Some (f i)) -> mapped m p k -> mapped m' p k.
Proof.
  intros Hu Hf Hm a Ha. rewrite Hu. destruct (inside dst n a) eqn:E; [|by apply Hm].
  apply inside_spec in E. apply Hf. lia.
Qed.

(** Two memories with the same update agree. *)
Lemma updated_unique m m1 m2 dst n f : updated m m1 dst n f -> updated m m2 dst n f -> m1 = m2.
Proof. intros H1 H2. apply map_eq. intros a. by rewrite H1, H2. Qed.

Lemma mem_set_spec m destination value size :
  destination <> 0 -> 0 <= size -> mapped m destination size ->
  exists m', mvh_mem_set m destination value size = Some (m', destination) /\
    updated m m' destination size (fun _ => Some value).
Proof.
  intros Hd Hs Hm. unfold mvh_mem_set. rewrite (proj2 (Z.eqb_neq destination 0)) by done. simpl.
  destruct (for_loop_rule (fun i m' => updated m m' destination i (fun _ => Some value))
    (Z.to_nat size) 0 (fun index m => st m (destination + index) value) m) as (m' & -> & Hu).
  - apply updated_refl.
  - intros i m' Hi Hu. exists (<[destination + i := value]> m'). split.
    + apply st_ok. eapply updated_mapped; eauto; lia.
    + apply updated_snoc; [lia|done..].
  - exists m'. split; [done|]. by replace size with (0 + Z.of_nat (Z.to_nat size)) by lia.
Qed.

(** A forward byte copy gives the old source bytes when no source byte is
    overwritten before it is read. *)
Lemma copy_forward m dst src n :
  0 <= n -> mapped m dst n -> mapped m src n -> dst <= src \/ src + n <= dst ->
  exists m', for_loop (Z.to_nat n) 0 (copy_byte dst src) m = Some m' /\
    updated m m' dst n (fun i => m !! (src + i)).
Proof.
  intros Hn Hd Hs Hov.
  destruct (for_loop_rule (fun i m' => updated m m' dst i (fun i => m !! (src + i)))
    (Z.to_nat n) 0 (copy_byte dst src) m) as (m' & Hl & Hu).
  - apply updated_refl.
  - intros i m' Hi Hu. destruct (Hs (src + i)) as [b Hb]; [lia|].
    exists (<[dst + i := b]> m'). split; [|by apply updated_snoc; [lia|..]].
    unfold copy_byte, ld. rewrite Hu.
    assert (inside dst i (src + i) = false) as -> by (unfold inside; zcmp).
    rewrite Hb. simpl. apply st_ok. eapply updated_mapped; [exact Hu| |exact Hd|lia].
    intros j Hj. apply Hs. lia.
  - exists m'. split; [done|]. by replace n with (0 + Z.of_nat (Z.to_nat n)) by lia.
Qed.

(** A backward byte copy does so when the destination starts after the source. *)
Lemma copy_backward m dst src n :
  0 <= n -> mapped m dst n -> mapped m src n -> src < dst ->
  exists m', for_loop (Z.to_nat n) 0 (fun k => copy_byte dst src (n - k - 1)) m = Some m' /\
    updated m m' dst n (fun i => m !! (src + i)).
Proof.
  intros Hn Hd Hs Hov.
  destruct (for_loop_rule
    (fun k m' => updated m m' (dst + (n - k)) k (fun i => m !! (src + (n - k) + i)))
    (Z.to_nat n) 0 (fun k => copy_byte dst src (n - k - 1)) m) as (m' & Hl & Hu).
  - apply updated_refl.
  - intros k m' Hk Hu. destruct (Hs (src + (n - k - 1))) as [b Hb]; [lia|].
    exists (<[dst + (n - k - 1) := b]> m'). split.
    + unfold copy_byte, ld. rewrite Hu.
      assert (inside (dst + (n - k)) k (src + (n - k - 1)) = false) as -> by (unfold inside; zcmp).
      rewrite Hb. simpl. apply st_ok. eapply updated_mapped; [exact Hu| |exact Hd|lia].
      intros j Hj. apply Hs. lia.
    + intros a. rewrite lookup_st, Hu. unfold inside. zcmp.
      * f_equal. lia.
      * rewrite <- Hb. f_equal. lia.
  - exists m'. split; [done|]. intros a. rewrite Hu. unfold inside. zcmp. f_equal. lia.
Qed.

(** [mvh_mem_move].  For any two mapped ranges, overlapping or not, the
    move does not fault, the destination holds afterwards the bytes the source
    held before, and every other byte of memory is unchanged. *)
Theorem mvh_mem_move_spec m destination source size :
  destination <> 0 -> source <> 0 -> 0 <= size ->
  mapped m destination size -> mapped m source size ->
  exists m', mvh_mem_move m destination source size = Some (m', destination) /\
    forall a, m' !! a = if inside destination size a then m !! (source + (a - destination))
                        else m !! a.
Proof.
  intros Hd Hs Hn Hmd Hms. unfold mvh_mem_move.
  rewrite (proj2 (Z.eqb_neq destination 0)), (proj2 (Z.eqb_neq source 0)) by done. simpl.
  destruct (Z.eqb_spec size 0) as [->|].
  { exists m. split; [done|]. intros a. addr_cases. }
  destruct (_ && _) eqn:Hov.
  - destruct (copy_backward m destination source size) as (m' & -> & Hu); [done..|lia|].
    by exists m'.
  - destruct (copy_forward m destination source size) as (m' & -> & Hu); [done..|lia|].
    by exists m'.
Qed.

Lemma mvh_mem_move_spec_witness :
  let m := build 16 [1; 2; 3; 4; 5; 6] in
  exists m', mvh_mem_move m 18 16 4 = Some (m', 18) /\
    forall a, m' !! a = if inside 18 4 a then m !! (16 + (a - 18)) else m !! a.
Proof.
  intros m. apply (mvh_mem_move_spec m 18 16 4); try done; by apply build_mapped.
Defined.

(** ** Byte order *)

Lemma store_le16_lookup m p v :
  p <> 0 -> mapped m p 2 ->
  exists m', mvh_store_le16 m p v = Some m' /\ (forall q n, mapped m q n -> mapped m' q n) /\
    forall a, m' !! a = if a =? p then Some (u8 v) else
                        if a =? p + 1 then Some (u8 (v >> 8)) else m !! a.
Proof.
  intros Hp Hm. unfold mvh_store_le16. rewrite (proj2 (Z.eqb_neq p 0)) by done.
  rewrite st_ok by (apply Hm; lia). simpl.
  rewrite st_ok by (apply (mapped_insert m p _ p 2 Hm); lia).
  eexists. split; [done|]. split; [auto with mvh|]. intros a. rewrite !lookup_st. zcmp.
Qed.

Lemma store_be16_lookup m p v :
  p <> 0 -> mapped m p 2 ->
  exists m', mvh_store_be16 m p v = Some m' /\ (forall q n, mapped m q n -> mapped m' q n) /\
    forall a, m' !! a = if a =? p then Some (u8 (v >> 8)) else
                        if a =? p + 1 then Some (u8 v) else m !! a.
Proof.
  intros Hp Hm. unfold mvh_store_be16. rewrite (proj2 (Z.eqb_neq p 0)) by done.
  rewrite st_ok by (apply Hm; lia). simpl.
  rewrite st_ok by (apply (mapped_insert m p _ p 2 Hm); lia).
  eexists. split; [done|]. split; [auto with mvh|]. intros a. rewrite !lookup_st. zcmp.
Qed.

Lemma byte_of_mod w v k : 0 <= k -> k + 8 <= w -> u8 ((v mod 2 ^ w) >> k) = u8 (v >> k).
Proof.
  intros Hk Hw. unfold u8. zbits. destruct (Z.ltb_spec n 8); simpl; [|done].
  replace (n + k <? w) with true by lia. done.
Qed.

(** [le_byte v i]: byte [i] of [v], the least significant first. *)
Definition le_byte (v i : Z) : Z := u8 (v >> (8 * i)).

Lemma le_byte_mod w v i : 0 <= i -> 8 * i + 8 <= w -> le_byte (v mod 2 ^ w) i = le_byte v i.
Proof. intros. apply byte_of_mod; lia. Qed.

Lemma le_byte_shift v s k i :
  0 <= i -> 0 <= k -> s = 8 * k -> le_byte (v >> s) i = le_byte v (k + i).
Proof. intros ?? ->. unfold le_byte. rewrite Z.shiftr_shiftr by lia. do 2 f_equal. lia. Qed.

(** The bytes of the two halves of a value are its bytes. *)
Lemma le_byte_halves v w k i :
  0 <= i < 2 * k -> w = 8 * k ->
  (if i <? k then le_byte (v mod 2 ^ w) i else le_byte ((v >> w) mod 2 ^ w) (i - k)) = le_byte v i.
Proof.
  intros Hi ->. destruct (Z.ltb_spec i k).
  - apply le_byte_mod; lia.
  - rewrite le_byte_mod, (le_byte_shift v _ k) by lia. f_equal. lia.
Qed.

(** Two consecutive updates are one. *)
Lemma updated_app m m1 m2 p n1 n2 f g :
  0 <= n1 -> 0 <= n2 -> updated m m1 p n1 f -> updated m1 m2 (p + n1) n2 g ->
  updated m m2 p (n1 + n2) (fun i => if i <? n1 then f i else g (i - n1)).
Proof.
  intros H1 H2 U1 U2 a. rewrite U2, U1. unfold inside. zcmp. f_equal. lia.
Qed.

Lemma updated_ext m m' p n f g :
  updated m m' p n f -> (forall i, 0 <= i < n -> f i = g i) -> updated m m' p n g.
Proof.
  intros U Hfg a. rewrite U. destruct (inside p n a) eqn:E; [|done].
  apply inside_spec in E. apply Hfg. lia.
Qed.

Lemma store_le16_spec m p v :
  p <> 0 -> mapped m p 2 ->
  exists m', mvh_store_le16 m p v = Some m' /\ (forall q n, mapped m q n -> mapped m' q n) /\
    updated m m' p 2 (fun i => Some (le_byte v i)).
Proof.
  intros Hp Hm. destruct (store_le16_lookup m p v Hp Hm) as (m' & H & Hmp & Hl).
  exists m'. split_and!; [done..|]. intros a. rewrite Hl. unfold inside, le_byte.
  destruct (Z.eqb_spec a p) as [->|]; [rewrite Z.sub_diag; zcmp|].
  destruct (Z.eqb_spec a (p + 1)) as [->|]; [|zcmp].
  rewrite Z.add_simpl_l. zcmp.
Qed.

Lemma store_le32_spec m p v :
  0 < p -> mapped m p 4 ->
  exists m', mvh_store_le32 m p v = Some m' /\ (forall q n, mapped m q n -> mapped m' q n) /\
    updated m m' p 4 (fun i => Some (le_byte v i)).
Proof.
  intros Hp Hm. unfold mvh_store_le32. rewrite (proj2 (Z.eqb_neq p 0)) by lia.
  destruct (store_le16_spec m p (u16 v)) as (m1 & -> & Hm1 & U1);
    [lia|by eapply mapped_weaken; [exact Hm|lia..]|].
  destruct (store_le16_spec m1 (p + 2) (u16 (v >> 16))) as (m2 & Hs2 & Hm2 & U2);
    [lia|apply Hm1; by eapply mapped_weaken; [exact Hm|lia..]|].
  exists m2. simpl. split_and!; [done|auto|].
  eapply updated_ext; [apply (updated_app m m1 m2 p 2 2 _ _ ltac:(lia) ltac:(lia) U1 U2)|].
  intros i Hi. rewrite <- (le_byte_halves v 16 2 i) by lia. by destruct (i <? 2).
Qed.

Lemma store_le64_spec m p v :
  0 < p -> mapped m p 8 ->
  exists m', mvh_store_le64 m p v = Some m' /\ (forall q n, mapped m q n -> mapped m' q n) /\
    updated m m' p 8 (fun i => Some (le_byte v i)).
Proof.
  intros Hp Hm. unfold mvh_store_le64. rewrite (proj2 (Z.eqb_neq p 0)) by lia.
  destruct (store_le32_spec m p (u32 v)) as (m1 & -> & Hm1 & U1);
    [lia|by eapply mapped_weaken; [exact Hm|lia..]|].
  destruct (store_le32_spec m1 (p + 4) (u32 (v >> 32))) as (m2 & Hs2 & Hm2 & U2);
    [lia|apply Hm1; by eapply mapped_weaken; [exact Hm|lia..]|].
  exists m2. simpl. split_and!; [done|auto|].
  eapply updated_ext; [apply (updated_app m m1 m2 p 4 4 _ _ ltac:(lia) ltac:(lia) U1 U2)|].
  intros i Hi. rewrite <- (le_byte_halves v 32 4 i) by lia. by destruct (i <? 4).
Qed.

(** Memory holds the little-endian bytes of [v] at [p]. *)
Definition holds_le (m : mem) (p n v : Z) : Prop :=
  forall i, 0 <= i < n -> m !! (p + i) = Some (le_byte v i).

Lemma updated_holds m m' p n v :
  updated m m' p n (fun i => Some (le_byte v i)) -> holds_le m' p n v.
Proof.
  intros U i Hi. rewrite U, (proj2 (inside_spec _ _ _)) by lia. do 2 f_equal. lia.
Qed.

Lemma le_byte_fits v i : fits 8 (le_byte v i).
Proof. apply u8_range. Qed.

Lemma mod_bytes4 v :
  u8 (v / 2 ^ (8 * 0)) + u8 (v / 2 ^ (8 * 1)) * 2 ^ 8 + u8 (v / 2 ^ (8 * 2)) * 2 ^ 16 +
    u8 (v / 2 ^ (8 * 3)) * 2 ^ 24 = u32 v.
Proof.
  unfold u8, u32. change (2 ^ 32) with (2 ^ 8 * (2 ^ 8 * (2 ^ 8 * 2 ^ 8))).
  rewrite !Z.rem_mul_r, !Z.div_div by done.
  change (2 ^ (8 * 0)) with 1. rewrite Z.div_1_r. change (8 * 1) with 8.
  change (2 ^ (8 * 2)) with (2 ^ 8 * 2 ^ 8). change (2 ^ (8 * 3)) with (2 ^ 8 * 2 ^ 8 * 2 ^ 8).
  lia.
Qed.

Lemma load_le32_spec m p v :
  0 < p -> holds_le m p 4 v -> mvh_load_le32 m p = Some (u32 v).
Proof.
  intros Hp Hm. unfold mvh_load_le32, ld. rewrite (proj2 (Z.eqb_neq p 0)) by lia.
  pose proof (Hm 0) as H0. rewrite Z.add_0_r in H0.
  rewrite H0, (Hm 1), (Hm 2), (Hm 3) by lia. simpl. f_equal.
  rewrite join_bytes4 by apply le_byte_fits. unfold le_byte.
  rewrite !Z.shiftr_div_pow2 by lia. apply mod_bytes4.
Qed.

Lemma load_le64_spec m p v :
  0 < p -> holds_le m p 8 v -> mvh_load_le64 m p = Some (u64 v).
Proof.
  intros Hp Hm. unfold mvh_load_le64. rewrite (proj2 (Z.eqb_neq p 0)) by lia.
  rewrite (load_le32_spec m p v) by (try done; intros i Hi; apply Hm; lia).
  rewrite (load_le32_spec m (p + 4) (v >> 32)).
  - simpl. f_equal. rewrite (u64_small (u32 _ << 32)).
    + rewrite lor_shl by (try done; apply u32_range).
      rewrite Z.shiftr_div_pow2 by lia. unfold u64, u32.
      change (2 ^ 64) with (2 ^ 32 * 2 ^ 32). rewrite Z.rem_mul_r by done. lia.
    + rewrite Z.shiftl_mul_pow2 by lia. pose proof (u32_range (v >> 32)). warith.
  - lia.
  - intros i Hi. rewrite (le_byte_shift v 32 4) by lia. rewrite <- Hm by lia. f_equal. lia.
Qed.

(** Big-endian stores write the same bytes in reverse. *)
Lemma store_be16_spec m p v :
  p <> 0 -> mapped m p 2 ->
  exists m', mvh_store_be16 m p v = Some m' /\ (forall q n, mapped m q n -> mapped m' q n) /\
    updated m m' p 2 (fun i => Some (le_byte v (1 - i))).
Proof.
  intros Hp Hm. destruct (store_be16_lookup m p v Hp Hm) as (m' & H & Hmp & Hl).
  exists m'. split_and!; [done..|]. intros a. rewrite Hl. unfold inside, le_byte.
  destruct (Z.eqb_spec a p) as [->|]; [rewrite Z.sub_diag; zcmp|].
  destruct (Z.eqb_spec a (p + 1)) as [->|]; [|zcmp].
  rewrite Z.add_simpl_l. zcmp.
Qed.

Lemma be_halves v w k t i :
  0 <= i < 2 * k -> w = 8 * k -> t = 2 * k - 1 ->
  (if i <? k then le_byte ((v >> w) mod 2 ^ w) (k - 1 - i)
   else le_byte (v mod 2 ^ w) (k - 1 - (i - k))) = le_byte v (t - i).
Proof.
  intros Hi Hw ->. rewrite <- (le_byte_halves v w k) by lia. zcmp; f_equal; lia.
Qed.

Lemma store_be32_spec m p v :
  0 < p -> mapped m p 4 ->
  exists m', mvh_store_be32 m p v = Some m' /\ (forall q n, mapped m q n -> mapped m' q n) /\
    updated m m' p 4 (fun i => Some (le_byte v (3 - i))).
Proof.
  intros Hp Hm. unfold mvh_store_be32. rewrite (proj2 (Z.eqb_neq p 0)) by lia.
  destruct (store_be16_spec m p (u16 (v >> 16))) as (m1 & -> & Hm1 & U1);
    [lia|by eapply mapped_weaken; [exact Hm|lia..]|].
  destruct (store_be16_spec m1 (p + 2) (u16 v)) as (m2 & Hs2 & Hm2 & U2);
    [lia|apply Hm1; by eapply mapped_weaken; [exact Hm|lia..]|].
  exists m2. simpl. split_and!; [done|auto|].
  eapply updated_ext; [apply (updated_app m m1 m2 p 2 2 _ _ ltac:(lia) ltac:(lia) U1 U2)|].
  intros i Hi. rewrite <- (be_halves v 16 2 3 i) by lia. by destruct (i <? 2).
Qed.

Lemma store_be64_spec m p v :
  0 < p -> mapped m p 8 ->
  exists m', mvh_store_be64 m p v = Some m' /\ (forall q n, mapped m q n -> mapped m' q n) /\
    updated m m' p 8 (fun i => Some (le_byte v (7 - i))).
Proof.
  intros Hp Hm. unfold mvh_store_be64. rewrite (proj2 (Z.eqb_neq p 0)) by lia.
  destruct (store_be32_spec m p (u32 (v >> 32))) as (m1 & -> & Hm1 & U1);
    [lia|by eapply mapped_weaken; [exact Hm|lia..]|].
  destruct (store_be32_spec m1 (p + 4) (u32 v)) as (m2 & Hs2 & Hm2 & U2);
    [lia|apply Hm1; by eapply mapped_weaken; [exact Hm|lia..]|].
  exists m2. simpl. split_and!; [done|auto|].
  eapply updated_ext; [apply (updated_app m m1 m2 p 4 4 _ _ ltac:(lia) ltac:(lia) U1 U2)|].
  intros i Hi. rewrite <- (be_halves v 32 4 7 i) by lia. by destruct (i <? 4).
Qed.

Definition holds_be (m : mem) (p n v : Z) : Prop :=
  forall i, 0 <= i < n -> m !! (p + i) = Some (le_byte v (n - 1 - i)).

Lemma load_be16_spec m p v : 0 < p -> holds_be m p 2 v -> mvh_load_be16 m p = Some (u16 v).
Proof.
  intros Hp Hm. unfold mvh_load_be16, ld. rewrite (proj2 (Z.eqb_neq p 0)) by lia.
  pose proof (Hm 0) as H0. rewrite Z.add_0_r in H0. rewrite H0, (Hm 1) by lia. simpl. f_equal.
  change (2 - 1 - 1) with 0. change (2 - 1 - 0) with 1.
  pose proof (le_byte_fits v 0). pose proof (le_byte_fits v 1).
  rewrite u16_small by (rewrite Z.shiftl_mul_pow2 by lia; warith).
  rewrite lor_shl' by (done || lia). unfold le_byte, u8, u16.
  change (2 ^ 16) with (2 ^ 8 * 2 ^ 8). rewrite Z.rem_mul_r by done.
  rewrite !Z.shiftr_div_pow2 by lia. change (2 ^ (8 * 0)) with 1. rewrite Z.div_1_r.
  change (8 * 1) with 8. lia.
Qed.

(** The halves of a big-endian value. *)
Lemma holds_be_hi m p k v :
  0 <= k -> holds_be m p (2 * k) v -> holds_be m p k (v >> (8 * k)).
Proof.
  intros Hk H i Hi. rewrite (le_byte_shift v _ k) by lia. rewrite H by lia. do 2 f_equal. lia.
Qed.

Lemma holds_be_lo m p k v : 0 <= k -> holds_be m p (2 * k) v -> holds_be m (p + k) k v.
Proof.
  intros Hk H i Hi. rewrite <- Z.add_assoc, H by lia. do 2 f_equal. lia.
Qed.

Lemma join_halves v w :
  0 < w -> ((((v >> w) mod 2 ^ w) << w) mod (2 ^ (2 * w))) ||| (v mod 2 ^ w) = v mod 2 ^ (2 * w).
Proof.
  intros Hw. pose proof (Z.pow_pos_nonneg 2 w ltac:(lia) ltac:(lia)).
  pose proof (Z.mod_pos_bound (v >> w) (2 ^ w) ltac:(lia)).
  assert (2 ^ (2 * w) = 2 ^ w * 2 ^ w) as Hp by (rewrite <- Z.pow_add_r by lia; f_equal; lia).
  rewrite (Z.mod_small (_ << w)) by (rewrite Z.shiftl_mul_pow2 by lia; nia).
  rewrite lor_shl' by (try lia; apply Z.mod_pos_bound; lia).
  rewrite Hp, Z.rem_mul_r, Z.shiftr_div_pow2 by lia. lia.
Qed.

Lemma load_be32_spec m p v : 0 < p -> holds_be m p 4 v -> mvh_load_be32 m p = Some (u32 v).
Proof.
  intros Hp Hm. unfold mvh_load_be32. rewrite (proj2 (Z.eqb_neq p 0)) by lia.
  rewrite (load_be16_spec m p (v >> 16)) by (try lia; by apply (holds_be_hi m p 2)).
  rewrite (load_be16_spec m (p + 2) v) by (try lia; by apply (holds_be_lo m p 2)).
  simpl. f_equal. by apply (join_halves v 16).
Qed.

Lemma load_be64_spec m p v : 0 < p -> holds_be m p 8 v -> mvh_load_be64 m p = Some (u64 v).
Proof.
  intros Hp Hm. unfold mvh_load_be64. rewrite (proj2 (Z.eqb_neq p 0)) by lia.
  rewrite (load_be32_spec m p (v >> 32)) by (try lia; by apply (holds_be_hi m p 4)).
  rewrite (load_be32_spec m (p + 4) v) by (try lia; by apply (holds_be_lo m p 4)).
  simpl. f_equal. by apply (join_halves v 32).
Qed.

Lemma updated_holds_be m m' p n v :
  updated m m' p n (fun i => Some (le_byte v (n - 1 - i))) -> holds_be m' p n v.
Proof.
  intros U i Hi. rewrite U, (proj2 (inside_spec _ _ _)) by lia. do 2 f_equal. lia.
Qed.

(** [mvh_store_le64], [mvh_load_le64], [mvh_store_be64], [mvh_load_be64].
    A 64-bit value stored in either byte order is read back by the load of
    that order, and the store changes exactly the eight bytes at the pointer. *)
Theorem store_load_64 m p v :
  0 < p -> fits 64 v -> mapped m p 8 ->
  (exists m', mvh_store_le64 m p v = Some m' /\ mvh_load_le64 m' p = Some v /\
     forall a, a < p \/ p + 8 <= a -> m' !! a = m !! a) /\
  (exists m', mvh_store_be64 m p v = Some m' /\ mvh_load_be64 m' p = Some v /\
     forall a, a < p \/ p + 8 <= a -> m' !! a = m !! a).
Proof.
  intros Hp Hv Hm. split.
  - destruct (store_le64_spec m p v Hp Hm) as (m' & -> & _ & U). exists m'. split_and!; [done| |].
    + rewrite (load_le64_spec m' p v Hp) by (by eapply updated_holds). by rewrite u64_small.
    + intros a Ha. rewrite U. unfold inside. zcmp.
  - destruct (store_be64_spec m p v Hp Hm) as (m' & -> & _ & U). exists m'. split_and!; [done| |].
    + rewrite (load_be64_spec m' p v Hp) by (by eapply updated_holds_be). by rewrite u64_small.
    + intros a Ha. rewrite U. unfold inside. zcmp.
Qed.

Lemma store_load_64_witness :
  let m := build 8 (replicate 8 0) in let v := 1311768467463790320 in
  (exists m', mvh_store_le64 m 8 v = Some m' /\ mvh_load_le64 m' 8 = Some v /\
     forall a, a < 8 \/ 8 + 8 <= a -> m' !! a = m !! a) /\
  (exists m', mvh_store_be64 m 8 v = Some m' /\ mvh_load_be64 m' 8 = Some v /\
     forall a, a < 8 \/ 8 + 8 <= a -> m' !! a = m !! a).
Proof.
  intros m v. apply (store_load_64 m 8 v); [done|split; done|by apply build_mapped].
Defined.
