(* ===== verification/Text.v ===== *)
(** * util.c: strings, ASCII classes, number parsing and formatting

    Strings live in the flat memory of [Memory]: a [char *] is an address and
    a string ends at the first 0 byte.  A [char] is kept as its byte, 0..255:
    the comparisons of the source with ASCII constants and between two
    characters give the same result on the byte as on the signed [char].

    A scan reads one mapped byte per iteration, all at different addresses, so
    it stops or faults within [fuel m] iterations, one more than the number of
    mapped bytes; for the same reason an index that counts scanned bytes never
    reaches 2^64 and is not reduced. *)

From S2P Require Import Prelude Arith Memory.

Definition fuel (m : mem) : nat := S (size m).

(** ** ASCII classes *)

Definition mvh_ascii_is_upper (c : Z) : bool := (65 <=? c) && (c <=? 90).
Definition mvh_ascii_is_lower (c : Z) : bool := (97 <=? c) && (c <=? 122).
Definition mvh_ascii_is_alpha (c : Z) : bool := mvh_ascii_is_upper c || mvh_ascii_is_lower c.
Definition mvh_ascii_is_digit (c : Z) : bool := (48 <=? c) && (c <=? 57).
Definition mvh_ascii_is_alnum (c : Z) : bool := mvh_ascii_is_alpha c || mvh_ascii_is_digit c.
Definition mvh_ascii_is_space (c : Z) : bool :=
  (c =? 32) || (c =? 9) || (c =? 10) || (c =? 13) || (c =? 12) || (c =? 11).
Definition mvh_ascii_to_upper (c : Z) : Z := if mvh_ascii_is_lower c then c - 32 else c.
Definition mvh_ascii_to_lower (c : Z) : Z := if mvh_ascii_is_upper c then c + 32 else c.
Definition mvh_ascii_is_hex (c : Z) : bool :=
  mvh_ascii_is_digit c || ((97 <=? mvh_ascii_to_lower c) && (mvh_ascii_to_lower c <=? 102)).
Definition mvh_ascii_is_printable (c : Z) : bool := (32 <=? c) && (c <=? 126).
Definition mvh_ascii_is_control (c : Z) : bool := (c <? 32) || (c =? 127).
Definition mvh_ascii_is_graph (c : Z) : bool := (33 <=? c) && (c <=? 126).
Definition mvh_ascii_is_punctuation (c : Z) : bool :=
  mvh_ascii_is_graph c && negb (mvh_ascii_is_alnum c).
Definition mvh_ascii_is_binary (c : Z) : bool := (c =? 48) || (c =? 49).
Definition mvh_ascii_digit_value (c : Z) : Z := if mvh_ascii_is_digit c then c - 48 else -1.
Definition mvh_ascii_hex_value (c : Z) : Z :=
  let c := mvh_ascii_to_lower c in
  if mvh_ascii_is_digit c then c - 48 else
  if (97 <=? c) && (c <=? 102) then c - 97 + 10 else -1.

(** ** Lengths and comparisons *)

Definition mvh_str_length (m : mem) (text : Z) : option Z :=
  if text =? 0 then Some 0 else
  while_loop (fuel m) (fun length =>
    c ← ld m (text + length);
    Some (if negb (c =? 0) then inl (length + 1) else inr length)) 0.

Definition mvh_str_nlength (m : mem) (text limit : Z) : option Z :=
  if text =? 0 then Some 0 else
  while_loop (fuel m) (fun length =>
    if length <? limit then
      c ← ld m (text + length);
      Some (if negb (c =? 0) then inl (length + 1) else inr length)
    else Some (inr length)) 0.

Definition mvh_str_compare (m : mem) (left right : Z) : option Z :=
  if left =? right then Some 0 else
  if left =? 0 then Some (-1) else
  if right =? 0 then Some 1 else
  index ← while_loop (fuel m) (fun index =>
            a ← ld m (left + index);
            if negb (a =? 0) then
              b ← ld m (right + index);
              Some (if a =? b then inl (index + 1) else inr index)
            else Some (inr index)) 0;
  a ← ld m (left + index); b ← ld m (right + index);
  Some (if a =? b then 0 else if a <? b then -1 else 1).

Definition mvh_str_ncompare (m : mem) (left right limit : Z) : option Z :=
  if (left =? right) || (limit =? 0) then Some 0 else
  if left =? 0 then Some (-1) else
  if right =? 0 then Some 1 else
  while_loop (fuel m) (fun index =>
    if index <? limit then
      a ← ld m (left + index); b ← ld m (right + index);
      Some (if negb (a =? b) then inr (if a <? b then -1 else 1)
            else if a =? 0 then inr 0 else inl (index + 1))
    else Some (inr 0)) 0.

Definition mvh_str_equal (m : mem) (left right : Z) : option bool :=
  r ← mvh_str_compare m left right; Some (r =? 0).
Definition mvh_str_nequal (m : mem) (left right limit : Z) : option bool :=
  r ← mvh_str_ncompare m left right limit; Some (r =? 0).

Definition mvh_str_common_prefix (m : mem) (left right : Z) : option Z :=
  if (left =? 0) || (right =? 0) then Some 0 else
  while_loop (fuel m) (fun length =>
    a ← ld m (left + length);
    if negb (a =? 0) then
      b ← ld m (right + length);
      Some (if a =? b then inl (length + 1) else inr length)
    else Some (inr length)) 0.

Definition mvh_str_case_equal (m : mem) (left right : Z) : option bool :=
  if (left =? 0) || (right =? 0) then Some (left =? right) else
  r ← while_loop (fuel m) (fun '(left, right) =>
        a ← ld m left;
        if negb (a =? 0) then
          b ← ld m right;
          Some (if mvh_ascii_to_lower a =? mvh_ascii_to_lower b
                then inl (left + 1, right + 1) else inr (left, right))
        else Some (inr (left, right))) (left, right);
  a ← ld m (fst r); b ← ld m (snd r);
  Some (mvh_ascii_to_lower a =? mvh_ascii_to_lower b).

Definition mvh_str_ncase_equal (m : mem) (left right limit : Z) : option bool :=
  if (left =? 0) || (right =? 0) then Some (left =? right) else
  while_loop (fuel m) (fun index =>
    if index <? limit then
      a ← ld m (left + index); b ← ld m (right + index);
      Some (if negb (mvh_ascii_to_lower a =? mvh_ascii_to_lower b) then inr false
            else if a =? 0 then inr true else inl (index + 1))
    else Some (inr true)) 0.

Definition mvh_str_is_empty (m : mem) (text : Z) : option bool :=
  if text =? 0 then Some true else c ← ld m text; Some (c =? 0).

(** ** Copies *)

Definition mvh_str_ncopy (m : mem) (destination capacity source source_limit : Z)
  : option (mem * Z) :=
  length ← mvh_str_nlength m source source_limit;
  let copy := if capacity =? 0 then 0 else mvh_min_u64 length (capacity - 1) in
  if (destination =? 0) || (capacity =? 0) then Some (m, length) else
  m ← for_loop (Z.to_nat copy) 0 (copy_byte destination source) m;
  m ← st m (destination + copy) 0;
  Some (m, length).

Definition mvh_str_copy (m : mem) (destination capacity source : Z) : option (mem * Z) :=
  mvh_str_ncopy m destination capacity source U64_MAX.

Definition mvh_str_concat (m : mem) (destination capacity source : Z) : option (mem * Z) :=
  prefix ← mvh_str_nlength m destination capacity;
  suffix ← mvh_str_length m source;
  if (destination =? 0) || (capacity =? 0) || (prefix =? capacity)
  then Some (m, u64 (prefix + suffix)) else
  let copy := mvh_min_u64 suffix (capacity - prefix - 1) in
  m ← for_loop (Z.to_nat copy) 0 (copy_byte (destination + prefix) source) m;
  m ← st m (destination + prefix + copy) 0;
  Some (m, u64 (prefix + suffix)).

Definition mvh_str_join (m : mem) (destination capacity left separator right : Z)
  : option (mem * Z) :=
  a ← mvh_str_length m left; b ← mvh_str_length m separator; c ← mvh_str_length m right;
  let required := u64 (u64 (a + b) + c) in
  if (destination =? 0) || (capacity =? 0) then Some (m, required) else
  m ← st m destination 0;
  r ← mvh_str_concat m destination capacity left;
  r ← mvh_str_concat (fst r) destination capacity separator;
  r ← mvh_str_concat (fst r) destination capacity right;
  Some (fst r, required).

(** ** Searches; an address result is 0 (NULL) when nothing is found *)

Definition mvh_str_find_char (m : mem) (text character : Z) : option Z :=
  if text =? 0 then Some 0 else
  while_loop (fuel m) (fun text =>
    c ← ld m text;
    Some (if c =? character then inr text
          else if negb (c =? 0) then inl (text + 1) else inr 0)) text.

Definition mvh_str_rfind_char (m : mem) (text character : Z) : option Z :=
  if text =? 0 then Some 0 else
  while_loop (fuel m) (fun '(text, found) =>
    c ← ld m text;
    let found := if c =? character then text else found in
    Some (if negb (c =? 0) then inl (text + 1, found) else inr found)) (text, 0).

Definition mvh_str_find (m : mem) (text needle : Z) : option Z :=
  needle_length ← mvh_str_length m needle;
  if (text =? 0) || (needle =? 0) then Some 0 else
  if needle_length =? 0 then Some text else
  while_loop (fuel m) (fun text =>
    c ← ld m text;
    if negb (c =? 0) then
      r ← mvh_str_ncompare m text needle needle_length;
      Some (if r =? 0 then inr text else inl (text + 1))
    else Some (inr 0)) text.

Definition mvh_str_contains (m : mem) (text needle : Z) : option bool :=
  r ← mvh_str_find m text needle; Some (negb (r =? 0)).

Definition mvh_str_starts_with (m : mem) (text prefix : Z) : option bool :=
  length ← mvh_str_length m prefix;
  if (text =? 0) || (prefix =? 0) then Some false else
  r ← mvh_str_ncompare m text prefix length; Some (r =? 0).

Definition mvh_str_ends_with (m : mem) (text suffix : Z) : option bool :=
  text_length ← mvh_str_length m text;
  suffix_length ← mvh_str_length m suffix;
  if (text =? 0) || (suffix =? 0) || (text_length <? suffix_length) then Some false else
  r ← mvh_str_compare m (text + text_length - suffix_length) suffix; Some (r =? 0).

Definition mvh_str_count_char (m : mem) (text character : Z) : option Z :=
  if text =? 0 then Some 0 else
  while_loop (fuel m) (fun '(text, count) =>
    c ← ld m text;
    Some (if negb (c =? 0) then inl (text + 1, if c =? character then count + 1 else count)
          else inr count)) (text, 0).

Definition mvh_str_index_char (m : mem) (text character : Z) : option Z :=
  found ← mvh_str_find_char m text character;
  Some (if (found =? 0) || (text =? 0) then -1 else i64 (found - text)).

Definition mvh_str_last_index_char (m : mem) (text character : Z) : option Z :=
  found ← mvh_str_rfind_char m text character;
  Some (if (found =? 0) || (text =? 0) then -1 else i64 (found - text)).

Definition mvh_str_trim_left (m : mem) (text : Z) : option Z :=
  if text =? 0 then Some 0 else
  while_loop (fuel m) (fun text =>
    c ← ld m text; Some (if mvh_ascii_is_space c then inl (text + 1) else inr text)) text.

Definition mvh_str_skip_space (m : mem) (text : Z) : option Z := mvh_str_trim_left m text.

(** ** Updates in place *)

Definition mvh_str_trim_right (m : mem) (text : Z) : option (mem * Z) :=
  length ← mvh_str_length m text;
  if text =? 0 then Some (m, 0) else
  length ← while_loop (S (Z.to_nat length)) (fun length =>
             if negb (length =? 0) then
               c ← ld m (text + (length - 1));
               Some (if mvh_ascii_is_space c then inl (length - 1) else inr length)
             else Some (inr length)) length;
  m ← st m (text + length) 0;
  Some (m, length).

(** Both case conversions rewrite every character of the string. *)
Definition str_map (f : Z -> Z) (m : mem) (text : Z) : option mem :=
  if text =? 0 then Some m else
  while_loop (fuel m) (fun '(m, text) =>
    c ← ld m text;
    if negb (c =? 0) then m ← st m text (f c); Some (inl (m, text + 1))
    else Some (inr m)) (m, text).

Definition mvh_str_to_upper (m : mem) (text : Z) : option mem := str_map mvh_ascii_to_upper m text.
Definition mvh_str_to_lower (m : mem) (text : Z) : option mem := str_map mvh_ascii_to_lower m text.

Definition mvh_str_replace_char (m : mem) (text old_character new_character : Z)
  : option (mem * Z) :=
  if text =? 0 then Some (m, 0) else
  while_loop (fuel m) (fun '(m, text, count) =>
    c ← ld m text;
    if negb (c =? 0) then
      if c =? old_character then
        m ← st m text new_character; Some (inl (m, text + 1, count + 1))
      else Some (inl (m, text + 1, count))
    else Some (inr (m, count))) (m, text, 0).

Definition mvh_str_reverse (m : mem) (text : Z) : option mem :=
  if negb (text =? 0) then
    length ← mvh_str_length m text; r ← mvh_mem_reverse m text length; Some (fst r)
  else Some m.

(** One character of the loop: the state is memory, [read], [write] and
    [previous_slash]. *)
Definition normalize_step (text : Z) (state : mem * Z * Z * bool)
  : option ((mem * Z * Z * bool) + (mem * Z)) :=
  let '(m, read, write, previous_slash) := state in
  value ← ld m (text + read);
  if negb (value =? 0) then
    let slash := (value =? 47) || (value =? 92) in
    if slash && previous_slash then Some (inl (m, read + 1, write, previous_slash))
    else m ← st m (text + write) (if slash then 47 else value);
         Some (inl (m, read + 1, write + 1, slash))
  else Some (inr (m, write)).

Definition mvh_str_normalize_slashes (m : mem) (text : Z) : option (mem * Z) :=
  if text =? 0 then Some (m, 0) else
  r ← while_loop (fuel m) (normalize_step text) (m, 0, 0, false);
  m ← st (fst r) (text + snd r) 0;
  Some (m, snd r).

(** ** Splitting *)

Definition mvh_str_split_once (m : mem)
  (text separator left left_capacity right right_capacity : Z) : option (mem * Z) :=
  split ← mvh_str_find_char m text separator;
  if (text =? 0) || (split =? 0) || (left =? 0) || (right =? 0) || (left_capacity =? 0) ||
     (right_capacity =? 0) then Some (m, -1) else
  let left_length := u64 (split - text) in
  if left_capacity <=? left_length then Some (m, -1) else
  right_length ← mvh_str_length m (split + 1);
  if right_capacity <=? right_length then Some (m, -1) else
  r ← mvh_str_ncopy m left left_capacity text left_length;
  r ← mvh_str_copy (fst r) right right_capacity (split + 1);
  Some (fst r, 0).

(** [cursor] is the pointer the caller passes by reference ([None]: a NULL
    reference); the result is memory, the updated cursor and the return value. *)
Definition mvh_str_next_token (m : mem) (cursor : option Z) (token capacity : Z)
  : option (mem * option Z * Z) :=
  match cursor with
  | None => Some (m, None, -1)
  | Some text =>
      if (text =? 0) || (token =? 0) || (capacity =? 0) then Some (m, Some text, -1) else
      start ← mvh_str_skip_space m text;
      c ← ld m start;
      if c =? 0 then m ← st m token 0; Some (m, Some start, 0) else
      length ← while_loop (fuel m) (fun length =>
                 c ← ld m (start + length);
                 Some (if negb (c =? 0) && negb (mvh_ascii_is_space c)
                       then inl (length + 1) else inr length)) 0;
      if capacity <=? length then Some (m, Some text, -1) else
      r ← mvh_str_ncopy m token capacity start length;
      Some (fst r, Some (start + length), 1)
  end.

(** ** Hashes *)

Definition fnv1a32_step (hash c : Z) : Z := u32 ((hash ^^^ c) * 16777619).

Definition str_hash (step : Z -> Z -> Z) (basis : Z) (m : mem) (text : Z) : option Z :=
  if text =? 0 then Some basis else
  while_loop (fuel m) (fun '(text, hash) =>
    c ← ld m text;
    Some (if negb (c =? 0) then inl (text + 1, step hash c) else inr hash)) (text, basis).

Definition mvh_str_hash_fnv1a32 (m : mem) (text : Z) : option Z :=
  str_hash fnv1a32_step 2166136261 m text.
Definition mvh_str_hash_fnv1a64 (m : mem) (text : Z) : option Z :=
  str_hash fnv1a64_step fnv_offset64 m text.

(** ** Numbers *)

(** The digit loop of the parsers: [limit] is the largest value allowed. *)
Definition parse_loop (value_of : Z -> Z) (base limit : Z) (m : mem) (text : Z) : option status :=
  while_loop (fuel m) (fun '(text, value) =>
    c ← ld m text;
    if negb (c =? 0) then
      let digit := value_of c in
      Some (if (digit <? 0) || (u64 (limit - digit) / base <? value) then inr fail
            else inl (text + 1, u64 (u64 (value * base) + digit)))
    else Some (inr (done_with value))) (text, 0).

Definition mvh_parse_u64 (m : mem) (text : Z) (result : bool) : option status :=
  if (text =? 0) || negb result then Some fail else
  c ← ld m text;
  if c =? 0 then Some fail else
  parse_loop mvh_ascii_digit_value 10 U64_MAX m text.

Definition mvh_parse_hex_u64 (m : mem) (text : Z) (result : bool) : option status :=
  if (text =? 0) || negb result then Some fail else
  c0 ← ld m text;
  text ← (if c0 =? 48 then
            c1 ← ld m (text + 1);
            Some (if (c1 =? 120) || (c1 =? 88) then text + 2 else text)
          else Some text);
  c ← ld m text;
  if c =? 0 then Some fail else
  parse_loop mvh_ascii_hex_value 16 U64_MAX m text.

Definition mvh_parse_i64 (m : mem) (text : Z) (result : bool) : option status :=
  if (text =? 0) || negb result then Some fail else
  c ← ld m text;
  if c =? 0 then Some fail else
  let negative := c =? 45 in
  let text := if (c =? 45) || (c =? 43) then text + 1 else text in
  c ← ld m text;
  if c =? 0 then Some fail else
  let limit := if negative then 1 << 63 else I64_MAX in
  r ← parse_loop mvh_ascii_digit_value 10 limit m text;
  Some (match r with
        | (0, Some magnitude) =>
            if negative && (magnitude =? 1 << 63) then done_with I64_MIN
            else done_with (if negative then - i64 magnitude else i64 magnitude)
        | _ => fail
        end).

(** The digits of [value], least significant first, in the array [reverse]:
    [digit] gives the character of the low digit and [next] drops it. *)
Definition format_digits (digit : Z -> option Z) (next : Z -> Z) (reverse : list Z) (value : Z)
  : option (list Z * Z) :=
  while_loop (S (length reverse)) (fun '(reverse, len, value) =>
    d ← digit value;
    reverse ← wr reverse len d;
    Some (if negb (next value =? 0) then inl (reverse, len + 1, next value)
          else inr (reverse, len + 1)))
    (reverse, 0, value).

(** Copy the digits in the right order, cut to the capacity. *)
Definition format_copy (m : mem) (destination capacity : Z) (reverse : list Z) (len : Z)
  : option (mem * Z) :=
  if negb (destination =? 0) && negb (capacity =? 0) then
    let copy := if len <? capacity - 1 then len else capacity - 1 in
    m ← for_loop (Z.to_nat copy) 0 (fun index m =>
          d ← rd reverse (len - index - 1); st m (destination + index) d) m;
    m ← st m (destination + copy) 0;
    Some (m, len)
  else Some (m, len).

Definition mvh_format_u64 (m : mem) (destination capacity value : Z) : option (mem * Z) :=
  r ← format_digits (fun v => Some (48 + v mod 10)) (fun v => v / 10) (replicate 20 0) value;
  format_copy m destination capacity (fst r) (snd r).

Definition hex_digits : list Z :=
  [48; 49; 50; 51; 52; 53; 54; 55; 56; 57; 97; 98; 99; 100; 101; 102].

Definition mvh_format_hex_u64 (m : mem) (destination capacity value : Z) : option (mem * Z) :=
  r ← format_digits (fun v => rd hex_digits (v &&& 15)) (fun v => v >> 4) (replicate 16 0) value;
  format_copy m destination capacity (fst r) (snd r).

(** ** C strings *)

(** The string [s] (no 0 byte) lies at [p] with its terminator. *)
Fixpoint cstr (m : mem) (p : Z) (s : list Z) : Prop :=
  match s with
  | [] => m !! p = Some 0
  | c :: s => c <> 0 /\ m !! p = Some c /\ cstr m (p + 1) s
  end.

Lemma cstr_delete m p q s : q < p -> cstr m p s -> cstr (delete q m) p s.
Proof.
  revert p. induction s as [|c s IH]; simpl; intros p Hq Hs.
  - by rewrite lookup_delete_ne by lia.
  - destruct Hs as (Hc & Hp & Hs). rewrite lookup_delete_ne by lia. auto with lia.
Qed.

(** A string is shorter than the memory it lies in. *)
Lemma cstr_size m p s : cstr m p s -> (length s < size m)%nat.
Proof.
  revert m p. induction s as [|c s IH]; simpl; intros m p Hs.
  - assert (m <> ∅) as Hm by (intros ->; by rewrite lookup_empty in Hs).
    apply map_size_ne_0_iff in Hm || (apply map_size_non_empty_iff in Hm). lia.
  - destruct Hs as (Hc & Hp & Hs). specialize (IH (delete p m) (p + 1)).
    rewrite map_size_delete, Hp in IH. 
    assert (cstr (delete p m) (p + 1) s) by (apply cstr_delete; [lia|done]).
    specialize (IH H). simpl in IH. lia.
Qed.

Lemma cstr_lookup m p s i c : cstr m p s -> s !! i = Some c -> m !! (p + Z.of_nat i) = Some c /\ c <> 0.
Proof.
  revert p i. induction s as [|x s IH]; intros p i Hs Hi; [done|].
  destruct Hs as (Hx & Hp & Hs). destruct i as [|i]; simpl in Hi.
  - injection Hi as ->. rewrite Z.add_0_r. done.
  - apply (IH (p + 1)) in Hi as [Hi ?]; [|done]. split; [|done].
    rewrite <- Hi. f_equal. lia.
Qed.

Lemma cstr_end m p s : cstr m p s -> m !! (p + Z.of_nat (length s)) = Some 0.
Proof.
  revert p. induction s as [|x s IH]; intros p Hs; simpl in *; [by rewrite Z.add_0_r|].
  destruct Hs as (_ & _ & Hs). apply IH in Hs. rewrite <- Hs. f_equal. lia.
Qed.

(** The byte at offset [i] of a string, the terminator included. *)
Lemma cstr_byte m p s i :
  cstr m p s -> 0 <= i <= Z.of_nat (length s) ->
  exists c, m !! (p + i) = Some c /\ (i < Z.of_nat (length s) <-> c <> 0).
Proof.
  intros Hs Hi. destruct (Z.eq_dec i (Z.of_nat (length s))) as [->|].
  - exists 0. split; [by apply cstr_end|lia].
  - destruct (lookup_lt_is_Some_2 s (Z.to_nat i)) as [c Hc]; [lia|].
    apply (cstr_lookup m p) in Hc as [Hc ?]; [|done]. rewrite Z2Nat.id in Hc by lia.
    exists c. split; [done|]. split; [done|lia].
Qed.

Lemma cstr_intro m p s :
  (forall i c, s !! i = Some c -> m !! (p + Z.of_nat i) = Some c /\ c <> 0) ->
  m !! (p + Z.of_nat (length s)) = Some 0 -> cstr m p s.
Proof.
  revert p. induction s as [|x s IH]; intros p Hi He; simpl in *.
  - by rewrite Z.add_0_r in He.
  - destruct (Hi 0%nat x eq_refl) as [H0 ?]. rewrite Z.add_0_r in H0. split_and!; [done..|].
    apply IH.
    + intros i c Hc. destruct (Hi (S i) c Hc) as [<- ?]. split; [|done]. f_equal. lia.
    + rewrite <- He. f_equal. lia.
Qed.

Lemma fuel_enough m p s : cstr m p s -> (length s < fuel m)%nat.
Proof. intros H%cstr_size. unfold fuel. lia. Qed.

Lemma str_nlength_spec m p s limit :
  p <> 0 -> cstr m p s -> 0 <= limit ->
  mvh_str_nlength m p limit = Some (Z.min limit (Z.of_nat (length s))).
Proof.
  intros Hp Hs Hl. unfold mvh_str_nlength. rewrite (proj2 (Z.eqb_neq p 0)) by done.
  match goal with |- while_loop ?f ?b ?i = _ =>
    destruct (while_loop_rule (fun len => 0 <= len <= Z.min limit (Z.of_nat (length s)))
      (fun v => v = Z.min limit (Z.of_nat (length s))) (fun len => length s - Z.to_nat len)%nat f b i)
      as (v & -> & ->); [lia|apply fuel_enough in Hs; lia| |done] end.
  intros len Hlen. destruct (Z.ltb_spec len limit).
  - destruct (cstr_byte m p s len Hs) as (c & Hc & Hcc); [lia|]. unfold ld. rewrite Hc. simpl.
    destruct (Z.eqb_spec c 0); simpl; [right|left]; eexists; (split; [done|]); lia.
  - right. eexists. split; [done|]. lia.
Qed.

Lemma str_length_spec m p s :
  p <> 0 -> cstr m p s -> mvh_str_length m p = Some (Z.of_nat (length s)).
Proof.
  intros Hp Hs. unfold mvh_str_length. rewrite (proj2 (Z.eqb_neq p 0)) by done.
  match goal with |- while_loop ?f ?b ?i = _ =>
    destruct (while_loop_rule (fun len => 0 <= len <= Z.of_nat (length s))
      (fun v => v = Z.of_nat (length s)) (fun len => length s - Z.to_nat len)%nat f b i)
      as (v & -> & ->); [lia|apply fuel_enough in Hs; lia| |done] end.
  intros len Hlen.
  destruct (cstr_byte m p s len Hs) as (c & Hc & Hcc); [lia|]. unfold ld. rewrite Hc. simpl.
  destruct (Z.eqb_spec c 0); simpl; [right|left]; eexists; (split; [done|]); lia.
Qed.

Lemma cstr_mapped m p s : cstr m p s -> mapped m p (Z.of_nat (length s) + 1).
Proof.
  intros Hs a Ha. destruct (cstr_byte m p s (a - p) Hs) as (c & Hc & _); [lia|].
  exists c. rewrite <- Hc. f_equal. lia.
Qed.

(** Copying [n] characters of a string and terminating the copy. *)
Lemma copy_terminated m dst src s n :
  cstr m src s -> (n <= length s)%nat -> mapped m dst (Z.of_nat n + 1) ->
  dst <= src \/ src + Z.of_nat n <= dst ->
  exists m1 m2, for_loop n 0 (copy_byte dst src) m = Some m1 /\
    st m1 (dst + Z.of_nat n) 0 = Some m2 /\ cstr m2 dst (take n s) /\
    forall a, inside dst (Z.of_nat n + 1) a = false -> m2 !! a = m !! a.
Proof.
  intros Hs Hn Hd Hov. pose proof (cstr_mapped _ _ _ Hs) as Hms.
  destruct (copy_forward m dst src (Z.of_nat n)) as (m1 & Hl & U); [lia|
    by eapply mapped_weaken; [exact Hd|lia..]|by eapply mapped_weaken; [exact Hms|lia..]|done|].
  rewrite Nat2Z.id in Hl. exists m1, (<[dst + Z.of_nat n := 0]> m1). split_and!; [done| | |].
  - apply st_ok. rewrite U. unfold inside. zcmp. apply Hd. lia.
  - apply cstr_intro.
    + intros i c [Hc Hi]%lookup_take_Some. apply (cstr_lookup m src) in Hc as [Hc ?]; [|done].
      split; [|done]. rewrite lookup_st, U. unfold inside. zcmp. rewrite <- Hc. f_equal. lia.
    + rewrite lookup_st, length_take. zcmp.
  - intros a Ha. rewrite lookup_st, U. unfold inside in *. zcmp.
Qed.

(** [mvh_str_ncopy].  The copy of a string of length [n] into a buffer of
    [capacity > 0] bytes does not fault, returns the length of the (limited)
    source, leaves in the buffer the longest prefix that fits, always
    terminated, and writes only the bytes of that prefix and its terminator,
    which all lie inside the buffer. *)
Theorem mvh_str_ncopy_spec m destination capacity source limit s :
  destination <> 0 -> source <> 0 -> 0 < capacity -> 0 <= limit ->
  cstr m source s -> mapped m destination capacity ->
  destination <= source \/ source + Z.of_nat (length s) <= destination ->
  let len := Z.min limit (Z.of_nat (length s)) in
  let copied := Z.min len (capacity - 1) in
  exists m', mvh_str_ncopy m destination capacity source limit = Some (m', len) /\
    cstr m' destination (take (Z.to_nat copied) s) /\ copied < capacity /\
    forall a, inside destination (copied + 1) a = false -> m' !! a = m !! a.
Proof.
  intros Hd Hsrc Hcap Hlim Hs Hm Hov len copied. unfold mvh_str_ncopy.
  rewrite (str_nlength_spec m source s limit) by done. cbn [mbind option_bind].
  rewrite (proj2 (Z.eqb_neq capacity 0)), (proj2 (Z.eqb_neq destination 0)) by lia. simpl.
  fold len. assert (mvh_min_u64 len (capacity - 1) = copied) as ->
    by (unfold mvh_min_u64, copied; zcmp).
  destruct (copy_terminated m destination source s (Z.to_nat copied)) as (m1 & m2 & -> & Hst & Hc & Hu);
    [done|lia|by eapply mapped_weaken; [exact Hm|lia..]|lia|].
  rewrite Z2Nat.id in Hst, Hu by lia. cbn [mbind option_bind]. rewrite Hst. simpl.
  exists m2. split_and!; [done..|lia|done].
Qed.

Lemma mvh_str_ncopy_spec_witness :
  let m := build 8 [104; 101; 108; 108; 111; 0; 9; 9; 9; 9] in
  let len := Z.min 100 (Z.of_nat (length [104; 101; 108; 108; 111])) in
  let copied := Z.min len (4 - 1) in
  exists m', mvh_str_ncopy m 14 4 8 100 = Some (m', len) /\
    cstr m' 14 (take (Z.to_nat copied) [104; 101; 108; 108; 111]) /\ copied < 4 /\
    forall a, inside 14 (copied + 1) a = false -> m' !! a = m !! a.
Proof.
  intros m. apply (mvh_str_ncopy_spec m 14 4 8 100 [104; 101; 108; 108; 111]); try done.
  - by apply build_mapped.
  - by right.
Defined.

(** ** Parsing *)

(** The value of a digit string, most significant first, continuing from
    [acc]; [None] when a character is not a digit. *)
Fixpoint digits_value (value_of : Z -> Z) (base : Z) (s : list Z) (acc : Z) : option Z :=
  match s with
  | [] => Some acc
  | c :: s => if value_of c <? 0 then None else digits_value value_of base s (acc * base + value_of c)
  end.

(** What a parser reports for a string with a given upper limit. *)
Definition parse_result (value_of : Z -> Z) (base limit : Z) (s : list Z) (acc : Z) : status :=
  match digits_value value_of base s acc with
  | Some v => if v <=? limit then done_with v else fail
  | None => fail
  end.

Section parse.
Context (value_of : Z -> Z) (base limit : Z).
Context (Hbase : 2 <= base) (Hlimit : base <= limit <= U64_MAX).
Context (Hval : forall c, -1 <= value_of c < base).

Lemma digits_value_mono s acc v :
  0 <= acc -> digits_value value_of base s acc = Some v -> acc <= v.
Proof.
  revert acc. induction s as [|c s IH]; simpl; intros acc Ha.
  - intros [= ->]. done.
  - split_if; [done|]. pose proof (Hval c). intros He. apply IH in He; nia.
Qed.

(** The overflow test of the loop is exact. *)
Lemma overflow_test acc d :
  0 <= acc <= limit -> 0 <= d < base ->
  (u64 (limit - d) / base <? acc) = negb (acc * base + d <=? limit).
Proof.
  intros Ha Hd. rewrite u64_small by warith.
  pose proof (Z.div_mod (limit - d) base). pose proof (Z.mod_pos_bound (limit - d) base).
  zcmp; nia.
Qed.

Lemma parse_loop_spec m s n p acc :
  cstr m p s -> (length s < n)%nat -> 0 <= acc <= limit ->
  while_loop n (fun '(text, value) =>
    c ← ld m text;
    if negb (c =? 0) then
      let digit := value_of c in
      Some (if (digit <? 0) || (u64 (limit - digit) / base <? value) then inr fail
            else inl (text + 1, u64 (u64 (value * base) + digit)))
    else Some (inr (done_with value))) (p, acc) = Some (parse_result value_of base limit s acc).
Proof.
  revert n p acc. induction s as [|c s IH]; intros [|n] p acc Hs Hn Ha; simpl in Hn; try lia;
    rewrite while_loop_S; unfold ld; unfold parse_result; simpl in *.
  - rewrite Hs. simpl. by rewrite (proj2 (Z.leb_le acc limit)) by lia.
  - destruct Hs as (Hc & Hp & Hs). rewrite Hp. simpl. rewrite (proj2 (Z.eqb_neq c 0)) by done. simpl.
    pose proof (Hval c). destruct (Z.ltb_spec (value_of c) 0); simpl; [done|].
    rewrite overflow_test by lia. destruct (Z.leb_spec (acc * base + value_of c) limit); simpl.
    + rewrite (u64_small (acc * base)) by (unfold U64_MAX, fits in *; nia).
      rewrite u64_small by (unfold U64_MAX, fits in *; nia).
      rewrite IH by (try done; nia || lia). done.
    + destruct (digits_value _ _ s _) eqn:E; [|done]. apply digits_value_mono in E; [|nia].
      by rewrite (proj2 (Z.leb_gt _ _)) by lia.
Qed.
End parse.

Lemma digit_value_range c : -1 <= mvh_ascii_digit_value c < 10.
Proof. unfold mvh_ascii_digit_value, mvh_ascii_is_digit. zcmp. Qed.

Lemma hex_value_range c : -1 <= mvh_ascii_hex_value c < 16.
Proof.
  unfold mvh_ascii_hex_value, mvh_ascii_is_digit, mvh_ascii_to_lower, mvh_ascii_is_upper. zcmp.
Qed.

Lemma cstr_head m p s :
  cstr m p s -> ld m p = Some (default 0 (head s)) /\ (default 0 (head s) = 0 <-> s = []).
Proof. destruct s; simpl; [done|]. intros (? & ? & _). split; [done|]. by split. Qed.

Lemma parse_u64_result m p s :
  p <> 0 -> cstr m p s -> s <> [] ->
  mvh_parse_u64 m p true = Some (parse_result mvh_ascii_digit_value 10 U64_MAX s 0).
Proof.
  intros Hp Hs Hne. unfold mvh_parse_u64. rewrite (proj2 (Z.eqb_neq p 0)) by done. simpl.
  pose proof (cstr_head m p s Hs) as [-> H0]. simpl. rewrite (proj2 (Z.eqb_neq _ 0)) by (by intros ?%H0).
  apply (parse_loop_spec mvh_ascii_digit_value 10 U64_MAX);
    [done|done|apply digit_value_range|done|by eapply fuel_enough|done].
Qed.

(** [mvh_parse_u64].  On every C string the parser terminates without a
    fault.  It accepts exactly the nonempty strings of decimal digits whose
    value fits 64 bits, with that value, and refuses every other string. *)
Theorem mvh_parse_u64_spec m p s :
  p <> 0 -> cstr m p s ->
  mvh_parse_u64 m p true =
    Some (match s with
          | [] => fail
          | _ => match digits_value mvh_ascii_digit_value 10 s 0 with
                 | Some v => if v <=? U64_MAX then done_with v else fail
                 | None => fail
                 end
          end).
Proof.
  intros Hp Hs. destruct s as [|c s]; [|by apply parse_u64_result].
  unfold mvh_parse_u64, ld. simpl in Hs. rewrite Hs. by destruct (p =? 0).
Qed.

Lemma mvh_parse_u64_spec_witness :
  mvh_parse_u64 (build 8 [52; 50; 0]) 8 true =
    Some (match [52; 50] with
          | [] => fail
          | _ => match digits_value mvh_ascii_digit_value 10 [52; 50] 0 with
                 | Some v => if v <=? U64_MAX then done_with v else fail
                 | None => fail
                 end
          end).
Proof. apply (mvh_parse_u64_spec (build 8 [52; 50; 0]) 8 [52; 50]); done. Defined.

Lemma digits_value_cons value_of base c s acc :
  digits_value value_of base (c :: s) acc =
    if value_of c <? 0 then None else digits_value value_of base s (acc * base + value_of c).
Proof. done. Qed.

#[local] Arguments digits_value : simpl never.

(** The sign and the digits of a signed literal. *)
Definition split_sign (s : list Z) : bool * list Z :=
  match s with
  | c :: s' => if c =? 45 then (true, s') else if c =? 43 then (false, s') else (false, s)
  | [] => (false, [])
  end.

Lemma split_sign_cstr m p c s :
  cstr m p (c :: s) ->
  let '(negative, digits) := split_sign (c :: s) in
  negative = (c =? 45) /\
  cstr m (if (c =? 45) || (c =? 43) then p + 1 else p) digits.
Proof. intros (Hc & Hp & Hs). unfold split_sign. by zcmp. Qed.

Lemma parse_i64_magnitude v :
  0 <= v <= 2 ^ 63 ->
  (if v =? 1 << 63 then done_with I64_MIN else done_with (- i64 v)) = done_with (- v).
Proof.
  intros Hv. change (1 << 63) with (2 ^ 63). destruct (Z.eqb_spec v (2 ^ 63)) as [->|]; [done|].
  by rewrite i64_small by warith.
Qed.

(** [mvh_parse_i64].  On every C string the parser accepts exactly an
    optional sign followed by at least one decimal digit whose signed value is
    a 64-bit integer, and returns that value; the most negative integer is
    accepted and no other string is. *)
Theorem mvh_parse_i64_spec m p s :
  p <> 0 -> cstr m p s ->
  let '(negative, digits) := split_sign s in
  mvh_parse_i64 m p true =
    Some (match digits, digits_value mvh_ascii_digit_value 10 digits 0 with
          | _ :: _, Some v =>
              let value := if negative then - v else v in
              if (I64_MIN <=? value) && (value <=? I64_MAX) then done_with value else fail
          | _, _ => fail
          end).
Proof.
  intros Hp Hs. unfold mvh_parse_i64. rewrite (proj2 (Z.eqb_neq p 0)) by done. simpl.
  pose proof (cstr_head m p s Hs) as [Hh H0]. rewrite Hh. simpl.
  destruct s as [|c s]; [done|].
  pose proof (split_sign_cstr m p c s Hs) as Hsp. destruct (split_sign (c :: s)) as [negative digits].
  destruct Hsp as [-> Hd]. simpl default. rewrite (proj2 (Z.eqb_neq c 0)) by (by intros ?%H0).
  pose proof (cstr_head _ _ _ Hd) as [Hh' H0']. rewrite Hh'. simpl.
  destruct digits as [|d ds] eqn:Hds; [done|]. rewrite <- Hds in *.
  rewrite (proj2 (Z.eqb_neq _ 0)) by (intros E%H0'; by rewrite E in Hds).
  set (limit := if c =? 45 then 1 << 63 else I64_MAX).
  assert (limit = if c =? 45 then 2 ^ 63 else 2 ^ 63 - 1) as Hlim by done.
  unfold parse_loop. rewrite (parse_loop_spec mvh_ascii_digit_value 10 limit ltac:(done)
    ltac:(rewrite Hlim; unfold U64_MAX; destruct (c =? 45); done) digit_value_range m digits);
    [|done|by eapply fuel_enough|rewrite Hlim; destruct (c =? 45); done].
  simpl. f_equal. unfold parse_result. rewrite Hds at 2.
  destruct (digits_value _ _ digits 0) as [v|] eqn:Hv; [|by rewrite Hds in Hv; rewrite Hv].
  rewrite Hds in Hv. rewrite Hv.
  apply digits_value_mono in Hv; [|lia|apply digit_value_range|done].
  rewrite Hlim. destruct (c =? 45).
  - destruct (Z.leb_spec v (2 ^ 63)); simpl.
    + rewrite parse_i64_magnitude by lia.
      by rewrite (proj2 (andb_true_iff _ _)) by (warith || (widths; zcmp)).
    + by rewrite (proj2 (andb_false_iff _ _)) by (left; apply Z.leb_gt; warith).
  - destruct (Z.leb_spec v (2 ^ 63 - 1)); simpl.
    + rewrite i64_small by warith.
      by rewrite (proj2 (andb_true_iff _ _)) by (warith || (widths; zcmp)).
    + by rewrite (proj2 (andb_false_iff _ _)) by (right; apply Z.leb_gt; warith).
Qed.

Lemma mvh_parse_i64_spec_witness :
  let m := build 8 [45; 52; 50; 0] in
  let '(negative, digits) := split_sign [45; 52; 50] in
  mvh_parse_i64 m 8 true =
    Some (match digits, digits_value mvh_ascii_digit_value 10 digits 0 with
          | _ :: _, Some v =>
              let value := if negative then - v else v in
              if (I64_MIN <=? value) && (value <=? I64_MAX) then done_with value else fail
          | _, _ => fail
          end).
Proof. intros m. apply (mvh_parse_i64_spec m 8 [45; 52; 50]); done. Defined.

(** ** Formatting *)

(** The value of a digit list, least significant first. *)
Fixpoint lsb_value (base : Z) (ds : list Z) : Z :=
  match ds with [] => 0 | d :: ds => d + base * lsb_value base ds end.

Lemma lsb_value_snoc base ds d :
  lsb_value base (ds ++ [d]) = lsb_value base ds + base ^ Z.of_nat (length ds) * d.
Proof.
  induction ds as [|x ds IH]; [simpl; lia|]. cbn [lsb_value length app].
  rewrite IH, Nat2Z.inj_succ, Z.pow_succ_r by lia. ring.
Qed.

Section format.
Context (base : Z) (char_of : Z -> Z) (value_of : Z -> Z).
Context (digit : Z -> option Z) (next : Z -> Z).
Context (Hbase : 2 <= base).
Context (Hdigit : forall v, 0 <= v -> digit v = Some (char_of (v mod base))).
Context (Hnext : forall v, 0 <= v -> next v = v / base).
Context (Hchar : forall d, 0 <= d < base -> value_of (char_of d) = d /\ char_of d <> 0).

(** The array built so far: the characters of the digits [ds]. *)
Definition format_inv (cap : nat) (v : Z) (st : list Z * Z * Z) : Prop :=
  let '(reverse, len, value) := st in
  exists ds, length reverse = cap /\ len = Z.of_nat (length ds) /\
    take (length ds) reverse = char_of <$> ds /\
    Forall (fun d => 0 <= d < base) ds /\
    v = lsb_value base ds + base ^ len * value /\ 0 <= value < base ^ (Z.of_nat cap - len) /\
    (length ds < cap)%nat.

Lemma format_take (rv : list Z) ds d :
  (length ds < length rv)%nat -> take (length ds) rv = char_of <$> ds ->
  take (S (length ds)) (<[length ds:=char_of d]> rv) = char_of <$> ds ++ [d].
Proof.
  intros Hl Ht. rewrite fmap_app, <- Ht, (take_S_r _ _ (char_of d)).
  - by rewrite take_insert_ge by lia.
  - apply list_lookup_insert_eq. lia.
Qed.

Lemma format_bound k value :
  0 <= value < base ^ k -> value / base <> 0 -> 1 < k /\ 0 <= value / base < base ^ (k - 1).
Proof.
  intros Hv Hne. pose proof (Z.div_mod value base ltac:(lia)).
  pose proof (Z.mod_pos_bound value base ltac:(lia)).
  assert (0 <= value / base) by (apply Z.div_pos; lia).
  assert (1 < k) as Hk.
  { destruct (Z.lt_ge_cases 1 k); [done|]. exfalso.
    assert (base ^ k <= base ^ 1).
    { destruct (Z.lt_ge_cases k 0); [rewrite Z.pow_neg_r by done; lia|apply Z.pow_le_mono_r; lia]. }
    rewrite Z.pow_1_r in *. nia. }
  split; [done|]. split; [done|]. apply Z.div_lt_upper_bound; [lia|].
  rewrite <- Z.pow_succ_r by lia. replace (Z.succ (k - 1)) with k; lia.
Qed.

Definition format_done (cap : nat) (v : Z) (r : list Z * Z) : Prop :=
  exists ds, snd r = Z.of_nat (length ds) /\ length (fst r) = cap /\
    take (length ds) (fst r) = char_of <$> ds /\ Forall (fun d => 0 <= d < base) ds /\
    v = lsb_value base ds /\ (0 < length ds <= cap)%nat.

Lemma format_step cap v rv len value :
  format_inv cap v (rv, len, value) ->
  let rv' := <[Z.to_nat len := char_of (value mod base)]> rv in
  wr rv len (char_of (value mod base)) = Some rv' /\ 0 <= len < Z.of_nat cap /\ 0 <= value /\
  if negb (value / base =? 0) then format_inv cap v (rv', len + 1, value / base)
  else format_done cap v (rv', len + 1).
Proof.
  intros (ds & Hl & -> & Ht & Hf & Hveq & Hval & Hc) rv'. subst rv'.
  rewrite wr_ok, Nat2Z.id by lia. split_and!; [done|lia..|].
  pose proof (Z.mod_pos_bound value base ltac:(lia)) as Hm.
  pose proof (Z.div_mod value base ltac:(lia)) as Hdm.
  assert (Z.of_nat (length ds) + 1 = Z.of_nat (length (ds ++ [value mod base]))) as Hlen
    by (rewrite length_app; simpl; lia).
  assert (Forall (fun d => 0 <= d < base) (ds ++ [value mod base])) as Hf'
    by (apply Forall_app; split; [done|by apply Forall_singleton]).
  assert (v = lsb_value base (ds ++ [value mod base]) +
              base ^ (Z.of_nat (length ds) + 1) * (value / base)) as Hv'
    by (rewrite lsb_value_snoc, Z.pow_add_r, Z.pow_1_r by lia; nia).
  assert (take (length (ds ++ [value mod base])) (<[length ds:=char_of (value mod base)]> rv)
    = char_of <$> ds ++ [value mod base]) as Ht'
    by (rewrite length_app, Nat.add_1_r; apply format_take; [lia|done]).
  destruct (Z.eqb_spec (value / base) 0) as [E|E]; simpl;
    exists (ds ++ [value mod base]); cbn [fst snd]; rewrite length_insert.
  - rewrite E in Hv'. split_and!; try done; simpl; lia.
  - destruct (format_bound _ _ Hval E). rewrite Z.sub_add_distr. split_and!; try done; lia.
Qed.

Lemma format_digits_spec cap v reverse :
  length reverse = cap -> (0 < cap)%nat -> 0 <= v < base ^ Z.of_nat cap ->
  exists r, format_digits digit next reverse v = Some r /\ format_done cap v r.
Proof.
  intros Hlen Hcap Hv. unfold format_digits.
  apply (while_loop_rule (format_inv cap v) _ (fun st => cap - Z.to_nat (snd (fst st)))%nat).
  - exists []. simpl. split_and!; try done; try lia. rewrite Z.sub_0_r. lia.
  - simpl. lia.
  - intros [[rv len] value] Hi. destruct (format_step cap v rv len value Hi) as (Hwr & Hr & Hv0 & Hn).
    rewrite Hdigit, Hnext by lia. cbn [mbind option_bind]. rewrite Hwr. cbn [mbind option_bind].
    destruct (negb _); [left|right]; eexists; (split; [done|]); [|done].
    split; [done|]. simpl. lia.
Qed.

Lemma digits_value_rev ds acc :
  Forall (fun d => 0 <= d < base) ds ->
  digits_value value_of base (char_of <$> reverse ds) acc =
    Some (acc * base ^ Z.of_nat (length ds) + lsb_value base ds).
Proof.
  revert acc. induction ds as [|d ds IH] using rev_ind; intros acc Hf.
  - unfold digits_value. simpl. f_equal. change (base ^ 0) with 1. lia.
  - apply Forall_app in Hf as [Hf Hd]. apply Forall_inv in Hd.
    rewrite reverse_snoc, fmap_cons, digits_value_cons. destruct (Hchar d Hd) as [-> _].
    rewrite (proj2 (Z.ltb_ge _ _)) by lia.
    rewrite IH, lsb_value_snoc, length_app, Nat2Z.inj_add, Z.pow_add_r by (done || lia).
    f_equal. change (base ^ Z.of_nat (length [d])) with (base ^ 1). rewrite Z.pow_1_r. ring.
Qed.

Lemma format_lookup rv ds i :
  take (length ds) rv = char_of <$> ds -> 0 <= i < Z.of_nat (length ds) ->
  rd rv (Z.of_nat (length ds) - i - 1) = (char_of <$> reverse ds) !! Z.to_nat i.
Proof.
  intros Ht Hi. unfold rd. rewrite (proj2 (Z.ltb_ge _ _)) by lia.
  rewrite list_lookup_fmap, reverse_lookup by lia. rewrite <- list_lookup_fmap, <- Ht.
  rewrite lookup_take_lt by lia. f_equal. lia.
Qed.

Lemma format_copy_spec m dst capacity rv ds :
  take (length ds) rv = char_of <$> ds -> Forall (fun d => 0 <= d < base) ds ->
  dst <> 0 -> 0 < capacity -> mapped m dst capacity ->
  let len := Z.of_nat (length ds) in let copied := Z.min len (capacity - 1) in
  exists m', format_copy m dst capacity rv len = Some (m', len) /\
    cstr m' dst (take (Z.to_nat copied) (char_of <$> reverse ds)) /\
    forall a, inside dst (copied + 1) a = false -> m' !! a = m !! a.
Proof.
  intros Ht Hf Hd Hcap Hm len copied. unfold format_copy.
  rewrite (proj2 (Z.eqb_neq dst 0)), (proj2 (Z.eqb_neq capacity 0)) by lia. simpl.
  assert ((if len <? capacity - 1 then len else capacity - 1) = copied) as -> by (unfold copied; zcmp).
  match goal with |- context [for_loop ?n ?z ?b ?s] =>
    destruct (for_loop_rule
      (fun i m' => updated m m' dst i (fun i => (char_of <$> reverse ds) !! Z.to_nat i)) n z b s)
      as (m1 & -> & U) end.
  - apply updated_refl.
  - intros i m1 Hi U. unfold len at 1. rewrite format_lookup by (done || lia).
    destruct (lookup_lt_is_Some_2 (char_of <$> reverse ds) (Z.to_nat i)) as [c Hc];
      [rewrite length_fmap, length_reverse; lia|].
    rewrite Hc. simpl. exists (<[dst + i := c]> m1). split; [|by apply updated_snoc; [lia|..]].
    apply st_ok. rewrite U. unfold inside. zcmp. apply Hm. lia.
  - rewrite Z.add_0_l, Z2Nat.id in U by lia. simpl.
    rewrite st_ok by (rewrite U; unfold inside; zcmp; apply Hm; lia). simpl.
    eexists. split_and!; [done| |].
    + apply cstr_intro.
      * intros i c Hc. apply lookup_take_Some in Hc as [Hc Hi].
        rewrite lookup_st, U. unfold inside. zcmp.
        rewrite Z.add_simpl_l, Nat2Z.id. split; [done|].
        apply list_lookup_fmap_Some in Hc as (d & -> & Hd').
        apply Hchar. rewrite Forall_forall in Hf. apply Hf, elem_of_reverse.
        by eapply list_elem_of_lookup_2.
      * rewrite lookup_st, length_take, length_fmap, length_reverse. zcmp.
    + intros a Ha. rewrite lookup_st, U. unfold inside in *. zcmp.
Qed.
End format.

Lemma format_parse (base : Z) (char_of value_of : Z -> Z) m dst capacity rv ds v :
  2 <= base ->
  (forall d, 0 <= d < base -> value_of (char_of d) = d /\ char_of d <> 0) ->
  take (length ds) rv = char_of <$> ds -> Forall (fun d => 0 <= d < base) ds ->
  v = lsb_value base ds -> (0 < length ds)%nat -> dst <> 0 -> 0 < capacity -> mapped m dst capacity ->
  exists m' s, format_copy m dst capacity rv (Z.of_nat (length ds)) =
      Some (m', Z.of_nat (length ds)) /\
    (forall a, inside dst (Z.min (Z.of_nat (length ds)) (capacity - 1) + 1) a = false ->
       m' !! a = m !! a) /\
    (Z.of_nat (length ds) < capacity ->
       cstr m' dst s /\ s <> [] /\ s = char_of <$> reverse ds /\
       digits_value value_of base s 0 = Some v).
Proof.
  intros Hb Hch Ht Hf -> Hl Hd Hc Hm.
  destruct (format_copy_spec base char_of value_of Hch m dst capacity rv ds)
    as (m' & -> & Hs & Hu); [done..|].
  exists m', (char_of <$> reverse ds). split_and!; [done..|]. intros Hfit. split_and!.
  - rewrite take_ge in Hs; [done|]. rewrite length_fmap, length_reverse. lia.
  - intros E%(f_equal length). rewrite length_fmap, length_reverse in E. simpl in E. lia.
  - done.
  - by rewrite (digits_value_rev base char_of value_of Hch).
Qed.

Definition dec_char (d : Z) : Z := 48 + d.

Lemma dec_char_value d : 0 <= d < 10 -> mvh_ascii_digit_value (dec_char d) = d /\ dec_char d <> 0.
Proof. unfold mvh_ascii_digit_value, mvh_ascii_is_digit, dec_char. intros. zcmp. Qed.

Definition hex_char (d : Z) : Z := if d <? 10 then 48 + d else 87 + d.

Lemma hex_char_value d : 0 <= d < 16 -> mvh_ascii_hex_value (hex_char d) = d /\ hex_char d <> 0.
Proof.
  unfold mvh_ascii_hex_value, mvh_ascii_to_lower, mvh_ascii_is_upper, mvh_ascii_is_digit, hex_char.
  intros. destruct (Z.ltb_spec d 10); zcmp.
Qed.

Lemma hex_digits_char d : 0 <= d < 16 -> rd hex_digits d = Some (hex_char d).
Proof.
  intros Hd. destruct (rd_ok hex_digits d) as [c Hc]; [simpl; lia|].
  rewrite Hc. revert Hc. unfold rd, hex_char. rewrite (proj2 (Z.ltb_ge d 0)) by lia.
  replace d with (Z.of_nat (Z.to_nat d)) by lia. rewrite !Nat2Z.id.
  assert (Z.to_nat d < 16)%nat as Hn by lia. revert Hn. generalize (Z.to_nat d). clear.
  intros n Hn. do 16 (destruct n as [|n]; [by intros [= <-]|]). lia.
Qed.

(** [mvh_format_u64] followed by [mvh_parse_u64].  Formatting any 64-bit
    value never overruns the 20-byte scratch array nor the destination, and
    when the destination has room for the digits and the terminator, parsing
    the text gives the value back. *)
Theorem format_parse_u64 m destination capacity value :
  destination <> 0 -> 0 < capacity -> mapped m destination capacity -> fits 64 value ->
  exists m' len, mvh_format_u64 m destination capacity value = Some (m', len) /\ 1 <= len <= 20 /\
    (forall a, inside destination (Z.min len (capacity - 1) + 1) a = false -> m' !! a = m !! a) /\
    (len < capacity -> mvh_parse_u64 m' destination true = Some (done_with value)).
Proof.
  intros Hd Hcap Hm Hv. unfold mvh_format_u64.
  destruct (format_digits_spec 10 dec_char (fun v => Some (48 + v mod 10)) (fun v => v / 10)
    ltac:(done) ltac:(done) ltac:(done) 20 value (replicate 20 0)) as ([rv len] & -> & Hdone);
    [done|lia|unfold fits in *; change (10 ^ Z.of_nat 20) with 100000000000000000000; pow2; lia|].
  destruct Hdone as (ds & Hlen & Hl & Ht & Hf & Hval & Hds). simpl in *. subst len.
  destruct (format_parse 10 dec_char mvh_ascii_digit_value m destination capacity rv ds value)
    as (m' & s & Hc & Hu & Hp); try done; try lia; [apply dec_char_value|].
  exists m', (Z.of_nat (length ds)). split_and!; [done|lia..|done|].
  intros Hfit. destruct (Hp Hfit) as (Hs & Hne & _ & Hdv).
  rewrite (parse_u64_result m' destination s) by done. unfold parse_result. rewrite Hdv.
  by rewrite (proj2 (Z.leb_le value U64_MAX)) by warith.
Qed.

Lemma format_parse_u64_witness :
  let m := build 8 (replicate 24 0) in
  exists m' len, mvh_format_u64 m 8 24 U64_MAX = Some (m', len) /\ 1 <= len <= 20 /\
    (forall a, inside 8 (Z.min len (24 - 1) + 1) a = false -> m' !! a = m !! a) /\
    (len < 24 -> mvh_parse_u64 m' 8 true = Some (done_with U64_MAX)).
Proof.
  intros m. apply (format_parse_u64 m 8 24 U64_MAX); [done|done|by apply build_mapped|split; done].
Defined.

Lemma parse_hex_result m p s :
  p <> 0 -> cstr m p s -> s <> [] -> Forall (fun c => c <> 120 /\ c <> 88) s ->
  mvh_parse_hex_u64 m p true = Some (parse_result mvh_ascii_hex_value 16 U64_MAX s 0).
Proof.
  intros Hp Hs Hne Hx. unfold mvh_parse_hex_u64. rewrite (proj2 (Z.eqb_neq p 0)) by done. simpl.
  destruct s as [|c s]; [done|]. pose proof Hs as (Hc & Hh & Ht).
  pose proof (cstr_head _ _ _ Ht) as [Hh2 _]. rewrite Hh2.
  change (m !! p) with (ld m p) in Hh. rewrite Hh. simpl.
  assert ((if c =? 48 then Some (if (default 0 (head s) =? 120) || (default 0 (head s) =? 88)
             then p + 2 else p) else Some p) = Some p) as ->.
  { apply Forall_cons in Hx as [_ Hx]. destruct (c =? 48); [|done].
    destruct s as [|c' s]; [done|]. apply Forall_cons in Hx as [[??] _]. simpl. zcmp. }
  simpl. rewrite Hh. simpl. rewrite (proj2 (Z.eqb_neq c 0)) by done.
  apply (parse_loop_spec mvh_ascii_hex_value 16 U64_MAX);
    [done|done|apply hex_value_range|done|by eapply fuel_enough|done].
Qed.

(** [mvh_format_hex_u64] followed by [mvh_parse_hex_u64]: the same round
    trip in base 16, with the 16-byte scratch array. *)
Theorem format_parse_hex_u64 m destination capacity value :
  destination <> 0 -> 0 < capacity -> mapped m destination capacity -> fits 64 value ->
  exists m' len, mvh_format_hex_u64 m destination capacity value = Some (m', len) /\
    1 <= len <= 16 /\
    (forall a, inside destination (Z.min len (capacity - 1) + 1) a = false -> m' !! a = m !! a) /\
    (len < capacity -> mvh_parse_hex_u64 m' destination true = Some (done_with value)).
Proof.
  intros Hd Hcap Hm Hv. unfold mvh_format_hex_u64.
  destruct (format_digits_spec 16 hex_char (fun v => rd hex_digits (v &&& 15)) (fun v => v >> 4)
    ltac:(done)) with (cap := 16%nat) (v := value) (reverse := replicate 16 0)
    as ([rv len] & -> & Hdone).
  - intros v Hv0. change 15 with (2 ^ 4 - 1). rewrite land_mask by done. apply hex_digits_char. by apply Z.mod_pos_bound.
  - intros v Hv0. by rewrite Z.shiftr_div_pow2.
  - done.
  - lia.
  - unfold fits in *. change (16 ^ Z.of_nat 16) with (2 ^ 64). lia.
  - destruct Hdone as (ds & Hlen & Hl & Ht & Hf & Hval & Hds). simpl in *. subst len.
    destruct (format_parse 16 hex_char mvh_ascii_hex_value m destination capacity rv ds value)
      as (m' & s & Hc & Hu & Hp); try done; try lia; [apply hex_char_value|].
    exists m', (Z.of_nat (length ds)). split_and!; [done|lia..|done|].
    intros Hfit. destruct (Hp Hfit) as (Hs & Hne & Hsd & Hdv).
    rewrite (parse_hex_result m' destination s) by first [done|
      subst s; apply Forall_fmap, Forall_reverse; apply (Forall_impl _ _ _ Hf);
      unfold hex_char; simpl; intros; zcmp].
    unfold parse_result. rewrite Hdv. by rewrite (proj2 (Z.leb_le value U64_MAX)) by warith.
Qed.

Lemma format_parse_hex_u64_witness :
  let m := build 8 (replicate 24 0) in
  exists m' len, mvh_format_hex_u64 m 8 24 U64_MAX = Some (m', len) /\ 1 <= len <= 16 /\
    (forall a, inside 8 (Z.min len (24 - 1) + 1) a = false -> m' !! a = m !! a) /\
    (len < 24 -> mvh_parse_hex_u64 m' 8 true = Some (done_with U64_MAX)).
Proof.
  intros m. apply (format_parse_hex_u64 m 8 24 U64_MAX); [done|done|by apply build_mapped|split; done].
Defined.

(** ** Searching *)

Lemma cstr_at m p s i :
  cstr m p s -> 0 <= i <= Z.of_nat (length s) ->
  ld m (p + i) = Some (default 0 (s !! Z.to_nat i)).
Proof.
  intros Hs Hi. unfold ld. destruct (s !! Z.to_nat i) as [c|] eqn:E.
  - apply (cstr_lookup m p) in E as [E _]; [|done]. by rewrite Z2Nat.id in E by lia.
  - apply lookup_ge_None in E. replace i with (Z.of_nat (length s)) by lia. by apply cstr_end.
Qed.

Lemma cstr_nonzero m p s i c : cstr m p s -> s !! i = Some c -> c <> 0.
Proof. intros Hs Hi. by apply (cstr_lookup m p s i c Hs) in Hi as [_ ?]. Qed.

Lemma cstr_drop m p s i : cstr m p s -> (i <= length s)%nat -> cstr m (p + Z.of_nat i) (drop i s).
Proof.
  revert p s. induction i as [|i IH]; intros p s Hs Hi.
  - by rewrite Z.add_0_r.
  - destruct s as [|c s]; simpl in Hi; [lia|]. destruct Hs as (_ & _ & Hs). simpl.
    replace (p + Z.of_nat (S i)) with (p + 1 + Z.of_nat i) by lia. apply IH; [done|lia].
Qed.

Lemma cstr_unique m p s t : cstr m p s -> cstr m p t -> s = t.
Proof.
  revert p t. induction s as [|c s IH]; intros p [|d t]; simpl; try done.
  - intros H0 (? & H1 & _). congruence.
  - intros (? & H1 & _) H0. congruence.
  - intros (_ & H1 & Hs) (_ & H2 & Ht). f_equal; [congruence|by eapply IH].
Qed.

(** One more equal character. *)
Lemma take_S_eq (s t : list Z) n c :
  take n s = take n t -> s !! n = Some c -> t !! n = Some c -> take (S n) s = take (S n) t.
Proof. intros H Hs Ht. by rewrite (take_S_r s n c), (take_S_r t n c), H. Qed.

Lemma take_lookup_eq (s t : list Z) n i : take n s = take n t -> (i < n)%nat -> s !! i = t !! i.
Proof. intros H Hi. by rewrite <- (lookup_take_lt s n i), H, lookup_take_lt. Qed.

Lemma str_ncompare_zero m p q s t limit :
  p <> 0 -> q <> 0 -> cstr m p s -> cstr m q t -> 0 <= limit ->
  exists r, mvh_str_ncompare m p q limit = Some r /\
    (r = 0 <-> take (Z.to_nat limit) s = take (Z.to_nat limit) t).
Proof.
  intros Hp Hq Hs Ht Hl. unfold mvh_str_ncompare.
  destruct (Z.eqb_spec p q) as [<-|Hpq].
  { exists 0. by rewrite (cstr_unique m p s t Hs Ht). }
  destruct (Z.eqb_spec limit 0) as [->|]; [by exists 0|].
  rewrite (proj2 (Z.eqb_neq p 0)), (proj2 (Z.eqb_neq q 0)) by done. simpl.
  apply (while_loop_rule (fun i => 0 <= i <= limit /\ i <= Z.of_nat (length s) /\
      i <= Z.of_nat (length t) /\ take (Z.to_nat i) s = take (Z.to_nat i) t)
    _ (fun i => length s - Z.to_nat i)%nat);
    [split_and!; (done || lia)|apply fuel_enough in Hs; lia|].
  intros i (Hi & His & Hit & Heq). destruct (Z.ltb_spec i limit).
  2:{ right. exists 0. split; [done|]. by replace limit with i by lia. }
  rewrite (cstr_at m p s i), (cstr_at m q t i) by (done || lia). simpl.
  destruct (s !! Z.to_nat i) as [c|] eqn:Hc; destruct (t !! Z.to_nat i) as [d|] eqn:Hd;
    cbn [from_option id].
  - pose proof (cstr_nonzero m p s _ c Hs Hc).
    destruct (Z.eqb_spec c d) as [<-|Hcd]; simpl.
    + rewrite (proj2 (Z.eqb_neq c 0)) by done. left. exists (i + 1).
      apply lookup_lt_Some in Hc as Hc', Hd as Hd'. split; [done|].
      replace (Z.to_nat (i + 1)) with (S (Z.to_nat i)) by lia.
      split_and!; try lia. by eapply take_S_eq.
    + right. eexists. split; [done|]. split; [by destruct (c <? d)|]. intros E.
      apply (take_lookup_eq _ _ _ (Z.to_nat i)) in E; [congruence|lia].
  - pose proof (cstr_nonzero m p s _ c Hs Hc). rewrite (proj2 (Z.eqb_neq c 0)) by done. simpl.
    right. eexists. split; [done|]. split; [by destruct (c <? 0)|]. intros E.
    apply (take_lookup_eq _ _ _ (Z.to_nat i)) in E; [congruence|lia].
  - pose proof (cstr_nonzero m q t _ d Ht Hd). rewrite (proj2 (Z.eqb_neq 0 d)) by done.
    right. eexists. split; [done|]. split; [by destruct d|]. intros E.
    apply (take_lookup_eq _ _ _ (Z.to_nat i)) in E; [congruence|lia].
  - right. exists 0. split; [done|]. split; [|done]. intros _.
    apply lookup_ge_None in Hc, Hd. rewrite !take_ge in Heq by lia. by rewrite Heq.
Qed.

Lemma prefix_take (w l : list Z) : w `prefix_of` l <-> take (length w) l = take (length w) w.
Proof.
  rewrite (take_ge w) by lia. split.
  - intros [k ->]. apply take_app_length.
  - intros E. exists (drop (length w) l). rewrite <- E at 1. by rewrite take_drop.
Qed.

(** [mvh_str_find].  On two C strings the search terminates without a
    fault.  An empty needle is found at the start; otherwise the result is the
    address of the first occurrence of the needle, and NULL exactly when the
    needle occurs nowhere. *)
Theorem mvh_str_find_spec m text needle s w :
  0 < text -> needle <> 0 -> cstr m text s -> cstr m needle w ->
  exists r, mvh_str_find m text needle = Some r /\
    ((exists i, r = text + Z.of_nat i /\ w `prefix_of` drop i s /\
        forall j, (j < i)%nat -> ~ w `prefix_of` drop j s) \/
     (r = 0 /\ forall j, ~ w `prefix_of` drop j s)).
Proof.
  intros Hp Hq Hs Hw. unfold mvh_str_find.
  rewrite (str_length_spec m needle w) by done. cbn [mbind option_bind].
  rewrite (proj2 (Z.eqb_neq text 0)), (proj2 (Z.eqb_neq needle 0)) by lia. simpl.
  destruct w as [|c w'] eqn:Hwe.
  { exists text. split; [done|]. left. exists 0%nat. split_and!; [lia|apply prefix_nil|lia]. }
  rewrite <- Hwe in *. rewrite (proj2 (Z.eqb_neq _ 0)) by (rewrite Hwe; simpl; lia).
  apply (while_loop_rule (fun t => exists i, t = text + Z.of_nat i /\ (i <= length s)%nat /\
      forall j, (j < i)%nat -> ~ w `prefix_of` drop j s)
    _ (fun t => length s - Z.to_nat (t - text))%nat).
  - exists 0%nat. split_and!; lia.
  - apply fuel_enough in Hs. lia.
  - intros t (i & -> & Hi & Hno). rewrite (cstr_at m text s) by (done || lia). simpl.
    rewrite Nat2Z.id. destruct (s !! i) as [b|] eqn:Hb; simpl.
    + rewrite (proj2 (Z.eqb_neq b 0)) by (by apply (cstr_nonzero m text s i b)). simpl.
      destruct (str_ncompare_zero m (text + Z.of_nat i) needle (drop i s) w (Z.of_nat (length w)))
        as (r & -> & Hr); [lia|done|by apply cstr_drop|done|lia|].
      rewrite Nat2Z.id, <- prefix_take in Hr. simpl. apply lookup_lt_Some in Hb.
      destruct (Z.eqb_spec r 0) as [E|E]; [right|left]; eexists; (split; [done|]).
      * left. exists i. split_and!; [done|by apply Hr|done].
      * split; [|lia]. exists (S i). split_and!; [lia..|]. intros j Hj.
        destruct (decide (j = i)) as [->|]; [by rewrite <- Hr|apply Hno; lia].
    + right. exists 0. split; [done|]. right. split; [done|]. intros j Hj.
      apply lookup_ge_None in Hb. destruct (decide (j < i)%nat); [by apply (Hno j)|].
      rewrite drop_ge in Hj by lia. apply prefix_nil_inv in Hj. by rewrite Hj in Hwe.
Qed.

Lemma mvh_str_find_spec_witness :
  let m := build 8 [97; 98; 97; 99; 0; 97; 99; 0] in
  exists r, mvh_str_find m 8 13 = Some r /\
    ((exists i, r = 8 + Z.of_nat i /\ [97; 99] `prefix_of` drop i [97; 98; 97; 99] /\
        forall j, (j < i)%nat -> ~ [97; 99] `prefix_of` drop j [97; 98; 97; 99]) \/
     (r = 0 /\ forall j, ~ [97; 99] `prefix_of` drop j [97; 98; 97; 99])).
Proof.
  intros m. apply (mvh_str_find_spec m 8 13 [97; 98; 97; 99] [97; 99]); done.
Defined.

(** ** Path separators *)

(** The reference: runs of separators collapse to one slash. *)
Fixpoint normalized (previous_slash : bool) (s : list Z) : list Z :=
  match s with
  | [] => []
  | c :: s =>
      let slash := (c =? 47) || (c =? 92) in
      if slash && previous_slash then normalized true s
      else (if slash then 47 else c) :: normalized slash s
  end.

Lemma normalized_length b s : (length (normalized b s) <= length s)%nat.
Proof.
  revert b. induction s as [|c s IH]; intros b; simpl; [done|].
  destruct (_ && _); simpl; [pose proof (IH true)|pose proof (IH ((c =? 47) || (c =? 92)))]; lia.
Qed.

Lemma normalized_nonzero b s :
  Forall (fun c => c <> 0) s -> Forall (fun c => c <> 0 /\ c <> 92) (normalized b s).
Proof.
  revert b. induction s as [|c s IH]; intros b Hs; simpl; [done|].
  apply Forall_cons in Hs as [Hc Hs]. destruct (_ && _) eqn:E; [by apply IH|].
  apply Forall_cons. split; [|by apply IH]. zcmp.
Qed.

Lemma normalized_idem b s : normalized b (normalized b s) = normalized b s.
Proof.
  revert b. induction s as [|c s IH]; intros b; simpl; [done|].
  destruct ((c =? 47) || (c =? 92)) eqn:E; destruct b; simpl; try apply IH.
  - by rewrite (IH true).
  - rewrite E. simpl. by rewrite (IH false).
  - rewrite E. simpl. by rewrite (IH false).
Qed.

Lemma cstr_all_nonzero m p s : cstr m p s -> Forall (fun c => c <> 0) s.
Proof.
  revert p. induction s as [|c s IH]; intros p Hs; [done|]. destruct Hs as (? & _ & Hs).
  apply Forall_cons. split; [done|by eapply IH].
Qed.

(** The loop of [mvh_str_normalize_slashes] after [read] characters: [out] is
    what has been written. *)
Definition normalize_inv (m : mem) (text : Z) (s : list Z) (st : mem * Z * Z * bool) : Prop :=
  let '(m', read, write, previous_slash) := st in
  exists out, 0 <= read <= Z.of_nat (length s) /\ write = Z.of_nat (length out) /\ write <= read /\
    out ++ normalized previous_slash (drop (Z.to_nat read) s) = normalized false s /\
    updated m m' text write (fun i => out !! Z.to_nat i).

Lemma updated_out m m' p out c :
  updated m m' p (Z.of_nat (length out)) (fun i => out !! Z.to_nat i) ->
  updated m (<[p + Z.of_nat (length out) := c]> m') p (Z.of_nat (length out) + 1)
    (fun i => (out ++ [c]) !! Z.to_nat i).
Proof.
  intros U. apply updated_snoc; [lia| |].
  - eapply updated_ext; [exact U|]. intros i Hi. by rewrite lookup_app_l by lia.
  - rewrite Nat2Z.id. by apply list_lookup_middle.
Qed.

Lemma updated_out_mapped m m' p out q n :
  updated m m' p (Z.of_nat (length out)) (fun i => out !! Z.to_nat i) ->
  mapped m q n -> mapped m' q n.
Proof.
  intros U Hm. eapply updated_mapped; [exact U| |exact Hm].
  intros i Hi. apply lookup_lt_is_Some_2. lia.
Qed.

Lemma normalize_loop m text s :
  cstr m text s ->
  exists m', while_loop (fuel m) (normalize_step text) (m, 0, 0, false) =
    Some (m', Z.of_nat (length (normalized false s))) /\
    updated m m' text (Z.of_nat (length (normalized false s)))
      (fun i => normalized false s !! Z.to_nat i).
Proof.
  intros Hs.
  match goal with |- context [while_loop ?f ?b ?st0] =>
    destruct (while_loop_rule (normalize_inv m text s)
      (fun r => snd r = Z.of_nat (length (normalized false s)) /\
         updated m (fst r) text (Z.of_nat (length (normalized false s)))
           (fun i => normalized false s !! Z.to_nat i))
      (fun st => length s - Z.to_nat (snd (fst (fst st))))%nat f b st0) as ([m' w] & -> & Hw & U) end.
  - exists []. simpl. split_and!; try done; try lia. apply updated_refl.
  - apply fuel_enough in Hs. simpl. lia.
  - intros [[[m' read] write] prev] (out & Hr & -> & Hle & Hout & U).
    unfold normalize_step. assert (ld m' (text + read) = Some (default 0 (s !! Z.to_nat read))) as ->.
    { rewrite <- (cstr_at m text s) by (done || lia). unfold ld. rewrite U. unfold inside. zcmp. }
    destruct (s !! Z.to_nat read) as [c|] eqn:Hc; cbn [from_option id mbind option_bind].
    + rewrite (proj2 (Z.eqb_neq c 0)) by (by apply (cstr_nonzero m text s (Z.to_nat read) c)).
      apply lookup_lt_Some in Hc as Hlt. rewrite (drop_S _ c) in Hout by done.
      cbn [normalized] in Hout. cbn [negb].
      assert (Z.to_nat (read + 1) = S (Z.to_nat read)) as HS by lia.
      left. destruct (_ && prev) eqn:Hsl.
      * eexists. split; [done|]. split; [|simpl; lia]. exists out. rewrite HS.
        apply andb_true_iff in Hsl as [_ ->]. split_and!; try done; lia.
      * rewrite st_ok by (apply (updated_out_mapped m m' text out text (Z.of_nat (length s) + 1) U);
          [by apply cstr_mapped|lia]).
        eexists. split; [done|]. split; [|simpl; lia].
        eexists (out ++ [_]). rewrite HS, length_app. simpl. rewrite Nat2Z.inj_add.
        split_and!; try lia; [|by apply updated_out]. rewrite <- app_assoc. exact Hout.
    + apply lookup_ge_None in Hc. rewrite drop_ge, app_nil_r in Hout by lia. subst out.
      right. eexists. split; [done|]. by split.
  - simpl in *. subst w. by exists m'.
Qed.

(** [mvh_str_normalize_slashes].  Rewriting a path in place terminates,
    stays inside the string, and leaves the path in which every run of slashes
    and backslashes has become one slash; the returned length is its length,
    no backslash remains, and normalising again changes nothing. *)
Theorem mvh_str_normalize_slashes_spec m text s :
  text <> 0 -> cstr m text s ->
  let out := normalized false s in
  exists m', mvh_str_normalize_slashes m text = Some (m', Z.of_nat (length out)) /\
    cstr m' text out /\ (length out <= length s)%nat /\
    Forall (fun c => c <> 92) out /\ normalized false out = out /\
    forall a, inside text (Z.of_nat (length out) + 1) a = false -> m' !! a = m !! a.
Proof.
  intros Hp Hs out. unfold mvh_str_normalize_slashes. rewrite (proj2 (Z.eqb_neq text 0)) by done.
  destruct (normalize_loop m text s Hs) as (m1 & -> & U). fold out in U |- *. simpl.
  pose proof (normalized_length false s) as Hlen. fold out in Hlen.
  rewrite st_ok by (apply (updated_out_mapped m m1 text out text (Z.of_nat (length s) + 1) U);
    [by apply cstr_mapped|lia]).
  pose proof (normalized_nonzero false s (cstr_all_nonzero _ _ _ Hs)) as Hnz.
  eexists. split_and!; [done| |done| |apply normalized_idem|].
  - apply cstr_intro; [|by rewrite lookup_st, Z.eqb_refl].
    intros i c Hc. rewrite lookup_st, U. apply lookup_lt_Some in Hc as Hlt.
    unfold inside. zcmp. rewrite Z.add_simpl_l, Nat2Z.id. split; [done|].
    rewrite Forall_lookup in Hnz. by apply (Hnz i).
  - apply (Forall_impl _ _ _ Hnz). by intros c [].
  - intros a Ha. rewrite lookup_st, U. unfold inside in *. zcmp.
Qed.

Lemma mvh_str_normalize_slashes_spec_witness :
  let m := build 8 [97; 92; 47; 98; 0] in let out := normalized false [97; 92; 47; 98] in
  exists m', mvh_str_normalize_slashes m 8 = Some (m', Z.of_nat (length out)) /\
    cstr m' 8 out /\ (length out <= length [97; 92; 47; 98])%nat /\
    Forall (fun c => c <> 92) out /\ normalized false out = out /\
    forall a, inside 8 (Z.of_nat (length out) + 1) a = false -> m' !! a = m !! a.
Proof. intros m. apply (mvh_str_normalize_slashes_spec m 8 [97; 92; 47; 98]); done. Defined.

(** With the separator 0, [mvh_str_split_once] takes the terminator for the
    separator and reads the string after it: on a string that ends at the last
    mapped byte the call faults. *)
Lemma split_once_nul_separator_faults :
  let m := build 8 (replicate 8 1 ++ [97; 98; 0]) in
  cstr m 16 [97; 98] /\ mvh_str_split_once m 16 0 8 4 12 4 = None.
Proof. split; [repeat split; done|]. vm_compute. done. Qed.
