(* ===== verification/Crc32.v ===== *)
(** * crc32.c: the CRC-32 used by the GPT probe and the file system journal

    A buffer is the list of its bytes, NULL is [None]. *)

From S2P Require Import Prelude.

Definition CRC_POLY : Z := 3988292384. (* 0xEDB88320 *)

Definition crc_bit (value : Z) : Z :=
  let mask := u32 (- i32 (value &&& 1)) in
  (value >> 1) ^^^ (CRC_POLY &&& mask).

Definition crc_byte (value byte : Z) : Z := Nat.iter 8 crc_bit (value ^^^ byte).

Definition crc32_update (previous : Z) (data : option (list Z)) (size : Z) : option Z :=
  let value := compl 32 previous in
  match data with
  | None => if negb (size =? 0) then Some previous else Some (compl 32 value)
  | Some bytes =>
      value ← for_loop (Z.to_nat size) 0 (fun index value =>
                b ← rd bytes index; Some (crc_byte value b)) value;
      Some (compl 32 value)
  end.

Definition crc32 (data : option (list Z)) (size : Z) : option Z := crc32_update 0 data size.

Definition crc32_self_test : option Z :=
  let vector := [49; 50; 51; 52; 53; 54; 55; 56; 57; 0] in
  split ← crc32_update 0 (Some vector) 4;
  split ← crc32_update split (Some (drop 4 vector)) 5;
  whole ← crc32 (Some vector) 9;
  if negb (whole =? 3421780262) || negb (split =? 3421780262) then Some (-1) else
  empty ← crc32 None 0;
  Some (if empty =? 0 then 0 else -1).

(** ** The register as a linear map *)

Definition bytes (l : list Z) : Prop := Forall (fits 8) l.

Lemma odd_land v : v &&& 1 = Z.b2z (Z.odd v).
Proof. rewrite land_1. apply Zmod_odd. Qed.

Lemma crc_bit_eq v : crc_bit v = (v >> 1) ^^^ (if Z.odd v then CRC_POLY else 0).
Proof. unfold crc_bit. rewrite odd_land. by destruct (Z.odd v). Qed.

Lemma odd_lxor a b : Z.odd (a ^^^ b) = xorb (Z.odd a) (Z.odd b).
Proof. rewrite <- !Z.bit0_odd. apply Z.lxor_spec. Qed.

Lemma crc_bit_lxor a b : crc_bit (a ^^^ b) = crc_bit a ^^^ crc_bit b.
Proof.
  rewrite !crc_bit_eq, odd_lxor, Z.shiftr_lxor.
  destruct (Z.odd a), (Z.odd b); simpl; zbits; btauto.
Qed.

Lemma crc_bit_fits v : fits 32 v -> fits 32 (crc_bit v).
Proof.
  intros Hv. rewrite crc_bit_eq. apply lxor_fits; [done| |by destruct (Z.odd v)].
  by apply shiftr_fits.
Qed.

(** The register never loses information: only 0 is mapped to 0. *)
Lemma crc_bit_zero v : fits 32 v -> crc_bit v = 0 -> v = 0.
Proof.
  intros Hv. rewrite crc_bit_eq. pose proof (Z.div2_odd v) as Hd. rewrite Z.div2_spec in Hd.
  intros H%Z.lxor_eq. destruct (Z.odd v); [|simpl in *; lia].
  exfalso. assert (v >> 1 < 2 ^ 31) by (rewrite Z.shiftr_div_pow2 by lia; unfold fits in *; divlia).
  unfold CRC_POLY in H. warith.
Qed.

Lemma crc_bit_double x : crc_bit (x << 1) = x.
Proof.
  rewrite crc_bit_eq, Z.shiftr_shiftl_l, Z.shiftl_0_r by lia.
  rewrite Z.shiftl_mul_pow2, Z.mul_comm, Z.odd_mul by lia. simpl. apply Z.lxor_0_r.
Qed.

Lemma iter_lxor n a b : Nat.iter n crc_bit (a ^^^ b) = Nat.iter n crc_bit a ^^^ Nat.iter n crc_bit b.
Proof. induction n as [|n IH]; simpl; [done|]. by rewrite IH, crc_bit_lxor. Qed.

Lemma iter_fits n v : fits 32 v -> fits 32 (Nat.iter n crc_bit v).
Proof. intros Hv. induction n as [|n IH]; simpl; [done|]. by apply crc_bit_fits. Qed.

Lemma iter_zero n v : fits 32 v -> Nat.iter n crc_bit v = 0 -> v = 0.
Proof.
  intros Hv. induction n as [|n IH]; simpl; [done|]. intros H.
  apply IH, crc_bit_zero; [by apply iter_fits|done].
Qed.

Lemma iter_inj n a b :
  fits 32 a -> fits 32 b -> Nat.iter n crc_bit a = Nat.iter n crc_bit b -> a = b.
Proof.
  intros Ha Hb H. apply Z.lxor_eq, (iter_zero n); [by apply lxor_fits|].
  by rewrite iter_lxor, H, Z.lxor_nilpotent.
Qed.

Lemma iter_shift n k x : k = Z.of_nat n -> Nat.iter n crc_bit (x << k) = x.
Proof.
  intros ->. induction n as [|n IH]; [apply Z.shiftl_0_r|]. rewrite Nat.iter_succ_r.
  rewrite Nat2Z.inj_succ, <- Z.add_1_r, <- Z.shiftl_shiftl by lia. by rewrite crc_bit_double.
Qed.

Definition crc_bytes (value : Z) (l : list Z) : Z := foldl crc_byte value l.

Lemma crc_bytes_cons v b l : crc_bytes v (b :: l) = crc_bytes (crc_byte v b) l.
Proof. reflexivity. Qed.

Lemma crc_bytes_snoc v l b : crc_bytes v (l ++ [b]) = crc_byte (crc_bytes v l) b.
Proof. apply foldl_snoc. Qed.

Lemma crc_bytes_app v l1 l2 : crc_bytes v (l1 ++ l2) = crc_bytes (crc_bytes v l1) l2.
Proof. apply foldl_app. Qed.

Lemma crc_byte_iter v b : crc_byte v b = Nat.iter 8 crc_bit (v ^^^ b).
Proof. reflexivity. Qed.

Lemma crc_byte_fits v b : fits 32 v -> fits 8 b -> fits 32 (crc_byte v b).
Proof.
  intros Hv Hb. rewrite crc_byte_iter. apply iter_fits, lxor_fits; [done..|]. unfold fits in *. pow2. lia.
Qed.

Lemma crc_bytes_fits v l : fits 32 v -> bytes l -> fits 32 (crc_bytes v l).
Proof.
  intros Hv Hl. revert v Hv. induction Hl as [|b l Hb Hl IH]; intros v Hv; [done|].
  rewrite crc_bytes_cons. apply IH. by apply crc_byte_fits.
Qed.

(** The little-endian number of a byte list. *)
Fixpoint le_number (l : list Z) : Z :=
  match l with [] => 0 | b :: l => b ^^^ (le_number l << 8) end.

Lemma le_number_fits l : bytes l -> fits (8 * Z.of_nat (length l)) (le_number l).
Proof.
  induction 1 as [|b l Hb Hl IH]; [done|]. cbn [le_number length].
  apply bits_below; [lia|]. intros n Hn.
  rewrite Z.lxor_spec, Z.shiftl_spec, (testbit_above 8 b) by (done || lia).
  by rewrite (testbit_above (8 * Z.of_nat (length l))) by (done || lia).
Qed.

Lemma le_number_inj l1 l2 :
  bytes l1 -> bytes l2 -> length l1 = length l2 -> le_number l1 = le_number l2 -> l1 = l2.
Proof.
  intros H1. revert l2. induction H1 as [|b1 l1 Hb1 Hl1 IH]; intros [|b2 l2] H2 Hlen H; try done.
  apply Forall_cons in H2 as [Hb2 Hl2]. cbn [le_number] in H.
  assert (b1 = b2) as <-.
  { apply Z.bits_inj'. intros n Hn. apply (f_equal (fun z => Z.testbit z n)) in H.
    rewrite !Z.lxor_spec, !Z.shiftl_spec in H by done.
    destruct (Z.ltb_spec n 8).
    - rewrite !(Z.testbit_neg_r _ (n - 8)) in H by lia. by rewrite !xorb_false_r in H.
    - by rewrite !(testbit_above 8) by (done || lia). }
  f_equal. apply IH; [done|by injection Hlen|].
  apply Z.bits_inj'. intros n Hn. apply (f_equal (fun z => Z.testbit z (n + 8))) in H.
  rewrite !Z.lxor_spec, !Z.shiftl_spec, !Z.add_simpl_r in H by lia.
  by rewrite !(testbit_above 8 b1), !xorb_false_l in H by (done || lia).
Qed.

(** Up to four bytes enter the register as one number. *)
Lemma crc_bytes_number v l :
  (length l <= 4)%nat -> fits 32 v -> bytes l ->
  crc_bytes v l = Nat.iter (8 * length l) crc_bit (v ^^^ le_number l).
Proof.
  intros Hlen Hv Hl. revert v Hv Hlen.
  induction Hl as [|b l Hb Hl IH]; intros v Hv Hlen; cbn [le_number length] in *.
  - rewrite Z.lxor_0_r. reflexivity.
  - rewrite crc_bytes_cons, IH by (try lia; by apply crc_byte_fits).
    replace (8 * S (length l))%nat with (8 * length l + 8)%nat by lia. rewrite Nat.iter_add.
    rewrite crc_byte_iter, <- Z.lxor_assoc, (iter_lxor 8 (v ^^^ b)).
    rewrite (iter_shift 8 8) by lia. reflexivity.
Qed.

Lemma lxor_cancel v a b : v ^^^ a = v ^^^ b -> a = b.
Proof.
  intros H. rewrite <- (Z.lxor_0_l a), <- (Z.lxor_0_l b), <- (Z.lxor_nilpotent v), !Z.lxor_assoc.
  by rewrite H.
Qed.

(** The register after more bytes determines the register before them. *)
Lemma crc_bytes_inj l a b :
  bytes l -> fits 32 a -> fits 32 b -> crc_bytes a l = crc_bytes b l -> a = b.
Proof.
  intros Hl. revert a b. induction Hl as [|x l Hx Hl IH]; intros a b Ha Hb H; [done|].
  rewrite !crc_bytes_cons in H. apply IH in H; [|by apply crc_byte_fits..].
  assert (fits 32 x) by (unfold fits in *; pow2; lia).
  rewrite !crc_byte_iter in H. apply (iter_inj 8) in H; [|by apply lxor_fits..].
  apply (lxor_cancel x). by rewrite !(Z.lxor_comm x).
Qed.

Lemma lxor_number_fits v l :
  fits 32 v -> bytes l -> (length l <= 4)%nat -> fits 32 (v ^^^ le_number l).
Proof.
  intros Hv Hl Hlen. apply lxor_fits; [done..|]. pose proof (le_number_fits l Hl).
  unfold fits in *. pose proof (Z.pow_le_mono_r 2 (8 * Z.of_nat (length l)) 32). lia.
Qed.

(** ** Correctness *)

Lemma crc_loop (l : list Z) n v :
  (n <= length l)%nat ->
  for_loop n 0 (fun index value => b ← rd l index; Some (crc_byte value b)) v =
    Some (crc_bytes v (take n l)).
Proof.
  intros Hn.
  destruct (for_loop_rule (fun i w => w = crc_bytes v (take (Z.to_nat i) l)) n 0
    (fun index value => b ← rd l index; Some (crc_byte value b)) v) as (w & -> & ->).
  - done.
  - intros i w Hi ->. destruct (rd_ok l i) as [b Hb]; [lia|]. rewrite Hb. simpl.
    eexists. split; [done|]. apply rd_Some in Hb as [_ Hb].
    replace (Z.to_nat (i + 1)) with (S (Z.to_nat i)) by lia.
    rewrite (take_S_r _ _ b) by done. symmetry. apply crc_bytes_snoc.
  - by rewrite Z.add_0_l, Nat2Z.id.
Qed.

(** A whole prefix of a buffer goes through the register. *)
Lemma crc32_update_spec previous l size :
  0 <= size <= Z.of_nat (length l) ->
  crc32_update previous (Some l) size =
    Some (compl 32 (crc_bytes (compl 32 previous) (take (Z.to_nat size) l))).
Proof. intros Hs. unfold crc32_update. by rewrite crc_loop by lia. Qed.

(** The checksum of a message. *)
Definition crc_of (l : list Z) : Z := compl 32 (crc_bytes (compl 32 0) l).

Lemma crc32_crc_of l size :
  0 <= size <= Z.of_nat (length l) -> crc32 (Some l) size = Some (crc_of (take (Z.to_nat size) l)).
Proof. apply crc32_update_spec. Qed.

Lemma crc32_update_crc_of p l size :
  0 <= size <= Z.of_nat (length l) ->
  crc32_update (crc_of p) (Some l) size = Some (crc_of (p ++ take (Z.to_nat size) l)).
Proof.
  intros Hs. rewrite crc32_update_spec by done. unfold crc_of.
  by rewrite compl_involutive, crc_bytes_app.
Qed.

Lemma crc_of_nil : crc_of [] = 0.
Proof. done. Qed.

Lemma crc_of_fits l : bytes l -> fits 32 (crc_of l).
Proof. intros Hl. by apply compl_range, crc_bytes_fits. Qed.

#[global] Opaque crc_of.

(** [crc32_update] is a stream: checksumming a buffer in two pieces, the
    second started from the result of the first, gives the checksum of the
    whole buffer, for every split point. *)
Theorem crc32_update_stream previous l k size :
  0 <= k <= size -> size <= Z.of_nat (length l) ->
  (c ← crc32_update previous (Some l) k;
   crc32_update c (Some (drop (Z.to_nat k) l)) (size - k)) =
  crc32_update previous (Some l) size.
Proof.
  intros Hk Hs. rewrite !crc32_update_spec by lia. cbn [mbind option_bind].
  rewrite crc32_update_spec by (rewrite length_drop; lia).
  rewrite compl_involutive, <- crc_bytes_app.
  replace (Z.to_nat size) with (Z.to_nat k + Z.to_nat (size - k))%nat by lia.
  by rewrite take_take_drop.
Qed.

Lemma crc32_update_stream_witness :
  (c ← crc32_update 0 (Some [49; 50; 51]) 1; crc32_update c (Some (drop (Z.to_nat 1) [49; 50; 51])) (3 - 1)) =
  crc32_update 0 (Some [49; 50; 51]) 3.
Proof. apply (crc32_update_stream 0 [49; 50; 51] 1 3); simpl; lia. Defined.

(** C40: error detection by [crc32].  Two messages of the same length that
    differ only inside a window of at most four consecutive bytes (a burst
    error of up to 32 aligned bits) never have the same checksum. *)
Theorem crc32_detects_burst pre a b post :
  bytes pre -> bytes a -> bytes b -> bytes post ->
  length a = length b -> (length a <= 4)%nat -> a <> b ->
  crc32 (Some (pre ++ a ++ post)) (Z.of_nat (length (pre ++ a ++ post))) <>
  crc32 (Some (pre ++ b ++ post)) (Z.of_nat (length (pre ++ b ++ post))).
Proof.
  intros Hpre Ha Hb Hpost Hlen H4 Hne. unfold crc32.
  rewrite !crc32_update_spec, !Nat2Z.id, !firstn_all by lia.
  intros [= H]. apply Hne. assert (forall x y, compl 32 x = compl 32 y -> x = y) as Hinj
    by (unfold compl; lia). apply Hinj in H.
  rewrite !crc_bytes_app in H. set (v := crc_bytes (compl 32 0) pre) in H.
  assert (fits 32 v) as Hv by (apply crc_bytes_fits; [done|done]).
  assert (crc_bytes v a = crc_bytes v b) as Hab.
  { apply (crc_bytes_inj post); [done|by apply crc_bytes_fits..|done]. }
  rewrite !crc_bytes_number, Hlen in Hab by (done || lia).
  apply iter_inj in Hab; [|apply lxor_number_fits; (done || lia)..].
  apply le_number_inj; [done..|]. by apply (lxor_cancel v).
Qed.

Lemma crc32_detects_burst_witness :
  crc32 (Some ([1; 2] ++ [3; 4] ++ [5])) (Z.of_nat (length ([1; 2] ++ [3; 4] ++ [5]))) <>
  crc32 (Some ([1; 2] ++ [9; 8] ++ [5])) (Z.of_nat (length ([1; 2] ++ [9; 8] ++ [5]))).
Proof.
  apply (crc32_detects_burst [1; 2] [3; 4] [9; 8] [5]);
    [by repeat (apply Forall_cons; split; [by split|])..|done|simpl; lia|done].
Defined.

(** The published check value, through the self test of the source. *)
Lemma crc32_self_test_passes : crc32_self_test = Some 0.
Proof. vm_compute. done. Qed.
