(* ===== verification/Buffer.v ===== *)
(** * Byte buffers

    A fixed C array of bytes that is not aliased ([uint8_t sector[512]], a
    packet, a directory image) is the list of its bytes; a pointer into it is an
    offset, and an access outside it is a fault.  This file holds the
    little- and big-endian accesses and the byte loops that several source
    files define for themselves as static functions; those files' models give
    them the names they have there. *)

From S2P Require Import Prelude.
From Stdlib Require String Ascii.

Definition get16 (b : list Z) (o : Z) : option Z :=
  b0 ← rd b o; b1 ← rd b (o + 1); Some (b0 ||| u16 (b1 << 8)).

Definition get32 (b : list Z) (o : Z) : option Z :=
  b0 ← rd b o; b1 ← rd b (o + 1); b2 ← rd b (o + 2); b3 ← rd b (o + 3);
  Some (b0 ||| u32 (b1 << 8) ||| u32 (b2 << 16) ||| u32 (b3 << 24)).

Definition get64 (b : list Z) (o : Z) : option Z :=
  lo ← get32 b o; hi ← get32 b (o + 4); Some (lo ||| u64 (hi << 32)).

Definition put32 (b : list Z) (o v : Z) : option (list Z) :=
  b ← wr b o (u8 v); b ← wr b (o + 1) (u8 (v >> 8)); b ← wr b (o + 2) (u8 (v >> 16));
  wr b (o + 3) (u8 (v >> 24)).

Definition put64 (b : list Z) (o v : Z) : option (list Z) :=
  b ← put32 b o (u32 v); put32 b (o + 4) (u32 (v >> 32)).

(** [for (i = 0; i < n; i++) b[o + i] = v] *)
Definition fill (b : list Z) (o n v : Z) : option (list Z) :=
  for_loop (Z.to_nat n) 0 (fun i b => wr b (o + i) v) b.

(** [for (i = 0; i < n; i++) b[o + i] = src[so + i]], distinct arrays *)
Definition copy (b : list Z) (o : Z) (src : list Z) (so n : Z) : option (list Z) :=
  for_loop (Z.to_nat n) 0 (fun i b => x ← rd src (so + i); wr b (o + i) x) b.

(** ** Lists of bytes *)

Definition all_bytes (l : list Z) : Prop := Forall (fits 8) l.

(** Replace the bytes at [o] by [l]. *)
Definition splice (b : list Z) (o : Z) (l : list Z) : list Z :=
  take (Z.to_nat o) b ++ l ++ drop (Z.to_nat o + length l) b.

(** The [n] bytes at [o]. *)
Definition slice (b : list Z) (o n : Z) : list Z := take (Z.to_nat n) (drop (Z.to_nat o) b).

(** [l] fits in [b] at [o]. *)
Definition room (b : list Z) (o n : Z) : Prop := 0 <= o /\ 0 <= n /\ o + n <= Z.of_nat (length b).

Lemma length_splice b o l : room b o (Z.of_nat (length l)) -> length (splice b o l) = length b.
Proof.
  intros (Ho & _ & Hl). unfold splice. rewrite !length_app, length_take, length_drop. lia.
Qed.

Lemma length_slice b o n : room b o n -> length (slice b o n) = Z.to_nat n.
Proof. intros (Ho & Hn & Hl). unfold slice. rewrite length_take, length_drop. lia. Qed.

Lemma rd_splice b o l i :
  room b o (Z.of_nat (length l)) ->
  rd (splice b o l) i =
    if (o <=? i) && (i <? o + Z.of_nat (length l)) then l !! Z.to_nat (i - o) else rd b i.
Proof.
  intros (Ho & _ & Hl). unfold splice. rewrite !rd_app, !length_take.
  replace (Z.of_nat (Z.to_nat o `min` length b)) with o by lia.
  destruct (Z.ltb_spec i o).
  - rewrite (proj2 (Z.leb_gt o i)) by lia. simpl. unfold rd. destruct (Z.ltb_spec i 0); [done|].
    apply lookup_take_lt. lia.
  - rewrite (proj2 (Z.leb_le o i)) by lia. simpl.
    destruct (Z.ltb_spec i (o + Z.of_nat (length l))).
    + rewrite (proj2 (Z.ltb_lt _ _)) by lia. unfold rd. by rewrite (proj2 (Z.ltb_ge _ _)) by lia.
    + rewrite (proj2 (Z.ltb_ge _ _)) by lia. unfold rd. rewrite !(proj2 (Z.ltb_ge _ _)) by lia.
      rewrite lookup_drop. f_equal. lia.
Qed.

Lemma rd_slice b o n i :
  room b o n -> rd (slice b o n) i = if (0 <=? i) && (i <? n) then rd b (o + i) else None.
Proof.
  intros (Ho & Hn & Hl). unfold rd, slice. destruct (Z.ltb_spec i 0).
  - by rewrite (proj2 (Z.leb_gt 0 i)) by lia.
  - rewrite (proj2 (Z.leb_le 0 i)) by lia. simpl. rewrite (proj2 (Z.ltb_ge (o + i) 0)) by lia.
    destruct (Z.ltb_spec i n).
    + rewrite lookup_take_lt, lookup_drop by lia. f_equal. lia.
    + apply lookup_ge_None_2. rewrite length_take, length_drop. lia.
Qed.

(** Writing one byte is a splice. *)
Lemma wr_splice b o v : room b o 1 -> wr b o v = Some (splice b o [v]).
Proof.
  intros Hr. pose proof Hr as (Ho & _ & Hl). rewrite wr_ok by lia. f_equal.
  apply rd_eq.
  - by rewrite length_insert, length_splice.
  - intros i Hi. rewrite length_insert in Hi. rewrite rd_splice by done. simpl.
    pose proof (wr_ok b o v ltac:(lia)) as Hw. rewrite (rd_wr _ _ i _ _ Hw).
    destruct (Z.eqb_spec o i) as [->|].
    + rewrite Z.sub_diag. zcmp.
    + zcmp.
Qed.

(** Two adjacent splices are one. *)
Lemma splice_splice b o l1 l2 :
  room b o (Z.of_nat (length (l1 ++ l2))) ->
  splice (splice b o l1) (o + Z.of_nat (length l1)) l2 = splice b o (l1 ++ l2).
Proof.
  intros Hr. pose proof Hr as (Ho & _ & Hl). rewrite length_app in Hl.
  assert (room b o (Z.of_nat (length l1))) as Hr1 by (unfold room; lia).
  assert (room (splice b o l1) (o + Z.of_nat (length l1)) (Z.of_nat (length l2))) as Hr2
    by (unfold room; rewrite length_splice by done; lia).
  apply rd_eq; [by rewrite !length_splice|]. intros i Hi.
  rewrite !rd_splice by done. rewrite length_app.
  destruct (Z.leb_spec o i), (Z.ltb_spec i (o + Z.of_nat (length l1))); simpl.
  - rewrite (proj2 (Z.leb_gt (o + _) i)), (proj2 (Z.ltb_lt i (o + Z.of_nat (length l1 + length l2)))) by lia.
    simpl. by rewrite lookup_app_l by lia.
  - rewrite (proj2 (Z.leb_le (o + _) i)) by lia. simpl.
    destruct (Z.ltb_spec i (o + Z.of_nat (length l1 + length l2))).
    + rewrite (proj2 (Z.ltb_lt i _)) by lia. rewrite lookup_app_r by lia. f_equal. lia.
    + by rewrite (proj2 (Z.ltb_ge i _)) by lia.
  - by rewrite (proj2 (Z.leb_gt (o + _) i)) by lia.
  - lia.
Qed.

Lemma splice_next b o o' l1 l2 :
  o' = o + Z.of_nat (length l1) -> room b o (Z.of_nat (length (l1 ++ l2))) ->
  splice (splice b o l1) o' l2 = splice b o (l1 ++ l2).
Proof. intros ->. apply splice_splice. Qed.

(** Reading outside a splice. *)
Lemma slice_splice_ne b o l o' n :
  room b o (Z.of_nat (length l)) -> room b o' n -> o' + n <= o \/ o + Z.of_nat (length l) <= o' ->
  slice (splice b o l) o' n = slice b o' n.
Proof.
  intros Hr Hr' Hd.
  assert (room (splice b o l) o' n) as Hr'' by (unfold room in *; rewrite length_splice; done || lia).
  apply rd_eq; [by rewrite !length_slice|]. intros i Hi. rewrite length_slice in Hi by done.
  rewrite !rd_slice, rd_splice by done. unfold room in *. zcmp.
Qed.

Lemma slice_splice_eq b o l :
  room b o (Z.of_nat (length l)) -> slice (splice b o l) o (Z.of_nat (length l)) = l.
Proof.
  intros Hr. assert (room (splice b o l) o (Z.of_nat (length l))) as Hr'
    by (unfold room in *; rewrite length_splice; done || lia).
  apply rd_eq; [rewrite length_slice by done; lia|]. intros i Hi. rewrite length_slice in Hi by done.
  rewrite rd_slice, rd_splice by done. rewrite (proj2 (Z.leb_le 0 i)), (proj2 (Z.ltb_lt i _)) by lia.
  simpl. rewrite (proj2 (Z.leb_le o _)), (proj2 (Z.ltb_lt (o + i) _)) by lia. simpl.
  unfold rd. rewrite (proj2 (Z.ltb_ge i 0)) by lia. f_equal. lia.
Qed.

(** Writing back what is there. *)
Lemma splice_slice b o n : room b o n -> splice b o (slice b o n) = b.
Proof.
  intros Hr. pose proof (length_slice b o n Hr) as Hl.
  assert (room b o (Z.of_nat (length (slice b o n)))) as Hr' by (unfold room in *; lia).
  apply rd_eq; [by apply length_splice|]. intros i Hi. rewrite rd_splice by done.
  destruct (_ && _) eqn:E; [|done]. unfold room in *.
  transitivity (rd (slice b o n) (i - o)).
  - unfold rd. rewrite (proj2 (Z.ltb_ge (i - o) 0)) by zcmp. done.
  - rewrite rd_slice by done. replace (o + (i - o)) with i by lia. zcmp.
Qed.

(** A later splice at the same place wins. *)
Lemma splice_overwrite b o l1 l2 :
  length l1 = length l2 -> room b o (Z.of_nat (length l1)) ->
  splice (splice b o l1) o l2 = splice b o l2.
Proof.
  intros Hl Hr. assert (room b o (Z.of_nat (length l2))) as Hr2 by (by rewrite <- Hl).
  assert (room (splice b o l1) o (Z.of_nat (length l2))) as Hr'
    by (unfold room in *; rewrite length_splice; done || lia).
  apply rd_eq; [by rewrite !length_splice|]. intros i Hi. rewrite !rd_splice, Hl by done.
  destruct (_ && _); done.
Qed.

(** ** The little-endian accesses *)

(** The [n] low bytes of [v], the least significant first. *)
Fixpoint le_bytes (n : nat) (v : Z) : list Z :=
  match n with O => [] | S n => u8 v :: le_bytes n (v >> 8) end.

(** The number whose bytes are [l]. *)
Fixpoint le_value (l : list Z) : Z :=
  match l with [] => 0 | b :: l => b + 256 * le_value l end.

Lemma length_le_bytes n v : length (le_bytes n v) = n.
Proof. revert v. induction n; intros; simpl; auto. Qed.

Lemma le_bytes_bytes n v : all_bytes (le_bytes n v).
Proof. revert v. induction n; intros v; constructor; [apply u8_range|apply IHn]. Qed.

Lemma le_value_le_bytes n v : le_value (le_bytes n v) = v mod 256 ^ Z.of_nat n.
Proof.
  revert v. induction n as [|n IH]; intros v; [symmetry; apply Z.mod_1_r|].
  cbn [le_bytes le_value]. rewrite IH, Z.shiftr_div_pow2, Nat2Z.inj_succ, Z.pow_succ_r by lia.
  rewrite (Z.rem_mul_r v 256) by lia. unfold u8. change (2 ^ 8) with 256. lia.
Qed.

Lemma le_bytes_app n k v : le_bytes (n + k) v = le_bytes n v ++ le_bytes k (v >> (8 * Z.of_nat n)).
Proof.
  revert v. induction n as [|n IH]; intros v; simpl.
  - by rewrite Z.shiftr_0_r.
  - f_equal. rewrite IH. do 2 f_equal. rewrite Z.shiftr_shiftr by lia. f_equal. lia.
Qed.

Lemma le_bytes_mod n v : le_bytes n (v mod 256 ^ Z.of_nat n) = le_bytes n v.
Proof.
  revert v. induction n as [|n IH]; intros v; [done|]. cbn [le_bytes].
  rewrite Nat2Z.inj_succ, Z.pow_succ_r by lia. f_equal.
  - unfold u8. change (2 ^ 8) with 256. rewrite Z.rem_mul_r by lia.
    set (q := (v / 256) mod _). rewrite (Z.mul_comm 256 q), Z.mod_add, Z.mod_mod by lia. done.
  - rewrite <- (IH (v >> 8)). f_equal. rewrite !Z.shiftr_div_pow2 by lia. change (2 ^ 8) with 256.
    rewrite Z.rem_mul_r by lia. set (q := (v / 256) mod _).
    rewrite (Z.mul_comm 256 q), Z.div_add by lia. rewrite (Z.div_small (v mod 256)) by (apply Z.mod_pos_bound; lia). lia.
Qed.

Lemma le_value_app l1 l2 : le_value (l1 ++ l2) = le_value l1 + 256 ^ Z.of_nat (length l1) * le_value l2.
Proof.
  induction l1 as [|b l1 IH]; cbn [app le_value length]; [lia|].
  rewrite IH, Nat2Z.inj_succ, Z.pow_succ_r by lia. lia.
Qed.

Lemma le_value_fits l : all_bytes l -> 0 <= le_value l < 256 ^ Z.of_nat (length l).
Proof.
  induction 1 as [|b l Hb Hl IH]; cbn [le_value length]; [lia|].
  rewrite Nat2Z.inj_succ, Z.pow_succ_r by lia. unfold fits in Hb. change (2 ^ 8) with 256 in Hb. lia.
Qed.

(** A buffer of bytes stays one. *)
Lemma all_bytes_slice b o n : all_bytes b -> all_bytes (slice b o n).
Proof. intros H. by apply Forall_take, Forall_drop. Qed.

Lemma all_bytes_splice b o l : all_bytes b -> all_bytes l -> all_bytes (splice b o l).
Proof. intros Hb Hl. apply Forall_app; split; [by apply Forall_take|]. apply Forall_app; split; [done|by apply Forall_drop]. Qed.

Lemma slice_4 b o :
  room b o 4 -> exists b0 b1 b2 b3, slice b o 4 = [b0; b1; b2; b3] /\
    rd b o = Some b0 /\ rd b (o + 1) = Some b1 /\ rd b (o + 2) = Some b2 /\ rd b (o + 3) = Some b3.
Proof.
  intros Hr. pose proof (length_slice b o 4 Hr) as Hl.
  destruct (slice b o 4) as [|b0 [|b1 [|b2 [|b3 [|]]]]] eqn:E; try discriminate Hl.
  exists b0, b1, b2, b3. split; [done|].
  pose proof (rd_slice b o 4) as H. rewrite E in H.
  pose proof (H 0 Hr) as H0; pose proof (H 1 Hr) as H1; pose proof (H 2 Hr) as H2;
    pose proof (H 3 Hr) as H3. simpl in *. rewrite Z.add_0_r in H0. by rewrite <- H0, <- H1, <- H2, <- H3.
Qed.

Lemma get16_spec b o : all_bytes b -> room b o 2 -> get16 b o = Some (le_value (slice b o 2)).
Proof.
  intros Hb Hr. pose proof (length_slice b o 2 Hr) as Hl. pose proof (rd_slice b o 2) as H.
  pose proof (all_bytes_slice b o 2 Hb) as Hs.
  destruct (slice b o 2) as [|b0 [|b1 [|]]] eqn:E; try discriminate Hl.
  pose proof (H 0 Hr) as H0; pose proof (H 1 Hr) as H1. simpl in *. rewrite Z.add_0_r in H0.
  inversion_clear Hs as [|?? F0 Hs1]. inversion_clear Hs1 as [|?? F1 _]. unfold fits in *.
  unfold get16. rewrite <- H0, <- H1. simpl. f_equal.
  rewrite u16_small by (unfold fits; rewrite Z.shiftl_mul_pow2 by lia; change (2 ^ 8) with 256 in *; change (2 ^ 16) with 65536; lia).
  rewrite lor_shl by (change (2 ^ 8) with 256 in *; lia). change (2 ^ 8) with 256. lia.
Qed.

Lemma get32_spec b o : all_bytes b -> room b o 4 -> get32 b o = Some (le_value (slice b o 4)).
Proof.
  intros Hb Hr. destruct (slice_4 b o Hr) as (b0 & b1 & b2 & b3 & Es & H0 & H1 & H2 & H3).
  pose proof (all_bytes_slice b o 4 Hb) as Hs. rewrite Es in Hs.
  inversion_clear Hs as [|?? F0 Hs1]. inversion_clear Hs1 as [|?? F1 Hs2].
  inversion_clear Hs2 as [|?? F2 Hs3]. inversion_clear Hs3 as [|?? F3 _].
  unfold get32. rewrite Es, H0, H1, H2, H3. simpl. f_equal.
  rewrite join_bytes4 by done. lia.
Qed.

Lemma get64_spec b o : all_bytes b -> room b o 8 -> get64 b o = Some (le_value (slice b o 8)).
Proof.
  intros Hb Hr. unfold get64.
  assert (room b o 4) as Hr1 by (unfold room in *; lia).
  assert (room b (o + 4) 4) as Hr2 by (unfold room in *; lia).
  rewrite !get32_spec by done. simpl. f_equal.
  assert (slice b o 8 = slice b o 4 ++ slice b (o + 4) 4) as ->.
  { unfold slice, room in *. replace (Z.to_nat (o + 4)) with (Z.to_nat o + 4)%nat by lia.
    rewrite <- drop_drop. change (Z.to_nat 8) with 8%nat. change (Z.to_nat 4) with 4%nat.
    symmetry. apply take_take_drop. }
  pose proof (le_value_fits _ (all_bytes_slice b o 4 Hb)) as F1.
  pose proof (le_value_fits _ (all_bytes_slice b (o + 4) 4 Hb)) as F2.
  rewrite length_slice in F1, F2 by done. change (256 ^ Z.of_nat (Z.to_nat 4)) with (2 ^ 32) in *.
  rewrite le_value_app, length_slice by done. change (256 ^ Z.of_nat (Z.to_nat 4)) with (2 ^ 32).
  rewrite u64_small. { rewrite lor_shl by lia. lia. }
  rewrite Z.shiftl_mul_pow2 by lia. warith.
Qed.

Lemma put32_spec b o v : room b o 4 -> put32 b o v = Some (splice b o (le_bytes 4 v)).
Proof.
  intros Hr. unfold put32.
  assert (forall (c : list Z) (k : Z), length c = length b -> 0 <= k <= 3 -> room c (o + k) 1) as R
    by (unfold room in *; lia).
  pose proof (R b 0 eq_refl ltac:(lia)) as R0. rewrite Z.add_0_r in R0.
  rewrite (wr_splice b) by done. simpl.
  assert (forall l, (length l <= 4)%nat -> length (splice b o l) = length b) as L
    by (intros; apply length_splice; unfold room in *; lia).
  rewrite (wr_splice _ (o + 1)) by (apply R; [apply L; simpl|]; lia). simpl.
  change (o + 1) with (o + Z.of_nat (length [u8 v])).
  rewrite splice_splice by (unfold room in *; simpl; lia). simpl.
  rewrite (wr_splice _ (o + 2)) by (apply R; [apply L; simpl|]; lia). simpl.
  change (o + 2) with (o + Z.of_nat (length [u8 v; u8 (v >> 8)])).
  rewrite splice_splice by (unfold room in *; simpl; lia). simpl.
  rewrite (wr_splice _ (o + 3)) by (apply R; [apply L; simpl|]; lia). simpl.
  change (o + 3) with (o + Z.of_nat (length [u8 v; u8 (v >> 8); u8 (v >> 16)])).
  rewrite splice_splice by (unfold room in *; simpl; lia). simpl.
  by rewrite !Z.shiftr_shiftr by lia.
Qed.

Lemma put64_spec b o v : room b o 8 -> put64 b o v = Some (splice b o (le_bytes 8 v)).
Proof.
  intros Hr. unfold put64.
  assert (room b o 4) as Hr1 by (unfold room in *; lia). rewrite put32_spec by done. cbn [mbind option_bind].
  assert (length (splice b o (le_bytes 4 (u32 v))) = length b) as L by (by apply length_splice).
  rewrite put32_spec by (unfold room in *; lia).
  change (o + 4) with (o + Z.of_nat (length (le_bytes 4 (u32 v)))).
  rewrite splice_splice by (unfold room in *; simpl; lia). do 2 f_equal.
  change 8%nat with (4 + 4)%nat. rewrite le_bytes_app.
  rewrite <- (le_bytes_mod 4 v), <- (le_bytes_mod 4 (v >> _)). done.
Qed.

(** ** The byte loops *)

(** A loop that writes the bytes of [l] one after the other from [o]. *)
Lemma write_loop b o l n (body : Z -> list Z -> option (list Z)) :
  n = length l -> room b o (Z.of_nat (length l)) ->
  (forall i c, 0 <= i < Z.of_nat (length l) ->
     body i c = (x ← rd l i; wr c (o + i) x)) ->
  for_loop n 0 body b = Some (splice b o l).
Proof.
  intros -> Hr Hbody.
  destruct (for_loop_rule (fun i c => 0 <= i /\ c = splice b o (take (Z.to_nat i) l))
              (length l) 0 body b) as (c & E & _ & ->).
  - split; [done|]. unfold splice. simpl. by rewrite Nat.add_0_r, take_drop.
  - intros i c Hi (Hi0 & ->).
    destruct (rd_ok l i ltac:(lia)) as (x & Ex). rewrite Hbody, Ex by lia. simpl.
    assert (length (take (Z.to_nat i) l) = Z.to_nat i) as Ht by (rewrite length_take; lia).
    assert (length (splice b o (take (Z.to_nat i) l)) = length b) as L
      by (apply length_splice; unfold room in *; lia).
    rewrite wr_splice by (unfold room in *; lia).
    eexists. split; [done|]. split; [lia|].
    replace (o + i) with (o + Z.of_nat (length (take (Z.to_nat i) l))) at 1 by lia.
    rewrite splice_splice by (unfold room in *; rewrite length_app; simpl; lia).
    f_equal. replace (Z.to_nat (i + 1)) with (S (Z.to_nat i)) by lia.
    apply rd_Some in Ex as [_ Ex]. symmetry. by apply take_S_r.
  - rewrite E. do 2 f_equal. rewrite firstn_all2; [done|lia].
Qed.

Lemma fill_spec b o n v : room b o n -> fill b o n v = Some (splice b o (replicate (Z.to_nat n) v)).
Proof.
  intros Hr. unfold room in Hr. apply write_loop; [by rewrite length_replicate|..].
  - unfold room. rewrite length_replicate. lia.
  - intros i c Hi. rewrite length_replicate in Hi.
    assert (rd (replicate (Z.to_nat n) v) i = Some v) as ->; [|done].
    apply rd_Some. split; [lia|]. apply lookup_replicate_2. lia.
Qed.

Lemma copy_spec b o src so n :
  room b o n -> room src so n -> copy b o src so n = Some (splice b o (slice src so n)).
Proof.
  intros Hr Hs. pose proof (length_slice src so n Hs) as Hl. apply write_loop; [done|..].
  - unfold room in *. lia.
  - intros i c Hi. rewrite rd_slice by done. unfold room in *.
    by rewrite (proj2 (Z.leb_le 0 i)), (proj2 (Z.ltb_lt i n)) by lia.
Qed.

(** Filling a cleared buffer from the front. *)
Lemma splice_append pre k o l :
  o = Z.of_nat (length pre) -> (length l <= k)%nat ->
  splice (pre ++ replicate k 0) o l = (pre ++ l) ++ replicate (k - length l) 0.
Proof.
  intros -> Hk. unfold splice. rewrite Nat2Z.id, take_app_length, <- app_assoc. do 2 f_equal.
  rewrite <- drop_drop, drop_app_length. apply drop_replicate.
Qed.

Lemma room_append pre k o n :
  o = Z.of_nat (length pre) -> 0 <= n <= Z.of_nat k -> room (pre ++ replicate k 0) o n.
Proof. intros -> Hk. unfold room. rewrite length_app, length_replicate. lia. Qed.

Lemma put32_append pre k o v :
  o = Z.of_nat (length pre) -> (4 <= k)%nat ->
  put32 (pre ++ replicate k 0) o v = Some ((pre ++ le_bytes 4 v) ++ replicate (k - 4) 0).
Proof.
  intros Ho Hk. rewrite put32_spec by (apply room_append; (done || lia)).
  by rewrite splice_append by done.
Qed.

Lemma put64_append pre k o v :
  o = Z.of_nat (length pre) -> (8 <= k)%nat ->
  put64 (pre ++ replicate k 0) o v = Some ((pre ++ le_bytes 8 v) ++ replicate (k - 8) 0).
Proof.
  intros Ho Hk. rewrite put64_spec by (apply room_append; (done || lia)).
  by rewrite splice_append by done.
Qed.

(** Replacing a part in the middle. *)
Lemma splice_middle pre mid post o l :
  o = Z.of_nat (length pre) -> length mid = length l ->
  splice (pre ++ mid ++ post) o l = pre ++ l ++ post.
Proof.
  intros -> Hl. unfold splice. rewrite Nat2Z.id, take_app_length. do 2 f_equal.
  rewrite <- drop_drop, drop_app_length, <- Hl. apply drop_app_length.
Qed.

Lemma slice_middle pre mid post o n :
  o = Z.of_nat (length pre) -> n = Z.of_nat (length mid) -> slice (pre ++ mid ++ post) o n = mid.
Proof. intros -> ->. unfold slice. by rewrite !Nat2Z.id, drop_app_length, take_app_length. Qed.

Lemma slice_skip a r o n : Z.of_nat (length a) <= o -> slice (a ++ r) o n = slice r (o - Z.of_nat (length a)) n.
Proof.
  intros Ho. unfold slice. rewrite drop_app_ge by lia. do 2 f_equal. lia.
Qed.

Lemma slice_here l r o n : o = 0 -> n = Z.of_nat (length l) -> slice (l ++ r) o n = l.
Proof. intros -> ->. apply (slice_middle [] l r); done. Qed.

(** ** Windows: work inside a splice *)

Lemma slice_all l n : n = Z.of_nat (length l) -> slice l 0 n = l.
Proof. intros ->. unfold slice. simpl. rewrite Nat2Z.id, drop_0, firstn_all. done. Qed.

Lemma rd_window b o l k :
  room b o (Z.of_nat (length l)) -> 0 <= k < Z.of_nat (length l) ->
  rd (splice b o l) (o + k) = rd l k.
Proof.
  intros Hr Hk. rewrite rd_splice by done.
  rewrite (proj2 (Z.leb_le o (o + k))), (proj2 (Z.ltb_lt (o + k) _)) by lia. simpl.
  unfold rd. rewrite (proj2 (Z.ltb_ge k 0)) by lia. f_equal. lia.
Qed.

Lemma slice_window b o l k n :
  room b o (Z.of_nat (length l)) -> room l k n ->
  slice (splice b o l) (o + k) n = slice l k n.
Proof.
  intros Hr Hk. assert (room (splice b o l) (o + k) n) as Hw.
  { unfold room in *. rewrite length_splice by done. lia. }
  apply rd_eq; [by rewrite !length_slice|]. intros i Hi. rewrite length_slice in Hi by done.
  rewrite !rd_slice by done. destruct (_ && _) eqn:E; [|done].
  rewrite <- Z.add_assoc. apply rd_window; [done|]. unfold room in *. lia.
Qed.

Lemma splice_window b o l1 k l2 :
  room b o (Z.of_nat (length l1)) -> room l1 k (Z.of_nat (length l2)) ->
  splice (splice b o l1) (o + k) l2 = splice b o (splice l1 k l2).
Proof.
  intros Hr Hk. pose proof (length_splice _ _ _ Hk) as Hlen.
  assert (room (splice b o l1) (o + k) (Z.of_nat (length l2))) as Hw.
  { unfold room in *. rewrite length_splice by done. lia. }
  assert (room b o (Z.of_nat (length (splice l1 k l2)))) as Hr' by (by rewrite Hlen).
  apply rd_eq; [by rewrite !length_splice|]. intros i Hi.
  rewrite (rd_splice _ _ l2), (rd_splice _ _ (splice l1 k l2)), Hlen, (rd_splice b) by done.
  unfold room in *.
  destruct (Z.leb_spec o i), (Z.ltb_spec i (o + Z.of_nat (length l1))); simpl.
  - transitivity (rd (splice l1 k l2) (i - o)).
    + rewrite rd_splice by (unfold room; lia). unfold rd. rewrite (proj2 (Z.ltb_ge (i - o) 0)) by lia.
      replace (i - o - k) with (i - (o + k)) by lia.
      replace (k <=? i - o) with (o + k <=? i) by lia.
      by replace (i - o <? k + Z.of_nat (length l2)) with (i <? o + k + Z.of_nat (length l2)) by lia.
    + unfold rd. by rewrite (proj2 (Z.ltb_ge (i - o) 0)) by lia.
  - rewrite (proj2 (Z.ltb_ge i (o + k + _))) by lia. by rewrite andb_false_r.
  - by rewrite (proj2 (Z.leb_gt (o + k) i)) by lia.
  - lia.
Qed.

(** A window of a buffer is a splice of itself. *)
Lemma window b o n : room b o n -> exists l, length l = Z.to_nat n /\ b = splice b o l.
Proof. intros Hr. exists (slice b o n). split; [by apply length_slice|by rewrite splice_slice]. Qed.

(** ** Strings

    A C string is the array that holds its characters, the terminator and
    whatever follows. *)

(** The characters of a string literal. *)
Fixpoint chars (text : String.string) : list Z :=
  match text with
  | String.EmptyString => []
  | String.String c text => Z.of_nat (Ascii.nat_of_ascii c) :: chars text
  end.

(** A C string with characters [str] at the start of an array. *)
Definition c_string (array str : list Z) : Prop :=
  exists rest, array = str ++ 0 :: rest /\ Forall (fun c => c <> 0) str.

Lemma c_string_rd array str i :
  c_string array str -> 0 <= i <= Z.of_nat (length str) ->
  rd array i = Some (nth (Z.to_nat i) str 0) /\
  (nth (Z.to_nat i) str 0 = 0 <-> i = Z.of_nat (length str)).
Proof.
  intros (rest & -> & Hnz) Hi. rewrite rd_app. destruct (Z.ltb_spec i (Z.of_nat (length str))) as [Hl|Hl].
  - destruct (rd_ok str i ltac:(lia)) as (x & E). pose proof E as E'.
    apply rd_Some in E' as [_ E']. rewrite E, (nth_lookup_Some _ _ _ _ E'). split; [done|].
    pose proof (Forall_lookup_1 _ _ _ _ Hnz E') as Hx. simpl in Hx. lia.
  - assert (i = Z.of_nat (length str)) as -> by lia. rewrite Z.sub_diag, Nat2Z.id.
    rewrite nth_overflow by lia. done.
Qed.

(** The characters of the string an array starts with. *)
Fixpoint text (array : list Z) : list Z :=
  match array with
  | [] => []
  | c :: array => if c =? 0 then [] else c :: text array
  end.

Lemma c_string_text array str : c_string array str -> text array = str.
Proof.
  intros (rest & -> & Hnz). induction Hnz as [|c str Hc _ IH]; simpl; [done|].
  destruct (Z.eqb_spec c 0); [done|]. by f_equal.
Qed.

Lemma text_c_string array : 0 ∈ array -> c_string array (text array).
Proof.
  induction array as [|c array IH]; [by intros ?%not_elem_of_nil|]. intros H. simpl.
  destruct (Z.eqb_spec c 0) as [->|Hc]; [by exists array|].
  destruct IH as (rest & E & Hnz); [set_solver|]. exists rest. split; [|by constructor].
  exact (f_equal (cons c) E).
Qed.

Lemma c_string_length array str : c_string array str -> (length str < length array)%nat.
Proof. intros (rest & -> & _). rewrite length_app. simpl. lia. Qed.

Lemma c_string_nonzero array str : c_string array str -> Forall (fun c => c <> 0) str.
Proof. by intros (rest & _ & H). Qed.

(** Reading a string, character by character. *)
Lemma c_string_end array str : c_string array str -> rd array (Z.of_nat (length str)) = Some 0.
Proof.
  intros H. destruct (c_string_rd array str (Z.of_nat (length str)) H) as [-> E]; [lia|].
  f_equal. by apply E.
Qed.

Lemma c_string_char array str i c :
  c_string array str -> str !! i = Some c -> rd array (Z.of_nat i) = Some c /\ c <> 0.
Proof.
  intros H Hc. pose proof (lookup_lt_Some _ _ _ Hc).
  destruct (c_string_rd array str (Z.of_nat i) H) as [-> E]; [lia|].
  rewrite Nat2Z.id in *. rewrite (nth_lookup_Some _ _ _ _ Hc) in *. split; [done|]. lia.
Qed.

Lemma c_string_splice b str :
  (length str < length b)%nat -> Forall (fun c => c <> 0) str -> c_string (splice b 0 (str ++ [0])) str.
Proof. intros Hb Hs. unfold splice. simpl. eexists. split; [by rewrite <- app_assoc|done]. Qed.
