(* ===== verification/Block.v ===== *)
(** * The block layer: src/storage/block.c

    The table of block devices, the guarded [block_read] and [block_write], and
    the MBR and GPT probe.  A device driver is a parameter: a pair of functions
    on a world [W] (the hardware).  A driver's read returns the bytes it stores
    at the start of the caller's buffer; a driver's write is given the caller's
    buffer.  Each function that holds [block_lock] is one step, as Sync.v's
    mutual exclusion allows. *)

From S2P Require Import Prelude Arith Crc32 Buffer.

Definition BLOCK_DEVICE_MAX : Z := 16.
Definition BLOCK_NAME_MAX : Z := 24.

Definition load32 (data : list Z) (o : Z) : option Z := get32 data o.
Definition load64 (data : list Z) (o : Z) : option Z := get64 data o.
Definition store32 (data : list Z) (o value : Z) : option (list Z) := put32 data o value.
Definition store64 (data : list Z) (o value : Z) : option (list Z) := put64 data o value.

(** The while loop ends by the bound on [index] at the latest. *)
Definition copy_name (target source : list Z) : option (list Z) :=
  '(target, index) ← while_loop (Z.to_nat BLOCK_NAME_MAX)
    (fun '(target, index) =>
       c ← rd source index;
       if negb (c =? 0) && (index + 1 <? BLOCK_NAME_MAX) then
         target ← wr target index c; Some (inl (target, index + 1))
       else Some (inr (target, index)))
    (target, 0);
  wr target index 0.

(** ** Devices *)

Record block_device (W : Type) : Type := {
  id : Z;
  name : list Z;
  sector_size : Z;
  sector_count : Z;
  writable : Z;
  context : Z;
  read : option (Z -> W -> Z -> Z -> W * Z * list Z);
  write : option (Z -> W -> Z -> Z -> list Z -> W * Z);
}.
Arguments id {W} _.
Arguments name {W} _.
Arguments sector_size {W} _.
Arguments sector_count {W} _.
Arguments writable {W} _.
Arguments context {W} _.
Arguments read {W} _.
Arguments write {W} _.
Arguments Build_block_device {W} _ _ _ _ _ _ _ _.

Record block (W : Type) : Type := {
  block_devices : list (block_device W);
  block_device_count : Z;
}.
Arguments block_devices {W} _.
Arguments block_device_count {W} _.
Arguments Build_block {W} _ _.

Definition is_null {A : Type} (p : option A) : bool :=
  match p with None => true | Some _ => false end.

Definition block_init {W} (s : block W) : block W :=
  {| block_devices := block_devices s; block_device_count := 0 |}.

Definition block_register {W} (s : block W) (name' : option (list Z))
    (sector_size' sector_count' writable' context' : Z)
    (read' : option (Z -> W -> Z -> Z -> W * Z * list Z))
    (write' : option (Z -> W -> Z -> Z -> list Z -> W * Z)) : option (block W * Z) :=
  match name' with
  | None => Some (s, -1)
  | Some source =>
    c ← rd source 0;
    if (c =? 0) || is_null read' || (sector_size' <? 512) ||
       negb ((sector_size' &&& u32 (sector_size' - 1)) =? 0) || (sector_count' =? 0) ||
       (negb (writable' =? 0) && is_null write')
    then Some (s, -1)
    else if BLOCK_DEVICE_MAX <=? block_device_count s then Some (s, -1)
    else
      old ← rd (block_devices s) (block_device_count s);
      name'' ← copy_name (name old) source;
      let device := {| id := block_device_count s; name := name'';
                       sector_size := sector_size'; sector_count := sector_count';
                       writable := writable'; context := context';
                       read := read'; write := write' |} in
      devices ← wr (block_devices s) (block_device_count s) device;
      Some ({| block_devices := devices; block_device_count := u32 (block_device_count s + 1) |},
            i32 (id device))
  end.

Definition block_count {W} (s : block W) : Z := block_device_count s.

(** The result: the caller's array after the call, and the count. *)
Definition block_list {W} (s : block W) (devices : option (list (block_device W))) (capacity : Z)
    : option (option (list (block_device W)) * Z) :=
  match devices with
  | None => Some (devices, 0)
  | Some array =>
    if capacity =? 0 then Some (devices, 0)
    else
      let count := if block_device_count s <? capacity then block_device_count s else capacity in
      array ← for_loop (Z.to_nat count) 0
        (fun index array => d ← rd (block_devices s) index; wr array index d) array;
      Some (Some array, count)
  end.

Definition block_get {W} (s : block W) (id' : Z) : option (Z * option (block_device W)) :=
  if block_device_count s <=? id' then Some (-1, None)
  else device ← rd (block_devices s) id'; Some (0, Some device).

(** A buffer is an array and an offset into it; the result is the world, the
    status and the array after the call (empty for a null buffer). *)
Definition block_read {W} (s : block W) (w : W) (id' lba count : Z)
    (buffer : option (list Z * Z)) : option (W * Z * list Z) :=
  match buffer with
  | None => Some (w, -1, [])
  | Some (array, offset) =>
    if count =? 0 then Some (w, -1, array) else
    '(status, found) ← block_get s id';
    match found with
    | None => Some (w, -1, array)
    | Some device =>
      if negb (status =? 0) then Some (w, -1, array) else
      if (sector_count device <=? lba) || (u64 (sector_count device - lba) <? count)
      then Some (w, -1, array)
      else
        driver ← read device;
        let '(w, status, data) := driver (context device) w lba count in
        array ← copy array offset data 0 (Z.of_nat (length data));
        Some (w, status, array)
    end
  end.

Definition block_write {W} (s : block W) (w : W) (id' lba count : Z)
    (buffer : option (list Z * Z)) : option (W * Z) :=
  match buffer with
  | None => Some (w, -1)
  | Some (array, offset) =>
    if count =? 0 then Some (w, -1) else
    '(status, found) ← block_get s id';
    match found with
    | None => Some (w, -1)
    | Some device =>
      if negb (status =? 0) then Some (w, -1) else
      if (writable device =? 0) || is_null (write device) || (sector_count device <=? lba) ||
         (u64 (sector_count device - lba) <? count)
      then Some (w, -1)
      else
        driver ← write device;
        Some (driver (context device) w lba count (drop (Z.to_nat offset) array))
    end
  end.

(** ** Partition tables *)

Inductive partition_table : Type :=
| PARTITION_TABLE_NONE | PARTITION_TABLE_MBR | PARTITION_TABLE_GPT.

#[export] Instance partition_table_eq_dec : EqDecision partition_table.
Proof. solve_decision. Defined.

Record partition_info : Type := {
  type : partition_table;
  partition_count : Z;
  protective_mbr : Z;
  gpt_header_valid : Z;
  gpt_entries_valid : Z;
  first_usable_lba : Z;
  last_usable_lba : Z;
}.

Definition set_usable (info : partition_info) (first last : Z) : partition_info :=
  {| type := type info; partition_count := partition_count info;
     protective_mbr := protective_mbr info; gpt_header_valid := gpt_header_valid info;
     gpt_entries_valid := gpt_entries_valid info;
     first_usable_lba := first; last_usable_lba := last |}.

Definition set_header_valid (info : partition_info) : partition_info :=
  {| type := type info; partition_count := partition_count info;
     protective_mbr := protective_mbr info; gpt_header_valid := 1;
     gpt_entries_valid := gpt_entries_valid info;
     first_usable_lba := first_usable_lba info; last_usable_lba := last_usable_lba info |}.

Definition set_gpt (info : partition_info) (populated : Z) : partition_info :=
  {| type := PARTITION_TABLE_GPT; partition_count := populated;
     protective_mbr := protective_mbr info; gpt_header_valid := gpt_header_valid info;
     gpt_entries_valid := 1;
     first_usable_lba := first_usable_lba info; last_usable_lba := last_usable_lba info |}.

(** The entries of one sector: the number of them with a non-zero type GUID is
    added to [populated]. *)
Definition scan_sector (sector : list Z) (entry_size chunk populated : Z) : option Z :=
  while_loop (S (Z.to_nat chunk))
    (fun '(offset, populated) =>
       if u32 (offset + entry_size) <=? chunk then
         populated_entry ← for_loop 16 0
           (fun byte acc => b ← rd sector (offset + byte); Some (u8 (acc ||| b))) 0;
         Some (inl (u32 (offset + entry_size),
                    if negb (populated_entry =? 0) then u32 (populated + 1) else populated))
       else Some (inr populated))
    (0, populated).

(** The loop over the sectors of the entry array.  Its state is the world, the
    sector buffer, the bytes remaining, the CRC and the count; a failing read
    returns from the function. *)
Definition scan_entries {W} (s : block W) (w : W) (device_id entry_lba entry_sectors entry_size
    entry_bytes : Z) (sector : list Z) : option (W * list Z * Z * Z * Z + W) :=
  for_break (Z.to_nat entry_sectors) 0
    (fun sector_index '(w, sector, remaining, entries_crc, populated) =>
       let chunk := if 512 <? remaining then 512 else u32 remaining in
       '(w, status, sector) ← block_read s w device_id (u64 (entry_lba + sector_index)) 1
                                (Some (sector, 0));
       if negb (status =? 0) then Some (inr w) else
       entries_crc ← crc32_update entries_crc (Some sector) chunk;
       populated ← scan_sector sector entry_size chunk populated;
       Some (inl (w, sector, u64 (remaining - chunk), entries_crc, populated)))
    (w, sector, entry_bytes, 0, 0).

Definition gpt_probe {W} (s : block W) (w : W) (device_id : Z) (device : block_device W)
    (header sector : list Z) (info : partition_info) : option (W * Z * partition_info) :=
  header_size ← load32 header 12;
  expected_header_crc ← load32 header 16;
  entry_count ← load32 header 80;
  entry_size ← load32 header 84;
  expected_entries_crc ← load32 header 88;
  entry_lba ← load64 header 72;
  revision ← load32 header 8;
  reserved ← load32 header 20;
  my_lba ← load64 header 24;
  alternate_lba ← load64 header 32;
  if negb (revision =? 65536) || (header_size <? 92) || (512 <? header_size) ||
     negb (reserved =? 0) || negb (my_lba =? 1) || (sector_count device <=? alternate_lba) ||
     (entry_count =? 0) || (128 <? entry_count) || (entry_size <? 128) ||
     (512 <? entry_size) || negb ((entry_size &&& 127) =? 0) || negb (512 mod entry_size =? 0)
  then Some (w, -2, info) else
  first ← load64 header 40;
  last ← load64 header 48;
  let info := set_usable info first last in
  if (last <? first) || (sector_count device <=? last) || (alternate_lba <=? last)
  then Some (w, -2, info) else
  header ← store32 header 16 0;
  crc ← crc32 (Some header) header_size;
  if negb (crc =? expected_header_crc) then Some (w, -2, info) else
  let info := set_header_valid info in
  let entry_bytes := u64 (entry_count * entry_size) in
  let entry_sectors := u64 (entry_bytes + 511) / 512 in
  if (entry_lba <=? 1) || (first <=? entry_lba) || (sector_count device <=? entry_lba) ||
     (u64 (sector_count device - entry_lba) <? entry_sectors) ||
     (u64 (first - entry_lba) <? entry_sectors)
  then Some (w, -2, info) else
  scanned ← scan_entries s w device_id entry_lba entry_sectors entry_size entry_bytes sector;
  match scanned with
  | inr w => Some (w, -2, info)
  | inl (w, _, _, entries_crc, populated) =>
    if negb (entries_crc =? expected_entries_crc) then Some (w, -2, info)
    else Some (w, 0, set_gpt info populated)
  end.

(** The four entries of a master boot record: whether one is protective, and
    how many are in use. *)
Definition mbr_entries (sector : list Z) : option (Z * Z) :=
  for_loop 4 0
    (fun index '(protective, count) =>
       kind ← rd sector (446 + index * 16 + 4);
       size ← load32 sector (446 + index * 16 + 12);
       Some (if kind =? 238 then 1 else protective,
             if negb (kind =? 0) && negb (size =? 0) then u32 (count + 1) else count))
    (0, 0).

Definition no_partitions : partition_info :=
  {| type := PARTITION_TABLE_NONE; partition_count := 0; protective_mbr := 0;
     gpt_header_valid := 0; gpt_entries_valid := 0;
     first_usable_lba := 0; last_usable_lba := 0 |}.

Definition set_protective (info : partition_info) : partition_info :=
  {| type := type info; partition_count := partition_count info; protective_mbr := 1;
     gpt_header_valid := gpt_header_valid info; gpt_entries_valid := gpt_entries_valid info;
     first_usable_lba := first_usable_lba info; last_usable_lba := last_usable_lba info |}.

Definition set_mbr (info : partition_info) (count protective : Z) : partition_info :=
  {| type := PARTITION_TABLE_MBR; partition_count := count; protective_mbr := protective;
     gpt_header_valid := gpt_header_valid info; gpt_entries_valid := gpt_entries_valid info;
     first_usable_lba := first_usable_lba info; last_usable_lba := last_usable_lba info |}.

(** [sector] and [sector'] are the uninitialised buffers on the stack of this
    function and of [gpt_probe].  [info] is [None] for a null pointer; the
    result's last component is what [*info] holds after the call. *)
Definition partition_probe {W} (s : block W) (w : W) (device_id : Z)
    (info : option partition_info) (sector sector' : list Z)
    : option (W * Z * option partition_info) :=
  match info with
  | None => Some (w, -1, None)
  | Some _ =>
    '(status, found) ← block_get s device_id;
    match found with
    | None => Some (w, -1, info)
    | Some device =>
      if negb (status =? 0) || negb (sector_size device =? 512) then Some (w, -1, info) else
      '(w, status, sector) ← block_read s w device_id 0 1 (Some (sector, 0));
      if negb (status =? 0) then Some (w, -1, info) else
      a ← rd sector 510; b ← rd sector 511;
      if negb (a =? 85) || negb (b =? 170) then Some (w, 0, Some no_partitions) else
      '(protective, count) ← mbr_entries sector;
      if negb (protective =? 0) then
        let info := set_protective no_partitions in
        '(w, status, sector) ← block_read s w device_id 1 1 (Some (sector, 0));
        if negb (status =? 0) then Some (w, -2, Some info) else
        signature ← load64 sector 0;
        if negb (signature =? 6075990659671082565) then Some (w, -2, Some info) else
        '(w, status, info) ← gpt_probe s w device_id device sector sector' info;
        Some (w, status, Some info)
      else Some (w, 0, Some (set_mbr no_partitions count protective))
    end
  end.

(** The bytes of the returned string literal. *)
Definition partition_table_name (t : partition_table) : list Z :=
  match t with
  | PARTITION_TABLE_MBR => [77; 66; 82; 0]                (* "MBR" *)
  | PARTITION_TABLE_GPT => [71; 80; 84; 0]                (* "GPT" *)
  | PARTITION_TABLE_NONE => [110; 111; 110; 101; 0]       (* "none" *)
  end.

(** ** The self test: a driver whose world is the array [test_disk] *)

Definition test_read (context : Z) (test_disk : list Z) (lba count : Z) : list Z * Z * list Z :=
  if (8 <=? lba) || (u64 (8 - lba) <? count) then (test_disk, -1, [])
  else (test_disk, 0, slice test_disk (u32 lba * 512) (u32 (count * 512))).

Definition test_disk_image (test_disk : list Z) : option (list Z) :=
  d ← fill test_disk 0 4096 0;
  d ← wr d (446 + 4) 238;
  d ← wr d (446 + 12) 1;
  d ← wr d 510 85;
  d ← wr d 511 170;
  d ← store64 d 512 6075990659671082565;
  d ← store32 d (512 + 8) 65536;
  d ← store32 d (512 + 12) 92;
  d ← store64 d (512 + 24) 1;
  d ← store64 d (512 + 32) 7;
  d ← store64 d (512 + 40) 3;
  d ← store64 d (512 + 48) 6;
  d ← store64 d (512 + 72) 2;
  d ← store32 d (512 + 80) 4;
  d ← store32 d (512 + 84) 128;
  d ← wr d 1024 40;
  c ← crc32 (Some (slice d 1024 512)) 512;
  d ← store32 d (512 + 88) c;
  c ← crc32 (Some (slice d 512 512)) 92;
  store32 d (512 + 16) c.

Definition flip (d : list Z) (i : Z) : option (list Z) := x ← rd d i; wr d i (u8 (x ^^^ 1)).

(** [scratch], [sector] and [sector'] are uninitialised stack buffers and
    [info] an uninitialised record.  The result: the block layer, the test disk
    and the status. *)
Definition block_self_test (s : block (list Z)) (test_disk : list Z) (info : partition_info)
    (scratch sector sector' : list Z) : option (block (list Z) * list Z * Z) :=
  let before := block_count s in
  d ← test_disk_image test_disk;
  '(s, id) ← block_register s (Some [115; 101; 108; 102; 116; 101; 115; 116; 0]) 512 8 0 0
              (Some test_read) None;
  '(d, result, info) ←
    (if 0 <=? id then
       '(d, status, info) ← partition_probe s d (u32 id) (Some info) sector sector';
       i ← info;
       '(d, read_status, scratch) ←
         (if (status =? 0) && bool_decide (type i = PARTITION_TABLE_GPT) &&
             (partition_count i =? 1) && negb (gpt_header_valid i =? 0) &&
             negb (gpt_entries_valid i =? 0) && (first_usable_lba i =? 3) &&
             (last_usable_lba i =? 6) && negb (protective_mbr i =? 0)
          then block_read s d (u32 id) 8 1 (Some (scratch, 0))
          else Some (d, 0, scratch));
       '(d, write_status) ←
         (if negb (read_status =? 0) then block_write s d (u32 id) 0 1 (Some (scratch, 0))
          else Some (d, 0));
       if negb (read_status =? 0) && negb (write_status =? 0) then
         d ← flip d (1024 + 16);
         '(d, status, info) ← partition_probe s d (u32 id) info sector sector';
         d ← flip d (1024 + 16);
         if status =? -2 then
           d ← wr d (512 + 20) 1;
           '(d, status, info) ← partition_probe s d (u32 id) info sector sector';
           d ← wr d (512 + 20) 0;
           Some (d, if status =? -2 then 0 else -1, info)
         else Some (d, -1, info)
       else Some (d, -1, info)
     else Some (d, -1, Some info));
  '(d, result) ←
    (if result =? 0 then
       d ← wr d (446 + 4) 131;
       d ← fill d 512 8 0;
       '(d, status, info) ← partition_probe s d (u32 id) info sector sector';
       i ← info;
       Some (d, if (status =? 0) && bool_decide (type i = PARTITION_TABLE_MBR) &&
                   (partition_count i =? 1) && (protective_mbr i =? 0) then 0 else -1)
     else Some (d, result));
  Some ({| block_devices := block_devices s; block_device_count := before |}, d, result).

(** ** Fields of a buffer *)

Definition field (b : list Z) (o n : Z) : Z := le_value (slice b o n).

Lemma field_fits b o n : all_bytes b -> room b o n -> 0 <= field b o n < 256 ^ n.
Proof.
  intros Hb Hr. pose proof (le_value_fits _ (all_bytes_slice b o n Hb)) as H.
  rewrite length_slice in H by done. unfold room in Hr. by rewrite Z2Nat.id in H by lia.
Qed.

Lemma field_put_eq b o n v :
  room b o (Z.of_nat n) -> field (splice b o (le_bytes n v)) o (Z.of_nat n) = v mod 256 ^ Z.of_nat n.
Proof.
  intros Hr. unfold field. rewrite <- (length_le_bytes n v) at 2.
  rewrite slice_splice_eq by (by rewrite length_le_bytes). apply le_value_le_bytes.
Qed.

Lemma field_put_ne b o l o' n :
  room b o (Z.of_nat (length l)) -> room b o' n -> o' + n <= o \/ o + Z.of_nat (length l) <= o' ->
  field (splice b o l) o' n = field b o' n.
Proof. intros. unfold field. by rewrite slice_splice_ne. Qed.

Lemma load32_field b o : all_bytes b -> room b o 4 -> load32 b o = Some (field b o 4).
Proof. apply get32_spec. Qed.

Lemma load64_field b o : all_bytes b -> room b o 8 -> load64 b o = Some (field b o 8).
Proof. apply get64_spec. Qed.

(** ** The interface to a disk

    What the layers above rely on: a sector read returns the sector's bytes,
    and a one-sector write is atomic.  It changes no other sector; if it
    reports success the sector holds the data, and if it reports an error the
    sector holds either the data or what it held before. *)

Class SectorStore {W : Type} (d : block_device W) := {
  sector : W -> Z -> list Z;
  sector_length : forall w lba, length (sector w lba) = 512%nat;
  sector_bytes : forall w lba, all_bytes (sector w lba);
  read_sector : forall w lba, 0 <= lba < sector_count d ->
    exists f, read d = Some f /\ f (context d) w lba 1 = (w, 0, sector w lba);
  write_sector : forall w lba data,
    0 <= lba < sector_count d -> (512 <= length data)%nat -> all_bytes data -> writable d <> 0 ->
    exists f w' r, write d = Some f /\ f (context d) w lba 1 data = (w', r) /\
      (forall x, x <> lba -> sector w' x = sector w x) /\
      (sector w' lba = take 512 data \/ r <> 0 /\ sector w' lba = sector w lba);
}.

(** A disk whose writes never fail. *)
Definition reliable {W} (d : block_device W) : Prop :=
  forall f w lba count data, write d = Some f -> (f (context d) w lba count data).2 = 0.

(** Device [dev] of the table is [d]. *)
Definition registered {W} (s : block W) (dev : Z) (d : block_device W) : Prop :=
  0 <= dev < block_device_count s /\ rd (block_devices s) dev = Some d /\
  id d = dev /\ 0 < sector_count d < 2 ^ 64.

Lemma block_get_registered {W} (s : block W) dev d :
  registered s dev d -> block_get s dev = Some (0, Some d).
Proof.
  intros (Hr & Hd & _). unfold block_get. rewrite (proj2 (Z.leb_gt _ _)) by lia. by rewrite Hd.
Qed.

Section with_store.
Context {W : Type} (s : block W) (dev : Z) (d : block_device W) `{!SectorStore d}.
Hypothesis Hreg : registered s dev d.

Lemma block_read_sector w lba array o :
  0 <= lba < sector_count d -> room array o 512 ->
  block_read s w dev lba 1 (Some (array, o)) = Some (w, 0, splice array o (sector w lba)).
Proof.
  intros Hl Hr. unfold block_read. rewrite (block_get_registered s dev d) by done. simpl.
  destruct Hreg as (_ & _ & _ & Hc).
  rewrite (proj2 (Z.leb_gt _ _)) by lia. rewrite u64_small by warith.
  rewrite (proj2 (Z.ltb_ge _ _)) by lia. simpl.
  destruct (read_sector w lba Hl) as (f & -> & E). simpl. rewrite E.
  rewrite copy_spec.
  - simpl. by rewrite slice_all.
  - by rewrite sector_length.
  - unfold room. rewrite sector_length. lia.
Qed.

Lemma block_write_sector w lba array o :
  0 <= lba < sector_count d -> room array o 512 -> all_bytes array -> writable d <> 0 ->
  exists w' r, block_write s w dev lba 1 (Some (array, o)) = Some (w', r) /\ (reliable d -> r = 0) /\
    (forall x, x <> lba -> sector w' x = sector w x) /\
    (sector w' lba = slice array o 512 \/ r <> 0 /\ sector w' lba = sector w lba).
Proof.
  intros Hl Hr Ha Hw. unfold block_write. rewrite (block_get_registered s dev d) by done. simpl.
  destruct Hreg as (_ & _ & _ & Hc).
  destruct (write_sector w lba (drop (Z.to_nat o) array)) as (f & w' & r & Ew & E & Hne & He);
    [done|unfold room in Hr; rewrite length_drop; lia|by apply Forall_drop|done|].
  rewrite Ew. rewrite (proj2 (Z.eqb_neq _ _)) by done. rewrite (proj2 (Z.leb_gt _ _)) by lia.
  rewrite u64_small by warith. rewrite (proj2 (Z.ltb_ge _ _)) by lia. simpl. rewrite E.
  exists w', r. split_and!; [done| |done|done]. intros Hrel.
  specialize (Hrel f w lba 1 (drop (Z.to_nat o) array) Ew). by rewrite E in Hrel.
Qed.

End with_store.

(** ** The guards of the block layer *)

(** C7: no request that leaves the device reaches a driver.  For every table,
    driver and arguments of the declared widths, [block_read] and
    [block_write] either answer -1 and leave the hardware (and the buffer)
    alone, or call the driver of device [id'] with a non-empty range of sectors
    that lies inside the device; the comparison that decides it does not wrap,
    and a read-only device's driver is never asked to write. *)
Theorem block_requests_in_range {W} (s : block W) (w w' : W) id' lba count array o r array' :
  fits 64 lba -> fits 32 count ->
  (forall i d, rd (block_devices s) i = Some d -> fits 64 (sector_count d)) ->
  (block_read s w id' lba count (Some (array, o)) = Some (w', r, array') ->
     (w' = w /\ r = -1 /\ array' = array) \/
     exists d f data, rd (block_devices s) id' = Some d /\ read d = Some f /\
       f (context d) w lba count = (w', r, data) /\ 0 < count /\ lba + count <= sector_count d) /\
  (block_write s w id' lba count (Some (array, o)) = Some (w', r) ->
     (w' = w /\ r = -1) \/
     exists d f, rd (block_devices s) id' = Some d /\ write d = Some f /\ writable d <> 0 /\
       f (context d) w lba count (drop (Z.to_nat o) array) = (w', r) /\
       0 < count /\ lba + count <= sector_count d).
Proof.
  intros Hl Hc Hs. split; intros H; unfold block_read, block_write, block_get in H;
    destruct (Z.eqb_spec count 0) as [|Hc0]; simplify_eq; [by auto| |by auto|];
    destruct (_ <=? id'); simpl in H; simplify_eq; [by auto| |by auto|];
    destruct (rd (block_devices s) id') as [d|] eqn:Ed; simpl in H; try discriminate;
    pose proof (Hs _ _ Ed) as Hd; split_if; simplify_eq; [by auto| |by auto|];
    rewrite u64_small in * by warith.
  - destruct (read d) as [f|] eqn:Ef; simpl in H; [|discriminate].
    destruct (f (context d) w lba count) as [[w1 r1] data] eqn:E.
    destruct (copy _ _ _ _ _); simpl in H; simplify_eq. right. exists d, f, data. split_and!; auto; warith.
  - destruct (write d) as [f|] eqn:Ef; simpl in H; [|discriminate]. simplify_eq.
    right. exists d, f. split_and!; auto; warith.
Qed.

(** ** The GPT probe against a specification *)

(** The bytes of [n] consecutive sectors. *)
Fixpoint sectors {W} {d : block_device W} `{!SectorStore d} (w : W) (lba : Z) (n : nat) : list Z :=
  match n with O => [] | S n => sector w lba ++ sectors w (lba + 1) n end.

Definition nonzero (l : list Z) : bool := existsb (fun b => negb (b =? 0)) l.

(** How many of the first [n] entries of [size] bytes have a type GUID. *)
Fixpoint used_entries (n : nat) (size : Z) (table : list Z) : Z :=
  match n with
  | O => 0
  | S n => (if nonzero (take 16 table) then 1 else 0) +
           used_entries n size (drop (Z.to_nat size) table)
  end.

(** The header in LBA 1 describes, and its two checksums protect, an array of
    entries between the header and the first usable sector. *)
Record gpt_valid {W} {d : block_device W} `{!SectorStore d} (w : W) : Prop := {
  gpt_revision : field (sector w 1) 8 4 = 65536;
  gpt_size : 92 <= field (sector w 1) 12 4 <= 512;
  gpt_reserved : field (sector w 1) 20 4 = 0;
  gpt_my_lba : field (sector w 1) 24 8 = 1;
  gpt_entry_count : 1 <= field (sector w 1) 80 4 <= 128;
  gpt_entry_size : field (sector w 1) 84 4 ∈ [128; 256; 512];
  gpt_usable : field (sector w 1) 40 8 <= field (sector w 1) 48 8 < field (sector w 1) 32 8;
  gpt_backup : field (sector w 1) 32 8 < sector_count d;
  gpt_header_crc :
    crc_of (take (Z.to_nat (field (sector w 1) 12 4)) (splice (sector w 1) 16 [0; 0; 0; 0])) =
    field (sector w 1) 16 4;
  gpt_table_place :
    2 <= field (sector w 1) 72 8 /\
    field (sector w 1) 72 8 * 512 + field (sector w 1) 80 4 * field (sector w 1) 84 4 <=
    field (sector w 1) 40 8 * 512;
  gpt_table_crc :
    crc_of (take (Z.to_nat (field (sector w 1) 80 4 * field (sector w 1) 84 4))
                 (sectors w (field (sector w 1) 72 8) 128)) = field (sector w 1) 88 4;
}.

Lemma sectors_length {W} {d : block_device W} `{!SectorStore d} w lba n :
  length (sectors w lba n) = (512 * n)%nat.
Proof.
  revert lba. induction n as [|n IH]; intros lba; [done|]. cbn [sectors].
  rewrite length_app, sector_length, IH. lia.
Qed.

Lemma sectors_drop {W} {d : block_device W} `{!SectorStore d} w lba n k :
  (k <= n)%nat -> drop (512 * k) (sectors w lba n) = sectors w (lba + Z.of_nat k) (n - k).
Proof.
  revert lba n. induction k as [|k IH]; intros lba n Hk.
  - by rewrite Nat.mul_0_r, drop_0, Z.add_0_r, Nat.sub_0_r.
  - destruct n as [|n]; [lia|]. cbn [sectors].
    replace (512 * S k)%nat with (length (sector w lba) + 512 * k)%nat by (rewrite sector_length; lia).
    rewrite <- drop_drop, drop_app_length, IH by lia. f_equal; lia.
Qed.

(** Sector [k] of the array. *)
Lemma sectors_slice {W} {d : block_device W} `{!SectorStore d} w lba n k :
  (k < n)%nat -> take 512 (drop (512 * k) (sectors w lba n)) = sector w (lba + Z.of_nat k).
Proof.
  intros Hk. rewrite sectors_drop by lia. destruct (n - k)%nat eqn:E; [lia|]. cbn [sectors].
  rewrite take_app_le by (rewrite sector_length; lia).
  apply firstn_all2. rewrite sector_length. lia.
Qed.

Lemma used_entries_range n size t : 0 <= used_entries n size t <= Z.of_nat n.
Proof. revert t. induction n as [|n IH]; intros t; simpl; [lia|]. specialize (IH (drop (Z.to_nat size) t)). destruct (nonzero _); lia. Qed.

Lemma used_entries_app n k size t :
  0 <= size ->
  used_entries (n + k) size t =
  used_entries n size t + used_entries k size (drop (n * Z.to_nat size) t).
Proof.
  intros Hs. revert t. induction n as [|n IH]; intros t; simpl; [by rewrite drop_0|].
  rewrite IH, drop_drop. lia.
Qed.

(** The count looks at the first [n * size] bytes only. *)
Lemma used_entries_take n size t m :
  16 <= size -> (n * Z.to_nat size <= m)%nat -> used_entries n size (take m t) = used_entries n size t.
Proof.
  intros Hs. revert t m. induction n as [|n IH]; intros t m Hm; [done|]. cbn [used_entries].
  rewrite take_take, Nat.min_l by lia. rewrite skipn_firstn_comm. rewrite IH by lia. done.
Qed.

(** The loop over a type GUID. *)
Lemma guid_loop b o :
  all_bytes b -> room b o 16 ->
  exists acc, for_loop 16 0 (fun byte acc => x ← rd b (o + byte); Some (u8 (acc ||| x))) 0 = Some acc /\
    negb (acc =? 0) = nonzero (take 16 (drop (Z.to_nat o) b)).
Proof.
  intros Hb Hr.
  destruct (for_loop_rule (fun i acc => fits 8 acc /\ 0 <= i /\
     negb (acc =? 0) = nonzero (take (Z.to_nat i) (drop (Z.to_nat o) b)))
     16 0 (fun byte acc => x ← rd b (o + byte); Some (u8 (acc ||| x))) 0) as (acc & E & _ & _ & H).
  - split_and!; [widths; lia|lia|done].
  - intros i acc Hi (Ha & Hi0 & Hn). unfold room in Hr.
    destruct (rd_ok b (o + i) ltac:(lia)) as (x & Ex). rewrite Ex. simpl.
    assert (fits 8 x) as Hx.
    { apply rd_Some in Ex as [_ Ex]. by apply (Forall_lookup_1 _ _ _ _ Hb Ex). }
    eexists. split; [done|]. split_and!; [apply u8_range|lia|].
    rewrite u8_small by (by apply lor_fits).
    apply rd_Some in Ex as [_ Ex]. replace (Z.to_nat (i + 1)) with (S (Z.to_nat i)) by lia.
    rewrite (take_S_r _ _ x) by (rewrite lookup_drop, <- Ex; f_equal; lia).
    unfold nonzero in *. rewrite existsb_app, <- Hn. simpl. rewrite orb_false_r.
    assert ((acc ||| x =? 0) = (acc =? 0) && (x =? 0)) as ->; [|by destruct (acc =? 0), (x =? 0)].
    pose proof (Z.lor_eq_0_iff acc x) as H0. zcmp; tauto.
  - exists acc. split; [exact E|]. exact H.
Qed.

Lemma scan_sector_spec b size k p :
  all_bytes b -> length b = 512%nat -> 128 <= size <= 512 -> 0 <= p ->
  Z.of_nat k * size <= 512 -> p + 4 < 2 ^ 32 ->
  scan_sector b size (Z.of_nat k * size) p = Some (p + used_entries k size b).
Proof.
  intros Hb Hl Hs Hp Hk Hm. unfold scan_sector.
  edestruct (while_loop_rule (fun '(offset, q) => exists j, (j <= k)%nat /\ offset = Z.of_nat j * size /\
                q = p + used_entries j size b)
              (fun q => q = p + used_entries k size b)
              (fun '(offset, _) => Z.to_nat (Z.of_nat k * size - offset))) as (q & E & ->);
    [| | |exact E].
  - exists 0%nat. simpl. split_and!; lia.
  - simpl. lia.
  - intros [offset q] (j & Hj & -> & ->).
    pose proof (used_entries_range j size b) as Hu.
    assert (Z.of_nat k <= 4) as Hk4 by nia.
    rewrite u32_small by (widths; nia).
    destruct (Z.leb_spec (Z.of_nat j * size + size) (Z.of_nat k * size)) as [Hle|Hle].
    + left. assert (j < k)%nat as Hjk by nia.
      destruct (guid_loop b (Z.of_nat j * size)) as (acc & Ea & Hn); [done|unfold room; nia|].
      rewrite Ea. cbn [mbind option_bind]. eexists. split; [reflexivity|]. split; [|nia].
      exists (S j). split_and!; [lia|lia|].
      replace (S j) with (j + 1)%nat by lia. rewrite used_entries_app by lia. simpl.
      replace (Z.to_nat (Z.of_nat j * size)) with (j * Z.to_nat size)%nat in Hn by nia.
      rewrite <- Hn. destruct (negb _); [rewrite u32_small by warith|]; lia.
    + right. eexists. split; [reflexivity|]. assert (j = k) as -> by nia. done.
Qed.

Arguments sectors : simpl never.

Section scan.
Context {W : Type} (s : block W) (dev : Z) (d : block_device W) `{!SectorStore d}.
Hypothesis Hreg : registered s dev d.

(** One sector of the array: [e] entries are done, [e'] more are in this
    sector. *)
Lemma scan_step w lba (i e e' per : nat) size crc_done pop :
  let T := sectors w lba 128 in
  (i < 128)%nat -> e = (per * i)%nat -> (e' <= per)%nat -> (per <= 4)%nat ->
  Z.of_nat per * size = 512 -> 128 <= size <= 512 -> (e <= 128)%nat ->
  crc_done = crc_of (take (e * Z.to_nat size) T) -> pop = used_entries e size T ->
  let chunk := Z.of_nat e' * size in
  crc32_update crc_done (Some (sector w (lba + Z.of_nat i))) chunk =
    Some (crc_of (take ((e + e') * Z.to_nat size) T)) /\
  scan_sector (sector w (lba + Z.of_nat i)) size chunk pop = Some (used_entries (e + e') size T).
Proof.
  intros T Hi He He' Hper Hps Hs Hmax -> -> chunk.
  assert (e * Z.to_nat size = 512 * i)%nat as Hes by nia.
  assert (sector w (lba + Z.of_nat i) = take 512 (drop (512 * i) T)) as Hsec
    by (symmetry; apply sectors_slice; lia).
  assert (chunk <= 512) as Hch by (unfold chunk; nia).
  assert (0 <= chunk) as Hch0 by (unfold chunk; nia).
  assert (Z.to_nat chunk = e' * Z.to_nat size)%nat as Hcn by (unfold chunk; nia).
  split.
  - rewrite crc32_update_crc_of by (rewrite sector_length; lia). do 2 f_equal.
    rewrite Hsec, take_take, Nat.min_l, Hes, take_take_drop by lia. f_equal. nia.
  - pose proof (used_entries_range e size T).
    unfold chunk. rewrite scan_sector_spec; [|apply sector_bytes|apply sector_length|lia..].
    f_equal. rewrite used_entries_app, Hes, Hsec by lia. rewrite used_entries_take by lia. done.
Qed.

Lemma scan_entries_spec w lba (n : nat) size sec0 :
  0 <= lba -> (1 <= n <= 128)%nat -> size ∈ [128; 256; 512] ->
  lba * 512 + Z.of_nat n * size <= sector_count d * 512 -> length sec0 = 512%nat ->
  exists sec rem, scan_entries s w dev lba (u64 (Z.of_nat n * size + 511) / 512) size
                    (Z.of_nat n * size) sec0 =
    Some (inl (w, sec, rem, crc_of (take (n * Z.to_nat size) (sectors w lba 128)),
               used_entries n size (sectors w lba 128))).
Proof.
  intros Hlba Hn Hsize Hin Hsec.
  assert (exists per : nat, Z.of_nat per * size = 512 /\ (1 <= per <= 4)%nat /\ 128 <= size <= 512)
    as (per & Hper & Hp4 & Hs).
  { rewrite !list_elem_of_cons, list_elem_of_nil in Hsize || rewrite !elem_of_cons, elem_of_nil in Hsize.
    destruct Hsize as [->|[->|[->|[]]]]; [exists 4%nat|exists 2%nat|exists 1%nat]; lia. }
  rewrite u64_small by (widths; nia). set (E := (Z.of_nat n * size + 511) / 512).
  assert (512 * E <= Z.of_nat n * size + 511 < 512 * E + 512) as HE by (unfold E; divlia).
  destruct Hreg as (_ & _ & _ & Hcount). unfold scan_entries.
  match goal with |- context [for_break _ _ ?loop_body ?start] =>
  destruct (for_break_rule
    (fun i (st : W * list Z * Z * Z * Z) => let '(w', sec, rem, crc, pop) := st in
       w' = w /\ length sec = 512%nat /\ 0 <= i /\
       exists e : nat, e = Nat.min n (per * Z.to_nat i) /\ rem = Z.of_nat (n - e) * size /\
         crc = crc_of (take (e * Z.to_nat size) (sectors w lba 128)) /\
         pop = used_entries e size (sectors w lba 128))
    (fun _ : W => False) (Z.to_nat E) 0 loop_body start)
    as [([[[[w1 sec] rem] crc] pop] & El & HI)|(v & _ & [])] end;
    [| |exists sec, rem; rewrite El].
  - split_and!; [done..|lia|]. exists 0%nat. rewrite Nat.mul_0_r, Nat.min_0_r. 
    split_and!; [done|lia|by rewrite take_0, crc_of_nil|done].
  - intros i [[[[w1 sec] rem] crc] pop] Hi (-> & Hl & Hi0 & e & He & -> & Hcrc & Hpop). left.
    assert (Z.of_nat per * i < Z.of_nat n) as Hpi by nia.
    assert (e = per * Z.to_nat i)%nat as He1 by nia.
    set (e' := Nat.min per (n - e)).
    assert ((if 512 <? Z.of_nat (n - e) * size then 512 else u32 (Z.of_nat (n - e) * size)) =
            Z.of_nat e' * size) as Hchunk.
    { destruct (Z.ltb_spec 512 (Z.of_nat (n - e) * size)); [|rewrite u32_small by (widths; nia)];
        unfold e'; destruct (Nat.min_spec per (n - e)) as [[? ->]|[? ->]]; nia. }
    rewrite Hchunk.
    assert (i * 512 < Z.of_nat n * size) as Hi512 by (clear -Hpi Hper Hs; nia).
    rewrite (u64_small (lba + i)) by warith.
    rewrite (block_read_sector s dev d); [|exact Hreg|lia|unfold room; lia].
    cbn [mbind option_bind]. simpl negb. cbn match.
    replace (splice sec 0 (sector w (lba + i))) with (sector w (lba + i)).
    2: { unfold splice. rewrite sector_length, drop_ge by lia. by rewrite app_nil_r. }
    destruct (scan_step w lba (Z.to_nat i) e e' per size crc pop) as [Ec Ep];
      [nia|done|unfold e'; lia|lia|done|lia|lia|done|done|].
    rewrite !Z2Nat.id in Ec, Ep by lia. rewrite Ec. cbn [mbind option_bind].
    rewrite Ep. cbn [mbind option_bind]. eexists. split; [reflexivity|].
    split_and!; [done|apply sector_length|lia|]. exists (e + e')%nat.
    assert (e' <= n - e)%nat as He' by (unfold e'; lia).
    split_and!; [unfold e'; nia| |done|done].
    rewrite u64_small; [nia|]. unfold fits. change (2 ^ 64) with 18446744073709551616.
    clear -He' Hs Hn. nia.
  - destruct HI as (-> & _ & _ & e & He & -> & -> & ->).
    assert (e = n) as -> by nia. done.
Qed.

End scan.

(** Refute a guard: with the facts in context every disjunct is false. *)
Ltac guard_false :=
  repeat (apply orb_false_intro);
  first [ reflexivity | apply negb_false_iff, Z.eqb_eq; lia | apply Z.ltb_ge; lia | apply Z.leb_gt; lia
        | apply Z.eqb_neq; lia ].

Lemma entry_size_cases n :
  0 <= n ->
  (n <? 128) || (512 <? n) || negb ((n &&& 127) =? 0) || negb (512 mod n =? 0) = false <->
  n ∈ [128; 256; 512].
Proof.
  intros Hn. rewrite !elem_of_cons, elem_of_nil.
  split.
  - intros H. bool_to_prop. change 127 with (2 ^ 7 - 1) in *. rewrite land_mask in * by lia.
    change (2 ^ 7) with 128 in *.
    assert (n = 128 \/ n = 256 \/ n = 384 \/ n = 512) as Hc by divlia.
    destruct Hc as [->|[->|[->| ->]]]; auto. discriminate.
  - intros [->|[->|[->|[]]]]; done.
Qed.

Section probe.
Context {W : Type} (s : block W) (dev : Z) (d : block_device W) `{!SectorStore d}.
Hypothesis Hreg : registered s dev d.

(** What an accepted table is reported as. *)
Definition gpt_report (w : W) : partition_info :=
  {| type := PARTITION_TABLE_GPT;
     partition_count :=
       used_entries (Z.to_nat (field (sector w 1) 80 4)) (field (sector w 1) 84 4)
                    (sectors w (field (sector w 1) 72 8) 128);
     protective_mbr := 1; gpt_header_valid := 1; gpt_entries_valid := 1;
     first_usable_lba := field (sector w 1) 40 8; last_usable_lba := field (sector w 1) 48 8 |}.

Lemma sector_load32 w lba o : 0 <= o <= 508 -> load32 (sector w lba) o = Some (field (sector w lba) o 4).
Proof. intros. apply load32_field; [apply sector_bytes|]. unfold room. rewrite sector_length. lia. Qed.

Lemma sector_load64 w lba o : 0 <= o <= 504 -> load64 (sector w lba) o = Some (field (sector w lba) o 8).
Proof. intros. apply load64_field; [apply sector_bytes|]. unfold room. rewrite sector_length. lia. Qed.

Lemma sector_field32 w lba o : 0 <= o <= 508 -> fits 32 (field (sector w lba) o 4).
Proof. intros. apply field_fits; [apply sector_bytes|]. unfold room. rewrite sector_length. lia. Qed.

Lemma sector_field64 w lba o : 0 <= o <= 504 -> fits 64 (field (sector w lba) o 8).
Proof. intros. apply field_fits; [apply sector_bytes|]. unfold room. rewrite sector_length. lia. Qed.

Definition gpt_outcome (w : W) (result : option (W * Z * partition_info)) : Prop :=
  (gpt_valid w /\ result = Some (w, 0, gpt_report w)) \/
  (~ gpt_valid w /\ exists info, result = Some (w, -2, info) /\ type info = PARTITION_TABLE_NONE).

(** A guard that returns -2 is a violation of the specification. *)
Lemma reject w info :
  type info = PARTITION_TABLE_NONE -> ~ gpt_valid w -> gpt_outcome w (Some (w, -2, info)).
Proof. intros Ht Hv. right. split; [done|]. by exists info. Qed.

Lemma gpt_probe_spec w sec0 :
  length sec0 = 512%nat ->
  gpt_outcome w (gpt_probe s w dev d (sector w 1) sec0 (set_protective no_partitions)).
Proof.
  intros Hl. unfold gpt_probe. rewrite !sector_load32, !sector_load64 by lia. cbn [mbind option_bind].
  pose proof (sector_field64 w 1 32 ltac:(lia)) as F32. pose proof (sector_field64 w 1 40 ltac:(lia)) as F40.
  pose proof (sector_field64 w 1 48 ltac:(lia)) as F48. pose proof (sector_field64 w 1 72 ltac:(lia)) as F72.
  pose proof (sector_field32 w 1 80 ltac:(lia)) as F80. pose proof (sector_field32 w 1 84 ltac:(lia)) as F84.
  pose proof (entry_size_cases (field (sector w 1) 84 4) (proj1 F84)) as Hsz.
  destruct Hreg as (_ & _ & _ & Hcount).
  match goal with |- context [if ?c then Some (w, -2, set_protective no_partitions) else _] => destruct c eqn:G1 end.
  { apply reject; [done|]. intros []. apply Hsz in gpt_entry_size0.
    rewrite !orb_false_iff in gpt_entry_size0. destruct gpt_entry_size0 as [[[??]?]?].
    apply not_false_iff_true in G1. apply G1. repeat (apply orb_false_intro); try done; guard_false. }
  bool_to_prop.
  assert (field (sector w 1) 84 4 ∈ [128; 256; 512]) as Hsize
    by (apply Hsz; repeat (apply orb_false_intro); try guard_false).
  clear Hsz.
  match goal with |- context [if ?c then Some (w, -2, ?i) else _] => destruct c eqn:G2 end.
  { apply reject; [done|]. intros []. apply not_false_iff_true in G2. apply G2. guard_false. }
  bool_to_prop.
  unfold store32. rewrite put32_spec by (unfold room; rewrite sector_length; lia). cbn [mbind option_bind].
  change (le_bytes 4 0) with [0; 0; 0; 0].
  assert (length (splice (sector w 1) 16 [0; 0; 0; 0]) = 512%nat) as Hsplice.
  { rewrite length_splice; [apply sector_length|]. unfold room. rewrite sector_length. simpl. lia. }
  rewrite crc32_crc_of by lia. cbn [mbind option_bind].
  match goal with |- context [if ?c then Some (w, -2, ?i) else _] => destruct c eqn:G3 end.
  { apply reject; [done|]. intros []. apply not_false_iff_true in G3. apply G3. guard_false. }
  bool_to_prop.
  set (n := Z.to_nat (field (sector w 1) 80 4)).
  assert (field (sector w 1) 80 4 = Z.of_nat n) as Hn by (unfold n, fits in *; lia).
  set (bytes := field (sector w 1) 80 4 * field (sector w 1) 84 4).
  assert (0 <= bytes <= 65536) as Hbytes by (unfold bytes; nia).
  rewrite (u64_small bytes) by warith. rewrite (u64_small (bytes + 511)) by warith.
  match goal with |- context [if ?c then Some (w, -2, ?i) else _] => destruct c eqn:G4 end.
  { apply reject; [done|]. intros []. apply not_false_iff_true in G4. apply G4.
    fold bytes in gpt_table_place0. rewrite !u64_small by warith.
    repeat apply orb_false_intro; first [apply Z.leb_gt; lia | apply Z.ltb_ge; divlia]. }
  bool_to_prop. rewrite !u64_small in * by warith.
  assert (field (sector w 1) 72 8 * 512 + bytes <= field (sector w 1) 40 8 * 512) as Hplace by divlia.
  destruct (scan_entries_spec s dev d Hreg w (field (sector w 1) 72 8) n (field (sector w 1) 84 4) sec0)
    as (sec & rem & E); [lia|lia|done|rewrite <- Hn; fold bytes; lia|done|].
  rewrite <- Hn in E. fold bytes in E. rewrite u64_small in E by warith. rewrite E.
  cbn [mbind option_bind].
  replace (n * Z.to_nat (field (sector w 1) 84 4))%nat with (Z.to_nat bytes) by (unfold bytes; nia).
  match goal with |- context [if ?c then _ else _] => destruct c eqn:G5 end.
  - apply reject; [done|]. intros []. fold bytes in gpt_table_crc0. apply not_false_iff_true in G5. apply G5. guard_false.
  - bool_to_prop. left. split; [|done]. constructor; try done; try lia.
Qed.

(** The master boot record, entry by entry. *)
Definition byte_at (b : list Z) (i : Z) : Z := match rd b i with Some x => x | None => 0 end.

Definition mbr_protective (m : list Z) (k : Z) : bool := byte_at m (446 + k * 16 + 4) =? 238.

Definition mbr_used (m : list Z) (k : Z) : bool :=
  negb (byte_at m (446 + k * 16 + 4) =? 0) && negb (field m (446 + k * 16 + 12) 4 =? 0).

Lemma sector_rd w lba i : 0 <= i < 512 -> rd (sector w lba) i = Some (byte_at (sector w lba) i).
Proof.
  intros Hi. destruct (rd_ok (sector w lba) i) as (x & E); [rewrite sector_length; lia|].
  unfold byte_at. by rewrite E.
Qed.

Lemma mbr_entries_spec w :
  mbr_entries (sector w 0) =
    Some (Z.b2z (existsb (mbr_protective (sector w 0)) [0; 1; 2; 3]),
          Z.of_nat (length (List.filter (mbr_used (sector w 0)) [0; 1; 2; 3]))).
Proof.
  unfold mbr_entries. do 4 (rewrite for_loop_S, sector_rd, sector_load32 by lia; cbn [mbind option_bind]).
  change (0 + 1) with 1. change (1 + 1) with 2. change (2 + 1) with 3.
  repeat match goal with |- context [byte_at ?m (446 + ?k * 16 + 4) =? 238] =>
    change (byte_at m (446 + k * 16 + 4) =? 238) with (mbr_protective m k);
    change (negb (byte_at m (446 + k * 16 + 4) =? 0) && negb (field m (446 + k * 16 + 12) 4 =? 0))
      with (mbr_used m k) end.
  cbn [existsb List.filter].
  destruct (mbr_used _ 0), (mbr_used _ 1), (mbr_used _ 2), (mbr_used _ 3),
    (mbr_protective _ 0), (mbr_protective _ 1), (mbr_protective _ 2), (mbr_protective _ 3);
    reflexivity.
Qed.

(** The result of a probe, by the contents of the disk alone. *)
Inductive probe_result (w : W) : Z -> partition_info -> Prop :=
| probe_none :
    field (sector w 0) 510 2 <> 43605 ->                                     (* 0xAA55 *)
    probe_result w 0 no_partitions
| probe_mbr :
    field (sector w 0) 510 2 = 43605 ->
    existsb (mbr_protective (sector w 0)) [0; 1; 2; 3] = false ->
    probe_result w 0
      (set_mbr no_partitions
         (Z.of_nat (length (List.filter (mbr_used (sector w 0)) [0; 1; 2; 3]))) 0)
| probe_gpt :
    field (sector w 0) 510 2 = 43605 ->
    existsb (mbr_protective (sector w 0)) [0; 1; 2; 3] = true ->
    1 < sector_count d -> field (sector w 1) 0 8 = 6075990659671082565 ->    (* "EFI PART" *)
    gpt_valid w ->
    probe_result w 0 (gpt_report w)
| probe_bad info :
    field (sector w 0) 510 2 = 43605 ->
    existsb (mbr_protective (sector w 0)) [0; 1; 2; 3] = true ->
    ~ (1 < sector_count d /\ field (sector w 1) 0 8 = 6075990659671082565 /\ gpt_valid w) ->
    type info = PARTITION_TABLE_NONE ->
    probe_result w (-2) info.

Lemma signature_field w :
  field (sector w 0) 510 2 = byte_at (sector w 0) 510 + 256 * byte_at (sector w 0) 511.
Proof.
  unfold field. pose proof (length_slice (sector w 0) 510 2) as Hl.
  assert (room (sector w 0) 510 2) as Hr by (unfold room; rewrite sector_length; lia).
  pose proof (rd_slice (sector w 0) 510 2) as R. specialize (Hl Hr).
  destruct (slice (sector w 0) 510 2) as [|a [|b [|]]]; try discriminate Hl.
  pose proof (R 0 Hr) as R0. pose proof (R 1 Hr) as R1. simpl in R0, R1.
  rewrite !sector_rd in R0, R1 by lia. injection R0 as ->. injection R1 as ->. cbn [le_value].
  change (510 + 0) with 510. change (510 + 1) with 511. lia.
Qed.

Lemma byte_at_fits w lba i : fits 8 (byte_at (sector w lba) i).
Proof.
  unfold byte_at. destruct (rd _ _) as [x|] eqn:E; [|done].
  apply rd_Some in E as [_ E]. by apply (Forall_lookup_1 _ _ _ _ (sector_bytes w lba) E).
Qed.

Lemma splice_sector w lba sec : length sec = 512%nat -> splice sec 0 (sector w lba) = sector w lba.
Proof.
  intros Hl. unfold splice. rewrite (drop_ge sec) by (rewrite sector_length; lia).
  by rewrite app_nil_r.
Qed.

End probe.

(** C6: the partition probe is exact.  On a registered disk of 512-byte
    sectors, [partition_probe] always ends without a fault, does not change the
    disk, and its answer is the one the contents of the disk determine: no
    signature, an MBR with its number of used entries, or (for a protective
    MBR) a GPT.  A GPT is accepted if and only if its header is well formed, its
    header checksum and its table checksum both match and the table lies
    between the header and the first usable sector; the reported number of
    partitions is the number of entries with a type GUID. *)
Theorem partition_probe_exact {W} (s : block W) (dev : Z) (d : block_device W) `{!SectorStore d}
    (w : W) (info : partition_info) (sec0 sec1 : list Z) :
  registered s dev d -> sector_size d = 512 ->
  length sec0 = 512%nat -> length sec1 = 512%nat ->
  exists r info', partition_probe s w dev (Some info) sec0 sec1 = Some (w, r, Some info') /\
    probe_result d w r info'.
Proof.
  intros Hreg Hsz L0 L1. pose proof Hreg as (_ & _ & _ & Hc). unfold partition_probe.
  rewrite (block_get_registered s dev d Hreg). cbn [mbind option_bind]. rewrite Hsz.
  change (negb (0 =? 0) || negb (512 =? 512)) with false. cbn match.
  rewrite (block_read_sector s dev d Hreg) by (lia || (unfold room; lia)). cbn [mbind option_bind].
  rewrite splice_sector by done. simpl negb. cbn match. rewrite !sector_rd by lia. cbn [mbind option_bind].
  pose proof (signature_field d w) as Hsig.
  pose proof (byte_at_fits d w 0 510) as Fa. pose proof (byte_at_fits d w 0 511) as Fb.
  destruct (_ || _) eqn:Esig.
  { do 2 eexists. split; [done|]. apply probe_none. rewrite Hsig. intros Hs.
    assert (byte_at (sector w 0) 510 = 85 /\ byte_at (sector w 0) 511 = 170) as [Ea Eb]
      by (clear -Fa Fb Hs; unfold fits in *; change (2 ^ 8) with 256 in *; lia).
    rewrite Ea, Eb in Esig. discriminate. }
  bool_to_prop. rewrite mbr_entries_spec. cbn [mbind option_bind].
  destruct (existsb _ _) eqn:Ep; simpl negb; cbn match.
  2: { do 2 eexists. split; [done|]. apply probe_mbr; [lia|done]. }
  destruct (Z.lt_ge_cases 1 (sector_count d)) as [H1|H1].
  2: { unfold block_read at 1. rewrite (block_get_registered s dev d Hreg). simpl.
       rewrite (proj2 (Z.leb_le _ _)) by lia. simpl.
       do 2 eexists. split; [done|]. apply probe_bad; [lia|done| |done]. intros (? & _). lia. }
  rewrite (block_read_sector s dev d Hreg) by (lia || (unfold room; rewrite sector_length; lia)).
  cbn [mbind option_bind]. rewrite splice_sector by apply sector_length. simpl negb. cbn match.
  rewrite sector_load64 by lia. cbn [mbind option_bind].
  destruct (Z.eqb_spec (field (sector w 1) 0 8) 6075990659671082565) as [Es|Es]; simpl negb; cbn match.
  2: { do 2 eexists. split; [done|]. apply probe_bad; [lia|done| |done]. intros (_ & ? & _). done. }
  destruct (gpt_probe_spec s dev d Hreg w sec1 L1) as [[V ->]|(V & i & -> & Ht)]; cbn [mbind option_bind].
  - do 2 eexists. split; [done|]. apply probe_gpt; (lia || done).
  - do 2 eexists. split; [done|]. apply probe_bad; [lia|done| |done]. by intros (_ & _ & ?).
Qed.

(** ** Registration *)

Lemma copy_name_spec target source str :
  length target = 24%nat -> c_string source str ->
  copy_name target source = Some (splice target 0 (take 23 str ++ [0])).
Proof.
  intros Ht Hs. unfold copy_name.
  match goal with |- context [while_loop _ ?loop_body _] =>
  destruct (while_loop_rule
    (fun '(t, i) => 0 <= i <= Z.of_nat (length (take 23 str)) /\ t = splice target 0 (take (Z.to_nat i) str))
    (fun '(t, i) => i = Z.of_nat (length (take 23 str)) /\ t = splice target 0 (take 23 str))
    (fun '(_, i) => Z.to_nat (23 - i)) (Z.to_nat BLOCK_NAME_MAX) loop_body (target, 0))
    as ([t i] & -> & -> & ->) end.
  - split; [lia|]. unfold splice. by rewrite take_0.
  - unfold BLOCK_NAME_MAX. lia.
  - intros [t i] (Hi & ->). rewrite length_take in *.
    destruct (c_string_rd source str i Hs ltac:(lia)) as [E Ez]. rewrite E. cbn [mbind option_bind].
    unfold BLOCK_NAME_MAX. destruct (Z.eqb_spec (nth (Z.to_nat i) str 0) 0) as [H0|H0]; simpl negb;
      [|destruct (Z.ltb_spec (i + 1) 24) as [Hl|Hl]]; cbn [andb]; cbn match.
    + right. eexists. split; [done|]. apply Ez in H0. split; [lia|]. rewrite !take_ge by lia. done.
    + left. rewrite wr_splice.
      2: { unfold room. rewrite length_splice; [lia|]. unfold room. rewrite length_take. lia. }
      cbn [mbind option_bind]. eexists. split; [done|]. split; [|lia].
      assert (i <> Z.of_nat (length str)) by tauto. split; [lia|].
      rewrite splice_next; [|rewrite length_take; lia|unfold room; rewrite length_app, length_take; simpl; lia].
      f_equal. replace (Z.to_nat (i + 1)) with (S (Z.to_nat i)) by lia. symmetry. apply take_S_r.
      destruct (nth_lookup_or_length str (Z.to_nat i) 0) as [|Hlen]; [done|lia].
    + right. eexists. split; [done|]. split; [lia|]. do 2 f_equal. lia.
  - cbn [mbind option_bind]. rewrite wr_splice.
    2: { unfold room. rewrite length_splice; [rewrite length_take; lia|]. unfold room. rewrite length_take. lia. }
    f_equal. apply splice_next; [lia|]. unfold room. rewrite length_app, length_take. cbn [length]. lia.
Qed.

(** A device the table may hold at index [i]. *)
Record device_ok {W} (i : Z) (d : block_device W) : Prop := {
  ok_id : id d = i;
  ok_name : exists str, c_string (name d) str;
  ok_size : exists k, 9 <= k < 32 /\ sector_size d = 2 ^ k;
  ok_count : 0 < sector_count d < 2 ^ 64;
  ok_read : read d <> None;
  ok_write : writable d <> 0 -> write d <> None;
}.

Record block_inv {W} (s : block W) : Prop := {
  inv_length : length (block_devices s) = 16%nat;
  inv_names : forall i d, rd (block_devices s) i = Some d -> length (name d) = 24%nat;
  inv_count : 0 <= block_device_count s <= 16;
  inv_devices : forall i, 0 <= i < block_device_count s ->
    exists d, rd (block_devices s) i = Some d /\ device_ok i d;
}.

Lemma device_size_pow2 n :
  fits 32 n -> 512 <= n -> n &&& u32 (n - 1) = 0 -> exists k, 9 <= k < 32 /\ n = 2 ^ k.
Proof.
  intros Hn H512 H0. rewrite u32_small in H0 by warith.
  assert (mvh_is_power_of_two_u64 n = true) as Hp.
  { unfold mvh_is_power_of_two_u64. rewrite u64_small, H0 by warith.
    by rewrite (proj2 (Z.eqb_neq n 0)) by lia. }
  apply is_power_of_two_spec in Hp as (k & Hk & ->); [|warith]. exists k. split; [|done].
  assert (2 ^ 9 <= 2 ^ k < 2 ^ 32) as [H9 H32] by (unfold fits in Hn; lia).
  apply Z.pow_le_mono_r_iff in H9; [|lia..]. apply Z.pow_lt_mono_r_iff in H32; lia.
Qed.

(** A new name is a C string. *)
Lemma copied_name target str :
  length target = 24%nat -> Forall (fun c => c <> 0) str ->
  c_string (splice target 0 (take 23 str ++ [0])) (take 23 str).
Proof.
  intros Ht Hs. unfold splice. simpl. eexists. split; [by rewrite <- app_assoc|by apply Forall_take].
Qed.

(** What [block_register] asks of its arguments. *)
Record registrable {W} (str : list Z) (size count writable' : Z)
    (read' : option (Z -> W -> Z -> Z -> W * Z * list Z))
    (write' : option (Z -> W -> Z -> Z -> list Z -> W * Z)) : Prop := {
  reg_name : str <> [];
  reg_read : read' <> None;
  reg_size : exists k, 9 <= k < 32 /\ size = 2 ^ k;
  reg_count : count <> 0;
  reg_write : writable' <> 0 -> write' <> None;
}.

Lemma is_null_true {A} (p : option A) : is_null p = true <-> p = None.
Proof. by destruct p. Qed.

Lemma register_guard {W} str size count writable'
    (read' : option (Z -> W -> Z -> Z -> W * Z * list Z))
    (write' : option (Z -> W -> Z -> Z -> list Z -> W * Z)) :
  Forall (fun c => c <> 0) str -> fits 32 size ->
  (nth 0 str 0 =? 0) || is_null read' || (size <? 512) ||
    negb ((size &&& u32 (size - 1)) =? 0) || (count =? 0) ||
    (negb (writable' =? 0) && is_null write') = false <->
  registrable str size count writable' read' write'.
Proof.
  intros Hs Hsize. split.
  - intros H. rewrite !orb_false_iff in H. destruct H as (((((Hn & Hr) & H5) & Hp) & Hc) & Hw).
    bool_to_prop. constructor.
    + by intros ->.
    + by destruct read'.
    + by apply device_size_pow2.
    + done.
    + intros Hne. rewrite (proj2 (Z.eqb_neq _ _)) in Hw by done. by destruct write'.
  - intros [Hn Hr (k & Hk & ->) Hc Hw].
    assert (2 ^ 9 <= 2 ^ k) as H9 by (apply Z.pow_le_mono_r; lia).
    repeat apply orb_false_intro.
    + destruct str as [|c str]; [done|]. inversion_clear Hs. simpl. by apply Z.eqb_neq.
    + by destruct read'.
    + apply Z.ltb_ge. lia.
    + apply negb_false_iff, Z.eqb_eq. rewrite u32_small by (unfold fits in *; lia).
      apply land_pow2_pred; unfold fits; lia.
    + by apply Z.eqb_neq.
    + destruct (Z.eqb_spec writable' 0); [done|]. by destruct write'; [|destruct Hw].
Qed.

(** [block_register] keeps the device table well formed and is total on C
    strings.  It refuses, without any change, an empty name, a missing read
    function, a sector size that is not a power of two of at least 512, an
    empty device, a writable device without a write function, and a full table;
    otherwise the new device gets the next free id, is stored under it with a
    terminated (truncated) name, and every other slot is unchanged. *)
Theorem block_register_spec {W} (s : block W) source str size count writable' context' read' write' :
  block_inv s -> c_string source str -> fits 32 size -> fits 64 count ->
  exists s' r, block_register s (Some source) size count writable' context' read' write' = Some (s', r) /\
    block_inv s' /\
    ((registrable str size count writable' read' write' /\ block_device_count s < 16 /\
      r = block_device_count s /\ block_device_count s' = r + 1 /\
      (exists d, rd (block_devices s') r = Some d /\ c_string (name d) (take 23 str) /\
         id d = r /\ sector_size d = size /\ sector_count d = count /\ writable d = writable' /\
         context d = context' /\ read d = read' /\ write d = write') /\
      (forall i, i <> r -> rd (block_devices s') i = rd (block_devices s) i)) \/
     (~ (registrable str size count writable' read' write' /\ block_device_count s < 16) /\
      s' = s /\ r = -1)).
Proof.
  intros [Hl Hnames Hcnt Hdev] Hs Hsize Hcount. unfold block_register.
  destruct (c_string_rd source str 0 Hs ltac:(lia)) as [-> _]. cbn [mbind option_bind]. simpl Z.to_nat.
  pose proof Hs as (rest & _ & Hnz).
  pose proof (register_guard (W := W) str size count writable' read' write' Hnz Hsize) as Hg.
  destruct (_ || _) eqn:G.
  { do 2 eexists. split_and!; [done|by constructor|]. right. split; [|done].
    intros [Hok _]. apply Hg in Hok. discriminate. }
  assert (registrable str size count writable' read' write') as Hok by (by apply Hg).
  unfold BLOCK_DEVICE_MAX. destruct (Z.leb_spec 16 (block_device_count s)) as [Hfull|Hfull].
  { do 2 eexists. split_and!; [done|by constructor|]. right. split; [|done]. intros [_ ?]. lia. }
  destruct (rd_ok (block_devices s) (block_device_count s) ltac:(lia)) as (old & Eold).
  rewrite Eold. cbn [mbind option_bind].
  rewrite (copy_name_spec _ _ str) by (eauto || done). cbn [mbind option_bind].
  rewrite wr_ok by lia. cbn [mbind option_bind id].
  rewrite u32_small by warith.
  set (d := Build_block_device _ _ _ _ _ _ _ _).
  pose proof (wr_ok (block_devices s) (block_device_count s) d ltac:(lia)) as Hw.
  set (devices := <[_ := d]> _) in *.
  assert (forall i, rd devices i = if block_device_count s =? i then Some d else rd (block_devices s) i) as Hrd
    by (intros i; by apply (rd_wr _ _ _ _ _ Hw)).
  assert (c_string (name d) (take 23 str)) as Hname by (apply copied_name; eauto).
  assert (device_ok (block_device_count s) d) as Hd.
  { destruct Hok. constructor; try done; [by eexists|]. unfold fits in Hcount. simpl. lia. }
  do 2 eexists. split; [done|]. split.
  - constructor; simpl.
    + by rewrite (wr_length _ _ _ _ Hw).
    + intros i d' E. rewrite Hrd in E. destruct (_ =? i); [injection E as <-|by apply (Hnames i)].
      unfold d; simpl. rewrite length_splice; [by apply (Hnames _ _ Eold)|].
      unfold room. rewrite (Hnames _ _ Eold), length_app, length_take. cbn [length]. lia.
    + lia.
    + intros i Hi. rewrite Hrd. destruct (Z.eqb_spec (block_device_count s) i) as [<-|]; [by eauto|].
      apply Hdev. lia.
  - left. assert (i32 (block_device_count s) = block_device_count s) as -> by (widths; divlia).
    split_and!; [done..| |].
    + exists d. rewrite Hrd, Z.eqb_refl. done.
    + intros i Hi. rewrite Hrd. by rewrite (proj2 (Z.eqb_neq _ _)).
Qed.

(** ** A disk that satisfies the interface

    A memory disk: a finite map of sectors, everything else zero. *)

Definition zero_sector : list Z := replicate 512 0.

Definition is_sector (l : list Z) : bool :=
  (length l =? 512)%nat && forallb (fun b => (0 <=? b) && (b <? 256)) l.

Definition ram_sector (w : gmap Z (list Z)) (lba : Z) : list Z :=
  match w !! lba with
  | Some l => if is_sector l then l else zero_sector
  | None => zero_sector
  end.

Fixpoint ram_bytes (w : gmap Z (list Z)) (lba : Z) (n : nat) : list Z :=
  match n with O => [] | S n => ram_sector w lba ++ ram_bytes w (lba + 1) n end.

Fixpoint ram_put (w : gmap Z (list Z)) (lba : Z) (n : nat) (data : list Z) : gmap Z (list Z) :=
  match n with
  | O => w
  | S n => ram_put (<[lba := take 512 data]> w) (lba + 1) n (drop 512 data)
  end.

Definition ram_device (dev sectors : Z) : block_device (gmap Z (list Z)) :=
  {| id := dev; name := 114 :: 97 :: 109 :: replicate 21 0; sector_size := 512;
     sector_count := sectors; writable := 1; context := 0;
     read := Some (fun _ w lba count => (w, 0, ram_bytes w lba (Z.to_nat count)));
     write := Some (fun _ w lba count data => (ram_put w lba (Z.to_nat count) data, 0)) |}.

Lemma is_sector_spec l : is_sector l = true <-> length l = 512%nat /\ all_bytes l.
Proof.
  unfold is_sector. rewrite andb_true_iff, Nat.eqb_eq. unfold all_bytes. rewrite Forall_forall, forallb_forall.
  split; intros [H1 H2]; (split; [done|]); intros x Hx; specialize (H2 x).
  - apply list_elem_of_In in Hx. specialize (H2 Hx). bool_to_prop. unfold fits. lia.
  - apply list_elem_of_In in Hx. specialize (H2 Hx). unfold fits in H2.
    apply andb_true_iff. rewrite Z.leb_le, Z.ltb_lt. lia.
Qed.

Lemma ram_sector_ok w lba : length (ram_sector w lba) = 512%nat /\ all_bytes (ram_sector w lba).
Proof.
  assert (length zero_sector = 512%nat /\ all_bytes zero_sector) as Hz.
  { apply is_sector_spec. done. }
  unfold ram_sector. destruct (w !! lba) as [l|]; [|done].
  destruct (is_sector l) eqn:E; [|done]. by apply is_sector_spec.
Qed.

Lemma ram_read_ok dev n w lba :
  0 <= lba < sector_count (ram_device dev n) ->
  exists f, read (ram_device dev n) = Some f /\
    f (context (ram_device dev n)) w lba 1 = (w, 0, ram_sector w lba).
Proof. intros _. eexists. split; [done|]. simpl. by rewrite app_nil_r. Qed.

Lemma ram_write_ok dev n w lba data :
  0 <= lba < sector_count (ram_device dev n) -> (512 <= length data)%nat -> all_bytes data ->
  writable (ram_device dev n) <> 0 ->
  exists f w' r, write (ram_device dev n) = Some f /\
    f (context (ram_device dev n)) w lba 1 data = (w', r) /\
    (forall x, x <> lba -> ram_sector w' x = ram_sector w x) /\
    (ram_sector w' lba = take 512 data \/ r <> 0 /\ ram_sector w' lba = ram_sector w lba).
Proof.
  intros Hlba Hlen Hb _. do 3 eexists. split_and!; [done|done|..].
  - intros x Hx. unfold ram_sector. simpl. by rewrite lookup_insert_ne.
  - left. unfold ram_sector. simpl. rewrite lookup_insert_eq.
    assert (is_sector (take 512 data) = true) as ->; [|done].
    apply is_sector_spec. split; [rewrite length_take; lia|by apply Forall_take].
Qed.

#[export] Instance ram_store dev n : SectorStore (ram_device dev n) := {|
  sector := ram_sector;
  sector_length w lba := proj1 (ram_sector_ok w lba);
  sector_bytes w lba := proj2 (ram_sector_ok w lba);
  read_sector := ram_read_ok dev n;
  write_sector := ram_write_ok dev n;
|}.

(** A table whose first device is a memory disk. *)
Definition ram_table (sectors : Z) : block (gmap Z (list Z)) :=
  {| block_devices := ram_device 0 sectors :: replicate 15 (ram_device 1 8); block_device_count := 1 |}.

Lemma ram_registered sectors : 0 < sectors < 2 ^ 64 -> registered (ram_table sectors) 0 (ram_device 0 sectors).
Proof. intros H. unfold registered. simpl. split_and!; (lia || done). Qed.

Lemma block_requests_in_range_witness :
  let s := ram_table 8 in
  (block_read s ∅ 0 7 1 (Some (zero_sector, 0)) = Some (∅, 0, zero_sector) ->
     (∅ = (∅ : gmap Z (list Z)) /\ 0 = -1 /\ zero_sector = zero_sector) \/
     exists d f data, rd (block_devices s) 0 = Some d /\ read d = Some f /\
       f (context d) ∅ 7 1 = (∅, 0, data) /\ 0 < 1 /\ 7 + 1 <= sector_count d) /\
  (block_write s ∅ 0 7 1 (Some (zero_sector, 0)) = Some (∅, 0) ->
     (∅ = (∅ : gmap Z (list Z)) /\ 0 = -1) \/
     exists d f, rd (block_devices s) 0 = Some d /\ write d = Some f /\ writable d <> 0 /\
       f (context d) ∅ 7 1 (drop (Z.to_nat 0) zero_sector) = (∅, 0) /\
       0 < 1 /\ 7 + 1 <= sector_count d).
Proof.
  intros s. apply (block_requests_in_range s ∅ ∅ 0 7 1 zero_sector 0 0 zero_sector); [done..|].
  intros i d E. apply rd_Some in E as [_ E]. apply list_elem_of_lookup_2 in E.
  unfold s in E. simpl in E. repeat (apply elem_of_cons in E as [->|E]; [done|]). by apply elem_of_nil in E.
Defined.

(** A disk with a protective MBR and a GPT of four entries, three of them used. *)
Definition gpt_disk : gmap Z (list Z) :=
  list_to_map [
    (0, replicate 450 0 ++ [238] ++ replicate 59 0 ++ [85; 170]);
    (1, le_bytes 8 6075990659671082565 ++ le_bytes 4 65536 ++ le_bytes 4 92 ++ le_bytes 4 3052829975 ++ le_bytes 4 0 ++
        le_bytes 8 1 ++ le_bytes 8 15 ++ le_bytes 8 6 ++ le_bytes 8 13 ++ (Z.of_nat <$> seq 1 16) ++
        le_bytes 8 2 ++ le_bytes 4 4 ++ le_bytes 4 128 ++ le_bytes 4 2359590633 ++ replicate 420 0);
    (2, replicate 16 17 ++ replicate 240 0 ++ replicate 16 34 ++ replicate 112 0 ++ replicate 16 51 ++ replicate 112 0)].

Lemma partition_probe_exact_witness :
  exists info', partition_probe (ram_table 16) gpt_disk 0 (Some no_partitions) zero_sector zero_sector =
      Some (gpt_disk, 0, Some info') /\ type info' = PARTITION_TABLE_GPT /\ partition_count info' = 3 /\
    probe_result (ram_device 0 16) gpt_disk 0 info'.
Proof.
  destruct (partition_probe_exact (ram_table 16) 0 (ram_device 0 16) gpt_disk no_partitions zero_sector zero_sector)
    as (r & info' & E & H); [by apply ram_registered|done|done|done|].
  assert (match partition_probe (ram_table 16) gpt_disk 0 (Some no_partitions) zero_sector zero_sector with
          | Some (_, 0, Some i) => type i = PARTITION_TABLE_GPT /\ partition_count i = 3 | _ => False end) as Hc by (vm_compute; by split).
  rewrite E in Hc. destruct r as [|?|?]; [|destruct Hc|destruct Hc]. destruct Hc as [H1 H2].
  exists info'. split; [exact E|]. split; [exact H1|]. split; [exact H2|exact H].
Defined.

Lemma ram_table_inv n : 0 < n < 2 ^ 64 -> block_inv (ram_table n).
Proof.
  intros Hn. constructor; [done| |simpl; lia|].
  - intros i d E. apply rd_Some in E as [_ E]. apply list_elem_of_lookup_2 in E.
    simpl in E. repeat (apply elem_of_cons in E as [->|E]; [done|]). by apply elem_of_nil in E.
  - intros i Hi. simpl in Hi. assert (i = 0) as -> by lia. eexists. split; [done|].
    constructor; try done.
    + exists [114; 97; 109]. eexists. split; [done|]. by repeat constructor.
    + exists 9. split; [lia|done].
Qed.

Lemma block_register_spec_witness :
  exists s' r, block_register (ram_table 8) (Some [100; 0]) 512 16 0 0
                 (read (ram_device 0 8)) None = Some (s', r) /\ block_inv s' /\
    ((registrable [100] 512 16 0 (read (ram_device 0 8)) None /\ block_device_count (ram_table 8) < 16 /\
      r = block_device_count (ram_table 8) /\ block_device_count s' = r + 1 /\
      (exists d, rd (block_devices s') r = Some d /\ c_string (name d) (take 23 [100]) /\
         id d = r /\ sector_size d = 512 /\ sector_count d = 16 /\ writable d = 0 /\
         context d = 0 /\ read d = read (ram_device 0 8) /\ write d = None) /\
      (forall i, i <> r -> rd (block_devices s') i = rd (block_devices (ram_table 8)) i)) \/
     (~ (registrable [100] 512 16 0 (read (ram_device 0 8)) None /\
         block_device_count (ram_table 8) < 16) /\ s' = ram_table 8 /\ r = -1)).
Proof.
  apply (block_register_spec (ram_table 8) [100; 0] [100] 512 16 0 0 (read (ram_device 0 8)) None);
    [by apply ram_table_inv| |done|done].
  exists []. split; [done|]. by repeat constructor.
Defined.

Lemma ram_reliable dev n : reliable (ram_device dev n).
Proof. intros f w lba count data [= <-]. done. Qed.

(** ** A memory disk whose power is cut

    The world is a memory disk and the number of writes that are left: from then
    on every write reports an error and changes nothing. *)

Definition cut_device (dev sectors : Z) : block_device (gmap Z (list Z) * nat) :=
  {| id := dev; name := 114 :: 97 :: 109 :: replicate 21 0; sector_size := 512;
     sector_count := sectors; writable := 1; context := 0;
     read := Some (fun _ w lba count => (w, 0, ram_bytes w.1 lba (Z.to_nat count)));
     write := Some (fun _ w lba count data =>
       match w.2 with O => (w, -1) | S budget => ((ram_put w.1 lba (Z.to_nat count) data, budget), 0) end) |}.

Lemma cut_read_ok dev n w lba :
  0 <= lba < sector_count (cut_device dev n) ->
  exists f, read (cut_device dev n) = Some f /\ f (context (cut_device dev n)) w lba 1 = (w, 0, ram_sector w.1 lba).
Proof. intros _. eexists. split; [done|]. simpl. by rewrite app_nil_r. Qed.

Lemma cut_write_ok dev n w lba data :
  0 <= lba < sector_count (cut_device dev n) -> (512 <= length data)%nat -> all_bytes data ->
  writable (cut_device dev n) <> 0 ->
  exists f w' r, write (cut_device dev n) = Some f /\ f (context (cut_device dev n)) w lba 1 data = (w', r) /\
    (forall x, x <> lba -> ram_sector w'.1 x = ram_sector w.1 x) /\
    (ram_sector w'.1 lba = take 512 data \/ r <> 0 /\ ram_sector w'.1 lba = ram_sector w.1 lba).
Proof.
  intros Hlba Hlen Hb Hw. destruct w as [w [|budget]].
  - do 3 eexists. split; [done|]. split; [done|]. split; [done|]. by right.
  - destruct (ram_write_ok dev n w lba data Hlba Hlen Hb Hw) as (f & w' & r & [= <-] & [= <- <-] & H1 & H2).
    do 3 eexists. split; [done|]. split; [done|]. by split.
Qed.

#[export] Instance cut_store dev n : SectorStore (cut_device dev n) := {|
  sector w lba := ram_sector w.1 lba;
  sector_length w lba := proj1 (ram_sector_ok w.1 lba);
  sector_bytes w lba := proj2 (ram_sector_ok w.1 lba);
  read_sector := cut_read_ok dev n;
  write_sector := cut_write_ok dev n;
|}.

Lemma cut_unreliable dev n : ~ reliable (cut_device dev n).
Proof. intros H. by specialize (H _ (∅, 0%nat) 0 0 [] eq_refl). Qed.

Definition cut_table (sectors : Z) : block (gmap Z (list Z) * nat) :=
  {| block_devices := cut_device 0 sectors :: replicate 15 (cut_device 1 8); block_device_count := 1 |}.

Lemma cut_table_inv n : 0 < n < 2 ^ 64 -> block_inv (cut_table n).
Proof.
  intros Hn. constructor; [done| |simpl; lia|].
  - intros i d E. apply rd_Some in E as [_ E]. apply list_elem_of_lookup_2 in E.
    simpl in E. repeat (apply elem_of_cons in E as [->|E]; [done|]). by apply elem_of_nil in E.
  - intros i Hi. simpl in Hi. assert (i = 0) as -> by lia. eexists. split; [done|].
    constructor; try done.
    + exists [114; 97; 109]. eexists. split; [done|]. by repeat constructor.
    + exists 9. split; [lia|done].
Qed.
