(* ===== verification/Mvhfs.v ===== *)
(** * The on-disk file system: src/fs/mvhfs.c

    Two superblocks (sectors 0 and 1), two directory copies of four sectors
    (from sectors 2 and 6) and two copies of eight sectors per file (from sector
    10).  Every change writes the unused copies first and the superblock that
    makes them current last.

    The section is over a block table [s] and a driver world [W]; [devices],
    [junk] and [junk_entry] are the contents of the uninitialised arrays on the
    stack (device copies, sectors, entry backups). *)

From S2P Require Import Prelude Crc32 Buffer Block.

Definition MVHFS_MAX_FILES : Z := 32.
Definition MVHFS_NAME_MAX : Z := 32.
Definition MVHFS_FILE_MAX : Z := 4096.
Definition MVHFS_DIRECTORY_BYTES : Z := 2048.
Definition MVHFS_MIN_SECTORS : Z := 522.
Definition MVHFS_VERSION : Z := 1.
Definition MVHFS_SECTOR_SIZE : Z := 512.
Definition MVHFS_DIRECTORY_SECTORS : Z := 4.
Definition MVHFS_DIRECTORY0_LBA : Z := 2.
Definition MVHFS_DIRECTORY1_LBA : Z := 6.
Definition MVHFS_DATA_LBA : Z := 10.
Definition MVHFS_SECTORS_PER_COPY : Z := 8.
Definition MVHFS_ENTRY_SIZE : Z := 64.
Definition MVHFS_CLEAN_MARKER : Z := 3253357910. (* 0xC1EA4D56 *)

Definition mvhfs_magic : list Z := [77; 86; 72; 70; 83; 49; 13; 10].

Record mvhfs : Type := {
  device_id : Z;
  superblock_slot : Z;
  directory_slot : Z;
  generation : Z;
  mounted : Z;
  directory : list Z;
}.

Record mvhfs_entry : Type := {
  entry_name : list Z;
  entry_size : Z;
}.

Definition set_directory (fs : mvhfs) (d : list Z) : mvhfs :=
  {| device_id := device_id fs; superblock_slot := superblock_slot fs;
     directory_slot := directory_slot fs; generation := generation fs;
     mounted := mounted fs; directory := d |}.

Definition load32 (data : list Z) (o : Z) : option Z := get32 data o.
Definition load64 (data : list Z) (o : Z) : option Z := get64 data o.
Definition store32 (data : list Z) (o value : Z) : option (list Z) := put32 data o value.
Definition store64 (data : list Z) (o value : Z) : option (list Z) := put64 data o value.
Definition clear_bytes (data : list Z) (o size : Z) : option (list Z) := fill data o size 0.
Definition copy_bytes (destination : list Z) (o : Z) (source : list Z) (so size : Z)
    : option (list Z) := copy destination o source so size.

Definition bytes_equal (left : list Z) (lo : Z) (right : list Z) (ro size : Z) : option bool :=
  r ← for_break (Z.to_nat size) 0
    (fun index (_ : unit) =>
       a ← rd left (lo + index); b ← rd right (ro + index);
       Some (if negb (a =? b) then inr false else inl tt)) tt;
  Some (match r with inl _ => true | inr b => b end).

Definition directory_lba (slot : Z) : Z :=
  if slot =? 0 then MVHFS_DIRECTORY0_LBA else MVHFS_DIRECTORY1_LBA.

Definition data_lba (file slot : Z) : Z :=
  u64 (MVHFS_DATA_LBA + file * MVHFS_SECTORS_PER_COPY * 2 + slot * MVHFS_SECTORS_PER_COPY).

(** Pointers to an entry are offsets into the directory. *)
Definition entry_at (index : Z) : Z := u32 (index * MVHFS_ENTRY_SIZE).
Definition const_entry_at (index : Z) : Z := u32 (index * MVHFS_ENTRY_SIZE).

(** The loop ends when [length + 1] reaches [MVHFS_NAME_MAX] at the latest. *)
Definition valid_name (name : option (list Z)) : option bool :=
  match name with
  | None => Some false
  | Some name =>
    c ← rd name 0;
    if c =? 0 then Some false else
    while_loop (Z.to_nat MVHFS_NAME_MAX)
      (fun length =>
         c ← rd name length;
         if c =? 0 then Some (inr true)
         else if (MVHFS_NAME_MAX <=? length + 1) || (c =? 47) || (c =? 92)
         then Some (inr false)
         else Some (inl (length + 1)))
      0
  end.

Definition entry_name_equal (directory : list Z) (entry : Z) (name : list Z) : option bool :=
  used ← load32 directory (entry + 32);
  if used =? 0 then Some false else
  r ← for_break (Z.to_nat MVHFS_NAME_MAX) 0
    (fun index (_ : unit) =>
       a ← rd directory (entry + index); c ← rd name index;
       Some (if negb (a =? u8 c) then inr false
             else if c =? 0 then inr true
             else inl tt)) tt;
  Some (match r with inl _ => false | inr b => b end).

Definition find_entry (directory : list Z) (name : list Z) : option Z :=
  r ← for_break (Z.to_nat MVHFS_MAX_FILES) 0
    (fun index (_ : unit) =>
       e ← entry_name_equal directory (const_entry_at index) name;
       Some (if e : bool then inr index else inl tt)) tt;
  Some (match r with inl _ => -1 | inr index => index end).

Definition find_free (directory : list Z) : option Z :=
  r ← for_break (Z.to_nat MVHFS_MAX_FILES) 0
    (fun index (_ : unit) =>
       used ← load32 directory (const_entry_at index + 32);
       Some (if used =? 0 then inr index else inl tt)) tt;
  Some (match r with inl _ => -1 | inr index => index end).

Definition build_superblock (sector : list Z) (total_sectors generation directory_slot directory_crc : Z)
    : option (list Z) :=
  b ← clear_bytes sector 0 MVHFS_SECTOR_SIZE;
  b ← copy_bytes b 0 mvhfs_magic 0 8;
  b ← store32 b 8 MVHFS_VERSION;
  b ← store32 b 12 MVHFS_SECTOR_SIZE;
  b ← store64 b 16 total_sectors;
  b ← store64 b 24 generation;
  b ← store32 b 32 directory_slot;
  b ← store32 b 36 MVHFS_MAX_FILES;
  b ← store32 b 40 directory_crc;
  b ← store32 b 44 MVHFS_CLEAN_MARKER;
  b ← store32 b 52 MVHFS_DATA_LBA;
  b ← store32 b 56 MVHFS_SECTORS_PER_COPY;
  c ← crc32 (Some b) MVHFS_SECTOR_SIZE;
  store32 b 48 c.

(** The status, and the sector with its checksum field cleared. *)
Definition validate_superblock {W} (sector : list Z) (device : block_device W)
    : option (Z * list Z) :=
  m ← bytes_equal sector 0 mvhfs_magic 0 8;
  version ← load32 sector 8;
  size ← load32 sector 12;
  total ← load64 sector 16;
  slot ← load32 sector 32;
  files ← load32 sector 36;
  clean ← load32 sector 44;
  data ← load32 sector 52;
  per_copy ← load32 sector 56;
  if negb m || negb (version =? MVHFS_VERSION) || negb (size =? MVHFS_SECTOR_SIZE) ||
     (sector_count device <? total) || (total <? MVHFS_MIN_SECTORS) || (1 <? slot) ||
     negb (files =? MVHFS_MAX_FILES) || negb (clean =? MVHFS_CLEAN_MARKER) ||
     negb (data =? MVHFS_DATA_LBA) || negb (per_copy =? MVHFS_SECTORS_PER_COPY)
  then Some (-1, sector)
  else
    expected_crc ← load32 sector 48;
    sector ← store32 sector 48 0;
    c ← crc32 (Some sector) MVHFS_SECTOR_SIZE;
    Some (if c =? expected_crc then 0 else -1, sector).

Section operations.
Context {W : Type} (s : block W).
Variable (devices : list (block_device W)) (junk junk_entry : list Z).

Definition device_info (device_id : Z) : option (option (block_device W)) :=
  '(array, count) ← block_list s (Some devices) BLOCK_DEVICE_MAX;
  array ← array;
  r ← for_break (Z.to_nat count) 0
    (fun index (_ : unit) =>
       d ← rd array index;
       Some (if id d =? device_id then inr d else inl tt)) tt;
  Some (match r with inl _ => None | inr d => Some d end).

(** The world, the status and the directory buffer. *)
Definition read_directory (w : W) (device_id slot : Z) (directory : list Z) (expected_crc : Z)
    : option (W * Z * list Z) :=
  r ← for_break (Z.to_nat MVHFS_DIRECTORY_SECTORS) 0
    (fun sector '(w, directory) =>
       '(w, status, directory) ← block_read s w device_id (u64 (directory_lba slot + sector)) 1
                                   (Some (directory, sector * MVHFS_SECTOR_SIZE));
       Some (if negb (status =? 0) then inr (w, directory) else inl (w, directory)))
    (w, directory);
  match r with
  | inr (w, directory) => Some (w, -1, directory)
  | inl (w, directory) =>
    c ← crc32 (Some directory) MVHFS_DIRECTORY_BYTES;
    Some (w, if c =? expected_crc then 0 else -1, directory)
  end.

Definition mount_from_superblock (w : W) (fs : mvhfs) (device_id' superblock_slot' : Z)
    (superblock : list Z) : option (W * Z * mvhfs) :=
  slot ← load32 superblock 32;
  crc ← load32 superblock 40;
  '(w, status, d) ← read_directory w device_id' slot (directory fs) crc;
  if negb (status =? 0) then Some (w, -1, set_directory fs d) else
  g ← load64 superblock 24;
  Some (w, 0, {| device_id := device_id'; superblock_slot := superblock_slot';
                 directory_slot := slot; generation := g; mounted := 1; directory := d |}).

Definition commit_directory (w : W) (fs : mvhfs) : option (W * Z * mvhfs) :=
  let new_directory_slot := directory_slot fs ^^^ 1 in
  let new_superblock_slot := superblock_slot fs ^^^ 1 in
  found ← device_info (device_id fs);
  match found with
  | None => Some (w, -1, fs)
  | Some device =>
    r ← for_break (Z.to_nat MVHFS_DIRECTORY_SECTORS) 0
      (fun sector w =>
         '(w, status) ← block_write s w (device_id fs)
                          (u64 (directory_lba new_directory_slot + sector)) 1
                          (Some (directory fs, sector * MVHFS_SECTOR_SIZE));
         Some (if negb (status =? 0) then inr w else inl w)) w;
    match r with
    | inr w => Some (w, -1, fs)
    | inl w =>
      crc ← crc32 (Some (directory fs)) MVHFS_DIRECTORY_BYTES;
      superblock ← build_superblock junk (sector_count device) (u64 (generation fs + 1))
                     new_directory_slot crc;
      '(w, status) ← block_write s w (device_id fs) new_superblock_slot 1 (Some (superblock, 0));
      if negb (status =? 0) then Some (w, -1, fs)
      else Some (w, 0, {| device_id := device_id fs; superblock_slot := new_superblock_slot;
                          directory_slot := new_directory_slot;
                          generation := u64 (generation fs + 1); mounted := mounted fs;
                          directory := directory fs |})
    end
  end.

Definition mvhfs_format (w : W) (device_id : Z) : option (W * Z) :=
  found ← device_info device_id;
  match found with
  | None => Some (w, -1)
  | Some device =>
    if negb (sector_size device =? MVHFS_SECTOR_SIZE) ||
       (sector_count device <? MVHFS_MIN_SECTORS) || (writable device =? 0)
    then Some (w, -1)
    else
      sector ← clear_bytes junk 0 MVHFS_SECTOR_SIZE;
      zero_crc ← for_loop (Z.to_nat MVHFS_DIRECTORY_SECTORS) 0
        (fun _ crc => crc32_update crc (Some sector) MVHFS_SECTOR_SIZE) 0;
      r ← for_break (Z.to_nat (MVHFS_DIRECTORY_SECTORS * 2)) 0
        (fun index w =>
           '(w, status) ← block_write s w device_id (MVHFS_DIRECTORY0_LBA + index) 1
                            (Some (sector, 0));
           Some (if negb (status =? 0) then inr w else inl w)) w;
      match r with
      | inr w => Some (w, -1)
      | inl w =>
        sector ← build_superblock sector (sector_count device) 0 1 zero_crc;
        '(w, status) ← block_write s w device_id 1 1 (Some (sector, 0));
        if negb (status =? 0) then Some (w, -1) else
        sector ← build_superblock sector (sector_count device) 1 0 zero_crc;
        block_write s w device_id 0 1 (Some (sector, 0))
      end
  end.

(** Read and validate superblock [lba]: the world, the verdict and the buffer. *)
Definition load_superblock (w : W) (device_id lba : Z) (device : block_device W)
    : option (W * bool * list Z) :=
  '(w, status, sector) ← block_read s w device_id lba 1 (Some (junk, 0));
  if negb (status =? 0) then Some (w, false, sector) else
  '(verdict, sector) ← validate_superblock sector device;
  Some (w, verdict =? 0, sector).

Definition mvhfs_mount (w : W) (filesystem : option mvhfs) (device_id' : Z)
    : option (W * Z * option mvhfs) :=
  match filesystem with
  | None => Some (w, -1, None)
  | Some fs =>
    found ← device_info device_id';
    match found with
    | None => Some (w, -1, Some fs)
    | Some device =>
      if negb (sector_size device =? MVHFS_SECTOR_SIZE) ||
         (sector_count device <? MVHFS_MIN_SECTORS)
      then Some (w, -1, Some fs) else
      let fs := {| device_id := device_id fs; superblock_slot := superblock_slot fs;
                   directory_slot := directory_slot fs; generation := generation fs;
                   mounted := 0; directory := directory fs |} in
      '(w, first_valid, first) ← load_superblock w device_id' 0 device;
      '(w, second_valid, second) ← load_superblock w device_id' 1 device;
      if negb first_valid && negb second_valid then Some (w, -1, Some fs) else
      g1 ← load64 first 24; g2 ← load64 second 24;
      if first_valid && (negb second_valid || (g2 <=? g1)) then
        '(w, status, fs) ← mount_from_superblock w fs device_id' 0 first;
        if status =? 0 then Some (w, 0, Some fs) else
        if second_valid : bool then
          '(w, status, fs) ← mount_from_superblock w fs device_id' 1 second;
          Some (w, status, Some fs)
        else Some (w, -1, Some fs)
      else
        '(w, status, fs) ← mount_from_superblock w fs device_id' 1 second;
        if status =? 0 then Some (w, 0, Some fs) else
        if first_valid : bool then
          '(w, status, fs) ← mount_from_superblock w fs device_id' 0 first;
          Some (w, status, Some fs)
        else Some (w, -1, Some fs)
    end
  end.

(** Undo a change of an entry after a failed commit. *)
Definition commit_or_restore (w : W) (fs : mvhfs) (entry : Z) (backup : list Z)
    : option (W * Z * option mvhfs) :=
  '(w, status, fs) ← commit_directory w fs;
  if negb (status =? 0) then
    d ← copy_bytes (directory fs) entry backup 0 MVHFS_ENTRY_SIZE;
    Some (w, -1, Some (set_directory fs d))
  else Some (w, 0, Some fs).

(** The loop over the characters of the name ends at its terminator. *)
Definition mvhfs_create (w : W) (filesystem : option mvhfs) (name : option (list Z))
    : option (W * Z * option mvhfs) :=
  match filesystem with
  | None => Some (w, -1, None)
  | Some fs =>
    if mounted fs =? 0 then Some (w, -1, filesystem) else
    ok ← valid_name name;
    if negb ok then Some (w, -1, filesystem) else
    name ← name;
    existing ← find_entry (directory fs) name;
    if 0 <=? existing then Some (w, -1, filesystem) else
    slot ← find_free (directory fs);
    if slot <? 0 then Some (w, -1, filesystem) else
    let entry := entry_at slot in
    backup ← copy_bytes junk_entry 0 (directory fs) entry MVHFS_ENTRY_SIZE;
    d ← clear_bytes (directory fs) entry MVHFS_ENTRY_SIZE;
    d ← while_loop (S (length name))
      (fun '(d, index) =>
         c ← rd name index;
         if c =? 0 then Some (inr d)
         else d ← wr d (entry + index) (u8 c); Some (inl (d, u32 (index + 1))))
      (d, 0);
    d ← store32 d (entry + 32) 1;
    d ← store32 d (entry + 36) 0;
    d ← store32 d (entry + 40) 0;
    d ← store32 d (entry + 44) 0;
    commit_or_restore w (set_directory fs d) entry backup
  end.

(** The loop that writes the eight sectors of a copy: [inr] on an I/O error. *)
Definition write_copy (w : W) (device_id lba : Z) (data : option (list Z)) (size : Z)
    : option ((W * Z) + W) :=
  for_break (Z.to_nat MVHFS_SECTORS_PER_COPY) 0
    (fun sector_index '(w, offset) =>
       let chunk := if MVHFS_SECTOR_SIZE <? u32 (size - offset) then MVHFS_SECTOR_SIZE
                    else u32 (size - offset) in
       sector ← clear_bytes junk 0 MVHFS_SECTOR_SIZE;
       sector ← (if negb (chunk =? 0) then input ← data; copy_bytes sector 0 input offset chunk
                 else Some sector);
       '(w, status) ← block_write s w device_id (u64 (lba + sector_index)) 1 (Some (sector, 0));
       Some (if negb (status =? 0) then inr w else inl (w, u32 (offset + chunk))))
    (w, 0).

Definition mvhfs_write (w : W) (filesystem : option mvhfs) (name : option (list Z))
    (data : option (list Z)) (size : Z) : option (W * Z * option mvhfs) :=
  match filesystem with
  | None => Some (w, -1, None)
  | Some fs =>
    if mounted fs =? 0 then Some (w, -1, filesystem) else
    ok ← valid_name name;
    if negb ok || (MVHFS_FILE_MAX <? size) || (is_null data && negb (size =? 0))
    then Some (w, -1, filesystem) else
    name ← name;
    file ← find_entry (directory fs) name;
    if file <? 0 then Some (w, -1, filesystem) else
    let entry := entry_at file in
    backup ← copy_bytes junk_entry 0 (directory fs) entry MVHFS_ENTRY_SIZE;
    active_slot ← load32 (directory fs) (entry + 44);
    let new_slot := active_slot ^^^ 1 in
    r ← write_copy w (device_id fs) (data_lba file new_slot) data size;
    match r with
    | inr w => Some (w, -1, filesystem)
    | inl (w, _) =>
      d ← store32 (directory fs) (entry + 36) size;
      c ← crc32 data size;
      d ← store32 d (entry + 40) c;
      d ← store32 d (entry + 44) new_slot;
      commit_or_restore w (set_directory fs d) entry backup
    end
  end.

(** The loop of [mvhfs_read] runs once per sector of the file, at most eight
    times; [inr] is an I/O error. *)
Definition read_copy (w : W) (device_id lba : Z) (file_size : Z) (output : option (list Z))
    : option ((W * Z * option (list Z)) + (W * option (list Z))) :=
  while_loop (S (Z.to_nat file_size))
    (fun '(w, sector, sector_index, offset, checksum, output) =>
       if offset <? file_size then
         let chunk := if MVHFS_SECTOR_SIZE <? u32 (file_size - offset) then MVHFS_SECTOR_SIZE
                      else u32 (file_size - offset) in
         '(w, status, sector) ← block_read s w device_id (u64 (lba + sector_index)) 1
                                  (Some (sector, 0));
         if negb (status =? 0) then Some (inr (inr (w, output))) else
         checksum ← crc32_update checksum (Some sector) chunk;
         array ← output;
         array ← copy_bytes array offset sector 0 chunk;
         Some (inl (w, sector, u32 (sector_index + 1), u32 (offset + chunk), checksum, Some array))
       else Some (inr (inl (w, checksum, output))))
    (w, junk, 0, 0, 0, output).

(** The result: the world, the status, [*size] ([None] for a null pointer) and
    the caller's buffer after the call. *)
Definition mvhfs_read (w : W) (filesystem : option mvhfs) (name : option (list Z))
    (buffer : option (list Z)) (capacity : Z) (size : option Z)
    : option (W * Z * option Z * option (list Z)) :=
  match filesystem with
  | None => Some (w, -1, size, buffer)
  | Some fs =>
    if mounted fs =? 0 then Some (w, -1, size, buffer) else
    ok ← valid_name name;
    if negb ok || is_null size then Some (w, -1, size, buffer) else
    name ← name;
    file ← find_entry (directory fs) name;
    if file <? 0 then Some (w, -1, size, buffer) else
    let entry := const_entry_at file in
    file_size ← load32 (directory fs) (entry + 36);
    let size := Some file_size in
    if (MVHFS_FILE_MAX <? file_size) || (capacity <? file_size) ||
       (is_null buffer && negb (file_size =? 0))
    then Some (w, -2, size, buffer) else
    active_slot ← load32 (directory fs) (entry + 44);
    if 1 <? active_slot then Some (w, -3, size, buffer) else
    r ← read_copy w (device_id fs) (data_lba file active_slot) file_size buffer;
    match r with
    | inr (w, buffer) => Some (w, -1, size, buffer)
    | inl (w, checksum, buffer) =>
      crc ← load32 (directory fs) (entry + 40);
      Some (w, if checksum =? crc then 0 else -3, size, buffer)
    end
  end.

Definition mvhfs_remove (w : W) (filesystem : option mvhfs) (name : option (list Z))
    : option (W * Z * option mvhfs) :=
  match filesystem with
  | None => Some (w, -1, None)
  | Some fs =>
    if mounted fs =? 0 then Some (w, -1, filesystem) else
    ok ← valid_name name;
    if negb ok then Some (w, -1, filesystem) else
    name ← name;
    file ← find_entry (directory fs) name;
    if file <? 0 then Some (w, -1, filesystem) else
    let entry := entry_at file in
    backup ← copy_bytes junk_entry 0 (directory fs) entry MVHFS_ENTRY_SIZE;
    d ← clear_bytes (directory fs) entry MVHFS_ENTRY_SIZE;
    commit_or_restore w (set_directory fs d) entry backup
  end.

End operations.

(** The number of files, and the caller's array after the call. *)
Definition mvhfs_list (filesystem : option mvhfs) (entries : option (list mvhfs_entry)) (capacity : Z)
    : option (Z * option (list mvhfs_entry)) :=
  match filesystem with
  | None => Some (0, entries)
  | Some fs =>
    if mounted fs =? 0 then Some (0, entries) else
    for_loop (Z.to_nat MVHFS_MAX_FILES) 0
      (fun index '(count, entries) =>
         let entry := const_entry_at index in
         used ← load32 (directory fs) (entry + 32);
         if used =? 0 then Some (count, entries) else
         entries ← match entries with
                   | None => Some None
                   | Some array =>
                     if count <? capacity then
                       e ← rd array count;
                       name ← copy_bytes (entry_name e) 0 (directory fs) entry MVHFS_NAME_MAX;
                       size ← load32 (directory fs) (entry + 36);
                       array ← wr array count {| entry_name := name; entry_size := size |};
                       Some (Some array)
                     else Some entries
                   end;
         Some (u32 (count + 1), entries))
      (0, entries)
  end.
