(* ===== verification/MvhfsFormat.v ===== *)
(** * MVHFS: the superblock format

    What [build_superblock] writes, and that [validate_superblock] accepts it
    with the same fields. *)

From S2P Require Import Prelude Crc32 Buffer Block Mvhfs.

(** ** Superblocks *)

(** A superblock with checksum field [c], in three parts: what comes before the
    checksum, the checksum and what comes after it. *)
Definition image_head (total gen slot crc : Z) : list Z :=
  mvhfs_magic ++ le_bytes 4 MVHFS_VERSION ++ le_bytes 4 MVHFS_SECTOR_SIZE ++ le_bytes 8 total ++
  le_bytes 8 gen ++ le_bytes 4 slot ++ le_bytes 4 MVHFS_MAX_FILES ++ le_bytes 4 crc ++
  le_bytes 4 MVHFS_CLEAN_MARKER.

Definition image_tail : list Z :=
  le_bytes 4 MVHFS_DATA_LBA ++ le_bytes 4 MVHFS_SECTORS_PER_COPY ++ replicate 452 0.

Definition superblock_image (c total gen slot crc : Z) : list Z :=
  image_head total gen slot crc ++ le_bytes 4 c ++ image_tail.

Definition superblock (total gen slot crc : Z) : list Z :=
  superblock_image (crc_of (superblock_image 0 total gen slot crc)) total gen slot crc.

Arguments le_bytes : simpl never.

Lemma head_length total gen slot crc : length (image_head total gen slot crc) = 48%nat.
Proof. unfold image_head. by rewrite !length_app, !length_le_bytes. Qed.

Lemma image_length c total gen slot crc : length (superblock_image c total gen slot crc) = 512%nat.
Proof.
  unfold superblock_image, image_tail.
  by rewrite !length_app, head_length, !length_le_bytes, length_replicate.
Qed.

Lemma image_bytes c total gen slot crc : all_bytes (superblock_image c total gen slot crc).
Proof.
  unfold superblock_image, image_head, image_tail, all_bytes. rewrite !Forall_app.
  split_and!; try apply le_bytes_bytes; [by repeat constructor|by apply Forall_replicate].
Qed.

Lemma clear_buffer b : length b = 512%nat -> clear_bytes b 0 MVHFS_SECTOR_SIZE = Some zero_sector.
Proof.
  intros Hl. unfold clear_bytes. rewrite fill_spec by (unfold room, MVHFS_SECTOR_SIZE; lia).
  unfold splice. rewrite (drop_ge b); [by rewrite app_nil_r|].
  rewrite length_replicate. unfold MVHFS_SECTOR_SIZE. lia.
Qed.

(** Store the next field of a cleared buffer, [n] bytes of which stay clear. *)
Ltac next_field32 n :=
  eapply bind_step;
  [apply (put32_append _ (n + 4)); [rewrite ?length_app, ?length_le_bytes; reflexivity|lia]|];
  rewrite Nat.add_sub.
Ltac next_field64 n :=
  eapply bind_step;
  [apply (put64_append _ (n + 8)); [rewrite ?length_app, ?length_le_bytes; reflexivity|lia]|];
  rewrite Nat.add_sub.

Lemma put_magic : copy_bytes zero_sector 0 mvhfs_magic 0 8 = Some (mvhfs_magic ++ replicate 504 0).
Proof.
  unfold copy_bytes. rewrite copy_spec.
  - apply (f_equal Some). rewrite slice_all by done. apply (splice_append [] 512 0); simpl; lia.
  - unfold room, zero_sector. rewrite length_replicate. lia.
  - unfold room. simpl. lia.
Qed.

Lemma image_flat c total gen slot crc :
  superblock_image c total gen slot crc =
  mvhfs_magic ++ le_bytes 4 MVHFS_VERSION ++ le_bytes 4 MVHFS_SECTOR_SIZE ++ le_bytes 8 total ++
  le_bytes 8 gen ++ le_bytes 4 slot ++ le_bytes 4 MVHFS_MAX_FILES ++ le_bytes 4 crc ++
  le_bytes 4 MVHFS_CLEAN_MARKER ++ le_bytes 4 c ++ le_bytes 4 MVHFS_DATA_LBA ++
  le_bytes 4 MVHFS_SECTORS_PER_COPY ++ replicate 452 0.
Proof. unfold superblock_image, image_head, image_tail. by rewrite <- !app_assoc. Qed.

Lemma put_checksum c total gen slot crc :
  put32 (superblock_image 0 total gen slot crc) 48 c = Some (superblock_image c total gen slot crc).
Proof.
  rewrite put32_spec by (unfold room; rewrite image_length; lia). apply (f_equal Some).
  unfold superblock_image.
  apply splice_middle; [by rewrite head_length|by rewrite !length_le_bytes].
Qed.

Lemma image_crc c total gen slot crc :
  crc32 (Some (superblock_image c total gen slot crc)) MVHFS_SECTOR_SIZE =
  Some (crc_of (superblock_image c total gen slot crc)).
Proof.
  rewrite crc32_crc_of by (rewrite image_length; unfold MVHFS_SECTOR_SIZE; lia).
  rewrite take_ge; [done|]. rewrite image_length. unfold MVHFS_SECTOR_SIZE. lia.
Qed.

Lemma skip_field pre : pre ++ replicate 464 0 = (pre ++ le_bytes 4 0) ++ replicate 460 0.
Proof. rewrite <- app_assoc. reflexivity. Qed.

Lemma build_superblock_spec b total gen slot crc :
  length b = 512%nat -> build_superblock b total gen slot crc = Some (superblock total gen slot crc).
Proof.
  intros Hl. eapply bind_step; [by apply clear_buffer|]. eapply bind_step; [apply put_magic|].
  next_field32 500%nat. next_field32 496%nat. next_field64 488%nat. next_field64 480%nat.
  next_field32 476%nat. next_field32 472%nat. next_field32 468%nat. next_field32 464%nat.
  rewrite skip_field. next_field32 456%nat. next_field32 452%nat.
  rewrite <- !app_assoc, <- image_flat.
  eapply bind_step; [apply image_crc|]. unfold superblock, store32. rewrite put_checksum. reflexivity.
Qed.

Lemma bytes_equal_spec left lo right ro n :
  room left lo n -> room right ro n ->
  bytes_equal left lo right ro n = Some (bool_decide (slice left lo n = slice right ro n)).
Proof.
  intros Hl Hr. unfold bytes_equal.
  match goal with |- context [for_break _ _ ?loop_body _] =>
  destruct (for_break_rule
    (fun i (_ : unit) => 0 <= i /\ forall j, 0 <= j < i -> rd left (lo + j) = rd right (ro + j))
    (fun b : bool => b = false /\ slice left lo n <> slice right ro n)
    (Z.to_nat n) 0 loop_body tt) as [([] & -> & _ & H)|(b & -> & -> & H)] end.
  - split; [lia|]. intros j Hj. lia.
  - intros i [] Hi (Hi0 & H). unfold room in *.
    destruct (rd_ok left (lo + i) ltac:(lia)) as (a & Ea).
    destruct (rd_ok right (ro + i) ltac:(lia)) as (b & Eb). rewrite Ea, Eb. cbn [mbind option_bind].
    destruct (Z.eqb_spec a b) as [->|Hne]; simpl negb; cbn match.
    + left. exists tt. split; [done|]. split; [lia|]. intros j Hj.
      destruct (Z.eq_dec j i) as [->|]; [by rewrite Ea, Eb|]. apply H. lia.
    + right. exists false. split; [done|]. split; [done|]. intros E. apply Hne.
      pose proof (rd_slice left lo n i) as R1. pose proof (rd_slice right ro n i) as R2.
      rewrite E in R1. rewrite R1 in R2 by (unfold room; lia).
      rewrite (proj2 (Z.leb_le 0 i)), (proj2 (Z.ltb_lt i n)), Ea, Eb in R2 by lia.
      specialize (R2 ltac:(unfold room; lia)). by injection R2.
  - cbn [mbind option_bind]. rewrite bool_decide_eq_true_2; [done|].
    apply rd_eq; [by rewrite !length_slice|]. intros i Hi. rewrite length_slice in Hi by done.
    rewrite !rd_slice by done. destruct (_ && _); [|done]. apply H. unfold room in *. lia.
  - cbn [mbind option_bind]. by rewrite bool_decide_eq_false_2.
Qed.

(** What [validate_superblock] accepts. *)
Record superblock_ok (count : Z) (sec : list Z) : Prop := {
  ok_magic : slice sec 0 8 = mvhfs_magic;
  ok_version : field sec 8 4 = MVHFS_VERSION;
  ok_sector : field sec 12 4 = MVHFS_SECTOR_SIZE;
  ok_total : MVHFS_MIN_SECTORS <= field sec 16 8 <= count;
  ok_slot : 0 <= field sec 32 4 <= 1;
  ok_files : field sec 36 4 = MVHFS_MAX_FILES;
  ok_clean : field sec 44 4 = MVHFS_CLEAN_MARKER;
  ok_data : field sec 52 4 = MVHFS_DATA_LBA;
  ok_copy : field sec 56 4 = MVHFS_SECTORS_PER_COPY;
  ok_crc : crc_of (splice sec 48 (le_bytes 4 0)) = field sec 48 4;
}.

(** Validation leaves the fields before the checksum alone. *)
Definition same_head (a b : list Z) : Prop :=
  length a = 512%nat /\ all_bytes a /\
  forall o n, 0 <= o -> 0 <= n -> o + n <= 48 -> field a o n = field b o n.

Lemma validate_spec {W} (d : block_device W) sec :
  length sec = 512%nat -> all_bytes sec ->
  exists sec', same_head sec' sec /\
    ((superblock_ok (sector_count d) sec /\ validate_superblock sec d = Some (0, sec')) \/
     (~ superblock_ok (sector_count d) sec /\ validate_superblock sec d = Some (-1, sec'))).
Proof.
  intros Hl Hb. assert (forall o n, 0 <= o -> 0 <= n -> o + n <= 512 -> room sec o n) as R
    by (unfold room; lia).
  unfold validate_superblock. rewrite bytes_equal_spec by (apply R || done; lia).
  rewrite (slice_all mvhfs_magic) by done. unfold load32, load64.
  rewrite !get32_spec, !get64_spec by (done || apply R; lia). cbn [mbind option_bind].
  fold (field sec 8 4) (field sec 12 4) (field sec 16 8) (field sec 32 4) (field sec 36 4)
    (field sec 44 4) (field sec 52 4) (field sec 56 4) (field sec 48 4).
  pose proof (field_fits sec 32 4 Hb ltac:(apply R; lia)) as F32.
  match goal with |- context [if ?c then Some (-1, sec) else _] => destruct c eqn:G end.
  - exists sec. split; [by split_and!|]. right. split; [|done]. intros [].
    apply not_false_iff_true in G. apply G. rewrite bool_decide_eq_true_2 by done. guard_false.
  - rewrite !orb_false_iff in G. destruct G as (((((((((G1 & ?) & ?) & ?) & ?) & ?) & ?) & ?) & ?) & ?).
    apply negb_false_iff, bool_decide_eq_true_1 in G1. bool_to_prop.
    unfold store32. rewrite put32_spec by (apply R; lia). cbn [mbind option_bind].
    assert (room sec 48 (Z.of_nat (length (le_bytes 4 0)))) as R48 by (apply R; rewrite ?length_le_bytes; lia).
    pose proof (length_splice sec 48 _ R48) as L.
    rewrite crc32_crc_of by (unfold MVHFS_SECTOR_SIZE; lia). rewrite take_ge by (unfold MVHFS_SECTOR_SIZE; lia).
    cbn [mbind option_bind]. exists (splice sec 48 (le_bytes 4 0)). split.
    + split_and!; [lia|by apply all_bytes_splice, le_bytes_bytes|]. intros o n Ho Hn Hon.
      apply field_put_ne; [done|apply R; lia|lia].
    + destruct (Z.eqb_spec (crc_of (splice sec 48 (le_bytes 4 0))) (field sec 48 4)).
      * left. split; [|done]. constructor; (done || lia).
      * right. split; [|done]. intros []. done.
Qed.

(** Find a field of an image by walking over the ones before it. *)
Ltac image_field :=
  unfold field; rewrite image_flat;
  repeat (rewrite slice_skip by (rewrite ?length_le_bytes; simpl; lia));
  rewrite slice_here by (rewrite ?length_le_bytes; simpl; lia);
  apply le_value_le_bytes.

Lemma image_total c total gen slot crc : field (superblock_image c total gen slot crc) 16 8 = total mod 256 ^ 8.
Proof. image_field. Qed.

Lemma image_generation c total gen slot crc : field (superblock_image c total gen slot crc) 24 8 = gen mod 256 ^ 8.
Proof. image_field. Qed.

Lemma image_slot c total gen slot crc : field (superblock_image c total gen slot crc) 32 4 = slot mod 256 ^ 4.
Proof. image_field. Qed.

Lemma image_dir_crc c total gen slot crc : field (superblock_image c total gen slot crc) 40 4 = crc mod 256 ^ 4.
Proof. image_field. Qed.

Lemma image_checksum c total gen slot crc : field (superblock_image c total gen slot crc) 48 4 = c mod 256 ^ 4.
Proof. image_field. Qed.

Lemma image_constants c total gen slot crc :
  let i := superblock_image c total gen slot crc in
  slice i 0 8 = mvhfs_magic /\ field i 8 4 = MVHFS_VERSION /\ field i 12 4 = MVHFS_SECTOR_SIZE /\
  field i 36 4 = MVHFS_MAX_FILES /\ field i 44 4 = MVHFS_CLEAN_MARKER /\
  field i 52 4 = MVHFS_DATA_LBA /\ field i 56 4 = MVHFS_SECTORS_PER_COPY.
Proof.
  intros i. unfold i. split_and!; [rewrite image_flat; apply slice_here; done|..];
    (etrans; [image_field|reflexivity]).
Qed.

Lemma image_clear c total gen slot crc :
  splice (superblock_image c total gen slot crc) 48 (le_bytes 4 0) = superblock_image 0 total gen slot crc.
Proof.
  unfold superblock_image. apply splice_middle; [by rewrite head_length|by rewrite !length_le_bytes].
Qed.

(** What [build_superblock] builds, [validate_superblock] accepts. *)
Lemma superblock_valid count total gen slot crc :
  MVHFS_MIN_SECTORS <= total <= count -> total < 2 ^ 64 -> 0 <= slot <= 1 ->
  superblock_ok count (superblock total gen slot crc).
Proof.
  intros Ht H64 Hs. unfold superblock. set (c := crc_of _).
  assert (fits 32 c) as Hc by apply crc_of_fits, image_bytes.
  destruct (image_constants c total gen slot crc) as (H0 & H1 & H2 & H3 & H4 & H5 & H6).
  constructor; [exact H0|exact H1|exact H2| | |exact H3|exact H4|exact H5|exact H6|].
  - rewrite image_total, Z.mod_small; [done|]. change (256 ^ 8) with (2 ^ 64). unfold MVHFS_MIN_SECTORS in *. lia.
  - rewrite image_slot, Z.mod_small; lia.
  - rewrite image_clear, image_checksum, Z.mod_small; [reflexivity|exact Hc].
Qed.

Lemma superblock_length total gen slot crc : length (superblock total gen slot crc) = 512%nat.
Proof. unfold superblock. apply image_length. Qed.

Lemma superblock_bytes total gen slot crc : all_bytes (superblock total gen slot crc).
Proof. unfold superblock. apply image_bytes. Qed.

Lemma sb_generation total gen slot crc : fits 64 gen -> field (superblock total gen slot crc) 24 8 = gen.
Proof. intros H. unfold superblock. rewrite image_generation. by apply Z.mod_small. Qed.

Lemma sb_slot total gen slot crc : fits 32 slot -> field (superblock total gen slot crc) 32 4 = slot.
Proof. intros H. unfold superblock. rewrite image_slot. by apply Z.mod_small. Qed.

Lemma sb_crc total gen slot crc : fits 32 crc -> field (superblock total gen slot crc) 40 4 = crc.
Proof. intros H. unfold superblock. rewrite image_dir_crc. by apply Z.mod_small. Qed.

#[global] Opaque superblock superblock_image.
