(* ===== verification/MvhfsDirectory.v ===== *)
(** * MVHFS: names and directory entries

    The pure part of the directory: what [valid_name], [entry_name_equal],
    [find_entry] and [find_free] compute on a directory image, and how an update
    of one entry leaves the others alone. *)

From S2P Require Import Prelude Crc32 Buffer Block Mvhfs.

(** ** Names *)

Definition name_char (c : Z) : bool := negb (c =? 47) && negb (c =? 92).

Definition name_ok (nm : list Z) : bool :=
  negb (length nm =? 0)%nat && (length nm <? 32)%nat && forallb name_char nm.

(** A C string of bytes. *)
Definition name_string (array nm : list Z) : Prop := c_string array nm /\ all_bytes nm.

Lemma name_rd array nm i :
  name_string array nm -> 0 <= i < Z.of_nat (length nm) ->
  exists c, rd array i = Some c /\ nm !! Z.to_nat i = Some c /\ c <> 0 /\ fits 8 c.
Proof.
  intros [(rest & -> & Hnz) Hb] Hi. destruct (rd_ok nm i ltac:(lia)) as (c & E). exists c.
  rewrite rd_app, (proj2 (Z.ltb_lt _ _)) by lia. apply rd_Some in E as E'. destruct E' as [_ E'].
  split_and!; [done|done|apply (Forall_lookup_1 _ _ _ _ Hnz E')|apply (Forall_lookup_1 _ _ _ _ Hb E')].
Qed.

Lemma name_rd_end array nm : name_string array nm -> rd array (Z.of_nat (length nm)) = Some 0.
Proof. intros [(rest & -> & _) _]. by rewrite rd_app, Z.ltb_irrefl, Z.sub_diag. Qed.

Lemma valid_name_spec array nm : name_string array nm -> valid_name (Some array) = Some (name_ok nm).
Proof.
  intros Hn. unfold valid_name. destruct (decide (nm = [])) as [->|Hnil].
  { pose proof (name_rd_end array [] Hn) as E. change (Z.of_nat (length [])) with 0 in E. by rewrite E. }
  assert (0 < Z.of_nat (length nm)) as Hpos by (destruct nm; simpl; [done|lia]).
  destruct (name_rd array nm 0 Hn ltac:(lia)) as (c & E & _ & Hc & _). rewrite E. cbn [mbind option_bind].
  rewrite (proj2 (Z.eqb_neq c 0)) by done. cbn match.
  match goal with |- context [while_loop _ ?loop_body _] =>
  destruct (while_loop_rule
    (fun i => 0 <= i <= Z.of_nat (length nm) /\ i <= 31 /\ forallb name_char (take (Z.to_nat i) nm) = true)
    (fun r => r = name_ok nm) (fun i => Z.to_nat (31 - i)) (Z.to_nat MVHFS_NAME_MAX) loop_body 0)
    as (r & -> & ->) end.
  - split_and!; (lia || done).
  - unfold MVHFS_NAME_MAX. lia.
  - intros i (Hi & Hi31 & Hf). unfold MVHFS_NAME_MAX.
    destruct (Z.eq_dec i (Z.of_nat (length nm))) as [->|Hne].
    + rewrite (name_rd_end array nm Hn). right. exists true. split; [done|]. unfold name_ok.
      rewrite take_ge in Hf by lia. rewrite Hf.
      rewrite (proj2 (Nat.eqb_neq _ _)), (proj2 (Nat.ltb_lt _ _)) by lia. done.
    + destruct (name_rd array nm i Hn ltac:(lia)) as (x & -> & Ex & Hx & _). cbn [mbind option_bind].
      rewrite (proj2 (Z.eqb_neq x 0)) by done. cbn match.
      destruct (Z.leb_spec 32 (i + 1)) as [H32|H32]; cbn [orb]; cbn match.
      { right. exists false. split; [done|]. unfold name_ok.
        rewrite (proj2 (Nat.ltb_ge _ _)) by lia. by rewrite andb_false_r. }
      destruct ((x =? 47) || (x =? 92)) eqn:Eb; [right|left].
      * exists false. split; [done|]. unfold name_ok.
        assert (forallb name_char nm = false) as ->; [|by rewrite andb_false_r].
        rewrite <- (take_drop_middle nm _ _ Ex), forallb_app. cbn [forallb]. unfold name_char at 2.
        rewrite <- negb_orb, Eb. by rewrite andb_false_r.
      * eexists. split; [done|]. split; [|lia]. split_and!; [lia..|].
        replace (Z.to_nat (i + 1)) with (S (Z.to_nat i)) by lia.
        rewrite (take_S_r _ _ x) by done. rewrite forallb_app, Hf. cbn [forallb].
        unfold name_char. by rewrite <- negb_orb, Eb.
  - done.
Qed.

(** ** Entries *)

Definition entry (dir : list Z) (i : Z) : list Z := slice dir (i * 64) 64.

Definition set_entry (dir : list Z) (i : Z) (e : list Z) : list Z := splice dir (i * 64) e.

Definition entry_used (e : list Z) : bool := negb (field e 32 4 =? 0).

Definition entry_named (e nm : list Z) : bool := bool_decide (take (S (length nm)) e = nm ++ [0]).

Definition entry_is (e nm : list Z) : bool := entry_used e && entry_named e nm.

Lemma entry_at_eq i : 0 <= i < 32 -> entry_at i = i * 64 /\ const_entry_at i = i * 64.
Proof.
  intros Hi. unfold entry_at, const_entry_at, MVHFS_ENTRY_SIZE. rewrite u32_small by warith. done.
Qed.

Lemma slice_slice (b : list Z) o n o' n' : 0 <= o -> 0 <= o' -> 0 <= n' -> o' + n' <= n ->
  slice (slice b o n) o' n' = slice b (o + o') n'.
Proof.
  intros Ho Ho' Hn' H. unfold slice. rewrite skipn_firstn_comm, drop_drop, take_take.
  replace (Z.to_nat o + Z.to_nat o')%nat with (Z.to_nat (o + o')) by lia. f_equal. lia.
Qed.

Section directory.
Variable dir : list Z.
Hypothesis Hlen : length dir = 2048%nat.
Hypothesis Hbytes : all_bytes dir.

Lemma entry_room i o n : 0 <= i < 32 -> 0 <= o -> 0 <= n -> o + n <= 64 -> room dir (i * 64 + o) n.
Proof. unfold room. lia. Qed.

Lemma entry_room_0 i : 0 <= i < 32 -> room dir (i * 64) 64.
Proof. unfold room. lia. Qed.

Lemma entry_length i : 0 <= i < 32 -> length (entry dir i) = 64%nat.
Proof. intros Hi. apply (length_slice dir). by apply entry_room_0. Qed.

Lemma entry_bytes i : all_bytes (entry dir i).
Proof. by apply all_bytes_slice. Qed.

Lemma entry_rd i o : 0 <= i < 32 -> 0 <= o < 64 -> rd dir (i * 64 + o) = rd (entry dir i) o.
Proof.
  intros Hi Ho. unfold entry. rewrite rd_slice by (by apply entry_room_0).
  by rewrite (proj2 (Z.leb_le _ _)), (proj2 (Z.ltb_lt _ _)) by lia.
Qed.

Lemma entry_field i o n : 0 <= i < 32 -> 0 <= o -> 0 <= n -> o + n <= 64 ->
  field dir (i * 64 + o) n = field (entry dir i) o n.
Proof. intros. unfold field, entry. by rewrite slice_slice by lia. Qed.

Lemma entry_load32 i o : 0 <= i < 32 -> 0 <= o <= 60 ->
  Mvhfs.load32 dir (i * 64 + o) = Some (field (entry dir i) o 4).
Proof.
  intros Hi Ho. unfold Mvhfs.load32. rewrite get32_spec by (done || (apply entry_room; lia)).
  f_equal. apply entry_field; lia.
Qed.

Lemma entry_set_eq i e : 0 <= i < 32 -> length e = 64%nat -> entry (set_entry dir i e) i = e.
Proof.
  intros Hi He. unfold entry, set_entry. replace 64 with (Z.of_nat (length e)) at 3 by lia.
  apply slice_splice_eq. unfold room. lia.
Qed.

Lemma entry_set_ne i j e : 0 <= i < 32 -> 0 <= j < 32 -> i <> j -> length e = 64%nat ->
  entry (set_entry dir i e) j = entry dir j.
Proof. intros Hi Hj Hij He. apply slice_splice_ne; unfold room; lia. Qed.

Lemma set_entry_length i e : 0 <= i < 32 -> length e = 64%nat -> length (set_entry dir i e) = 2048%nat.
Proof. intros Hi He. unfold set_entry. rewrite length_splice; [done|]. unfold room. lia. Qed.

Lemma set_entry_bytes i e : all_bytes e -> all_bytes (set_entry dir i e).
Proof. intros He. by apply all_bytes_splice. Qed.

Lemma set_entry_self i : 0 <= i < 32 -> set_entry dir i (entry dir i) = dir.
Proof. intros Hi. by apply splice_slice, entry_room_0. Qed.

Lemma set_entry_twice i e e' : 0 <= i < 32 -> length e = 64%nat -> length e' = 64%nat ->
  set_entry (set_entry dir i e) i e' = set_entry dir i e'.
Proof. intros Hi He He'. apply splice_overwrite; [congruence|]. unfold room. lia. Qed.

(** A splice inside an entry. *)
Lemma splice_entry i e o l : 0 <= i < 32 -> length e = 64%nat -> 0 <= o -> o + Z.of_nat (length l) <= 64 ->
  splice (set_entry dir i e) (i * 64 + o) l = set_entry dir i (splice e o l).
Proof.
  intros Hi He Ho Hol.
  assert (length (splice e o l) = 64%nat) as Hel by (rewrite length_splice; [done|unfold room; lia]).
  assert (room (set_entry dir i e) (i * 64 + o) (Z.of_nat (length l))) as R
    by (unfold room; rewrite set_entry_length; done || lia).
  apply rd_eq.
  - rewrite length_splice by done. by rewrite !set_entry_length.
  - intros k Hk. rewrite rd_splice by done. unfold set_entry.
    rewrite !rd_splice by (unfold room; lia). rewrite He, Hel.
    destruct (Z.leb_spec (i * 64) k), (Z.ltb_spec k (i * 64 + Z.of_nat 64)); cbn [andb].
    + assert (forall (x : list Z), x !! Z.to_nat (k - i * 64) = rd x (k - i * 64)) as Hx.
      { intros x. unfold rd. by rewrite (proj2 (Z.ltb_ge _ _)) by lia. }
      rewrite !Hx, rd_splice by (unfold room; lia).
      replace (k - i * 64 - o) with (k - (i * 64 + o)) by lia. zcmp.
    + rewrite (proj2 (Z.ltb_ge k (i * 64 + o + _))) by lia. by rewrite andb_false_r.
    + rewrite (proj2 (Z.leb_gt (i * 64 + o) k)) by lia. done.
    + lia.
Qed.
(** The comparison of a name, byte by byte. *)
Lemma named_pointwise e array nm :
  name_string array nm -> (S (length nm) <= length e)%nat ->
  entry_named e nm = true <-> forall k, 0 <= k <= Z.of_nat (length nm) -> rd e k = rd array k.
Proof.
  intros Hn Hl. unfold entry_named. rewrite bool_decide_eq_true.
  assert (forall k, 0 <= k <= Z.of_nat (length nm) -> rd (nm ++ [0]) k = rd array k) as Ha.
  { destruct Hn as [(rest & -> & _) _]. intros k Hk. rewrite !rd_app.
    destruct (Z.ltb_spec k (Z.of_nat (length nm))); [done|].
    by replace (k - Z.of_nat (length nm)) with 0 by lia. }
  assert (forall k, 0 <= k <= Z.of_nat (length nm) -> rd (take (S (length nm)) e) k = rd e k) as Ht.
  { intros k Hk. unfold rd. rewrite (proj2 (Z.ltb_ge _ _)) by lia. apply lookup_take_lt. lia. }
  split.
  - intros E k Hk. by rewrite <- Ht, E, Ha.
  - intros H. apply rd_eq; [rewrite length_take, length_app; cbn [length]; lia|].
    intros k Hk. rewrite length_take in Hk. rewrite Ht, Ha by lia. apply H. lia.
Qed.

Lemma entry_name_equal_spec i array nm :
  0 <= i < 32 -> name_string array nm -> (length nm < 32)%nat ->
  entry_name_equal dir (i * 64) array = Some (entry_is (entry dir i) nm).
Proof.
  intros Hi Hn Hl. unfold entry_name_equal. rewrite entry_load32 by lia. cbn [mbind option_bind].
  unfold entry_is, entry_used. destruct (Z.eqb_spec (field (entry dir i) 32 4) 0); [done|]. simpl negb.
  cbn [andb]. cbn match. pose proof (entry_length i Hi) as He.
  pose proof (named_pointwise (entry dir i) array nm Hn ltac:(lia)) as Hp.
  match goal with |- context [for_break _ _ ?loop_body _] =>
  destruct (for_break_rule
    (fun j (_ : unit) => 0 <= j <= Z.of_nat (length nm) /\ forall k, 0 <= k < j -> rd (entry dir i) k = rd array k)
    (fun b : bool => b = entry_named (entry dir i) nm)
    (Z.to_nat MVHFS_NAME_MAX) 0 loop_body tt) as [([] & _ & H & _)|(b & -> & ->)] end.
  - split; [lia|]. intros k Hk. lia.
  - intros j [] Hj (Hj0 & H). rewrite entry_rd by lia.
    destruct (rd_ok (entry dir i) j ltac:(lia)) as (a & Ea). rewrite Ea. cbn [mbind option_bind].
    assert (exists c, rd array j = Some c /\ u8 c = c /\ (c = 0 <-> j = Z.of_nat (length nm))) as (c & Ec & Hu & Hc).
    { destruct (Z.eq_dec j (Z.of_nat (length nm))) as [->|Hne].
      - exists 0. by rewrite (name_rd_end array nm Hn).
      - destruct (name_rd array nm j Hn ltac:(lia)) as (c & E & _ & H0 & Hf). exists c.
        split_and!; [done|by apply u8_small|]. split; intros; lia. }
    rewrite Ec. cbn [mbind option_bind]. rewrite Hu. destruct (Z.eqb_spec a c) as [->|Hac]; simpl negb; cbn match.
    + assert (forall k, 0 <= k < j + 1 -> rd (entry dir i) k = rd array k) as H'.
      { intros k Hk. destruct (Z.eq_dec k j) as [->|]; [congruence|]. apply H. lia. }
      destruct (Z.eqb_spec c 0) as [H0|H0]; [right|left].
      * exists true. split; [done|]. symmetry. apply Hp. intros k Hk. apply H'. apply Hc in H0. lia.
      * exists tt. split; [done|]. split; [|done]. assert (j <> Z.of_nat (length nm)) by tauto. lia.
    + right. exists false. split; [done|]. symmetry. apply not_true_iff_false. intros Ht.
      apply Hac. apply Hp with (k := j) in Ht; [|lia]. congruence.
  - change (Z.of_nat (Z.to_nat MVHFS_NAME_MAX)) with 32 in H. lia.
  - done.
Qed.

(** The result of a linear search through the 32 entries. *)
Definition first_entry (f : list Z -> bool) (r : Z) : Prop :=
  (r = -1 /\ forall i, 0 <= i < 32 -> f (entry dir i) = false) \/
  (0 <= r < 32 /\ f (entry dir r) = true /\ forall i, 0 <= i < r -> f (entry dir i) = false).

Lemma entry_search (f : list Z -> bool) (test : Z -> option bool) :
  (forall i, 0 <= i < 32 -> test i = Some (f (entry dir i))) ->
  exists r, (r ← for_break 32 0 (fun i (_ : unit) => b ← test i; Some (if b : bool then inr i else inl tt)) tt;
             Some (match r with inl _ => -1 | inr i => i end)) = Some r /\ first_entry f r.
Proof.
  intros Ht.
  destruct (for_break_rule
    (fun i (_ : unit) => forall j, 0 <= j < i -> f (entry dir j) = false)
    (fun r => first_entry f r) 32 0
    (fun i (_ : unit) => b ← test i; Some (if b : bool then inr i else inl tt)) tt)
    as [([] & -> & H)|(r & -> & H)].
  - intros j Hj. lia.
  - intros i [] Hi H. rewrite Ht by lia. cbn [mbind option_bind].
    destruct (f (entry dir i)) eqn:E; [right|left].
    + exists i. split; [done|]. right. split_and!; [lia..|done|]. intros; apply H; lia.
    + exists tt. split; [done|]. intros j Hj. destruct (Z.eq_dec j i) as [->|]; [done|]. apply H. lia.
  - exists (-1). split; [done|]. left. split; [done|]. intros. apply H. lia.
  - exists r. done.
Qed.

Lemma find_entry_spec array nm :
  name_string array nm -> (length nm < 32)%nat ->
  exists r, find_entry dir array = Some r /\ first_entry (fun e => entry_is e nm) r.
Proof.
  intros Hn Hl. apply (entry_search (fun e => entry_is e nm)
    (fun i => entry_name_equal dir (const_entry_at i) array)).
  intros i Hi. rewrite (proj2 (entry_at_eq i Hi)). by apply entry_name_equal_spec.
Qed.

Lemma find_free_spec :
  exists r, find_free dir = Some r /\ first_entry (fun e => negb (entry_used e)) r.
Proof.
  destruct (entry_search (fun e => negb (entry_used e))
    (fun i => used ← Mvhfs.load32 dir (const_entry_at i + 32); Some (used =? 0))) as (r & E & H).
  - intros i Hi. rewrite (proj2 (entry_at_eq i Hi)), entry_load32 by lia. simpl.
    unfold entry_used. by rewrite negb_involutive.
  - exists r. split; [|done]. rewrite <- E. unfold find_free. f_equal.
    apply for_break_ext. intros i _. by destruct (Mvhfs.load32 dir _).
Qed.

End directory.
