(* ===== verification/MvhfsSpec.v ===== *)
(** * MVHFS: crash consistency and functional correctness

    Proofs about Mvhfs.v over any disk that satisfies [SectorStore]: atomic
    one-sector writes that may fail at any point.  A power failure is a disk
    that refuses every write from some point on, so the theorems about failing
    writes are theorems about crashes.

    The abstract file system is a partial map from names to contents, read off
    the directory and the data sectors.  Mounting finds the directory the newest
    valid superblock names; create, write and remove take the map to its
    successor or leave it alone, never anything in between. *)

From S2P Require Import Prelude Crc32 Buffer Block Mvhfs MvhfsFormat MvhfsDirectory.

(** ** A mounted disk *)

Section disk.
Context {W : Type} (s : block W) (dev : Z) (d : block_device W) `{!SectorStore d}.
Variable (devices : list (block_device W)) (junk junk_entry : list Z).
Hypothesis Hinv : block_inv s.
Hypothesis Hdev : 0 <= dev < block_device_count s.
Hypothesis Hd : rd (block_devices s) dev = Some d.
Hypothesis Hsize : sector_size d = 512.
Hypothesis Hcount : MVHFS_MIN_SECTORS <= sector_count d.
Hypothesis Hwritable : writable d <> 0.
Hypothesis Hdevices : length devices = 16%nat.
Hypothesis Hjunk : length junk = 512%nat.
Hypothesis Hjunk_entry : length junk_entry = 64%nat.

Lemma dev_registered : registered s dev d.
Proof.
  destruct (inv_devices s Hinv dev Hdev) as (d' & E & Hok). rewrite Hd in E. injection E as <-.
  destruct Hok. unfold registered. split_and!; (done || lia).
Qed.

Lemma block_list_spec :
  exists array, block_list s (Some devices) BLOCK_DEVICE_MAX =
      Some (Some array, block_device_count s) /\
    forall i, 0 <= i < block_device_count s -> rd array i = rd (block_devices s) i.
Proof.
  destruct (inv_count s Hinv) as [Hc0 Hc16]. pose proof (inv_length s Hinv) as Hl.
  unfold block_list. change (BLOCK_DEVICE_MAX =? 0) with false. cbn match.
  set (count := if _ <? _ then _ else _).
  assert (count = block_device_count s) as -> by (unfold count, BLOCK_DEVICE_MAX; zcmp).
  match goal with |- context [for_loop _ _ ?loop_body _] =>
  destruct (for_loop_rule
    (fun i array => length array = 16%nat /\ 0 <= i /\
       forall j, 0 <= j < i -> rd array j = rd (block_devices s) j)
    (Z.to_nat (block_device_count s)) 0 loop_body devices) as (array & -> & _ & _ & H) end.
  - split_and!; [done|lia|]. intros j Hj. lia.
  - intros i array Hi (Ha & Hi0 & H).
    destruct (rd_ok (block_devices s) i ltac:(lia)) as (x & E). rewrite E. cbn [mbind option_bind].
    pose proof (wr_ok array i x ltac:(lia)) as Hw. eexists. split; [exact Hw|]. split_and!.
    + by rewrite (wr_length _ _ _ _ Hw).
    + lia.
    + intros j Hj. rewrite (rd_wr _ _ j _ _ Hw). destruct (Z.eqb_spec i j) as [<-|]; [done|]. apply H. lia.
  - exists array. split; [done|]. intros i Hi. apply H. lia.
Qed.

Lemma device_info_spec : device_info s devices dev = Some (Some d).
Proof.
  unfold device_info. destruct block_list_spec as (array & -> & Ha). cbn [mbind option_bind].
  match goal with |- context [for_break _ _ ?loop_body _] =>
  destruct (for_break_rule (fun i (_ : unit) => 0 <= i <= dev) (fun d' => d' = d)
    (Z.to_nat (block_device_count s)) 0 loop_body tt) as [([] & _ & H)|(d' & -> & ->)] end.
  - lia.
  - intros i [] Hi Hi'. rewrite Ha by lia.
    destruct (inv_devices s Hinv i ltac:(lia)) as (x & E & Hok). rewrite E. cbn [mbind option_bind].
    rewrite (ok_id _ _ Hok). destruct (Z.eqb_spec i dev) as [->|].
    + right. exists x. split; [done|]. rewrite Hd in E. by injection E.
    + left. exists tt. split; [done|]. lia.
  - lia.
  - done.
Qed.

Notation valid w k := (superblock_ok (sector_count d) (sector w k)).

Lemma load_superblock_spec w k :
  0 <= k <= 1 ->
  exists sec, same_head sec (sector w k) /\
    ((valid w k /\ load_superblock s junk w dev k d = Some (w, true, sec)) \/
     (~ valid w k /\ load_superblock s junk w dev k d = Some (w, false, sec))).
Proof.
  intros Hk. unfold MVHFS_MIN_SECTORS in Hcount.
  destruct (validate_spec d (sector w k) (sector_length w k) (sector_bytes w k)) as (sec & Hs & Hv).
  exists sec. split; [done|]. unfold load_superblock.
  rewrite (block_read_sector s dev d dev_registered) by (lia || (unfold room; lia)).
  cbn [mbind option_bind]. rewrite splice_sector by done. simpl negb. cbn match.
  destruct Hv as [[Hv ->]|[Hv ->]]; [left|right]; by split.
Qed.

(** Sector numbers of a directory copy. *)
Lemma directory_lba_range slot : 0 <= slot <= 1 -> directory_lba slot = 2 + 4 * slot.
Proof. intros H. unfold directory_lba. destruct (Z.eqb_spec slot 0) as [->|]; [done|]. unfold MVHFS_DIRECTORY1_LBA. lia. Qed.

Lemma sectors_snoc w lba n : sectors w lba (S n) = sectors w lba n ++ sector w (lba + Z.of_nat n).
Proof.
  revert lba. induction n as [|n IH]; intros lba.
  - cbn [Z.of_nat]. rewrite Z.add_0_r. apply app_nil_r.
  - change (sectors w lba (S (S n))) with (sector w lba ++ sectors w (lba + 1) (S n)).
    rewrite IH, app_assoc. f_equal. f_equal. lia.
Qed.

Lemma sectors_all_bytes w lba n : all_bytes (sectors w lba n).
Proof.
  revert lba. induction n as [|n IH]; intros lba; [constructor|].
  apply Forall_app. split; [apply sector_bytes|apply IH].
Qed.

Lemma read_directory_spec w slot dir crc :
  0 <= slot <= 1 -> length dir = 2048%nat ->
  let now := sectors w (directory_lba slot) 4 in
  read_directory s w dev slot dir crc =
    Some (w, if crc_of now =? crc then 0 else -1, now).
Proof.
  intros Hs Hl now. unfold read_directory, MVHFS_MIN_SECTORS in *.
  pose proof (directory_lba_range slot Hs) as Hlba.
  match goal with |- context [for_break _ _ ?loop_body ?start] =>
  destruct (for_break_rule (fun i (st : W * list Z) => 0 <= i <= 4 /\ st.1 = w /\
       st.2 = splice dir 0 (sectors w (directory_lba slot) (Z.to_nat i)))
    (fun _ : W * list Z => False) (Z.to_nat MVHFS_DIRECTORY_SECTORS) 0 loop_body start)
    as [([w' dir'] & -> & _ & H1 & H2)|(? & _ & [])] end.
  - simpl. split_and!; [lia..|done|]. unfold splice. simpl. by rewrite drop_0.
  - intros i [w' dir'] Hi (Hi0 & H1 & H2). simpl in H1, H2. subst w' dir'. left.
    change (Z.of_nat (Z.to_nat MVHFS_DIRECTORY_SECTORS)) with 4 in Hi.
    set (pre := sectors w (directory_lba slot) (Z.to_nat i)).
    assert (Z.of_nat (length pre) = 512 * i) as Lp by (unfold pre; rewrite sectors_length; lia).
    assert (length (splice dir 0 pre) = 2048%nat) as Ls by (rewrite length_splice; [done|unfold room; lia]).
    rewrite u64_small by warith. unfold MVHFS_SECTOR_SIZE.
    rewrite (block_read_sector s dev d dev_registered) by (lia || (unfold room; lia)).
    cbn [mbind option_bind]. eexists. split; [reflexivity|]. simpl. split_and!; [lia..|done|].
    replace (Z.to_nat (i + 1)) with (S (Z.to_nat i)) by lia. rewrite sectors_snoc, Z2Nat.id by lia.
    fold pre. apply splice_next; [lia|]. unfold room. rewrite length_app, sector_length. lia.
  - simpl in H1, H2. subst w' dir'. cbn [mbind option_bind]. change (Z.to_nat (0 + _)) with 4%nat.
    assert (splice dir 0 (sectors w (directory_lba slot) 4) = now) as ->.
    { unfold splice. rewrite drop_ge by (rewrite sectors_length; lia). apply app_nil_r. }
    rewrite crc32_crc_of by (unfold now; rewrite sectors_length; done).
    rewrite take_ge by (unfold now; rewrite sectors_length; done). done.
Qed.
(** The disk holds the mounted file system [fs]: its superblock is valid, newer
    than the other one if that is valid at all, and names the directory copy
    that holds [directory fs]. *)
Record on_disk (w : W) (fs : mvhfs) : Prop := {
  od_device : device_id fs = dev;
  od_mounted : mounted fs = 1;
  od_superblock_slot : 0 <= superblock_slot fs <= 1;
  od_directory_slot : 0 <= directory_slot fs <= 1;
  od_valid : valid w (superblock_slot fs);
  od_generation : field (sector w (superblock_slot fs)) 24 8 = generation fs;
  od_slot : field (sector w (superblock_slot fs)) 32 4 = directory_slot fs;
  od_crc : field (sector w (superblock_slot fs)) 40 4 = crc_of (directory fs);
  od_newest : valid w (1 - superblock_slot fs) ->
    field (sector w (1 - superblock_slot fs)) 24 8 < generation fs;
  od_directory : sectors w (directory_lba (directory_slot fs)) 4 = directory fs;
}.

Lemma od_length w fs : on_disk w fs -> length (directory fs) = 2048%nat.
Proof. intros H. rewrite <- (od_directory w fs H). apply sectors_length. Qed.

Lemma od_bytes w fs : on_disk w fs -> all_bytes (directory fs).
Proof. intros H. rewrite <- (od_directory w fs H). apply sectors_all_bytes. Qed.

Lemma od_generation_fits w fs : on_disk w fs -> fits 64 (generation fs).
Proof.
  intros H. rewrite <- (od_generation w fs H). apply field_fits; [apply sector_bytes|].
  unfold room. rewrite sector_length. lia.
Qed.

(** Loading a field before the checksum of a validated superblock. *)
Lemma head_load32 sec w k o : same_head sec (sector w k) -> 0 <= o <= 44 ->
  Mvhfs.load32 sec o = Some (field (sector w k) o 4).
Proof.
  intros (Hl & Hb & Hf) Ho. unfold Mvhfs.load32. rewrite get32_spec by (done || (unfold room; lia)).
  f_equal. apply Hf; lia.
Qed.

Lemma head_load64 sec w k o : same_head sec (sector w k) -> 0 <= o <= 40 ->
  Mvhfs.load64 sec o = Some (field (sector w k) o 8).
Proof.
  intros (Hl & Hb & Hf) Ho. unfold Mvhfs.load64. rewrite get64_spec by (done || (unfold room; lia)).
  f_equal. apply Hf; lia.
Qed.

Lemma mount_from_superblock_spec w fs fs0 sec k :
  on_disk w fs -> superblock_slot fs = k -> length (directory fs0) = 2048%nat ->
  same_head sec (sector w k) ->
  mount_from_superblock s w fs0 dev k sec = Some (w, 0, fs).
Proof.
  intros H <- Hl Hs. pose proof H as []. unfold mount_from_superblock.
  rewrite !(head_load32 _ _ _ _ Hs), (head_load64 _ _ _ _ Hs) by lia. cbn [mbind option_bind].
  rewrite od_slot0, od_crc0, od_generation0, read_directory_spec by done. cbn [mbind option_bind].
  rewrite od_directory0, Z.eqb_refl. simpl negb. cbn match. do 2 f_equal.
  destruct fs; simpl in *. by subst.
Qed.

(** Mounting finds the file system the disk holds. *)
Lemma mount_spec w fs fs0 :
  on_disk w fs -> length (directory fs0) = 2048%nat ->
  mvhfs_mount s devices junk w (Some fs0) dev = Some (w, 0, Some fs).
Proof.
  intros H Hl. unfold mvhfs_mount. rewrite device_info_spec. cbn [mbind option_bind].
  rewrite Hsize. unfold MVHFS_SECTOR_SIZE. rewrite (proj2 (Z.ltb_ge _ _)) by done. cbn [negb orb Z.eqb Pos.eqb].
  destruct (load_superblock_spec w 0 ltac:(lia)) as (first & Hf & Vf).
  destruct (load_superblock_spec w 1 ltac:(lia)) as (second & Hs & Vs).
  pose proof (od_valid w fs H) as V. pose proof (od_newest w fs H) as N.
  pose proof (od_generation w fs H) as G.
  assert (superblock_slot fs = 0 \/ superblock_slot fs = 1) as [K|K]
    by (pose proof (od_superblock_slot w fs H); lia); rewrite K in V, N, G.
  - destruct Vf as [[_ ->]|[? _]]; [|done]. cbn [mbind option_bind].
    destruct Vs as [[V2 ->]|[V2 ->]]; cbn [mbind option_bind negb andb orb]; cbn match;
      rewrite !(head_load64 _ _ _ _ Hf), !(head_load64 _ _ _ _ Hs) by lia; cbn [mbind option_bind].
    + change (1 - 0) with 1 in N. specialize (N V2). rewrite (proj2 (Z.leb_le _ _)) by lia. cbn match.
      by rewrite (mount_from_superblock_spec w fs).
    + by rewrite (mount_from_superblock_spec w fs).
  - destruct Vs as [[_ E2]|[? _]]; [|done].
    destruct Vf as [[V1 ->]|[V1 ->]]; cbn [mbind option_bind]; rewrite E2;
      cbn [mbind option_bind negb andb orb]; cbn match;
      rewrite !(head_load64 _ _ _ _ Hf), !(head_load64 _ _ _ _ Hs) by lia; cbn [mbind option_bind].
    + change (1 - 1) with 0 in N. specialize (N V1). rewrite (proj2 (Z.leb_gt _ _)) by lia. cbn match.
      by rewrite (mount_from_superblock_spec w fs).
    + by rewrite (mount_from_superblock_spec w fs).
Qed.

(** The effect of writing [data] to sector [lba], with status [r]. *)
Definition sector_write (w w' : W) (lba : Z) (data : list Z) (r : Z) : Prop :=
  (forall x, x <> lba -> sector w' x = sector w x) /\
  (sector w' lba = data \/ r <> 0 /\ sector w' lba = sector w lba).

(** Sectors outside [lo, lo + n) are the same. *)
Definition same_outside (w w' : W) (lo n : Z) : Prop :=
  forall x, ~ (lo <= x < lo + n) -> sector w' x = sector w x.

(** A loop that writes the sectors [content 0], [content 1], ... one after the
    other and stops at the first error. *)
Lemma write_sectors_rule {T} (view : T -> W) (inv : Z -> T -> Prop) (content : Z -> list Z)
    (lba : Z) (n : nat) (body : Z -> T -> option (T + W)) (st : T) :
  inv 0 st ->
  (forall i st, 0 <= i < Z.of_nat n -> inv i st ->
     exists w' r, sector_write (view st) w' (lba + i) (content i) r /\ (reliable d -> r = 0) /\
       ((r = 0 /\ exists st', body i st = Some (inl st') /\ view st' = w' /\ inv (i + 1) st') \/
        (r <> 0 /\ body i st = Some (inr w')))) ->
  (exists st', for_break n 0 body st = Some (inl st') /\ inv (Z.of_nat n) st' /\
     same_outside (view st) (view st') lba (Z.of_nat n) /\
     forall i, 0 <= i < Z.of_nat n -> sector (view st') (lba + i) = content i) \/
  (exists w', for_break n 0 body st = Some (inr w') /\ same_outside (view st) w' lba (Z.of_nat n) /\
     ~ reliable d).
Proof.
  intros H0 Hbody.
  destruct (for_break_rule (fun i st' => 0 <= i <= Z.of_nat n /\ inv i st' /\
      same_outside (view st) (view st') lba (Z.of_nat n) /\
      forall j, 0 <= j < i -> sector (view st') (lba + j) = content j)
    (fun w' => same_outside (view st) w' lba (Z.of_nat n) /\ ~ reliable d) n 0 body st)
    as [(st' & E & _ & Hi & Ho & Hc)|(w' & E & Ho & Hrel)].
  - split_and!; [lia..|done|done|]. intros j Hj. lia.
  - intros i st1 Hi (Hi0 & I1 & Ho & Hc).
    destruct (Hbody i st1 ltac:(lia) I1) as (w' & r & (Hne & He) & Hrel & Hr).
    assert (same_outside (view st) w' lba (Z.of_nat n)) as Ho'.
    { intros x Hx. rewrite Hne by lia. by apply Ho. }
    destruct Hr as [(-> & st' & E & <- & I2)|(Hr & E)]; [left|right; exists w'; by split_and!; auto].
    destruct He as [He|[[] _]]; [|done].
    exists st'. split; [done|]. split_and!; [lia..|done|done|]. intros j Hj.
    destruct (Z.eq_dec j i) as [->|]; [done|]. rewrite Hne by lia. apply Hc. lia.
  - left. exists st'. by split_and!.
  - right. by exists w'.
Qed.

Lemma sectors_of_contents w lba n l :
  length l = (512 * n)%nat ->
  (forall i, 0 <= i < Z.of_nat n -> sector w (lba + i) = slice l (i * 512) 512) ->
  sectors w lba n = l.
Proof.
  revert lba l. induction n as [|n IH]; intros lba l Hl Hi; [by destruct l|].
  change (sectors w lba (S n)) with (sector w lba ++ sectors w (lba + 1) n).
  rewrite (IH (lba + 1) (drop 512 l)).
  - specialize (Hi 0 ltac:(lia)). rewrite Z.add_0_r in Hi. rewrite Hi. unfold slice. simpl.
    rewrite drop_0. apply take_drop.
  - rewrite length_drop. lia.
  - intros i Hir. replace (lba + 1 + i) with (lba + (i + 1)) by lia. rewrite Hi by lia.
    unfold slice. rewrite drop_drop. do 2 f_equal. lia.
Qed.

Lemma sectors_ext w w' lba n :
  (forall i, 0 <= i < Z.of_nat n -> sector w' (lba + i) = sector w (lba + i)) ->
  sectors w' lba n = sectors w lba n.
Proof.
  revert lba. induction n as [|n IH]; intros lba H; [done|].
  change (sector w' lba ++ sectors w' (lba + 1) n = sector w lba ++ sectors w (lba + 1) n).
  f_equal; [rewrite <- (Z.add_0_r lba); apply H; lia|].
  apply IH. intros i Hi. replace (lba + 1 + i) with (lba + (i + 1)) by lia. apply H. lia.
Qed.

Lemma flip_slot x : 0 <= x <= 1 -> x ^^^ 1 = 1 - x.
Proof. intros H. assert (x = 0 \/ x = 1) as [-> | ->] by lia; done. Qed.

(** The file system after a successful commit of directory [dir]. *)
Definition committed (fs : mvhfs) (dir : list Z) : mvhfs :=
  {| device_id := device_id fs; superblock_slot := 1 - superblock_slot fs;
     directory_slot := 1 - directory_slot fs; generation := generation fs + 1;
     mounted := mounted fs; directory := dir |}.

(** A disk that differs from one holding [fs] only in the spare directory copy
    and the data area still holds [fs]. *)
Lemma on_disk_spare w w' fs :
  on_disk w fs ->
  (forall x, 0 <= x < 10 -> ~ (directory_lba (1 - directory_slot fs) <= x <
                               directory_lba (1 - directory_slot fs) + 4) -> sector w' x = sector w x) ->
  on_disk w' fs.
Proof.
  intros [] H. rewrite directory_lba_range in H by lia.
  assert (forall x, 0 <= x <= 1 -> sector w' x = sector w x) as Hs by (intros; apply H; lia).
  constructor; rewrite ?Hs by lia; try done.
  rewrite <- od_directory0. apply sectors_ext. rewrite directory_lba_range by lia.
  intros i Hi. apply H; lia.
Qed.

(** Writing the new superblock over the old spare one makes [dir] current. *)
Lemma on_disk_commit w w1 w2 fs dir :
  on_disk w fs -> generation fs + 1 < 2 ^ 64 -> length dir = 2048%nat -> all_bytes dir ->
  (forall x, 0 <= x <= 1 -> sector w1 x = sector w x) ->
  sectors w1 (directory_lba (1 - directory_slot fs)) 4 = dir ->
  (forall x, x <> 1 - superblock_slot fs -> sector w2 x = sector w1 x) ->
  sector w2 (1 - superblock_slot fs) =
    superblock (sector_count d) (generation fs + 1) (1 - directory_slot fs) (crc_of dir) ->
  on_disk w2 (committed fs dir).
Proof.
  intros H Hg Hl Hb Hs Hdir Hne He. pose proof (od_generation_fits w fs H) as Hgf.
  destruct dev_registered as (_ & _ & _ & Hc). destruct H.
  assert (fits 32 (crc_of dir)) as Hcrc by by apply crc_of_fits.
  constructor; cbn [committed device_id mounted superblock_slot directory_slot generation directory];
    rewrite ?He; [exact od_device0|exact od_mounted0|lia|lia|..].
  - apply superblock_valid; [split; [exact Hcount|reflexivity]|lia|lia].
  - apply sb_generation. unfold fits in *. lia.
  - apply sb_slot. warith.
  - by apply sb_crc.
  - replace (1 - (1 - superblock_slot fs)) with (superblock_slot fs) by lia. intros _.
    rewrite Hne, Hs, od_generation0 by lia. lia.
  - rewrite <- Hdir. apply sectors_ext. intros i Hi. apply Hne.
    rewrite directory_lba_range by lia. lia.
Qed.

(** The data area is the same. *)
Definition same_data (w w' : W) : Prop := forall x, 10 <= x -> sector w' x = sector w x.

Lemma write_directory w fs dir :
  0 <= directory_slot fs <= 1 -> device_id fs = dev -> length dir = 2048%nat -> all_bytes dir ->
  let lba := directory_lba (directory_slot fs ^^^ 1) in
  let loop := for_break (Z.to_nat MVHFS_DIRECTORY_SECTORS) 0
      (fun sector w =>
         '(w, status) ← block_write s w (device_id fs) (u64 (lba + sector)) 1
                          (Some (dir, sector * MVHFS_SECTOR_SIZE));
         Some (if negb (status =? 0) then inr w else inl w)) w in
  (exists w', loop = Some (inl w') /\ same_outside w w' lba 4 /\ sectors w' lba 4 = dir) \/
  (exists w', loop = Some (inr w') /\ same_outside w w' lba 4 /\ ~ reliable d).
Proof.
  intros Hs Hdv Hl Hb lba loop. unfold MVHFS_MIN_SECTORS in Hcount.
  assert (2 <= lba <= 6) as Hlba.
  { unfold lba. rewrite flip_slot, directory_lba_range by lia. lia. }
  destruct (write_sectors_rule (fun w => w) (fun _ _ => True)
              (fun i => slice dir (i * 512) 512) lba 4
              (fun sector w =>
         '(w, status) ← block_write s w (device_id fs) (u64 (lba + sector)) 1
                          (Some (dir, sector * MVHFS_SECTOR_SIZE));
         Some (if negb (status =? 0) then inr w else inl w)) w I)
    as [(w' & E & _ & Ho & Hc)|(w' & E & Ho & Hrel)].
  - intros i w1 Hi _. rewrite Hdv, u64_small by warith.
    destruct (block_write_sector s dev d dev_registered w1 (lba + i) dir (i * MVHFS_SECTOR_SIZE))
      as (w' & r & -> & Hrel & Hne & He); [lia|unfold room, MVHFS_SECTOR_SIZE; lia|done|done|].
    exists w', r. split; [by split|]. split; [done|]. cbn [mbind option_bind].
    destruct (Z.eqb_spec r 0) as [->|Hr]; [left|right]; simpl; [|done]. split; [done|]. by exists w'.
  - left. exists w'. split_and!; [exact E|done|]. apply sectors_of_contents; [lia|done].
  - right. exists w'. by split.
Qed.

(** A commit is atomic: the disk holds the old file system or the new one. *)
Lemma commit_spec w fs dir :
  on_disk w fs -> generation fs + 1 < 2 ^ 64 -> length dir = 2048%nat -> all_bytes dir ->
  exists w' r fs', commit_directory s devices junk w (set_directory fs dir) = Some (w', r, fs') /\
    same_data w w' /\
    ((r = 0 /\ fs' = committed fs dir /\ on_disk w' fs') \/
     (r = -1 /\ fs' = set_directory fs dir /\ ~ reliable d /\
      (on_disk w' fs \/ on_disk w' (committed fs dir)))).
Proof.
  intros H Hg Hl Hb. pose proof (od_generation_fits w fs H) as Hgf.
  pose proof (od_superblock_slot w fs H) as Hss. pose proof (od_directory_slot w fs H) as Hds.
  pose proof (od_device w fs H) as Hdv. unfold commit_directory.
  cbn [set_directory device_id directory_slot superblock_slot generation mounted directory].
  pose proof device_info_spec as Hinfo. rewrite <- Hdv in Hinfo at 1. rewrite Hinfo. cbn [mbind option_bind].
  pose proof (directory_lba_range (1 - directory_slot fs) ltac:(lia)) as Hlba.
  destruct (write_directory w fs dir Hds Hdv Hl Hb) as [(w1 & -> & Ho & Hdir)|(w1 & -> & Ho & Hrel)];
    rewrite flip_slot in * by lia; cbn [mbind option_bind].
  2: { exists w1, (-1), (set_directory fs dir). split_and!; [done|intros x Hx; apply Ho; lia|].
       right. split_and!; [done..|]. left. apply (on_disk_spare w); [done|]. intros x Hx1 Hx2. by apply Ho. }
  rewrite crc32_crc_of by (unfold MVHFS_DIRECTORY_BYTES; lia).
  rewrite take_ge by (unfold MVHFS_DIRECTORY_BYTES; lia). cbn [mbind option_bind].
  rewrite (u64_small (generation fs + 1)) by (unfold fits in *; lia).
  rewrite build_superblock_spec by done. cbn [mbind option_bind].
  unfold MVHFS_MIN_SECTORS in Hcount.
  destruct (block_write_sector s dev d dev_registered w1 (1 - superblock_slot fs)
    (superblock (sector_count d) (generation fs + 1) (1 - directory_slot fs) (crc_of dir)) 0)
    as (w2 & r & E & Hrel & Hne & He);
    [lia|unfold room; rewrite superblock_length; lia|apply superblock_bytes|done|].
  rewrite !flip_slot by lia. rewrite <- Hdv in E at 1. rewrite E.
  cbn [mbind option_bind]. rewrite slice_all in He by (by rewrite superblock_length).
  assert (same_data w w2) as Hsd by (intros x Hx; rewrite Hne by lia; apply Ho; lia).
  assert (forall x, 0 <= x <= 1 -> sector w1 x = sector w x) as H01 by (intros; apply Ho; lia).
  assert (sector w2 (1 - superblock_slot fs) =
    superblock (sector_count d) (generation fs + 1) (1 - directory_slot fs) (crc_of dir) ->
    on_disk w2 (committed fs dir)) as Hnew by (intros; by apply (on_disk_commit w w1)).
  destruct (Z.eqb_spec r 0) as [->|Hr]; simpl negb; cbn match.
  - exists w2, 0. eexists. split; [reflexivity|]. split; [done|]. left.
    destruct He as [He|[[] _]]; [|done]. split_and!; [done|done|by apply Hnew].
  - exists w2, (-1). eexists. split; [reflexivity|]. split; [done|]. right. split_and!; [done|done|tauto|].
    destruct He as [He|[_ He]]; [right; by apply Hnew|left].
    apply (on_disk_spare w); [done|]. intros x Hx1 Hx2.
    destruct (Z.eq_dec x (1 - superblock_slot fs)) as [->|]; [rewrite He|rewrite Hne by done]; by apply Ho.
Qed.

(** ** The abstract file system *)

Definition file_lba (i slot : Z) : Z := 10 + 16 * i + 8 * slot.

(** The bytes of the file in entry [e] of index [i]. *)
Definition content (w : W) (i : Z) (e : list Z) : list Z :=
  take (Z.to_nat (field e 36 4)) (sectors w (file_lba i (field e 44 4)) 8).

(** A file: its size, copy and checksum are right. *)
Record file_ok (w : W) (i : Z) (e : list Z) : Prop := {
  file_size : 0 <= field e 36 4 <= 4096;
  file_slot : 0 <= field e 44 4 <= 1;
  file_crc : crc_of (content w i e) = field e 40 4;
}.

(** The map from names to contents. *)
Definition contents (w : W) (dir nm : list Z) : option (list Z) :=
  match List.find (fun i => entry_is (entry dir i) nm) (seqZ 0 32) with
  | Some i => Some (content w i (entry dir i))
  | None => None
  end.

Definition nul_free (nm : list Z) : Prop := Forall (fun c => c <> 0) nm.

(** Every used entry is a file with a legal name, and no two have the same. *)
Record dir_ok (w : W) (dir : list Z) : Prop := {
  dir_files : forall i, 0 <= i < 32 -> entry_used (entry dir i) = true -> file_ok w i (entry dir i);
  dir_names : forall i, 0 <= i < 32 -> entry_used (entry dir i) = true ->
    exists nm, nul_free nm /\ name_ok nm = true /\ entry_named (entry dir i) nm = true;
  dir_unique : forall i j nm, 0 <= i < 32 -> 0 <= j < 32 -> nul_free nm ->
    entry_is (entry dir i) nm = true -> entry_is (entry dir j) nm = true -> i = j;
}.

Lemma contents_some w dir nm i :
  dir_ok w dir -> nul_free nm -> 0 <= i < 32 -> entry_is (entry dir i) nm = true ->
  contents w dir nm = Some (content w i (entry dir i)).
Proof.
  intros Hok Hnf Hi He. unfold contents. destruct (List.find _ _) as [j|] eqn:F.
  - apply find_some in F as [Hj Ej]. apply list_elem_of_In, elem_of_seqZ in Hj.
    rewrite (dir_unique w dir Hok i j nm) by (done || lia). done.
  - eapply find_none in F; [|apply list_elem_of_In, elem_of_seqZ; exact Hi]. simpl in F. congruence.
Qed.

Lemma contents_none w dir nm :
  (forall i, 0 <= i < 32 -> entry_is (entry dir i) nm = false) -> contents w dir nm = None.
Proof.
  intros H. unfold contents. destruct (List.find _ _) as [j|] eqn:F; [|done].
  apply find_some in F as [Hj Ej]. apply list_elem_of_In, elem_of_seqZ in Hj. rewrite H in Ej by lia. done.
Qed.

(** Two names of one entry are the same name. *)
Lemma named_inj e a b :
  nul_free a -> nul_free b -> entry_named e a = true -> entry_named e b = true -> a = b.
Proof.
  unfold entry_named. rewrite !bool_decide_eq_true. intros Ha Hb Ea Eb.
  assert (forall a b, nul_free a -> nul_free b -> (length a < length b)%nat ->
    take (S (length a)) e = a ++ [0] -> take (S (length b)) e = b ++ [0] -> False) as Hlt.
  { clear. intros a b Ha Hb Hl Ea Eb.
    assert (e !! length a = Some 0) as E1.
    { rewrite <- (lookup_take_lt e (S (length a))) by lia. rewrite Ea. apply list_lookup_middle. done. }
    rewrite <- (lookup_take_lt e (S (length b))), Eb, lookup_app_l in E1 by lia.
    apply (Forall_lookup_1 _ _ _ _ Hb) in E1. done. }
  destruct (Nat.lt_total (length a) (length b)) as [H|[H|H]];
    [exfalso; by apply (Hlt a b)| |exfalso; by apply (Hlt b a)].
  rewrite H, Eb in Ea. by apply app_inj_tail in Ea as [? _].
Qed.

Lemma entry_is_named e nm : entry_is e nm = true <-> entry_used e = true /\ entry_named e nm = true.
Proof. apply andb_true_iff. Qed.

(** Agreement of two maps on the names C strings can spell. *)
Definition same_files (m m' : list Z -> option (list Z)) : Prop := forall nm, nul_free nm -> m nm = m' nm.

Definition update_file (m : list Z -> option (list Z)) (nm : list Z) (c : option (list Z))
    (nm' : list Z) : option (list Z) := if bool_decide (nm' = nm) then c else m nm'.

(** The sectors of file [j] are the same. *)
Definition same_file (w w' : W) (j : Z) : Prop :=
  forall x, file_lba j 0 <= x < file_lba j 0 + 16 -> sector w' x = sector w x.

Lemma content_ext w w' j e : same_file w w' j -> 0 <= field e 44 4 <= 1 -> content w' j e = content w j e.
Proof.
  intros H Hs. unfold content. f_equal. apply sectors_ext. intros i Hi. apply H. unfold file_lba. lia.
Qed.

Lemma file_ok_ext w w' j e : same_file w w' j -> file_ok w j e -> file_ok w' j e.
Proof. intros H []. constructor; [done|done|]. by rewrite (content_ext w). Qed.

(** Files of other entries after a change of entry [i]. *)
Lemma contents_other w w' dir i e nm :
  nul_free nm ->
  length dir = 2048%nat -> dir_ok w dir -> 0 <= i < 32 -> length e = 64%nat ->
  (forall j, 0 <= j < 32 -> j <> i -> same_file w w' j) ->
  entry_is (entry dir i) nm = false -> entry_is e nm = false -> dir_ok w' (set_entry dir i e) ->
  contents w' (set_entry dir i e) nm = contents w dir nm.
Proof.
  intros Hnf Hl Hok Hi He Hsame H1 H2 Hok'.
  assert (forall j, 0 <= j < 32 -> entry_is (entry (set_entry dir i e) j) nm = entry_is (entry dir j) nm) as Heq.
  { intros j Hj. destruct (Z.eq_dec j i) as [->|Hji]; [by rewrite entry_set_eq, H1, H2|by rewrite entry_set_ne]. }
  destruct (List.find (fun j => entry_is (entry dir j) nm) (seqZ 0 32)) as [j|] eqn:F.
  - apply find_some in F as [Hj Ej]. apply list_elem_of_In, elem_of_seqZ in Hj.
    assert (j <> i) as Hji by congruence.
    rewrite (contents_some w dir nm j), (contents_some w' _ nm j) by (rewrite ?Heq; done || lia).
    rewrite entry_set_ne by (done || lia). f_equal. apply content_ext; [apply Hsame; lia|].
    apply entry_is_named in Ej as [Hu _]. apply (file_slot _ _ _ (dir_files w dir Hok j ltac:(lia) Hu)).
  - assert (forall j, 0 <= j < 32 -> entry_is (entry dir j) nm = false) as Hno.
    { intros j Hj. eapply find_none in F; [exact F|]. apply list_elem_of_In, elem_of_seqZ. exact Hj. }
    rewrite !contents_none; [done|done|]. intros j Hj. rewrite Heq by done. by apply Hno.
Qed.

(** Entry [i] becomes a file of name [nm]; it was free or had that name. *)
Lemma dir_put w w' dir i e nm :
  length dir = 2048%nat -> dir_ok w dir -> 0 <= i < 32 -> length e = 64%nat ->
  nul_free nm -> name_ok nm = true -> entry_is e nm = true -> file_ok w' i e ->
  (entry_used (entry dir i) = false \/ entry_is (entry dir i) nm = true) ->
  (forall j, 0 <= j < 32 -> j <> i -> entry_is (entry dir j) nm = false) ->
  (forall j, 0 <= j < 32 -> j <> i -> same_file w w' j) ->
  dir_ok w' (set_entry dir i e) /\
  same_files (contents w' (set_entry dir i e)) (update_file (contents w dir) nm (Some (content w' i e))).
Proof.
  intros Hl Hok Hi He Hnm Hnok Hen Hfile Hold Huniq Hsame.
  assert (forall nm', entry_is e nm' = true -> nul_free nm' -> nm' = nm) as Hinj.
  { intros nm' Hn' Hf. apply entry_is_named in Hn' as [_ Hn'], Hen as [_ Hen]. by apply (named_inj e). }
  assert (dir_ok w' (set_entry dir i e)) as Hok'.
  { constructor.
    - intros j Hj. destruct (Z.eq_dec j i) as [->|Hji].
      + by rewrite entry_set_eq.
      + rewrite entry_set_ne by done. intros Hu. apply (file_ok_ext w); [by apply Hsame|]. by apply (dir_files w dir).
    - intros j Hj. destruct (Z.eq_dec j i) as [->|Hji].
      + rewrite entry_set_eq by done. intros _. exists nm. apply entry_is_named in Hen as [_ Hen]. done.
      + rewrite entry_set_ne by done. by apply (dir_names w dir).
    - intros j k nm' Hj Hk Hf. destruct (Z.eq_dec j i) as [->|Hji], (Z.eq_dec k i) as [->|Hki];
        rewrite ?entry_set_eq, ?entry_set_ne by done; intros Ej Ek; [done| | |by apply (dir_unique w dir Hok j k nm')].
      + rewrite (Hinj nm' Ej Hf), Huniq in Ek by done. done.
      + rewrite (Hinj nm' Ek Hf), Huniq in Ej by done. done. }
  split; [done|]. intros nm' Hn'. unfold update_file. case_bool_decide as E.
  - subst nm'. rewrite (contents_some w' _ nm i) by (rewrite ?entry_set_eq; done). by rewrite entry_set_eq.
  - apply contents_other; try done.
    + apply not_true_iff_false. intros Ei. apply entry_is_named in Ei as Hu. destruct Hu as [Hu Hn1].
      destruct Hold as [Hold|Hold]; [congruence|]. apply entry_is_named in Hold as [_ Hn2].
      apply E. by apply (named_inj (entry dir i)).
    + apply not_true_iff_false. intros Ei. apply E. by apply Hinj.
Qed.

(** Entry [i], of name [nm], becomes free. *)
Lemma dir_clear w dir i e nm :
  length dir = 2048%nat -> dir_ok w dir -> 0 <= i < 32 -> length e = 64%nat ->
  nul_free nm -> entry_is (entry dir i) nm = true -> entry_used e = false ->
  dir_ok w (set_entry dir i e) /\
  same_files (contents w (set_entry dir i e)) (update_file (contents w dir) nm None).
Proof.
  intros Hl Hok Hi He Hnm Hold Hfree.
  assert (forall nm', entry_is e nm' = false) as Hno by (intros; unfold entry_is; by rewrite Hfree).
  assert (dir_ok w (set_entry dir i e)) as Hok'.
  { constructor.
    - intros j Hj. destruct (Z.eq_dec j i) as [->|Hji]; [rewrite entry_set_eq by done; congruence|].
      rewrite entry_set_ne by done. by apply (dir_files w dir).
    - intros j Hj. destruct (Z.eq_dec j i) as [->|Hji]; [rewrite entry_set_eq by done; congruence|].
      rewrite entry_set_ne by done. by apply (dir_names w dir).
    - intros j k nm' Hj Hk Hf. destruct (Z.eq_dec j i) as [->|Hji], (Z.eq_dec k i) as [->|Hki];
        rewrite ?entry_set_eq, ?entry_set_ne by done; rewrite ?Hno; try done.
      by apply (dir_unique w dir). }
  split; [done|]. intros nm' Hn'. unfold update_file. case_bool_decide as E.
  - subst nm'. apply contents_none. intros j Hj.
    destruct (Z.eq_dec j i) as [->|Hji]; [by rewrite entry_set_eq|]. rewrite entry_set_ne by done.
    apply not_true_iff_false. intros Ej. apply Hji. by apply (dir_unique w dir Hok j i nm).
  - apply contents_other; try done. apply not_true_iff_false. intros Ei. apply E.
    apply entry_is_named in Ei as [_ Ei], Hold as [_ Hold]. by apply (named_inj (entry dir i)).
Qed.

(** The directory and the map depend on the data area only. *)
Lemma same_data_file w w' j : same_data w w' -> 0 <= j < 32 -> same_file w w' j.
Proof. intros H Hj x Hx. apply H. unfold file_lba in Hx. lia. Qed.

Lemma dir_ok_ext w w' dir :
  (forall j, 0 <= j < 32 -> forall slot, slot = field (entry dir j) 44 4 -> 0 <= slot <= 1 ->
     content w' j (entry dir j) = content w j (entry dir j)) ->
  dir_ok w dir -> dir_ok w' dir /\ same_files (contents w' dir) (contents w dir).
Proof.
  intros H Hok. assert (dir_ok w' dir) as Hok'.
  { destruct Hok. constructor; [|done..]. intros j Hj Hu. destruct (dir_files0 j Hj Hu).
    constructor; [done|done|]. by rewrite H with (slot := field (entry dir j) 44 4). }
  split; [done|]. intros nm Hnm. unfold contents.
  destruct (List.find _ _) as [j|] eqn:F; [|done]. f_equal.
  apply find_some in F as [Hj Ej]. apply list_elem_of_In, elem_of_seqZ in Hj.
  apply entry_is_named in Ej as [Hu _]. pose proof (dir_files w dir Hok j ltac:(lia) Hu) as [].
  by apply H with (slot := field (entry dir j) 44 4); [lia| |].
Qed.

Lemma dir_ok_same_data w w' dir :
  same_data w w' -> dir_ok w dir -> dir_ok w' dir /\ same_files (contents w' dir) (contents w dir).
Proof.
  intros H. apply dir_ok_ext. intros j Hj slot -> Hs. apply content_ext; [|done]. by apply same_data_file.
Qed.

Definition mounted_ok (w : W) (fs : mvhfs) : Prop := on_disk w fs /\ dir_ok w (directory fs).

Definition files (w : W) (fs : mvhfs) : list Z -> option (list Z) := contents w (directory fs).

(** An operation that takes the map [files w fs] to [m'], or fails because of the
    disk; then the disk, mounted again, holds one of the two maps. *)
Definition atomic_step (w : W) (fs : mvhfs) (m' : list Z -> option (list Z))
    (res : option (W * Z * option mvhfs)) : Prop :=
  exists w' r fs', res = Some (w', r, Some fs') /\
    ((r = 0 /\ mounted_ok w' fs' /\ same_files (files w' fs') m') \/
     (r = -1 /\ fs' = fs /\ ~ reliable d /\
      exists now, mounted_ok w' now /\
        (same_files (files w' now) (files w fs) \/ same_files (files w' now) m'))).

Lemma same_files_trans m1 m2 m3 : same_files m1 m2 -> same_files m2 m3 -> same_files m1 m3.
Proof. intros H1 H2 nm Hnm. by rewrite H1, H2. Qed.

Lemma set_directory_id fs dir dir' : directory fs = dir ->
  set_directory (set_directory fs dir') dir = fs.
Proof. intros <-. by destruct fs. Qed.

(** The common end of create, write and remove: commit the new entry, and put
    the old one back if that fails. *)
Lemma commit_entry w w1 fs i e m' :
  mounted_ok w fs -> generation fs + 1 < 2 ^ 64 -> 0 <= i < 32 -> length e = 64%nat -> all_bytes e ->
  (forall x, x < 10 -> sector w1 x = sector w x) ->
  dir_ok w1 (directory fs) /\ same_files (contents w1 (directory fs)) (files w fs) ->
  dir_ok w1 (set_entry (directory fs) i e) /\ same_files (contents w1 (set_entry (directory fs) i e)) m' ->
  atomic_step w fs m'
    (commit_or_restore s devices junk w1 (set_directory fs (set_entry (directory fs) i e)) (i * 64)
       (entry (directory fs) i)).
Proof.
  intros [Hod Hok] Hg Hi He Heb Hlow Hold Hnew.
  assert (on_disk w1 fs) as Hod1 by (apply (on_disk_spare w); [done|]; intros; apply Hlow; lia).
  pose proof (od_length w fs Hod) as Hl. pose proof (od_bytes w fs Hod) as Hb.
  destruct (commit_spec w1 fs (set_entry (directory fs) i e)) as (w' & r & fs' & E & Hsd & Hr);
    [done|done|by apply set_entry_length|by apply set_entry_bytes|].
  destruct (dir_ok_same_data w1 w' _ Hsd (proj1 Hold)) as [Ho1 Ho2].
  destruct (dir_ok_same_data w1 w' _ Hsd (proj1 Hnew)) as [Hn1 Hn2].
  unfold commit_or_restore. rewrite E. cbn [mbind option_bind].
  destruct Hr as [(-> & -> & Hod')|(-> & -> & Hrel & Hod')]; simpl negb; cbn match.
  - exists w', 0. eexists. split; [done|]. left. split; [done|].
    split; [by split|]. by apply (same_files_trans _ _ _ Hn2 (proj2 Hnew)).
  - cbn [set_directory directory]. unfold copy_bytes, MVHFS_ENTRY_SIZE.
    rewrite copy_spec.
    2: { unfold room. rewrite set_entry_length by done. lia. }
    2: { unfold room. rewrite entry_length by done. lia. }
    cbn [mbind option_bind]. rewrite slice_all by (by rewrite entry_length).
    change (splice (set_entry (directory fs) i e) (i * 64) (entry (directory fs) i))
      with (set_entry (set_entry (directory fs) i e) i (entry (directory fs) i)).
    rewrite set_entry_twice, set_entry_self by (done || by apply entry_length).
    exists w', (-1). eexists. split; [done|]. right.
    split_and!; [done|by apply set_directory_id|done|].
    destruct Hod' as [Hod'|Hod'].
    + exists fs. split; [by split|]. left. by apply (same_files_trans _ _ _ Ho2 (proj2 Hold)).
    + exists (committed fs (set_entry (directory fs) i e)). split; [by split|]. right.
      by apply (same_files_trans _ _ _ Hn2 (proj2 Hnew)).
Qed.

(** ** The operations *)

Lemma name_ok_length nm : name_ok nm = true -> (0 < length nm < 32)%nat.
Proof.
  unfold name_ok. rewrite !andb_true_iff, negb_true_iff, Nat.eqb_neq, Nat.ltb_lt. lia.
Qed.

Lemma name_nul_free array nm : name_string array nm -> nul_free nm.
Proof. by intros [(rest & _ & H) _]. Qed.

(** The lookup of a name, as the operations do it. *)
Lemma find_entry_files w fs array nm :
  mounted_ok w fs -> name_string array nm -> name_ok nm = true ->
  (find_entry (directory fs) array = Some (-1) /\ files w fs nm = None /\
   forall i, 0 <= i < 32 -> entry_is (entry (directory fs) i) nm = false) \/
  (exists i, find_entry (directory fs) array = Some i /\ 0 <= i < 32 /\
     entry_is (entry (directory fs) i) nm = true /\
     files w fs nm = Some (content w i (entry (directory fs) i)) /\
     file_ok w i (entry (directory fs) i)).
Proof.
  intros [Hod Hok] Hn Hnok. pose proof (name_nul_free _ _ Hn) as Hnf.
  destruct (find_entry_spec (directory fs) (od_length w fs Hod) (od_bytes w fs Hod) array nm Hn) as (r & E & Hr);
    [by apply name_ok_length|].
  destruct Hr as [(-> & Hr)|(Hi & Hr & _)]; [left|right].
  - split_and!; [done| |done]. by apply contents_none.
  - exists r. split_and!; [done|lia|lia|done| |].
    + by apply contents_some.
    + apply entry_is_named in Hr as [Hu _]. by apply (dir_files w _ Hok).
Qed.

(** The backup of an entry. *)
Lemma backup_entry w fs i :
  on_disk w fs -> 0 <= i < 32 ->
  copy_bytes junk_entry 0 (directory fs) (i * 64) MVHFS_ENTRY_SIZE = Some (entry (directory fs) i).
Proof.
  intros Hod Hi. pose proof (od_length w fs Hod) as Hl. unfold copy_bytes, MVHFS_ENTRY_SIZE.
  rewrite copy_spec by (unfold room; lia). f_equal. unfold splice.
  fold (entry (directory fs) i). rewrite drop_ge by (rewrite entry_length by done; simpl; lia). apply app_nil_r.
Qed.

Lemma clear_entry w fs i :
  on_disk w fs -> 0 <= i < 32 ->
  clear_bytes (directory fs) (i * 64) MVHFS_ENTRY_SIZE = Some (set_entry (directory fs) i (replicate 64 0)).
Proof.
  intros Hod Hi. pose proof (od_length w fs Hod) as Hl. unfold clear_bytes, MVHFS_ENTRY_SIZE.
  rewrite fill_spec by (unfold room; lia). done.
Qed.

Lemma mounted_not_0 w fs : on_disk w fs -> (mounted fs =? 0) = false.
Proof. intros H. by rewrite (od_mounted w fs H). Qed.

Lemma remove_spec w fs array nm :
  mounted_ok w fs -> name_string array nm -> generation fs + 1 < 2 ^ 64 ->
  name_ok nm = true -> files w fs nm <> None ->
  atomic_step w fs (update_file (files w fs) nm None)
    (mvhfs_remove s devices junk junk_entry w (Some fs) (Some array)).
Proof.
  intros Hm Hn Hg Hnok Hex. pose proof Hm as [Hod Hok]. unfold mvhfs_remove.
  rewrite (mounted_not_0 w fs Hod), (valid_name_spec array nm Hn), Hnok. cbn [mbind option_bind negb]. cbn match.
  destruct (find_entry_files w fs array nm Hm Hn Hnok) as [(_ & Hnone & _)|(i & -> & Hi & He & _ & Hf)]; [done|].
  cbn [mbind option_bind]. rewrite (proj2 (Z.ltb_ge i 0)) by lia.
  destruct (entry_at_eq i Hi) as [-> _].
  rewrite (backup_entry w fs i Hod Hi), (clear_entry w fs i Hod Hi). cbn [mbind option_bind].
  apply (commit_entry w); try done; [by apply Forall_replicate|].
  apply (dir_clear w _ i (replicate 64 0) nm); try done; [by apply (od_length w)|].
  by apply (name_nul_free array).
Qed.

(** The entry [mvhfs_create] builds. *)
Definition new_entry (nm : list Z) : list Z :=
  nm ++ replicate (32 - length nm) 0 ++ le_bytes 4 1 ++ replicate 28 0.

Lemma new_entry_length nm : (length nm < 32)%nat -> length (new_entry nm) = 64%nat.
Proof. intros H. unfold new_entry. rewrite !length_app, !length_replicate, length_le_bytes. lia. Qed.

Lemma new_entry_bytes nm : all_bytes nm -> all_bytes (new_entry nm).
Proof.
  intros H. unfold new_entry, all_bytes. rewrite !Forall_app.
  split_and!; [done|by apply Forall_replicate|apply le_bytes_bytes|by apply Forall_replicate].
Qed.

Lemma new_entry_fields nm : (length nm < 32)%nat ->
  field (new_entry nm) 32 4 = 1 /\ field (new_entry nm) 36 4 = 0 /\ field (new_entry nm) 40 4 = 0 /\
  field (new_entry nm) 44 4 = 0.
Proof.
  intros H. unfold field, new_entry. rewrite app_assoc.
  assert (length (nm ++ replicate (32 - length nm) 0) = 32%nat) as L
    by (rewrite length_app, length_replicate; lia).
  set (pre := nm ++ _) in *.
  rewrite !(slice_skip pre) by lia. rewrite L. split_and!; reflexivity.
Qed.

Lemma new_entry_is nm : (length nm < 32)%nat -> entry_is (new_entry nm) nm = true.
Proof.
  intros H. apply entry_is_named. split.
  - unfold entry_used. by rewrite (proj1 (new_entry_fields nm H)).
  - apply bool_decide_eq_true. unfold new_entry.
    replace (32 - length nm)%nat with (S (31 - length nm)) by lia. cbn [replicate].
    rewrite take_app_ge by lia. f_equal. replace (S (length nm) - length nm)%nat with 1%nat by lia. done.
Qed.

(** Storing zero in a field that is zero. *)
Lemma new_entry_zero nm o : (length nm < 32)%nat -> 36 <= o <= 60 ->
  splice (new_entry nm) o (le_bytes 4 0) = new_entry nm.
Proof.
  intros H Ho. pose proof (new_entry_length nm H) as L64.
  assert (slice (new_entry nm) o 4 = le_bytes 4 0) as <-; [|apply splice_slice; unfold room; lia].
  unfold new_entry. rewrite !app_assoc.
  assert (length ((nm ++ replicate (32 - length nm) 0) ++ le_bytes 4 1) = 36%nat) as L
    by (rewrite !length_app, length_replicate, length_le_bytes; lia).
  rewrite slice_skip by lia. rewrite L. unfold slice.
  rewrite drop_replicate, take_replicate. change (le_bytes 4 0) with (replicate 4 0). f_equal. lia.
Qed.

(** The loop that copies the name into the cleared entry. *)
Lemma name_loop w fs i array nm :
  on_disk w fs -> 0 <= i < 32 -> name_string array nm -> (length nm < 32)%nat ->
  while_loop (S (length array))
    (fun '(dd, index) =>
       c ← rd array index;
       if c =? 0 then Some (inr dd)
       else dd ← wr dd (i * 64 + index) (u8 c); Some (inl (dd, u32 (index + 1))))
    (set_entry (directory fs) i (replicate 64 0), 0) =
  Some (set_entry (directory fs) i (nm ++ replicate (64 - length nm) 0)).
Proof.
  intros Hod Hi Hn Hl. pose proof (od_length w fs Hod) as Hdl.
  assert (length nm < length array)%nat as Hla.
  { destruct Hn as [(rest & -> & _) _]. rewrite length_app. simpl. lia. }
  set (at_index k := set_entry (directory fs) i (take k nm ++ replicate (64 - k) 0)).
  match goal with |- context [while_loop _ ?loop_body _] =>
  destruct (while_loop_rule
    (fun '(dd, index) => 0 <= index <= Z.of_nat (length nm) /\ dd = at_index (Z.to_nat index))
    (fun dd => dd = at_index (length nm)) (fun '(_, index) => (length nm - Z.to_nat index)%nat)
    (S (length array)) loop_body (set_entry (directory fs) i (replicate 64 0), 0)) as (r & -> & ->) end.
  - split; [lia|]. done.
  - simpl. lia.
  - intros [dd j] (Hj & ->). destruct (Z.eq_dec j (Z.of_nat (length nm))) as [->|Hne].
    + rewrite (name_rd_end array nm Hn). right. eexists. split; [reflexivity|]. by rewrite Nat2Z.id.
    + destruct (name_rd array nm j Hn ltac:(lia)) as (c & -> & Ec & Hc & Hf). cbn [mbind option_bind].
      rewrite (proj2 (Z.eqb_neq c 0)) by done. left.
      assert (length (take (Z.to_nat j) nm) = Z.to_nat j) as Lt by (rewrite length_take; lia).
      assert (length (take (Z.to_nat j) nm ++ replicate (64 - Z.to_nat j) 0) = 64%nat) as Le
        by (rewrite length_app, length_replicate; lia).
      unfold at_index at 1. rewrite wr_splice.
      2: { unfold room. rewrite set_entry_length by done. lia. }
      rewrite splice_entry by (done || simpl; lia). rewrite splice_append by (simpl; lia).
      cbn [mbind option_bind]. eexists. split; [reflexivity|]. rewrite u32_small by warith.
      split; [|lia]. split; [lia|]. unfold at_index. rewrite u8_small by done.
      replace (Z.to_nat (j + 1)) with (S (Z.to_nat j)) by lia. rewrite (take_S_r nm _ c) by done.
      do 3 f_equal. simpl. lia.
  - unfold at_index. by rewrite firstn_all.
Qed.

(** Storing a field of an entry. *)
Lemma store_entry w fs i e o v :
  on_disk w fs -> 0 <= i < 32 -> length e = 64%nat -> 0 <= o <= 60 ->
  Mvhfs.store32 (set_entry (directory fs) i e) (i * 64 + o) v =
    Some (set_entry (directory fs) i (splice e o (le_bytes 4 v))).
Proof.
  intros Hod Hi He Ho. pose proof (od_length w fs Hod) as Hl. unfold Mvhfs.store32.
  rewrite put32_spec by (unfold room; rewrite set_entry_length by done; lia).
  by rewrite splice_entry by (done || rewrite ?length_le_bytes; lia).
Qed.

Lemma create_spec w fs array nm :
  mounted_ok w fs -> name_string array nm -> generation fs + 1 < 2 ^ 64 ->
  name_ok nm = true -> files w fs nm = None ->
  (exists i, 0 <= i < 32 /\ entry_used (entry (directory fs) i) = false) ->
  atomic_step w fs (update_file (files w fs) nm (Some []))
    (mvhfs_create s devices junk junk_entry w (Some fs) (Some array)).
Proof.
  intros Hm Hn Hg Hnok Hex Hroom. pose proof Hm as [Hod Hok]. unfold mvhfs_create.
  pose proof (name_ok_length nm Hnok) as Hnl.
  rewrite (mounted_not_0 w fs Hod), (valid_name_spec array nm Hn), Hnok. cbn [mbind option_bind negb]. cbn match.
  destruct (find_entry_files w fs array nm Hm Hn Hnok) as [(-> & _ & Hno)|(i & _ & _ & _ & ? & _)]; [|congruence].
  cbn [mbind option_bind]. change (0 <=? -1) with false. cbn match.
  destruct (find_free_spec (directory fs) (od_length w fs Hod) (od_bytes w fs Hod)) as (i & -> & Hfree).
  cbn [mbind option_bind].
  destruct Hfree as [(_ & Hnone)|(Hi & Hfree & _)].
  { destruct Hroom as (j & Hj & Hu). specialize (Hnone j Hj). by rewrite Hu in Hnone. }
  rewrite (proj2 (Z.ltb_ge i 0)) by lia. destruct (entry_at_eq i Hi) as [-> _].
  rewrite (backup_entry w fs i Hod Hi), (clear_entry w fs i Hod Hi). cbn [mbind option_bind].
  rewrite (name_loop w fs i array nm Hod Hi Hn ltac:(lia)). cbn [mbind option_bind].
  replace (nm ++ replicate (64 - length nm) 0) with ((nm ++ replicate (32 - length nm) 0) ++ replicate 32 0).
  2: { rewrite <- app_assoc, <- replicate_add. do 2 f_equal. lia. }
  assert (length (nm ++ replicate (32 - length nm) 0) = 32%nat) as L
    by (rewrite length_app, length_replicate; lia).
  assert (forall x, length ((nm ++ replicate (32 - length nm) 0) ++ x) = (32 + length x)%nat) as Lx
    by (intros; rewrite length_app; lia).
  rewrite (store_entry w) by (done || rewrite ?Lx; (done || lia)). cbn [mbind option_bind].
  rewrite splice_append by (rewrite ?L; done || (rewrite length_le_bytes; lia)).
  rewrite length_le_bytes, <- !app_assoc. change (32 - 4)%nat with 28%nat. fold (new_entry nm).
  do 3 (rewrite (store_entry w) by (done || (by apply new_entry_length; lia) || lia);
        rewrite new_entry_zero by lia; cbn [mbind option_bind]).
  apply (commit_entry w); try done; [by apply new_entry_length; lia|apply new_entry_bytes, Hn|].
  destruct (new_entry_fields nm ltac:(lia)) as (_ & F36 & F40 & F44).
  assert (content w i (new_entry nm) = []) as Hc by (unfold content; by rewrite F36).
  rewrite <- Hc. apply dir_put; try done.
  - by apply (od_length w).
  - by apply new_entry_length; lia.
  - by apply (name_nul_free array).
  - apply new_entry_is. lia.
  - constructor; [lia|lia|]. rewrite Hc, F40. apply crc_of_nil.
  - left. by apply negb_true_iff.
  - intros j Hj _. by apply Hno.
Qed.

(** The bytes a write stores, and the eight sectors they fill. *)
Definition payload (data : option (list Z)) (size : Z) : list Z :=
  match data with Some l => take (Z.to_nat size) l | None => [] end.

Definition padded (p : list Z) : list Z := p ++ replicate (4096 - length p) 0.

Definition data_ok (data : option (list Z)) (size : Z) : Prop :=
  0 <= size <= 4096 /\
  match data with Some l => size <= Z.of_nat (length l) /\ all_bytes l | None => size = 0 end.

Lemma payload_length data size : data_ok data size -> Z.of_nat (length (payload data size)) = size.
Proof. intros [Hs Hd']. destruct data as [l|]; simpl; [rewrite length_take; lia|lia]. Qed.

Lemma payload_bytes data size : data_ok data size -> all_bytes (payload data size).
Proof. intros [_ Hd']. destruct data as [l|]; [apply Forall_take, Hd'|constructor]. Qed.

Lemma padded_length p : (length p <= 4096)%nat -> length (padded p) = 4096%nat.
Proof. intros H. unfold padded. rewrite length_app, length_replicate. lia. Qed.

(** Sector [i] of the copy, as the loop of [mvhfs_write] fills it. *)
Lemma copy_sector data size i off chunk :
  data_ok data size -> 0 <= i < 8 -> off = Z.min size (512 * i) -> chunk = Z.min 512 (size - off) ->
  (if negb (chunk =? 0) then input ← data; copy_bytes zero_sector 0 input off chunk
   else Some zero_sector) = Some (slice (padded (payload data size)) (i * 512) 512).
Proof.
  intros Hok Hi Hoff Hchunk. pose proof (payload_length data size Hok) as Hl. destruct Hok as [Hs Hdata].
  destruct (Z.eqb_spec chunk 0) as [H0|H0]; simpl negb; cbn match.
  - f_equal. unfold padded. rewrite slice_skip by lia. unfold slice.
    rewrite drop_replicate, take_replicate. unfold zero_sector. f_equal. lia.
  - destruct data as [l|]; [|lia]. destruct Hdata as [Hle Hb]. cbn [mbind option_bind].
    unfold copy_bytes. rewrite copy_spec by (unfold room, zero_sector; rewrite ?length_replicate; lia).
    assert (off = i * 512) as -> by lia.
    assert (Z.of_nat (length (slice l (i * 512) chunk)) = chunk) as Lc
      by (rewrite length_slice; [lia|unfold room; lia]).
    f_equal. unfold zero_sector. change (replicate 512 0) with ([] ++ replicate 512 0) at 1.
    rewrite splice_append by (simpl; lia). unfold padded, payload in *. unfold slice.
    rewrite drop_app_le by (rewrite length_take; lia). rewrite skipn_firstn_comm, take_app.
    rewrite take_take, take_replicate, !length_take, length_drop. rewrite app_nil_l.
    clear Hl Lc Hb.
    apply (f_equal2 app); [apply (f_equal (fun n => take n _)); lia|apply (f_equal (fun n => replicate n 0))].
    rewrite (Nat.min_l (Z.to_nat chunk)), (Nat.min_l (Z.to_nat size - _) (length l - _)),
      (Nat.min_l (Z.to_nat size)) by lia. lia.
Qed.

Lemma write_copy_spec w lba data size :
  data_ok data size -> 10 <= lba -> lba + 8 <= 522 ->
  (exists w' off, write_copy s junk w dev lba data size = Some (inl (w', off)) /\
     same_outside w w' lba 8 /\ sectors w' lba 8 = padded (payload data size)) \/
  (exists w', write_copy s junk w dev lba data size = Some (inr w') /\ same_outside w w' lba 8 /\
     ~ reliable d).
Proof.
  intros Hok Hlo Hhi. pose proof (payload_length data size Hok) as Hl.
  assert (0 <= size <= 4096) as Hs by apply Hok. unfold MVHFS_MIN_SECTORS in Hcount.
  unfold write_copy. change (Z.to_nat MVHFS_SECTORS_PER_COPY) with 8%nat.
  match goal with |- context [for_break _ _ ?loop_body ?start] =>
  destruct (write_sectors_rule (fst : W * Z -> W) (fun i st => st.2 = Z.min size (512 * i))
    (fun i => slice (padded (payload data size)) (i * 512) 512) lba 8 loop_body start)
    as [([w' off] & -> & _ & Ho & Hc)|(w' & -> & Ho & Hrel)] end.
  - simpl. lia.
  - intros i [w1 off] Hi Hoff. cbn [snd] in Hoff. unfold MVHFS_SECTOR_SIZE.
    rewrite (u32_small (size - off)) by warith.
    set (chunk := if 512 <? size - off then 512 else size - off).
    assert (chunk = Z.min 512 (size - off)) as Hch by (unfold chunk; zcmp).
    pose proof (clear_buffer junk Hjunk) as Hcl. unfold MVHFS_SECTOR_SIZE in Hcl. rewrite Hcl.
    cbn [mbind option_bind].
    pose proof (copy_sector data size i off chunk Hok ltac:(lia) Hoff Hch) as Hsec.
    cbn [mbind option_bind] in Hsec. rewrite Hsec. cbn [mbind option_bind].
    assert (length (slice (padded (payload data size)) (i * 512) 512) = 512%nat) as Lsec
      by (apply (length_slice _ _ 512); unfold room; rewrite padded_length; lia).
    rewrite (u64_small (lba + i)) by warith.
    destruct (block_write_sector s dev d dev_registered w1 (lba + i)
      (slice (padded (payload data size)) (i * 512) 512) 0) as (w2 & r & -> & Hrel & Hne & He);
      [lia|unfold room; lia| |done|].
    { apply all_bytes_slice, Forall_app. split; [by apply payload_bytes|by apply Forall_replicate]. }
    rewrite (slice_all _ 512) in He by lia. exists w2, r. split; [by split|]. split; [done|].
    cbn [mbind option_bind]. destruct (Z.eqb_spec r 0) as [->|Hr]; [left|right]; simpl negb; cbn match.
    + split; [done|]. eexists. split; [reflexivity|]. split; [done|]. cbn [snd].
      rewrite u32_small by warith. lia.
    + done.
  - left. exists w', off. split_and!; [done..|]. apply sectors_of_contents; [|done].
    rewrite padded_length; lia.
  - right. exists w'. done.
Qed.

(** The entry of a file after a write. *)
Definition written_entry (e : list Z) (size crc slot : Z) : list Z :=
  splice (splice (splice e 36 (le_bytes 4 size)) 40 (le_bytes 4 crc)) 44 (le_bytes 4 slot).

Lemma splice4_room (e : list Z) o : length e = 64%nat -> 0 <= o <= 60 -> forall v, room e o (Z.of_nat (length (le_bytes 4 v))).
Proof. intros He Ho v. rewrite length_le_bytes. unfold room. lia. Qed.

Lemma splice4_length (e : list Z) o v : length e = 64%nat -> 0 <= o <= 60 -> length (splice e o (le_bytes 4 v)) = 64%nat.
Proof. intros He Ho. rewrite length_splice; [done|]. by apply splice4_room. Qed.

Lemma written_entry_length e size crc slot : length e = 64%nat -> length (written_entry e size crc slot) = 64%nat.
Proof. intros He. unfold written_entry. repeat apply splice4_length; (done || lia). Qed.

Lemma written_entry_bytes e size crc slot : all_bytes e -> all_bytes (written_entry e size crc slot).
Proof. intros He. unfold written_entry. repeat apply all_bytes_splice; (done || apply le_bytes_bytes). Qed.

(** A 4-byte field after a store: the stored value there, the old one elsewhere. *)
Lemma splice4_field e o v o' : length e = 64%nat -> 0 <= o <= 60 -> fits 32 v -> 0 <= o' <= 60 ->
  o' = o \/ o' + 4 <= o \/ o + 4 <= o' ->
  field (splice e o (le_bytes 4 v)) o' 4 = if o' =? o then v else field e o' 4.
Proof.
  intros He Ho Hv Ho' Hd'. destruct (Z.eqb_spec o' o) as [->|Hne].
  - etrans; [apply (field_put_eq e o 4 v); unfold room; lia|]. by apply Z.mod_small.
  - apply field_put_ne; [by apply splice4_room|unfold room; lia|rewrite length_le_bytes; lia].
Qed.

Lemma written_entry_fields e size crc slot :
  length e = 64%nat -> fits 32 size -> fits 32 crc -> fits 32 slot ->
  field (written_entry e size crc slot) 32 4 = field e 32 4 /\
  field (written_entry e size crc slot) 36 4 = size /\ field (written_entry e size crc slot) 40 4 = crc /\
  field (written_entry e size crc slot) 44 4 = slot.
Proof.
  intros He H1 H2 H3. unfold written_entry.
  split_and!; rewrite !splice4_field by (repeat apply splice4_length; (done || lia)); reflexivity.
Qed.

Lemma written_entry_is e size crc slot nm :
  length e = 64%nat -> (length nm < 32)%nat -> fits 32 size -> fits 32 crc -> fits 32 slot ->
  entry_is (written_entry e size crc slot) nm = entry_is e nm.
Proof.
  intros He Hn H1 H2 H3. unfold entry_is, entry_used.
  rewrite (proj1 (written_entry_fields e size crc slot He H1 H2 H3)). f_equal.
  unfold entry_named.
  assert (take (S (length nm)) (written_entry e size crc slot) = take (S (length nm)) e) as ->; [|done].
  unfold written_entry.
  assert (forall b o l, length b = 64%nat -> 36 <= o -> take (S (length nm)) (splice b o l) = take (S (length nm)) b) as Ht.
  { intros b o l Hb Ho. unfold splice. rewrite take_app_le by (rewrite length_take; lia).
    rewrite take_take. f_equal. lia. }
  rewrite !Ht by (repeat apply splice4_length; (done || lia)). done.
Qed.

Lemma data_lba_eq i slot : 0 <= i < 32 -> 0 <= slot <= 1 -> data_lba i slot = file_lba i slot.
Proof.
  intros Hi Hs. unfold data_lba, file_lba, MVHFS_DATA_LBA, MVHFS_SECTORS_PER_COPY.
  rewrite u64_small by warith. lia.
Qed.

(** Writing the spare copy of file [i] does not change any file. *)
Lemma spare_copy w w1 fs i :
  mounted_ok w fs -> 0 <= i < 32 -> file_ok w i (entry (directory fs) i) ->
  same_outside w w1 (file_lba i (1 - field (entry (directory fs) i) 44 4)) 8 ->
  dir_ok w1 (directory fs) /\ same_files (contents w1 (directory fs)) (files w fs).
Proof.
  intros [Hod Hok] Hi Hf Hout. apply dir_ok_ext; [|done]. intros j Hj slot -> Hs. unfold content. f_equal.
  pose proof (file_slot _ _ _ Hf). apply sectors_ext. intros k Hk. apply Hout.
  destruct (Z.eq_dec j i) as [->|]; unfold file_lba; lia.
Qed.

Lemma crc32_payload data size : data_ok data size -> crc32 data size = Some (crc_of (payload data size)).
Proof.
  intros [Hs Hdata]. destruct data as [l|].
  - apply crc32_crc_of. lia.
  - subst size. simpl payload. by rewrite crc_of_nil.
Qed.

(** The three stores into the entry of a written file. *)
Lemma store_written w fs i size crc slot :
  on_disk w fs -> 0 <= i < 32 ->
  (d ← Mvhfs.store32 (directory fs) (i * 64 + 36) size;
   d ← Mvhfs.store32 d (i * 64 + 40) crc; Mvhfs.store32 d (i * 64 + 44) slot) =
  Some (set_entry (directory fs) i (written_entry (entry (directory fs) i) size crc slot)).
Proof.
  intros Hod Hi. pose proof (od_length w fs Hod) as Hl. pose proof (entry_length (directory fs) Hl i Hi) as He.
  rewrite <- (set_entry_self (directory fs) Hl i Hi) at 1.
  rewrite (store_entry w) by (done || lia). cbn [mbind option_bind].
  rewrite (store_entry w) by (done || lia || (apply splice4_length; (done || lia))). cbn [mbind option_bind].
  rewrite (store_entry w) by (done || lia || (repeat apply splice4_length; (done || lia))). done.
Qed.

Lemma data_guard data size : data_ok data size ->
  (MVHFS_FILE_MAX <? size) || (is_null data && negb (size =? 0)) = false.
Proof.
  intros [Hs Hdata]. unfold MVHFS_FILE_MAX. rewrite (proj2 (Z.ltb_ge _ _)) by lia.
  destruct data; [done|]. by subst size.
Qed.

Lemma write_spec w fs array nm data size :
  mounted_ok w fs -> name_string array nm -> generation fs + 1 < 2 ^ 64 ->
  name_ok nm = true -> files w fs nm <> None -> data_ok data size ->
  atomic_step w fs (update_file (files w fs) nm (Some (payload data size)))
    (mvhfs_write s devices junk junk_entry w (Some fs) (Some array) data size).
Proof.
  intros Hm Hn Hg Hnok Hex Hdata. pose proof Hm as [Hod Hok]. unfold mvhfs_write.
  rewrite (mounted_not_0 w fs Hod), (valid_name_spec array nm Hn), Hnok. cbn [mbind option_bind negb orb]. cbn match.
  rewrite (data_guard data size Hdata).
  destruct (find_entry_files w fs array nm Hm Hn Hnok) as [(_ & Hnone & _)|(i & -> & Hi & He & _ & Hf)]; [done|].
  cbn [mbind option_bind]. rewrite (proj2 (Z.ltb_ge i 0)) by lia. destruct (entry_at_eq i Hi) as [-> _].
  pose proof (od_length w fs Hod) as Hl. pose proof (od_bytes w fs Hod) as Hb.
  rewrite (backup_entry w fs i Hod Hi), (entry_load32 (directory fs)) by (done || lia). cbn [mbind option_bind].
  pose proof (file_slot _ _ _ Hf) as Hslot. pose proof (payload_length data size Hdata) as Hpl.
  set (e := entry (directory fs) i) in *. set (slot := field e 44 4) in *.
  rewrite flip_slot, data_lba_eq by lia. rewrite (od_device w fs Hod).
  assert (0 <= size <= 4096) as Hs by apply Hdata.
  destruct (write_copy_spec w (file_lba i (1 - slot)) data size Hdata) as [(w1 & off & -> & Ho & Hsec)|(w1 & -> & Ho & Hrel)];
    [unfold file_lba; lia..| |]; cbn [mbind option_bind];
    pose proof (spare_copy w w1 fs i Hm Hi Hf Ho) as Hold;
    assert (forall x, x < 10 -> sector w1 x = sector w x) as Hlow by (intros x Hx; apply Ho; unfold file_lba; lia).
  2: { exists w1, (-1), fs. split; [done|]. right. split_and!; [done..|]. exists fs. split; [|by left; apply Hold].
       split; [|apply Hold]. apply (on_disk_spare w); [done|]. intros x Hx _. apply Hlow. lia. }
  rewrite (crc32_payload data size Hdata).
  assert (fits 32 (crc_of (payload data size))) as Hcrc by (apply crc_of_fits; by apply payload_bytes).
  pose proof (store_written w fs i size (crc_of (payload data size)) (1 - slot) Hod Hi) as Hst.
  destruct (Mvhfs.store32 (directory fs) (i * 64 + 36) size) as [d1|]; [|done]. cbn [mbind option_bind] in *.
  destruct (Mvhfs.store32 d1 (i * 64 + 40) _) as [d2|]; [|done]. cbn [mbind option_bind] in *.
  rewrite Hst. cbn [mbind option_bind]. fold e.
  pose proof (entry_length (directory fs) Hl i Hi) as Hel. fold e in Hel.
  destruct (written_entry_fields e size (crc_of (payload data size)) (1 - slot)) as (_ & F36 & F40 & F44);
    [done|warith|done|warith|].
  set (e' := written_entry e size (crc_of (payload data size)) (1 - slot)) in *.
  assert (content w1 i e' = payload data size) as Hc.
  { unfold content. rewrite F36, F44, Hsec. unfold padded. rewrite take_app_le by lia. apply take_ge. lia. }
  apply (commit_entry w); try done; [by apply written_entry_length|by apply written_entry_bytes, entry_bytes|].
  rewrite <- Hc. apply dir_put; try done.
  - by apply written_entry_length.
  - by apply (name_nul_free array).
  - unfold e'. rewrite written_entry_is; [done|done|by apply name_ok_length|warith|done|warith].
  - constructor; [lia|lia|]. by rewrite Hc, F40.
  - by right.
  - intros j Hj Hji. apply not_true_iff_false. intros Ej. apply Hji.
    by apply (dir_unique w _ Hok j i nm); [..|apply (name_nul_free array)| |].
  - intros j Hj Hji x Hx. apply Ho. unfold file_lba in *. lia.
Qed.

Lemma read_copy_spec w lba n out :
  10 <= lba -> lba + 8 <= 522 -> 0 <= n <= 4096 -> n <= Z.of_nat (length out) ->
  let c := take (Z.to_nat n) (sectors w lba 8) in
  read_copy s junk w dev lba n (Some out) = Some (inl (w, crc_of c, Some (splice out 0 c))).
Proof.
  intros Hlo Hhi Hn Hout c. set (S := sectors w lba 8).
  assert (length S = 4096%nat) as LS by apply sectors_length.
  unfold read_copy, MVHFS_SECTOR_SIZE, MVHFS_MIN_SECTORS in *.
  match goal with |- context [while_loop ?fuel ?loop_body ?start] =>
  destruct (while_loop_rule
    (fun '(w', sec, k, off, crc, o) => w' = w /\ length sec = 512%nat /\ 0 <= k <= 8 /\
       off = Z.min n (512 * k) /\ crc = crc_of (take (Z.to_nat off) S) /\
       o = Some (splice out 0 (take (Z.to_nat off) S)))
    (fun r => r = inl (w, crc_of c, Some (splice out 0 c)))
    (fun '(_, _, _, off, _, _) => Z.to_nat (n - off)) fuel loop_body start) as (r & -> & ->) end.
  - split_and!; [done|done|lia|lia|lia| |].
    + simpl Z.to_nat. by rewrite take_0, crc_of_nil.
    + simpl Z.to_nat. rewrite take_0. unfold splice. simpl. by rewrite drop_0.
  - lia.
  - intros [[[[[w' sec] k] off] crc] o] (-> & Hsec & Hk & Hoff & -> & ->).
    destruct (Z.ltb_spec off n) as [Hlt|Hge]; [left|right].
    2: { eexists. split; [done|]. by assert (off = n) as -> by lia. }
    rewrite (u32_small (n - off)) by warith.
    set (chunk := if 512 <? n - off then 512 else n - off).
    assert (chunk = Z.min 512 (n - off)) as Hch by (unfold chunk; zcmp). clearbody chunk.
    assert (off = 512 * k) as Ho by lia. rewrite (u64_small (lba + k)) by warith.
    rewrite (block_read_sector s dev d dev_registered) by (lia || (unfold room; lia)).
    cbn [mbind option_bind]. rewrite splice_sector by done. simpl negb. cbn match.
    assert (sector w (lba + k) = take 512 (drop (Z.to_nat off) S)) as Esec.
    { rewrite Ho. pose proof (sectors_slice w lba 8 (Z.to_nat k) ltac:(lia)) as Es.
      rewrite Z2Nat.id in Es by lia. unfold S. rewrite <- Es. do 2 f_equal. lia. }
    rewrite crc32_update_crc_of by (rewrite sector_length; lia). cbn [mbind option_bind].
    unfold copy_bytes. assert (length (take (Z.to_nat off) S) = Z.to_nat off) as Lt by (rewrite length_take; lia).
    rewrite copy_spec.
    2: { unfold room. rewrite length_splice; [lia|]. unfold room. lia. }
    2: { unfold room. rewrite sector_length. lia. }
    cbn [mbind option_bind]. eexists. split; [reflexivity|].
    assert (take (Z.to_nat off) S ++ take (Z.to_nat chunk) (sector w (lba + k)) = take (Z.to_nat (off + chunk)) S) as Etake.
    { rewrite Esec, take_take, Nat.min_l by lia. rewrite take_take_drop. f_equal. lia. }
    rewrite !u32_small by warith. split; [|lia]. split_and!; [done|apply sector_length|lia|lia|lia| |].
    + by rewrite Etake.
    + f_equal. unfold slice at 1. simpl drop. rewrite drop_0. rewrite splice_next; [by rewrite Etake|lia|].
      unfold room. rewrite Etake, length_take. lia.
  - done.
Qed.

Lemma read_spec w fs array nm c out capacity size :
  mounted_ok w fs -> name_string array nm -> name_ok nm = true -> files w fs nm = Some c ->
  Z.of_nat (length c) <= capacity <= Z.of_nat (length out) ->
  mvhfs_read s junk w (Some fs) (Some array) (Some out) capacity (Some size) =
    Some (w, 0, Some (Z.of_nat (length c)), Some (splice out 0 c)).
Proof.
  intros Hm Hn Hnok Hc Hcap. pose proof Hm as [Hod Hok]. unfold mvhfs_read.
  rewrite (mounted_not_0 w fs Hod), (valid_name_spec array nm Hn), Hnok.
  cbn [mbind option_bind negb orb is_null]. cbn match.
  destruct (find_entry_files w fs array nm Hm Hn Hnok) as [(_ & Hnone & _)|(i & -> & Hi & He & Hfs & Hf)]; [congruence|].
  rewrite Hc in Hfs. injection Hfs as ->. destruct Hf.
  cbn [mbind option_bind]. rewrite (proj2 (Z.ltb_ge i 0)) by lia. destruct (entry_at_eq i Hi) as [_ ->].
  pose proof (od_length w fs Hod) as Hl. pose proof (od_bytes w fs Hod) as Hb.
  rewrite !(entry_load32 (directory fs)) by (done || lia). cbn [mbind option_bind].
  set (e := entry (directory fs) i) in *.
  assert (Z.of_nat (length (content w i e)) = field e 36 4) as Hlen.
  { unfold content. rewrite length_take, sectors_length. lia. }
  unfold MVHFS_FILE_MAX. rewrite (proj2 (Z.ltb_ge 4096 _)), (proj2 (Z.ltb_ge capacity _)) by lia.
  cbn [orb andb is_null]. cbn match. rewrite (proj2 (Z.ltb_ge 1 _)) by lia.
  rewrite data_lba_eq, (od_device w fs Hod) by lia.
  rewrite read_copy_spec by (unfold file_lba; lia). cbn [mbind option_bind].
  fold (content w i e). rewrite file_crc0, Z.eqb_refl, Hlen. done.
Qed.

(** ** Formatting *)

Lemma zero_crc_loop :
  for_loop (Z.to_nat MVHFS_DIRECTORY_SECTORS) 0
    (fun _ crc => crc32_update crc (Some zero_sector) MVHFS_SECTOR_SIZE) 0 =
  Some (crc_of (replicate 2048 0)).
Proof.
  destruct (for_loop_rule (fun i crc => 0 <= i /\ crc = crc_of (replicate (512 * Z.to_nat i) 0)) 4 0
    (fun _ crc => crc32_update crc (Some zero_sector) MVHFS_SECTOR_SIZE) 0) as (crc & E & _ & ->).
  - split; [lia|]. simpl. by rewrite crc_of_nil.
  - intros i crc Hi (Hi0 & ->). assert (length zero_sector = 512%nat) as Lz by apply length_replicate.
    rewrite crc32_update_crc_of by (unfold MVHFS_SECTOR_SIZE; lia). eexists. split; [reflexivity|].
    split; [lia|]. rewrite take_ge by (unfold MVHFS_SECTOR_SIZE; lia). unfold zero_sector.
    rewrite <- replicate_add. do 2 f_equal. lia.
  - exact E.
Qed.

Definition fresh : mvhfs :=
  {| device_id := dev; superblock_slot := 0; directory_slot := 0; generation := 1; mounted := 1;
     directory := replicate 2048 0 |}.

Lemma zero_entry i : 0 <= i < 32 -> entry_used (entry (replicate 2048 0) i) = false.
Proof.
  intros Hi. unfold entry_used, field, entry. rewrite slice_slice by lia.
  assert (slice (replicate 2048 0) (i * 64 + 32) 4 = replicate 4 0) as ->; [|done].
  unfold slice. rewrite drop_replicate, take_replicate. f_equal. lia.
Qed.

Lemma fresh_dir_ok w : dir_ok w (replicate 2048 0).
Proof.
  constructor.
  - intros i Hi. by rewrite zero_entry.
  - intros i Hi. by rewrite zero_entry.
  - intros i j nm Hi Hj _ He. apply entry_is_named in He as [He _]. by rewrite zero_entry in He.
Qed.

Lemma fits_64_0 : fits 64 0. Proof. done. Qed.
Lemma fits_64_1 : fits 64 1. Proof. done. Qed.
Lemma fits_32_0 : fits 32 0. Proof. done. Qed.

(** A disk with the two initial superblocks and a clear first directory. *)
Lemma fresh_on_disk w :
  sector w 0 = superblock (sector_count d) 1 0 (crc_of (replicate 2048 0)) ->
  sector w 1 = superblock (sector_count d) 0 1 (crc_of (replicate 2048 0)) ->
  (forall i, 0 <= i < 4 -> sector w (2 + i) = zero_sector) ->
  on_disk w fresh.
Proof.
  intros H0 H1 Hz. destruct dev_registered as (_ & _ & _ & Hc).
  assert (fits 32 (crc_of (replicate 2048 0))) as Hcrc by (apply crc_of_fits; by apply Forall_replicate).
  remember (crc_of (replicate 2048 0)) as c eqn:Ec.
  constructor; cbn [fresh device_id mounted superblock_slot directory_slot generation directory];
    [reflexivity|reflexivity|lia|lia| | | | | |].
  - rewrite H0. apply superblock_valid; [split; [exact Hcount|reflexivity]|exact (proj2 Hc)|split; discriminate].
  - rewrite H0. apply sb_generation, fits_64_1.
  - rewrite H0. apply sb_slot, fits_32_0.
  - rewrite H0, <- Ec. apply sb_crc, Hcrc.
  - intros _. change (1 - 0) with 1. rewrite H1, (sb_generation _ 0 _ _ fits_64_0). reflexivity.
  - apply sectors_of_contents; [apply length_replicate|]. intros i Hi. unfold directory_lba.
    change (0 =? 0) with true. cbn match. unfold MVHFS_DIRECTORY0_LBA. rewrite Hz by lia.
    unfold slice, zero_sector. rewrite drop_replicate, take_replicate. f_equal. lia.
Qed.

Lemma zero_sector_bytes : all_bytes zero_sector.
Proof. by apply Forall_replicate. Qed.

(** Formatting always ends; if the disk reports no error it holds an empty file
    system. *)
Lemma format_spec w :
  exists w' r, mvhfs_format s devices junk w dev = Some (w', r) /\ (reliable d -> r = 0) /\
    (r = 0 -> mounted_ok w' fresh /\ forall nm, files w' fresh nm = None).
Proof.
  pose proof (length_replicate 512 0 : length zero_sector = 512%nat) as Lz.
  unfold mvhfs_format. rewrite device_info_spec. cbn [mbind option_bind].
  rewrite Hsize, (proj2 (Z.ltb_ge _ _)), (proj2 (Z.eqb_neq (writable d) 0)) by done.
  change (negb (512 =? MVHFS_SECTOR_SIZE) || false || false) with false. cbn match.
  rewrite clear_buffer by done. rewrite bind_some, zero_crc_loop, bind_some.
  unfold MVHFS_MIN_SECTORS in Hcount. pose proof fresh_on_disk as Hfresh. revert Hfresh.
  generalize (crc_of (replicate 2048 0)). intros c Hfresh.
  match goal with |- context [for_break _ _ ?loop_body ?start] =>
  destruct (write_sectors_rule (fun w => w) (fun _ _ => True) (fun _ => zero_sector) 2 8 loop_body start I)
    as [(w1 & E & _ & Ho & Hz)|(w1 & E & Ho & Hrel)] end.
  { intros i w1 Hi _. unfold MVHFS_DIRECTORY0_LBA.
    destruct (block_write_sector s dev d dev_registered w1 (2 + i) zero_sector 0)
      as (w2 & r & -> & Hrel & Hne & He); [lia|unfold room; lia|apply zero_sector_bytes|done|].
    rewrite slice_all in He by lia. exists w2, r. split; [by split|]. split; [done|]. cbn [mbind option_bind].
    destruct (Z.eqb_spec r 0) as [->|Hr]; [left|right]; simpl negb; cbn match; [|done]. eauto. }
  2: { change (Z.to_nat (MVHFS_DIRECTORY_SECTORS * 2)) with 8%nat. rewrite E. cbn [mbind option_bind].
       exists w1, (-1). split_and!; [done|done|lia]. }
  change (Z.to_nat (MVHFS_DIRECTORY_SECTORS * 2)) with 8%nat. rewrite E. cbn [mbind option_bind].
  rewrite build_superblock_spec by done. cbn [mbind option_bind].
  destruct (block_write_sector s dev d dev_registered w1 1
    (superblock (sector_count d) 0 1 c) 0) as (w2 & r2 & -> & Hrel2 & Hne2 & He2);
    [lia|unfold room; rewrite superblock_length; lia|apply superblock_bytes|done|].
  cbn [mbind option_bind]. destruct (Z.eqb_spec r2 0) as [->|Hr2]; simpl negb; cbn match.
  2: { exists w2, (-1). split_and!; [done|tauto|lia]. }
  rewrite build_superblock_spec by apply superblock_length. cbn [mbind option_bind].
  destruct (block_write_sector s dev d dev_registered w2 0
    (superblock (sector_count d) 1 0 c) 0) as (w3 & r3 & -> & Hrel3 & Hne3 & He3);
    [lia|unfold room; rewrite superblock_length; lia|apply superblock_bytes|done|].
  exists w3, r3. split_and!; [done|done|]. intros ->.
  rewrite slice_all in He2, He3 by (by rewrite superblock_length).
  destruct He2 as [He2|[[] _]]; [|done]. destruct He3 as [He3|[[] _]]; [|done].
  split; [split; [|apply fresh_dir_ok]|].
  - apply Hfresh; [exact He3|rewrite Hne3 by lia; exact He2|]. intros i Hi. rewrite Hne3, Hne2 by lia. apply Hz. lia.
  - intros nm. apply contents_none. intros i Hi. unfold entry_is. simpl directory. by rewrite zero_entry.
Qed.

(** ** Mounting an arbitrary disk *)

(** Superblock [k] is valid and the directory it names has its checksum. *)
Definition usable (w : W) (k : Z) : Prop :=
  valid w k /\
  crc_of (sectors w (directory_lba (field (sector w k) 32 4)) 4) = field (sector w k) 40 4.

(** [fs] is what superblock [k] describes. *)
Record mounted_from (w : W) (k : Z) (fs : mvhfs) : Prop := {
  mf_device : device_id fs = dev;
  mf_mounted : mounted fs = 1;
  mf_superblock : superblock_slot fs = k;
  mf_slot : directory_slot fs = field (sector w k) 32 4;
  mf_generation : generation fs = field (sector w k) 24 8;
  mf_directory : directory fs = sectors w (directory_lba (directory_slot fs)) 4;
}.

Lemma mount_from_any w k fs0 sec :
  valid w k -> same_head sec (sector w k) -> length (directory fs0) = 2048%nat ->
  (usable w k /\ exists fs, mount_from_superblock s w fs0 dev k sec = Some (w, 0, fs) /\ mounted_from w k fs) \/
  (~ usable w k /\ exists dir, mount_from_superblock s w fs0 dev k sec = Some (w, -1, set_directory fs0 dir) /\
     length dir = 2048%nat).
Proof.
  intros V Hs Hl. unfold mount_from_superblock.
  rewrite !(head_load32 _ _ _ _ Hs), (head_load64 _ _ _ _ Hs) by lia. cbn [mbind option_bind].
  rewrite read_directory_spec by (done || apply (ok_slot _ _ V)). cbn [mbind option_bind].
  destruct (Z.eqb_spec (crc_of (sectors w (directory_lba (field (sector w k) 32 4)) 4)) (field (sector w k) 40 4)) as [E|E];
    simpl negb; cbn match; [left|right].
  - split; [by split|]. eexists. split; [reflexivity|]. by constructor.
  - split; [by intros [_ ?]|]. eexists. split; [reflexivity|]. apply sectors_length.
Qed.

(** Try superblock [k] first and, if it is valid, the other one next. *)
Lemma mount_two w k k' first second fs0 (valid2 : bool) :
  valid w k -> (if valid2 then valid w k' else ~ valid w k') ->
  same_head first (sector w k) -> same_head second (sector w k') ->
  length (directory fs0) = 2048%nat -> mounted fs0 = 0 ->
  exists r fs',
    ('(w, status, fs) ← mount_from_superblock s w fs0 dev k first;
     if status =? 0 then Some (w, 0, Some fs) else
     if valid2 then
       '(w, status, fs) ← mount_from_superblock s w fs dev k' second;
       Some (w, status, Some fs)
     else Some (w, -1, Some fs)) = Some (w, r, Some fs') /\
    ((r = 0 /\ usable w k /\ mounted_from w k fs') \/
     (r = 0 /\ ~ usable w k /\ usable w k' /\ mounted_from w k' fs') \/
     (r = -1 /\ mounted fs' = 0 /\ ~ usable w k /\ ~ usable w k')).
Proof.
  intros V1 V2 H1 H2 Hl Hm.
  destruct (mount_from_any w k fs0 first V1 H1 Hl) as [(U & fs & -> & Hf)|(U & dir & -> & Hd1)];
    cbn [mbind option_bind]; simpl (_ =? 0); cbn match.
  { exists 0, fs. split; [done|]. by left. }
  destruct valid2.
  2: { exists (-1). eexists. split; [done|]. right. right. split_and!; [done..|]. by intros [? _]. }
  destruct (mount_from_any w k' (set_directory fs0 dir) second V2 H2 Hd1) as [(U2 & fs & -> & Hf)|(U2 & dir2 & -> & _)];
    cbn [mbind option_bind].
  - exists 0, fs. split; [done|]. right. by left.
  - exists (-1). eexists. split; [done|]. right. by right.
Qed.

(** Mounting any disk ends; it succeeds exactly if some superblock is usable,
    and then with the newest usable one. *)
Lemma mount_any w fs0 :
  length (directory fs0) = 2048%nat ->
  exists r fs', mvhfs_mount s devices junk w (Some fs0) dev = Some (w, r, Some fs') /\
    ((r = -1 /\ mounted fs' = 0 /\ ~ usable w 0 /\ ~ usable w 1) \/
     (r = 0 /\ exists k, 0 <= k <= 1 /\ usable w k /\ mounted_from w k fs' /\
        (usable w (1 - k) -> field (sector w (1 - k)) 24 8 <= field (sector w k) 24 8))).
Proof.
  intros Hl. unfold mvhfs_mount. rewrite device_info_spec, bind_some.
  rewrite Hsize. unfold MVHFS_SECTOR_SIZE. rewrite (proj2 (Z.ltb_ge _ _)) by done. cbn [negb orb Z.eqb Pos.eqb].
  set (fs1 := Build_mvhfs _ _ _ _ 0 _).
  assert (length (directory fs1) = 2048%nat) as Hl1 by done.
  destruct (load_superblock_spec w 0 ltac:(lia)) as (first & Hf & Vf).
  destruct (load_superblock_spec w 1 ltac:(lia)) as (second & Hs & Vs).
  assert (exists v1 : bool, load_superblock s junk w dev 0 d = Some (w, v1, first) /\
            if v1 then valid w 0 else ~ valid w 0) as (v1 & -> & V1)
    by (destruct Vf as [[? ?]|[? ?]]; [exists true|exists false]; done).
  assert (exists v2 : bool, load_superblock s junk w dev 1 d = Some (w, v2, second) /\
            if v2 then valid w 1 else ~ valid w 1) as (v2 & E2 & V2)
    by (destruct Vs as [[? ?]|[? ?]]; [exists true|exists false]; done).
  rewrite bind_some, E2, bind_some.
  rewrite (head_load64 _ _ _ _ Hf), (head_load64 _ _ _ _ Hs), !bind_some by lia.
  destruct v1, v2; cbn [negb andb orb]; cbn match.
  - destruct (Z.leb_spec (field (sector w 1) 24 8) (field (sector w 0) 24 8)) as [Hg|Hg]; cbn match.
    + destruct (mount_two w 0 1 first second fs1 true V1 V2 Hf Hs Hl1 eq_refl)
        as (r & fs' & E & [(-> & U & M)|[(-> & U0 & U & M)|(-> & Hm & U0 & U1)]]);
        rewrite E; do 2 eexists; (split; [reflexivity|]).
      * right. split; [done|]. exists 0. split_and!; [lia|lia|done|done|]. intros _. exact Hg.
      * right. split; [done|]. exists 1. split_and!; [lia|lia|done|done|]. change (1 - 1) with 0. done.
      * by left.
    + destruct (mount_two w 1 0 second first fs1 true V2 V1 Hs Hf Hl1 eq_refl)
        as (r & fs' & E & [(-> & U & M)|[(-> & U0 & U & M)|(-> & Hm & U0 & U1)]]);
        rewrite E; do 2 eexists; (split; [reflexivity|]).
      * right. split; [done|]. exists 1. split_and!; [lia|lia|done|done|]. change (1 - 1) with 0. lia.
      * right. split; [done|]. exists 0. split_and!; [lia|lia|done|done|]. change (1 - 0) with 1. done.
      * by left.
  - destruct (mount_two w 0 1 first second fs1 false V1 V2 Hf Hs Hl1 eq_refl)
      as (r & fs' & E & [(-> & U & M)|[(-> & U0 & [U _] & M)|(-> & Hm & U0 & U1)]]); [|done|];
      rewrite E; do 2 eexists; (split; [reflexivity|]).
    + right. split; [done|]. exists 0. split_and!; [lia|lia|done|done|]. by intros [? _].
    + by left.
  - destruct (mount_two w 1 0 second first fs1 false V2 V1 Hs Hf Hl1 eq_refl)
      as (r & fs' & E & [(-> & U & M)|[(-> & U0 & [U _] & M)|(-> & Hm & U0 & U1)]]); [|done|];
      rewrite E; do 2 eexists; (split; [reflexivity|]).
    + right. split; [done|]. exists 1. split_and!; [lia|lia|done|done|]. by intros [? _].
    + by left.
  - do 2 eexists. split; [reflexivity|]. left. split_and!; [done|done|by intros [? _]..].
Qed.

(** ** Refused requests *)

Lemma read_missing w fs array nm out capacity size :
  mounted_ok w fs -> name_string array nm -> (name_ok nm = false \/ files w fs nm = None) ->
  mvhfs_read s junk w (Some fs) (Some array) out capacity (Some size) = Some (w, -1, Some size, out).
Proof.
  intros Hm Hn Hno. pose proof Hm as [Hod Hok]. unfold mvhfs_read.
  rewrite (mounted_not_0 w fs Hod), (valid_name_spec array nm Hn). cbn [mbind option_bind].
  destruct (name_ok nm) eqn:Hnok; [|done]. cbn [negb orb is_null]. cbn match.
  destruct Hno as [?|Hnone]; [done|].
  destruct (find_entry_files w fs array nm Hm Hn Hnok) as [(-> & _ & _)|(i & _ & _ & _ & Hfs & _)]; [done|congruence].
Qed.

Lemma read_small w fs array nm c out capacity size :
  mounted_ok w fs -> name_string array nm -> name_ok nm = true -> files w fs nm = Some c ->
  capacity < Z.of_nat (length c) ->
  mvhfs_read s junk w (Some fs) (Some array) out capacity (Some size) =
    Some (w, -2, Some (Z.of_nat (length c)), out).
Proof.
  intros Hm Hn Hnok Hc Hcap. pose proof Hm as [Hod Hok]. unfold mvhfs_read.
  rewrite (mounted_not_0 w fs Hod), (valid_name_spec array nm Hn), Hnok.
  cbn [mbind option_bind negb orb is_null]. cbn match.
  destruct (find_entry_files w fs array nm Hm Hn Hnok) as [(_ & Hnone & _)|(i & -> & Hi & He & Hfs & Hf)]; [congruence|].
  rewrite Hc in Hfs. injection Hfs as ->. destruct Hf.
  cbn [mbind option_bind]. rewrite (proj2 (Z.ltb_ge i 0)) by lia. destruct (entry_at_eq i Hi) as [_ ->].
  pose proof (od_length w fs Hod) as Hl. pose proof (od_bytes w fs Hod) as Hb.
  rewrite !(entry_load32 (directory fs)) by (done || lia). cbn [mbind option_bind].
  assert (Z.of_nat (length (content w i (entry (directory fs) i))) = field (entry (directory fs) i) 36 4) as Hlen.
  { unfold content. rewrite length_take, sectors_length. lia. }
  rewrite (proj2 (Z.ltb_lt capacity _)) by lia. rewrite orb_true_r. by rewrite Hlen.
Qed.

(** Requests an operation turns down before it touches the disk. *)
Lemma refused w fs array nm data size :
  mounted_ok w fs -> name_string array nm ->
  (name_ok nm = false \/ files w fs nm <> None \/
     (forall i, 0 <= i < 32 -> entry_used (entry (directory fs) i) = true) ->
   mvhfs_create s devices junk junk_entry w (Some fs) (Some array) = Some (w, -1, Some fs)) /\
  (name_ok nm = false \/ files w fs nm = None \/ 4096 < size \/ (data = None /\ size <> 0) ->
   mvhfs_write s devices junk junk_entry w (Some fs) (Some array) data size = Some (w, -1, Some fs)) /\
  (name_ok nm = false \/ files w fs nm = None ->
   mvhfs_remove s devices junk junk_entry w (Some fs) (Some array) = Some (w, -1, Some fs)).
Proof.
  intros Hm Hn. pose proof Hm as [Hod Hok].
  unfold mvhfs_create, mvhfs_write, mvhfs_remove.
  rewrite (mounted_not_0 w fs Hod), (valid_name_spec array nm Hn). cbn [mbind option_bind].
  destruct (name_ok nm) eqn:Hnok; [|done]. cbn [negb orb]. cbn match. split_and!.
  - intros [?|Hno]; [done|].
    destruct (find_entry_files w fs array nm Hm Hn Hnok) as [(-> & Hnone & _)|(i & -> & Hi & _)].
    + cbn [mbind option_bind]. destruct Hno as [?|Hfull]; [done|].
      destruct (find_free_spec (directory fs) (od_length w fs Hod) (od_bytes w fs Hod)) as (r & -> & Hr).
      destruct Hr as [(-> & _)|(Hr & Hu & _)]; [done|]. by rewrite Hfull in Hu.
    + cbn [mbind option_bind]. by rewrite (proj2 (Z.leb_le 0 i)) by lia.
  - intros [?|Hno]; [done|].
    destruct ((MVHFS_FILE_MAX <? size) || (is_null data && negb (size =? 0))) eqn:G; [done|].
    destruct (find_entry_files w fs array nm Hm Hn Hnok) as [(-> & _ & _)|(i & _ & _ & _ & Hfs & _)]; [done|].
    exfalso. apply orb_false_iff in G as [G1 G2]. apply Z.ltb_ge in G1. unfold MVHFS_FILE_MAX in G1.
    destruct Hno as [?|[?|[-> Hs]]]; [congruence|lia|]. by rewrite (proj2 (Z.eqb_neq size 0)) in G2 by done.
  - intros [?|Hnone]; [done|].
    destruct (find_entry_files w fs array nm Hm Hn Hnok) as [(-> & _ & _)|(i & _ & _ & _ & Hfs & _)]; [done|congruence].
Qed.

End disk.
