(* ===== verification/MvhfsCorrect.v ===== *)
(** * MVHFS: the theorems

    The file system on any disk of the [SectorStore] interface, with the
    environment its functions run in gathered in one record, and a memory disk
    as the witness. *)

From S2P Require Import Prelude Crc32 Buffer Block Mvhfs MvhfsFormat MvhfsDirectory MvhfsSpec.

(** The device table is well formed, device [dev] is a writable disk with
    enough 512-byte sectors, and the stack arrays have their declared sizes. *)
Record mvhfs_env {W} (s : block W) (dev : Z) (d : block_device W)
    (devices : list (block_device W)) (junk junk_entry : list Z) : Prop := {
  env_table : block_inv s;
  env_dev : 0 <= dev < block_device_count s;
  env_device : rd (block_devices s) dev = Some d;
  env_sector : sector_size d = 512;
  env_count : MVHFS_MIN_SECTORS <= sector_count d;
  env_writable : writable d <> 0;
  env_devices : length devices = 16%nat;
  env_junk : length junk = 512%nat;
  env_entry : length junk_entry = 64%nat;
}.

(** ** Operations and what they mean *)

Inductive fs_op : Type :=
| Create
| Write (data : option (list Z)) (size : Z)
| Remove.

Definition run_op {W} (s : block W) devices junk junk_entry (w : W) (fs : mvhfs) (array : list Z) (op : fs_op)
    : option (W * Z * option mvhfs) :=
  match op with
  | Create => mvhfs_create s devices junk junk_entry w (Some fs) (Some array)
  | Write data size => mvhfs_write s devices junk junk_entry w (Some fs) (Some array) data size
  | Remove => mvhfs_remove s devices junk junk_entry w (Some fs) (Some array)
  end.

(** The successor of the map [m]. *)
Definition effect (m : list Z -> option (list Z)) (nm : list Z) (op : fs_op)
    : list Z -> option (list Z) :=
  match op with
  | Create => update_file m nm (Some [])
  | Write data size => update_file m nm (Some (payload data size))
  | Remove => update_file m nm None
  end.

(** When the operation applies. *)
Definition applies {W} {d : block_device W} `{!SectorStore d} (w : W) (fs : mvhfs) (nm : list Z) (op : fs_op) : Prop :=
  name_ok nm = true /\
  match op with
  | Create => files d w fs nm = None /\ exists i, 0 <= i < 32 /\ entry_used (entry (directory fs) i) = false
  | Write data size => files d w fs nm <> None /\ data_ok data size
  | Remove => files d w fs nm <> None
  end.

(** C1: crash consistency of MVHFS.  Let the disk hold a mounted, well-formed
    file system, and let every sector write be atomic but free to fail at any
    point (a power cut is a disk that refuses everything from some write on).
    Then each of [mvhfs_create], [mvhfs_write] and [mvhfs_remove], where it
    applies, ends without a fault in one of two ways.  It reports success, and
    memory and disk agree on a well-formed file system whose map from names to
    contents is the successor of the old one, with every other file unchanged.
    Or it reports an error (never on a reliable disk), leaves the state in memory
    as it was, and a new mount of the disk finds a well-formed file system that
    holds the old map or the successor, never anything in between. *)
Theorem mvhfs_crash_atomic {W} (s : block W) dev d `{!SectorStore d} devices junk junk_entry
    w fs array nm op fs0 :
  mvhfs_env s dev d devices junk junk_entry ->
  mounted_ok dev d w fs -> name_string array nm -> applies w fs nm op ->
  generation fs + 1 < 2 ^ 64 -> length (directory fs0) = 2048%nat ->
  exists w' r fs', run_op s devices junk junk_entry w fs array op = Some (w', r, Some fs') /\
    ((r = 0 /\ mounted_ok dev d w' fs' /\ same_files (files d w' fs') (effect (files d w fs) nm op)) \/
     (r = -1 /\ fs' = fs /\ ~ reliable d /\
      exists now, mvhfs_mount s devices junk w' (Some fs0) dev = Some (w', 0, Some now) /\
        mounted_ok dev d w' now /\
        (same_files (files d w' now) (files d w fs) \/
         same_files (files d w' now) (effect (files d w fs) nm op)))).
Proof.
  intros [] Hm Hn [Hnok Hop] Hg Hl0.
  assert (atomic_step dev d w fs (effect (files d w fs) nm op)
            (run_op s devices junk junk_entry w fs array op)) as (w' & r & fs' & E & H).
  { destruct op as [|data size|].
    - destruct Hop as [Hex Hroom]. by apply (create_spec s dev d).
    - destruct Hop as [Hex Hdata]. by apply (write_spec s dev d).
    - by apply (remove_spec s dev d). }
  exists w', r, fs'. split; [done|]. destruct H as [H|(Hr & Hfs & Hrel & now & Hnow & Hmap)]; [by left|right].
  split_and!; [done..|]. exists now. split_and!; [|done|done].
  by apply (mount_spec s dev d devices junk junk_entry); try done; apply Hnow.
Qed.

(** C2: reading.  On a mounted, well-formed file system [mvhfs_read] is total.
    For a file that fits the caller's buffer it returns 0, the exact size and
    the exact contents at the start of the buffer, the rest of it unchanged; for
    a buffer that is too small -2 and the size needed; for an illegal or unknown
    name -1.  It never changes the disk. *)
Theorem mvhfs_read_exact {W} (s : block W) dev d `{!SectorStore d} devices junk junk_entry
    w fs array nm out capacity size :
  mvhfs_env s dev d devices junk junk_entry ->
  mounted_ok dev d w fs -> name_string array nm -> capacity <= Z.of_nat (length out) ->
  mvhfs_read s junk w (Some fs) (Some array) (Some out) capacity (Some size) =
  match (if name_ok nm then files d w fs nm else None) with
  | None => Some (w, -1, Some size, Some out)
  | Some c =>
    if Z.of_nat (length c) <=? capacity
    then Some (w, 0, Some (Z.of_nat (length c)), Some (c ++ drop (length c) out))
    else Some (w, -2, Some (Z.of_nat (length c)), Some out)
  end.
Proof.
  intros [] Hm Hn Hcap. destruct (name_ok nm) eqn:Hnok.
  2: { apply (read_missing s dev d devices junk junk_entry) with (nm := nm); try done. by left. }
  destruct (files d w fs nm) as [c|] eqn:Hc.
  2: { apply (read_missing s dev d devices junk junk_entry) with (nm := nm); try done. by right. }
  destruct (Z.leb_spec (Z.of_nat (length c)) capacity) as [Hle|Hgt].
  - rewrite (read_spec s dev d devices junk junk_entry) with (nm := nm) (c := c); try done.
  - by apply (read_small s dev d devices junk junk_entry) with (nm := nm).
Qed.

(** C3: formatting.  [mvhfs_format] on a disk with at least 522 sectors always
    ends, and reports success on a disk whose writes do not fail.  Whenever it
    reports success, the disk holds a well-formed file system without files,
    and mounting it succeeds with generation 1. *)
Theorem mvhfs_format_mount {W} (s : block W) dev d `{!SectorStore d} devices junk junk_entry w fs0 :
  mvhfs_env s dev d devices junk junk_entry -> length (directory fs0) = 2048%nat ->
  exists w' r, mvhfs_format s devices junk w dev = Some (w', r) /\ (reliable d -> r = 0) /\
    (r = 0 -> exists fs, mvhfs_mount s devices junk w' (Some fs0) dev = Some (w', 0, Some fs) /\
       mounted_ok dev d w' fs /\ generation fs = 1 /\ forall nm, files d w' fs nm = None).
Proof.
  intros [] Hl0.
  destruct (format_spec s dev d devices junk junk_entry) with (w := w) as (w' & r & E & Hrel & Hok); try done.
  exists w', r. split_and!; [done..|]. intros Hr. destruct (Hok Hr) as [Hm Hno].
  exists (fresh dev). split_and!; [|done|done|done].
  apply (mount_spec s dev d devices junk junk_entry); (assumption || exact (proj1 Hm)).
Qed.

(** C4: mounting an arbitrary disk.  Whatever the disk holds, [mvhfs_mount] ends
    without a fault and without changing the disk.  It succeeds if and only if
    one of the two superblocks is usable: it passes every check of
    [validate_superblock] and the directory copy it names has the checksum it
    records.  The state it then builds is exactly what a usable superblock
    describes, and the one of the highest generation if both are usable. *)
Theorem mvhfs_mount_any {W} (s : block W) dev d `{!SectorStore d} devices junk junk_entry w fs0 :
  mvhfs_env s dev d devices junk junk_entry -> length (directory fs0) = 2048%nat ->
  exists r fs', mvhfs_mount s devices junk w (Some fs0) dev = Some (w, r, Some fs') /\
    ((r = -1 /\ mounted fs' = 0 /\ ~ usable d w 0 /\ ~ usable d w 1) \/
     (r = 0 /\ exists k, 0 <= k <= 1 /\ usable d w k /\ mounted_from dev d w k fs' /\
        (usable d w (1 - k) -> field (sector w (1 - k)) 24 8 <= field (sector w k) 24 8))).
Proof. intros [] Hl0. by apply (mount_any s dev d devices junk junk_entry). Qed.

(** C5: refused requests.  A bad name, creating a file that exists or when all
    32 entries are in use, writing a file that does not exist, more than 4096
    bytes or from a null pointer, and removing a file that does not exist are
    all answered with -1, and neither the disk nor the state in memory
    changes. *)
Theorem mvhfs_refuses {W} (s : block W) dev d `{!SectorStore d} devices junk junk_entry
    w fs array nm data size :
  mvhfs_env s dev d devices junk junk_entry -> mounted_ok dev d w fs -> name_string array nm ->
  (name_ok nm = false \/ files d w fs nm <> None \/
     (forall i, 0 <= i < 32 -> entry_used (entry (directory fs) i) = true) ->
   mvhfs_create s devices junk junk_entry w (Some fs) (Some array) = Some (w, -1, Some fs)) /\
  (name_ok nm = false \/ files d w fs nm = None \/ 4096 < size \/ (data = None /\ size <> 0) ->
   mvhfs_write s devices junk junk_entry w (Some fs) (Some array) data size = Some (w, -1, Some fs)) /\
  (name_ok nm = false \/ files d w fs nm = None ->
   mvhfs_remove s devices junk junk_entry w (Some fs) (Some array) = Some (w, -1, Some fs)).
Proof. intros [] Hm Hn. by apply (refused s dev d devices junk junk_entry). Qed.

(** ** A memory disk with a fresh file system *)

Notation demo_table := (ram_table 522).
Notation demo_disk := (ram_device 0 522).
Definition demo_devices : list (block_device (gmap Z (list Z))) := replicate 16 (ram_device 1 8).
Definition demo_entry : list Z := replicate 64 0.

Lemma demo_env : mvhfs_env demo_table 0 demo_disk demo_devices zero_sector demo_entry.
Proof. constructor; try done. by apply ram_table_inv. Qed.

(** An uninitialised [mvhfs_t]. *)
Definition demo_fs : mvhfs :=
  {| device_id := 7; superblock_slot := 9; directory_slot := 3; generation := 5; mounted := 2;
     directory := replicate 2048 9 |}.

Lemma demo_fs_length : length (directory demo_fs) = 2048%nat.
Proof. apply length_replicate. Qed.

Lemma demo_mounted :
  exists w, mounted_ok 0 demo_disk w (fresh 0) /\ forall nm, files demo_disk w (fresh 0) nm = None.
Proof.
  destruct demo_env.
  destruct (format_spec demo_table 0 demo_disk demo_devices zero_sector demo_entry) with (w := ∅ : gmap Z (list Z))
    as (w & r & _ & Hr & Hok); try assumption.
  exists w. apply Hok, Hr, ram_reliable.
Qed.

Lemma demo_name : name_string [65; 0] [65].
Proof. split; [exists []; split; [done|]|]; by repeat constructor. Qed.

Lemma demo_applies w : (forall nm, files demo_disk w (fresh 0) nm = None) -> applies (d := demo_disk) w (fresh 0) [65] Create.
Proof.
  intros H. split; [done|]. split; [apply H|]. exists 0. split; [lia|]. by apply (zero_entry demo_devices zero_sector demo_entry).
Qed.

(** The same disk, whose power is cut after any number of writes. *)
Notation cut_disk := (cut_device 0 522).
Definition cut_devices : list (block_device (gmap Z (list Z) * nat)) := replicate 16 (cut_device 1 8).

Lemma cut_env : mvhfs_env (cut_table 522) 0 cut_disk cut_devices zero_sector demo_entry.
Proof. constructor; try done. by apply cut_table_inv. Qed.

Lemma cut_mounted w budget : mounted_ok 0 demo_disk w (fresh 0) -> mounted_ok 0 cut_disk (w, budget) (fresh 0).
Proof.
  intros [[H1 H2 H3 H4 H5 H6 H7 H8 H9 H10] [Hf Hn Hu]]. split; constructor;
    [exact H1|exact H2|exact H3|exact H4|exact H5|exact H6|exact H7|exact H8|exact H9|exact H10| |exact Hn|exact Hu].
  intros i Hi He. destruct (Hf i Hi He) as [F1 F2 F3]. constructor; [exact F1|exact F2|exact F3].
Qed.

Lemma mvhfs_crash_atomic_witness :
  exists w, forall budget : nat, mounted_ok 0 cut_disk (w, budget) (fresh 0) /\ ~ reliable cut_disk /\
  exists w' r fs', run_op (cut_table 522) cut_devices zero_sector demo_entry (w, budget) (fresh 0) [65; 0] Create =
      Some (w', r, Some fs') /\
    ((r = 0 /\ mounted_ok 0 cut_disk w' fs' /\
      same_files (files cut_disk w' fs') (effect (files cut_disk (w, budget) (fresh 0)) [65] Create)) \/
     (r = -1 /\ fs' = fresh 0 /\ ~ reliable cut_disk /\
      exists now, mvhfs_mount (cut_table 522) cut_devices zero_sector w' (Some demo_fs) 0 = Some (w', 0, Some now) /\
        mounted_ok 0 cut_disk w' now /\
        (same_files (files cut_disk w' now) (files cut_disk (w, budget) (fresh 0)) \/
         same_files (files cut_disk w' now) (effect (files cut_disk (w, budget) (fresh 0)) [65] Create)))).
Proof.
  destruct demo_mounted as (w & Hm & Hno). exists w. intros budget. split; [exact (cut_mounted w budget Hm)|]. split; [apply cut_unreliable|].
  apply (mvhfs_crash_atomic (cut_table 522) 0 cut_disk cut_devices zero_sector demo_entry (w, budget) (fresh 0) [65; 0] [65] Create demo_fs).
  - exact cut_env.
  - exact (cut_mounted w budget Hm).
  - exact demo_name.
  - exact (demo_applies w Hno).
  - cbn [fresh generation]. lia.
  - exact demo_fs_length.
Defined.

Lemma mvhfs_read_exact_witness :
  exists w, mounted_ok 0 demo_disk w (fresh 0) /\
  mvhfs_read demo_table zero_sector w (Some (fresh 0)) (Some [65; 0]) (Some [1; 2]) 2 (Some 0) =
  match (if name_ok [65] then files demo_disk w (fresh 0) [65] else None) with
  | None => Some (w, -1, Some 0, Some [1; 2])
  | Some c =>
    if Z.of_nat (length c) <=? 2
    then Some (w, 0, Some (Z.of_nat (length c)), Some (c ++ drop (length c) [1; 2]))
    else Some (w, -2, Some (Z.of_nat (length c)), Some [1; 2])
  end.
Proof.
  destruct demo_mounted as (w & Hm & Hno). exists w. split; [exact Hm|].
  apply (mvhfs_read_exact demo_table 0 demo_disk demo_devices zero_sector demo_entry w (fresh 0) [65; 0] [65] [1; 2] 2 0
           demo_env Hm demo_name).
  simpl. lia.
Defined.

Lemma mvhfs_format_mount_witness :
  exists w' r, mvhfs_format demo_table demo_devices zero_sector ∅ 0 = Some (w', r) /\
    (reliable demo_disk -> r = 0) /\
    (r = 0 -> exists fs, mvhfs_mount demo_table demo_devices zero_sector w' (Some demo_fs) 0 = Some (w', 0, Some fs) /\
       mounted_ok 0 demo_disk w' fs /\ generation fs = 1 /\ forall nm, files demo_disk w' fs nm = None).
Proof.
  exact (mvhfs_format_mount demo_table 0 demo_disk demo_devices zero_sector demo_entry ∅ demo_fs demo_env demo_fs_length).
Defined.

Lemma mvhfs_mount_any_witness :
  exists r fs', mvhfs_mount demo_table demo_devices zero_sector ∅ (Some demo_fs) 0 = Some (∅, r, Some fs') /\
    ((r = -1 /\ mounted fs' = 0 /\ ~ usable demo_disk ∅ 0 /\ ~ usable demo_disk ∅ 1) \/
     (r = 0 /\ exists k, 0 <= k <= 1 /\ usable demo_disk ∅ k /\ mounted_from 0 demo_disk ∅ k fs' /\
        (usable demo_disk ∅ (1 - k) ->
         field (ram_sector ∅ (1 - k)) 24 8 <= field (ram_sector ∅ k) 24 8))).
Proof.
  exact (mvhfs_mount_any demo_table 0 demo_disk demo_devices zero_sector demo_entry ∅ demo_fs demo_env demo_fs_length).
Defined.

Lemma mvhfs_refuses_witness :
  exists w, mounted_ok 0 demo_disk w (fresh 0) /\
  (name_ok [65] = false \/ files demo_disk w (fresh 0) [65] <> None \/
     (forall i, 0 <= i < 32 -> entry_used (entry (directory (fresh 0)) i) = true) ->
   mvhfs_create demo_table demo_devices zero_sector demo_entry w (Some (fresh 0)) (Some [65; 0]) =
     Some (w, -1, Some (fresh 0))) /\
  (name_ok [65] = false \/ files demo_disk w (fresh 0) [65] = None \/ 4096 < 1 \/ (None = None :> option (list Z) /\ 1 <> 0) ->
   mvhfs_write demo_table demo_devices zero_sector demo_entry w (Some (fresh 0)) (Some [65; 0]) None 1 =
     Some (w, -1, Some (fresh 0))) /\
  (name_ok [65] = false \/ files demo_disk w (fresh 0) [65] = None ->
   mvhfs_remove demo_table demo_devices zero_sector demo_entry w (Some (fresh 0)) (Some [65; 0]) =
     Some (w, -1, Some (fresh 0))).
Proof.
  destruct demo_mounted as (w & Hm & Hno). exists w. split; [exact Hm|].
  exact (mvhfs_refuses demo_table 0 demo_disk demo_devices zero_sector demo_entry w (fresh 0) [65; 0] [65] None 1
           demo_env Hm demo_name).
Defined.

(** ** Listing *)

Definition list_item (dir : list Z) (i : Z) : mvhfs_entry :=
  {| entry_name := slice dir (i * 64) 32; entry_size := field (entry dir i) 36 4 |}.

(** The files of the first [k] entries, in order. *)
Definition listing (dir : list Z) (k : Z) : list mvhfs_entry :=
  list_item dir <$> List.filter (fun i => entry_used (entry dir i)) (seqZ 0 k).

Lemma listing_succ dir k :
  0 <= k ->
  listing dir (k + 1) = listing dir k ++ (if entry_used (entry dir k) then [list_item dir k] else []).
Proof.
  intros Hk. unfold listing. rewrite (seqZ_app 0 k 1), List.filter_app, fmap_app by lia. f_equal.
  rewrite seqZ_cons by lia. rewrite seqZ_nil by lia. simpl. by destruct (entry_used _).
Qed.

Lemma listing_length dir k : 0 <= k -> Z.of_nat (length (listing dir k)) <= k.
Proof.
  intros Hk. unfold listing. rewrite length_fmap.
  pose proof (filter_length_le (fun i => entry_used (entry dir i)) (seqZ 0 k)) as H. rewrite length_seqZ in H. lia.
Qed.

(** The caller's array when [done] has been listed. *)
Definition listed (array done : list mvhfs_entry) (capacity : nat) : list mvhfs_entry :=
  take capacity done ++ drop (Nat.min capacity (length done)) array.

Lemma listed_snoc array done capacity x :
  (capacity <= length array)%nat ->
  if (length done <? capacity)%nat
  then wr (listed array done capacity) (Z.of_nat (length done)) x = Some (listed array (done ++ [x]) capacity)
  else listed array (done ++ [x]) capacity = listed array done capacity.
Proof.
  intros Hc. unfold listed. rewrite length_app. cbn [length]. destruct (Nat.ltb_spec (length done) capacity) as [Hl|Hl].
  - rewrite !Nat.min_r by lia. rewrite !take_ge by (rewrite ?length_app; simpl; lia).
    rewrite wr_ok by (rewrite length_app, length_drop; lia). f_equal. rewrite Nat2Z.id, insert_app_r_alt by lia.
    rewrite Nat.sub_diag, <- app_assoc. f_equal.
    destruct (drop (length done) array) as [|y t] eqn:E.
    { apply (f_equal length) in E. rewrite length_drop in E. simpl in E. lia. }
    simpl. f_equal. rewrite Nat.add_1_r. symmetry. replace (S (length done)) with (length done + 1)%nat by lia.
    rewrite <- drop_drop, E. done.
  - rewrite !Nat.min_l by lia. by rewrite take_app_le by lia.
Qed.

(** Listing.  [mvhfs_list] returns the number of files and stores, in
    directory order, the name and size of as many of them as the caller's array
    has room for; the rest of the array is unchanged. *)
Theorem mvhfs_list_exact fs array capacity :
  mounted fs <> 0 -> length (directory fs) = 2048%nat -> all_bytes (directory fs) ->
  0 <= capacity <= Z.of_nat (length array) -> Forall (fun e => length (entry_name e) = 32%nat) array ->
  mvhfs_list (Some fs) (Some array) capacity =
    Some (Z.of_nat (length (listing (directory fs) 32)),
          Some (take (Z.to_nat capacity) (listing (directory fs) 32) ++
                drop (Nat.min (Z.to_nat capacity) (length (listing (directory fs) 32))) array)).
Proof.
  intros Hm Hl Hb Hcap Harr. unfold mvhfs_list. rewrite (proj2 (Z.eqb_neq _ _)) by done.
  set (dir := directory fs) in *. fold (listed array (listing dir 32) (Z.to_nat capacity)).
  match goal with |- for_loop _ _ ?loop_body ?start = _ =>
  destruct (for_loop_rule
    (fun k st => 0 <= k /\ st = (Z.of_nat (length (listing dir k)),
                                 Some (listed array (listing dir k) (Z.to_nat capacity))))
    (Z.to_nat MVHFS_MAX_FILES) 0 loop_body start) as (st & E & _ & Hst) end.
  - split; [lia|]. change (listing dir 0) with (@nil mvhfs_entry). unfold listed. by rewrite take_nil, Nat.min_0_r.
  - intros k st Hk (Hk0 & ->). change (Z.of_nat (Z.to_nat MVHFS_MAX_FILES)) with 32 in Hk.
    rewrite (proj2 (entry_at_eq k ltac:(lia))), !(entry_load32 dir) by (done || lia).
    cbn [mbind option_bind]. pose proof (listing_succ dir k Hk0) as Hs.
    unfold entry_used in Hs. destruct (Z.eqb_spec (field (entry dir k) 32 4) 0) as [H0|H0]; simpl negb in Hs;
      cbn match in Hs.
    { eexists. split; [reflexivity|]. split; [lia|]. by rewrite Hs, app_nil_r. }
    pose proof (listing_length dir k Hk0) as Hll.
    pose proof (listed_snoc array (listing dir k) (Z.to_nat capacity) (list_item dir k) ltac:(lia)) as Hsn.
    destruct (Z.ltb_spec (Z.of_nat (length (listing dir k))) capacity) as [Hlt|Hge].
    + rewrite (proj2 (Nat.ltb_lt _ _)) in Hsn by lia.
      assert (rd (listed array (listing dir k) (Z.to_nat capacity)) (Z.of_nat (length (listing dir k))) =
              rd array (Z.of_nat (length (listing dir k)))) as ->.
      { unfold listed. rewrite Nat.min_r, take_ge by lia. rewrite rd_app, Z.ltb_irrefl, Z.sub_diag.
        unfold rd. change (0 <? 0) with false. rewrite (proj2 (Z.ltb_ge (Z.of_nat _) 0)) by lia.
        cbn match. change (Z.to_nat 0) with 0%nat. by rewrite lookup_drop, Nat2Z.id, Nat.add_0_r. }
      destruct (rd_ok array (Z.of_nat (length (listing dir k))) ltac:(lia)) as (e & Ee).
      rewrite Ee. cbn [mbind option_bind]. apply rd_Some in Ee as [_ Ee].
      pose proof (Forall_lookup_1 _ _ _ _ Harr Ee) as Hen. simpl in Hen. unfold copy_bytes, MVHFS_NAME_MAX.
      rewrite copy_spec by (unfold room; lia). cbn [mbind option_bind].
      assert (splice (entry_name e) 0 (slice dir (k * 64) 32) = slice dir (k * 64) 32) as ->.
      { unfold splice. rewrite drop_ge; [apply app_nil_r|]. rewrite length_slice by (unfold room; lia). simpl. lia. }
      fold (list_item dir k). rewrite Hsn. cbn [mbind option_bind]. eexists. split; [reflexivity|].
      split; [lia|]. rewrite Hs, length_app, u32_small by warith. cbn [length]. f_equal. lia.
    + rewrite (proj2 (Nat.ltb_ge _ _)) in Hsn by lia. cbn [mbind option_bind]. eexists. split; [reflexivity|].
      split; [lia|]. rewrite Hs, Hsn, length_app, u32_small by warith. cbn [length]. f_equal. lia.
  - rewrite E, Hst. done.
Qed.

Lemma mvhfs_list_exact_witness :
  mvhfs_list (Some (fresh 0)) (Some [{| entry_name := replicate 32 7; entry_size := 1 |}]) 1 =
    Some (Z.of_nat (length (listing (directory (fresh 0)) 32)),
          Some (take (Z.to_nat 1) (listing (directory (fresh 0)) 32) ++
                drop (Nat.min (Z.to_nat 1) (length (listing (directory (fresh 0)) 32)))
                  [{| entry_name := replicate 32 7; entry_size := 1 |}])).
Proof.
  apply (mvhfs_list_exact (fresh 0) [{| entry_name := replicate 32 7; entry_size := 1 |}] 1).
  - discriminate.
  - apply length_replicate.
  - by apply Forall_replicate.
  - simpl. lia.
  - by repeat constructor.
Defined.
