(* ===== verification/Pmm.v ===== *)
(** * pmm.c: the physical page allocator

    The allocator is a bitmap of pages with counters.  Every public function
    of the source runs between [spinlock_lock] and [spinlock_unlock] on
    [pmm_lock], so each is one atomic transition of the state record; mutual
    exclusion of the lock is proved in [Sync]. *)

From S2P Require Import Prelude.

Definition PAGE_SIZE : Z := 4096.
Definition PMM_MAX_PAGES : Z := 1048576.
Definition PMM_BITMAP_BYTES : Z := PMM_MAX_PAGES / 8.

Record pmm := Pmm {
  page_bitmap : list Z;
  managed_pages : Z;
  reserved_pages : Z;
  used_pages : Z;
  allocation_requests : Z;
  free_requests : Z;
  failed_allocations : Z;
  peak_used_pages : Z;
}.

Definition page_set (bitmap : list Z) (page : Z) : option (list Z) :=
  b ← rd bitmap (page >> 3); wr bitmap (page >> 3) (b ||| u8 (1 << (page &&& 7))).

Definition page_clear (bitmap : list Z) (page : Z) : option (list Z) :=
  b ← rd bitmap (page >> 3); wr bitmap (page >> 3) (b &&& u8 (compl 32 (1 << (page &&& 7)))).

Definition page_used (bitmap : list Z) (page : Z) : option Z :=
  b ← rd bitmap (page >> 3); Some (b &&& u8 (1 << (page &&& 7))).

Definition pmm_init_limit (s : pmm) (memory_kib kernel_end mapped_limit : Z) : option pmm :=
  let bytes := u64 (memory_kib * 1024) in
  let mapped_limit :=
    if (mapped_limit =? 0) || (4294967296 <? mapped_limit) then 1073741824 else mapped_limit in
  let bytes := if mapped_limit <? bytes then mapped_limit else bytes in
  let managed := u32 (bytes / PAGE_SIZE) in
  let managed := if PMM_MAX_PAGES <? managed then PMM_MAX_PAGES else managed in
  let reserved := u32 (u64 (u64 (kernel_end + PAGE_SIZE) - 1) / PAGE_SIZE) in
  let reserved := if managed <? reserved then managed else reserved in
  bitmap ← for_loop (Z.to_nat PMM_BITMAP_BYTES) 0 (fun page bitmap => wr bitmap page 255)
             (page_bitmap s);
  bitmap ← for_loop (Z.to_nat (managed - reserved)) reserved
             (fun page bitmap => page_clear bitmap page) bitmap;
  Some (Pmm bitmap managed reserved reserved 0 0 0 reserved).

Definition pmm_init (s : pmm) (memory_kib kernel_end : Z) : option pmm :=
  pmm_init_limit s memory_kib kernel_end 1073741824.

(** The inner loop of the search: [inl found] when it runs to the end,
    [inr (page, found)] when it breaks at a used page. *)
Definition probe_run (bitmap : list Z) (start count : Z) : option (Z + Z * Z) :=
  for_break (Z.to_nat count) 0 (fun page found =>
    u ← page_used bitmap (u32 (start + page));
    Some (if negb (u =? 0) then inr (page, found) else inl (u32 (found + 1)))) 0.

(** One iteration of the outer loop: [inr (Some start)] when a run is found. *)
Definition search_step (bitmap : list Z) (managed count start : Z) : option (Z + option Z) :=
  if u32 (start + count) <=? managed then
    r ← probe_run bitmap start count;
    let '(start, found) :=
      match r with inl found => (start, found) | inr (page, found) => (u32 (start + page), found) end in
    Some (if found =? count then inr (Some start) else inl (u32 (start + 1)))
  else Some (inr None).

Definition search (s : pmm) (count : Z) : option (option Z) :=
  while_loop (Z.to_nat (managed_pages s) + 2)
    (search_step (page_bitmap s) (managed_pages s) count) (reserved_pages s).

Definition set_run (bitmap : list Z) (start count : Z) : option (list Z) :=
  for_loop (Z.to_nat count) 0 (fun page bitmap => page_set bitmap (u32 (start + page))) bitmap.

Definition alloc_failed (s : pmm) : pmm :=
  Pmm (page_bitmap s) (managed_pages s) (reserved_pages s) (used_pages s)
    (allocation_requests s) (free_requests s) (u64 (failed_allocations s + 1)) (peak_used_pages s).

(** The result is the address of the first page, 0 (NULL) on failure. *)
Definition pmm_alloc_pages (s : pmm) (count : Z) : option (pmm * Z) :=
  let s := Pmm (page_bitmap s) (managed_pages s) (reserved_pages s) (used_pages s)
             (u64 (allocation_requests s + 1)) (free_requests s) (failed_allocations s)
             (peak_used_pages s) in
  if (count =? 0) || (managed_pages s <? count) then Some (alloc_failed s, 0) else
  r ← search s count;
  match r with
  | Some start =>
      bitmap ← set_run (page_bitmap s) start count;
      let used := u32 (used_pages s + count) in
      let peak := if peak_used_pages s <? used then used else peak_used_pages s in
      Some (Pmm bitmap (managed_pages s) (reserved_pages s) used (allocation_requests s)
              (free_requests s) (failed_allocations s) peak, u64 (start * PAGE_SIZE))
  | None => Some (alloc_failed s, 0)
  end.

Definition free_step (start page : Z) (st : list Z * Z) : option (list Z * Z) :=
  let '(bitmap, used) := st in
  u ← page_used bitmap (u32 (start + page));
  if negb (u =? 0) then
    bitmap ← page_clear bitmap (u32 (start + page)); Some (bitmap, u32 (used - 1))
  else Some (bitmap, used).

Definition pmm_free_pages (s : pmm) (address count : Z) : option pmm :=
  let start := u32 (address / PAGE_SIZE) in
  let s := Pmm (page_bitmap s) (managed_pages s) (reserved_pages s) (used_pages s)
             (allocation_requests s) (u64 (free_requests s + 1)) (failed_allocations s)
             (peak_used_pages s) in
  if (count =? 0) || negb ((address &&& (PAGE_SIZE - 1)) =? 0) || (start <? reserved_pages s) ||
     (managed_pages s <? u32 (start + count)) then Some s else
  r ← for_loop (Z.to_nat count) 0 (free_step start) (page_bitmap s, used_pages s);
  Some (Pmm (fst r) (managed_pages s) (reserved_pages s) (snd r) (allocation_requests s)
          (free_requests s) (failed_allocations s) (peak_used_pages s)).

Record pmm_stats := PmmStats {
  st_total_pages : Z; st_used_pages : Z; st_free_pages : Z; st_reserved_pages : Z;
  st_allocation_requests : Z; st_free_requests : Z; st_failed_allocations : Z;
  st_peak_used_pages : Z;
}.

Definition pmm_get_stats (s : pmm) : pmm_stats :=
  PmmStats (managed_pages s) (used_pages s) (u32 (managed_pages s - used_pages s))
    (reserved_pages s) (allocation_requests s) (free_requests s) (failed_allocations s)
    (peak_used_pages s).

(** The bytes of the pages are in [ram]. *)
Definition pmm_self_test (s : pmm) (ram : gmap Z Z) : option (pmm * gmap Z Z * Z) :=
  let before := pmm_get_stats s in
  '(s, pages) ← pmm_alloc_pages s 3;
  if (pages =? 0) || negb (pages &&& (PAGE_SIZE - 1) =? 0) then Some (s, ram, -1) else
  let during := pmm_get_stats s in
  let ram := <[pages := 0x4D]> ram in
  let ram := <[pages + (PAGE_SIZE - 1) := 0x56]> ram in
  let ram := <[pages + PAGE_SIZE := 0x48]> ram in
  let ram := <[pages + (PAGE_SIZE * 3 - 1) := 0x11]> ram in
  b0 ← ram !! pages; b1 ← ram !! (pages + (PAGE_SIZE - 1)); b2 ← ram !! (pages + PAGE_SIZE);
  b3 ← ram !! (pages + (PAGE_SIZE * 3 - 1));
  if negb (b0 =? 0x4D) || negb (b1 =? 0x56) || negb (b2 =? 0x48) || negb (b3 =? 0x11) ||
     negb (st_used_pages during =? u64 (st_used_pages before + 3))
  then s ← pmm_free_pages s pages 3; Some (s, ram, -1) else
  s ← pmm_free_pages s pages 3;
  let after := pmm_get_stats s in
  Some (s, ram, if (st_used_pages after =? st_used_pages before) && (st_free_pages after =? st_free_pages before)
                then 0 else -1).

(** ** The bitmap as a set of pages *)

(** [bit bm p]: page [p] is marked used. *)
Definition bit (bitmap : list Z) (page : Z) : bool :=
  match rd bitmap (page / 8) with Some b => Z.testbit b (page mod 8) | None => true end.

(** A bitmap of the declared size, of bytes. *)
Definition bitmap_ok (bitmap : list Z) : Prop :=
  Z.of_nat (length bitmap) = PMM_BITMAP_BYTES /\ Forall (fits 8) bitmap.

Lemma page_index p : p >> 3 = p / 8 /\ p &&& 7 = p mod 8.
Proof.
  split; [by apply Z.shiftr_div_pow2|]. change 7 with (2 ^ 3 - 1). by rewrite land_mask.
Qed.

Lemma u8_pow k : 0 <= k < 8 -> u8 (1 << k) = 2 ^ k.
Proof.
  intros Hk. rewrite Z.shiftl_1_l. apply u8_small. split; [apply Z.pow_nonneg; lia|].
  apply Z.pow_lt_mono_r; lia.
Qed.

Lemma page_byte bm p :
  bitmap_ok bm -> 0 <= p < PMM_MAX_PAGES ->
  exists b, rd bm (p / 8) = Some b /\ fits 8 b /\ bit bm p = Z.testbit b (p mod 8).
Proof.
  intros [Hl Hb] Hp. destruct (rd_ok bm (p / 8)) as [b Hr].
  { rewrite Hl. unfold PMM_BITMAP_BYTES, PMM_MAX_PAGES in *. divlia. }
  exists b. unfold bit. rewrite Hr. split_and!; [done| |done].
  apply rd_Some in Hr as [_ Hr]. by eapply Forall_lookup_1 in Hb.
Qed.

Lemma page_used_spec bm p :
  bitmap_ok bm -> 0 <= p < PMM_MAX_PAGES ->
  exists u, page_used bm p = Some u /\ negb (u =? 0) = bit bm p.
Proof.
  intros Hok Hp. destruct (page_byte bm p Hok Hp) as (b & Hr & Hb & ->).
  unfold page_used. destruct (page_index p) as [-> ->]. rewrite Hr. simpl. eexists. split; [done|].
  pose proof (Z.mod_pos_bound p 8 ltac:(lia)) as Hk. rewrite u8_pow by done.
  destruct (Z.testbit b (p mod 8)) eqn:E.
  - destruct (Z.eqb_spec (b &&& 2 ^ (p mod 8)) 0) as [E0|]; [|done].
    apply (f_equal (fun z => Z.testbit z (p mod 8))) in E0.
    rewrite Z.land_spec, E, Z.pow2_bits_true, Z.bits_0 in E0 by lia. done.
  - replace (b &&& 2 ^ (p mod 8)) with 0; [done|]. symmetry. zbits.
    rewrite Z.pow2_bits_eqb by lia. destruct (Z.eqb_spec (p mod 8) n) as [<-|]; [by rewrite E|].
    apply andb_false_r.
Qed.

(** Writing byte [p / 8] changes only its own eight bits. *)
Lemma bit_wr bm p b' bm' q :
  wr bm (p / 8) b' = Some bm' ->
  bit bm' q = if p / 8 =? q / 8 then Z.testbit b' (q mod 8) else bit bm q.
Proof. intros H. unfold bit. rewrite (rd_wr _ _ (q / 8) _ _ H). by destruct (p / 8 =? q / 8). Qed.

Lemma bitmap_ok_wr bm i b bm' : bitmap_ok bm -> fits 8 b -> wr bm i b = Some bm' -> bitmap_ok bm'.
Proof.
  intros [Hl Hb] Hf Hw. split; [by rewrite (wr_length _ _ _ _ Hw)|].
  apply wr_Some in Hw as [_ ->]. by apply Forall_insert.
Qed.

Lemma same_page p q : p / 8 = q / 8 -> (p mod 8 =? q mod 8) = (p =? q).
Proof.
  intros H. pose proof (Z.div_mod p 8). pose proof (Z.div_mod q 8). zcmp.
Qed.

Lemma page_set_spec bm p :
  bitmap_ok bm -> 0 <= p < PMM_MAX_PAGES ->
  exists bm', page_set bm p = Some bm' /\ bitmap_ok bm' /\
    forall q, bit bm' q = (p =? q) || bit bm q.
Proof.
  intros Hok Hp. destruct (page_byte bm p Hok Hp) as (b & Hr & Hb & _).
  unfold page_set. destruct (page_index p) as [-> ->]. rewrite Hr. simpl.
  pose proof (Z.mod_pos_bound p 8 ltac:(lia)) as Hk. rewrite u8_pow by done.
  rewrite wr_ok by (eapply rd_range; done).
  pose proof (wr_ok bm (p / 8) (b ||| 2 ^ (p mod 8)) (rd_range _ _ _ Hr)) as Hw.
  eexists. split; [done|]. split.
  - eapply bitmap_ok_wr; [done| |done]. apply lor_fits; [done..|].
    split; [apply Z.pow_nonneg; lia|apply Z.pow_lt_mono_r; lia].
  - intros q. rewrite (bit_wr _ _ _ _ q Hw). destruct (Z.eqb_spec (p / 8) (q / 8)) as [E|E].
    + rewrite Z.lor_spec, Z.pow2_bits_eqb, same_page by (done || lia).
      unfold bit. rewrite <- E, Hr. apply orb_comm.
    + destruct (Z.eqb_spec p q) as [->|]; [done|done].
Qed.

Lemma page_clear_spec bm p :
  bitmap_ok bm -> 0 <= p < PMM_MAX_PAGES ->
  exists bm', page_clear bm p = Some bm' /\ bitmap_ok bm' /\
    forall q, bit bm' q = negb (p =? q) && bit bm q.
Proof.
  intros Hok Hp. destruct (page_byte bm p Hok Hp) as (b & Hr & Hb & _).
  unfold page_clear. destruct (page_index p) as [-> ->]. rewrite Hr. simpl.
  pose proof (Z.mod_pos_bound p 8 ltac:(lia)) as Hk. rewrite Z.shiftl_1_l.
  set (mask := u8 (compl 32 (2 ^ (p mod 8)))).
  pose proof (wr_ok bm (p / 8) (b &&& mask) (rd_range _ _ _ Hr)) as Hw. rewrite Hw.
  eexists. split; [done|]. split.
  - eapply bitmap_ok_wr; [done| |done]. apply land_fits; [done..|]. apply u8_range.
  - intros q. rewrite (bit_wr _ _ _ _ q Hw). destruct (Z.eqb_spec (p / 8) (q / 8)) as [E|E].
    + pose proof (Z.mod_pos_bound q 8 ltac:(lia)) as Hq. unfold mask, u8.
      rewrite Z.land_spec, Z.testbit_mod_pow2, compl_testbit, Z.pow2_bits_eqb, same_page
        by (try split; try apply Z.pow_nonneg; try apply Z.pow_lt_mono_r; (done || lia)).
      rewrite (proj2 (Z.ltb_lt (q mod 8) 8)), (proj2 (Z.ltb_lt (q mod 8) 32)) by lia.
      unfold bit. rewrite <- E, Hr. apply andb_comm.
    + destruct (Z.eqb_spec p q) as [->|]; [done|done].
Qed.

(** ** Counting pages *)

Fixpoint count_true (f : Z -> bool) (lo : Z) (n : nat) : Z :=
  match n with O => 0 | S n => (if f lo then 1 else 0) + count_true f (lo + 1) n end.

Lemma count_true_ext f g lo n :
  (forall p, lo <= p < lo + Z.of_nat n -> f p = g p) -> count_true f lo n = count_true g lo n.
Proof.
  revert lo. induction n as [|n IH]; intros lo H; cbn [count_true]; [done|].
  rewrite H by lia. f_equal. apply IH. intros p Hp. apply H. lia.
Qed.

Lemma count_true_app f lo n m :
  count_true f lo (n + m) = count_true f lo n + count_true f (lo + Z.of_nat n) m.
Proof.
  revert lo. induction n as [|n IH]; intros lo; cbn [count_true Nat.add].
  - by rewrite Z.add_0_r.
  - rewrite IH, Z.add_assoc. do 2 f_equal. lia.
Qed.

Lemma count_true_const b f lo n :
  (forall p, lo <= p < lo + Z.of_nat n -> f p = b) ->
  count_true f lo n = if b then Z.of_nat n else 0.
Proof.
  revert lo. induction n as [|n IH]; intros lo H; cbn [count_true]; [by destruct b|].
  rewrite H, IH by (intros; try apply H; lia). destruct b; lia.
Qed.

Lemma count_true_range f lo n : 0 <= count_true f lo n <= Z.of_nat n.
Proof. revert lo. induction n as [|n IH]; intros lo; cbn [count_true]; [lia|]. specialize (IH (lo + 1)). destruct (f lo); lia. Qed.

Lemma count_true_last f lo j :
  0 <= j -> count_true f lo (Z.to_nat (j + 1)) =
    count_true f lo (Z.to_nat j) + if f (lo + j) then 1 else 0.
Proof.
  intros Hj. replace (Z.to_nat (j + 1)) with (Z.to_nat j + 1)%nat by lia.
  rewrite count_true_app. cbn [count_true]. rewrite Z2Nat.id by lia. lia.
Qed.

Lemma count_true_mono f lo j k :
  0 <= j <= k -> count_true f lo (Z.to_nat j) <= count_true f lo (Z.to_nat k).
Proof.
  intros Hj. replace (Z.to_nat k) with (Z.to_nat j + Z.to_nat (k - j))%nat by lia.
  rewrite count_true_app.
  pose proof (count_true_range f (lo + Z.of_nat (Z.to_nat j)) (Z.to_nat (k - j))). lia.
Qed.

(** Changing [f] inside a window changes the count by the window's count. *)
Lemma count_true_window f g lo n a k :
  lo <= a -> a + k <= lo + Z.of_nat n -> 0 <= k ->
  (forall p, lo <= p < lo + Z.of_nat n -> p < a \/ a + k <= p -> f p = g p) ->
  count_true f lo n - count_true f a (Z.to_nat k) = count_true g lo n - count_true g a (Z.to_nat k).
Proof.
  intros Ha Hk Hk0 H.
  replace n with (Z.to_nat (a - lo) + (Z.to_nat k + Z.to_nat (lo + Z.of_nat n - (a + k))))%nat by lia.
  rewrite !count_true_app. replace (lo + Z.of_nat (Z.to_nat (a - lo))) with a by lia.
  rewrite (count_true_ext f g lo) by (intros; apply H; lia).
  rewrite (count_true_ext f g (a + _)) by (intros; apply H; lia). lia.
Qed.

(** ** The invariant *)

Definition in_run (start count p : Z) : bool := (start <=? p) && (p <? start + count).

Record pmm_inv (s : pmm) : Prop := {
  inv_bitmap : bitmap_ok (page_bitmap s);
  inv_range : 0 <= reserved_pages s <= managed_pages s /\ managed_pages s <= PMM_MAX_PAGES;
  inv_outside : forall p, 0 <= p < PMM_MAX_PAGES -> p < reserved_pages s \/ managed_pages s <= p ->
    bit (page_bitmap s) p = true;
  inv_used : used_pages s = reserved_pages s +
    count_true (bit (page_bitmap s)) (reserved_pages s)
      (Z.to_nat (managed_pages s - reserved_pages s));
  inv_peak : used_pages s <= peak_used_pages s <= managed_pages s;
}.

Lemma inv_used_range s : pmm_inv s -> reserved_pages s <= used_pages s <= managed_pages s.
Proof.
  intros [_ Hr _ Hu _]. rewrite Hu.
  pose proof (count_true_range (bit (page_bitmap s)) (reserved_pages s)
    (Z.to_nat (managed_pages s - reserved_pages s))). lia.
Qed.

Lemma small_u32 x : 0 <= x <= 4 * PMM_MAX_PAGES -> u32 x = x.
Proof. intros H. apply u32_small. unfold PMM_MAX_PAGES in *. warith. Qed.

Lemma probe_run_spec bm start count :
  bitmap_ok bm -> 0 <= start -> 0 <= count -> start + count <= PMM_MAX_PAGES ->
  (probe_run bm start count = Some (inl count) /\
     forall p, start <= p < start + count -> bit bm p = false) \/
  (exists page, probe_run bm start count = Some (inr (page, page)) /\ 0 <= page < count /\
     bit bm (start + page) = true).
Proof.
  intros Hok Hs Hc Hm. unfold probe_run.
  match goal with |- context [for_break ?n ?i ?b ?s0] =>
    destruct (for_break_rule
      (fun j found => found = j /\ forall p, start <= p < start + j -> bit bm p = false)
      (fun r => fst r = snd r /\ 0 <= fst r < count /\ bit bm (start + fst r) = true) n i b s0)
      as [(found & -> & -> & Hfree)|([pg fd] & -> & Heq & Hpg & Hbit)] end.
  - split; [done|lia].
  - intros j found Hj [-> Hfree]. rewrite (small_u32 (start + j)) by lia.
    destruct (page_used_spec bm (start + j)) as (u & -> & Hu); [done|lia|]. simpl. rewrite Hu.
    destruct (bit bm (start + j)) eqn:E; [right|left]; eexists; (split; [done|]).
    + simpl. split_and!; (done || lia).
    + split; [apply small_u32; lia|]. intros p Hp.
      destruct (Z.eq_dec p (start + j)) as [->|]; [done|apply Hfree; lia].
  - left. rewrite Z2Nat.id, Z.add_0_l in * by lia. done.
  - right. simpl in *. subst fd. eauto.
Qed.

(** A run of [count] pages at [start] has a used page. *)
Definition blocked (bm : list Z) (start count : Z) : Prop :=
  exists p, start <= p < start + count /\ bit bm p = true.

Lemma search_spec s count :
  pmm_inv s -> 0 < count <= managed_pages s ->
  exists r, search s count = Some r /\
    match r with
    | Some start => reserved_pages s <= start /\ start + count <= managed_pages s /\
        (forall p, start <= p < start + count -> bit (page_bitmap s) p = false) /\
        (forall q, reserved_pages s <= q < start -> blocked (page_bitmap s) q count)
    | None => forall q, reserved_pages s <= q -> q + count <= managed_pages s ->
        blocked (page_bitmap s) q count
    end.
Proof.
  intros [Hok [Hr Hmax] _ _ _] Hc. unfold search.
  apply (while_loop_rule
    (fun start => reserved_pages s <= start <= managed_pages s + 1 /\
       forall q, reserved_pages s <= q < start -> blocked (page_bitmap s) q count)
    _ (fun start => Z.to_nat (managed_pages s + 1 - start))).
  - split; [lia|]. intros q Hq. lia.
  - lia.
  - intros start [Hs Hb]. unfold search_step. rewrite (small_u32 (start + count)) by lia.
    destruct (Z.leb_spec (start + count) (managed_pages s)) as [Hfit|Hfit].
    2:{ right. eexists. split; [done|]. intros q Hq1 Hq2. apply Hb. lia. }
    destruct (probe_run_spec (page_bitmap s) start count)
      as [[-> Hfree]|(page & -> & Hp & Hbit)]; [done|lia..| |]; simpl.
    + rewrite Z.eqb_refl. right. eexists. split; [done|]. split_and!; (done || lia).
    + rewrite (proj2 (Z.eqb_neq page count)) by lia. left. eexists. split; [done|].
      rewrite (small_u32 (start + page)), small_u32 by lia. split; [|lia]. split; [lia|].
      intros q Hq. destruct (Z.lt_ge_cases q start); [apply Hb; lia|].
      exists (start + page). split; [lia|done].
Qed.

Lemma set_run_spec bm start count :
  bitmap_ok bm -> 0 <= start -> 0 <= count -> start + count <= PMM_MAX_PAGES ->
  exists bm', set_run bm start count = Some bm' /\ bitmap_ok bm' /\
    forall q, bit bm' q = in_run start count q || bit bm q.
Proof.
  intros Hok Hs Hc Hm. unfold set_run.
  match goal with |- context [for_loop ?n ?i ?b ?s0] =>
    destruct (for_loop_rule (fun j bm' => bitmap_ok bm' /\
      forall q, bit bm' q = in_run start j q || bit bm q) n i b s0) as (bm' & -> & Hok' & Hb) end.
  - split; [done|]. intros q. unfold in_run. zcmp.
  - intros j bm' Hj [Hok' Hb]. rewrite small_u32 by lia.
    destruct (page_set_spec bm' (start + j)) as (bm2 & -> & Hok2 & Hb2); [done|lia|].
    eexists. split; [done|]. split; [done|]. intros q. rewrite Hb2, Hb, orb_assoc. f_equal.
    unfold in_run. zcmp.
  - rewrite Z2Nat.id, Z.add_0_l in Hb by lia. eauto.
Qed.

(** Freeing clears the pages of the run and counts those that were used. *)
Lemma free_loop_spec bm used start count :
  bitmap_ok bm -> 0 <= start -> 0 <= count -> start + count <= PMM_MAX_PAGES ->
  count_true (bit bm) start (Z.to_nat count) <= used <= PMM_MAX_PAGES ->
  exists bm', for_loop (Z.to_nat count) 0 (free_step start) (bm, used) =
      Some (bm', used - count_true (bit bm) start (Z.to_nat count)) /\ bitmap_ok bm' /\
    forall q, bit bm' q = negb (in_run start count q) && bit bm q.
Proof.
  intros Hok Hs Hc Hm Hu.
  destruct (for_loop_rule (fun j st => bitmap_ok (fst st) /\
      snd st = used - count_true (bit bm) start (Z.to_nat j) /\
      forall q, bit (fst st) q = negb (in_run start j q) && bit bm q)
    (Z.to_nat count) 0 (free_step start) (bm, used)) as ([bm' u'] & -> & Hok' & Hu' & Hb).
  - simpl. split_and!; [done|lia|]. intros q. unfold in_run. zcmp.
  - intros j [bm' u'] Hj (Hok' & Hu' & Hb). cbn [fst snd] in *. unfold free_step. rewrite !(small_u32 (start + j)) by lia.
    destruct (page_used_spec bm' (start + j)) as (x & -> & Hx); [done|lia|]. simpl. rewrite Hx.
    rewrite Hb. assert (in_run start j (start + j) = false) as -> by (unfold in_run; zcmp). simpl.
    pose proof (count_true_last (bit bm) start j ltac:(lia)) as Hcount.
    pose proof (count_true_mono (bit bm) start (j + 1) count ltac:(lia)) as Hle.
    pose proof (count_true_range (bit bm) start (Z.to_nat j)).
    destruct (bit bm (start + j)) eqn:E.
    + destruct (page_clear_spec bm' (start + j)) as (bm2 & -> & Hok2 & Hb2); [done|lia|]. simpl.
      eexists. split; [done|]. simpl. split_and!; [done|rewrite small_u32; lia|].
      intros q. rewrite Hb2, Hb, andb_assoc. f_equal. unfold in_run. zcmp.
    + eexists. split; [done|]. simpl. split_and!; [done|lia|].
      intros q. rewrite Hb. unfold in_run. destruct (Z.eq_dec q (start + j)) as [->|].
      * rewrite E, !andb_false_r. done.
      * f_equal. zcmp.
  - rewrite Z2Nat.id, Z.add_0_l in * by lia. simpl in *. subst u'. eauto.
Qed.

(** ** Correctness *)

(** Marking a free run used keeps the invariant, with [used_pages] raised. *)
Lemma inv_set_run s bm start count peak a f e :
  pmm_inv s -> 0 <= count -> reserved_pages s <= start -> start + count <= managed_pages s ->
  bitmap_ok bm -> (forall q, bit bm q = in_run start count q || bit (page_bitmap s) q) ->
  (forall p, start <= p < start + count -> bit (page_bitmap s) p = false) ->
  used_pages s + count <= peak <= managed_pages s ->
  pmm_inv (Pmm bm (managed_pages s) (reserved_pages s) (used_pages s + count) a f e peak).
Proof.
  intros [Hok Hr Ho Hu Hp] Hc Hs Hm Hok' Hb Hfree Hpk. split; simpl; try done.
  - intros p Hp1 Hp2. rewrite Hb, Ho by done. apply orb_true_r.
  - pose proof (count_true_window (bit bm) (bit (page_bitmap s)) (reserved_pages s)
      (Z.to_nat (managed_pages s - reserved_pages s)) start count) as Hw.
    rewrite (count_true_const true (bit bm) start) in Hw
      by (intros p Hp'; rewrite Hb; unfold in_run; zcmp).
    rewrite (count_true_const false _ start) in Hw by (intros p Hp'; apply Hfree; lia).
    rewrite Hu. enough (count_true (bit bm) (reserved_pages s)
      (Z.to_nat (managed_pages s - reserved_pages s)) - Z.of_nat (Z.to_nat count) =
      count_true (bit (page_bitmap s)) (reserved_pages s)
      (Z.to_nat (managed_pages s - reserved_pages s)) - 0) by lia.
    apply Hw; [lia..|]. intros p _ Hp'. rewrite Hb. unfold in_run. zcmp.
Qed.

(** The outcome of a successful allocation: a free run inside the managed
    pages, the first one that is free, now marked used, nothing else changed. *)
Definition allocated (s s' : pmm) (count start : Z) : Prop :=
  0 < count /\ reserved_pages s <= start /\ start + count <= managed_pages s /\
  (forall p, start <= p < start + count -> bit (page_bitmap s) p = false) /\
  (forall q, reserved_pages s <= q < start -> blocked (page_bitmap s) q count) /\
  (forall q, bit (page_bitmap s') q = in_run start count q || bit (page_bitmap s) q) /\
  used_pages s' = used_pages s + count.

(** The outcome of a refused allocation: the request is empty or there is no
    free run of that many pages; the bitmap is untouched. *)
Definition refused (s s' : pmm) (count : Z) : Prop :=
  (count = 0 \/ forall q, reserved_pages s <= q -> q + count <= managed_pages s ->
     blocked (page_bitmap s) q count) /\
  page_bitmap s' = page_bitmap s /\ used_pages s' = used_pages s /\
  failed_allocations s' = u64 (failed_allocations s + 1).

Lemma inv_counters s a f e :
  pmm_inv s ->
  pmm_inv (Pmm (page_bitmap s) (managed_pages s) (reserved_pages s) (used_pages s) a f e
             (peak_used_pages s)).
Proof. by intros []. Qed.

(** A free run leaves room for it in the count. *)
Lemma run_room s start count :
  pmm_inv s -> 0 <= count -> reserved_pages s <= start -> start + count <= managed_pages s ->
  (forall p, start <= p < start + count -> bit (page_bitmap s) p = false) ->
  used_pages s + count <= managed_pages s.
Proof.
  intros [Hok Hr Ho Hu Hp] Hc Hs Hm Hfree. rewrite Hu. set (f := bit (page_bitmap s)) in *.
  replace (Z.to_nat (managed_pages s - reserved_pages s)) with
    (Z.to_nat (start - reserved_pages s) +
      (Z.to_nat count + Z.to_nat (managed_pages s - (start + count))))%nat by lia.
  rewrite !count_true_app.
  replace (reserved_pages s + Z.of_nat (Z.to_nat (start - reserved_pages s))) with start by lia.
  rewrite (count_true_const false f start) by (intros p Hp'; apply Hfree; lia).
  pose proof (count_true_range f (reserved_pages s) (Z.to_nat (start - reserved_pages s))).
  pose proof (count_true_range f (start + Z.of_nat (Z.to_nat count))
    (Z.to_nat (managed_pages s - (start + count)))). lia.
Qed.

Lemma pmm_alloc_outcome s count :
  pmm_inv s -> fits 32 count ->
  exists s' address, pmm_alloc_pages s count = Some (s', address) /\ pmm_inv s' /\
    managed_pages s' = managed_pages s /\ reserved_pages s' = reserved_pages s /\
    ((exists start, address = start * PAGE_SIZE /\ allocated s s' count start) \/
     (address = 0 /\ refused s s' count)).
Proof.
  intros Hi Hc. pose proof (inv_used_range s Hi) as Hur. pose proof (inv_range s Hi) as Hr.
  pose proof (inv_peak s Hi) as Hpk.
  unfold pmm_alloc_pages. cbn [managed_pages].
  destruct (_ || _) eqn:Hguard.
  - eexists _, _. split; [done|]. split; [exact (inv_counters s _ _ _ Hi)|]. split_and!; [done..|].
    right. split; [done|]. split_and!; [|done..].
    apply orb_true_iff in Hguard as [H|H]; bool_to_prop; [by left|].
    right. intros q Hq1 Hq2. lia.
  - apply orb_false_iff in Hguard as [H1 H2]. bool_to_prop. unfold fits in Hc.
    set (s1 := Pmm _ _ _ _ _ _ _ _).
    destruct (search_spec s1 count) as (r & -> & Hsr); [exact (inv_counters s _ _ _ Hi)|simpl; lia|].
    cbn [mbind option_bind]. destruct r as [start|].
    + destruct Hsr as (Hs1 & Hs2 & Hfree & Hfirst). simpl in Hs1, Hs2, Hfree, Hfirst.
      destruct (set_run_spec (page_bitmap s) start count) as (bm & Hset & Hok & Hb);
        [apply Hi|lia..|].
      simpl (page_bitmap s1). rewrite Hset. cbn [mbind option_bind]. simpl.
      pose proof (run_room s start count Hi ltac:(lia) Hs1 Hs2 Hfree) as Hroom.
      rewrite (small_u32 (used_pages s + count)) by (unfold PMM_MAX_PAGES in *; lia).
      rewrite (u64_small (start * PAGE_SIZE)) by (unfold PAGE_SIZE, PMM_MAX_PAGES in *; warith).
      eexists _, _. split; [done|]. split.
      { apply (inv_set_run s bm start count); try done; try lia. zcmp. }
      split_and!; [done..|]. left. exists start. split; [done|]. split_and!; (done || lia).
    + eexists _, _. split; [done|]. split; [exact (inv_counters s _ _ _ Hi)|].
      split_and!; [done..|]. right. split; [done|]. split_and!; [by right|done..].
Qed.

(** A small machine for the examples: 16 managed pages, the first 8 reserved. *)
Definition demo : pmm :=
  Pmm (255 :: 0 :: replicate (Z.to_nat 131070) 255) 16 8 8 0 0 0 8.

Lemma lookup_cons_SS (x y : Z) l n : (x :: y :: l) !! S (S n) = l !! n.
Proof. done. Qed.

Lemma demo_bit p : 0 <= p < PMM_MAX_PAGES -> bit (page_bitmap demo) p = negb (in_run 8 8 p).
Proof.
  intros Hp. unfold bit, demo, rd, in_run. cbn [page_bitmap]. unfold PMM_MAX_PAGES in Hp.
  pose proof (Z.mod_pos_bound p 8). rewrite (proj2 (Z.ltb_ge (p / 8) 0)) by divlia.
  assert (p / 8 = 0 \/ p / 8 = 1 \/ 2 <= p / 8 < 131072) as [E|[E|E]] by divlia.
  - rewrite E. simpl. change 255 with (Z.ones 8). rewrite Z.ones_spec_low by lia. zcmp; divlia.
  - rewrite E. simpl. rewrite Z.bits_0. zcmp; divlia.
  - replace (Z.to_nat (p / 8)) with (S (S (Z.to_nat (p / 8) - 2))) by lia.
    rewrite lookup_cons_SS, lookup_replicate_2 by lia. change 255 with (Z.ones 8).
    rewrite Z.ones_spec_low by lia. zcmp; divlia.
Qed.

Lemma demo_inv : pmm_inv demo.
Proof.
  split; [|cbn [demo managed_pages reserved_pages used_pages peak_used_pages]..].
  - cbn [demo page_bitmap]. split.
    + cbn [length]. rewrite length_replicate, !Nat2Z.inj_succ, Z2Nat.id by lia. done.
    + apply Forall_cons; split; [done|]. apply Forall_cons; split; [done|].
      by apply Forall_replicate.
  - unfold PMM_MAX_PAGES. lia.
  - intros p Hp1 Hp2. rewrite demo_bit by done. unfold in_run. zcmp.
  - rewrite (count_true_const false); [done|]. intros p Hp.
    rewrite demo_bit by (unfold PMM_MAX_PAGES; lia). unfold in_run. zcmp.
  - lia.
Qed.

Lemma demo_alloc : exists s' address, pmm_alloc_pages demo 3 = Some (s', address) /\ address <> 0.
Proof.
  destruct (pmm_alloc_outcome demo 3 demo_inv) as (s' & a & Ha & _ & _ & _ & H); [by split|].
  exists s', a. split; [done|].
  destruct H as [(start & -> & (_ & Hs & _))|(_ & [[?|Hb] _])]; [|discriminate|].
  - assert (8 <= start) as H8 by exact Hs. clear - H8. unfold PAGE_SIZE. lia.
  - destruct (Hb 8) as (p & Hp & Hbit); [apply (Z.le_refl 8)|by apply Z.leb_le|].
    clear - Hp Hbit. rewrite demo_bit in Hbit by (unfold PMM_MAX_PAGES; lia).
    unfold in_run in Hbit. zcmp.
Qed.
#[local] Opaque demo.

(** C34: [pmm_alloc_pages].  From any state that satisfies the invariant the
    search terminates without touching the bitmap out of range, and the
    invariant is kept.  A non-null result is page aligned and is the lowest
    run of [count] free managed pages; the call marks exactly these pages used
    and adds [count] to the used pages.  NULL is returned only for an empty
    request or when no such run exists, and then nothing but the failure
    counter changes. *)
Theorem pmm_alloc_pages_correct s count :
  pmm_inv s -> 0 < reserved_pages s -> fits 32 count ->
  exists s' address, pmm_alloc_pages s count = Some (s', address) /\ pmm_inv s' /\
    if address =? 0 then refused s s' count
    else address mod PAGE_SIZE = 0 /\ allocated s s' count (address / PAGE_SIZE).
Proof.
  intros Hi Hr Hc. destruct (pmm_alloc_outcome s count Hi Hc) as (s' & addr & -> & Hi' & _ & _ & H).
  exists s', addr. split_and!; [done..|].
  destruct H as [(start & -> & Ha)|(-> & Hf)]; [|done].
  rewrite (proj2 (Z.eqb_neq _ 0)) by (destruct Ha as (? & ? & _); unfold PAGE_SIZE; lia).
  by rewrite Z.mod_mul, Z.div_mul.
Qed.

Lemma pmm_alloc_pages_correct_witness :
  exists s' address, pmm_alloc_pages demo 3 = Some (s', address) /\ pmm_inv s' /\
    if address =? 0 then refused demo s' 3
    else address mod PAGE_SIZE = 0 /\ allocated demo s' 3 (address / PAGE_SIZE).
Proof. apply (pmm_alloc_pages_correct demo 3 demo_inv); [done|by split]. Defined.

(** Freeing a run inside the managed pages. *)
Lemma pmm_free_outcome s address start count :
  pmm_inv s -> address &&& (PAGE_SIZE - 1) = 0 -> u32 (address / PAGE_SIZE) = start ->
  0 < count -> reserved_pages s <= start -> start + count <= managed_pages s ->
  exists s', pmm_free_pages s address count = Some s' /\ pmm_inv s' /\
    managed_pages s' = managed_pages s /\ reserved_pages s' = reserved_pages s /\
    used_pages s' = used_pages s - count_true (bit (page_bitmap s)) start (Z.to_nat count) /\
    forall q, bit (page_bitmap s') q = negb (in_run start count q) && bit (page_bitmap s) q.
Proof.
  intros Hi Hal Hst Hc Hs Hm. pose proof (inv_used_range s Hi) as Hur.
  destruct Hi as [Hok [Hr Hmax] Ho Hu Hp].
  unfold pmm_free_pages. rewrite Hal, Hst. cbn [managed_pages reserved_pages page_bitmap].
  rewrite (small_u32 (start + count)) by lia. simpl.
  rewrite (proj2 (Z.eqb_neq count 0)), (proj2 (Z.ltb_ge start _)), (proj2 (Z.ltb_ge _ (start + count))) by lia.
  simpl. set (f := bit (page_bitmap s)) in *.
  set (n := Z.to_nat (managed_pages s - reserved_pages s)) in *.
  assert (forall g, (forall p, reserved_pages s <= p < reserved_pages s + Z.of_nat n ->
      p < start \/ start + count <= p -> g p = f p) ->
    count_true g (reserved_pages s) n - count_true g start (Z.to_nat count) =
    count_true f (reserved_pages s) n - count_true f start (Z.to_nat count)) as Hw
    by (intros g Hg; apply count_true_window; (done || lia)).
  pose proof (Hw (fun p => negb (in_run start count p) && f p)) as Hw'.
  rewrite (count_true_const false _ start) in Hw' by (intros p Hp'; unfold in_run; zcmp).
  specialize (Hw' ltac:(intros p _ Hp'; unfold in_run; zcmp)).
  pose proof (count_true_range (fun p => negb (in_run start count p) && f p) (reserved_pages s) n).
  destruct (free_loop_spec (page_bitmap s) (used_pages s) start count) as (bm & -> & Hok' & Hb);
    [done|lia..|fold f; lia|]. simpl. fold f in Hb |- *.
  eexists. split; [done|]. split; [|by split_and!].
  split; simpl; try done.
  - intros p Hp1 Hp2. rewrite Hb, Ho by done. unfold in_run. zcmp.
  - rewrite (count_true_ext (bit bm) (fun p => negb (in_run start count p) && f p)) by (intros; apply Hb).
    fold n. lia.
  - pose proof (count_true_range f start (Z.to_nat count)). lia.
Qed.

Lemma alloc_free_outcome s count s' address :
  pmm_inv s -> 0 < reserved_pages s -> fits 32 count ->
  pmm_alloc_pages s count = Some (s', address) -> address <> 0 ->
  exists s'', pmm_free_pages s' address count = Some s'' /\ pmm_inv s'' /\
    managed_pages s'' = managed_pages s /\ used_pages s'' = used_pages s /\
    forall q, bit (page_bitmap s'') q = bit (page_bitmap s) q.
Proof.
  intros Hi Hr Hc Ha Hne.
  destruct (pmm_alloc_outcome s count Hi Hc) as (s1 & addr & Ha' & Hi' & Hm & Hrs & H).
  rewrite Ha in Ha'. injection Ha' as -> ->.
  destruct H as [(start & -> & (Hpos & Hs1 & Hs2 & Hfree & _ & Hb & Hu))|(-> & _)]; [|done].
  pose proof (inv_range s1 Hi') as [Hr1 Hmax1].
  destruct (pmm_free_outcome s1 (start * PAGE_SIZE) start count)
    as (s2 & -> & Hi2 & Hm2 & _ & Hu2 & Hb2);
    [done|change (PAGE_SIZE - 1) with (2 ^ 12 - 1); rewrite land_mask by done; by apply Z.mod_mul|
     rewrite Z.div_mul by done; apply small_u32; lia|lia..|].
  exists s2. split_and!; [done|done|congruence| |].
  - rewrite Hu2, Hu, (count_true_const true) by (intros p Hp; rewrite Hb; unfold in_run; zcmp). lia.
  - intros q. rewrite Hb2, Hb. destruct (in_run start count q) eqn:E; [|done].
    symmetry. apply Hfree. unfold in_run in E. zcmp.
Qed.

(** The self test passes unless there is no run of three pages, and leaves the
    pages as they were. *)
Lemma pmm_self_test_outcome s ram :
  pmm_inv s -> 0 < reserved_pages s ->
  exists s' ram' r, pmm_self_test s ram = Some (s', ram', r) /\ pmm_inv s' /\
    (forall q, bit (page_bitmap s') q = bit (page_bitmap s) q) /\
    (r = 0 \/ r = -1 /\ forall q, reserved_pages s <= q -> q + 3 <= managed_pages s -> blocked (page_bitmap s) q 3).
Proof.
  intros Hi Hr. unfold pmm_self_test. destruct (pmm_alloc_outcome s 3 Hi) as (s1 & a & Ha & Hi1 & Hm & Hrs & H); [warith|].
  rewrite Ha, bind_some. destruct H as [(start & -> & Hal)|(-> & Href)].
  2: { exists s1, ram, (-1). split; [done|]. split; [done|]. destruct Href as ([?|Hb] & Hbm & _); [done|].
       split; [by rewrite Hbm|]. by right. }
  destruct Hal as (_ & Hs1 & Hs2 & _ & _ & _ & Hu). pose proof (inv_range s Hi) as [_ Hmax].
  pose proof (inv_used_range s1 Hi1) as Hur.
  assert (start * PAGE_SIZE <> 0) as Hne by (unfold PAGE_SIZE; lia).
  destruct (alloc_free_outcome s 3 s1 (start * PAGE_SIZE) Hi Hr ltac:(warith) Ha Hne) as (s2 & Hf & Hi2 & Hm2 & Hu2 & Hb2).
  rewrite (proj2 (Z.eqb_neq _ _) Hne). assert (start * PAGE_SIZE &&& (PAGE_SIZE - 1) = 0) as ->.
  { change (PAGE_SIZE - 1) with (2 ^ 12 - 1). rewrite land_mask by done. by apply Z.mod_mul. }
  cbn [Z.eqb negb orb]. set (p := start * PAGE_SIZE) in *. cbv zeta.
  set (ram' := <[p + (PAGE_SIZE * 3 - 1) := _]> _).
  assert (ram' !! p = Some 0x4D /\ ram' !! (p + (PAGE_SIZE - 1)) = Some 0x56 /\ ram' !! (p + PAGE_SIZE) = Some 0x48 /\
    ram' !! (p + (PAGE_SIZE * 3 - 1)) = Some 0x11) as (-> & -> & -> & ->).
  { unfold ram', PAGE_SIZE. split_and!; rewrite ?lookup_insert_ne by lia; by rewrite lookup_insert_eq. }
  rewrite !bind_some. cbn [pmm_get_stats st_used_pages st_free_pages].
  rewrite Hu, (u64_small (used_pages s + 3)), Z.eqb_refl by (unfold PMM_MAX_PAGES in Hmax; warith).
  cbn [Z.eqb Pos.eqb negb orb]. rewrite Hf, !bind_some, Hu2, Hm2, !Z.eqb_refl.
  do 3 eexists. split; [done|]. split; [done|]. split; [done|]. by left.
Qed.

(** [pmm_alloc_pages] followed by [pmm_free_pages].  Freeing an
    allocation with the count it was requested with restores the set of used
    pages and the number of used pages. *)
Theorem pmm_alloc_free s count s' address :
  pmm_inv s -> 0 < reserved_pages s -> fits 32 count ->
  pmm_alloc_pages s count = Some (s', address) -> address <> 0 ->
  exists s'', pmm_free_pages s' address count = Some s'' /\ pmm_inv s'' /\
    used_pages s'' = used_pages s /\
    forall q, bit (page_bitmap s'') q = bit (page_bitmap s) q.
Proof.
  intros Hi Hr Hc Ha Hne. destruct (alloc_free_outcome s count s' address Hi Hr Hc Ha Hne) as (s'' & ? & ? & _ & ?).
  by exists s''.
Qed.

Lemma pmm_alloc_free_witness :
  exists s' address s'', pmm_alloc_pages demo 3 = Some (s', address) /\
    pmm_free_pages s' address 3 = Some s'' /\ pmm_inv s'' /\ used_pages s'' = used_pages demo /\
    forall q, bit (page_bitmap s'') q = bit (page_bitmap demo) q.
Proof.
  destruct demo_alloc as (s' & a & Ha & Hne).
  destruct (pmm_alloc_free demo 3 s' a demo_inv) as (s'' & H); [done|by split|exact Ha|exact Hne|].
  exists s', a, s''. split; [exact Ha|exact H].
Defined.

(** ** Initialisation *)

Lemma fill_bitmap_spec bm :
  Z.of_nat (length bm) = PMM_BITMAP_BYTES ->
  exists bm', for_loop (Z.to_nat PMM_BITMAP_BYTES) 0 (fun page bitmap => wr bitmap page 255) bm =
      Some bm' /\ bitmap_ok bm' /\ forall p, 0 <= p < PMM_MAX_PAGES -> bit bm' p = true.
Proof.
  intros Hl.
  destruct (for_loop_rule (fun i bm' => length bm' = length bm /\
      forall j, 0 <= j < i -> rd bm' j = Some 255)
    (Z.to_nat PMM_BITMAP_BYTES) 0 (fun page bitmap => wr bitmap page 255) bm) as (bm' & -> & Hl' & Hr).
  - split; [done|lia].
  - intros i bm' Hi [Hl' Hr]. rewrite wr_ok by lia.
    pose proof (wr_ok bm' i 255 ltac:(lia)) as Hw. eexists. split; [done|].
    split; [by rewrite length_insert|]. intros j Hj. rewrite (rd_wr _ _ j _ _ Hw).
    destruct (Z.eqb_spec i j); [done|]. apply Hr. lia.
  - rewrite Z.add_0_l, Z2Nat.id in Hr by done. exists bm'. split; [done|]. split; [split|].
    + by rewrite Hl'.
    + apply Forall_lookup. intros i x Hx. apply lookup_lt_Some in Hx as Hlt.
      specialize (Hr (Z.of_nat i) ltac:(lia)). apply rd_Some in Hr as [_ Hr].
      rewrite Nat2Z.id in Hr. rewrite Hr in Hx. injection Hx as <-. done.
    + intros p Hp. unfold bit. rewrite Hr by (unfold PMM_BITMAP_BYTES, PMM_MAX_PAGES in *; divlia).
      change 255 with (Z.ones 8). pose proof (Z.mod_pos_bound p 8).
      apply Z.ones_spec_low. lia.
Qed.

Lemma clear_range_spec bm lo hi :
  bitmap_ok bm -> 0 <= lo <= hi -> hi <= PMM_MAX_PAGES ->
  exists bm', for_loop (Z.to_nat (hi - lo)) lo (fun page bitmap => page_clear bitmap page) bm =
      Some bm' /\ bitmap_ok bm' /\ forall q, bit bm' q = negb (in_run lo (hi - lo) q) && bit bm q.
Proof.
  intros Hok Hl Hh.
  destruct (for_loop_rule (fun j bm' => bitmap_ok bm' /\
      forall q, bit bm' q = negb (in_run lo (j - lo) q) && bit bm q)
    (Z.to_nat (hi - lo)) lo (fun page bitmap => page_clear bitmap page) bm) as (bm' & -> & Hok' & Hb).
  - split; [done|]. intros q. unfold in_run. zcmp.
  - intros j bm' Hj [Hok' Hb].
    destruct (page_clear_spec bm' j) as (bm2 & -> & Hok2 & Hb2); [done|lia|].
    eexists. split; [done|]. split; [done|]. intros q. rewrite Hb2, Hb, andb_assoc. f_equal.
    unfold in_run. zcmp.
  - exists bm'. replace (lo + Z.of_nat (Z.to_nat (hi - lo))) with hi in Hb by lia. done.
Qed.

Lemma pmm_init_outcome s memory_kib kernel_end mapped_limit :
  Z.of_nat (length (page_bitmap s)) = PMM_BITMAP_BYTES ->
  exists s', pmm_init_limit s memory_kib kernel_end mapped_limit = Some s' /\ pmm_inv s' /\
    used_pages s' = reserved_pages s' /\
    forall q, reserved_pages s' <= q < managed_pages s' -> bit (page_bitmap s') q = false.
Proof.
  intros Hl. unfold pmm_init_limit. cbv zeta.
  set (managed := if PMM_MAX_PAGES <? _ then PMM_MAX_PAGES else _).
  set (reserved := if managed <? _ then managed else _).
  assert (0 <= managed <= PMM_MAX_PAGES) as Hm.
  { unfold managed. pose proof (u32_range ((if (if (mapped_limit =? 0) || (4294967296 <? mapped_limit)
      then 1073741824 else mapped_limit) <? u64 (memory_kib * 1024) then
      if (mapped_limit =? 0) || (4294967296 <? mapped_limit) then 1073741824 else mapped_limit
      else u64 (memory_kib * 1024)) / PAGE_SIZE)) as Hu. unfold fits in Hu.
    unfold PMM_MAX_PAGES in *. split_if; lia. }
  assert (0 <= reserved <= managed) as Hr.
  { unfold reserved. pose proof (u32_range (u64 (u64 (kernel_end + PAGE_SIZE) - 1) / PAGE_SIZE)) as Hu.
    unfold fits in Hu. split_if; lia. }
  destruct (fill_bitmap_spec (page_bitmap s) Hl) as (bm & -> & Hok & Hall). cbn [mbind option_bind].
  destruct (clear_range_spec bm reserved managed) as (bm' & -> & Hok' & Hb); [done|lia..|].
  cbn [mbind option_bind]. eexists. split; [done|]. split; [|split; [done|]]; simpl.
  - split; simpl; [done|lia| | |lia].
    + intros p Hp1 Hp2. rewrite Hb, Hall by done. unfold in_run. zcmp.
    + rewrite (count_true_const false); [lia|]. intros p Hp. rewrite Hb. unfold in_run. zcmp.
  - intros q Hq. rewrite Hb. unfold in_run. zcmp.
Qed.

(** ** Sequences of operations *)

Inductive pmm_op :=
  | OpAlloc (count : Z)
  | OpFree (address count : Z).

Definition pmm_step (s : pmm) (op : pmm_op) : option pmm :=
  match op with
  | OpAlloc count => r ← pmm_alloc_pages s count; Some (fst r)
  | OpFree address count => pmm_free_pages s address count
  end.

Fixpoint pmm_run (s : pmm) (ops : list pmm_op) : option pmm :=
  match ops with [] => Some s | op :: ops => s ← pmm_step s op; pmm_run s ops end.

(** Arguments of the declared widths. *)
Definition op_width (op : pmm_op) : Prop :=
  match op with OpAlloc count => fits 32 count | OpFree address count => fits 64 address /\ fits 32 count end.

(** The bounds check of [pmm_free_pages] is computed in 32 bits.  A free whose
    page number plus count wraps to a value within the managed range passes it. *)
Definition free_wraps (reserved managed : Z) (op : pmm_op) : Prop :=
  match op with
  | OpAlloc _ => False
  | OpFree address count =>
      address mod PAGE_SIZE = 0 /\ reserved <= u32 (address / PAGE_SIZE) /\
      2 ^ 32 <= u32 (address / PAGE_SIZE) + count <= 2 ^ 32 + managed
  end.

#[global] Instance free_wraps_dec reserved managed op : Decision (free_wraps reserved managed op).
Proof. destruct op; apply _. Defined.

(** The loop of such a free runs off the end of the bitmap. *)
Lemma pmm_free_pages_wraps s address count :
  pmm_inv s -> fits 32 count -> free_wraps (reserved_pages s) (managed_pages s) (OpFree address count) ->
  pmm_free_pages s address count = None.
Proof.
  intros [Hok [Hr Hmax] _ _ _] Hc (Hal & Hs & Hw). unfold pmm_free_pages.
  cbn [managed_pages reserved_pages page_bitmap used_pages]. pose proof (u32_range (address / PAGE_SIZE)) as Hrange.
  set (start := u32 (address / PAGE_SIZE)) in *. unfold fits in Hrange, Hc.
  assert (u32 (start + count) = start + count - 2 ^ 32) as ->.
  { unfold u32. symmetry. apply (Z.mod_unique_pos _ _ 1); unfold PMM_MAX_PAGES in *; pow2; lia. }
  change (PAGE_SIZE - 1) with (2 ^ 12 - 1). rewrite land_mask by done. change (2 ^ 12) with PAGE_SIZE. rewrite Hal.
  rewrite (proj2 (Z.eqb_neq count 0)), (proj2 (Z.ltb_ge start _)), (proj2 (Z.ltb_ge (managed_pages s) _)) by lia.
  simpl. rewrite (for_loop_fault (fun st => bitmap_ok (fst st)) (Z.max 0 (PMM_MAX_PAGES - start))); [done|done| | |].
  - unfold PMM_MAX_PAGES in *. pow2. lia.
  - intros j [bm u] Hj Hbm. unfold free_step. unfold PMM_MAX_PAGES in Hj.
    rewrite !(small_u32 (start + j)) by (unfold PMM_MAX_PAGES; lia).
    destruct (page_used_spec bm (start + j)) as (x & -> & Hx); [done|unfold PMM_MAX_PAGES; lia|].
    cbn [mbind option_bind]. destruct (negb _); [|by eexists].
    destruct (page_clear_spec bm (start + j)) as (bm2 & -> & Hok2 & _); [done|unfold PMM_MAX_PAGES; lia|].
    by eexists.
  - intros [bm u] [Hl _]. unfold free_step, page_used. simpl in Hl.
    set (k := start + Z.max 0 (PMM_MAX_PAGES - start)).
    assert (PMM_MAX_PAGES <= k < 2 ^ 32) as Hk by (subst k; unfold PMM_MAX_PAGES in *; pow2; lia).
    rewrite (u32_small k) by (unfold fits, PMM_MAX_PAGES in *; lia).
    destruct (rd bm (k >> 3)) eqn:E; [|done]. apply rd_range in E. rewrite Hl in E.
    change (PMM_BITMAP_BYTES) with 131072 in E. rewrite Z.shiftr_div_pow2 in E by lia. unfold PMM_MAX_PAGES in E.
    change (2 ^ 3) with 8 in E. clearbody k. unfold PMM_MAX_PAGES in Hk. exfalso. clear -E Hk. divlia.
Qed.

(** Every other operation completes. *)
Lemma pmm_step_inv s op :
  pmm_inv s -> op_width op -> ~ free_wraps (reserved_pages s) (managed_pages s) op ->
  exists s', pmm_step s op = Some s' /\ pmm_inv s' /\ managed_pages s' = managed_pages s /\ reserved_pages s' = reserved_pages s.
Proof.
  intros Hi Hop Hnw. destruct op as [count|address count]; cbn [pmm_step op_width free_wraps] in *.
  - destruct (pmm_alloc_outcome s count Hi Hop) as (s' & a & -> & Hi' & ? & ? & _). by exists s'.
  - destruct Hop as [Ha Hc]. pose proof (u32_range (address / PAGE_SIZE)) as Hs. set (start := u32 (address / PAGE_SIZE)) in *.
    destruct ((count =? 0) || negb ((address &&& (PAGE_SIZE - 1)) =? 0) ||
      (start <? reserved_pages s) || (managed_pages s <? u32 (start + count))) eqn:Hg.
    + eexists. split; [unfold pmm_free_pages; fold start; simpl; by rewrite Hg|].
      split; [exact (inv_counters s _ _ _ Hi)|done].
    + apply orb_false_iff in Hg as [Hg H4]. apply orb_false_iff in Hg as [Hg H3].
      apply orb_false_iff in Hg as [H1 H2]. bool_to_prop. unfold fits in Hs, Hc.
      assert (start + count < 2 ^ 32) as Hw.
      { apply Z.nle_gt. intros Hge. apply Hnw. split; [|split; [done|]].
        - change (PAGE_SIZE - 1) with (2 ^ 12 - 1) in H2. by rewrite land_mask in H2.
        - assert (u32 (start + count) = start + count - 2 ^ 32) as E
            by (unfold u32; symmetry; apply (Z.mod_unique_pos _ _ 1); pow2; lia).
          lia. }
      rewrite u32_small in H4 by (unfold fits; lia).
      destruct (pmm_free_outcome s address start count) as (s' & -> & Hi' & ? & ? & _); [done..|lia|lia|lia|].
      by exists s'.
Qed.

Lemma pmm_run_exact ops s :
  pmm_inv s -> Forall op_width ops ->
  match pmm_run s ops with
  | Some s' => Forall (fun op => ~ free_wraps (reserved_pages s) (managed_pages s) op) ops /\
      pmm_inv s' /\ managed_pages s' = managed_pages s /\ reserved_pages s' = reserved_pages s
  | None => Exists (free_wraps (reserved_pages s) (managed_pages s)) ops
  end.
Proof.
  intros Hi Hops. revert s Hi. induction Hops as [|op ops Hop Hops IH]; intros s Hi; cbn [pmm_run]; [by split|].
  destruct (decide (free_wraps (reserved_pages s) (managed_pages s) op)) as [Hw|Hw].
  - destruct op as [count|address count]; [done|]. cbn [pmm_step]. rewrite pmm_free_pages_wraps by (done || apply Hop). by apply Exists_cons_hd.
  - destruct (pmm_step_inv s op Hi Hop Hw) as (s1 & -> & Hi1 & Hm & Hr). rewrite bind_some. specialize (IH s1 Hi1).
    rewrite Hm, Hr in IH. destruct (pmm_run s1 ops); [|by apply Exists_cons_tl].
    destruct IH as (? & ? & ? & ?). split; [by apply Forall_cons|done].
Qed.

(** C35: the allocator as a whole, for any arguments of the declared widths.
    After [pmm_init_limit] on any memory size the invariant holds.  A sequence of
    allocations and frees accesses memory outside the bitmap exactly when it has
    a free of an aligned address, not below the reserved pages, whose page number
    plus count wraps past 2^32 to at most the number of managed pages.  Every
    other sequence completes, with the managed and reserved ranges unchanged,
    in a state in which the invariant holds: reserved pages and pages beyond the
    managed range are marked used, and [used_pages] is exactly the number of
    pages marked used. *)
Theorem pmm_run_safe s0 memory_kib kernel_end mapped_limit ops :
  Z.of_nat (length (page_bitmap s0)) = PMM_BITMAP_BYTES -> Forall op_width ops ->
  exists s1, pmm_init_limit s0 memory_kib kernel_end mapped_limit = Some s1 /\ pmm_inv s1 /\
    (pmm_run s1 ops = None <-> Exists (free_wraps (reserved_pages s1) (managed_pages s1)) ops) /\
    forall s, pmm_run s1 ops = Some s -> pmm_inv s /\ managed_pages s = managed_pages s1 /\ reserved_pages s = reserved_pages s1.
Proof.
  intros Hl Hops. destruct (pmm_init_outcome s0 memory_kib kernel_end mapped_limit Hl) as (s1 & -> & Hi & _).
  exists s1. split; [done|]. split; [done|]. pose proof (pmm_run_exact ops s1 Hi Hops) as H.
  destruct (pmm_run s1 ops) as [s|].
  - destruct H as (Hnw & H). split; [|by intros ? [= <-]]. split; [done|]. intros Hex. exfalso. by apply (Forall_not_Exists _ _ Hnw).
  - split; [done|]. intros s [=].
Qed.

Lemma pmm_run_safe_witness :
  exists s1, pmm_init_limit demo 1024 65536 0 = Some s1 /\ pmm_inv s1 /\
    (pmm_run s1 [OpAlloc 3; OpFree 65536 2; OpFree 4096 4294967295] = None <->
     Exists (free_wraps (reserved_pages s1) (managed_pages s1)) [OpAlloc 3; OpFree 65536 2; OpFree 4096 4294967295]).
Proof.
  destruct (pmm_run_safe demo 1024 65536 0 [OpAlloc 3; OpFree 65536 2; OpFree 4096 4294967295]) as (s1 & H1 & H2 & H3 & _).
  - apply demo_inv.
  - repeat (apply Forall_cons; split); try apply Forall_nil; by repeat split.
  - exists s1. split; [exact H1|]. split; [exact H2|exact H3].
Defined.

(** Such a free faults on the small machine. *)
Example pmm_free_wraps_demo : pmm_free_pages demo (8 * PAGE_SIZE) 4294967290 = None.
Proof. apply (pmm_free_pages_wraps demo _ _ demo_inv); [by split|]. by vm_compute. Qed.
