(* ===== verification/Vmm.v ===== *)
(** * Page tables: src/memory/vmm.c

    The physical pages that hold page tables, by address, with their 512
    entries; the pages come from the physical page allocator.  Using a page that
    is not a table as one is a fault.  The MMU walks the tables in memory: the
    TLB, and the instruction that invalidates an entry of it, are not modelled. *)

From S2P Require Import Prelude Pmm.

#[local] Open Scope Z_scope.

Definition VMM_PRESENT : Z := 1 << 0.
Definition VMM_WRITABLE : Z := 1 << 1.
Definition VMM_USER : Z := 1 << 2.
Definition VMM_WRITE_THROUGH : Z := 1 << 3.
Definition VMM_CACHE_DISABLE : Z := 1 << 4.
Definition VMM_GLOBAL : Z := 1 << 8.
Definition VMM_NO_EXECUTE : Z := 1 << 63.
Definition PAGE_MASK : Z := 0x000FFFFFFFFFF000.
Definition PAGE_HUGE : Z := 1 << 7.
Definition HUGE_MASK : Z := 0x000FFFFFFFE00000.

Record vmm := Vmm {
  tables : gmap Z (list Z);
  cr3 : Z;
  mapped_page_count : Z;
  frames : pmm;
  ram : gmap Z Z;
}.

Definition with_tables (s : vmm) (t : gmap Z (list Z)) : vmm :=
  Vmm t (cr3 s) (mapped_page_count s) (frames s) (ram s).
Definition with_frames (s : vmm) (p : pmm) : vmm :=
  Vmm (tables s) (cr3 s) (mapped_page_count s) p (ram s).
Definition with_count (s : vmm) (n : Z) : vmm :=
  Vmm (tables s) (cr3 s) n (frames s) (ram s).
Definition with_ram (s : vmm) (r : gmap Z Z) : vmm :=
  Vmm (tables s) (cr3 s) (mapped_page_count s) (frames s) r.

(** [table[index]], read and written. *)
Definition get_entry (s : vmm) (table index : Z) : option Z := t ← tables s !! table; rd t index.
Definition set_entry (s : vmm) (table index v : Z) : option vmm :=
  t ← tables s !! table; t ← wr t index v; Some (with_tables s (<[table := t]> (tables s))).

Definition active_pml4 (s : vmm) : Z := cr3 s &&& PAGE_MASK.

Definition has (e flag : Z) : bool := negb (e &&& flag =? 0).

(** What the MMU makes of a virtual address: the entry of its 4096-byte page,
    that of a 2 MiB page cut down to the page, or [None] for a page fault. *)
Definition COMMON_FLAGS : Z :=
  VMM_WRITABLE ||| VMM_USER ||| VMM_WRITE_THROUGH ||| VMM_CACHE_DISABLE ||| VMM_GLOBAL ||| VMM_NO_EXECUTE.

Definition index4 (address : Z) : Z := (address >> 39) &&& 511.
Definition index3 (address : Z) : Z := (address >> 30) &&& 511.
Definition index2 (address : Z) : Z := (address >> 21) &&& 511.
Definition index1 (address : Z) : Z := (address >> 12) &&& 511.

Definition leaf (s : vmm) (address : Z) : option Z :=
  e4 ← get_entry s (active_pml4 s) (index4 address);
  if negb (has e4 VMM_PRESENT) then None else
  e3 ← get_entry s (e4 &&& PAGE_MASK) (index3 address);
  if negb (has e3 VMM_PRESENT) then None else
  e2 ← get_entry s (e3 &&& PAGE_MASK) (index2 address);
  if negb (has e2 VMM_PRESENT) then None else
  if has e2 PAGE_HUGE then
    Some (u64 ((e2 &&& HUGE_MASK) + u64 (index1 address * PAGE_SIZE)) ||| VMM_PRESENT ||| (e2 &&& COMMON_FLAGS))
  else
    e1 ← get_entry s (e2 &&& PAGE_MASK) (index1 address);
    if has e1 VMM_PRESENT then Some e1 else None.

Section vmm.
(** What a page that the allocator hands out holds. *)
Variable contents : Z -> list Z.

Definition new_table (s : vmm) : option (vmm * Z) :=
  '(p, table) ← pmm_alloc_pages (frames s) 1;
  let s := with_frames s p in
  if table =? 0 then Some (s, 0) else
  t ← for_loop 512 0 (fun index t => wr t index 0) (contents table);
  Some (with_tables s (<[table := t]> (tables s)), table).

(** The argument is a pointer to an entry: a table and an index. *)
Definition split_huge_page (s : vmm) (entry : Z * Z) : option (vmm * Z) :=
  original ← get_entry s (fst entry) (snd entry);
  let base := original &&& HUGE_MASK in
  let common := original &&& COMMON_FLAGS in
  '(s, table) ← new_table s;
  if table =? 0 then Some (s, 0) else
  t ← tables s !! table;
  t ← for_loop 512 0
    (fun index t => wr t index (u64 (base + u64 (index * PAGE_SIZE)) ||| VMM_PRESENT ||| common)) t;
  let s := with_tables s (<[table := t]> (tables s)) in
  s ← set_entry s (fst entry) (snd entry) ((table &&& PAGE_MASK) ||| VMM_PRESENT ||| VMM_WRITABLE);
  Some (s, table).

(** The two upper levels: the table that the entry points to, created when it
    is missing and [create] is set; [None] is the early return of 0. *)
Definition next_table (s : vmm) (table index create : Z) : option (vmm * option Z) :=
  e ← get_entry s table index;
  if has e VMM_PRESENT then Some (s, Some (e &&& PAGE_MASK)) else
  if create =? 0 then Some (s, None) else
  '(s, new) ← new_table s;
  if new =? 0 then Some (s, None) else
  s ← set_entry s table index (new ||| VMM_PRESENT ||| VMM_WRITABLE);
  e ← get_entry s table index;
  Some (s, Some (e &&& PAGE_MASK)).

(** The last table, split off a huge page or created when it is missing. *)
Definition last_table (s : vmm) (table index create : Z) : option (vmm * option Z) :=
  e ← get_entry s table index;
  if has e VMM_PRESENT && has e PAGE_HUGE then
    '(s, pt) ← split_huge_page s (table, index);
    Some (s, if pt =? 0 then None else Some pt)
  else if negb (has e VMM_PRESENT) then
    if create =? 0 then Some (s, None) else
    '(s, pt) ← new_table s;
    if pt =? 0 then Some (s, None) else
    s ← set_entry s table index (pt ||| VMM_PRESENT ||| VMM_WRITABLE); Some (s, Some pt)
  else Some (s, Some (e &&& PAGE_MASK)).

(** The result points to an entry of the last table. *)
Definition walk (s : vmm) (address create : Z) : option (vmm * option (Z * Z)) :=
  let pml4 := active_pml4 s in
  let pml4_index := u32 ((address >> 39) &&& 511) in
  let pdpt_index := u32 ((address >> 30) &&& 511) in
  let pd_index := u32 ((address >> 21) &&& 511) in
  '(s, pdpt) ← next_table s pml4 pml4_index create;
  match pdpt with None => Some (s, None) | Some pdpt =>
  '(s, pd) ← next_table s pdpt pdpt_index create;
  match pd with None => Some (s, None) | Some pd =>
  '(s, pt) ← last_table s pd pd_index create;
  match pt with None => Some (s, None) | Some pt => Some (s, Some (pt, (address >> 12) &&& 511)) end end end.

Definition vmm_map_page (s : vmm) (virtual_address physical_address flags : Z) : option (vmm * Z) :=
  if negb (virtual_address &&& (PAGE_SIZE - 1) =? 0) || negb (physical_address &&& (PAGE_SIZE - 1) =? 0)
  then Some (s, -1) else
  '(s, entry) ← walk s virtual_address 1;
  match entry with
  | None => Some (s, -1)
  | Some (t, i) =>
    e ← get_entry s t i;
    let s := if has e VMM_PRESENT then s else with_count s (u64 (mapped_page_count s + 1)) in
    s ← set_entry s t i ((physical_address &&& PAGE_MASK) ||| VMM_PRESENT ||| flags);
    Some (s, 0)
  end.

Definition vmm_unmap_page (s : vmm) (virtual_address : Z) : option (vmm * Z) :=
  if negb (virtual_address &&& (PAGE_SIZE - 1) =? 0) then Some (s, -1) else
  '(s, entry) ← walk s virtual_address 0;
  match entry with
  | None => Some (s, -1)
  | Some (t, i) =>
    e ← get_entry s t i;
    if negb (has e VMM_PRESENT) then Some (s, -1) else
    s ← set_entry s t i 0;
    let s := if negb (mapped_page_count s =? 0) then with_count s (u64 (mapped_page_count s - 1)) else s in
    Some (s, 0)
  end.

(** The result: the status and, when it is 0, the physical address and flags. *)
Definition vmm_query_page (s : vmm) (virtual_address : Z) : option (vmm * Z * Z * Z) :=
  '(s, entry) ← walk s virtual_address 0;
  match entry with
  | None => Some (s, -1, 0, 0)
  | Some (t, i) =>
    e ← get_entry s t i;
    if negb (has e VMM_PRESENT) then Some (s, -1, 0, 0) else
    Some (s, 0, (e &&& PAGE_MASK) ||| (virtual_address &&& (PAGE_SIZE - 1)), e &&& compl 64 PAGE_MASK)
  end.

Definition vmm_mapped_pages (s : vmm) : Z := mapped_page_count s.

(** [for (address = from; address < to; address += PAGE_SIZE) map it to itself]
    with an early return of -1. *)
Definition map_range (s : vmm) (from to flags : Z) : option (vmm + vmm) :=
  while_loop (S (Z.to_nat ((to - from) / PAGE_SIZE + 1)))
    (fun '(s, address) =>
       if address <? to then
         '(s, r) ← vmm_map_page s address address flags;
         if negb (r =? 0) then Some (inr (inr s)) else Some (inl (s, u64 (address + PAGE_SIZE)))
       else Some (inr (inl s))) (s, from).

(** The linker's symbols and the boot flag are arguments. *)
Definition vmm_init (s : vmm) (identity_4g : bool)
    (kernel_start text_end rodata_start rodata_end kernel_end : Z) : option (vmm * Z) :=
  let s := with_count s (if identity_4g then 4 * 512 * 512 else 512 * 512) in
  '(s, r) ← vmm_unmap_page s 0;
  if negb (r =? 0) then Some (s, -1) else
  r ← map_range s kernel_start text_end VMM_GLOBAL;
  match r with inr s => Some (s, -1) | inl s =>
  r ← map_range s rodata_start rodata_end (VMM_GLOBAL ||| VMM_NO_EXECUTE);
  match r with inr s => Some (s, -1) | inl s =>
  r ← map_range s (u64 (u64 (rodata_end + PAGE_SIZE) - 1) &&& compl 64 (PAGE_SIZE - 1))
        (u64 (u64 (kernel_end + PAGE_SIZE) - 1) &&& compl 64 (PAGE_SIZE - 1))
        (VMM_WRITABLE ||| VMM_GLOBAL ||| VMM_NO_EXECUTE);
  match r with inr s => Some (s, -1) | inl s => Some (s, 0) end end end.

(** A 64-bit store and load through the MMU. *)
Definition store (s : vmm) (address v : Z) : option vmm :=
  e ← leaf s address;
  if negb (has e VMM_WRITABLE) then None
  else Some (with_ram s (<[(e &&& PAGE_MASK) ||| (address &&& (PAGE_SIZE - 1)) := v]> (ram s))).

Definition load (s : vmm) (address : Z) : option Z :=
  e ← leaf s address; ram s !! ((e &&& PAGE_MASK) ||| (address &&& (PAGE_SIZE - 1))).

Definition test_address : Z := 0x40000000.
Definition test_value : Z := 0x4D5648313132.

Definition free_page (s : vmm) (physical : Z) : option vmm :=
  p ← pmm_free_pages (frames s) physical 1; Some (with_frames s p).

Definition vmm_self_test (s : vmm) : option (vmm * Z) :=
  '(p, physical) ← pmm_alloc_pages (frames s) 1;
  let s := with_frames s p in
  if physical =? 0 then Some (s, -1) else
  '(s, r) ← vmm_map_page s test_address physical (VMM_WRITABLE ||| VMM_NO_EXECUTE);
  if negb (r =? 0) then s ← free_page s physical; Some (s, -1) else
  s ← store s test_address test_value;
  v ← load s test_address;
  '(s, bad) ← (if negb (v =? test_value) then Some (s, true) else
    '(s, r, queried, flags) ← vmm_query_page s test_address;
    Some (s, negb (r =? 0) || negb (queried =? physical) || negb (has flags VMM_NO_EXECUTE)));
  if bad : bool then
    '(s, _) ← vmm_unmap_page s test_address; s ← free_page s physical; Some (s, -1)
  else
  '(s, r) ← vmm_unmap_page s test_address;
  '(s, bad) ← (if negb (r =? 0) then Some (s, true) else
    '(s, r, _, _) ← vmm_query_page s test_address; Some (s, r =? 0));
  s ← free_page s physical;
  Some (s, if bad : bool then -1 else 0).
End vmm.
