(* ===== verification/VmmCorrect.v ===== *)
(** * Correctness of the page tables

    The tables form a tree whose pages are not free for the page allocator.
    Mapping and unmapping change what the MMU sees of one page and of nothing
    else; splitting a huge page changes nothing. *)

From S2P Require Import Prelude Buffer Pmm Vmm.

#[local] Open Scope Z_scope.

(** ** Entries *)

Lemma has_bit e k : 0 <= k -> has e (1 << k) = Z.testbit e k.
Proof.
  intros Hk. unfold has. rewrite Z.shiftl_1_l.
  assert (e &&& 2 ^ k = if Z.testbit e k then 2 ^ k else 0) as ->.
  { zbits. rewrite Z.pow2_bits_eqb by lia. destruct (Z.eqb_spec k n) as [->|Hne].
    - destruct (Z.testbit e n); [by rewrite Z.pow2_bits_true by lia|by rewrite Z.bits_0].
    - rewrite andb_false_r. destruct (Z.testbit e k); [|by rewrite Z.bits_0].
      by rewrite Z.pow2_bits_false. }
  pose proof (Z.pow_pos_nonneg 2 k). destruct (Z.testbit e k); [|done].
  destruct (Z.eqb_spec (2 ^ k) 0); [lia|done].
Qed.

Lemma page_mask_bits n : 0 <= n -> Z.testbit PAGE_MASK n = (12 <=? n) && (n <? 52).
Proof.
  intros Hn. change PAGE_MASK with (Z.ones 40 << 12). rewrite Z.shiftl_spec by lia.
  destruct (Z.leb_spec 12 n).
  - rewrite Z.testbit_ones_nonneg by lia. destruct (Z.ltb_spec (n - 12) 40), (Z.ltb_spec n 52); lia || done.
  - by rewrite Z.testbit_neg_r by lia.
Qed.

(** The address of a page frame. *)
Definition frame (a : Z) : Prop := exists p, a = p * PAGE_SIZE /\ 0 < p < 2 ^ 40.

Lemma frame_bits a n : frame a -> 0 <= n -> n < 12 \/ 52 <= n -> Z.testbit a n = false.
Proof.
  intros (p & -> & Hp) Hn Hr. change PAGE_SIZE with (2 ^ 12). rewrite <- Z.shiftl_mul_pow2, Z.shiftl_spec by lia.
  destruct Hr; [by apply Z.testbit_neg_r; lia|]. apply (testbit_above 40); lia.
Qed.

Lemma frame_mask a f : frame a -> f &&& PAGE_MASK = 0 -> (a ||| f) &&& PAGE_MASK = a.
Proof.
  intros Ha Hf. rewrite Z.land_lor_distr_l, Hf, Z.lor_0_r. zbits. rewrite page_mask_bits by done.
  destruct (Z.leb_spec 12 n), (Z.ltb_spec n 52); simpl; rewrite ?andb_true_r, ?andb_false_r; try done;
    symmetry; apply frame_bits; (done || lia).
Qed.

(** An entry that points to a table. *)
Definition link_entry (a : Z) : Z := a ||| VMM_PRESENT ||| VMM_WRITABLE.

Lemma link_entry_spec a :
  frame a -> has (link_entry a) VMM_PRESENT = true /\ has (link_entry a) PAGE_HUGE = false /\
    link_entry a &&& PAGE_MASK = a /\ fits 64 (link_entry a).
Proof.
  intros Ha. unfold link_entry. assert (fits 64 a) as Hfit.
  { destruct Ha as (p & -> & Hp). unfold PAGE_SIZE. change (2 ^ 40) with 1099511627776 in Hp. warith. }
  split_and!.
  - unfold VMM_PRESENT. rewrite has_bit, !Z.lor_spec by lia. by rewrite (frame_bits a 0) by (done || lia).
  - unfold PAGE_HUGE. rewrite has_bit, !Z.lor_spec by lia. by rewrite (frame_bits a 7) by (done || lia).
  - rewrite <- Z.lor_assoc. by apply frame_mask.
  - apply lor_fits; [lia|apply lor_fits; [lia|done|]|]; unfold VMM_PRESENT, VMM_WRITABLE; rewrite Z.shiftl_1_l; warith.
Qed.

(** ** Paths through the tables *)

Definition index (k : nat) (address : Z) : Z := (address >> (9 * Z.of_nat k + 3)) &&& 511.

Lemma index_range k address : 0 <= index k address < 512.
Proof. unfold index. change 511 with (2 ^ 9 - 1). rewrite land_mask by lia. apply Z.mod_pos_bound. lia. Qed.

Definition huge_leaf (e address : Z) : Z :=
  u64 ((e &&& HUGE_MASK) + u64 (index 1 address * PAGE_SIZE)) ||| VMM_PRESENT ||| (e &&& COMMON_FLAGS).

(** [descend k s t address]: what the MMU finds from table [t] of level [k]. *)
Fixpoint descend (k : nat) (s : vmm) (t address : Z) : option Z :=
  match k with
  | O => None
  | S k' =>
    e ← get_entry s t (index k address);
    if negb (has e VMM_PRESENT) then None else
    match k' with
    | O => Some e
    | S k'' =>
      if (k'' =? 0)%nat && has e PAGE_HUGE then Some (huge_leaf e address)
      else descend k' s (e &&& PAGE_MASK) address
    end
  end.

Lemma leaf_descend s address : leaf s address = descend 4 s (active_pml4 s) address.
Proof.
  unfold leaf. cbn [descend]. unfold index4, index3, index2, index1, index, huge_leaf.
  change (9 * Z.of_nat 4 + 3) with 39. change (9 * Z.of_nat 3 + 3) with 30. change (9 * Z.of_nat 2 + 3) with 21.
  change (9 * Z.of_nat 1 + 3) with 12. cbn [Nat.eqb andb].
  destruct (get_entry s (active_pml4 s) _) as [e4|]; [|done]. rewrite !bind_some.
  destruct (negb (has e4 VMM_PRESENT)); [done|]. destruct (get_entry s (e4 &&& PAGE_MASK) _) as [e3|]; [|done].
  rewrite !bind_some. destruct (negb (has e3 VMM_PRESENT)); [done|].
  destruct (get_entry s (e3 &&& PAGE_MASK) _) as [e2|]; [|done]. rewrite !bind_some.
  destruct (negb (has e2 VMM_PRESENT)); [done|]. destruct (has e2 PAGE_HUGE); [done|].
  destruct (get_entry s (e2 &&& PAGE_MASK) _) as [e1|]; [|done]. rewrite !bind_some. by destruct (has e1 VMM_PRESENT).
Qed.

(** An entry of a table of level [k] that points to a table. *)
Definition links (k : nat) (e : Z) : bool :=
  has e VMM_PRESENT && (3 <=? k)%nat || has e VMM_PRESENT && (k =? 2)%nat && negb (has e PAGE_HUGE).

(** The tree of tables, with the level of each. *)
Record vmm_ok (s : vmm) (lv : gmap Z nat) : Prop := {
  ok_frames : pmm_inv (frames s);
  ok_reserved : 0 < reserved_pages (frames s);
  ok_root : lv !! active_pml4 s = Some 4%nat;
  ok_table t k : lv !! t = Some k -> (1 <= k <= 4)%nat /\ frame t /\ bit (page_bitmap (frames s)) (t / PAGE_SIZE) = true /\
    exists l, tables s !! t = Some l /\ length l = 512%nat /\ Forall (fits 64) l;
  ok_link t k i e : lv !! t = Some k -> get_entry s t i = Some e -> links k e = true ->
    exists k', k = S k' /\ lv !! (e &&& PAGE_MASK) = Some k';
  ok_tree t1 t2 k1 k2 i1 i2 e1 e2 : lv !! t1 = Some k1 -> lv !! t2 = Some k2 ->
    get_entry s t1 i1 = Some e1 -> get_entry s t2 i2 = Some e2 -> links k1 e1 = true -> links k2 e2 = true ->
    e1 &&& PAGE_MASK = e2 &&& PAGE_MASK -> t1 = t2 /\ i1 = i2;
}.

(** [reach s address k t]: the walk of [address] comes to table [t] of level [k]. *)
Inductive reach (s : vmm) (address : Z) : nat -> Z -> Prop :=
| reach_root : reach s address 4 (active_pml4 s)
| reach_step k t e :
    reach s address (S k) t -> get_entry s t (index (S k) address) = Some e -> links (S k) e = true ->
    reach s address k (e &&& PAGE_MASK).

Lemma links_present k e : links k e = true -> has e VMM_PRESENT = true.
Proof. unfold links. destruct (has e VMM_PRESENT); [done|]. by destruct (3 <=? k)%nat, (k =? 2)%nat. Qed.

Lemma links_low k e : links k e = true -> (2 <= k)%nat.
Proof.
  unfold links. destruct (Nat.leb_spec 3 k); [lia|]. rewrite andb_false_r. simpl.
  destruct (Nat.eqb_spec k 2); [lia|]. by rewrite andb_false_r.
Qed.

Lemma links_absent k e : has e VMM_PRESENT = false -> links k e = false.
Proof. unfold links. by intros ->. Qed.

Lemma descend_link k s t address e :
  get_entry s t (index (S k) address) = Some e -> links (S k) e = true ->
  descend (S k) s t address = descend k s (e &&& PAGE_MASK) address.
Proof.
  intros He Hl. cbn [descend]. rewrite He, bind_some, (links_present _ _ Hl). cbn [negb].
  destruct k as [|k]; [by apply links_low in Hl; lia|]. destruct (Nat.eqb_spec k 0) as [->|Hk]; [|done].
  unfold links in Hl. cbn [Nat.leb Nat.eqb] in Hl. rewrite andb_false_r, andb_true_r in Hl. cbn [orb] in Hl.
  apply andb_true_iff in Hl as [_ Hl]. apply negb_true_iff in Hl. by rewrite Hl.
Qed.

Section tree.
Context (s : vmm) (lv : gmap Z nat) (Hok : vmm_ok s lv).

Lemma reach_level address k t : reach s address k t -> lv !! t = Some k.
Proof.
  induction 1 as [|k t e Hr IH He Hl]; [apply (ok_root s lv Hok)|].
  destruct (ok_link s lv Hok t _ _ e IH He Hl) as (k' & E & H). by injection E as ->.
Qed.

Lemma reach_leaf address k t : reach s address k t -> leaf s address = descend k s t address.
Proof.
  rewrite leaf_descend. induction 1 as [|k t e Hr IH He Hl]; [done|]. rewrite IH. by apply descend_link.
Qed.

(** Two addresses whose walks come to the same table agree so far. *)
Lemma reach_indices a1 a2 k t :
  reach s a1 k t -> reach s a2 k t -> forall j, (k < j <= 4)%nat -> index j a1 = index j a2.
Proof.
  intros H1. induction H1 as [|k t e1 H1 IH He1 Hl1]; intros H2 j Hj; [lia|].
  inversion H2 as [Ek Eu|k' t2 e2 H2' He2 Hl2 Ek Eu]; subst.
  - pose proof (ok_table s lv Hok t _ (reach_level _ _ _ H1)) as [[? ?] _]. lia.
  - destruct (ok_tree s lv Hok t t2 (S k) (S k) (index (S k) a1) (index (S k) a2) e1 e2) as [-> Ei]; try done;
      [by apply (reach_level a1)|by apply (reach_level a2)|].
    destruct (Nat.eq_dec j (S k)) as [->|]; [done|]. apply IH; [done|lia].
Qed.

Lemma table_entry t k i : lv !! t = Some k -> 0 <= i < 512 -> exists e, get_entry s t i = Some e /\ fits 64 e.
Proof.
  intros Ht Hi. destruct (ok_table s lv Hok t k Ht) as (_ & _ & _ & l & Hl & Hlen & Hfit).
  destruct (rd_ok l i) as [e He]; [lia|]. exists e. unfold get_entry. rewrite Hl, bind_some. split; [done|].
  apply rd_Some in He as [_ He]. exact (Forall_lookup_1 _ _ _ _ Hfit He).
Qed.
End tree.

(** ** Adding a table *)

(** The state after table [a] with entries [l0] has been put under entry [i] of
    table [t]. *)
Definition attached (s : vmm) (p : pmm) (t i : Z) (lt : list Z) (a : Z) (l0 : list Z) : vmm :=
  Vmm (<[t := <[Z.to_nat i := link_entry a]> lt]> (<[a := l0]> (tables s))) (cr3 s) (mapped_page_count s) p (ram s).

Section attach.
Context (s : vmm) (lv : gmap Z nat) (Hok : vmm_ok s lv).
Context (p : pmm) (t : Z) (k : nat) (i : Z) (lt : list Z) (a : Z) (l0 : list Z) (e0 : Z).
Context (Ht : lv !! t = Some (S k)) (Hk : (1 <= k)%nat) (Hi : 0 <= i < 512) (Hlt : tables s !! t = Some lt).
Context (Hold : get_entry s t i = Some e0) (Hnl : links (S k) e0 = false).
Context (Ha : frame a) (Hfresh : lv !! a = None) (Hl0 : length l0 = 512%nat) (Hf0 : Forall (fits 64) l0).
Context (Hno : forall j e, rd l0 j = Some e -> links k e = false).
Context (Hp : pmm_inv p) (Hres : 0 < reserved_pages p) (Hbits : forall q, bit (page_bitmap (frames s)) q = true -> bit (page_bitmap p) q = true).
Context (Hbit : bit (page_bitmap p) (a / PAGE_SIZE) = true).

Notation s' := (attached s p t i lt a l0).

Lemma attach_ne : t <> a.
Proof using Ht Hfresh. clear -Ht Hfresh. congruence. Qed.

Lemma get_attached u j :
  get_entry s' u j =
    if decide (u = t) then if i =? j then Some (link_entry a) else get_entry s t j
    else if decide (u = a) then rd l0 j else get_entry s u j.
Proof using Hok Ht Hk Hi Hlt Hfresh Hl0.
  pose proof attach_ne as Hne. unfold get_entry. simpl. destruct (decide (u = t)) as [->|Hut].
  - rewrite lookup_insert_eq, Hlt, !bind_some.
    destruct (ok_table s lv Hok t _ Ht) as (_ & _ & _ & l & Hl & Hlen & _). assert (l = lt) as -> by congruence.
    apply (rd_wr lt i). apply wr_ok. lia.
  - rewrite lookup_insert_ne by done. destruct (decide (u = a)) as [->|Hua].
    + by rewrite lookup_insert_eq, bind_some.
    + by rewrite lookup_insert_ne.
Qed.

(** Links of the old tables are links, to tables other than the new one. *)
Lemma attached_link u j kk e :
  <[a := k]> lv !! u = Some kk -> get_entry s' u j = Some e -> links kk e = true ->
  (u = t /\ j = i /\ kk = S k /\ e = link_entry a) \/
  (lv !! u = Some kk /\ get_entry s u j = Some e /\ e &&& PAGE_MASK <> a).
Proof.
  intros Hu He Hl. rewrite get_attached in He.
  assert (Hback : lv !! u = Some kk -> get_entry s u j = Some e -> e &&& PAGE_MASK <> a).
  { intros Hu' He' E. destruct (ok_link s lv Hok u kk j e Hu' He' Hl) as (k' & _ & H). rewrite E in H. congruence. }
  destruct (decide (u = t)) as [->|Hut].
  - rewrite lookup_insert_ne in Hu by (pose proof attach_ne; congruence).
    assert (kk = S k) as -> by congruence. destruct (Z.eqb_spec i j) as [<-|Hij].
    + left. by injection He as <-.
    + right. auto.
  - destruct (decide (u = a)) as [->|Hua].
    + rewrite lookup_insert_eq in Hu. injection Hu as <-. rewrite (Hno j e He) in Hl. done.
    + rewrite lookup_insert_ne in Hu by done. right. auto.
Qed.

Lemma attach_ok : vmm_ok s' (<[a := k]> lv).
Proof.
  pose proof (ok_table s lv Hok t _ Ht) as ([_ Hk4] & _ & _ & lt' & Hlt' & Hlen & Hfit).
  assert (lt' = lt) as -> by congruence. destruct (link_entry_spec a Ha) as (_ & _ & Hmask & Hlf).
  constructor; [done|done| | | |].
  - rewrite lookup_insert_ne; [apply (ok_root s lv Hok)|]. intros E.
    pose proof (ok_root s lv Hok) as H. unfold active_pml4 in *. simpl in E. rewrite <- E in H. congruence.
  - intros u kk Hu. destruct (decide (u = a)) as [->|Hua].
    + rewrite lookup_insert_eq in Hu. injection Hu as <-. split; [lia|]. split; [done|]. split; [done|].
      exists l0. simpl. rewrite lookup_insert_ne, lookup_insert_eq by apply attach_ne. done.
    + rewrite lookup_insert_ne in Hu by done. destruct (ok_table s lv Hok u kk Hu) as (? & ? & Hb & l & Hl & ? & ?).
      split; [done|]. split; [done|]. split; [by apply Hbits|]. simpl. destruct (decide (u = t)) as [->|Hut].
      * rewrite lookup_insert_eq. eexists. split; [done|]. rewrite length_insert. split; [done|].
        by apply Forall_insert.
      * rewrite !lookup_insert_ne by done. by exists l.
  - intros u kk j e Hu He Hl. destruct (attached_link u j kk e Hu He Hl) as [(-> & -> & -> & ->)|(Hu' & He' & Hne)].
    + exists k. rewrite Hmask, lookup_insert_eq. done.
    + destruct (ok_link s lv Hok u kk j e Hu' He' Hl) as (k' & -> & H). exists k'. by rewrite lookup_insert_ne by congruence.
  - intros t1 t2 k1 k2 i1 i2 e1 e2 H1 H2 He1 He2 Hl1 Hl2 E.
    destruct (attached_link t1 i1 k1 e1 H1 He1 Hl1) as [(-> & -> & -> & ->)|(H1' & He1' & Hne1)],
      (attached_link t2 i2 k2 e2 H2 He2 Hl2) as [(-> & -> & -> & ->)|(H2' & He2' & Hne2)]; try done; try congruence.
    by apply (ok_tree s lv Hok t1 t2 k1 k2 i1 i2 e1 e2).
Qed.

Lemma attach_descend address :
  (index (S k) address = i -> descend (S k) s' t address = descend (S k) s t address) ->
  forall j u, lv !! u = Some j -> descend j s' u address = descend j s u address.
Proof.
  intros Hlocal. induction j as [|j IH]; intros u Hu; [done|].
  assert (u <> a) as Hua by congruence.
  destruct (decide (u = t /\ index (S j) address = i)) as [[-> Hij]|Hne].
  { assert (j = k) as -> by congruence. by apply Hlocal. }
  assert (get_entry s' u (index (S j) address) = get_entry s u (index (S j) address)) as E.
  { rewrite get_attached. destruct (decide (u = t)) as [->|]; [|by destruct (decide (u = a))].
    destruct (Z.eqb_spec i (index (S j) address)) as [Ei|]; [|done]. destruct Hne. by rewrite Ei. }
  cbn [descend]. rewrite E.
  destruct (get_entry s u (index (S j) address)) as [e|] eqn:He; [|done]. rewrite !bind_some.
  destruct (has e VMM_PRESENT) eqn:Hpres; [|done]. cbn [negb]. destruct j as [|j]; [done|].
  destruct ((j =? 0)%nat && has e PAGE_HUGE) eqn:Hh; [done|]. apply IH.
  destruct (ok_link s lv Hok u _ _ e Hu He) as (k' & E' & H); [|by injection E' as <-].
  unfold links. rewrite Hpres. destruct j as [|j]; [|done]. simpl in *. by rewrite Hh.
Qed.

Lemma attach_reach address j u : reach s address j u -> reach s' address j u.
Proof.
  induction 1 as [|j u e Hr IH He Hl]; [exact (reach_root s' address)|]. apply (reach_step _ _ j u); try done.
  pose proof (reach_level s lv Hok _ _ _ Hr) as Hu. rewrite get_attached.
  destruct (decide (u = t)) as [->|]; [|by destruct (decide (u = a)) as [->|]; [congruence|]].
  destruct (Z.eqb_spec i (index (S j) address)) as [Ei|]; [|done].
  rewrite <- Ei in He. assert (j = k) as -> by congruence. congruence.
Qed.
End attach.

(** ** Walking *)

(** No page is left to allocate. *)
Definition no_free (p : pmm) : Prop :=
  forall q, reserved_pages p <= q < managed_pages p -> bit (page_bitmap p) q = true.

(** What an operation that only prepares tables keeps. *)
Record same_view (s s' : vmm) : Prop := {
  same_cr3 : cr3 s' = cr3 s;
  same_count : mapped_page_count s' = mapped_page_count s;
  same_ram : ram s' = ram s;
  same_leaf address : leaf s' address = leaf s address;
}.

#[global] Instance same_view_preorder : PreOrder same_view.
Proof.
  split; [by constructor|]. intros s1 s2 s3 [] []. constructor; try congruence.
Qed.

(** Pages in use stay in use, and none of them becomes a table. *)
Record keeps (s : vmm) (lv : gmap Z nat) (s' : vmm) (lv' : gmap Z nat) : Prop := {
  keeps_used q : bit (page_bitmap (frames s)) q = true -> bit (page_bitmap (frames s')) q = true;
  keeps_table a : lv !! a = None -> bit (page_bitmap (frames s)) (a / PAGE_SIZE) = true -> lv' !! a = None;
  keeps_managed : managed_pages (frames s') = managed_pages (frames s);
  keeps_reserved : reserved_pages (frames s') = reserved_pages (frames s);
}.

Lemma keeps_refl s lv : keeps s lv s lv.
Proof. by constructor. Qed.

Lemma keeps_trans s1 lv1 s2 lv2 s3 lv3 : keeps s1 lv1 s2 lv2 -> keeps s2 lv2 s3 lv3 -> keeps s1 lv1 s3 lv3.
Proof. intros [] []. constructor; [auto..|congruence|congruence]. Qed.
#[local] Hint Resolve keeps_refl : core.

Lemma in_run_here start : in_run start 1 start = true.
Proof. unfold in_run. lia. Qed.

Section walking.
Context (contents : Z -> list Z) (Hcont : forall a, length (contents a) = 512%nat).

Lemma zero_table a : for_loop 512 0 (fun index t => wr t index 0) (contents a) = Some (replicate 512 0).
Proof.
  rewrite (map_loop (fun _ => 0)); [|apply Hcont|].
  - f_equal. symmetry. apply replicate_as_elem_of. split; [by rewrite length_fmap, Hcont|]. set_solver.
  - intros i l x Hi Hx. apply wr_ok. apply lookup_lt_Some in Hx. lia.
Qed.

(** A page for a table: none is left, or a frame that is not a table. *)
Lemma new_table_spec s lv :
  vmm_ok s lv ->
  exists p a, new_table contents s =
      Some (if a =? 0 then with_frames s p
            else Vmm (<[a := replicate 512 0]> (tables s)) (cr3 s) (mapped_page_count s) p (ram s), a) /\
    pmm_inv p /\ 0 < reserved_pages p /\
    (managed_pages p = managed_pages (frames s) /\ reserved_pages p = reserved_pages (frames s)) /\
    (forall q, bit (page_bitmap (frames s)) q = true -> bit (page_bitmap p) q = true) /\
    ((a = 0 /\ no_free p /\ vmm_ok (with_frames s p) lv) \/
     (a <> 0 /\ frame a /\ lv !! a = None /\ bit (page_bitmap p) (a / PAGE_SIZE) = true /\
      bit (page_bitmap (frames s)) (a / PAGE_SIZE) = false)).
Proof.
  intros Hok. unfold new_table.
  destruct (pmm_alloc_outcome (frames s) 1) as (p & a & -> & Hp & Hm & Hr & Hcase);
    [apply (ok_frames s lv Hok)|warith|]. rewrite bind_some. pose proof (ok_reserved s lv Hok) as Hres.
  exists p, a. destruct Hcase as [(start & -> & Hal)|[-> Href]].
  - destruct Hal as (_ & Hs1 & Hs2 & Hfree & _ & Hbit & _).
    pose proof (inv_range _ (ok_frames s lv Hok)) as [_ Hmax]. unfold PMM_MAX_PAGES in Hmax.
    destruct (Z.eqb_spec (start * PAGE_SIZE) 0) as [E|E]; [unfold PAGE_SIZE in E; lia|].
    rewrite zero_table, bind_some. split; [done|]. split; [done|]. split; [by rewrite Hr|]. split; [done|].
    split; [intros q Hq; rewrite Hbit, Hq; by rewrite orb_true_r|]. right. split; [done|].
    split; [exists start; split; [done|]; change (2 ^ 40) with 1099511627776; lia|].
    assert (start * PAGE_SIZE / PAGE_SIZE = start) as -> by (apply Z.div_mul; done).
    split; [|split; [by rewrite Hbit, in_run_here|apply Hfree; lia]]. destruct (lv !! (start * PAGE_SIZE)) as [k|] eqn:El; [|done].
    destruct (ok_table s lv Hok _ _ El) as (_ & _ & Hb & _). rewrite Z.div_mul in Hb by done.
    rewrite Hfree in Hb by lia. done.
  - destruct Href as (Hblk & Hbm & _). split; [done|]. split; [done|]. split; [by rewrite Hr|]. split; [done|].
    split; [by rewrite Hbm|]. left. split; [done|]. split.
    + intros q Hq. rewrite Hbm. destruct Hblk as [?|Hblk]; [done|].
      destruct (Hblk q) as (q' & Hq' & Hb); [lia..|]. assert (q' = q) as -> by lia. done.
    + destruct Hok as [H1 H2 H3 H4 H5 H6]. constructor; simpl; try done; [by rewrite Hr|].
      intros t k Ht. rewrite Hbm. by apply H4.
Qed.

(** The outcome of a step of a walk. *)
Definition step_outcome (s : vmm) (lv : gmap Z nat) (address create : Z) (k : nat) (s' : vmm) (r : option Z) : Prop :=
  exists lv', vmm_ok s' lv' /\ same_view s s' /\ keeps s lv s' lv' /\
    match r with
    | Some c => reach s' address k c
    | None => create = 0 /\ leaf s address = None \/ no_free (frames s')
    end.

Lemma attached_outcome s lv address create k t lt e0 p a l0 :
  vmm_ok s lv -> reach s address (S k) t -> (1 <= k)%nat -> tables s !! t = Some lt ->
  get_entry s t (index (S k) address) = Some e0 -> links (S k) e0 = false ->
  frame a -> lv !! a = None -> length l0 = 512%nat -> Forall (fits 64) l0 ->
  (forall j e, rd l0 j = Some e -> links k e = false) ->
  pmm_inv p -> 0 < reserved_pages p ->
  (managed_pages p = managed_pages (frames s) /\ reserved_pages p = reserved_pages (frames s)) ->
  (forall q, bit (page_bitmap (frames s)) q = true -> bit (page_bitmap p) q = true) ->
  bit (page_bitmap p) (a / PAGE_SIZE) = true -> bit (page_bitmap (frames s)) (a / PAGE_SIZE) = false ->
  (forall address', index (S k) address' = index (S k) address ->
     descend (S k) (attached s p t (index (S k) address) lt a l0) t address' = descend (S k) s t address') ->
  set_entry (Vmm (<[a := l0]> (tables s)) (cr3 s) (mapped_page_count s) p (ram s)) t (index (S k) address) (link_entry a) =
    Some (attached s p t (index (S k) address) lt a l0) /\
  get_entry (attached s p t (index (S k) address) lt a l0) t (index (S k) address) = Some (link_entry a) /\
  step_outcome s lv address create k (attached s p t (index (S k) address) lt a l0) (Some a).
Proof.
  intros Hok Hr Hk Hlt He0 Hnl Ha Hfresh Hl0 Hf0 Hno Hp Hres [Hman Hre] Hbits Hbit Hfree Hlocal.
  pose proof (reach_level s lv Hok _ _ _ Hr) as Ht. pose proof (index_range (S k) address) as Hi.
  destruct (ok_table s lv Hok t _ Ht) as (_ & _ & _ & l & Hl & Hlen & _). assert (l = lt) as -> by congruence.
  assert (t <> a) as Hne by congruence.
  set (i := index (S k) address) in *.
  assert (vmm_ok (attached s p t i lt a l0) (<[a := k]> lv)) as Hok' by (by apply (attach_ok s lv Hok p t k i lt a l0)).
  assert (get_entry (attached s p t i lt a l0) t i = Some (link_entry a)) as Hget.
  { rewrite (get_attached s lv Hok p t k) by done. by rewrite decide_True, Z.eqb_refl. }
  destruct (link_entry_spec a Ha) as (Hpres & Hhuge & Hmask & _).
  assert (links (S k) (link_entry a) = true) as Hlink.
  { unfold links. rewrite Hpres, Hhuge. destruct k as [|[|k]]; [lia|done..]. }
  split; [|split; [done|]].
  - unfold set_entry. simpl. rewrite lookup_insert_ne, Hlt, bind_some by done. by rewrite wr_ok by lia.
  - exists (<[a := k]> lv). split; [done|]. split; [|split].
    + constructor; try done. intros address'. rewrite !leaf_descend.
      apply (attach_descend s lv Hok p t k i lt a l0); try done; [|apply (ok_root s lv Hok)].
      intros E. by apply Hlocal.
    + constructor; try done. intros b Hb Hbb. rewrite lookup_insert_ne; [done|]. intros ->. congruence.
    + pose proof (reach_step (attached s p t i lt a l0) address k t (link_entry a)) as H. rewrite Hmask in H.
      apply H; [|done|done]. by apply (attach_reach s lv Hok p t k i lt a l0 e0).
Qed.

(** A missing table is created. *)
Lemma create_table_spec s lv address create k t e :
  vmm_ok s lv -> reach s address (S k) t -> (1 <= k)%nat ->
  get_entry s t (index (S k) address) = Some e -> has e VMM_PRESENT = false ->
  exists s1 a, new_table contents s = Some (s1, a) /\
    ((a = 0 /\ step_outcome s lv address create k s1 None) \/
     (a <> 0 /\ frame a /\ exists s2, set_entry s1 t (index (S k) address) (link_entry a) = Some s2 /\
        get_entry s2 t (index (S k) address) = Some (link_entry a) /\ step_outcome s lv address create k s2 (Some a))).
Proof.
  intros Hok Hr Hk He Hpres. pose proof (reach_level s lv Hok _ _ _ Hr) as Ht.
  pose proof (index_range (S k) address) as Hi.
  destruct (new_table_spec s lv Hok) as (p & a & -> & Hp & Hres & Hman & Hbits & Hcase). do 2 eexists. split; [done|].
  destruct Hcase as [(-> & Hnf & Hok')|(Ha0 & Ha & Hfresh & Hbit & Hfree)].
  { left. split; [done|]. exists lv. split; [done|]. split; [by constructor|]. split; [by destruct Hman; constructor|]. by right. }
  right. split; [done|]. split; [done|]. destruct (Z.eqb_spec a 0); [done|].
  destruct (ok_table s lv Hok t _ Ht) as (_ & _ & _ & lt & Hlt & _).
  assert (Hz : forall j e, rd (replicate 512 0) j = Some e -> e = 0).
  { intros j e' [_ Hj]%rd_Some. by apply lookup_replicate in Hj as [-> _]. }
  eexists. apply (attached_outcome s lv address create k t lt e p a (replicate 512 0)); try done.
  - by apply links_absent.
  - by apply Forall_replicate.
  - intros j e' Hj. by rewrite (Hz j e' Hj).
  - intros address' Ei. destruct (link_entry_spec a Ha) as (Hp1 & Hh1 & Hm1 & _).
    assert (descend (S k) s t address' = None) as -> by (cbn [descend]; by rewrite Ei, He, bind_some, Hpres).
    rewrite (descend_link k _ t address' (link_entry a));
      [| |unfold links; rewrite Hp1, Hh1; destruct k as [|[|k]]; [lia|done..]].
    + rewrite Hm1. destruct k as [|k]; [done|]. cbn [descend].
      rewrite (get_attached s lv Hok p t (S k)) by (done || lia). rewrite decide_False, decide_True by congruence.
      destruct (rd (replicate 512 0) (index (S k) address')) as [e'|] eqn:Er; [|done]. by rewrite (Hz _ _ Er).
    + rewrite (get_attached s lv Hok p t k) by (done || lia). rewrite decide_True, Ei, Z.eqb_refl; done.
Qed.

(** A walk that does not create ends at an entry that is not present. *)
Lemma absent_outcome s lv address k t e :
  vmm_ok s lv -> reach s address (S k) t -> get_entry s t (index (S k) address) = Some e ->
  has e VMM_PRESENT = false -> step_outcome s lv address 0 k s None.
Proof.
  intros Hok Hr He Hpres. exists lv. split; [done|]. split; [done|]. split; [done|]. left. split; [done|].
  rewrite (reach_leaf s _ _ _ Hr). cbn [descend]. by rewrite He, bind_some, Hpres.
Qed.

Lemma next_table_spec s lv address create k t :
  vmm_ok s lv -> reach s address (S k) t -> (2 <= k)%nat ->
  exists s' r, next_table contents s t (index (S k) address) create = Some (s', r) /\
    step_outcome s lv address create k s' r.
Proof.
  intros Hok Hr Hk. pose proof (reach_level s lv Hok _ _ _ Hr) as Ht. pose proof (index_range (S k) address) as Hi.
  destruct (table_entry s lv Hok t _ _ Ht Hi) as (e & He & _). unfold next_table. rewrite He, bind_some.
  destruct (has e VMM_PRESENT) eqn:Hpres.
  { do 2 eexists. split; [done|]. exists lv. split; [done|]. split; [done|]. split; [done|]. apply (reach_step _ _ k t); try done.
    unfold links. rewrite Hpres. destruct k as [|[|k]]; [lia..|done]. }
  destruct (Z.eqb_spec create 0) as [->|Hc].
  { do 2 eexists. split; [done|]. by apply (absent_outcome s lv address k t e). }
  destruct (create_table_spec s lv address create k t e) as (s1 & a & -> & Hcase); [done|done|lia|done|done|].
  rewrite bind_some. destruct Hcase as [[-> Hout]|(Ha0 & Ha & s2 & Hset & Hget & Hout)]; [by do 2 eexists|].
  destruct (Z.eqb_spec a 0); [done|]. fold (link_entry a). rewrite Hset, bind_some, Hget, bind_some.
  destruct (link_entry_spec a Ha) as (_ & _ & -> & _). by do 2 eexists.
Qed.

(** The table that takes the place of a huge page. *)
Definition split_table (e : Z) : list Z :=
  (fun i => u64 ((e &&& HUGE_MASK) + u64 (i * PAGE_SIZE)) ||| VMM_PRESENT ||| (e &&& COMMON_FLAGS)) <$> seqZ 0 512.

Lemma split_table_rd e i :
  0 <= i < 512 ->
  rd (split_table e) i = Some (u64 ((e &&& HUGE_MASK) + u64 (i * PAGE_SIZE)) ||| VMM_PRESENT ||| (e &&& COMMON_FLAGS)).
Proof.
  intros Hi. apply rd_Some. split; [lia|]. unfold split_table. rewrite list_lookup_fmap, lookup_seqZ_lt by lia.
  simpl. by rewrite Z2Nat.id by lia.
Qed.

Lemma split_table_loop e :
  for_loop 512 0
    (fun index t => wr t index (u64 ((e &&& HUGE_MASK) + u64 (index * PAGE_SIZE)) ||| VMM_PRESENT ||| (e &&& COMMON_FLAGS)))
    (replicate 512 0) = Some (split_table e).
Proof.
  rewrite (write_loop (replicate 512 0) 0 (split_table e)).
  - f_equal.
  - by unfold split_table; rewrite length_fmap, length_seqZ.
  - unfold room, split_table. rewrite length_fmap, length_seqZ, length_replicate. lia.
  - intros i c Hi. unfold split_table in Hi. rewrite length_fmap, length_seqZ in Hi.
    rewrite split_table_rd by lia. by rewrite bind_some.
Qed.

Lemma split_table_present e i :
  0 <= i < 512 -> fits 64 e ->
  exists v, rd (split_table e) i = Some v /\ has v VMM_PRESENT = true /\ fits 64 v.
Proof.
  intros Hi He. eexists. split; [by apply split_table_rd|]. split.
  - unfold VMM_PRESENT. rewrite has_bit, !Z.lor_spec by lia. change (Z.testbit (1 << 0) 0) with true.
    by rewrite orb_true_r.
  - apply lor_fits; [lia|apply lor_fits; [lia|apply u64_range|split; by vm_compute]|].
    apply land_fits; [lia|done|]. done.
Qed.

(** A huge page is split into the same 512 pages. *)
Lemma split_huge_page_spec s lv address create t e :
  vmm_ok s lv -> reach s address 2 t -> get_entry s t (index 2 address) = Some e ->
  has e VMM_PRESENT = true -> has e PAGE_HUGE = true ->
  exists s' a, split_huge_page contents s (t, index 2 address) = Some (s', a) /\
    step_outcome s lv address create 1 s' (if a =? 0 then None else Some a).
Proof.
  intros Hok Hr He Hpres Hhuge. unfold split_huge_page. cbn [fst snd]. rewrite He, bind_some.
  pose proof (reach_level s lv Hok _ _ _ Hr) as Ht. pose proof (index_range 2 address) as Hi.
  destruct (table_entry s lv Hok t _ _ Ht Hi) as (e' & He' & Hfit). assert (e' = e) as -> by congruence.
  destruct (new_table_spec s lv Hok) as (p & a & -> & Hp & Hres & Hman & Hbits & Hcase). rewrite bind_some.
  destruct Hcase as [(-> & Hnf & Hok')|(Ha0 & Ha & Hfresh & Hbit & Hfree)].
  { do 2 eexists. split; [done|]. exists lv. split; [done|]. split; [by constructor|]. split; [by destruct Hman; constructor|]. by right. }
  destruct (Z.eqb_spec a 0) as [|_]; [done|]. cbn [tables]. rewrite lookup_insert_eq, bind_some.
  rewrite split_table_loop, bind_some. unfold with_tables. cbn [tables cr3 mapped_page_count frames ram].
  rewrite insert_insert_eq. assert (a &&& PAGE_MASK = a) as ->.
  { rewrite <- (Z.lor_0_r a) at 1. by apply frame_mask. }
  fold (link_entry a). destruct (ok_table s lv Hok t _ Ht) as (_ & _ & _ & lt & Hlt & _).
  assert (length (split_table e) = 512%nat) as Hlen by (unfold split_table; by rewrite length_fmap, length_seqZ).
  assert (links 2 e = false) as Hnl by (unfold links; by rewrite Hpres, Hhuge).
  destruct (attached_outcome s lv address create 1 t lt e p a (split_table e)) as (Hset & _ & Hout); try done.
  - apply Forall_lookup. intros j x Hj. pose proof (lookup_lt_Some _ _ _ Hj).
    destruct (split_table_present e (Z.of_nat j)) as (v & Hv & _ & Hf); [lia|done|].
    apply rd_Some in Hv as [_ Hv]. rewrite Nat2Z.id in Hv. congruence.
  - intros j x Hj. unfold links. simpl. by rewrite !andb_false_r.
  - intros address' Ei. destruct (link_entry_spec a Ha) as (Hp1 & Hh1 & Hm1 & _).
    assert (descend 2 s t address' = Some (huge_leaf e address')) as ->
      by (cbn [descend]; by rewrite Ei, He, bind_some, Hpres, Hhuge).
    rewrite (descend_link 1 _ t address' (link_entry a)); [| |unfold links; by rewrite Hp1, Hh1].
    + rewrite Hm1. cbn [descend]. rewrite (get_attached s lv Hok p t 1) by (done || lia).
      rewrite decide_False, decide_True by congruence.
      destruct (split_table_present e (index 1 address') (index_range 1 address') Hfit) as (v & Hv & Hpv & _).
      rewrite Hv, bind_some, Hpv. cbn [negb]. rewrite split_table_rd in Hv by apply index_range. done.
    + rewrite (get_attached s lv Hok p t 1) by (done || lia). rewrite decide_True, Ei, Z.eqb_refl; done.
  - rewrite Hset, bind_some. do 2 eexists. split; [done|]. by destruct (Z.eqb_spec a 0).
Qed.

Lemma last_table_spec s lv address create t :
  vmm_ok s lv -> reach s address 2 t ->
  exists s' r, last_table contents s t (index 2 address) create = Some (s', r) /\
    step_outcome s lv address create 1 s' r.
Proof.
  intros Hok Hr. pose proof (reach_level s lv Hok _ _ _ Hr) as Ht. pose proof (index_range 2 address) as Hi.
  destruct (table_entry s lv Hok t _ _ Ht Hi) as (e & He & _). unfold last_table. rewrite He, bind_some.
  destruct (has e VMM_PRESENT) eqn:Hpres; cbn [andb negb].
  - destruct (has e PAGE_HUGE) eqn:Hhuge.
    + destruct (split_huge_page_spec s lv address create t e) as (s' & a & -> & Hout); try done.
      rewrite bind_some. by do 2 eexists.
    + do 2 eexists. split; [done|]. exists lv. split; [done|]. split; [done|]. split; [done|]. apply (reach_step _ _ 1 t); try done.
      unfold links. by rewrite Hpres, Hhuge.
  - destruct (Z.eqb_spec create 0) as [->|Hc].
    { do 2 eexists. split; [done|]. by apply (absent_outcome s lv address 1 t e). }
    destruct (create_table_spec s lv address create 1 t e) as (s1 & a & -> & Hcase); [done|done|lia|done|done|].
    rewrite bind_some. destruct Hcase as [[-> Hout]|(Ha0 & Ha & s2 & Hset & _ & Hout)]; [by do 2 eexists|].
    destruct (Z.eqb_spec a 0); [done|]. fold (link_entry a). rewrite Hset, bind_some. by do 2 eexists.
Qed.

Lemma index_u32 k address : u32 (index k address) = index k address.
Proof. apply u32_small. pose proof (index_range k address). warith. Qed.

(** A walk prepares the tables without changing what the MMU sees, and ends at
    the entry of the page. *)
Lemma walk_spec s lv address create :
  vmm_ok s lv ->
  exists s' r lv', walk contents s address create = Some (s', r) /\ vmm_ok s' lv' /\ same_view s s' /\ keeps s lv s' lv' /\
    match r with
    | Some (t, i) => reach s' address 1 t /\ i = index 1 address
    | None => create = 0 /\ leaf s address = None \/ no_free (frames s')
    end.
Proof.
  intros Hok. unfold walk. cbv zeta.
  change ((address >> 39) &&& 511) with (index 4 address). change ((address >> 30) &&& 511) with (index 3 address).
  change ((address >> 21) &&& 511) with (index 2 address). change ((address >> 12) &&& 511) with (index 1 address).
  rewrite !index_u32.
  destruct (next_table_spec s lv address create 3 (active_pml4 s) Hok (reach_root s address)) as (s1 & r1 & -> & lv1 & H1 & V1 & K1 & R1); [lia|].
  rewrite bind_some. destruct r1 as [pdpt|]; [|by exists s1, None, lv1].
  destruct (next_table_spec s1 lv1 address create 2 pdpt H1 R1) as (s2 & r2 & -> & lv2 & H2 & V2 & K2 & R2); [lia|].
  rewrite bind_some. destruct r2 as [pd|].
  2: { exists s2, None, lv2. split; [done|]. split; [done|]. split; [by etrans|]. split; [by eapply keeps_trans|].
       by rewrite (same_leaf _ _ V1) in R2. }
  destruct (last_table_spec s2 lv2 address create pd H2 R2) as (s3 & r3 & -> & lv3 & H3 & V3 & K3 & R3).
  rewrite bind_some. assert (same_view s s2) as V by (by etrans).
  assert (keeps s lv s3 lv3) as K by (eapply keeps_trans; [exact K1|]; by eapply keeps_trans).
  destruct r3 as [pt|].
  - exists s3, (Some (pt, index 1 address)), lv3. split; [done|]. split; [done|]. split; [by etrans|done].
  - exists s3, None, lv3. split; [done|]. split; [done|]. split; [by etrans|]. split; [done|].
    by rewrite (same_leaf _ _ V) in R3.
Qed.

(** Tables that are there are only looked up. *)
Lemma links_next s t i e create :
  get_entry s t i = Some e -> has e VMM_PRESENT = true ->
  next_table contents s t i create = Some (s, Some (e &&& PAGE_MASK)).
Proof. intros He Hp. unfold next_table. by rewrite He, bind_some, Hp. Qed.

Lemma walk_present s lv address create t :
  vmm_ok s lv -> reach s address 1 t -> walk contents s address create = Some (s, Some (t, index 1 address)).
Proof.
  intros Hok H1. assert (Htop : forall k u, reach s address k u -> (k <= 4)%nat).
  { intros k u Hu. apply (reach_level s lv Hok) in Hu. by destruct (ok_table s lv Hok _ _ Hu) as [[_ ?] _]. }
  inversion H1 as [|? t2 e2 H2 He2 Hl2]; subst. inversion H2 as [|? t3 e3 H3 He3 Hl3]; subst.
  inversion H3 as [|? t4 e4 H4 He4 Hl4]; subst. inversion H4 as [|? t5 e5 H5 He5 Hl5]; subst;
    [|by apply Htop in H5; lia].
  unfold walk. cbv zeta.
  change ((address >> 39) &&& 511) with (index 4 address). change ((address >> 30) &&& 511) with (index 3 address).
  change ((address >> 21) &&& 511) with (index 2 address). change ((address >> 12) &&& 511) with (index 1 address).
  rewrite !index_u32, (links_next _ _ _ _ create He4 (links_present _ _ Hl4)), bind_some.
  rewrite (links_next _ _ _ _ create He3 (links_present _ _ Hl3)), bind_some.
  unfold last_table. rewrite He2, bind_some. unfold links in Hl2. cbn [Nat.leb Nat.eqb] in Hl2.
  by destruct (has e2 VMM_PRESENT), (has e2 PAGE_HUGE).
Qed.
End walking.

(** ** One page *)

(** The page of an address: what the 48 bits that are translated say of it. *)
Definition page (address : Z) : Z := (address >> 12) mod 2 ^ 36.

Lemma page_indices a b : (forall j, (1 <= j <= 4)%nat -> index j a = index j b) -> page a = page b.
Proof.
  intros H. unfold page. zbits. destruct (Z.ltb_spec n 36) as [Hlt|Hge]; [|done]. rewrite !andb_true_l.
  assert (Hbit : forall x, Z.testbit x (n + 12) = Z.testbit (index (Z.to_nat (n / 9) + 1) x) (n mod 9)).
  { intros x. unfold index. pose proof (Z.mod_pos_bound n 9 ltac:(lia)). pose proof (Z.div_pos n 9 Hn ltac:(lia)).
    change 511 with (Z.ones 9). rewrite Z.land_spec, Z.shiftr_spec, Z.testbit_ones_nonneg by lia.
    replace (n mod 9 <? 9) with true by lia. rewrite andb_true_r. f_equal.
    pose proof (Z.div_mod n 9 ltac:(lia)). lia. }
  rewrite !Hbit, H; [done|]. split; [lia|]. assert (n / 9 < 4); [|lia].
  apply Z.div_lt_upper_bound; lia.
Qed.

Section entry.
Context (s : vmm) (lv : gmap Z nat) (Hok : vmm_ok s lv).
Context (t i v : Z) (Ht : lv !! t = Some 1%nat) (Hi : 0 <= i < 512) (Hv : fits 64 v).

Lemma set_entry_spec :
  exists lt, tables s !! t = Some lt /\
    set_entry s t i v = Some (with_tables s (<[t := <[Z.to_nat i := v]> lt]> (tables s))) /\
    (forall u j, get_entry (with_tables s (<[t := <[Z.to_nat i := v]> lt]> (tables s))) u j =
       if decide (u = t /\ j = i) then Some v else get_entry s u j) /\
    vmm_ok (with_tables s (<[t := <[Z.to_nat i := v]> lt]> (tables s))) lv.
Proof.
  destruct (ok_table s lv Hok t _ Ht) as (_ & _ & _ & lt & Hlt & Hlen & Hfit). exists lt. split; [done|].
  set (s' := with_tables s _).
  assert (Hget : forall u j, get_entry s' u j = if decide (u = t /\ j = i) then Some v else get_entry s u j).
  { intros u j. unfold get_entry, s'. simpl. destruct (decide (u = t)) as [->|Hne].
    - rewrite lookup_insert_eq, Hlt, !bind_some, (rd_wr lt i j v) by (apply wr_ok; lia).
      destruct (Z.eqb_spec i j) as [->|Hij]; [by rewrite decide_True|]. rewrite decide_False; [done|]. by intros [_ ->].
    - rewrite lookup_insert_ne by done. rewrite decide_False; [done|]. by intros [-> _]. }
  assert (Hlink : forall u k j e, lv !! u = Some k -> get_entry s' u j = Some e -> links k e = true ->
    get_entry s u j = Some e).
  { intros u k j e Hu He Hl. rewrite Hget in He. destruct (decide (u = t /\ j = i)) as [[-> ->]|]; [|done].
    assert (k = 1%nat) as -> by congruence. apply links_low in Hl. lia. }
  split; [|split; [done|]].
  - unfold set_entry. rewrite Hlt, bind_some, wr_ok by lia. done.
  - destruct Hok as [H1 H2 H3 H4 H5 H6]. constructor; try done.
    + intros u k Hu. destruct (H4 u k Hu) as (? & ? & ? & l & Hl & Hll & Hlf). split; [done|]. split; [done|].
      split; [done|]. unfold s'. simpl. destruct (decide (u = t)) as [->|Hne].
      * rewrite lookup_insert_eq. eexists. split; [done|]. rewrite length_insert.
        split; [done|]. by apply Forall_insert.
      * rewrite lookup_insert_ne by done. by exists l.
    + intros u k j e Hu He Hl. eapply H5; [done| |done]. by apply (Hlink u k j e).
    + intros t1 t2 k1 k2 i1 i2 e1 e2 Ht1 Ht2 He1 He2 Hl1 Hl2 E.
      apply (H6 t1 t2 k1 k2 i1 i2 e1 e2); try done; [by apply (Hlink t1 k1)|by apply (Hlink t2 k2)].
Qed.

Context (s' : vmm) (Hok' : vmm_ok s' lv) (Hroot : active_pml4 s' = active_pml4 s).
Context (Hget : forall u j, get_entry s' u j = if decide (u = t /\ j = i) then Some v else get_entry s u j).

Lemma set_reach address k u : reach s address k u -> reach s' address k u.
Proof.
  induction 1 as [|k u e Hr IH He Hl]; [rewrite <- Hroot; constructor|]. apply (reach_step _ _ k u); try done.
  rewrite Hget, decide_False; [done|]. intros [-> _]. pose proof (reach_level s lv Hok _ _ _ Hr) as H.
  apply links_low in Hl. assert (S k = 1)%nat by congruence. lia.
Qed.

(** The page of the entry. *)
Lemma set_leaf address :
  reach s address 1 t -> index 1 address = i ->
  leaf s' address = if has v VMM_PRESENT then Some v else None.
Proof.
  intros Hr E. rewrite (reach_leaf s' _ _ _ (set_reach _ _ _ Hr)). cbn [descend].
  rewrite Hget, E, decide_True, bind_some by done. by destruct (has v VMM_PRESENT).
Qed.

Lemma old_leaf address :
  reach s address 1 t -> index 1 address = i ->
  leaf s address = e ← get_entry s t i; if has e VMM_PRESENT then Some e else None.
Proof.
  intros Hr E. rewrite (reach_leaf s _ _ _ Hr). cbn [descend]. rewrite E.
  destruct (get_entry s t i) as [e|]; [|done]. rewrite !bind_some. by destruct (has e VMM_PRESENT).
Qed.

(** Every other page. *)
Lemma set_leaf_other address :
  ~ (reach s address 1 t /\ index 1 address = i) -> leaf s' address = leaf s address.
Proof.
  intros Hne. rewrite !leaf_descend, Hroot.
  assert (forall k u, reach s address k u -> descend k s' u address = descend k s u address) as H;
    [|apply H; constructor].
  induction k as [|k IH]; intros u Hr; [done|]. cbn [descend].
  assert (get_entry s' u (index (S k) address) = get_entry s u (index (S k) address)) as ->.
  { rewrite Hget, decide_False; [done|]. intros [-> E]. apply Hne.
    pose proof (reach_level s lv Hok _ _ _ Hr) as H. assert (k = 0%nat) as -> by congruence. done. }
  destruct (get_entry s u (index (S k) address)) as [e|] eqn:He; [|done]. rewrite !bind_some.
  destruct (has e VMM_PRESENT) eqn:Hpres; [|done]. cbn [negb]. destruct k as [|k]; [done|].
  destruct ((k =? 0)%nat && has e PAGE_HUGE) eqn:Hh; [done|]. apply IH. apply (reach_step _ _ (S k) u); try done.
  unfold links. rewrite Hpres. destruct k as [|k]; [|done]. simpl in *. by rewrite Hh.
Qed.
End entry.

Lemma other_page s lv t a b :
  vmm_ok s lv -> reach s a 1 t -> page b <> page a -> ~ (reach s b 1 t /\ index 1 b = index 1 a).
Proof.
  intros Hok Ha Hne [Hb E]. apply Hne, page_indices. intros j Hj.
  destruct (Nat.eq_dec j 1%nat) as [->|]; [done|]. by apply (reach_indices s lv Hok b a 1 t); [..|lia].
Qed.

Lemma aligned_land x : x &&& (PAGE_SIZE - 1) = x mod PAGE_SIZE.
Proof. change (PAGE_SIZE - 1) with (2 ^ 12 - 1). by rewrite land_mask by lia. Qed.

(** ** The operations *)

Definition map_entry (physical_address flags : Z) : Z := (physical_address &&& PAGE_MASK) ||| VMM_PRESENT ||| flags.

Lemma map_entry_spec pa flags :
  fits 64 pa -> fits 64 flags -> fits 64 (map_entry pa flags) /\ has (map_entry pa flags) VMM_PRESENT = true.
Proof.
  intros Hp Hf. unfold map_entry. split.
  - apply lor_fits; [lia| |done]. apply lor_fits; [lia| |split; by vm_compute]. by apply land_fits.
  - unfold VMM_PRESENT. rewrite has_bit, !Z.lor_spec by lia. change (Z.testbit (1 << 0) 0) with true.
    by rewrite orb_true_r.
Qed.

(** Out of pages for tables: nothing is changed. *)
Definition out_of_pages (s s' : vmm) : Prop :=
  no_free (frames s') /\ mapped_page_count s' = mapped_page_count s /\ forall address, leaf s' address = leaf s address.

Section operations.
Context (contents : Z -> list Z) (Hcont : forall a, length (contents a) = 512%nat).
Context (s : vmm) (lv : gmap Z nat) (Hok : vmm_ok s lv).

Lemma map_outcome va pa flags :
  va mod PAGE_SIZE = 0 -> pa mod PAGE_SIZE = 0 -> fits 64 pa -> fits 64 flags ->
  exists s' r lv', vmm_map_page contents s va pa flags = Some (s', r) /\ vmm_ok s' lv' /\ keeps s lv s' lv' /\
    cr3 s' = cr3 s /\ ram s' = ram s /\
    ((r = 0 /\ (exists t, reach s' va 1 t) /\ leaf s' va = Some (map_entry pa flags) /\
      (forall address, page address <> page va -> leaf s' address = leaf s address) /\
      mapped_page_count s' = match leaf s va with
                             | Some _ => mapped_page_count s | None => u64 (mapped_page_count s + 1) end) \/
     (r = -1 /\ out_of_pages s s')).
Proof.
  intros Hva Hpa Hpf Hff. unfold vmm_map_page. rewrite !aligned_land, Hva, Hpa. cbn [Z.eqb negb orb].
  destruct (walk_spec contents Hcont s lv va 1 Hok) as (s1 & r & lv1 & -> & Hok1 & V & K & Hr). rewrite bind_some.
  destruct r as [[t i]|].
  2: { exists s1, (-1), lv1. split; [done|]. split; [done|]. split; [done|]. split; [apply V|]. split; [apply V|]. right.
       split; [done|]. destruct Hr as [[? _]|Hr]; [done|]. split; [done|]. split; apply V. }
  destruct Hr as [Hr ->]. pose proof (reach_level s1 lv1 Hok1 _ _ _ Hr) as Ht. pose proof (index_range 1 va) as Hi.
  destruct (table_entry s1 lv1 Hok1 t 1 _ Ht Hi) as (e & He & _). rewrite He, bind_some.
  destruct (map_entry_spec pa flags Hpf Hff) as [Hvf Hvp]. fold (map_entry pa flags).
  set (s2 := if has e VMM_PRESENT then s1 else with_count s1 (u64 (mapped_page_count s1 + 1))).
  assert (vmm_ok s2 lv1) as Hok2.
  { unfold s2. destruct (has e VMM_PRESENT); [done|]. by destruct Hok1. }
  assert (forall u j, get_entry s2 u j = get_entry s1 u j) as Hg2 by (intros; unfold s2; by destruct (has e VMM_PRESENT)).
  destruct (set_entry_spec s2 lv1 Hok2 t (index 1 va) (map_entry pa flags) Ht Hi Hvf) as (lt & _ & -> & Hget & Hok3).
  rewrite bind_some. set (s3 := with_tables s2 _) in *.
  assert (forall u j, get_entry s3 u j = if decide (u = t /\ j = index 1 va) then Some (map_entry pa flags) else get_entry s1 u j) as Hg3.
  { intros u j. by rewrite Hget, Hg2. }
  assert (active_pml4 s3 = active_pml4 s1 /\ ram s3 = ram s1 /\ cr3 s3 = cr3 s1 /\ frames s3 = frames s1)
    as (Hroot & Hram & Hcr3 & Hfr)
    by (unfold s3, s2; by destruct (has e VMM_PRESENT)).
  exists s3, 0, lv1. split; [done|]. split; [done|]. split; [by destruct K; constructor; rewrite ?Hfr|].
  split; [rewrite Hcr3; apply V|]. split; [rewrite Hram; apply V|].
  left. split; [done|]. split; [exists t; by apply (set_reach s1 lv1 Hok1 t _ _ Ht s3 Hroot Hg3)|]. split; [|split].
  - rewrite (set_leaf s1 lv1 Hok1 t _ _ Ht s3 Hroot Hg3 va Hr eq_refl). by rewrite Hvp.
  - intros address Hne. rewrite (set_leaf_other s1 lv1 Hok1 t _ _ Ht s3 Hroot Hg3); [apply V|].
    by apply (other_page s1 lv1).
  - rewrite <- (same_leaf _ _ V va), (old_leaf s1 t (index 1 va) va Hr eq_refl), He, bind_some.
    unfold s3, s2. destruct (has e VMM_PRESENT); simpl; [apply V|]. by rewrite (same_count _ _ V).
Qed.

(** The entry of a page whose tables are all there. *)
Lemma unmap_present va t :
  va mod PAGE_SIZE = 0 -> reach s va 1 t ->
  (leaf s va = None /\ vmm_unmap_page contents s va = Some (s, -1)) \/
  (leaf s va <> None /\ exists s', vmm_unmap_page contents s va = Some (s', 0) /\ vmm_ok s' lv /\ frames s' = frames s /\
    reach s' va 1 t /\ leaf s' va = None /\
    (forall address, page address <> page va -> leaf s' address = leaf s address) /\
    cr3 s' = cr3 s /\ ram s' = ram s /\
    mapped_page_count s' = if mapped_page_count s =? 0 then 0 else u64 (mapped_page_count s - 1)).
Proof using Hok.
  intros Hva Hr. unfold vmm_unmap_page. rewrite aligned_land, Hva. cbn [Z.eqb negb].
  rewrite (walk_present contents s lv va 0 t Hok Hr), bind_some.
  pose proof (reach_level s lv Hok _ _ _ Hr) as Ht. pose proof (index_range 1 va) as Hi.
  destruct (table_entry s lv Hok t 1 _ Ht Hi) as (e & He & _). rewrite He, bind_some.
  pose proof (old_leaf s t (index 1 va) va Hr eq_refl) as Hold. rewrite He, bind_some in Hold.
  destruct (has e VMM_PRESENT) eqn:Hp; cbn [negb]; [|by left]. right. split; [by rewrite Hold|].
  destruct (set_entry_spec s lv Hok t (index 1 va) 0 Ht Hi ltac:(warith)) as (lt & _ & -> & Hget & Hok2).
  rewrite bind_some. set (s2 := with_tables s _) in *. cbv zeta.
  set (s3 := if negb (mapped_page_count s2 =? 0) then with_count s2 (u64 (mapped_page_count s2 - 1)) else s2).
  assert (vmm_ok s3 lv) as Hok3 by (unfold s3; destruct (negb _); [by destruct Hok2|done]).
  assert (forall u j, get_entry s3 u j = if decide (u = t /\ j = index 1 va) then Some 0 else get_entry s u j) as Hg3
    by (intros; rewrite <- Hget; unfold s3; by destruct (negb _)).
  assert (active_pml4 s3 = active_pml4 s /\ ram s3 = ram s /\ cr3 s3 = cr3 s /\ frames s3 = frames s)
    as (Hroot & Hram & Hcr3 & Hfr) by (unfold s3; by destruct (negb _)).
  exists s3. split; [done|]. split; [done|]. split; [done|].
  split; [by apply (set_reach s lv Hok t _ _ Ht s3 Hroot Hg3)|]. split; [|split; [|split; [done|split; [done|]]]].
  - by rewrite (set_leaf s lv Hok t _ _ Ht s3 Hroot Hg3 va Hr eq_refl).
  - intros address Hne. apply (set_leaf_other s lv Hok t _ _ Ht s3 Hroot Hg3). by apply (other_page s lv).
  - unfold s3. simpl. by destruct (Z.eqb_spec (mapped_page_count s) 0).
Qed.

Lemma query_outcome va :
  exists s' r pa flags lv', vmm_query_page contents s va = Some (s', r, pa, flags) /\ vmm_ok s' lv' /\ keeps s lv s' lv' /\ same_view s s' /\
    ((exists e, leaf s va = Some e /\ r = 0 /\ pa = (e &&& PAGE_MASK) ||| (va mod PAGE_SIZE) /\
        flags = e &&& compl 64 PAGE_MASK) \/
     (r = -1 /\ (leaf s va = None \/ no_free (frames s')))).
Proof.
  unfold vmm_query_page.
  destruct (walk_spec contents Hcont s lv va 0 Hok) as (s1 & r & lv1 & -> & Hok1 & V & K & Hr). rewrite bind_some.
  destruct r as [[t i]|].
  2: { do 5 eexists. split; [done|]. split; [done|]. split; [done|]. split; [done|]. right. split; [done|]. tauto. }
  destruct Hr as [Hr ->]. pose proof (reach_level s1 lv1 Hok1 _ _ _ Hr) as Ht. pose proof (index_range 1 va) as Hi.
  destruct (table_entry s1 lv1 Hok1 t 1 _ Ht Hi) as (e & He & _). rewrite He, bind_some.
  pose proof (old_leaf s1 t (index 1 va) va Hr eq_refl) as Hold. rewrite He, bind_some, (same_leaf _ _ V) in Hold.
  destruct (has e VMM_PRESENT) eqn:Hp; cbn [negb]; do 5 eexists; (split; [done|]); (split; [done|]); (split; [done|]); (split; [done|]).
  - left. exists e. rewrite aligned_land. done.
  - right. split; [done|]. by left.
Qed.

(** A page whose tables are all there is queried without allocating. *)
Lemma query_present va t :
  reach s va 1 t ->
  vmm_query_page contents s va =
    Some (match leaf s va with
          | Some e => (s, 0, (e &&& PAGE_MASK) ||| (va mod PAGE_SIZE), e &&& compl 64 PAGE_MASK)
          | None => (s, -1, 0, 0)
          end).
Proof using Hok.
  intros Hr. unfold vmm_query_page. rewrite (walk_present contents s lv va 0 t Hok Hr), bind_some.
  pose proof (reach_level s lv Hok _ _ _ Hr) as Ht.
  destruct (table_entry s lv Hok t 1 _ Ht (index_range 1 va)) as (e & He & _).
  rewrite (old_leaf s t (index 1 va) va Hr eq_refl), He, !bind_some, aligned_land. by destruct (has e VMM_PRESENT).
Qed.

End operations.

Section unmapping.
Context (contents : Z -> list Z) (Hcont : forall a, length (contents a) = 512%nat).
Context (s : vmm) (lv : gmap Z nat) (Hok : vmm_ok s lv).

Lemma unmap_outcome va :
  va mod PAGE_SIZE = 0 ->
  exists s' r lv', vmm_unmap_page contents s va = Some (s', r) /\ vmm_ok s' lv' /\ keeps s lv s' lv' /\
    cr3 s' = cr3 s /\ ram s' = ram s /\
    ((r = 0 /\ (exists t, reach s' va 1 t) /\ leaf s va <> None /\ leaf s' va = None /\
      (forall address, page address <> page va -> leaf s' address = leaf s address) /\
      mapped_page_count s' = (if mapped_page_count s =? 0 then 0 else u64 (mapped_page_count s - 1))) \/
     (r = -1 /\ leaf s va = None /\ mapped_page_count s' = mapped_page_count s /\
      forall address, leaf s' address = leaf s address) \/
     (r = -1 /\ out_of_pages s s')).
Proof.
  intros Hva. destruct (walk_spec contents Hcont s lv va 0 Hok) as (s1 & r & lv1 & Hw & Hok1 & V & K & Hr).
  destruct r as [[t i]|].
  2: { exists s1, (-1), lv1. unfold vmm_unmap_page. rewrite aligned_land, Hva, Hw, bind_some.
       split; [done|]. split; [done|]. split; [done|]. split; [apply V|]. split; [apply V|]. right.
       destruct Hr as [[_ Hr]|Hr]; [left|right]; (split; [done|]); split; try done; split; apply V. }
  destruct Hr as [Hr ->].
  assert (vmm_unmap_page contents s va = vmm_unmap_page contents s1 va) as ->.
  { unfold vmm_unmap_page. rewrite Hw, (walk_present contents s1 lv1 va 0 t Hok1 Hr). by rewrite aligned_land, Hva. }
  destruct (unmap_present contents s1 lv1 Hok1 va t Hva Hr) as [[Hnone ->]|(Hsome & s3 & -> & Hok3 & Hfr & Hr3 & H)].
  - exists s1, (-1), lv1. rewrite (same_leaf _ _ V) in Hnone.
    split; [done|]. split; [done|]. split; [done|]. split; [apply V|]. split; [apply V|]. right. left.
    split; [done|]. split; [done|]. split; apply V.
  - destruct H as (Hl & Hother & Hcr3 & Hram & Hcount). rewrite (same_leaf _ _ V) in Hsome.
    exists s3, 0, lv1. split; [done|]. split; [done|]. split; [by destruct K; constructor; rewrite ?Hfr|].
    split; [rewrite Hcr3; apply V|]. split; [rewrite Hram; apply V|]. left. split; [done|]. split; [by exists t|].
    split; [done|]. split; [done|]. rewrite <- (same_count _ _ V). split; [|done].
    intros address Hne. rewrite Hother by done. apply V.
Qed.
End unmapping.

(** An address inside a page has the indices of the page. *)
Lemma index_offset k va o : (1 <= k)%nat -> va mod PAGE_SIZE = 0 -> 0 <= o < PAGE_SIZE -> index k (va + o) = index k va.
Proof.
  intros Hk Hva Ho. unfold index. f_equal. rewrite !Z.shiftr_div_pow2 by lia.
  replace (9 * Z.of_nat k + 3) with (12 + (9 * Z.of_nat k - 9)) by lia. rewrite Z.pow_add_r by lia.
  change (2 ^ 12) with PAGE_SIZE. rewrite <- !Z.div_div by (try apply Z.pow_pos_nonneg; unfold PAGE_SIZE; lia).
  f_equal. pose proof (Z.div_mod va PAGE_SIZE). unfold PAGE_SIZE in *.
  rewrite (Z.div_unique (va + o) 4096 (va / 4096) o); lia.
Qed.

Lemma descend_offset k s t va o :
  va mod PAGE_SIZE = 0 -> 0 <= o < PAGE_SIZE -> descend k s t (va + o) = descend k s t va.
Proof.
  intros Hva Ho. revert t. induction k as [|k IH]; intros t; [done|]. cbn [descend].
  rewrite index_offset by (done || lia). destruct (get_entry s t _) as [e|]; [|done]. rewrite !bind_some.
  destruct (negb (has e VMM_PRESENT)); [done|]. destruct k as [|k]; [done|].
  destruct (_ && _); [unfold huge_leaf; by rewrite index_offset by (done || lia)|]. apply IH.
Qed.

Lemma leaf_offset s va o : va mod PAGE_SIZE = 0 -> 0 <= o < PAGE_SIZE -> leaf s (va + o) = leaf s va.
Proof. intros Hva Ho. rewrite !leaf_descend. by apply descend_offset. Qed.

(** What a query makes of an entry that was mapped. *)
Lemma map_entry_fields pa flags :
  pa mod PAGE_SIZE = 0 -> 0 <= pa < 2 ^ 52 -> fits 64 flags -> flags &&& PAGE_MASK = 0 ->
  map_entry pa flags &&& PAGE_MASK = pa /\ map_entry pa flags &&& compl 64 PAGE_MASK = flags ||| VMM_PRESENT.
Proof.
  intros Hpa Hr Hf Hm.
  assert (Hpm : pa &&& PAGE_MASK = pa).
  { zbits. rewrite page_mask_bits by done. destruct (Z.ltb_spec n 52).
    - destruct (Z.leb_spec 12 n); [by rewrite andb_true_r|]. simpl.
      rewrite <- aligned_land in Hpa. change (PAGE_SIZE - 1) with (Z.ones 12) in Hpa.
      pose proof (f_equal (fun x => Z.testbit x n) Hpa) as H'. cbv beta in H'.
      rewrite Z.land_spec, Z.testbit_ones_nonneg, Z.bits_0 in H' by lia.
      replace (n <? 12) with true in H' by lia. rewrite andb_true_r in H'. by rewrite H'.
    - rewrite andb_false_r, andb_false_r. symmetry. apply (testbit_above 52); lia. }
  unfold map_entry. rewrite Hpm. split.
  - rewrite !Z.land_lor_distr_l, Hpm, Hm, Z.lor_0_r. by rewrite Z.lor_0_r.
  - rewrite !Z.land_lor_distr_l. assert (Hc : forall x, fits 64 x -> x &&& PAGE_MASK = 0 -> x &&& compl 64 PAGE_MASK = x).
    { intros x Hx Hxm. zbits. rewrite compl_testbit by (done || lia).
      destruct (Z.ltb_spec n 64); [|rewrite (testbit_above 64 x) by (done || lia); done].
      pose proof (f_equal (fun y => Z.testbit y n) Hxm) as H'. cbv beta in H'. rewrite Z.land_spec, Z.bits_0 in H'.
      simpl. destruct (Z.testbit x n); [|done]. simpl in *. by rewrite H'. }
    rewrite (Hc flags) by done. rewrite (Hc VMM_PRESENT) by done.
    assert (pa &&& compl 64 PAGE_MASK = 0) as ->.
    { rewrite <- Hpm. zbits. rewrite compl_testbit by (done || lia). destruct (Z.testbit PAGE_MASK n), (Z.testbit pa n); simpl; try done;
      by rewrite ?andb_false_r. }
    by rewrite Z.lor_0_l, Z.lor_comm.
Qed.
