(* ===== verification/VmmPages.v ===== *)
(** * Mapped ranges, the kernel image and the self test

    The round trip of mapping and querying a page; what [vmm_init] makes of the
    kernel image, where no page is both writable and executable; and the self
    test of the page tables. *)

From S2P Require Import Prelude Arith Buffer Pmm Vmm VmmCorrect.

#[local] Open Scope Z_scope.

(** ** Pages by number *)

Lemma page_small a : 0 <= a < 2 ^ 48 -> page a = a / PAGE_SIZE.
Proof.
  intros Ha. unfold page. rewrite Z.shiftr_div_pow2 by lia. apply Z.mod_small.
  change (2 ^ 48) with (PAGE_SIZE * 2 ^ 36) in Ha. split; [apply Z.div_pos; [lia|done]|].
  apply Z.div_lt_upper_bound; [done|]. lia.
Qed.

Definition page_base (a : Z) : Z := a / PAGE_SIZE * PAGE_SIZE.
Definition align_up (x : Z) : Z := (x + PAGE_SIZE - 1) / PAGE_SIZE * PAGE_SIZE.

Lemma base_offset a : 0 <= a -> exists o, a = page_base a + o /\ 0 <= o < PAGE_SIZE /\ page_base a mod PAGE_SIZE = 0.
Proof.
  intros Ha. exists (a mod PAGE_SIZE). unfold page_base. pose proof (Z.div_mod a PAGE_SIZE ltac:(done)).
  pose proof (Z.mod_pos_bound a PAGE_SIZE ltac:(done)). split; [lia|]. split; [done|]. by apply Z.mod_mul.
Qed.

Lemma page_base_aligned va : va mod PAGE_SIZE = 0 -> page_base va = va.
Proof. unfold page_base. pose proof (Z.div_mod va PAGE_SIZE ltac:(done)). lia. Qed.

Lemma same_page_leaf s a va :
  0 <= a -> va mod PAGE_SIZE = 0 -> a / PAGE_SIZE = va / PAGE_SIZE -> leaf s a = leaf s va.
Proof.
  intros Ha Hva E. destruct (base_offset a Ha) as (o & Eo & Ho & Hb).
  assert (page_base a = va) as Ebase by (unfold page_base; rewrite E; by apply page_base_aligned).
  rewrite Ebase in Eo. rewrite Eo. by apply leaf_offset.
Qed.

(** One page of the view is changed. *)
Lemma one_page s s' va x :
  0 <= va < 2 ^ 48 -> va mod PAGE_SIZE = 0 -> leaf s' va = x ->
  (forall address, page address <> page va -> leaf s' address = leaf s address) ->
  forall a, 0 <= a < 2 ^ 48 -> leaf s' a = if a / PAGE_SIZE =? va / PAGE_SIZE then x else leaf s a.
Proof.
  intros Hr Hva Hx Ho a Ha. destruct (Z.eqb_spec (a / PAGE_SIZE) (va / PAGE_SIZE)) as [E|Hne].
  - rewrite <- Hx. apply same_page_leaf; (done || lia).
  - apply Ho. by rewrite !page_small.
Qed.

Lemma map_entry_testbit pa flags k :
  0 < k < 12 \/ 52 <= k -> Z.testbit (map_entry pa flags) k = Z.testbit flags k.
Proof.
  intros Hk. unfold map_entry. rewrite !Z.lor_spec, Z.land_spec, page_mask_bits by lia.
  change VMM_PRESENT with (2 ^ 0). rewrite Z.pow2_bits_false by lia.
  replace ((12 <=? k) && (k <? 52)) with false by lia. by rewrite andb_false_r.
Qed.

Lemma has_writable pa flags : has (map_entry pa flags) VMM_WRITABLE = has flags VMM_WRITABLE.
Proof. unfold VMM_WRITABLE. rewrite !has_bit by lia. apply map_entry_testbit. lia. Qed.

Lemma has_no_execute pa flags : has (map_entry pa flags) VMM_NO_EXECUTE = has flags VMM_NO_EXECUTE.
Proof. unfold VMM_NO_EXECUTE. rewrite !has_bit by lia. apply map_entry_testbit. lia. Qed.

(** ** Ranges *)

Section ranges.
Context (contents : Z -> list Z) (Hcont : forall a, length (contents a) = 512%nat).

Definition mapped_view (s s' : vmm) (from to flags : Z) : Prop :=
  forall a, 0 <= a < 2 ^ 48 ->
    leaf s' a = if (from <=? a) && (a <? to) then Some (map_entry (page_base a) flags) else leaf s a.

Lemma mapped_view_next s s1 s2 from address flags :
  from mod PAGE_SIZE = 0 -> address mod PAGE_SIZE = 0 -> from <= address ->
  mapped_view s s1 from address flags ->
  (forall a, 0 <= a < 2 ^ 48 ->
     leaf s2 a = if a / PAGE_SIZE =? address / PAGE_SIZE then Some (map_entry address flags) else leaf s1 a) ->
  mapped_view s s2 from (address + PAGE_SIZE) flags.
Proof.
  intros Hf Had Hle V V2 a Ha. rewrite V2, V by done. pose proof (Z.div_mod a PAGE_SIZE ltac:(done)).
  pose proof (Z.div_mod address PAGE_SIZE ltac:(done)). pose proof (Z.mod_pos_bound a PAGE_SIZE ltac:(done)).
  destruct (Z.eqb_spec (a / PAGE_SIZE) (address / PAGE_SIZE)) as [E|Hne].
  - unfold PAGE_SIZE in *. replace ((from <=? a) && (a <? address + 4096)) with true by lia.
    f_equal. f_equal. unfold page_base, PAGE_SIZE. lia.
  - unfold PAGE_SIZE in *. replace (a <? address + 4096) with (a <? address); [done|].
    destruct (Z.ltb_spec a address), (Z.ltb_spec a (address + 4096)); (done || lia).
Qed.

Lemma map_range_spec s lv from to flags :
  vmm_ok s lv -> from mod PAGE_SIZE = 0 -> 0 <= from -> from <= 2 ^ 47 -> to <= 2 ^ 47 -> fits 64 flags ->
  exists r, map_range contents s from to flags = Some r /\
    match r with
    | inl s' => exists lv', vmm_ok s' lv' /\ keeps s lv s' lv' /\ mapped_view s s' from (align_up to) flags
    | inr s' => exists lv', vmm_ok s' lv' /\ keeps s lv s' lv' /\ no_free (frames s')
    end.
Proof.
  intros Hok Hf H0 Hf47 Ht Hfl. change (2 ^ 47) with 140737488355328 in *. unfold map_range.
  apply (while_loop_rule
    (fun '(s1, address) => exists lv1, vmm_ok s1 lv1 /\ keeps s lv s1 lv1 /\ address mod PAGE_SIZE = 0 /\
       from <= address /\ (address = from \/ address < to + PAGE_SIZE) /\ mapped_view s s1 from address flags) _
    (fun '(_, address) => Z.to_nat ((to - address) / PAGE_SIZE + 1))).
  - exists lv. split; [done|]. split; [apply keeps_refl|]. split; [done|]. split; [lia|]. split; [by left|].
    intros a Ha. destruct (Z.leb_spec from a), (Z.ltb_spec a from); (done || lia).
  - lia.
  - intros [s1 address] (lv1 & Hok1 & K & Had & Hle & Hend & V). destruct (Z.ltb_spec address to) as [Hlt|Hge].
    + assert (address <= 140737488355328) by lia. unfold PAGE_SIZE in Hend.
      destruct (map_outcome contents Hcont s1 lv1 Hok1 address address flags Had Had ltac:(warith) Hfl)
        as (s2 & r & lv2 & -> & Hok2 & K2 & _ & _ & Hr). rewrite bind_some.
      assert (keeps s lv s2 lv2) as K' by (by eapply keeps_trans).
      destruct Hr as [(-> & _ & Hl & Ho & _)|(-> & Hnf & _)]; [left|right]; cbn [Z.eqb negb].
      * rewrite u64_small by (unfold PAGE_SIZE; warith). eexists. split; [done|]. split.
        -- exists lv2. split; [done|]. split; [done|].
           split; [unfold PAGE_SIZE in *; divlia|]. split; [unfold PAGE_SIZE; lia|]. split; [right; lia|].
           apply (mapped_view_next s s1); try done. apply one_page; try done. change (2 ^ 48) with 281474976710656. lia.
        -- unfold PAGE_SIZE in *. divlia.
      * eexists. split; [done|]. exists lv2. split; [done|]. by split.
    + right. eexists. split; [done|]. exists lv1. split; [done|]. split; [done|].
      intros a Ha. rewrite V by done. pose proof (Z.div_mod a PAGE_SIZE ltac:(done)).
      replace ((from <=? a) && (a <? align_up to)) with ((from <=? a) && (a <? address)); [done|].
      destruct Hend as [->|Hend].
      * destruct (Z.leb_spec from a), (Z.ltb_spec a from), (Z.ltb_spec a (align_up to)); try (done || lia).
        unfold align_up, PAGE_SIZE in *. divlia.
      * f_equal. assert (address = align_up to) as ->; [|done]. unfold align_up, PAGE_SIZE in *. divlia.
Qed.
End ranges.

(** ** The kernel image *)

(** What the linker script says of the symbols: sections start on pages. *)
Record linked (kernel_start text_end rodata_start rodata_end kernel_end : Z) : Prop := {
  linked_start : kernel_start mod PAGE_SIZE = 0 /\ PAGE_SIZE <= kernel_start <= text_end;
  linked_rodata : rodata_start = align_up text_end /\ rodata_start <= rodata_end;
  linked_end : align_up rodata_end <= kernel_end <= 2 ^ 46;
}.

(** The flags of the page of an address of the image. *)
Definition image_flags (kernel_start rodata_start rodata_end kernel_end a : Z) : option Z :=
  if a <? kernel_start then None
  else if a <? rodata_start then Some VMM_GLOBAL
  else if a <? align_up rodata_end then Some (VMM_GLOBAL ||| VMM_NO_EXECUTE)
  else if a <? align_up kernel_end then Some (VMM_WRITABLE ||| VMM_GLOBAL ||| VMM_NO_EXECUTE)
  else None.

(** What the MMU sees once [vmm_init] has succeeded. *)
Definition protected (s s' : vmm) (kernel_start rodata_start rodata_end kernel_end : Z) : Prop :=
  forall a, 0 <= a < 2 ^ 48 ->
    leaf s' a = if a <? PAGE_SIZE then None
                else match image_flags kernel_start rodata_start rodata_end kernel_end a with
                     | Some flags => Some (map_entry (page_base a) flags)
                     | None => leaf s a
                     end.

Lemma align_up_code x :
  0 <= x <= 2 ^ 47 -> u64 (u64 (x + PAGE_SIZE) - 1) &&& compl 64 (PAGE_SIZE - 1) = align_up x.
Proof.
  intros Hx. change (2 ^ 47) with 140737488355328 in Hx.
  rewrite (u64_small (x + PAGE_SIZE)), u64_small by (unfold PAGE_SIZE; warith).
  change (PAGE_SIZE - 1) with (2 ^ 12 - 1). by rewrite land_compl_mask by (unfold PAGE_SIZE; warith).
Qed.

Lemma with_count_ok s lv n : vmm_ok s lv -> vmm_ok (with_count s n) lv.
Proof. by intros []. Qed.

Section image.
Context (contents : Z -> list Z) (Hcont : forall a, length (contents a) = 512%nat).
Context (s : vmm) (lv : gmap Z nat) (Hok : vmm_ok s lv) (identity_4g : bool).
Context (ks te rs re ke : Z) (Hl : linked ks te rs re ke).

Lemma linked_order : ks <= rs /\ rs <= align_up re /\ align_up re <= align_up ke /\ rs mod PAGE_SIZE = 0 /\
  align_up re mod PAGE_SIZE = 0 /\ 0 <= re /\ align_up re <= ke /\ PAGE_SIZE <= ks /\ te <= rs /\ re <= align_up re.
Proof.
  destruct Hl as [[H1 [H2 H3]] [-> H4] [H5 H6]]. unfold align_up, PAGE_SIZE in *. split_and!; divlia.
Qed.

Lemma image_views s0 s1 s2 s3 :
  (forall a, 0 <= a < 2 ^ 48 -> leaf s0 a = if a / PAGE_SIZE =? 0 then None else leaf s a) ->
  mapped_view s0 s1 ks (align_up te) VMM_GLOBAL ->
  mapped_view s1 s2 rs (align_up re) (VMM_GLOBAL ||| VMM_NO_EXECUTE) ->
  mapped_view s2 s3 (align_up re) (align_up (align_up ke)) (VMM_WRITABLE ||| VMM_GLOBAL ||| VMM_NO_EXECUTE) ->
  protected s s3 ks rs re ke.
Proof.
  intros V0 V1 V2 V3 a Ha. rewrite V3, V2, V1, V0 by done. destruct linked_order as (? & ? & ? & _ & _ & ? & ? & ? & _).
  replace (align_up te) with rs by apply Hl. assert (align_up (align_up ke) = align_up ke) as ->
    by (unfold align_up, PAGE_SIZE; divlia).
  assert ((a / PAGE_SIZE =? 0) = (a <? PAGE_SIZE)) as -> by (unfold PAGE_SIZE; destruct (Z.ltb_spec a 4096), (Z.eqb_spec (a / 4096) 0); try done; divlia).
  unfold image_flags.
  destruct (Z.leb_spec (align_up re) a), (Z.ltb_spec a (align_up ke)), (Z.leb_spec rs a), (Z.ltb_spec a (align_up re)),
    (Z.leb_spec ks a), (Z.ltb_spec a rs), (Z.ltb_spec a ks), (Z.ltb_spec a PAGE_SIZE); simpl; try done; lia.
Qed.

Lemma vmm_init_outcome :
  exists s' r lv', vmm_init contents s identity_4g ks te rs re ke = Some (s', r) /\ vmm_ok s' lv' /\ keeps s lv s' lv' /\
    ((r = 0 /\ leaf s 0 <> None /\ protected s s' ks rs re ke) \/
     (r = -1 /\ (leaf s 0 = None \/ no_free (frames s')))).
Proof.
  unfold vmm_init. set (n := if identity_4g then _ else _).
  destruct (unmap_outcome contents Hcont (with_count s n) lv (with_count_ok s lv n Hok) 0 eq_refl)
    as (s0 & r & lv0 & -> & Hok0 & K0 & _ & _ & Hr). rewrite bind_some.
  assert (keeps s lv s0 lv0) as K by (by destruct K0).
  destruct Hr as [(-> & _ & Hsome & Hnone & Ho & _)|Hr]; cbn [Z.eqb negb].
  2: { exists s0, (-1), lv0. destruct Hr as [(-> & Hr & _)|(-> & Hr & _)]; (split; [done|]); auto 6. }
  destruct linked_order as (? & ? & ? & Hrs & Hre & ? & ? & ? & ? & ?). destruct Hl as [[Hks Hle] [Hrs2 Hle2] [Hre2 Hke]].
  change (2 ^ 46) with 70368744177664 in Hke. change (2 ^ 47) with 140737488355328.
  assert (Hfl : fits 64 VMM_GLOBAL /\ fits 64 (VMM_GLOBAL ||| VMM_NO_EXECUTE) /\
    fits 64 (VMM_WRITABLE ||| VMM_GLOBAL ||| VMM_NO_EXECUTE)) by (split_and!; by vm_compute).
  destruct Hfl as (Hf1 & Hf2 & Hf3).
  destruct (map_range_spec contents Hcont s0 lv0 ks te VMM_GLOBAL Hok0) as (r1 & -> & R1); [done|unfold PAGE_SIZE in *; lia..|done|].
  rewrite bind_some. destruct r1 as [s1|s1]; destruct R1 as (lv1 & Hok1 & K1 & V1);
    pose proof (keeps_trans _ _ _ _ _ _ K K1) as K01; [|by exists s1, (-1), lv1; split_and!; [done..|right; auto]].
  destruct (map_range_spec contents Hcont s1 lv1 rs re (VMM_GLOBAL ||| VMM_NO_EXECUTE) Hok1) as (r2 & -> & R2);
    [done|unfold PAGE_SIZE in *; lia..|done|].
  rewrite bind_some. destruct r2 as [s2|s2]; destruct R2 as (lv2 & Hok2 & K2 & V2);
    pose proof (keeps_trans _ _ _ _ _ _ K01 K2) as K02; [|by exists s2, (-1), lv2; split_and!; [done..|right; auto]].
  rewrite !align_up_code by (change (2 ^ 47) with 140737488355328; lia).
  assert (align_up ke <= 140737488355328) by (unfold align_up, PAGE_SIZE; divlia).
  destruct (map_range_spec contents Hcont s2 lv2 (align_up re) (align_up ke) (VMM_WRITABLE ||| VMM_GLOBAL ||| VMM_NO_EXECUTE) Hok2)
    as (r3 & -> & R3); [done|unfold PAGE_SIZE in *; lia..|done|].
  rewrite bind_some. destruct r3 as [s3|s3]; destruct R3 as (lv3 & Hok3 & K3 & V3);
    pose proof (keeps_trans _ _ _ _ _ _ K02 K3) as K03; [|by exists s3, (-1), lv3; split_and!; [done..|right; auto]].
  exists s3, 0, lv3. split; [done|]. split; [done|]. split; [done|]. left. split; [done|]. split; [done|].
  apply (image_views s0 s1 s2 s3); try done.
  exact (one_page (with_count s n) s0 0 None ltac:(done) eq_refl Hnone Ho).
Qed.
End image.

(** ** The self test *)

Lemma with_frames_ok s lv p :
  vmm_ok s lv -> pmm_inv p -> 0 < reserved_pages p ->
  (forall a k, lv !! a = Some k -> bit (page_bitmap p) (a / PAGE_SIZE) = true) -> vmm_ok (with_frames s p) lv.
Proof.
  intros [H1 H2 H3 H4 H5 H6] Hp Hr Hb. constructor; try done.
  intros t k Ht. destruct (H4 t k Ht) as (? & ? & _ & ?). split; [done|]. split; [done|]. split; [by apply (Hb t k)|done].
Qed.

(** Pages that are not tables are taken and given back. *)
Lemma alloc_run s lv n :
  vmm_ok s lv -> fits 32 n ->
  exists p a, pmm_alloc_pages (frames s) n = Some (p, a) /\ vmm_ok (with_frames s p) lv /\
    managed_pages p = managed_pages (frames s) /\ reserved_pages p = reserved_pages (frames s) /\
    ((a = 0 /\ refused (frames s) p n) \/
     exists start, a = start * PAGE_SIZE /\ 0 < start /\ allocated (frames s) p n start /\ start + n <= PMM_MAX_PAGES /\
       forall q, start <= q < start + n -> lv !! (q * PAGE_SIZE) = None).
Proof.
  intros Hok Hn. destruct (pmm_alloc_outcome (frames s) n) as (p & a & -> & Hp & Hm & Hr & Hcase);
    [apply (ok_frames s lv Hok)|done|]. pose proof (ok_reserved s lv Hok) as Hres.
  exists p, a. split; [done|]. destruct Hcase as [(start & -> & Hal)|[-> Href]].
  - pose proof Hal as (_ & Hs1 & Hs2 & Hfree & _ & Hbit & _).
    pose proof (inv_range _ (ok_frames s lv Hok)) as [_ Hmax]. split; [|split; [done|split; [done|right]]].
    + apply with_frames_ok; [done|done|lia|]. intros b k Hb. rewrite Hbit.
      destruct (ok_table s lv Hok b k Hb) as (_ & _ & -> & _). by rewrite orb_true_r.
    + exists start. split; [done|]. split; [lia|]. split; [done|]. split; [lia|]. intros q Hq.
      destruct (lv !! (q * PAGE_SIZE)) as [k|] eqn:El; [|done].
      destruct (ok_table s lv Hok _ _ El) as (_ & _ & Hb & _). rewrite Z.div_mul, Hfree in Hb by (done || lia). done.
  - split; [|split; [done|split; [done|by left]]]. pose proof Href as (_ & Hbm & _).
    apply with_frames_ok; [done|done|lia|]. intros b k Hb. rewrite Hbm. apply (ok_table s lv Hok b k Hb).
Qed.

Lemma free_run s lv start n :
  vmm_ok s lv -> 0 < n -> (forall q, start <= q < start + n -> lv !! (q * PAGE_SIZE) = None) ->
  reserved_pages (frames s) <= start -> start + n <= managed_pages (frames s) ->
  exists p, pmm_free_pages (frames s) (start * PAGE_SIZE) n = Some p /\ vmm_ok (with_frames s p) lv /\
    managed_pages p = managed_pages (frames s) /\ reserved_pages p = reserved_pages (frames s) /\
    forall q, bit (page_bitmap p) q = negb (in_run start n q) && bit (page_bitmap (frames s)) q.
Proof.
  intros Hok Hn Hlv Hr Hm. pose proof (inv_range _ (ok_frames s lv Hok)) as [_ Hmax]. pose proof (ok_reserved s lv Hok).
  destruct (pmm_free_outcome (frames s) (start * PAGE_SIZE) start n) as (p & Hf & Hp & Hm' & Hre & _ & Hbit);
    [apply (ok_frames s lv Hok)|rewrite aligned_land; by apply Z.mod_mul|
     rewrite Z.div_mul by done; apply small_u32; lia|lia..|].
  exists p. split; [done|]. split; [|split; [done|split; [done|done]]].
  apply with_frames_ok; [done|done|lia|]. intros b k Hb. rewrite Hbit.
  destruct (ok_table s lv Hok b k Hb) as (_ & (m & -> & _) & Hbb & _). rewrite Hbb, andb_true_r, Z.div_mul by done.
  unfold in_run. destruct (Z.leb_spec start m), (Z.ltb_spec m (start + n)); try done. rewrite Hlv in Hb; [done|lia].
Qed.

Lemma in_run_one start q : in_run start 1 q = (q =? start).
Proof. unfold in_run. lia. Qed.

Lemma alloc_one s lv :
  vmm_ok s lv ->
  exists p a, pmm_alloc_pages (frames s) 1 = Some (p, a) /\ vmm_ok (with_frames s p) lv /\
    managed_pages p = managed_pages (frames s) /\ reserved_pages p = reserved_pages (frames s) /\
    ((a = 0 /\ no_free p /\ page_bitmap p = page_bitmap (frames s)) \/
     (a <> 0 /\ frame a /\ lv !! a = None /\ reserved_pages p <= a / PAGE_SIZE < managed_pages p /\
      bit (page_bitmap (frames s)) (a / PAGE_SIZE) = false /\
      forall q, bit (page_bitmap p) q = (q =? a / PAGE_SIZE) || bit (page_bitmap (frames s)) q)).
Proof.
  intros Hok. destruct (alloc_run s lv 1 Hok) as (p & a & Ha & Hok' & Hm & Hr & Hcase); [warith|].
  exists p, a. split; [done|]. split; [done|]. split; [done|]. split; [done|].
  destruct Hcase as [(-> & Hblk & Hbm & _)|(start & -> & Hpos & Hal & Hmax & Hlv)]; [left|right].
  - split; [done|]. split; [|done]. intros q Hq. rewrite Hbm. destruct Hblk as [?|Hblk]; [done|].
    destruct (Hblk q) as (q' & Hq' & Hb); [lia..|]. assert (q' = q) as -> by lia. done.
  - destruct Hal as (_ & Hs1 & Hs2 & Hfree & _ & Hbit & _). unfold PMM_MAX_PAGES in Hmax. rewrite Z.div_mul by done.
    split; [unfold PAGE_SIZE; lia|]. split; [exists start; split; [done|]; change (2 ^ 40) with 1099511627776; lia|].
    split; [apply Hlv; lia|]. split; [lia|]. split; [apply Hfree; lia|]. intros q. by rewrite Hbit, in_run_one.
Qed.

Lemma free_one s lv a :
  vmm_ok s lv -> frame a -> lv !! a = None ->
  reserved_pages (frames s) <= a / PAGE_SIZE < managed_pages (frames s) ->
  exists p, free_page s a = Some (with_frames s p) /\ vmm_ok (with_frames s p) lv /\
    managed_pages p = managed_pages (frames s) /\ reserved_pages p = reserved_pages (frames s) /\
    forall q, bit (page_bitmap p) q = negb (q =? a / PAGE_SIZE) && bit (page_bitmap (frames s)) q.
Proof.
  intros Hok (n & -> & Hn) Hlv Hr. rewrite Z.div_mul in * by done.
  destruct (free_run s lv n 1 Hok) as (p & Hf & Hok' & Hm & Hre & Hbit); [lia| |lia|lia|].
  { intros q Hq. by replace q with n by lia. }
  exists p. unfold free_page. rewrite Hf, bind_some. split_and!; try done. intros q. by rewrite Hbit, in_run_one.
Qed.

Lemma with_ram_ok s lv r : vmm_ok s lv -> vmm_ok (with_ram s r) lv.
Proof. by intros []. Qed.

Lemma with_ram_reach s r address k t : reach s address k t -> reach (with_ram s r) address k t.
Proof. induction 1 as [|k t e _ IH He Hl]; [exact (reach_root (with_ram s r) address)|]. by apply (reach_step _ _ k t). Qed.

(** Almost no page is left: at most one. *)
Definition one_free (p : pmm) : Prop :=
  exists n, forall q, reserved_pages p <= q < managed_pages p -> q <> n -> bit (page_bitmap p) q = true.

Section self_test.
Context (contents : Z -> list Z) (Hcont : forall a, length (contents a) = 512%nat).
Context (s : vmm) (lv : gmap Z nat) (Hok : vmm_ok s lv).

(** What the test does once its page is mapped. *)
Lemma self_test_mapped s2 lv2 t physical :
  vmm_ok s2 lv2 -> frame physical -> fits 64 physical -> reach s2 test_address 1 t ->
  leaf s2 test_address = Some (map_entry physical (VMM_WRITABLE ||| VMM_NO_EXECUTE)) ->
  exists s3 s4, store s2 test_address test_value = Some s3 /\ load s3 test_address = Some test_value /\
    vmm_query_page contents s3 test_address =
      Some (s3, 0, physical, VMM_WRITABLE ||| VMM_NO_EXECUTE ||| VMM_PRESENT) /\
    vmm_unmap_page contents s3 test_address = Some (s4, 0) /\
    (exists pa flags, vmm_query_page contents s4 test_address = Some (s4, -1, pa, flags)) /\
    vmm_ok s4 lv2 /\ frames s4 = frames s2 /\ leaf s4 test_address = None /\
    forall a, page a <> page test_address -> leaf s4 a = leaf s2 a.
Proof using Type.
  intros Hok2 Hfr Hfit Hr Hleaf. unfold store, load. rewrite Hleaf, bind_some, has_writable.
  change (has (VMM_WRITABLE ||| VMM_NO_EXECUTE) VMM_WRITABLE) with true. cbn [negb].
  set (s3 := with_ram s2 _). assert (leaf s3 test_address = leaf s2 test_address) as El by done.
  pose proof (with_ram_ok s2 lv2 (ram s3) Hok2) as Hok3. change (vmm_ok s3 lv2) in Hok3.
  pose proof (with_ram_reach s2 (ram s3) _ _ _ Hr) as Hr3. change (reach s3 test_address 1 t) in Hr3.
  destruct (unmap_present contents s3 lv2 Hok3 test_address t eq_refl Hr3) as [[Hn _]|(_ & s4 & Hu & Hok4 & Hf4 & Hr4 & Hn4 & Ho & _)];
    [by rewrite El, Hleaf in Hn|].
  destruct (map_entry_fields physical (VMM_WRITABLE ||| VMM_NO_EXECUTE)) as [Hf1 Hf2];
    [destruct Hfr as (n & -> & _); by apply Z.mod_mul| |split; by vm_compute|done|].
  { destruct Hfr as (n & -> & Hn). change (2 ^ 40) with 1099511627776 in Hn. change (2 ^ 52) with 4503599627370496.
    unfold PAGE_SIZE. lia. }
  exists s3, s4. split; [done|]. split; [|split; [|split; [done|split; [|by split_and!]]]].
  - rewrite El, Hleaf, bind_some. unfold s3. cbn [with_ram ram]. by rewrite lookup_insert_eq.
  - rewrite (query_present contents s3 lv2 Hok3 test_address t Hr3), El, Hleaf, Hf1, Hf2.
    change (test_address mod PAGE_SIZE) with 0. by rewrite Z.lor_0_r.
  - exists 0, 0. by rewrite (query_present contents s4 lv2 Hok4 test_address t Hr4), Hn4.
Qed.

Lemma self_test_outcome :
  exists s' r lv', vmm_self_test contents s = Some (s', r) /\ vmm_ok s' lv' /\
    (forall q, bit (page_bitmap (frames s)) q = true -> bit (page_bitmap (frames s')) q = true) /\
    ((r = 0 /\ leaf s' test_address = None /\ forall a, page a <> page test_address -> leaf s' a = leaf s a) \/
     (r = -1 /\ one_free (frames s') /\ forall a, leaf s' a = leaf s a)).
Proof.
  unfold vmm_self_test. destruct (alloc_one s lv Hok) as (p & a & -> & Hok1 & Hm & Hre & Hcase). rewrite bind_some.
  destruct Hcase as [(-> & Hnf & Hb)|(Ha & Hfr & Hlv & Hrange & Hfree & Hb)].
  { exists (with_frames s p), (-1), lv. split; [done|]. split; [done|]. split; [cbn [with_frames frames]; by rewrite Hb|].
    right. split; [done|]. split; [|done]. exists 0. intros q Hq _. by apply Hnf. }
  destruct (Z.eqb_spec a 0) as [|_]; [done|].
  assert (fits 64 a) as Hfit.
  { destruct Hfr as (n & -> & Hn). unfold PAGE_SIZE. change (2 ^ 40) with 1099511627776 in Hn. warith. }
  assert (a mod PAGE_SIZE = 0) as Hal by (destruct Hfr as (n & -> & _); by apply Z.mod_mul).
  destruct (map_outcome contents Hcont (with_frames s p) lv Hok1 test_address a (VMM_WRITABLE ||| VMM_NO_EXECUTE) eq_refl Hal Hfit)
    as (s2 & r & lv2 & -> & Hok2 & K & _ & _ & Hr); [split; by vm_compute|]. rewrite bind_some.
  assert (lv2 !! a = None) as Hlv2.
  { apply (keeps_table _ _ _ _ K); [done|]. cbn [with_frames frames]. by rewrite Hb, Z.eqb_refl. }
  assert (reserved_pages (frames s2) <= a / PAGE_SIZE < managed_pages (frames s2)) as Hrange2
    by (by rewrite (keeps_reserved _ _ _ _ K), (keeps_managed _ _ _ _ K)).
  assert (Hbits : forall q, bit (page_bitmap (frames s)) q = true -> q <> a / PAGE_SIZE /\ bit (page_bitmap (frames s2)) q = true).
  { intros q Hq. split; [intros ->; congruence|]. apply (keeps_used _ _ _ _ K). cbn [with_frames frames].
    by rewrite Hb, Hq, orb_true_r. }
  destruct Hr as [(-> & (t & Ht) & Hleaf & Ho & _)|(-> & Hnf & _ & Hsame)]; cbn [Z.eqb negb].
  - destruct (self_test_mapped s2 lv2 t a Hok2 Hfr Hfit Ht Hleaf)
      as (s3 & s4 & -> & Hload & Hq & Hu & (? & ? & Hq4) & Hok4 & Hf4 & Hn4 & Ho4).
    rewrite bind_some, Hload, bind_some, Z.eqb_refl. cbn [negb]. rewrite Hq, !bind_some, !Z.eqb_refl.
    change (has (VMM_WRITABLE ||| VMM_NO_EXECUTE ||| VMM_PRESENT) VMM_NO_EXECUTE) with true. cbn [Z.eqb negb orb].
    rewrite Hu, bind_some. cbn [Z.eqb negb]. rewrite Hq4, !bind_some. cbn [Z.eqb].
    rewrite <- Hf4 in Hrange2, Hbits.
    destruct (free_one s4 lv2 a Hok4 Hfr Hlv2 Hrange2) as (p' & -> & Hok5 & _ & _ & Hb5). rewrite bind_some.
    exists (with_frames s4 p'), 0, lv2. split; [done|]. split; [done|]. split; [|left; split; [done|split; [done|]]].
    + intros q Hq'. destruct (Hbits q Hq') as [Hne Hu4]. cbn [with_frames frames]. rewrite Hb5, Hu4.
      by destruct (Z.eqb_spec q (a / PAGE_SIZE)).
    + intros b Hbne. change (leaf s4 b = leaf s b). rewrite Ho4 by done. by apply Ho.
  - destruct (free_one s2 lv2 a Hok2 Hfr Hlv2 Hrange2) as (p' & -> & Hok5 & Hm5 & Hr5 & Hb5). rewrite bind_some.
    exists (with_frames s2 p'), (-1), lv2. split; [done|]. split; [done|]. split; [|right; split; [done|split]].
    + intros q Hq'. destruct (Hbits q Hq') as [Hne Hu4]. cbn [with_frames frames]. rewrite Hb5, Hu4.
      by destruct (Z.eqb_spec q (a / PAGE_SIZE)).
    + exists (a / PAGE_SIZE). cbn [with_frames frames]. rewrite Hm5, Hr5. intros q Hq' Hne.
      rewrite Hb5, (Hnf q Hq'). by destruct (Z.eqb_spec q (a / PAGE_SIZE)).
    + intros b. exact (Hsame b).
Qed.
End self_test.

(** ** Tables of a machine at boot

    The first 4 MiB, and the first 2 MiB after 1 GiB, are mapped to themselves
    by huge pages; a table for the 2 MiB after the first 4 is empty.  The tables are in the pages that the allocator reserves. *)

Definition sparse (prefix : list Z) : list Z := prefix ++ replicate (512 - length prefix) 0.

Definition boot_tables : list (Z * (nat * list Z)) :=
  [(4096, (4%nat, [8195])); (8192, (3%nat, [12291; 16387]));
   (12288, (2%nat, [0x83; 0x200083; 20483])); (16384, (2%nat, [0x40000083])); (20480, (1%nat, []))].

Definition boot : vmm :=
  Vmm (list_to_map (prod_map id (sparse ∘ snd) <$> boot_tables)) 4096 0 demo ∅.
Definition boot_levels : gmap Z nat := list_to_map (prod_map id fst <$> boot_tables).

Lemma boot_table t k :
  boot_levels !! t = Some k -> exists l, (t, (k, l)) ∈ boot_tables /\ tables boot !! t = Some (sparse l).
Proof.
  intros H. apply elem_of_list_to_map_2, list_elem_of_fmap in H as ([t' [k' l]] & [= -> ->] & Hin).
  exists l. split; [done|]. apply elem_of_list_to_map_1.
  - rewrite <- list_fmap_compose. by apply (bool_decide_unpack _).
  - apply list_elem_of_fmap. by exists (t', (k', l)).
Qed.

Lemma sparse_entry l i e : rd (sparse l) i = Some e -> e <> 0 -> 0 <= i /\ l !! Z.to_nat i = Some e.
Proof.
  intros [Hi H]%rd_Some Hne. split; [done|]. unfold sparse in H. apply lookup_app_Some in H as [H|[_ H]]; [done|].
  apply lookup_replicate in H as [-> _]. done.
Qed.

Lemma boot_link t k i e :
  boot_levels !! t = Some k -> get_entry boot t i = Some e -> links k e = true ->
  (t, k, i, e) ∈ [(4096, 4%nat, 0, 8195); (8192, 3%nat, 0, 12291); (8192, 3%nat, 1, 16387);
     (12288, 2%nat, 2, 20483)].
Proof.
  intros Ht He Hl. destruct (boot_table t k Ht) as (l & Hin & Htab). unfold get_entry in He. rewrite Htab, bind_some in He.
  destruct (sparse_entry l i e He) as [Hi Hli].
  { intros ->. apply links_present in Hl. done. }
  assert (Hdom : forall n, Z.to_nat i = n -> i = Z.of_nat n) by lia.
  unfold boot_tables in Hin. rewrite !elem_of_cons in Hin.
  destruct Hin as [[= -> -> ->]|[[= -> -> ->]|[[= -> -> ->]|[[= -> -> ->]|[[= -> -> ->]|Hin]]]]]; [..|by apply elem_of_nil in Hin];
    destruct (Z.to_nat i) as [|[|[|n]]] eqn:Ei; simpl in Hli; simplify_eq; rewrite (Hdom _ eq_refl);
    first [done|set_solver].
Qed.

Lemma boot_ok : vmm_ok boot boot_levels.
Proof.
  constructor.
  - exact demo_inv.
  - done.
  - done.
  - intros t k Ht. destruct (boot_table t k Ht) as (l & Hin & Htab).
    assert (Hall : (1 <= k <= 4)%nat /\ frame t /\ 0 <= t / PAGE_SIZE < 8 /\ (length l <= 512)%nat /\ Forall (fits 64) l).
    { unfold boot_tables in Hin. rewrite !elem_of_cons in Hin.
      destruct Hin as [[= -> -> ->]|[[= -> -> ->]|[[= -> -> ->]|[[= -> -> ->]|[[= -> -> ->]|Hin]]]]]; [..|by apply elem_of_nil in Hin];
        (split; [lia|]; split; [first [by exists 1|by exists 2|by exists 3|by exists 4|by exists 5]|]; split; [done|]; split; [cbn [length]; lia|repeat constructor; warith]). }
    destruct Hall as (? & ? & Hpg & Hlen & Hfit). split; [done|]. split; [done|]. split.
    + change (frames boot) with demo. rewrite demo_bit by (unfold PMM_MAX_PAGES; lia). unfold in_run. lia.
    + exists (sparse l). split; [done|]. unfold sparse. rewrite length_app, length_replicate. split; [lia|].
      apply Forall_app. split; [done|]. by apply Forall_replicate.
  - intros t k i e Ht He Hl. pose proof (boot_link t k i e Ht He Hl) as H. rewrite !elem_of_cons in H.
    destruct H as [[= -> -> -> ->]|[[= -> -> -> ->]|[[= -> -> -> ->]|[[= -> -> -> ->]|H]]]]; [by eexists..|by apply elem_of_nil in H].
  - intros t1 t2 k1 k2 i1 i2 e1 e2 Ht1 Ht2 He1 He2 Hl1 Hl2 E.
    pose proof (boot_link t1 k1 i1 e1 Ht1 He1 Hl1) as H1. pose proof (boot_link t2 k2 i2 e2 Ht2 He2 Hl2) as H2.
    rewrite !elem_of_cons in H1, H2.
    destruct H1 as [[= -> -> -> ->]|[[= -> -> -> ->]|[[= -> -> -> ->]|[[= -> -> -> ->]|H1]]]]; [..|by apply elem_of_nil in H1];
      (destruct H2 as [[= -> -> -> ->]|[[= -> -> -> ->]|[[= -> -> -> ->]|[[= -> -> -> ->]|H2]]]]; [..|by apply elem_of_nil in H2]); done.
Qed.

(** No page of the image is writable and executable, and its code and constants
    are not writable. *)
Definition write_xor_execute (s : vmm) (kernel_start rodata_end kernel_end : Z) : Prop :=
  forall a, kernel_start <= a < align_up kernel_end ->
    exists e, leaf s a = Some e /\ e &&& PAGE_MASK = page_base a /\
      has e VMM_WRITABLE && negb (has e VMM_NO_EXECUTE) = false /\
      has e VMM_WRITABLE = (align_up rodata_end <=? a).

Lemma protected_wx s s' ks te rs re ke :
  linked ks te rs re ke -> protected s s' ks rs re ke -> write_xor_execute s' ks re ke.
Proof.
  intros Hl V a Ha. destruct (linked_order ks te rs re ke Hl) as (? & ? & ? & _ & _ & _ & ? & ? & _).
  pose proof (proj2 (linked_end _ _ _ _ _ Hl)) as Hke. change (2 ^ 46) with 70368744177664 in Hke.
  assert (0 <= a < 281474976710656) as Hr by (unfold align_up, PAGE_SIZE in *; divlia).
  assert (Hout : forall flags, image_flags ks rs re ke a = Some flags -> fits 64 flags -> flags &&& PAGE_MASK = 0 ->
    leaf s' a = Some (map_entry (page_base a) flags) /\ map_entry (page_base a) flags &&& PAGE_MASK = page_base a).
  { intros flags Hf Hfit Hm. rewrite V, Hf by done. replace (a <? PAGE_SIZE) with false by lia. split; [done|].
    apply map_entry_fields; try done; unfold page_base, PAGE_SIZE; [by apply Z.mod_mul|].
    change (2 ^ 52) with 4503599627370496. divlia. }
  unfold image_flags in Hout. replace (a <? ks) with false in Hout by lia.
  assert (Hfl : fits 64 VMM_GLOBAL /\ fits 64 (VMM_GLOBAL ||| VMM_NO_EXECUTE) /\
    fits 64 (VMM_WRITABLE ||| VMM_GLOBAL ||| VMM_NO_EXECUTE)) by (split_and!; by vm_compute).
  destruct Hfl as (Hf1 & Hf2 & Hf3).
  destruct (Z.ltb_spec a rs); [|destruct (Z.ltb_spec a (align_up re)); [|replace (a <? align_up ke) with true in Hout by lia]];
    destruct (Hout _ eq_refl) as [Hleaf Hbase]; try done; rewrite Hleaf; eexists;
    rewrite Hbase, has_writable, has_no_execute; (split; [done|]; split; [done|]; split; [done|]);
    destruct (Z.leb_spec (align_up re) a); (done || lia).
Qed.

Lemma reach_offset s va o k t :
  va mod PAGE_SIZE = 0 -> 0 <= o < PAGE_SIZE -> (1 <= k)%nat -> reach s va k t -> reach s (va + o) k t.
Proof.
  intros Hva Ho Hk Hr. induction Hr as [|k t e Hr IH He Hl]; [constructor|].
  apply (reach_step _ _ k t); [apply IH; lia|by rewrite index_offset by (done || lia)|done].
Qed.

Lemma map_query_outcome contents s lv va pa flags s' o :
  (forall a, length (contents a) = 512%nat) -> vmm_ok s lv ->
  0 <= pa < 2 ^ 52 -> fits 64 flags -> flags &&& PAGE_MASK = 0 -> 0 <= o < PAGE_SIZE ->
  vmm_map_page contents s va pa flags = Some (s', 0) ->
  vmm_query_page contents s' (va + o) = Some (s', 0, pa + o, flags ||| VMM_PRESENT).
Proof.
  intros Hcont Hok Hpa Hf Hm Ho Hmap. change (2 ^ 52) with 4503599627370496 in Hpa.
  assert (va mod PAGE_SIZE = 0 /\ pa mod PAGE_SIZE = 0) as [Hva Hpal].
  { unfold vmm_map_page in Hmap. rewrite !aligned_land, <- negb_andb in Hmap.
    destruct (Z.eqb_spec (va mod PAGE_SIZE) 0), (Z.eqb_spec (pa mod PAGE_SIZE) 0); try done; simpl in Hmap; congruence. }
  destruct (map_outcome contents Hcont s lv Hok va pa flags Hva Hpal ltac:(warith) Hf) as (s1 & r & lv' & H & Hok' & _ & _ & _ & Hr).
  rewrite Hmap in H. injection H as <- <-. destruct Hr as [(_ & (t & Ht) & Hleaf & _)|[? _]]; [|done].
  rewrite (query_present contents s' lv' Hok' (va + o) t) by (by apply reach_offset).
  rewrite leaf_offset, Hleaf by done. destruct (map_entry_fields pa flags Hpal) as [-> ->]; [done..|].
  do 4 f_equal. rewrite Z.add_mod, Hva, Z.add_0_l, Z.mod_mod, Z.mod_small by done.
  pose proof (Z.div_mod pa PAGE_SIZE ltac:(done)) as E. rewrite Hpal, Z.add_0_r, Z.mul_comm in E.
  rewrite E. change PAGE_SIZE with (2 ^ 12). rewrite <- Z.shiftl_mul_pow2 at 1 by lia. rewrite lor_shl' by (done || lia). lia.
Qed.

Lemma map_present contents s lv (Hok : vmm_ok s lv) va pa flags t :
  va mod PAGE_SIZE = 0 -> pa mod PAGE_SIZE = 0 -> reach s va 1 t -> fits 64 (map_entry pa flags) ->
  exists s', vmm_map_page contents s va pa flags = Some (s', 0).
Proof.
  intros Hva Hpa Hr Hf. unfold vmm_map_page. rewrite !aligned_land, Hva, Hpa. cbn [Z.eqb negb orb].
  rewrite (walk_present contents s lv va 1 t Hok Hr), bind_some. pose proof (reach_level s lv Hok _ _ _ Hr) as Ht.
  pose proof (index_range 1 va) as Hi. destruct (table_entry s lv Hok t 1 _ Ht Hi) as (e & He & _). rewrite He, bind_some.
  cbv zeta. fold (map_entry pa flags). destruct (has e VMM_PRESENT).
  - destruct (set_entry_spec s lv Hok t _ _ Ht Hi Hf) as (lt & _ & -> & _). by eexists.
  - destruct (set_entry_spec _ lv (with_count_ok s lv (u64 (mapped_page_count s + 1)) Hok) t _ _ Ht Hi Hf) as (lt & _ & -> & _).
    by eexists.
Qed.

Lemma boot_reach : reach boot 0x401000 1 20480.
Proof.
  apply (reach_step boot 0x401000 1 12288 20483); [|done|done].
  apply (reach_step boot 0x401000 2 8192 12291); [|done|done].
  apply (reach_step boot 0x401000 3 4096 8195); [|done|done]. exact (reach_root boot 0x401000).
Qed.

(** ** Claims *)

(** C16: [vmm_map_page].  Tables are allocated on the way, huge pages are split
    and the tree of tables stays well formed.  Addresses that are not those of
    pages are refused and change nothing.  On success the MMU finds the given
    frame and flags for the page, everything else is translated as before, and
    the counter grows exactly when the page was not mapped; the only other
    outcome is -1 with no physical page left and no translation changed. *)
Theorem vmm_map_page_correct contents s lv va pa flags :
  (forall a, length (contents a) = 512%nat) -> vmm_ok s lv -> fits 64 pa -> fits 64 flags ->
  exists s' r lv', vmm_map_page contents s va pa flags = Some (s', r) /\ vmm_ok s' lv' /\
    if (va mod PAGE_SIZE =? 0) && (pa mod PAGE_SIZE =? 0) then
      (r = 0 /\ leaf s' va = Some (map_entry pa flags) /\
       (forall address, page address <> page va -> leaf s' address = leaf s address) /\
       mapped_page_count s' = match leaf s va with
                              | Some _ => mapped_page_count s | None => u64 (mapped_page_count s + 1) end) \/
      (r = -1 /\ out_of_pages s s')
    else r = -1 /\ s' = s.
Proof.
  intros Hcont Hok Hp Hf. destruct ((va mod PAGE_SIZE =? 0) && (pa mod PAGE_SIZE =? 0)) eqn:G.
  - apply andb_true_iff in G as [Hva%Z.eqb_eq Hpa%Z.eqb_eq].
    destruct (map_outcome contents Hcont s lv Hok va pa flags Hva Hpa Hp Hf) as (s' & r & lv' & H & Hok' & _ & _ & _ & Hr).
    exists s', r, lv'. tauto.
  - exists s, (-1), lv. unfold vmm_map_page. by rewrite !aligned_land, <- negb_andb, G.
Qed.

Lemma zeros_length a : length ((fun _ : Z => replicate 512 0) a) = 512%nat.
Proof. done. Qed.

Lemma vmm_map_page_correct_witness :
  exists s' r lv', vmm_map_page (fun _ => replicate 512 0) boot 0x201000 0x9000 VMM_WRITABLE = Some (s', r) /\
    vmm_ok s' lv' /\
    ((r = 0 /\ leaf s' 0x201000 = Some (map_entry 0x9000 VMM_WRITABLE) /\
      (forall address, page address <> page 0x201000 -> leaf s' address = leaf boot address) /\
      mapped_page_count s' = match leaf boot 0x201000 with
                             | Some _ => mapped_page_count boot | None => u64 (mapped_page_count boot + 1) end) \/
     (r = -1 /\ out_of_pages boot s')).
Proof.
  exact (vmm_map_page_correct (fun _ => replicate 512 0) boot boot_levels 0x201000 0x9000 VMM_WRITABLE zeros_length boot_ok
    ltac:(warith) ltac:(split; by vm_compute)).
Defined.

(** [vmm_map_page] followed by [vmm_query_page].  Every address of the page
    is translated to the same offset of the frame, with the flags of the
    mapping and the present bit, and the query changes nothing. *)
Theorem vmm_map_query contents s lv va pa flags s' o :
  (forall a, length (contents a) = 512%nat) -> vmm_ok s lv ->
  0 <= pa < 2 ^ 52 -> fits 64 flags -> flags &&& PAGE_MASK = 0 -> 0 <= o < PAGE_SIZE ->
  vmm_map_page contents s va pa flags = Some (s', 0) ->
  vmm_query_page contents s' (va + o) = Some (s', 0, pa + o, flags ||| VMM_PRESENT).
Proof. apply map_query_outcome. Qed.

Lemma vmm_map_query_witness :
  exists s', vmm_map_page (fun _ => replicate 512 0) boot 0x401000 0x9000 VMM_WRITABLE = Some (s', 0) /\
    vmm_query_page (fun _ => replicate 512 0) s' (0x401000 + 0x10) = Some (s', 0, 0x9000 + 0x10, VMM_WRITABLE ||| VMM_PRESENT).
Proof.
  destruct (map_present (fun _ => replicate 512 0) boot boot_levels boot_ok 0x401000 0x9000 VMM_WRITABLE 20480) as (s' & H).
  - done.
  - done.
  - exact boot_reach.
  - split; by vm_compute.
  - exists s'. split; [exact H|].
    apply (vmm_map_query (fun _ => replicate 512 0) boot boot_levels 0x401000 0x9000 VMM_WRITABLE s' 0x10
      zeros_length boot_ok); [done|split; by vm_compute|done|done|exact H].
Defined.

(** C17: [vmm_unmap_page].  On success, and only for a page that is mapped, the
    page faults and everything else is translated as before; -1 is returned for
    an address that is not that of a page, for a page that is not mapped, or
    when a huge page cannot be split because no physical page is left, and then
    no translation changes. *)
Theorem vmm_unmap_page_correct contents s lv va :
  (forall a, length (contents a) = 512%nat) -> vmm_ok s lv ->
  exists s' r lv', vmm_unmap_page contents s va = Some (s', r) /\ vmm_ok s' lv' /\
    ((r = 0 /\ va mod PAGE_SIZE = 0 /\ leaf s va <> None /\ leaf s' va = None /\
      (forall address, page address <> page va -> leaf s' address = leaf s address) /\
      mapped_page_count s' = (if mapped_page_count s =? 0 then 0 else u64 (mapped_page_count s - 1))) \/
     (r = -1 /\ (va mod PAGE_SIZE <> 0 \/ leaf s va = None \/ no_free (frames s')) /\
      mapped_page_count s' = mapped_page_count s /\ forall address, leaf s' address = leaf s address)).
Proof.
  intros Hcont Hok. destruct (Z.eqb_spec (va mod PAGE_SIZE) 0) as [Hva|Hva].
  - destruct (unmap_outcome contents Hcont s lv Hok va Hva) as (s' & r & lv' & H & Hok' & _ & _ & _ & Hr).
    exists s', r, lv'. split; [done|]. split; [done|]. unfold out_of_pages in Hr. tauto.
  - exists s, (-1), lv. unfold vmm_unmap_page. rewrite aligned_land, (proj2 (Z.eqb_neq _ _) Hva). split; [done|].
    split; [done|]. right. tauto.
Qed.

Lemma vmm_unmap_page_correct_witness :
  exists s' r lv', vmm_unmap_page (fun _ => replicate 512 0) boot 0x1000 = Some (s', r) /\ vmm_ok s' lv' /\
    ((r = 0 /\ 0x1000 mod PAGE_SIZE = 0 /\ leaf boot 0x1000 <> None /\ leaf s' 0x1000 = None /\
      (forall address, page address <> page 0x1000 -> leaf s' address = leaf boot address) /\
      mapped_page_count s' = (if mapped_page_count boot =? 0 then 0 else u64 (mapped_page_count boot - 1))) \/
     (r = -1 /\ (0x1000 mod PAGE_SIZE <> 0 \/ leaf boot 0x1000 = None \/ no_free (frames s')) /\
      mapped_page_count s' = mapped_page_count boot /\ forall address, leaf s' address = leaf boot address)).
Proof. exact (vmm_unmap_page_correct (fun _ => replicate 512 0) boot boot_levels 0x1000 zeros_length boot_ok). Defined.

(** C18: [vmm_init].  When it succeeds, the null page faults; the code of the
    kernel is executable and not writable, its constants are neither, its data
    is writable and not executable, so that no page of the image is both; every
    other translation is kept.  It fails only when the null page is not mapped
    to begin with, or when no physical page is left for tables. *)
Theorem vmm_init_protects contents s lv identity_4g kernel_start text_end rodata_start rodata_end kernel_end :
  (forall a, length (contents a) = 512%nat) -> vmm_ok s lv ->
  linked kernel_start text_end rodata_start rodata_end kernel_end ->
  exists s' r lv', vmm_init contents s identity_4g kernel_start text_end rodata_start rodata_end kernel_end = Some (s', r) /\
    vmm_ok s' lv' /\
    ((r = 0 /\ protected s s' kernel_start rodata_start rodata_end kernel_end /\
      write_xor_execute s' kernel_start rodata_end kernel_end) \/
     (r = -1 /\ (leaf s 0 = None \/ no_free (frames s')))).
Proof.
  intros Hcont Hok Hl.
  destruct (vmm_init_outcome contents Hcont s lv Hok identity_4g _ _ _ _ _ Hl) as (s' & r & lv' & H & Hok' & _ & Hr).
  exists s', r, lv'. split; [done|]. split; [done|]. destruct Hr as [(-> & _ & Hp)|Hr]; [left|by right].
  split; [done|]. split; [done|]. by apply (protected_wx s s' kernel_start text_end rodata_start).
Qed.

Lemma vmm_init_protects_witness :
  exists s' r lv', vmm_init (fun _ => replicate 512 0) boot true 0x200000 0x203210 0x204000 0x205008 0x209000 = Some (s', r) /\
    vmm_ok s' lv' /\
    ((r = 0 /\ protected boot s' 0x200000 0x204000 0x205008 0x209000 /\
      write_xor_execute s' 0x200000 0x205008 0x209000) \/
     (r = -1 /\ (leaf boot 0 = None \/ no_free (frames s')))).
Proof.
  apply (vmm_init_protects (fun _ => replicate 512 0) boot boot_levels true 0x200000 0x203210 0x204000 0x205008 0x209000).
  - exact zeros_length.
  - exact boot_ok.
  - by split.
Defined.

(** [vmm_self_test].  The test passes unless the physical pages run out, and
    gives back the page it takes.  When it passes, the page at 1 GiB is not
    mapped any more, whether it was before or not: the identity mapping of that
    page is lost. *)
Theorem vmm_self_test_unmaps contents s lv :
  (forall a, length (contents a) = 512%nat) -> vmm_ok s lv ->
  exists s' r lv', vmm_self_test contents s = Some (s', r) /\ vmm_ok s' lv' /\
    (forall q, bit (page_bitmap (frames s)) q = true -> bit (page_bitmap (frames s')) q = true) /\
    ((r = 0 /\ leaf s' test_address = None /\ forall a, page a <> page test_address -> leaf s' a = leaf s a) \/
     (r = -1 /\ one_free (frames s') /\ forall a, leaf s' a = leaf s a)).
Proof. intros Hcont Hok. exact (self_test_outcome contents Hcont s lv Hok). Qed.

Lemma vmm_self_test_unmaps_witness :
  leaf boot test_address <> None /\
  exists s' r lv', vmm_self_test (fun _ => replicate 512 0) boot = Some (s', r) /\ vmm_ok s' lv' /\
    (forall q, bit (page_bitmap (frames boot)) q = true -> bit (page_bitmap (frames s')) q = true) /\
    ((r = 0 /\ leaf s' test_address = None /\ forall a, page a <> page test_address -> leaf s' a = leaf boot a) \/
     (r = -1 /\ one_free (frames s') /\ forall a, leaf s' a = leaf boot a)).
Proof.
  split.
  - by vm_compute.
  - exact (vmm_self_test_unmaps (fun _ => replicate 512 0) boot boot_levels zeros_length boot_ok).
Defined.
