(* ===== verification/Heap.v ===== *)
(** * The kernel heap: src/memory/heap.c

    The bytes of the heap's pages, and the pointers into them, are modelled as
    they are: block headers are read from and written to the same bytes as the
    payloads, so that a stray write can damage them.  Any access outside the
    heap's pages is a fault; the pages on both sides of them are not mapped.
    [kernel_panic] does not return: it is a result of its own. *)

From S2P Require Import Prelude Buffer Pmm Vmm.

#[local] Open Scope Z_scope.

Definition HEAP_PAGES : Z := 256.
Definition HEAP_GUARD_PAGES : Z := 2.
Definition HEAP_MAGIC : Z := 0x4D564848.
Definition HEAP_CANARY : Z := 0xC0DEFACEBADC0FFE.
Definition HEAP_POISON : Z := 0xDD.

(** [sizeof(heap_block_t)]: magic at 0, free at 4, size at 8, requested at 16,
    next at 24, previous at 32. *)
Definition sizeof_block : Z := 40.

Record heap := Heap {
  region : list Z;
  heap_first : Z;
  heap_allocation_base : Z;
  heap_used : Z;
  heap_allocations : Z;
  heap_failures : Z;
  heap_invalid_frees : Z;
}.

Definition with_region (h : heap) (b : list Z) : heap :=
  Heap b (heap_first h) (heap_allocation_base h) (heap_used h) (heap_allocations h) (heap_failures h) (heap_invalid_frees h).
Definition with_counts (h : heap) (used allocations : Z) : heap :=
  Heap (region h) (heap_first h) (heap_allocation_base h) used allocations (heap_failures h) (heap_invalid_frees h).
Definition with_failure (h : heap) : heap :=
  Heap (region h) (heap_first h) (heap_allocation_base h) (heap_used h) (heap_allocations h) (u64 (heap_failures h + 1))
    (heap_invalid_frees h).
Definition with_invalid_free (h : heap) : heap :=
  Heap (region h) (heap_first h) (heap_allocation_base h) (heap_used h) (heap_allocations h) (heap_failures h)
    (u64 (heap_invalid_frees h + 1)).

(** The bytes at an address. *)
Definition load8 (h : heap) (a : Z) : option Z := rd (region h) (a - heap_first h).
Definition load32 (h : heap) (a : Z) : option Z := get32 (region h) (a - heap_first h).
Definition load64 (h : heap) (a : Z) : option Z := get64 (region h) (a - heap_first h).
Definition store8 (h : heap) (a v : Z) : option heap :=
  b ← wr (region h) (a - heap_first h) v; Some (with_region h b).
Definition store32 (h : heap) (a v : Z) : option heap :=
  b ← put32 (region h) (a - heap_first h) v; Some (with_region h b).
Definition store64 (h : heap) (a v : Z) : option heap :=
  b ← put64 (region h) (a - heap_first h) v; Some (with_region h b).

(** The fields of [heap_block_t]. *)
Definition get_magic (h : heap) (block : Z) : option Z := load32 h block.
Definition get_free (h : heap) (block : Z) : option Z := load8 h (block + 4).
Definition get_size (h : heap) (block : Z) : option Z := load64 h (block + 8).
Definition get_requested (h : heap) (block : Z) : option Z := load64 h (block + 16).
Definition get_next (h : heap) (block : Z) : option Z := load64 h (block + 24).
Definition get_previous (h : heap) (block : Z) : option Z := load64 h (block + 32).
Definition set_magic (h : heap) (block v : Z) : option heap := store32 h block v.
Definition set_free (h : heap) (block v : Z) : option heap := store8 h (block + 4) v.
Definition set_size (h : heap) (block v : Z) : option heap := store64 h (block + 8) v.
Definition set_requested (h : heap) (block v : Z) : option heap := store64 h (block + 16) v.
Definition set_next (h : heap) (block v : Z) : option heap := store64 h (block + 24) v.
Definition set_previous (h : heap) (block v : Z) : option heap := store64 h (block + 32) v.

Definition block_canary (h : heap) (block : Z) : option Z :=
  size ← get_size h block; Some (u64 (u64 (block + sizeof_block + size) - 8)).

(** The mask [~15u] is that of a 32-bit integer. *)
Definition align16 (value : Z) : Z := u64 (value + 15) &&& compl 32 15.

(** The first block that is large enough: [inl] the block, [inr] whether the
    list came to its end or to a block without the magic number. *)
Definition MAX_BLOCKS : nat := Z.to_nat (HEAP_PAGES * PAGE_SIZE / sizeof_block + 2).

Definition find_step (h : heap) (size block : Z) : option (Z + (Z + bool)) :=
  if block =? 0 then Some (inr (inr true)) else
  magic ← get_magic h block;
  if negb (magic =? HEAP_MAGIC) then Some (inr (inr false)) else
  free ← get_free h block;
  bsize ← get_size h block;
  if negb (free =? 0) && (size <=? bsize) then Some (inr (inl block)) else
  next ← get_next h block; Some (inl next).

Definition find_fit (h : heap) (size : Z) : option (Z + bool) :=
  while_loop MAX_BLOCKS (find_step h size) (heap_first h).

(** The rest of a block that is much larger than the request is split off. *)
Definition split_block (h : heap) (block size : Z) : option heap :=
  bsize ← get_size h block;
  if u64 (u64 (size + sizeof_block) + 16) <=? bsize then
    let split := block + sizeof_block + size in
    h ← set_magic h split HEAP_MAGIC;
    h ← set_free h split 1;
    h ← set_size h split (u64 (u64 (bsize - size) - sizeof_block));
    h ← set_requested h split 0;
    next ← get_next h block;
    h ← set_next h split next;
    h ← set_previous h split block;
    next ← get_next h split;
    h ← (if negb (next =? 0) then set_previous h next split else Some h);
    h ← set_next h block split;
    set_size h block size
  else Some h.

Definition take_block (h : heap) (block size requested : Z) : option (heap * Z) :=
  h ← split_block h block size;
  h ← set_free h block 0;
  h ← set_requested h block requested;
  c ← block_canary h block;
  h ← store64 h c (HEAP_CANARY ^^^ block);
  bsize ← get_size h block;
  Some (with_counts h (u64 (heap_used h + bsize)) (u64 (heap_allocations h + 1)), block + sizeof_block).

Definition kmalloc_unlocked (h : heap) (size : Z) : option (heap * Z) :=
  let requested := size in
  if size =? 0 then Some (h, 0) else
  if U64_MAX - 8 - 15 <? size then Some (with_failure h, 0) else
  let size := align16 (u64 (size + 8)) in
  if (size =? 0) || (heap_first h =? 0) then Some (h, 0) else
  r ← find_fit h size;
  match r with
  | inl block => take_block h block size requested
  | inr true => Some (with_failure h, 0)
  | inr false => Some (h, 0)
  end.

(** A result or [kernel_panic]. *)
Definition or_panic (A : Type) : Type := (A + unit)%type.

(** [payload[index] = HEAP_POISON]; the size is read in every iteration. *)
Definition poison_step (block : Z) (st : heap * Z) : option (heap * Z + heap) :=
  let '(h, index) := st in
  size ← get_size h block;
  if index <? size then h ← store8 h (block + sizeof_block + index) HEAP_POISON; Some (inl (h, u64 (index + 1)))
  else Some (inr h).

Definition poison (h : heap) (block : Z) : option heap :=
  while_loop (Z.to_nat (HEAP_PAGES * PAGE_SIZE) + 1) (poison_step block) (h, 0).

Definition is_free_block (h : heap) (block : Z) : option bool :=
  if block =? 0 then Some false else
  free ← get_free h block;
  if free =? 0 then Some false else
  magic ← get_magic h block; Some (magic =? HEAP_MAGIC).

Definition merge_next (h : heap) (block : Z) : option heap :=
  next ← get_next h block;
  f ← is_free_block h next;
  if f : bool then
    size ← get_size h block;
    nsize ← get_size h next;
    h ← set_size h block (u64 (size + u64 (sizeof_block + nsize)));
    next ← get_next h block;
    nnext ← get_next h next;
    h ← set_next h block nnext;
    next ← get_next h block;
    if negb (next =? 0) then set_previous h next block else Some h
  else Some h.

Definition merge_previous (h : heap) (block : Z) : option heap :=
  previous ← get_previous h block;
  f ← is_free_block h previous;
  if f : bool then
    psize ← get_size h previous;
    size ← get_size h block;
    h ← set_size h previous (u64 (psize + u64 (sizeof_block + size)));
    previous ← get_previous h block;
    next ← get_next h block;
    h ← set_next h previous next;
    next ← get_next h block;
    if negb (next =? 0) then previous ← get_previous h block; set_previous h next previous else Some h
  else Some h.

(** The checks of a pointer that is given back: [inl true] for a block in use. *)
Definition check_block (h : heap) (block : Z) : option (or_panic bool) :=
  magic ← get_magic h block;
  if negb (magic =? HEAP_MAGIC) then Some (inl false) else
  free ← get_free h block;
  if negb (free =? 0) then Some (inl false) else
  c ← block_canary h block;
  v ← load64 h c;
  if negb (v =? HEAP_CANARY ^^^ block) then Some (inr tt) else Some (inl true).

Definition kfree_unlocked (h : heap) (address : Z) : option (or_panic heap) :=
  if address =? 0 then Some (inl h) else
  let block := address - sizeof_block in
  r ← check_block h block;
  match r with
  | inr tt => Some (inr tt)
  | inl false => Some (inl (with_invalid_free h))
  | inl true =>
    h ← set_free h block 1;
    h ← poison h block;
    h ← set_requested h block 0;
    size ← get_size h block;
    let h := with_counts h (u64 (heap_used h - size)) (u64 (heap_allocations h - 1)) in
    h ← merge_next h block;
    h ← merge_previous h block;
    Some (inl h)
  end.

Definition kmalloc (h : heap) (size : Z) : option (heap * Z) := kmalloc_unlocked h size.
Definition kfree (h : heap) (address : Z) : option (or_panic heap) := kfree_unlocked h address.

Definition heap_total_bytes : Z := HEAP_PAGES * 4096.
Definition heap_used_bytes (h : heap) : Z := heap_used h.
Definition heap_allocation_count (h : heap) : Z := heap_allocations h.

Definition clear_bytes (h : heap) (address total : Z) : option heap :=
  for_loop (Z.to_nat total) 0 (fun index h => store8 h (address + index) 0) h.

Definition kcalloc (h : heap) (count size : Z) : option (heap * Z) :=
  if (count =? 0) || (size =? 0) then Some (h, 0) else
  if U64_MAX / count <? size then Some (with_failure h, 0) else
  let total := u64 (count * size) in
  '(h, address) ← kmalloc h total;
  if address =? 0 then Some (h, 0) else
  h ← clear_bytes h address total;
  Some (h, address).

Definition copy_bytes (h : heap) (replacement source copy_size : Z) : option heap :=
  for_loop (Z.to_nat copy_size) 0 (fun index h => x ← load8 h (source + index); store8 h (replacement + index) x) h.

Definition krealloc (h : heap) (address size : Z) : option (or_panic (heap * Z)) :=
  if address =? 0 then r ← kmalloc h size; Some (inl r) else
  if size =? 0 then
    r ← kfree h address;
    Some (match r with inl h => inl (h, 0) | inr p => inr p end)
  else
  let block := address - sizeof_block in
  r ← check_block h block;
  match r with
  | inr tt => Some (inr tt)
  | inl false => Some (inl (with_invalid_free h, 0))
  | inl true =>
    requested ← get_requested h block;
    if size <=? requested then h ← set_requested h block size; Some (inl (h, address)) else
    '(h, replacement) ← kmalloc_unlocked h size;
    if replacement =? 0 then Some (inl (h, 0)) else
    copy_size ← get_requested h block;
    h ← copy_bytes h replacement address copy_size;
    r ← kfree_unlocked h address;
    Some (match r with inl h => inl (h, replacement) | inr p => inr p end)
  end.

Record heap_stats := HeapStats {
  st_total_bytes : Z; st_used_bytes : Z; st_free_bytes : Z; st_largest_free_block : Z;
  st_allocations : Z; st_allocation_failures : Z; st_invalid_frees : Z; st_blocks : Z; st_free_blocks : Z;
}.

Definition stats_step (h : heap) (st : Z * heap_stats) : option (Z * heap_stats + heap_stats) :=
  let '(block, stats) := st in
  if block =? 0 then Some (inr stats) else
  magic ← get_magic h block;
  if negb (magic =? HEAP_MAGIC) || negb (st_blocks stats <? 65536) then Some (inr stats) else
  free ← get_free h block;
  size ← get_size h block;
  next ← get_next h block;
  let '(HeapStats t u f l a af i b fb) := stats in
  Some (inl (next,
    if negb (free =? 0) then
      HeapStats t u (u64 (f + size)) (if l <? size then size else l) a af i (u32 (b + 1)) (u32 (fb + 1))
    else HeapStats t u f l a af i (u32 (b + 1)) fb)).

Definition heap_get_stats (h : heap) : option heap_stats :=
  while_loop (Z.to_nat 65536 + 1) (stats_step h)
    (heap_first h,
     HeapStats heap_total_bytes (heap_used h) 0 0 (heap_allocations h) (heap_failures h) (heap_invalid_frees h) 0 0).

Definition validate_step (h : heap) (heap_start heap_end : Z) (st : Z * Z * Z) : option (Z * Z * Z + Z) :=
  let '(block, previous, blocks) := st in
  if block =? 0 then Some (inr 0) else
  if (block <? heap_start) || (heap_end <? u64 (block + sizeof_block)) then Some (inr (-1)) else
  magic ← get_magic h block;
  prev ← get_previous h block;
  if negb (magic =? HEAP_MAGIC) || negb (prev =? previous) then Some (inr (-1)) else
  size ← get_size h block;
  let block_end := u64 (u64 (block + sizeof_block) + size) in
  if heap_end <? block_end then Some (inr (-1)) else
  let blocks := u32 (blocks + 1) in
  if 65536 <? blocks then Some (inr (-1)) else
  next ← get_next h block;
  if negb (next =? 0) && negb (next =? block_end) then Some (inr (-1)) else
  free ← get_free h block;
  bad ← (if free =? 0 then c ← block_canary h block; v ← load64 h c; Some (negb (v =? HEAP_CANARY ^^^ block))
         else Some false);
  if bad : bool then Some (inr (-1)) else Some (inl (next, block, blocks)).

Definition heap_validate (h : heap) : option Z :=
  let heap_start := heap_first h in
  let heap_end := u64 (heap_start + HEAP_PAGES * 4096) in
  while_loop (Z.to_nat 65536 + 2) (validate_step h heap_start heap_end) (heap_first h, 0, 0).

(** ** Self test *)

(** Sequencing of calls that may panic. *)
Definition pbind {A B} (m : option (or_panic A)) (k : A -> option (or_panic B)) : option (or_panic B) :=
  r ← m; match r with inl a => k a | inr p => Some (inr p) end.
Definition returns {A} (m : option A) : option (or_panic A) := a ← m; Some (inl a).
#[local] Notation "'let*' x ':=' m 'in' k" := (pbind m (fun x => k)) 
  (at level 200, x pattern, m at level 100, k at level 200).

Definition free_both (h : heap) (a b : Z) : option (or_panic (heap * Z)) :=
  let* h := kfree h a in let* h := kfree h b in Some (inl (h, -1)).

(** [for (index = 0; index < count; index++) if (p[index] != f(index)) fail] *)
Definition bytes_are (h : heap) (p count : Z) (f : Z -> Z) : option bool :=
  r ← for_break (Z.to_nat count) 0
        (fun index u => b ← load8 h (p + index); Some (if negb (b =? f index) then inr tt else inl u)) tt;
  Some (match r with inl _ => true | inr _ => false end).

Definition heap_self_test (h : heap) : option (or_panic (heap * Z)) :=
  let used_before := heap_used_bytes h in
  let allocations_before := heap_allocation_count h in
  let* (h, first) := returns (kmalloc h 64) in
  let* (h, second) := returns (kcalloc h 32 4) in
  if (first =? 0) || (second =? 0) then free_both h first second else
  let* zero := returns (bytes_are h second 128 (fun _ => 0)) in
  if negb zero then free_both h second first else
  let* h := returns (for_loop 64 0 (fun index h => store8 h (first + index) (u8 index)) h) in
  let* (h, resized) := krealloc h first 256 in
  if resized =? 0 then free_both h second first else
  let first := resized in
  let* same := returns (bytes_are h first 64 u8) in
  if negb same then free_both h second first else
  let* (h, resized) := krealloc h first 32 in
  let* (h, bad) := (if negb (resized =? first) then Some (inl (h, true)) else
                    let* (h, r) := returns (kcalloc h U64_MAX 2) in Some (inl (h, negb (r =? 0)))) in
  if bad : bool then free_both h second first else
  let* h := kfree h second in
  let* h := kfree h first in
  let* v := returns (heap_validate h) in
  Some (inl (h, if (v =? 0) && (heap_used_bytes h =? used_before) && (heap_allocation_count h =? allocations_before)
                then 0 else -1)).

(** ** Initialisation *)

Section init.
(** What new page tables and the pages of the heap hold. *)
Variable contents : Z -> list Z.
Variable bytes : Z -> list Z.

(** The condition under which the guard pages could not be unmapped. *)
Definition unmap_guards (s : vmm) (base first : Z) : option (vmm * bool) :=
  '(s, r) ← vmm_unmap_page contents s base;
  if negb (r =? 0) then Some (s, true) else
  '(s, r) ← vmm_unmap_page contents s (u64 (first + HEAP_PAGES * 4096)); Some (s, negb (r =? 0)).

Definition map_heap (s : vmm) (first : Z) : option (vmm + vmm) :=
  for_break (Z.to_nat HEAP_PAGES) 0
    (fun page s =>
       let address := u64 (first + page * 4096) in
       '(s, r) ← vmm_map_page contents s address address (VMM_WRITABLE ||| VMM_GLOBAL ||| VMM_NO_EXECUTE);
       Some (if negb (r =? 0) then inr s else inl s)) s.

Definition free_heap (s : vmm) (base : Z) : option vmm :=
  p ← pmm_free_pages (frames s) base (HEAP_PAGES + HEAP_GUARD_PAGES); Some (with_frames s p).

(** The one block that covers the heap. *)
Definition init_block (h : heap) (first : Z) : option heap :=
  h ← set_magic h first HEAP_MAGIC;
  h ← set_free h first 1;
  h ← set_size h first (u64 (HEAP_PAGES * 4096 - sizeof_block));
  h ← set_requested h first 0;
  h ← set_next h first 0;
  set_previous h first 0.

Definition heap_init (s : vmm) (h : heap) : option (vmm * heap * Z) :=
  '(p, base) ← pmm_alloc_pages (frames s) (HEAP_PAGES + HEAP_GUARD_PAGES);
  let s := with_frames s p in
  let at_base b first := Heap b first base (heap_used h) (heap_allocations h) (heap_failures h) (heap_invalid_frees h) in
  if base =? 0 then Some (s, at_base (region h) (heap_first h), -1) else
  let first := base + 4096 in
  '(s, bad) ← unmap_guards s base first;
  if bad : bool then s ← free_heap s base; Some (s, at_base [] 0, -1) else
  r ← map_heap s first;
  match r with
  | inr s => s ← free_heap s base; Some (s, at_base [] 0, -1)
  | inl s =>
    let h := at_base (bytes first) first in
    h ← init_block h first;
    Some (s, Heap (region h) (heap_first h) (heap_allocation_base h) 0 0 0 0, 0)
  end.
End init.
