(* ===== verification/HeapLayout.v ===== *)
(** * The layout of the heap

    Headers as bytes, their fields, and the bytes of a list of blocks. *)

From S2P Require Import Prelude Buffer Pmm Vmm Heap.

#[local] Open Scope Z_scope.

(** ** Numbers in the middle of a list *)

Lemma rd_middle (A l R : list Z) i : 0 <= i < Z.of_nat (length l) -> rd (A ++ l ++ R) (Z.of_nat (length A) + i) = rd l i.
Proof.
  intros Hi. unfold rd. destruct (Z.ltb_spec (Z.of_nat (length A) + i) 0), (Z.ltb_spec i 0); try lia.
  rewrite lookup_app_r by lia. rewrite lookup_app_l by lia. f_equal. lia.
Qed.

Lemma get32_middle A l R : length l = 4%nat -> get32 (A ++ l ++ R) (Z.of_nat (length A)) = get32 l 0.
Proof.
  intros Hl. unfold get32. rewrite <- (Z.add_0_r (Z.of_nat (length A))) at 1.
  by rewrite !(rd_middle A l R) by lia.
Qed.

Lemma get64_middle A l R : length l = 8%nat -> get64 (A ++ l ++ R) (Z.of_nat (length A)) = get64 l 0.
Proof.
  intros Hl. unfold get64, get32. rewrite <- !Z.add_assoc. cbn [Z.add Pos.add Pos.succ].
  rewrite <- (Z.add_0_r (Z.of_nat (length A))) at 1. by rewrite !(rd_middle A l R) by lia.
Qed.

Lemma get32_bytes A v R : get32 (A ++ le_bytes 4 v ++ R) (Z.of_nat (length A)) = Some (u32 v).
Proof.
  rewrite get32_middle by apply length_le_bytes. rewrite get32_spec; [|apply le_bytes_bytes|].
  - rewrite slice_all by (by rewrite length_le_bytes). by rewrite le_value_le_bytes.
  - unfold room. rewrite length_le_bytes. lia.
Qed.

Lemma get64_bytes A v R : get64 (A ++ le_bytes 8 v ++ R) (Z.of_nat (length A)) = Some (u64 v).
Proof.
  rewrite get64_middle by apply length_le_bytes. rewrite get64_spec; [|apply le_bytes_bytes|].
  - rewrite slice_all by (by rewrite length_le_bytes). by rewrite le_value_le_bytes.
  - unfold room. rewrite length_le_bytes. lia.
Qed.

Lemma put64_bytes A l R v :
  length l = 8%nat -> put64 (A ++ l ++ R) (Z.of_nat (length A)) v = Some (A ++ le_bytes 8 v ++ R).
Proof.
  intros Hl. rewrite put64_spec by (unfold room; rewrite !length_app; lia).
  by rewrite splice_middle by (rewrite ?length_le_bytes; done).
Qed.

Lemma put32_bytes A l R v :
  length l = 4%nat -> put32 (A ++ l ++ R) (Z.of_nat (length A)) v = Some (A ++ le_bytes 4 v ++ R).
Proof.
  intros Hl. rewrite put32_spec by (unfold room; rewrite !length_app; lia).
  by rewrite splice_middle by (rewrite ?length_le_bytes; done).
Qed.

Lemma wr_bytes (A : list Z) x R v : wr (A ++ [x] ++ R) (Z.of_nat (length A)) v = Some (A ++ [v] ++ R).
Proof.
  rewrite wr_splice by (unfold room; rewrite !length_app; cbn [length]; lia). by rewrite splice_middle.
Qed.

(** ** Headers *)

Record hdr := Hdr { hmagic : Z; hfree : Z; hres : list Z; hsize : Z; hreq : Z; hnext : Z; hprev : Z }.

Definition hbytes (d : hdr) : list Z :=
  le_bytes 4 (hmagic d) ++ [hfree d] ++ hres d ++ le_bytes 8 (hsize d) ++ le_bytes 8 (hreq d) ++
  le_bytes 8 (hnext d) ++ le_bytes 8 (hprev d).

Record hdr_ok (d : hdr) : Prop := {
  hdr_magic : fits 32 (hmagic d);
  hdr_res : length (hres d) = 3%nat;
  hdr_size : fits 64 (hsize d);
  hdr_req : fits 64 (hreq d);
  hdr_next : fits 64 (hnext d);
  hdr_prev : fits 64 (hprev d);
}.

Lemma length_hbytes d : length (hres d) = 3%nat -> length (hbytes d) = 40%nat.
Proof. intros Hr. unfold hbytes. rewrite !length_app, !length_le_bytes, Hr. done. Qed.

Lemma le_bytes_le_value l : all_bytes l -> le_bytes (length l) (le_value l) = l.
Proof.
  induction 1 as [|b l Hb Hl IH]; [done|]. cbn [length le_bytes le_value]. unfold fits in Hb.
  change (2 ^ 8) with 256 in Hb. rewrite Z.shiftr_div_pow2 by lia. change (2 ^ 8) with 256. f_equal.
  - unfold u8. change (2 ^ 8) with 256. rewrite Z.mul_comm, Z.mod_add by lia. apply Z.mod_small. lia.
  - rewrite Z.mul_comm, Z.div_add, Z.div_small, Z.add_0_l by lia. done.
Qed.

Lemma le_value_bytes n l : all_bytes l -> length l = n -> exists v, l = le_bytes n v /\ 0 <= v < 256 ^ Z.of_nat n.
Proof.
  intros Hb <-. exists (le_value l). split; [by rewrite le_bytes_le_value|by apply le_value_fits].
Qed.

Lemma split_front (n : nat) (l : list Z) :
  (n <= length l)%nat -> all_bytes l ->
  exists a b, l = a ++ b /\ length a = n /\ length b = (length l - n)%nat /\ all_bytes a /\ all_bytes b.
Proof.
  intros Hn Hb. exists (take n l), (drop n l). rewrite length_take, length_drop, take_drop.
  split_and!; [done|lia|lia|by apply Forall_take|by apply Forall_drop].
Qed.

(** Any forty bytes are those of a header. *)
Lemma hbytes_any l : length l = 40%nat -> all_bytes l -> exists d, l = hbytes d /\ hdr_ok d.
Proof.
  intros Hl Hb. destruct (split_front 4 l) as (m & l1 & -> & Hm & Hl1 & Bm & B1); [lia|done|].
  destruct (split_front 1 l1) as (f & l2 & -> & Hf & Hl2 & Bf & B2); [lia|done|].
  destruct (split_front 3 l2) as (r & l3 & -> & Hr & Hl3 & Br & B3); [lia|done|].
  destruct (split_front 8 l3) as (s & l4 & -> & Hs & Hl4 & Bs & B4); [lia|done|].
  destruct (split_front 8 l4) as (q & l5 & -> & Hq & Hl5 & Bq & B5); [lia|done|].
  destruct (split_front 8 l5) as (n & p & -> & Hn & Hp & Bn & Bp); [lia|done|].
  destruct f as [|x [|]]; try done.
  assert (length p = 8%nat) as Hp8 by (rewrite !length_app in *; lia).
  destruct (le_value_bytes 4 m Bm Hm) as (vm & -> & ?). destruct (le_value_bytes 8 s Bs Hs) as (vs & -> & ?).
  destruct (le_value_bytes 8 q Bq Hq) as (vq & -> & ?). destruct (le_value_bytes 8 n Bn Hn) as (vn & -> & ?).
  destruct (le_value_bytes 8 p Bp Hp8) as (vp & -> & ?).
  exists (Hdr vm x r vs vq vn vp). split; [done|]. by constructor.
Qed.

(** ** Reading and writing a field *)

(** A header at the address of a block, between the bytes before and after. *)
Definition at_block (h : heap) (A : list Z) (block : Z) : Prop := block = heap_first h + Z.of_nat (length A).

Section fields.
Context (h : heap) (A : list Z) (d : hdr) (R : list Z) (block : Z).
Context (Hat : at_block h A block) (Hd : hdr_ok d).
Notation here := (with_region h (A ++ hbytes d ++ R)).

(** The bytes of the header before a field, with those before the header. *)
Definition before_free : list Z := A ++ le_bytes 4 (hmagic d).
Definition before_size : list Z := before_free ++ [hfree d] ++ hres d.
Definition before_req : list Z := before_size ++ le_bytes 8 (hsize d).
Definition before_next : list Z := before_req ++ le_bytes 8 (hreq d).
Definition before_prev : list Z := before_next ++ le_bytes 8 (hnext d).

Lemma before_lengths :
  Z.of_nat (length before_free) = block - heap_first h + 4 /\ Z.of_nat (length before_size) = block - heap_first h + 8 /\
  Z.of_nat (length before_req) = block - heap_first h + 16 /\ Z.of_nat (length before_next) = block - heap_first h + 24 /\
  Z.of_nat (length before_prev) = block - heap_first h + 32.
Proof using Hat Hd.
  unfold at_block in Hat. unfold before_prev, before_next, before_req, before_size, before_free.
  rewrite !length_app, !length_le_bytes, (hdr_res d Hd). cbn [length]. lia.
Qed.

Lemma hbytes_magic : A ++ hbytes d ++ R = A ++ le_bytes 4 (hmagic d) ++ ([hfree d] ++
  hres d ++ le_bytes 8 (hsize d) ++ le_bytes 8 (hreq d) ++ le_bytes 8 (hnext d) ++ le_bytes 8 (hprev d) ++ R).
Proof. unfold hbytes. by rewrite <- !app_assoc. Qed.
Lemma hbytes_free : A ++ hbytes d ++ R = before_free ++ [hfree d] ++
  (hres d ++ le_bytes 8 (hsize d) ++ le_bytes 8 (hreq d) ++ le_bytes 8 (hnext d) ++ le_bytes 8 (hprev d) ++ R).
Proof. unfold hbytes, before_free. by rewrite <- !app_assoc. Qed.
Lemma hbytes_size : A ++ hbytes d ++ R = before_size ++ le_bytes 8 (hsize d) ++
  (le_bytes 8 (hreq d) ++ le_bytes 8 (hnext d) ++ le_bytes 8 (hprev d) ++ R).
Proof. unfold hbytes, before_size, before_free. by rewrite <- !app_assoc. Qed.
Lemma hbytes_req : A ++ hbytes d ++ R = before_req ++ le_bytes 8 (hreq d) ++
  (le_bytes 8 (hnext d) ++ le_bytes 8 (hprev d) ++ R).
Proof. unfold hbytes, before_req, before_size, before_free. by rewrite <- !app_assoc. Qed.
Lemma hbytes_next : A ++ hbytes d ++ R = before_next ++ le_bytes 8 (hnext d) ++ (le_bytes 8 (hprev d) ++ R).
Proof. unfold hbytes, before_next, before_req, before_size, before_free. by rewrite <- !app_assoc. Qed.
Lemma hbytes_prev : A ++ hbytes d ++ R = before_prev ++ le_bytes 8 (hprev d) ++ R.
Proof. unfold hbytes, before_prev, before_next, before_req, before_size, before_free. by rewrite <- !app_assoc. Qed.

Lemma get_magic_at : get_magic here block = Some (hmagic d).
Proof using Hat Hd.
  unfold get_magic, load32. cbn [region with_region heap_first]. rewrite hbytes_magic.
  replace (block - heap_first h) with (Z.of_nat (length A)) by (unfold at_block in Hat; lia).
  rewrite get32_bytes. f_equal. apply u32_small, Hd.
Qed.

Lemma get_free_at : get_free here block = Some (hfree d).
Proof using Hat Hd.
  unfold get_free, load8. cbn [region with_region heap_first]. rewrite hbytes_free.
  replace (block + 4 - heap_first h) with (Z.of_nat (length before_free) + 0) by (pose proof before_lengths; lia).
  by rewrite rd_middle by (cbn [length]; lia).
Qed.

Lemma get_size_at : get_size here block = Some (hsize d).
Proof using Hat Hd.
  unfold get_size, load64. cbn [region with_region heap_first]. rewrite hbytes_size.
  replace (block + 8 - heap_first h) with (Z.of_nat (length before_size)) by (pose proof before_lengths; lia).
  rewrite get64_bytes. f_equal. apply u64_small, Hd.
Qed.

Lemma get_requested_at : get_requested here block = Some (hreq d).
Proof using Hat Hd.
  unfold get_requested, load64. cbn [region with_region heap_first]. rewrite hbytes_req.
  replace (block + 16 - heap_first h) with (Z.of_nat (length before_req)) by (pose proof before_lengths; lia).
  rewrite get64_bytes. f_equal. apply u64_small, Hd.
Qed.

Lemma get_next_at : get_next here block = Some (hnext d).
Proof using Hat Hd.
  unfold get_next, load64. cbn [region with_region heap_first]. rewrite hbytes_next.
  replace (block + 24 - heap_first h) with (Z.of_nat (length before_next)) by (pose proof before_lengths; lia).
  rewrite get64_bytes. f_equal. apply u64_small, Hd.
Qed.

Lemma get_previous_at : get_previous here block = Some (hprev d).
Proof using Hat Hd.
  unfold get_previous, load64. cbn [region with_region heap_first]. rewrite hbytes_prev.
  replace (block + 32 - heap_first h) with (Z.of_nat (length before_prev)) by (pose proof before_lengths; lia).
  rewrite get64_bytes. f_equal. apply u64_small, Hd.
Qed.

Context (v : Z).

Ltac set_field :=
  unfold hbytes, before_prev, before_next, before_req, before_size, before_free, with_region;
  cbn [region heap_first heap_allocation_base heap_used heap_allocations heap_failures heap_invalid_frees
       hmagic hfree hres hsize hreq hnext hprev]; by rewrite <- !app_assoc.

Lemma set_magic_at :
  set_magic here block v =
    Some (with_region h (A ++ hbytes (Hdr v (hfree d) (hres d) (hsize d) (hreq d) (hnext d) (hprev d)) ++ R)).
Proof using Hat Hd.
  unfold set_magic, store32. cbn [region with_region heap_first]. rewrite hbytes_magic.
  replace (block - heap_first h) with (Z.of_nat (length A)) by (unfold at_block in Hat; lia).
  rewrite put32_bytes, bind_some by apply length_le_bytes. set_field.
Qed.

Lemma set_free_at :
  set_free here block v =
    Some (with_region h (A ++ hbytes (Hdr (hmagic d) v (hres d) (hsize d) (hreq d) (hnext d) (hprev d)) ++ R)).
Proof using Hat Hd.
  unfold set_free, store8. cbn [region with_region heap_first]. rewrite hbytes_free.
  replace (block + 4 - heap_first h) with (Z.of_nat (length before_free)) by (pose proof before_lengths; lia).
  rewrite wr_bytes, bind_some. set_field.
Qed.

Lemma set_size_at :
  set_size here block v =
    Some (with_region h (A ++ hbytes (Hdr (hmagic d) (hfree d) (hres d) v (hreq d) (hnext d) (hprev d)) ++ R)).
Proof using Hat Hd.
  unfold set_size, store64. cbn [region with_region heap_first]. rewrite hbytes_size.
  replace (block + 8 - heap_first h) with (Z.of_nat (length before_size)) by (pose proof before_lengths; lia).
  rewrite put64_bytes, bind_some by apply length_le_bytes. set_field.
Qed.

Lemma set_requested_at :
  set_requested here block v =
    Some (with_region h (A ++ hbytes (Hdr (hmagic d) (hfree d) (hres d) (hsize d) v (hnext d) (hprev d)) ++ R)).
Proof using Hat Hd.
  unfold set_requested, store64. cbn [region with_region heap_first]. rewrite hbytes_req.
  replace (block + 16 - heap_first h) with (Z.of_nat (length before_req)) by (pose proof before_lengths; lia).
  rewrite put64_bytes, bind_some by apply length_le_bytes. set_field.
Qed.

Lemma set_next_at :
  set_next here block v =
    Some (with_region h (A ++ hbytes (Hdr (hmagic d) (hfree d) (hres d) (hsize d) (hreq d) v (hprev d)) ++ R)).
Proof using Hat Hd.
  unfold set_next, store64. cbn [region with_region heap_first]. rewrite hbytes_next.
  replace (block + 24 - heap_first h) with (Z.of_nat (length before_next)) by (pose proof before_lengths; lia).
  rewrite put64_bytes, bind_some by apply length_le_bytes. set_field.
Qed.

Lemma set_previous_at :
  set_previous here block v =
    Some (with_region h (A ++ hbytes (Hdr (hmagic d) (hfree d) (hres d) (hsize d) (hreq d) (hnext d) v) ++ R)).
Proof using Hat Hd.
  unfold set_previous, store64. cbn [region with_region heap_first]. rewrite hbytes_prev.
  replace (block + 32 - heap_first h) with (Z.of_nat (length before_prev)) by (pose proof before_lengths; lia).
  rewrite put64_bytes, bind_some by apply length_le_bytes. set_field.
Qed.
End fields.

(** ** Lists of blocks *)

Record blk := Blk { bfree : bool; bres : list Z; breq : Z; bdata : list Z }.

Definition bsize (b : blk) : Z := Z.of_nat (length (bdata b)).
Definition span (b : blk) : Z := sizeof_block + bsize b.
Fixpoint spans (bs : list blk) : Z := match bs with [] => 0 | b :: bs => span b + spans bs end.

Definition header (b : blk) (next prev : Z) : hdr :=
  Hdr HEAP_MAGIC (if bfree b then 1 else 0) (bres b) (bsize b) (breq b) next prev.

Definition next_of (a fin : Z) (bs : list blk) : Z := match bs with [] => fin | _ => a end.

(** The bytes of blocks from address [a] on: [prev] is the block before them
    and [fin] the one after them, or 0. *)
Fixpoint render (a prev : Z) (bs : list blk) (fin : Z) : list Z :=
  match bs with
  | [] => []
  | b :: bs => hbytes (header b (next_of (a + span b) fin bs) prev) ++ bdata b ++ render (a + span b) a bs fin
  end.

(** The address of the last block, [prev] when there is none. *)
Fixpoint last_addr (a prev : Z) (bs : list blk) : Z :=
  match bs with [] => prev | b :: bs => last_addr (a + span b) a bs end.

Record blk_ok (b : blk) : Prop := {
  blk_res : length (bres b) = 3%nat /\ all_bytes (bres b);
  blk_req : fits 64 (breq b);
  blk_data : all_bytes (bdata b);
}.

Lemma spans_app l r : spans (l ++ r) = spans l + spans r.
Proof. induction l as [|b l IH]; simpl; [done|]. rewrite IH. lia. Qed.

Lemma span_pos b : sizeof_block <= span b.
Proof. unfold span, bsize. lia. Qed.

Lemma spans_pos bs : 0 <= spans bs.
Proof. induction bs as [|b bs IH]; simpl; [done|]. pose proof (span_pos b). unfold sizeof_block in *. lia. Qed.

Lemma length_render a prev bs fin : Forall blk_ok bs -> Z.of_nat (length (render a prev bs fin)) = spans bs.
Proof.
  intros Hok. revert a prev. induction Hok as [|b bs Hb _ IH]; intros a prev; [done|]. cbn [render spans].
  rewrite !length_app, length_hbytes by apply Hb. specialize (IH (a + span b) a). unfold span, sizeof_block, bsize in *. lia.
Qed.

Lemma render_app a prev l r fin :
  render a prev (l ++ r) fin =
    render a prev l (next_of (a + spans l) fin r) ++ render (a + spans l) (last_addr a prev l) r fin.
Proof.
  revert a prev. induction l as [|b l IH]; intros a prev; cbn [app render spans last_addr]; [by rewrite Z.add_0_r|].
  rewrite IH, <- !app_assoc. replace (a + span b + spans l) with (a + (span b + spans l)) by lia.
  do 2 f_equal. destruct l as [|c l]; cbn [app]; [|done]. cbn [spans]. rewrite Z.add_0_r. by destruct r.
Qed.

Definition here (h : heap) (bs : list blk) : heap := with_region h (render (heap_first h) 0 bs 0).

(** The address of a block that comes after [l]. *)
Definition addr (h : heap) (l : list blk) : Z := heap_first h + spans l.

Lemma zip h l b r :
  here h (l ++ b :: r) =
    with_region h (render (heap_first h) 0 l (addr h l) ++
      hbytes (header b (next_of (addr h l + span b) 0 r) (last_addr (heap_first h) 0 l)) ++
      (bdata b ++ render (addr h l + span b) (addr h l) r 0)).
Proof. unfold here. rewrite render_app. by cbn [render]. Qed.

(** The heap is in the address space. *)
Definition placed (h : heap) (bs : list blk) : Prop :=
  0 < heap_first h /\ heap_first h + spans bs < 2 ^ 64 /\ Forall blk_ok bs.

Lemma last_addr_range a prev l : 0 <= prev <= a -> 0 <= last_addr a prev l <= a + spans l.
Proof.
  revert a prev. induction l as [|b l IH]; intros a prev Hp; cbn [last_addr spans]; [lia|].
  pose proof (span_pos b). unfold sizeof_block in *. specialize (IH (a + span b) a). lia.
Qed.

Section at_zip.
Context (h : heap) (l : list blk) (b : blk) (r : list blk) (Hp : placed h (l ++ b :: r)).

Lemma placed_parts : Forall blk_ok l /\ blk_ok b /\ Forall blk_ok r /\ 0 < heap_first h /\
  addr h l + span b + spans r < 2 ^ 64 /\ heap_first h <= addr h l.
Proof using Hp.
  destruct Hp as (? & Hend & Hok). apply Forall_app in Hok as [? Hok]. apply Forall_cons in Hok as [? ?].
  rewrite spans_app in Hend. cbn [spans] in Hend. pose proof (spans_pos l). unfold addr. split_and!; (done || lia).
Qed.

Lemma zip_at : at_block h (render (heap_first h) 0 l (addr h l)) (addr h l).
Proof using Hp. unfold at_block. rewrite length_render by apply placed_parts. done. Qed.

Lemma zip_header_ok : hdr_ok (header b (next_of (addr h l + span b) 0 r) (last_addr (heap_first h) 0 l)).
Proof using Hp.
  destruct placed_parts as (Hl & [[Hr _] Hq Hd] & Hrest & Hf & Hend & Ha). pose proof (spans_pos r). pose proof (spans_pos l).
  pose proof (last_addr_range (heap_first h) 0 l). unfold addr in *.
  assert (0 <= bsize b /\ sizeof_block <= span b /\ bsize b <= span b) as (? & ? & ?) by (unfold span, bsize, sizeof_block; lia).
  unfold sizeof_block in *. constructor; cbn; try done.
  - unfold fits. lia.
  - destruct r; unfold fits; cbn; lia.
  - unfold fits. lia.
Qed.

(** Reading the fields of a block. *)
Lemma magic_zip : get_magic (here h (l ++ b :: r)) (addr h l) = Some HEAP_MAGIC.
Proof using Hp. rewrite zip. apply get_magic_at; [apply zip_at|apply zip_header_ok]. Qed.
Lemma free_zip : get_free (here h (l ++ b :: r)) (addr h l) = Some (if bfree b then 1 else 0).
Proof using Hp. rewrite zip. apply get_free_at; [apply zip_at|apply zip_header_ok]. Qed.
Lemma size_zip : get_size (here h (l ++ b :: r)) (addr h l) = Some (bsize b).
Proof using Hp. rewrite zip. apply get_size_at; [apply zip_at|apply zip_header_ok]. Qed.
Lemma requested_zip : get_requested (here h (l ++ b :: r)) (addr h l) = Some (breq b).
Proof using Hp. rewrite zip. apply get_requested_at; [apply zip_at|apply zip_header_ok]. Qed.
Lemma next_zip : get_next (here h (l ++ b :: r)) (addr h l) = Some (next_of (addr h l + span b) 0 r).
Proof using Hp. rewrite zip. apply get_next_at; [apply zip_at|apply zip_header_ok]. Qed.
Lemma previous_zip : get_previous (here h (l ++ b :: r)) (addr h l) = Some (last_addr (heap_first h) 0 l).
Proof using Hp. rewrite zip. apply get_previous_at; [apply zip_at|apply zip_header_ok]. Qed.
End at_zip.

(** ** Writing into a block *)

Definition with_free (b : blk) (f : bool) : blk := Blk f (bres b) (breq b) (bdata b).
Definition with_req (b : blk) (q : Z) : blk := Blk (bfree b) (bres b) q (bdata b).
Definition with_data (b : blk) (d : list Z) : blk := Blk (bfree b) (bres b) (breq b) d.

Lemma tail_split (d : list Z) : (8 <= length d)%nat -> exists d1 d2, d = d1 ++ d2 /\ length d2 = 8%nat.
Proof. intros Hd. exists (take (length d - 8) d), (drop (length d - 8) d). rewrite take_drop, length_drop. split; [done|lia]. Qed.

Section writes.
Context (h : heap) (l : list blk) (b : blk) (r : list blk) (Hp : placed h (l ++ b :: r)).

Lemma set_free_zip (f : bool) :
  set_free (here h (l ++ b :: r)) (addr h l) (if f then 1 else 0) = Some (here h (l ++ with_free b f :: r)).
Proof using Hp. rewrite !zip. apply set_free_at; [by apply (zip_at h l b r)|by apply zip_header_ok]. Qed.

Lemma set_requested_zip q :
  set_requested (here h (l ++ b :: r)) (addr h l) q = Some (here h (l ++ with_req b q :: r)).
Proof using Hp. rewrite !zip. apply set_requested_at; [by apply (zip_at h l b r)|by apply zip_header_ok]. Qed.

(** The payload between what is before and after it. *)
Definition data_before : list Z :=
  render (heap_first h) 0 l (addr h l) ++ hbytes (header b (next_of (addr h l + span b) 0 r) (last_addr (heap_first h) 0 l)).
Definition data_after : list Z := render (addr h l + span b) (addr h l) r 0.

Lemma data_zip : here h (l ++ b :: r) = with_region h (data_before ++ bdata b ++ data_after).
Proof using Type. rewrite zip. unfold data_before. by rewrite <- app_assoc. Qed.

Lemma data_at : addr h l + sizeof_block = heap_first h + Z.of_nat (length data_before).
Proof using Hp.
  unfold data_before. rewrite length_app, length_hbytes by apply (placed_parts h l b r Hp).
  pose proof (zip_at h l b r Hp) as H. unfold at_block in H. unfold sizeof_block. lia.
Qed.

Lemma with_data_zip d :
  length d = length (bdata b) -> here h (l ++ with_data b d :: r) = with_region h (data_before ++ d ++ data_after).
Proof using Type.
  intros Hd. rewrite zip. unfold data_before, data_after, header, span, bsize, with_data. cbn [bdata bfree bres breq].
  rewrite Hd. by rewrite <- app_assoc.
Qed.

Lemma load8_zip i :
  0 <= i < bsize b -> load8 (here h (l ++ b :: r)) (addr h l + sizeof_block + i) = rd (bdata b) i.
Proof using Hp.
  intros Hi. rewrite data_zip. unfold load8. cbn [region with_region heap_first].
  replace (addr h l + sizeof_block + i - heap_first h) with (Z.of_nat (length data_before) + i) by (pose proof data_at; lia).
  by apply rd_middle.
Qed.

Lemma store8_zip i v :
  0 <= i < bsize b ->
  store8 (here h (l ++ b :: r)) (addr h l + sizeof_block + i) v =
    Some (here h (l ++ with_data b (<[Z.to_nat i := v]> (bdata b)) :: r)).
Proof using Hp.
  intros Hi. unfold bsize in Hi. rewrite with_data_zip by apply length_insert. rewrite data_zip. unfold store8.
  cbn [region with_region heap_first].
  replace (addr h l + sizeof_block + i - heap_first h) with (Z.of_nat (length data_before) + i) by (pose proof data_at; lia).
  rewrite wr_ok by (rewrite !length_app; lia). rewrite bind_some. unfold with_region. simpl. do 2 f_equal.
  replace (Z.to_nat (Z.of_nat (length data_before) + i)) with (length data_before + Z.to_nat i)%nat by lia.
  rewrite insert_app_r_alt by lia. f_equal. replace (length data_before + Z.to_nat i - length data_before)%nat with (Z.to_nat i) by lia.
  by rewrite insert_app_l by lia.
Qed.

(** The last eight bytes of the payload. *)
Lemma canary_zip : 8 <= bsize b -> block_canary (here h (l ++ b :: r)) (addr h l) = Some (addr h l + sizeof_block + bsize b - 8).
Proof using Hp.
  intros Hb. unfold block_canary. rewrite size_zip, bind_some by done.
  destruct (placed_parts h l b r Hp) as (_ & _ & _ & Hf & Hend & Ha). pose proof (spans_pos r).
  unfold span, sizeof_block in *. rewrite (u64_small (addr h l + 40 + bsize b)), u64_small by (unfold fits; lia). done.
Qed.

Lemma load64_zip d v :
  bdata b = d ++ le_bytes 8 v -> fits 64 v ->
  load64 (here h (l ++ b :: r)) (addr h l + sizeof_block + bsize b - 8) = Some v.
Proof using Hp.
  intros Hd Hv. rewrite data_zip, Hd. unfold load64, bsize. cbn [region with_region heap_first]. rewrite Hd, length_app, length_le_bytes.
  replace (addr h l + sizeof_block + Z.of_nat (length d + 8) - 8 - heap_first h) with (Z.of_nat (length (data_before ++ d)))
    by (rewrite length_app; pose proof data_at; lia).
  rewrite <- app_assoc, app_assoc, get64_bytes. by rewrite u64_small.
Qed.

Lemma store64_zip d1 d2 v :
  bdata b = d1 ++ d2 -> length d2 = 8%nat ->
  store64 (here h (l ++ b :: r)) (addr h l + sizeof_block + bsize b - 8) v =
    Some (here h (l ++ with_data b (d1 ++ le_bytes 8 v) :: r)).
Proof using Hp.
  intros Hd H2. rewrite with_data_zip by (by rewrite Hd, !length_app, length_le_bytes, H2). rewrite data_zip, Hd.
  unfold store64, bsize. cbn [region with_region heap_first]. rewrite Hd, length_app, H2.
  replace (addr h l + sizeof_block + Z.of_nat (length d1 + 8) - 8 - heap_first h) with (Z.of_nat (length (data_before ++ d1)))
    by (rewrite length_app; pose proof data_at; lia).
  rewrite <- !app_assoc, (app_assoc data_before d1), put64_bytes, bind_some by done. unfold with_region. simpl.
  by rewrite <- !app_assoc.
Qed.
End writes.

(** The first of the blocks from [a] on is told what is before it. *)
Lemma set_prev_head h A a prev prev' bs fin :
  at_block h A a -> bs <> [] -> Forall blk_ok bs -> fits 64 prev -> fits 64 fin -> 0 <= a -> a + spans bs < 2 ^ 64 ->
  set_previous (with_region h (A ++ render a prev bs fin)) a prev' = Some (with_region h (A ++ render a prev' bs fin)).
Proof.
  intros Hat Hne Hok Hprev Hfin H0 Hend. destruct bs as [|b bs]; [done|]. apply Forall_cons in Hok as [[[Hres _] Hreq _] Hok].
  cbn [render spans] in *. apply (set_previous_at h A (header b (next_of (a + span b) fin bs) prev)); [done|].
  pose proof (spans_pos bs). assert (0 <= bsize b <= span b) by (unfold span, bsize, sizeof_block; lia).
  constructor; cbn; try done; [unfold fits; lia|]. destruct bs; cbn; [done|unfold fits; lia].
Qed.
