(* ===== verification/HeapBlocks.v ===== *)
(** * The steps of the heap on lists of blocks

    Searching, splitting, claiming, poisoning and merging blocks: each step
    takes the bytes of one list of blocks to those of another. *)

From S2P Require Import Prelude Buffer Pmm Vmm Heap HeapLayout.

#[local] Open Scope Z_scope.

Lemma hbytes_bytes d : 0 <= hfree d < 256 -> all_bytes (hres d) -> all_bytes (hbytes d).
Proof.
  intros Hf Hr. unfold hbytes, all_bytes. rewrite !Forall_app. split_and!; try apply le_bytes_bytes; [|done].
  apply Forall_singleton. by unfold fits; change (2 ^ 8) with 256.
Qed.

Lemma next_of_zero a bs : 0 < a -> (next_of a 0 bs =? 0) = match bs with [] => true | _ => false end.
Proof. intros Ha. destruct bs; simpl; [done|]. apply Z.eqb_neq. lia. Qed.

(** ** Searching *)

Definition fits_in (size : Z) (b : blk) : bool := bfree b && (size <=? bsize b).

Lemma find_step_zip h l b r size :
  placed h (l ++ b :: r) ->
  find_step (here h (l ++ b :: r)) size (addr h l) =
    Some (if fits_in size b then inr (inl (addr h l)) else inl (next_of (addr h l + span b) 0 r)).
Proof.
  intros Hp. destruct (placed_parts h l b r Hp) as (_ & _ & _ & Hf & _ & Ha). unfold find_step.
  rewrite (proj2 (Z.eqb_neq _ 0)), magic_zip, bind_some, Z.eqb_refl, free_zip, bind_some, size_zip, bind_some by (done || lia).
  cbn [negb]. replace (negb ((if bfree b then 1 else 0) =? 0)) with (bfree b) by (by destruct (bfree b)).
  unfold fits_in. destruct (bfree b && (size <=? bsize b)); [done|]. by rewrite next_zip by done.
Qed.

Section search.
Context (h : heap) (bs : list blk) (Hp : placed h bs) (size : Z).

Lemma find_loop r l fuel :
  bs = l ++ r -> (length r < fuel)%nat -> Forall (fun b => fits_in size b = false) l ->
  exists x, while_loop fuel (find_step (here h bs) size) (next_of (addr h l) 0 r) = Some x /\
    match x with
    | inl block => exists l' b r', bs = l' ++ b :: r' /\ block = addr h l' /\ fits_in size b = true /\
        Forall (fun b => fits_in size b = false) l'
    | inr e => e = true /\ Forall (fun b => fits_in size b = false) bs
    end.
Proof.
  revert l fuel. induction r as [|b r IH]; intros l fuel E Hlen Hl; destruct fuel as [|fuel]; cbn [length] in *; try lia;
    rewrite while_loop_S.
  - exists (inr true). split; [done|]. split; [done|]. by rewrite E, app_nil_r.
  - assert (placed h (l ++ b :: r)) as Hp' by (by rewrite <- E).
    rewrite E. cbn [next_of]. rewrite find_step_zip, bind_some by done. rewrite <- E. destruct (fits_in size b) eqn:Hfit.
    + eexists. split; [done|]. by exists l, b, r.
    + replace (addr h l + span b) with (addr h (l ++ [b])) by (unfold addr; rewrite spans_app; simpl; lia).
      apply IH; [by rewrite <- app_assoc|lia|]. apply Forall_app. split; [done|]. by apply Forall_singleton.
Qed.
End search.

(** The size of the heap bounds the number of blocks. *)
Lemma blocks_bound bs : 40 * Z.of_nat (length bs) <= spans bs.
Proof. induction bs as [|b bs IH]; cbn [length spans]; [lia|]. pose proof (span_pos b). unfold sizeof_block in *. lia. Qed.

Lemma find_fit_spec h bs size :
  placed h bs -> bs <> [] -> spans bs = heap_total_bytes ->
  exists x, find_fit (here h bs) size = Some x /\
    match x with
    | inl block => exists l b r, bs = l ++ b :: r /\ block = addr h l /\ fits_in size b = true /\
        Forall (fun b => fits_in size b = false) l
    | inr e => e = true /\ Forall (fun b => fits_in size b = false) bs
    end.
Proof.
  intros Hp Hne Hs. unfold find_fit. destruct (find_loop h bs Hp size bs [] MAX_BLOCKS) as (x & Hx & H); [done| |done|].
  - pose proof (blocks_bound bs) as Hb. rewrite Hs in Hb. unfold MAX_BLOCKS. change (heap_total_bytes) with 1048576 in Hb.
    change (HEAP_PAGES * PAGE_SIZE / sizeof_block + 2) with 26216. lia.
  - exists x. split; [|done]. rewrite <- Hx. destruct bs; [done|]. cbn [next_of]. unfold addr. cbn [spans]. by rewrite Z.add_0_r.
Qed.

(** ** Splitting *)

Lemma data_split (d : list Z) n :
  all_bytes d -> 0 <= n -> n + 40 <= Z.of_nat (length d) ->
  exists p1 x p2, d = p1 ++ hbytes x ++ p2 /\ Z.of_nat (length p1) = n /\ hdr_ok x /\ all_bytes p1 /\ all_bytes p2 /\
    all_bytes (hres x).
Proof.
  intros Hb Hn Hl. destruct (split_front (Z.to_nat n) d) as (p1 & r & -> & H1 & Hr & B1 & Br); [lia|done|].
  rewrite length_app in *. destruct (split_front 40 r) as (x & p2 & -> & Hx & _ & Bx & B2); [lia|done|].
  destruct (hbytes_any x Hx Bx) as (y & -> & Hy). exists p1, y, p2. split_and!; try done; [lia|].
  unfold hbytes, all_bytes in Bx. rewrite !Forall_app in Bx. tauto.
Qed.

Section splitting.
Context (h : heap) (l : list blk) (b : blk) (r : list blk) (Hp : placed h (l ++ b :: r)).
Context (size : Z) (Hsize : 0 <= size) (Hroom : size + sizeof_block + 16 <= bsize b).

Lemma split_block_spec :
  exists p1 res p2, bsize b = Z.of_nat (length p1) + sizeof_block + Z.of_nat (length p2) /\
    Z.of_nat (length p1) = size /\ all_bytes p1 /\ all_bytes p2 /\ length res = 3%nat /\ all_bytes res /\
    split_block (here h (l ++ b :: r)) (addr h l) size =
      Some (here h (l ++ with_data b p1 :: Blk true res 0 p2 :: r)).
Proof.
  pose proof (placed_parts h l b r Hp) as (Hl & Hb & Hr & Hf & Hend & Ha).
  pose proof (zip_header_ok h l b r Hp) as Hhd. pose proof (zip_at h l b r Hp) as Hat.
  destruct (data_split (bdata b) size) as (p1 & x & p2 & Ed & H1 & Hx & B1 & B2 & Bres);
    [apply Hb|done|unfold bsize, sizeof_block in *; lia|].
  exists p1, (hres x), p2. assert (length (hbytes x) = 40%nat) as Hx40 by (apply length_hbytes, Hx).
  assert (bsize b = size + sizeof_block + Z.of_nat (length p2)) as Ebs
    by (unfold bsize, sizeof_block; rewrite Ed, !length_app, Hx40; lia).
  split; [by rewrite H1|]. split; [done|]. split; [done|]. split; [done|]. split; [apply Hx|]. split; [done|].
  pose proof (spans_pos r). assert (bsize b <= span b) by (unfold span, sizeof_block; lia).
  assert (span b = bsize b + 40) as Esp by (unfold span, sizeof_block; lia). unfold sizeof_block in Hroom, Ebs.
  unfold split_block. rewrite size_zip, bind_some by done. unfold sizeof_block.
  rewrite (u64_small (size + 40)), u64_small by (unfold fits; lia). replace (size + 40 + 16 <=? bsize b) with true by lia.
  rewrite (u64_small (bsize b - size)), u64_small by (unfold fits; lia).
  rewrite zip, Ed. set (A := render (heap_first h) 0 l (addr h l)) in *. set (HD := header b _ _) in *.
  set (nx := next_of (addr h l + span b) 0 r) in *. set (pv := last_addr (heap_first h) 0 l) in *.
  set (R := render (addr h l + span b) (addr h l) r 0).
  assert (view : forall B' x' R', A ++ hbytes B' ++ (p1 ++ hbytes x' ++ p2) ++ R' =
    (A ++ hbytes B' ++ p1) ++ hbytes x' ++ (p2 ++ R')) by (intros; by rewrite <- !app_assoc).
  rewrite view. set (sp := addr h l + 40 + size).
  assert (Hsp : forall B', length (hres B') = 3%nat -> at_block h (A ++ hbytes B' ++ p1) sp).
  { intros B' HB'. unfold at_block in *. rewrite !length_app, length_hbytes by done. unfold sp. lia. }
  assert (at_block h (A ++ hbytes HD ++ p1) sp) as HspH by (apply Hsp, Hhd).
  assert (fits 64 nx) as Hnx by apply Hhd.
  assert (Hx1 : hdr_ok (Hdr HEAP_MAGIC 1 (hres x) (bsize b - size - 40) 0 nx (addr h l))).
  { constructor; cbn; try done; [apply Hx|unfold fits; lia..]. }
  assert (Hx0 : forall m f s q n p, fits 32 m -> fits 64 s -> fits 64 q -> fits 64 n -> fits 64 p -> hdr_ok (Hdr m f (hres x) s q n p))
    by (intros; constructor; cbn; try done; apply Hx).
  pose proof (hdr_size _ Hx1) as Fs. cbn in Fs.
  rewrite set_magic_at, bind_some by done. cbn [hmagic hfree hres hsize hreq hnext hprev].
  rewrite set_free_at, bind_some by (try done; by apply Hx0; try done; apply Hx). cbn [hmagic hfree hres hsize hreq hnext hprev].
  rewrite set_size_at, bind_some by (try done; by apply Hx0; try done; apply Hx). cbn [hmagic hfree hres hsize hreq hnext hprev].
  rewrite set_requested_at, bind_some by (try done; by apply Hx0; try done; apply Hx). cbn [hmagic hfree hres hsize hreq hnext hprev].
  assert (Gn : forall x' R', get_next (with_region h ((A ++ hbytes HD ++ p1) ++ hbytes x' ++ p2 ++ R')) (addr h l) = Some nx)
    by (intros; rewrite <- view; by apply get_next_at).
  rewrite Gn, bind_some, set_next_at, bind_some by (try done; by apply Hx0; try done; apply Hx).
  cbn [hmagic hfree hres hsize hreq hnext hprev].
  rewrite set_previous_at, bind_some by (try done; by apply Hx0; try done; apply Hx). cbn [hmagic hfree hres hsize hreq hnext hprev].
  rewrite get_next_at, bind_some by done. cbn [hnext]. set (x1 := Hdr _ 1 _ _ _ _ _) in *.
  assert ((if negb (nx =? 0) then set_previous (with_region h ((A ++ hbytes HD ++ p1) ++ hbytes x1 ++ p2 ++ R)) nx sp
           else Some (with_region h ((A ++ hbytes HD ++ p1) ++ hbytes x1 ++ p2 ++ R))) =
    Some (with_region h ((A ++ hbytes HD ++ p1) ++ hbytes x1 ++ p2 ++ render (addr h l + span b) sp r 0))) as ->.
  { unfold nx, R. destruct r as [|c r']; [done|]. cbn [next_of]. rewrite (proj2 (Z.eqb_neq _ _)) by lia. cbn [negb].
    assert (regroup : forall t', (A ++ hbytes HD ++ p1) ++ hbytes x1 ++ p2 ++ t' = (A ++ hbytes HD ++ p1 ++ hbytes x1 ++ p2) ++ t')
      by (intros; by rewrite <- !app_assoc).
    rewrite !regroup. apply set_prev_head; try done; try (unfold fits; lia).
    unfold at_block in *. rewrite !length_app, !length_hbytes by (apply Hhd || apply Hx). lia. }
  rewrite bind_some, <- view, set_next_at, bind_some by done. rewrite set_size_at by (try done; destruct Hhd; constructor; try done; cbn; unfold sp, fits; lia).
  f_equal. rewrite zip. cbn [render next_of]. unfold with_data at 1. cbn [bdata].
  assert (span (with_data b p1) = 40 + size) as -> by (unfold span, bsize, with_data, sizeof_block; cbn [bdata]; lia).
  fold A. replace (addr h l + (40 + size)) with sp by (unfold sp; lia).
  assert (sp + span (Blk true (hres x) 0 p2) = addr h l + span b) as ->
    by (unfold sp, span, bsize, sizeof_block in *; cbn [bdata] in *; lia).
  fold pv. unfold HD, header, with_data. cbn [hmagic hfree hres hsize hreq hnext hprev bfree bres breq bdata].
  replace (bsize (Blk (bfree b) (bres b) (breq b) p1)) with size by (unfold bsize; cbn [bdata]; lia).
  replace (bsize (Blk true (hres x) 0 p2)) with (bsize b - size - 40) by (unfold bsize at 2; cbn [bdata]; lia).
  fold nx. unfold x1. by rewrite <- !app_assoc.
Qed.
End splitting.

(** ** Claiming *)

Definition canary (a : Z) : Z := HEAP_CANARY ^^^ a.

Lemma canary_fits a : fits 64 a -> fits 64 (canary a).
Proof. intros Ha. unfold canary. apply lxor_fits; [lia|split; by vm_compute|done]. Qed.

(** A block in use at address [a]: its payload ends with the canary. *)
Definition guarded (a : Z) (b : blk) : Prop := exists d, bdata b = d ++ le_bytes 8 (canary a).

Lemma claim_spec h l b r q :
  placed h (l ++ b :: r) -> 8 <= bsize b -> fits 64 q ->
  exists b', bfree b' = false /\ breq b' = q /\ bsize b' = bsize b /\ guarded (addr h l) b' /\ blk_ok b' /\
    (h1 ← set_free (here h (l ++ b :: r)) (addr h l) 0;
     h1 ← set_requested h1 (addr h l) q;
     c ← block_canary h1 (addr h l);
     store64 h1 c (HEAP_CANARY ^^^ addr h l)) = Some (here h (l ++ b' :: r)).
Proof.
  intros Hp Hb Hq. destruct (tail_split (bdata b)) as (d1 & d2 & Ed & H2); [unfold bsize in Hb; lia|].
  pose proof (placed_parts h l b r Hp) as (Hl & [[Hr1 Hr2] Hreq Hd] & Hr & Hf & Hend & Ha).
  assert (all_bytes d1) as Hd1 by (rewrite Ed in Hd; by apply Forall_app in Hd as [? _]).
  assert (Hp' : forall f q', fits 64 q' -> placed h (l ++ Blk f (bres b) q' (bdata b) :: r)).
  { intros f q' Hq'. destruct Hp as (? & Hs & Hok). split; [done|]. split.
    - rewrite spans_app in *. cbn [spans] in *. done.
    - rewrite Forall_app, Forall_cons in *. split; [done|]. split; [|done]. by constructor. }
  exists (Blk false (bres b) q (d1 ++ le_bytes 8 (canary (addr h l)))). split; [done|]. split; [done|].
  split; [unfold bsize; cbn [bdata]; by rewrite Ed, !length_app, length_le_bytes, H2|]. split; [by exists d1|].
  split; [constructor; [done|done|apply Forall_app; split; [done|apply le_bytes_bytes]]|].
  rewrite (set_free_zip h l b r Hp false), bind_some. rewrite set_requested_zip, bind_some by (apply Hp'; done).
  unfold with_req, with_free. cbn [bfree bres breq bdata].
  rewrite canary_zip, bind_some by (try apply Hp'; done).
  rewrite (store64_zip h l _ r (Hp' false q Hq) d1 d2) by done. done.
Qed.

Lemma placed_ext h l bs bs' :
  placed h (l ++ bs) -> spans bs' = spans bs -> Forall blk_ok bs' -> placed h (l ++ bs').
Proof.
  intros (? & Hs & Hok) E Hok'. split; [done|]. rewrite spans_app in *. rewrite E. split; [done|].
  apply Forall_app in Hok as [? _]. by apply Forall_app.
Qed.

Lemma take_block_spec h l b r size q :
  placed h (l ++ b :: r) -> bsize b <= heap_total_bytes -> 16 <= size -> size <= bsize b -> fits 64 q ->
  exists b' rest, bfree b' = false /\ breq b' = q /\ size <= bsize b' /\ guarded (addr h l) b' /\
    spans (b' :: rest) = spans (b :: r) /\ Forall blk_ok (b' :: rest) /\
    (rest = r \/ exists c, rest = c :: r /\ bfree c = true) /\
    take_block (here h (l ++ b :: r)) (addr h l) size q =
      Some (here (with_counts h (u64 (heap_used h + bsize b')) (u64 (heap_allocations h + 1))) (l ++ b' :: rest),
            addr h l + sizeof_block).
Proof.
  intros Hp Hmax Hs Hb Hq. change heap_total_bytes with 1048576 in Hmax.
  pose proof (placed_parts h l b r Hp) as (Hl & Hbok & Hr & Hf & Hend & Ha). pose proof (spans_pos r).
  assert (Hfin : forall b0 rest0, placed h (l ++ b0 :: rest0) -> size <= bsize b0 ->
    split_block (here h (l ++ b :: r)) (addr h l) size = Some (here h (l ++ b0 :: rest0)) ->
    exists b', bfree b' = false /\ breq b' = q /\ bsize b' = bsize b0 /\ guarded (addr h l) b' /\ blk_ok b' /\
      take_block (here h (l ++ b :: r)) (addr h l) size q =
        Some (here (with_counts h (u64 (heap_used h + bsize b')) (u64 (heap_allocations h + 1))) (l ++ b' :: rest0),
              addr h l + sizeof_block)).
  { intros b0 rest0 Hp0 Hb0 Hsplit. destruct (claim_spec h l b0 rest0 q Hp0) as (b' & Hf' & Hq' & Hbs & Hg & Hok' & Hc); [lia|done|].
    exists b'. split_and!; try done. unfold take_block. rewrite Hsplit, bind_some.
    assert (placed h (l ++ b' :: rest0)) as Hp'.
    { apply (placed_ext h l (b0 :: rest0)); [done|cbn [spans]; unfold span; by rewrite Hbs|].
      apply Forall_cons. split; [done|]. by destruct (placed_parts h l b0 rest0 Hp0) as (_ & _ & ? & _). }
    revert Hc; destruct (set_free (here h (l ++ b0 :: rest0)) (addr h l) 0) as [h1|]; [|done]; intros Hc; rewrite bind_some in Hc; rewrite bind_some.
    revert Hc; destruct (set_requested h1 (addr h l) q) as [h2|]; [|done]; intros Hc; rewrite bind_some in Hc; rewrite bind_some.
    revert Hc; destruct (block_canary h2 (addr h l)) as [c|]; [|done]; intros Hc; rewrite bind_some in Hc; rewrite bind_some.
    rewrite Hc, bind_some, size_zip, bind_some by done. done. }
  destruct (Z.leb_spec (size + sizeof_block + 16) (bsize b)) as [Hroom|Hroom].
  - destruct (split_block_spec h l b r Hp size ltac:(lia) Hroom) as (p1 & res & p2 & E & H1 & B1 & B2 & Hres & Bres & Hsplit).
    assert (Forall blk_ok (with_data b p1 :: Blk true res 0 p2 :: r)) as Hok.
    { repeat apply Forall_cons_2; [..|done]; [destruct Hbok; by constructor|by constructor]. }
    destruct (Hfin (with_data b p1) (Blk true res 0 p2 :: r)) as (b' & Hf' & Hq' & Hbs & Hg & Hok' & Ht); [|unfold bsize, with_data; cbn [bdata]; lia|done|].
    { apply (placed_ext h l (b :: r)); [done| |done].
      cbn [spans]. unfold span, bsize, with_data in *. cbn [bdata] in *. unfold sizeof_block in *. lia. }
    exists b', (Blk true res 0 p2 :: r). split_and!; try done.
    + rewrite Hbs. unfold bsize, with_data. cbn [bdata]. lia.
    + cbn [spans]. unfold span in *. rewrite Hbs. unfold bsize, with_data in *. cbn [bdata] in *. unfold sizeof_block in *. lia.
    + apply Forall_cons. split; [done|]. by apply Forall_cons in Hok as [_ ?].
    + right. by eexists.
  - destruct (Hfin b r Hp Hb) as (b' & Hf' & Hq' & Hbs & Hg & Hok' & Ht).
    { unfold split_block. rewrite size_zip, bind_some by done. unfold sizeof_block in *. unfold span, sizeof_block in Hend.
      rewrite (u64_small (size + 40)), u64_small by (unfold fits; lia). by replace (size + 40 + 16 <=? bsize b) with false by lia. }
    exists b', r. split_and!; try done; [lia|cbn [spans]; unfold span; by rewrite Hbs|by apply Forall_cons|by left].
Qed.

(** ** Checks *)

Section checks.
Context (h : heap) (l : list blk) (b : blk) (r : list blk) (Hp : placed h (l ++ b :: r)).

Lemma check_free : bfree b = true -> check_block (here h (l ++ b :: r)) (addr h l) = Some (inl false).
Proof using Hp.
  intros Hb. unfold check_block. rewrite magic_zip, bind_some, Z.eqb_refl, free_zip, bind_some, Hb by done. done.
Qed.

(** A block in use is accepted when its last eight bytes are the canary. *)
Lemma check_used d v :
  bfree b = false -> bdata b = d ++ le_bytes 8 v -> fits 64 v ->
  check_block (here h (l ++ b :: r)) (addr h l) = Some (if v =? canary (addr h l) then inl true else inr tt).
Proof using Hp.
  intros Hb Hd Hv. unfold check_block. rewrite magic_zip, bind_some, Z.eqb_refl, free_zip, bind_some, Hb by done. cbn [negb Z.eqb].
  assert (8 <= bsize b) by (unfold bsize; rewrite Hd, length_app, length_le_bytes; lia).
  rewrite canary_zip, bind_some, (load64_zip h l b r Hp d v), bind_some by done. fold (canary (addr h l)).
  by destruct (v =? canary (addr h l)).
Qed.
End checks.

(** ** Poisoning *)

Lemma placed_data h l b r d :
  placed h (l ++ b :: r) -> length d = length (bdata b) -> all_bytes d -> placed h (l ++ with_data b d :: r).
Proof.
  intros Hp Hl Hd. apply (placed_ext h l (b :: r)); [done| |].
  - cbn [spans]. unfold span, bsize, with_data. cbn [bdata]. by rewrite Hl.
  - pose proof (placed_parts h l b r Hp) as (_ & [] & ? & _). apply Forall_cons. split; [by constructor|done].
Qed.

Definition poisoned (b : blk) : list Z := replicate (length (bdata b)) HEAP_POISON.

Section poisoning.
Context (h : heap) (l : list blk) (b : blk) (r : list blk) (Hp : placed h (l ++ b :: r)).

Lemma poison_loop fuel n i d :
  length d = length (bdata b) -> all_bytes d -> (i + n = length d)%nat -> (n < fuel)%nat ->
  take i d = replicate i HEAP_POISON ->
  while_loop fuel (poison_step (addr h l))
    (here h (l ++ with_data b d :: r), Z.of_nat i) = Some (here h (l ++ with_data b (poisoned b) :: r)).
Proof using Hp.
  revert n i d. induction fuel as [|fuel IH]; intros n i d Hl Hd Hi Hn Ht; [lia|]. rewrite while_loop_S.
  assert (placed h (l ++ with_data b d :: r)) as Hpd by (by apply placed_data).
  assert (bsize (with_data b d) = Z.of_nat (length d)) as Hbs by done. destruct n as [|n].
  - assert (poison_step (addr h l) (here h (l ++ with_data b d :: r), Z.of_nat i) = Some (inr (here h (l ++ with_data b d :: r)))) as ->.
    { unfold poison_step. rewrite size_zip, bind_some, Hbs by done. by replace (Z.of_nat i <? Z.of_nat (length d)) with false by lia. }
    rewrite bind_some. do 3 f_equal. unfold poisoned.
    rewrite <- Hl, <- (take_ge d i) at 1 by lia. replace (length d) with i by lia. by rewrite Ht.
  - pose proof (placed_parts h l b r Hp) as (_ & _ & _ & Hf & Hend & Ha). pose proof (spans_pos r).
    assert (poison_step (addr h l) (here h (l ++ with_data b d :: r), Z.of_nat i) =
      Some (inl (here h (l ++ with_data b (<[i := HEAP_POISON]> d) :: r), Z.of_nat (S i)))) as ->.
    { unfold poison_step. rewrite size_zip, bind_some, Hbs by done. replace (Z.of_nat i <? Z.of_nat (length d)) with true by lia.
      rewrite store8_zip, bind_some by (done || lia). rewrite u64_small by (unfold fits, span, bsize, sizeof_block in *; lia).
      replace (Z.of_nat i + 1) with (Z.of_nat (S i)) by lia. unfold with_data. cbn [bdata bfree bres breq]. by rewrite Nat2Z.id. }
    rewrite bind_some.
    apply (IH n (S i) (<[i := HEAP_POISON]> d)); rewrite ?length_insert; try lia; [|].
    + by apply Forall_insert.
    + rewrite (take_S_r _ _ HEAP_POISON) by (apply list_lookup_insert_eq; lia). rewrite take_insert_ge by lia.
      by rewrite Ht, replicate_S_end.
Qed.

Lemma poison_spec :
  bsize b <= heap_total_bytes ->
  poison (here h (l ++ b :: r)) (addr h l) = Some (here h (l ++ with_data b (poisoned b) :: r)).
Proof using Hp.
  intros Hmax. unfold poison.
  destruct (placed_parts h l b r Hp) as (_ & [_ _ Hd] & _). change heap_total_bytes with 1048576 in Hmax. unfold bsize in Hmax.
  replace (here h (l ++ b :: r)) with (here h (l ++ with_data b (bdata b) :: r)) by (by destruct b).
  apply (poison_loop _ (length (bdata b)) 0 (bdata b)); try done. change (HEAP_PAGES * PAGE_SIZE) with 1048576. lia.
Qed.
End poisoning.

(** ** Merging *)

Section merging.
Context (h : heap) (l : list blk) (x y : blk) (r : list blk) (Hp : placed h (l ++ x :: y :: r)).
Notation ax := (addr h l).
Notation ay := (addr h l + span x).
Notation ny := (next_of (addr h l + span x + span y) 0 r).

(** The header of the second block stays in the payload of the merged one. *)
Definition merged : blk := with_data x (bdata x ++ hbytes (header y ny ax) ++ bdata y).

Definition pair_bytes (X : hdr) (R : list Z) : list Z :=
  render (heap_first h) 0 l ax ++ hbytes X ++ (bdata x ++ hbytes (header y ny ax) ++ bdata y ++ R).

Definition first_header (size next : Z) : hdr :=
  Hdr HEAP_MAGIC (if bfree x then 1 else 0) (bres x) size (breq x) next (last_addr (heap_first h) 0 l).

Lemma pair_parts : blk_ok x /\ blk_ok y /\ Forall blk_ok r /\ 0 < ax /\ ay + span y + spans r < 2 ^ 64 /\
  hdr_ok (header y ny ax) /\ addr h (l ++ [x]) = ay.
Proof using Hp.
  pose proof (placed_parts h l x (y :: r) Hp) as (_ & Hx & Hyr & Hf & Hend & Ha). apply Forall_cons in Hyr as [Hy Hr].
  assert (addr h (l ++ [x]) = ay) as E by (unfold addr; rewrite spans_app; simpl; lia).
  assert (placed h ((l ++ [x]) ++ y :: r)) as Hp2 by (by rewrite <- app_assoc).
  pose proof (zip_header_ok h (l ++ [x]) y r Hp2) as Hhy. rewrite E in Hhy. cbn [spans] in Hend.
  split_and!; try done; [lia|lia|]. destruct Hhy. constructor; cbn; try done. pose proof (spans_pos r).
  pose proof (span_pos x). pose proof (span_pos y). unfold sizeof_block, fits in *. lia.
Qed.

Lemma pair_zip : here h (l ++ x :: y :: r) =
  with_region h (pair_bytes (first_header (bsize x) ay) (render (ay + span y) ay r 0)).
Proof using Type. rewrite zip. cbn [render next_of]. unfold pair_bytes, first_header, header. done. Qed.

Lemma pair_second X R : length (hres X) = 3%nat ->
  pair_bytes X R = (render (heap_first h) 0 l ax ++ hbytes X ++ bdata x) ++ hbytes (header y ny ax) ++ (bdata y ++ R) /\
  at_block h (render (heap_first h) 0 l ax ++ hbytes X ++ bdata x) ay.
Proof using Hp.
  intros HX. split; [unfold pair_bytes; by rewrite <- !app_assoc|].
  pose proof (zip_at h l x (y :: r) Hp) as H. unfold at_block in *. rewrite !length_app, length_hbytes by done.
  unfold span, bsize, sizeof_block in *. lia.
Qed.

Lemma second_next X R : length (hres X) = 3%nat -> get_next (with_region h (pair_bytes X R)) ay = Some ny.
Proof using Hp. intros HX. destruct (pair_second X R HX) as [-> Hat]. apply get_next_at; [done|apply pair_parts]. Qed.

Lemma second_previous X R : length (hres X) = 3%nat -> get_previous (with_region h (pair_bytes X R)) ay = Some ax.
Proof using Hp. intros HX. destruct (pair_second X R HX) as [-> Hat]. apply get_previous_at; [done|apply pair_parts]. Qed.

Lemma first_header_ok size next : fits 64 size -> fits 64 next -> hdr_ok (first_header size next).
Proof using Hp. intros Hs Hn. destruct (zip_header_ok h l x (y :: r) Hp). by constructor. Qed.

Lemma sizes_fit : fits 64 (bsize x + (sizeof_block + bsize y)) /\ fits 64 (sizeof_block + bsize y) /\ fits 64 (bsize x) /\ fits 64 ay.
Proof using Hp.
  pose proof pair_parts as (_ & _ & _ & Hax & Hend & _). pose proof (spans_pos r).
  unfold span, sizeof_block, bsize, fits in *. lia.
Qed.

(** The links around the merged block. *)
Lemma merge_finish :
  let s := with_region h (pair_bytes (first_header (bsize x + (sizeof_block + bsize y)) ny) (render (ay + span y) ay r 0)) in
  (if negb (ny =? 0) then set_previous s ny ax else Some s) = Some (here h (l ++ merged :: r)).
Proof using Hp.
  pose proof pair_parts as (Hx & Hy & Hr & Hax & Hend & Hhy & _). pose proof sizes_fit as (_ & _ & _ & Hay). pose proof (spans_pos r).
  cbv zeta.
  assert (with_region h (pair_bytes (first_header (bsize x + (sizeof_block + bsize y)) ny) (render (ay + span y) ax r 0)) =
    here h (l ++ merged :: r)) as <-.
  { assert (bsize merged = bsize x + (sizeof_block + bsize y)) as E.
    { unfold bsize, merged, with_data. cbn [bdata]. rewrite !length_app, length_hbytes by apply Hy. unfold sizeof_block. lia. }
    assert (ax + span merged = ay + span y) as E2 by (unfold span; rewrite E; lia).
    assert (Eh : forall n, header merged n (last_addr (heap_first h) 0 l) = first_header (bsize x + (sizeof_block + bsize y)) n)
      by (intros; unfold header, first_header; by rewrite E).
    rewrite zip, E2, Eh. change (bdata merged) with (bdata x ++ hbytes (header y ny ax) ++ bdata y).
    unfold pair_bytes. by rewrite <- !app_assoc. }
  assert (regroup : forall X R, pair_bytes X R =
    (render (heap_first h) 0 l ax ++ hbytes X ++ bdata x ++ hbytes (header y ny ax) ++ bdata y) ++ R)
    by (intros; unfold pair_bytes; by rewrite <- !app_assoc).
  rewrite !regroup. destruct r as [|c r']; [done|]. cbn [next_of]. rewrite (proj2 (Z.eqb_neq _ _)) by (pose proof (span_pos x); pose proof (span_pos y); unfold sizeof_block in *; lia).
  cbn [negb]. apply set_prev_head; try done; [|pose proof (span_pos x); pose proof (span_pos y); unfold sizeof_block in *; lia].
  pose proof (zip_at h l x (y :: c :: r') Hp) as H'. unfold at_block in *.
  rewrite !length_app, !length_hbytes by (apply Hx || apply Hy). unfold span, bsize, sizeof_block in *. lia.
Qed.

Lemma first_set_size s n v R : fits 64 s -> fits 64 n ->
  set_size (with_region h (pair_bytes (first_header s n) R)) ax v = Some (with_region h (pair_bytes (first_header v n) R)).
Proof using Hp. intros Hs Hn. apply set_size_at; [by apply (zip_at h l x (y :: r))|by apply first_header_ok]. Qed.

Lemma first_set_next s n v R : fits 64 s -> fits 64 n ->
  set_next (with_region h (pair_bytes (first_header s n) R)) ax v = Some (with_region h (pair_bytes (first_header s v) R)).
Proof using Hp. intros Hs Hn. apply set_next_at; [by apply (zip_at h l x (y :: r))|by apply first_header_ok]. Qed.

Lemma first_get_next s n R : fits 64 s -> fits 64 n ->
  get_next (with_region h (pair_bytes (first_header s n) R)) ax = Some n.
Proof using Hp. intros Hs Hn. apply get_next_at; [by apply (zip_at h l x (y :: r))|by apply first_header_ok]. Qed.

Lemma merge_next_pair :
  bfree y = true -> merge_next (here h (l ++ x :: y :: r)) ax = Some (here h (l ++ merged :: r)).
Proof using Hp.
  intros Hy. pose proof pair_parts as (Hx & Hyok & _ & Hax & _ & Hhy & Ea). pose proof sizes_fit as (H1 & H2 & H3 & H4).
  pose proof (hdr_next _ Hhy) as Hny. cbn in Hny.
  assert (placed h ((l ++ [x]) ++ y :: r)) as Hp2 by (by rewrite <- app_assoc).
  unfold merge_next, is_free_block. rewrite next_zip, bind_some by done. cbn [next_of].
  rewrite (proj2 (Z.eqb_neq ay 0)) by (pose proof (span_pos x); unfold sizeof_block in *; lia).
  pose proof (free_zip h (l ++ [x]) y r Hp2) as Gf. pose proof (magic_zip h (l ++ [x]) y r Hp2) as Gm.
  pose proof (size_zip h (l ++ [x]) y r Hp2) as Gs. rewrite <- app_assoc, Ea in Gf, Gm, Gs. cbn [app] in Gf, Gm, Gs.
  rewrite Gf, bind_some, Hy. cbn [Z.eqb]. rewrite Gm, !bind_some, Z.eqb_refl, size_zip, bind_some, Gs, bind_some by done.
  rewrite pair_zip, (u64_small (sizeof_block + bsize y)), u64_small by done.
  rewrite first_set_size, bind_some, first_get_next, bind_some, second_next, bind_some by (done || apply Hx).
  rewrite first_set_next, bind_some, first_get_next, bind_some by done. apply merge_finish.
Qed.

Lemma merge_previous_pair :
  bfree x = true -> merge_previous (here h (l ++ x :: y :: r)) ay = Some (here h (l ++ merged :: r)).
Proof using Hp.
  intros Hx. pose proof pair_parts as (Hxok & Hyok & _ & Hax & _ & Hhy & Ea). pose proof sizes_fit as (H1 & H2 & H3 & H4).
  pose proof (hdr_next _ Hhy) as Hny. cbn in Hny.
  assert (placed h ((l ++ [x]) ++ y :: r)) as Hp2 by (by rewrite <- app_assoc).
  pose proof (size_zip h (l ++ [x]) y r Hp2) as Gs. rewrite <- app_assoc, Ea in Gs. cbn [app] in Gs.
  unfold merge_previous, is_free_block. assert (get_previous (here h (l ++ x :: y :: r)) ay = Some ax) as ->
    by (rewrite pair_zip; apply second_previous, Hxok). rewrite bind_some.
  rewrite (proj2 (Z.eqb_neq ax 0)) by lia. rewrite free_zip, bind_some, Hx by done. cbn [Z.eqb].
  rewrite magic_zip, !bind_some, Z.eqb_refl, size_zip, bind_some, Gs, bind_some by done.
  rewrite pair_zip, (u64_small (sizeof_block + bsize y)), u64_small by done.
  rewrite first_set_size, bind_some, second_previous, bind_some, second_next, bind_some by (done || apply Hxok).
  rewrite first_set_next, bind_some, second_next, bind_some by (done || apply Hxok).
  rewrite <- merge_finish. destruct (negb (ny =? 0)); [|done]. by rewrite second_previous, bind_some by apply Hxok.
Qed.

Lemma placed_merged : placed h (l ++ merged :: r) /\ bsize merged = bsize x + (sizeof_block + bsize y).
Proof using Hp.
  pose proof pair_parts as (Hx & Hy & Hr & _). assert (bsize merged = bsize x + (sizeof_block + bsize y)) as E.
  { unfold bsize, merged, with_data. cbn [bdata]. rewrite !length_app, length_hbytes by apply Hy. unfold sizeof_block. lia. }
  split; [|done]. apply (placed_ext h l (x :: y :: r)); [done|cbn [spans]; unfold span; rewrite E; lia|].
  apply Forall_cons. split; [|done]. destruct Hx as [? ? Hdx], Hy as [[? ?] ? Hdy]. constructor; try done.
  unfold merged, with_data. cbn [bdata]. unfold all_bytes. rewrite !Forall_app. split_and!; try done.
  apply hbytes_bytes; [cbn; destruct (bfree y); lia|done].
Qed.
End merging.

(** Nothing to merge with. *)
Lemma merge_next_none h l x r :
  placed h (l ++ x :: r) -> match r with [] => True | y :: _ => bfree y = false end ->
  merge_next (here h (l ++ x :: r)) (addr h l) = Some (here h (l ++ x :: r)).
Proof.
  intros Hp Hr. unfold merge_next, is_free_block. rewrite next_zip, bind_some by done. destruct r as [|y r]; [done|]. cbn [next_of].
  pose proof (pair_parts h l x y r Hp) as (_ & _ & _ & Hax & _ & _ & Ea).
  rewrite (proj2 (Z.eqb_neq _ 0)) by (pose proof (span_pos x); unfold sizeof_block in *; lia).
  assert (placed h ((l ++ [x]) ++ y :: r)) as Hp2 by (by rewrite <- app_assoc).
  pose proof (free_zip h (l ++ [x]) y r Hp2) as Gf. rewrite <- app_assoc, Ea in Gf. cbn [app] in Gf.
  by rewrite Gf, bind_some, Hr.
Qed.

Lemma merge_previous_first h y r :
  placed h (y :: r) -> merge_previous (here h (y :: r)) (addr h []) = Some (here h (y :: r)).
Proof. intros Hp. unfold merge_previous. pose proof (previous_zip h [] y r Hp) as G. cbn [app] in G. by rewrite G, bind_some. Qed.

Lemma merge_previous_none h l x y r :
  placed h (l ++ x :: y :: r) -> bfree x = false ->
  merge_previous (here h (l ++ x :: y :: r)) (addr h l + span x) = Some (here h (l ++ x :: y :: r)).
Proof.
  intros Hp Hx. pose proof (pair_parts h l x y r Hp) as (Hxok & _ & _ & Hax & _ & _ & _).
  unfold merge_previous, is_free_block. assert (get_previous (here h (l ++ x :: y :: r)) (addr h l + span x) = Some (addr h l)) as ->
    by (rewrite pair_zip; apply (second_previous h l x y r Hp), Hxok). rewrite bind_some.
  rewrite (proj2 (Z.eqb_neq _ 0)) by lia. by rewrite free_zip, bind_some, Hx by done.
Qed.

(** ** Stale headers

    The header of a block that was freed is still there, in its place or in the
    payload of the block it was merged into. *)

Definition stale (h : heap) (block : Z) : Prop :=
  exists A d R, h = with_region h (A ++ hbytes d ++ R) /\ at_block h A block /\ hdr_ok d /\ hmagic d = HEAP_MAGIC /\ hfree d = 1.

Lemma stale_check h block : stale h block -> check_block h block = Some (inl false).
Proof.
  intros (A & d & R & Hh & Hat & Hd & Hm & Hf). rewrite Hh. unfold check_block.
  by rewrite get_magic_at, bind_some, Hm, Z.eqb_refl, get_free_at, bind_some, Hf by done.
Qed.

Lemma stale_zip h l b r : placed h (l ++ b :: r) -> bfree b = true -> stale (here h (l ++ b :: r)) (addr h l).
Proof.
  intros Hp Hb. do 3 eexists. split; [rewrite zip; done|]. split; [by apply (zip_at h l b r)|]. split; [by apply zip_header_ok|].
  split; [done|]. cbn. by rewrite Hb.
Qed.

Lemma stale_merged h l x y r :
  placed h (l ++ x :: y :: r) -> bfree y = true -> stale (here h (l ++ merged h l x y r :: r)) (addr h l + span x).
Proof.
  intros Hp Hy. pose proof (pair_parts h l x y r Hp) as (Hx & _ & _ & _ & _ & Hhy & _).
  destruct (placed_merged h l x y r Hp) as [Hp' Hs].
  exists (data_before h l (merged h l x y r) r ++ bdata x), (header y (next_of (addr h l + span x + span y) 0 r) (addr h l)),
    (bdata y ++ data_after h l (merged h l x y r) r).
  split; [|split; [|split; [done|split; [done|cbn; by rewrite Hy]]]].
  - rewrite data_zip. unfold merged at 2, with_data. cbn [bdata]. unfold with_region. cbn [region heap_first heap_allocation_base heap_used
      heap_allocations heap_failures heap_invalid_frees]. f_equal. by rewrite <- !app_assoc.
  - pose proof (data_at h l (merged h l x y r) r Hp') as H. unfold at_block. change (heap_first (here h _)) with (heap_first h).
    rewrite length_app. unfold span, bsize in *. lia.
Qed.
