(* ===== verification/HeapCorrect.v ===== *)
(** * Correctness of the heap's operations

    The invariant of the block list, what a client sees of the heap (a map from
    addresses to the bytes it asked for), and the effect of each operation on
    both. *)

From S2P Require Import Prelude Arith Buffer Pmm Vmm Heap HeapLayout HeapBlocks.

#[local] Open Scope Z_scope.

Lemma snoc_addr h l b : addr h (l ++ [b]) = addr h l + span b.
Proof. unfold addr. rewrite spans_app. cbn [spans]. lia. Qed.

(** ** The invariant *)

Fixpoint used_bytes (bs : list blk) : Z :=
  match bs with [] => 0 | b :: bs => (if bfree b then 0 else bsize b) + used_bytes bs end.
Fixpoint used_count (bs : list blk) : Z :=
  match bs with [] => 0 | b :: bs => (if bfree b then 0 else 1) + used_count bs end.

(** Blocks in use end with their canary and hold what was asked for. *)
Fixpoint guards (a : Z) (bs : list blk) : Prop :=
  match bs with
  | [] => True
  | b :: bs => (bfree b = false -> guarded a b /\ 0 < breq b /\ breq b + 8 <= bsize b) /\ guards (a + span b) bs
  end.

(** No two free blocks are neighbours. *)
Fixpoint apart (bs : list blk) : Prop :=
  match bs with
  | [] => True
  | b :: bs => (bfree b = true -> match bs with [] => True | c :: _ => bfree c = false end) /\ apart bs
  end.

Record heap_inv (h : heap) (bs : list blk) : Prop := {
  inv_region : region h = render (heap_first h) 0 bs 0;
  inv_placed : placed h bs;
  inv_spans : spans bs = heap_total_bytes;
  inv_used : heap_used h = used_bytes bs;
  inv_count : heap_allocations h = used_count bs;
  inv_guards : guards (heap_first h) bs;
  inv_apart : apart bs;
}.

Lemma inv_here h bs : heap_inv h bs -> h = here h bs.
Proof. intros Hi. unfold here. rewrite <- (inv_region h bs Hi). by destruct h. Qed.

Lemma inv_nonempty h bs : heap_inv h bs -> bs <> [].
Proof. intros Hi ->. by pose proof (inv_spans h [] Hi). Qed.

Lemma used_bytes_app l r : used_bytes (l ++ r) = used_bytes l + used_bytes r.
Proof. induction l as [|b l IH]; simpl; [done|]. rewrite IH. lia. Qed.
Lemma used_count_app l r : used_count (l ++ r) = used_count l + used_count r.
Proof. induction l as [|b l IH]; simpl; [done|]. rewrite IH. lia. Qed.

Lemma guards_app a l r : guards a (l ++ r) <-> guards a l /\ guards (a + spans l) r.
Proof.
  revert a. induction l as [|b l IH]; intros a; cbn [app guards spans].
  - rewrite Z.add_0_r. tauto.
  - rewrite IH, Z.add_assoc. tauto.
Qed.

Lemma used_bounds bs : 0 <= used_bytes bs <= spans bs /\ 0 <= used_count bs <= spans bs.
Proof.
  induction bs as [|b bs IH]; cbn [used_bytes used_count spans]; [lia|]. unfold span, bsize, sizeof_block in *.
  destruct (bfree b); lia.
Qed.

(** The head of a list of blocks is not free. *)
Definition busy (bs : list blk) : Prop := match bs with [] => True | c :: _ => bfree c = false end.

Lemma apart_app l r :
  apart (l ++ r) <-> apart l /\ apart r /\ (match last l with Some b => bfree b = true -> busy r | None => True end).
Proof.
  induction l as [|b l IH]; cbn [app apart]; [simpl; tauto|]. rewrite IH. destruct l as [|c l]; cbn [app apart last].
  - unfold busy. destruct r; tauto.
  - tauto.
Qed.

(** ** What a client sees *)

Fixpoint allocs (a : Z) (bs : list blk) : gmap Z (list Z) :=
  match bs with
  | [] => ∅
  | b :: bs =>
    let rest := allocs (a + span b) bs in
    if bfree b then rest else <[a + sizeof_block := take (Z.to_nat (breq b)) (bdata b)]> rest
  end.

Lemma allocs_above a bs p c : allocs a bs !! p = Some c -> a + sizeof_block <= p.
Proof.
  revert a. induction bs as [|b bs IH]; intros a; cbn [allocs]; [done|]. destruct (bfree b); intros H.
  - apply IH in H. pose proof (span_pos b). unfold sizeof_block in *. lia.
  - apply lookup_insert_Some in H as [[<- _]|[_ H]]; [lia|]. apply IH in H. pose proof (span_pos b).
    unfold sizeof_block in *. lia.
Qed.

Lemma allocs_below a bs p : p < a + sizeof_block -> allocs a bs !! p = None.
Proof. intros Hp. destruct (allocs a bs !! p) as [c|] eqn:E; [|done]. apply allocs_above in E. lia. Qed.

Lemma allocs_split a l r p :
  allocs a (l ++ r) !! p = if p <? a + spans l + sizeof_block then allocs a l !! p else allocs (a + spans l) r !! p.
Proof.
  revert a. induction l as [|b l IH]; intros a; cbn [app allocs spans].
  - rewrite Z.add_0_r, lookup_empty. destruct (Z.ltb_spec p (a + sizeof_block)); [by apply allocs_below|done].
  - pose proof (spans_pos l). pose proof (span_pos b). rewrite Z.add_assoc.
    destruct (bfree b); [apply IH|]. destruct (decide (a + sizeof_block = p)) as [<-|Hne].
    + rewrite !lookup_insert_eq. destruct (Z.ltb_spec (a + sizeof_block) (a + span b + spans l + sizeof_block)); [done|].
      unfold sizeof_block in *. lia.
    + rewrite !lookup_insert_ne by done. apply IH.
Qed.

Lemma allocs_range a bs p c :
  allocs a bs !! p = Some c -> exists l b r, bs = l ++ b :: r /\ p = a + spans l + sizeof_block /\ bfree b = false /\
    c = take (Z.to_nat (breq b)) (bdata b).
Proof.
  revert a. induction bs as [|b bs IH]; intros a; cbn [allocs]; [done|]. intros H.
  assert (Hrec : allocs (a + span b) bs !! p = Some c -> exists l b' r, b :: bs = l ++ b' :: r /\ p = a + spans l + sizeof_block /\
    bfree b' = false /\ c = take (Z.to_nat (breq b')) (bdata b')).
  { intros (l & b' & r & -> & -> & ? & ?)%IH. exists (b :: l), b', r. cbn [app spans]. split_and!; (done || lia). }
  destruct (bfree b) eqn:Hb; [by apply Hrec|]. apply lookup_insert_Some in H as [[<- <-]|[_ H]]; [|by apply Hrec].
  exists [], b, bs. cbn [app spans]. split_and!; (done || lia).
Qed.

Lemma allocs_zip a l b r :
  bfree b = false ->
  allocs a (l ++ b :: r) !! (a + spans l + sizeof_block) = Some (take (Z.to_nat (breq b)) (bdata b)).
Proof.
  intros Hb. rewrite allocs_split. replace (_ <? _) with false by lia. cbn [allocs]. rewrite Hb. apply lookup_insert_eq.
Qed.

(** Replacing blocks in the middle of the list by blocks of the same extent
    changes what the client sees there only. *)
Lemma allocs_replace a l m m' r :
  spans m' = spans m ->
  forall p, p < a + spans l + sizeof_block \/ a + spans l + spans m + sizeof_block <= p ->
    allocs a (l ++ m' ++ r) !! p = allocs a (l ++ m ++ r) !! p.
Proof.
  intros E p Hp. rewrite !allocs_split. rewrite E. destruct (Z.ltb_spec p (a + spans l + sizeof_block)); [done|].
  destruct (Z.ltb_spec p (a + spans l + spans m + sizeof_block)); [lia|done].
Qed.

Lemma on_here {A} (f : heap -> A) h bs y : heap_inv h bs -> f (here h bs) = y -> f h = y.
Proof. intros Hi <-. exact (f_equal f (inv_here h bs Hi)). Qed.

(** ** Allocation *)

Lemma align16_mod v : 0 <= v -> v + 15 < 2 ^ 64 -> align16 v = ((v + 15) / 16 * 16) mod 2 ^ 32.
Proof.
  intros H0 Hv. unfold align16. rewrite u64_small by (unfold fits; lia).
  change (compl 32 15) with (compl 64 (2 ^ 4 - 1) &&& (2 ^ 32 - 1)).
  rewrite Z.land_assoc, land_compl_mask, land_mask by (unfold fits; lia). done.
Qed.

(** The number of bytes that a request takes. *)
Lemma align16_spec size :
  0 < size <= 2 ^ 32 - 24 ->
  align16 (u64 (size + 8)) = (size + 23) / 16 * 16 /\ size + 8 <= (size + 23) / 16 * 16 /\ 16 <= (size + 23) / 16 * 16 < 2 ^ 32.
Proof.
  intros Hs. change (2 ^ 32) with 4294967296 in *. rewrite u64_small by (unfold fits; change (2 ^ 64) with 18446744073709551616; lia).
  rewrite align16_mod by (change (2 ^ 64) with 18446744073709551616; lia).
  replace (size + 8 + 15) with (size + 23) by lia. change (2 ^ 32) with 4294967296.
  assert (size + 8 <= (size + 23) / 16 * 16 /\ 16 <= (size + 23) / 16 * 16 < 4294967296) as H by divlia.
  split; [|done]. apply Z.mod_small. lia.
Qed.

Definition needed (size : Z) : Z := (size + 23) / 16 * 16.

Lemma apart_taken l b b' rest r :
  apart (l ++ b :: r) -> bfree b = true -> bfree b' = false -> rest = r \/ (exists c, rest = c :: r /\ bfree c = true) ->
  apart (l ++ b' :: rest).
Proof.
  rewrite !apart_app. intros (Hl & Hr & Hlast) Hb Hb' Hrest. cbn [apart] in *. destruct Hr as [Hbr Hr]. specialize (Hbr Hb).
  split; [done|]. split; [split; [by rewrite Hb'|]|].
  - destruct Hrest as [->|(c & -> & Hc)]; [done|]. cbn [apart]. by split.
  - destruct (last l); [|done]. intros Hx. by cbn.
Qed.

Section malloc.
Context (h : heap) (bs : list blk) (Hi : heap_inv h bs) (size : Z) (Hsize : 0 < size <= 2 ^ 32 - 24).

Lemma kmalloc_outcome :
  exists h' p bs', kmalloc h size = Some (h', p) /\ heap_inv h' bs' /\
    (heap_first h' = heap_first h /\ heap_allocation_base h' = heap_allocation_base h /\
     heap_invalid_frees h' = heap_invalid_frees h /\
     heap_failures h' = if p =? 0 then u64 (heap_failures h + 1) else heap_failures h) /\
    ((p = 0 /\ h' = with_failure h /\ bs' = bs /\ Forall (fun b => fits_in (needed size) b = false) bs) \/
     exists l b r b' rest, bs = l ++ b :: r /\ bs' = l ++ b' :: rest /\ p = addr h l + sizeof_block /\
       Forall (fun b => fits_in (needed size) b = false) l /\ fits_in (needed size) b = true /\
       bfree b' = false /\ breq b' = size /\ size + 8 <= bsize b' /\ spans (b' :: rest) = spans (b :: r) /\
       (rest = r \/ exists c, rest = c :: r /\ bfree c = true)).
Proof.
  destruct (align16_spec size Hsize) as (Ha & Hn & Hlo). fold (needed size) in *. change (2 ^ 32) with 4294967296 in *.
  pose proof (inv_placed h bs Hi) as Hp. pose proof Hp as (Hf & _ & _).
  unfold kmalloc, kmalloc_unlocked. rewrite (proj2 (Z.eqb_neq size 0)) by lia.
  replace (U64_MAX - 8 - 15 <? size) with false by (unfold U64_MAX; lia). cbv zeta. rewrite Ha.
  rewrite (proj2 (Z.eqb_neq (needed size) 0)), (proj2 (Z.eqb_neq (heap_first h) 0)) by lia. cbn [orb].
  destruct (find_fit_spec h bs (needed size) Hp (inv_nonempty h bs Hi) (inv_spans h bs Hi)) as (x & Hx & Hcase).
  rewrite (on_here (fun h => find_fit h (needed size)) h bs _ Hi Hx), bind_some. destruct x as [block|e].
  - destruct Hcase as (l & b & r & E & -> & Hfit & Hl). rewrite E in Hp. pose proof Hfit as Hfit'. unfold fits_in in Hfit'. apply andb_true_iff in Hfit' as [Hbf Hbs].
    assert (bsize b <= heap_total_bytes) as Hmax.
    { rewrite <- (inv_spans h bs Hi), E, spans_app. cbn [spans]. pose proof (spans_pos l). pose proof (spans_pos r).
      unfold span, sizeof_block. lia. }
    destruct (take_block_spec h l b r (needed size) size Hp Hmax) as (b' & rest & Hf' & Hq' & Hs' & Hg & Hsp & Hok & Hrest & Ht);
      [lia|lia|unfold fits; lia|].
    rewrite <- E in Ht. rewrite (on_here (fun h' => take_block h' (addr h l) (needed size) size) h bs _ Hi Ht).
    do 3 eexists. split; [done|]. split; [|split; [split; [done|split; [done|split; [done|]]]|right; exists l, b, r, b', rest; split_and!; (done || lia)]].
    2: { pose proof (spans_pos l). rewrite (proj2 (Z.eqb_neq _ 0)); [done|]. unfold addr, sizeof_block. lia. }
    pose proof (used_bounds bs) as Hub. rewrite (inv_spans h bs Hi) in Hub. change heap_total_bytes with 1048576 in *.
    rewrite E, used_bytes_app, used_count_app in Hub. cbn [used_bytes used_count] in Hub. rewrite Hbf in Hub.
    assert (used_bytes rest = used_bytes r /\ used_count rest = used_count r) as [U1 U2].
    { destruct Hrest as [->|(c & -> & Hc)]; [done|]. cbn [used_bytes used_count]. by rewrite Hc. }
    pose proof (inv_guards h bs Hi) as Hgd. rewrite E, guards_app in Hgd. destruct Hgd as [Hgl Hgr]. cbn [guards] in Hgr.
    assert (spans bs = spans l + spans (b :: r)) as Esp by (by rewrite E, spans_app).
    assert (bsize b' <= spans (b' :: rest)) by (cbn [spans]; pose proof (spans_pos rest); unfold span, sizeof_block; lia).
    pose proof (inv_spans h bs Hi). change heap_total_bytes with 1048576 in *. pose proof (spans_pos l).
    constructor; cbn [here with_region with_counts region heap_first heap_used heap_allocations].
    + done.
    + exact (placed_ext h l (b :: r) (b' :: rest) Hp Hsp Hok).
    + rewrite spans_app, Hsp. change heap_total_bytes with 1048576. lia.
    + rewrite (inv_used h bs Hi), E, !used_bytes_app. cbn [used_bytes]. rewrite Hbf, Hf', U1.
      rewrite u64_small by (unfold fits; change (2 ^ 64) with 18446744073709551616; lia). lia.
    + rewrite (inv_count h bs Hi), E, !used_count_app. cbn [used_count]. rewrite Hbf, Hf', U2.
      rewrite u64_small by (unfold fits; change (2 ^ 64) with 18446744073709551616; lia). lia.
    + apply guards_app. split; [done|]. cbn [guards]. split; [intros _; rewrite Hq'; split; [done|lia]|].
      cbn [spans] in Hsp. destruct Hrest as [->|(c & -> & Hc)].
      * replace (span b') with (span b) by lia. apply Hgr.
      * cbn [guards spans] in *. rewrite Hc. split; [done|].
        replace (heap_first h + spans l + span b' + span c) with (heap_first h + spans l + span b) by lia. apply Hgr.
    + pose proof (inv_apart h bs Hi) as Hap. rewrite E in Hap. by apply (apart_taken l b b' rest r).
  - destruct Hcase as [-> Hall]. exists (with_failure h), 0, bs. split; [done|]. split; [by destruct Hi|]. split; [done|]. by left.
Qed.
End malloc.

(** What the client sees of three parts of the list. *)
Lemma allocs_mid a l m r p :
  allocs a (l ++ m ++ r) !! p =
    if p <? a + spans l + sizeof_block then allocs a l !! p
    else if p <? a + spans l + spans m + sizeof_block then allocs (a + spans l) m !! p
    else allocs (a + spans l + spans m) r !! p.
Proof. by rewrite !allocs_split. Qed.

Definition all_free (bs : list blk) : Prop := Forall (fun b => bfree b = true) bs.

Lemma allocs_free a bs : all_free bs -> allocs a bs = ∅.
Proof. intros H. revert a. induction H as [|b bs Hb _ IH]; intros a; cbn [allocs]; [done|]. by rewrite Hb. Qed.

(** One block in use among free ones becomes visible or disappears. *)
Lemma allocs_appear a l m b fs r :
  all_free m -> all_free fs -> bfree b = false -> spans (b :: fs) = spans m ->
  allocs a (l ++ m ++ r) !! (a + spans l + sizeof_block) = None /\
  allocs a (l ++ (b :: fs) ++ r) =
    <[a + spans l + sizeof_block := take (Z.to_nat (breq b)) (bdata b)]> (allocs a (l ++ m ++ r)).
Proof.
  intros Hm Hfs Hb E. pose proof (spans_pos fs). pose proof (span_pos b). assert (sizeof_block = 40) as S40 by done.
  cbn [spans] in E. split.
  - rewrite allocs_mid, (allocs_free _ m) by done. replace (_ <? _) with false by lia.
    by replace (_ <? _) with true by lia.
  - apply map_eq. intros p. destruct (decide (a + spans l + sizeof_block = p)) as [<-|Hne].
    + rewrite lookup_insert_eq. by apply (allocs_zip a l b (fs ++ r)).
    + rewrite lookup_insert_ne, !allocs_mid by done. cbn [spans]. rewrite E. destruct (p <? a + spans l + sizeof_block); [done|].
      destruct (p <? a + spans l + spans m + sizeof_block); [|done]. rewrite (allocs_free _ m) by done. cbn [allocs].
      rewrite Hb, allocs_free by done. by rewrite lookup_insert_ne.
Qed.

Lemma malloc_view h bs size h' p bs' :
  heap_inv h bs -> 0 < size <= 2 ^ 32 - 24 ->
  heap_inv h' bs' -> heap_first h' = heap_first h ->
  (exists l b r b' rest, bs = l ++ b :: r /\ bs' = l ++ b' :: rest /\ p = addr h l + sizeof_block /\
       Forall (fun b => fits_in (needed size) b = false) l /\ fits_in (needed size) b = true /\
       bfree b' = false /\ breq b' = size /\ size + 8 <= bsize b' /\ spans (b' :: rest) = spans (b :: r) /\
       (rest = r \/ exists c, rest = c :: r /\ bfree c = true)) ->
  p <> 0 /\ allocs (heap_first h) bs !! p = None /\
  exists c, Z.of_nat (length c) = size /\ allocs (heap_first h') bs' = <[p := c]> (allocs (heap_first h) bs).
Proof.
  intros Hi Hsz Hi' Hfirst (l & b & r & b' & rest & E & E' & -> & _ & Hfit & Hb' & Hq & Hs & Hsp & Hrest).
  unfold fits_in in Hfit. apply andb_true_iff in Hfit as [Hb _].
  assert (exists fs, all_free fs /\ rest = fs ++ r) as (fs & Hfs & Er).
  { destruct Hrest as [->|(c & -> & Hc)]; [exists []; split; [constructor|done]|exists [c]; split; [by apply Forall_singleton|done]]. }
  assert (spans (b' :: fs) = spans [b]) as Es.
  { rewrite Er in Hsp. cbn [spans] in *. rewrite spans_app in Hsp. lia. }
  destruct (allocs_appear (heap_first h) l [b] b' fs r) as [Hnone Hins]; [by apply Forall_singleton|done..|].
  unfold addr in *. subst. rewrite Hfirst. pose proof (inv_placed h _ Hi) as (Hf & _ & _). pose proof (spans_pos l).
  split; [unfold sizeof_block; lia|]. split; [done|]. eexists. split; [|exact Hins].
  unfold bsize in Hs. rewrite length_take. lia.
Qed.

(** ** Freeing *)

Lemma merge_next_outcome h l x r :
  placed h (l ++ x :: r) ->
  exists m ys r0, r = ys ++ r0 /\ all_free ys /\ spans [m] = span x + spans ys /\ bfree m = bfree x /\
    placed h (l ++ m :: r0) /\ (apart r -> busy r0) /\
    merge_next (here h (l ++ x :: r)) (addr h l) = Some (here h (l ++ m :: r0)).
Proof.
  intros Hp. destruct r as [|y r0]; [|destruct (bfree y) eqn:Hy].
  - exists x, [], []. split_and!; try done; [constructor|by apply merge_next_none].
  - destruct (placed_merged h l x y r0 Hp) as [Hp' Hs]. exists (merged h l x y r0), [y], r0.
    split_and!; try done; [by apply Forall_singleton|cbn [spans]; unfold span; rewrite Hs; lia| |by apply merge_next_pair].
    intros Hap. cbn [apart] in Hap. by apply Hap.
  - exists x, [], (y :: r0). split_and!; try done; [constructor|by apply merge_next_none].
Qed.

Lemma merge_previous_outcome h l y r :
  placed h (l ++ y :: r) -> bfree y = true ->
  exists l0 xs m, l = l0 ++ xs /\ all_free xs /\ spans [m] = spans xs + span y /\ bfree m = true /\
    placed h (l0 ++ m :: r) /\ (apart l -> match last l0 with Some b => bfree b = false | None => True end) /\
    stale (here h (l0 ++ m :: r)) (addr h l) /\
    merge_previous (here h (l ++ y :: r)) (addr h l) = Some (here h (l0 ++ m :: r)).
Proof.
  intros Hp Hy. destruct l as [|x l0 _] using rev_ind.
  - exists [], [], y. split_and!; try done; [constructor|simpl; lia|by apply (stale_zip h [])|by apply merge_previous_first].
  - rewrite <- app_assoc in *. cbn [app] in *. replace (addr h (l0 ++ [x])) with (addr h l0 + span x)
      by (unfold addr; rewrite spans_app; simpl; lia). destruct (bfree x) eqn:Hx.
    + destruct (placed_merged h l0 x y r Hp) as [Hp' Hs]. exists l0, [x], (merged h l0 x y r).
      split_and!; try done; [by apply Forall_singleton|cbn [spans]; unfold span; rewrite Hs; lia| |by apply stale_merged|by apply merge_previous_pair].
      intros Hap. apply apart_app in Hap as (_ & _ & Hap). destruct (last l0) as [b|]; [|done]. cbn in Hap.
      destruct (bfree b); [|done]. by rewrite Hap in Hx.
    + exists (l0 ++ [x]), [], y. split; [by rewrite app_nil_r|]. split; [constructor|]. split; [simpl; lia|]. split; [done|].
      rewrite <- snoc_addr. split; [by rewrite <- app_assoc|]. split; [intros _; by rewrite last_snoc|].
      split; [apply stale_zip; [by rewrite <- app_assoc|done]|]. rewrite <- app_assoc, snoc_addr. by apply merge_previous_none.
Qed.

Lemma used_free fs : all_free fs -> used_bytes fs = 0 /\ used_count fs = 0.
Proof. induction 1 as [|b fs Hb _ IH]; [done|]. cbn [used_bytes used_count]. rewrite Hb. lia. Qed.

Lemma apart_freed l0 m r0 :
  apart l0 -> apart r0 -> busy r0 -> match last l0 with Some b => bfree b = false | None => True end -> apart (l0 ++ m :: r0).
Proof.
  intros Hl Hr Hb Hlast. apply apart_app. split; [done|]. split; [cbn [apart]; by split|].
  destruct (last l0) as [b|]; [|done]. by rewrite Hlast.
Qed.

(** A block in use gives way to a free one, with its free neighbours. *)
Lemma inv_freed h l0 xs b ys r0 m used count :
  heap_inv h ((l0 ++ xs) ++ b :: ys ++ r0) -> bfree b = false -> all_free xs -> all_free ys -> bfree m = true ->
  spans [m] = spans xs + span b + spans ys -> placed h (l0 ++ m :: r0) -> busy r0 ->
  match last l0 with Some b => bfree b = false | None => True end ->
  used = u64 (heap_used h - bsize b) -> count = u64 (heap_allocations h - 1) ->
  heap_inv (here (with_counts h used count) (l0 ++ m :: r0)) (l0 ++ m :: r0).
Proof.
  intros [Hreg Hp Hs Hu Hc Hg Hap] Hb Hxs Hys Hm Hsp Hp' Hbusy Hlast -> ->.
  destruct (used_free xs Hxs) as [Ux Cx]. destruct (used_free ys Hys) as [Uy Cy].
  rewrite <- app_assoc in *. cbn [app] in *.
  pose proof (used_bounds (l0 ++ xs ++ b :: ys ++ r0)) as Hub. rewrite Hs in Hub. change heap_total_bytes with 1048576 in Hub.
  rewrite !used_bytes_app, !used_count_app in *. cbn [used_bytes used_count] in *. rewrite !used_bytes_app, !used_count_app, Hb, Ux, Cx, Uy, Cy in *.
  pose proof (used_bounds l0). pose proof (used_bounds r0).
  repeat (rewrite !spans_app in Hs; cbn [spans] in Hs). cbn [spans] in Hsp.
  assert (0 <= bsize b) by (unfold bsize; lia).
  assert (Hlen : forall x, 0 <= x <= 1048576 -> fits 64 x) by (unfold fits; change (2 ^ 64) with 18446744073709551616; lia).
  constructor; cbn [here with_region with_counts region heap_first heap_used heap_allocations].
  - done.
  - done.
  - rewrite spans_app. cbn [spans]. lia.
  - rewrite used_bytes_app. cbn [used_bytes]. rewrite Hm, Hu, u64_small by (apply Hlen; lia). lia.
  - rewrite used_count_app. cbn [used_count]. rewrite Hm, Hc, u64_small by (apply Hlen; lia). lia.
  - rewrite guards_app in *. destruct Hg as [Hg1 Hg2]. rewrite guards_app in Hg2. destruct Hg2 as [_ Hg2]. cbn [guards] in Hg2.
    destruct Hg2 as [_ Hg2]. rewrite guards_app in Hg2. destruct Hg2 as [_ Hg2]. split; [done|]. cbn [guards]. rewrite Hm.
    split; [done|]. by replace (heap_first h + spans l0 + span m) with (heap_first h + spans l0 + spans xs + span b + spans ys) by lia.
  - rewrite apart_app in Hap. destruct Hap as (Hal & Hap & _). rewrite apart_app in Hap. destruct Hap as (_ & Hap & _).
    cbn [apart] in Hap. destruct Hap as [_ Hap]. rewrite apart_app in Hap. destruct Hap as (_ & Hap & _). by apply apart_freed.
Qed.

Lemma allocs_vanish a l0 xs b ys r0 m :
  all_free xs -> all_free ys -> bfree b = false -> bfree m = true -> spans [m] = spans xs + span b + spans ys ->
  allocs a (l0 ++ m :: r0) = delete (a + spans (l0 ++ xs) + sizeof_block) (allocs a ((l0 ++ xs) ++ b :: ys ++ r0)).
Proof.
  intros Hxs Hys Hb Hm E. assert (l0 ++ m :: r0 = l0 ++ [m] ++ r0) as -> by done.
  assert ((l0 ++ xs) ++ b :: ys ++ r0 = l0 ++ (xs ++ b :: ys) ++ r0) as -> by (by rewrite <- !app_assoc).
  assert (spans (xs ++ b :: ys) = spans [m]) as E' by (rewrite spans_app; cbn [spans] in *; lia).
  pose proof (spans_pos xs). pose proof (spans_pos ys). pose proof (span_pos b). assert (sizeof_block = 40) as S40 by done.
  rewrite spans_app. apply map_eq. intros p.
  destruct (decide (a + (spans l0 + spans xs) + sizeof_block = p)) as [<-|Hne];
    [rewrite lookup_delete_eq|rewrite lookup_delete_ne by done]; rewrite !allocs_mid, ?E'.
  - replace (_ <? _) with false by lia. replace (_ <? _) with true by lia. cbn [allocs]. by rewrite Hm.
  - destruct (p <? a + spans l0 + sizeof_block); [done|]. destruct (p <? a + spans l0 + spans [m] + sizeof_block); [|done].
    rewrite (allocs_free _ [m]), lookup_empty by (by apply Forall_singleton). rewrite allocs_split, (allocs_free _ xs) by done.
    destruct (p <? _); [done|]. cbn [allocs]. rewrite Hb, allocs_free, lookup_insert_ne by (done || lia). done.
Qed.

Section freeing.
Context (h : heap) (l : list blk) (b : blk) (r : list blk) (Hi : heap_inv h (l ++ b :: r)) (Hb : bfree b = false).
Notation p := (addr h l + sizeof_block).

Lemma block_bound : bsize b <= heap_total_bytes.
Proof using Hi.
  rewrite <- (inv_spans _ _ Hi), spans_app. cbn [spans]. pose proof (spans_pos l). pose proof (spans_pos r).
  unfold span, sizeof_block. lia.
Qed.

Lemma block_guard : guarded (addr h l) b /\ 0 < breq b /\ breq b + 8 <= bsize b.
Proof using Hi Hb. pose proof (inv_guards _ _ Hi) as Hg. apply guards_app in Hg as [_ Hg]. cbn [guards] in Hg. by apply Hg. Qed.

Lemma block_checked : check_block h (addr h l) = Some (inl true).
Proof using Hi Hb.
  destruct block_guard as ([d Hd] & _). pose proof (inv_placed _ _ Hi) as Hp.
  destruct (placed_parts h l b r Hp) as (_ & _ & _ & Hf & Hend & Ha). pose proof (spans_pos r). pose proof (span_pos b).
  apply (on_here (fun h' => check_block h' (addr h l)) h _ _ Hi).
  rewrite (check_used h l b r Hp d (canary (addr h l)) Hb Hd); [by rewrite Z.eqb_refl|].
  apply canary_fits. unfold fits, sizeof_block in *. lia.
Qed.

(** The block is marked, filled with the poison and taken off the counters. *)
Lemma kfree_marks :
  exists b1, bfree b1 = true /\ span b1 = span b /\ placed h (l ++ b1 :: r) /\
    kfree h p =
      (let h1 := with_counts h (u64 (heap_used h - bsize b)) (u64 (heap_allocations h - 1)) in
       h2 ← merge_next (here h1 (l ++ b1 :: r)) (addr h l);
       h2 ← merge_previous h2 (addr h l); Some (inl h2)).
Proof using Hi Hb.
  pose proof (inv_placed _ _ Hi) as Hp. destruct (placed_parts h l b r Hp) as (_ & Hbok & Hr & Hf & Hend & Ha).
  set (b1 := with_req (with_data (with_free b true) (poisoned (with_free b true))) 0).
  assert (length (poisoned (with_free b true)) = length (bdata b)) as Hlen by apply length_replicate.
  assert (Hpok : forall q, fits 64 q -> blk_ok (Blk true (bres b) q (poisoned b))).
  { intros q Hq. destruct Hbok. constructor; try done. by apply Forall_replicate. }
  assert (Hpl : forall c, blk_ok c -> span c = span b -> placed h (l ++ c :: r)).
  { intros c Hc Es. apply (placed_ext h l (b :: r)); [done|cbn [spans]; lia|by apply Forall_cons]. }
  assert (placed h (l ++ with_free b true :: r)) as Hp1 by (apply Hpl; [by destruct Hbok|done]).
  assert (placed h (l ++ with_data (with_free b true) (poisoned (with_free b true)) :: r)) as Hp2
    by (apply Hpl; [apply Hpok, Hbok|unfold span, bsize, with_data; cbn [bdata]; by rewrite Hlen]).
  assert (span b1 = span b) as Es by (unfold span, bsize, b1, with_req, with_data; cbn [bdata]; by rewrite Hlen).
  assert (placed h (l ++ b1 :: r)) as Hp3 by (apply Hpl; [by apply Hpok|done]).
  exists b1. split; [done|]. split; [done|]. split; [done|]. unfold kfree, kfree_unlocked.
  rewrite (proj2 (Z.eqb_neq p 0)) by (unfold sizeof_block; lia). replace (p - sizeof_block) with (addr h l) by lia.
  rewrite block_checked, bind_some.
  rewrite (on_here (fun h' => set_free h' (addr h l) 1) h _ _ Hi (set_free_zip h l b r Hp true)), bind_some.
  rewrite poison_spec, bind_some by (try done; apply block_bound). rewrite set_requested_zip, bind_some by done.
  fold b1. rewrite size_zip, bind_some by done. cbn [here with_region heap_used heap_allocations].
  replace (bsize b1) with (bsize b) by (unfold span in Es; lia). done.
Qed.

Lemma kfree_outcome :
  exists h' bs', kfree h p = Some (inl h') /\ heap_inv h' bs' /\ heap_first h' = heap_first h /\
    heap_failures h' = heap_failures h /\ heap_invalid_frees h' = heap_invalid_frees h /\
    check_block h' (addr h l) = Some (inl false) /\
    allocs (heap_first h) bs' = delete p (allocs (heap_first h) (l ++ b :: r)).
Proof using Hi Hb.
  destruct kfree_marks as (b1 & Hb1 & Es & Hp1 & ->). cbv zeta. set (h1 := with_counts h _ _).
  pose proof (inv_apart _ _ Hi) as Hap. apply apart_app in Hap as (Hal & Har & _). cbn [apart] in Har. destruct Har as [_ Har].
  destruct (merge_next_outcome h1 l b1 r Hp1) as (m & ys & r0 & Er & Hys & Hsm & Hm & Hpm & Hbusy & Hmerge).
  change (addr h1 l) with (addr h l) in Hmerge. rewrite Hmerge, bind_some.
  destruct (merge_previous_outcome h1 l m r0 Hpm) as (l0 & xs & m' & El & Hxs & Hsm' & Hm' & Hpm' & Hlast & Hst & Hmerge'); [by rewrite Hm|].
  change (addr h1 l) with (addr h l) in Hmerge'. rewrite Hmerge', bind_some.
  exists (here h1 (l0 ++ m' :: r0)), (l0 ++ m' :: r0). split; [done|]. split; [|split; [done|split; [done|split; [done|split; [by apply stale_check|]]]]].
  - apply (inv_freed h l0 xs b ys r0 m'); try done; [by rewrite <- El, <- Er|cbn [spans] in *; lia|by apply Hbusy|by apply Hlast].
  - unfold addr. rewrite El, Er. apply allocs_vanish; try done. cbn [spans] in *. lia.
Qed.
End freeing.
