(* ===== verification/HeapClient.v ===== *)
(** * The heap as its clients see it

    Reading and writing allocated bytes, [kcalloc] and [krealloc]; the whole
    interface as a map from addresses to bytes. *)

From S2P Require Import Prelude Arith Buffer Pmm Vmm Heap HeapLayout HeapBlocks HeapCorrect.

#[local] Open Scope Z_scope.

(** What the client sees of a heap. *)
Definition view (h : heap) (bs : list blk) : gmap Z (list Z) := allocs (heap_first h) bs.

(** The counters and the place of the heap. *)
Definition frame_of (h : heap) : Z * Z * Z * Z := (heap_first h, heap_allocation_base h, heap_failures h, heap_invalid_frees h).

Lemma view_zip h bs p c :
  heap_inv h bs -> view h bs !! p = Some c ->
  exists l b r, bs = l ++ b :: r /\ p = addr h l + sizeof_block /\ bfree b = false /\ c = take (Z.to_nat (breq b)) (bdata b) /\
    Z.of_nat (length c) = breq b /\ 0 < breq b /\ breq b + 8 <= bsize b /\ guarded (addr h l) b.
Proof.
  intros Hi (l & b & r & -> & -> & Hb & ->)%allocs_range. exists l, b, r.
  destruct (block_guard h l b r Hi Hb) as (Hg & Hq & Hs). split_and!; try done. rewrite length_take. unfold bsize in Hs. lia.
Qed.

Lemma allocs_update a l b b' r :
  span b' = span b -> bfree b = false -> bfree b' = false ->
  allocs a (l ++ b' :: r) =
    <[a + spans l + sizeof_block := take (Z.to_nat (breq b')) (bdata b')]> (allocs a (l ++ b :: r)).
Proof.
  intros Es Hb Hb'. apply map_eq. intros p. destruct (decide (a + spans l + sizeof_block = p)) as [<-|Hne].
  - rewrite lookup_insert_eq. by apply allocs_zip.
  - rewrite lookup_insert_ne, !allocs_split by done. destruct (p <? _); [done|]. cbn [allocs].
    rewrite Hb, Hb', !lookup_insert_ne by done. by rewrite Es.
Qed.

(** A block in use is replaced by another one in use. *)
Lemma heap_inv_update h l b b' r :
  heap_inv h (l ++ b :: r) -> bfree b = false -> bfree b' = false -> span b' = span b -> blk_ok b' ->
  guarded (addr h l) b' -> 0 < breq b' -> breq b' + 8 <= bsize b' ->
  heap_inv (here h (l ++ b' :: r)) (l ++ b' :: r) /\
  view h (l ++ b' :: r) = <[addr h l + sizeof_block := take (Z.to_nat (breq b')) (bdata b')]> (view h (l ++ b :: r)).
Proof.
  intros [Hreg Hp Hs Hu Hc Hg Ha] Hb Hb' Es Hok Hguard Hq Hqs. split; [|by apply allocs_update].
  destruct (placed_parts h l b r Hp) as (_ & _ & Hr & _). unfold span in Es.
  constructor; cbn [here with_region region heap_first heap_used heap_allocations].
  - done.
  - apply (placed_ext h l (b :: r)); [done|cbn [spans]; unfold span; lia|by apply Forall_cons].
  - rewrite spans_app in *. cbn [spans] in *. unfold span in *. lia.
  - rewrite Hu, !used_bytes_app. cbn [used_bytes]. rewrite Hb, Hb'. lia.
  - rewrite Hc, !used_count_app. cbn [used_count]. by rewrite Hb, Hb'.
  - rewrite guards_app in *. cbn [guards] in *. destruct Hg as (Hg1 & Hg2 & Hg3). split; [done|]. split; [done|].
    unfold span in *. by replace (sizeof_block + bsize b') with (sizeof_block + bsize b) by lia.
  - rewrite apart_app in *. cbn [apart] in *. destruct Ha as (H1 & [_ H2] & H3). split; [done|]. rewrite Hb'. split; [done|].
    destruct (last l); [|done]. by intros ?%H3.
Qed.

(** ** Reading and writing *)

Section access.
Context (h : heap) (bs : list blk) (Hi : heap_inv h bs) (p : Z) (c : list Z) (Hc : view h bs !! p = Some c).

Lemma load_outcome i : 0 <= i < Z.of_nat (length c) -> load8 h (p + i) = rd c i.
Proof using Hi Hc.
  intros Hir. destruct (view_zip h bs p c Hi Hc) as (l & b & r & E & -> & Hb & -> & Hlen & Hq & Hs & _). subst bs.
  rewrite (on_here (fun h' => load8 h' (addr h l + sizeof_block + i)) h _ _ Hi (load8_zip h l b r (inv_placed _ _ Hi) i ltac:(lia))).
  unfold rd. destruct (i <? 0); [done|]. by rewrite lookup_take_lt by lia.
Qed.

Lemma store_outcome i v :
  0 <= i < Z.of_nat (length c) -> fits 8 v ->
  exists h' bs', store8 h (p + i) v = Some h' /\ heap_inv h' bs' /\ frame_of h' = frame_of h /\
    view h' bs' = <[p := <[Z.to_nat i := v]> c]> (view h bs).
Proof using Hi Hc.
  intros Hir Hv. destruct (view_zip h bs p c Hi Hc) as (l & b & r & E & -> & Hb & -> & Hlen & Hq & Hs & [d Hd]). subst bs.
  pose proof (inv_placed _ _ Hi) as Hp. destruct (placed_parts h l b r Hp) as (_ & [] & _).
  set (b' := with_data b (<[Z.to_nat i := v]> (bdata b))).
  assert (bsize b = Z.of_nat (length d) + 8) as Ebs by (unfold bsize; rewrite Hd, length_app, length_le_bytes; lia).
  destruct (heap_inv_update h l b b' r Hi Hb Hb) as [Hi' Hview].
  - unfold span, bsize, b', with_data. cbn [bdata]. by rewrite length_insert.
  - constructor; try done. by apply Forall_insert.
  - exists (<[Z.to_nat i := v]> d). unfold b', with_data. cbn [bdata]. rewrite Hd. by rewrite insert_app_l by lia.
  - done.
  - unfold bsize, b', with_data in *. cbn [bdata breq]. by rewrite length_insert.
  - exists (here h (l ++ b' :: r)), (l ++ b' :: r).
    rewrite (on_here (fun h' => store8 h' (addr h l + sizeof_block + i) v) h _ _ Hi (store8_zip h l b r Hp i v ltac:(lia))).
    split; [done|]. split; [done|]. split; [done|]. change (view (here h (l ++ b' :: r)) (l ++ b' :: r)) with (view h (l ++ b' :: r)).
    rewrite Hview. f_equal. unfold b', with_data. cbn [bdata breq]. by rewrite take_insert_lt by lia.
Qed.
End access.

Lemma view_bytes h bs p c : heap_inv h bs -> view h bs !! p = Some c -> all_bytes c.
Proof.
  intros Hi Hc. destruct (view_zip h bs p c Hi Hc) as (l & b & r & -> & _ & _ & -> & _).
  destruct (placed_parts h l b r (inv_placed _ _ Hi)) as (_ & [_ _ Hd] & _). by apply Forall_take.
Qed.

(** A loop that writes [f 0], [f 1], ... to an allocation. *)
Section loops.
Context (p bound : Z) (V : gmap Z (list Z)) (f : Z -> Z) (body : Z -> heap -> option heap).
Context (Hf : forall j, 0 <= j < bound -> fits 8 (f j)).
Context (Hbody : forall j h bs c, 0 <= j < bound -> heap_inv h bs -> view h bs = <[p := c]> V -> body j h = store8 h (p + j) (f j)).

Lemma fill_loop n i h bs c :
  0 <= i -> i + Z.of_nat n <= bound -> bound <= Z.of_nat (length c) -> heap_inv h bs -> view h bs = <[p := c]> V ->
  exists h' bs' c', for_loop n i body h = Some h' /\ heap_inv h' bs' /\ frame_of h' = frame_of h /\
    view h' bs' = <[p := c']> V /\ length c' = length c /\
    forall j, rd c' j = if (i <=? j) && (j <? i + Z.of_nat n) then Some (f j) else rd c j.
Proof using Hf Hbody.
  revert i h bs c. induction n as [|n IH]; intros i h bs c Hi0 Hbd Hlen Hinv Hv.
  - exists h, bs, c. split; [done|]. split; [done|]. split; [done|]. split; [done|]. split; [done|]. intros j.
    destruct (Z.leb_spec i j), (Z.ltb_spec j (i + Z.of_nat 0)); (done || lia).
  - rewrite for_loop_S, (Hbody i h bs c) by (done || lia).
    destruct (store_outcome h bs Hinv p c) with (i := i) (v := f i) as (h1 & bs1 & -> & Hinv1 & Hfr1 & Hv1);
      [by rewrite Hv, lookup_insert_eq|lia|by apply Hf; lia|]. rewrite bind_some. rewrite Hv, insert_insert_eq in Hv1.
    destruct (IH (i + 1) h1 bs1 (<[Z.to_nat i := f i]> c)) as (h' & bs' & c' & -> & Hinv' & Hfr' & Hv' & Hl' & Hrd);
      [lia|lia|rewrite length_insert; lia|done|done|]. exists h', bs', c'. rewrite length_insert in Hl'.
    split; [done|]. split; [done|]. split; [congruence|]. split; [done|]. split; [done|]. intros j. rewrite Hrd.
    assert (wr c i (f i) = Some (<[Z.to_nat i := f i]> c)) as Hw by (apply wr_ok; lia).
    rewrite (rd_wr c i j (f i) _ Hw). destruct (Z.eqb_spec i j) as [<-|Hne].
    + destruct (Z.leb_spec (i + 1) i), (Z.leb_spec i i), (Z.ltb_spec i (i + Z.of_nat (S n))); (done || lia).
    + destruct (Z.leb_spec (i + 1) j), (Z.leb_spec i j), (Z.ltb_spec j (i + 1 + Z.of_nat n)), (Z.ltb_spec j (i + Z.of_nat (S n)));
        (done || lia).
Qed.
End loops.

(** ** [kmalloc] and [kcalloc] *)

Lemma malloc_outcome h bs size :
  heap_inv h bs -> 0 < size <= 2 ^ 32 - 24 ->
  exists h' p bs', kmalloc h size = Some (h', p) /\ heap_inv h' bs' /\ heap_first h' = heap_first h /\
    heap_allocation_base h' = heap_allocation_base h /\ heap_invalid_frees h' = heap_invalid_frees h /\
    ((p = 0 /\ view h' bs' = view h bs /\ bs' = bs /\ Forall (fun b => fits_in (needed size) b = false) bs) \/
     (p <> 0 /\ view h bs !! p = None /\ exists c, Z.of_nat (length c) = size /\ view h' bs' = <[p := c]> (view h bs))).
Proof.
  intros Hi Hs. destruct (kmalloc_outcome h bs Hi size Hs) as (h' & p & bs' & Hk & Hi' & (Hf & Hb & Hv & _) & Hcase).
  exists h', p, bs'. split; [done|]. split; [done|]. split; [done|]. split; [done|]. split; [done|].
  destruct Hcase as [(-> & -> & -> & Hall)|Hcase]; [by left|right]. by apply (malloc_view h bs size h' p bs').
Qed.

Lemma clear_outcome h bs p c :
  heap_inv h bs -> view h bs !! p = Some c ->
  exists h' bs', clear_bytes h p (Z.of_nat (length c)) = Some h' /\ heap_inv h' bs' /\ frame_of h' = frame_of h /\
    view h' bs' = <[p := replicate (length c) 0]> (view h bs).
Proof.
  intros Hi Hc. unfold clear_bytes. rewrite Nat2Z.id.
  destruct (fill_loop p (Z.of_nat (length c)) (view h bs) (fun _ => 0) (fun index h => store8 h (p + index) 0)) with (n := length c) (i := 0) (h := h) (bs := bs) (c := c)
    as (h' & bs' & c' & Hl & Hi' & Hfr & Hv & Hlen & Hrd); [intros; split; done|done|lia|lia|lia|done|by rewrite insert_id|].
  exists h', bs'. split; [done|]. split; [done|]. split; [done|]. rewrite Hv. f_equal. apply rd_eq; [by rewrite length_replicate|].
  intros j Hj. rewrite Hrd. rewrite Hlen in Hj. destruct (Z.leb_spec 0 j), (Z.ltb_spec j (0 + Z.of_nat (length c))); try lia.
  symmetry. apply rd_Some. split; [lia|]. apply lookup_replicate. split; [done|lia].
Qed.

(** Nothing is allocated, and the heap is as it was. *)
Definition unchanged (h : heap) (bs : list blk) (h' : heap) (bs' : list blk) : Prop :=
  bs' = bs /\ view h' bs' = view h bs /\ heap_used h' = heap_used h /\ heap_allocations h' = heap_allocations h.

(** An allocation at [p] with bytes [c] appears. *)
Definition appears (h : heap) (bs : list blk) (h' : heap) (bs' : list blk) (p : Z) (c : list Z) : Prop :=
  p <> 0 /\ view h bs !! p = None /\ view h' bs' = <[p := c]> (view h bs).

Lemma product_overflow count size : 0 < count -> (U64_MAX / count <? size) = (U64_MAX <? count * size).
Proof.
  intros Hc. destruct (Z.ltb_spec (U64_MAX / count) size) as [H|H], (Z.ltb_spec U64_MAX (count * size)) as [H'|H']; try done.
  - pose proof (Z.div_le_lower_bound U64_MAX count size). lia.
  - pose proof (Z.mul_div_le U64_MAX count Hc). nia.
Qed.

Lemma kcalloc_outcome h bs count size :
  heap_inv h bs -> 0 < count -> 0 < size -> count * size <= 2 ^ 32 - 24 ->
  exists h' p bs', kcalloc h count size = Some (h', p) /\ heap_inv h' bs' /\ heap_first h' = heap_first h /\
    heap_allocation_base h' = heap_allocation_base h /\ heap_invalid_frees h' = heap_invalid_frees h /\
    ((p = 0 /\ view h' bs' = view h bs /\ bs' = bs /\ Forall (fun b => fits_in (needed (count * size)) b = false) bs) \/
     appears h bs h' bs' p (replicate (Z.to_nat (count * size)) 0)).
Proof.
  intros Hi Hc Hs Hmax. assert (0 < count * size) by nia. change (2 ^ 32 - 24) with 4294967272 in Hmax. unfold kcalloc.
  rewrite (proj2 (Z.eqb_neq count 0)), (proj2 (Z.eqb_neq size 0)) by lia. cbn [orb].
  rewrite product_overflow, (proj2 (Z.ltb_ge _ _)) by (unfold U64_MAX; lia). rewrite u64_small by warith.
  destruct (malloc_outcome h bs (count * size) Hi) as (h1 & p & bs1 & -> & Hi1 & Hf1 & Hb1 & Hv1 & Hcase);
    [change (2 ^ 32 - 24) with 4294967272; lia|]. rewrite bind_some.
  destruct Hcase as [(-> & Hcase)|(Hp & Hnone & c & Hlen & Hview)].
  - exists h1, 0, bs1. split; [done|]. split; [done|]. split; [done|]. split; [done|]. split; [done|]. by left.
  - rewrite (proj2 (Z.eqb_neq p 0)) by done. rewrite <- Hlen.
    destruct (clear_outcome h1 bs1 p c Hi1) as (h2 & bs2 & -> & Hi2 & Hfr & Hview2); [by rewrite Hview, lookup_insert_eq|].
    rewrite bind_some. unfold frame_of in Hfr. injection Hfr as Hf2 Hb2 Hx2 Hv2.
    exists h2, p, bs2. split; [done|]. split; [done|]. split; [congruence|]. split; [congruence|]. split; [congruence|]. right.
    split; [done|]. split; [done|]. rewrite Hview2, Hview, insert_insert_eq, Nat2Z.id. done.
Qed.

(** ** [kfree] *)

Lemma free_outcome h bs p c :
  heap_inv h bs -> view h bs !! p = Some c ->
  exists h' bs', kfree h p = Some (inl h') /\ heap_inv h' bs' /\ heap_first h' = heap_first h /\
    heap_failures h' = heap_failures h /\ heap_invalid_frees h' = heap_invalid_frees h /\
    check_block h' (p - sizeof_block) = Some (inl false) /\ view h' bs' = delete p (view h bs).
Proof.
  intros Hi Hc. destruct (view_zip h bs p c Hi Hc) as (l & b & r & -> & -> & Hb & _).
  destruct (kfree_outcome h l b r Hi Hb) as (h' & bs' & Hk & Hi' & Hf & Hx & Hv & Hst & Hview).
  exists h', bs'. replace (addr h l + sizeof_block - sizeof_block) with (addr h l) by lia.
  split_and!; try done. unfold view. by rewrite Hf.
Qed.

(** ** [krealloc] *)

Lemma copy_outcome h bs p q c d :
  heap_inv h bs -> p <> q -> view h bs !! p = Some c -> view h bs !! q = Some d -> (length c <= length d)%nat ->
  exists h' bs' d', copy_bytes h q p (Z.of_nat (length c)) = Some h' /\ heap_inv h' bs' /\ frame_of h' = frame_of h /\
    view h' bs' = <[q := c ++ d']> (view h bs) /\ length d' = (length d - length c)%nat.
Proof.
  intros Hi Hne Hc Hd Hlen. unfold copy_bytes. rewrite Nat2Z.id. pose proof (view_bytes h bs p c Hi Hc) as Hbytes.
  set (f := fun j => match rd c j with Some x => x | None => 0 end).
  assert (Hfc : forall j, 0 <= j < Z.of_nat (length c) -> rd c j = Some (f j) /\ fits 8 (f j)).
  { intros j Hj. unfold f. destruct (rd_ok c j) as [x Hx]; [lia|]. rewrite Hx. split; [done|].
    apply rd_Some in Hx as [_ Hx]. exact (Forall_lookup_1 _ _ _ _ Hbytes Hx). }
  destruct (fill_loop q (Z.of_nat (length c)) (view h bs) f (fun index h => x ← load8 h (p + index); store8 h (q + index) x))
    with (n := length c) (i := 0) (h := h) (bs := bs) (c := d)
    as (h' & bs' & d' & Hl & Hi' & Hfr & Hv & Hld & Hrd0); try lia; try done.
  { intros j Hj. by apply Hfc. }
  { intros j h1 bs1 c1 Hj Hi1 Hv1. rewrite (load_outcome h1 bs1 Hi1 p c) by (try lia; by rewrite Hv1, lookup_insert_ne).
    by rewrite (proj1 (Hfc j Hj)), bind_some. }
  { by rewrite insert_id. }
  assert (Hrd : forall j, 0 <= j < Z.of_nat (length c) -> rd d' j = rd c j).
  { intros j Hj. rewrite Hrd0, (proj1 (Hfc j Hj)).
    destruct (Z.leb_spec 0 j), (Z.ltb_spec j (0 + Z.of_nat (length c))); (done || lia). }
  exists h', bs', (drop (length c) d').
  split; [done|]. split; [done|]. split; [done|]. rewrite length_drop, Hld. split; [|done]. rewrite Hv. f_equal.
  rewrite <- (take_drop (length c) d') at 1. f_equal. apply rd_eq; [rewrite length_take; lia|].
  intros j Hj. rewrite length_take in Hj. rewrite <- Hrd by lia. unfold rd. destruct (j <? 0); [done|]. by rewrite lookup_take_lt by lia.
Qed.

Lemma requested_outcome h bs p c :
  heap_inv h bs -> view h bs !! p = Some c -> get_requested h (p - sizeof_block) = Some (Z.of_nat (length c)).
Proof.
  intros Hi Hc. destruct (view_zip h bs p c Hi Hc) as (l & b & r & -> & -> & _ & _ & -> & _).
  replace (addr h l + sizeof_block - sizeof_block) with (addr h l) by lia.
  apply (on_here (fun h' => get_requested h' (addr h l)) h _ _ Hi). by apply requested_zip, (inv_placed _ _ Hi).
Qed.

Lemma checked_outcome h bs p c :
  heap_inv h bs -> view h bs !! p = Some c -> p <> 0 /\ check_block h (p - sizeof_block) = Some (inl true).
Proof.
  intros Hi Hc. destruct (view_zip h bs p c Hi Hc) as (l & b & r & -> & -> & Hb & _).
  destruct (placed_parts h l b r (inv_placed _ _ Hi)) as (_ & _ & _ & Hf & _ & Ha).
  split; [unfold sizeof_block; lia|]. replace (addr h l + sizeof_block - sizeof_block) with (addr h l) by lia.
  by apply (block_checked h l b r).
Qed.

Lemma shrink_outcome h bs p c size :
  heap_inv h bs -> view h bs !! p = Some c -> 0 < size <= Z.of_nat (length c) ->
  exists h' bs', set_requested h (p - sizeof_block) size = Some h' /\ heap_inv h' bs' /\ frame_of h' = frame_of h /\
    view h' bs' = <[p := take (Z.to_nat size) c]> (view h bs).
Proof.
  intros Hi Hc Hs. destruct (view_zip h bs p c Hi Hc) as (l & b & r & -> & -> & Hb & -> & Hlen & Hq & Hqs & Hg).
  pose proof (inv_placed _ _ Hi) as Hp. destruct (placed_parts h l b r Hp) as (_ & [] & _). rewrite Hlen in Hs.
  destruct (heap_inv_update h l b (with_req b size) r Hi Hb Hb) as [Hi' Hview]; [done|constructor; try done; unfold fits in *; cbn; lia|done|cbn; lia|unfold bsize in *; cbn; lia|].
  exists (here h (l ++ with_req b size :: r)), (l ++ with_req b size :: r).
  replace (addr h l + sizeof_block - sizeof_block) with (addr h l) by lia.
  rewrite (on_here (fun h' => set_requested h' (addr h l) size) h _ _ Hi (set_requested_zip h l b r Hp size)).
  split; [done|]. split; [done|]. split; [done|].
  change (view (here h (l ++ with_req b size :: r)) (l ++ with_req b size :: r)) with (view h (l ++ with_req b size :: r)).
  rewrite Hview. cbn [with_req breq bdata]. rewrite take_take. by replace (Z.to_nat size `min` Z.to_nat (breq b))%nat with (Z.to_nat size) by lia.
Qed.

Lemma krealloc_outcome h bs p c size :
  heap_inv h bs -> view h bs !! p = Some c -> 0 < size <= 2 ^ 32 - 24 ->
  exists h' r bs', krealloc h p size = Some (inl (h', r)) /\ heap_inv h' bs' /\ heap_first h' = heap_first h /\
    heap_invalid_frees h' = heap_invalid_frees h /\
    ((size <= Z.of_nat (length c) /\ r = p /\ view h' bs' = <[p := take (Z.to_nat size) c]> (view h bs)) \/
     (Z.of_nat (length c) < size /\ r = 0 /\ view h' bs' = view h bs /\
      Forall (fun b => fits_in (needed size) b = false) bs) \/
     (Z.of_nat (length c) < size /\ r <> 0 /\ view h bs !! r = None /\
      exists d, Z.of_nat (length d) = size - Z.of_nat (length c) /\ view h' bs' = <[r := c ++ d]> (delete p (view h bs)))).
Proof.
  intros Hi Hc Hs. destruct (checked_outcome h bs p c Hi Hc) as [Hp0 Hck]. unfold krealloc.
  rewrite (proj2 (Z.eqb_neq p 0)), (proj2 (Z.eqb_neq size 0)) by (done || lia). cbv zeta.
  rewrite Hck, bind_some, (requested_outcome h bs p c Hi Hc), bind_some.
  destruct (Z.leb_spec size (Z.of_nat (length c))) as [Hle|Hgt].
  - destruct (shrink_outcome h bs p c size Hi Hc ltac:(lia)) as (h' & bs' & -> & Hi' & Hfr & Hv). rewrite bind_some.
    unfold frame_of in Hfr. injection Hfr as ? ? ? ?. exists h', p, bs'. split_and!; try done. by left.
  - change (kmalloc_unlocked h size) with (kmalloc h size).
    destruct (malloc_outcome h bs size Hi Hs) as (h1 & q & bs1 & -> & Hi1 & Hf1 & Hb1 & Hv1 & Hcase). rewrite bind_some.
    destruct Hcase as [(-> & Hview & _ & Hall)|(Hq & Hnone & d & Hlen & Hview)].
    { exists h1, 0, bs1. split_and!; try done. right. left. by split_and!. }
    rewrite (proj2 (Z.eqb_neq q 0)) by done. assert (p <> q) as Hne by congruence.
    assert (view h1 bs1 !! p = Some c) as Hc1 by (by rewrite Hview, lookup_insert_ne by done).
    rewrite (requested_outcome h1 bs1 p c Hi1 Hc1), bind_some.
    destruct (copy_outcome h1 bs1 p q c d Hi1 Hne Hc1) as (h2 & bs2 & d' & -> & Hi2 & Hfr2 & Hview2 & Hld);
      [by rewrite Hview, lookup_insert_eq|lia|]. rewrite bind_some. unfold frame_of in Hfr2. injection Hfr2 as Hf2 Hb2 Hx2 Hv2.
    change (kfree_unlocked h2 p) with (kfree h2 p). destruct (free_outcome h2 bs2 p c Hi2) as (h3 & bs3 & -> & Hi3 & Hf3 & Hx3 & Hv3 & _ & Hview3).
    { rewrite Hview2, lookup_insert_ne by done. done. }
    rewrite bind_some. exists h3, q, bs3. split; [done|]. split; [done|]. split; [congruence|]. split; [congruence|].
    right. right. split; [done|]. split; [done|]. split; [done|]. exists d'. split; [lia|].
    rewrite Hview3, Hview2, Hview, insert_insert_eq. by rewrite delete_insert_ne by done.
Qed.
