(* ===== verification/HeapSpec.v ===== *)
(** * The heap: claims

    Validation and statistics, the errors that [kfree] detects, the whole
    interface as a refinement of a map from addresses to bytes, and
    initialisation. *)

From S2P Require Import Prelude Arith Buffer Pmm Vmm VmmCorrect VmmPages Heap HeapLayout HeapBlocks HeapCorrect HeapClient.

#[local] Open Scope Z_scope.

Lemma last_addr_snoc a prev l b : last_addr a prev (l ++ [b]) = a + spans l.
Proof.
  revert a prev. induction l as [|x l IH]; intros a prev; cbn [app last_addr spans]; [lia|]. rewrite IH. lia.
Qed.

Section fields.
Context (h : heap) (l : list blk) (b : blk) (r : list blk) (Hi : heap_inv h (l ++ b :: r)).

Lemma inv_fields :
  get_magic h (addr h l) = Some HEAP_MAGIC /\ get_previous h (addr h l) = Some (last_addr (heap_first h) 0 l) /\
  get_size h (addr h l) = Some (bsize b) /\ get_next h (addr h l) = Some (next_of (addr h l + span b) 0 r) /\
  get_free h (addr h l) = Some (if bfree b then 1 else 0).
Proof using Hi.
  pose proof (inv_placed _ _ Hi) as Hp. split_and!.
  - by apply (on_here (fun h' => get_magic h' (addr h l)) h _ _ Hi), magic_zip.
  - by apply (on_here (fun h' => get_previous h' (addr h l)) h _ _ Hi), (previous_zip h l b r).
  - by apply (on_here (fun h' => get_size h' (addr h l)) h _ _ Hi), size_zip.
  - by apply (on_here (fun h' => get_next h' (addr h l)) h _ _ Hi), next_zip.
  - by apply (on_here (fun h' => get_free h' (addr h l)) h _ _ Hi), free_zip.
Qed.

(** Where the block is. *)
Lemma inv_bounds :
  0 < heap_first h /\ heap_first h <= addr h l /\ addr h l + span b + spans r = heap_first h + 1048576 /\
  heap_first h + 1048576 < 2 ^ 64 /\ 0 <= spans r /\ 0 <= bsize b /\ span b = 40 + bsize b /\
  40 * (Z.of_nat (length l) + 1 + Z.of_nat (length r)) <= 1048576.
Proof using Hi.
  pose proof (inv_placed _ _ Hi) as (Hf & Hend & _). pose proof (inv_spans _ _ Hi) as Hsp. pose proof (blocks_bound (l ++ b :: r)) as Hc.
  rewrite Hsp in Hend, Hc. rewrite length_app in Hc. cbn [length] in Hc. rewrite spans_app in Hsp. cbn [spans] in Hsp.
  change heap_total_bytes with 1048576 in *. pose proof (spans_pos r). pose proof (spans_pos l).
  assert (0 <= bsize b /\ span b = 40 + bsize b) as [? ?] by (split; [unfold bsize; lia|done]). unfold addr. split_and!; lia.
Qed.

Lemma canary_intact :
  (if (if bfree b then 1 else 0) =? 0
   then c ← block_canary h (addr h l); v ← load64 h c; Some (negb (v =? HEAP_CANARY ^^^ addr h l)) else Some false) = Some false.
Proof using Hi.
  destruct (bfree b) eqn:Hb; cbn [Z.eqb]; [done|]. destruct (block_guard h l b r Hi Hb) as ([d Hd] & _ & Hs).
  pose proof (inv_placed _ _ Hi) as Hp. destruct inv_bounds as (? & ? & ? & ? & ? & ? & ? & _).
  rewrite (on_here (fun h' => block_canary h' (addr h l)) h _ _ Hi (canary_zip h l b r Hp ltac:(unfold bsize in *; rewrite Hd, length_app, length_le_bytes; lia))), bind_some.
  rewrite (on_here (fun h' => load64 h' (addr h l + sizeof_block + bsize b - 8)) h _ _ Hi
    (load64_zip h l b r Hp d (canary (addr h l)) Hd ltac:(apply canary_fits; unfold fits; lia))), bind_some.
  unfold canary. by rewrite Z.eqb_refl.
Qed.
End fields.

(** ** Validation *)

Section validate.
Context (h : heap) (bs : list blk) (Hi : heap_inv h bs).
Notation step := (validate_step h (heap_first h) (u64 (heap_first h + HEAP_PAGES * 4096))).

Lemma validate_step_zip l b r :
  bs = l ++ b :: r ->
  step (addr h l, last_addr (heap_first h) 0 l, Z.of_nat (length l)) =
    Some (inl (next_of (addr h (l ++ [b])) 0 r, last_addr (heap_first h) 0 (l ++ [b]), Z.of_nat (length (l ++ [b])))).
Proof using Hi.
  intros E. assert (heap_inv h (l ++ b :: r)) as Hi' by (by rewrite <- E).
  destruct (inv_fields h l b r Hi') as (G1 & G2 & G3 & G4 & G5). pose proof (canary_intact h l b r Hi') as G6.
  destruct (inv_bounds h l b r Hi') as (Hf & Ha & Hend & Htop & Hr & Hb & Es & Hcount).
  unfold validate_step. change (HEAP_PAGES * 4096) with 1048576. assert (sizeof_block = 40) as S40 by done.
  rewrite (proj2 (Z.eqb_neq (addr h l) 0)) by lia.
  rewrite (u64_small (heap_first h + 1048576)), (u64_small (addr h l + sizeof_block)) by (unfold fits; lia).
  rewrite (proj2 (Z.ltb_ge (addr h l) _)), (proj2 (Z.ltb_ge (heap_first h + 1048576) (addr h l + sizeof_block))) by lia.
  cbn [orb]. rewrite G1, bind_some, G2, bind_some, !Z.eqb_refl, G3, bind_some. cbn [negb orb].
  rewrite (u64_small (addr h l + sizeof_block + bsize b)) by (unfold fits; lia).
  rewrite (proj2 (Z.ltb_ge (heap_first h + 1048576) _)) by lia.
  rewrite (u32_small (Z.of_nat (length l) + 1)) by (unfold fits; change (2 ^ 32) with 4294967296; lia).
  rewrite (proj2 (Z.ltb_ge 65536 _)) by lia. rewrite G4, bind_some, G5, bind_some, G6.
  replace (addr h l + sizeof_block + bsize b) with (addr h l + span b) by lia.
  replace (negb (next_of (addr h l + span b) 0 r =? 0) && negb (next_of (addr h l + span b) 0 r =? addr h l + span b)) with false
    by (destruct r; cbn [next_of]; [done|by rewrite Z.eqb_refl, andb_false_r]).
  rewrite bind_some, snoc_addr, last_addr_snoc, length_app. cbn [length].
  by replace (Z.of_nat (length l + 1)) with (Z.of_nat (length l) + 1) by lia.
Qed.

Lemma validate_loop r l fuel :
  bs = l ++ r -> (length r < fuel)%nat ->
  while_loop fuel step (next_of (addr h l) 0 r, last_addr (heap_first h) 0 l, Z.of_nat (length l)) = Some 0.
Proof using Hi.
  revert l fuel. induction r as [|b r IH]; intros l fuel E Hfuel; destruct fuel as [|fuel]; cbn [length] in *; try lia;
    rewrite while_loop_S; [done|]. cbn [next_of].
  rewrite (validate_step_zip l b r E), bind_some. apply IH; [by rewrite <- app_assoc|lia].
Qed.

Lemma first_block : heap_first h = next_of (addr h []) 0 bs.
Proof using Hi. pose proof (inv_nonempty _ _ Hi). destruct bs; [done|]. cbn [next_of]. unfold addr. cbn [spans]. lia. Qed.

Lemma block_count : 40 * Z.of_nat (length bs) <= 1048576.
Proof using Hi. pose proof (blocks_bound bs) as Hc. by rewrite (inv_spans _ _ Hi) in Hc. Qed.

Lemma validate_outcome : heap_validate h = Some 0.
Proof using Hi.
  pose proof block_count. pose proof (validate_loop bs [] (Z.to_nat 65536 + 2) eq_refl ltac:(lia)) as H'.
  rewrite <- first_block in H'. exact H'.
Qed.

(** ** Statistics *)

Definition free_bytes (r : list blk) : Z := foldr (fun b n => if bfree b then bsize b + n else n) 0 r.
Definition free_count (r : list blk) : Z := foldr (fun b n => if bfree b then 1 + n else n) 0 r.
Definition largest_free (r : list blk) (n : Z) : Z := foldl (fun n b => if bfree b then Z.max n (bsize b) else n) n r.

Lemma free_bounds r : 0 <= free_bytes r <= spans r /\ 0 <= free_count r <= Z.of_nat (length r).
Proof using Type.
  induction r as [|b r IH]; cbn [free_bytes free_count foldr length spans]; [lia|]. fold (free_bytes r) (free_count r).
  unfold span, bsize, sizeof_block in *. destruct (bfree b); lia.
Qed.

Lemma stats_step_zip l b r t u f m a af i fb :
  bs = l ++ b :: r -> 0 <= f -> f + free_bytes (b :: r) <= 1048576 -> 0 <= fb -> fb + free_count (b :: r) <= 65536 ->
  stats_step h (addr h l, HeapStats t u f m a af i (Z.of_nat (length l)) fb) =
    Some (inl (next_of (addr h (l ++ [b])) 0 r,
      HeapStats t u (f + if bfree b then bsize b else 0) (if bfree b then Z.max m (bsize b) else m) a af i
        (Z.of_nat (length (l ++ [b]))) (fb + if bfree b then 1 else 0))).
Proof using Hi.
  intros E Hf0 Hf1 Hb0 Hb1. assert (heap_inv h (l ++ b :: r)) as Hi' by (by rewrite <- E).
  destruct (inv_fields h l b r Hi') as (G1 & _ & G3 & G4 & G5). destruct (inv_bounds h l b r Hi') as (Hf & Ha & _ & _ & _ & Hb & _ & Hc).
  pose proof (free_bounds r). cbn [free_bytes free_count foldr] in Hf1, Hb1. fold (free_bytes r) in Hf1. fold (free_count r) in Hb1.
  unfold stats_step. rewrite (proj2 (Z.eqb_neq (addr h l) 0)) by lia.
  rewrite G1, bind_some, Z.eqb_refl. cbn [st_blocks negb]. rewrite (proj2 (Z.ltb_lt _ _)) by lia. cbn [negb orb].
  rewrite G5, bind_some, G3, bind_some, G4, bind_some, snoc_addr, length_app. cbn [length].
  rewrite (u32_small (Z.of_nat (length l) + 1)) by (unfold fits; change (2 ^ 32) with 4294967296; lia).
  replace (Z.of_nat (length l + 1)) with (Z.of_nat (length l) + 1) by lia.
  destruct (bfree b); cbn [Z.eqb negb]; [|by rewrite !Z.add_0_r].
  rewrite (u64_small (f + bsize b)) by (unfold fits; change (2 ^ 64) with 18446744073709551616; lia).
  rewrite (u32_small (fb + 1)) by (unfold fits; change (2 ^ 32) with 4294967296; lia).
  do 4 f_equal. destruct (Z.ltb_spec m (bsize b)); lia.
Qed.

Lemma stats_loop r l fuel t u f m a af i fb :
  bs = l ++ r -> (length r < fuel)%nat -> 0 <= f -> f + free_bytes r <= 1048576 -> 0 <= fb -> fb + free_count r <= 65536 ->
  while_loop fuel (stats_step h) (next_of (addr h l) 0 r, HeapStats t u f m a af i (Z.of_nat (length l)) fb) =
    Some (HeapStats t u (f + free_bytes r) (largest_free r m) a af i (Z.of_nat (length bs)) (fb + free_count r)).
Proof using Hi.
  revert l fuel f m fb.
  induction r as [|b r IH]; intros l fuel f m fb E Hfuel Hf0 Hf1 Hb0 Hb1; destruct fuel as [|fuel]; cbn [length] in *; try lia;
    rewrite while_loop_S.
  - rewrite app_nil_r in E. subst l. cbn [next_of stats_step Z.eqb]. rewrite bind_some. cbn [free_bytes free_count largest_free foldr foldl].
    by rewrite !Z.add_0_r.
  - cbn [next_of]. rewrite (stats_step_zip l b r t u f m a af i fb) by done. rewrite bind_some.
    cbn [free_bytes free_count largest_free foldr foldl] in *. fold (free_bytes r) in *. fold (free_count r) in *.
    assert (0 <= bsize b) by (unfold bsize; lia).
    rewrite IH; [|by rewrite <- app_assoc|lia|destruct (bfree b); lia..].
    fold (largest_free r (if bfree b then Z.max m (bsize b) else m)). f_equal. f_equal; destruct (bfree b); lia.
Qed.

Lemma stats_outcome :
  heap_get_stats h =
    Some (HeapStats heap_total_bytes (used_bytes bs) (free_bytes bs) (largest_free bs 0) (used_count bs) (heap_failures h)
      (heap_invalid_frees h) (Z.of_nat (length bs)) (free_count bs)).
Proof using Hi.
  pose proof block_count. pose proof (free_bounds bs) as Hb. rewrite (inv_spans _ _ Hi) in Hb. change heap_total_bytes with 1048576 in Hb.
  unfold heap_get_stats. rewrite first_block, (inv_used _ _ Hi), (inv_count _ _ Hi).
  apply (stats_loop bs []); (done || lia).
Qed.

(** Every byte of the heap is a header's, a free block's or a used block's. *)
Lemma bytes_accounted : used_bytes bs + free_bytes bs + sizeof_block * Z.of_nat (length bs) = heap_total_bytes /\
  used_count bs + free_count bs = Z.of_nat (length bs).
Proof using Hi.
  rewrite <- (inv_spans _ _ Hi). clear Hi.
  induction bs as [|b r IH]; cbn [used_bytes used_count free_bytes free_count foldr spans length]; [done|].
  fold (free_bytes r) (free_count r). unfold span, sizeof_block in *. destruct (bfree b); lia.
Qed.
End validate.

(** ** The interface as a map *)

Inductive heap_op :=
  | OpMalloc (size : Z)
  | OpCalloc (count size : Z)
  | OpRealloc (address size : Z)
  | OpFree (address : Z)
  | OpWrite (address index v : Z).

(** An operation and its result; a write and a free return nothing. *)
Definition heap_exec (h : heap) (op : heap_op) : option (or_panic (heap * Z)) :=
  match op with
  | OpMalloc size => returns (kmalloc h size)
  | OpCalloc count size => returns (kcalloc h count size)
  | OpRealloc address size => krealloc h address size
  | OpFree address => pbind (kfree h address) (fun h => Some (inl (h, 0)))
  | OpWrite address index v => returns (h ← store8 h (address + index) v; Some (h, 0))
  end.

(** What a client may do: pass on pointers that it holds, write the bytes it
    asked for, and ask for at most 2^32 - 24 bytes.  Above that, [align16]
    (heap.c:37) drops the high bits of the size: a request for 4 GiB can get a
    block of 16 bytes, and [kcalloc] then clears far beyond it. *)
Definition small (size : Z) : Prop := 0 <= size <= 2 ^ 32 - 24.
Definition allowed (V : gmap Z (list Z)) (op : heap_op) : Prop :=
  match op with
  | OpMalloc size => small size
  | OpCalloc count size => fits 64 count /\ fits 64 size /\ (small (count * size) \/ 2 ^ 64 <= count * size)
  | OpRealloc address size => (address = 0 \/ is_Some (V !! address)) /\ small size
  | OpFree address => address = 0 \/ is_Some (V !! address)
  | OpWrite address index v => exists c, V !! address = Some c /\ 0 <= index < Z.of_nat (length c) /\ fits 8 v
  end.

(** A new allocation of [n] bytes that satisfy [P], or NULL. *)
Definition new_or_null (V : gmap Z (list Z)) (n : Z) (P : list Z -> Prop) (V0 V' : gmap Z (list Z)) (r : Z) : Prop :=
  (r = 0 /\ V' = V) \/
  (r <> 0 /\ 0 < n /\ V !! r = None /\ exists c, Z.of_nat (length c) = n /\ P c /\ V' = <[r := c]> V0).

Definition heap_spec (V : gmap Z (list Z)) (op : heap_op) (V' : gmap Z (list Z)) (r : Z) : Prop :=
  match op with
  | OpMalloc size => new_or_null V size (fun _ => True) V V' r
  | OpCalloc count size => new_or_null V (count * size) (fun c => c = replicate (length c) 0) V V' r
  | OpFree address => r = 0 /\ V' = delete address V
  | OpWrite address index v => exists c, V !! address = Some c /\ r = 0 /\ V' = <[address := <[Z.to_nat index := v]> c]> V
  | OpRealloc address size =>
    if address =? 0 then new_or_null V size (fun _ => True) V V' r
    else if size =? 0 then r = 0 /\ V' = delete address V
    else exists c, V !! address = Some c /\
      if size <=? Z.of_nat (length c) then r = address /\ V' = <[address := take (Z.to_nat size) c]> V
      else new_or_null V size (fun c' => take (length c) c' = c) (delete address V) V' r
  end.

(** Allocations are in the heap and do not overlap. *)
Definition separate (first : Z) (V : gmap Z (list Z)) : Prop :=
  (forall p c, V !! p = Some c -> first < p /\ p + Z.of_nat (length c) <= first + heap_total_bytes) /\
  (forall p c q d, V !! p = Some c -> V !! q = Some d -> p < q -> p + Z.of_nat (length c) < q).

Lemma view_separate h bs : heap_inv h bs -> separate (heap_first h) (view h bs).
Proof.
  intros Hi. split.
  - intros p c Hc. destruct (view_zip h bs p c Hi Hc) as (l & b & r & -> & -> & _ & _ & Hlen & _ & Hs & _).
    destruct (inv_bounds h l b r Hi) as (_ & ? & ? & _ & ? & ? & ? & _). change heap_total_bytes with 1048576.
    change sizeof_block with 40. lia.
  - intros p c q d Hp Hq Hlt. destruct (view_zip h bs p c Hi Hp) as (l & b & r & E & -> & _ & _ & Hlen & _ & Hs & _).
    rewrite E in Hq. unfold view in Hq. rewrite allocs_split in Hq. unfold addr in Hlt.
    rewrite (proj2 (Z.ltb_ge q _)) in Hq by lia. cbn [allocs] in Hq.
    assert (allocs (heap_first h + spans l + span b) r !! q = Some d) as Hq'.
    { destruct (bfree b); [done|]. by rewrite lookup_insert_ne in Hq by lia. }
    apply allocs_above in Hq'. rewrite Hlen. unfold span, addr in *. change sizeof_block with 40 in *. lia.
Qed.

Lemma view_nonzero h bs : heap_inv h bs -> view h bs !! 0 = None.
Proof.
  intros Hi. destruct (view h bs !! 0) as [c|] eqn:E; [|done]. destruct (checked_outcome h bs 0 c Hi E) as [? _]. done.
Qed.

Lemma inv_failure h bs : heap_inv h bs -> heap_inv (with_failure h) bs.
Proof. by intros []. Qed.

Section steps.
Context (h : heap) (bs : list blk) (Hi : heap_inv h bs).
Notation done_with op := (exists h' r bs', heap_exec h op = Some (inl (h', r)) /\ heap_inv h' bs' /\
  heap_first h' = heap_first h /\ heap_spec (view h bs) op (view h' bs') r).

Lemma malloc_step size :
  small size -> exists h' r bs', kmalloc h size = Some (h', r) /\ heap_inv h' bs' /\ heap_first h' = heap_first h /\
    new_or_null (view h bs) size (fun _ => True) (view h bs) (view h' bs') r.
Proof using Hi.
  intros [H0 Hs]. destruct (Z.eq_dec size 0) as [->|Hne]; [by exists h, 0, bs; split_and!; try done; left|].
  destruct (malloc_outcome h bs size Hi) as (h' & p & bs' & Hk & Hi' & Hf & _ & _ & Hcase); [lia|]. exists h', p, bs'.
  split; [done|]. split; [done|]. split; [done|]. destruct Hcase as [(-> & Hv & _)|(Hp & Hnone & c & Hlen & Hv)]; [by left|right].
  split; [done|]. split; [lia|]. split; [done|]. by exists c.
Qed.

Lemma exec_malloc size : allowed (view h bs) (OpMalloc size) -> done_with (OpMalloc size).
Proof using Hi.
  intros Hs. destruct (malloc_step size Hs) as (h' & r & bs' & Hk & H). exists h', r, bs'. cbn. unfold returns. by rewrite Hk.
Qed.

Lemma exec_calloc count size : allowed (view h bs) (OpCalloc count size) -> done_with (OpCalloc count size).
Proof using Hi.
  intros ([Hc0 Hc] & [Hs0 Hs] & Hprod). cbn [heap_exec heap_spec]. unfold returns.
  destruct (decide (count = 0 \/ size = 0)) as [Hz|Hnz].
  { exists h, 0, bs. unfold kcalloc. replace ((count =? 0) || (size =? 0)) with true by lia. split; [done|]. split; [done|].
    split; [done|]. by left. }
  destruct Hprod as [Hsmall|Hover].
  - destruct (kcalloc_outcome h bs count size Hi) as (h' & p & bs' & -> & Hi' & Hf & _ & _ & Hcase);
      [lia|lia|unfold small in Hsmall; lia|]. rewrite bind_some. exists h', p, bs'. split; [done|]. split; [done|]. split; [done|].
    destruct Hcase as [(-> & Hv & _)|(Hp & Hnone & Hv)]; [by left|right]. split; [done|]. split; [nia|]. split; [done|].
    eexists. split; [|split; [|exact Hv]]; rewrite length_replicate; [|done]. unfold small in Hsmall. lia.
  - exists (with_failure h), 0, bs. unfold kcalloc. replace ((count =? 0) || (size =? 0)) with false by lia.
    rewrite product_overflow by lia. rewrite (proj2 (Z.ltb_lt _ _)) by (unfold U64_MAX; lia).
    split; [done|]. split; [by apply inv_failure|]. split; [done|]. by left.
Qed.

Lemma exec_free address : allowed (view h bs) (OpFree address) -> done_with (OpFree address).
Proof using Hi.
  intros [->|[c Hc]]; cbn [heap_exec heap_spec].
  - exists h, 0, bs. split; [done|]. split; [done|]. split; [done|]. split; [done|].
    rewrite delete_id; [done|]. by apply (view_nonzero h).
  - destruct (free_outcome h bs address c Hi Hc) as (h' & bs' & -> & Hi' & Hf & _ & _ & _ & Hv). by exists h', 0, bs'.
Qed.

Lemma exec_write address index v : allowed (view h bs) (OpWrite address index v) -> done_with (OpWrite address index v).
Proof using Hi.
  intros (c & Hc & Hidx & Hv). cbn [heap_exec heap_spec].
  destruct (store_outcome h bs Hi address c Hc index v Hidx Hv) as (h' & bs' & -> & Hi' & Hfr & Hview).
  exists h', 0, bs'. split; [done|]. split; [done|]. unfold frame_of in Hfr. injection Hfr as Hf _ _ _. split; [done|]. by exists c.
Qed.

Lemma exec_realloc address size : allowed (view h bs) (OpRealloc address size) -> done_with (OpRealloc address size).
Proof using Hi.
  intros [Ha Hs]. cbn [heap_exec heap_spec]. destruct (Z.eqb_spec address 0) as [->|Hne].
  - destruct (malloc_step size Hs) as (h' & r & bs' & Hk & H). exists h', r, bs'. unfold krealloc. cbn [Z.eqb]. by rewrite Hk.
  - destruct Ha as [|[c Hc]]; [done|]. destruct (Z.eqb_spec size 0) as [->|Hsz].
    + destruct (free_outcome h bs address c Hi Hc) as (h' & bs' & Hk & Hi' & Hf & _ & _ & _ & Hv). exists h', 0, bs'.
      unfold krealloc. rewrite (proj2 (Z.eqb_neq address 0)) by done. cbn [Z.eqb]. by rewrite Hk, bind_some.
    + destruct (krealloc_outcome h bs address c size Hi Hc) as (h' & r & bs' & -> & Hi' & Hf & _ & Hcase); [unfold small in Hs; lia|].
      exists h', r, bs'. split; [done|]. split; [done|]. split; [done|]. exists c. split; [done|].
      destruct Hcase as [(Hle & -> & Hv)|[(Hlt & -> & Hv & _)|(Hlt & Hr & Hnone & d & Hd & Hv)]].
      * rewrite (proj2 (Z.leb_le _ _)) by done. done.
      * rewrite (proj2 (Z.leb_gt _ _)) by done. by left.
      * rewrite (proj2 (Z.leb_gt _ _)) by done. right. split; [done|]. split; [unfold small in Hs; lia|]. split; [done|].
        exists (c ++ d). rewrite length_app, take_app_length. split; [lia|]. by split.
Qed.

Lemma exec_outcome op : allowed (view h bs) op -> done_with op.
Proof using Hi.
  destruct op; intros Ha; [by apply exec_malloc|by apply exec_calloc|by apply exec_realloc|by apply exec_free|by apply exec_write].
Qed.
End steps.

(** ** Capacity *)

Lemma largest_free_spec bs m n :
  m < n -> (largest_free bs m < n <-> Forall (fun b => fits_in n b = false) bs).
Proof.
  revert m. induction bs as [|b bs IH]; intros m Hm; cbn [largest_free foldl]; [by split|].
  fold (largest_free bs (if bfree b then Z.max m (bsize b) else m)). rewrite Forall_cons. unfold fits_in at 1.
  assert (Hmono : forall bs m, m <= largest_free bs m).
  { clear. induction bs as [|b bs IH]; intros m; cbn [largest_free foldl]; [lia|].
    specialize (IH (if bfree b then Z.max m (bsize b) else m)). unfold largest_free in IH. destruct (bfree b); lia. }
  destruct (bfree b); cbn [andb].
  - destruct (Z.leb_spec n (bsize b)) as [Hle|Hgt].
    + split; [|by intros [? _]]. specialize (Hmono bs (Z.max m (bsize b))). lia.
    + rewrite IH by lia. by split; [|intros [_ ?]].
  - rewrite IH by done. by split; [|intros [_ ?]].
Qed.

Section capacity.
Context (h : heap) (bs : list blk) (Hi : heap_inv h bs).

(** The size that is searched for: the request with its canary, rounded up to
    16 bytes, in the 32 bits that the mask of [align16] leaves. *)
Definition searched (size : Z) : Z := needed size mod 2 ^ 32.

Lemma searched_small size : 0 < size <= 2 ^ 32 - 24 -> searched size = needed size.
Proof using Type. intros Hs. destruct (align16_spec size Hs) as (_ & _ & ?). unfold searched, needed. apply Z.mod_small. lia. Qed.

Lemma searched_range size : 0 <= searched size < 2 ^ 32 /\ (searched size <> 0 -> 16 <= searched size).
Proof using Type. unfold searched, needed. pow2. divlia. Qed.

(** When [kmalloc] returns NULL, whatever the request. *)
Definition too_large (size : Z) : Prop := U64_MAX - 8 - 15 < size.
Definition kmalloc_fails (size largest : Z) : Prop := size = 0 \/ too_large size \/ searched size = 0 \/ largest < searched size.

Lemma kmalloc_capacity size :
  fits 64 size ->
  exists stats h' p, heap_get_stats h = Some stats /\ kmalloc h size = Some (h', p) /\
    (p = 0 <-> kmalloc_fails size (st_largest_free_block stats)) /\
    (p <> 0 -> exists n, get_size h' (p - sizeof_block) = Some n /\ searched size <= n) /\
    heap_failures h' = (if decide (p = 0 /\ size <> 0 /\ (too_large size \/ searched size <> 0)) then u64 (heap_failures h + 1) else heap_failures h).
Proof using Hi.
  intros Hs. rewrite (stats_outcome h bs Hi). pose proof (inv_placed h bs Hi) as Hp. pose proof Hp as (Hf & _ & _). unfold fits in Hs.
  unfold kmalloc, kmalloc_unlocked. assert (Hno : forall h' : heap, kmalloc_fails size (largest_free bs 0) ->
    heap_failures h' = (if decide (0 = 0 /\ size <> 0 /\ (too_large size \/ searched size <> 0)) then u64 (heap_failures h + 1) else heap_failures h) ->
    exists stats h'' p, Some (HeapStats heap_total_bytes (used_bytes bs) (free_bytes bs) (largest_free bs 0) (used_count bs) (heap_failures h)
      (heap_invalid_frees h) (Z.of_nat (length bs)) (free_count bs)) = Some stats /\ Some (h', 0) = Some (h'', p) /\
      (p = 0 <-> kmalloc_fails size (st_largest_free_block stats)) /\
      (p <> 0 -> exists n, get_size h'' (p - sizeof_block) = Some n /\ searched size <= n) /\
      heap_failures h'' = (if decide (p = 0 /\ size <> 0 /\ (too_large size \/ searched size <> 0)) then u64 (heap_failures h + 1) else heap_failures h)).
  { intros h' Hfail Hcount. do 3 eexists. split; [done|]. split; [done|]. by split_and!. }
  destruct (Z.eqb_spec size 0) as [->|Hz].
  { apply Hno; [by left|]. rewrite decide_False by (intros (_ & ? & _); done). done. }
  destruct (Z.ltb_spec (U64_MAX - 8 - 15) size) as [Hlarge|Hsmall].
  { apply Hno; [right; by left|]. rewrite decide_True by (split_and!; try done; by left). done. }
  assert (Hnot : ~ too_large size) by (unfold too_large; lia). unfold U64_MAX in Hsmall. change (2 ^ 64) with 18446744073709551616 in *. cbv zeta.
  assert (align16 (u64 (size + 8)) = searched size) as ->.
  { rewrite u64_small by (unfold fits; pow2; lia). rewrite align16_mod by (pow2; lia). unfold searched, needed. do 3 f_equal. lia. }
  destruct (searched_range size) as [Hr H16]. rewrite (proj2 (Z.eqb_neq (heap_first h) 0)) by lia. rewrite orb_false_r.
  destruct (Z.eqb_spec (searched size) 0) as [Ez|Hnz].
  { apply Hno; [do 2 right; by left|]. rewrite decide_False by (intros (_ & _ & [|]); done). done. }
  specialize (H16 Hnz).
  destruct (find_fit_spec h bs (searched size) Hp (inv_nonempty h bs Hi) (inv_spans h bs Hi)) as (x & Hx & Hcase).
  rewrite (on_here (fun h => find_fit h (searched size)) h bs _ Hi Hx), bind_some. destruct x as [block|e].
  2: { destruct Hcase as [-> Hall]. apply (largest_free_spec bs 0 (searched size)) in Hall; [|lia]. apply Hno; [by do 3 right|].
       rewrite decide_True by (split_and!; try done; by right). done. }
  destruct Hcase as (l & b & r & E & -> & Hfit & _). assert (heap_inv h (l ++ b :: r)) as Hi' by (by rewrite <- E).
  assert (Hlf : ~ largest_free bs 0 < searched size).
  { rewrite largest_free_spec by lia. rewrite E, Forall_app, Forall_cons, Hfit. by intros (_ & ? & _). }
  rewrite E in Hp. unfold fits_in in Hfit. apply andb_true_iff in Hfit as [_ Hbs]. pose proof (block_bound h l b r Hi') as Hmax.
  destruct (take_block_spec h l b r (searched size) size Hp Hmax) as (b' & rest & _ & _ & Hbig & _ & Hsp & Hok & _ & Ht); [lia|lia|unfold fits; pow2; lia|].
  rewrite <- E in Ht. rewrite (on_here (fun h' => take_block h' (addr h l) (searched size) size) h bs _ Hi Ht).
  destruct (inv_bounds h l b r Hi') as (_ & Ha & Hend & _). do 3 eexists. split; [done|]. split; [done|].
  assert (addr h l + sizeof_block <> 0) as Hpne by (unfold sizeof_block; lia). split; [|split].
  - split; [done|]. intros [|[|[|]]]; done.
  - intros _. exists (bsize b'). split; [|done]. replace (addr h l + sizeof_block - sizeof_block) with (addr h l) by lia.
    apply (size_zip (with_counts h _ _) l b' rest). exact (placed_ext h l (b :: r) (b' :: rest) Hp Hsp Hok).
  - rewrite decide_False by (by intros [? _]). done.
Qed.

(** A request of 4 GiB minus the overhead is aligned to a few bytes. *)
Lemma align16_wraps : align16 (u64 (2 ^ 32 + 8)) = 16.
Proof using Type. reflexivity. Qed.

Lemma kmalloc_wraps_outcome stats :
  heap_get_stats h = Some stats -> 16 <= st_largest_free_block stats ->
  exists h' p n, kmalloc h (2 ^ 32) = Some (h', p) /\ p <> 0 /\ get_size h' (p - sizeof_block) = Some n /\ n < heap_total_bytes.
Proof using Hi.
  rewrite (stats_outcome h bs Hi). intros [= <-] Hlarge. cbn [st_largest_free_block] in Hlarge.
  pose proof (inv_placed h bs Hi) as Hp. pose proof Hp as (Hf & _ & _).
  unfold kmalloc, kmalloc_unlocked. change (2 ^ 32 =? 0) with false. change (U64_MAX - 8 - 15 <? 2 ^ 32) with false. cbv zeta.
  rewrite align16_wraps. change (16 =? 0) with false. rewrite (proj2 (Z.eqb_neq (heap_first h) 0)) by lia. cbn [orb].
  destruct (find_fit_spec h bs 16 Hp (inv_nonempty h bs Hi) (inv_spans h bs Hi)) as (x & Hx & Hcase).
  rewrite (on_here (fun h => find_fit h 16) h bs _ Hi Hx), bind_some. destruct x as [block|e].
  2: { destruct Hcase as [_ Hall]. apply (largest_free_spec bs 0 16 eq_refl) in Hall. lia. }
  destruct Hcase as (l & b & r & E & -> & Hfit & _). assert (heap_inv h (l ++ b :: r)) as Hi' by (by rewrite <- E).
  rewrite E in Hp. unfold fits_in in Hfit. apply andb_true_iff in Hfit as [_ Hbs]. pose proof (block_bound h l b r Hi') as Hmax.
  destruct (take_block_spec h l b r 16 (2 ^ 32) Hp Hmax) as (b' & rest & _ & _ & _ & _ & Hsp & Hok & _ & Ht); [lia|lia|warith|].
  rewrite <- E in Ht. rewrite (on_here (fun h' => take_block h' (addr h l) 16 (2 ^ 32)) h bs _ Hi Ht).
  destruct (inv_bounds h l b r Hi') as (_ & Ha & Hend & _). pose proof (spans_pos rest). change heap_total_bytes with 1048576 in *.
  do 3 eexists. split; [done|]. split; [unfold sizeof_block; lia|]. split.
  - replace (addr h l + sizeof_block - sizeof_block) with (addr h l) by lia.
    apply (size_zip (with_counts h _ _) l b' rest). exact (placed_ext h l (b :: r) (b' :: rest) Hp Hsp Hok).
  - cbn [spans] in Hsp. unfold span, sizeof_block in *. lia.
Qed.
End capacity.

(** ** Misuse *)

Section misuse.
Context (h : heap) (bs : list blk) (Hi : heap_inv h bs) (p : Z) (c : list Z) (Hc : view h bs !! p = Some c).

Lemma double_free_outcome :
  exists h', kfree h p = Some (inl h') /\ kfree h' p = Some (inl (with_invalid_free h')).
Proof using Hi Hc.
  destruct (checked_outcome h bs p c Hi Hc) as [Hp _]. destruct (free_outcome h bs p c Hi Hc) as (h' & bs' & Hk & _ & _ & _ & _ & Hst & _).
  exists h'. split; [done|]. unfold kfree, kfree_unlocked. rewrite (proj2 (Z.eqb_neq p 0)) by done. cbv zeta. by rewrite Hst, bind_some.
Qed.

(** A byte of the canary is changed. *)
Lemma overrun_outcome n i v w :
  get_size h (p - sizeof_block) = Some n -> n - 8 <= i < n -> fits 8 v -> load8 h (p + i) = Some w -> v <> w ->
  exists h', store8 h (p + i) v = Some h' /\ kfree h' p = Some (inr tt).
Proof using Hi Hc.
  intros Hn Hidx Hv Hw Hne. destruct (view_zip h bs p c Hi Hc) as (l & b & r & E & -> & Hb & _ & _ & _ & Hs & [d Hd]).
  assert (heap_inv h (l ++ b :: r)) as Hi' by (by rewrite <- E). pose proof (inv_placed _ _ Hi') as Hp.
  destruct (inv_fields h l b r Hi') as (_ & _ & G3 & _). destruct (inv_bounds h l b r Hi') as (? & ? & ? & ? & ? & ? & ? & _).
  replace (addr h l + sizeof_block - sizeof_block) with (addr h l) in Hn by lia. assert (n = bsize b) as -> by congruence.
  assert (bsize b = Z.of_nat (length d) + 8) as Ebs by (unfold bsize; rewrite Hd, length_app, length_le_bytes; lia).
  rewrite (on_here (fun h' => load8 h' (addr h l + sizeof_block + i)) h _ _ Hi' (load8_zip h l b r Hp i ltac:(lia))) in Hw.
  rewrite (on_here (fun h' => store8 h' (addr h l + sizeof_block + i) v) h _ _ Hi' (store8_zip h l b r Hp i v ltac:(lia))).
  eexists. split; [done|].
  set (can := canary (addr h l)) in *. set (k := (Z.to_nat i - length d)%nat).
  assert (<[Z.to_nat i := v]> (bdata b) = d ++ <[k := v]> (le_bytes 8 can)) as Ed.
  { rewrite Hd, insert_app_r_alt by lia. done. }
  assert (all_bytes (<[k := v]> (le_bytes 8 can))) as Hbytes by (apply Forall_insert; [apply le_bytes_bytes|done]).
  destruct (le_value_bytes 8 (<[k := v]> (le_bytes 8 can)) Hbytes) as (v' & Ev' & Hv'); [by rewrite length_insert, length_le_bytes|].
  change (256 ^ Z.of_nat 8) with (2 ^ 64) in Hv'.
  assert (v' <> can) as Hdiff.
  { intros ->. apply Hne. apply rd_Some in Hw as [_ Hw]. rewrite Hd, lookup_app_r in Hw by lia. fold k in Hw. rewrite <- Ev' in Hw.
    rewrite list_lookup_insert_eq in Hw by (rewrite length_le_bytes; lia). congruence. }
  assert (placed h (l ++ with_data b (<[Z.to_nat i := v]> (bdata b)) :: r)) as Hp'.
  { apply placed_data; [done|by rewrite length_insert|]. apply Forall_insert; [apply (placed_parts h l b r Hp)|done]. }
  unfold kfree, kfree_unlocked. rewrite (proj2 (Z.eqb_neq _ 0)) by (unfold sizeof_block; lia). cbv zeta.
  replace (addr h l + sizeof_block - sizeof_block) with (addr h l) by lia.
  rewrite (check_used h l _ r Hp' d v' Hb), bind_some; [|cbn [with_data bdata]; by rewrite Ed, Ev'|done].
  by rewrite (proj2 (Z.eqb_neq v' _)) by done.
Qed.
End misuse.
