(* ===== verification/HeapInit.v ===== *)
(** * Setting up the heap

    [heap_init] takes its pages from the page allocator, unmaps the pages on
    both sides of them and maps the rest without execute permission; one free
    block covers them. *)

From S2P Require Import Prelude Arith Buffer Pmm Vmm VmmCorrect VmmPages Heap HeapLayout HeapBlocks HeapCorrect HeapClient HeapSpec.

#[local] Open Scope Z_scope.

Definition HEAP_FLAGS : Z := VMM_WRITABLE ||| VMM_GLOBAL ||| VMM_NO_EXECUTE.

(** What the MMU makes of the address space once the heap is set up. *)
Definition heap_mapped (s s' : vmm) (first : Z) : Prop :=
  forall a, 0 <= a < 2 ^ 48 ->
    leaf s' a = if (first <=? a) && (a <? first + heap_total_bytes) then Some (map_entry (page_base a) HEAP_FLAGS)
                else if (first - PAGE_SIZE <=? a) && (a <? first + heap_total_bytes + PAGE_SIZE) then None
                else leaf s a.

Lemma first_page start : (start * PAGE_SIZE + 4096) / PAGE_SIZE - 1 = start.
Proof. unfold PAGE_SIZE. divlia. Qed.

Section init.
Context (contents : Z -> list Z) (Hcont : forall a, length (contents a) = 512%nat).

Lemma map_heap_spec s lv first :
  vmm_ok s lv -> first mod PAGE_SIZE = 0 -> 0 <= first <= 2 ^ 33 ->
  exists r, map_heap contents s first = Some r /\
    match r with
    | inl s' => exists lv', vmm_ok s' lv' /\ keeps s lv s' lv' /\ mapped_view s s' first (first + heap_total_bytes) HEAP_FLAGS
    | inr s' => exists lv', vmm_ok s' lv' /\ keeps s lv s' lv' /\ no_free (frames s')
    end.
Proof.
  intros Hok Hal Hr. change (2 ^ 33) with 8589934592 in Hr. unfold map_heap.
  destruct (for_break_rule
    (fun j s1 => exists lv1, vmm_ok s1 lv1 /\ keeps s lv s1 lv1 /\ mapped_view s s1 first (first + j * 4096) HEAP_FLAGS)
    (fun s1 => exists lv1, vmm_ok s1 lv1 /\ keeps s lv s1 lv1 /\ no_free (frames s1))
    (Z.to_nat HEAP_PAGES) 0
    (fun page s =>
       let address := u64 (first + page * 4096) in
       '(s, r) ← vmm_map_page contents s address address (VMM_WRITABLE ||| VMM_GLOBAL ||| VMM_NO_EXECUTE);
       Some (if negb (r =? 0) then inr s else inl s)) s) as [(s' & H1 & H2)|(s' & H1 & H2)].
  - exists lv. split; [done|]. split; [apply keeps_refl|]. intros a Ha.
    destruct (Z.leb_spec first a), (Z.ltb_spec a (first + 0 * 4096)); (done || lia).
  - intros j s1 Hj (lv1 & Hok1 & K & V). change (Z.of_nat (Z.to_nat HEAP_PAGES)) with 256 in Hj. cbv zeta.
    rewrite u64_small by warith. assert ((first + j * 4096) mod PAGE_SIZE = 0) as Had by (unfold PAGE_SIZE in *; divlia).
    destruct (map_outcome contents Hcont s1 lv1 Hok1 (first + j * 4096) (first + j * 4096) HEAP_FLAGS Had Had)
      as (s2 & r & lv2 & Hmap & Hok2 & K2 & _ & _ & Hr'); [warith|split; by vm_compute|].
    fold HEAP_FLAGS. rewrite Hmap, bind_some. assert (keeps s lv s2 lv2) as K' by (by eapply keeps_trans).
    destruct Hr' as [(-> & _ & Hl & Ho & _)|(-> & Hnf & _)]; cbn [Z.eqb negb]; [left|right].
    + eexists. split; [done|]. exists lv2. split; [done|]. split; [done|].
      replace (first + (j + 1) * 4096) with (first + j * 4096 + PAGE_SIZE) by (unfold PAGE_SIZE; lia).
      apply (mapped_view_next s s1); try done; [lia|]. apply one_page; try done. change (2 ^ 48) with 281474976710656. lia.
    + eexists. split; [done|]. exists lv2. split; [done|]. by split.
  - exists (inl s'). done.
  - exists (inr s'). done.
Qed.

(** The pages of the heap and its guards are given back. *)
Lemma free_heap_spec s0 lv0 s lv start :
  vmm_ok s0 lv0 -> keeps s0 lv0 s lv -> vmm_ok s lv ->
  (forall q, start <= q < start + 258 -> bit (page_bitmap (frames s0)) q = true /\ lv0 !! (q * PAGE_SIZE) = None) ->
  reserved_pages (frames s0) <= start -> start + 258 <= managed_pages (frames s0) ->
  exists s', free_heap s (start * PAGE_SIZE) = Some s' /\ vmm_ok s' lv /\
    managed_pages (frames s') = managed_pages (frames s0) /\ reserved_pages (frames s') = reserved_pages (frames s0) /\
    forall q, bit (page_bitmap (frames s')) q = negb (in_run start 258 q) && bit (page_bitmap (frames s)) q.
Proof.
  intros Hok0 K Hok Hrun Hr Hm. rewrite <- (keeps_reserved _ _ _ _ K) in Hr. rewrite <- (keeps_managed _ _ _ _ K) in Hm.
  destruct (free_run s lv start 258 Hok) as (p & Hf & Hok' & Hm' & Hr' & Hbit); [lia| |done|done|].
  { intros q Hq. destruct (Hrun q Hq) as [Hb Hl]. apply (keeps_table _ _ _ _ K); [done|]. by rewrite Z.div_mul. }
  exists (with_frames s p). unfold free_heap. change (HEAP_PAGES + HEAP_GUARD_PAGES) with 258. rewrite Hf, bind_some.
  split; [done|]. split; [done|]. cbn [with_frames frames]. rewrite Hm', Hr'.
  split; [apply (keeps_managed _ _ _ _ K)|]. split; [apply (keeps_reserved _ _ _ _ K)|done].
Qed.

(** The first header. *)
Lemma first_header_spec h first bytes :
  heap_first h = first -> region h = bytes -> Z.of_nat (length bytes) = heap_total_bytes -> all_bytes bytes ->
  0 < first -> first + heap_total_bytes < 2 ^ 64 ->
  exists b, bfree b = true /\
    heap_inv (Heap (render first 0 [b] 0) first (heap_allocation_base h) 0 0 0 0) [b] /\
    init_block h first = Some (with_region h (render first 0 [b] 0)).
Proof using Type.
  intros Hf Hreg Hlen Hb H0 Hend. change heap_total_bytes with 1048576 in *.
  destruct (data_split bytes 0) as (p1 & x & p2 & -> & H1 & Hx & _ & B2 & Bres); [done|lia|lia|].
  destruct p1; [|cbn [length] in H1; lia]. cbn [app] in *. rewrite length_app, length_hbytes in Hlen by apply Hx.
  exists (Blk true (hres x) 0 p2). split; [done|].
  assert (bsize (Blk true (hres x) 0 p2) = 1048536) as Es by (unfold bsize; cbn [bdata]; lia).
  assert (blk_ok (Blk true (hres x) 0 p2)) as Hbok by (constructor; [split; [apply Hx|done]|done|done]).
  assert (spans [Blk true (hres x) 0 p2] = 1048576) as Esp by (cbn [spans]; unfold span; rewrite Es; done).
  split.
  - constructor; cbn [region heap_first heap_used heap_allocations]; try done.
    split; [done|]. rewrite Esp. split; [done|]. by apply Forall_singleton.
  - assert (h = with_region h ([] ++ hbytes x ++ p2)) as Eh by (cbn [app]; rewrite <- Hreg; by destruct h).
    assert (at_block h [] first) as Hat by (unfold at_block; cbn [length]; lia).
    assert (Hx0 : forall m f s q n p, fits 32 m -> fits 64 s -> fits 64 q -> fits 64 n -> fits 64 p -> hdr_ok (Hdr m f (hres x) s q n p))
      by (intros; constructor; cbn; try done; apply Hx).
    unfold init_block. change (u64 (HEAP_PAGES * 4096 - sizeof_block)) with 1048536. rewrite Eh at 1.
    rewrite set_magic_at, bind_some by done. cbn [hmagic hfree hres hsize hreq hnext hprev].
    rewrite set_free_at, bind_some by (try done; by apply Hx0; try done; apply Hx). cbn [hmagic hfree hres hsize hreq hnext hprev].
    rewrite set_size_at, bind_some by (try done; by apply Hx0; try done; apply Hx). cbn [hmagic hfree hres hsize hreq hnext hprev].
    rewrite set_requested_at, bind_some by (try done; by apply Hx0; try done; apply Hx). cbn [hmagic hfree hres hsize hreq hnext hprev].
    rewrite set_next_at, bind_some by (try done; by apply Hx0; try done; apply Hx). cbn [hmagic hfree hres hsize hreq hnext hprev].
    rewrite set_previous_at by (try done; by apply Hx0; try done; apply Hx). cbn [hmagic hfree hres hsize hreq hnext hprev].
    cbn [render next_of]. unfold header. rewrite Es. cbn [bfree bres breq bdata app]. by rewrite app_nil_r.
Qed.

Context (bytes : Z -> list Z) (Hbytes : forall a, Z.of_nat (length (bytes a)) = heap_total_bytes /\ all_bytes (bytes a)).

(** Why it can fail.  Either no run of pages is free, or the run that the
    allocator gave is free again and one of its guard pages was not mapped, or
    no page outside it is left for a page table. *)
Definition no_heap (s s' : vmm) : Prop :=
  (forall q, reserved_pages (frames s) <= q -> q + 258 <= managed_pages (frames s) -> blocked (page_bitmap (frames s)) q 258) \/
  (exists start p, pmm_alloc_pages (frames s) 258 = Some (p, start * PAGE_SIZE) /\
     reserved_pages (frames s) <= start /\ start + 258 <= managed_pages (frames s) /\
     (forall q, in_run start 258 q = true -> bit (page_bitmap (frames s')) q = false) /\
     (leaf s (start * PAGE_SIZE) = None \/ leaf s ((start + 257) * PAGE_SIZE) = None \/
      forall q, reserved_pages (frames s') <= q < managed_pages (frames s') ->
        in_run start 258 q = true \/ bit (page_bitmap (frames s')) q = true)).

Lemma guard_views s s1 s2 s3 start :
  0 < start -> start + 258 <= 1048576 ->
  (forall a, 0 <= a < 2 ^ 48 -> leaf s1 a = if a / PAGE_SIZE =? start * PAGE_SIZE / PAGE_SIZE then None else leaf s a) ->
  (forall a, 0 <= a < 2 ^ 48 -> leaf s2 a = if a / PAGE_SIZE =? (start + 257) * PAGE_SIZE / PAGE_SIZE then None else leaf s1 a) ->
  mapped_view s2 s3 (start * PAGE_SIZE + 4096) (start * PAGE_SIZE + 4096 + heap_total_bytes) HEAP_FLAGS ->
  heap_mapped s s3 (start * PAGE_SIZE + 4096).
Proof using Type.
  intros H0 Hmax V1 V2 V3 a Ha. rewrite V3, V2, V1, !Z.div_mul by done. change heap_total_bytes with 1048576.
  assert (Hq : forall n, (a / PAGE_SIZE =? n) = (n * 4096 <=? a) && (a <? n * 4096 + 4096)).
  { intros n. unfold PAGE_SIZE. destruct (Z.eqb_spec (a / 4096) n), (Z.leb_spec (n * 4096) a), (Z.ltb_spec a (n * 4096 + 4096));
      try done; divlia. }
  rewrite !Hq. unfold PAGE_SIZE.
  destruct (Z.leb_spec (start * 4096 + 4096) a), (Z.ltb_spec a (start * 4096 + 4096 + 1048576)); cbn [andb]; try done;
    destruct (Z.leb_spec ((start + 257) * 4096) a), (Z.ltb_spec a ((start + 257) * 4096 + 4096)), (Z.leb_spec (start * 4096) a),
      (Z.ltb_spec a (start * 4096 + 4096)), (Z.leb_spec (start * 4096 + 4096 - 4096) a),
      (Z.ltb_spec a (start * 4096 + 4096 + 1048576 + 4096)); cbn [andb]; try done; lia.
Qed.

Lemma unmap_guards_spec s lv start :
  vmm_ok s lv -> 0 < start -> start + 258 <= 1048576 ->
  exists s' bad lv', unmap_guards contents s (start * PAGE_SIZE) (start * PAGE_SIZE + 4096) = Some (s', bad) /\
    vmm_ok s' lv' /\ keeps s lv s' lv' /\
    if bad : bool then leaf s (start * PAGE_SIZE) = None \/ leaf s ((start + 257) * PAGE_SIZE) = None \/ no_free (frames s')
    else exists s1,
      (forall a, 0 <= a < 2 ^ 48 -> leaf s1 a = if a / PAGE_SIZE =? start * PAGE_SIZE / PAGE_SIZE then None else leaf s a) /\
      (forall a, 0 <= a < 2 ^ 48 -> leaf s' a = if a / PAGE_SIZE =? (start + 257) * PAGE_SIZE / PAGE_SIZE then None else leaf s1 a).
Proof using Hcont.
  intros Hok Hpos Hmax. unfold unmap_guards.
  assert (start * PAGE_SIZE mod PAGE_SIZE = 0) as Hal1 by (by apply Z.mod_mul).
  assert ((start + 257) * PAGE_SIZE mod PAGE_SIZE = 0) as Hal2 by (by apply Z.mod_mul).
  assert (0 <= start * PAGE_SIZE < 2 ^ 48 /\ 0 <= (start + 257) * PAGE_SIZE < 2 ^ 48) as [Hb1 Hb2]
    by (unfold PAGE_SIZE; change (2 ^ 48) with 281474976710656; lia).
  destruct (unmap_outcome contents Hcont s lv Hok (start * PAGE_SIZE) Hal1) as (s1 & r1 & lv1 & -> & Hok1 & K1 & _ & _ & Hr1).
  rewrite bind_some. destruct Hr1 as [(-> & _ & _ & Hn1 & Ho1 & _)|Hr1].
  2: { exists s1, true, lv1. destruct Hr1 as [(-> & Hr1 & _)|(-> & Hr1 & _)]; (split; [done|]); auto 6. }
  cbn [Z.eqb negb]. change (HEAP_PAGES * 4096) with 1048576.
  replace (start * PAGE_SIZE + 4096 + 1048576) with ((start + 257) * PAGE_SIZE) by (unfold PAGE_SIZE; lia).
  rewrite u64_small by (unfold fits; change (2 ^ 48) with 281474976710656 in *; change (2 ^ 64) with 18446744073709551616; lia).
  pose proof (one_page s s1 _ None Hb1 Hal1 Hn1 Ho1) as V1.
  destruct (unmap_outcome contents Hcont s1 lv1 Hok1 ((start + 257) * PAGE_SIZE) Hal2) as (s2 & r2 & lv2 & -> & Hok2 & K2 & _ & _ & Hr2).
  rewrite bind_some. pose proof (keeps_trans _ _ _ _ _ _ K1 K2) as K. destruct Hr2 as [(-> & _ & _ & Hn2 & Ho2 & _)|Hr2].
  - exists s2, false, lv2. split; [done|]. split; [done|]. split; [done|]. exists s1. split; [done|]. by apply one_page.
  - exists s2, true, lv2. destruct Hr2 as [(-> & Hr2 & _)|(-> & Hr2 & _)]; (split; [done|]; split; [done|]; split; [done|]); [|by auto].
    right. left. rewrite V1, !Z.div_mul in Hr2 by done. by rewrite (proj2 (Z.eqb_neq _ _)) in Hr2 by lia.
Qed.

Lemma heap_init_outcome s lv h :
  vmm_ok s lv ->
  exists s' h' r lv', heap_init contents bytes s h = Some (s', h', r) /\ vmm_ok s' lv' /\
    ((r = 0 /\ (exists b, bfree b = true /\ heap_inv h' [b]) /\ heap_mapped s s' (heap_first h') /\
      heap_failures h' = 0 /\ heap_invalid_frees h' = 0 /\
      forall q, in_run (heap_first h' / PAGE_SIZE - 1) 258 q = true ->
        bit (page_bitmap (frames s)) q = false /\ bit (page_bitmap (frames s')) q = true) \/
     (r = -1 /\ no_heap s s')).
Proof.
  intros Hok. unfold heap_init. change (HEAP_PAGES + HEAP_GUARD_PAGES) with 258.
  destruct (alloc_run s lv 258 Hok) as (p & a & Ha & Hok0 & Hm & Hr & Hcase); [warith|]. rewrite Ha, bind_some. cbv zeta.
  destruct Hcase as [(-> & Hblk & _)|(start & -> & Hpos & Hal & Hmax & Hlv)].
  { do 4 eexists. split; [done|]. split; [done|]. right. split; [done|]. left. by destruct Hblk. }
  destruct Hal as (_ & Hs1 & Hs2 & Hfree & _ & Hbit & _). unfold PMM_MAX_PAGES in Hmax.
  rewrite (proj2 (Z.eqb_neq (start * PAGE_SIZE) 0)) by (unfold PAGE_SIZE; lia).
  assert (Hrun : forall q, start <= q < start + 258 -> bit (page_bitmap (frames (with_frames s p))) q = true /\ lv !! (q * PAGE_SIZE) = None).
  { intros q Hq. split; [|by apply Hlv]. cbn [with_frames frames]. rewrite Hbit. unfold in_run. zcmp. }
  change (leaf s) with (leaf (with_frames s p)). set (s0 := with_frames s p) in *.
  assert (Hgive : forall s1 lv1, vmm_ok s1 lv1 -> keeps s0 lv s1 lv1 ->
    (leaf s0 (start * PAGE_SIZE) = None \/ leaf s0 ((start + 257) * PAGE_SIZE) = None \/ no_free (frames s1)) ->
    exists s', free_heap s1 (start * PAGE_SIZE) = Some s' /\ vmm_ok s' lv1 /\ no_heap s s').
  { intros s1 lv1 Hok1 K Hwhy.
    destruct (free_heap_spec s0 lv s1 lv1 start Hok0 K Hok1 Hrun) as (s' & Hf & Hok' & Hm' & Hr' & Hb'); [cbn; lia..|].
    exists s'. split; [done|]. split; [done|]. right. exists start, p. split; [done|]. split; [done|]. split; [done|].
    split; [by intros q Hq; rewrite Hb', Hq|].
    destruct Hwhy as [?|[?|Hnf]]; [by left|by right; left|right; right]. intros q Hq. rewrite Hb'.
    destruct (in_run start 258 q); [by left|right]. cbn [negb andb]. apply Hnf.
    by rewrite (keeps_reserved _ _ _ _ K), (keeps_managed _ _ _ _ K), <- Hr', <- Hm'. }
  destruct (unmap_guards_spec s0 lv start Hok0 Hpos Hmax) as (s2 & bad & lv2 & -> & Hok2 & K2 & Hbad). rewrite bind_some.
  destruct bad.
  { destruct (Hgive s2 lv2 Hok2 K2 Hbad) as (s' & -> & Hok' & Hno). rewrite bind_some. do 4 eexists. split; [done|]. split; [done|]. by right. }
  destruct Hbad as (s1 & V1 & V2).
  destruct (map_heap_spec s2 lv2 (start * PAGE_SIZE + 4096) Hok2) as (r & -> & Hmap);
    [unfold PAGE_SIZE; divlia|change (2 ^ 33) with 8589934592; unfold PAGE_SIZE; lia|]. rewrite bind_some.
  destruct r as [s3|s3]; destruct Hmap as (lv3 & Hok3 & K3 & V3); pose proof (keeps_trans _ _ _ _ _ _ K2 K3) as K.
  - destruct (Hbytes (start * PAGE_SIZE + 4096)) as [Hlen Hall].
    set (h0 := Heap (bytes _) _ _ _ _ _ _).
    destruct (first_header_spec h0 (start * PAGE_SIZE + 4096) _ eq_refl eq_refl Hlen Hall) as (b & Hb & Hinv & Hset);
      [unfold PAGE_SIZE; lia|change heap_total_bytes with 1048576; change (2 ^ 64) with 18446744073709551616; unfold PAGE_SIZE; lia|].
    rewrite Hset, bind_some. do 4 eexists. split; [done|]. split; [done|]. left. split; [done|].
    split; [exists b; by split|]. split; [by apply (guard_views s0 s1 s2 s3)|]. split; [done|]. split; [done|].
    intros q Hq. cbn [heap_first with_region] in Hq. change (heap_first h0) with (start * PAGE_SIZE + 4096) in Hq.
    assert (start <= q < start + 258) as Hq'.
    { rewrite first_page in Hq. unfold in_run in Hq. clear -Hq. lia. }
    split; [by apply Hfree|]. apply (keeps_used _ _ _ _ K). by apply Hrun.
  - destruct (Hgive s3 lv3 Hok3 K) as (s' & -> & Hok' & Hno); [by auto|]. rewrite bind_some. do 4 eexists. split; [done|]. split; [done|]. by right.
Qed.
End init.

(** ** Heaps and what their clients hold *)

Definition represents (h : heap) (V : gmap Z (list Z)) : Prop := exists bs, heap_inv h bs /\ V = view h bs.

Lemma represents_step h V op :
  represents h V -> allowed V op ->
  exists h' r V', heap_exec h op = Some (inl (h', r)) /\ represents h' V' /\ heap_first h' = heap_first h /\ heap_spec V op V' r.
Proof.
  intros (bs & Hi & ->) Ha. destruct (exec_outcome h bs Hi op Ha) as (h' & r & bs' & He & Hi' & Hf & Hs).
  exists h', r, (view h' bs'). split; [done|]. split; [by exists bs'|]. done.
Qed.

Lemma represents_load h V p c i :
  represents h V -> V !! p = Some c -> 0 <= i < Z.of_nat (length c) -> load8 h (p + i) = rd c i.
Proof. intros (bs & Hi & ->) Hc Hidx. by apply (load_outcome h bs Hi p c). Qed.

Lemma represents_validate h V : represents h V -> heap_validate h = Some 0.
Proof. intros (bs & Hi & _). by apply (validate_outcome h bs). Qed.

Lemma allocs_size a bs : Z.of_nat (size (allocs a bs)) = used_count bs.
Proof.
  revert a. induction bs as [|b bs IH]; intros a; cbn [allocs used_count]; [done|]. specialize (IH (a + span b)).
  destruct (bfree b); [lia|]. rewrite map_size_insert_None; [lia|]. apply allocs_below. pose proof (span_pos b).
  unfold sizeof_block in *. lia.
Qed.

(** ** A heap to work on *)

Definition zero_bytes (_ : Z) : list Z := replicate (Z.to_nat heap_total_bytes) 0.
Definition raw (bytes : list Z) : heap := Heap bytes 1048576 1044480 0 0 0 0.

Lemma zero_bytes_ok a : Z.of_nat (length (zero_bytes a)) = heap_total_bytes /\ all_bytes (zero_bytes a).
Proof.
  unfold zero_bytes. split.
  - rewrite length_replicate. apply Z2Nat.id. by vm_compute.
  - apply Forall_replicate. split; by vm_compute.
Qed.

(** A new heap, and one with an allocation of a given size. *)
Lemma new_heap : exists h b, heap_inv h [b] /\ bfree b = true /\ bsize b = 1048536.
Proof.
  destruct (zero_bytes_ok 0) as [Hl Hb]. generalize dependent (zero_bytes 0). intros bytes Hl Hb.
  destruct (first_header_spec (raw bytes) 1048576 bytes eq_refl eq_refl Hl Hb) as (b & Hfree & Hinv & _); [done|done|].
  eexists _, b. split; [exact Hinv|]. split; [done|]. pose proof (inv_spans _ _ Hinv) as Hs. cbn [spans] in Hs. unfold span, sizeof_block in Hs.
  change heap_total_bytes with 1048576 in Hs. lia.
Qed.

Lemma new_allocation size :
  0 < size <= 1000 ->
  exists h bs p c, heap_inv h bs /\ view h bs !! p = Some c /\ Z.of_nat (length c) = size.
Proof.
  intros Hs. destruct new_heap as (h & b & Hi & Hb & Hsz).
  destruct (malloc_outcome h [b] size Hi) as (h' & p & bs' & _ & Hi' & _ & _ & _ & Hcase); [change (2 ^ 32) with 4294967296; lia|].
  destruct Hcase as [(_ & _ & _ & Hall)|(_ & _ & c & Hlen & Hv)].
  - pose proof (proj1 (Forall_singleton _ _) Hall) as Hfit. cbv beta in Hfit. clear Hall. rename Hfit into Hall. unfold fits_in in Hall. rewrite Hb, Hsz in Hall. cbn [andb] in Hall.
    apply Z.leb_gt in Hall. unfold needed in Hall. divlia.
  - exists h', bs', p, c. split; [done|]. split; [by rewrite Hv, lookup_insert_eq|done].
Qed.

(** ** Claims *)

(** C8: the heap implements a map from addresses to the bytes that were asked
    for, for clients that keep to [allowed]: a client passes pointers that it
    holds or NULL, writes only bytes it asked for, and asks for at most
    2^32 - 24 bytes (the product of a [kcalloc] may also overflow 64 bits, and
    is then refused).  The last condition is needed: [align16] keeps 32 bits of
    a size, so that a larger request can get a smaller block
    ([kmalloc_grants_4gib]).  Every such call of [kmalloc], [kcalloc],
    [krealloc] and [kfree], and every such write, returns without a fault and
    without a panic, has the effect the map prescribes (new memory is disjoint
    from all other, [kcalloc] clears it, [krealloc] keeps the old bytes, nothing
    else changes), and leaves a heap that [heap_validate] accepts and whose
    bytes read back as the map says. *)
Theorem heap_refines h V op :
  represents h V -> allowed V op ->
  exists h' r V', heap_exec h op = Some (inl (h', r)) /\ represents h' V' /\ heap_spec V op V' r /\
    separate (heap_first h) V' /\ heap_validate h' = Some 0 /\
    forall p c i, V' !! p = Some c -> 0 <= i < Z.of_nat (length c) -> load8 h' (p + i) = rd c i.
Proof.
  intros Hr Ha. destruct (represents_step h V op Hr Ha) as (h' & r & V' & He & Hr' & Hf & Hs).
  exists h', r, V'. split; [done|]. split; [done|]. split; [done|]. split.
  - destruct Hr' as (bs & Hi & ->). rewrite <- Hf. by apply view_separate.
  - split; [by apply (represents_validate h' V')|]. intros p c i Hc Hidx. by apply (represents_load h' V').
Qed.

Lemma heap_refines_witness :
  exists h V op h' r V', represents h V /\ V <> ∅ /\ allowed V op /\ heap_exec h op = Some (inl (h', r)) /\ represents h' V' /\
    heap_spec V op V' r.
Proof.
  destruct (new_allocation 64) as (h & bs & p & c & Hi & Hc & Hlen).
  - lia.
  - assert (represents h (view h bs)) as Hr by (by exists bs).
    assert (allowed (view h bs) (OpRealloc p 256)) as Ha by (split; [right; by exists c|split; [lia|by vm_compute]]).
    destruct (heap_refines h (view h bs) (OpRealloc p 256) Hr Ha) as (h' & r & V' & H1 & H2 & H3 & _).
    exists h, (view h bs), (OpRealloc p 256), h', r, V'. split; [exact Hr|]. split.
    + intros E. rewrite E in Hc. discriminate Hc.
    + split; [exact Ha|]. split; [exact H1|]. split; [exact H2|exact H3].
Defined.

(** C9: the statistics of the heap, and when [kmalloc] fails, for every 64-bit
    size.  The counter of allocations is the number of allocations that the
    client holds, and used bytes, free bytes and headers make up the whole heap.
    [kmalloc] returns NULL exactly when the request is 0, when it is larger than
    2^64 - 24, when the size it searches for is 0, or when that size is more than
    the largest free block; a block it returns has at least that size.  The size
    searched for is the request with its canary, rounded up to 16 bytes, for
    requests up to 2^32 - 24; above, only its low 32 bits are searched for.  A
    failure is counted unless the request or the size searched for is 0. *)
Theorem kmalloc_null_iff_full h V size :
  represents h V -> fits 64 size ->
  exists stats h' p, heap_get_stats h = Some stats /\
    st_allocations stats = Z.of_nat (base.size V) /\
    st_used_bytes stats + st_free_bytes stats + sizeof_block * st_blocks stats = heap_total_bytes /\
    kmalloc h size = Some (h', p) /\
    (p = 0 <-> size = 0 \/ 2 ^ 64 - 24 < size \/ searched size = 0 \/ st_largest_free_block stats < searched size) /\
    (p <> 0 -> exists n, get_size h' (p - sizeof_block) = Some n /\ searched size <= n) /\
    searched size = ((size + 23) / 16 * 16) mod 2 ^ 32 /\ (0 < size <= 2 ^ 32 - 24 -> searched size = (size + 23) / 16 * 16) /\
    heap_failures h' = (if decide (p = 0 /\ size <> 0 /\ (2 ^ 64 - 24 < size \/ searched size <> 0)) then u64 (heap_failures h + 1) else heap_failures h).
Proof.
  intros (bs & Hi & ->) Hs. destruct (kmalloc_capacity h bs Hi size Hs) as (stats & h' & p & Hst & Hk & Hiff & Hblk & Hfail).
  exists stats, h', p. split; [done|]. rewrite (stats_outcome h bs Hi) in Hst. injection Hst as <-.
  destruct (bytes_accounted h bs Hi) as [Hb _]. split; [symmetry; apply allocs_size|]. split; [done|]. split; [done|]. split; [done|]. split; [done|].
  split; [done|]. split; [apply searched_small|done].
Qed.

Lemma kmalloc_null_iff_full_witness :
  exists h V stats h' p, represents h V /\ heap_get_stats h = Some stats /\ kmalloc h 100 = Some (h', p) /\
    (p = 0 <-> 100 = 0 \/ 2 ^ 64 - 24 < 100 \/ searched 100 = 0 \/ st_largest_free_block stats < searched 100).
Proof.
  destruct (new_allocation 64) as (h & bs & p & c & Hi & Hc & Hlen).
  - lia.
  - assert (represents h (view h bs)) as Hr by (by exists bs).
    destruct (kmalloc_null_iff_full h (view h bs) 100 Hr) as (stats & h' & q & H1 & _ & _ & H2 & H3 & _).
    + split; [lia|by vm_compute].
    + exists h, (view h bs), stats, h', q. split; [exact Hr|]. split; [exact H1|]. split; [exact H2|exact H3].
Defined.

(** C11: what [kfree] detects.  Freeing an allocation a second time, with no
    call in between, changes nothing but the counter of invalid frees; freeing
    a block of which any byte of the canary, the last eight bytes of the block,
    has been overwritten ends in a panic. *)
Theorem kfree_detects_misuse h V p c :
  represents h V -> V !! p = Some c ->
  (exists h', kfree h p = Some (inl h') /\ kfree h' p = Some (inl (with_invalid_free h'))) /\
  (forall n i v w, get_size h (p - sizeof_block) = Some n -> n - 8 <= i < n -> fits 8 v -> load8 h (p + i) = Some w -> v <> w ->
     exists h', store8 h (p + i) v = Some h' /\ kfree h' p = Some (inr tt)).
Proof.
  intros (bs & Hi & ->) Hc. split; [by apply (double_free_outcome h bs Hi p c)|].
  intros n i v w. by apply (overrun_outcome h bs Hi p c Hc n i v w).
Qed.

Lemma kfree_detects_misuse_witness :
  exists h V p c, represents h V /\ V !! p = Some c /\
    exists h', kfree h p = Some (inl h') /\ kfree h' p = Some (inl (with_invalid_free h')).
Proof.
  destruct (new_allocation 64) as (h & bs & p & c & Hi & Hc & Hlen).
  - lia.
  - assert (represents h (view h bs)) as Hr by (by exists bs).
    exists h, (view h bs), p, c. split; [exact Hr|]. split; [exact Hc|].
    exact (proj1 (kfree_detects_misuse h (view h bs) p c Hr Hc)).
Defined.

(** The size of a request is rounded up with a 32-bit mask.  A request of
    exactly 4 GiB is granted whenever 16 bytes are free, although the block
    that is returned is smaller than the whole heap of 1 MiB. *)
Theorem kmalloc_grants_4gib h V stats :
  represents h V -> heap_get_stats h = Some stats -> 16 <= st_largest_free_block stats ->
  exists h' p n, kmalloc h (2 ^ 32) = Some (h', p) /\ p <> 0 /\ get_size h' (p - sizeof_block) = Some n /\ n < heap_total_bytes.
Proof. intros (bs & Hi & ->). by apply (kmalloc_wraps_outcome h bs Hi stats). Qed.

Lemma kmalloc_grants_4gib_witness :
  exists h V h' p n, represents h V /\ kmalloc h (2 ^ 32) = Some (h', p) /\ p <> 0 /\ get_size h' (p - sizeof_block) = Some n /\
    n < heap_total_bytes.
Proof.
  destruct new_heap as (h & b & Hi & Hb & Hs).
  assert (represents h (view h [b])) as Hr by (by exists [b]).
  destruct (kmalloc_grants_4gib h (view h [b]) _ Hr (stats_outcome h [b] Hi)) as (h' & p & n & H).
  - cbn [st_largest_free_block largest_free foldl]. rewrite Hb, Hs. by vm_compute.
  - exists h, (view h [b]), h', p, n. split; [exact Hr|exact H].
Defined.

(** C10: [heap_init] over the page allocator and the page tables.  On success the
    heap is empty and well formed, its pages were free before and are in use
    now, they are mapped writable and not executable, the pages just below and
    just above them fault, and every other translation is as it was.  It fails
    only when there is no run of 258 free pages, when a guard page was not
    mapped, or when no page is left for page tables. *)
Theorem heap_init_correct contents bytes s lv h :
  (forall a, length (contents a) = 512%nat) ->
  (forall a, Z.of_nat (length (bytes a)) = heap_total_bytes /\ all_bytes (bytes a)) -> vmm_ok s lv ->
  exists s' h' r lv', heap_init contents bytes s h = Some (s', h', r) /\ vmm_ok s' lv' /\
    ((r = 0 /\ represents h' ∅ /\ heap_mapped s s' (heap_first h') /\
      forall q, in_run (heap_first h' / PAGE_SIZE - 1) 258 q = true ->
        bit (page_bitmap (frames s)) q = false /\ bit (page_bitmap (frames s')) q = true) \/
     (r = -1 /\ no_heap s s')).
Proof.
  intros Hcont Hbytes Hok. destruct (heap_init_outcome contents Hcont bytes Hbytes s lv h Hok) as (s' & h' & r & lv' & He & Hok' & Hcase).
  exists s', h', r, lv'. split; [done|]. split; [done|].
  destruct Hcase as [(-> & (b & Hb & Hi) & Hm & _ & _ & Hq)|Hcase]; [left|by right].
  split; [done|]. split; [|by split]. exists [b]. split; [done|]. unfold view. cbn [allocs]. by rewrite Hb.
Qed.

Lemma heap_init_correct_witness :
  exists s' h' r lv', heap_init (fun _ => replicate 512 0) zero_bytes boot (raw []) = Some (s', h', r) /\ vmm_ok s' lv' /\
    ((r = 0 /\ represents h' ∅ /\ heap_mapped boot s' (heap_first h') /\
      forall q, in_run (heap_first h' / PAGE_SIZE - 1) 258 q = true ->
        bit (page_bitmap (frames boot)) q = false /\ bit (page_bitmap (frames s')) q = true) \/
     (r = -1 /\ no_heap boot s')).
Proof. exact (heap_init_correct (fun _ => replicate 512 0) zero_bytes boot boot_levels (raw []) zeros_length zero_bytes_ok boot_ok). Defined.
