(* ===== verification/Dma.v ===== *)
(** * dma.c: buffers for devices

    Buffers are runs of physical pages from [Pmm], aligned by taking more pages
    than needed; memory is identity-mapped, so the address of a buffer is its
    physical address.  The barriers order the accesses of one processor and have
    no effect on the model. *)

From S2P Require Import Prelude Arith Pmm.

Definition DMA_PAGE_SIZE : Z := 4096.

Record dma_buffer := Buffer {
  virtual_address : Z; physical_address : Z; buffer_size : Z; allocation_base : Z; allocation_pages : Z;
  buffer_address_bits : Z; coherent : Z;
}.

Record dma_segment := Segment { segment_address : Z; segment_length : Z }.

Definition align_up (value alignment : Z) : Z := u64 (u64 (value + alignment) - 1) &&& compl 64 (u64 (alignment - 1)).

Definition dma_alloc (s : pmm) (size alignment address_bits : Z) (buffer : option dma_buffer) : option (pmm * option dma_buffer * Z) :=
  match buffer with
  | None => Some (s, buffer, -1)
  | Some _ =>
    if (size =? 0) || (address_bits <? 32) || (64 <? address_bits) then Some (s, buffer, -1) else
    let alignment := if alignment <? DMA_PAGE_SIZE then DMA_PAGE_SIZE else alignment in
    if negb (alignment &&& u64 (alignment - 1) =? 0) || (U64_MAX - DMA_PAGE_SIZE <? size) then Some (s, buffer, -1) else
    let pages := u64 (u64 (size + DMA_PAGE_SIZE) - 1) / DMA_PAGE_SIZE in
    let alignment_pages := alignment / DMA_PAGE_SIZE in
    let total_pages := u64 (u64 (pages + alignment_pages) - 1) in
    if U32_MAX <? total_pages then Some (s, buffer, -1) else
    '(s, allocation) ← pmm_alloc_pages s (u32 total_pages);
    if allocation =? 0 then Some (s, buffer, -1) else
    let physical := align_up allocation alignment in
    if (address_bits <? 64) && (1 << address_bits <? u64 (physical + size)) then
      s ← pmm_free_pages s allocation (u32 total_pages); Some (s, buffer, -1)
    else
    Some (s, Some (Buffer physical physical size allocation (u32 total_pages) address_bits 1), 0)
  end.

Definition dma_free (s : pmm) (buffer : option dma_buffer) : option (pmm * option dma_buffer) :=
  match buffer with
  | None => Some (s, buffer)
  | Some b =>
    if (allocation_base b =? 0) || (allocation_pages b =? 0) then Some (s, buffer) else
    s ← pmm_free_pages s (allocation_base b) (allocation_pages b);
    Some (s, Some (Buffer 0 0 0 0 0 (buffer_address_bits b) (coherent b)))
  end.

(** The caller's variable, and the code. *)
Definition dma_map (address size address_bits : Z) (physical_address : option Z) : option Z * Z :=
  match physical_address with
  | None => (physical_address, -1)
  | Some _ =>
    if (address =? 0) || (size =? 0) || (address_bits <? 32) || (64 <? address_bits) || (U64_MAX - address <? size) then (physical_address, -1) else
    if (address_bits <? 64) && (1 << address_bits <? u64 (address + size)) then (physical_address, -1) else
    (Some address, 0)
  end.

(** The state is the cursor, the bytes left, the segments and their number; the
    loop ends with the segments and [Some used], or fails ([None]). *)
Definition scatter_step (max_segment_size capacity : Z) (st : Z * Z * list dma_segment * Z)
  : option (Z * Z * list dma_segment * Z + list dma_segment * option Z) :=
  let '(cursor, size, segments, used) := st in
  if negb (size =? 0) then
    let page_left := DMA_PAGE_SIZE - (cursor &&& (DMA_PAGE_SIZE - 1)) in
    let length := if size <? page_left then size else page_left in
    let length := if max_segment_size <? length then max_segment_size else length in
    if capacity <=? used then Some (inr (segments, None)) else
    segments ← wr segments used (Segment cursor (u32 length));
    Some (inl (u64 (cursor + length), u64 (size - length), segments, u32 (used + 1)))
  else Some (inr (segments, Some used)).

Definition dma_build_scatter (address size max_segment_size : Z) (segments : option (list dma_segment)) (capacity : Z) (count : option Z)
  : option (option (list dma_segment) * option Z * Z) :=
  match segments, count with
  | Some l, Some _ =>
    if (address =? 0) || (size =? 0) || (max_segment_size =? 0) || (U64_MAX - address <? size) then Some (segments, count, -1) else
    '(l, used) ← while_loop (S (S (Z.to_nat capacity))) (scatter_step max_segment_size capacity) (address, size, l, 0);
    Some (Some l, match used with Some n => Some n | None => count end, match used with Some _ => 0 | None => -1 end)
  | _, _ => Some (segments, count, -1)
  end.

(** The test writes two bytes of the buffer.  [segments], [mapped] and [count] are
    uninitialised. *)
Definition dma_self_test (s : pmm) (ram : gmap Z Z) (segments : list dma_segment) (mapped count : Z) : option (pmm * gmap Z Z * Z) :=
  '(s, b, code) ← dma_alloc s 8192 4096 32 (Some (Buffer 0 0 0 0 0 0 0));
  if negb (code =? 0) then Some (s, ram, -1) else
  buffer ← b;
  let bytes := virtual_address buffer in
  let ram := <[bytes := 0x4D]> ram in
  let ram := <[bytes + 8191 := 0x56]> ram in
  let '(mapped, code) := dma_map bytes 8192 32 (Some mapped) in
  p ← mapped;
  if negb (code =? 0) || negb (p =? physical_address buffer) then '(s, _) ← dma_free s b; Some (s, ram, -1) else
  '(_, count, code) ← dma_build_scatter bytes 8192 4096 (Some segments) 4 (Some count);
  n ← count;
  if negb (code =? 0) || negb (n =? 2) then '(s, _) ← dma_free s b; Some (s, ram, -1) else
  '(s, _) ← dma_free s b;
  Some (s, ram, 0).

(** ** Allocation *)

(** The alignment that counts, and the pages to take. *)
Definition granted_alignment (alignment : Z) : Z := Z.max alignment DMA_PAGE_SIZE.
Definition pages_needed (size alignment : Z) : Z :=
  (size + DMA_PAGE_SIZE - 1) / DMA_PAGE_SIZE + granted_alignment alignment / DMA_PAGE_SIZE - 1.

Definition request_ok (size alignment address_bits : Z) : Prop :=
  0 < size <= U64_MAX - DMA_PAGE_SIZE /\ 32 <= address_bits <= 64 /\ exists k, 12 <= k < 64 /\ granted_alignment alignment = 2 ^ k.

(** A buffer of [size] bytes in the run of pages from [first]. *)
Record buffer_ok (b : dma_buffer) (size alignment address_bits first : Z) : Prop := {
  ok_same : virtual_address b = physical_address b;
  ok_size : buffer_size b = size;
  ok_aligned : (granted_alignment alignment | physical_address b);
  ok_pages : allocation_pages b = pages_needed size alignment;
  ok_base : allocation_base b = first * PAGE_SIZE;
  ok_inside : first * PAGE_SIZE <= physical_address b /\ physical_address b + size <= (first + allocation_pages b) * PAGE_SIZE;
  ok_limit : physical_address b + size <= 2 ^ address_bits;
}.

Lemma align_up_spec v k : 12 <= k < 64 -> 0 <= v -> (4096 | v) -> v + 2 ^ k <= U64_MAX ->
  (2 ^ k | align_up v (2 ^ k)) /\ v <= align_up v (2 ^ k) <= v + 2 ^ k - 4096.
Proof.
  intros Hk Hv [q ->] Hmax. unfold align_up. pose proof (Z.pow_pos_nonneg 2 k ltac:(lia) ltac:(lia)) as Hpos.
  assert (2 ^ k = 4096 * 2 ^ (k - 12)) as E by (change 4096 with (2 ^ 12); rewrite <- Z.pow_add_r by lia; f_equal; lia).
  rewrite (u64_small (2 ^ k - 1)), (u64_small (q * 4096 + 2 ^ k)), u64_small by (unfold U64_MAX in *; unfold fits; lia).
  replace (q * 4096 + 2 ^ k - 1) with (q * 4096 + (2 ^ k - 1)) by lia.
  rewrite land_compl_mask by (unfold U64_MAX in *; unfold fits; lia).
  pose proof (round_up_div (q * 4096) (2 ^ k) Hpos) as Hr. split; [apply Z.divide_factor_r|]. split; [lia|].
  set (d := (_ / _)) in *. rewrite E in *. nia.
Qed.

Lemma granted_power alignment : fits 64 alignment ->
  (if alignment <? DMA_PAGE_SIZE then DMA_PAGE_SIZE else alignment) = granted_alignment alignment /\
  ((granted_alignment alignment &&& u64 (granted_alignment alignment - 1) =? 0) = true <-> exists k, 12 <= k < 64 /\ granted_alignment alignment = 2 ^ k).
Proof.
  intros Ha. unfold granted_alignment, DMA_PAGE_SIZE in *. split; [destruct (Z.ltb_spec alignment 4096); lia|].
  pose proof (is_power_of_two_spec (Z.max alignment 4096)) as H. unfold mvh_is_power_of_two_u64 in H.
  rewrite (proj2 (Z.eqb_neq (Z.max alignment 4096) 0)) in H by lia. rewrite H by (unfold fits in *; lia). split; intros (k & Hk & E); exists k; (split; [|done]); [|lia].
  split; [|lia]. apply Z.nlt_ge. intros Hlt. pose proof (Z.pow_lt_mono_r 2 k 12 eq_refl ltac:(lia) Hlt) as Hx. change (2 ^ 12) with 4096 in Hx. lia.
Qed.

Definition no_run (s : pmm) (count : Z) : Prop :=
  forall q, reserved_pages s <= q -> q + count <= managed_pages s -> blocked (page_bitmap s) q count.

Definition untouched (s s' : pmm) : Prop :=
  page_bitmap s' = page_bitmap s /\ used_pages s' = used_pages s /\ managed_pages s' = managed_pages s /\ reserved_pages s' = reserved_pages s.

Lemma dma_alloc_outcome s size alignment address_bits b :
  pmm_inv s -> 0 < reserved_pages s -> fits 64 size -> fits 64 alignment -> fits 8 address_bits ->
  exists s' r code, dma_alloc s size alignment address_bits (Some b) = Some (s', Some r, code) /\ pmm_inv s' /\
    ((code = 0 /\ request_ok size alignment address_bits /\ exists first, allocated s s' (pages_needed size alignment) first /\ buffer_ok r size alignment address_bits first /\
        reserved_pages s' = reserved_pages s /\ managed_pages s' = managed_pages s /\ allocation_base r <> 0) \/
     (code = -1 /\ r = b /\ untouched s s' /\ (~ request_ok size alignment address_bits \/ no_run s (pages_needed size alignment)))).
Proof.
  intros Hi Hr Fs Fa Fb. unfold dma_alloc.
  destruct ((size =? 0) || _ || _) eqn:E1.
  { exists s, b, (-1). split; [done|]. split; [done|]. right. split; [done|]. split; [done|]. split; [done|]. left. intros (H1 & H2 & _).
    rewrite !orb_true_iff, Z.eqb_eq, !Z.ltb_lt in E1. lia. }
  rewrite !orb_false_iff, Z.eqb_neq, !Z.ltb_ge in E1. destruct (granted_power alignment Fa) as [-> Hpow]. cbv zeta.
  destruct (negb _ || _) eqn:E2.
  { exists s, b, (-1). split; [done|]. split; [done|]. right. split; [done|]. split; [done|]. split; [done|]. left. intros (H1 & H2 & Hk%Hpow).
    rewrite Hk in E2. apply Z.ltb_lt in E2. lia. }
  apply orb_false_iff in E2 as [E2%negb_false_iff E3%Z.ltb_ge]. apply Hpow in E2 as (k & Hk & Ek). unfold fits in Fs.
  assert (Hok : request_ok size alignment address_bits) by (split; [lia|]; split; [lia|by exists k]).
  assert (Hab : 4096 <= granted_alignment alignment < 2 ^ 64) by (unfold granted_alignment, DMA_PAGE_SIZE, fits in *; lia).
  set (al := granted_alignment alignment) in *.
  rewrite (u64_small (size + DMA_PAGE_SIZE)), (u64_small (size + DMA_PAGE_SIZE - 1)) by (unfold U64_MAX, DMA_PAGE_SIZE in *; unfold fits; lia).
  assert (Hsz : size <= (size + DMA_PAGE_SIZE - 1) / DMA_PAGE_SIZE * 4096 < size + 4096) by (unfold DMA_PAGE_SIZE; divlia).
  assert (Hal : al / DMA_PAGE_SIZE * 4096 = al).
  { rewrite Ek. unfold DMA_PAGE_SIZE. change 4096 with (2 ^ 12). rewrite <- Z.pow_sub_r, <- Z.pow_add_r by lia. f_equal. lia. }
  assert (pages_needed size alignment = (size + DMA_PAGE_SIZE - 1) / DMA_PAGE_SIZE + al / DMA_PAGE_SIZE - 1) as Hpn by done.
  rewrite (u64_small (_ + al / _)), (u64_small (_ - 1)), <- Hpn by (unfold fits, U64_MAX, DMA_PAGE_SIZE in *; lia).
  assert (0 < pages_needed size alignment) as Hpos by lia.
  destruct (U32_MAX <? pages_needed size alignment) eqn:E4.
  { apply Z.ltb_lt in E4. exists s, b, (-1). split; [done|]. split; [done|]. right. split; [done|]. split; [done|]. split; [done|]. right. intros q Hq1 Hq2.
    pose proof (inv_range s Hi). unfold PMM_MAX_PAGES, U32_MAX in *. lia. }
  apply Z.ltb_ge in E4. rewrite u32_small by (unfold U32_MAX in *; unfold fits; lia).
  destruct (pmm_alloc_outcome s (pages_needed size alignment) Hi) as (s1 & a & -> & Hi1 & Hm & Hrs & Hcase); [unfold U32_MAX in *; unfold fits; lia|].
  rewrite bind_some. destruct Hcase as [(first & -> & Hal')|(-> & [[?|Hno] (Hb & Hu & _)])]; [|lia|].
  2:{ exists s1, b, (-1). split; [done|]. split; [done|]. right. split; [done|]. split; [done|]. split; [done|]. by right. }
  pose proof Hal' as (_ & Hf1 & Hf2 & _). pose proof (inv_range s Hi) as [_ Hmax]. unfold PMM_MAX_PAGES in Hmax.
  rewrite (proj2 (Z.eqb_neq _ 0)) by (unfold PAGE_SIZE; lia).
  destruct (align_up_spec (first * PAGE_SIZE) k) as [Hd Hin]; [done|unfold PAGE_SIZE; lia|by exists first|unfold U64_MAX, PAGE_SIZE; lia|].
  rewrite <- Ek in Hd, Hin. set (p := align_up _ _) in *.
  assert (Hend : p + size <= (first + pages_needed size alignment) * PAGE_SIZE) by (unfold PAGE_SIZE in *; lia).
  assert (Hlim : p + size <= 2 ^ 32) by (unfold PAGE_SIZE in *; lia).
  assert (2 ^ 32 <= 2 ^ address_bits) as Hbits by (apply Z.pow_le_mono_r; lia).
  assert ((address_bits <? 64) && (1 << address_bits <? u64 (p + size)) = false) as ->.
  { apply andb_false_iff. right. apply Z.ltb_ge. rewrite Z.shiftl_1_l, u64_small by (unfold PAGE_SIZE in *; unfold fits; lia). lia. }
  eexists _, _, 0. split; [done|]. split; [done|]. left. split; [done|]. split; [done|]. exists first. split; [done|].
  split; [|split; [done|]; split; [done|]; cbn; unfold PAGE_SIZE; lia]. constructor; cbn; try done; [lia|lia].
Qed.

(** A freed buffer gives its pages back, and freeing it once more does nothing. *)
Lemma dma_free_outcome s s1 b size alignment address_bits first :
  pmm_inv s1 -> 0 < reserved_pages s -> reserved_pages s1 = reserved_pages s -> managed_pages s1 = managed_pages s ->
  allocated s s1 (pages_needed size alignment) first -> buffer_ok b size alignment address_bits first ->
  exists s2 b', dma_free s1 (Some b) = Some (s2, Some b') /\ pmm_inv s2 /\ used_pages s2 = used_pages s /\
    (forall q, bit (page_bitmap s2) q = bit (page_bitmap s) q) /\ dma_free s2 (Some b') = Some (s2, Some b').
Proof.
  intros Hi1 Hr Er Em (Hpos & Hf1 & Hf2 & Hfree & _ & Hb & Hu) [_ _ _ Hp Hbase _ _]. unfold dma_free at 1.
  rewrite Hbase, Hp, !(proj2 (Z.eqb_neq _ 0)) by (unfold PAGE_SIZE; lia). cbn [orb].
  pose proof (inv_range s1 Hi1) as [_ Hmax]. unfold PMM_MAX_PAGES in Hmax.
  destruct (pmm_free_outcome s1 (first * PAGE_SIZE) first (pages_needed size alignment)) as (s2 & -> & Hi2 & _ & _ & Hu2 & Hb2);
    [done|change (PAGE_SIZE - 1) with (2 ^ 12 - 1); rewrite land_mask by done; by apply Z.mod_mul|
     rewrite Z.div_mul by done; apply small_u32; unfold PMM_MAX_PAGES; lia|lia..|].
  rewrite bind_some. eexists s2, _. split; [done|]. split; [done|]. split_and!; [| |done].
  - rewrite Hu2, Hu, (count_true_const true) by (intros p Hp'; rewrite Hb; unfold in_run; zcmp). lia.
  - intros q. rewrite Hb2, Hb. destruct (in_run first _ q) eqn:E; [|done]. symmetry. apply Hfree. unfold in_run in E. zcmp.
Qed.

(** C19: buffers for devices.  A request ends without a fault.  It succeeds exactly
    when it is well formed and the allocator has a run of as many free pages as
    size and alignment call for; the buffer then lies in that run, which nobody
    else has, at a multiple of the alignment and below the address limit of the
    device.  Otherwise no page is taken.  Freeing the buffer gives all its pages
    back, and freeing it again does nothing. *)
Theorem dma_alloc_correct s size alignment address_bits b :
  pmm_inv s -> 0 < reserved_pages s -> fits 64 size -> fits 64 alignment -> fits 8 address_bits ->
  exists s1 r code, dma_alloc s size alignment address_bits (Some b) = Some (s1, Some r, code) /\ pmm_inv s1 /\
    (code = 0 <-> request_ok size alignment address_bits /\ ~ no_run s (pages_needed size alignment)) /\
    (code = 0 -> (exists first, allocated s s1 (pages_needed size alignment) first /\ buffer_ok r size alignment address_bits first) /\
       exists s2 b', dma_free s1 (Some r) = Some (s2, Some b') /\ pmm_inv s2 /\ used_pages s2 = used_pages s /\
         (forall q, bit (page_bitmap s2) q = bit (page_bitmap s) q) /\ dma_free s2 (Some b') = Some (s2, Some b')) /\
    (code <> 0 -> code = -1 /\ r = b /\ untouched s s1).
Proof.
  intros Hi Hr Fs Fa Fb. destruct (dma_alloc_outcome s size alignment address_bits b Hi Hr Fs Fa Fb) as (s1 & r & code & -> & Hi1 & Hcase).
  exists s1, r, code. split; [done|]. split; [done|]. destruct Hcase as [(-> & Hok & first & Hal & Hbuf & Er & Em & _)|(-> & -> & Hun & Hwhy)].
  - split; [|split; [|done]].
    + split; [intros _|done]. split; [done|]. intros Hno. destruct Hal as (Hpos & Hf1 & Hf2 & Hfree & _).
      destruct (Hno first Hf1 Hf2) as (p & Hp & Hbit). by rewrite Hfree in Hbit by lia.
    + intros _. split; [by exists first|]. by apply (dma_free_outcome s s1 r size alignment address_bits first).
  - split; [|split; [done|done]]. split; [done|]. intros [Hok Hno]. by destruct Hwhy.
Qed.

(** ** Scatter lists *)

(** A range cut into segments: each lies in one page and is as long as the page,
    the rest of the range and the limit allow. *)
Inductive cut (limit : Z) : Z -> Z -> list dma_segment -> Prop :=
  | cut_end a : cut limit a 0 []
  | cut_more a n len l :
      0 < len <= n -> len <= limit -> a / DMA_PAGE_SIZE = (a + len - 1) / DMA_PAGE_SIZE ->
      len = n \/ len = limit \/ (a + len) mod DMA_PAGE_SIZE = 0 ->
      cut limit (a + len) (n - len) l -> cut limit a n (Segment a len :: l).

(** The cut is unique. *)
Lemma cut_fun limit a n l : cut limit a n l -> forall l', cut limit a n l' -> l' = l.
Proof.
  induction 1 as [a|a n len l H1 H2 H3 H4 _ IH]; intros l' Hl'; inversion Hl' as [|a' n' len' r G1 G2 G3 G4 Hr]; subst; [done|lia|lia|].
  unfold DMA_PAGE_SIZE in *. assert (len' = len) as ->; [|by rewrite (IH r)]. destruct (Z.lt_trichotomy len' len) as [?|[?|?]]; [|done|]; divlia.
Qed.

(** The length the loop chooses. *)
Definition piece (limit a n : Z) : Z :=
  let page_left := DMA_PAGE_SIZE - (a &&& (DMA_PAGE_SIZE - 1)) in
  let length := if n <? page_left then n else page_left in if limit <? length then limit else length.

Lemma piece_spec limit a n : 0 < limit -> 0 <= a -> 0 < n ->
  let len := piece limit a n in
  0 < len <= n /\ len <= limit /\ a / DMA_PAGE_SIZE = (a + len - 1) / DMA_PAGE_SIZE /\ (len = n \/ len = limit \/ (a + len) mod DMA_PAGE_SIZE = 0).
Proof.
  intros Hl Ha Hn. unfold piece. change (DMA_PAGE_SIZE - 1) with (2 ^ 12 - 1). rewrite land_mask by done. unfold DMA_PAGE_SIZE. change (2 ^ 12) with 4096.
  pose proof (Z.mod_pos_bound a 4096 eq_refl). destruct (Z.ltb_spec n (4096 - a mod 4096)); [destruct (Z.ltb_spec limit n)|destruct (Z.ltb_spec limit (4096 - a mod 4096))];
    cbv zeta; split_and!; try lia; divlia.
Qed.

Lemma scatter_step_eq limit capacity a n segments used :
  scatter_step limit capacity (a, n, segments, used) =
    if n =? 0 then Some (inr (segments, Some used)) else if capacity <=? used then Some (inr (segments, None)) else
    segments ← wr segments used (Segment a (u32 (piece limit a n)));
    Some (inl (u64 (a + piece limit a n), u64 (n - piece limit a n), segments, u32 (used + 1))).
Proof. unfold scatter_step, piece. by destruct (n =? 0). Qed.

Lemma scatter_loop limit capacity : 0 < limit < 2 ^ 32 -> capacity < 2 ^ 32 -> forall fuel a n segments used,
  0 <= a -> 0 <= n -> a + n <= U64_MAX -> 0 <= used <= capacity -> capacity <= Z.of_nat (length segments) -> capacity - used + 1 < Z.of_nat fuel ->
  exists segments' r, while_loop fuel (scatter_step limit capacity) (a, n, segments, used) = Some (segments', r) /\ length segments' = length segments /\
    ((exists l, cut limit a n l /\ used + Z.of_nat (length l) <= capacity /\ r = Some (used + Z.of_nat (length l)) /\
        segments' = take (Z.to_nat used) segments ++ l ++ drop (Z.to_nat used + length l) segments) \/
     (r = None /\ forall l, cut limit a n l -> capacity < used + Z.of_nat (length l))).
Proof.
  intros Hlim Hcap. induction fuel as [|fuel IH]; intros a n segments used Ha Hn Hmax Hu Hlen Hfuel; [lia|].
  rewrite while_loop_S, scatter_step_eq. destruct (Z.eqb_spec n 0) as [->|Hne].
  { rewrite bind_some. eexists _, _. split; [done|]. split; [done|]. left. exists []. split; [constructor|]. cbn [length]. rewrite Nat.add_0_r, Z.add_0_r.
    split; [lia|]. split; [done|]. cbn. by rewrite take_drop. }
  destruct (piece_spec limit a n) as (H1 & H2 & H3 & H4); [lia..|]. set (len := piece limit a n) in *.
  destruct (Z.leb_spec capacity used).
  { rewrite bind_some. eexists _, _. split; [done|]. split; [done|]. right. split; [done|]. intros l Hl. inversion Hl; subst; [lia|]. cbn [length]. lia. }
  rewrite wr_ok, !bind_some by lia.
  unfold U64_MAX in *. rewrite (u64_small (a + len)), (u64_small (n - len)), (u32_small (used + 1)), (u32_small len) by (unfold fits; lia).
  destruct (IH (a + len) (n - len) (<[Z.to_nat used := Segment a len]> segments) (used + 1)) as (segs' & r & -> & Hl' & Hcase);
    [lia..|rewrite length_insert; lia|lia|]. rewrite length_insert in Hl'.
  exists segs', r. split; [done|]. split; [done|]. destruct Hcase as [(l & Hc & Hle & -> & ->)|[-> Hno]].
  - left. exists (Segment a len :: l). cbn [length]. split; [by constructor|]. split; [lia|]. split; [f_equal; lia|].
    replace (Z.to_nat (used + 1)) with (S (Z.to_nat used)) by lia. rewrite (take_S_r _ _ (Segment a len)) by (apply list_lookup_insert_eq; lia).
    rewrite take_insert_ge, drop_insert_lt by lia. rewrite <- app_assoc. cbn [app]. do 4 f_equal. lia.
  - right. split; [done|]. intros l Hl. inversion Hl as [|a' n' len' rest G1 G2 G3 G4 Hr]; subst; [lia|].
    assert (len' = len) as -> by (unfold DMA_PAGE_SIZE in *; destruct (Z.lt_trichotomy len' len) as [?|[?|?]]; [|done|]; divlia).
    specialize (Hno rest Hr). cbn [length]. lia.
Qed.

Lemma build_scatter_outcome address size limit segments capacity count :
  fits 64 address -> fits 64 size -> fits 32 limit -> fits 32 capacity -> capacity <= Z.of_nat (length segments) ->
  exists segments' n code, dma_build_scatter address size limit (Some segments) capacity (Some count) = Some (Some segments', Some n, code) /\
    length segments' = length segments /\
    ((code = 0 /\ exists l, cut limit address size l /\ (forall l', cut limit address size l' -> l' = l) /\
        n = Z.of_nat (length l) /\ n <= capacity /\ segments' = l ++ drop (length l) segments) \/
     (code = -1 /\ n = count /\ (address = 0 \/ size = 0 \/ limit = 0 \/ U64_MAX < address + size \/ forall l, cut limit address size l -> capacity < Z.of_nat (length l)))).
Proof.
  intros Fa Fs Fl Fc Hlen. unfold dma_build_scatter, fits in *. destruct (_ || _ || _ || _) eqn:E.
  { exists segments, count, (-1). split; [done|]. split; [done|]. right. split; [done|]. split; [done|]. rewrite !orb_true_iff, !Z.eqb_eq, Z.ltb_lt in E. lia. }
  rewrite !orb_false_iff, !Z.eqb_neq, Z.ltb_ge in E.
  destruct (scatter_loop limit capacity ltac:(lia) ltac:(lia) (S (S (Z.to_nat capacity))) address size segments 0) as (segs & r & -> & Hl & Hcase); [lia..|].
  rewrite bind_some. destruct Hcase as [(l & Hcut & Hle & -> & ->)|[-> Hno]].
  - eexists _, _, 0. split; [done|]. split; [done|]. left. split; [done|]. exists l. split; [done|]. split; [by apply cut_fun|]. split; [lia|]. split; [lia|done].
  - eexists _, _, (-1). split; [done|]. split; [done|]. right. split; [done|]. split; [done|]. do 4 right. intros l Hc. apply Hno in Hc. lia.
Qed.

(** The self test passes unless there is no run of two pages, and gives its pages
    back. *)
Lemma dma_self_test_outcome s ram segments mapped count :
  pmm_inv s -> 0 < reserved_pages s -> length segments = 4%nat ->
  exists s' ram' code, dma_self_test s ram segments mapped count = Some (s', ram', code) /\ pmm_inv s' /\
    (forall q, bit (page_bitmap s') q = bit (page_bitmap s) q) /\ (code = 0 \/ code = -1 /\ no_run s 2).
Proof.
  intros Hi Hr Hlen. unfold dma_self_test. change 2 with (pages_needed 8192 4096) at 2.
  destruct (dma_alloc_outcome s 8192 4096 32 (Buffer 0 0 0 0 0 0 0) Hi Hr) as (s1 & b & code & -> & Hi1 & Hcase); [by split|by split|by split|].
  rewrite bind_some. destruct Hcase as [(-> & Hok & first & Hal & Hbuf & Er & Em & _)|(-> & -> & (Hbm & _) & [Hbad|Hno])].
  2:{ destruct Hbad. split; [by split|]. split; [by split|]. by exists 12. }
  2:{ eexists s1, ram, (-1). split; [done|]. split; [done|]. split; [by rewrite Hbm|]. by right. }
  change (negb (0 =? 0)) with false. cbn iota. rewrite bind_some.
  destruct (dma_free_outcome s s1 b 8192 4096 32 first Hi1 Hr Er Em Hal Hbuf) as (s2 & b' & Hf & Hi2 & _ & Hbits & _).
  pose proof Hal as (_ & Hf1 & _). destruct Hbuf as [Hv _ [k Hk] _ _ [Hin _] Hlim]. rewrite Hv. set (p := physical_address b) in *.
  change (granted_alignment 4096) with 4096 in Hk. change (2 ^ 32) with 4294967296 in Hlim.
  assert (4096 <= p) as Hp by (unfold PAGE_SIZE in Hin; lia).
  assert (dma_map p 8192 32 (Some mapped) = (Some p, 0)) as ->.
  { unfold dma_map. change (1 << 32) with 4294967296. unfold U64_MAX. rewrite u64_small by (unfold fits; lia).
    rewrite (proj2 (Z.eqb_neq p 0)), (proj2 (Z.ltb_ge (2 ^ 64 - 1 - p) 8192)), (proj2 (Z.ltb_ge 4294967296 (p + 8192))) by lia. done. }
  rewrite bind_some, !Z.eqb_refl. cbn [negb orb].
  assert (Hcut : cut 4096 p 8192 [Segment p 4096; Segment (p + 4096) 4096]).
  { constructor; [lia|lia|unfold DMA_PAGE_SIZE; divlia|lia|]. change (8192 - 4096) with 4096.
    constructor; [lia|lia|unfold DMA_PAGE_SIZE; divlia|lia|]. constructor. }
  destruct (build_scatter_outcome p 8192 4096 segments 4 count) as (segs & n & code & -> & _ & Hcase); [unfold fits; lia|by split|by split|by split|lia|].
  rewrite bind_some. destruct Hcase as [(-> & l & _ & Hu & -> & _)|(-> & _ & Hbad)].
  - rewrite <- (Hu _ Hcut), bind_some. cbn [length]. change (negb (0 =? 0) || negb (Z.of_nat 2 =? 2)) with false. cbn iota. rewrite Hf, bind_some.
    eexists _, _, 0. split; [done|]. split; [done|]. split; [done|]. by left.
  - exfalso. destruct Hbad as [?|[?|[?|[?|Hbad]]]]; [lia|lia|lia|unfold U64_MAX in *; lia|]. apply Hbad in Hcut. cbn in Hcut. lia.
Qed.

(** C20: scatter lists.  For an array of at least [capacity] segments the function
    ends without storing outside it.  When it succeeds, the list is the one way to
    cut the range into segments that each lie in one page, are at most as long as
    the device allows and could not be longer; the rest of the array is untouched.
    It fails only for an empty or overflowing range, a limit of 0, or when that cut
    needs more segments than there are. *)
Theorem dma_build_scatter_exact address size limit segments capacity count :
  fits 64 address -> fits 64 size -> fits 32 limit -> fits 32 capacity -> capacity <= Z.of_nat (length segments) ->
  exists segments' n code, dma_build_scatter address size limit (Some segments) capacity (Some count) = Some (Some segments', Some n, code) /\
    length segments' = length segments /\
    ((code = 0 /\ exists l, cut limit address size l /\ (forall l', cut limit address size l' -> l' = l) /\
        n = Z.of_nat (length l) /\ n <= capacity /\ segments' = l ++ drop (length l) segments) \/
     (code = -1 /\ n = count /\ (address = 0 \/ size = 0 \/ limit = 0 \/ U64_MAX < address + size \/ forall l, cut limit address size l -> capacity < Z.of_nat (length l)))).
Proof. apply build_scatter_outcome. Qed.

Lemma dma_build_scatter_exact_witness :
  dma_build_scatter 0x10800 0x1400 4096 (Some (replicate 4 (Segment 0 0))) 4 (Some 0) =
    Some (Some [Segment 0x10800 0x800; Segment 0x11000 0xC00; Segment 0 0; Segment 0 0], Some 2, 0) /\
  exists l, cut 4096 0x10800 0x1400 l /\ length l = 2%nat.
Proof.
  assert (dma_build_scatter 0x10800 0x1400 4096 (Some (replicate 4 (Segment 0 0))) 4 (Some 0) =
    Some (Some [Segment 0x10800 0x800; Segment 0x11000 0xC00; Segment 0 0; Segment 0 0], Some 2, 0)) as E by (vm_compute; reflexivity).
  destruct (dma_build_scatter_exact 0x10800 0x1400 4096 (replicate 4 (Segment 0 0)) 4 0) as (segs & n & code & Hx & _ & Hcase);
    [by split|by split|by split|by split|cbn; lia|].
  rewrite E in Hx. injection Hx as <- <- <-. split; [exact E|]. destruct Hcase as [(_ & l & Hc & _ & Hn & _)|(H & _)]; [|discriminate H].
  exists l. split; [exact Hc|]. apply Nat2Z.inj. symmetry. exact Hn.
Defined.

Lemma dma_alloc_correct_witness :
  exists s1 r, dma_alloc demo 8192 4096 32 (Some (Buffer 0 0 0 0 0 0 0)) = Some (s1, Some r, 0) /\ (exists first, buffer_ok r 8192 4096 32 first) /\
    exists s2 b', dma_free s1 (Some r) = Some (s2, Some b') /\ forall q, bit (page_bitmap s2) q = bit (page_bitmap demo) q.
Proof.
  destruct (dma_alloc_correct demo 8192 4096 32 (Buffer 0 0 0 0 0 0 0) demo_inv) as (s1 & r & code & E & _ & Hiff & Hok & _); [reflexivity|by split|by split|by split|].
  assert (code = 0) as ->.
  { apply Hiff. split.
    - split; [by split|]. split; [by split|]. exists 12. split; [lia|reflexivity].
    - intros Hno. destruct (Hno 8) as (p & Hp & Hbit); [apply Z.le_refl|by apply Z.leb_le|]. change (pages_needed 8192 4096) with 2 in Hp.
      rewrite demo_bit in Hbit by (unfold PMM_MAX_PAGES; lia). unfold in_run in Hbit. clear - Hp Hbit. zcmp. }
  destruct (Hok eq_refl) as ((first & _ & Hb) & s2 & b' & E2 & _ & _ & Hbits & _).
  exists s1, r. split; [exact E|]. split; [by exists first|]. exists s2, b'. split; [exact E2|exact Hbits].
Defined.
