(* ===== verification/Allocator.v ===== *)
(** * What the kernel heap promises to its clients

    The interface [Allocator] has the calls of the heap that other components
    make and the accesses to allocated bytes; [AllocatorLaws] says what they do
    to the map from addresses to contents that the client holds.  The heap of
    Heap.v implements it, by the theorems of HeapInit.v. *)

From S2P Require Import Prelude Buffer Heap HeapLayout HeapCorrect HeapClient HeapSpec HeapInit.

#[local] Open Scope Z_scope.

Class Allocator (H : Type) := {
  a_kcalloc : H -> Z -> Z -> option (H * Z);
  a_kfree : H -> Z -> option (or_panic H);
  a_load8 : H -> Z -> option Z;
  a_store8 : H -> Z -> Z -> option H;
}.

(** The largest request that is not cut by the 32-bit mask of [align16]. *)
Definition MAX_REQUEST : Z := 2 ^ 32 - 24.

Class AllocatorLaws (H : Type) `{Allocator H} := {
  holds : H -> gmap Z (list Z) -> Prop;
  holds_calloc h V n :
    holds h V -> 0 < n <= MAX_REQUEST ->
    exists h' p, a_kcalloc h 1 n = Some (h', p) /\
      ((p = 0 /\ holds h' V) \/ (p <> 0 /\ V !! p = None /\ holds h' (<[p := replicate (Z.to_nat n) 0]> V)));
  holds_free h V p :
    holds h V -> is_Some (V !! p) -> exists h', a_kfree h p = Some (inl h') /\ holds h' (delete p V);
  holds_load h V p c i :
    holds h V -> V !! p = Some c -> 0 <= i < Z.of_nat (length c) -> a_load8 h (p + i) = rd c i;
  holds_store h V p c i v :
    holds h V -> V !! p = Some c -> 0 <= i < Z.of_nat (length c) -> fits 8 v ->
    exists h', a_store8 h (p + i) v = Some h' /\ holds h' (<[p := <[Z.to_nat i := v]> c]> V);
  holds_bytes h V p c : holds h V -> V !! p = Some c -> all_bytes c;
  holds_range h V p c : holds h V -> V !! p = Some c -> 0 < p /\ p + Z.of_nat (length c) < 2 ^ 64;
}.

#[export] Instance heap_allocator : Allocator heap := {
  a_kcalloc := kcalloc; a_kfree := kfree; a_load8 := load8; a_store8 := store8;
}.

Lemma represents_calloc h V n :
  represents h V -> 0 < n <= MAX_REQUEST ->
  exists h' p, kcalloc h 1 n = Some (h', p) /\
    ((p = 0 /\ represents h' V) \/ (p <> 0 /\ V !! p = None /\ represents h' (<[p := replicate (Z.to_nat n) 0]> V))).
Proof.
  intros (bs & Hi & ->) Hn. unfold MAX_REQUEST in Hn.
  destruct (kcalloc_outcome h bs 1 n Hi) as (h' & p & bs' & Hk & Hi' & _ & _ & _ & Hcase); [lia..|].
  exists h', p. split; [done|]. rewrite Z.mul_1_l in Hcase.
  destruct Hcase as [(-> & Hv & _)|(Hp & Hnew & Hv)]; [left|right].
  - split; [done|]. exists bs'. by rewrite Hv.
  - split; [done|]. split; [done|]. exists bs'. by rewrite Hv.
Qed.

Lemma represents_free h V p :
  represents h V -> is_Some (V !! p) -> exists h', kfree h p = Some (inl h') /\ represents h' (delete p V).
Proof.
  intros (bs & Hi & ->) [c Hc]. destruct (free_outcome h bs p c Hi Hc) as (h' & bs' & Hk & Hi' & _ & _ & _ & _ & Hv).
  exists h'. split; [done|]. exists bs'. by rewrite Hv.
Qed.

Lemma represents_store h V p c i v :
  represents h V -> V !! p = Some c -> 0 <= i < Z.of_nat (length c) -> fits 8 v ->
  exists h', store8 h (p + i) v = Some h' /\ represents h' (<[p := <[Z.to_nat i := v]> c]> V).
Proof.
  intros (bs & Hi & ->) Hc Hidx Hv. destruct (store_outcome h bs Hi p c Hc i v Hidx Hv) as (h' & bs' & Hs & Hi' & _ & Hview).
  exists h'. split; [done|]. exists bs'. by rewrite Hview.
Qed.

Lemma represents_bytes h V p c : represents h V -> V !! p = Some c -> all_bytes c.
Proof. intros (bs & Hi & ->) Hc. by apply (view_bytes h bs p). Qed.

Lemma represents_range h V p c : represents h V -> V !! p = Some c -> 0 < p /\ p + Z.of_nat (length c) < 2 ^ 64.
Proof.
  intros (bs & Hi & ->) Hc. destruct (view_separate h bs Hi) as [Hs _]. destruct (Hs p c Hc) as [H1 H2].
  destruct (inv_placed _ _ Hi) as (Hf & Hend & _). rewrite (inv_spans _ _ Hi) in Hend. lia.
Qed.

#[export] Instance heap_laws : AllocatorLaws heap := {
  holds := represents;
  holds_calloc := represents_calloc;
  holds_free := represents_free;
  holds_load := represents_load;
  holds_store := represents_store;
  holds_bytes := represents_bytes;
  holds_range := represents_range;
}.
