(* ===== verification/Module.v ===== *)
(** * The module registry: src/core/module.c

    The table of modules with their states and reference counts, the table of
    exported symbols, and the operations on them.  The loader of ELF images is
    in Elf.v.

    A [const char *] is NULL or the characters of the string it points to.  A
    descriptor, which the source declares constant, is its value.  The init and
    exit functions of modules are machine code at an address: what calling it
    does to the system is a parameter.  Every critical section on [module_lock]
    is one step; the system has one thread that loads modules. *)

From Stdlib Require Import String.
From S2P Require Import Prelude Buffer Heap Allocator.

#[local] Open Scope Z_scope.

Definition MODULE_LIMIT : Z := 32.
Definition EXPORT_LIMIT : Z := 128.
Definition MVH_MODULE_NAME_MAX : Z := 48.
Definition MVH_MODULE_VERSION_MAX : Z := 24.
Definition MVH_MODULE_MAX_DEPENDENCIES : Z := 8.
Definition MVH_MODULE_BUILTIN : Z := 1.
Definition MVH_KERNEL_ABI_VERSION : Z := 2.

(** [sizeof(mvh_module_descriptor_t)] *)
Definition sizeof_descriptor : Z := 56.

Inductive mvh_module_state :=
  | MVH_MODULE_UNLOADED | MVH_MODULE_REGISTERED | MVH_MODULE_LOADING
  | MVH_MODULE_LIVE | MVH_MODULE_FAILED | MVH_MODULE_UNLOADING.

#[export] Instance mvh_module_state_eq : EqDecision mvh_module_state.
Proof. solve_decision. Defined.

Notation cstr := (option (list Z)).

(** [mvh_str_equal], [mvh_str_nlength] and [mvh_str_copy] on such strings. *)
Definition str_equal (left right : cstr) : bool := bool_decide (left = right).
Definition str_nlength (text : cstr) (limit : Z) : Z :=
  match text with None => 0 | Some t => Z.min (Z.of_nat (length t)) limit end.
Definition str_copy (destination : list Z) (source : cstr) : list Z :=
  let t := default [] source in
  splice destination 0 (take (length destination - 1) t ++ [0]).

Record mvh_module_descriptor := Descriptor {
  structure_size : Z;
  kernel_abi : Z;
  name : cstr;
  version : cstr;
  flags : Z;
  dependency_count : Z;
  dependencies : option (list cstr);
  init : Z;
  exit : Z;
}.

Record module_slot := ModuleSlot {
  descriptor : option mvh_module_descriptor;
  state : mvh_module_state;
  references : Z;
  image : Z;
  image_size : Z;
  owned : Z;
}.

Definition zero_slot : module_slot := ModuleSlot None MVH_MODULE_UNLOADED 0 0 0 0.
Definition with_state (s : module_slot) (st : mvh_module_state) : module_slot :=
  ModuleSlot (descriptor s) st (references s) (image s) (image_size s) (owned s).
Definition with_references (s : module_slot) (n : Z) : module_slot :=
  ModuleSlot (descriptor s) (state s) n (image s) (image_size s) (owned s).

Record export_slot := ExportSlot { export_name : cstr; export_address : Z; export_owner : cstr }.
Definition zero_export : export_slot := ExportSlot None 0 None.

Record mvh_module_info := ModuleInfo {
  info_name : list Z;
  info_version : list Z;
  info_state : mvh_module_state;
  info_flags : Z;
  info_references : Z;
  info_dependency_count : Z;
  info_image_size : Z;
}.

(** [descriptor->dependencies[index]] *)
Definition dependency (d : mvh_module_descriptor) (index : Z) : option cstr :=
  l ← dependencies d; rd l index.

Definition descriptor_valid (descriptor : option mvh_module_descriptor) : option bool :=
  match descriptor with
  | None => Some false
  | Some d =>
    if negb (structure_size d =? sizeof_descriptor) || negb (kernel_abi d =? MVH_KERNEL_ABI_VERSION) ||
       bool_decide (name d = None) || bool_decide (version d = None) || bool_decide (name d = Some []) ||
       (MVH_MODULE_NAME_MAX <=? str_nlength (name d) MVH_MODULE_NAME_MAX) ||
       (MVH_MODULE_VERSION_MAX <=? str_nlength (version d) MVH_MODULE_VERSION_MAX) ||
       (MVH_MODULE_MAX_DEPENDENCIES <? dependency_count d) ||
       (negb (dependency_count d =? 0) && bool_decide (dependencies d = None))
    then Some false else
    r ← for_break (Z.to_nat (dependency_count d)) 0 (fun index u =>
          dep ← dependency d index;
          Some (if bool_decide (dep = None) || bool_decide (dep = Some []) || str_equal dep (name d)
                then inr tt else inl u)) tt;
    Some (match r with inl _ => true | inr _ => false end)
  end.

Definition module_state_name (state : Z) : list Z :=
  let names := ["unloaded"; "registered"; "loading"; "live"; "failed"; "unloading"]%string in
  chars (match rd names state with Some text => text | None => "invalid"%string end).

Section registry.
Context {H W : Type} `{Allocator H}.

(** The statics of the file, the heap, and the rest of the system. *)
Record registry := Registry {
  modules : list module_slot;
  registered_modules : Z;
  exports : list export_slot;
  registered_exports : Z;
  self_test_init_count : Z;
  heap_of : H;
  world : W;
}.

Definition with_modules (r : registry) (l : list module_slot) (n : Z) : registry :=
  Registry l n (exports r) (registered_exports r) (self_test_init_count r) (heap_of r) (world r).
Definition with_exports (r : registry) (l : list export_slot) (n : Z) : registry :=
  Registry (modules r) (registered_modules r) l n (self_test_init_count r) (heap_of r) (world r).
Definition with_count (r : registry) (n : Z) : registry :=
  Registry (modules r) (registered_modules r) (exports r) (registered_exports r) n (heap_of r) (world r).
Definition with_heap (r : registry) (h : H) : registry :=
  Registry (modules r) (registered_modules r) (exports r) (registered_exports r) (self_test_init_count r) h (world r).

(** [slot->... = ...] *)
Definition set_slot (r : registry) (pos : Z) (s : module_slot) : option registry :=
  l ← wr (modules r) pos s; Some (with_modules r l (registered_modules r)).

Definition find_slot (r : registry) (text : cstr) : option (option Z) :=
  res ← for_break (Z.to_nat (registered_modules r)) 0 (fun index u =>
          slot ← rd (modules r) index;
          d ← descriptor slot;
          Some (if str_equal (name d) text then inr index else inl u)) tt;
  Some (match res with inl _ => None | inr index => Some index end).

Definition module_init (r : registry) : registry :=
  with_exports (with_modules r (replicate (Z.to_nat MODULE_LIMIT) zero_slot) 0)
    (replicate (Z.to_nat EXPORT_LIMIT) zero_export) 0.

Definition register_descriptor (r : registry) (descriptor : option mvh_module_descriptor)
    (image image_size owned live : Z) : option (registry * Z) :=
  valid ← descriptor_valid descriptor;
  if negb valid then Some (r, -1) else
  d ← descriptor;
  found ← find_slot r (name d);
  if bool_decide (found <> None) || (registered_modules r =? MODULE_LIMIT) then Some (r, -1) else
  l ← wr (modules r) (registered_modules r)
        (ModuleSlot descriptor (if negb (live =? 0) then MVH_MODULE_LIVE else MVH_MODULE_REGISTERED) 0 image image_size owned);
  Some (with_modules r l (registered_modules r + 1), 0).

Definition module_register (r : registry) (descriptor : option mvh_module_descriptor) : option (registry * Z) :=
  register_descriptor r descriptor 0 0 0 0.

Definition module_register_builtin (r : registry) (descriptor : option mvh_module_descriptor) : option (registry * Z) :=
  match descriptor with
  | None => Some (r, -1)
  | Some d =>
    if flags d &&& MVH_MODULE_BUILTIN =? 0 then Some (r, -1) else register_descriptor r descriptor 0 0 0 1
  end.

Definition module_acquire (r : registry) (text : cstr) : option (registry * Z) :=
  found ← find_slot r text;
  match found with
  | None => Some (r, -1)
  | Some pos =>
    slot ← rd (modules r) pos;
    if bool_decide (state slot <> MVH_MODULE_LIVE) || (references slot =? U32_MAX) then Some (r, -1) else
    r ← set_slot r pos (with_references slot (references slot + 1));
    Some (r, 0)
  end.

Definition module_release (r : registry) (text : cstr) : option registry :=
  found ← find_slot r text;
  match found with
  | None => Some r
  | Some pos =>
    slot ← rd (modules r) pos;
    if negb (references slot =? 0) then set_slot r pos (with_references slot (references slot - 1)) else Some r
  end.

Definition module_count (r : registry) : Z := registered_modules r.

Definition module_snapshot (r : registry) (output : option (list mvh_module_info)) (capacity : Z)
  : option (option (list mvh_module_info) * Z) :=
  if bool_decide (output = None) && negb (capacity =? 0) then Some (output, 0) else
  let count := if registered_modules r <? capacity then registered_modules r else capacity in
  output ← for_loop (Z.to_nat count) 0 (fun index output =>
    out ← output;
    info ← rd out index;
    slot ← rd (modules r) index;
    d ← descriptor slot;
    out ← wr out index (ModuleInfo (str_copy (info_name info) (name d)) (str_copy (info_version info) (version d))
      (state slot) (flags d) (references slot) (dependency_count d) (image_size slot));
    Some (Some out)) output;
  Some (output, count).

Definition module_export_symbol (r : registry) (text : cstr) (address : Z) (owner : cstr) : option (registry * Z) :=
  if bool_decide (text = None) || bool_decide (text = Some []) || (address =? 0) then Some (r, -1) else
  res ← for_break (Z.to_nat (registered_exports r)) 0 (fun index u =>
          e ← rd (exports r) index;
          Some (if str_equal (export_name e) text then inr tt else inl u)) tt;
  match res with
  | inr _ => Some (r, -1)
  | inl _ =>
    if registered_exports r =? EXPORT_LIMIT then Some (r, -1) else
    l ← wr (exports r) (registered_exports r) (ExportSlot text address owner);
    Some (with_exports r l (registered_exports r + 1), 0)
  end.

Definition module_resolve_symbol (r : registry) (text : cstr) : option Z :=
  res ← for_break (Z.to_nat (registered_exports r)) 0 (fun index u =>
          e ← rd (exports r) index;
          Some (if str_equal (export_name e) text then inr (export_address e) else inl u)) tt;
  Some (match res with inl _ => 0 | inr address => address end).

(** What calling the code of an init or exit function does. *)
Context (call_init : Z -> registry -> registry * Z) (call_exit : Z -> registry -> registry).

(** Loading and acquiring the dependencies: the index reached and the result. *)
Definition load_dependencies (load : registry -> cstr -> option (registry * Z)) (d : mvh_module_descriptor) (r : registry)
  : option (registry * Z * Z) :=
  res ← for_break (Z.to_nat (dependency_count d)) 0 (fun index r =>
          dep ← dependency d index;
          '(r, code) ← load r dep;
          if negb (code =? 0) then Some (inr (r, index)) else
          '(r, code) ← module_acquire r dep;
          Some (if negb (code =? 0) then inr (r, index) else inl r)) r;
  Some (match res with
        | inl r => (r, dependency_count d, 0)
        | inr (r, index) => (r, index, -1)
        end).

(** [while (index != 0) module_release(descriptor->dependencies[--index])] *)
Definition release_down (d : mvh_module_descriptor) (index : Z) (r : registry) : option registry :=
  for_loop (Z.to_nat index) 0 (fun k r => dep ← dependency d (index - 1 - k); module_release r dep) r.

(** The part of [module_load] for a module that is neither live nor on its
    way; [load] is the recursive call. *)
Definition load_slot (load : registry -> cstr -> option (registry * Z)) (r : registry) (pos : Z) (slot : module_slot)
  : option (registry * Z) :=
  r ← set_slot r pos (with_state slot MVH_MODULE_LOADING);
  d ← descriptor slot;
  '(r, index, result) ← load_dependencies load d r;
  let '(r, result) := if (result =? 0) && negb (init d =? 0) then call_init (init d) r else (r, result) in
  r ← (if negb (result =? 0) then release_down d index r else Some r);
  slot ← rd (modules r) pos;
  r ← set_slot r pos (with_state slot (if result =? 0 then MVH_MODULE_LIVE else MVH_MODULE_FAILED));
  Some (r, result).

Fixpoint module_load (fuel : nat) (r : registry) (text : cstr) : option (registry * Z) :=
  match fuel with
  | O => None
  | S fuel =>
    found ← find_slot r text;
    match found with
    | None => Some (r, -1)
    | Some pos =>
      slot ← rd (modules r) pos;
      match state slot with
      | MVH_MODULE_LOADING | MVH_MODULE_UNLOADING => Some (r, -1)
      | MVH_MODULE_LIVE => Some (r, 0)
      | _ => load_slot (module_load fuel) r pos slot
      end
    end
  end.

(** A nested call has one more module in the loading state, so the depth is at
    most the size of the table. *)
Definition LOAD_DEPTH : nat := Z.to_nat MODULE_LIMIT + 1.

(** Removing a slot: the slots after it move down, the last is cleared. *)
Definition remove_slot (r : registry) (position : Z) : option registry :=
  l ← for_loop (Z.to_nat (registered_modules r - (position + 1))) (position + 1) (fun index l =>
        slot ← rd l index; wr l (index - 1) slot) (modules r);
  let n := u32 (registered_modules r - 1) in
  l ← wr l n zero_slot;
  Some (with_modules r l n).

Definition release_up (d : mvh_module_descriptor) (r : registry) : option registry :=
  for_loop (Z.to_nat (dependency_count d)) 0 (fun index r => dep ← dependency d index; module_release r dep) r.

Definition module_unload (r : registry) (text : cstr) : option (or_panic (registry * Z)) :=
  found ← find_slot r text;
  match found with
  | None => Some (inl (r, -1))
  | Some position =>
    slot ← rd (modules r) position;
    d ← descriptor slot;
    if bool_decide (state slot <> MVH_MODULE_LIVE) || negb (references slot =? 0) ||
       negb (flags d &&& MVH_MODULE_BUILTIN =? 0)
    then Some (inl (r, -1)) else
    r ← set_slot r position (with_state slot MVH_MODULE_UNLOADING);
    let r := if negb (exit d =? 0) then call_exit (exit d) r else r in
    r ← release_up d r;
    r ← remove_slot r position;
    if negb (owned slot =? 0) then
      res ← a_kfree (heap_of r) (image slot);
      Some (match res with inl h => inl (with_heap r h, 0) | inr p => inr p end)
    else Some (inl (r, 0))
  end.

End registry.

Arguments registry : clear implicits.
