(* ===== verification/Elf.v ===== *)
(** * The loader of ELF modules: src/core/module.c

    [module_elf_load] places the sections of a relocatable object in a new
    allocation of the heap, applies its relocations, finds and checks the module
    descriptor there, and registers and loads the module.

    The image is an array of bytes of its own; a read outside it is a fault.
    The allocation is in the heap: its bytes are read and written through the
    interface of Allocator.v, and an address that is not in the heap is a fault.
    The unaligned accesses to both are those of the x86-64. *)

From Stdlib Require Import String.
From S2P Require Import Prelude Arith Buffer Heap Allocator Module.

#[local] Open Scope Z_scope.

Definition ELF_SECTION_LIMIT : Z := 128.
Definition ELF_MAGIC : Z := 0x464C457F.
Definition ELFCLASS64 : Z := 2.
Definition ELFDATA2LSB : Z := 1.
Definition ET_REL : Z := 1.
Definition EM_X86_64 : Z := 62.
Definition SHT_SYMTAB : Z := 2.
Definition SHT_RELA : Z := 4.
Definition SHT_NOBITS : Z := 8.
Definition SHF_ALLOC : Z := 2.
Definition SHN_UNDEF : Z := 0.
Definition SHN_ABS : Z := 0xFFF1.
Definition R_X86_64_NONE : Z := 0.
Definition R_X86_64_64 : Z := 1.
Definition R_X86_64_PC32 : Z := 2.
Definition R_X86_64_PLT32 : Z := 4.
Definition R_X86_64_32 : Z := 10.
Definition R_X86_64_32S : Z := 11.
Definition INT32_MIN : Z := - 2 ^ 31.
Definition INT32_MAX : Z := 2 ^ 31 - 1.

Definition sizeof_header : Z := 64.
Definition sizeof_section : Z := 64.
Definition sizeof_symbol : Z := 24.
Definition sizeof_rela : Z := 24.

Record elf64_header := ElfHeader {
  e_magic : Z; e_class : Z; e_data : Z; e_type : Z; e_machine : Z; e_section_offset : Z;
  e_header_size : Z; e_section_entry_size : Z; e_section_count : Z;
}.

Record elf64_section := ElfSection {
  s_type : Z; s_flags : Z; s_offset : Z; s_size : Z; s_link : Z; s_info : Z; s_alignment : Z; s_entry_size : Z;
}.

Record elf64_symbol := ElfSymbol { y_name : Z; y_section : Z; y_value : Z }.
Record elf64_rela := ElfRela { r_offset : Z; r_info : Z; r_addend : Z }.

(** The structures at an offset of the image. *)
Definition header_at (bytes : list Z) : option elf64_header :=
  magic ← get32 bytes 0; class_type ← rd bytes 4; data ← rd bytes 5; type ← get16 bytes 16; machine ← get16 bytes 18;
  section_offset ← get64 bytes 40; header_size ← get16 bytes 52; section_entry_size ← get16 bytes 58;
  section_count ← get16 bytes 60;
  Some (ElfHeader magic class_type data type machine section_offset header_size section_entry_size section_count).

Definition section_at (bytes : list Z) (o : Z) : option elf64_section :=
  type ← get32 bytes (o + 4); flags ← get64 bytes (o + 8); offset ← get64 bytes (o + 24); size ← get64 bytes (o + 32);
  link ← get32 bytes (o + 40); info ← get32 bytes (o + 44); alignment ← get64 bytes (o + 48); entry_size ← get64 bytes (o + 56);
  Some (ElfSection type flags offset size link info alignment entry_size).

Definition symbol_at (bytes : list Z) (o : Z) : option elf64_symbol :=
  name ← get32 bytes o; section ← get16 bytes (o + 6); value ← get64 bytes (o + 8); Some (ElfSymbol name section value).

Definition rela_at (bytes : list Z) (o : Z) : option elf64_rela :=
  offset ← get64 bytes o; info ← get64 bytes (o + 8); addend ← get64 bytes (o + 16); Some (ElfRela offset info (i64 addend)).

Definition range_valid (offset length total : Z) : bool := (offset <=? total) && (length <=? total - offset).

Definition allocation_range_valid (pointer length allocation allocation_size : Z) : bool :=
  (allocation <=? pointer) && (length <=? allocation_size) && (pointer - allocation <=? allocation_size - length).

(** The checks of the header. *)
Definition header_valid (h : elf64_header) (size : Z) : bool :=
  negb (negb (e_magic h =? ELF_MAGIC) || negb (e_class h =? ELFCLASS64) || negb (e_data h =? ELFDATA2LSB) ||
        negb (e_type h =? ET_REL) || negb (e_machine h =? EM_X86_64) || negb (e_header_size h =? sizeof_header) ||
        negb (e_section_entry_size h =? sizeof_section) || (e_section_count h =? 0) || (ELF_SECTION_LIMIT <? e_section_count h) ||
        negb (range_valid (e_section_offset h) (e_section_count h * sizeof_section) size)).

(** [section[index]] *)
Definition section (bytes : list Z) (h : elf64_header) (index : Z) : option elf64_section :=
  section_at bytes (e_section_offset h + index * sizeof_section).

(** ** Layout: the first loop over the sections *)

Record layout := Layout { offsets : list Z; allocation_size : Z; symbol_section : option Z }.

(** The place of a section that gets memory; [None] is a failure. *)
Definition layout_section (l : layout) (index alignment size : Z) : option (option layout) :=
  let total := mvh_align_up_u64 (allocation_size l) alignment in
  o ← rd (offsets l) index;
  if (total =? 0) && negb (o =? 0) then Some None else
  offsets' ← wr (offsets l) index total;
  match mvh_checked_add_u64 total size true with
  | (0, Some total) => Some (Some (Layout offsets' total (symbol_section l)))
  | _ => Some None
  end.

Definition layout_step (bytes : list Z) (h : elf64_header) (size index : Z) (l : layout) : option (layout + unit) :=
  s ← section bytes h index;
  let alignment := if s_alignment s =? 0 then 1 else s_alignment s in
  if negb (alignment &&& u64 (alignment - 1) =? 0) || (4096 <? alignment) then Some (inr tt) else
  if negb (s_type s =? SHT_NOBITS) && negb (range_valid (s_offset s) (s_size s) size) then Some (inr tt) else
  r ← (if negb (s_flags s &&& SHF_ALLOC =? 0) then layout_section l index alignment (s_size s) else Some (Some l));
  match r with
  | None => Some (inr tt)
  | Some l =>
    if s_type s =? SHT_SYMTAB then
      if bool_decide (symbol_section l <> None) then Some (inr tt)
      else Some (inl (Layout (offsets l) (allocation_size l) (Some index)))
    else Some (inl l)
  end.

Definition elf_layout (bytes : list Z) (h : elf64_header) (size : Z) : option (layout + unit) :=
  for_break (Z.to_nat (e_section_count h)) 0 (layout_step bytes h size)
    (Layout (replicate (Z.to_nat ELF_SECTION_LIMIT) 0) 0 None).

(** ** Strings of the image *)

(** [mvh_str_nlength(bytes + o, limit)] *)
Definition image_nlength (bytes : list Z) (o limit : Z) : option Z :=
  r ← for_break (Z.to_nat limit) 0 (fun k u => c ← rd bytes (o + k); Some (if c =? 0 then inr k else inl u)) tt;
  Some (match r with inl _ => limit | inr k => k end).

(** [mvh_str_equal(bytes + o, literal)]: the scan stops at the first character
    that differs. *)
Fixpoint image_equal (bytes : list Z) (o : Z) (literal : list Z) : option bool :=
  c ← rd bytes o;
  match literal with
  | [] => Some (c =? 0)
  | x :: literal => if c =? x then image_equal bytes (o + 1) literal else Some false
  end.

(** The symbol and string tables that relocation works with. *)
Record tables := Tables { t_symbols : Z; t_symbol_count : Z; t_strings : Z; t_strings_size : Z }.

Section loader.
Context {H W : Type} `{Allocator H}.
Notation reg := (registry H W).

(** Little-endian accesses to the heap, and [mvh_str_nlength] there. *)
Fixpoint store_bytes (h : H) (p : Z) (l : list Z) : option H :=
  match l with
  | [] => Some h
  | v :: l => h ← a_store8 h p v; store_bytes h (p + 1) l
  end.

Fixpoint load_bytes (h : H) (p : Z) (n : nat) : option (list Z) :=
  match n with
  | O => Some []
  | S n => v ← a_load8 h p; l ← load_bytes h (p + 1) n; Some (v :: l)
  end.

Definition load_le (h : H) (p : Z) (n : nat) : option Z := l ← load_bytes h p n; Some (le_value l).

Definition heap_nlength (h : H) (p limit : Z) : option Z :=
  if p =? 0 then Some 0 else
  r ← for_break (Z.to_nat limit) 0 (fun k u => c ← a_load8 h (p + k); Some (if c =? 0 then inr k else inl u)) tt;
  Some (match r with inl _ => limit | inr k => k end).

(** ** Placing the sections *)

(** [mvh_mem_copy(target, bytes + offset, size)] *)
Definition copy_section (h : H) (bytes : list Z) (target offset size : Z) : option H :=
  if (target =? 0) && negb (size =? 0) then Some h else
  for_loop (Z.to_nat size) 0 (fun index h => x ← rd bytes (offset + index); a_store8 h (target + index) x) h.

Definition place_step (bytes : list Z) (header : elf64_header) (l : layout) (allocation index : Z) (st : H * list Z) : option (H * list Z) :=
  let '(h, addresses) := st in
  s ← section bytes header index;
  if s_flags s &&& SHF_ALLOC =? 0 then Some (h, addresses) else
  o ← rd (offsets l) index;
  addresses ← wr addresses index (u64 (allocation + o));
  a ← rd addresses index;
  h ← (if negb (s_type s =? SHT_NOBITS) then copy_section h bytes a (s_offset s) (s_size s) else Some h);
  Some (h, addresses).

Definition elf_place (h : H) (bytes : list Z) (header : elf64_header) (l : layout) (allocation : Z) : option (H * list Z) :=
  for_loop (Z.to_nat (e_section_count header)) 0 (place_step bytes header l allocation)
    (h, replicate (Z.to_nat ELF_SECTION_LIMIT) 0).

(** ** Relocation *)

Definition resolve_elf_symbol (r : reg) (bytes : list Z) (symbol : elf64_symbol) (strings strings_size : Z)
    (sections : list Z) (section_count : Z) : option Z :=
  if y_section symbol =? SHN_ABS then Some (y_value symbol) else
  if y_section symbol =? SHN_UNDEF then
    if strings_size <=? y_name symbol then Some 0 else
    n ← image_nlength bytes (strings + y_name symbol) (strings_size - y_name symbol);
    if n =? strings_size - y_name symbol then Some 0 else
    module_resolve_symbol r (Some (slice bytes (strings + y_name symbol) n))
  else if section_count <=? y_section symbol then Some 0 else
  a ← rd sections (y_section symbol);
  Some (if a =? 0 then 0 else u64 (a + y_value symbol)).

(** The value and the width that a relocation stores; [inr] is a failure. *)
Definition relocation_value (type value place : Z) : (option (nat * Z)) + unit :=
  if type =? R_X86_64_NONE then inl None else
  if type =? R_X86_64_64 then inl (Some (8%nat, u64 value)) else
  if (type =? R_X86_64_PC32) || (type =? R_X86_64_PLT32) then
    let relative := i64 (value - i64 place) in
    if (relative <? INT32_MIN) || (INT32_MAX <? relative) then inr tt else inl (Some (4%nat, u32 relative))
  else if type =? R_X86_64_32 then
    if (value <? 0) || (U32_MAX <? u64 value) then inr tt else inl (Some (4%nat, u32 value))
  else if type =? R_X86_64_32S then
    if (value <? INT32_MIN) || (INT32_MAX <? value) then inr tt else inl (Some (4%nat, u32 value))
  else inr tt.

(** One relocation of a section of [target_size] bytes at [base]: nothing to
    do, bytes to store at an address, or a failure ([inr]). *)
Definition rela_effect (r : reg) (bytes : list Z) (header : elf64_header) (t : tables) (addresses : list Z)
    (relocations base target_size item : Z) : option (option (Z * list Z) + unit) :=
  rel ← rela_at bytes (relocations + item * sizeof_rela);
  let symbol_index := u32 (r_info rel >> 32) in
  let type := u32 (r_info rel) in
  let relocation_width := if type =? R_X86_64_64 then 8 else 4 in
  if (t_symbol_count t <=? symbol_index) || (target_size <? r_offset rel) || (target_size - r_offset rel <? relocation_width)
  then Some (inr tt) else
  symbol ← symbol_at bytes (t_symbols t + symbol_index * sizeof_symbol);
  symbol_value ← resolve_elf_symbol r bytes symbol (t_strings t) (t_strings_size t) addresses (e_section_count header);
  if (symbol_value =? 0) && (y_section symbol =? SHN_UNDEF) then Some (inr tt) else
  let place := u64 (base + r_offset rel) in
  let value := i64 (i64 symbol_value + r_addend rel) in
  Some (match relocation_value type value place with
        | inl None => inl None
        | inl (Some (n, v)) => inl (Some (place, le_bytes n v))
        | inr tt => inr tt
        end).

Definition rela_step (r : reg) (bytes : list Z) (header : elf64_header) (t : tables) (addresses : list Z)
    (relocations base target_size : Z) (item : Z) (h : H) : option (H + H) :=
  effect ← rela_effect r bytes header t addresses relocations base target_size item;
  match effect with
  | inl None => Some (inl h)
  | inl (Some (place, l)) => h ← store_bytes h place l; Some (inl h)
  | inr _ => Some (inr h)
  end.

Definition relocate_section (r : reg) (bytes : list Z) (header : elf64_header) (t : tables) (addresses : list Z) (index : Z) (h : H)
  : option (H + H) :=
  s ← section bytes header index;
  if negb (s_type s =? SHT_RELA) then Some (inl h) else
  if e_section_count header <=? s_info s then Some (inr h) else
  base ← rd addresses (s_info s);
  if (base =? 0) || negb (s_entry_size s =? sizeof_rela) || negb (s_size s mod sizeof_rela =? 0) then Some (inr h) else
  target ← section bytes header (s_info s);
  for_break (Z.to_nat (s_size s / sizeof_rela)) 0 (rela_step r bytes header t addresses (s_offset s) base (s_size target)) h.

Definition elf_relocate (r : reg) (bytes : list Z) (header : elf64_header) (t : tables) (addresses : list Z) (h : H) : option (H + H) :=
  for_break (Z.to_nat (e_section_count header)) 0 (relocate_section r bytes header t addresses) h.

(** ** The descriptor *)

(** The symbol [mvh_module_descriptor]: its address, 0 where there is none;
    [inr] is a symbol whose name is outside the string table. *)
Definition find_descriptor (r : reg) (bytes : list Z) (header : elf64_header) (t : tables) (addresses : list Z) : option (Z + unit) :=
  res ← for_break (Z.to_nat (t_symbol_count t)) 0 (fun index u =>
          symbol ← symbol_at bytes (t_symbols t + index * sizeof_symbol);
          if t_strings_size t <=? y_name symbol then Some (inr None) else
          same ← image_equal bytes (t_strings t + y_name symbol) (chars "mvh_module_descriptor"%string);
          if negb same then Some (inl u) else
          value ← resolve_elf_symbol r bytes symbol (t_strings t) (t_strings_size t) addresses (e_section_count header);
          Some (inr (Some value))) tt;
  Some (match res with inl _ => inl 0 | inr (Some value) => inl value | inr None => inr tt end).

(** A pointer to a string that ends inside the allocation. *)
Definition string_valid (h : H) (p allocation size : Z) : option bool :=
  if negb (allocation_range_valid p 1 allocation size) then Some false else
  let remaining := size - (p - allocation) in
  n ← heap_nlength h p remaining; Some (negb (remaining <=? n)).

Definition dependencies_valid (h : H) (count array allocation size : Z) : option bool :=
  r ← for_break (Z.to_nat count) 0 (fun index u =>
        p ← load_le h (array + index * 8) 8;
        ok ← string_valid h p allocation size;
        Some (if negb ok then inr tt else inl u)) tt;
  Some (match r with inl _ => true | inr _ => false end).

(** The checks of the descriptor at [p], up to its registration. *)
Definition elf_descriptor_valid (h : H) (p allocation size : Z) : option bool :=
  if (p =? 0) || negb (allocation_range_valid p sizeof_descriptor allocation size) then Some false else
  name ← load_le h (p + 8) 8;
  if negb (allocation_range_valid name 1 allocation size) then Some false else
  version ← load_le h (p + 16) 8;
  if negb (allocation_range_valid version 1 allocation size) then Some false else
  ok ← string_valid h name allocation size;
  if negb ok then Some false else
  ok ← string_valid h version allocation size;
  if negb ok then Some false else
  count ← load_le h (p + 28) 4;
  array ← load_le h (p + 32) 8;
  if negb (count =? 0) && negb (allocation_range_valid array (count * 8) allocation size) then Some false else
  ok ← dependencies_valid h count array allocation size;
  if negb ok then Some false else
  init ← load_le h (p + 40) 8;
  if negb (init =? 0) && negb (allocation_range_valid init 1 allocation size) then Some false else
  exit ← load_le h (p + 48) 8;
  Some (negb (negb (exit =? 0) && negb (allocation_range_valid exit 1 allocation size))).

(** The value of the descriptor at [p], with the strings it points to. *)
Definition string_at (h : H) (p allocation size : Z) : option cstr :=
  if p =? 0 then Some None else
  n ← heap_nlength h p (size - (p - allocation)); l ← load_bytes h p (Z.to_nat n); Some (Some l).

Fixpoint strings_at (h : H) (array : Z) (n : nat) (allocation size : Z) : option (list cstr) :=
  match n with
  | O => Some []
  | S n => p ← load_le h array 8; s ← string_at h p allocation size; l ← strings_at h (array + 8) n allocation size; Some (s :: l)
  end.

Definition descriptor_at (h : H) (p allocation size : Z) : option mvh_module_descriptor :=
  structure_size ← load_le h p 4; kernel_abi ← load_le h (p + 4) 4;
  name ← load_le h (p + 8) 8; name ← string_at h name allocation size;
  version ← load_le h (p + 16) 8; version ← string_at h version allocation size;
  flags ← load_le h (p + 24) 4; count ← load_le h (p + 28) 4;
  array ← load_le h (p + 32) 8; dependencies ← strings_at h array (Z.to_nat count) allocation size;
  init ← load_le h (p + 40) 8; exit ← load_le h (p + 48) 8;
  Some (Descriptor structure_size kernel_abi name version flags count (if array =? 0 then None else Some dependencies) init exit).

(** ** The whole loader *)

Context (call_init : Z -> reg -> reg * Z).

(** [fail: kfree(allocation); return -1;] *)
Definition elf_fail (r : reg) (allocation : Z) : option (or_panic (reg * Z * cstr)) :=
  res ← a_kfree (heap_of r) allocation;
  Some (match res with inl h => inl (with_heap r h, -1, None) | inr p => inr p end).

(** Registration and loading of the descriptor in the allocation. *)
Definition elf_register (r : reg) (p allocation size : Z) : option (or_panic (reg * Z * cstr)) :=
  d ← descriptor_at (heap_of r) p allocation size;
  '(r, code) ← register_descriptor r (Some d) allocation size 1 0;
  if negb (code =? 0) then elf_fail r allocation else
  '(r, code) ← module_load call_init LOAD_DEPTH r (name d);
  if negb (code =? 0) then
    failed ← find_slot r (name d);
    r ← (match failed with None => Some r | Some position => remove_slot r position end);
    elf_fail r allocation
  else Some (inl (r, 0, name d)).

(** From the allocation on; [t] has the symbol and string tables. *)
Definition elf_link (r : reg) (bytes : list Z) (header : elf64_header) (l : layout) (t : tables) (allocation : Z)
  : option (or_panic (reg * Z * cstr)) :=
  '(h, addresses) ← elf_place (heap_of r) bytes header l allocation;
  res ← elf_relocate r bytes header t addresses h;
  match res with
  | inr h => elf_fail (with_heap r h) allocation
  | inl h =>
    let r := with_heap r h in
    found ← find_descriptor r bytes header t addresses;
    match found with
    | inr _ => elf_fail r allocation
    | inl p =>
      ok ← elf_descriptor_valid h p allocation (allocation_size l);
      if negb ok then elf_fail r allocation else elf_register r p allocation (allocation_size l)
    end
  end.

(** The tables named by the symbol section; [None] is a failure. *)
Definition elf_tables (bytes : list Z) (header : elf64_header) (l : layout) (size : Z) : option (option tables) :=
  if allocation_size l =? 0 then Some None else
  match symbol_section l with
  | None => Some None
  | Some index =>
    y ← section bytes header index;
    if negb (s_entry_size y =? sizeof_symbol) || (e_section_count header <=? s_link y) || negb (s_size y mod sizeof_symbol =? 0)
    then Some None else
    str ← section bytes header (s_link y);
    if negb (range_valid (s_offset str) (s_size str) size) then Some None else
    Some (Some (Tables (s_offset y) (s_size y / sizeof_symbol) (s_offset str) (s_size str)))
  end.

(** The status and [*loaded_name]. *)
Definition module_elf_load (r : reg) (image : option (list Z)) (size : Z) : option (or_panic (reg * Z * cstr)) :=
  match image with
  | None => Some (inl (r, -1, None))
  | Some bytes =>
    if size <? sizeof_header then Some (inl (r, -1, None)) else
    header ← header_at bytes;
    if negb (header_valid header size) then Some (inl (r, -1, None)) else
    res ← elf_layout bytes header size;
    match res with
    | inr _ => Some (inl (r, -1, None))
    | inl l =>
      res ← elf_tables bytes header l size;
      match res with
      | None => Some (inl (r, -1, None))
      | Some t =>
        '(h, allocation) ← a_kcalloc (heap_of r) 1 (allocation_size l);
        if allocation =? 0 then Some (inl (with_heap r h, -1, None))
        else elf_link (with_heap r h) bytes header l t allocation
      end
    end
  end.

(** ** Self test *)

Context (call_exit : Z -> reg -> reg).

Definition self_test_init (r : reg) : reg * Z := (with_count r (i32 (self_test_init_count r + 1)), 0).
Definition self_test_exit (r : reg) : reg := with_count r (i32 (self_test_init_count r - 1)).

(** The static descriptor, with the addresses of the two functions. *)
Definition self_test_descriptor (init_address exit_address : Z) : mvh_module_descriptor :=
  Descriptor sizeof_descriptor MVH_KERNEL_ABI_VERSION (Some (chars "module-selftest"%string)) (Some (chars "1"%string)) 0 0 None
    init_address exit_address.

(** Unloading as the self test uses it: a panic ends it. *)
Definition self_test_unload (r : reg) (text : cstr) (k : reg -> Z -> option (or_panic (reg * Z))) : option (or_panic (reg * Z)) :=
  res ← module_unload call_exit r text;
  match res with inl (r, code) => k r code | inr p => Some (inr p) end.

Definition module_self_test (init_address exit_address : Z) (r : reg) : option (or_panic (reg * Z)) :=
  let test := self_test_descriptor init_address exit_address in
  let before := module_count r in
  let r := with_count r 0 in
  '(r, code) ← module_register r (Some test);
  if negb (code =? 0) then Some (inl (r, -1)) else
  '(r, code) ← module_load call_init LOAD_DEPTH r (name test);
  if negb (code =? 0) then Some (inl (r, -1)) else
  if negb (self_test_init_count r =? 1) then Some (inl (r, -1)) else
  '(r, code) ← module_acquire r (name test);
  if negb (code =? 0) then Some (inl (r, -1)) else
  self_test_unload r (name test) (fun r code =>
  if code =? 0 then Some (inl (r, -1)) else
  r ← module_release r (name test);
  self_test_unload r (name test) (fun r code =>
  if negb (code =? 0) || negb (self_test_init_count r =? 0) || negb (module_count r =? before) then Some (inl (r, -1)) else
  res ← module_elf_load r (Some (replicate 64 0)) 64;
  Some (match res with inl (r, code, _) => inl (r, if code =? 0 then -1 else 0) | inr p => inr p end))).

End loader.
