(* ===== verification/ElfLayout.v ===== *)
(** * The layout of an ELF image

    Reading the structures of an image never leaves it; the layout loop gives
    every section a place of its own, aligned as it asks, in the allocation. *)

From S2P Require Import Prelude Arith Buffer Heap Allocator Module Elf.

#[local] Open Scope Z_scope.

(** ** Reading *)

Lemma get16_ok b o : all_bytes b -> room b o 2 -> exists v, get16 b o = Some v /\ fits 16 v.
Proof.
  intros Hb Hr. exists (le_value (slice b o 2)). split; [by apply get16_spec|].
  pose proof (le_value_fits (slice b o 2) (all_bytes_slice b o 2 Hb)) as Hf. rewrite length_slice in Hf by done. exact Hf.
Qed.
Lemma get32_ok b o : all_bytes b -> room b o 4 -> exists v, get32 b o = Some v /\ fits 32 v.
Proof.
  intros Hb Hr. exists (le_value (slice b o 4)). split; [by apply get32_spec|].
  pose proof (le_value_fits (slice b o 4) (all_bytes_slice b o 4 Hb)) as Hf. rewrite length_slice in Hf by done. exact Hf.
Qed.
Lemma get64_ok b o : all_bytes b -> room b o 8 -> exists v, get64 b o = Some v /\ fits 64 v.
Proof.
  intros Hb Hr. exists (le_value (slice b o 8)). split; [by apply get64_spec|].
  pose proof (le_value_fits (slice b o 8) (all_bytes_slice b o 8 Hb)) as Hf. rewrite length_slice in Hf by done. exact Hf.
Qed.

(** Read one field after the other. *)
Ltac read_field :=
  match goal with
  | |- context [get16 ?b ?o] => let v := fresh "v" in let E := fresh "E" in let F := fresh "F" in
      destruct (get16_ok b o) as (v & E & F); [done|unfold room in *; lia|rewrite E, bind_some; clear E]
  | |- context [get32 ?b ?o] => let v := fresh "v" in let E := fresh "E" in let F := fresh "F" in
      destruct (get32_ok b o) as (v & E & F); [done|unfold room in *; lia|rewrite E, bind_some; clear E]
  | |- context [get64 ?b ?o] => let v := fresh "v" in let E := fresh "E" in let F := fresh "F" in
      destruct (get64_ok b o) as (v & E & F); [done|unfold room in *; lia|rewrite E, bind_some; clear E]
  | |- context [rd ?b ?o] => let v := fresh "v" in let E := fresh "E" in
      destruct (rd_ok b o) as (v & E); [unfold room in *; lia|rewrite E, bind_some; clear E]
  end.

Record section_fits (s : elf64_section) : Prop := {
  f_type : fits 32 (s_type s); f_offset : fits 64 (s_offset s); f_size : fits 64 (s_size s); f_link : fits 32 (s_link s);
  f_info : fits 32 (s_info s); f_alignment : fits 64 (s_alignment s);
}.

Lemma header_at_ok b : all_bytes b -> room b 0 sizeof_header ->
  exists h, header_at b = Some h /\ fits 64 (e_section_offset h) /\ fits 16 (e_section_count h).
Proof.
  intros Hb Hr. unfold header_at, sizeof_header in *. repeat read_field. eexists. split; [done|]. done.
Qed.

Lemma section_at_ok b o : all_bytes b -> room b o sizeof_section -> exists s, section_at b o = Some s /\ section_fits s.
Proof.
  intros Hb Hr. unfold section_at, sizeof_section in *. repeat read_field. eexists. split; [done|]. by constructor.
Qed.

Lemma symbol_at_ok b o : all_bytes b -> room b o sizeof_symbol ->
  exists y, symbol_at b o = Some y /\ fits 32 (y_name y) /\ fits 16 (y_section y) /\ fits 64 (y_value y).
Proof.
  intros Hb Hr. unfold symbol_at, sizeof_symbol in *. repeat read_field. eexists. split; [done|]. done.
Qed.

Lemma rela_at_ok b o : all_bytes b -> room b o sizeof_rela -> exists rel, rela_at b o = Some rel /\ fits 64 (r_offset rel) /\ fits 64 (r_info rel).
Proof.
  intros Hb Hr. unfold rela_at, sizeof_rela in *. repeat read_field. eexists. split; [done|]. done.
Qed.

Lemma range_valid_spec offset length total : range_valid offset length total = true <-> offset <= total /\ length <= total - offset.
Proof. unfold range_valid. rewrite andb_true_iff, !Z.leb_le. done. Qed.

(** ** Images the loader is meant for *)

Section image.
Context (bytes : list Z) (Hbytes : all_bytes bytes) (header : elf64_header).
Notation size := (Z.of_nat (length bytes)).

Record header_ok : Prop := {
  h_count : 0 < e_section_count header <= ELF_SECTION_LIMIT;
  h_offset : 0 <= e_section_offset header;
  h_range : e_section_offset header + e_section_count header * sizeof_section <= size;
}.

Lemma header_valid_ok : fits 64 (e_section_offset header) -> fits 16 (e_section_count header) -> header_valid header size = true -> header_ok.
Proof.
  intros Ho Hc Hv. unfold header_valid in Hv. apply negb_true_iff in Hv.
  repeat match goal with H : _ || _ = false |- _ => apply orb_false_iff in H as [H ?] end. bool_to_prop.
  match goal with H : range_valid _ _ _ = true |- _ => apply range_valid_spec in H end. unfold fits in *. constructor; lia.
Qed.

Context (Hh : header_ok).

Lemma section_ok index : 0 <= index < e_section_count header -> exists s, section bytes header index = Some s /\ section_fits s.
Proof using Hbytes Hh.
  intros Hi. apply section_at_ok; [done|]. destruct Hh as [Hc Ho Hr]. unfold room, sizeof_section in *. lia.
Qed.

(** Sections that get memory. *)
Definition allocated (s : elf64_section) : Prop := s_flags s &&& SHF_ALLOC <> 0.
#[local] Instance allocated_dec s : Decision (allocated s).
Proof. unfold allocated. apply _. Defined.

(** No section that gets memory is larger than 16 MiB. *)
Definition MAX_SECTION : Z := 2 ^ 24.
Definition moderate : Prop :=
  forall index s, 0 <= index < e_section_count header -> section bytes header index = Some s -> allocated s -> s_size s <= MAX_SECTION.

(** What the layout loop has established for the first [n] sections. *)
Definition alignment_of (s : elf64_section) : Z := if s_alignment s =? 0 then 1 else s_alignment s.

Record laid (n : Z) (l : layout) : Prop := {
  l_length : length (offsets l) = Z.to_nat ELF_SECTION_LIMIT;
  l_total : 0 <= allocation_size l <= n * (MAX_SECTION + 4096);
  l_file : forall i s, 0 <= i < n -> section bytes header i = Some s -> s_type s <> SHT_NOBITS -> s_offset s + s_size s <= size;
  l_place : forall i s, 0 <= i < n -> section bytes header i = Some s -> allocated s ->
    exists o, rd (offsets l) i = Some o /\ 0 <= o /\ (alignment_of s | o) /\ o + s_size s <= allocation_size l;
  l_apart : forall i j s s' o o', 0 <= i < j -> j < n -> section bytes header i = Some s -> section bytes header j = Some s' ->
    allocated s -> allocated s' -> rd (offsets l) i = Some o -> rd (offsets l) j = Some o' -> o + s_size s <= o';
  l_symbols : forall k, symbol_section l = Some k -> 0 <= k < n /\ exists s, section bytes header k = Some s /\ s_type s = SHT_SYMTAB;
  l_rest : forall i, n <= i < ELF_SECTION_LIMIT -> rd (offsets l) i = Some 0;
}.

Lemma laid_start : laid 0 (Layout (replicate (Z.to_nat ELF_SECTION_LIMIT) 0) 0 None).
Proof.
  constructor; cbn [offsets allocation_size symbol_section]; try done; try (intros; lia).
  intros i Hi. apply rd_Some. split; [lia|]. apply lookup_replicate_2. unfold ELF_SECTION_LIMIT in *. lia.
Qed.

Lemma alignment_ok s : section_fits s -> negb (alignment_of s &&& u64 (alignment_of s - 1) =? 0) || (4096 <? alignment_of s) = false ->
  mvh_is_power_of_two_u64 (alignment_of s) = true /\ 0 < alignment_of s <= 4096.
Proof.
  intros Hs E. apply orb_false_iff in E as [E1 E2]. apply negb_false_iff, Z.eqb_eq in E1. apply Z.ltb_ge in E2.
  assert (0 < alignment_of s) as Hpos by (pose proof (f_alignment s Hs); unfold alignment_of, fits in *; destruct (Z.eqb_spec (s_alignment s) 0); lia).
  split; [|lia]. unfold mvh_is_power_of_two_u64. rewrite (proj2 (Z.eqb_neq _ _)) by lia. cbn [negb andb].
  rewrite E1. done.
Qed.

(** A section that gets memory is put behind all others. *)
Lemma layout_place n l s :
  moderate -> laid n l -> 0 <= n < e_section_count header -> section bytes header n = Some s -> section_fits s -> allocated s ->
  mvh_is_power_of_two_u64 (alignment_of s) = true -> 0 < alignment_of s <= 4096 ->
  (s_type s <> SHT_NOBITS -> s_offset s + s_size s <= size) ->
  let total := mvh_align_up_u64 (allocation_size l) (alignment_of s) in
  exists offsets', wr (offsets l) n total = Some offsets' /\ mvh_checked_add_u64 total (s_size s) true = done_with (total + s_size s) /\
    laid (n + 1) (Layout offsets' (total + s_size s) (symbol_section l)).
Proof.
  intros Hm Hl Hn Hs Hf Ha Hpow Hal Hfile total. pose proof (Hm n s Hn Hs Ha) as Hsize. destruct (h_count Hh) as [_ Hmax].
  unfold MAX_SECTION, ELF_SECTION_LIMIT in *. change (2 ^ 24) with 16777216 in *.
  destruct (l_total n l Hl) as [Ht0 Ht]. unfold MAX_SECTION in Ht. change (2 ^ 24) with 16777216 in Ht.
  assert ((alignment_of s | total) /\ allocation_size l <= total < allocation_size l + alignment_of s) as [Hdiv Hrange].
  { pose proof (mvh_align_up_u64_spec (allocation_size l) (alignment_of s)) as Hspec. cbv zeta in Hspec. rewrite Hpow, (proj2 (Z.leb_le _ _)) in Hspec by (unfold U64_MAX; pow2; lia).
    apply Hspec; unfold fits; pow2; lia. }
  pose proof (f_size s Hf) as Hsz. unfold fits in Hsz.
  assert (0 <= n < Z.of_nat (length (offsets l))) as Hnl by (rewrite (l_length n l Hl); unfold ELF_SECTION_LIMIT; lia).
  rewrite wr_ok by done. eexists. split; [done|]. split.
  { unfold mvh_checked_add_u64, U64_MAX. cbn [negb orb]. rewrite (proj2 (Z.ltb_ge _ _)) by (pow2; lia). rewrite u64_small by (unfold fits; pow2; lia). done. }
  assert (Hrd : forall i, rd (<[Z.to_nat n := total]> (offsets l)) i = if n =? i then Some total else rd (offsets l) i).
  { intros i. apply (rd_wr (offsets l) n i total). by apply wr_ok. }
  constructor; cbn [offsets allocation_size symbol_section].
  - rewrite length_insert. apply (l_length n l Hl).
  - unfold MAX_SECTION. change (2 ^ 24) with 16777216. lia.
  - intros i s' Hi Hs'. destruct (Z.eq_dec i n) as [->|]; [simplify_eq; auto|]. apply (l_file n l Hl i s'); [lia|done].
  - intros i s' Hi Hs' Ha'. rewrite Hrd. destruct (Z.eqb_spec n i) as [<-|Hne].
    + simplify_eq. exists total. split; [done|]. split; [lia|]. split; [done|lia].
    + destruct (l_place n l Hl i s') as (o & ? & ? & ? & ?); [lia|done|done|]. exists o. split; [done|]. split; [done|]. split; [done|lia].
  - intros i j s1 s2 o1 o2 Hij Hj H1 H2 A1 A2. rewrite !Hrd. rewrite (proj2 (Z.eqb_neq n i)) by lia. intros E1.
    destruct (l_place n l Hl i s1) as (o & E & _ & _ & Hle); [lia|done|done|]. assert (o = o1) as -> by congruence.
    destruct (Z.eqb_spec n j) as [<-|Hne].
    + intros [= <-]. lia.
    + intros E2. apply (l_apart n l Hl i j s1 s2); try done. lia.
  - intros k Hk. destruct (l_symbols n l Hl k Hk) as [? ?]. split; [lia|done].
  - intros i Hi. rewrite Hrd, (proj2 (Z.eqb_neq n i)) by lia. apply (l_rest n l Hl). lia.
Qed.
Lemma laid_skip n l s :
  laid n l -> 0 <= n -> section bytes header n = Some s -> ~ allocated s -> (s_type s <> SHT_NOBITS -> s_offset s + s_size s <= size) -> laid (n + 1) l.
Proof.
  intros Hl Hn Hs Ha Hfile. constructor.
  - apply (l_length n l Hl).
  - pose proof (l_total n l Hl). unfold MAX_SECTION in *. lia.
  - intros i s' Hi Hs'. destruct (Z.eq_dec i n) as [->|]; [simplify_eq; auto|]. apply (l_file n l Hl i s'); [lia|done].
  - intros i s' Hi Hs' Ha'. destruct (Z.eq_dec i n) as [->|]; [by simplify_eq|]. apply (l_place n l Hl); [lia|done..].
  - intros i j s1 s2 o1 o2 Hij Hj H1 H2 A1 A2. destruct (Z.eq_dec j n) as [->|]; [by simplify_eq|].
    apply (l_apart n l Hl i j s1 s2); try done. lia.
  - intros k Hk. destruct (l_symbols n l Hl k Hk) as [? ?]. split; [lia|done].
  - intros i Hi. apply (l_rest n l Hl). lia.
Qed.

Lemma laid_symbols n l s : 0 <= n -> laid (n + 1) l -> section bytes header n = Some s -> s_type s = SHT_SYMTAB ->
  laid (n + 1) (Layout (offsets l) (allocation_size l) (Some n)).
Proof.
  intros Hn Hl Hs Ht. destruct Hl. constructor; cbn [offsets allocation_size symbol_section]; try done.
  intros k [= <-]. split; [lia|]. by exists s.
Qed.

Lemma layout_step_spec n l :
  moderate -> laid n l -> 0 <= n < e_section_count header ->
  exists res, layout_step bytes header size n l = Some res /\ match res with inl l' => laid (n + 1) l' | inr _ => True end.
Proof using Hbytes Hh.
  intros Hm Hl Hn. destruct (section_ok n Hn) as (s & Hs & Hf). destruct (h_count Hh) as [_ Hmax]. unfold layout_step. rewrite Hs, bind_some.
  change (if s_alignment s =? 0 then 1 else s_alignment s) with (alignment_of s). cbv zeta.
  destruct (negb (alignment_of s &&& u64 (alignment_of s - 1) =? 0) || (4096 <? alignment_of s)) eqn:Eal; [by exists (inr tt)|].
  destruct (alignment_ok s Hf Eal) as [Hpow Hal].
  destruct (negb (s_type s =? SHT_NOBITS) && negb (range_valid (s_offset s) (s_size s) size)) eqn:Efile; [by exists (inr tt)|].
  assert (s_type s <> SHT_NOBITS -> s_offset s + s_size s <= size) as Hfile.
  { intros Ht. rewrite (proj2 (Z.eqb_neq _ _) Ht) in Efile. cbn [negb andb] in Efile. apply negb_false_iff, range_valid_spec in Efile. lia. }
  assert (exists l1, (if negb (s_flags s &&& SHF_ALLOC =? 0) then layout_section l n (alignment_of s) (s_size s) else Some (Some l)) = Some (Some l1) /\ laid (n + 1) l1 /\ symbol_section l1 = symbol_section l) as (l1 & -> & Hl1 & Esym).
  { destruct (Z.eqb_spec (s_flags s &&& SHF_ALLOC) 0) as [E|E]; cbn [negb].
    - exists l. split; [done|]. split; [|done]. apply (laid_skip n l s); [done|lia|done|by intros ?|done].
    - unfold layout_section. rewrite (l_rest n l Hl) by lia. rewrite bind_some, andb_false_r.
      destruct (layout_place n l s Hm Hl Hn Hs Hf E Hpow Hal Hfile) as (offsets' & -> & -> & Hl1). rewrite bind_some. cbn [done_with].
      eexists. split; [done|]. split; [exact Hl1|done]. }
  rewrite bind_some. destruct (Z.eqb_spec (s_type s) SHT_SYMTAB) as [Et|]; [|by exists (inl l1)].
  case_bool_decide; [by exists (inr tt)|]. eexists. split; [done|]. cbv beta iota. apply (laid_symbols n l1 s); [lia|done..].
Qed.

Lemma elf_layout_spec :
  moderate -> exists res, elf_layout bytes header size = Some res /\ match res with inl l => laid (e_section_count header) l | inr _ => True end.
Proof using Hbytes Hh.
  intros Hm. destruct (h_count Hh) as [Hpos _]. unfold elf_layout.
  destruct (for_break_rule laid (fun _ : unit => True) (Z.to_nat (e_section_count header)) 0 (layout_step bytes header size)
    (Layout (replicate (Z.to_nat ELF_SECTION_LIMIT) 0) 0 None)) as [(l & -> & Hl)|([] & -> & _)].
  - apply laid_start.
  - intros n l Hn Hl. destruct (layout_step_spec n l Hm Hl) as ([l'|[]] & -> & Hres); [lia|left; by exists l'|right; by exists tt].
  - exists (inl l). split; [done|]. cbv beta iota. by replace (e_section_count header) with (0 + Z.of_nat (Z.to_nat (e_section_count header))) by lia.
  - by exists (inr tt).
Qed.

(** ** The symbol and string tables *)

Record tables_ok (t : tables) : Prop := {
  tb_symbols : 0 <= t_symbols t; tb_count : 0 <= t_symbol_count t;
  tb_symbols_end : t_symbols t + t_symbol_count t * sizeof_symbol <= size;
  tb_strings : 0 <= t_strings t; tb_strings_size : 0 <= t_strings_size t;
  tb_strings_end : t_strings t + t_strings_size t <= size;
}.

Lemma elf_tables_spec l :
  laid (e_section_count header) l ->
  exists res, elf_tables bytes header l size = Some res /\ match res with Some t => tables_ok t /\ 0 < allocation_size l | None => True end.
Proof using Hbytes Hh.
  intros Hl. unfold elf_tables. destruct (Z.eqb_spec (allocation_size l) 0) as [|Hne]; [by exists None|].
  destruct (symbol_section l) as [k|] eqn:Ek; [|by exists None].
  destruct (l_symbols _ _ Hl k Ek) as (Hk & y & Hy & Hty). rewrite Hy, bind_some.
  destruct (section_ok k Hk) as (y' & Ey & Hfy). simplify_eq.
  destruct (_ || _) eqn:E; [by exists None|].
  repeat match goal with H : _ || _ = false |- _ => apply orb_false_iff in H as [H ?] end. bool_to_prop.
  pose proof (f_link y Hfy) as Hlink. unfold fits in Hlink.
  destruct (section_ok (s_link y)) as (str & Hstr & Hfs); [lia|]. rewrite Hstr, bind_some.
  destruct (range_valid _ _ _) eqn:Er; cbn [negb]; [|by exists None]. apply range_valid_spec in Er.
  pose proof (l_file _ _ Hl k y Hk Hy ltac:(by rewrite Hty)) as Hfile.
  pose proof (f_offset y Hfy). pose proof (f_size y Hfy). pose proof (f_offset str Hfs). pose proof (f_size str Hfs). unfold fits in *.
  eexists. split; [done|]. cbv beta iota. pose proof (l_total _ _ Hl). split; [|lia].
  unfold sizeof_symbol in *. constructor; cbn; unfold sizeof_symbol; divlia.
Qed.

Lemma symbol_ok t index : tables_ok t -> 0 <= index < t_symbol_count t ->
  exists y, symbol_at bytes (t_symbols t + index * sizeof_symbol) = Some y /\ fits 32 (y_name y) /\ fits 16 (y_section y) /\ fits 64 (y_value y).
Proof using Hbytes.
  intros Ht Hi. apply symbol_at_ok; [done|]. destruct Ht. unfold room, sizeof_symbol in *. lia.
Qed.

(** The scan of a string stays inside the image. *)
Lemma image_nlength_ok o limit :
  0 <= o -> 0 <= limit -> o + limit <= size -> exists n, image_nlength bytes o limit = Some n /\ 0 <= n <= limit.
Proof using Hbytes.
  intros Ho Hl Hr. unfold image_nlength.
  destruct (for_break_rule (fun _ (_ : unit) => True) (fun k => 0 <= k <= limit) (Z.to_nat limit) 0
    (fun k u => c ← rd bytes (o + k); Some (if c =? 0 then inr k else inl u)) tt) as [([] & -> & _)|(k & -> & Hk)]; [done| |by exists limit|by exists k].
  intros j [] Hj _. destruct (rd_ok bytes (o + j)) as (c & ->); [lia|]. rewrite bind_some. destruct (c =? 0).
  - right. exists j. split; [done|lia].
  - left. by exists tt.
Qed.

(** A comparison with a literal ends at the terminator of the string. *)
Lemma image_equal_ok literal o e :
  Forall (fun c => c <> 0) literal -> 0 <= o <= e -> rd bytes e = Some 0 -> exists b, image_equal bytes o literal = Some b.
Proof.
  intros Hlit. revert o. induction literal as [|x literal IH]; intros o Ho He; cbn [image_equal];
    destruct (rd_ok bytes o) as (c & Hc); try (apply rd_range in He; lia); rewrite Hc, bind_some; [by eexists|].
  apply Forall_cons in Hlit as [Hx Hlit]. destruct (Z.eqb_spec c x) as [->|]; [|by exists false].
  apply IH; [done| |done]. destruct (Z.eq_dec o e) as [->|]; [congruence|lia].
Qed.
End image.
