(* ===== verification/ModuleTable.v ===== *)
(** * The module table

    The invariant of the table of modules and its changes: every reference
    count is the number of live modules that depend on the module plus the
    number of handles held by others, only live modules are referenced, and the
    dependencies of a live module are live. *)

From S2P Require Import Prelude Buffer Heap Allocator Module.

#[local] Open Scope Z_scope.

(** ** Descriptors *)

Definition deps (d : mvh_module_descriptor) : list cstr :=
  take (Z.to_nat (dependency_count d)) (default [] (dependencies d)).

(** What a C object of the type can hold: the array has the announced length. *)
Definition descriptor_typed (d : mvh_module_descriptor) : Prop :=
  fits 32 (dependency_count d) /\
  match dependencies d with Some l => dependency_count d <= Z.of_nat (length l) | None => True end.

Record descriptor_ok (d : mvh_module_descriptor) : Prop := {
  ok_size : structure_size d = sizeof_descriptor;
  ok_abi : kernel_abi d = MVH_KERNEL_ABI_VERSION;
  ok_name : exists t, name d = Some t /\ t <> [] /\ Z.of_nat (length t) < MVH_MODULE_NAME_MAX;
  ok_version : exists t, version d = Some t /\ Z.of_nat (length t) < MVH_MODULE_VERSION_MAX;
  ok_count : 0 <= dependency_count d <= MVH_MODULE_MAX_DEPENDENCIES;
  ok_length : Z.of_nat (length (deps d)) = dependency_count d;
  ok_deps : Forall (fun t => t <> None /\ t <> Some [] /\ t <> name d) (deps d);
}.

Lemma dependency_deps d i t : dependency d (Z.of_nat i) = Some t -> Z.of_nat i < dependency_count d -> deps d !! i = Some t.
Proof.
  unfold dependency, deps. destruct (dependencies d) as [l|]; simpl; [|done]. intros [_ Hl]%rd_Some Hi.
  rewrite Nat2Z.id in Hl. by rewrite lookup_take_lt by lia.
Qed.

Lemma dependency_ok d i :
  descriptor_ok d -> 0 <= i < dependency_count d -> exists t, dependency d i = Some t /\ deps d !! Z.to_nat i = Some t.
Proof.
  intros Hd Hi. pose proof (ok_length d Hd) as Hl.
  destruct (lookup_lt_is_Some_2 (deps d) (Z.to_nat i)) as [t Ht]; [lia|]. exists t. split; [|done].
  unfold deps in Ht. destruct (dependencies d) as [l|] eqn:E; [|by cbn in Ht; rewrite take_nil in Ht].
  apply lookup_take_Some in Ht as [Ht _]. unfold dependency. rewrite E. simpl in *. apply rd_Some. split; [lia|done].
Qed.

Lemma deps_length d : descriptor_typed d -> dependencies d <> None \/ dependency_count d = 0 -> Z.of_nat (length (deps d)) = dependency_count d.
Proof.
  intros [Hf Hl] Hn. unfold deps, fits in *. rewrite length_take. destruct (dependencies d) as [l|]; simpl in *; [lia|].
  destruct Hn as [|Hn]; [done|]. rewrite Hn. done.
Qed.

Lemma str_nlength_bound t n : 0 <= n -> (n <=? str_nlength (Some t) n) = (n <=? Z.of_nat (length t)).
Proof. intros Hn. unfold str_nlength. zcmp. Qed.

(** [descriptor_valid] decides [descriptor_ok]. *)
Lemma valid_loop d :
  descriptor_typed d -> Z.of_nat (length (deps d)) = dependency_count d ->
  exists r : unit + unit,
    for_break (Z.to_nat (dependency_count d)) 0 (fun index u =>
      dep ← dependency d index;
      Some (if bool_decide (dep = None) || bool_decide (dep = Some []) || str_equal dep (name d)
            then inr tt else inl u)) tt = Some r /\
    (match r with inl _ => true | inr _ => false end = true <->
     Forall (fun t => t <> None /\ t <> Some [] /\ t <> name d) (deps d)).
Proof.
  intros Ht Hl. set (good := fun t => t <> None /\ t <> Some [] /\ t <> name d).
  assert (Hread : forall j, 0 <= j < dependency_count d -> exists t, dependency d j = Some t /\ deps d !! Z.to_nat j = Some t).
  { intros j Hj. destruct (lookup_lt_is_Some_2 (deps d) (Z.to_nat j)) as [t E]; [lia|]. exists t. split; [|done].
    unfold deps in E. unfold dependency. destruct (dependencies d); [|by cbn in E; rewrite take_nil in E].
    apply lookup_take_Some in E as [E _]. simpl in *. apply rd_Some. split; [lia|done]. }
  destruct (for_break_rule (R := unit) (fun j (_ : unit) => forall i t, (i < Z.to_nat j)%nat -> deps d !! i = Some t -> good t)
    (fun _ => ~ Forall good (deps d)) (Z.to_nat (dependency_count d)) 0 (fun index u =>
      dep ← dependency d index;
      Some (if bool_decide (dep = None) || bool_decide (dep = Some []) || str_equal dep (name d)
            then inr tt else inl u)) tt) as [(u & E & Hu)|([] & E & Hn)].
  - intros i t Hi. lia.
  - intros j [] Hj Hgood. destruct (Hread j) as (t & Hd & Hn); [lia|]. rewrite Hd. cbn [mbind option_bind]. unfold str_equal.
    destruct (decide (good t)) as [Hg|Hg].
    + left. exists tt. rewrite !bool_decide_false by apply Hg. split; [done|].
      intros i t' Hi Ht'. destruct (decide (i = Z.to_nat j)) as [->|]; [congruence|]. apply (Hgood i); [lia|done].
    + right. exists tt. split.
      * unfold good in Hg. repeat case_bool_decide; simpl; try done. by destruct Hg.
      * intros Hall. by apply Hg, (Forall_lookup_1 _ _ _ _ Hall Hn).
  - exists (inl u). split; [done|]. split; [intros _|done]. apply Forall_lookup. intros i t Hi. apply (Hu i); [|done].
    apply lookup_lt_Some in Hi. lia.
  - exists (inr tt). split; [done|]. split; [done|]. intros Hall. by destruct Hn.
Qed.

Lemma descriptor_valid_spec d :
  descriptor_typed d -> exists b, descriptor_valid (Some d) = Some b /\ (b = true <-> descriptor_ok d).
Proof.
  intros Ht. unfold descriptor_valid.
  destruct (_ || _) eqn:E.
  - exists false. split; [done|]. split; [done|]. intros [H1 H2 (t & H3 & H3' & H3'') (u & H4 & H4') H5 H6 H7]. exfalso.
    rewrite H1, H2, H3, H4, !Z.eqb_refl, !str_nlength_bound in E by done.
    rewrite (proj2 (Z.leb_gt _ _) H3''), (proj2 (Z.leb_gt _ _) H4'), (proj2 (Z.ltb_ge _ _)) in E by apply H5.
    rewrite (bool_decide_false (Some t = None)), (bool_decide_false (Some u = None)), (bool_decide_false (Some t = Some [])) in E by congruence.
    cbn [negb orb] in E. apply andb_true_iff in E as [E1 E2]. apply negb_true_iff, Z.eqb_neq in E1. apply bool_decide_eq_true in E2.
    unfold deps in H6. rewrite E2 in H6. cbn in H6. rewrite take_nil in H6. simpl in H6. lia.
  - repeat match goal with H : _ || _ = false |- _ => apply orb_false_iff in H as [H ?] end.
    assert (Z.of_nat (length (deps d)) = dependency_count d) as Hl.
    { apply deps_length; [done|]. destruct (Z.eqb_spec (dependency_count d) 0); [by right|left]. simpl in *. by case_bool_decide. }
    destruct (valid_loop d Ht Hl) as (r & -> & Hr). rewrite bind_some. exists (match r with inl _ => true | inr _ => false end).
    split; [done|]. rewrite Hr. clear Hr r.
    repeat match goal with H : bool_decide _ = false |- _ => apply bool_decide_eq_false in H end.
    destruct (name d) as [t|] eqn:En; [|done]. destruct (version d) as [u|] eqn:Ev; [|done].
    rewrite str_nlength_bound in * by done. bool_to_prop. destruct Ht as [Hf _]. split.
    + intros Hall. constructor; try done.
      * exists t. split; [done|]. split; [congruence|lia].
      * exists u. split; [done|lia].
      * unfold fits in Hf. lia.
      * by rewrite En.
    + intros [? ? ? ? ? ? Hall]. by rewrite En in Hall.
Qed.

(** ** The table *)

Definition slot_name (s : module_slot) : cstr := d ← descriptor s; name d.
Definition slot_deps (s : module_slot) : list cstr := match descriptor s with Some d => deps d | None => [] end.
Definition live (s : module_slot) : Prop := state s = MVH_MODULE_LIVE.
#[export] Instance live_dec s : Decision (live s).
Proof. unfold live. apply _. Defined.

Definition count (t : cstr) (l : list cstr) : Z := Z.of_nat (length (filter (t =.) l)).

(** The references that live modules hold on the module [t]. *)
Definition weight (t : cstr) (s : module_slot) : Z := if decide (live s) then count t (slot_deps s) else 0.
Definition uses (L : list module_slot) (t : cstr) : Z := foldr (fun s n => weight t s + n) 0 L.

(** Handles on modules that are held outside the table. *)
Definition handles := cstr -> Z.
Definition also (held : handles) (l : list cstr) : handles := fun t => held t + count t l.

Record table (L : list module_slot) (held : handles) : Prop := {
  t_length : (length L <= 32)%nat;
  t_slots : forall s, s ∈ L -> exists d, descriptor s = Some d /\ descriptor_ok d;
  t_names : NoDup (slot_name <$> L);
  t_refs : forall s, s ∈ L -> references s = uses L (slot_name s) + held (slot_name s);
  t_range : forall s, s ∈ L -> references s <= U32_MAX;
  t_live : forall s, s ∈ L -> references s <> 0 -> live s;
  t_deps : forall s t, s ∈ L -> live s -> t ∈ slot_deps s -> exists s', s' ∈ L /\ slot_name s' = t /\ live s';
  t_held : forall t, 0 <= held t;
  t_known : forall t, held t <> 0 -> exists s, s ∈ L /\ slot_name s = t;
}.

Lemma count_nonneg t l : 0 <= count t l.
Proof. unfold count. lia. Qed.
Lemma count_app t l l' : count t (l ++ l') = count t l + count t l'.
Proof. unfold count. rewrite filter_app, length_app. lia. Qed.
Lemma count_one t u : count t [u] = if decide (t = u) then 1 else 0.
Proof. unfold count. rewrite filter_cons, filter_nil. by destruct (decide (t = u)). Qed.
Lemma count_cons t u l : count t (u :: l) = (if decide (t = u) then 1 else 0) + count t l.
Proof. rewrite <- count_one. by rewrite <- count_app. Qed.
Lemma count_pos t l : count t l <> 0 <-> t ∈ l.
Proof.
  unfold count. split.
  - intros H. destruct (filter (t =.) l) as [|u f] eqn:E; [done|].
    assert (u ∈ filter (t =.) l) as Hu by (rewrite E; left). by apply list_elem_of_filter in Hu as [<- ?].
  - intros Ht. assert (t ∈ filter (t =.) l) as Hf by (by apply list_elem_of_filter). destruct (filter (t =.) l); [by apply not_elem_of_nil in Hf|simpl; lia].
Qed.

Lemma weight_nonneg t s : 0 <= weight t s.
Proof. unfold weight. destruct (decide _); [apply count_nonneg|done]. Qed.
Lemma uses_nonneg L t : 0 <= uses L t.
Proof. induction L as [|s L IH]; simpl; [done|]. pose proof (weight_nonneg t s). lia. Qed.
Lemma uses_app L L' t : uses (L ++ L') t = uses L t + uses L' t.
Proof. induction L as [|s L IH]; simpl; [done|]. lia. Qed.
Lemma uses_insert L i s s' t :
  L !! i = Some s -> uses (<[i := s']> L) t = uses L t - weight t s + weight t s'.
Proof.
  revert i. induction L as [|a L IH]; intros [|i] Hi; simplify_eq/=; [lia|]. rewrite (IH i Hi). lia.
Qed.
Lemma uses_delete L i s t : L !! i = Some s -> uses (delete i L) t = uses L t - weight t s.
Proof.
  revert i. induction L as [|a L IH]; intros [|i] Hi; simplify_eq/=; [lia|]. rewrite (IH i Hi). lia.
Qed.
Lemma uses_pos L s t : s ∈ L -> live s -> t ∈ slot_deps s -> 0 < uses L t.
Proof.
  intros (i & Hi)%list_elem_of_lookup Hs Ht. pose proof (uses_delete L i s t Hi) as E. pose proof (uses_nonneg (delete i L) t).
  apply count_pos in Ht. pose proof (count_nonneg t (slot_deps s)). unfold weight in E. rewrite decide_True in E by done. lia.
Qed.

Section table.
Context (L : list module_slot) (held : handles) (HT : table L held).

Lemma name_inj i j s s' : L !! i = Some s -> L !! j = Some s' -> slot_name s = slot_name s' -> i = j.
Proof using HT.
  intros Hi Hj E. apply (NoDup_lookup (slot_name <$> L) i j (slot_name s) (t_names _ _ HT)); rewrite list_lookup_fmap.
  - by rewrite Hi.
  - by rewrite Hj, E.
Qed.

Lemma name_slot s s' : s ∈ L -> s' ∈ L -> slot_name s = slot_name s' -> s = s'.
Proof using HT.
  intros (i & Hi)%list_elem_of_lookup (j & Hj)%list_elem_of_lookup E. pose proof (name_inj i j s s' Hi Hj E). congruence.
Qed.

Lemma refs_bounds s : s ∈ L -> 0 <= references s <= U32_MAX.
Proof using HT.
  intros Hs. pose proof (t_range _ _ HT s Hs). rewrite (t_refs _ _ HT s Hs) in *. pose proof (uses_nonneg L (slot_name s)).
  pose proof (t_held _ _ HT (slot_name s)). lia.
Qed.

Lemma name_some s : s ∈ L -> slot_name s <> None.
Proof using HT.
  intros Hs. destruct (t_slots _ _ HT s Hs) as (d & Hd & Hok). unfold slot_name. rewrite Hd. simpl.
  by destruct (ok_name d Hok) as (t & -> & _).
Qed.

Lemma not_own_dep s : s ∈ L -> slot_name s ∉ slot_deps s.
Proof using HT.
  intros Hs Hin. destruct (t_slots _ _ HT s Hs) as (d & Hd & Hok). unfold slot_name, slot_deps in Hin. rewrite Hd in Hin.
  simpl in Hin. destruct (proj1 (Forall_forall _ _) (ok_deps d Hok) _ Hin) as (_ & _ & Hne). done.
Qed.

Lemma table_ext held' : (forall t, held t = held' t) -> table L held'.
Proof using HT.
  intros E. destruct HT. constructor; try done; intros *; rewrite <- ?E; auto.
Qed.
End table.

Lemma elem_insert {A} (l : list A) i x y : y ∈ <[i := x]> l -> y = x \/ y ∈ l.
Proof.
  intros (j & Hj)%list_elem_of_lookup. apply list_lookup_insert_Some in Hj as [(_ & -> & _)|(_ & Hj)]; [by left|right].
  by apply list_elem_of_lookup_2 in Hj.
Qed.

Lemma elem_insert_2 {A} (l : list A) i x y z : l !! i = Some z -> y ∈ l -> y = z \/ y ∈ <[i := x]> l.
Proof.
  intros Hi (j & Hj)%list_elem_of_lookup. destruct (decide (i = j)) as [->|Hne]; [left; congruence|right].
  apply (list_elem_of_lookup_2 _ j). by rewrite list_lookup_insert_ne.
Qed.

Lemma elem_inserted {A} (l : list A) i x z : l !! i = Some z -> x ∈ <[i := x]> l.
Proof. intros Hi. apply (list_elem_of_lookup_2 _ i). apply list_lookup_insert_eq. by apply lookup_lt_Some in Hi. Qed.

(** Changing one slot, its descriptor apart. *)
Lemma names_insert (L : list module_slot) i s s' : L !! i = Some s -> descriptor s' = descriptor s -> slot_name <$> <[i := s']> L = slot_name <$> L.
Proof.
  intros Hi E. rewrite list_fmap_insert. apply list_insert_id. rewrite list_lookup_fmap, Hi. simpl. unfold slot_name. by rewrite E.
Qed.

(** One more or one less reference to a live module, with its handle. *)
Lemma table_reference L held held' i s n :
  table L held -> L !! i = Some s -> live s -> references s + n <= U32_MAX ->
  (forall t, held' t = if decide (t = slot_name s) then held t + n else held t) -> 0 <= held' (slot_name s) ->
  table (<[i := with_references s (references s + n)]> L) held'.
Proof.
  intros HT Hi Hl Hmax Hheld Hpos. set (s' := with_references s (references s + n)).
  assert (Hs : s ∈ L) by (by apply list_elem_of_lookup_2 in Hi).
  assert (Hu : forall t, uses (<[i := s']> L) t = uses L t).
  { intros t. rewrite (uses_insert L i s) by done. change (weight t s') with (weight t s). lia. }
  assert (Hother : forall x, x ∈ <[i := s']> L -> x = s' \/ (x ∈ L /\ slot_name x <> slot_name s)).
  { intros x (j & Hj)%list_elem_of_lookup. apply list_lookup_insert_Some in Hj as [(_ & -> & _)|(Hne & Hj)]; [by left|right].
    split; [by apply list_elem_of_lookup_2 in Hj|]. intros E. by apply Hne, (name_inj L held HT i j s x). }
  assert (Hkeep : forall x, x ∈ L -> exists y, y ∈ <[i := s']> L /\ slot_name y = slot_name x /\ (live x -> live y)).
  { intros x Hx. destruct (elem_insert_2 L i s' x s Hi Hx) as [->|Hx']; [exists s'|by exists x]. split; [by apply (elem_inserted _ _ _ s)|done]. }
  constructor.
  - rewrite length_insert. apply (t_length _ _ HT).
  - intros x Hx. destruct (Hother x Hx) as [->|[Hx' _]]; [exact (t_slots _ _ HT s Hs)|by apply (t_slots _ _ HT)].
  - rewrite (names_insert L i s) by done. apply (t_names _ _ HT).
  - intros x Hx. rewrite Hu, Hheld. destruct (Hother x Hx) as [->|[Hx' Hne]].
    + rewrite decide_True by done. change (references s') with (references s + n). change (slot_name s') with (slot_name s).
      rewrite (t_refs _ _ HT s Hs). lia.
    + rewrite decide_False by done. by apply (t_refs _ _ HT).
  - intros x Hx. destruct (Hother x Hx) as [->|[Hx' Hne]]; [done|by apply (t_range _ _ HT)].
  - intros x Hx Hr. destruct (Hother x Hx) as [->|[Hx' Hne]]; [done|by apply (t_live _ _ HT)].
  - intros x t Hx Hlx Ht. destruct (Hother x Hx) as [->|[Hx' Hne]].
    + destruct (t_deps _ _ HT s t Hs Hl Ht) as (y & Hy & <- & Hly). destruct (Hkeep y Hy) as (z & ? & ? & ?). exists z. auto.
    + destruct (t_deps _ _ HT x t Hx' Hlx Ht) as (y & Hy & <- & Hly). destruct (Hkeep y Hy) as (z & ? & ? & ?). exists z. auto.
  - intros t. rewrite Hheld. destruct (decide _) as [->|]; [|apply (t_held _ _ HT)].
    rewrite Hheld, decide_True in Hpos by done. done.
  - intros t. rewrite Hheld. destruct (decide (t = slot_name s)) as [->|Hne]; intros Hn.
    + destruct (Hkeep s Hs) as (z & ? & ? & _). by exists z.
    + destruct (t_known _ _ HT t Hn) as (x & Hx & <-). destruct (Hkeep x Hx) as (z & ? & ? & _). by exists z.
Qed.

(** A change of state of a module without references, which takes the
    references on its dependencies with it. *)
Lemma table_state L held held' i s st :
  table L held -> L !! i = Some s -> references s = 0 ->
  (forall t, held' t + weight t (with_state s st) = held t + weight t s) ->
  (forall t, 0 <= held' t) ->
  (st = MVH_MODULE_LIVE -> forall t, t ∈ slot_deps s -> exists s', s' ∈ L /\ slot_name s' = t /\ live s') ->
  table (<[i := with_state s st]> L) held'.
Proof.
  intros HT Hi Hr Hheld Hpos Hdeps. set (s' := with_state s st).
  assert (Hs : s ∈ L) by (by apply list_elem_of_lookup_2 in Hi).
  assert (Hu : forall t, uses (<[i := s']> L) t + held' t = uses L t + held t).
  { intros t. rewrite (uses_insert L i s) by done. specialize (Hheld t). unfold s'. lia. }
  assert (Hnone : uses L (slot_name s) = 0 /\ held (slot_name s) = 0).
  { pose proof (t_refs _ _ HT s Hs). pose proof (uses_nonneg L (slot_name s)). pose proof (t_held _ _ HT (slot_name s)). lia. }
  assert (Hother : forall x, x ∈ <[i := s']> L -> x = s' \/ (x ∈ L /\ x <> s)).
  { intros x (j & Hj)%list_elem_of_lookup. apply list_lookup_insert_Some in Hj as [(_ & -> & _)|(Hne & Hj)]; [by left|right].
    split; [by apply list_elem_of_lookup_2 in Hj|]. intros ->. by apply Hne, (name_inj L held HT i j s s). }
  assert (Hkeep : forall x, x ∈ L -> slot_name x <> slot_name s -> x ∈ <[i := s']> L).
  { intros x Hx Hne. destruct (elem_insert_2 L i s' x s Hi Hx) as [->|]; done. }
  assert (Hlive : forall x t, x ∈ L -> live x -> t ∈ slot_deps x -> exists y, y ∈ <[i := s']> L /\ slot_name y = t /\ live y).
  { intros x t Hx Hlx Ht. destruct (t_deps _ _ HT x t Hx Hlx Ht) as (y & Hy & <- & Hly). exists y. split; [|done]. apply Hkeep; [done|].
    intros E. pose proof (uses_pos L x (slot_name y) Hx Hlx Ht). rewrite E in *. lia. }
  constructor.
  - rewrite length_insert. apply (t_length _ _ HT).
  - intros x Hx. destruct (Hother x Hx) as [->|[Hx' _]]; [exact (t_slots _ _ HT s Hs)|by apply (t_slots _ _ HT)].
  - rewrite (names_insert L i s) by done. apply (t_names _ _ HT).
  - intros x Hx. rewrite Hu. destruct (Hother x Hx) as [->|[Hx' Hne]]; [exact (t_refs _ _ HT s Hs)|by apply (t_refs _ _ HT)].
  - intros x Hx. destruct (Hother x Hx) as [->|[Hx' Hne]]; [exact (t_range _ _ HT s Hs)|by apply (t_range _ _ HT)].
  - intros x Hx Hrx. destruct (Hother x Hx) as [->|[Hx' Hne]]; [by cbn in Hrx|by apply (t_live _ _ HT)].
  - intros x t Hx Hlx Ht. destruct (Hother x Hx) as [->|[Hx' Hne]]; [|by apply (Hlive x)].
    destruct (Hdeps Hlx t Ht) as (y & Hy & <- & Hly). exists y. split; [|done]. apply Hkeep; [done|]. intros E.
    apply (not_own_dep L held HT s Hs). rewrite <- E. exact Ht.
  - done.
  - intros t Hn. destruct (decide (t = slot_name s)) as [->|Hne]; [exists s'; split; [by apply (elem_inserted _ _ _ s)|done]|].
    destruct (decide (held t = 0)) as [Hz|Hz].
    + assert (0 < weight t s) as Hw by (specialize (Hheld t); specialize (Hpos t); pose proof (weight_nonneg t s'); unfold s' in *; lia).
      unfold weight in Hw. destruct (decide (live s)) as [Hls|]; [|lia].
      destruct (Hlive s t Hs Hls) as (y & ? & ? & _); [apply count_pos; lia|]. by exists y.
    + destruct (t_known _ _ HT t Hz) as (x & Hx & <-). exists x. split; [by apply Hkeep|done].
Qed.

(** A module that is not in the table is not referenced. *)
Lemma unknown_unused L held t : table L held -> (forall s, s ∈ L -> slot_name s <> t) -> uses L t = 0 /\ held t = 0.
Proof.
  intros HT Hno. split.
  - destruct (decide (uses L t = 0)) as [|Hn]; [done|]. exfalso.
    assert (exists s, s ∈ L /\ weight t s <> 0) as (s & Hs & Hw).
    { clear -Hn. induction L as [|s L IH]; [done|]. simpl in Hn. destruct (decide (weight t s = 0)).
      - destruct IH as (x & ? & ?); [lia|]. exists x. split; [by right|done].
      - exists s. split; [left|done]. }
    unfold weight in Hw. destruct (decide (live s)) as [Hl|]; [|done]. apply count_pos in Hw.
    destruct (t_deps _ _ HT s t Hs Hl Hw) as (x & Hx & E & _). by apply (Hno x).
  - destruct (decide (held t = 0)) as [|Hn]; [done|]. exfalso. destruct (t_known _ _ HT t Hn) as (x & Hx & E). by apply (Hno x).
Qed.

Lemma table_append L held s :
  table L held -> (length L < 32)%nat -> (exists d, descriptor s = Some d /\ descriptor_ok d) ->
  (forall x, x ∈ L -> slot_name x <> slot_name s) -> references s = 0 -> (live s -> slot_deps s = []) ->
  table (L ++ [s]) held.
Proof.
  intros HT Hlen Hd Hnew Hr Hl. destruct (unknown_unused L held (slot_name s) HT Hnew) as [Hu Hh].
  assert (Huses : forall t, uses (L ++ [s]) t = uses L t).
  { intros t. rewrite uses_app. simpl. unfold weight. destruct (decide (live s)) as [E|]; [rewrite (Hl E); change (count t []) with 0|]; lia. }
  assert (Hin : forall x, x ∈ L ++ [s] -> x ∈ L \/ x = s) by (intros x; rewrite elem_of_app, list_elem_of_singleton; done).
  assert (Hup : forall x, x ∈ L -> x ∈ L ++ [s]) by (intros x Hx; apply elem_of_app; by left).
  constructor.
  - rewrite length_app. simpl. lia.
  - intros x Hx. destruct (Hin x Hx) as [Hx'| ->]; [by apply (t_slots _ _ HT)|done].
  - rewrite fmap_app. apply NoDup_app. split; [apply (t_names _ _ HT)|]. split; [|apply NoDup_singleton].
    intros t (x & -> & Hx)%list_elem_of_fmap E%list_elem_of_singleton. by apply (Hnew x).
  - intros x Hx. rewrite Huses. destruct (Hin x Hx) as [Hx'| ->]; [by apply (t_refs _ _ HT)|lia].
  - intros x Hx. destruct (Hin x Hx) as [Hx'| ->]; [by apply (t_range _ _ HT)|]. rewrite Hr. done.
  - intros x Hx Hn. destruct (Hin x Hx) as [Hx'| ->]; [by apply (t_live _ _ HT)|done].
  - intros x t Hx Hlx Ht. destruct (Hin x Hx) as [Hx'| ->].
    + destruct (t_deps _ _ HT x t Hx' Hlx Ht) as (y & ? & ? & ?). exists y. auto.
    + rewrite (Hl Hlx) in Ht. by apply not_elem_of_nil in Ht.
  - apply (t_held _ _ HT).
  - intros t Hn. destruct (t_known _ _ HT t Hn) as (x & Hx & E). exists x. auto.
Qed.

Lemma elem_delete {A} (l : list A) i x y : l !! i = Some x -> y ∈ l -> y = x \/ y ∈ delete i l.
Proof.
  revert i. induction l as [|a l IH]; intros [|i] Hi Hy; simplify_eq/=.
  - apply elem_of_cons in Hy as [->|]; auto.
  - apply elem_of_cons in Hy as [->|Hy]; [right; left|]. destruct (IH i Hi Hy); [by left|right; by right].
Qed.

Lemma delete_elem_ne {A} (l : list A) i y : y ∈ delete i l -> exists j, j <> i /\ l !! j = Some y.
Proof.
  intros (k & Hk)%list_elem_of_lookup. destruct (decide (k < i)%nat) as [Hlt|Hge].
  - rewrite list_lookup_delete_lt in Hk by done. exists k. split; [lia|done].
  - rewrite list_lookup_delete_ge in Hk by lia. exists (S k). split; [lia|done].
Qed.
Lemma delete_elem {A} (l : list A) i y : y ∈ delete i l -> y ∈ l.
Proof. intros (j & _ & Hj)%delete_elem_ne. by apply list_elem_of_lookup_2 in Hj. Qed.

Lemma delete_insert_here {A} (l : list A) i x : delete i (<[i := x]> l) = delete i l.
Proof. revert i. induction l as [|a l IH]; intros [|i]; simpl; [done..|]. by rewrite IH. Qed.

Lemma table_remove L held i s :
  table L held -> L !! i = Some s -> ~ live s -> table (delete i L) held.
Proof.
  intros HT Hi Hl.
  assert (Hs : s ∈ L) by (by apply list_elem_of_lookup_2 in Hi).
  assert (Hr : references s = 0) by (destruct (decide (references s = 0)); [done|]; by destruct Hl; apply (t_live _ _ HT)).
  assert (Hnone : uses L (slot_name s) = 0 /\ held (slot_name s) = 0).
  { pose proof (t_refs _ _ HT s Hs). pose proof (uses_nonneg L (slot_name s)). pose proof (t_held _ _ HT (slot_name s)). lia. }
  assert (Huses : forall t, uses (delete i L) t = uses L t).
  { intros t. rewrite (uses_delete L i s) by done. unfold weight. rewrite decide_False by done. lia. }
  pose proof (fun x => delete_elem L i x) as Hin.
  constructor.
  - pose proof (length_delete L i (ex_intro _ s Hi)). pose proof (t_length _ _ HT). lia.
  - intros x Hx. by apply (t_slots _ _ HT), Hin.
  - apply (sublist_NoDup _ (slot_name <$> L)); [apply (t_names _ _ HT)|]. rewrite list_fmap_delete. apply sublist_delete.
  - intros x Hx. rewrite Huses. by apply (t_refs _ _ HT), Hin.
  - intros x Hx. by apply (t_range _ _ HT), Hin.
  - intros x Hx. by apply (t_live _ _ HT), Hin.
  - intros x t Hx Hlx Ht. destruct (t_deps _ _ HT x t (Hin x Hx) Hlx Ht) as (y & Hy & E & Hly). exists y. split; [|done].
    by destruct (elem_delete L i s y Hi Hy) as [->|].
  - apply (t_held _ _ HT).
  - intros t Hn. destruct (t_known _ _ HT t Hn) as (x & Hx & E). exists x. split; [|done].
    destruct (elem_delete L i s x Hi Hx) as [->|]; [|done]. rewrite <- E in Hn. lia.
Qed.
