(* ===== verification/ModuleCorrect.v ===== *)
(** * The module registry: correctness

    Every operation of Module.v ends and keeps the invariant of the module
    table, whatever the graph of dependencies, and frees a module's image when
    nothing refers to it any more. *)

From S2P Require Import Prelude Buffer Heap Allocator Module ModuleTable.

#[local] Open Scope Z_scope.

(** The images that modules own are allocated, and not shared. *)
Definition images (L : list module_slot) (V : gmap Z (list Z)) : Prop :=
  (forall s, s ∈ L -> owned s <> 0 -> is_Some (V !! image s)) /\
  (forall i j s s', L !! i = Some s -> L !! j = Some s' -> owned s <> 0 -> owned s' <> 0 -> image s = image s' -> i = j).

(** Everything that was allocated still is. *)
Definition keeps (V V' : gmap Z (list Z)) : Prop := forall p, is_Some (V !! p) -> is_Some (V' !! p).

Lemma images_keeps L V V' : images L V -> keeps V V' -> images L V'.
Proof. intros [H1 H2] Hk. split; [|done]. intros s Hs Ho. by apply Hk, H1. Qed.

(** A slot whose descriptor and image are the same. *)
Definition same_image (s s' : module_slot) : Prop :=
  descriptor s' = descriptor s /\ image s' = image s /\ image_size s' = image_size s /\ owned s' = owned s.

Lemma images_insert L i s s' V : images L V -> L !! i = Some s -> same_image s s' -> images (<[i := s']> L) V.
Proof.
  intros [H1 H2] Hi (_ & Ei & _ & Eo). split.
  - intros x [->|Hx]%elem_insert Ho; [rewrite Ei|by apply H1]. rewrite Eo in Ho. apply H1; [by apply list_elem_of_lookup_2 in Hi|done].
  - assert (forall j x, <[i := s']> L !! j = Some x -> exists y, L !! j = Some y /\ image y = image x /\ owned y = owned x) as Hback.
    { intros j x Hj. apply list_lookup_insert_Some in Hj as [(-> & -> & _)|(_ & Hj)]; [by exists s|by exists x]. }
    intros j k x y (x' & Hj & Ex & Eox)%Hback (y' & Hk & Ey & Eoy)%Hback. rewrite <- Ex, <- Ey, <- Eox, <- Eoy. by apply H2.
Qed.

Lemma images_delete L i V : images L V -> images (delete i L) V.
Proof.
  intros [H1 H2]. split; [intros s Hs; by apply H1, (delete_elem L i)|].
  intros j k s s' Hj Hk Ho Ho' E. rewrite list_lookup_delete in Hj, Hk.
  destruct (decide (j < i)%nat) as [Hji|Hji], (decide (k < i)%nat) as [Hki|Hki];
    rewrite ?list_lookup_delete_lt, ?list_lookup_delete_ge in * by lia.
  all: pose proof (H2 _ _ _ _ Hj Hk Ho Ho' E); lia.
Qed.

(** The memory of the code of modules, as far as the registry is concerned:
    the handles it holds, and the blocks of the heap it may free. *)
Class ModuleCode (W : Type) := { own : W -> list cstr; mine : W -> gset Z }.

Section correct.
Context {H W : Type} `{AllocatorLaws H} `{ModuleCode W}.
Notation reg := (registry H W).

Record registry_ok (r : reg) (L : list module_slot) (held : handles) (V : gmap Z (list Z)) : Prop := {
  i_modules : modules r = L ++ replicate (32 - length L) zero_slot;
  i_count : registered_modules r = Z.of_nat (length L);
  i_table : table L held;
  i_heap : holds (heap_of r) V;
  i_images : images L V;
}.

(** The rest of the state: only the symbols, or all of it. *)
Definition same_exports (r r' : reg) : Prop :=
  exports r' = exports r /\ registered_exports r' = registered_exports r.
Definition same_rest (r r' : reg) : Prop :=
  same_exports r r' /\ heap_of r' = heap_of r /\ world r' = world r /\ self_test_init_count r' = self_test_init_count r.

#[global] Instance same_rest_preorder : PreOrder same_rest.
Proof. unfold same_rest, same_exports. split; [done|]. intros r1 r2 r3. intuition congruence. Qed.
#[global] Instance same_exports_preorder : PreOrder same_exports.
Proof. unfold same_exports. split; [done|]. intros r1 r2 r3. intuition congruence. Qed.

Lemma inv_rd r L held V i s : registry_ok r L held V -> L !! i = Some s -> rd (modules r) (Z.of_nat i) = Some s.
Proof.
  intros Hi Hl. apply rd_Some. split; [lia|]. rewrite Nat2Z.id, (i_modules _ _ _ _ Hi). by apply lookup_app_l_Some.
Qed.

Lemma inv_descriptor r L held V s : registry_ok r L held V -> s ∈ L -> exists d, descriptor s = Some d /\ descriptor_ok d /\ slot_name s = name d /\ slot_deps s = deps d.
Proof.
  intros Hi Hs. destruct (t_slots _ _ (i_table _ _ _ _ Hi) s Hs) as (d & Hd & Hok). exists d. unfold slot_name, slot_deps. by rewrite Hd.
Qed.

Lemma find_slot_spec r L held V t :
  registry_ok r L held V ->
  (exists i s, find_slot r t = Some (Some (Z.of_nat i)) /\ L !! i = Some s /\ slot_name s = t) \/
  (find_slot r t = Some None /\ forall s, s ∈ L -> slot_name s <> t).
Proof.
  intros Hi. unfold find_slot. rewrite (i_count _ _ _ _ Hi), Nat2Z.id.
  destruct (for_break_rule (fun j (_ : unit) => forall i s, Z.of_nat i < j -> L !! i = Some s -> slot_name s <> t)
    (fun z => exists i s, z = Z.of_nat i /\ L !! i = Some s /\ slot_name s = t) (length L) 0 (fun index u =>
          slot ← rd (modules r) index;
          d ← descriptor slot;
          Some (if str_equal (name d) t then inr index else inl u)) tt) as [(u & E & Hu)|(z & E & i & s & -> & Hl & Hn)].
  - intros i s Hneg. lia.
  - intros j [] Hj Hnone. destruct (lookup_lt_is_Some_2 L (Z.to_nat j)) as [s Hs]; [lia|].
    pose proof (inv_rd r L held V _ _ Hi Hs) as Hrd. rewrite Z2Nat.id in Hrd by lia. rewrite Hrd.
    destruct (inv_descriptor r L held V s Hi) as (d & Hd & _ & En & _); [by apply list_elem_of_lookup_2 in Hs|].
    cbn [mbind option_bind]. rewrite Hd. cbn [mbind option_bind]. unfold str_equal. case_bool_decide as Eq.
    + right. exists j. split; [done|]. exists (Z.to_nat j), s. rewrite En. split; [lia|done].
    + left. exists tt. split; [done|]. intros i x Hlt Hx. destruct (decide (i = Z.to_nat j)) as [->|]; [|apply (Hnone i); [lia|done]].
      assert (x = s) as -> by congruence. by rewrite En.
  - right. rewrite E. split; [done|]. intros s (i & Hx)%list_elem_of_lookup. apply (Hu i); [|done]. apply lookup_lt_Some in Hx. lia.
  - left. rewrite E. by exists i, s.
Qed.

Lemma set_slot_spec r L held V held' i s s' :
  registry_ok r L held V -> L !! i = Some s -> same_image s s' -> table (<[i := s']> L) held' ->
  exists r', set_slot r (Z.of_nat i) s' = Some r' /\ registry_ok r' (<[i := s']> L) held' V /\ same_rest r r'.
Proof.
  intros Hi Hl Hsame HT. pose proof (lookup_lt_Some _ _ _ Hl) as Hlt. unfold set_slot.
  rewrite wr_ok by (rewrite (i_modules _ _ _ _ Hi), length_app; lia). rewrite Nat2Z.id, bind_some. eexists. split; [done|].
  split; [|done]. constructor; cbn.
  - rewrite (i_modules _ _ _ _ Hi), length_insert, insert_app_l by done. done.
  - rewrite length_insert. apply (i_count _ _ _ _ Hi).
  - done.
  - apply (i_heap _ _ _ _ Hi).
  - by apply (images_insert L i s); [apply (i_images _ _ _ _ Hi)|..].
Qed.

(** ** Registration *)

Definition admissible (L : list module_slot) (d : mvh_module_descriptor) : Prop :=
  descriptor_ok d /\ (forall s, s ∈ L -> slot_name s <> name d) /\ (length L < 32)%nat.

Lemma register_spec r L held V d image size owned live' :
  registry_ok r L held V -> descriptor_typed d -> (live' <> 0 -> deps d = []) ->
  (owned <> 0 -> is_Some (V !! image) /\ forall s, s ∈ L -> Module.owned s <> 0 -> Module.image s <> image) ->
  exists r' code, register_descriptor r (Some d) image size owned live' = Some (r', code) /\ same_rest r r' /\
    ((admissible L d /\ code = 0 /\
      registry_ok r' (L ++ [ModuleSlot (Some d) (if negb (live' =? 0) then MVH_MODULE_LIVE else MVH_MODULE_REGISTERED) 0 image size owned]) held V) \/
     (~ admissible L d /\ code = -1 /\ r' = r)).
Proof.
  intros Hi Ht Hlive Hown. unfold register_descriptor, admissible.
  assert (forall P : Prop, ~ P -> exists r' code, Some (r, -1) = Some (r', code) /\ same_rest r r' /\ (P /\ code = 0 /\
    registry_ok r' (L ++ [ModuleSlot (Some d) (if negb (live' =? 0) then MVH_MODULE_LIVE else MVH_MODULE_REGISTERED) 0 image size owned]) held V \/
    ~ P /\ code = -1 /\ r' = r)) as Hno by (intros P HP; exists r, (-1); split; [done|]; split; [done|by right]).
  destruct (descriptor_valid_spec d Ht) as (b & -> & Hb). rewrite bind_some.
  destruct b; cbn [negb]; [|apply Hno; intros (Hok & _); by apply Hb in Hok].
  rewrite bind_some. pose proof (proj1 Hb eq_refl) as Hok. clear Hb.
  destruct (find_slot_spec r L held V (name d) Hi) as [(i & s & -> & Hs & En)|(-> & Hnew)]; rewrite bind_some.
  { rewrite bool_decide_true by done. cbn [orb]. apply Hno. intros (_ & Hn & _). apply (Hn s); [by apply list_elem_of_lookup_2 in Hs|done]. }
  rewrite bool_decide_false by (intros []; done). cbn [orb]. rewrite (i_count _ _ _ _ Hi).
  pose proof (t_length _ _ (i_table _ _ _ _ Hi)) as Hlen. unfold MODULE_LIMIT.
  destruct (Z.eqb_spec (Z.of_nat (length L)) 32) as [Hfull|Hfull]; [apply Hno; lia|].
  rewrite wr_ok by (rewrite (i_modules _ _ _ _ Hi), length_app, length_replicate; lia). rewrite bind_some, Nat2Z.id.
  set (slot := ModuleSlot _ _ _ _ _ _). eexists _, 0. split; [done|]. split; [done|]. left.
  split; [split; [done|]; split; [done|lia]|]. split; [done|]. constructor; cbn.
  - rewrite (i_modules _ _ _ _ Hi), insert_app_r_alt, Nat.sub_diag, length_app by lia. simpl.
    replace (32 - length L)%nat with (S (32 - (length L + 1))) by lia. simpl. by rewrite <- app_assoc.
  - rewrite length_app. simpl. lia.
  - apply table_append; [apply (i_table _ _ _ _ Hi)|lia|by exists d|done|done|].
    unfold live. cbn. destruct (Z.eqb_spec live' 0); [done|]. intros _. by apply Hlive.
  - apply (i_heap _ _ _ _ Hi).
  - destruct (i_images _ _ _ _ Hi) as [H1' H2']. split.
    + intros x [Hx| ->%list_elem_of_singleton]%elem_of_app Ho; [by apply H1'|]. by apply Hown.
    + intros j k x y Hj Hk Hox Hoy E. apply lookup_app_Some in Hj as [Hj|[Hj1 Hj]], Hk as [Hk|[Hk1 Hk]].
      * by apply (H2' j k x y).
      * apply list_lookup_singleton_Some in Hk as [? <-]. cbn in Hoy, E. exfalso.
        by apply (proj2 (Hown Hoy) x); [apply list_elem_of_lookup_2 in Hj| |].
      * apply list_lookup_singleton_Some in Hj as [? <-]. cbn in Hox, E. exfalso.
        by apply (proj2 (Hown Hox) y); [apply list_elem_of_lookup_2 in Hk| |].
      * apply list_lookup_singleton_Some in Hj as [? _], Hk as [? _]. lia.
Qed.

(** ** References *)

(** The handle on [t] that a successful [module_acquire] gives. *)
Definition acquirable (L : list module_slot) (t : cstr) : Prop :=
  exists s, s ∈ L /\ slot_name s = t /\ live s /\ references s < U32_MAX.

(** Slots that differ in their reference counts only. *)
Definition same_but_refs (s s' : module_slot) : Prop := same_image s s' /\ state s' = state s.
#[global] Instance same_but_refs_preorder : PreOrder same_but_refs.
Proof.
  split; [done|]. intros s1 s2 s3 ((A1 & A2 & A3 & A4) & A5) ((B1 & B2 & B3 & B4) & B5). split; [|congruence].
  split_and!; congruence.
Qed.

Lemma acquire_spec r L held V t :
  registry_ok r L held V ->
  exists r' code, module_acquire r t = Some (r', code) /\ same_rest r r' /\
    ((acquirable L t /\ code = 0 /\ exists L', registry_ok r' L' (also held [t]) V /\ Forall2 same_but_refs L L') \/
     (~ acquirable L t /\ code = -1 /\ r' = r)).
Proof.
  intros Hi. unfold module_acquire.
  destruct (find_slot_spec r L held V t Hi) as [(i & s & -> & Hs & En)|(-> & Hno)]; rewrite bind_some.
  2:{ exists r, (-1). split; [done|]. split; [done|]. right. split; [|done]. intros (s & Hs & E & _). by apply (Hno s). }
  rewrite (inv_rd r L held V i s Hi Hs), bind_some. pose proof (list_elem_of_lookup_2 _ _ _ Hs) as Hin.
  destruct (bool_decide (state s <> MVH_MODULE_LIVE) || (references s =? U32_MAX)) eqn:E.
  - exists r, (-1). split; [done|]. split; [done|]. right. split; [|done]. intros (s' & Hs' & E' & Hl & Hmax).
    assert (s' = s) as -> by (apply (name_slot L held (i_table _ _ _ _ Hi)); [done..|congruence]).
    apply orb_true_iff in E as [E%bool_decide_eq_true|E%Z.eqb_eq]; [done|lia].
  - apply orb_false_iff in E as [E Emax]. apply bool_decide_eq_false in E. apply Z.eqb_neq in Emax.
    assert (live s) as Hl by (unfold live; by destruct (decide (state s = MVH_MODULE_LIVE))).
    pose proof (refs_bounds L held (i_table _ _ _ _ Hi) s Hin) as Hr.
    destruct (set_slot_spec r L held V (also held [t]) i s (with_references s (references s + 1)) Hi Hs) as (r' & -> & Hi' & Hrest); [done| |].
    { apply (table_reference L held); [apply (i_table _ _ _ _ Hi)|done|done|lia| |].
      - intros u. unfold also. rewrite count_one, En. destruct (decide (u = t)); lia.
      - unfold also. pose proof (t_held _ _ (i_table _ _ _ _ Hi) (slot_name s)). pose proof (count_nonneg (slot_name s) [t]). lia. }
    rewrite bind_some. exists r', 0. split; [done|]. split; [done|]. left. split; [exists s; split_and!; try done; lia|]. split; [done|].
    eexists. split; [exact Hi'|]. apply Forall2_same_length_lookup_2; [by rewrite length_insert|].
    intros j x y Hx Hy. apply list_lookup_insert_Some in Hy as [(-> & <- & _)|(_ & Hy)]; [|by simplify_eq].
    by assert (x = s) as -> by congruence.
Qed.

Lemma release_spec r L held held' V t :
  registry_ok r L held V -> (forall u, held u = also held' [t] u) -> (forall u, 0 <= held' u) ->
  exists r' L', module_release r t = Some r' /\ same_rest r r' /\ registry_ok r' L' held' V /\ Forall2 same_but_refs L L'.
Proof.
  intros Hi Hheld Hpos. unfold module_release.
  assert (held t <> 0) as Ht.
  { rewrite Hheld. unfold also. rewrite count_one, decide_True by done. specialize (Hpos t). lia. }
  destruct (t_known _ _ (i_table _ _ _ _ Hi) t Ht) as (s0 & Hs0 & En0).
  destruct (find_slot_spec r L held V t Hi) as [(i & s & -> & Hs & En)|(-> & Hno)]; [|by destruct (Hno s0)].
  rewrite bind_some, (inv_rd r L held V i s Hi Hs), bind_some. pose proof (list_elem_of_lookup_2 _ _ _ Hs) as Hin.
  pose proof (t_refs _ _ (i_table _ _ _ _ Hi) s Hin) as Hrefs. pose proof (uses_nonneg L (slot_name s)) as Hu.
  pose proof (t_held _ _ (i_table _ _ _ _ Hi) t) as Hht. rewrite En in *.
  rewrite (proj2 (Z.eqb_neq _ _)) by lia. cbn [negb].
  pose proof (t_live _ _ (i_table _ _ _ _ Hi) s Hin ltac:(lia)) as Hl.
  pose proof (refs_bounds L held (i_table _ _ _ _ Hi) s Hin) as Hr.
  destruct (set_slot_spec r L held V held' i s (with_references s (references s - 1)) Hi Hs) as (r' & E & Hi' & Hrest); [done| |].
  { apply (table_reference L held held' i s (-1)); [apply (i_table _ _ _ _ Hi)|done|done|lia| |by rewrite En].
    intros u. rewrite Hheld. unfold also. rewrite count_one, En. destruct (decide (u = t)); lia. }
  exists r'. eexists. split; [exact E|]. split; [done|]. split; [exact Hi'|]. apply Forall2_same_length_lookup_2; [by rewrite length_insert|].
  intros j x y Hx Hy. apply list_lookup_insert_Some in Hy as [(-> & <- & _)|(_ & Hy)]; [|by simplify_eq].
  by assert (x = s) as -> by congruence.
Qed.

Lemma registry_ok_ext r L held held' V : registry_ok r L held V -> (forall t, held t = held' t) -> registry_ok r L held' V.
Proof. intros [] E. constructor; try done. by apply (table_ext L held). Qed.

Lemma also_also held l l' t : also (also held l) l' t = also held (l ++ l') t.
Proof. unfold also. rewrite count_app. lia. Qed.
Lemma also_nonneg held l t : (forall u, 0 <= held u) -> 0 <= also held l t.
Proof. intros Hp. unfold also. specialize (Hp t). pose proof (count_nonneg t l). lia. Qed.

Lemma same_refs_image L L' s : Forall2 same_but_refs L L' -> s ∈ L' -> exists s0, s0 ∈ L /\ image s = image s0 /\ owned s = owned s0.
Proof.
  intros Hf (i & Hi)%list_elem_of_lookup. destruct (Forall2_lookup_r _ _ _ _ _ Hf Hi) as (s0 & Hs0 & ((_ & E1 & _ & E2) & _)).
  exists s0. split; [by apply list_elem_of_lookup_2 in Hs0|done].
Qed.

(** ** Changes of the table *)

(** What loading does to a slot: it keeps what is being loaded, and what is
    live stays live. *)
Definition progress (s s' : module_slot) : Prop :=
  same_image s s' /\ (state s = MVH_MODULE_LOADING <-> state s' = MVH_MODULE_LOADING) /\
  (state s = MVH_MODULE_UNLOADING <-> state s' = MVH_MODULE_UNLOADING) /\ (live s -> live s').
Definition grown : relation (list module_slot) := Forall2 progress.

#[global] Instance progress_preorder : PreOrder progress.
Proof.
  split; [intros s; unfold progress, same_image; tauto|]. intros s1 s2 s3 (E1 & A1 & B1 & C1) (E2 & A2 & B2 & C2). unfold progress, same_image in *. intuition congruence.
Qed.
#[global] Instance grown_preorder : PreOrder grown.
Proof. unfold grown. apply _. Qed.
#[global] Instance keeps_preorder : PreOrder keeps.
Proof. split; [by intros V p|]. intros V1 V2 V3 H12 H23 p Hp. by apply H23, H12. Qed.

Lemma refs_grown L L' : Forall2 same_but_refs L L' -> grown L L'.
Proof.
  intros Hf. eapply Forall2_impl; [exact Hf|]. intros s s' [Hi Hs]. split; [done|]. unfold live. by rewrite Hs.
Qed.

Lemma grown_lookup L L' i s : grown L L' -> L !! i = Some s -> exists s', L' !! i = Some s' /\ progress s s'.
Proof. intros Hg Hi. destruct (Forall2_lookup_l _ _ _ _ _ Hg Hi) as (s' & ? & ?). by exists s'. Qed.

Lemma progress_name s s' : progress s s' -> slot_name s' = slot_name s.
Proof. intros ((E & _) & _). unfold slot_name. by rewrite E. Qed.

Definition is_live (L : list module_slot) (t : cstr) : Prop := exists s, s ∈ L /\ slot_name s = t /\ live s.

Lemma grown_live L L' t : grown L L' -> is_live L t -> is_live L' t.
Proof.
  intros Hg (s & (i & Hi)%list_elem_of_lookup & En & Hl). destruct (grown_lookup L L' i s Hg Hi) as (s' & Hi' & Hp).
  exists s'. split; [by apply list_elem_of_lookup_2 in Hi'|]. split; [by rewrite (progress_name s)|]. by apply Hp.
Qed.

(** ** The code of modules *)

(** What calls the code of a module makes: it works on its own memory, it
    allocates, and it frees blocks that are not [safe] from it; it takes handles
    on modules, and gives back those it has ([l] lists them).  These are the
    symbols that [register_kernel_modules] exports to modules. *)
Inductive code_run (safe : Z -> Prop) : reg -> list cstr -> reg -> list cstr -> Prop :=
  | run_done r l : code_run safe r l r l
  | run_memory r l r1 r' l' :
      modules r1 = modules r -> registered_modules r1 = registered_modules r -> same_exports r r1 ->
      (forall V, holds (heap_of r) V -> exists V1, holds (heap_of r1) V1 /\ forall p, safe p -> is_Some (V !! p) -> is_Some (V1 !! p)) ->
      code_run safe r1 l r' l' -> code_run safe r l r' l'
  | run_acquire r l t r1 code r' l' :
      module_acquire r t = Some (r1, code) -> code_run safe r1 (if code =? 0 then t :: l else l) r' l' -> code_run safe r l r' l'
  | run_release r l t l1 r1 r' l' :
      l ≡ₚ t :: l1 -> module_release r t = Some r1 -> code_run safe r1 l1 r' l' -> code_run safe r l r' l'.

Lemma also_perm held l l' t : l ≡ₚ l' -> also held l t = also held l' t.
Proof. intros E. unfold also, count. by rewrite E. Qed.

Lemma code_run_spec safe r l r' l' :
  code_run safe r l r' l' -> forall L held V,
  registry_ok r L (also held l) V -> (forall t, 0 <= held t) -> (forall s, s ∈ L -> owned s <> 0 -> safe (image s)) ->
  exists L' V', registry_ok r' L' (also held l') V' /\ Forall2 same_but_refs L L' /\ same_exports r r' /\
    forall p, safe p -> is_Some (V !! p) -> is_Some (V' !! p).
Proof.
  induction 1 as [r l|r l r1 r' l' Em En Hx Hmem _ IH|r l t r1 code r' l' Ha _ IH|r l t l1 r1 r' l' Hl Hrel _ IH]; intros L held V Hi Hpos Hsafe.
  - by exists L, V.
  - destruct (Hmem V (i_heap _ _ _ _ Hi)) as (V1 & Hh & Hk). destruct (i_images _ _ _ _ Hi) as [Himg Hdist].
    destruct (IH L held V1) as (L' & V' & Hi' & Hf & Hx' & Hk'); [|done|done|].
    { constructor; [rewrite Em|rewrite En| | |]; [apply (i_modules _ _ _ _ Hi)|apply (i_count _ _ _ _ Hi)|apply (i_table _ _ _ _ Hi)|done|].
      split; [|done]. intros s Hs Ho. apply Hk; [by apply Hsafe|by apply Himg]. }
    exists L', V'. split; [done|]. split; [done|]. split; [by trans r1|]. intros p Hp Hsome. by apply Hk', Hk.
  - destruct (acquire_spec r L (also held l) V t Hi) as (r2 & code2 & E & Hrest & Hcase). rewrite Ha in E. injection E as <- <-.
    destruct Hcase as [(_ & -> & L1 & Hi1 & Hf)|(_ & -> & ->)]; cbn [Z.eqb] in IH.
    + destruct (IH L1 held V) as (L' & V' & Hi' & Hf' & Hx' & Hk'); [|done| |].
      * apply (registry_ok_ext r1 L1 (also (also held l) [t])); [done|]. intros u. rewrite also_also. apply also_perm. by rewrite (Permutation_app_comm l).
      * intros s Hs Ho. destruct (same_refs_image L L1 s Hf Hs) as (s0 & Hs0 & -> & E0). apply Hsafe; [done|congruence].
      * exists L', V'. split; [done|]. split; [by trans L1|]. split; [trans r1; [apply Hrest|done]|done].
    + by apply IH.
  - destruct (release_spec r L (also held l) (also held l1) V t Hi) as (r2 & L1 & E & Hrest & Hi1 & Hf).
    { intros u. rewrite (also_perm held l (t :: l1) u Hl), also_also. apply also_perm. by rewrite (Permutation_app_comm l1). }
    { intros u. by apply also_nonneg. }
    rewrite Hrel in E. injection E as <-. destruct (IH L1 held V) as (L' & V' & Hi' & Hf' & Hx' & Hk'); [done|done| |].
    + intros s Hs Ho. destruct (same_refs_image L L1 s Hf Hs) as (s0 & Hs0 & -> & E0). apply Hsafe; [done|congruence].
    + exists L', V'. split; [done|]. split; [by trans L1|]. split; [trans r1; [apply Hrest|done]|done].
Qed.

Notation handles_of r := (own (world r)).

(** What a caller sees: [held] are the handles held by callers, the rest
    belongs to the code of modules. *)
Record inv (r : reg) (L : list module_slot) (held : handles) (V : gmap Z (list Z)) : Prop := {
  i_ok :> registry_ok r L (also held (handles_of r)) V;
  i_held : forall t, 0 <= held t;
}.

(** The blocks of the heap that are not of the code of modules stay. *)
Definition foreign (r : reg) (V : gmap Z (list Z)) (r' : reg) (V' : gmap Z (list Z)) : Prop :=
  forall p, is_Some (V !! p) -> p ∉ mine (world r) -> is_Some (V' !! p) /\ p ∉ mine (world r').

(** A call of a module's code: it frees neither the images of modules nor what
    is not its own, and its memory says what it has. *)
Definition lawful (r : reg) (L : list module_slot) (V : gmap Z (list Z)) (r' : reg) : Prop :=
  exists l, code_run (fun p => p ∈ mine (world r) -> exists s, s ∈ L /\ owned s <> 0 /\ image s = p) r (handles_of r) r' l /\
    l ≡ₚ handles_of r' /\ forall p, p ∈ mine (world r') -> p ∈ mine (world r) \/ V !! p = None.

Lemma lawful_spec r L held V r' :
  inv r L held V -> lawful r L V r' ->
  exists L' V', inv r' L' held V' /\ Forall2 same_but_refs L L' /\ same_exports r r' /\ foreign r V r' V'.
Proof.
  intros Hi (l & Hrun & Hl & Hmine). destruct (code_run_spec _ _ _ _ _ Hrun L held V (i_ok _ _ _ _ Hi) (i_held _ _ _ _ Hi)) as (L' & V' & Hi' & Hf & Hx & Hk).
  { intros s Hs Ho _. by exists s. }
  exists L', V'. split; [|split; [done|]; split; [done|]].
  - split; [|apply (i_held _ _ _ _ Hi)]. apply (registry_ok_ext r' L' (also held l)); [done|]. intros t. by apply also_perm.
  - intros p Hp Hn. split; [by apply Hk|]. intros Hm. destruct (Hmine p Hm) as [|E]; [done|]. rewrite E in Hp. by destruct Hp.
Qed.

(** Handles that a caller takes or gives back, in either order. *)
Lemma inv_also r L held l V : registry_ok r L (also (also held (handles_of r)) l) V -> (forall t, 0 <= held t) -> inv r L (also held l) V.
Proof.
  intros Hi Hpos. split; [|intros t; by apply also_nonneg]. apply (registry_ok_ext r L _ _ V Hi). intros t. rewrite !also_also. apply also_perm, Permutation_app_comm.
Qed.
Lemma inv_also_inv r L held l V : inv r L (also held l) V -> registry_ok r L (also (also held (handles_of r)) l) V.
Proof. intros [Hi _]. apply (registry_ok_ext r L _ _ V Hi). intros t. rewrite !also_also. apply also_perm, Permutation_app_comm. Qed.

Lemma inv_ext r L held held' V : inv r L held V -> (forall t, held t = held' t) -> inv r L held' V.
Proof.
  intros [Hi Hp] E. split; [|intros t; by rewrite <- E]. apply (registry_ok_ext r L _ _ V Hi). intros t. unfold also. by rewrite E.
Qed.

Lemma same_rest_world r r' : same_rest r r' -> world r' = world r.
Proof. by intros (_ & _ & ? & _). Qed.

Lemma inv_rest r r' L held V : registry_ok r' L (also held (handles_of r)) V -> same_rest r r' -> (forall t, 0 <= held t) -> inv r' L held V.
Proof. intros Hi Hr Hp. split; [|done]. by rewrite (same_rest_world r r'). Qed.

Lemma also_take held l n t : l !! n = Some t -> forall u, also held (take (S n) l) u = also (also held (take n l)) [t] u.
Proof. intros Hn u. unfold also. rewrite (take_S_r _ _ _ Hn), count_app. lia. Qed.

(** Giving back the first [n] dependencies, last first. *)
Lemma release_down_spec r L held V d n :
  registry_ok r L (also held (take n (deps d))) V -> descriptor_ok d -> (n <= length (deps d))%nat -> (forall t, 0 <= held t) ->
  exists r' L', release_down d (Z.of_nat n) r = Some r' /\ same_rest r r' /\ registry_ok r' L' held V /\ Forall2 same_but_refs L L'.
Proof.
  intros Hi Hd Hn Hpos. unfold release_down. rewrite Nat2Z.id.
  destruct (for_loop_rule (fun k r' => exists L', registry_ok r' L' (also held (take (n - Z.to_nat k) (deps d))) V /\ same_rest r r' /\ Forall2 same_but_refs L L')
    n 0 (fun k r => dep ← dependency d (Z.of_nat n - 1 - k); module_release r dep) r) as (r' & -> & L' & Hi' & Hrest & Hf).
  - exists L. rewrite Nat.sub_0_r. split; [done|]. split; [done|]. done.
  - intros k r1 Hk (L1 & Hi1 & Hrest & Hf). pose proof (ok_length d Hd) as Hlen.
    destruct (dependency_ok d (Z.of_nat n - 1 - k) Hd) as (t & Et & Ht); [lia|]. rewrite Et, bind_some.
    replace (Z.to_nat (Z.of_nat n - 1 - k)) with (n - Z.to_nat (k + 1))%nat in Ht by lia.
    destruct (release_spec r1 L1 _ (also held (take (n - Z.to_nat (k + 1)) (deps d))) V t Hi1) as (r2 & L2 & E & Hrest2 & Hi2 & Hf2).
    + intros u. replace (n - Z.to_nat k)%nat with (S (n - Z.to_nat (k + 1))) by lia. by apply also_take.
    + intros u. unfold also. specialize (Hpos u). pose proof (count_nonneg u (take (n - Z.to_nat (k + 1)) (deps d))). lia.
    + exists r2. split; [done|]. exists L2. split; [done|]. split; [by trans r1|].
      by trans L1.
  - exists r', L'. split; [done|]. split; [done|]. split; [|done]. apply (registry_ok_ext r' L' _ held V Hi').
    intros t. unfold also. replace (n - Z.to_nat (0 + Z.of_nat n))%nat with 0%nat by lia. rewrite take_0. change (count t []) with 0. lia.
Qed.

Lemma live_name r L held V s t : registry_ok r L held V -> s ∈ L -> slot_name s = t -> (is_live L t <-> live s).
Proof.
  intros Hi Hs En. split; [|by exists s]. intros (x & Hx & Ex & Hl).
  assert (x = s) as -> by (apply (name_slot L held (i_table _ _ _ _ Hi)); [done..|congruence]). done.
Qed.

Lemma not_live_refs r L held V s : registry_ok r L held V -> s ∈ L -> ~ live s -> references s = 0.
Proof.
  intros Hi Hs Hl. destruct (decide (references s = 0)) as [|Hn]; [done|]. by destruct Hl; apply (t_live _ _ (i_table _ _ _ _ Hi)).
Qed.

Lemma weight_live t s : weight t (with_state s MVH_MODULE_LIVE) = count t (slot_deps s).
Proof. unfold weight. by rewrite decide_True. Qed.
Lemma weight_dead t s : ~ live s -> weight t s = 0.
Proof. intros Hl. unfold weight. by rewrite decide_False. Qed.

(** A module that is not live changes to another state in which it is not. *)
Lemma set_dead r L held V i s st :
  registry_ok r L held V -> L !! i = Some s -> ~ live s -> st <> MVH_MODULE_LIVE ->
  exists r', set_slot r (Z.of_nat i) (with_state s st) = Some r' /\ registry_ok r' (<[i := with_state s st]> L) held V /\ same_rest r r'.
Proof.
  intros Hi Hs Hl Hst. pose proof (list_elem_of_lookup_2 _ _ _ Hs) as Hin.
  apply (set_slot_spec r L held V held i s); [done|done|done|].
  apply (table_state L held held i s st); [apply (i_table _ _ _ _ Hi)|done|by apply (not_live_refs r L held V)| |apply (t_held _ _ (i_table _ _ _ _ Hi))|done].
  intros t. rewrite (weight_dead t s), (weight_dead t (with_state s st)) by done. lia.
Qed.

(** ** Unloading *)

Context (call_exit : Z -> reg -> reg).

(** An exit function is called when nothing refers to the module any more and
    its dependencies are still live. *)
Definition exit_lawful : Prop :=
  forall r L held V s d,
    inv r L held V -> s ∈ L -> descriptor s = Some d -> exit d <> 0 -> state s = MVH_MODULE_UNLOADING ->
    (forall t, t ∈ deps d -> is_live L t /\ 0 < held t) ->
    lawful r L V (call_exit (exit d) r).

Lemma release_up_spec r L held V d :
  registry_ok r L (also held (deps d)) V -> descriptor_ok d -> (forall t, 0 <= held t) ->
  exists r' L', release_up d r = Some r' /\ same_rest r r' /\ registry_ok r' L' held V /\ Forall2 same_but_refs L L'.
Proof.
  intros Hi Hd Hpos. unfold release_up. pose proof (ok_length d Hd) as Hlen.
  destruct (for_loop_rule (fun k r' => exists L', registry_ok r' L' (also held (drop (Z.to_nat k) (deps d))) V /\ same_rest r r' /\ Forall2 same_but_refs L L')
    (Z.to_nat (dependency_count d)) 0 (fun index r => dep ← dependency d index; module_release r dep) r) as (r' & -> & L' & Hi' & Hrest & Hf).
  - by exists L.
  - intros k r1 Hk (L1 & Hi1 & Hrest & Hf).
    destruct (dependency_ok d k Hd) as (t & Et & Ht); [lia|]. rewrite Et, bind_some.
    destruct (release_spec r1 L1 _ (also held (drop (Z.to_nat (k + 1)) (deps d))) V t Hi1) as (r2 & L2 & E & Hrest2 & Hi2 & Hf2).
    + intros u. unfold also. rewrite (drop_S _ _ _ Ht), count_cons, count_one. replace (Z.to_nat (k + 1)) with (S (Z.to_nat k)) by lia. lia.
    + intros u. by apply also_nonneg.
    + exists r2. split; [done|]. exists L2. split; [done|]. split; [by trans r1|by trans L1].
  - exists r', L'. split; [done|]. split; [done|]. split; [|done]. apply (registry_ok_ext r' L' _ held V Hi').
    intros t. unfold also. rewrite drop_ge by lia. change (count t []) with 0. lia.
Qed.

(** The loop that closes the gap. *)
Lemma shift_loop (M : list module_slot) (i n : nat) :
  (i < n)%nat -> (n <= length M)%nat ->
  exists l, for_loop (Z.to_nat (Z.of_nat n - (Z.of_nat i + 1))) (Z.of_nat i + 1) (fun index l => slot ← rd l index; wr l (index - 1) slot) M = Some l /\
    length l = length M /\ (forall k, (k < n - 1)%nat -> l !! k = M !! (if decide (k < i)%nat then k else S k)) /\
    (forall k, (n - 1 <= k)%nat -> l !! k = M !! k).
Proof.
  intros Hin Hn.
  destruct (for_loop_rule (fun j l => length l = length M /\ forall k, l !! k = M !! (if decide ((k < i)%nat \/ j <= Z.of_nat k + 1) then k else S k))
    (Z.to_nat (Z.of_nat n - (Z.of_nat i + 1))) (Z.of_nat i + 1) (fun index l => slot ← rd l index; wr l (index - 1) slot) M) as (l & E & Hlen & Hl).
  - split; [done|]. intros k. rewrite decide_True by lia. done.
  - intros j l Hj [Hlen Hl]. destruct (rd_ok l j) as [x Hx]; [lia|]. rewrite Hx, bind_some.
    rewrite wr_ok by lia. eexists. split; [done|]. split; [by rewrite length_insert|]. intros k.
    destruct (decide (k = Z.to_nat (j - 1))) as [->|Hne].
    + rewrite list_lookup_insert_eq by lia. apply rd_Some in Hx as [_ Hx]. rewrite Hl, decide_True in Hx by lia.
      rewrite decide_False by lia. rewrite <- Hx. f_equal. lia.
    + rewrite list_lookup_insert_ne by done. rewrite Hl. destruct (decide _), (decide _); try lia; done.
  - exists l. split; [done|]. split; [done|]. split; intros k Hk; rewrite Hl.
    + destruct (decide _), (decide _); try lia; done.
    + by rewrite decide_True by lia.
Qed.

Lemma remove_slot_spec r L held V i s :
  registry_ok r L held V -> L !! i = Some s -> ~ live s ->
  exists r', remove_slot r (Z.of_nat i) = Some r' /\ registry_ok r' (delete i L) held V /\ same_rest r r'.
Proof.
  intros Hi Hs Hdead. pose proof (lookup_lt_Some _ _ _ Hs) as Hlt. pose proof (t_length _ _ (i_table _ _ _ _ Hi)) as Hmax.
  pose proof (i_modules _ _ _ _ Hi) as Em. assert (length (modules r) = 32%nat) as Hlen by (rewrite Em, length_app, length_replicate; lia).
  pose proof (length_delete L i (ex_intro _ s Hs)) as Hdel.
  unfold remove_slot. rewrite (i_count _ _ _ _ Hi).
  destruct (shift_loop (modules r) i (length L)) as (l & -> & Hl & Hk & Hk'); [done|lia|]. rewrite bind_some.
  rewrite u32_small by (unfold fits; change (2 ^ 32) with 4294967296; lia). rewrite wr_ok by lia. rewrite bind_some. eexists. split; [done|].
  split; [|done]. constructor; cbn.
  - rewrite Hdel. apply list_eq. intros k. destruct (decide (k < length L - 1)%nat) as [Hkl|Hkl].
    + rewrite list_lookup_insert_ne, Hk by lia. rewrite lookup_app_l by lia. rewrite Em, list_lookup_delete.
      destruct (decide (k < i)%nat); apply lookup_app_l; lia.
    + rewrite lookup_app_r by lia. rewrite Hdel. destruct (decide (k = length L - 1)%nat) as [->|].
      * replace (Z.to_nat (Z.of_nat (length L) - 1)) with (length L - 1)%nat by lia. rewrite list_lookup_insert_eq by lia. rewrite Nat.sub_diag. rewrite lookup_replicate_2 by lia. done.
      * rewrite list_lookup_insert_ne, Hk', Em, lookup_app_r by lia. destruct (decide (k < 32)%nat).
        -- by rewrite !lookup_replicate_2 by lia.
        -- by rewrite !lookup_ge_None_2 by (rewrite length_replicate; lia).
  - rewrite Hdel. lia.
  - by apply (table_remove L held i s); [apply (i_table _ _ _ _ Hi)|..].
  - apply (i_heap _ _ _ _ Hi).
  - by apply images_delete, (i_images _ _ _ _ Hi).
Qed.

(** A module that can be unloaded. *)
Definition unloadable (s : module_slot) : Prop :=
  live s /\ references s = 0 /\ forall d, descriptor s = Some d -> flags d &&& MVH_MODULE_BUILTIN = 0.

(** What unloading does: the exit function runs while the module is marked and
    everything else is as before, the module alone leaves the table, and its
    image is freed. *)
Definition unload_effect (r : reg) (L : list module_slot) (V : gmap Z (list Z)) (t : cstr) (r' : reg) (L' : list module_slot) (V' : gmap Z (list Z)) : Prop :=
  exists i s d r1 r2 V2, L !! i = Some s /\ slot_name s = t /\ unloadable s /\ descriptor s = Some d /\
    same_rest r r1 /\ modules r1 !! i = Some (with_state s MVH_MODULE_UNLOADING) /\
    r2 = (if exit d =? 0 then r1 else call_exit (exit d) r1) /\ world r' = world r2 /\
    (exit d = 0 -> V2 = V) /\ foreign r V r2 V2 /\
    Forall2 same_but_refs (delete i L) L' /\ V' = (if owned s =? 0 then V2 else delete (image s) V2).

(** The calls up to the removal of the slot. *)
Lemma unload_slot_spec r L held V i s d :
  exit_lawful -> inv r L held V -> L !! i = Some s -> live s -> references s = 0 -> descriptor s = Some d ->
  exists r1 r2 r3 L3 V2 r4 s3, set_slot r (Z.of_nat i) (with_state s MVH_MODULE_UNLOADING) = Some r1 /\ same_rest r r1 /\
    modules r1 !! i = Some (with_state s MVH_MODULE_UNLOADING) /\ r2 = (if negb (exit d =? 0) then call_exit (exit d) r1 else r1) /\
    (exit d = 0 -> V2 = V) /\ foreign r V r2 V2 /\ same_exports r1 r2 /\
    release_up d r2 = Some r3 /\ remove_slot r3 (Z.of_nat i) = Some r4 /\ same_rest r2 r4 /\
    registry_ok r3 L3 (also held (handles_of r2)) V2 /\ L3 !! i = Some s3 /\ same_image s s3 /\
    registry_ok r4 (delete i L3) (also held (handles_of r2)) V2 /\ Forall2 same_but_refs (delete i L) (delete i L3).
Proof.
  intros Hlaw Hi Hs Hl Hrefs Ed. pose proof (list_elem_of_lookup_2 _ _ _ Hs) as Hin. pose proof (i_held _ _ _ _ Hi) as Hpos.
  destruct (inv_descriptor r L _ V s Hi Hin) as (d' & Ed' & Hd & _ & Edeps). simplify_eq.
  destruct (set_slot_spec r L _ V (also (also held (handles_of r)) (deps d)) i s (with_state s MVH_MODULE_UNLOADING) (i_ok _ _ _ _ Hi) Hs) as (r1 & E1 & Hi1 & Hx1); [done| |].
  { apply (table_state L (also held (handles_of r))); [apply (i_table _ _ _ _ (i_ok _ _ _ _ Hi))|done|done| | |done].
    - intros u. rewrite (weight_dead u (with_state s MVH_MODULE_UNLOADING)) by done. unfold weight. rewrite decide_True, Edeps by done. unfold also. lia.
    - intros u. apply also_nonneg. intros v. by apply also_nonneg. }
  set (s1 := with_state s MVH_MODULE_UNLOADING) in *. set (L1 := <[i := s1]> L) in *.
  assert (L1 !! i = Some s1) as Hs1 by (by apply list_lookup_insert_eq, (lookup_lt_Some _ _ _ Hs)).
  assert (inv r1 L1 (also held (deps d)) V) as Hi1'.
  { apply inv_also; [|done]. by rewrite (same_rest_world r r1). }
  exists r1, (if negb (exit d =? 0) then call_exit (exit d) r1 else r1).
  assert (exists L2 V2, inv (if negb (exit d =? 0) then call_exit (exit d) r1 else r1) L2 (also held (deps d)) V2 /\ Forall2 same_but_refs L1 L2 /\
    same_exports r1 (if negb (exit d =? 0) then call_exit (exit d) r1 else r1) /\ (exit d = 0 -> V2 = V) /\
    foreign r V (if negb (exit d =? 0) then call_exit (exit d) r1 else r1) V2) as (L2 & V2 & Hi2 & Hf2 & Hx2 & HV2 & Hfor).
  { destruct (Z.eqb_spec (exit d) 0) as [|Hne]; cbn [negb].
    - exists L1, V. split; [done|]. split; [done|]. split; [done|]. split; [done|]. intros p Hp Hn. by rewrite (same_rest_world r r1).
    - destruct (lawful_spec r1 L1 (also held (deps d)) V (call_exit (exit d) r1) Hi1') as (L2 & V2 & ? & ? & ? & Hfor).
      + apply (Hlaw r1 L1 _ V s1 d Hi1'); [by apply list_elem_of_lookup_2 in Hs1|done|done|done|]. intros u Hu. split.
        * destruct (t_deps _ _ (i_table _ _ _ _ (i_ok _ _ _ _ Hi)) s u Hin Hl) as (x & Hx & Ex & Hlx); [by rewrite Edeps|].
          exists x. split; [|done]. destruct (elem_insert_2 L i s1 x s Hs Hx) as [->|]; [|done]. exfalso.
          apply (not_own_dep L _ (i_table _ _ _ _ (i_ok _ _ _ _ Hi)) s Hin). by rewrite Edeps, Ex.
        * unfold also. specialize (Hpos u). pose proof (count_nonneg u (deps d)). apply count_pos in Hu. lia.
      + exists L2, V2. split; [done|]. split; [done|]. split; [done|]. split; [done|].
        intros p Hp Hn. apply Hfor; [done|]. by rewrite (same_rest_world r r1). }
  generalize dependent (if negb (exit d =? 0) then call_exit (exit d) r1 else r1). intros r2 Hi2 Hx2 Hfor.
  destruct (release_up_spec r2 L2 (also held (handles_of r2)) V2 d) as (r3 & L3 & E3 & Hx3 & Hi3 & Hf3); [by apply inv_also_inv|done|intros u; by apply also_nonneg|].
  destruct (Forall2_lookup_l _ _ _ _ _ Hf2 Hs1) as (s2 & Hs2 & [Hsame2 Est2]).
  destruct (Forall2_lookup_l _ _ _ _ _ Hf3 Hs2) as (s3 & Hs3 & [Hsame3 Est3]).
  destruct (remove_slot_spec r3 L3 _ V2 i s3 Hi3 Hs3) as (r4 & E4 & Hi4 & Hx4); [unfold live; by rewrite Est3, Est2|].
  exists r3, L3, V2, r4, s3. split; [done|]. split; [done|]. split; [rewrite (i_modules _ _ _ _ Hi1); by apply lookup_app_l_Some|].
  split; [done|]. split; [done|]. split; [done|]. split; [done|]. split; [done|]. split; [done|]. split; [by trans r3|].
  split; [done|]. split; [done|]. split; [unfold same_image in *; cbn in *; intuition congruence|]. split; [done|].
  replace (delete i L) with (delete i L1) by (unfold L1; apply delete_insert_here). apply Forall2_delete. by trans L2.
Qed.

Lemma unload_spec r L held V t :
  exit_lawful -> inv r L held V ->
  exists r' code L' V', module_unload call_exit r t = Some (inl (r', code)) /\ same_exports r r' /\ inv r' L' held V' /\
    ((code = 0 /\ unload_effect r L V t r' L' V') \/
     (code = -1 /\ r' = r /\ L' = L /\ V' = V /\ forall s, s ∈ L -> slot_name s = t -> ~ unloadable s)).
Proof.
  intros Hlaw Hi. pose proof (i_held _ _ _ _ Hi) as Hpos. unfold module_unload.
  destruct (find_slot_spec r L _ V t Hi) as [(i & s & -> & Hs & En)|(-> & Hno)]; rewrite bind_some.
  2:{ exists r, (-1), L, V. split; [done|]. split; [done|]. split; [done|]. right. split_and!; try done. intros s Hs E. by destruct (Hno s). }
  rewrite (inv_rd r L _ V i s Hi Hs), bind_some. pose proof (list_elem_of_lookup_2 _ _ _ Hs) as Hin.
  destruct (inv_descriptor r L _ V s Hi Hin) as (d & Ed & Hd & _ & Edeps). rewrite Ed, bind_some.
  destruct (_ || _) eqn:E.
  { exists r, (-1), L, V. split; [done|]. split; [done|]. split; [done|]. right. split_and!; try done. intros x Hx Ex (Hl & Hr & Hf).
    assert (x = s) as -> by (apply (name_slot L _ (i_table _ _ _ _ (i_ok _ _ _ _ Hi))); [done..|congruence]).
    rewrite Hr, (Hf d Ed), bool_decide_false in E by (by intros []). done. }
  apply orb_false_iff in E as [E Eflags]. apply orb_false_iff in E as [E Erefs]. apply bool_decide_eq_false in E. bool_to_prop.
  assert (live s) as Hl by (unfold live; by destruct (decide (state s = MVH_MODULE_LIVE))). clear E.
  assert (unloadable s) as Hun by (split; [done|]; split; [done|]; intros d' Ed'; congruence).
  destruct (unload_slot_spec r L held V i s d Hlaw Hi Hs Hl Erefs Ed) as (r1 & r2 & r3 & L3 & V2 & r4 & s3 & -> & Hx1 & Hm1 & E2 & HV2 & Hfor & Hx2 & E3 & E4 & Hx4 & Hi3 & Hs3 & Hsame & Hi4 & Hf).
  rewrite bind_some, <- E2, E3, bind_some, E4, bind_some.
  assert (same_exports r r4) as Hx by (trans r1; [apply Hx1|]; trans r2; [done|apply Hx4]).
  assert (Heff : forall r' V', world r' = world r2 -> V' = (if owned s =? 0 then V2 else delete (image s) V2) -> unload_effect r L V t r' (delete i L3) V').
  { intros r' V' Ew EV. exists i, s, d, r1, r2, V2. split_and!; try done. rewrite E2. by destruct (exit d =? 0). }
  destruct (Z.eqb_spec (owned s) 0) as [Ho|Ho]; cbn [negb].
  - exists r4, 0, (delete i L3), V2. split; [done|]. split; [done|]. split; [by apply (inv_rest r2)|]. left. split; [done|].
    apply Heff; [by apply (same_rest_world r2)|done].
  - destruct (i_images _ _ _ _ Hi3) as [Himg Hdist]. destruct Hsame as (_ & Eimg & _ & Eown).
    destruct (holds_free (heap_of r4) V2 (image s)) as (h & -> & Hh).
    { apply (i_heap _ _ _ _ Hi4). }
    { rewrite <- Eimg. apply Himg; [by apply list_elem_of_lookup_2 in Hs3|congruence]. }
    rewrite bind_some. exists (with_heap r4 h), 0, (delete i L3), (delete (image s) V2). split; [done|]. split; [done|]. split.
    + split; [|done]. cbn [world with_heap]. rewrite (same_rest_world r2 r4) by done.
      destruct Hi4 as [A B C D [F G]]. constructor; try done. split; [|done]. intros x Hx' Hox. rewrite lookup_delete_ne; [by apply F|].
      intros Eq. apply delete_elem_ne in Hx' as (j & Hji & Hj). apply Hji, (Hdist j i x s3); [done..|congruence|congruence].
    + left. split; [done|]. apply Heff; [exact (same_rest_world r2 r4 Hx4)|done].
Qed.

End correct.
