(* ===== verification/ModuleLoad.v ===== *)
(** * Loading modules

    When [module_load] succeeds, which init functions it calls, in which order
    and in which states, and that its recursion ends whatever the graph of
    dependencies. *)

From S2P Require Import Prelude Buffer Heap Allocator Module ModuleTable ModuleCorrect.

#[local] Open Scope Z_scope.

(** ** When a module can be loaded *)

(** A module that [module_load] starts to load. *)
Definition idle (s : module_slot) : Prop := state s <> MVH_MODULE_LOADING /\ state s <> MVH_MODULE_UNLOADING /\ ~ live s.

(** The module is live, or it is idle and so are its dependencies: finite
    derivations leave out modules that are missing, busy or on a cycle. *)
Inductive ready (L : list module_slot) : cstr -> Prop :=
  | ready_live t : is_live L t -> ready L t
  | ready_idle s : s ∈ L -> idle s -> (forall t, t ∈ slot_deps s -> ready L t) -> ready L (slot_name s).

Definition depends (L : list module_slot) (t u : cstr) : Prop := exists s, s ∈ L /\ slot_name s = t /\ u ∈ slot_deps s.

Lemma progress_deps s s' : progress s s' -> slot_deps s' = slot_deps s.
Proof. intros ((E & _) & _). unfold slot_deps. by rewrite E. Qed.

Lemma progress_idle s s' : progress s s' -> idle s' -> idle s.
Proof. intros (_ & H1 & H2 & H3) (A & B & C). unfold idle. tauto. Qed.

Section grown.
Context (L L' : list module_slot) (Hg : grown L L').

Lemma grown_elem s : s ∈ L -> exists s', s' ∈ L' /\ progress s s'.
Proof using Hg.
  intros (i & Hi)%list_elem_of_lookup. destruct (grown_lookup L L' i s Hg Hi) as (s' & Hs' & Hp). exists s'. split; [by apply list_elem_of_lookup_2 in Hs'|done].
Qed.
Lemma grown_elem_back s' : s' ∈ L' -> exists s, s ∈ L /\ progress s s'.
Proof using Hg.
  intros (i & Hi)%list_elem_of_lookup. destruct (Forall2_lookup_r _ _ _ _ _ Hg Hi) as (s & Hs & Hp). exists s. split; [by apply list_elem_of_lookup_2 in Hs|done].
Qed.
Lemma grown_names : slot_name <$> L' = slot_name <$> L.
Proof using Hg.
  apply list_eq_Forall2, Forall2_fmap. apply Forall2_flip. eapply Forall2_impl; [exact Hg|]. intros s s' Hp. by apply progress_name.
Qed.
Lemma grown_depends t u : depends L' t u -> depends L t u.
Proof using Hg.
  intros (s' & Hs' & <- & Hu). destruct (grown_elem_back s' Hs') as (s & Hs & Hp). exists s. split; [done|].
  rewrite (progress_name s s' Hp), <- (progress_deps s s' Hp). done.
Qed.
Lemma grown_ready t : ready L t -> ready L' t.
Proof using Hg.
  induction 1 as [t Ht|s Hs Hi _ IH]; [by apply ready_live, (grown_live L)|].
  destruct (grown_elem s Hs) as (s' & Hs' & Hp). rewrite <- (progress_name s s' Hp). destruct (decide (live s')) as [Hl|Hl].
  - apply ready_live. by exists s'.
  - apply ready_idle; [done| |by rewrite (progress_deps s s' Hp)]. destruct Hp as (_ & H1 & H2 & _), Hi as (A & B & _). unfold idle. tauto.
Qed.
End grown.

Lemma name_unique (L : list module_slot) s s' : NoDup (slot_name <$> L) -> s ∈ L -> s' ∈ L -> slot_name s = slot_name s' -> s = s'.
Proof.
  intros Hn (i & Hi)%list_elem_of_lookup (j & Hj)%list_elem_of_lookup E.
  assert (i = j) as ->; [|congruence]. apply (NoDup_lookup _ i j (slot_name s) Hn); rewrite list_lookup_fmap; [by rewrite Hi|by rewrite Hj, E].
Qed.

Lemma refs_live L L' t : Forall2 same_but_refs L L' -> (is_live L' t <-> is_live L t).
Proof.
  intros Hf. split; [|by apply grown_live, refs_grown]. intros (s' & (i & Hi)%list_elem_of_lookup & <- & Hl).
  destruct (Forall2_lookup_r _ _ _ _ _ Hf Hi) as (s & Hs & ((E & _) & Est)). exists s. split; [by apply list_elem_of_lookup_2 in Hs|].
  unfold slot_name, live in *. by rewrite E, <- Est.
Qed.

(** Taking a module out, by marking it, does not matter to what its loading
    needs. *)
Section marked.
Context (L : list module_slot) (Hn : NoDup (slot_name <$> L)) (i : nat) (s : module_slot) (Hs : L !! i = Some s) (Hidle : idle s).
Notation L1 := (<[i := with_state s MVH_MODULE_LOADING]> L).

Lemma marked_elem x : x ∈ L1 -> x = with_state s MVH_MODULE_LOADING \/ (x ∈ L /\ slot_name x <> slot_name s).
Proof using Hn Hs.
  intros (j & Hj)%list_elem_of_lookup. apply list_lookup_insert_Some in Hj as [(_ & -> & _)|(Hne & Hj)]; [by left|right].
  pose proof (list_elem_of_lookup_2 _ _ _ Hj) as Hx. split; [done|]. intros E. apply Hne.
  apply (NoDup_lookup _ i j (slot_name s) Hn); rewrite list_lookup_fmap; [by rewrite Hs|by rewrite Hj, <- E].
Qed.
Lemma marked_elem_2 x : x ∈ L -> slot_name x <> slot_name s -> x ∈ L1.
Proof using Hs. intros Hx Hne. by destruct (elem_insert_2 L i (with_state s MVH_MODULE_LOADING) x s Hs Hx) as [->|]. Qed.

Lemma marked_live t : is_live L1 t <-> is_live L t.
Proof using Hn Hs Hidle.
  pose proof (list_elem_of_lookup_2 _ _ _ Hs) as Hin. split; intros (x & Hx & <- & Hl).
  - destruct (marked_elem x Hx) as [->|[Hx' _]]; [done|]. by exists x.
  - exists x. split; [|done]. apply marked_elem_2; [done|]. intros E. assert (x = s) as -> by (by apply (name_unique L)). by apply Hidle.
Qed.

Lemma marked_idle x : x ∈ L1 -> idle x -> x ∈ L /\ slot_name x <> slot_name s.
Proof using Hn Hs. intros Hx Hi. destruct (marked_elem x Hx) as [->|]; [|done]. by destruct (proj1 Hi). Qed.

Lemma marked_depends t u : depends L1 t u -> depends L t u.
Proof using Hn Hs.
  intros (x & Hx & <- & Hu). destruct (marked_elem x Hx) as [->|[Hx' _]]; [exists s; split; [by apply list_elem_of_lookup_2 in Hs|done]|by exists x].
Qed.

Lemma marked_ready_back t : ready L1 t -> ready L t.
Proof using Hn Hs Hidle.
  induction 1 as [t Ht|x Hx Hi _ IH]; [by apply ready_live, marked_live|]. by apply ready_idle; [apply marked_idle| |].
Qed.

Lemma marked_ready t : ready L t -> ready L1 t \/ forall u, u ∈ slot_deps s -> ready L1 u.
Proof using Hn Hs Hidle.
  induction 1 as [t Ht|x Hx Hi _ IH]; [left; by apply ready_live, marked_live|].
  assert (Hall : (forall u, u ∈ slot_deps x -> ready L1 u) \/ forall u, u ∈ slot_deps s -> ready L1 u).
  { clear Hi. induction (slot_deps x) as [|u l IHl]; [left; by intros u ?%not_elem_of_nil|].
    destruct (IH u ltac:(left)) as [Hu|]; [|by right]. destruct IHl as [Hl|]; [intros v Hv; apply IH; by right| |by right].
    left. intros v [->|Hv]%elem_of_cons; [done|by apply Hl]. }
  destruct Hall as [Hall|]; [|by right]. destruct (decide (slot_name x = slot_name s)) as [E|Hne].
  - right. assert (x = s) as -> by (by apply (name_unique L); [|..|apply list_elem_of_lookup_2 in Hs|]). done.
  - left. apply ready_idle; [by apply marked_elem_2|done|done].
Qed.

(** What is needed to load the module. *)
Lemma ready_deps : ready L (slot_name s) <-> forall u, u ∈ slot_deps s -> ready L1 u.
Proof using Hn Hs Hidle.
  pose proof (list_elem_of_lookup_2 _ _ _ Hs) as Hin. split.
  - intros Hr. destruct (marked_ready _ Hr) as [Hr1|]; [|done]. exfalso. inversion Hr1 as [t Ht|x Hx Hi _ E]; subst.
    + apply marked_live in Ht as (x & Hx & E & Hl). assert (x = s) as -> by (by apply (name_unique L)). by apply Hidle.
    + by apply marked_idle in Hx as [_ ?].
  - intros Hall. apply ready_idle; [done|done|]. intros u Hu. by apply marked_ready_back, Hall.
Qed.
End marked.

(** ** What loading does *)

(** The events of a load: an init function that returned, and a dependency
    whose reference counter was at its maximum. *)
Inductive load_event := InitDone (t : cstr) (code : Z) | CounterFull (t : cstr).
Definition succeeded (e : load_event) : Prop := match e with InitDone _ code => code = 0 | CounterFull _ => False end.
#[export] Instance succeeded_dec e : Decision (succeeded e).
Proof. destruct e; apply _. Defined.

Section load.
Context {H W : Type} `{AllocatorLaws H} `{ModuleCode W}.
Notation reg := (registry H W).
Notation handles_of r := (own (world r)).
Context (call_init : Z -> reg -> reg * Z).

(** The calls of init functions between two states, and nothing else that
    changes the heap, the memory of modules or the exported symbols: each is
    called while its module is marked and its dependencies are live. *)
Inductive init_calls : reg -> gmap Z (list Z) -> list load_event -> reg -> gmap Z (list Z) -> Prop :=
  | calls_none r V r' : same_rest r r' -> init_calls r V [] r' V
  | calls_init r V r1 s d code r2 V2 tr r' V' :
      same_rest r r1 -> s ∈ modules r1 -> state s = MVH_MODULE_LOADING -> descriptor s = Some d ->
      (forall t, t ∈ deps d -> is_live (modules r1) t) ->
      (if init d =? 0 then (r1, 0) else call_init (init d) r1) = (r2, code) -> (init d = 0 -> V2 = V) -> foreign r1 V r2 V2 ->
      init_calls r2 V2 tr r' V' -> init_calls r V (InitDone (name d) code :: tr) r' V'
  | calls_full r V r1 s t tr r' V' :
      same_rest r r1 -> s ∈ modules r1 -> slot_name s = t -> references s = U32_MAX ->
      init_calls r1 V tr r' V' -> init_calls r V (CounterFull t :: tr) r' V'.

Lemma calls_before r r0 V tr r' V' : same_rest r r0 -> init_calls r0 V tr r' V' -> init_calls r V tr r' V'.
Proof.
  intros Hr Hc. destruct Hc; [apply calls_none; by etrans|eapply calls_init; [by etrans|done..]|eapply calls_full; [by etrans|done..]].
Qed.
Lemma calls_app r V tr r1 V1 tr' r' V' : init_calls r V tr r1 V1 -> init_calls r1 V1 tr' r' V' -> init_calls r V (tr ++ tr') r' V'.
Proof.
  induction 1 as [r V r1 Hr| |]; intros Hc; cbn [app]; [by apply (calls_before r r1)|eapply calls_init; eauto|eapply calls_full; eauto].
Qed.
Lemma calls_after r V tr r' V' r2 : init_calls r V tr r' V' -> same_rest r' r2 -> init_calls r V tr r2 V'.
Proof. intros Hc Hr. rewrite <- (app_nil_r tr). apply (calls_app r V tr r' V'); [done|by apply calls_none]. Qed.

Lemma foreign_rest (r r' : reg) V : same_rest r r' -> foreign r V r' V.
Proof. intros Hr p Hp Hn. by rewrite (same_rest_world r r'). Qed.
Lemma foreign_trans (r : reg) V (r1 : reg) V1 (r2 : reg) V2 : foreign r V r1 V1 -> foreign r1 V1 r2 V2 -> foreign r V r2 V2.
Proof. intros H1' H2' p Hp Hn. destruct (H1' p Hp Hn). by apply H2'. Qed.

Lemma calls_foreign r V tr r' V' : init_calls r V tr r' V' -> foreign r V r' V'.
Proof.
  induction 1 as [r V r' Hr|r V r1 s d code r2 V2 tr r' V' Hr _ _ _ _ _ _ Hf _ IH|r V r1 s t tr r' V' Hr _ _ _ _ IH].
  - by apply foreign_rest.
  - apply (foreign_trans r V r1 V); [by apply foreign_rest|]. by apply (foreign_trans r1 V r2 V2).
  - apply (foreign_trans r V r1 V); [by apply foreign_rest|done].
Qed.

(** The effect of loading the modules [roots], as far as it goes: only idle
    modules that they need are started, each once and after its dependencies,
    and the first failure is the last event. *)
Record stage (r : reg) (L : list module_slot) (V : gmap Z (list Z)) (roots : list cstr) (tr : list load_event)
    (r' : reg) (L' : list module_slot) (V' : gmap Z (list Z)) : Prop := {
  g_calls : init_calls r V tr r' V';
  g_exports : same_exports r r';
  g_grown : grown L L';
  g_live : forall t, is_live L' t <-> is_live L t \/ InitDone t 0 ∈ tr;
  g_order : forall i t c, tr !! i = Some (InitDone t c) -> exists s, s ∈ L /\ slot_name s = t /\ idle s /\
    (exists root, root ∈ roots /\ rtc (depends L) root t) /\
    forall u, u ∈ slot_deps s -> is_live L u \/ InitDone u 0 ∈ take i tr;
  g_once : forall i j t c c', tr !! i = Some (InitDone t c) -> tr !! j = Some (InitDone t c') -> i = j;
  g_last : forall i e, tr !! i = Some e -> ~ succeeded e -> S i = length tr;
}.

Lemma stage_refs r L V r' L' : same_rest r r' -> Forall2 same_but_refs L L' -> stage r L V [] [] r' L' V.
Proof.
  intros Hr Hf. constructor; try done.
  - by apply calls_none.
  - apply Hr.
  - by apply refs_grown.
  - intros t. rewrite (refs_live L L' t Hf). split; [by left|]. by intros [|?%not_elem_of_nil].
Qed.

Lemma stage_full r L V s : s ∈ modules r -> references s = U32_MAX -> stage r L V [] [CounterFull (slot_name s)] r L V.
Proof.
  intros Hs Hr. constructor; try done.
  - eapply calls_full; [done|exact Hs|done|done|]. by apply calls_none.
  - intros t. split; [by left|]. intros [|E%list_elem_of_singleton]; done.
  - intros i t c E%list_lookup_singleton_Some. by destruct E.
  - intros i j t c c' E%list_lookup_singleton_Some. by destruct E.
  - intros i e E%list_lookup_singleton_Some. by destruct E as [-> _].
Qed.

Lemma stage_roots r L V roots roots' tr r' L' V' : stage r L V roots tr r' L' V' -> roots ⊆ roots' -> stage r L V roots' tr r' L' V'.
Proof.
  intros [] Hsub. constructor; try done. intros i t c E. destruct (g_order0 i t c E) as (s & ? & ? & ? & (root & Hr & ?) & ?).
  exists s. split_and!; try done. exists root. split; [by apply Hsub|done].
Qed.

Lemma stage_trans r L V R1 tr1 r1 L1 V1 R2 tr2 r2 L2 V2 :
  NoDup (slot_name <$> L) -> Forall succeeded tr1 -> stage r L V R1 tr1 r1 L1 V1 -> stage r1 L1 V1 R2 tr2 r2 L2 V2 ->
  stage r L V (R1 ++ R2) (tr1 ++ tr2) r2 L2 V2.
Proof.
  intros Hn Hok S1 S2. pose proof (g_grown _ _ _ _ _ _ _ _ S1) as Hg.
  assert (Hlater : forall i t c, tr2 !! i = Some (InitDone t c) -> ~ InitDone t 0 ∈ tr1).
  { intros i t c E Hin. destruct (g_order _ _ _ _ _ _ _ _ S2 i t c E) as (s & Hs & En & Hi & _).
    destruct (proj2 (g_live _ _ _ _ _ _ _ _ S1 t) (or_intror Hin)) as (x & Hx & Ex & Hl).
    assert (x = s) as -> by (apply (name_unique L1); [by rewrite (grown_names L L1 Hg)|done|done|congruence]). by apply Hi. }
  assert (Hzero : forall i t c, tr1 !! i = Some (InitDone t c) -> InitDone t 0 ∈ tr1).
  { intros i t c E. pose proof (Forall_lookup_1 _ _ _ _ Hok E) as Ec. cbn in Ec. subst c. by apply list_elem_of_lookup_2 in E. }
  constructor.
  - by apply (calls_app r V tr1 r1 V1); [apply (g_calls _ _ _ _ _ _ _ _ S1)|apply (g_calls _ _ _ _ _ _ _ _ S2)].
  - trans r1; [apply (g_exports _ _ _ _ _ _ _ _ S1)|apply (g_exports _ _ _ _ _ _ _ _ S2)].
  - trans L1; [done|apply (g_grown _ _ _ _ _ _ _ _ S2)].
  - intros t. rewrite (g_live _ _ _ _ _ _ _ _ S2), (g_live _ _ _ _ _ _ _ _ S1), elem_of_app. tauto.
  - intros i t c E. apply lookup_app_Some in E as [E|[Hge E]].
    + destruct (g_order _ _ _ _ _ _ _ _ S1 i t c E) as (s & Hs & En & Hi & (root & Hr & Hd) & Hdeps). exists s. split_and!; try done.
      * exists root. split; [apply elem_of_app; by left|done].
      * rewrite take_app_le by (apply lookup_lt_Some in E; lia). done.
    + destruct (g_order _ _ _ _ _ _ _ _ S2 _ t c E) as (s1 & Hs1 & En & Hi & (root & Hr & Hd) & Hdeps).
      destruct (grown_elem_back L L1 Hg s1 Hs1) as (s & Hs & Hp). exists s. split; [done|]. rewrite <- (progress_name s s1 Hp). split; [done|].
      split; [by apply (progress_idle s s1)|]. split.
      * exists root. split; [apply elem_of_app; by right|]. apply (rtc_subrel (depends L1)); [|done]. intros x y. by apply grown_depends.
      * rewrite <- (progress_deps s s1 Hp). intros u Hu. rewrite take_app_ge, elem_of_app by done.
        destruct (Hdeps u Hu) as [Hl%(g_live _ _ _ _ _ _ _ _ S1)|]; tauto.
  - intros i j t c c' Ei Ej. apply lookup_app_Some in Ei as [Ei|[Hi Ei]], Ej as [Ej|[Hj Ej]].
    + by apply (g_once _ _ _ _ _ _ _ _ S1 i j t c c').
    + exfalso. apply (Hlater _ _ _ Ej). by apply (Hzero i t c).
    + exfalso. apply (Hlater _ _ _ Ei). by apply (Hzero j t c').
    + pose proof (g_once _ _ _ _ _ _ _ _ S2 _ _ _ _ _ Ei Ej). lia.
  - intros i e E Hs. apply lookup_app_Some in E as [E|[Hge E]].
    + destruct Hs. by apply (Forall_lookup_1 _ _ _ _ Hok E).
    + pose proof (g_last _ _ _ _ _ _ _ _ S2 _ _ E Hs). rewrite length_app. lia.
Qed.

(** Everything that is live afterwards could be loaded before. *)
Lemma stage_ready r L V roots tr r' L' V' t : stage r L V roots tr r' L' V' -> is_live L' t -> ready L t.
Proof.
  intros Hst [Hl|(i & Hi)%list_elem_of_lookup]%(g_live _ _ _ _ _ _ _ _ Hst); [by apply ready_live|].
  revert t Hi. induction i as [i IH] using lt_wf_ind. intros t Hi.
  destruct (g_order _ _ _ _ _ _ _ _ Hst i t 0 Hi) as (s & Hs & <- & Hidle & _ & Hdeps). apply ready_idle; [done|done|].
  intros u Hu. destruct (Hdeps u Hu) as [|(j & Hj)%list_elem_of_lookup]; [by apply ready_live|].
  apply lookup_take_Some in Hj as [Hj Hlt]. by apply (IH j).
Qed.

(** The effect of [module_load]. *)
Record load_effect (r : reg) (L : list module_slot) (V : gmap Z (list Z)) (t : cstr) (tr : list load_event) (code : Z)
    (r' : reg) (L' : list module_slot) (V' : gmap Z (list Z)) : Prop := {
  e_stage : stage r L V [t] tr r' L' V';
  e_live : code = 0 <-> is_live L' t;
  e_ready : code = 0 <-> ready L t /\ Forall succeeded tr;
  e_state : forall s, s ∈ L -> slot_name s = t -> idle s ->
    exists s', s' ∈ L' /\ slot_name s' = t /\ state s' = if code =? 0 then MVH_MODULE_LIVE else MVH_MODULE_FAILED;
}.

(** ** The recursion *)

(** The number of modules that are not being loaded bounds the recursion. *)
Definition loadable (L : list module_slot) : nat := length (filter (fun s => state s <> MVH_MODULE_LOADING) L).

Lemma grown_loadable L L' : grown L L' -> loadable L' = loadable L.
Proof.
  unfold loadable. induction 1 as [|s s' L L' Hp Hg IH]; [done|]. rewrite !filter_cons. destruct Hp as (_ & Hiff & _).
  destruct (decide (state s <> MVH_MODULE_LOADING)), (decide (state s' <> MVH_MODULE_LOADING)); simpl; [by rewrite IH|tauto|tauto|done].
Qed.

Lemma loading_loadable L i s :
  L !! i = Some s -> state s <> MVH_MODULE_LOADING -> (loadable (<[i := with_state s MVH_MODULE_LOADING]> L) < loadable L)%nat.
Proof.
  unfold loadable. revert i. induction L as [|x L IH]; intros [|i] Hi Hs; simplify_eq/=; rewrite !filter_cons.
  - rewrite decide_False by (intros E; by apply E). rewrite decide_True by done. simpl. lia.
  - specialize (IH i Hi Hs). destruct (decide _); simpl; lia.
Qed.

Lemma loadable_bound L : (length L <= 32)%nat -> (loadable L < LOAD_DEPTH)%nat.
Proof. intros Hl. unfold loadable. pose proof (length_filter (fun s => state s <> MVH_MODULE_LOADING) L). change LOAD_DEPTH with 33%nat. lia. Qed.

(** An init function is called when the module is being loaded and all its
    dependencies are live and referenced. *)
Definition init_lawful : Prop :=
  forall r L held V s d,
    inv r L held V -> s ∈ L -> descriptor s = Some d -> init d <> 0 -> state s = MVH_MODULE_LOADING ->
    (forall t, t ∈ deps d -> is_live L t /\ 0 < held t) ->
    lawful r L V (call_init (init d) r).1.

Definition load_ok (load : reg -> cstr -> option (reg * Z)) (bound : nat) : Prop :=
  forall r L held V t, inv r L held V -> (loadable L < bound)%nat ->
    exists r' code L' V' tr, load r t = Some (r', code) /\ inv r' L' held V' /\ load_effect r L V t tr code r' L' V'.

Lemma inv_names r L held V : inv r L held V -> NoDup (slot_name <$> L).
Proof. intros Hi. apply (t_names _ _ (i_table _ _ _ _ (i_ok _ _ _ _ Hi))). Qed.

(** One dependency: it is loaded and a reference to it is taken. *)
Lemma dependency_spec load bound r L held V t :
  load_ok load bound -> inv r L held V -> (loadable L < bound)%nat ->
  exists r2 code L2 V2 tr, load r t = Some (r2, code) /\ stage r L V [t] tr r2 L2 V2 /\
    (code = 0 /\ Forall succeeded tr /\
       (exists r3 L3, module_acquire r2 t = Some (r3, 0) /\ inv r3 L3 (also held [t]) V2 /\ stage r2 L2 V2 [] [] r3 L3 V2 /\ is_live L3 t) \/
     code = 0 /\ Forall succeeded tr /\ inv r2 L2 held V2 /\ module_acquire r2 t = Some (r2, -1) /\ stage r2 L2 V2 [] [CounterFull t] r2 L2 V2 \/
     code <> 0 /\ inv r2 L2 held V2 /\ ~ (ready L t /\ Forall succeeded tr)).
Proof.
  intros Hload Hi Hb. destruct (Hload r L held V t Hi Hb) as (r2 & code & L2 & V2 & tr & E & Hi2 & Heff).
  exists r2, code, L2, V2, tr. split; [done|]. split; [apply (e_stage _ _ _ _ _ _ _ _ _ Heff)|].
  destruct (Z.eq_dec code 0) as [->|Hne].
  2:{ right. right. split; [done|]. split; [done|]. by rewrite <- (e_ready _ _ _ _ _ _ _ _ _ Heff). }
  pose proof (proj1 (e_live _ _ _ _ _ _ _ _ _ Heff) eq_refl) as Hl. pose proof (proj2 (proj1 (e_ready _ _ _ _ _ _ _ _ _ Heff) eq_refl)) as Hok.
  destruct (acquire_spec r2 L2 _ V2 t Hi2) as (r3 & code & Ea & Hrest & [(_ & -> & L3 & Hi3 & Hf3)|(Hno & -> & ->)]).
  - left. split; [done|]. split; [done|]. exists r3, L3. split; [done|]. split.
    { rewrite <- (same_rest_world r2 r3 Hrest) in Hi3. apply inv_also; [done|apply (i_held _ _ _ _ Hi2)]. }
    split; [by apply stage_refs|]. by apply (refs_live L2 L3).
  - right. left. split; [done|]. split; [done|]. split; [done|]. split; [done|]. destruct Hl as (s & Hs & <- & Hl).
    apply stage_full.
    + rewrite (i_modules _ _ _ _ (i_ok _ _ _ _ Hi2)). apply elem_of_app. by left.
    + pose proof (refs_bounds L2 _ (i_table _ _ _ _ (i_ok _ _ _ _ Hi2)) s Hs). destruct (Z.eq_dec (references s) U32_MAX) as [|Hne]; [done|].
      destruct Hno. exists s. split_and!; try done. lia.
Qed.

Lemma load_dependencies_spec load bound r L held V d :
  load_ok load bound -> inv r L held V -> (loadable L < bound)%nat -> descriptor_ok d ->
  exists r' n result L' V' tr, load_dependencies load d r = Some (r', Z.of_nat n, result) /\ (n <= length (deps d))%nat /\
    inv r' L' (also held (take n (deps d))) V' /\ stage r L V (deps d) tr r' L' V' /\
    (result = 0 /\ n = length (deps d) /\ (forall t, t ∈ deps d -> is_live L' t) /\ Forall succeeded tr \/
     result = -1 /\ ~ ((forall t, t ∈ deps d -> ready L t) /\ Forall succeeded tr)).
Proof.
  intros Hload Hi Hb Hd. unfold load_dependencies. pose proof (ok_length d Hd) as Hlen. set (n := length (deps d)) in *.
  pose proof (inv_names r L held V Hi) as Hnames.
  set (P := fun (j : Z) (r' : reg) => exists L' V' tr, inv r' L' (also held (take (Z.to_nat j) (deps d))) V' /\
    stage r L V (take (Z.to_nat j) (deps d)) tr r' L' V' /\ Forall succeeded tr /\ forall t, t ∈ take (Z.to_nat j) (deps d) -> is_live L' t).
  set (Q := fun p : reg * Z => exists k L' V' tr, p.2 = Z.of_nat k /\ (k <= n)%nat /\ inv p.1 L' (also held (take k (deps d))) V' /\
    stage r L V (deps d) tr p.1 L' V' /\ ~ ((forall t, t ∈ deps d -> ready L t) /\ Forall succeeded tr)).
  match goal with |- context [for_break ?c 0 ?f r] =>
    destruct (for_break_rule P Q c 0 f r) as [(r' & -> & L' & V' & tr & Hi' & Hst & Hok & Hl)|([r' z] & -> & k & L' & V' & tr & Hz & Hk & Hi' & Hst & Hno)]
  end.
  - exists L, V, []. cbn [Z.to_nat]. rewrite take_0. split; [|split; [by apply stage_refs|]; split; [done|by intros t ?%not_elem_of_nil]].
    apply (inv_ext r L held _ V Hi). intros t. unfold also. change (count t []) with 0. lia.
  - intros j r1 Hj (L1 & V1 & tr1 & Hi1 & Hst1 & Hok1 & Hl1).
    destruct (dependency_ok d j Hd) as (t & Et & Ht); [lia|]. rewrite Et, bind_some. pose proof (g_grown _ _ _ _ _ _ _ _ Hst1) as Hg1.
    assert (Hin : t ∈ deps d) by (by apply list_elem_of_lookup_2 in Ht).
    assert (Hsub : forall l', l' ⊆ deps d -> take (Z.to_nat j) (deps d) ++ l' ⊆ deps d).
    { intros l' Hl' x [Hx|Hx]%elem_of_app; [by apply (subseteq_take (Z.to_nat j))|by apply Hl']. }
    destruct (dependency_spec load bound r1 L1 _ V1 t Hload Hi1) as (r2 & code & L2 & V2 & tr2 & -> & Hst2 & Hcase).
    { by rewrite (grown_loadable L L1). }
    rewrite bind_some. pose proof (stage_trans _ _ _ _ _ _ _ _ _ _ _ _ _ Hnames Hok1 Hst1 Hst2) as Hst12.
    destruct Hcase as [(-> & Hok2 & r3 & L3 & Ea & Hi3 & Hst3 & Hlive)|[(-> & Hok2 & Hi2 & Ea & Hst3)|(Hne & Hi2 & Hno)]].
    + cbn [negb Z.eqb]. rewrite Ea, bind_some. cbn [negb Z.eqb]. left. exists r3. split; [done|].
      assert (Forall succeeded (tr1 ++ tr2)) as Hok by (by apply Forall_app).
      exists L3, V2, ((tr1 ++ tr2) ++ []). replace (Z.to_nat (j + 1)) with (S (Z.to_nat j)) by lia. split.
      { apply (inv_ext r3 L3 _ _ V2 Hi3). intros u. symmetry. by apply also_take. }
      split.
      { rewrite (take_S_r _ _ _ Ht). eapply stage_roots; [eapply stage_trans; [exact Hnames|exact Hok|exact Hst12|exact Hst3]|]. by rewrite app_nil_r. }
      split; [by rewrite app_nil_r|]. intros u Hu. rewrite (take_S_r _ _ _ Ht) in Hu. apply elem_of_app in Hu as [Hu| ->%list_elem_of_singleton]; [|done].
      apply (grown_live L1 L3); [|by apply Hl1]. trans L2; [apply (g_grown _ _ _ _ _ _ _ _ Hst2)|apply (g_grown _ _ _ _ _ _ _ _ Hst3)].
    + cbn [negb Z.eqb]. rewrite Ea, bind_some. cbn [negb Z.eqb]. right. exists (r2, j). split; [done|].
      exists (Z.to_nat j), L2, V2, ((tr1 ++ tr2) ++ [CounterFull t]). cbn [fst snd]. split; [lia|]. split; [lia|]. split; [done|]. split.
      { eapply stage_roots; [eapply stage_trans; [exact Hnames|by apply Forall_app|exact Hst12|exact Hst3]|].
        rewrite app_nil_r. apply Hsub. by intros x ->%list_elem_of_singleton. }
      intros [_ [_ Hbad]%Forall_app]. exact (proj1 (Forall_singleton _ _) Hbad).
    + rewrite (proj2 (Z.eqb_neq _ _) Hne). cbn [negb]. right. exists (r2, j). split; [done|].
      exists (Z.to_nat j), L2, V2, (tr1 ++ tr2). cbn [fst snd]. split; [lia|]. split; [lia|]. split; [done|]. split.
      { eapply stage_roots; [exact Hst12|]. apply Hsub. by intros x ->%list_elem_of_singleton. }
      intros [Hr [_ Hs]%Forall_app]. apply Hno. split; [|done]. apply (grown_ready L L1 Hg1). by apply Hr.
  - rewrite bind_some. replace (Z.to_nat (0 + Z.of_nat (Z.to_nat (dependency_count d)))) with n in * by lia.
    rewrite (take_ge (deps d) n) in Hst, Hl by done. exists r', n, 0, L', V', tr. rewrite Hlen. split; [done|]. split; [done|]. split; [done|]. split; [done|]. by left.
  - rewrite bind_some. cbn [fst snd] in *. subst z. exists r', k, (-1), L', V', tr. split; [done|]. split; [done|]. split; [done|]. split; [done|]. by right.
Qed.

(** The end of a load: the module becomes live with the references its loader
    took, or it has failed. *)
Lemma finish_spec r L held V i s d (result : Z) :
  inv r L (if result =? 0 then also held (deps d) else held) V -> L !! i = Some s -> state s = MVH_MODULE_LOADING -> descriptor s = Some d ->
  (forall t, 0 <= held t) -> (result = 0 -> forall t, t ∈ deps d -> is_live L t) ->
  let s' := with_state s (if result =? 0 then MVH_MODULE_LIVE else MVH_MODULE_FAILED) in
  exists r', set_slot r (Z.of_nat i) s' = Some r' /\ inv r' (<[i := s']> L) held V /\ same_rest r r'.
Proof.
  intros Hi Hs Hst Hd Hpos Hlive. pose proof (list_elem_of_lookup_2 _ _ _ Hs) as Hin. cbv zeta.
  assert (~ live s) as Hdead by (unfold live; by rewrite Hst).
  destruct (Z.eqb_spec result 0) as [E0|Hne].
  - apply inv_also_inv in Hi.
    destruct (set_slot_spec r L _ V (also held (handles_of r)) i s (with_state s MVH_MODULE_LIVE) Hi Hs) as (r' & E & Hi' & Hrest); [done| |].
    { apply (table_state L (also (also held (handles_of r)) (deps d))); [apply (i_table _ _ _ _ Hi)|done|by apply (not_live_refs r L _ V _ Hi)| | |].
      - intros t. rewrite (weight_dead t s), weight_live by done. unfold slot_deps, also. rewrite Hd. lia.
      - intros t. by apply also_nonneg.
      - intros _ t Ht. unfold slot_deps in Ht. rewrite Hd in Ht. by apply Hlive. }
    exists r'. split; [done|]. split; [by apply (inv_rest r)|done].
  - destruct (set_dead r L _ V i s MVH_MODULE_FAILED (i_ok _ _ _ _ Hi) Hs Hdead) as (r' & E & Hi' & Hrest); [done|].
    exists r'. split; [done|]. split; [by apply (inv_rest r)|done].
Qed.

Lemma grown_finish L L1 L2 i s s2 s3 :
  L !! i = Some s -> idle s -> L1 = <[i := with_state s MVH_MODULE_LOADING]> L ->
  grown L1 L2 -> L2 !! i = Some s2 -> same_image s2 s3 -> state s3 <> MVH_MODULE_LOADING -> state s3 <> MVH_MODULE_UNLOADING ->
  grown L (<[i := s3]> L2).
Proof.
  intros Hs (H1' & H2' & Hl) -> Hg Hs2 Hsame H3 H4. pose proof (Forall2_length _ _ _ Hg) as Hlen. rewrite length_insert in Hlen.
  apply Forall2_same_length_lookup_2; [by rewrite length_insert|]. intros j x y Hx Hy.
  destruct (decide (i = j)) as [<-|Hne].
  - rewrite list_lookup_insert_eq in Hy by (by apply lookup_lt_Some in Hs2). simplify_eq.
    destruct (grown_lookup _ L2 i (with_state s MVH_MODULE_LOADING) Hg) as (s2' & E & Hp); [by apply list_lookup_insert_eq, (lookup_lt_Some _ _ _ Hs)|].
    simplify_eq. destruct Hp as (Hi2 & _). unfold progress, same_image in *. cbn in *. split; [intuition congruence|]. split; [tauto|]. split; tauto.
  - rewrite list_lookup_insert_ne in Hy by done. destruct (grown_lookup _ L2 j x Hg) as (y' & E & Hp); [by rewrite list_lookup_insert_ne|]. by simplify_eq.
Qed.

(** The load of one module from those of its dependencies, [tr], and of the
    call of its own init function, [tr'], where it comes to that. *)
Section finish.
Context (r r1 r2 r4 r5 : reg) (L L2 L4 : list module_slot) (V V2 V4 : gmap Z (list Z)) (i : nat) (s s4 s5 : module_slot) (d : mvh_module_descriptor).
Context (tr tr' : list load_event).
Notation L1 := (<[i := with_state s MVH_MODULE_LOADING]> L).
Notation L5 := (<[i := s5]> L4).
Context (Hn : NoDup (slot_name <$> L)) (Hs : L !! i = Some s) (Hidle : idle s) (Hd : descriptor s = Some d).
Context (Hr1 : same_rest r r1) (Hst : stage r1 L1 V (deps d) tr r2 L2 V2).
Context (Hcalls : init_calls r2 V2 tr' r4 V4) (Hx4 : same_exports r2 r4) (Hf4 : Forall2 same_but_refs L2 L4) (Hr5 : same_rest r4 r5).
Context (Hs4 : L4 !! i = Some s4) (Hsame : same_image s4 s5) (Hnot : state s5 <> MVH_MODULE_LOADING /\ state s5 <> MVH_MODULE_UNLOADING).
Context (Hlive : live s5 <-> tr' = [InitDone (name d) 0]).
Context (Hown : tr' = [] \/ (exists c, tr' = [InitDone (name d) c]) /\ Forall succeeded tr /\ forall t, t ∈ deps d -> is_live L2 t).

Let Hg2 : grown L1 L2 := g_grown _ _ _ _ _ _ _ _ Hst.

Lemma finish_name : slot_name s = name d.
Proof using Hd. unfold slot_name. by rewrite Hd. Qed.

Lemma finish_grown : grown L L5.
Proof using Hs Hidle Hst Hf4 Hs4 Hsame Hnot.
  apply (grown_finish L L1 L4 i s s4 s5); [done|done|done| |done|done|apply Hnot|apply Hnot]. trans L2; [exact Hg2|by apply refs_grown].
Qed.

Lemma finish_s5 : slot_name s5 = name d /\ s5 ∈ L5.
Proof using Hs Hidle Hd Hst Hf4 Hs4 Hsame Hnot.
  assert (s5 ∈ L5) as Hin by (by apply (elem_inserted _ _ _ s4)). split; [|done].
  destruct (grown_lookup L L5 i s finish_grown Hs) as (x & Hx & Hp). rewrite list_lookup_insert_eq in Hx by (by apply lookup_lt_Some in Hs4).
  injection Hx as <-. rewrite (progress_name s s5 Hp). apply finish_name.
Qed.

Lemma finish_live t : is_live L5 t <-> is_live L t \/ InitDone t 0 ∈ tr ++ tr'.
Proof using All.
  rewrite elem_of_app. pose proof (g_live _ _ _ _ _ _ _ _ Hst t) as Hlt. rewrite (marked_live L Hn i s Hs Hidle) in Hlt.
  rewrite <- (refs_live L2 L4 t Hf4) in Hlt. destruct finish_s5 as [En5 Hin5]. split.
  - intros (x & Hx & <- & Hl). apply list_elem_of_lookup in Hx as (j & Hj). apply list_lookup_insert_Some in Hj as [(_ & <- & _)|(_ & Hj)].
    + right. right. rewrite En5, (proj1 Hlive Hl). by apply list_elem_of_singleton.
    + destruct (proj1 Hlt); [|tauto..]. exists x. split; [by apply list_elem_of_lookup_2 in Hj|done].
  - intros [Hl|[Ht|Ht]].
    + by apply (grown_live L L5 t finish_grown).
    + destruct (proj2 Hlt (or_intror Ht)) as (x & (j & Hj)%list_elem_of_lookup & <- & Hl). exists x. split; [|done].
      destruct (decide (i = j)) as [<-|Hne]; [|apply (list_elem_of_lookup_2 _ j); by rewrite list_lookup_insert_ne]. exfalso.
      destruct (grown_lookup L1 L2 i (with_state s MVH_MODULE_LOADING) Hg2) as (x2 & Hx2 & (_ & Hiff & _)); [by apply list_lookup_insert_eq, (lookup_lt_Some _ _ _ Hs)|].
      destruct (Forall2_lookup_l _ _ _ _ _ Hf4 Hx2) as (y & Hy & [_ Est]). assert (y = x) as -> by congruence.
      unfold live in Hl. rewrite Est, (proj1 Hiff eq_refl) in Hl. done.
    + destruct Hown as [E|[(c & E) _]]; rewrite E in Ht; [by apply not_elem_of_nil in Ht|]. apply list_elem_of_singleton in Ht. injection Ht as -> <-.
      exists s5. split; [done|]. split; [done|]. by apply Hlive.
Qed.

Lemma finish_order j t c : (tr ++ tr') !! j = Some (InitDone t c) -> exists x, x ∈ L /\ slot_name x = t /\ idle x /\
    (exists root, root ∈ [name d] /\ rtc (depends L) root t) /\ forall u, u ∈ slot_deps x -> is_live L u \/ InitDone u 0 ∈ take j (tr ++ tr').
Proof using All.
  intros E. pose proof (list_elem_of_lookup_2 _ _ _ Hs) as Hin. pose proof (fun u => proj1 (marked_live L Hn i s Hs Hidle u)) as Hml.
  assert (Edeps : slot_deps s = deps d) by (unfold slot_deps; by rewrite Hd).
  apply lookup_app_Some in E as [E|[Hge E]].
  - destruct (g_order _ _ _ _ _ _ _ _ Hst j t c E) as (x & Hx & En & Hi & (root & Hr & Hrtc) & Hdeps).
    exists x. split; [by apply (marked_idle L Hn i s Hs x)|]. split; [done|]. split; [done|]. split.
    + exists (name d). split; [by apply list_elem_of_singleton|]. apply (rtc_l _ _ root).
      * exists s. split; [done|]. split; [apply finish_name|by rewrite Edeps].
      * apply (rtc_subrel (depends L1)); [|done]. intros y z. by apply (marked_depends L Hn i s Hs).
    + rewrite take_app_le by (apply lookup_lt_Some in E; lia). intros u Hu. destruct (Hdeps u Hu) as [?%Hml|]; auto.
  - destruct Hown as [E'|[(c' & E') [_ Hdl]]]; rewrite E' in E; [done|]. apply list_lookup_singleton_Some in E as [Ej E]. injection E as <- <-.
    exists s. split; [done|]. split; [apply finish_name|]. split; [done|]. split; [exists (name d); split; [by apply list_elem_of_singleton|done]|].
    rewrite Edeps, take_app_ge, Ej, take_0, app_nil_r by lia. intros u Hu. apply Hdl, (g_live _ _ _ _ _ _ _ _ Hst) in Hu as [?%Hml|]; auto.
Qed.

Lemma finish_stage : stage r L V [name d] (tr ++ tr') r5 L5 V4.
Proof using All.
  assert (Hfresh : forall j c, tr !! j <> Some (InitDone (name d) c)).
  { intros j c E. destruct (g_order _ _ _ _ _ _ _ _ Hst j _ c E) as (x & Hx & En & Hi & _).
    apply (marked_idle L Hn i s Hs x Hx Hi). by rewrite finish_name. }
  constructor.
  - apply (calls_before r r1); [done|]. apply (calls_after r1 V (tr ++ tr') r4); [|done]. by apply (calls_app r1 V tr r2 V2); [apply (g_calls _ _ _ _ _ _ _ _ Hst)|].
  - trans r1; [apply Hr1|]. trans r2; [apply (g_exports _ _ _ _ _ _ _ _ Hst)|]. trans r4; [done|apply Hr5].
  - apply finish_grown.
  - apply finish_live.
  - apply finish_order.
  - intros j k t c c' Ej Ek. apply lookup_app_Some in Ej as [Ej|[Hj Ej]], Ek as [Ek|[Hk Ek]].
    + by apply (g_once _ _ _ _ _ _ _ _ Hst j k t c c').
    + exfalso. destruct Hown as [E'|[(c2 & E') _]]; rewrite E' in Ek; [done|]. apply list_lookup_singleton_Some in Ek as [_ Ek]. injection Ek as <- <-. by apply (Hfresh j c).
    + exfalso. destruct Hown as [E'|[(c2 & E') _]]; rewrite E' in Ej; [done|]. apply list_lookup_singleton_Some in Ej as [_ Ej]. injection Ej as <- <-. by apply (Hfresh k c').
    + destruct Hown as [E'|[(c2 & E') _]]; rewrite E' in Ej, Ek; [done|]. apply list_lookup_singleton_Some in Ej as [Ej _], Ek as [Ek _]. lia.
  - intros j e E Hne. destruct Hown as [E'|[(c2 & E') [Hok _]]]; rewrite E' in *.
    + rewrite app_nil_r in *. by apply (g_last _ _ _ _ _ _ _ _ Hst j e).
    + apply lookup_app_Some in E as [E|[Hge E]]; [destruct Hne; by apply (Forall_lookup_1 _ _ _ _ Hok E)|].
      apply list_lookup_singleton_Some in E as [Ej _]. rewrite length_app. cbn [length]. lia.
Qed.
End finish.

(** The call of the init function, when the dependencies are there. *)
Lemma init_spec r L held V i s d :
  init_lawful -> inv r L (also held (deps d)) V -> L !! i = Some s -> state s = MVH_MODULE_LOADING -> descriptor s = Some d ->
  (forall t, t ∈ deps d -> is_live L t) -> (forall t, 0 <= held t) ->
  exists r' code L' V', (if negb (init d =? 0) then call_init (init d) r else (r, 0)) = (r', code) /\ inv r' L' (also held (deps d)) V' /\
    Forall2 same_but_refs L L' /\ same_exports r r' /\ init_calls r V [InitDone (name d) code] r' V'.
Proof.
  intros Hlaw Hi Hs Hst Hd Hl Hpos. pose proof (list_elem_of_lookup_2 _ _ _ Hs) as Hin.
  assert (Hmod : modules r = L ++ replicate (32 - length L) zero_slot) by apply (i_modules _ _ _ _ (i_ok _ _ _ _ Hi)).
  assert (Hin' : s ∈ modules r) by (rewrite Hmod; apply elem_of_app; by left).
  assert (Hl' : forall t, t ∈ deps d -> is_live (modules r) t).
  { intros t Ht. destruct (Hl t Ht) as (x & Hx & Hrest). exists x. split; [|done]. rewrite Hmod. apply elem_of_app. by left. }
  destruct (Z.eqb_spec (init d) 0) as [Ez|Hne]; cbn [negb].
  - exists r, 0, L, V. split; [done|]. split; [done|]. split; [done|]. split; [done|].
    eapply (calls_init r V r s d 0 r V); [done..| | |by intros p|by apply calls_none]; [by rewrite Ez|done].
  - destruct (call_init (init d) r) as [r' code] eqn:E.
    destruct (lawful_spec r L (also held (deps d)) V r' Hi) as (L' & V' & Hi' & Hf & Hx & Hfor).
    { pose proof (Hlaw r L _ V s d Hi Hin Hd Hne Hst) as Hlf. rewrite E in Hlf. apply Hlf. intros t Ht. split; [by apply Hl|].
      unfold also. specialize (Hpos t). pose proof (count_nonneg t (deps d)). apply count_pos in Ht. lia. }
    exists r', code, L', V'. split; [done|]. split; [done|]. split; [done|]. split; [done|].
    eapply (calls_init r V r s d code r' V'); [done..| |done|done|by apply calls_none]. by rewrite (proj2 (Z.eqb_neq _ _) Hne).
Qed.

(** Giving back what was taken, where the load failed. *)
Lemma undo_spec r L held V d n (result : Z) :
  inv r L (also held (take n (deps d))) V -> descriptor_ok d -> (n <= length (deps d))%nat -> (forall t, 0 <= held t) -> (result = 0 -> n = length (deps d)) ->
  exists r' L', (if negb (result =? 0) then release_down d (Z.of_nat n) r else Some r) = Some r' /\ same_rest r r' /\
    inv r' L' (if result =? 0 then also held (deps d) else held) V /\ Forall2 same_but_refs L L'.
Proof.
  intros Hi Hd Hn Hpos Hall. destruct (Z.eqb_spec result 0) as [E|Hne]; cbn [negb].
  - exists r, L. split; [done|]. split; [done|]. split; [|done]. by rewrite (Hall E), firstn_all in Hi.
  - destruct (release_down_spec r L (also held (handles_of r)) V d n) as (r' & L' & E & Hrest & Hi' & Hf); [by apply inv_also_inv|done|done|intros t; by apply also_nonneg|].
    exists r', L'. split; [done|]. split; [done|]. split; [by apply (inv_rest r)|done].
Qed.

Lemma load_slot_spec load bound r L held V i s :
  init_lawful -> load_ok load bound -> inv r L held V -> L !! i = Some s -> (loadable L < S bound)%nat -> idle s ->
  exists r' code L' V' tr, load_slot call_init load r (Z.of_nat i) s = Some (r', code) /\ inv r' L' held V' /\
    load_effect r L V (slot_name s) tr code r' L' V'.
Proof.
  intros Hlaw Hload Hi Hs Hb Hidle. pose proof (list_elem_of_lookup_2 _ _ _ Hs) as Hin. unfold load_slot.
  pose proof (i_held _ _ _ _ Hi) as Hpos. pose proof (inv_names r L held V Hi) as Hn.
  destruct (set_dead r L _ V i s MVH_MODULE_LOADING (i_ok _ _ _ _ Hi) Hs) as (r1 & -> & Hi1 & Hx1); [apply Hidle|done|]. rewrite bind_some.
  apply (inv_rest r) in Hi1; [|done|done].
  destruct (inv_descriptor r L _ V s Hi Hin) as (d & Ed & Hd & En & Edeps). rewrite Ed, bind_some, En.
  set (L1 := <[i := with_state s MVH_MODULE_LOADING]> L) in *.
  assert (L1 !! i = Some (with_state s MVH_MODULE_LOADING)) as Hs1 by (by apply list_lookup_insert_eq, (lookup_lt_Some _ _ _ Hs)).
  pose proof (loading_loadable L i s Hs (proj1 Hidle)) as Hless.
  destruct (load_dependencies_spec load bound r1 L1 held V d Hload Hi1) as (r2 & n & result & L2 & V2 & tr & -> & Hlen & Hi2 & Hst & Hres);
    [unfold L1; lia|done|]. rewrite bind_some.
  destruct (grown_lookup L1 L2 i _ (g_grown _ _ _ _ _ _ _ _ Hst) Hs1) as (s2 & Hs2 & Hp2). pose proof (proj1 (proj1 (proj2 Hp2)) eq_refl) as Est2.
  assert (descriptor s2 = Some d) as Ed2 by (rewrite <- Ed; apply Hp2).
  assert (exists r3 result3 L3 V3 tr', (if (result =? 0) && negb (init d =? 0) then call_init (init d) r2 else (r2, result)) = (r3, result3) /\
    inv r3 L3 (also held (take n (deps d))) V3 /\ Forall2 same_but_refs L2 L3 /\ same_exports r2 r3 /\ init_calls r2 V2 tr' r3 V3 /\
    (result3 = 0 -> n = length (deps d)) /\ (result3 = 0 <-> tr' = [InitDone (name d) 0]) /\
    (tr' = [] /\ result = -1 \/ (exists c, tr' = [InitDone (name d) c]) /\ result = 0))
    as (r3 & result3 & L3 & V3 & tr' & -> & Hi3 & Hf3 & Hx3 & Hc3 & Hall3 & Hiff3 & Hown3).
  { destruct Hres as [(-> & -> & Hl & Hok)|[-> _]]; cbn [Z.eqb andb].
    - rewrite firstn_all in Hi2. destruct (init_spec r2 L2 held V2 i s2 d Hlaw Hi2 Hs2 Est2 Ed2 Hl Hpos) as (r3 & code & L3 & V3 & E & ? & ? & ? & ?).
      exists r3, code, L3, V3, [InitDone (name d) code]. rewrite firstn_all. rewrite <- E. split; [by destruct (init d =? 0)|].
      split_and!; try done; [|right; split; [by exists code|done]]. split; [by intros ->|by intros [= ->]].
    - exists r2, (-1), L2, V2, []. split_and!; try done; [apply calls_none; done|by left]. }
  destruct (undo_spec r3 L3 held V3 d n result3 Hi3 Hd Hlen Hpos Hall3) as (r4 & L4 & -> & Hx4 & Hi4 & Hf4). rewrite bind_some.
  assert (Forall2 same_but_refs L2 L4) as Hf24 by (by trans L3).
  destruct (Forall2_lookup_l _ _ _ _ _ Hf24 Hs2) as (s4 & Hs4 & [Hsame4 Est4]).
  rewrite (inv_rd r4 L4 _ V3 i s4 Hi4 Hs4), bind_some.
  destruct (finish_spec r4 L4 held V3 i s4 d result3 Hi4 Hs4) as (r5 & -> & Hi5 & Hx5); [congruence|by rewrite (proj1 Hsame4)|done| |].
  { intros E t Ht. apply (refs_live L2 L4 t Hf24). destruct Hres as [(_ & _ & Hl & _)|[E1 _]]; [by apply Hl|].
    destruct Hown3 as [[E2 _]|[_ E2]]; [|lia]. rewrite E2 in Hiff3. by apply proj1 in Hiff3; specialize (Hiff3 E). }
  rewrite bind_some. set (s5 := with_state s4 (if result3 =? 0 then MVH_MODULE_LIVE else MVH_MODULE_FAILED)) in *.
  assert (Hlive5 : live s5 <-> result3 = 0) by (unfold live, s5; cbn; destruct (Z.eqb_spec result3 0); split; done).
  exists r5, result3, (<[i := s5]> L4), V3, (tr ++ tr'). split; [done|]. split; [done|].
  assert (Hfin : stage r L V [name d] (tr ++ tr') r5 (<[i := s5]> L4) V3).
  { apply (finish_stage r r1 r2 r4 r5 L L2 L4 V V2 V3 i s s4 s5 d tr tr' Hn Hs Hidle Ed Hx1 Hst); try done.
    - by apply (calls_after r2 V2 tr' r3).
    - trans r3; [done|apply Hx4].
    - split; cbn; by destruct (result3 =? 0).
    - by rewrite Hlive5.
    - destruct Hown3 as [[-> _]|[Hc E0]]; [by left|right]. split; [done|]. destruct Hres as [(_ & _ & ? & ?)|[? _]]; [done|lia]. }
  assert (Hin5 : s5 ∈ <[i := s5]> L4) by (by apply (elem_inserted _ _ _ s4)).
  assert (Hn5 : slot_name s5 = name d) by (unfold slot_name; cbn; by rewrite (proj1 Hsame4), Ed2).
  pose proof (live_name r5 _ _ V3 s5 (name d) Hi5 Hin5 Hn5) as Hname.
  constructor; [done|by rewrite Hname, Hlive5| |].
  - split.
    + intros E. split; [by apply (stage_ready _ _ _ _ _ _ _ _ (name d) Hfin), Hname, Hlive5|]. apply Forall_app.
      rewrite (proj1 Hiff3 E). split; [|by apply Forall_singleton]. destruct Hres as [(_ & _ & _ & ?)|[E1 _]]; [done|].
      destruct Hown3 as [[E2 _]|[_ E2]]; [|lia]. rewrite E2 in Hiff3. by apply proj1 in Hiff3; specialize (Hiff3 E).
    + intros [Hr [Hok Hok']%Forall_app]. rewrite <- En in Hr. pose proof (proj1 (ready_deps L Hn i s Hs Hidle) Hr) as Hdeps.
      destruct Hres as [(-> & _)|[_ Hno]]; [|destruct Hno; split; [by rewrite <- Edeps|done]]. destruct Hown3 as [[_ ?]|[(c & ->) _]]; [done|].
      apply Hiff3. pose proof (proj1 (Forall_singleton _ _) Hok') as Ec. cbn in Ec. by rewrite Ec.
  - intros x Hx Ex _. exists s5. split; [done|]. split; [done|]. done.
Qed.

Lemma effect_none r L V t code tr : tr = [] -> (code = 0 <-> is_live L t) -> (forall s, s ∈ L -> slot_name s = t -> ~ idle s) ->
  load_effect r L V t tr code r L V.
Proof.
  intros -> Hc Hno. constructor; try done.
  - eapply stage_roots; [by apply stage_refs|]. by intros x ?%not_elem_of_nil.
  - rewrite Hc. split; [intros Hl; split; [by apply ready_live|done]|]. intros [Hr _]. inversion Hr as [x Hx|s Hs Hi _ E]; subst; [done|]. by destruct (Hno s).
  - intros s Hs E Hi. by destruct (Hno s).
Qed.

Lemma load_spec : init_lawful -> forall fuel, load_ok (module_load call_init fuel) fuel.
Proof.
  intros Hlaw. induction fuel as [|fuel IH]; intros r L held V t Hi Hfuel; [lia|]. cbn [module_load].
  destruct (find_slot_spec r L _ V t Hi) as [(i & s & -> & Hs & En)|(-> & Hno)]; rewrite bind_some.
  2:{ exists r, (-1), L, V, []. split; [done|]. split; [done|]. apply effect_none; [done| |].
      - split; [done|]. intros (x & Hx & Ex & _). by destruct (Hno x).
      - intros x Hx Ex. by destruct (Hno x). }
  rewrite (inv_rd r L _ V i s Hi Hs), bind_some. pose proof (list_elem_of_lookup_2 _ _ _ Hs) as Hin.
  pose proof (live_name r L _ V s t Hi Hin En) as Hname.
  pose proof (load_slot_spec (module_load call_init fuel) fuel r L held V i s Hlaw IH Hi Hs Hfuel) as Hbody. rewrite En in Hbody.
  assert (Hearly : forall code, ~ idle s -> (code = 0 <-> live s) -> exists r' code' L' V' tr, Some (r, code) = Some (r', code') /\ inv r' L' held V' /\
    load_effect r L V t tr code' r' L' V').
  { intros code Hni Hc. exists r, code, L, V, []. split; [done|]. split; [done|]. apply effect_none; [done|by rewrite Hname|].
    intros x Hx Ex. by assert (x = s) as -> by (apply (name_unique L); [by apply (inv_names r L held V)|done|done|congruence]). }
  destruct (state s) eqn:E; (apply Hbody; unfold idle, live; by rewrite E) || (apply Hearly; unfold idle, live; rewrite E; [|done]; naive_solver).
Qed.
End load.
