(* ===== verification/ElfCorrect.v ===== *)
(** * The ELF loader: correctness

    Placing the sections and applying the relocations write to the new
    allocation and to nothing else, and what is in it afterwards is the list of
    these writes applied to zeros; every failure gives the allocation back. *)

From Stdlib Require Import String.
From S2P Require Import Prelude Arith Buffer Heap Allocator Module ModuleTable ModuleCorrect ModuleLoad Elf ElfLayout.

#[local] Open Scope Z_scope.

(** Bytes stored at offsets of an allocation, one list after the other. *)
Definition apply_writes (c : list Z) (ws : list (Z * list Z)) : list Z := foldl (fun c w => splice c w.1 w.2) c ws.

Definition write_fits (n : Z) (w : Z * list Z) : Prop := 0 <= w.1 /\ w.1 + Z.of_nat (length w.2) <= n /\ all_bytes w.2.

Lemma apply_writes_length c ws : Forall (write_fits (Z.of_nat (length c))) ws -> length (apply_writes c ws) = length c.
Proof.
  revert c. induction ws as [|w ws IH]; intros c Hw; [done|]. apply Forall_cons in Hw as [(H1 & H2 & _) Hw]. cbn [apply_writes foldl].
  assert (length (splice c w.1 w.2) = length c) as E by (apply length_splice; unfold room; lia).
  change (length (apply_writes (splice c w.1 w.2) ws) = length c). rewrite IH; [done|]. by rewrite E.
Qed.

Lemma apply_writes_app c ws ws' : apply_writes c (ws ++ ws') = apply_writes (apply_writes c ws) ws'.
Proof. apply foldl_app. Qed.

(** A byte that no write covers. *)
Definition untouched (j : Z) (ws : list (Z * list Z)) : Prop :=
  Forall (fun w => j < w.1 \/ w.1 + Z.of_nat (length w.2) <= j) ws.

Lemma apply_writes_untouched c ws j :
  Forall (write_fits (Z.of_nat (length c))) ws -> untouched j ws -> rd (apply_writes c ws) j = rd c j.
Proof.
  revert c. induction ws as [|w ws IH]; intros c Hw Hj; [done|]. apply Forall_cons in Hw as [(H1 & H2 & _) Hw].
  apply Forall_cons in Hj as [Hj Hjs]. assert (room c w.1 (Z.of_nat (length w.2))) as Hr by (unfold room; lia).
  change (rd (apply_writes (splice c w.1 w.2) ws) j = rd c j).
  rewrite IH; [|by rewrite length_splice|done]. rewrite rd_splice by done.
  destruct (Z.leb_spec w.1 j), (Z.ltb_spec j (w.1 + Z.of_nat (length w.2))); simpl; (done || lia).
Qed.

Section correct.
Context {H W : Type} `{AllocatorLaws H}.
Notation reg := (registry H W).

(** ** Accesses to an allocation *)

Lemma store_bytes_spec l : forall h V p c o,
  holds h (<[p := c]> V) -> room c o (Z.of_nat (length l)) -> all_bytes l ->
  exists h', store_bytes h (p + o) l = Some h' /\ holds h' (<[p := splice c o l]> V).
Proof.
  induction l as [|v l IH]; intros h V p c o Hh Hr Hl; cbn [store_bytes].
  - exists h. split; [done|]. replace (splice c o []) with c; [done|]. unfold splice. cbn [app length]. rewrite Nat.add_0_r. by rewrite take_drop.
  - apply Forall_cons in Hl as [Hv Hl]. cbn [length] in Hr. unfold room in Hr.
    destruct (holds_store h (<[p := c]> V) p c o v Hh) as (h1 & -> & Hh1); [by rewrite lookup_insert_eq|lia|done|]. rewrite bind_some.
    rewrite insert_insert_eq in Hh1. assert (room c o 1) as Hr1 by (unfold room; lia).
    pose proof (wr_splice c o v Hr1) as E. rewrite wr_ok in E by lia. injection E as E. rewrite E in Hh1.
    destruct (IH h1 V p (splice c o [v]) (o + 1) Hh1) as (h' & Hs & Hh'); [|done|].
    { unfold room. rewrite length_splice by done. lia. }
    rewrite <- Z.add_assoc. exists h'. split; [done|]. rewrite (splice_next c o (o + 1) [v] l) in Hh'; [done|..]; simpl; unfold room; lia.
Qed.

Lemma load_bytes_spec n : forall h V p c o,
  holds h V -> V !! p = Some c -> room c o (Z.of_nat n) -> load_bytes h (p + o) n = Some (slice c o (Z.of_nat n)).
Proof.
  induction n as [|n IH]; intros h V p c o Hh Hc Hr; cbn [load_bytes].
  - unfold slice. by rewrite take_0.
  - unfold room in Hr. rewrite (holds_load h V p c o Hh Hc) by lia. destruct (rd_ok c o) as (v & Hv); [lia|]. rewrite Hv, bind_some.
    rewrite <- Z.add_assoc, (IH h V p c (o + 1) Hh Hc) by (unfold room; lia). rewrite bind_some. f_equal.
    unfold slice. rewrite Nat2Z.id. apply rd_Some in Hv as [_ Hv]. replace (Z.to_nat (Z.of_nat (S n))) with (S n) by lia.
    rewrite (drop_S _ _ _ Hv). cbn [take]. by replace (Z.to_nat (o + 1)) with (S (Z.to_nat o)) by lia.
Qed.

Lemma load_le_spec h V p c o n :
  holds h V -> V !! p = Some c -> room c o (Z.of_nat n) -> load_le h (p + o) n = Some (le_value (slice c o (Z.of_nat n))).
Proof. intros Hh Hc Hr. unfold load_le. by rewrite (load_bytes_spec n h V p c o). Qed.

Lemma load_le_ok h V p c o n :
  holds h V -> V !! p = Some c -> room c o (Z.of_nat n) -> exists v, load_le h (p + o) n = Some v /\ 0 <= v < 256 ^ Z.of_nat n.
Proof.
  intros Hh Hc Hr. rewrite (load_le_spec h V p c o n) by done. eexists. split; [done|].
  pose proof (le_value_fits (slice c o (Z.of_nat n)) (all_bytes_slice _ _ _ (holds_bytes h V p c Hh Hc))) as Hf.
  rewrite length_slice, Z2Nat.id in Hf by (done || lia). done.
Qed.

Lemma copy_section_spec h V p c o bytes offset size :
  holds h (<[p := c]> V) -> p + o <> 0 -> room c o size -> room bytes offset size -> all_bytes bytes ->
  exists h', copy_section h bytes (p + o) offset size = Some h' /\ holds h' (<[p := splice c o (slice bytes offset size)]> V).
Proof.
  intros Hh Hp Hr Hrb Hb. unfold copy_section. rewrite (proj2 (Z.eqb_neq _ _) Hp). cbn [andb].
  destruct (for_loop_rule (fun k h' => holds h' (<[p := splice c o (slice bytes offset k)]> V)) (Z.to_nat size) 0
    (fun index h => x ← rd bytes (offset + index); a_store8 h (p + o + index) x) h) as (h' & E & Hh').
  - unfold slice. cbn [Z.to_nat]. rewrite take_0. unfold splice. cbn [app length]. rewrite Nat.add_0_r. by rewrite take_drop.
  - intros k h1 Hk Hh1. unfold room in *. destruct (rd_ok bytes (offset + k)) as (x & Hx); [lia|]. rewrite Hx, bind_some.
    assert (length (slice bytes offset k) = Z.to_nat k) as Hlen by (apply length_slice; unfold room; lia).
    assert (length (splice c o (slice bytes offset k)) = length c) as Hlen' by (apply length_splice; unfold room; lia).
    destruct (holds_store h1 (<[p := splice c o (slice bytes offset k)]> V) p (splice c o (slice bytes offset k)) (o + k) x Hh1) as (h2 & E2 & Hh2);
      [by rewrite lookup_insert_eq|lia|apply rd_Some in Hx as [_ Hx]; by apply (Forall_lookup_1 _ _ _ _ Hb Hx)|].
    rewrite <- Z.add_assoc, E2. exists h2. split; [done|]. rewrite insert_insert_eq in Hh2.
    assert (room (splice c o (slice bytes offset k)) (o + k) 1) as Hr1 by (unfold room; lia).
    pose proof (wr_splice _ (o + k) x Hr1) as E. rewrite wr_ok in E by lia. injection E as E. rewrite E in Hh2.
    rewrite (splice_next c o (o + k) (slice bytes offset k) [x]) in Hh2; [|lia|unfold room; rewrite length_app, Hlen; simpl; lia].
    replace (slice bytes offset (k + 1)) with (slice bytes offset k ++ [x]); [done|].
    unfold slice. replace (Z.to_nat (k + 1)) with (S (Z.to_nat k)) by lia. symmetry. apply take_S_r. rewrite lookup_drop.
    apply rd_Some in Hx as [_ Hx]. rewrite <- Hx. f_equal. lia.
  - exists h'. split; [done|]. by replace size with (0 + Z.of_nat (Z.to_nat size)) by (unfold room in *; lia).
Qed.
(** ** The symbol table *)

Definition exports_ok (r : reg) : Prop :=
  length (exports r) = Z.to_nat EXPORT_LIMIT /\ 0 <= registered_exports r <= EXPORT_LIMIT.

Lemma exports_ok_same r r' : exports_ok r -> same_exports r r' -> exports_ok r'.
Proof. intros [H1' H2'] [E1 E2]. split; [by rewrite E1|by rewrite E2]. Qed.

Lemma resolve_ok r t : exports_ok r -> exists v, module_resolve_symbol r t = Some v.
Proof.
  intros [Hlen Hn]. unfold module_resolve_symbol.
  destruct (for_break_rule (fun _ (_ : unit) => True) (fun _ : Z => True) (Z.to_nat (registered_exports r)) 0 (fun index u =>
          e ← rd (exports r) index;
          Some (if str_equal (export_name e) t then inr (export_address e) else inl u)) tt) as [([] & -> & _)|(v & -> & _)]; [done| |by eexists..].
  intros j [] Hj _. destruct (rd_ok (exports r) j) as (e & ->); [rewrite Hlen; unfold EXPORT_LIMIT in *; lia|]. rewrite bind_some.
  destruct (str_equal _ _); [right|left]; by eexists.
Qed.

(** ** Placing the sections *)

Section link.
Context (bytes : list Z) (Hbytes : all_bytes bytes) (header : elf64_header) (Hh : header_ok bytes header).
Context (l : layout) (Hl : laid bytes header (e_section_count header) l).
Context (p : Z) (V : gmap Z (list Z)).
Notation total := (allocation_size l).
Notation count := (e_section_count header).

(** Where a section is, and what is copied there. *)
Definition address_of (index : Z) : Z :=
  match section bytes header index, rd (offsets l) index with
  | Some s, Some o => if s_flags s &&& SHF_ALLOC =? 0 then 0 else p + o
  | _, _ => 0
  end.

Definition section_write (index : Z) : list (Z * list Z) :=
  match section bytes header index, rd (offsets l) index with
  | Some s, Some o =>
    if s_flags s &&& SHF_ALLOC =? 0 then [] else
    if s_type s =? SHT_NOBITS then [] else [(o, slice bytes (s_offset s) (s_size s))]
  | _, _ => []
  end.

Fixpoint section_writes (n : nat) : list (Z * list Z) :=
  match n with O => [] | S n => section_writes n ++ section_write (Z.of_nat n) end.

Definition placed (n : Z) (addresses : list Z) : Prop :=
  length addresses = Z.to_nat ELF_SECTION_LIMIT /\
  forall i, 0 <= i < ELF_SECTION_LIMIT -> rd addresses i = Some (if i <? n then address_of i else 0).

(** The allocation is in the address space. *)
Definition addressable : Prop := 0 < p /\ p + total < 2 ^ 64.

Lemma section_write_fits index : 0 <= index < count -> Forall (write_fits total) (section_write index).
Proof using Hbytes Hh Hl.
  intros Hi. unfold section_write. destruct (section bytes header index) as [s|] eqn:Es; [|done].
  destruct (rd (offsets l) index) as [o|] eqn:Eo; [|done]. destruct (Z.eqb_spec (s_flags s &&& SHF_ALLOC) 0) as [|Ha]; [done|].
  destruct (Z.eqb_spec (s_type s) SHT_NOBITS) as [|Ht]; [done|]. apply Forall_singleton.
  destruct (l_place _ _ _ _ Hl index s Hi Es Ha) as (o' & Eo' & Ho & _ & Hle). simplify_eq.
  destruct (section_ok bytes Hbytes header Hh index Hi) as (s' & Es' & Hf). simplify_eq.
  pose proof (f_offset s Hf). pose proof (f_size s Hf). pose proof (l_file _ _ _ _ Hl index s Hi Es Ht). unfold fits in *.
  unfold write_fits. cbn [fst snd]. rewrite length_slice by (unfold room; lia). split; [done|]. split; [lia|by apply all_bytes_slice].
Qed.

Lemma section_writes_fit n : Z.of_nat n <= count -> Forall (write_fits total) (section_writes n).
Proof using Hbytes Hh Hl.
  induction n as [|n IH]; intros Hn; [done|]. cbn [section_writes]. apply Forall_app. split; [apply IH; lia|]. apply section_write_fits. lia.
Qed.

(** The bytes of a section are those of the file. *)
Lemma section_writes_rd n c i s o k :
  Z.of_nat n <= count -> Z.of_nat (length c) = total -> 0 <= i < Z.of_nat n -> section bytes header i = Some s -> allocated s -> s_type s <> SHT_NOBITS ->
  rd (offsets l) i = Some o -> 0 <= k < s_size s -> rd (apply_writes c (section_writes n)) (o + k) = rd bytes (s_offset s + k).
Proof using Hbytes Hh Hl.
  intros Hn Hc Hi Hs Ha Ht Ho Hk. induction n as [|n IH]; [lia|]. cbn [section_writes]. rewrite apply_writes_app.
  pose proof (section_writes_fit n ltac:(lia)) as Hfit. pose proof (section_write_fits (Z.of_nat n) ltac:(lia)) as Hfit1.
  assert (Z.of_nat (length (apply_writes c (section_writes n))) = total) as Hc1 by (rewrite apply_writes_length; [done|by rewrite Hc]).
  destruct (Z.eq_dec i (Z.of_nat n)) as [->|Hne].
  - unfold section_write in *. rewrite Hs, Ho in *. rewrite (proj2 (Z.eqb_neq _ _) Ha), (proj2 (Z.eqb_neq _ _) Ht) in *.
    pose proof (proj1 (Forall_singleton _ _) Hfit1) as (H1' & H2' & _). cbn [fst snd] in *. cbn [apply_writes foldl fst snd].
    rewrite rd_splice by (unfold room; lia). destruct (section_ok bytes Hbytes header Hh (Z.of_nat n) ltac:(lia)) as (s' & Es' & Hf). simplify_eq.
    pose proof (f_offset s Hf). pose proof (l_file _ _ _ _ Hl (Z.of_nat n) s ltac:(lia) Hs Ht). unfold fits in *.
    rewrite length_slice in * by (unfold room; lia). rewrite (proj2 (Z.leb_le _ _)), (proj2 (Z.ltb_lt _ _)) by lia. cbn [andb].
    replace (o + k - o) with k by lia. pose proof (rd_slice bytes (s_offset s) (s_size s) k) as E. rewrite (proj2 (Z.leb_le _ _)), (proj2 (Z.ltb_lt _ _)) in E by lia.
    cbn [andb] in E. rewrite <- E by (unfold room; lia). unfold rd. by rewrite (proj2 (Z.ltb_ge _ _)) by lia.
  - rewrite apply_writes_untouched; [apply IH; lia|by rewrite Hc1|]. unfold section_write.
    destruct (section bytes header (Z.of_nat n)) as [s2|] eqn:Es2; [|by constructor]. destruct (rd (offsets l) (Z.of_nat n)) as [o2|] eqn:Eo2; [|by constructor].
    destruct (Z.eqb_spec (s_flags s2 &&& SHF_ALLOC) 0) as [|Ha2]; [by constructor|]. destruct (_ =? SHT_NOBITS); [by constructor|].
    apply Forall_singleton. cbn [fst snd]. left. pose proof (l_apart _ _ _ _ Hl i (Z.of_nat n) s s2 o o2 ltac:(lia) ltac:(lia) Hs Es2 Ha Ha2 Ho Eo2). lia.
Qed.

Lemma place_step_spec n h c addresses :
  addressable -> 0 <= n < count -> holds h (<[p := c]> V) -> Z.of_nat (length c) = total -> placed n addresses ->
  exists h' addresses', place_step bytes header l p n (h, addresses) = Some (h', addresses') /\
    holds h' (<[p := apply_writes c (section_write n)]> V) /\ placed (n + 1) addresses'.
Proof using Hbytes Hh Hl.
  intros [Hp Hend] Hn Hc Hlen [Hal Hrd]. unfold place_step. destruct (section_ok bytes Hbytes header Hh n Hn) as (s & Hs & Hf).
  destruct (h_count _ _ Hh) as [_ Hmax]. rewrite Hs, bind_some.
  assert (placed_next : forall a, a = address_of n -> exists addresses', wr addresses n a = Some addresses' /\ placed (n + 1) addresses').
  { intros a ->. assert (0 <= n < Z.of_nat (length addresses)) as Hnl by (rewrite Hal; unfold ELF_SECTION_LIMIT in *; lia).
    rewrite wr_ok by done. eexists. split; [done|]. split; [by rewrite length_insert|]. intros i Hi.
    rewrite (rd_wr addresses n i _ _ (wr_ok _ _ _ Hnl)). destruct (Z.eqb_spec n i) as [<-|Hne].
    - by rewrite (proj2 (Z.ltb_lt _ _)) by lia.
    - rewrite Hrd by done. destruct (Z.ltb_spec i n), (Z.ltb_spec i (n + 1)); (done || lia). }
  assert (exists o, rd (offsets l) n = Some o) as [o Eo].
  { apply rd_ok. rewrite (l_length _ _ _ _ Hl). unfold ELF_SECTION_LIMIT in *. lia. }
  assert (Ew : section_write n = if s_flags s &&& SHF_ALLOC =? 0 then [] else if s_type s =? SHT_NOBITS then [] else [(o, slice bytes (s_offset s) (s_size s))])
    by (unfold section_write; by rewrite Hs, Eo).
  assert (Ea : address_of n = if s_flags s &&& SHF_ALLOC =? 0 then 0 else p + o) by (unfold address_of; by rewrite Hs, Eo).
  destruct (Z.eqb_spec (s_flags s &&& SHF_ALLOC) 0) as [Eflag|Ha].
  - exists h, addresses. split; [done|]. rewrite Ew. split; [done|]. split; [done|]. intros i Hi. rewrite Hrd by done.
    destruct (Z.ltb_spec i n), (Z.ltb_spec i (n + 1)); try (done || lia). assert (i = n) as -> by lia. by rewrite Ea.
  - destruct (l_place _ _ _ _ Hl n s Hn Hs Ha) as (o' & Eo' & Ho & _ & Hle). simplify_eq.
    pose proof (f_offset s Hf) as Hfo. pose proof (f_size s Hf) as Hfs. unfold fits in Hfo, Hfs.
    rewrite Eo, bind_some, u64_small by (unfold fits; lia).
    destruct (placed_next (p + o)) as (addresses' & Ewr & Hpl); [done|]. rewrite Ewr, bind_some.
    rewrite (rd_wr _ _ _ _ _ Ewr), Z.eqb_refl, bind_some.
    destruct (Z.eqb_spec (s_type s) SHT_NOBITS) as [|Ht]; cbn [negb].
    + rewrite bind_some. exists h, addresses'. rewrite Ew. done.
    + pose proof (l_file _ _ _ _ Hl n s Hn Hs Ht).
      destruct (copy_section_spec h V p c o bytes (s_offset s) (s_size s) Hc) as (h' & -> & Hh'); [lia|unfold room; lia|unfold room; lia|done|].
      rewrite bind_some. exists h', addresses'. rewrite Ew. done.
Qed.

Lemma elf_place_spec h c :
  addressable -> holds h (<[p := c]> V) -> Z.of_nat (length c) = total ->
  exists h' addresses, elf_place h bytes header l p = Some (h', addresses) /\ placed count addresses /\
    holds h' (<[p := apply_writes c (section_writes (Z.to_nat count))]> V).
Proof using Hbytes Hh Hl.
  intros Ha Hc Hlen. unfold elf_place. destruct (h_count _ _ Hh) as [Hpos Hmax].
  destruct (for_loop_rule (fun n st => holds st.1 (<[p := apply_writes c (section_writes (Z.to_nat n))]> V) /\ placed n st.2)
    (Z.to_nat count) 0 (place_step bytes header l p) (h, replicate (Z.to_nat ELF_SECTION_LIMIT) 0)) as ([h' addresses] & -> & Hh' & Hpl).
  - split; [done|]. split; [apply length_replicate|]. intros i Hi. rewrite (proj2 (Z.ltb_ge _ _)) by lia. apply rd_Some. split; [lia|].
    apply lookup_replicate_2. unfold ELF_SECTION_LIMIT in *. lia.
  - intros n [h1 a1] Hn [Hh1 Hp1]. cbn [fst snd] in *.
    destruct (place_step_spec n h1 (apply_writes c (section_writes (Z.to_nat n))) a1 Ha) as (h2 & a2 & E & Hh2 & Hp2); [lia|done| |done|].
    { rewrite apply_writes_length; [done|]. rewrite Hlen. apply section_writes_fit. lia. }
    exists (h2, a2). split; [done|]. split; [|done]. cbn [fst]. replace (Z.to_nat (n + 1)) with (S (Z.to_nat n)) by lia.
    cbn [section_writes]. rewrite apply_writes_app, Z2Nat.id by lia. done.
  - exists h', addresses. cbn [fst snd] in *. rewrite Z2Nat.id in * by lia. done.
Qed.

(** ** Relocation *)

Context (t : tables) (Ht : tables_ok bytes t) (r : reg) (Hx : exports_ok r).
Context (addresses : list Z) (Haddr : placed count addresses).

Lemma resolve_elf_symbol_ok y :
  fits 32 (y_name y) -> fits 16 (y_section y) ->
  exists v, resolve_elf_symbol r bytes y (t_strings t) (t_strings_size t) addresses count = Some v.
Proof using Hbytes Hh Ht Hx Haddr.
  intros Hn Hs. unfold resolve_elf_symbol, fits in *. destruct (_ =? SHN_ABS); [by eexists|]. destruct (_ =? SHN_UNDEF).
  - destruct (Z.leb_spec (t_strings_size t) (y_name y)); [by eexists|]. destruct Ht.
    destruct (image_nlength_ok bytes Hbytes (t_strings t + y_name y) (t_strings_size t - y_name y)) as (n & -> & _); [lia..|]. rewrite bind_some.
    destruct (_ =? _); [by eexists|]. by apply resolve_ok.
  - destruct (Z.leb_spec count (y_section y)); [by eexists|]. destruct (h_count _ _ Hh). destruct Haddr as [Hlen Hrd].
    rewrite Hrd by lia. rewrite bind_some. by eexists.
Qed.

Lemma relocation_value_width type value place n v :
  relocation_value type value place = inl (Some (n, v)) -> Z.of_nat n = if type =? R_X86_64_64 then 8 else 4.
Proof.
  unfold relocation_value. destruct (type =? R_X86_64_NONE); [done|]. destruct (type =? R_X86_64_64); [by intros [= <- <-]|].
  repeat (destruct (_ || _); [try done|]); repeat (destruct (_ =? _)); try done; try (by intros [= <- <-]).
  all: repeat (destruct (_ || _)); try done; by intros [= <- <-].
Qed.

Lemma address_spec index target :
  0 <= index < count -> section bytes header index = Some target -> address_of index <> 0 ->
  exists o, rd (offsets l) index = Some o /\ address_of index = p + o /\ 0 <= o /\ o + s_size target <= total /\ allocated target.
Proof using Hl.
  intros Hi Htarget Hbase. unfold address_of in *. rewrite Htarget in *. destruct (rd (offsets l) index) as [o|] eqn:Eo; [|done].
  destruct (Z.eqb_spec (s_flags target &&& SHF_ALLOC) 0) as [|Ha]; [done|].
  destruct (l_place _ _ _ _ Hl index target Hi Htarget Ha) as (o' & Eo' & Ho & _ & Hle). simplify_eq. by exists o.
Qed.

(** A relocation is applied inside the section that it belongs to. *)
Lemma rela_effect_ok s target item :
  addressable -> section_fits s -> s_offset s + s_size s <= Z.of_nat (length bytes) -> 0 <= item < s_size s / sizeof_rela ->
  0 <= s_info s < count -> section bytes header (s_info s) = Some target -> address_of (s_info s) <> 0 ->
  exists e, rela_effect r bytes header t addresses (s_offset s) (address_of (s_info s)) (s_size target) item = Some e /\
    match e with
    | inl (Some (place, w)) => p + 0 <= place /\ write_fits total (place - p, w) /\
        address_of (s_info s) <= place /\ place + Z.of_nat (length w) <= address_of (s_info s) + s_size target
    | _ => True
    end.
Proof using Hbytes Hh Hl Ht Hx Haddr.
  intros [Hp Hend] Hf Hfile Hi Hinfo Htarget Hbase. destruct (address_spec _ _ Hinfo Htarget Hbase) as (o & _ & -> & Ho & Hle & _). unfold rela_effect.
  pose proof (f_offset s Hf) as Hfo. pose proof (f_size s Hf) as Hfs. unfold fits in Hfo, Hfs. unfold sizeof_rela in *.
  destruct (rela_at_ok bytes (s_offset s + item * 24)) as (rel & -> & Hro & Hri); [done|unfold room, sizeof_rela; divlia|]. rewrite bind_some.
  set (type := u32 (r_info rel)). set (index := u32 (r_info rel >> 32)).
  destruct (_ || _) eqn:E; [by eexists|]. apply orb_false_iff in E as [E E3]. apply orb_false_iff in E as [E1 E2]. bool_to_prop.
  assert (fits 32 index) as Hidx by (apply u32_range). unfold fits in Hidx.
  destruct (symbol_ok bytes Hbytes t index Ht) as (y & -> & Hy1 & Hy2 & _); [lia|]. rewrite bind_some.
  destruct (resolve_elf_symbol_ok y Hy1 Hy2) as (v & ->). rewrite bind_some.
  destruct (_ && _); [by eexists|].
  set (place := u64 (p + o + r_offset rel)). set (value := i64 (i64 v + r_addend rel)).
  destruct (relocation_value type value place) as [[[n w]|]|[]] eqn:Ev; [|by eexists..].
  eexists. split; [done|]. cbv beta iota. rewrite length_le_bytes, (relocation_value_width _ _ _ _ _ Ev).
  unfold fits in Hro. assert (place = p + o + r_offset rel) as -> by (unfold place; apply u64_small; unfold fits; lia).
  split; [lia|]. split; [|lia]. unfold write_fits. cbn [fst snd]. rewrite length_le_bytes, (relocation_value_width _ _ _ _ _ Ev).
  split; [lia|]. split; [destruct (type =? _); lia|apply le_bytes_bytes].
Qed.

(** All relocations in the order in which they are applied, and what they
    write, as offsets of the allocation. *)
Definition section_items (index : Z) : list (Z * Z) :=
  match section bytes header index with
  | Some s => if s_type s =? SHT_RELA then (fun k => (index, Z.of_nat k)) <$> seq 0 (Z.to_nat (s_size s / sizeof_rela)) else []
  | None => []
  end.

Fixpoint items (n : nat) : list (Z * Z) :=
  match n with O => [] | S n => items n ++ section_items (Z.of_nat n) end.

Definition effect_of (it : Z * Z) : option (option (Z * list Z) + unit) :=
  s ← section bytes header it.1; base ← rd addresses (s_info s); target ← section bytes header (s_info s);
  rela_effect r bytes header t addresses (s_offset s) base (s_size target) it.2.

Definition to_writes (es : list (option (Z * list Z))) : list (Z * list Z) :=
  omap (fun e => w ← e; Some (w.1 - p, w.2)) es.

(** An entry of a section of relocations that is in the image and belongs to a
    section that has memory. *)
Definition applicable (it : Z * Z) : Prop :=
  exists s, section bytes header it.1 = Some s /\ section_fits s /\ s_offset s + s_size s <= Z.of_nat (length bytes) /\
    0 <= it.2 < s_size s / sizeof_rela /\ 0 <= s_info s < count /\ address_of (s_info s) <> 0.

Definition relocations (its : list (Z * Z)) (ws : list (Z * list Z)) : Prop :=
  exists es, Forall2 (fun it e => applicable it /\ effect_of it = Some (inl e)) its es /\ ws = to_writes es.

(** A section of relocations that is refused: by its header, or by one of its
    entries. *)
Definition bad_relocation (index : Z) : Prop :=
  exists s, section bytes header index = Some s /\ s_type s = SHT_RELA /\
    (count <= s_info s \/ address_of (s_info s) = 0 \/ s_entry_size s <> sizeof_rela \/ s_size s mod sizeof_rela <> 0 \/
     exists item, applicable (index, item) /\ effect_of (index, item) = Some (inr tt)).

(** Its header is not why. *)
Definition rela_header_ok (index : Z) : Prop :=
  forall s, section bytes header index = Some s -> s_type s = SHT_RELA ->
    s_info s < count /\ address_of (s_info s) <> 0 /\ s_entry_size s = sizeof_rela /\ s_size s mod sizeof_rela = 0.

Lemma relocations_app its its' ws ws' : relocations its ws -> relocations its' ws' -> relocations (its ++ its') (ws ++ ws').
Proof.
  intros (es & Hes & ->) (es' & Hes' & ->). exists (es ++ es'). split; [by apply Forall2_app|]. unfold to_writes. by rewrite omap_app.
Qed.

Lemma relocations_one it e : applicable it -> effect_of it = Some (inl e) -> relocations [it] (to_writes [e]).
Proof. intros Ha He. exists [e]. split; [by constructor|done]. Qed.

Lemma rela_step_spec s target base item h c :
  addressable -> section_fits s -> s_offset s + s_size s <= Z.of_nat (length bytes) -> 0 <= item < s_size s / sizeof_rela ->
  0 <= s_info s < count -> section bytes header (s_info s) = Some target -> base = address_of (s_info s) -> base <> 0 ->
  holds h (<[p := c]> V) -> Z.of_nat (length c) = total ->
  exists e, rela_effect r bytes header t addresses (s_offset s) base (s_size target) item = Some e /\
    match e with
    | inl w => exists h', rela_step r bytes header t addresses (s_offset s) base (s_size target) item h = Some (inl h') /\
        holds h' (<[p := apply_writes c (to_writes [w])]> V) /\ Forall (write_fits total) (to_writes [w])
    | inr _ => rela_step r bytes header t addresses (s_offset s) base (s_size target) item h = Some (inr h)
    end.
Proof using Hbytes Hh Hl Ht Hx Haddr.
  intros Ha Hf Hfile Hi Hinfo Htarget -> Hbase Hc Hlen.
  destruct (rela_effect_ok s target item Ha Hf Hfile Hi Hinfo Htarget Hbase) as (e & E & He). exists e. split; [done|].
  unfold rela_step. rewrite E, bind_some. destruct e as [[[place w]|]|[]]; [|by exists h|done].
  destruct He as (Hge & Hfit & _). unfold write_fits in Hfit. cbn [fst snd] in Hfit. destruct Hfit as (Hw1 & Hw2 & Hw3).
  replace (store_bytes h place w) with (store_bytes h (p + (place - p)) w) by (f_equal; lia).
  destruct (store_bytes_spec w h V p c (place - p) Hc) as (h' & -> & Hh'); [unfold room; lia|done|].
  rewrite bind_some. exists h'. split; [done|]. split; [done|]. cbn. by apply Forall_singleton.
Qed.

Lemma relocate_section_spec index h c :
  addressable -> 0 <= index < count -> holds h (<[p := c]> V) -> Z.of_nat (length c) = total ->
  exists res h' ws, relocate_section r bytes header t addresses index h = Some res /\
    (res = inl h' /\ relocations (section_items index) ws /\ rela_header_ok index \/ res = inr h' /\ bad_relocation index) /\
    holds h' (<[p := apply_writes c ws]> V) /\ Forall (write_fits total) ws.
Proof using Hbytes Hh Hl Ht Hx Haddr.
  intros Ha Hi Hc Hlen. unfold relocate_section, section_items. destruct (section_ok bytes Hbytes header Hh index Hi) as (s & Hs & Hf).
  rewrite Hs, bind_some. destruct (Z.eqb_spec (s_type s) SHT_RELA) as [Et|]; cbn [negb].
  2:{ exists (inl h), h, []. split; [done|]. split; [left; split; [done|]; split; [by exists []|]; intros s' Hs' Ht'; congruence|]. done. }
  assert (Hfail : bad_relocation index -> exists res h' ws, Some (inr h) = Some res /\ (res = inl h' /\ relocations ((fun k => (index, Z.of_nat k)) <$> seq 0 (Z.to_nat (s_size s / sizeof_rela))) ws /\ rela_header_ok index \/
    res = inr h' /\ bad_relocation index) /\ holds h' (<[p := apply_writes c ws]> V) /\ Forall (write_fits total) ws) by (intros Hbad; exists (inr h), h, []; split; [done|]; split; [by right|done]).
  assert (Hwhy : forall P : Prop, (P -> count <= s_info s \/ address_of (s_info s) = 0 \/ s_entry_size s <> sizeof_rela \/ s_size s mod sizeof_rela <> 0 \/
    exists item, applicable (index, item) /\ effect_of (index, item) = Some (inr tt)) -> P -> bad_relocation index)
    by (intros P HP HP'; exists s; split; [done|]; split; [done|]; by apply HP).
  pose proof (f_info s Hf) as Hfi. pose proof (f_size s Hf) as Hfs. unfold fits in Hfi, Hfs. destruct (h_count _ _ Hh) as [_ Hmax].
  destruct (Z.leb_spec count (s_info s)) as [Hge|Hinfo]; [apply Hfail; apply (Hwhy _ (fun x => or_introl x) Hge)|]. destruct Haddr as [_ Hrd].
  rewrite Hrd, (proj2 (Z.ltb_lt _ _) Hinfo), bind_some by lia.
  destruct (_ || _) eqn:E.
  { apply Hfail, (Hwhy _ (fun x => x)). right. destruct (Z.eqb_spec (address_of (s_info s)) 0); [by left|right]. cbn [orb] in E.
    destruct (Z.eqb_spec (s_entry_size s) sizeof_rela); [right; left|by left]. cbn [negb orb] in E. by apply negb_true_iff, Z.eqb_neq in E. }
  apply orb_false_iff in E as [E E3]. apply orb_false_iff in E as [E1 E2]. bool_to_prop. clear Hfail.
  destruct (section_ok bytes Hbytes header Hh (s_info s)) as (target & Htarget & _); [lia|]. rewrite Htarget, bind_some.
  pose proof (l_file _ _ _ _ Hl index s Hi Hs ltac:(by rewrite Et)) as Hfile.
  set (n := Z.to_nat (s_size s / sizeof_rela)). set (f := fun k => (index, Z.of_nat k)).
  assert (Heff : forall k, effect_of (f k) = rela_effect r bytes header t addresses (s_offset s) (address_of (s_info s)) (s_size target) (Z.of_nat k)).
  { intros k. unfold effect_of, f. cbn [fst snd]. rewrite Hs, bind_some, Hrd, (proj2 (Z.ltb_lt _ _) Hinfo), bind_some by lia. by rewrite Htarget. }
  assert (Happ : forall j, 0 <= j < s_size s / sizeof_rela -> applicable (index, j)) by (intros j Hj; exists s; split_and!; try done; cbn; lia).
  destruct (for_break_rule (fun j h' => exists ws, holds h' (<[p := apply_writes c ws]> V) /\ Forall (write_fits total) ws /\ relocations (f <$> seq 0 (Z.to_nat j)) ws)
    (fun h' => (exists ws, holds h' (<[p := apply_writes c ws]> V) /\ Forall (write_fits total) ws) /\ bad_relocation index) n 0
    (rela_step r bytes header t addresses (s_offset s) (address_of (s_info s)) (s_size target)) h) as [(h' & -> & ws & Hh' & Hws & Hrel)|(h' & -> & (ws & Hh' & Hws) & Hbad)].
  - exists []. split; [done|]. split; [done|]. by exists [].
  - intros j h1 Hj (ws & Hh1 & Hws & Hrel).
    destruct (rela_step_spec s target (address_of (s_info s)) j h1 (apply_writes c ws) Ha Hf Hfile) as ([w|[]] & Ee & Hstep); [unfold n in Hj; lia|lia|done|done|done|done| | |].
    { rewrite apply_writes_length; [done|]. by rewrite Hlen. }
    + left. destruct Hstep as (h2 & -> & Hh2 & Hw). exists h2. split; [done|]. exists (ws ++ to_writes [w]). rewrite apply_writes_app.
      split; [done|]. split; [by apply Forall_app|]. replace (Z.to_nat (j + 1)) with (S (Z.to_nat j)) by lia. rewrite seq_S, fmap_app.
      apply relocations_app; [done|]. cbn [fmap list_fmap]. apply relocations_one; [apply Happ; unfold n in Hj; lia|].
      rewrite Heff, Nat.add_0_l, Z2Nat.id by lia. done.
    + right. rewrite Hstep. exists h1. split; [done|]. split; [by exists ws|]. apply (Hwhy _ (fun x => x)). do 4 right. exists j.
      split; [apply Happ; unfold n in Hj; lia|]. rewrite <- (Z2Nat.id j) by lia. change (index, Z.of_nat (Z.to_nat j)) with (f (Z.to_nat j)). rewrite Heff, Z2Nat.id by lia. done.
  - exists (inl h'), h', ws. split; [done|]. split; [|done]. left. split; [done|]. rewrite Z.add_0_l, Nat2Z.id in Hrel. split; [done|].
    intros s' Hs' _. simplify_eq. split_and!; try done; lia.
  - exists (inr h'), h', ws. split; [done|]. split; [by right|done].
Qed.

Lemma elf_relocate_spec h c :
  addressable -> holds h (<[p := c]> V) -> Z.of_nat (length c) = total ->
  exists res h' ws, elf_relocate r bytes header t addresses h = Some res /\
    (res = inl h' /\ relocations (items (Z.to_nat count)) ws /\ (forall index, 0 <= index < count -> rela_header_ok index) \/ res = inr h' /\ exists index, 0 <= index < count /\ bad_relocation index) /\
    holds h' (<[p := apply_writes c ws]> V) /\ Forall (write_fits total) ws.
Proof using Hbytes Hh Hl Ht Hx Haddr.
  intros Ha Hc Hlen. unfold elf_relocate. destruct (h_count _ _ Hh) as [Hpos _].
  destruct (for_break_rule (fun j h' => exists ws, holds h' (<[p := apply_writes c ws]> V) /\ Forall (write_fits total) ws /\ relocations (items (Z.to_nat j)) ws /\ forall index, 0 <= index < j -> rela_header_ok index)
    (fun h' => (exists ws, holds h' (<[p := apply_writes c ws]> V) /\ Forall (write_fits total) ws) /\ exists index, 0 <= index < count /\ bad_relocation index) (Z.to_nat count) 0
    (relocate_section r bytes header t addresses) h) as [(h' & -> & ws & Hh' & Hws & Hrel & Hhead)|(h' & -> & (ws & Hh' & Hws) & Hbad)].
  - exists []. split; [done|]. split; [done|]. split; [by exists []|]. intros index Hi. lia.
  - intros j h1 Hj (ws & Hh1 & Hws & Hrel & Hhead).
    destruct (relocate_section_spec j h1 (apply_writes c ws) Ha) as (res & h2 & ws2 & -> & Hres & Hh2 & Hws2); [lia|done| |].
    { rewrite apply_writes_length; [done|]. by rewrite Hlen. }
    destruct Hres as [(-> & Hrel2 & Hhead2)|[-> Hbad]]; [left|right]; exists h2; (split; [done|]).
    + exists (ws ++ ws2). rewrite apply_writes_app. split; [done|]. split; [by apply Forall_app|]. replace (Z.to_nat (j + 1)) with (S (Z.to_nat j)) by lia. cbn [items]. split.
      { apply relocations_app; [done|]. by rewrite Z2Nat.id by lia. }
      intros index Hi. destruct (Z.eq_dec index j) as [->|]; [done|apply Hhead; lia].
    + split; [|exists j; split; [lia|done]]. exists (ws ++ ws2). rewrite apply_writes_app. split; [done|by apply Forall_app].
  - exists (inl h'), h', ws. split; [done|]. split; [|done]. left. split; [done|]. rewrite Z.add_0_l, Nat2Z.id in Hrel. split; [done|]. intros index Hi. apply Hhead. lia.
  - exists (inr h'), h', ws. split; [done|]. split; [by right|done].
Qed.

(** ** The descriptor *)

(** The string table ends with a terminator. *)
Definition terminated : Prop := 0 < t_strings_size t -> rd bytes (t_strings t + t_strings_size t - 1) = Some 0.

Lemma find_descriptor_ok : terminated -> exists res, find_descriptor r bytes header t addresses = Some res.
Proof using Hbytes Hh Ht Hx Haddr.
  intros Hterm. unfold find_descriptor.
  match goal with |- context [for_break ?n 0 ?f tt] =>
    destruct (for_break_rule (fun _ (_ : unit) => True) (fun _ : option Z => True) n 0 f tt) as [([] & -> & _)|([v|] & -> & _)] end; [done| |by eexists..].
  intros j [] Hj _. pose proof (tb_count _ _ Ht).
  destruct (symbol_ok bytes Hbytes t j Ht) as (y & -> & Hy1 & Hy2 & _); [lia|]. rewrite bind_some.
  destruct (Z.leb_spec (t_strings_size t) (y_name y)) as [|Hlt]; [right; by eexists|]. unfold fits in Hy1. pose proof (tb_strings _ _ Ht).
  destruct (image_equal_ok bytes (chars "mvh_module_descriptor"%string) (t_strings t + y_name y) (t_strings t + t_strings_size t - 1)) as (b & ->);
    [repeat constructor; done|lia|apply Hterm; lia|]. rewrite bind_some. destruct b; cbn [negb]; [|left; by exists tt].
  destruct (resolve_elf_symbol_ok y) as (v & ->); [done..|]. rewrite bind_some. right. by eexists.
Qed.
End link.

Section descriptor.
Context (h : H) (V : gmap Z (list Z)) (p : Z) (c : list Z) (Hh : holds h V) (Hc : V !! p = Some c).
Notation total := (Z.of_nat (length c)).

Lemma load_field o n : 0 <= o -> o + Z.of_nat n <= total -> exists v, load_le h (p + o) n = Some v /\ 0 <= v < 256 ^ Z.of_nat n.
Proof using Hh Hc. intros Ho Hn. apply (load_le_ok h V p c); [done|done|unfold room; lia]. Qed.

Lemma heap_nlength_ok o limit :
  0 <= o -> 0 <= limit -> o + limit <= total -> exists n, heap_nlength h (p + o) limit = Some n /\ 0 <= n <= limit.
Proof using Hh Hc.
  intros Ho Hl Hr. unfold heap_nlength. destruct (p + o =? 0); [by exists 0|].
  destruct (for_break_rule (fun _ (_ : unit) => True) (fun k => 0 <= k <= limit) (Z.to_nat limit) 0
    (fun k u => x ← a_load8 h (p + o + k); Some (if x =? 0 then inr k else inl u)) tt) as [([] & -> & _)|(k & -> & Hk)]; [done| |by exists limit|by exists k].
  intros j [] Hj _. rewrite <- Z.add_assoc, (holds_load h V p c (o + j) Hh Hc) by lia.
  destruct (rd_ok c (o + j)) as (x & ->); [lia|]. rewrite bind_some. destruct (x =? 0).
  - right. exists j. split; [done|lia].
  - left. by exists tt.
Qed.

Lemma range_spec q n : 0 <= n -> allocation_range_valid q n p total = true -> exists o, q = p + o /\ 0 <= o /\ o + n <= total.
Proof.
  intros Hn E. unfold allocation_range_valid in E. bool_to_prop. exists (q - p). lia.
Qed.

(** A string that ends inside the allocation. *)
Definition ends_inside (q : Z) : Prop :=
  exists o n, q = p + o /\ 0 <= o /\ heap_nlength h q (total - o) = Some n /\ 0 <= n /\ o + n < total.

Lemma string_valid_ok q : exists b, string_valid h q p total = Some b /\ (b = true -> ends_inside q).
Proof using Hh Hc.
  unfold string_valid. destruct (allocation_range_valid q 1 p total) eqn:E; cbn [negb]; [|by exists false].
  apply range_spec in E as (o & -> & Ho & Hle); [|done]. replace (p + o - p) with o by lia.
  destruct (heap_nlength_ok o (total - o)) as (n & En & Hn); [lia..|]. rewrite En, bind_some. eexists. split; [done|].
  intros Hlt. bool_to_prop. exists o, n. split; [done|]. split; [done|]. split; [done|]. lia.
Qed.

Lemma string_at_ok q : ends_inside q -> exists t, string_at h q p total = Some t.
Proof using Hh Hc.
  intros (o & n & -> & Ho & En & Hn & Hlt). unfold string_at. destruct (p + o =? 0); [by eexists|].
  replace (p + o - p) with o by lia. rewrite En, bind_some, (load_bytes_spec (Z.to_nat n) h V p c o Hh Hc) by (unfold room; lia). by eexists.
Qed.

(** The first [n] pointers of an array lead to such strings. *)
Definition array_ok (array : Z) (n : nat) : Prop :=
  forall i, (i < n)%nat -> exists q, load_le h (array + Z.of_nat i * 8) 8 = Some q /\ ends_inside q.

Lemma dependencies_valid_ok count array :
  0 <= count -> (count = 0 \/ exists o, array = p + o /\ 0 <= o /\ o + count * 8 <= total) ->
  exists b, dependencies_valid h count array p total = Some b /\ (b = true -> array_ok array (Z.to_nat count)).
Proof using Hh Hc.
  intros Hn Harr. unfold dependencies_valid.
  match goal with |- context [for_break ?n 0 ?f tt] =>
    destruct (for_break_rule (fun j (_ : unit) => array_ok array (Z.to_nat j)) (fun _ : unit => True) n 0 f tt) as [([] & -> & Hj)|([] & -> & _)] end.
  - intros i Hi. lia.
  - intros j [] Hj Hok. destruct Harr as [->|(o & -> & Ho & Hle)]; [lia|].
    destruct (load_field (o + j * 8) 8) as (q & Eq & _); [lia|lia|]. rewrite <- Z.add_assoc, Eq, bind_some.
    destruct (string_valid_ok q) as (b & -> & Hb). rewrite bind_some. destruct b; cbn [negb]; [left|right; by eexists].
    exists tt. split; [done|]. intros i Hi. destruct (decide (i = Z.to_nat j)) as [->|]; [|apply Hok; lia].
    exists q. rewrite Z2Nat.id by lia. rewrite <- Z.add_assoc. split; [done|by apply Hb].
  - eexists. split; [done|]. intros _. by rewrite Z.add_0_l, Nat2Z.id in Hj.
  - by eexists.
Qed.

Lemma strings_at_ok n array : array_ok array n -> exists l, strings_at h array n p total = Some l /\ length l = n.
Proof using Hh Hc.
  revert array. induction n as [|n IH]; intros array Hok; cbn [strings_at]; [by eexists|].
  destruct (Hok 0%nat) as (q & Eq & Hq); [lia|]. rewrite Z.mul_0_l, Z.add_0_r in Eq. rewrite Eq, bind_some.
  destruct (string_at_ok q Hq) as (t & ->). rewrite bind_some.
  destruct (IH (array + 8)) as (l & -> & Hlen).
  { intros i Hi. destruct (Hok (S i)) as (q' & Eq' & Hq'); [lia|]. exists q'. split; [|done]. rewrite <- Eq'. f_equal. lia. }
  rewrite bind_some. eexists. split; [done|]. simpl. by rewrite Hlen.
Qed.

(** What the checks of the descriptor establish. *)
Definition descriptor_readable (q : Z) : Prop :=
  exists o name version count array, q = p + o /\ 0 <= o /\ o + sizeof_descriptor <= total /\
    load_le h (q + 8) 8 = Some name /\ ends_inside name /\ load_le h (q + 16) 8 = Some version /\ ends_inside version /\
    load_le h (q + 28) 4 = Some count /\ load_le h (q + 32) 8 = Some array /\ array_ok array (Z.to_nat count).

Ltac load_next := match goal with |- exists _, (load_le h (p + ?q + ?k) ?n ≫= _) = _ /\ _ =>
  let v := fresh "v" in let E := fresh "E" in let F := fresh "F" in
  destruct (load_field (q + k) n) as (v & E & F); [lia|lia|]; rewrite Z.add_assoc in E; rewrite E, bind_some end.

Lemma elf_descriptor_valid_ok q :
  exists b, elf_descriptor_valid h q p total = Some b /\ (b = true -> descriptor_readable q).
Proof using Hh Hc.
  unfold elf_descriptor_valid. destruct (_ || _) eqn:E; [by exists false|]. apply orb_false_iff in E as [_ E]. apply negb_false_iff in E.
  apply range_spec in E as (o & -> & Ho & Hle); [|done]. unfold sizeof_descriptor in Hle.
  load_next. destruct (allocation_range_valid v 1 p total) eqn:E1; cbn [negb]; [|by exists false].
  load_next. destruct (allocation_range_valid v0 1 p total) eqn:E2; cbn [negb]; [|by exists false].
  destruct (string_valid_ok v) as ([] & -> & Hv); rewrite bind_some; cbn [negb]; [|by exists false].
  destruct (string_valid_ok v0) as ([] & -> & Hv0); rewrite bind_some; cbn [negb]; [|by exists false].
  load_next. load_next. destruct (negb (v1 =? 0) && _) eqn:E5; [by exists false|].
  destruct (dependencies_valid_ok v1 v2) as (b & -> & Hb).
  { lia. }
  { destruct (Z.eqb_spec v1 0) as [|Hne]; [by left|right]. cbn [negb andb] in E5. apply negb_false_iff in E5. apply range_spec in E5; [done|lia]. }
  rewrite bind_some. destruct b; cbn [negb]; [|by exists false].
  load_next. destruct (negb (v3 =? 0) && _); [by exists false|]. load_next. eexists. split; [done|]. intros _.
  exists o, v, v0, v1, v2. split_and!; try done; auto.
Qed.

Lemma descriptor_at_ok q :
  descriptor_readable q -> exists d, descriptor_at h q p total = Some d /\ descriptor_typed d.
Proof using Hh Hc.
  intros (o & name & version & count & array & -> & Ho & Hle & En & Hn & Ev & Hv & Ec & Ea & Harr). unfold sizeof_descriptor in Hle.
  unfold descriptor_at. destruct (load_field o 4) as (v & E & _); [lia|lia|]. rewrite E, bind_some. clear E.
  load_next. rewrite En, bind_some. destruct (string_at_ok name Hn) as (t & ->). rewrite bind_some.
  rewrite Ev, bind_some. destruct (string_at_ok version Hv) as (t' & ->). rewrite bind_some. load_next. rewrite Ec, bind_some, Ea, bind_some.
  destruct (strings_at_ok (Z.to_nat count) array Harr) as (ds & -> & Hlen). rewrite bind_some. load_next. load_next.
  eexists. split; [done|]. split; cbn.
  - destruct (load_field (o + 28) 4) as (v' & E' & F'); [lia|lia|]. rewrite Z.add_assoc, Ec in E'. injection E' as <-. exact F'.
  - destruct (array =? 0); [done|]. lia.
Qed.
End descriptor.

(** ** The whole loader *)

(** The allocation after linking: the sections and then the relocations,
    written to zeros. *)
Definition linked (r : reg) (bytes : list Z) (header : elf64_header) (l : layout) (t : tables) (p : Z) (addresses c : list Z) : Prop :=
  exists ws, relocations bytes header l p t r addresses (items bytes header (Z.to_nat (e_section_count header))) ws /\
    (forall index, 0 <= index < e_section_count header -> rela_header_ok bytes header l p index) /\
    Forall (write_fits (allocation_size l)) ws /\
    c = apply_writes (replicate (Z.to_nat (allocation_size l)) 0) (section_writes bytes header l (Z.to_nat (e_section_count header)) ++ ws).

Lemma elf_link_stages r bytes header l t p V h :
  all_bytes bytes -> header_ok bytes header -> laid bytes header (e_section_count header) l -> tables_ok bytes t -> exports_ok r ->
  holds h (<[p := replicate (Z.to_nat (allocation_size l)) 0]> V) ->
  exists h1 addresses res, elf_place h bytes header l p = Some (h1, addresses) /\ placed bytes header l p (e_section_count header) addresses /\
    elf_relocate r bytes header t addresses h1 = Some res /\
    match res with
    | inl h' => exists c, linked r bytes header l t p addresses c /\ Z.of_nat (length c) = allocation_size l /\ holds h' (<[p := c]> V)
    | inr h' => (exists c, Z.of_nat (length c) = allocation_size l /\ holds h' (<[p := c]> V)) /\
        exists index, 0 <= index < e_section_count header /\ bad_relocation bytes header l p t r addresses index
    end.
Proof.
  intros Hb Hh Hl Ht Hx Hz. set (z := replicate _ 0) in Hz. pose proof (l_total _ _ _ _ Hl) as [Htot _]. destruct (h_count _ _ Hh) as [Hpos _].
  assert (Z.of_nat (length z) = allocation_size l) as Hlz by (unfold z; rewrite length_replicate; lia).
  assert (addressable l p) as Ha.
  { destruct (holds_range h _ p z Hz) as [H1' H2']; [by rewrite lookup_insert_eq|]. unfold addressable. lia. }
  destruct (elf_place_spec bytes Hb header Hh l Hl p V h z Ha Hz Hlz) as (h1 & addresses & E1 & Hpl & Hh1).
  pose proof (section_writes_fit bytes Hb header Hh l Hl (Z.to_nat (e_section_count header)) ltac:(lia)) as Hfit.
  set (sw := section_writes bytes header l (Z.to_nat (e_section_count header))) in *.
  assert (Z.of_nat (length (apply_writes z sw)) = allocation_size l) as Hl1 by (rewrite apply_writes_length; [done|by rewrite Hlz]).
  destruct (elf_relocate_spec bytes Hb header Hh l Hl p V t Ht r Hx addresses Hpl h1 _ Ha Hh1 Hl1) as (res & h2 & ws & E2 & Hres & Hh2 & Hws).
  exists h1, addresses, res. split; [done|]. split; [done|]. split; [done|].
  assert (Z.of_nat (length (apply_writes (apply_writes z sw) ws)) = allocation_size l) as Hl2 by (rewrite apply_writes_length; [done|by rewrite Hl1]).
  destruct Hres as [(-> & Hrel & Hhead)|[-> Hbad]]; [|split; [|done]; eexists; split; [exact Hl2|done]].
  eexists. split; [|split; [exact Hl2|done]]. exists ws. split; [done|]. split; [done|]. split; [done|]. by rewrite apply_writes_app.
Qed.

Context `{ModuleCode W} (call_init : Z -> reg -> reg * Z) (Hlaw : init_lawful call_init).

Lemma inv_heap r L held V h V' : inv r L held V -> holds h V' -> images L V' -> inv (with_heap (W := W) r h) L held V'.
Proof. intros [[] Hp] Hh Hi. split; [|done]. by constructor. Qed.

Lemma keeps_insert (V : gmap Z (list Z)) p c : keeps V (<[p := c]> V).
Proof. intros q Hq. destruct (decide (p = q)) as [<-|]; [rewrite lookup_insert_eq|rewrite lookup_insert_ne]; done. Qed.

(** An image that passes all checks up to its registration: it is linked in the
    [n] bytes at [p], and its descriptor there is [d]. *)
Inductive elf_accepted (r : reg) (bytes : list Z) : Z -> Z -> H -> mvh_module_descriptor -> Prop :=
  | accepted header l t h0 p h1 addresses h q d :
      sizeof_header <= Z.of_nat (length bytes) -> header_at bytes = Some header -> header_valid header (Z.of_nat (length bytes)) = true ->
      elf_layout bytes header (Z.of_nat (length bytes)) = Some (inl l) -> elf_tables bytes header l (Z.of_nat (length bytes)) = Some (Some t) ->
      a_kcalloc (heap_of r) 1 (allocation_size l) = Some (h0, p) -> p <> 0 ->
      elf_place h0 bytes header l p = Some (h1, addresses) -> elf_relocate (with_heap r h0) bytes header t addresses h1 = Some (inl h) ->
      find_descriptor (with_heap r h) bytes header t addresses = Some (inl q) ->
      elf_descriptor_valid h q p (allocation_size l) = Some true -> descriptor_at h q p (allocation_size l) = Some d ->
      elf_accepted r bytes p (allocation_size l) h d.

(** What a call of the loader does.  An image that is not accepted, or whose
    module cannot be registered, leaves no trace.  Otherwise the module is
    loaded; where that fails, its slot and its allocation are given back. *)
Definition elf_effect (r : reg) (L : list module_slot) (held : handles) (V : gmap Z (list Z)) (bytes : list Z)
    (res : reg * Z * cstr) (L' : list module_slot) (V' : gmap Z (list Z)) : Prop :=
  (res.1.2 = -1 /\ res.2 = None /\ L' = L /\ V' = V /\ world res.1.1 = world r /\
     forall p n h d, elf_accepted r bytes p n h d -> ~ admissible L d) \/
  (exists p n h c d r1 tr code r2 L2 V2,
     elf_accepted r bytes p n h d /\ admissible L d /\ V !! p = None /\ holds h (<[p := c]> V) /\
     let slot := ModuleSlot (Some d) MVH_MODULE_REGISTERED 0 p n 1 in
     inv r1 (L ++ [slot]) held (<[p := c]> V) /\ world r1 = world r /\
     load_effect call_init r1 (L ++ [slot]) (<[p := c]> V) (name d) tr code r2 L2 V2 /\
     if code =? 0 then res = (r2, 0, name d) /\ L' = L2 /\ V' = V2
     else res.1.2 = -1 /\ res.2 = None /\ world res.1.1 = world r2 /\ (exists s, L2 = L' ++ [s] /\ slot_name s = name d) /\ V' = delete p V2).

Definition elf_outcome (r : reg) (L : list module_slot) (held : handles) (V : gmap Z (list Z)) (bytes : list Z) (res : reg * Z * cstr) : Prop :=
  exists L' V', inv res.1.1 L' held V' /\ same_exports r res.1.1 /\ foreign r V res.1.1 V' /\ elf_effect r L held V bytes res L' V'.

Section refused.
Context (r : reg) (L : list module_slot) (held : handles) (V : gmap Z (list Z)) (bytes : list Z) (Hi : inv r L held V).

Lemma outcome_refused h :
  holds h V -> (forall p n h d, elf_accepted r bytes p n h d -> ~ admissible L d) -> elf_outcome r L held V bytes (with_heap r h, -1, None).
Proof using Hi.
  intros Hh Hno. exists L, V. cbn. split; [by apply (inv_heap r L held V); [| |apply (i_images _ _ _ _ (i_ok _ _ _ _ Hi))]|]. split; [done|].
  split; [by intros p|]. left. by split_and!.
Qed.

Lemma outcome_early :
  (forall p n h d, elf_accepted r bytes p n h d -> ~ admissible L d) -> elf_outcome r L held V bytes (r, -1, None).
Proof using Hi. intros Hno. exists L, V. cbn. split; [done|]. split; [done|]. split; [by intros p|]. left. by split_and!. Qed.

Lemma elf_fail_spec r0 p c h :
  V !! p = None -> holds h (<[p := c]> V) -> r0 = with_heap r h -> (forall p n h d, elf_accepted r bytes p n h d -> ~ admissible L d) ->
  exists res, elf_fail r0 p = Some (inl res) /\ elf_outcome r L held V bytes res.
Proof using Hi.
  intros Hp Hh -> Hno. unfold elf_fail. cbn [heap_of with_heap].
  destruct (holds_free h (<[p := c]> V) p Hh) as (h' & -> & Hh'); [by rewrite lookup_insert_eq|]. rewrite bind_some.
  rewrite delete_insert_eq, delete_id in Hh' by done. eexists. split; [done|]. by apply outcome_refused.
Qed.

(** The end of a load that failed. *)
Lemma elf_undo_spec r3 L1 s3 V3 p d :
  inv r3 (L1 ++ [s3]) held V3 -> slot_name s3 = name d -> ~ live s3 -> image s3 = p -> owned s3 <> 0 ->
  exists r4 h, find_slot r3 (name d) = Some (Some (Z.of_nat (length L1))) /\ remove_slot r3 (Z.of_nat (length L1)) = Some r4 /\ same_rest r3 r4 /\
    elf_fail r4 p = Some (inl (with_heap r4 h, -1, None)) /\ inv (with_heap r4 h) L1 held (delete p V3).
Proof using Type.
  intros Hi3 En Hl Eimg Hown. assert (s3 ∈ L1 ++ [s3]) as Hin by (apply elem_of_app; right; by apply list_elem_of_singleton).
  assert ((L1 ++ [s3]) !! length L1 = Some s3) as Hat by (by rewrite lookup_app_r, Nat.sub_diag by lia).
  destruct (find_slot_spec r3 (L1 ++ [s3]) _ V3 (name d) (i_ok _ _ _ _ Hi3)) as [(i & s & Ef & Hs & En')|(_ & Hno)]; [|by destruct (Hno s3 Hin)].
  pose proof (name_inj _ _ (i_table _ _ _ _ (i_ok _ _ _ _ Hi3)) i (length L1) s s3 Hs Hat ltac:(congruence)) as ->.
  destruct (remove_slot_spec r3 (L1 ++ [s3]) _ V3 (length L1) s3 (i_ok _ _ _ _ Hi3) Hat Hl) as (r4 & Er & Hi4 & Hrest4).
  assert (delete (length L1) (L1 ++ [s3]) = L1) as Edel by (rewrite delete_middle; apply app_nil_r). rewrite Edel in Hi4.
  destruct (i_images _ _ _ _ (i_ok _ _ _ _ Hi3)) as [Himg3 Hdist]. pose proof (Himg3 s3 Hin Hown) as Hsome. rewrite Eimg in Hsome.
  destruct (holds_free (heap_of r4) V3 p) as (h & Ek & Hh); [apply (i_heap _ _ _ _ Hi4)|done|].
  exists r4, h. split; [done|]. split; [done|]. split; [done|]. split; [unfold elf_fail; by rewrite Ek, bind_some|].
  apply (inv_heap r4 L1 held V3); [by apply (inv_rest r3); [|done|apply (i_held _ _ _ _ Hi3)]|done|].
  destruct (i_images _ _ _ _ Hi4) as [Himg4 Hdist4]. split; [|done]. intros x Hx' Hox.
  rewrite lookup_delete_ne; [by apply Himg4|]. intros Eq. apply list_elem_of_lookup in Hx' as (j & Hj). pose proof (lookup_lt_Some _ _ _ Hj) as Hjl.
  assert (j = length L1) as ->; [|lia]. apply (Hdist j (length L1) x s3); [by apply lookup_app_l_Some|done|done|done|congruence].
Qed.

Lemma elf_register_spec p c h q n :
  V !! p = None -> holds h (<[p := c]> V) -> n = Z.of_nat (length c) -> descriptor_readable h p c q ->
  (forall p' n' h' d, elf_accepted r bytes p' n' h' d -> descriptor_at h q p n = Some d) ->
  (forall d, descriptor_at h q p n = Some d -> elf_accepted r bytes p n h d) ->
  exists res, elf_register call_init (with_heap r h) q p n = Some (inl res) /\ elf_outcome r L held V bytes res.
Proof using Hlaw Hi.
  intros Hp Hh -> Hq Hback Hacc. unfold elf_register. cbn [heap_of with_heap].
  destruct (descriptor_at_ok h (<[p := c]> V) p c Hh (lookup_insert_eq _ _ _) q Hq) as (d & Ed & Hd). rewrite Ed, bind_some.
  destruct (i_images _ _ _ _ (i_ok _ _ _ _ Hi)) as [Himg _].
  assert (inv (with_heap r h) L held (<[p := c]> V)) as Hi1.
  { apply (inv_heap r L held V); [done|done|]. apply (images_keeps L V); [apply (i_images _ _ _ _ (i_ok _ _ _ _ Hi))|apply keeps_insert]. }
  destruct (register_spec (with_heap r h) L _ (<[p := c]> V) d p (Z.of_nat (length c)) 1 0 (i_ok _ _ _ _ Hi1) Hd) as (r2 & code & -> & Hrest & Hcase); [done| |].
  { intros _. split; [by rewrite lookup_insert_eq|]. intros s Hs Ho E. destruct (Himg s Hs Ho) as [x Hx]. congruence. }
  rewrite bind_some. destruct Hcase as [(Hadm & -> & Hi2)|(Hadm & -> & ->)]; cbn [negb Z.eqb].
  2:{ apply (elf_fail_spec _ p c h); try done. intros p' n' h' d' Ha. apply Hback in Ha. by simplify_eq. }
  change (if negb (0 =? 0) then MVH_MODULE_LIVE else MVH_MODULE_REGISTERED) with MVH_MODULE_REGISTERED in Hi2.
  set (slot := ModuleSlot _ _ _ _ _ _) in Hi2. apply (inv_rest (with_heap r h)) in Hi2; [|done|apply (i_held _ _ _ _ Hi)].
  assert (loadable (L ++ [slot]) < LOAD_DEPTH)%nat as Hfuel by (apply loadable_bound, (t_length _ _ (i_table _ _ _ _ (i_ok _ _ _ _ Hi2)))).
  destruct (load_spec call_init Hlaw LOAD_DEPTH r2 _ held _ (name d) Hi2 Hfuel) as (r3 & code & L3 & V3 & tr & -> & Hi3 & Heff).
  rewrite bind_some. pose proof (e_stage _ _ _ _ _ _ _ _ _ _ Heff) as Hst. pose proof (g_grown _ _ _ _ _ _ _ _ _ Hst) as Hg.
  pose proof (e_live _ _ _ _ _ _ _ _ _ _ Heff) as Hlive.
  destruct (proj1 (Forall2_app_inv_l _ _ _ _) Hg) as (L1 & L2 & Hg1 & Hg2 & E3).
  destruct L2 as [|s3 L2]; [by apply Forall2_cons_nil_inv in Hg2|]. apply Forall2_cons in Hg2 as [Hs3 Hg2]. apply Forall2_nil_inv_l in Hg2 as ->.
  subst L3. assert (slot_name s3 = name d) as En by (by rewrite (progress_name slot s3 Hs3)).
  assert (s3 ∈ L1 ++ [s3]) as Hin by (apply elem_of_app; right; by apply list_elem_of_singleton).
  rewrite (live_name r3 _ _ V3 s3 (name d) (i_ok _ _ _ _ Hi3) Hin En) in Hlive.
  assert (same_exports r r3) as Hx3 by (trans r2; [apply Hrest|apply (g_exports _ _ _ _ _ _ _ _ _ Hst)]).
  assert (world r2 = world r) as Ew by (by rewrite (same_rest_world _ _ Hrest)).
  assert (foreign r V r3 V3) as Hfor.
  { intros x Hx Hnm. apply (calls_foreign _ _ _ _ _ _ (g_calls _ _ _ _ _ _ _ _ _ Hst)); [by apply keeps_insert|by rewrite Ew]. }
  destruct Hs3 as ((_ & Eimg & _ & Eown) & _). change (image s3 = p) in Eimg. change (owned s3 = 1) in Eown.
  destruct (Z.eqb_spec code 0) as [->|Hne]; cbn [negb].
  - eexists. split; [done|]. exists (L1 ++ [s3]), V3. cbn. split; [done|]. split; [done|]. split; [done|]. right.
    exists p, (Z.of_nat (length c)), h, c, d, r2, tr, 0, r3, (L1 ++ [s3]), V3. split_and!; try done. by apply Hacc.
  - destruct (elf_undo_spec r3 L1 s3 V3 p d Hi3 En) as (r4 & h4 & -> & E4 & Hrest4 & E5 & Hi5); [tauto|done|by rewrite Eown|].
    rewrite bind_some, E4, bind_some, E5. eexists. split; [done|]. exists L1, (delete p V3). cbn. split; [done|]. split; [trans r3; [done|apply Hrest4]|].
    pose proof (same_rest_world r3 r4 Hrest4) as Ew4. split.
    { intros x Hx Hnm. cbn. rewrite Ew4. destruct (Hfor x Hx Hnm). split; [|done]. rewrite lookup_delete_ne; [done|]. intros <-. rewrite Hp in Hx. by destruct Hx. }
    right. exists p, (Z.of_nat (length c)), h, c, d, r2, tr, code, r3, (L1 ++ [s3]), V3. rewrite (proj2 (Z.eqb_neq _ _) Hne). cbn.
    split_and!; try done; [by apply Hacc|by exists s3].
Qed.
End refused.

Lemma elf_link_spec r L held V bytes header l t p h :
  inv r L held V -> all_bytes bytes -> header_ok bytes header -> laid bytes header (e_section_count header) l -> tables_ok bytes t ->
  terminated bytes t -> exports_ok r -> V !! p = None -> holds h (<[p := replicate (Z.to_nat (allocation_size l)) 0]> V) ->
  sizeof_header <= Z.of_nat (length bytes) -> header_at bytes = Some header -> header_valid header (Z.of_nat (length bytes)) = true ->
  elf_layout bytes header (Z.of_nat (length bytes)) = Some (inl l) -> elf_tables bytes header l (Z.of_nat (length bytes)) = Some (Some t) ->
  a_kcalloc (heap_of r) 1 (allocation_size l) = Some (h, p) -> p <> 0 ->
  exists res, elf_link call_init (with_heap r h) bytes header l t p = Some (inl res) /\ elf_outcome r L held V bytes res.
Proof using Hlaw.
  intros Hi Hb Hh Hl Ht Hterm Hx Hp Hz A1 A2 A3 A4 A5 A6 A7. assert (exports_ok (with_heap r h)) as Hx' by done. unfold elf_link.
  destruct (elf_link_stages (with_heap r h) bytes header l t p V h Hb Hh Hl Ht Hx' Hz) as (h1 & addresses & res & E1 & Hpl & E2 & Hres).
  cbn [heap_of with_heap]. change (heap_of (with_heap r h)) with h. rewrite E1, bind_some, E2, bind_some.
  destruct res as [h2|h2].
  - destruct Hres as (c & _ & Hlen & Hh2). change (with_heap (with_heap r h) h2) with (with_heap r h2).
    assert (exports_ok (with_heap r h2)) as Hx2 by done.
    destruct (find_descriptor_ok bytes Hb header Hh l p t Ht (with_heap r h2) Hx2 addresses Hpl Hterm) as ([q|[]] & Eq); rewrite Eq, bind_some.
    + destruct (elf_descriptor_valid_ok h2 (<[p := c]> V) p c Hh2 (lookup_insert_eq _ _ _) q) as ([] & Ev & Hq); rewrite Hlen in Ev; rewrite Ev, bind_some; cbn [negb].
      * apply (elf_register_spec r L held V bytes Hi p c h2 q); [done|done|done|by apply Hq| |].
        -- intros p' n' h' d Ha. destruct Ha. simplify_eq; congruence.
        -- intros d Ed. by eapply accepted.
      * apply (elf_fail_spec r L held V bytes Hi _ p c h2); try done. intros p' n' h' d Ha. destruct Ha. simplify_eq; congruence.
    + apply (elf_fail_spec r L held V bytes Hi _ p c h2); try done. intros p' n' h' d Ha. destruct Ha. simplify_eq; congruence.
  - destruct Hres as [(c & _ & Hh2) _]. apply (elf_fail_spec r L held V bytes Hi _ p c h2); try done. intros p' n' h' d Ha. destruct Ha. simplify_eq; congruence.
Qed.

(** Images that the loader is meant for: no huge section, and a string table
    that is terminated. *)
Definition well_formed (bytes : list Z) : Prop :=
  forall header, header_at bytes = Some header ->
    moderate bytes header /\
    forall l t, elf_layout bytes header (Z.of_nat (length bytes)) = Some (inl l) ->
      elf_tables bytes header l (Z.of_nat (length bytes)) = Some (Some t) -> terminated bytes t.

Lemma module_elf_load_spec r L held V bytes :
  inv r L held V -> exports_ok r -> all_bytes bytes -> well_formed bytes ->
  exists res, module_elf_load call_init r (Some bytes) (Z.of_nat (length bytes)) = Some (inl res) /\ elf_outcome r L held V bytes res.
Proof using Hlaw.
  intros Hi Hx Hb Hwf. pose proof (outcome_early r L held V bytes Hi) as Hno. unfold module_elf_load.
  destruct (Z.ltb_spec (Z.of_nat (length bytes)) sizeof_header) as [|Hsize].
  { eexists. split; [done|]. apply Hno. intros p n h d Ha. destruct Ha. lia. }
  destruct (header_at_ok bytes Hb) as (header & Eh & Ho & Hc); [unfold room, sizeof_header in *; lia|]. rewrite Eh, bind_some.
  destruct (Hwf header Eh) as [Hm Hterm].
  destruct (header_valid header (Z.of_nat (length bytes))) eqn:Ev; cbn [negb].
  2:{ eexists. split; [done|]. apply Hno. intros p n h d Ha. destruct Ha. simplify_eq; congruence. }
  pose proof (header_valid_ok bytes header Ho Hc Ev) as Hh.
  destruct (elf_layout_spec bytes Hb header Hh Hm) as ([l|[]] & El & Hl); rewrite El, bind_some.
  2:{ eexists. split; [done|]. apply Hno. intros p n h d Ha. destruct Ha. simplify_eq; congruence. }
  destruct (elf_tables_spec bytes Hb header Hh l Hl) as ([t|] & Et & Ht); rewrite Et, bind_some.
  2:{ eexists. split; [done|]. apply Hno. intros p n h d Ha. destruct Ha. simplify_eq; congruence. }
  destruct Ht as [Ht Hpos].
  destruct (l_total _ _ _ _ Hl) as [_ Hmax]. destruct (h_count _ _ Hh) as [_ Hlim]. unfold MAX_SECTION, ELF_SECTION_LIMIT in *. change (2 ^ 24) with 16777216 in Hmax.
  destruct (holds_calloc (heap_of r) V (allocation_size l) (i_heap _ _ _ _ (i_ok _ _ _ _ Hi))) as (h & p & Ek & Hcase);
    [unfold MAX_REQUEST; change (2 ^ 32) with 4294967296; lia|]. rewrite Ek, bind_some.
  destruct Hcase as [(-> & Hh')|(Hp & Hnew & Hh')].
  - cbn [Z.eqb]. eexists. split; [done|]. apply (outcome_refused r L held V bytes Hi h Hh'). intros p n h' d Ha. destruct Ha. simplify_eq; congruence.
  - rewrite (proj2 (Z.eqb_neq _ _) Hp). by apply (elf_link_spec r L held V); [| | | | |apply (Hterm l)|..].
Qed.
End correct.
