(* ===== verification/ElfSpec.v ===== *)
(** * The ELF loader: what linking means

    The values of symbols and the relocations of the x86-64 ABI, written down
    without reference to the loader, and that the loader applies exactly these:
    a relocatable image is linked when every one of its relocations is possible,
    and it is refused otherwise. *)

From Stdlib Require Import String.
From S2P Require Import Prelude Arith Buffer Heap HeapCorrect HeapInit Allocator Module ModuleTable ModuleCorrect ModuleLoad Elf ElfLayout ElfCorrect.

#[local] Open Scope Z_scope.

(** ** Machine integers *)

(** [v] and [x] are the same 64-bit word. *)
Definition same_word (v x : Z) : Prop := (v - x) mod 2 ^ 64 = 0.

Lemma same_word_shift v x : same_word v x <-> exists k, v = x + k * 2 ^ 64.
Proof.
  unfold same_word. pow2. split.
  - intros E. exists ((v - x) / 18446744073709551616). divlia.
  - intros (k & ->). replace (x + k * 18446744073709551616 - x) with (k * 18446744073709551616) by lia. by apply Z.mod_mul.
Qed.

Lemma i64_word x : same_word (i64 x) x.
Proof. apply same_word_shift. exists (- ((x + 2 ^ 63) / 2 ^ 64)). unfold i64. pow2. divlia. Qed.
Lemma u64_word x : same_word (u64 x) x.
Proof. apply same_word_shift. exists (- (x / 2 ^ 64)). unfold u64. pow2. divlia. Qed.
Lemma same_word_add v x w y : same_word v x -> same_word w y -> same_word (v + w) (x + y).
Proof. rewrite !same_word_shift. intros (k & ->) (k' & ->). exists (k + k'). lia. Qed.
Lemma same_word_sub v x w y : same_word v x -> same_word w y -> same_word (v - w) (x - y).
Proof. rewrite !same_word_shift. intros (k & ->) (k' & ->). exists (k - k'). lia. Qed.
Lemma same_word_refl x : same_word x x.
Proof. apply same_word_shift. exists 0. lia. Qed.
Lemma same_word_trans x y z : same_word x y -> same_word y z -> same_word x z.
Proof. rewrite !same_word_shift. intros (k & ->) (k' & ->). exists (k + k'). lia. Qed.
Lemma same_word_sym x y : same_word x y -> same_word y x.
Proof. rewrite !same_word_shift. intros (k & ->). exists (- k). lia. Qed.

(** Words that differ by less than 2^64 are equal. *)
Lemma same_word_eq v x : same_word v x -> v - 2 ^ 64 < x < v + 2 ^ 64 -> v = x.
Proof. rewrite same_word_shift. intros (k & ->) Hx. pow2. assert (k = 0) as -> by lia. lia. Qed.
Lemma i64_range x : - 2 ^ 63 <= i64 x < 2 ^ 63.
Proof. unfold i64. pow2. divlia. Qed.
Lemma u64_word_eq v x : same_word v x -> u64 v = u64 x.
Proof. rewrite same_word_shift. intros (k & ->). unfold u64. by rewrite Z.mod_add by done. Qed.

(** ** Relocations of the x86-64 ABI *)

(** What a relocation stores at the place [P], for a symbol of value [S] and an
    addend [A]: nothing, the word S + A, or the 32 bits of a value that is S + A,
    or S + A - P, and fits, with or without a sign. *)
Inductive relocates (S A P : Z) : Z -> option (list Z) -> Prop :=
  | relocates_none : relocates S A P R_X86_64_NONE None
  | relocates_64 : relocates S A P R_X86_64_64 (Some (le_bytes 8 ((S + A) mod 2 ^ 64)))
  | relocates_pc32 type v :
      type = R_X86_64_PC32 \/ type = R_X86_64_PLT32 -> same_word v (S + A - P) -> - 2 ^ 31 <= v < 2 ^ 31 ->
      relocates S A P type (Some (le_bytes 4 (v mod 2 ^ 32)))
  | relocates_32 v : same_word v (S + A) -> 0 <= v < 2 ^ 32 -> relocates S A P R_X86_64_32 (Some (le_bytes 4 v))
  | relocates_32s v : same_word v (S + A) -> - 2 ^ 31 <= v < 2 ^ 31 -> relocates S A P R_X86_64_32S (Some (le_bytes 4 (v mod 2 ^ 32))).

Lemma relocates_unique S A P type w w' : relocates S A P type w -> relocates S A P type w' -> w = w'.
Proof.
  assert (Heq : forall v v' x, same_word v x -> same_word v' x -> v - 2 ^ 64 < v' < v + 2 ^ 64 -> v = v').
  { intros v v' x Hv Hv' Hb. apply same_word_eq; [|done]. apply (same_word_trans _ x); [done|by apply same_word_sym]. }
  intros Hw Hw'. destruct Hw as [| |type v Ht' Hv Hb|v Hv Hb|v Hv Hb]; inversion Hw' as [E|E|type' v' Ht2 Hv' Hb' E|v' Hv' Hb' E|v' Hv' Hb' E]; try done;
    try (by rewrite (Heq v v' _ Hv Hv') by (pow2; lia)); exfalso; rewrite <- ?E in *;
    unfold R_X86_64_NONE, R_X86_64_64, R_X86_64_PC32, R_X86_64_PLT32, R_X86_64_32, R_X86_64_32S in *; lia.
Qed.

(** The function of the loader computes this relation. *)
Lemma relocation_value_spec S A P type :
  match relocation_value type (i64 (i64 S + A)) (u64 P) with
  | inl None => relocates S A P type None
  | inl (Some (n, v)) => relocates S A P type (Some (le_bytes n v))
  | inr _ => forall w, ~ relocates S A P type w
  end.
Proof.
  set (value := i64 (i64 S + A)).
  assert (same_word value (S + A)) as Hv.
  { apply (same_word_trans _ (i64 S + A)); [apply i64_word|]. apply same_word_add; [apply i64_word|apply same_word_refl]. }
  pose proof (i64_range (i64 S + A)) as Hr. fold value in Hr.
  unfold relocation_value, R_X86_64_NONE, R_X86_64_64, R_X86_64_PC32, R_X86_64_PLT32, R_X86_64_32, R_X86_64_32S.
  destruct (Z.eqb_spec type 0) as [->|N0]; [apply relocates_none|].
  destruct (Z.eqb_spec type 1) as [->|N1].
  { rewrite (u64_word_eq _ _ Hv). unfold u64. apply relocates_64. }
  destruct ((type =? 2) || (type =? 4)) eqn:Epc.
  { set (relative := i64 (value - i64 (u64 P))).
    assert (same_word relative (S + A - P)) as Hrel.
    { apply (same_word_trans _ (value - i64 (u64 P))); [apply i64_word|]. apply same_word_sub; [done|].
      apply (same_word_trans _ (u64 P)); [apply i64_word|apply u64_word]. }
    pose proof (i64_range (value - i64 (u64 P))) as Hr2. fold relative in Hr2.
    assert (type = 2 \/ type = 4) as Htype by (apply orb_true_iff in Epc as [E|E]; apply Z.eqb_eq in E; auto).
    clear Epc. unfold INT32_MIN, INT32_MAX. destruct (_ || _) eqn:Eb.
    - cbv iota. intros w Hw. inversion Hw; subst; try (unfold R_X86_64_NONE, R_X86_64_64, R_X86_64_32, R_X86_64_32S in *; lia).
      assert (v = relative) as ->; [|pow2; apply orb_true_iff in Eb as [E|E]; bool_to_prop; lia].
      apply same_word_eq; [|pow2; lia]. apply (same_word_trans _ (S + A - P)); [done|by apply same_word_sym].
    - apply orb_false_iff in Eb as [E1 E2]. bool_to_prop. unfold u32. apply relocates_pc32; [done|done|pow2; lia]. }
  apply orb_false_iff in Epc as [E2 E4]. bool_to_prop.
  assert (Huniq : forall v, same_word v (S + A) -> - 2 ^ 63 <= v < 2 ^ 63 -> v = value).
  { intros v Hw Hb. apply same_word_eq; [|pow2; lia]. apply (same_word_trans _ (S + A)); [done|by apply same_word_sym]. }
  destruct (Z.eqb_spec type 10) as [->|N10].
  { destruct (_ || _) eqn:Eb.
    - cbv iota. intros w Hw. inversion Hw; subst; try (unfold R_X86_64_PC32, R_X86_64_PLT32 in *; lia).
      assert (v = value) as -> by (apply Huniq; [done|pow2; lia]). rewrite u64_small in Eb by (unfold fits; pow2; lia).
      unfold U32_MAX in Eb. pow2. apply orb_true_iff in Eb as [E|E]; bool_to_prop; lia.
    - apply orb_false_iff in Eb as [E5 E6]. bool_to_prop. rewrite u64_small in E6 by (unfold fits; pow2; lia). unfold U32_MAX in E6.
      rewrite u32_small by (unfold fits; pow2; lia). apply relocates_32; [done|pow2; lia]. }
  destruct (Z.eqb_spec type 11) as [->|N11].
  { unfold INT32_MIN, INT32_MAX. destruct (_ || _) eqn:Eb.
    - cbv iota. intros w Hw. inversion Hw; subst; try (unfold R_X86_64_PC32, R_X86_64_PLT32 in *; lia).
      assert (v = value) as -> by (apply Huniq; [done|pow2; lia]). apply orb_true_iff in Eb as [E|E]; bool_to_prop; pow2; lia.
    - apply orb_false_iff in Eb as [E5 E6]. bool_to_prop. unfold u32. apply relocates_32s; [done|pow2; lia]. }
  cbv iota. intros w Hw. inversion Hw; subst; unfold R_X86_64_NONE, R_X86_64_64, R_X86_64_PC32, R_X86_64_PLT32, R_X86_64_32, R_X86_64_32S in *; lia.
Qed.

(** ** Strings of the image *)

(** The string at [o], which ends before [o + limit]. *)
Definition nonzero_until (bytes : list Z) (o n : Z) : Prop := forall k, 0 <= k < n -> exists c, rd bytes (o + k) = Some c /\ c <> 0.
Definition c_string (bytes : list Z) (o limit : Z) (name : list Z) : Prop :=
  exists n, 0 <= n < limit /\ nonzero_until bytes o n /\ rd bytes (o + n) = Some 0 /\ name = slice bytes o n.

Lemma image_nlength_spec bytes o limit :
  0 <= o -> 0 <= limit -> o + limit <= Z.of_nat (length bytes) ->
  exists n, image_nlength bytes o limit = Some n /\ nonzero_until bytes o n /\ (n = limit \/ 0 <= n < limit /\ rd bytes (o + n) = Some 0).
Proof.
  intros Ho Hl Hr. unfold image_nlength.
  destruct (for_break_rule (fun j (_ : unit) => nonzero_until bytes o j) (fun k => 0 <= k < limit /\ nonzero_until bytes o k /\ rd bytes (o + k) = Some 0)
    (Z.to_nat limit) 0 (fun k u => c ← rd bytes (o + k); Some (if c =? 0 then inr k else inl u)) tt) as [([] & -> & Hnz)|(k & -> & Hk & Hnz & Hz)].
  - intros k Hk. lia.
  - intros j [] Hj Hnz. destruct (rd_ok bytes (o + j)) as (c & Hc); [lia|]. rewrite Hc, bind_some. destruct (Z.eqb_spec c 0) as [->|Hne].
    + right. exists j. split; [done|]. split; [lia|done].
    + left. exists tt. split; [done|]. intros k Hk. destruct (Z.eq_dec k j) as [->|]; [by exists c|apply Hnz; lia].
  - exists limit. rewrite bind_some. replace (0 + Z.of_nat (Z.to_nat limit)) with limit in Hnz by lia. split; [done|]. split; [done|by left].
  - exists k. rewrite bind_some. split; [done|]. split; [done|by right].
Qed.

Lemma c_string_unique bytes o limit n name :
  nonzero_until bytes o n -> n = limit \/ 0 <= n < limit /\ rd bytes (o + n) = Some 0 -> c_string bytes o limit name -> n < limit /\ name = slice bytes o n.
Proof.
  intros Hnz Hn (m & Hm & Hnz' & Hz & ->). destruct (Z.lt_trichotomy m n) as [Hlt|[->|Hgt]].
  - destruct (Hnz m ltac:(lia)) as (c & Hc & Hne). congruence.
  - split; [lia|done].
  - destruct Hn as [->|[Hn Hz']]; [lia|]. destruct (Hnz' n ltac:(lia)) as (c & Hc & Hne). congruence.
Qed.

(** The list of all relocations. *)
Lemma items_elem bytes header n index item s :
  0 <= index < Z.of_nat n -> section bytes header index = Some s -> s_type s = SHT_RELA -> 0 <= item < s_size s / sizeof_rela ->
  (index, item) ∈ items bytes header n.
Proof.
  intros Hi Es Et Hit. induction n as [|n IH]; [lia|]. cbn [items]. apply elem_of_app. destruct (Z.eq_dec index (Z.of_nat n)) as [->|Hne]; [right|left; apply IH; lia].
  unfold section_items. rewrite Es, Et. cbn [Z.eqb]. apply list_elem_of_fmap. exists (Z.to_nat item). split; [f_equal; lia|]. apply elem_of_seq. lia.
Qed.

Section spec.
Context {H W : Type} `{AllocatorLaws H}.
Notation reg := (registry H W).

(** ** The symbol table *)

(** The first entry of a name. *)
Fixpoint lookup_export (l : list export_slot) (t : cstr) : Z :=
  match l with
  | [] => 0
  | e :: l => if str_equal (export_name e) t then export_address e else lookup_export l t
  end.
Definition active_exports (r : reg) : list export_slot := take (Z.to_nat (registered_exports r)) (exports r).

Definition exported (l : list export_slot) (t : cstr) : Prop := exists e, e ∈ l /\ export_name e = t.

Lemma lookup_export_new l e t :
  ~ exported l (export_name e) -> lookup_export (l ++ [e]) t = if decide (t = export_name e) then export_address e else lookup_export l t.
Proof.
  intros Hno. induction l as [|x l IH]; cbn [app lookup_export]; unfold str_equal in *.
  - destruct (decide (t = export_name e)) as [->|]; [by rewrite bool_decide_true|by rewrite bool_decide_false by congruence].
  - rewrite IH by (intros (y & Hy & Ey); apply Hno; exists y; split; [by right|done]).
    case_bool_decide as Ex; [|done]. rewrite decide_False; [done|]. intros ->. apply Hno. exists x. split; [left|done].
Qed.

Lemma resolve_symbol_spec (r : reg) t : exports_ok r -> module_resolve_symbol r t = Some (lookup_export (active_exports r) t).
Proof.
  intros [Hlen Hn]. unfold module_resolve_symbol, active_exports.
  assert (Hgen : forall n i, Z.of_nat i + Z.of_nat n <= Z.of_nat (length (exports r)) ->
    (res ← for_break n (Z.of_nat i) (fun index u => e ← rd (exports r) index;
       Some (if str_equal (export_name e) t then inr (export_address e) else inl u)) tt;
     Some (match res with inl _ => 0 | inr address => address end)) = Some (lookup_export (take n (drop i (exports r))) t)).
  { induction n as [|n IH]; intros i Hi; [done|]. rewrite for_break_S.
    destruct (lookup_lt_is_Some_2 (exports r) i) as [e He]; [lia|]. 
    assert (rd (exports r) (Z.of_nat i) = Some e) as -> by (apply rd_Some; rewrite Nat2Z.id; split; [lia|done]).
    rewrite (drop_S _ _ _ He). cbn [take lookup_export mbind option_bind]. destruct (str_equal (export_name e) t); [done|].
    replace (Z.of_nat i + 1) with (Z.of_nat (S i)) by lia. apply IH. lia. }
  apply (Hgen _ 0%nat). rewrite Hlen. unfold EXPORT_LIMIT in *. lia.
Qed.

(** ** Symbols and relocations of an image *)

Section image.
Context (r : reg) (bytes : list Z) (header : elf64_header) (l : layout) (t : tables) (p : Z).
Notation count := (e_section_count header).

(** The value of a symbol, when the allocation is at [p]: it is absolute, it is
    one that the kernel exports, or it is in a section that has memory.  A
    symbol of another section is taken to be 0, and an undefined symbol that is
    not exported has no value. *)
Inductive symbol_value (y : elf64_symbol) : Z -> Prop :=
  | symbol_absolute : y_section y = SHN_ABS -> symbol_value y (y_value y)
  | symbol_undefined text :
      y_section y = SHN_UNDEF -> c_string bytes (t_strings t + y_name y) (t_strings_size t - y_name y) text ->
      lookup_export (active_exports r) (Some text) <> 0 -> symbol_value y (lookup_export (active_exports r) (Some text))
  | symbol_in_section s o :
      y_section y <> SHN_ABS -> y_section y <> SHN_UNDEF -> y_section y < count ->
      section bytes header (y_section y) = Some s -> allocated s -> rd (offsets l) (y_section y) = Some o ->
      symbol_value y ((p + o + y_value y) mod 2 ^ 64)
  | symbol_nowhere :
      y_section y <> SHN_ABS -> y_section y <> SHN_UNDEF ->
      count <= y_section y \/ (exists s, section bytes header (y_section y) = Some s /\ ~ allocated s) -> symbol_value y 0.

(** What the relocation [item] of the section [index] writes, as an offset of
    the allocation and bytes, or nothing. *)
Definition relocation (index item : Z) (e : option (Z * list Z)) : Prop :=
  exists s target rel y S o w,
    section bytes header index = Some s /\ rela_at bytes (s_offset s + item * sizeof_rela) = Some rel /\
    section bytes header (s_info s) = Some target /\ rd (offsets l) (s_info s) = Some o /\
    r_info rel / 2 ^ 32 < t_symbol_count t /\ symbol_at bytes (t_symbols t + r_info rel / 2 ^ 32 * sizeof_symbol) = Some y /\
    r_offset rel + (if r_info rel mod 2 ^ 32 =? R_X86_64_64 then 8 else 4) <= s_size target /\
    symbol_value y S /\ relocates S (r_addend rel) (p + o + r_offset rel) (r_info rel mod 2 ^ 32) w /\
    e = (x ← w; Some (o + r_offset rel, x)).

(** A section of relocations that cannot be applied. *)
Definition refused (index : Z) : Prop :=
  exists s, section bytes header index = Some s /\ s_type s = SHT_RELA /\
    (count <= s_info s \/ (exists target, section bytes header (s_info s) = Some target /\ ~ allocated target) \/
     s_entry_size s <> sizeof_rela \/ s_size s mod sizeof_rela <> 0 \/
     exists item, 0 <= item < s_size s / sizeof_rela /\ forall e, ~ relocation index item e).

Context (Hbytes : all_bytes bytes) (Hh : header_ok bytes header) (Hl : laid bytes header count l) (Ht : tables_ok bytes t) (Hx : exports_ok r).
Context (addresses : list Z) (Haddr : placed bytes header l p count addresses) (Hp : addressable l p).

Lemma symbol_value_unique y v w : symbol_value y v -> symbol_value y w -> v = w.
Proof using Type.
  intros Hv Hw. destruct Hv as [A|text A B C|s o A1 A2 A3 A4 A5 A6|A1 A2 A3]; inversion Hw as [D|text' D E F|s' o' D1 D2 D3 D4 D5 D6|D1 D2 D3]; subst; try done;
    try (rewrite A in D; done).
  - destruct B as (n & Hn & Hnz & Hz & ->). destruct (c_string_unique bytes _ _ n text' Hnz (or_intror (conj Hn Hz)) E) as [_ ->]. done.
  - by simplify_eq.
  - destruct D3 as [|(s2 & ? & ?)]; [lia|]. by simplify_eq.
  - destruct A3 as [|(s2 & ? & ?)]; [lia|]. by simplify_eq.
Qed.

Lemma relocation_unique index item e e' : relocation index item e -> relocation index item e' -> e = e'.
Proof using Type.
  intros (s & target & rel & y & S & o & w & A1 & A2 & A3 & A4 & A5 & A6 & A7 & A8 & A9 & ->).
  intros (s' & target' & rel' & y' & S' & o' & w' & B1 & B2 & B3 & B4 & B5 & B6 & B7 & B8 & B9 & ->). simplify_eq.
  rewrite (symbol_value_unique y S S' A8 B8) in A9. by rewrite (relocates_unique _ _ _ _ w w' A9 B9).
Qed.

(** [resolve_elf_symbol] computes it; 0 for an undefined symbol means that it has none. *)
Lemma resolve_module_spec y :
  fits 32 (y_name y) -> fits 16 (y_section y) ->
  exists v, resolve_elf_symbol r bytes y (t_strings t) (t_strings_size t) addresses count = Some v /\
    (if (v =? 0) && (y_section y =? SHN_UNDEF) then forall w, ~ symbol_value y w else symbol_value y v).
Proof using All.
  intros Hn Hs. unfold resolve_elf_symbol. unfold fits in *. destruct (Z.eqb_spec (y_section y) SHN_ABS) as [Ea|Ea].
  { exists (y_value y). split; [done|]. rewrite Ea. change (SHN_ABS =? SHN_UNDEF) with false. rewrite andb_false_r. by apply symbol_absolute. }
  destruct (Z.eqb_spec (y_section y) SHN_UNDEF) as [Eu|Eu].
  - assert (Hnone : (forall text, ~ c_string bytes (t_strings t + y_name y) (t_strings_size t - y_name y) text) ->
      exists v, Some 0 = Some v /\ (if (v =? 0) && true then forall w, ~ symbol_value y w else symbol_value y v)).
    { intros Hno. exists 0. split; [done|]. intros w Hw. inversion Hw; subst; try (by rewrite Eu in *). by apply (Hno text). }
    destruct (Z.leb_spec (t_strings_size t) (y_name y)) as [Hge|Hlt].
    { apply Hnone. intros text (n & ? & _). lia. }
    destruct Ht as [_ _ _ Hst Hsz Hend].
    destruct (image_nlength_spec bytes (t_strings t + y_name y) (t_strings_size t - y_name y)) as (n & -> & Hnz & Hcase); [lia..|]. rewrite bind_some.
    destruct (Z.eqb_spec n (t_strings_size t - y_name y)) as [En|En].
    { apply Hnone. intros text Htext. destruct (c_string_unique _ _ _ n text Hnz Hcase Htext). lia. }
    destruct Hcase as [|[Hn' Hz]]; [done|].
    assert (Hstr : c_string bytes (t_strings t + y_name y) (t_strings_size t - y_name y) (slice bytes (t_strings t + y_name y) n)) by (by exists n).
    rewrite resolve_symbol_spec by done. eexists. split; [done|]. rewrite andb_true_r.
    destruct (Z.eqb_spec (lookup_export (active_exports r) (Some (slice bytes (t_strings t + y_name y) n))) 0) as [E0|E0].
    + intros w Hw. inversion Hw as [D|text D Hc Hne|s' o' D1 D2 D3 D4 D5 D6|D1 D2 D3]; subst; try (by rewrite Eu in *).
      destruct (c_string_unique _ _ _ n text Hnz (or_intror (conj Hn' Hz)) Hc) as [_ ->]. done.
    + by apply symbol_undefined.
  - destruct (Z.leb_spec count (y_section y)) as [Hge|Hlt].
    { exists 0. split; [done|]. rewrite andb_false_r. apply symbol_nowhere; [done|done|by left]. }
    destruct (h_count _ _ Hh) as [_ Hmax]. destruct Haddr as [_ Hrd]. rewrite Hrd, (proj2 (Z.ltb_lt _ _) Hlt), bind_some by lia.
    eexists. split; [done|]. rewrite andb_false_r.
    destruct (section_ok bytes Hbytes header Hh (y_section y)) as (s & Es & Hf); [lia|].
    destruct (Z.eqb_spec (s_flags s &&& SHF_ALLOC) 0) as [Ef|Ef].
    + assert (address_of bytes header l p (y_section y) = 0) as -> by (unfold address_of; rewrite Es; destruct (rd _ _); [by rewrite Ef|done]).
      cbn [Z.eqb]. apply symbol_nowhere; [done|done|]. right. exists s. split; [done|]. by intros ?.
    + destruct (l_place _ _ _ _ Hl (y_section y) s ltac:(lia) Es Ef) as (o & Eo & Ho & _ & Hle).
      assert (address_of bytes header l p (y_section y) = p + o) as -> by (unfold address_of; rewrite Es, Eo; by rewrite (proj2 (Z.eqb_neq _ _) Ef)).
      rewrite (proj2 (Z.eqb_neq (p + o) 0)) by (destruct Hp; lia). unfold u64. by apply (symbol_in_section y s o).
Qed.

(** One relocation is applied as it should, or refused because it cannot be. *)
Lemma relocation_effect index item :
  applicable bytes header l p (index, item) ->
  exists e, effect_of bytes header t r addresses (index, item) = Some e /\
    match e with
    | inl e => relocation index item (x ← e; Some (x.1 - p, x.2))
    | inr _ => forall e', ~ relocation index item e'
    end.
Proof using All.
  intros (s & Es & Hf & Hfile & Hitem & Hinfo & Hbase). cbn [fst snd] in *. destruct Hp as [Hp0 Hend].
  destruct (section_ok bytes Hbytes header Hh (s_info s) Hinfo) as (target & Et & _).
  destruct (address_spec bytes header l Hl p (s_info s) target Hinfo Et Hbase) as (o & Eo & Ea & Ho & Hle & Hal).
  destruct (h_count _ _ Hh) as [_ Hmax].
  unfold effect_of. cbn [fst snd]. rewrite Es, bind_some. destruct Haddr as [_ Hrd]. rewrite Hrd, (proj2 (Z.ltb_lt _ _)), bind_some by lia.
  rewrite Et, bind_some, Ea. unfold rela_effect. pose proof (f_offset s Hf) as Hfo. pose proof (f_size s Hf) as Hfs. unfold fits in Hfo, Hfs.
  destruct (rela_at_ok bytes (s_offset s + item * sizeof_rela)) as (rel & Erel & Hro & Hri); [done|unfold room, sizeof_rela in *; divlia|].
  rewrite Erel, bind_some. unfold fits in Hro, Hri.
  assert (u32 (r_info rel >> 32) = r_info rel / 2 ^ 32) as ->.
  { rewrite Z.shiftr_div_pow2 by done. apply u32_small. unfold fits. pow2. divlia. }
  change (u32 (r_info rel)) with (r_info rel mod 2 ^ 32). set (type := r_info rel mod 2 ^ 32). set (sym := r_info rel / 2 ^ 32).
  set (width := if type =? R_X86_64_64 then 8 else 4). assert (0 < width) as Hwidth by (unfold width; destruct (type =? _); lia).
  assert (Hspec : forall e', relocation index item e' -> exists y S w, sym < t_symbol_count t /\ symbol_at bytes (t_symbols t + sym * sizeof_symbol) = Some y /\
    r_offset rel + width <= s_size target /\ symbol_value y S /\ relocates S (r_addend rel) (p + o + r_offset rel) type w /\ e' = (x ← w; Some (o + r_offset rel, x))).
  { intros e' (s' & target' & rel' & y & S & o' & w & A1 & A2 & A3 & A4 & A5 & A6 & A7 & A8 & A9 & A10). simplify_eq. by exists y, S, w. }
  destruct (_ || _) eqn:E.
  { eexists. split; [done|]. intros e' (y & S & w & A1 & A2 & A3 & _)%Hspec.
    apply orb_true_iff in E as [E|E]; [apply orb_true_iff in E as [E|E]|]; bool_to_prop; lia. }
  apply orb_false_iff in E as [E E3]. apply orb_false_iff in E as [E1 E2]. bool_to_prop.
  destruct (symbol_ok bytes Hbytes t sym Ht) as (y & Ey & Hy1 & Hy2 & _); [unfold sym; pow2; divlia|]. rewrite Ey, bind_some.
  destruct (resolve_module_spec y Hy1 Hy2) as (v & Ev & Hv). rewrite Ev, bind_some.
  destruct ((v =? 0) && (y_section y =? SHN_UNDEF)).
  { eexists. split; [done|]. intros e' (y' & S & w & A1 & A2 & A3 & A4 & _)%Hspec. assert (y' = y) as -> by congruence. by apply (Hv S). }
  pose proof (relocation_value_spec v (r_addend rel) (p + o + r_offset rel) type) as Hrv. cbv zeta.
  destruct (relocation_value type (i64 (i64 v + r_addend rel)) (u64 (p + o + r_offset rel))) as [[[n b]|]|[]] eqn:Er.
  - eexists. split; [done|]. cbv beta iota. rewrite bind_some. cbn [fst snd]. rewrite u64_small by (unfold fits; lia).
    exists s, target, rel, y, v, o, (Some (le_bytes n b)). split_and!; try done; [change (r_offset rel + width <= s_size target); lia|]. rewrite bind_some. do 2 f_equal. lia.
  - eexists. split; [done|]. exists s, target, rel, y, v, o, None. split_and!; try done. change (r_offset rel + width <= s_size target). lia.
  - eexists. split; [done|]. intros e' (y' & S & w & A1 & A2 & A3 & A4 & A5 & _)%Hspec. assert (y' = y) as -> by congruence.
    rewrite (symbol_value_unique y S v A4 Hv) in A5. by apply (Hrv w).
Qed.

Lemma relocations_spec its ws :
  relocations bytes header l p t r addresses its ws ->
  exists es, Forall2 (fun it e => relocation it.1 it.2 e) its es /\ ws = omap id es.
Proof using All.
  intros (es & Hes & ->). exists ((fun e => x ← e; Some (x.1 - p, x.2)) <$> es). split.
  - apply Forall2_fmap_r. eapply Forall2_impl; [exact Hes|]. intros [index item] e [Ha He].
    destruct (relocation_effect index item Ha) as (e' & E & Hrel). rewrite He in E. by injection E as <-.
  - unfold to_writes. induction es as [|e es IH] in its, Hes |- *; [done|]. apply Forall2_cons_inv_r in Hes as (it & its' & _ & Hes' & _).
    cbn. rewrite (IH its' Hes'). by destruct e.
Qed.

Lemma bad_relocation_spec index : 0 <= index < count -> bad_relocation bytes header l p t r addresses index -> refused index.
Proof using All.
  intros Hi (s & Es & Et & Hcase). exists s. split; [done|]. split; [done|].
  destruct Hcase as [?|[Ha|[?|[?|(item & Ha & He)]]]]; [by left| |by auto..|].
  - destruct (decide (s_info s < count)) as [Hlt|]; [|left; lia]. right. left.
    destruct (section_ok bytes Hbytes header Hh index Hi) as (s' & Es' & Hf). simplify_eq. pose proof (f_info s Hf) as Hfi. unfold fits in Hfi.
    destruct (section_ok bytes Hbytes header Hh (s_info s)) as (target & Etg & _); [lia|]. exists target. split; [done|]. intros Hal.
    destruct (l_place _ _ _ _ Hl (s_info s) target ltac:(lia) Etg Hal) as (o & Eo & Ho & _). unfold address_of in Ha. rewrite Etg, Eo in Ha.
    rewrite (proj2 (Z.eqb_neq _ _) Hal) in Ha. destruct Hp. lia.
  - do 4 right. destruct Ha as (s' & Es' & Hrest). cbn [fst snd] in *. simplify_eq. exists item. split; [apply Hrest|].
    destruct (relocation_effect index item) as (e & E & Hno); [by exists s|]. rewrite He in E. by injection E as <-.
Qed.

(** An image that was linked has no such section. *)
Lemma linked_accepts ws :
  relocations bytes header l p t r addresses (items bytes header (Z.to_nat count)) ws ->
  (forall index, 0 <= index < count -> rela_header_ok bytes header l p index) -> forall index, 0 <= index < count -> ~ refused index.
Proof using All.
  intros Hrel Hhead index Hi (s & Es & Et & Hcase). destruct (Hhead index Hi s Es Et) as (Hlt & Hal & Hent & Hmod).
  destruct (section_ok bytes Hbytes header Hh index Hi) as (s' & Es' & Hf). simplify_eq. pose proof (f_info s Hf) as Hfi. unfold fits in Hfi.
  destruct Hcase as [?|[(target & Etg & Hna)|[?|[?|(item & Hit & Hno)]]]]; [lia| |done..|].
  - destruct (address_spec bytes header l Hl p (s_info s) target ltac:(lia) Etg Hal) as (o & _ & _ & _ & _ & ?). done.
  - destruct (relocations_spec _ _ Hrel) as (es & Hes & _).
    assert ((index, item) ∈ items bytes header (Z.to_nat count)) as Hin.
    { apply (items_elem bytes header (Z.to_nat count) index item s); [lia|done|done|done]. }
    apply list_elem_of_lookup in Hin as (k & Hk). destruct (Forall2_lookup_l _ _ _ _ _ Hes Hk) as (e & _ & He). by apply (Hno e).
Qed.
End image.

(** The tables that relocation works with are those of the symbol section. *)
Lemma tables_meaning bytes header l t size :
  elf_tables bytes header l size = Some (Some t) ->
  exists k y str, symbol_section l = Some k /\ section bytes header k = Some y /\ section bytes header (s_link y) = Some str /\
    t = Tables (s_offset y) (s_size y / sizeof_symbol) (s_offset str) (s_size str).
Proof using Type.
  unfold elf_tables. destruct (_ =? 0); [done|]. destruct (symbol_section l) as [k|]; [|done]. intros E. exists k.
  destruct (section bytes header k) as [y|]; [|done]. rewrite bind_some in E. destruct (_ || _); [done|].
  destruct (section bytes header (s_link y)) as [str|] eqn:Es; [|done]. rewrite bind_some in E. destruct (range_valid _ _ _); [|done]. exists y, str.
  split; [done|]. split; [done|]. split; [done|]. cbn [negb] in E. by injection E as <-.
Qed.

End spec.

(** ** Images *)

Definition header_bytes (section_count : Z) : list Z :=
  le_bytes 4 ELF_MAGIC ++ [2; 1; 1; 0] ++ replicate 8 0 ++ le_bytes 2 ET_REL ++ le_bytes 2 EM_X86_64 ++ le_bytes 4 1 ++ le_bytes 8 0 ++ le_bytes 8 0 ++
  le_bytes 8 64 ++ le_bytes 4 0 ++ le_bytes 2 64 ++ le_bytes 2 0 ++ le_bytes 2 0 ++ le_bytes 2 64 ++ le_bytes 2 section_count ++ le_bytes 2 0.

Definition section_bytes (type flags offset size link info alignment entry_size : Z) : list Z :=
  le_bytes 4 0 ++ le_bytes 4 type ++ le_bytes 8 flags ++ le_bytes 8 0 ++ le_bytes 8 offset ++ le_bytes 8 size ++ le_bytes 4 link ++ le_bytes 4 info ++
  le_bytes 8 alignment ++ le_bytes 8 entry_size.

Definition symbol_bytes (name section value : Z) : list Z := le_bytes 4 name ++ [0; 0] ++ le_bytes 2 section ++ le_bytes 8 value ++ le_bytes 8 0.
Definition rela_bytes (offset info addend : Z) : list Z := le_bytes 8 offset ++ le_bytes 8 info ++ le_bytes 8 addend.

(** Two sections without contents, of 2^64 - 1 and of 64 bytes, a symbol table
    with the absolute symbol 57005, and a relocation of the first section. *)
Definition wrapping_image : list Z :=
  header_bytes 5 ++ section_bytes SHT_NOBITS SHF_ALLOC 0 (2 ^ 64 - 1) 0 0 1 0 ++ section_bytes SHT_NOBITS SHF_ALLOC 0 64 0 0 16 0 ++
  section_bytes SHT_SYMTAB 0 384 24 3 0 8 24 ++ section_bytes 3 0 408 1 0 0 1 0 ++ section_bytes SHT_RELA 0 409 24 2 0 1 24 ++
  symbol_bytes 0 SHN_ABS 57005 ++ [0] ++ rela_bytes (2 ^ 32) 1 0.

(** A string table at the end of the image that is not terminated. *)
Definition unterminated_image : list Z :=
  header_bytes 3 ++ section_bytes SHT_NOBITS SHF_ALLOC 0 64 0 0 16 0 ++ section_bytes SHT_SYMTAB 0 256 24 2 0 8 24 ++
  section_bytes 3 0 280 1 0 0 1 0 ++ symbol_bytes 0 1 0 ++ chars "m"%string.

(** The check for a wrapped total in the layout loop cannot fail (it
    compares the offset before it is assigned), so that a section of 2^64 - 1
    bytes is accepted in an allocation of 64 bytes, and the relocation of that
    section stores eight bytes of the image's choice 4 GiB behind the
    allocation. *)
Theorem elf_layout_wraps :
  exists bytes header l t, header_at bytes = Some header /\ header_valid header (Z.of_nat (length bytes)) = true /\
    elf_layout bytes header (Z.of_nat (length bytes)) = Some (inl l) /\ elf_tables bytes header l (Z.of_nat (length bytes)) = Some (Some t) /\
    allocation_size l = 64 /\
    forall (r : registry heap unit) p addresses, 0 < p < 2 ^ 63 -> placed bytes header l p (e_section_count header) addresses ->
      effect_of bytes header t r addresses (4, 0) = Some (inl (Some (p + 2 ^ 32, le_bytes 8 57005))).
Proof.
  exists wrapping_image. assert (length wrapping_image = 433%nat) as -> by (by vm_compute). change (Z.of_nat 433) with 433.
  set (header := ElfHeader ELF_MAGIC 2 1 ET_REL EM_X86_64 64 64 64 5).
  set (l := Layout (replicate 128 0) 64 (Some 2)). set (t := Tables 384 1 408 1).
  assert (Hs0 : section wrapping_image header 0 = Some (ElfSection SHT_NOBITS SHF_ALLOC 0 (2 ^ 64 - 1) 0 0 1 0)) by (by vm_compute).
  assert (Hs4 : section wrapping_image header 4 = Some (ElfSection SHT_RELA 0 409 24 2 0 1 24)) by (by vm_compute).
  assert (Hrela : rela_at wrapping_image (409 + 0 * sizeof_rela) = Some (ElfRela (2 ^ 32) 1 0)) by (by vm_compute).
  assert (Hsym : symbol_at wrapping_image (384 + 0 * sizeof_symbol) = Some (ElfSymbol 0 SHN_ABS 57005)) by (by vm_compute).
  exists header, l, t. split; [by vm_compute|]. split; [by vm_compute|]. split; [by vm_compute|]. split; [by vm_compute|]. split; [done|].
  intros r p addresses Hp [_ Haddr]. unfold effect_of. cbn [fst snd]. rewrite Hs4, bind_some. cbn [s_info s_offset].
  rewrite (Haddr 0) by (unfold ELF_SECTION_LIMIT; lia). cbn [e_section_count header Z.ltb Z.compare]. rewrite bind_some, Hs0, bind_some. cbn [s_size].
  unfold address_of. rewrite Hs0. change (rd (offsets l) 0) with (Some 0). cbn [s_flags].
  change (SHF_ALLOC &&& SHF_ALLOC =? 0) with false. unfold rela_effect. rewrite Hrela, bind_some. cbn [r_info r_offset r_addend].
  change (u32 (1 >> 32)) with 0. change (u32 1) with 1. cbn [t_symbol_count t t_symbols].
  change ((1 <=? 0) || (2 ^ 64 - 1 <? 2 ^ 32) || (2 ^ 64 - 1 - 2 ^ 32 <? (if 1 =? R_X86_64_64 then 8 else 4))) with false. cbv iota.
  rewrite Hsym, bind_some. change (resolve_elf_symbol r wrapping_image (ElfSymbol 0 SHN_ABS 57005) (t_strings t) (t_strings_size t) addresses (e_section_count header)) with (Some 57005).
  rewrite bind_some. cbn [y_section]. change ((57005 =? 0) && (SHN_ABS =? SHN_UNDEF)) with false. cbv iota zeta.
  change (i64 (i64 57005 + 0)) with 57005. rewrite u64_small by (unfold fits; pow2; lia).
  change (relocation_value 1 57005 (p + 0 + 2 ^ 32)) with (inl (A := option (nat * Z)) (B := unit) (Some (8%nat, 57005))).
  cbv beta iota. by rewrite Z.add_0_r.
Qed.

(** A string table that is not terminated: the search for the descriptor reads
    past the end of the image. *)
Lemma find_descriptor_faults :
  exists bytes header l t, header_at bytes = Some header /\ header_valid header (Z.of_nat (length bytes)) = true /\
    elf_layout bytes header (Z.of_nat (length bytes)) = Some (inl l) /\ elf_tables bytes header l (Z.of_nat (length bytes)) = Some (Some t) /\
    forall (r : registry heap unit) addresses, find_descriptor r bytes header t addresses = None.
Proof.
  exists unterminated_image. assert (length unterminated_image = 281%nat) as -> by (by vm_compute). change (Z.of_nat 281) with 281.
  set (header := ElfHeader ELF_MAGIC 2 1 ET_REL EM_X86_64 64 64 64 3).
  set (l := Layout (replicate 128 0) 64 (Some 1)). set (t := Tables 256 1 280 1).
  exists header, l, t. split; [by vm_compute|]. split; [by vm_compute|]. split; [by vm_compute|]. split; [by vm_compute|].
  intros r addresses. by vm_compute.
Qed.

(** ** An image to work on *)

(** An image with one section of 64 bytes and a terminated string table. *)
Definition small_image : list Z :=
  header_bytes 3 ++ section_bytes SHT_NOBITS SHF_ALLOC 0 64 0 0 16 0 ++ section_bytes SHT_SYMTAB 0 256 24 2 0 8 24 ++
  section_bytes 3 0 280 1 0 0 1 0 ++ symbol_bytes 0 1 0 ++ [0].
Definition small_header : elf64_header := ElfHeader ELF_MAGIC 2 1 ET_REL EM_X86_64 64 64 64 3.
Definition small_layout : layout := Layout (replicate 128 0) 64 (Some 1).
Definition small_tables : tables := Tables 256 1 280 1.

Lemma small_bytes : all_bytes small_image.
Proof. apply (bool_decide_unpack _). by vm_compute. Qed.

Lemma small_moderate : moderate small_image small_header.
Proof.
  intros index s Hi Hs _. cbn in Hi. assert (index = 0 \/ index = 1 \/ index = 2) as Hcase by lia.
  destruct Hcase as [-> |[-> | ->]]; vm_compute in Hs; injection Hs as <-; by vm_compute.
Qed.

Lemma small_well_formed : well_formed small_image.
Proof.
  intros header Eh. assert (header_at small_image = Some small_header) as E by (by vm_compute). rewrite E in Eh. injection Eh as <-.
  split; [apply small_moderate|]. intros l t El Et.
  assert (elf_layout small_image small_header (Z.of_nat (length small_image)) = Some (inl small_layout)) as E1 by (by vm_compute).
  rewrite E1 in El. injection El as <-.
  assert (elf_tables small_image small_header small_layout (Z.of_nat (length small_image)) = Some (Some small_tables)) as E2 by (by vm_compute).
  rewrite E2 in Et. injection Et as <-. intros _. by vm_compute.
Qed.


(** A module: its descriptor, name and version in one section, whose pointers
    are filled in by relocations, and a relative reference behind them. *)
Definition driver_data : list Z :=
  le_bytes 4 sizeof_descriptor ++ le_bytes 4 MVH_KERNEL_ABI_VERSION ++ replicate 48 0 ++ chars "m"%string ++ [0] ++ chars "1"%string ++ [0] ++ replicate 4 7.
Definition driver_image : list Z :=
  header_bytes 5 ++ section_bytes 0 0 0 0 0 0 0 0 ++ section_bytes 1 SHF_ALLOC 384 64 0 0 16 0 ++ section_bytes SHT_SYMTAB 0 448 48 3 0 8 24 ++
  section_bytes 3 0 496 23 0 0 1 0 ++ section_bytes SHT_RELA 0 519 72 2 1 8 24 ++
  driver_data ++ symbol_bytes 0 SHN_ABS 0 ++ symbol_bytes 1 1 0 ++
  [0] ++ chars "mvh_module_descriptor"%string ++ [0] ++
  rela_bytes 8 (2 ^ 32 + R_X86_64_64) 56 ++ rela_bytes 16 (2 ^ 32 + R_X86_64_64) 58 ++ rela_bytes 60 (2 ^ 32 + R_X86_64_PC32) (2 ^ 64 - 4).
Definition driver_header : elf64_header := ElfHeader ELF_MAGIC 2 1 ET_REL EM_X86_64 64 64 64 5.
Definition driver_layout : layout := Layout (replicate 128 0) 64 (Some 2).
Definition driver_tables : tables := Tables 448 2 496 23.

(** What the allocation holds at the end. *)
Definition driver_linked (p : Z) : list Z :=
  le_bytes 4 sizeof_descriptor ++ le_bytes 4 MVH_KERNEL_ABI_VERSION ++ le_bytes 8 (p + 56) ++ le_bytes 8 (p + 58) ++ replicate 32 0 ++
  chars "m"%string ++ [0] ++ chars "1"%string ++ [0] ++ [192; 255; 255; 255].

Lemma driver_bytes : all_bytes driver_image.
Proof. apply (bool_decide_unpack _). by vm_compute. Qed.

Lemma driver_moderate : moderate driver_image driver_header.
Proof.
  intros index s Hi Hs _. cbn in Hi. assert (index = 0 \/ index = 1 \/ index = 2 \/ index = 3 \/ index = 4) as Hcase by lia.
  destruct Hcase as [-> |[-> |[-> |[-> | ->]]]]; vm_compute in Hs; injection Hs as <-; by vm_compute.
Qed.

Lemma driver_well_formed : well_formed driver_image.
Proof.
  intros header Eh. assert (header_at driver_image = Some driver_header) as E by (by vm_compute). rewrite E in Eh. injection Eh as <-.
  split; [apply driver_moderate|]. intros l t El Et.
  assert (elf_layout driver_image driver_header (Z.of_nat (length driver_image)) = Some (inl driver_layout)) as E1 by (by vm_compute).
  rewrite E1 in El. injection El as <-.
  assert (elf_tables driver_image driver_header driver_layout (Z.of_nat (length driver_image)) = Some (Some driver_tables)) as E2 by (by vm_compute).
  rewrite E2 in Et. injection Et as <-. intros _. by vm_compute.
Qed.

Section driver.
Context {H W : Type} (r : registry H W) (p : Z) (Hp : 0 < p /\ p + 64 < 2 ^ 64).
Notation driver_relocation := (relocation r driver_image driver_header driver_layout driver_tables p 4).

Lemma driver_symbol : symbol_value r driver_image driver_header driver_layout driver_tables p (ElfSymbol 1 1 0) p.
Proof using Hp.
  replace p with ((p + 0 + 0) mod 2 ^ 64) at 2 by (rewrite Z.mod_small; pow2; lia).
  by apply (symbol_in_section _ _ _ _ _ _ (ElfSymbol 1 1 0) (ElfSection 1 SHF_ALLOC 384 64 0 0 16 0) 0).
Qed.

Lemma driver_entry item offset type addend w :
  rela_at driver_image (519 + item * sizeof_rela) = Some (ElfRela offset (2 ^ 32 + type) addend) -> 0 <= type < 2 ^ 32 ->
  offset + (if type =? R_X86_64_64 then 8 else 4) <= 64 -> relocates p addend (p + 0 + offset) type (Some w) -> driver_relocation item (Some (offset, w)).
Proof using Hp.
  intros Er Ht Hle Hw.
  exists (ElfSection SHT_RELA 0 519 72 2 1 8 24), (ElfSection 1 SHF_ALLOC 384 64 0 0 16 0), (ElfRela offset (2 ^ 32 + type) addend), (ElfSymbol 1 1 0), p, 0, (Some w).
  cbn [r_info r_offset r_addend]. change (2 ^ 32) with 4294967296 in *.
  assert ((4294967296 + type) / 4294967296 = 1) as -> by divlia. assert ((4294967296 + type) mod 4294967296 = type) as -> by divlia.
  split_and!; try done; try (by vm_compute). apply driver_symbol.
Qed.

Lemma driver_relocations :
  driver_relocation 0 (Some (8, le_bytes 8 (p + 56))) /\ driver_relocation 1 (Some (16, le_bytes 8 (p + 58))) /\ driver_relocation 2 (Some (60, [192; 255; 255; 255])).
Proof using Hp.
  split_and!.
  - apply (driver_entry 0 8 R_X86_64_64 56); [by vm_compute|done|done|]. rewrite <- (Z.mod_small (p + 56) (2 ^ 64)) by (pow2; lia). apply relocates_64.
  - apply (driver_entry 1 16 R_X86_64_64 58); [by vm_compute|done|done|]. rewrite <- (Z.mod_small (p + 58) (2 ^ 64)) by (pow2; lia). apply relocates_64.
  - apply (driver_entry 2 60 R_X86_64_PC32 (-4)); [by vm_compute|done|done|].
    apply (relocates_pc32 _ _ _ R_X86_64_PC32 (-64)); [by left| |done]. replace (p + -4 - (p + 0 + 60)) with (-64) by lia. apply same_word_refl.
Qed.

Lemma driver_result es :
  Forall2 (fun it e => relocation r driver_image driver_header driver_layout driver_tables p it.1 it.2 e)
    (items driver_image driver_header (Z.to_nat (e_section_count driver_header))) es ->
  es = [Some (8, le_bytes 8 (p + 56)); Some (16, le_bytes 8 (p + 58)); Some (60, [192; 255; 255; 255])].
Proof using Hp.
  assert (items driver_image driver_header (Z.to_nat (e_section_count driver_header)) = [(4, 0); (4, 1); (4, 2)]) as -> by (by vm_compute).
  intros Hes. destruct driver_relocations as (H0' & H1' & H2').
  apply Forall2_cons_inv_l in Hes as (e0 & l0 & E0 & Hes & ->). apply Forall2_cons_inv_l in Hes as (e1 & l1 & E1 & Hes & ->).
  apply Forall2_cons_inv_l in Hes as (e2 & l2 & E2 & Hes & ->). apply Forall2_nil_inv_l in Hes as ->. cbn [fst snd] in *.
  by rewrite (relocation_unique _ _ _ _ _ _ _ _ _ _ E0 H0'), (relocation_unique _ _ _ _ _ _ _ _ _ _ E1 H1'), (relocation_unique _ _ _ _ _ _ _ _ _ _ E2 H2').
Qed.

Lemma driver_contents :
  apply_writes (replicate (Z.to_nat (allocation_size driver_layout)) 0)
    (section_writes driver_image driver_header driver_layout (Z.to_nat (e_section_count driver_header)) ++
     omap id [Some (8, le_bytes 8 (p + 56)); Some (16, le_bytes 8 (p + 58)); Some (60, [192; 255; 255; 255])]) = driver_linked p.
Proof using Type.
  unfold driver_linked. pose proof (length_le_bytes 8 (p + 56)) as L1. pose proof (length_le_bytes 8 (p + 58)) as L2.
  generalize dependent (le_bytes 8 (p + 56)). generalize dependent (le_bytes 8 (p + 58)). intros b Hb a Ha.
  do 8 (destruct a as [|? a]; [discriminate Ha|]). destruct a; [|discriminate Ha].
  do 8 (destruct b as [|? b]; [discriminate Hb|]). destruct b; [|discriminate Hb]. by vm_compute.
Qed.

Lemma driver_accepted index : 0 <= index < 5 -> ~ refused r driver_image driver_header driver_layout driver_tables p index.
Proof using Hp.
  intros Hi (s & Es & Et & Hcase). assert (index = 0 \/ index = 1 \/ index = 2 \/ index = 3 \/ index = 4) as Hix by lia.
  destruct Hix as [-> |[-> |[-> |[-> | ->]]]]; vm_compute in Es; injection Es as <-; try done.
  destruct Hcase as [E|[(target & E & Hna)|[E|[E|(item & Hit & Hno)]]]]; try done.
  - vm_compute in E. injection E as <-. by apply Hna.
  - change (0 <= item < 3) in Hit. destruct driver_relocations as (H0' & H1' & H2').
    assert (item = 0 \/ item = 1 \/ item = 2) as [->|[->| ->]] by lia; eapply Hno; eassumption.
Qed.
End driver.
Lemma zeroed_allocation : exists (h : heap) V p, holds h (<[p := replicate 64 0]> V).
Proof.
  destruct (new_allocation 64) as (h & bs & p & c & Hi & Hc & Hlen); [lia|].
  assert (holds h (<[p := c]> (HeapClient.view h bs))) as Hh by (rewrite insert_id by done; by exists bs).
  destruct (store_bytes_spec (replicate 64 0) h (HeapClient.view h bs) p c 0 Hh) as (h' & _ & Hh').
  { unfold room. rewrite length_replicate. lia. }
  { apply Forall_replicate. split; done. }
  exists h', (HeapClient.view h bs), p. replace (replicate 64 0) with (splice c 0 (replicate 64 0)); [done|].
  unfold splice. rewrite length_replicate, take_0, drop_ge by (simpl; lia). by rewrite app_nil_r.
Qed.

