(* ===== verification/ModuleSpec.v ===== *)
(** * Loadable modules: claims

    The operations of the module registry as a state machine, with the
    invariant of every reachable state and the effect of every call; the ELF
    loader is one of its operations. *)

From Stdlib Require Import String.
From S2P Require Import Prelude Arith Buffer Heap HeapCorrect HeapInit Allocator Module ModuleTable ModuleCorrect ModuleLoad Elf ElfLayout ElfCorrect ElfSpec.

#[local] Open Scope Z_scope.

Inductive module_op :=
  | OpRegister (d : option mvh_module_descriptor)
  | OpBuiltin (d : option mvh_module_descriptor)
  | OpLoad (t : cstr)
  | OpUnload (t : cstr)
  | OpAcquire (t : cstr)
  | OpRelease (t : cstr)
  | OpExport (t : cstr) (address : Z) (owner : cstr)
  | OpElf (bytes : list Z).

(** What a caller may do: builtin modules have no dependencies, as those of
    kernel.c (their registration neither checks nor acquires any), only handles
    that are held are given back, and images are well formed. *)
Definition op_allowed (held : handles) (op : module_op) : Prop :=
  match op with
  | OpRegister d => forall d', d = Some d' -> descriptor_typed d'
  | OpBuiltin d => forall d', d = Some d' -> descriptor_typed d' /\ deps d' = []
  | OpRelease t => 0 < held t
  | OpElf bytes => all_bytes bytes /\ well_formed bytes
  | _ => True
  end.

(** The handles of callers after a call. *)
Definition held_after (held : handles) (op : module_op) (code : Z) : handles :=
  match op with
  | OpAcquire t => if code =? 0 then also held [t] else held
  | OpRelease t => fun u => if decide (u = t) then held u - 1 else held u
  | _ => held
  end.

Definition new_slot (d : mvh_module_descriptor) (st : mvh_module_state) : module_slot := ModuleSlot (Some d) st 0 0 0 0.

Section claims.
Context {H W : Type} `{AllocatorLaws H} `{ModuleCode W}.
Notation reg := (registry H W).
Notation handles_of r := (own (world r)).
Context (call_init : Z -> reg -> reg * Z) (call_exit : Z -> reg -> reg).

Definition module_exec (r : reg) (op : module_op) : option (or_panic (reg * Z)) :=
  match op with
  | OpRegister d => x ← module_register r d; Some (inl x)
  | OpBuiltin d => x ← module_register_builtin r d; Some (inl x)
  | OpLoad t => x ← module_load call_init LOAD_DEPTH r t; Some (inl x)
  | OpUnload t => module_unload call_exit r t
  | OpAcquire t => x ← module_acquire r t; Some (inl x)
  | OpRelease t => x ← module_release r t; Some (inl (x, 0))
  | OpExport t address owner => x ← module_export_symbol r t address owner; Some (inl x)
  | OpElf bytes =>
    x ← module_elf_load call_init r (Some bytes) (Z.of_nat (length bytes));
    Some (match x with inl (r, code, _) => inl (r, code) | inr p => inr p end)
  end.

(** ** The symbol table *)

Lemma exported_loop (r : reg) t :
  exports_ok r ->
  exists res : unit + unit, for_break (Z.to_nat (registered_exports r)) 0 (fun index u =>
    e ← rd (exports r) index; Some (if str_equal (export_name e) t then inr tt else inl u)) tt = Some res /\
    match res with inl _ => ~ exported (active_exports r) t | inr _ => exported (active_exports r) t end.
Proof.
  intros [Hlen Hn]. unfold active_exports, EXPORT_LIMIT in *.
  destruct (for_break_rule (R := unit) (fun j (_ : unit) => forall i e, Z.of_nat i < j -> exports r !! i = Some e -> export_name e <> t)
    (fun _ => exported (take (Z.to_nat (registered_exports r)) (exports r)) t) (Z.to_nat (registered_exports r)) 0 (fun index u =>
    e ← rd (exports r) index; Some (if str_equal (export_name e) t then inr tt else inl u)) tt) as [([] & E & Hno)|([] & E & Hex)].
  - intros i e Hi. lia.
  - intros j [] Hj Hno. destruct (rd_ok (exports r) j) as (e & He); [lia|]. rewrite He, bind_some. apply rd_Some in He as [_ He].
    unfold str_equal. case_bool_decide as Ee.
    + right. exists tt. split; [done|]. exists e. split; [|done]. apply (list_elem_of_lookup_2 _ (Z.to_nat j)). rewrite lookup_take_lt by lia. done.
    + left. exists tt. split; [done|]. intros i e' Hi He'. destruct (decide (i = Z.to_nat j)) as [->|]; [by simplify_eq|apply (Hno i); [lia|done]].
  - exists (inl tt). split; [done|]. intros (e & (i & Hi)%list_elem_of_lookup & Ee). apply lookup_take_Some in Hi as [Hi Hlt]. apply (Hno i e); [lia|done..].
  - by exists (inr tt).
Qed.

(** What can be exported. *)
Definition exportable (r : reg) (t : cstr) (address : Z) : Prop :=
  t <> None /\ t <> Some [] /\ address <> 0 /\ ~ exported (active_exports r) t /\ registered_exports r < EXPORT_LIMIT.

Lemma export_spec (r : reg) t address owner :
  exports_ok r ->
  exists r' code, module_export_symbol r t address owner = Some (r', code) /\ exports_ok r' /\ modules r' = modules r /\
    registered_modules r' = registered_modules r /\ heap_of r' = heap_of r /\ world r' = world r /\
    ((code = 0 /\ exportable r t address /\ active_exports r' = active_exports r ++ [ExportSlot t address owner]) \/
     (code = -1 /\ ~ exportable r t address /\ r' = r)).
Proof.
  intros Hx. pose proof Hx as [Hlen Hn]. unfold module_export_symbol.
  assert (Hno : ~ exportable r t address -> exists r' code, Some (r, -1) = Some (r', code) /\ exports_ok r' /\ modules r' = modules r /\ registered_modules r' = registered_modules r /\
    heap_of r' = heap_of r /\ world r' = world r /\ ((code = 0 /\ exportable r t address /\ active_exports r' = active_exports r ++ [ExportSlot t address owner]) \/
     (code = -1 /\ ~ exportable r t address /\ r' = r))) by (intros Hbad; exists r, (-1); split_and!; try done; by right).
  destruct (_ || _) eqn:E.
  { apply Hno. intros (A & B & C & _). rewrite !bool_decide_false, (proj2 (Z.eqb_neq _ _) C) in E by done. done. }
  apply orb_false_iff in E as [E E3]. apply orb_false_iff in E as [E1 E2]. apply bool_decide_eq_false in E1, E2. apply Z.eqb_neq in E3.
  destruct (exported_loop r t Hx) as ([[]|[]] & -> & Hex); rewrite bind_some; [|apply Hno; intros (_ & _ & _ & D & _); done].
  destruct (Z.eqb_spec (registered_exports r) EXPORT_LIMIT) as [|Hne]; [apply Hno; intros (_ & _ & _ & _ & D); lia|]. clear Hno. unfold EXPORT_LIMIT in *.
  rewrite wr_ok by lia. rewrite bind_some. eexists _, 0. split; [done|]. split; [split; cbn; [by rewrite length_insert|unfold EXPORT_LIMIT; lia]|].
  split_and!; try done. left. split; [done|]. split; [split_and!; try done; unfold EXPORT_LIMIT; lia|]. unfold active_exports. cbn.
  replace (Z.to_nat (registered_exports r + 1)) with (S (Z.to_nat (registered_exports r))) by lia.
  rewrite (take_S_r _ _ (ExportSlot t address owner)) by (apply list_lookup_insert_eq; lia). by rewrite take_insert_ge by lia.
Qed.

(** ** Every call *)

(** The effect of a call: on the registry, on the table of modules and on the
    heap. *)
Definition op_effect (r : reg) (L : list module_slot) (held : handles) (V : gmap Z (list Z)) (op : module_op) (code : Z)
    (r' : reg) (L' : list module_slot) (V' : gmap Z (list Z)) : Prop :=
  match op with
  | OpRegister d => same_rest r r' /\ V' = V /\
    ((exists d', d = Some d' /\ admissible L d' /\ code = 0 /\ L' = L ++ [new_slot d' MVH_MODULE_REGISTERED]) \/
     (code = -1 /\ L' = L /\ forall d', d = Some d' -> ~ admissible L d'))
  | OpBuiltin d => same_rest r r' /\ V' = V /\
    ((exists d', d = Some d' /\ admissible L d' /\ flags d' &&& MVH_MODULE_BUILTIN <> 0 /\ code = 0 /\ L' = L ++ [new_slot d' MVH_MODULE_LIVE]) \/
     (code = -1 /\ L' = L /\ forall d', d = Some d' -> ~ (admissible L d' /\ flags d' &&& MVH_MODULE_BUILTIN <> 0)))
  | OpLoad t => exists tr, load_effect call_init r L V t tr code r' L' V'
  | OpUnload t =>
    (code = 0 /\ unload_effect call_exit r L V t r' L' V') \/
    (code = -1 /\ r' = r /\ L' = L /\ V' = V /\ forall s, s ∈ L -> slot_name s = t -> ~ unloadable s)
  | OpAcquire t => same_rest r r' /\ V' = V /\ Forall2 same_but_refs L L' /\
    (code = 0 /\ acquirable L t \/ code = -1 /\ L' = L /\ ~ acquirable L t)
  | OpRelease t => same_rest r r' /\ V' = V /\ Forall2 same_but_refs L L'
  | OpExport t address owner => L' = L /\ V' = V /\ heap_of r' = heap_of r /\ world r' = world r /\
    ((code = 0 /\ exportable r t address /\ active_exports r' = active_exports r ++ [ExportSlot t address owner]) \/
     (code = -1 /\ ~ exportable r t address /\ r' = r))
  | OpElf bytes => exists text, same_exports r r' /\ foreign r V r' V' /\ elf_effect call_init r L held V bytes (r', code, text) L' V'
  end.

(** The code of modules is lawful: whenever an init or exit function is called,
    it keeps to what is exported to modules. *)
Context (Hinit : init_lawful call_init) (Hexit : exit_lawful call_exit).

Lemma inv_same r r' L held V : inv r L held V -> modules r' = modules r -> registered_modules r' = registered_modules r -> heap_of r' = heap_of r ->
  world r' = world r -> inv r' L held V.
Proof.
  intros [[] Hp] E1 E2 E3 E4. split; [|done]. constructor; [by rewrite E1|by rewrite E2|by rewrite E4|by rewrite E3|done].
Qed.

Lemma exec_spec r L held V op :
  inv r L held V -> exports_ok r -> op_allowed held op ->
  exists r' code L' V', module_exec r op = Some (inl (r', code)) /\ inv r' L' (held_after held op code) V' /\ exports_ok r' /\
    op_effect r L held V op code r' L' V'.
Proof using Hinit Hexit.
  intros Hi Hx Ha. pose proof (i_ok _ _ _ _ Hi) as Hok. pose proof (i_held _ _ _ _ Hi) as Hpos.
  assert (Hrest : forall r', same_rest r r' -> exports_ok r') by (intros r' [Hr _]; by apply (exports_ok_same r)).
  destruct op as [d|d|t|t|t|t|t address owner|bytes]; cbn [module_exec op_effect held_after op_allowed] in *.
  - unfold module_register. destruct d as [d|].
    + destruct (register_spec r L _ V d 0 0 0 0 Hok (Ha d eq_refl)) as (r' & code & -> & Hr & Hcase); [done|done|]. rewrite bind_some.
      destruct Hcase as [(Hadm & -> & Hi')|(Hadm & -> & ->)].
      * eexists r', 0, _, V. split; [done|]. split; [by apply (inv_rest r); [exact Hi'|..]|]. split; [by apply Hrest|]. split; [done|]. split; [done|]. left. by exists d.
      * exists r, (-1), L, V. split; [done|]. split; [done|]. split; [done|]. split; [done|]. split; [done|]. right. split; [done|]. split; [done|]. by intros d' [= <-].
    + exists r, (-1), L, V. split; [done|]. split; [done|]. split; [done|]. split; [done|]. split; [done|]. right. done.
  - destruct d as [d|]; cbn [module_register_builtin].
    + destruct (Ha d eq_refl) as [Ht Hd]. destruct (Z.eqb_spec (flags d &&& MVH_MODULE_BUILTIN) 0) as [Ef|Ef].
      * exists r, (-1), L, V. split; [done|]. split; [done|]. split; [done|]. split; [done|]. split; [done|]. right. split; [done|]. split; [done|]. intros d' [= <-]. tauto.
      * destruct (register_spec r L _ V d 0 0 0 1 Hok Ht) as (r' & code & -> & Hr & Hcase); [done|done|]. rewrite bind_some.
        destruct Hcase as [(Hadm & -> & Hi')|(Hadm & -> & ->)].
        -- eexists r', 0, _, V. split; [done|]. split; [by apply (inv_rest r); [exact Hi'|..]|]. split; [by apply Hrest|]. split; [done|]. split; [done|]. left. by exists d.
        -- exists r, (-1), L, V. split; [done|]. split; [done|]. split; [done|]. split; [done|]. split; [done|]. right. split; [done|]. split; [done|]. intros d' [= <-]. tauto.
    + exists r, (-1), L, V. split; [done|]. split; [done|]. split; [done|]. split; [done|]. split; [done|]. right. done.
  - destruct (load_spec call_init Hinit LOAD_DEPTH r L held V t Hi) as (r' & code & L' & V' & tr & -> & Hi' & Heff);
      [apply loadable_bound, (t_length _ _ (i_table _ _ _ _ Hok))|]. rewrite bind_some.
    exists r', code, L', V'. split; [done|]. split; [done|]. split; [|by exists tr].
    apply (exports_ok_same r); [done|]. apply (g_exports _ _ _ _ _ _ _ _ _ (e_stage _ _ _ _ _ _ _ _ _ _ Heff)).
  - destruct (unload_spec call_exit r L held V t Hexit Hi) as (r' & code & L' & V' & -> & Hs & Hi' & Hcase).
    exists r', code, L', V'. split; [done|]. split; [done|]. split; [by apply (exports_ok_same r)|done].
  - destruct (acquire_spec r L _ V t Hok) as (r' & code & -> & Hr & Hcase). rewrite bind_some.
    destruct Hcase as [(Hacq & -> & L' & Hi' & Hf)|(Hacq & -> & ->)].
    + exists r', 0, L', V. split; [done|]. split.
      { apply inv_also; [|done]. by rewrite (same_rest_world r r'). }
      split; [by apply Hrest|]. split; [done|]. split; [done|]. split; [done|]. by left.
    + exists r, (-1), L, V. split; [done|]. split; [done|]. split; [done|]. split; [done|]. split; [done|]. split; [done|]. by right.
  - set (held' := fun u => if decide (u = t) then held u - 1 else held u).
    assert (forall u, 0 <= held' u) as Hpos' by (intros u; unfold held'; specialize (Hpos u); destruct (decide (u = t)) as [->|]; lia).
    destruct (release_spec r L _ (also held' (handles_of r)) V t Hok) as (r' & L' & -> & Hr & Hi' & Hf).
    { intros u. unfold also, held'. rewrite count_one. destruct (decide (u = t)); lia. }
    { intros u. by apply also_nonneg. }
    rewrite bind_some. exists r', 0, L', V. split; [done|]. split; [by apply (inv_rest r)|]. split; [by apply Hrest|]. done.
  - destruct (export_spec r t address owner Hx) as (r' & code & -> & Hx' & Em & En & Eh & Ew & Hcase). rewrite bind_some.
    exists r', code, L, V. split; [done|]. split; [by apply (inv_same r)|]. split; [done|]. done.
  - destruct Ha as [Hb Hwf]. destruct (module_elf_load_spec call_init Hinit r L held V bytes Hi Hx Hb Hwf) as ([[r' code] text] & -> & L' & V' & Hi' & Hs & Hfor & Heff).
    rewrite bind_some. cbn [fst snd] in *. exists r', code, L', V'. split; [done|]. split; [done|]. split; [by apply (exports_ok_same r)|]. by exists text.
Qed.

(** The states that callers can reach, with the handles they hold. *)
Inductive reachable : reg -> handles -> Prop :=
  | reach_init r V : holds (heap_of r) V -> handles_of r = [] -> reachable (module_init r) (fun _ => 0)
  | reach_call r held op r' code :
      reachable r held -> op_allowed held op -> module_exec r op = Some (inl (r', code)) -> reachable r' (held_after held op code).

Lemma registry_init_inv (r : reg) V : holds (heap_of r) V -> handles_of r = [] -> inv (module_init r) [] (fun _ => 0) V /\ exports_ok (module_init r).
Proof.
  intros Hh Ho. split; [|by split]. split; [|done]. change (world (module_init r)) with (world r). rewrite Ho. constructor; try done.
  - constructor; try done; try (by intros ? ?%not_elem_of_nil); [simpl; lia|apply NoDup_nil_2|by intros ? ? ?%not_elem_of_nil].
  - split; [by intros ? ?%not_elem_of_nil|by intros i j s s' ?].
Qed.

Lemma reachable_inv r held : reachable r held -> exists L V, inv r L held V /\ exports_ok r.
Proof using Hinit Hexit.
  induction 1 as [r V Hh Ho|r held op r' code _ (L & V & Hi & Hx) Ha E]; [destruct (registry_init_inv r V Hh Ho); by exists [], V|].
  destruct (exec_spec r L held V op Hi Hx Ha) as (r2 & code2 & L' & V' & E2 & Hi' & Hx' & _). simplify_eq. by exists L', V'.
Qed.

(** C12: in every state that callers can reach, the reference count of every
    module is the number of live modules that depend on it plus the handles of
    callers plus the handles that the code of modules holds; only live modules
    are referenced, every dependency of a live module is live, and every image
    that a module owns is allocated and its own; and in every such state every
    call a caller may make ends without a fault or a panic, also when
    dependencies form a cycle.  Callers register builtin modules without
    dependencies, give back only handles they hold, and load well-formed images.
    The code of modules is arbitrary, but keeps to what kernel.c exports to it:
    it works on its own memory and on blocks it allocated, takes handles with
    [module_acquire], and gives back its own with [module_release]
    ([init_lawful], [exit_lawful]). *)
Theorem module_registry_invariant r held :
  reachable r held ->
  exists L V, inv r L held V /\
    (forall s, s ∈ L -> references s = uses L (slot_name s) + held (slot_name s) + count (slot_name s) (handles_of r)) /\
    (forall s t, s ∈ L -> live s -> t ∈ slot_deps s -> is_live L t) /\
    (forall s, s ∈ L -> references s <> 0 -> live s) /\
    (forall op, op_allowed held op -> exists r' code, module_exec r op = Some (inl (r', code))).
Proof using Hinit Hexit.
  intros Hr. destruct (reachable_inv r held Hr) as (L & V & Hi & Hx). exists L, V. split; [done|].
  pose proof (i_table _ _ _ _ (i_ok _ _ _ _ Hi)) as []. split; [intros s Hs; rewrite t_refs by done; unfold also; lia|]. split; [done|]. split; [done|].
  intros op Ha. destruct (exec_spec r L held V op Hi Hx Ha) as (r' & code & _ & _ & E & _). by exists r', code.
Qed.

(** C13: every call does to the registry what it promises, and nothing else.  A
    module is registered exactly when its descriptor is valid, its name is new
    and there is room.  Loading succeeds exactly when the module is live, or it
    and the dependencies it needs are there, idle and not on a cycle, and every
    init function that was called returned 0 (and no counter was at its
    maximum); it calls the init functions of exactly the modules that become
    live, each once, after its dependencies are live, and stops at the first
    that fails; that module is marked as failed, what was taken is given back.
    A module is unloaded exactly when it is live, not referenced and not built
    in; its exit function is called, it alone is removed, and its image is
    freed.  A handle is given exactly on live modules whose counter is not at
    its maximum, and a symbol is exported exactly when it has a name that is
    new, an address and room.  Callers keep to [op_allowed] (builtin modules have
    no dependencies, only held handles are given back, images are well formed)
    and the code of modules to [init_lawful] and [exit_lawful] (its own memory
    and blocks, [module_acquire], and [module_release] of its own handles). *)
Theorem module_call_effects r L held V op :
  inv r L held V -> exports_ok r -> op_allowed held op ->
  exists r' code L' V', module_exec r op = Some (inl (r', code)) /\ inv r' L' (held_after held op code) V' /\
    op_effect r L held V op code r' L' V'.
Proof using Hinit Hexit.
  intros Hi Hx Ha. destruct (exec_spec r L held V op Hi Hx Ha) as (r' & code & L' & V' & E & Hi' & _ & He). by exists r', code, L', V'.
Qed.

(** C14: loading a well-formed ELF image never faults or panics and leaves a
    registry and heap that are well formed.  When the image is not accepted, or
    its module cannot be registered, the table and the heap are exactly as
    before.  Otherwise the module is registered with the new allocation as its
    image and loaded: when that succeeds its name is returned, and when it fails
    its slot is removed and its allocation, and nothing else, is freed, so that
    nothing of it is leaked.  Between the two only init functions change
    anything, and blocks of the heap that are not of the code of modules are
    kept.  Well formed means that no section is larger than 16 MiB and that the
    string table is terminated.  The init functions are arbitrary code that
    works on its own memory and blocks, takes handles with [module_acquire] and
    gives back its own with [module_release] ([init_lawful]). *)
Theorem module_elf_load_safe r L held V bytes :
  inv r L held V -> exports_ok r -> all_bytes bytes -> well_formed bytes ->
  exists res, module_elf_load call_init r (Some bytes) (Z.of_nat (length bytes)) = Some (inl res) /\ elf_outcome call_init r L held V bytes res.
Proof using Hinit. by apply module_elf_load_spec. Qed.

(** ** The self test *)

(** The registry while the self test runs: its module is the last one. *)
Definition testing (r : reg) (L : list module_slot) (s : module_slot) (count : Z) : reg :=
  with_count (with_modules r (L ++ s :: replicate (31 - length L) zero_slot) (Z.of_nat (length L) + 1)) count.

Section self_test.
Context (r : reg) (L : list module_slot) (t : cstr).
Context (Hnew : forall s, s ∈ L -> descriptor s <> None /\ slot_name s <> t).

Lemma testing_find s count : slot_name s = t -> t <> None -> find_slot (testing r L s count) t = Some (Some (Z.of_nat (length L))).
Proof using Hnew.
  intros Es Ht. unfold find_slot. cbn [registered_modules modules testing with_count with_modules].
  set (M := L ++ _). replace (Z.to_nat (Z.of_nat (length L) + 1)) with (length L + 1)%nat by lia.
  assert (Hrd : forall i x, M !! i = Some x -> rd M (Z.of_nat i) = Some x) by (intros i x Hx; apply rd_Some; rewrite Nat2Z.id; split; [lia|done]).
  assert (HM : M !! length L = Some s) by (unfold M; rewrite lookup_app_r, Nat.sub_diag by lia; done).
  match goal with |- context [for_break ?n 0 ?f tt] =>
    destruct (for_break_rule (R := Z) (fun j (_ : unit) => j <= Z.of_nat (length L)) (fun z => z = Z.of_nat (length L)) n 0 f tt)
      as [(u & E & Hu)|(z & E & ->)] end.
  - lia.
  - intros j [] Hj Hle. destruct (decide (j = Z.of_nat (length L))) as [->|Hne].
    + rewrite (Hrd _ _ HM), bind_some. unfold slot_name in Es. destruct (descriptor s) as [d|]; [|by destruct Ht]. rewrite bind_some.
      cbn in Es. unfold str_equal. rewrite bool_decide_true by done. right. by eexists.
    + destruct (lookup_lt_is_Some_2 L (Z.to_nat j)) as [x Hx]; [lia|]. destruct (Hnew x) as [Hd Hn]; [by apply list_elem_of_lookup_2 in Hx|].
      assert (rd M j = Some x) as -> by (rewrite <- (Z2Nat.id j) by lia; by apply Hrd, lookup_app_l_Some). rewrite bind_some.
      unfold slot_name in Hn. destruct (descriptor x) as [d|]; [|done]. rewrite bind_some. cbn in Hn.
      unfold str_equal. rewrite bool_decide_false by done. left. eexists. split; [done|lia].
  - lia.
  - by rewrite E.
Qed.

Lemma testing_rd s count : rd (modules (testing r L s count)) (Z.of_nat (length L)) = Some s.
Proof. apply rd_Some. split; [lia|]. rewrite Nat2Z.id. cbn. by rewrite lookup_app_r, Nat.sub_diag by lia. Qed.

Lemma testing_set s s' count : set_slot (testing r L s count) (Z.of_nat (length L)) s' = Some (testing r L s' count).
Proof.
  unfold set_slot. cbn [modules testing with_count with_modules]. rewrite wr_ok by (rewrite length_app; simpl; lia). rewrite bind_some, Nat2Z.id.
  rewrite insert_app_r_alt, Nat.sub_diag by lia. done.
Qed.

Lemma testing_remove s count :
  modules r = L ++ replicate (32 - length L) zero_slot -> registered_modules r = Z.of_nat (length L) -> (length L < 32)%nat ->
  remove_slot (testing r L s count) (Z.of_nat (length L)) = Some (with_count r count).
Proof.
  intros Em En Hl. unfold remove_slot. cbn [modules registered_modules testing with_count with_modules].
  rewrite Z.sub_diag. change (Z.to_nat 0) with 0%nat. rewrite for_loop_0, bind_some. replace (Z.of_nat (length L) + 1 - 1) with (Z.of_nat (length L)) by lia.
  rewrite u32_small by (unfold fits; change (2 ^ 32) with 4294967296; lia).
  rewrite wr_ok by (rewrite length_app; simpl; lia). rewrite bind_some, Nat2Z.id, insert_app_r_alt, Nat.sub_diag by lia.
  cbn [list_insert insert]. unfold testing, with_count, with_modules. cbn. rewrite <- En. f_equal. destruct r. cbn in *. f_equal.
  rewrite Em. f_equal. by replace (32 - length L)%nat with (S (31 - length L)) by lia.
Qed.

(** The calls of the self test, on the slot of its module. *)
Context (init_address exit_address : Z).
Context (Ht : t = name (self_test_descriptor init_address exit_address)).
Notation slot st n := (ModuleSlot (Some (self_test_descriptor init_address exit_address)) st n 0 0 0).

Lemma slot_find st n count : find_slot (testing r L (slot st n) count) t = Some (Some (Z.of_nat (length L))).
Proof using Hnew Ht. apply testing_find; by rewrite Ht. Qed.

Lemma testing_load :
  init_address <> 0 -> call_init init_address = self_test_init ->
  module_load call_init LOAD_DEPTH (testing r L (slot MVH_MODULE_REGISTERED 0) 0) t = Some (testing r L (slot MVH_MODULE_LIVE 0) 1, 0).
Proof using Hnew Ht.
  intros Ha Ei. change LOAD_DEPTH with (S 32). generalize 32%nat as fuel. intros fuel. cbn [module_load]. rewrite slot_find, bind_some, testing_rd, bind_some. cbn [state].
  unfold load_slot. rewrite testing_set, !bind_some. cbn [descriptor with_state]. rewrite bind_some.
  unfold load_dependencies. cbn [dependency_count self_test_descriptor]. change (Z.to_nat 0) with 0%nat. rewrite for_break_0, !bind_some.
  cbn [init self_test_descriptor]. rewrite (proj2 (Z.eqb_neq _ _) Ha), Ei. cbn [Z.eqb andb negb self_test_init]. rewrite bind_some.
  change (with_count (testing r L ?x 0) _) with (testing r L x 1). by rewrite testing_rd, bind_some, testing_set.
Qed.

Lemma testing_acquire : module_acquire (testing r L (slot MVH_MODULE_LIVE 0) 1) t = Some (testing r L (slot MVH_MODULE_LIVE 1) 1, 0).
Proof using Hnew Ht. unfold module_acquire. rewrite slot_find, bind_some, testing_rd, bind_some. cbn [state references]. by rewrite testing_set. Qed.

Lemma testing_release : module_release (testing r L (slot MVH_MODULE_LIVE 1) 1) t = Some (testing r L (slot MVH_MODULE_LIVE 0) 1).
Proof using Hnew Ht. unfold module_release. rewrite slot_find, bind_some, testing_rd, bind_some. cbn [references]. by rewrite testing_set. Qed.

Lemma testing_busy : module_unload call_exit (testing r L (slot MVH_MODULE_LIVE 1) 1) t = Some (inl (testing r L (slot MVH_MODULE_LIVE 1) 1, -1)).
Proof using Hnew Ht. unfold module_unload. by rewrite slot_find, bind_some, testing_rd, bind_some. Qed.

Lemma testing_unload :
  modules r = L ++ replicate (32 - length L) zero_slot -> registered_modules r = Z.of_nat (length L) -> (length L < 32)%nat ->
  exit_address <> 0 -> call_exit exit_address = self_test_exit ->
  module_unload call_exit (testing r L (slot MVH_MODULE_LIVE 0) 1) t = Some (inl (with_count r 0, 0)).
Proof using Hnew Ht.
  intros Em En Hl Ha Ee. unfold module_unload. rewrite slot_find, bind_some, testing_rd, bind_some. cbn [descriptor]. rewrite bind_some.
  rewrite bool_decide_false by (intros []; done). cbn [references orb]. change (flags _ &&& MVH_MODULE_BUILTIN =? 0) with true. cbn [negb Z.eqb orb].
  rewrite testing_set, bind_some. cbn [exit self_test_descriptor]. rewrite (proj2 (Z.eqb_neq _ _) Ha), Ee. cbn [negb]. unfold self_test_exit, release_up.
  cbn [dependency_count self_test_descriptor]. change (Z.to_nat 0) with 0%nat. rewrite for_loop_0, bind_some.
  change (with_count (testing r L ?x 1) _) with (testing r L x 0). by rewrite testing_remove, bind_some.
Qed.

End self_test.

(** [module_register] of the self test. *)
Lemma testing_register r L held V d :
  inv r L held V -> (length L < 32)%nat -> descriptor_valid (Some d) = Some true -> (forall s, s ∈ L -> slot_name s <> name d) ->
  module_register (with_count r 0) (Some d) = Some (testing r L (ModuleSlot (Some d) MVH_MODULE_REGISTERED 0 0 0 0) 0, 0).
Proof.
  intros Hi Hl Hd Hno. pose proof (i_modules _ _ _ _ (i_ok _ _ _ _ Hi)) as Em. pose proof (i_count _ _ _ _ (i_ok _ _ _ _ Hi)) as En.
  unfold module_register, register_descriptor. rewrite Hd, !bind_some. cbn [negb].
  assert (inv (with_count r 0) L held V) as Hi0 by (destruct Hi as [[] ?]; split; [by constructor|done]).
  destruct (find_slot_spec (with_count r 0) L _ V (name d) (i_ok _ _ _ _ Hi0)) as [(i & s & _ & Hs & Es)|(-> & _)].
  { destruct (Hno s); [by apply list_elem_of_lookup_2 in Hs|done]. }
  rewrite bind_some, bool_decide_false by (intros []; done). cbn [orb registered_modules with_count modules]. rewrite En.
  rewrite (proj2 (Z.eqb_neq _ _)) by (unfold MODULE_LIMIT; lia). rewrite wr_ok by (rewrite Em, length_app, length_replicate; lia).
  rewrite bind_some, Nat2Z.id, Em. unfold testing. replace (32 - length L)%nat with (S (31 - length L)) by lia.
  cbn [replicate]. by rewrite insert_app_r_alt, Nat.sub_diag by lia.
Qed.

Lemma zero_image_refused (r : reg) : module_elf_load call_init r (Some (replicate 64 0)) 64 = Some (inl (r, -1, None)).
Proof. reflexivity. Qed.

(** The self test passes.  On every well-formed registry with room and
    without a module of the test's name it returns 0, having registered, loaded,
    acquired, released and unloaded its module and refused a bad image, and it
    leaves the registry as it was, with the counter of its init calls at 0. *)
Theorem module_self_test_passes r L held V init_address exit_address :
  inv r L held V -> (length L < 32)%nat -> (forall s, s ∈ L -> slot_name s <> Some (chars "module-selftest")) ->
  init_address <> 0 -> exit_address <> 0 -> call_init init_address = self_test_init -> call_exit exit_address = self_test_exit ->
  module_self_test call_init call_exit init_address exit_address r = Some (inl (with_count r 0, 0)).
Proof.
  intros Hi Hl Hno Hia Hea Ei Ee. pose proof (i_modules _ _ _ _ (i_ok _ _ _ _ Hi)) as Em. pose proof (i_count _ _ _ _ (i_ok _ _ _ _ Hi)) as En.
  set (d := self_test_descriptor init_address exit_address).
  assert (Hnew : forall s, s ∈ L -> descriptor s <> None /\ slot_name s <> name d).
  { intros s Hs. split; [|by apply Hno]. destruct (inv_descriptor r L _ V s (i_ok _ _ _ _ Hi) Hs) as (x & -> & _). done. }
  unfold module_self_test. fold d. rewrite (testing_register r L held V d) by done. rewrite bind_some. cbn [Z.eqb negb].
  unfold d in *. rewrite (testing_load r L _ Hnew _ _ eq_refl Hia Ei), bind_some. cbn [Z.eqb negb self_test_init_count testing with_count].
  fold (testing r L).
  rewrite (testing_acquire r L _ Hnew _ _ eq_refl), bind_some. cbn [Z.eqb negb]. unfold self_test_unload.
  rewrite (testing_busy r L _ Hnew _ _ eq_refl), bind_some. cbn [Z.eqb].
  rewrite (testing_release r L _ Hnew _ _ eq_refl), bind_some, (testing_unload r L _ Hnew _ _ eq_refl Em En Hl Hea Ee), bind_some.
  cbn [Z.eqb negb orb self_test_init_count with_count]. unfold module_count. cbn [registered_modules]. rewrite Z.eqb_refl. cbn [negb].
  by rewrite zero_image_refused.
Qed.

End claims.

(** ** A system to work on *)

(** The memory of the code of modules is the list of the handles it holds. *)
#[export] Instance sample_code : ModuleCode (list cstr) := { own l := l; mine _ := ∅ }.

Section sample.
Context {H : Type} `{AllocatorLaws H}.
Notation reg := (registry H (list cstr)).

Definition with_world (r : reg) (w : list cstr) : reg :=
  Registry (modules r) (registered_modules r) (exports r) (registered_exports r) (self_test_init_count r) (heap_of r) w.

(** The init function at 5 takes a handle on the module [a], the exit function
    at 6 gives back the last handle that was taken; others do nothing. *)
Definition sample_init (address : Z) (r : reg) : reg * Z :=
  if address =? 5 then
    match module_acquire r (Some (chars "a")) with
    | Some (r, 0) => (with_world r (Some (chars "a") :: world r), 0)
    | _ => (r, -1)
    end
  else (r, 0).
Definition sample_exit (address : Z) (r : reg) : reg :=
  if address =? 6 then
    match world r with
    | t :: w => match module_release r t with Some r => with_world r w | None => r end
    | [] => r
    end
  else r.

Lemma lawful_nothing (r : reg) L V : lawful r L V r.
Proof. exists (world r). split; [apply run_done|]. split; [done|]. intros p Hp. by apply not_elem_of_empty in Hp. Qed.

Lemma run_world safe (r : reg) w l : code_run safe r l (with_world r w) l.
Proof. apply (run_memory safe r l (with_world r w)); [done|done|done| |apply run_done]. intros V Hh. by exists V. Qed.

Lemma sample_init_lawful : init_lawful sample_init.
Proof.
  intros r L held V s d Hi _ _ _ _ _. unfold sample_init. destruct (_ =? 5); [|apply lawful_nothing].
  destruct (acquire_spec r L _ V (Some (chars "a")) (i_ok _ _ _ _ Hi)) as (r' & code & E & Hr & Hcase). rewrite E.
  destruct Hcase as [(_ & -> & _)|(_ & -> & _)]; [|apply lawful_nothing].
  exists (Some (chars "a") :: world r'). split; [|split; [done|]; intros p Hp; by apply not_elem_of_empty in Hp].
  eapply run_acquire; [exact E|]. rewrite (same_rest_world r r' Hr). apply run_world.
Qed.

Lemma sample_exit_lawful : exit_lawful sample_exit.
Proof.
  intros r L held V s d Hi _ _ _ _ _. unfold sample_exit. destruct (_ =? 6); [|apply lawful_nothing].
  destruct (world r) as [|t w] eqn:Ew; [apply lawful_nothing|]. destruct (module_release r t) as [r'|] eqn:E; [|apply lawful_nothing].
  exists w. split; [|split; [done|]; intros p Hp; by apply not_elem_of_empty in Hp].
  eapply (run_release _ r _ t w); [cbn; by rewrite Ew|exact E|apply run_world].
Qed.

(** The functions of the self test keep to the rules. *)
Lemma self_test_lawful (r : reg) L V : lawful r L V (self_test_init r).1 /\ lawful r L V (self_test_exit r).
Proof.
  assert (Hrun : forall n, lawful r L V (with_count r n)).
  { intros n. exists (world r). split; [|split; [done|]; intros p Hp; by apply not_elem_of_empty in Hp].
    apply (run_memory _ r _ (with_count r n)); [done|done|done| |apply run_done]. intros V' Hh. by exists V'. }
  split; apply Hrun.
Qed.
End sample.

Definition module_a : mvh_module_descriptor :=
  Descriptor sizeof_descriptor MVH_KERNEL_ABI_VERSION (Some (chars "a")) (Some (chars "1")) 0 0 None 0 0.
(** It depends on [a], and its init function takes another handle on [a]. *)
Definition module_b : mvh_module_descriptor :=
  Descriptor sizeof_descriptor MVH_KERNEL_ABI_VERSION (Some (chars "b")) (Some (chars "1")) 0 1 (Some [Some (chars "a")]) 5 6.

(** Both modules registered, and both live. *)
Definition sample_registry (h : heap) (l : list module_slot) (w : list cstr) : registry heap (list cstr) :=
  Registry (l ++ replicate 30 zero_slot) 2 (replicate 128 (ExportSlot None 0 None)) 0 0 h w.
Definition registered (h : heap) : registry heap (list cstr) :=
  sample_registry h [new_slot module_a MVH_MODULE_REGISTERED; new_slot module_b MVH_MODULE_REGISTERED] [].
Definition running (h : heap) : registry heap (list cstr) :=
  sample_registry h [ModuleSlot (Some module_a) MVH_MODULE_LIVE 2 0 0 0; new_slot module_b MVH_MODULE_LIVE] [Some (chars "a")].

Lemma sample_heap : exists (h : heap) V, holds h V.
Proof. destruct new_heap as (h & b & Hi & _). exists h, (HeapClient.view h [b]). by exists [b]. Qed.

Lemma registered_reachable h V : holds h V -> reachable sample_init sample_exit (registered h) (fun _ => 0).
Proof.
  intros Hh. set (r0 := Registry [] 0 [] 0 0 h ([] : list cstr)).
  assert (Ha : reachable sample_init sample_exit _ (fun _ => 0)) by (apply (reach_init sample_init sample_exit r0 V); [exact Hh|done]).
  eapply (reach_call sample_init sample_exit _ _ (OpRegister (Some module_a))) in Ha; [|by intros d [= <-]|by vm_compute].
  eapply (reach_call sample_init sample_exit _ _ (OpRegister (Some module_b))) in Ha; [|by intros d [= <-]|by vm_compute].
  exact Ha.
Qed.

Lemma load_runs h : module_exec sample_init sample_exit (registered h) (OpLoad (Some (chars "b"))) = Some (inl (running h, 0)).
Proof. by vm_compute. Qed.

Lemma module_registry_invariant_witness :
  exists h L V, reachable sample_init sample_exit (running h) (fun _ => 0) /\ inv (running h) L (fun _ => 0) V /\
    forall op, op_allowed (fun _ => 0) op -> exists r' code, module_exec sample_init sample_exit (running h) op = Some (inl (r', code)).
Proof.
  destruct sample_heap as (h & V0 & Hh).
  assert (reachable sample_init sample_exit (running h) (fun _ => 0)) as Hr.
  { exact (reach_call sample_init sample_exit _ _ (OpLoad (Some (chars "b"))) _ _ (registered_reachable h V0 Hh) I (load_runs h)). }
  destruct (module_registry_invariant sample_init sample_exit sample_init_lawful sample_exit_lawful (running h) _ Hr) as (L & V & H1 & _ & _ & _ & H5).
  by exists h, L, V.
Defined.

Lemma module_call_effects_witness :
  exists h L V L' V' tr, inv (registered h) L (fun _ => 0) V /\ inv (running h) L' (fun _ => 0) V' /\
    load_effect sample_init (registered h) L V (Some (chars "b")) tr 0 (running h) L' V'.
Proof.
  destruct sample_heap as (h & V0 & Hh).
  destruct (reachable_inv sample_init sample_exit sample_init_lawful sample_exit_lawful _ _ (registered_reachable h V0 Hh)) as (L & V & Hi & Hx).
  destruct (module_call_effects sample_init sample_exit sample_init_lawful sample_exit_lawful _ _ _ _ (OpLoad (Some (chars "b"))) Hi Hx I)
    as (r' & code & L' & V' & E & Hi' & tr & He). rewrite load_runs in E. injection E as <- <-. by exists h, L, V, L', V', tr.
Defined.

Lemma module_elf_load_safe_witness :
  exists (h : heap) V res, module_elf_load sample_init (registered h) (Some driver_image) (Z.of_nat (length driver_image)) = Some (inl res) /\
    exists L, elf_outcome sample_init (registered h) L (fun _ => 0) V driver_image res.
Proof.
  destruct sample_heap as (h & V0 & Hh).
  destruct (reachable_inv sample_init sample_exit sample_init_lawful sample_exit_lawful _ _ (registered_reachable h V0 Hh)) as (L & V & Hi & Hx).
  destruct (module_elf_load_safe sample_init sample_init_lawful _ _ _ _ driver_image Hi Hx driver_bytes driver_well_formed) as (res & E & Ho).
  exists h, V, res. split; [exact E|]. by exists L.
Defined.

Lemma module_self_test_passes_witness :
  exists r : registry heap (list cstr), module_self_test (fun _ => self_test_init) (fun _ => self_test_exit) 1 2 (module_init r) = Some (inl (with_count (module_init r) 0, 0)).
Proof.
  destruct sample_heap as (h & V & Hh). set (r := Registry [] 0 [] 0 0 h ([] : list cstr)). exists r.
  assert (own (world r) = []) as Ho by done. destruct (registry_init_inv r V Hh Ho) as [Hi _].
  apply (module_self_test_passes (fun _ => self_test_init) (fun _ => self_test_exit) (module_init r) [] (fun _ => 0) V 1 2 Hi);
    [simpl; lia|by intros s ?%not_elem_of_nil|lia|lia|reflexivity|reflexivity].
Defined.

(** A builtin module is live at once: its dependencies are not looked at. *)
Definition builtin_b : mvh_module_descriptor :=
  Descriptor sizeof_descriptor MVH_KERNEL_ABI_VERSION (Some (chars "b")) (Some (chars "1")) MVH_MODULE_BUILTIN 1 (Some [Some (chars "a")]) 0 0.

Lemma builtin_dependencies_unchecked (h : heap) :
  exists r, module_register_builtin (module_init (Registry [] 0 [] 0 0 h tt)) (Some builtin_b) = Some (r, 0) /\
    rd (modules r) 0 = Some (new_slot builtin_b MVH_MODULE_LIVE) /\ find_slot r (Some (chars "a")) = Some None.
Proof. eexists. split; [by vm_compute|]. split; by vm_compute. Qed.
