(* ===== verification/Net.v ===== *)
(** * The network stack: src/net/net.c

    Ethernet, ARP, IPv4, UDP and ICMP messages, the ARP cache and the routing
    table.  A packet pointer is an array of bytes and an offset into it (null is
    [None]); a parsed message's [payload] pointer is the offset of the payload in
    the packet's array.  A function that fills a struct through a pointer is
    given the struct as it was and returns it as it is after the call, so the
    fields that an early return leaves untouched are seen. *)

From S2P Require Import Prelude Buffer.

Definition NET_ETHERNET_HEADER : Z := 14.
Definition NET_IPV4_HEADER_MIN : Z := 20.
Definition NET_ARP_PACKET_SIZE : Z := 28.
Definition NET_ARP_CACHE_SIZE : Z := 32.
Definition NET_ROUTE_MAX : Z := 16.
Definition NET_ETHERTYPE_IPV4 : Z := 2048.
Definition NET_PROTOCOL_UDP : Z := 17.

(** ** Data *)

Record net_mac : Type := { bytes : list Z }.

Record net_ethernet_frame : Type := {
  eth_destination : net_mac;
  eth_source : net_mac;
  ethertype : Z;
  eth_payload : Z;
  eth_payload_size : Z;
}.

Record net_arp_packet : Type := {
  operation : Z;
  sender_mac : net_mac;
  sender_ip : Z;
  target_mac : net_mac;
  target_ip : Z;
}.

Record net_ipv4_packet : Type := {
  header_size : Z;
  dscp_ecn : Z;
  total_size : Z;
  identification : Z;
  fragment : Z;
  ttl : Z;
  protocol : Z;
  source : Z;
  destination : Z;
  payload : Z;
  payload_size : Z;
}.

Record net_udp_datagram : Type := {
  source_port : Z;
  destination_port : Z;
  udp_payload : Z;
  udp_payload_size : Z;
}.

Record net_arp_entry : Type := {
  entry_valid : Z;
  address : Z;
  mac : net_mac;
  expires_at : Z;
}.

Record net_route : Type := {
  route_valid : Z;
  network : Z;
  netmask : Z;
  gateway : Z;
  metric : Z;
  interface_id : Z;
}.

(** The static variables of the file. *)
Record net : Type := {
  arp_cache : list net_arp_entry;
  routes : list net_route;
}.

(** A pointer into an array of bytes; [None] is the null pointer. *)
Notation pointer := (option (list Z * Z)).

Definition is_null {A : Type} (p : option A) : bool :=
  match p with None => true | Some _ => false end.

(** C's [||] on conditions that read memory: the right operand is evaluated
    only when the left one is false. *)
Definition or_else (left right : option bool) : option bool :=
  b ← left; if b : bool then Some true else right.

(** ** Byte access, in network order *)

Definition load16 (data : list Z) (o : Z) : option Z :=
  b0 ← rd data o; b1 ← rd data (o + 1); Some (u16 (b0 << 8) ||| b1).

Definition load32 (data : list Z) (o : Z) : option Z :=
  b0 ← rd data o; b1 ← rd data (o + 1); b2 ← rd data (o + 2); b3 ← rd data (o + 3);
  Some (u32 (b0 << 24) ||| u32 (b1 << 16) ||| u32 (b2 << 8) ||| b3).

Definition store16 (data : list Z) (o value : Z) : option (list Z) :=
  data ← wr data o (u8 (value >> 8)); wr data (o + 1) (u8 value).

Definition store32 (data : list Z) (o value : Z) : option (list Z) :=
  data ← wr data o (u8 (value >> 24)); data ← wr data (o + 1) (u8 (value >> 16));
  data ← wr data (o + 2) (u8 (value >> 8)); wr data (o + 3) (u8 value).

Definition copy_bytes (target : list Z) (o : Z) (source' : list Z) (so size : Z)
    : option (list Z) := copy target o source' so size.

Definition mac_equal (left right : net_mac) : option Z :=
  r ← for_break 6 0
    (fun index (_ : unit) =>
       a ← rd (bytes left) index; b ← rd (bytes right) index;
       if negb (a =? b) then Some (inr 0) else Some (inl tt)) tt;
  Some (match r with inl _ => 1 | inr v => v end).

(** ** Checksum *)

(** [while ((sum >> 16u) != 0u) sum = (sum & 0xFFFFu) + (sum >> 16u)]: a 32-bit
    sum is folded at most twice. *)
Definition fold_sum (sum : Z) : option Z :=
  while_loop 4
    (fun sum => if negb (sum >> 16 =? 0) then Some (inl (u32 ((sum &&& 65535) + (sum >> 16))))
                else Some (inr sum)) sum.

Definition net_checksum (data : list Z) (o size : Z) : option Z :=
  '(o, size, sum) ← while_loop (S (Z.to_nat size))
    (fun '(o, size, sum) =>
       if 2 <=? size then w ← load16 data o; Some (inl (o + 2, u32 (size - 2), u32 (sum + w)))
       else Some (inr (o, size, sum))) (o, size, 0);
  sum ← (if negb (size =? 0) then b ← rd data o; Some (u32 (sum + u32 (b << 8))) else Some sum);
  sum ← fold_sum sum;
  Some (u16 (compl 32 sum)).

(** ** Ethernet *)

Definition net_ethernet_parse (packet : pointer) (size : Z) (frame : option net_ethernet_frame)
    : option (option net_ethernet_frame * Z) :=
  match packet, frame with
  | Some (data, o), Some f =>
    if size <? NET_ETHERNET_HEADER then Some (frame, -1) else
    d ← copy_bytes (bytes (eth_destination f)) 0 data o 6;
    s ← copy_bytes (bytes (eth_source f)) 0 data (o + 6) 6;
    t ← load16 data (o + 12);
    Some (Some {| eth_destination := {| bytes := d |}; eth_source := {| bytes := s |};
                  ethertype := t; eth_payload := o + NET_ETHERNET_HEADER;
                  eth_payload_size := u32 (size - NET_ETHERNET_HEADER) |}, 0)
  | _, _ => Some (frame, -1)
  end.

(** The result of a builder: the packet's array (empty for null) and the status.
    The payload lies outside the part of the packet that is written. *)
Definition net_ethernet_build (packet : pointer) (capacity : Z)
    (destination' source' : option net_mac) (ethertype' : Z) (payload' : pointer)
    (payload_size' : Z) : option (list Z * Z) :=
  let total := u32 (NET_ETHERNET_HEADER + payload_size') in
  match packet with
  | None => Some ([], -1)
  | Some (data, o) =>
    match destination', source' with
    | Some d, Some s =>
      if (negb (payload_size' =? 0) && is_null payload') || (capacity <? total)
      then Some (data, -1) else
      data ← copy_bytes data o (bytes d) 0 6;
      data ← copy_bytes data (o + 6) (bytes s) 0 6;
      data ← store16 data (o + 12) ethertype';
      data ← (if negb (payload_size' =? 0) then
                '(p, po) ← payload'; copy_bytes data (o + NET_ETHERNET_HEADER) p po payload_size'
              else Some data);
      Some (data, i32 total)
    | _, _ => Some (data, -1)
    end
  end.

(** ** ARP *)

Definition net_arp_parse (packet : pointer) (size : Z) (arp : option net_arp_packet)
    : option (option net_arp_packet * Z) :=
  match packet, arp with
  | Some (data, o), Some a =>
    bad ← or_else (Some (size <? NET_ARP_PACKET_SIZE))
         (or_else (h ← load16 data o; Some (negb (h =? 1)))
         (or_else (p ← load16 data (o + 2); Some (negb (p =? NET_ETHERTYPE_IPV4)))
         (or_else (hl ← rd data (o + 4); Some (negb (hl =? 6)))
                  (pl ← rd data (o + 5); Some (negb (pl =? 4))))));
    if bad : bool then Some (arp, -1) else
    op ← load16 data (o + 6);
    if negb (op =? 1) && negb (op =? 2) then
      Some (Some {| operation := op; sender_mac := sender_mac a; sender_ip := sender_ip a;
                    target_mac := target_mac a; target_ip := target_ip a |}, -1)
    else
    sm ← copy_bytes (bytes (sender_mac a)) 0 data (o + 8) 6;
    si ← load32 data (o + 14);
    tm ← copy_bytes (bytes (target_mac a)) 0 data (o + 18) 6;
    ti ← load32 data (o + 24);
    Some (Some {| operation := op; sender_mac := {| bytes := sm |}; sender_ip := si;
                  target_mac := {| bytes := tm |}; target_ip := ti |}, 0)
  | _, _ => Some (arp, -1)
  end.

Definition net_arp_build (packet : pointer) (capacity operation' : Z)
    (sender_mac' : option net_mac) (sender_ip' : Z) (target_mac' : option net_mac)
    (target_ip' : Z) : option (list Z * Z) :=
  match packet with
  | None => Some ([], -1)
  | Some (data, o) =>
    match sender_mac', target_mac' with
    | Some sm, Some tm =>
      if (capacity <? NET_ARP_PACKET_SIZE) || (negb (operation' =? 1) && negb (operation' =? 2))
      then Some (data, -1) else
      data ← store16 data o 1;
      data ← store16 data (o + 2) NET_ETHERTYPE_IPV4;
      data ← wr data (o + 4) 6;
      data ← wr data (o + 5) 4;
      data ← store16 data (o + 6) operation';
      data ← copy_bytes data (o + 8) (bytes sm) 0 6;
      data ← store32 data (o + 14) sender_ip';
      data ← copy_bytes data (o + 18) (bytes tm) 0 6;
      data ← store32 data (o + 24) target_ip';
      Some (data, NET_ARP_PACKET_SIZE)
    | _, _ => Some (data, -1)
    end
  end.

(** ** IPv4 *)

Definition net_ipv4_parse (packet : pointer) (size : Z) (ipv4 : option net_ipv4_packet)
    : option (option net_ipv4_packet * Z) :=
  match packet, ipv4 with
  | Some (data, o), Some _ =>
    bad ← or_else (Some (size <? NET_IPV4_HEADER_MIN))
         (or_else (v ← rd data o; Some (negb (v >> 4 =? 4)))
                  (v ← rd data o; Some (v &&& 15 <? 5)));
    if bad : bool then Some (ipv4, -1) else
    v ← rd data o;
    let header_size' := u32 ((v &&& 15) * 4) in
    total ← load16 data (o + 2);
    bad ← or_else (Some ((size <? header_size') || (total <? header_size') || (size <? total)))
         (c ← net_checksum data o header_size'; Some (negb (c =? 0)));
    if bad : bool then Some (ipv4, -1) else
    tos ← rd data (o + 1);
    ident ← load16 data (o + 4);
    frag ← load16 data (o + 6);
    ttl' ← rd data (o + 8);
    proto ← rd data (o + 9);
    src ← load32 data (o + 12);
    dst ← load32 data (o + 16);
    Some (Some {| header_size := u8 header_size'; dscp_ecn := tos; total_size := u16 total;
                  identification := ident; fragment := frag; ttl := ttl'; protocol := proto;
                  source := src; destination := dst; payload := o + header_size';
                  payload_size := u32 (total - header_size') |}, 0)
  | _, _ => Some (ipv4, -1)
  end.

Definition net_ipv4_build (packet : pointer) (capacity source' destination' protocol' ttl'
    identification' : Z) (payload' : pointer) (payload_size' : Z) : option (list Z * Z) :=
  let total := u32 (NET_IPV4_HEADER_MIN + payload_size') in
  match packet with
  | None => Some ([], -1)
  | Some (data, o) =>
    if (negb (payload_size' =? 0) && is_null payload') || (65535 <? total) ||
       (capacity <? total) || (ttl' =? 0)
    then Some (data, -1) else
    data ← for_loop (Z.to_nat NET_IPV4_HEADER_MIN) 0 (fun index data => wr data (o + index) 0) data;
    data ← wr data o 69;
    data ← store16 data (o + 2) (u16 total);
    data ← store16 data (o + 4) identification';
    data ← store16 data (o + 6) 16384;
    data ← wr data (o + 8) ttl';
    data ← wr data (o + 9) protocol';
    data ← store32 data (o + 12) source';
    data ← store32 data (o + 16) destination';
    c ← net_checksum data o NET_IPV4_HEADER_MIN;
    data ← store16 data (o + 10) c;
    data ← (if negb (payload_size' =? 0) then
              '(p, po) ← payload'; copy_bytes data (o + NET_IPV4_HEADER_MIN) p po payload_size'
            else Some data);
    Some (data, i32 total)
  end.

(** ** UDP *)

Definition udp_checksum (source_ip destination_ip : Z) (udp : list Z) (o size : Z) : option Z :=
  let sum := u32 (u32 (u32 (u32 (u32 ((source_ip >> 16) + (source_ip &&& 65535)) +
    (destination_ip >> 16)) + (destination_ip &&& 65535)) + NET_PROTOCOL_UDP) + size) in
  sum ← while_loop (S (Z.to_nat size))
    (fun '(offset, sum) =>
       if u32 (offset + 1) <? size then
         w ← load16 udp (o + offset); Some (inl (u32 (offset + 2), u32 (sum + w)))
       else Some (inr sum)) (0, sum);
  sum ← (if negb (size &&& 1 =? 0) then
           b ← rd udp (o + u32 (size - 1)); Some (u32 (sum + u32 (b << 8)))
         else Some sum);
  sum ← fold_sum sum;
  Some (u16 (compl 32 sum)).

Definition net_udp_parse (packet : pointer) (size : Z) (udp : option net_udp_datagram)
    : option (option net_udp_datagram * Z) :=
  match packet, udp with
  | Some (data, o), Some _ =>
    if size <? 8 then Some (udp, -1) else
    length' ← load16 data (o + 4);
    if (length' <? 8) || (size <? length') then Some (udp, -1) else
    sp ← load16 data o;
    dp ← load16 data (o + 2);
    Some (Some {| source_port := sp; destination_port := dp; udp_payload := o + 8;
                  udp_payload_size := u32 (length' - 8) |}, 0)
  | _, _ => Some (udp, -1)
  end.

Definition net_udp_build (packet : pointer) (capacity source_ip destination_ip source_port'
    destination_port' : Z) (payload' : pointer) (payload_size' : Z) : option (list Z * Z) :=
  let total := u32 (8 + payload_size') in
  match packet with
  | None => Some ([], -1)
  | Some (data, o) =>
    if (negb (payload_size' =? 0) && is_null payload') || (65535 <? total) ||
       (capacity <? total) || (source_port' =? 0) || (destination_port' =? 0)
    then Some (data, -1) else
    data ← store16 data o source_port';
    data ← store16 data (o + 2) destination_port';
    data ← store16 data (o + 4) (u16 total);
    data ← store16 data (o + 6) 0;
    data ← (if negb (payload_size' =? 0) then
              '(p, po) ← payload'; copy_bytes data (o + 8) p po payload_size'
            else Some data);
    checksum ← udp_checksum source_ip destination_ip data o total;
    data ← store16 data (o + 6) (if checksum =? 0 then 65535 else checksum);
    Some (data, i32 total)
  end.

(** ** ICMP *)

Definition net_icmp_echo_reply (packet : pointer) (size : Z) : option (list Z * Z) :=
  match packet with
  | None => Some ([], -1)
  | Some (data, o) =>
    bad ← or_else (Some (size <? 8))
         (or_else (t ← rd data o; Some (negb (t =? 8)))
         (or_else (c ← rd data (o + 1); Some (negb (c =? 0)))
                  (c ← net_checksum data o size; Some (negb (c =? 0)))));
    if bad : bool then Some (data, -1) else
    data ← wr data o 0;
    data ← wr data (o + 2) 0;
    data ← wr data (o + 3) 0;
    c ← net_checksum data o size;
    data ← store16 data (o + 2) c;
    Some (data, 0)
  end.

(** ** The ARP cache *)

Definition invalidate (e : net_arp_entry) : net_arp_entry :=
  {| entry_valid := 0; address := address e; mac := mac e; expires_at := expires_at e |}.

Definition with_cache (s : net) (cache : list net_arp_entry) : net :=
  {| arp_cache := cache; routes := routes s |}.

Definition net_arp_cache_init (s : net) : option net :=
  cache ← for_loop (Z.to_nat NET_ARP_CACHE_SIZE) 0
    (fun index cache => e ← rd cache index; wr cache index (invalidate e)) (arp_cache s);
  Some (with_cache s cache).

Definition net_arp_cache_expire (s : net) (now : Z) : option net :=
  cache ← for_loop (Z.to_nat NET_ARP_CACHE_SIZE) 0
    (fun index cache =>
       e ← rd cache index;
       if negb (entry_valid e =? 0) && (expires_at e <=? now)
       then wr cache index (invalidate e) else Some cache) (arp_cache s);
  Some (with_cache s cache).

(** The search loop of [net_arp_cache_update]. *)
Definition choose_slot (cache : list net_arp_entry) (address' : Z) : option Z :=
  r ← for_break (Z.to_nat NET_ARP_CACHE_SIZE) 0
    (fun index slot =>
       e ← rd cache index;
       if negb (entry_valid e =? 0) && (address e =? address') then Some (inr index)
       else if (slot =? NET_ARP_CACHE_SIZE) && (entry_valid e =? 0) then Some (inl index)
       else Some (inl slot)) NET_ARP_CACHE_SIZE;
  Some (match r with inl slot => slot | inr slot => slot end).

Definition net_arp_cache_update (s : net) (address' : Z) (mac' : option net_mac)
    (expires_at' : Z) : option (net * Z) :=
  match mac' with
  | None => Some (s, -1)
  | Some m =>
    if (address' =? 0) || (expires_at' =? 0) then Some (s, -1) else
    slot ← choose_slot (arp_cache s) address';
    let slot := if slot =? NET_ARP_CACHE_SIZE then address' mod NET_ARP_CACHE_SIZE else slot in
    cache ← wr (arp_cache s) slot
      {| entry_valid := 1; address := address'; mac := m; expires_at := expires_at' |};
    Some (with_cache s cache, 0)
  end.

(** The result: the state, the caller's [mac] and the status. *)
Definition net_arp_cache_lookup (s : net) (address' now : Z) (mac' : option net_mac)
    : option (net * option net_mac * Z) :=
  match mac' with
  | None => Some (s, None, -1)
  | Some m =>
    r ← for_break (Z.to_nat NET_ARP_CACHE_SIZE) 0
      (fun index (_ : unit) =>
         e ← rd (arp_cache s) index;
         if negb (entry_valid e =? 0) && (address e =? address') then
           if expires_at e <=? now then
             cache ← wr (arp_cache s) index (invalidate e);
             Some (inr (with_cache s cache, mac', -1))
           else Some (inr (s, Some (mac e), 0))
         else Some (inl tt)) tt;
    Some (match r with inl _ => (s, mac', -1) | inr v => v end)
  end.

(** ** The routing table *)

Definition with_routes (s : net) (table : list net_route) : net :=
  {| arp_cache := arp_cache s; routes := table |}.

Definition net_route_init (s : net) : option net :=
  table ← for_loop (Z.to_nat NET_ROUTE_MAX) 0
    (fun index table =>
       r ← rd table index;
       wr table index {| route_valid := 0; network := network r; netmask := netmask r;
                         gateway := gateway r; metric := metric r;
                         interface_id := interface_id r |}) (routes s);
  Some (with_routes s table).

Definition net_route_add (s : net) (network' netmask' gateway' metric' interface_id' : Z)
    : option (net * Z) :=
  if negb (network' &&& compl 32 netmask' =? 0) then Some (s, -1) else
  r ← for_break (Z.to_nat NET_ROUTE_MAX) 0
    (fun index (_ : unit) =>
       r ← rd (routes s) index;
       if route_valid r =? 0 then
         table ← wr (routes s) index
           {| route_valid := 1; network := network'; netmask := netmask'; gateway := gateway';
              metric := metric'; interface_id := interface_id' |};
         Some (inr (with_routes s table, 0))
       else Some (inl tt)) tt;
  Some (match r with inl _ => (s, -1) | inr v => v end).

(** A 32-bit mask is empty after at most 32 shifts. *)
Definition mask_bits (mask : Z) : option Z :=
  while_loop 33
    (fun '(mask, count) =>
       if negb (mask =? 0) then Some (inl (mask >> 1, u32 (count + (mask &&& 1))))
       else Some (inr count)) (mask, 0).

(** One iteration of the loop of [net_route_lookup], on [(best, best_bits)]. *)
Definition route_step (table : list net_route) (destination' index : Z)
    (st : Z * Z) : option (Z * Z) :=
  let '(best, best_bits) := st in
  r ← rd table index;
  if (route_valid r =? 0) || negb (destination' &&& netmask r =? network r) then Some st else
  bits ← mask_bits (netmask r);
  better ← or_else (Some ((best =? NET_ROUTE_MAX) || (best_bits <? bits)))
    (if bits =? best_bits then b ← rd table best; Some (metric r <? metric b) else Some false);
  Some (if better : bool then (index, bits) else st).

Definition net_route_lookup (s : net) (destination' : Z) (route : option net_route)
    : option (option net_route * Z) :=
  '(best, _) ← for_loop (Z.to_nat NET_ROUTE_MAX) 0 (route_step (routes s) destination')
                 (NET_ROUTE_MAX, 0);
  if (best =? NET_ROUTE_MAX) || is_null route then Some (route, -1) else
  r ← rd (routes s) best;
  Some (Some r, 0).

(** ** The self test

    The uninitialised locals of the C function are parameters. *)

Definition net_self_test (s : net) (packet : list Z) (result_mac : net_mac)
    (arp : net_arp_packet) (ipv4 : net_ipv4_packet) (udp : net_udp_datagram)
    (route : net_route) : option (net * Z) :=
  let payload' := [109; 118; 104; 33] in
  let a := {| bytes := [2; 0; 0; 0; 0; 1] |} in
  let b := {| bytes := [2; 0; 0; 0; 0; 2] |} in
  let host := 3232235786 in
  let router := 3232235777 in
  '(packet, r) ← net_arp_build (Some (packet, 0)) 128 1 (Some a) host (Some b) router;
  if negb (r =? NET_ARP_PACKET_SIZE) then Some (s, -1) else
  '(arp, r) ← net_arp_parse (Some (packet, 0)) NET_ARP_PACKET_SIZE (Some arp);
  if negb (r =? 0) then Some (s, -1) else
  arp ← arp;
  bad ← or_else (Some (negb (operation arp =? 1) || negb (sender_ip arp =? host)))
                (e ← mac_equal (sender_mac arp) a; Some (e =? 0));
  if bad : bool then Some (s, -1) else
  '(packet, udp_size) ← net_udp_build (Some (packet, 32)) (128 - 32) host router 1234 4321
                          (Some (payload', 0)) 4;
  if negb (udp_size =? 12) then Some (s, -1) else
  '(udp, r) ← net_udp_parse (Some (packet, 32)) (u32 udp_size) (Some udp);
  if negb (r =? 0) then Some (s, -1) else
  udp ← udp;
  if negb (source_port udp =? 1234) || negb (destination_port udp =? 4321) ||
     negb (udp_payload_size udp =? 4) then Some (s, -1) else
  '(packet, ip_size) ← net_ipv4_build (Some (packet, 0)) 128 host router NET_PROTOCOL_UDP 64 7
                         (Some (packet, 32)) (u32 udp_size);
  if negb (ip_size =? 32) then Some (s, -1) else
  '(ipv4, r) ← net_ipv4_parse (Some (packet, 0)) (u32 ip_size) (Some ipv4);
  if negb (r =? 0) then Some (s, -1) else
  header ← ipv4;
  if negb (protocol header =? NET_PROTOCOL_UDP) || negb (payload_size header =? 12)
  then Some (s, -1) else
  x ← rd packet 10;
  packet ← wr packet 10 (x ^^^ 1);
  '(ipv4, r) ← net_ipv4_parse (Some (packet, 0)) (u32 ip_size) ipv4;
  if r =? 0 then Some (s, -1) else
  x ← rd packet 10;
  packet ← wr packet 10 (x ^^^ 1);
  s ← net_arp_cache_init s;
  '(s, r) ← net_arp_cache_update s router (Some b) 100;
  if negb (r =? 0) then Some (s, -1) else
  '(s, found, r) ← net_arp_cache_lookup s router 99 (Some result_mac);
  if negb (r =? 0) then Some (s, -1) else
  result_mac ← found;
  e ← mac_equal result_mac b;
  if e =? 0 then Some (s, -1) else
  '(s, _, r) ← net_arp_cache_lookup s router 100 (Some result_mac);
  if r =? 0 then Some (s, -1) else
  s ← net_route_init s;
  '(s, r) ← net_route_add s 0 0 router 100 1;
  if negb (r =? 0) then Some (s, -1) else
  '(s, r) ← net_route_add s 3232235776 4294967040 0 10 2;
  if negb (r =? 0) then Some (s, -1) else
  '(route, r) ← net_route_lookup s 3232235844 (Some route);
  if negb (r =? 0) then Some (s, -1) else
  found ← route;
  if negb (interface_id found =? 2) then Some (s, -1) else
  '(route, r) ← net_route_lookup s 134744072 route;
  if negb (r =? 0) then Some (s, -1) else
  found ← route;
  if negb (gateway found =? router) then Some (s, -1) else
  Some (s, 0).
