(* ===== verification/NetMessages.v ===== *)
(** * Network messages: the Internet checksum and the message formats

    The checksum of Net.v is the ones' complement sum of RFC 1071; the messages
    the builders write are read back by the parsers, carry a checksum that
    verifies, and a damaged IPv4 header is refused. *)

From S2P Require Import Prelude Buffer Net.

(** ** Network order *)

Definition be16 (v : Z) : list Z := [u8 (v >> 8); u8 v].
Definition be32 (v : Z) : list Z := [u8 (v >> 24); u8 (v >> 16); u8 (v >> 8); u8 v].

Lemma be16_bytes v : all_bytes (be16 v).
Proof. repeat constructor; apply u8_range. Qed.

Lemma be32_bytes v : all_bytes (be32 v).
Proof. repeat constructor; apply u8_range. Qed.

Lemma join16 b0 b1 : fits 8 b0 -> fits 8 b1 -> u16 (b0 << 8) ||| b1 = 256 * b0 + b1.
Proof.
  intros H0 H1. rewrite u16_small by (rewrite Z.shiftl_mul_pow2 by lia; warith).
  rewrite lor_shl' by (lia || warith). warith.
Qed.

Lemma split16 v : fits 16 v -> 256 * u8 (v >> 8) + u8 v = v.
Proof. intros H. rewrite Z.shiftr_div_pow2 by lia. widths. divlia. Qed.

Lemma join32 b0 b1 b2 b3 :
  fits 8 b0 -> fits 8 b1 -> fits 8 b2 -> fits 8 b3 ->
  u32 (b0 << 24) ||| u32 (b1 << 16) ||| u32 (b2 << 8) ||| b3 =
    2 ^ 24 * b0 + 2 ^ 16 * b1 + 256 * b2 + b3.
Proof.
  intros H0 H1 H2 H3.
  assert (u32 (b0 << 24) ||| u32 (b1 << 16) ||| u32 (b2 << 8) ||| b3 =
          b3 ||| u32 (b2 << 8) ||| u32 (b1 << 16) ||| u32 (b0 << 24)) as ->.
  { zbits. btauto. }
  rewrite join_bytes4 by done. lia.
Qed.

Lemma split32 v : fits 32 v ->
  2 ^ 24 * u8 (v >> 24) + 2 ^ 16 * u8 (v >> 16) + 256 * u8 (v >> 8) + u8 v = v.
Proof.
  intros H. rewrite !Z.shiftr_div_pow2 by lia. widths.
  change (2 ^ 24) with 16777216. divlia.
Qed.

Lemma store16_spec b o v : room b o 2 -> store16 b o v = Some (splice b o (be16 v)).
Proof.
  intros Hr. unfold store16, room in *. rewrite wr_splice by (unfold room; lia). rewrite bind_some.
  rewrite wr_splice by (unfold room; rewrite length_splice by (unfold room; simpl; lia); lia).
  by rewrite (splice_next b o (o + 1) [_] [_]) by (unfold room; simpl; lia).
Qed.

Lemma store32_spec b o v : room b o 4 -> store32 b o v = Some (splice b o (be32 v)).
Proof.
  intros Hr. unfold store32, room in *. rewrite wr_splice by (unfold room; lia). rewrite bind_some.
  rewrite wr_splice by (unfold room; rewrite length_splice by (unfold room; simpl; lia); lia).
  rewrite bind_some, (splice_next b o (o + 1) [_] [_]) by (unfold room; simpl; lia).
  rewrite wr_splice by (unfold room; rewrite length_splice by (unfold room; simpl; lia); lia).
  rewrite bind_some, (splice_next b o (o + 2) _ [_]) by (unfold room; simpl; lia).
  rewrite wr_splice by (unfold room; rewrite length_splice by (unfold room; simpl; lia); lia).
  by rewrite (splice_next b o (o + 3) _ [_]) by (unfold room; simpl; lia).
Qed.

(** Reads inside a window depend on the window only. *)
Lemma load16_window b o l k :
  room b o (Z.of_nat (length l)) -> room l k 2 -> load16 (splice b o l) (o + k) = load16 l k.
Proof.
  intros Hr Hk. unfold load16, room in *. rewrite <- Z.add_assoc.
  by rewrite !rd_window by (unfold room; lia).
Qed.

Lemma load32_window b o l k :
  room b o (Z.of_nat (length l)) -> room l k 4 -> load32 (splice b o l) (o + k) = load32 l k.
Proof.
  intros Hr Hk. unfold load32, room in *. rewrite <- !Z.add_assoc.
  by rewrite !rd_window by (unfold room; lia).
Qed.

Lemma rd_skip (pre l : list Z) k :
  0 <= k -> rd (pre ++ l) (Z.of_nat (length pre) + k) = rd l k.
Proof.
  intros Hk. rewrite rd_app, (proj2 (Z.ltb_ge _ _)) by lia. f_equal. lia.
Qed.

Lemma load16_be16 v pre post k :
  k = Z.of_nat (length pre) -> fits 16 v -> load16 (pre ++ be16 v ++ post) k = Some v.
Proof.
  intros -> Hv. unfold load16. rewrite <- (Z.add_0_r (Z.of_nat (length pre))), <- Z.add_assoc.
  rewrite !rd_skip by lia. simpl. rewrite join16 by apply u8_range. f_equal. by apply split16.
Qed.

Lemma load32_be32 v pre post k :
  k = Z.of_nat (length pre) -> fits 32 v -> load32 (pre ++ be32 v ++ post) k = Some v.
Proof.
  intros -> Hv. unfold load32. rewrite <- (Z.add_0_r (Z.of_nat (length pre))), <- !Z.add_assoc.
  rewrite !rd_skip by lia. simpl. rewrite join32 by apply u8_range. f_equal. by apply split32.
Qed.

(** ** The Internet checksum *)

(** The sum of the 16-bit words of a message, a missing last byte being 0. *)
Fixpoint word_sum (l : list Z) : Z :=
  match l with
  | a :: b :: l => 256 * a + b + word_sum l
  | [a] => 256 * a
  | [] => 0
  end.

(** The ones' complement value of a sum: 0 for 0, else in [1, 65535]. *)
Definition ones_complement (s : Z) : Z := if s =? 0 then 0 else 1 + (s - 1) mod 65535.

Lemma ones_complement_fits s : fits 16 (ones_complement s).
Proof. unfold ones_complement. split_if; [done|]. widths. divlia. Qed.

Lemma ones_complement_small s : fits 16 s -> ones_complement s = s.
Proof. intros H. unfold ones_complement. split_if; [lia|]. widths. rewrite Z.mod_small by warith. lia. Qed.

(** Adding the high half to the low half keeps the ones' complement value. *)
Lemma ones_complement_fold s :
  0 <= s -> ones_complement (s mod 65536 + s / 65536) = ones_complement s.
Proof.
  intros Hs. unfold ones_complement.
  replace (s mod 65536 + s / 65536 =? 0) with (s =? 0) by (zcmp; divlia).
  split_if; [done|]. f_equal.
  replace (s - 1) with (s mod 65536 + s / 65536 - 1 + (s / 65536) * 65535) by divlia.
  by rewrite Z_mod_plus_full.
Qed.

(** A sum of multiples of 65535 with a nonzero part has value 65535. *)
Lemma ones_complement_full s :
  ones_complement s = 65535 <-> s <> 0 /\ s mod 65535 = 0.
Proof.
  unfold ones_complement. split_if; [split; [lia|tauto]|].
  split; [intros; split; [lia|divlia]|intros; divlia].
Qed.

Lemma ones_complement_mod s : (s - ones_complement s) mod 65535 = 0.
Proof. unfold ones_complement. split_if; [by subst|]. divlia. Qed.

Lemma land_65535 x : x &&& 65535 = x mod 65536.
Proof. apply (land_mask x 16). lia. Qed.

Lemma fold_sum_spec s : fits 32 s -> fold_sum s = Some (ones_complement s).
Proof.
  assert (forall fuel s, 0 <= s -> fits 16 (s mod 65536 + s / 65536) \/ fits 16 s -> (2 <= fuel)%nat ->
    while_loop fuel (fun sum => if negb (sum >> 16 =? 0) then
        Some (inl (u32 ((sum &&& 65535) + (sum >> 16)))) else Some (inr sum)) s
      = Some (ones_complement s)) as Hend.
  { clear s. intros fuel s Hs H Hf. destruct fuel as [|[|fuel]]; [lia|lia|]. rewrite while_loop_S.
    cbn beta. rewrite land_65535, Z.shiftr_div_pow2 by lia. change (2 ^ 16) with 65536.
    destruct (Z.eqb_spec (s / 65536) 0) as [E|E]; cbn [negb]; rewrite bind_some; cbn iota.
    - rewrite ones_complement_small by (widths; divlia). done.
    - destruct H as [H|H]; [|exfalso; widths; apply E; apply Z.div_small; warith].
      rewrite while_loop_S; cbn beta. rewrite (proj2 (Z.eqb_eq (u32 _ >> 16) 0)) by
        (rewrite u32_small by warith; rewrite Z.shiftr_div_pow2 by lia; apply Z.div_small; warith).
      simpl. rewrite u32_small by warith.
      rewrite <- ones_complement_fold, ones_complement_small by done. done. }
  intros Hs. unfold fold_sum. rewrite while_loop_S.
  cbn beta. rewrite land_65535, Z.shiftr_div_pow2 by lia. change (2 ^ 16) with 65536.
  destruct (Z.eqb_spec (s / 65536) 0) as [E|E]; cbn [negb]; rewrite bind_some; cbn iota.
  - rewrite ones_complement_small by (widths; divlia). done.
  - rewrite u32_small by (widths; divlia). rewrite <- ones_complement_fold by warith.
    apply Hend; [widths; divlia| |lia]. left. widths. divlia.
Qed.

Lemma complement_16 s : u16 (compl 32 (ones_complement s)) = 65535 - ones_complement s.
Proof.
  pose proof (ones_complement_fits s). unfold compl. widths.
  replace (2 ^ 32 - 1 - ones_complement s) with (65535 - ones_complement s + 65535 * 65536) by lia.
  change (2 ^ 16) with 65536 in *. rewrite Z_mod_plus_full. apply Z.mod_small. lia.
Qed.


#[global] Arguments fold_sum : simpl never.
#[global] Arguments net_checksum : simpl never.

Lemma slice_cons b o n :
  room b o n -> 1 <= n -> exists x, rd b o = Some x /\ slice b o n = x :: slice b (o + 1) (n - 1).
Proof.
  intros (Ho & Hn & Hl) Hn1. destruct (rd_ok b o) as [x Hx]; [lia|]. exists x. split; [done|].
  apply rd_Some in Hx as [_ Hx]. unfold slice. rewrite (drop_S b x (Z.to_nat o)) by done.
  replace (Z.to_nat n) with (S (Z.to_nat (n - 1))) by lia.
  simpl. by replace (Z.to_nat (o + 1)) with (S (Z.to_nat o)) by lia.
Qed.

Lemma slice_empty b o : slice b o 0 = [].
Proof. done. Qed.

Lemma rd_byte b o x : all_bytes b -> rd b o = Some x -> fits 8 x.
Proof. intros Hb [_ Hx]%rd_Some. eapply Forall_lookup_1; eauto. Qed.

(** The loop of [net_checksum] has added the words of the message, modulo
    2^32, when it ends with an even number of bytes; else one is left. *)
Lemma checksum_loop b fuel o n sum :
  all_bytes b -> room b o n -> fits 32 n -> (Z.to_nat n < fuel)%nat ->
  exists o' n' sum' x,
    while_loop fuel (fun '(o, size, sum) =>
       if 2 <=? size then w ← load16 b o; Some (inl (o + 2, u32 (size - 2), u32 (sum + w)))
       else Some (inr (o, size, sum))) (o, n, sum) = Some (o', n', sum') /\
    ((n' = 0 /\ u32 sum' = u32 (sum + word_sum (slice b o n))) \/
     (n' = 1 /\ rd b o' = Some x /\ u32 (sum' + 256 * x) = u32 (sum + word_sum (slice b o n)))) /\
    (fits 32 sum -> fits 32 sum').
Proof.
  intros Hb. revert o n sum. induction fuel as [|fuel IH]; intros o n sum Hr Hn Hf; [lia|].
  rewrite while_loop_S. destruct (Z.leb_spec 2 n).
  - destruct (slice_cons b o n Hr) as (x & Hx & Hs); [lia|].
    destruct (slice_cons b (o + 1) (n - 1)) as (y & Hy & Hs'); [unfold room in *; lia..|].
    pose proof (rd_byte _ _ _ Hb Hx). pose proof (rd_byte _ _ _ Hb Hy).
    unfold load16. rewrite Hx, Hy. cbn [mbind option_bind]. rewrite join16 by done.
    rewrite u32_small by (widths; lia).
    destruct (IH (o + 2) (n - 2) (u32 (sum + (256 * x + y)))) as (o' & n' & sum' & z & Hl & Hc & Hs32);
      [unfold room in *; lia|widths; lia|lia|].
    exists o', n', sum', z. split; [exact Hl|]. split; [|intros; apply Hs32, u32_range].
    rewrite Hs, Hs'. replace (o + 1 + 1) with (o + 2) by lia. replace (n - 1 - 1) with (n - 2) by lia.
    cbn [word_sum]. assert (forall w, u32 (u32 (sum + (256 * x + y)) + w) = u32 (sum + (256 * x + y + w))) as E.
    { intros w. unfold u32. rewrite Zplus_mod_idemp_l. f_equal. lia. }
    by rewrite <- E.
  - destruct (Z.eq_dec n 0) as [->|].
    + exists o, 0, sum, 0. split; [done|]. split; [left|done]. split; [done|].
      rewrite slice_empty. simpl. f_equal. lia.
    + destruct (slice_cons b o n Hr) as (x & Hx & Hs); [unfold room in Hr; lia|].
      exists o, n, sum, x. split; [done|]. split; [right|done].
      replace (n - 1) with 0 in Hs by (unfold room in Hr; lia). rewrite Hs, slice_empty. simpl.
      split; [unfold room in Hr; lia|done].
Qed.

(** [net_checksum] is the complement of the ones' complement value of the sum
    of the words, as long as the message is not so long that the sum wraps. *)
Lemma net_checksum_mod b o n :
  all_bytes b -> room b o n -> fits 32 n ->
  net_checksum b o n = Some (65535 - ones_complement (u32 (word_sum (slice b o n)))).
Proof.
  intros Hb Hr Hn. unfold net_checksum.
  destruct (checksum_loop b (S (Z.to_nat n)) o n 0) as (o' & n' & sum' & x & -> & Hc & Hs); [done..|lia|].
  assert (fits 32 0) as H0 by done. specialize (Hs H0). clear H0.
  rewrite bind_some. rewrite !Z.add_0_l in Hc.
  destruct Hc as [[-> Hc]|(-> & Hx & Hc)]; cbn [negb Z.eqb].
  - rewrite u32_small in Hc by done.
    rewrite bind_some, fold_sum_spec, bind_some, complement_16 by done. by rewrite Hc.
  - rewrite Hx, !bind_some. pose proof (rd_byte _ _ _ Hb Hx).
    rewrite (u32_small (x << 8)) by (rewrite Z.shiftl_mul_pow2 by lia; warith).
    rewrite Z.shiftl_mul_pow2 by lia. replace (x * 2 ^ 8) with (256 * x) by lia.
    by rewrite fold_sum_spec, bind_some, complement_16, Hc by apply u32_range.
Qed.

Lemma pairs_ind {A} (P : list A -> Prop) :
  P [] -> (forall a, P [a]) -> (forall a b l, P l -> P (a :: b :: l)) -> forall l, P l.
Proof.
  intros H0 H1 H2. assert (forall l, P l /\ forall a, P (a :: l)) as H; [|intros l; apply H].
  induction l as [|b l [IH1 IH2]]; [auto|]. split; [apply IH2|]. intros a. by apply H2.
Qed.

Lemma word_sum_bounds l :
  all_bytes l -> 0 <= word_sum l /\ 2 * word_sum l <= 65535 * (Z.of_nat (length l) + 1).
Proof.
  induction l as [|a|a b l IH] using pairs_ind; intros Hl; unfold all_bytes in *.
  - simpl. lia.
  - apply Forall_cons in Hl as [? _]. cbn [word_sum length]. warith.
  - apply Forall_cons in Hl as [? Hl]. apply Forall_cons in Hl as [? Hl]. specialize (IH Hl).
    cbn [word_sum length]. warith.
Qed.

Lemma word_sum_app l1 l2 :
  Nat.Even (length l1) -> word_sum (l1 ++ l2) = word_sum l1 + word_sum l2.
Proof.
  induction l1 as [|a|a b l1 IH] using pairs_ind; intros He.
  - done.
  - destruct He as [k Hk]. simpl in Hk. lia.
  - cbn [word_sum app]. rewrite IH; [lia|]. destruct He as [k Hk]. exists (k - 1)%nat. simpl in Hk. lia.
Qed.

(** A message whose checksum verifies. *)
Definition sum_valid (w : Z) : Prop := w <> 0 /\ w mod 65535 = 0.

Lemma net_checksum_spec b o n :
  all_bytes b -> room b o n -> n <= 131072 ->
  net_checksum b o n = Some (65535 - ones_complement (word_sum (slice b o n))).
Proof.
  intros Hb Hr Hn. rewrite net_checksum_mod; [|done..|unfold room in Hr; warith].
  pose proof (word_sum_bounds (slice b o n) (all_bytes_slice _ _ _ Hb)) as Hw.
  rewrite length_slice in Hw by done. rewrite u32_small; [done|]. unfold room in Hr. warith.
Qed.

Lemma net_checksum_valid b o n :
  all_bytes b -> room b o n -> n <= 131072 ->
  exists c, net_checksum b o n = Some c /\ (c = 0 <-> sum_valid (word_sum (slice b o n))).
Proof.
  intros Hb Hr Hn. rewrite net_checksum_spec by done. eexists. split; [reflexivity|].
  unfold sum_valid. rewrite <- ones_complement_full.
  pose proof (ones_complement_fits (word_sum (slice b o n))). warith.
Qed.

(** Adding the complement of a sum makes it valid. *)
Lemma checksum_completes s : 0 <= s -> sum_valid (s + (65535 - ones_complement s)).
Proof.
  intros Hs. pose proof (ones_complement_fits s) as Hf. pose proof (ones_complement_mod s) as Hm.
  split.
  - unfold ones_complement in *. split_if; [lia|]. intros E. widths. divlia.
  - replace (s + (65535 - ones_complement s)) with (s - ones_complement s + 1 * 65535) by lia.
    by rewrite Z_mod_plus_full.
Qed.

(** Changing one byte of a message changes the sum by less than 65535. *)
Lemma word_sum_insert l k x y :
  l !! k = Some y -> fits 8 x -> fits 8 y -> x <> y ->
  exists d, word_sum (<[k := x]> l) = word_sum l + d /\ d <> 0 /\ -65535 < d < 65535.
Proof.
  revert k. induction l as [|a|a b l IH] using pairs_ind; intros k Hk Hx Hy Hne.
  - done.
  - destruct k as [|k]; [|done]. simplify_eq/=. exists (256 * x - 256 * y). warith.
  - destruct k as [|[|k]]; simplify_eq/=.
    + exists (256 * x - 256 * y). warith.
    + exists (x - y). warith.
    + destruct (IH k) as (d & E & Hd); [done..|]. exists d. rewrite E. lia.
Qed.

Lemma sum_valid_unique s d : sum_valid s -> d <> 0 -> -65535 < d < 65535 -> ~ sum_valid (s + d).
Proof. intros [_ Hs] Hd Hr [_ H]. divlia. Qed.

(** ** Writes inside a window *)

Lemma wr_window b o l k v :
  room b o (Z.of_nat (length l)) -> 0 <= k < Z.of_nat (length l) ->
  wr (splice b o l) (o + k) v = Some (splice b o (<[Z.to_nat k := v]> l)).
Proof.
  intros Hr Hk. rewrite wr_splice by (unfold room in *; rewrite length_splice by done; lia).
  rewrite splice_window by (done || unfold room in *; simpl; lia). do 2 f_equal.
  pose proof (wr_splice l k v) as E. rewrite wr_ok in E by lia.
  assert (room l k 1) as H1 by (unfold room; lia). specialize (E H1). congruence.
Qed.

Lemma store16_window b o l k v :
  room b o (Z.of_nat (length l)) -> room l k 2 ->
  store16 (splice b o l) (o + k) v = Some (splice b o (splice l k (be16 v))).
Proof.
  intros Hr Hk. rewrite store16_spec by (unfold room in *; rewrite length_splice by done; lia).
  by rewrite splice_window.
Qed.

Lemma store32_window b o l k v :
  room b o (Z.of_nat (length l)) -> room l k 4 ->
  store32 (splice b o l) (o + k) v = Some (splice b o (splice l k (be32 v))).
Proof.
  intros Hr Hk. rewrite store32_spec by (unfold room in *; rewrite length_splice by done; lia).
  by rewrite splice_window.
Qed.

(** The payload argument of a builder. *)
Definition payload_ok (payload' : option (list Z * Z)) (n : Z) : Prop :=
  match payload' with
  | Some (p, po) => room p po n /\ all_bytes p
  | None => n = 0
  end.

Definition payload_bytes (payload' : option (list Z * Z)) (n : Z) : list Z :=
  match payload' with Some (p, po) => slice p po n | None => [] end.

Lemma length_payload_bytes p n : payload_ok p n -> length (payload_bytes p n) = Z.to_nat n.
Proof. destruct p as [[p po]|]; simpl; [intros [? _]; by apply length_slice|by intros ->]. Qed.

Lemma payload_bytes_bytes p n : payload_ok p n -> all_bytes (payload_bytes p n).
Proof. destruct p as [[p po]|]; simpl; [intros [_ ?]; by apply all_bytes_slice|constructor]. Qed.

Lemma put_payload data o p n :
  payload_ok p n -> room data o n ->
  (if negb (n =? 0) then '(a, ao) ← p; copy_bytes data o a ao n else Some data) =
    Some (splice data o (payload_bytes p n)).
Proof.
  intros Hp Hr. destruct (Z.eqb_spec n 0) as [->|]; simpl.
  - replace (payload_bytes p 0) with (@nil Z) by (by destruct p as [[]|]).
    unfold splice. simpl. by rewrite Nat.add_0_r, take_drop.
  - destruct p as [[a ao]|]; [|done]. destruct Hp as [? _]. by apply copy_spec.
Qed.

Lemma payload_guard p n : payload_ok p n -> negb (n =? 0) && is_null p = false.
Proof. destruct p as [[]|]; simpl; [by rewrite andb_false_r|by intros ->]. Qed.

(** ** Reading fields *)

Definition byte (b : list Z) (i : Z) : Z := default 0 (rd b i).
Definition word16 (b : list Z) (i : Z) : Z := 256 * byte b i + byte b (i + 1).
Definition word32 (b : list Z) (i : Z) : Z :=
  2 ^ 24 * byte b i + 2 ^ 16 * byte b (i + 1) + 256 * byte b (i + 2) + byte b (i + 3).

Lemma rd_at b i : room b i 1 -> rd b i = Some (byte b i).
Proof. intros H. unfold byte. destruct (rd_ok b i) as [x ->]; [unfold room in H; lia|done]. Qed.

Lemma byte_fits b i : all_bytes b -> fits 8 (byte b i).
Proof. intros Hb. unfold byte. destruct (rd b i) eqn:E; [by eapply rd_byte|done]. Qed.

Lemma load16_at b i : all_bytes b -> room b i 2 -> load16 b i = Some (word16 b i).
Proof.
  intros Hb Hr. unfold load16, room in *. rewrite !rd_at by (unfold room; lia). simpl.
  by rewrite join16 by (by apply byte_fits).
Qed.

Lemma load32_at b i : all_bytes b -> room b i 4 -> load32 b i = Some (word32 b i).
Proof.
  intros Hb Hr. unfold load32, room in *. rewrite !rd_at by (unfold room; lia). simpl.
  by rewrite join32 by (by apply byte_fits).
Qed.

Lemma word16_fits b i : all_bytes b -> fits 16 (word16 b i).
Proof.
  intros Hb. unfold word16. pose proof (byte_fits b i Hb). pose proof (byte_fits b (i + 1) Hb). warith.
Qed.

Lemma byte_window b o l k :
  room b o (Z.of_nat (length l)) -> 0 <= k < Z.of_nat (length l) ->
  byte (splice b o l) (o + k) = byte l k.
Proof. intros. unfold byte. by rewrite rd_window. Qed.

Lemma byte_first b o l :
  room b o (Z.of_nat (length l)) -> 0 < Z.of_nat (length l) -> byte (splice b o l) o = byte l 0.
Proof. intros. rewrite <- (Z.add_0_r o) at 2. apply byte_window; [done|lia]. Qed.

Lemma word16_window b o l k :
  room b o (Z.of_nat (length l)) -> room l k 2 -> word16 (splice b o l) (o + k) = word16 l k.
Proof.
  intros Hr Hk. unfold word16, room in *. rewrite <- Z.add_assoc, !byte_window by (unfold room; lia). done.
Qed.

Lemma word16_first b o l :
  room b o (Z.of_nat (length l)) -> room l 0 2 -> word16 (splice b o l) o = word16 l 0.
Proof. intros. rewrite <- (Z.add_0_r o) at 2. by apply word16_window. Qed.

Lemma word32_window b o l k :
  room b o (Z.of_nat (length l)) -> room l k 4 -> word32 (splice b o l) (o + k) = word32 l k.
Proof.
  intros Hr Hk. unfold word32, room in *. rewrite <- !Z.add_assoc, !byte_window by (unfold room; lia). done.
Qed.

Lemma i32_small x : 0 <= x < 2 ^ 31 -> i32 x = x.
Proof. intros H. unfold i32. rewrite Z.mod_small; [lia|]. change (2 ^ 32) with (2 ^ 31 + 2 ^ 31). lia. Qed.

(** ** IPv4 *)

(** The header that [net_ipv4_build] writes, with checksum [c]. *)
Definition ipv4_header (total ident ttl' proto c src dst : Z) : list Z :=
  [69; 0] ++ be16 total ++ be16 ident ++ be16 16384 ++ [ttl'; proto] ++ be16 c ++
  be32 src ++ be32 dst.

(** The checksum that [net_ipv4_build] stores. *)
Definition ipv4_checksum (total ident ttl' proto src dst : Z) : Z :=
  65535 - ones_complement (word_sum (ipv4_header total ident ttl' proto 0 src dst)).

Lemma ipv4_header_bytes total ident ttl' proto c src dst :
  fits 8 ttl' -> fits 8 proto -> all_bytes (ipv4_header total ident ttl' proto c src dst).
Proof.
  intros Ht Hp. unfold ipv4_header, all_bytes, be16, be32. cbn [app].
  repeat (apply Forall_cons; split); try apply u8_range; done.
Qed.

Lemma ipv4_header_sum total ident ttl' proto c src dst :
  fits 16 c ->
  word_sum (ipv4_header total ident ttl' proto c src dst) =
    word_sum (ipv4_header total ident ttl' proto 0 src dst) + c.
Proof.
  intros Hc. pose proof (split16 c Hc). unfold ipv4_header, be16, be32.
  cbn [app word_sum]. change (u8 (0 >> 8)) with 0. change (u8 0) with 0. lia.
Qed.

Lemma ipv4_checksum_fits total ident ttl' proto src dst :
  fits 16 (ipv4_checksum total ident ttl' proto src dst).
Proof. unfold ipv4_checksum. pose proof (ones_complement_fits (word_sum (ipv4_header total ident ttl' proto 0 src dst))). warith. Qed.

Lemma ipv4_header_valid total ident ttl' proto src dst :
  fits 8 ttl' -> fits 8 proto ->
  sum_valid (word_sum (ipv4_header total ident ttl' proto
    (ipv4_checksum total ident ttl' proto src dst) src dst)).
Proof.
  intros Ht Hp. rewrite ipv4_header_sum by apply ipv4_checksum_fits.
  apply checksum_completes. by apply word_sum_bounds, ipv4_header_bytes.
Qed.

Ltac room_tac :=
  unfold room, be16, be32 in *; cbn [length app] in *;
  rewrite ?length_splice by (unfold room; cbn [length app]; lia);
  lia.

(** One write of a builder inside the window it has written so far. *)
Ltac window_step :=
  first [rewrite wr_window by room_tac | rewrite store16_window by room_tac
        | rewrite store32_window by room_tac];
  try unfold splice at 2; unfold be16, be32; simpl; rewrite ?bind_some.

Lemma slice_whole b o l n :
  room b o n -> n = Z.of_nat (length l) -> slice (splice b o l) o n = l.
Proof. intros Hr ->. by apply slice_splice_eq. Qed.

Lemma ipv4_build_image data o capacity src dst proto ttl' ident p n :
  room data o (20 + n) -> all_bytes data -> 20 + n <= capacity -> 20 + n <= 65535 -> ttl' <> 0 ->
  fits 8 ttl' -> fits 8 proto -> payload_ok p n -> 0 <= n ->
  net_ipv4_build (Some (data, o)) capacity src dst proto ttl' ident p n =
    Some (splice data o
      (ipv4_header (20 + n) ident ttl' proto (ipv4_checksum (20 + n) ident ttl' proto src dst) src dst
         ++ payload_bytes p n), 20 + n).
Proof.
  intros Hr Hb Hcap Hmax Httl Ht Hpr Hp Hn. unfold net_ipv4_build, NET_IPV4_HEADER_MIN.
  rewrite (u32_small (20 + n)), (u16_small (20 + n)) by warith. rewrite (payload_guard p n) by done.
  rewrite (proj2 (Z.ltb_ge 65535 _)), (proj2 (Z.ltb_ge capacity _)), (proj2 (Z.eqb_neq ttl' 0)) by lia.
  cbn [orb]. change (for_loop (Z.to_nat 20) 0 (fun index data => wr data (o + index) 0) data)
    with (fill data o 20 0).
  rewrite fill_spec, bind_some by room_tac. change (replicate (Z.to_nat 20) 0) with (repeat 0 20).
  cbn [repeat]. rewrite <- (Z.add_0_r o) at 2.
  match goal with |- _ = ?r => set (result := r) end.
  do 8 window_step.
  match goal with |- context [splice data o ?l] =>
    change l with (ipv4_header (20 + n) ident ttl' proto 0 src dst) end.
  pose proof (ipv4_header_bytes (20 + n) ident ttl' proto 0 src dst Ht Hpr) as Hh.
  assert (length (ipv4_header (20 + n) ident ttl' proto 0 src dst) = 20%nat) as Hl by done.
  assert (room data o (Z.of_nat 20)) as H20 by room_tac.
  rewrite net_checksum_spec; [|by apply all_bytes_splice| |done];
    [|unfold room; rewrite length_splice; rewrite ?Hl; [room_tac|done]].
  rewrite slice_whole by (done || by rewrite Hl).
  fold (ipv4_checksum (20 + n) ident ttl' proto src dst).
  rewrite bind_some, store16_window; [|by rewrite Hl|unfold room; rewrite Hl; lia].
  change (splice (ipv4_header (20 + n) ident ttl' proto 0 src dst) 10 _) with
    (ipv4_header (20 + n) ident ttl' proto (ipv4_checksum (20 + n) ident ttl' proto src dst) src dst).
  rewrite bind_some, put_payload; [|done|unfold room in *; rewrite length_splice by done; lia].
  rewrite bind_some. unfold result.
  rewrite (splice_next data o (o + 20)); [|done|].
  - f_equal. f_equal. unfold i32. divlia.
  - rewrite length_app, length_payload_bytes, Nat2Z.inj_add by done.
    unfold room in *. change (length (ipv4_header _ _ _ _ _ _ _)) with 20%nat. lia.
Qed.

(** What [net_ipv4_parse] accepts: version 4, a header of at least 20 bytes
    inside the message, a total length between the header's and the received
    size, and a valid header checksum. *)
Definition ipv4_header_length (data : list Z) (o : Z) : Z := 4 * (byte data o mod 16).

Definition ipv4_ok (data : list Z) (o size : Z) : Prop :=
  20 <= size /\ byte data o / 16 = 4 /\ 20 <= ipv4_header_length data o /\
  ipv4_header_length data o <= size /\
  ipv4_header_length data o <= word16 data (o + 2) <= size /\
  sum_valid (word_sum (slice data o (ipv4_header_length data o))).

(** The fields of the message at [o]. *)
Definition ipv4_view (data : list Z) (o : Z) : net_ipv4_packet :=
  {| header_size := ipv4_header_length data o; dscp_ecn := byte data (o + 1);
     total_size := word16 data (o + 2); identification := word16 data (o + 4);
     fragment := word16 data (o + 6); ttl := byte data (o + 8);
     protocol := byte data (o + 9); source := word32 data (o + 12);
     destination := word32 data (o + 16); payload := o + ipv4_header_length data o;
     payload_size := word16 data (o + 2) - ipv4_header_length data o |}.

Lemma ipv4_parse_exact data o size old :
  all_bytes data -> room data o size ->
  (ipv4_ok data o size -> net_ipv4_parse (Some (data, o)) size (Some old) = Some (Some (ipv4_view data o), 0)) /\
  (~ ipv4_ok data o size -> net_ipv4_parse (Some (data, o)) size (Some old) = Some (Some old, -1)).
Proof.
  intros Hb Hr. unfold net_ipv4_parse, NET_IPV4_HEADER_MIN, ipv4_ok, or_else.
  destruct (Z.ltb_spec size 20); [simpl; split; [lia|done]|]. rewrite bind_some.
  pose proof (byte_fits data o Hb) as Hv. pose proof (word16_fits data (o + 2) Hb) as Ht.
  rewrite (rd_at data o) by room_tac. rewrite !bind_some. rewrite Z.shiftr_div_pow2 by lia. change (2 ^ 4) with 16.
  replace (byte data o &&& 15) with (byte data o mod 16) by (symmetry; apply (land_mask _ 4); lia).
  destruct (Z.eqb_spec (byte data o / 16) 4); [|simpl; split; [lia|done]]. cbn [negb].
  destruct (Z.ltb_spec (byte data o mod 16) 5).
  { simpl. unfold ipv4_header_length. split; [lia|done]. }
  replace (u32 (byte data o mod 16 * 4)) with (ipv4_header_length data o)
    by (rewrite u32_small; [unfold ipv4_header_length; lia|widths; divlia]).
  assert (20 <= ipv4_header_length data o <= 60) as Hhl by (unfold ipv4_header_length; divlia).
  rewrite bind_some, (load16_at data (o + 2)), bind_some by (done || room_tac).
  destruct (Z.ltb_spec size (ipv4_header_length data o)); [simpl; split; [lia|done]|].
  destruct (Z.ltb_spec (word16 data (o + 2)) (ipv4_header_length data o)); [simpl; split; [lia|done]|].
  destruct (Z.ltb_spec size (word16 data (o + 2))); [simpl; split; [lia|done]|].
  cbn [orb]. rewrite bind_some.
  destruct (net_checksum_valid data o (ipv4_header_length data o)) as (c & -> & Hc); [done|room_tac|lia|].
  rewrite !bind_some. destruct (Z.eqb_spec c 0); cbn [negb]; [|split; [tauto|done]].
  split; [intros _|tauto].
  rewrite !load32_at, !load16_at, !rd_at by (done || room_tac). rewrite !bind_some.
  rewrite u8_small, u16_small, u32_small by warith. done.
Qed.

Ltac bytes_tac := repeat (apply Forall_cons; split); try apply Forall_nil_2; done.

(** The parser on a message the builder has written. *)
Lemma ipv4_image_parse data o src dst proto ttl' ident pay n old size :
  let msg := ipv4_header (20 + n) ident ttl' proto (ipv4_checksum (20 + n) ident ttl' proto src dst) src dst
             ++ pay in
  all_bytes data -> room data o (20 + n) -> 0 <= n -> 20 + n <= 65535 -> fits 32 src -> fits 32 dst ->
  fits 8 proto -> fits 8 ttl' -> fits 16 ident -> all_bytes pay -> length pay = Z.to_nat n ->
  20 + n <= size -> room data o size ->
  ipv4_ok (splice data o msg) o size /\
  net_ipv4_parse (Some (splice data o msg, o)) size (Some old) =
    Some (Some {| header_size := 20; dscp_ecn := 0; total_size := 20 + n;
                  identification := ident; fragment := 16384; ttl := ttl';
                  protocol := proto; source := src; destination := dst;
                  payload := o + 20; payload_size := n |}, 0).
Proof.
  intros msg Hb Hr Hn Hmax Hs Hd Hpr Ht Hi Hpb Hpl Hsize Hrs.
  assert (length msg = Z.to_nat (20 + n)) as Hl.
  { unfold msg. rewrite length_app, Hpl. change (length (ipv4_header _ _ _ _ _ _ _)) with 20%nat. lia. }
  assert (room data o (Z.of_nat (length msg))) as Hw by (rewrite Hl; unfold room in *; lia).
  assert (room (splice data o msg) o size) as Hrs' by (unfold room in *; rewrite length_splice by done; lia).
  pose proof (split16 ident Hi) as Hid. pose proof (split16 (20 + n) ltac:(warith)) as Htot.
  pose proof (split32 src Hs) as Hsrc. pose proof (split32 dst Hd) as Hdst.
  destruct (ipv4_parse_exact (splice data o msg) o size old) as [Hok _];
    [apply all_bytes_splice; [done|by apply Forall_app; split; [apply ipv4_header_bytes|]]|done|].
  assert (byte (splice data o msg) o = 69) as H0 by (rewrite byte_first by (done || lia); done).
  assert (ipv4_header_length (splice data o msg) o = 20) as Hhl
    by (unfold ipv4_header_length; by rewrite H0).
  assert (word16 (splice data o msg) (o + 2) = 20 + n) as Hlen.
  { rewrite word16_window by (done || unfold room; lia). exact Htot. }
  assert (ipv4_ok (splice data o msg) o size) as Hacc.
  { unfold ipv4_ok. rewrite H0, Hhl, Hlen.
    rewrite <- (Z.add_0_r o) at 2. rewrite slice_window by (done || unfold room; lia).
    unfold msg. rewrite slice_here by done. repeat split; try lia; by apply ipv4_header_valid. }
  split; [done|]. rewrite Hok by done. unfold ipv4_view.
  rewrite Hhl, Hlen, !word32_window, !word16_window, !byte_window by (done || unfold room; lia).
  unfold msg, word16, word32, byte, rd. simpl. rewrite Hid, Hsrc, Hdst.
  by replace (20 + n - 20) with n by lia.
Qed.

(** C29: IPv4 round trip.  [net_ipv4_build] succeeds on every payload that fits
    the packet and the 16-bit length, writes only the message's bytes, and
    [net_ipv4_parse] then accepts the message (its header checksum verifies)
    and returns exactly the addresses, protocol, identification, time to live
    and payload that were given. *)
Theorem net_ipv4_build_parse data o capacity src dst proto ttl' ident p n old :
  all_bytes data -> room data o capacity -> 0 <= n -> 20 + n <= capacity -> 20 + n <= 65535 ->
  fits 32 src -> fits 32 dst -> fits 8 proto -> fits 8 ttl' -> ttl' <> 0 -> fits 16 ident ->
  payload_ok p n ->
  exists data',
    net_ipv4_build (Some (data, o)) capacity src dst proto ttl' ident p n = Some (data', 20 + n) /\
    length data' = length data /\
    (forall i, i < o \/ o + 20 + n <= i -> rd data' i = rd data i) /\
    slice data' (o + 20) n = payload_bytes p n /\
    forall size, 20 + n <= size -> room data' o size ->
      net_ipv4_parse (Some (data', o)) size (Some old) =
        Some (Some {| header_size := 20; dscp_ecn := 0; total_size := 20 + n;
                      identification := ident; fragment := 16384; ttl := ttl';
                      protocol := proto; source := src; destination := dst;
                      payload := o + 20; payload_size := n |}, 0).
Proof.
  intros Hb Hr Hn Hcap Hmax Hs Hd Hpr Ht Ht0 Hi Hp.
  rewrite ipv4_build_image by (done || room_tac). eexists. split; [reflexivity|].
  set (h := ipv4_header _ _ _ _ _ _ _). assert (length h = 20%nat) as Hh by done.
  pose proof (payload_bytes_bytes p n Hp) as Hpb. pose proof (length_payload_bytes p n Hp) as Hpl.
  assert (Z.of_nat (length (h ++ payload_bytes p n)) = 20 + n) as Hl by (rewrite length_app; lia).
  assert (room data o (Z.of_nat (length (h ++ payload_bytes p n)))) as Hw by (rewrite Hl; room_tac).
  split; [by apply length_splice|]. split; [|split].
  - intros i Hi'. rewrite rd_splice, Hl by done. zcmp.
  - rewrite slice_window; [|done|unfold room; lia].
    rewrite slice_skip by (rewrite Hh; lia). rewrite Hh. apply slice_all. lia.
  - intros size Hsize Hrs. apply ipv4_image_parse; try done; [room_tac|].
    unfold room in *. by rewrite length_splice in Hrs.
Qed.

Lemma net_ipv4_build_parse_witness :
  exists data', net_ipv4_build (Some (replicate 64 0, 4)) 60 3232235786 3232235777 17 64 7
                  (Some ([1; 2; 3], 0)) 3 = Some (data', 23).
Proof.
  edestruct (net_ipv4_build_parse (replicate 64 0) 4 60 3232235786 3232235777 17 64 7
    (Some ([1; 2; 3], 0)) 3 {| header_size := 0; dscp_ecn := 0; total_size := 0; identification := 0;
      fragment := 0; ttl := 0; protocol := 0; source := 0; destination := 0; payload := 0;
      payload_size := 0 |}) as (data' & H & _);
    [by apply Forall_replicate|unfold room; simpl; lia|lia|lia|lia|warith..|lia|warith| |].
  - split; [unfold room; simpl; lia|bytes_tac].
  - exists data'. exact H.
Defined.

Lemma byte_wr b i x b' j : wr b i x = Some b' -> byte b' j = if i =? j then x else byte b j.
Proof. intros H. unfold byte. rewrite (rd_wr _ _ j _ _ H). by destruct (_ =? _). Qed.

Lemma all_bytes_wr b i x b' : all_bytes b -> fits 8 x -> wr b i x = Some b' -> all_bytes b'.
Proof. intros Hb Hx [_ ->]%wr_Some. by apply Forall_insert. Qed.

Lemma slice_wr b o n k x :
  room b o n -> 0 <= k < n -> slice (<[Z.to_nat (o + k) := x]> b) o n = <[Z.to_nat k := x]> (slice b o n).
Proof.
  intros (Ho & Hn & Hl) Hk. unfold slice.
  rewrite drop_insert_ge, take_insert_lt by lia. f_equal. lia.
Qed.

(** One byte of an acceptable header changed. *)
Lemma ipv4_damaged data o size old k x data' :
  all_bytes data -> room data o size -> fits 8 x -> ipv4_ok data o size ->
  1 <= k < ipv4_header_length data o -> rd data (o + k) <> Some x -> wr data (o + k) x = Some data' ->
  net_ipv4_parse (Some (data', o)) size (Some old) = Some (Some old, -1).
Proof.
  intros Hb Hr Hx Hok Hk Hne Hwr.
  assert (room data' o size) as Hr' by (unfold room in *; by rewrite (wr_length _ _ _ _ Hwr)).
  destruct (ipv4_parse_exact data' o size old) as [_ Hrej'];
    [by eapply all_bytes_wr|done|]. apply Hrej'. intros (_ & _ & _ & _ & _ & Hs').
  destruct Hok as (_ & _ & H20 & Hhs & _ & Hs).
  assert (ipv4_header_length data' o = ipv4_header_length data o) as Hhl.
  { unfold ipv4_header_length. rewrite (byte_wr _ _ _ _ o Hwr).
    by rewrite (proj2 (Z.eqb_neq (o + k) o)) by lia. }
  pose proof Hwr as [_ ->]%wr_Some. rewrite Hhl in Hs'.
  assert (room data o (ipv4_header_length data o)) as Hrh by (unfold room in *; lia).
  rewrite slice_wr in Hs' by (done || lia).
  destruct (word_sum_insert (slice data o (ipv4_header_length data o)) (Z.to_nat k) x (byte data (o + k)))
    as (d & Hd & Hd0 & Hdr); [| |by apply byte_fits| |].
  - pose proof (rd_slice data o (ipv4_header_length data o) k Hrh) as E. unfold rd in E at 1.
    rewrite (proj2 (Z.ltb_ge k 0)), (proj2 (Z.leb_le 0 k)), (proj2 (Z.ltb_lt k _)) in E by lia.
    rewrite E. simpl. apply rd_at. unfold room in *. lia.
  - done.
  - intros ->. apply Hne, rd_at. unfold room in *. lia.
  - rewrite Hd in Hs'. exact (sum_valid_unique _ d Hs Hd0 Hdr Hs').
Qed.

(** C30: Damage to a header is detected.  Changing any one byte of the header of
    a message that [net_ipv4_parse] accepts, other than the first (which holds
    the header's length), makes it refuse the message and leave the caller's
    struct alone. *)
Theorem net_ipv4_detects_damage data o size old h k x data' :
  all_bytes data -> room data o size -> fits 8 x ->
  net_ipv4_parse (Some (data, o)) size (Some old) = Some (Some h, 0) ->
  1 <= k < header_size h -> rd data (o + k) <> Some x -> wr data (o + k) x = Some data' ->
  net_ipv4_parse (Some (data', o)) size (Some old) = Some (Some old, -1).
Proof.
  intros Hb Hr Hx Hparse Hk Hne Hwr.
  destruct (ipv4_parse_exact data o size old Hb Hr) as [Hacc Hrej].
  assert (ipv4_ok data o size \/ ~ ipv4_ok data o size) as [Hok|Hno] by (unfold ipv4_ok, sum_valid; lia).
  - rewrite Hacc in Hparse by done. simplify_eq. by eapply ipv4_damaged.
  - rewrite Hrej in Hparse by done. congruence.
Qed.

Lemma net_ipv4_detects_damage_witness :
  exists data' old, net_ipv4_parse (Some (data', 0)) 20 (Some old) = Some (Some old, -1) /\
    rd data' 15 = Some 11.
Proof.
  eexists _, {| header_size := 0; dscp_ecn := 0; total_size := 0; identification := 0;
      fragment := 0; ttl := 0; protocol := 0; source := 0; destination := 0; payload := 0;
      payload_size := 0 |}. split.
  - eapply (net_ipv4_detects_damage
      [69; 0; 0; 20; 0; 7; 64; 0; 64; 17; 183; 118; 192; 168; 1; 10; 192; 168; 1; 1]
      0 20 _ _ 15 11); [bytes_tac|unfold room; simpl; lia|warith|vm_compute; reflexivity|simpl; lia|done|reflexivity].
  - reflexivity.
Defined.

(** ** UDP *)

(** The sum of the words of the pseudo header. *)
Definition udp_pseudo_sum (src dst size : Z) : Z :=
  src / 65536 + src mod 65536 + dst / 65536 + dst mod 65536 + NET_PROTOCOL_UDP + size.

Lemma u32_add_l x y : u32 (u32 x + y) = u32 (x + y).
Proof. unfold u32. apply Zplus_mod_idemp_l. Qed.

(** The bytes after the last whole word. *)
Definition odd_part (b : list Z) (o size : Z) : Z :=
  if size mod 2 =? 0 then 0 else 256 * byte b (o + size - 1).

Lemma udp_loop b o size fuel offset sum :
  all_bytes b -> room b o size -> size <= 65535 -> 0 <= offset <= size -> offset mod 2 = 0 ->
  (Z.to_nat (size - offset) < fuel)%nat -> fits 32 sum ->
  exists sum',
    while_loop fuel (fun '(offset, sum) =>
       if u32 (offset + 1) <? size then
         w ← load16 b (o + offset); Some (inl (u32 (offset + 2), u32 (sum + w)))
       else Some (inr sum)) (offset, sum) = Some sum' /\
    fits 32 sum' /\
    u32 (sum' + odd_part b o size) = u32 (sum + word_sum (slice b (o + offset) (size - offset))).
Proof.
  intros Hb Hr Hmax. revert offset sum. induction fuel as [|fuel IH]; intros offset sum Ho He Hf Hs; [lia|].
  rewrite while_loop_S. rewrite (u32_small (offset + 1)) by warith.
  destruct (Z.ltb_spec (offset + 1) size).
  - rewrite load16_at, !bind_some by (done || room_tac). rewrite (u32_small (offset + 2)) by warith.
    destruct (IH (offset + 2) (u32 (sum + word16 b (o + offset)))) as (sum' & Hl & Hf' & E);
      [lia|divlia|lia|apply u32_range|].
    exists sum'. split; [exact Hl|]. split; [done|]. rewrite E, u32_add_l. f_equal.
    destruct (slice_cons b (o + offset) (size - offset)) as (x & Hx & ->); [room_tac|lia|].
    destruct (slice_cons b (o + offset + 1) (size - offset - 1)) as (y & Hy & ->); [room_tac|lia|].
    unfold word16, byte. rewrite Hx, Hy. cbn [word_sum default from_option id].
    replace (o + offset + 1 + 1) with (o + (offset + 2)) by lia.
    replace (size - offset - 1 - 1) with (size - (offset + 2)) by lia. unfold default, id. simpl. lia.
  - exists sum. split; [done|]. split; [done|]. f_equal. f_equal. unfold odd_part.
    destruct (Z.eqb_spec (size mod 2) 0).
    + replace (size - offset) with 0 by divlia. by rewrite slice_empty.
    + destruct (slice_cons b (o + offset) (size - offset)) as (x & Hx & ->); [room_tac|divlia|].
      replace (size - offset - 1) with 0 by divlia. rewrite slice_empty. cbn [word_sum].
      unfold byte. replace (o + size - 1) with (o + offset) by divlia. by rewrite Hx.
Qed.

Lemma udp_checksum_spec b o size src dst :
  all_bytes b -> room b o size -> size <= 65535 -> fits 32 src -> fits 32 dst ->
  udp_checksum src dst b o size =
    Some (65535 - ones_complement (udp_pseudo_sum src dst size + word_sum (slice b o size))).
Proof.
  intros Hb Hr Hmax Hs Hd. unfold udp_checksum.
  rewrite !land_65535, !Z.shiftr_div_pow2 by lia. change (2 ^ 16) with 65536.
  rewrite (u32_add_l (src / 65536 + src mod 65536)).
  rewrite (u32_add_l (src / 65536 + src mod 65536 + dst / 65536)).
  rewrite (u32_add_l (src / 65536 + src mod 65536 + dst / 65536 + dst mod 65536)), u32_add_l.
  fold (udp_pseudo_sum src dst size).
  pose proof Hr as (Ho & Hn & _).
  assert (0 <= udp_pseudo_sum src dst size < 2 ^ 19) as Hps.
  { unfold udp_pseudo_sum, NET_PROTOCOL_UDP. widths. change (2 ^ 19) with 524288. divlia. }
  rewrite (u32_small (udp_pseudo_sum _ _ _)) by warith.
  destruct (udp_loop b o size (S (Z.to_nat size)) 0 (udp_pseudo_sum src dst size))
    as (sum' & -> & Hf & E); [done..|lia|done|lia|warith|].
  rewrite Z.add_0_r, Z.sub_0_r in E. rewrite bind_some.
  pose proof (word_sum_bounds (slice b o size) (all_bytes_slice _ _ _ Hb)) as Hw.
  rewrite length_slice in Hw by done.
  rewrite (u32_small (udp_pseudo_sum _ _ _ + _)) in E by warith. rewrite land_1. unfold odd_part in E.
  destruct (Z.eqb_spec (size mod 2) 0); cbn [negb].
  - rewrite Z.add_0_r, u32_small in E by done. rewrite bind_some, fold_sum_spec, bind_some by done.
    by rewrite complement_16, E.
  - rewrite (u32_small (size - 1)) by (widths; divlia).
    rewrite rd_at by (unfold room in *; divlia). rewrite !bind_some.
    replace (o + (size - 1)) with (o + size - 1) by lia.
    pose proof (byte_fits b (o + size - 1) Hb).
    rewrite (u32_small (_ << 8)) by (rewrite Z.shiftl_mul_pow2 by lia; warith).
    rewrite Z.shiftl_mul_pow2 by lia. change (2 ^ 8) with 256. rewrite Z.mul_comm.
    by rewrite fold_sum_spec, bind_some, complement_16, E by apply u32_range.
Qed.

Definition udp_header (sp dp total c : Z) : list Z := be16 sp ++ be16 dp ++ be16 total ++ be16 c.

(** The checksum that [net_udp_build] stores: 0 means "none", so a computed 0
    is sent as 65535. *)
Definition udp_field (src dst sp dp n : Z) (pay : list Z) : Z :=
  let c := 65535 - ones_complement (udp_pseudo_sum src dst (8 + n) +
                                    word_sum (udp_header sp dp (8 + n) 0 ++ pay)) in
  if c =? 0 then 65535 else c.

Lemma udp_header_bytes sp dp total c : all_bytes (udp_header sp dp total c).
Proof.
  unfold udp_header, all_bytes, be16. cbn [app].
  repeat (apply Forall_cons; split); try apply u8_range; done.
Qed.

Lemma udp_field_fits src dst sp dp n pay : fits 16 (udp_field src dst sp dp n pay).
Proof.
  unfold udp_field. cbn zeta.
  match goal with |- context [ones_complement ?s] => pose proof (ones_complement_fits s) end.
  split_if; warith.
Qed.

Lemma udp_field_valid src dst sp dp n pay :
  fits 32 src -> fits 32 dst -> 0 <= n -> all_bytes pay ->
  sum_valid (udp_pseudo_sum src dst (8 + n) +
    word_sum (udp_header sp dp (8 + n) (udp_field src dst sp dp n pay) ++ pay)).
Proof.
  intros Hs Hd Hn Hp.
  assert (forall c, fits 16 c -> word_sum (udp_header sp dp (8 + n) c ++ pay) =
    word_sum (udp_header sp dp (8 + n) 0 ++ pay) + c) as Hc.
  { intros c Hc. pose proof (split16 c Hc). unfold udp_header, be16. cbn [app word_sum].
    change (u8 (0 >> 8)) with 0. change (u8 0) with 0. lia. }
  rewrite Hc by apply udp_field_fits. unfold udp_field. cbn zeta.
  assert (0 <= word_sum (udp_header sp dp (8 + n) 0 ++ pay)) as Hw.
  { apply word_sum_bounds, Forall_app. split; [apply udp_header_bytes|done]. }
  assert (0 <= udp_pseudo_sum src dst (8 + n)) as Hps.
  { unfold udp_pseudo_sum, NET_PROTOCOL_UDP. widths. divlia. }
  set (w := word_sum _) in *. set (ps := udp_pseudo_sum _ _ _) in *.
  pose proof (checksum_completes (ps + w) ltac:(lia)) as [Hv0 Hvm].
  split_if; rewrite Z.add_assoc.
  - assert (ones_complement (ps + w) = 65535) as Hf by lia. apply ones_complement_full in Hf as [? ?].
    split; [lia|]. replace (ps + w + 65535) with (ps + w + 1 * 65535) by lia. by rewrite Z_mod_plus_full.
  - done.
Qed.

(** A 16-bit field written after what has been written so far. *)
Lemma store16_next data o l o' v :
  o' = o + Z.of_nat (length l) -> room data o (Z.of_nat (length l) + 2) ->
  store16 (splice data o l) o' v = Some (splice data o (l ++ be16 v)).
Proof.
  intros -> Hr. unfold room in *.
  assert (room data o (Z.of_nat (length l))) as Hl by (unfold room; lia).
  rewrite store16_spec by (unfold room; rewrite length_splice by done; lia).
  rewrite splice_splice; [done|]. unfold room. rewrite length_app. simpl. lia.
Qed.

Lemma udp_build_image data o capacity src dst sp dp p n :
  room data o (8 + n) -> all_bytes data -> 8 + n <= capacity -> 8 + n <= 65535 ->
  sp <> 0 -> dp <> 0 -> fits 32 src -> fits 32 dst -> payload_ok p n -> 0 <= n ->
  net_udp_build (Some (data, o)) capacity src dst sp dp p n =
    Some (splice data o
      (udp_header sp dp (8 + n) (udp_field src dst sp dp n (payload_bytes p n)) ++ payload_bytes p n), 8 + n).
Proof.
  intros Hr Hb Hcap Hmax Hsp Hdp Hs Hd Hp Hn. unfold net_udp_build.
  rewrite (u32_small (8 + n)), (u16_small (8 + n)) by warith. rewrite (payload_guard p n) by done.
  rewrite (proj2 (Z.ltb_ge 65535 _)), (proj2 (Z.ltb_ge capacity _)), (proj2 (Z.eqb_neq sp 0)),
    (proj2 (Z.eqb_neq dp 0)) by lia. cbn [orb].
  rewrite store16_spec, bind_some by room_tac. do 3 rewrite store16_next, bind_some by room_tac.
  rewrite <- !app_assoc. fold (udp_header sp dp (8 + n) 0). set (h := udp_header sp dp (8 + n) 0).
  pose proof (length_payload_bytes p n Hp) as Hpl. pose proof (payload_bytes_bytes p n Hp) as Hpb.
  assert (length h = 8%nat) as Hh by done.
  assert (room data o (Z.of_nat (length h))) as Hrh by (rewrite Hh; room_tac).
  rewrite put_payload, bind_some; [|done|unfold room in *; rewrite length_splice by done; lia].
  assert (Z.of_nat (length (h ++ payload_bytes p n)) = 8 + n) as Hl by (rewrite length_app; lia).
  rewrite splice_next; [|by rewrite Hh|by rewrite Hl].
  assert (all_bytes (splice data o (h ++ payload_bytes p n))) as Hab.
  { apply all_bytes_splice; [done|]. apply Forall_app. split; [apply udp_header_bytes|done]. }
  rewrite udp_checksum_spec, bind_some; [|done| |done..].
  2: { unfold room in *. rewrite length_splice by (unfold room; lia). lia. }
  rewrite slice_whole by (done || by rewrite Hl).
  fold (udp_field src dst sp dp n (payload_bytes p n)).
  rewrite store16_window, bind_some, i32_small; [done|warith|by rewrite Hl|unfold room; lia].
Qed.

(** [net_udp_parse] accepts a length of at least 8 that the packet holds. *)
Definition udp_ok (data : list Z) (o size : Z) : Prop :=
  8 <= size /\ 8 <= word16 data (o + 4) <= size.

Definition udp_view (data : list Z) (o : Z) : net_udp_datagram :=
  {| source_port := word16 data o; destination_port := word16 data (o + 2);
     udp_payload := o + 8; udp_payload_size := word16 data (o + 4) - 8 |}.

Lemma udp_parse_exact data o size old :
  all_bytes data -> room data o size ->
  (udp_ok data o size -> net_udp_parse (Some (data, o)) size (Some old) = Some (Some (udp_view data o), 0)) /\
  (~ udp_ok data o size -> net_udp_parse (Some (data, o)) size (Some old) = Some (Some old, -1)).
Proof.
  intros Hb Hr. unfold net_udp_parse, udp_ok.
  destruct (Z.ltb_spec size 8); [split; [lia|done]|].
  pose proof (word16_fits data (o + 4) Hb) as Hf.
  rewrite (load16_at data (o + 4)), bind_some by (done || room_tac).
  destruct (Z.ltb_spec (word16 data (o + 4)) 8); [split; [lia|done]|].
  destruct (Z.ltb_spec size (word16 data (o + 4))); [split; [lia|done]|].
  cbn [orb]. split; [intros _|lia].
  rewrite !load16_at, !bind_some by (done || room_tac). rewrite u32_small by warith. done.
Qed.

Lemma udp_image_parse data o sp dp c pay n old size :
  let msg := udp_header sp dp (8 + n) c ++ pay in
  all_bytes data -> room data o (8 + n) -> 0 <= n -> 8 + n <= 65535 -> fits 16 sp -> fits 16 dp ->
  all_bytes pay -> length pay = Z.to_nat n -> 8 + n <= size -> room data o size ->
  net_udp_parse (Some (splice data o msg, o)) size (Some old) =
    Some (Some {| source_port := sp; destination_port := dp; udp_payload := o + 8;
                  udp_payload_size := n |}, 0).
Proof.
  intros msg Hb Hr Hn Hmax Hsp Hdp Hpb Hpl Hsize Hrs.
  assert (length msg = Z.to_nat (8 + n)) as Hl.
  { unfold msg. rewrite length_app, Hpl. change (length (udp_header _ _ _ _)) with 8%nat. lia. }
  assert (room data o (Z.of_nat (length msg))) as Hw by (rewrite Hl; unfold room in *; lia).
  destruct (udp_parse_exact (splice data o msg) o size old) as [Hok _].
  { apply all_bytes_splice; [done|]. apply Forall_app. by split; [apply udp_header_bytes|]. }
  { unfold room in *. by rewrite length_splice. }
  assert (word16 (splice data o msg) (o + 4) = 8 + n) as Hlen.
  { rewrite word16_window by (done || unfold room; lia). apply split16. warith. }
  rewrite Hok by (unfold udp_ok; lia). unfold udp_view.
  rewrite Hlen, word16_first, word16_window by (done || unfold room; lia).
  pose proof (split16 sp Hsp) as Esp. pose proof (split16 dp Hdp) as Edp.
  unfold msg, word16, byte, rd. simpl. rewrite Esp, Edp. by replace (8 + n - 8) with n by lia.
Qed.

(** UDP round trip.  [net_udp_build] succeeds on every payload that fits and
    writes only the datagram; the checksum it stores is never 0 ("no checksum")
    and verifies against the pseudo header as RFC 768 prescribes; and
    [net_udp_parse] returns the ports and the payload that were given. *)
Theorem net_udp_build_parse data o capacity src dst sp dp p n old :
  all_bytes data -> room data o capacity -> 0 <= n -> 8 + n <= capacity -> 8 + n <= 65535 ->
  fits 32 src -> fits 32 dst -> fits 16 sp -> fits 16 dp -> sp <> 0 -> dp <> 0 -> payload_ok p n ->
  exists data',
    net_udp_build (Some (data, o)) capacity src dst sp dp p n = Some (data', 8 + n) /\
    length data' = length data /\
    (forall i, i < o \/ o + 8 + n <= i -> rd data' i = rd data i) /\
    slice data' (o + 8) n = payload_bytes p n /\
    word16 data' (o + 6) <> 0 /\
    sum_valid (udp_pseudo_sum src dst (8 + n) + word_sum (slice data' o (8 + n))) /\
    forall size, 8 + n <= size -> room data' o size ->
      net_udp_parse (Some (data', o)) size (Some old) =
        Some (Some {| source_port := sp; destination_port := dp; udp_payload := o + 8;
                      udp_payload_size := n |}, 0).
Proof.
  intros Hb Hr Hn Hcap Hmax Hs Hd Hsp Hdp Hsp0 Hdp0 Hp.
  rewrite udp_build_image by (done || room_tac). eexists. split; [reflexivity|].
  pose proof (payload_bytes_bytes p n Hp) as Hpb. pose proof (length_payload_bytes p n Hp) as Hpl.
  pose proof (udp_field_valid src dst sp dp n (payload_bytes p n) Hs Hd Hn Hpb) as Hv.
  pose proof (udp_field_fits src dst sp dp n (payload_bytes p n)) as Hcf.
  assert (udp_field src dst sp dp n (payload_bytes p n) <> 0) as Hc0.
  { unfold udp_field. cbn zeta. split_if; lia. }
  set (c := udp_field src dst sp dp n (payload_bytes p n)) in *.
  set (h := udp_header sp dp (8 + n) c) in *.
  assert (length h = 8%nat) as Hh by done.
  assert (Z.of_nat (length (h ++ payload_bytes p n)) = 8 + n) as Hl by (rewrite length_app; lia).
  assert (room data o (Z.of_nat (length (h ++ payload_bytes p n)))) as Hw by (rewrite Hl; room_tac).
  split; [by apply length_splice|]. split; [|split; [|split; [|split]]].
  - intros i Hi. rewrite rd_splice, Hl by done. zcmp.
  - rewrite slice_window; [|done|unfold room; lia].
    rewrite slice_skip by (rewrite Hh; lia). rewrite Hh. apply slice_all. lia.
  - rewrite word16_window by (done || unfold room; lia).
    change (word16 (h ++ payload_bytes p n) 6) with (256 * u8 (c >> 8) + u8 c). by rewrite split16.
  - by rewrite slice_whole by (done || by rewrite <- Hl).
  - intros size Hsize Hrs. apply udp_image_parse; try done; [room_tac|].
    unfold room in *. by rewrite length_splice in Hrs.
Qed.

Lemma net_udp_build_parse_witness :
  exists data', net_udp_build (Some (replicate 64 0, 4)) 60 3232235786 3232235777 1234 4321
                  (Some ([1; 2; 3], 0)) 3 = Some (data', 11).
Proof.
  edestruct (net_udp_build_parse (replicate 64 0) 4 60 3232235786 3232235777 1234 4321
    (Some ([1; 2; 3], 0)) 3 {| source_port := 0; destination_port := 0; udp_payload := 0;
      udp_payload_size := 0 |}) as (data' & H & _);
    [by apply Forall_replicate|unfold room; simpl; lia|lia|lia|lia|warith..|lia|lia| |].
  - split; [unfold room; simpl; lia|bytes_tac].
  - exists data'. exact H.
Defined.

(** ** ICMP *)

(** The writes of [net_icmp_echo_reply]: they clear the type and the checksum
    and then store the checksum that completes the message. *)
Lemma icmp_reply_message data o size :
  all_bytes data -> room data o size -> 8 <= size -> size <= 131072 -> byte data (o + 1) = 0 ->
  exists data',
    (data ← wr data o 0; data ← wr data (o + 2) 0; data ← wr data (o + 3) 0;
     c ← net_checksum data o size; data ← store16 data (o + 2) c; Some (data, 0)) = Some (data', 0) /\
    byte data' o = 0 /\ net_checksum data' o size = Some 0 /\ length data' = length data /\
    forall i, i <> o -> i <> o + 2 -> i <> o + 3 -> rd data' i = rd data i.
Proof.
  intros Hb Hr H8 Hmax Hcode.
  pose proof (splice_slice data o size Hr) as Esl. pose proof (length_slice data o size Hr) as Hlen.
  pose proof (all_bytes_slice data o size Hb) as Hlb.
  assert (rd (slice data o size) 1 = Some 0) as H1.
  { rewrite rd_slice by done. replace (_ && _) with true by zcmp. rewrite rd_at by room_tac. by rewrite Hcode. }
  destruct (slice data o size) as [|t [|code [|k0 [|k1 rest]]]]; simpl in Hlen; try lia.
  unfold rd in H1. simpl in H1. simplify_eq.
  apply Forall_cons in Hlb as [_ Hlb]. do 3 apply Forall_cons in Hlb as [? Hlb].
  assert (forall a b c d, room data o (Z.of_nat (length (a :: b :: c :: d :: rest)))) as Hw.
  { intros. simpl length. unfold room in *. lia. }
  assert (forall a b c d, size = Z.of_nat (length (a :: b :: c :: d :: rest))) as Hsz.
  { intros. simpl length. lia. }
  pose proof (wr_window data o (t :: 0 :: k0 :: k1 :: rest) 0 0) as E0. rewrite Esl, Z.add_0_r in E0.
  rewrite E0, bind_some by (done || (simpl length; lia)). clear E0. simpl insert.
  do 2 (rewrite wr_window, bind_some by (done || (cbn [length]; lia)); simpl insert).
  set (c := 65535 - ones_complement (word_sum rest)).
  pose proof (ones_complement_fits (word_sum rest)) as Hoc.
  assert (forall a b c d, fits 8 a -> fits 8 b -> fits 8 c -> fits 8 d ->
    all_bytes (splice data o (a :: b :: c :: d :: rest))) as Hab.
  { intros. apply all_bytes_splice; [done|]. repeat (apply Forall_cons; split); done. }
  assert (forall a b c d, room (splice data o (a :: b :: c :: d :: rest)) o size) as Hws.
  { intros. unfold room in *. rewrite length_splice by apply Hw. lia. }
  rewrite net_checksum_spec, slice_whole by first [done | apply Hsz | by apply Hab].
  replace (word_sum (0 :: 0 :: 0 :: 0 :: rest)) with (word_sum rest) by (cbn [word_sum]; lia). fold c.
  rewrite bind_some, store16_window, bind_some by (done || (unfold room; cbn [length]; lia)).
  change (splice (0 :: 0 :: 0 :: 0 :: rest) 2 (be16 c)) with (0 :: 0 :: u8 (c >> 8) :: u8 c :: rest).
  eexists. split; [reflexivity|]. split; [by rewrite byte_first by (done || (cbn [length]; lia))|]. split; [|split].
  - destruct (net_checksum_valid (splice data o (0 :: 0 :: u8 (c >> 8) :: u8 c :: rest)) o size)
      as (c' & -> & Hc'); [apply Hab; try apply u8_range; done|done..|].
    f_equal. apply Hc'. rewrite slice_whole by first [done | apply Hsz].
    pose proof (split16 c ltac:(unfold c; warith)). cbn [word_sum].
    replace (_ + _) with (word_sum rest + c) by lia.
    apply checksum_completes. by apply word_sum_bounds.
  - by apply length_splice.
  - intros i Hi0 Hi2 Hi3. rewrite <- Esl at 2. rewrite !rd_splice by done.
    destruct (_ && _) eqn:E; [|done]. bool_to_prop.
    destruct (Z.to_nat (i - o)) as [|[|[|[|k]]]] eqn:Ek; try lia; done.
Qed.

(** ICMP echo.  [net_icmp_echo_reply] accepts exactly the echo requests
    whose checksum verifies; it turns the type into "echo reply", leaves
    every byte but the type and the checksum alone, and the message it leaves
    behind verifies.  Everything else is refused and left unchanged. *)
Theorem net_icmp_echo_reply_correct data o size :
  all_bytes data -> room data o size -> size <= 131072 ->
  let request := 8 <= size /\ byte data o = 8 /\ byte data (o + 1) = 0 /\
                 sum_valid (word_sum (slice data o size)) in
  (request -> exists data',
     net_icmp_echo_reply (Some (data, o)) size = Some (data', 0) /\
     byte data' o = 0 /\ net_checksum data' o size = Some 0 /\ length data' = length data /\
     forall i, i <> o -> i <> o + 2 -> i <> o + 3 -> rd data' i = rd data i) /\
  (~ request -> net_icmp_echo_reply (Some (data, o)) size = Some (data, -1)).
Proof.
  intros Hb Hr Hmax request. unfold request, net_icmp_echo_reply, or_else.
  destruct (Z.ltb_spec size 8); [split; [lia|done]|]. rewrite bind_some.
  rewrite (rd_at data o), (rd_at data (o + 1)) by room_tac. rewrite !bind_some.
  destruct (Z.eqb_spec (byte data o) 8); cbn [negb]; [|split; [lia|done]].
  destruct (Z.eqb_spec (byte data (o + 1)) 0) as [Hcode|]; cbn [negb]; [|split; [lia|done]].
  destruct (net_checksum_valid data o size) as (c & -> & Hc); [done..|]. rewrite !bind_some.
  destruct (Z.eqb_spec c 0); cbn [negb]; [|split; [tauto|done]]. split; [intros _|tauto].
  by apply icmp_reply_message.
Qed.

Lemma net_icmp_echo_reply_correct_witness :
  exists data', net_icmp_echo_reply (Some ([8; 0; 247; 255; 0; 0; 0; 0], 0)) 8 = Some (data', 0) /\
    net_checksum data' 0 8 = Some 0.
Proof.
  destruct (net_icmp_echo_reply_correct [8; 0; 247; 255; 0; 0; 0; 0] 0 8) as [H _];
    [bytes_tac|unfold room; simpl; lia|lia|].
  destruct H as (data' & H & _ & Hc & _); [|exists data'; split; [exact H|exact Hc]].
  split; [lia|]. split; [reflexivity|]. split; [reflexivity|]. split; [done|reflexivity].
Defined.

(** ** Ethernet and ARP *)

Definition mac_ok (m : net_mac) : Prop := length (bytes m) = 6%nat /\ all_bytes (bytes m).

Lemma store32_next data o l o' v :
  o' = o + Z.of_nat (length l) -> room data o (Z.of_nat (length l) + 4) ->
  store32 (splice data o l) o' v = Some (splice data o (l ++ be32 v)).
Proof.
  intros -> Hr. unfold room in *.
  assert (room data o (Z.of_nat (length l))) as Hl by (unfold room; lia).
  rewrite store32_spec by (unfold room; rewrite length_splice by done; lia).
  rewrite splice_splice; [done|]. unfold room. rewrite length_app. simpl. lia.
Qed.

Lemma wr_next data o l o' v :
  o' = o + Z.of_nat (length l) -> room data o (Z.of_nat (length l) + 1) ->
  wr (splice data o l) o' v = Some (splice data o (l ++ [v])).
Proof.
  intros -> Hr. unfold room in *.
  assert (room data o (Z.of_nat (length l))) as Hl by (unfold room; lia).
  rewrite wr_splice by (unfold room; rewrite length_splice by done; lia).
  rewrite splice_splice; [done|]. unfold room. rewrite length_app. simpl. lia.
Qed.

Lemma copy_mac m : mac_ok m -> slice (bytes m) 0 6 = bytes m.
Proof. intros [Hl _]. apply slice_all. lia. Qed.

Lemma mac_next data o l o' m :
  mac_ok m -> o' = o + Z.of_nat (length l) -> room data o (Z.of_nat (length l) + 6) ->
  copy_bytes (splice data o l) o' (bytes m) 0 6 = Some (splice data o (l ++ bytes m)).
Proof.
  intros Hm -> Hr. pose proof Hm as [Hml _]. unfold room in *.
  assert (room data o (Z.of_nat (length l))) as Hl by (unfold room; lia).
  unfold copy_bytes. rewrite copy_spec, copy_mac; [|done|unfold room; rewrite length_splice by done; lia|
    unfold room; lia].
  rewrite splice_splice; [done|]. unfold room. rewrite length_app. lia.
Qed.

(** Filling the six bytes of a MAC from a packet. *)
Lemma mac_from m data i :
  mac_ok m -> room data i 6 -> copy_bytes (bytes m) 0 data i 6 = Some (slice data i 6).
Proof.
  intros [Hl _] Hr. unfold copy_bytes. rewrite copy_spec by (done || unfold room; lia). f_equal.
  unfold splice. simpl. rewrite length_slice, drop_ge, app_nil_r by (done || (rewrite Hl; simpl; lia)). done.
Qed.

(** A copy loop that ends has room for every byte it wrote. *)
Lemma copy_in_room b o src so n r :
  0 < n -> copy b o src so n = Some r -> 0 <= o /\ o + n <= Z.of_nat (length b).
Proof.
  intros Hn. unfold copy.
  assert (forall k i b, for_loop (S k) i (fun i b => x ← rd src (so + i); wr b (o + i) x) b = Some r ->
    0 <= o + i /\ o + i + Z.of_nat (S k) <= Z.of_nat (length b)) as Hk.
  { clear. induction k as [|k IH]; intros i b H; rewrite for_loop_S in H;
      destruct (rd src (so + i)); [|done| |done]; rewrite bind_some in H;
      destruct (wr b (o + i) z) as [b'|] eqn:Hw; try done; pose proof (wr_length _ _ _ _ Hw);
      apply wr_Some in Hw as [Hi _]; [lia|]. rewrite bind_some in H. apply IH in H. lia. }
  intros H. destruct (Z.to_nat n) as [|k] eqn:E; [lia|]. apply Hk in H. lia.
Qed.

Lemma copy_length b o src so n r : copy b o src so n = Some r -> length r = length b.
Proof.
  unfold copy. generalize (Z.to_nat n) as k. intros k. generalize 0 as i. revert b.
  induction k as [|k IH]; intros b i H; [by injection H as <-|]. rewrite for_loop_S in H.
  destruct (rd src (so + i)); [|done]. rewrite bind_some in H.
  destruct (wr b (o + i) z) as [b'|] eqn:Hw; [|done]. rewrite bind_some in H.
  rewrite (IH _ _ H). by eapply wr_length.
Qed.

(** What [net_ethernet_parse] returns for the frame at [o]. *)
Definition ethernet_view (data : list Z) (o size : Z) : net_ethernet_frame :=
  {| eth_destination := {| bytes := slice data o 6 |};
     eth_source := {| bytes := slice data (o + 6) 6 |};
     ethertype := word16 data (o + 12); eth_payload := o + 14; eth_payload_size := size - 14 |}.

Lemma ethernet_parse_exact data o size f :
  all_bytes data -> room data o size -> fits 32 size ->
  mac_ok (eth_destination f) -> mac_ok (eth_source f) ->
  net_ethernet_parse (Some (data, o)) size (Some f) =
    if size <? 14 then Some (Some f, -1) else Some (Some (ethernet_view data o size), 0).
Proof.
  intros Hb Hr Hs Hd Hsrc. unfold net_ethernet_parse, NET_ETHERNET_HEADER. split_if; [done|].
  rewrite !mac_from, load16_at, !bind_some, u32_small by (done || room_tac || warith). done.
Qed.

Lemma word16_skip a r k :
  Z.of_nat (length a) <= k -> word16 (a ++ r) k = word16 r (k - Z.of_nat (length a)).
Proof.
  intros Hk. unfold word16, byte. rewrite !rd_app, !(proj2 (Z.ltb_ge _ _)) by lia.
  by replace (k + 1 - Z.of_nat (length a)) with (k - Z.of_nat (length a) + 1) by lia.
Qed.

Lemma word32_skip a r k :
  Z.of_nat (length a) <= k -> word32 (a ++ r) k = word32 r (k - Z.of_nat (length a)).
Proof.
  intros Hk. unfold word32, byte. rewrite !rd_app, !(proj2 (Z.ltb_ge _ _)) by lia.
  replace (k + 1 - Z.of_nat (length a)) with (k - Z.of_nat (length a) + 1) by lia.
  replace (k + 2 - Z.of_nat (length a)) with (k - Z.of_nat (length a) + 2) by lia.
  by replace (k + 3 - Z.of_nat (length a)) with (k - Z.of_nat (length a) + 3) by lia.
Qed.

Lemma word16_here v r k : k = 0 -> fits 16 v -> word16 (be16 v ++ r) k = v.
Proof. intros -> Hv. exact (split16 v Hv). Qed.

Lemma word32_here v r k : k = 0 -> fits 32 v -> word32 (be32 v ++ r) k = v.
Proof. intros -> Hv. exact (split32 v Hv). Qed.

Definition ethernet_header (d s : net_mac) (t : Z) : list Z := bytes d ++ bytes s ++ be16 t.

Lemma ethernet_build_fits data o capacity d s t p n f :
  all_bytes data -> room data o capacity -> fits 32 n -> fits 16 t -> mac_ok d -> mac_ok s ->
  mac_ok (eth_destination f) -> mac_ok (eth_source f) ->
  14 + n < 2 ^ 31 -> 14 + n <= capacity -> payload_ok p n -> exists data',
     net_ethernet_build (Some (data, o)) capacity (Some d) (Some s) t p n = Some (data', 14 + n) /\
     (forall i, i < o \/ o + 14 + n <= i -> rd data' i = rd data i) /\
     slice data' (o + 14) n = payload_bytes p n /\
     net_ethernet_parse (Some (data', o)) (14 + n) (Some f) =
       Some (Some {| eth_destination := d; eth_source := s; ethertype := t;
                     eth_payload := o + 14; eth_payload_size := n |}, 0).
Proof.
  intros Hb Hr Hn Ht Hd Hs Hfd Hfs Hlt Hcap Hp.
  pose proof Hd as [Hdl Hdb]. pose proof Hs as [Hsl Hsb].
  pose proof (payload_bytes_bytes p n Hp) as Hpb. pose proof (length_payload_bytes p n Hp) as Hpl.
  set (h := ethernet_header d s t).
  assert (length h = 14%nat) as Hh by (unfold h, ethernet_header; rewrite !length_app; simpl; lia).
  assert (Z.of_nat (length (h ++ payload_bytes p n)) = 14 + n) as Hl by (rewrite length_app; warith).
  assert (room data o (Z.of_nat (length (h ++ payload_bytes p n)))) as Hw by (rewrite Hl; unfold room in *; warith).
  assert (net_ethernet_build (Some (data, o)) capacity (Some d) (Some s) t p n =
    Some (splice data o (h ++ payload_bytes p n), 14 + n)) as ->.
  { unfold net_ethernet_build, NET_ETHERNET_HEADER. rewrite u32_small by warith.
    rewrite payload_guard, (proj2 (Z.ltb_ge capacity _)) by (done || lia). cbn [orb].
    unfold copy_bytes at 1. rewrite copy_spec, copy_mac, bind_some by (done || unfold room in *; warith).
    rewrite mac_next, bind_some by (done || rewrite ?Hdl; unfold room in *; warith).
    rewrite store16_next, bind_some by (rewrite length_app, ?Hdl, ?Hsl; unfold room in *; warith).
    rewrite <- app_assoc. fold (ethernet_header d s t) h.
    rewrite put_payload, bind_some; [|done|unfold room in *; rewrite length_splice by (unfold room; rewrite Hh; warith); warith].
    rewrite splice_next by (done || by rewrite Hh). by rewrite i32_small by warith. }
  eexists. split; [reflexivity|]. split; [|split].
  - intros i Hi. rewrite rd_splice, Hl by done. zcmp.
  - rewrite slice_window; [|done|unfold room; warith].
    rewrite slice_skip by (rewrite Hh; lia). rewrite Hh. apply slice_all. warith.
  - rewrite ethernet_parse_exact; [| |unfold room in *; rewrite length_splice by done; lia|warith|done..].
    2: { apply all_bytes_splice; [done|]. unfold h, ethernet_header.
         repeat (apply Forall_app; split); try done. apply be16_bytes. }
    rewrite (proj2 (Z.ltb_ge _ _)) by warith. unfold ethernet_view.
    rewrite <- (Z.add_0_r o) at 2. rewrite !slice_window, word16_window by (done || unfold room; warith).
    replace (14 + n - 14) with n by lia. unfold h, ethernet_header. rewrite <- !app_assoc.
    rewrite slice_here by (done || lia). rewrite slice_skip by lia. rewrite slice_here by lia.
    rewrite !word16_skip by lia. rewrite word16_here by (done || lia). by destruct d, s.
Qed.

Lemma ethernet_build_overrun data o capacity d s t p n :
  room data o capacity -> fits 32 n -> mac_ok d -> mac_ok s ->
  2 ^ 32 <= 14 + n -> 14 + n - 2 ^ 32 <= capacity -> p <> None ->
  Z.of_nat (length data) < 2 ^ 32 - 14 ->
  net_ethernet_build (Some (data, o)) capacity (Some d) (Some s) t p n = None.
Proof.
  intros Hr Hn Hd Hs Hge Hc Hp Hlen. unfold net_ethernet_build, NET_ETHERNET_HEADER.
  replace (u32 (14 + n)) with (14 + n - 2 ^ 32) by (widths; divlia).
  rewrite (proj2 (Z.ltb_ge capacity _)) by lia.
  destruct p as [[a ao]|]; [|done]. cbn [is_null]. rewrite andb_false_r. cbn [orb].
  destruct (copy_bytes data o (bytes d) 0 6) as [b1|] eqn:E1; [|done]. rewrite bind_some.
  destruct (copy_bytes b1 (o + 6) (bytes s) 0 6) as [b2|] eqn:E2; [|done]. rewrite bind_some.
  destruct (store16 b2 (o + 12) t) as [b3|] eqn:E3; [|done]. rewrite bind_some.
  rewrite (proj2 (Z.eqb_neq n 0)) by warith. cbn [negb]. rewrite bind_some.
  destruct (copy_bytes b3 (o + 14) a ao n) as [b4|] eqn:E4; [|done]. exfalso.
  apply copy_length in E1, E2. apply copy_in_room in E4; [|warith].
  assert (length b3 = length b2) as E3'.
  { unfold store16 in E3. destruct (wr b2 (o + 12) _) as [b|] eqn:E; [|done]. simpl in E3.
    apply wr_length in E, E3. congruence. }
  unfold room in *. warith.
Qed.

(** Ethernet frames.  When the frame's length is computed without
    wrapping, [net_ethernet_build] refuses exactly the frames larger than the
    capacity, and what it builds is parsed back to the addresses, type and
    payload given.  But the length is a 32-bit sum: a payload within 14 bytes
    of 2^32 wraps it, passes the capacity check, and the copy then runs off
    the end of the packet. *)
Theorem net_ethernet_build_exact data o capacity d s t p n f :
  all_bytes data -> room data o capacity -> fits 32 n -> fits 32 capacity -> fits 16 t ->
  mac_ok d -> mac_ok s -> mac_ok (eth_destination f) -> mac_ok (eth_source f) ->
  (14 + n < 2 ^ 32 -> capacity < 14 + n ->
     net_ethernet_build (Some (data, o)) capacity (Some d) (Some s) t p n = Some (data, -1)) /\
  (14 + n < 2 ^ 31 -> 14 + n <= capacity -> payload_ok p n -> exists data',
     net_ethernet_build (Some (data, o)) capacity (Some d) (Some s) t p n = Some (data', 14 + n) /\
     (forall i, i < o \/ o + 14 + n <= i -> rd data' i = rd data i) /\
     slice data' (o + 14) n = payload_bytes p n /\
     net_ethernet_parse (Some (data', o)) (14 + n) (Some f) =
       Some (Some {| eth_destination := d; eth_source := s; ethertype := t;
                     eth_payload := o + 14; eth_payload_size := n |}, 0)) /\
  (2 ^ 32 <= 14 + n -> 14 + n - 2 ^ 32 <= capacity -> p <> None ->
     Z.of_nat (length data) < 2 ^ 32 - 14 ->
     net_ethernet_build (Some (data, o)) capacity (Some d) (Some s) t p n = None).
Proof.
  intros Hb Hr Hn Hcap Ht Hd Hs Hfd Hfs. split; [|split].
  - intros Hlt Hc. unfold net_ethernet_build, NET_ETHERNET_HEADER. rewrite u32_small by warith.
    rewrite (proj2 (Z.ltb_lt capacity _)), orb_true_r by lia. done.
  - apply ethernet_build_fits; done.
  - intros Hge Hc Hp Hlen. by apply ethernet_build_overrun.
Qed.

Lemma net_ethernet_build_exact_witness :
  net_ethernet_build (Some (replicate 64 0, 0)) 64 (Some {| bytes := replicate 6 0 |})
    (Some {| bytes := replicate 6 0 |}) 2048 (Some ([1; 2; 3], 0)) (2 ^ 32 - 14) = None.
Proof.
  assert (mac_ok {| bytes := replicate 6 0 |}) as Hm by (split; [done|by apply Forall_replicate]).
  destruct (net_ethernet_build_exact (replicate 64 0) 0 64 {| bytes := replicate 6 0 |}
    {| bytes := replicate 6 0 |} 2048 (Some ([1; 2; 3], 0)) (2 ^ 32 - 14)
    {| eth_destination := {| bytes := replicate 6 0 |}; eth_source := {| bytes := replicate 6 0 |};
       ethertype := 0; eth_payload := 0; eth_payload_size := 0 |}) as (_ & _ & H);
    [by apply Forall_replicate|unfold room; simpl; lia|warith|warith|warith|exact Hm..|].
  apply H; [lia|lia|done|simpl; lia].
Defined.

Definition arp_header (op : Z) (sm : net_mac) (si : Z) (tm : net_mac) (ti : Z) : list Z :=
  be16 1 ++ be16 NET_ETHERTYPE_IPV4 ++ [6; 4] ++ be16 op ++ bytes sm ++ be32 si ++ bytes tm ++ be32 ti.

Lemma length_arp_header op sm si tm ti :
  mac_ok sm -> mac_ok tm -> length (arp_header op sm si tm ti) = 28%nat.
Proof. intros [Hs _] [Ht _]. unfold arp_header. rewrite !length_app, Hs, Ht. done. Qed.

Lemma arp_build_image data o capacity op sm si tm ti :
  room data o capacity -> 28 <= capacity -> op = 1 \/ op = 2 -> mac_ok sm -> mac_ok tm ->
  net_arp_build (Some (data, o)) capacity op (Some sm) si (Some tm) ti =
    Some (splice data o (arp_header op sm si tm ti), 28).
Proof.
  intros Hr Hcap Hop Hsm Htm. pose proof Hsm as [Hsl _]. pose proof Htm as [Htl _].
  unfold net_arp_build, NET_ARP_PACKET_SIZE.
  rewrite (proj2 (Z.ltb_ge capacity _)) by lia.
  replace (negb (op =? 1) && negb (op =? 2)) with false by (destruct Hop as [-> | ->]; done).
  cbn [orb]. unfold room in *.
  rewrite store16_spec, bind_some by (unfold room; lia).
  rewrite store16_next, bind_some by (unfold room; simpl length; lia).
  do 2 rewrite wr_next, bind_some by (unfold room; simpl length; lia).
  rewrite store16_next, bind_some by (unfold room; simpl length; lia).
  rewrite mac_next, bind_some by (done || (unfold room; simpl length; lia)).
  rewrite store32_next, bind_some by (unfold room; rewrite length_app, Hsl; simpl length; lia).
  rewrite mac_next, bind_some by (done || (unfold room; rewrite !length_app, Hsl; simpl length; lia)).
  rewrite store32_next, bind_some by (unfold room; rewrite !length_app, Hsl, Htl; simpl length; lia).
  unfold arp_header. by rewrite <- !app_assoc.
Qed.

Lemma arp_header_fields op sm si tm ti :
  mac_ok sm -> mac_ok tm -> fits 32 si -> fits 32 ti ->
  slice (arp_header op sm si tm ti) 8 6 = bytes sm /\
  word32 (arp_header op sm si tm ti) 14 = si /\
  slice (arp_header op sm si tm ti) 18 6 = bytes tm /\
  word32 (arp_header op sm si tm ti) 24 = ti.
Proof.
  intros [Hs _] [Ht _] Hsi Hti. unfold arp_header. split; [|split; [|split]].
  - rewrite !slice_skip by (simpl length; lia). apply slice_here; simpl length; lia.
  - rewrite !word32_skip by (rewrite ?Hs; simpl length; lia).
    apply word32_here; [rewrite Hs; simpl length; lia|done].
  - rewrite !slice_skip by (rewrite ?Hs; simpl length; lia).
    apply slice_here; rewrite ?Hs; simpl length; lia.
  - rewrite <- (app_nil_r (be32 ti)), !word32_skip by (rewrite ?Hs, ?Ht; simpl length; lia).
    apply word32_here; [rewrite Hs, Ht; simpl length; lia|done].
Qed.

(** What [net_arp_parse] accepts, and what it returns. *)
Definition arp_ok (data : list Z) (o size : Z) : Prop :=
  28 <= size /\ word16 data o = 1 /\ word16 data (o + 2) = NET_ETHERTYPE_IPV4 /\
  byte data (o + 4) = 6 /\ byte data (o + 5) = 4 /\
  (word16 data (o + 6) = 1 \/ word16 data (o + 6) = 2).

Definition arp_view (data : list Z) (o : Z) : net_arp_packet :=
  {| operation := word16 data (o + 6); sender_mac := {| bytes := slice data (o + 8) 6 |};
     sender_ip := word32 data (o + 14); target_mac := {| bytes := slice data (o + 18) 6 |};
     target_ip := word32 data (o + 24) |}.

Lemma arp_parse_exact data o size a :
  all_bytes data -> room data o size -> mac_ok (sender_mac a) -> mac_ok (target_mac a) ->
  (arp_ok data o size -> net_arp_parse (Some (data, o)) size (Some a) = Some (Some (arp_view data o), 0)) /\
  (~ arp_ok data o size -> exists a', net_arp_parse (Some (data, o)) size (Some a) = Some (Some a', -1)).
Proof.
  intros Hb Hr Hs Ht. unfold net_arp_parse, arp_ok, or_else, NET_ARP_PACKET_SIZE.
  destruct (Z.ltb_spec size 28); [split; [lia|by eexists]|]. rewrite bind_some.
  rewrite (load16_at data o), (load16_at data (o + 2)), (load16_at data (o + 6)),
    (rd_at data (o + 4)), (rd_at data (o + 5)) by (done || room_tac). rewrite !bind_some.
  destruct (Z.eqb_spec (word16 data o) 1); [cbn [negb]|split; [lia|by eexists]].
  destruct (Z.eqb_spec (word16 data (o + 2)) NET_ETHERTYPE_IPV4); [cbn [negb]|split; [lia|by eexists]].
  destruct (Z.eqb_spec (byte data (o + 4)) 6); [cbn [negb]|split; [lia|by eexists]].
  destruct (Z.eqb_spec (byte data (o + 5)) 4); [cbn [negb]|split; [lia|by eexists]].
  rewrite !mac_from, !load32_at by (done || room_tac). rewrite !bind_some.
  destruct (Z.eqb_spec (word16 data (o + 6)) 1), (Z.eqb_spec (word16 data (o + 6)) 2); cbn [negb andb];
    split; (lia || done || (intros; by eexists) || tauto).
Qed.

(** ARP round trip.  A request or reply that [net_arp_build] writes, which
    it does whenever 28 bytes are available, is accepted by [net_arp_parse] and
    gives back the operation and both protocol and hardware addresses; only
    those 28 bytes are written. *)
Lemma net_arp_build_parse data o capacity op sm si tm ti a :
  all_bytes data -> room data o capacity -> 28 <= capacity -> op = 1 \/ op = 2 ->
  mac_ok sm -> mac_ok tm -> fits 32 si -> fits 32 ti ->
  mac_ok (sender_mac a) -> mac_ok (target_mac a) ->
  exists data',
    net_arp_build (Some (data, o)) capacity op (Some sm) si (Some tm) ti = Some (data', 28) /\
    length data' = length data /\ all_bytes data' /\
    (forall i, i < o \/ o + 28 <= i -> rd data' i = rd data i) /\
    forall size, 28 <= size -> room data' o size ->
      net_arp_parse (Some (data', o)) size (Some a) =
        Some (Some {| operation := op; sender_mac := sm; sender_ip := si;
                      target_mac := tm; target_ip := ti |}, 0).
Proof.
  intros Hb Hr Hcap Hop Hsm Htm Hsi Hti Has Hat.
  rewrite arp_build_image by done. eexists. split; [reflexivity|].
  pose proof (length_arp_header op sm si tm ti Hsm Htm) as Hl.
  assert (room data o (Z.of_nat (length (arp_header op sm si tm ti)))) as Hw by (rewrite Hl; unfold room in *; lia).
  pose proof Hsm as [Hsl Hsb]. pose proof Htm as [Htl Htb].
  assert (fits 16 op) as Hopf by (destruct Hop as [-> | ->]; done).
  assert (all_bytes (splice data o (arp_header op sm si tm ti))) as Hab.
  { apply all_bytes_splice; [done|]. unfold arp_header.
    repeat (apply Forall_app; split); try apply be16_bytes; try apply be32_bytes; try done.
    repeat (apply Forall_cons; split); done. }
  split; [by apply length_splice|]. split; [done|].
  split; [intros i Hi; rewrite rd_splice, Hl by done; zcmp|].
  intros size Hsize Hrs.
  destruct (arp_parse_exact (splice data o (arp_header op sm si tm ti)) o size a) as [Hok _]; [done..|].
  assert (word16 (splice data o (arp_header op sm si tm ti)) (o + 6) = op) as Ho6.
  { rewrite word16_window by (done || unfold room; lia). unfold arp_header.
    rewrite !word16_skip by (simpl length; lia). apply word16_here; [done|done]. }
  rewrite Hok.
  - unfold arp_view. rewrite Ho6, !word32_window, !slice_window by (done || unfold room; lia).
    destruct (arp_header_fields op sm si tm ti) as (-> & -> & -> & ->); [done..|]. by destruct sm, tm.
  - unfold arp_ok. rewrite Ho6, word16_first, word16_window, !byte_window by (done || unfold room; lia).
    repeat split; (done || lia).
Qed.

(** The stored checksums are used through the lemmas above only. *)
#[global] Opaque ipv4_checksum udp_field.
