(* ===== verification/NetTables.v ===== *)
(** * Network tables: the ARP cache, the routing table and the self test

    The ARP cache of Net.v implements a map from protocol addresses to hardware
    addresses with expiry times, with room for 32 entries; route lookup returns
    the best matching route; the stack's self test passes. *)

From S2P Require Import Prelude Buffer Net NetMessages.

(** ** The ARP cache as a map *)

Definition entry_pair (x : net_arp_entry) : Z * (net_mac * Z) := (address x, (mac x, expires_at x)).

Definition live (c : list net_arp_entry) : list net_arp_entry :=
  filter (fun x => entry_valid x <> 0) c.

Definition arp_map (c : list net_arp_entry) : gmap Z (net_mac * Z) :=
  list_to_map (entry_pair <$> live c).

(** The table has 32 entries and no address twice. *)
Definition cache_inv (c : list net_arp_entry) : Prop :=
  length c = 32%nat /\ NoDup (address <$> live c).

Lemma pair_keys c : (entry_pair <$> live c).*1 = address <$> live c.
Proof. rewrite <- list_fmap_compose. done. Qed.

Lemma arp_map_Some c a v :
  NoDup (address <$> live c) ->
  arp_map c !! a = Some v <->
    exists i x, c !! i = Some x /\ entry_valid x <> 0 /\ entry_pair x = (a, v).
Proof.
  intros Hn. unfold arp_map. rewrite <- elem_of_list_to_map by (by rewrite pair_keys).
  rewrite list_elem_of_fmap. split.
  - intros (x & E & Hx). apply list_elem_of_filter in Hx as [Hv [i Hi]%list_elem_of_lookup].
    by exists i, x.
  - intros (i & x & Hi & Hv & E). exists x. split; [done|]. apply list_elem_of_filter.
    split; [done|]. by eapply list_elem_of_lookup_2.
Qed.

Lemma live_app l1 x l2 :
  live (l1 ++ x :: l2) = live l1 ++ (if decide (entry_valid x <> 0) then [x] else []) ++ live l2.
Proof. unfold live. rewrite filter_app, filter_cons. by destruct (decide _). Qed.

(** Replacing the entry of one slot. *)
Section slot.
Variables (l1 : list net_arp_entry) (x : net_arp_entry) (l2 : list net_arp_entry).

Lemma slot_dead : entry_valid x = 0 -> live (l1 ++ x :: l2) = live (l1 ++ l2).
Proof.
  intros Hx. rewrite live_app. destruct (decide _); [done|]. unfold live. by rewrite filter_app.
Qed.

Lemma slot_perm : entry_valid x <> 0 -> live (l1 ++ x :: l2) ≡ₚ x :: live (l1 ++ l2).
Proof.
  intros Hx. rewrite live_app. destruct (decide _); [|done]. unfold live. rewrite filter_app.
  by rewrite Permutation_middle.
Qed.

Lemma slot_keys :
  entry_valid x <> 0 -> NoDup (address <$> live (l1 ++ x :: l2)) <->
    (address x ∉ (address <$> live (l1 ++ l2))) /\ NoDup (address <$> live (l1 ++ l2)).
Proof. intros Hx. rewrite slot_perm by done. by rewrite fmap_cons, NoDup_cons. Qed.

Lemma slot_map :
  entry_valid x <> 0 -> NoDup (address <$> live (l1 ++ x :: l2)) ->
  arp_map (l1 ++ x :: l2) = <[address x := (mac x, expires_at x)]> (arp_map (l1 ++ l2)) /\
  arp_map (l1 ++ l2) !! address x = None.
Proof.
  intros Hx Hn. split.
  - unfold arp_map. rewrite (list_to_map_proper _ (entry_pair <$> (x :: live (l1 ++ l2)))).
    + done.
    + by rewrite pair_keys.
    + by rewrite slot_perm.
  - apply slot_keys in Hn as [Hn _]; [|done]. apply not_elem_of_list_to_map_1. by rewrite pair_keys.
Qed.
End slot.

Lemma not_live_address c a :
  (forall i x, c !! i = Some x -> entry_valid x <> 0 -> address x <> a) -> a ∉ (address <$> live c).
Proof.
  intros H. rewrite list_elem_of_fmap. intros (x & -> & Hx).
  apply list_elem_of_filter in Hx as [Hv [i Hi]%list_elem_of_lookup]. by eapply H.
Qed.

Lemma NoDup_live_index c i j x y :
  NoDup (address <$> live c) -> c !! i = Some x -> c !! j = Some y ->
  entry_valid x <> 0 -> entry_valid y <> 0 -> address x = address y -> i = j.
Proof.
  assert (forall z c j y, c !! j = Some y -> entry_valid y <> 0 -> address z = address y ->
    address z ∉ (address <$> live c) -> False) as Hout.
  { clear. intros z c j y Hj Hy E Hz. apply Hz. rewrite E. apply list_elem_of_fmap_2.
    apply list_elem_of_filter. split; [done|]. by eapply list_elem_of_lookup_2. }
  revert i j. induction c as [|z c IH]; intros i j Hn Hi Hj Hx Hy E; [done|].
  unfold live in Hn. rewrite filter_cons in Hn.
  destruct i as [|i], j as [|j]; simplify_eq/=; [done| | |].
  - rewrite decide_True in Hn by done. apply NoDup_cons in Hn as [Hn _]. by edestruct Hout.
  - rewrite decide_True in Hn by done. apply NoDup_cons in Hn as [Hn _]. by edestruct Hout.
  - f_equal. apply IH; try done. destruct (decide _); [by apply NoDup_cons in Hn as [_ Hn]|done].
Qed.

(** ** What each operation does to the map *)

(** The map after the entry of a slot is replaced by one for a free address. *)
Lemma arp_map_put c i x y :
  cache_inv c -> c !! i = Some x -> entry_valid y <> 0 ->
  (forall j z, j <> i -> c !! j = Some z -> entry_valid z <> 0 -> address z <> address y) ->
  cache_inv (<[i := y]> c) /\
  arp_map (<[i := y]> c) =
    <[address y := (mac y, expires_at y)]>
      (if decide (entry_valid x = 0) then arp_map c else delete (address x) (arp_map c)).
Proof.
  intros [Hl Hn] Hi Hy Hfree. pose proof (lookup_lt_Some _ _ _ Hi) as Hlt.
  pose proof (take_drop_middle c i x Hi) as Hc. set (l1 := take i c) in *. set (l2 := drop (S i) c) in *.
  assert (<[i:=y]> c = l1 ++ y :: l2) as Hc' by (by apply insert_take_drop).
  assert (length l1 = i) as Hl1 by (unfold l1; rewrite length_take; lia).
  assert (NoDup (address <$> live (l1 ++ l2))) as Hn'.
  { rewrite <- Hc in Hn. destruct (decide (entry_valid x = 0)) as [E|E].
    - by rewrite slot_dead in Hn.
    - by apply slot_keys in Hn as [_ Hn]. }
  assert (address y ∉ (address <$> live (l1 ++ l2))) as Hy'.
  { apply not_live_address. intros j z Hj. apply lookup_app_Some in Hj as [Hj|[Hge Hj]].
    - apply (Hfree j); [apply lookup_lt_Some in Hj; lia|]. rewrite <- Hc. by apply lookup_app_l_Some.
    - apply (Hfree (S j)); [lia|]. rewrite <- Hc, lookup_app_r by lia.
      rewrite Hl1 in *. replace (S j - i)%nat with (S (j - i)) by lia. done. }
  assert (NoDup (address <$> live (l1 ++ y :: l2))) as Hny by (by apply slot_keys).
  split; [split; [by rewrite length_insert|by rewrite Hc']|].
  rewrite Hc'. destruct (slot_map l1 y l2 Hy Hny) as [-> _]. f_equal. rewrite <- Hc.
  destruct (decide (entry_valid x = 0)) as [E|E].
  - unfold arp_map. by rewrite slot_dead.
  - rewrite <- Hc in Hn. destruct (slot_map l1 x l2 E Hn) as [-> Hx]. by rewrite delete_insert_id.
Qed.

(** The map after the entry of a slot is invalidated. *)
Lemma arp_map_drop c i x :
  cache_inv c -> c !! i = Some x -> entry_valid x <> 0 ->
  cache_inv (<[i := invalidate x]> c) /\
  arp_map (<[i := invalidate x]> c) = delete (address x) (arp_map c).
Proof.
  intros [Hl Hn] Hi Hx. pose proof (lookup_lt_Some _ _ _ Hi) as Hlt.
  pose proof (take_drop_middle c i x Hi) as Hc. set (l1 := take i c) in *. set (l2 := drop (S i) c) in *.
  assert (<[i:=invalidate x]> c = l1 ++ invalidate x :: l2) as Hc' by (by apply insert_take_drop).
  rewrite <- Hc in Hn. pose proof Hn as [_ Hn']%slot_keys; [|done].
  split; [split; [by rewrite length_insert|by rewrite Hc', slot_dead]|].
  rewrite Hc'. unfold arp_map at 1. rewrite slot_dead by done. rewrite <- Hc.
  destruct (slot_map l1 x l2 Hx Hn) as [-> Hx']. by rewrite delete_insert_id.
Qed.

Lemma arp_map_size c : cache_inv c -> size (arp_map c) = length (live c).
Proof.
  intros [_ Hn]. unfold arp_map. rewrite map_size_list_to_map by (by rewrite pair_keys). apply length_fmap.
Qed.

(** [slot] as [net_arp_cache_update] chooses it: the slot of the address, else
    the first free slot, else 32. *)
Lemma choose_slot_spec c a :
  length c = 32%nat ->
  exists slot, choose_slot c a = Some slot /\
    ((exists x, 0 <= slot < 32 /\ c !! Z.to_nat slot = Some x /\ entry_valid x <> 0 /\ address x = a) \/
     (forall i x, c !! i = Some x -> entry_valid x <> 0 -> address x <> a) /\
     ((exists x, 0 <= slot < 32 /\ c !! Z.to_nat slot = Some x /\ entry_valid x = 0) \/
      (slot = 32 /\ forall i x, c !! i = Some x -> entry_valid x <> 0))).
Proof.
  intros Hl. unfold choose_slot, NET_ARP_CACHE_SIZE.
  set (P := fun (j slot : Z) =>
    (forall i x, Z.of_nat i < j -> c !! i = Some x -> entry_valid x <> 0 -> address x <> a) /\
    ((exists x, 0 <= slot < 32 /\ c !! Z.to_nat slot = Some x /\ entry_valid x = 0) \/
     (slot = 32 /\ forall i x, Z.of_nat i < j -> c !! i = Some x -> entry_valid x <> 0))).
  set (Q := fun slot : Z => exists x, 0 <= slot < 32 /\ c !! Z.to_nat slot = Some x /\
                              entry_valid x <> 0 /\ address x = a).
  match goal with |- context [for_break _ _ ?loop_body ?start] =>
    destruct (for_break_rule P Q (Z.to_nat 32) 0 loop_body start) as [(slot & -> & HP)|(slot & -> & HQ)] end.
  - split; [lia|]. right. split; [done|lia].
  - intros j slot Hj [Hne Hslot]. destruct (rd_ok c j) as [x Hx]; [lia|]. rewrite Hx, bind_some.
    apply rd_Some in Hx as [_ Hx].
    assert (forall i, Z.of_nat i < j + 1 -> Z.of_nat i < j \/ i = Z.to_nat j) as Hsplit by lia.
    destruct (Z.eqb_spec (entry_valid x) 0) as [Ev|Ev]; cbn [negb andb].
    + left. destruct (Z.eqb_spec slot 32) as [Es|Es]; cbn [andb]; eexists; (split; [reflexivity|]); split.
      * intros i y [Hi| ->]%Hsplit; [by apply Hne|]. congruence.
      * left. exists x. split; [lia|done].
      * intros i y [Hi| ->]%Hsplit; [by apply Hne|]. congruence.
      * left. destruct Hslot as [?|[? _]]; done.
    + destruct (Z.eqb_spec (address x) a) as [Ea|Ea].
      * right. exists j. split; [done|]. exists x. split; [lia|done].
      * left. rewrite andb_false_r. exists slot. split; [done|]. split.
        -- intros i y [Hi| ->]%Hsplit; [by apply Hne|]. congruence.
        -- destruct Hslot as [?|[-> Hall]]; [by left|right]. split; [done|].
           intros i y [Hi| ->]%Hsplit; [by apply Hall|]. congruence.
  - rewrite bind_some. exists slot. split; [done|]. right. destruct HP as [Hne Hslot].
    assert (forall i x, c !! i = Some x -> Z.of_nat i < 0 + Z.of_nat (Z.to_nat 32)) as Hlt
      by (intros i x ?%lookup_lt_Some; lia).
    split; [eauto|]. destruct Hslot as [?|[? ?]]; eauto.
  - rewrite bind_some. exists slot. split; [done|]. by left.
Qed.

(** ** The cache refines the map *)

Inductive arp_call :=
  | ArpInit
  | ArpExpire (now : Z)
  | ArpUpdate (a : Z) (m : net_mac) (expires : Z)
  | ArpLookup (a now : Z) (out : net_mac).

(** The call on the cache: the state, the status and the caller's MAC. *)
Definition arp_run (s : net) (call : arp_call) : option (net * (Z * option net_mac)) :=
  match call with
  | ArpInit => s ← net_arp_cache_init s; Some (s, (0, None))
  | ArpExpire now => s ← net_arp_cache_expire s now; Some (s, (0, None))
  | ArpUpdate a m e => '(s, r) ← net_arp_cache_update s a (Some m) e; Some (s, (r, None))
  | ArpLookup a now out => '(s, m, r) ← net_arp_cache_lookup s a now (Some out); Some (s, (r, m))
  end.

(** The call on the map. *)
Inductive arp_step (α : gmap Z (net_mac * Z)) : arp_call -> gmap Z (net_mac * Z) -> Z * option net_mac -> Prop :=
  | step_init : arp_step α ArpInit ∅ (0, None)
  | step_expire now :
      arp_step α (ArpExpire now) (filter (fun kv => now < snd (snd kv)) α) (0, None)
  | step_refused a m e : a = 0 \/ e = 0 -> arp_step α (ArpUpdate a m e) α (-1, None)
  | step_update a m e :
      a <> 0 -> e <> 0 -> is_Some (α !! a) \/ (size α < 32)%nat ->
      arp_step α (ArpUpdate a m e) (<[a := (m, e)]> α) (0, None)
  | step_evict a m e victim :
      a <> 0 -> e <> 0 -> α !! a = None -> size α = 32%nat -> is_Some (α !! victim) ->
      arp_step α (ArpUpdate a m e) (<[a := (m, e)]> (delete victim α)) (0, None)
  | step_hit a now out m e :
      α !! a = Some (m, e) -> now < e -> arp_step α (ArpLookup a now out) α (0, Some m)
  | step_stale a now out m e :
      α !! a = Some (m, e) -> e <= now ->
      arp_step α (ArpLookup a now out) (delete a α) (-1, Some out)
  | step_miss a now out :
      α !! a = None -> arp_step α (ArpLookup a now out) α (-1, Some out).

Definition call_ok (call : arp_call) : Prop :=
  match call with ArpUpdate a _ _ => fits 32 a | _ => True end.

Lemma live_none c : (forall x, x ∈ c -> entry_valid x = 0) -> live c = [].
Proof.
  intros H. unfold live. induction c as [|x c IH]; [done|]. rewrite filter_cons.
  destruct (decide _) as [E|E]; [by rewrite H in E by left|]. apply IH. intros y ?. apply H. by right.
Qed.

Lemma live_all c : (forall i x, c !! i = Some x -> entry_valid x <> 0) -> live c = c.
Proof.
  intros H. unfold live. induction c as [|x c IH]; [done|]. rewrite filter_cons.
  destruct (decide _) as [E|E]; [|by destruct E; apply (H 0%nat)]. f_equal. apply IH.
  intros i y. apply (H (S i)).
Qed.

Lemma init_refines s :
  length (arp_cache s) = 32%nat ->
  exists s', net_arp_cache_init s = Some s' /\ cache_inv (arp_cache s') /\ arp_map (arp_cache s') = ∅ /\
             routes s' = routes s.
Proof.
  intros Hl. unfold net_arp_cache_init.
  rewrite (map_loop invalidate), bind_some.
  - eexists. split; [reflexivity|]. simpl.
    assert (live (invalidate <$> arp_cache s) = []) as E.
    { apply live_none. intros x (y & -> & _)%list_elem_of_fmap. done. }
    split; [|split; [unfold arp_map; by rewrite E|done]]. split; [by rewrite length_fmap|].
    rewrite E. constructor.
  - done.
  - intros i l x Hi Hx. unfold rd, wr. pose proof (lookup_lt_Some _ _ _ Hx).
    rewrite (proj2 (Z.ltb_ge i 0)), Hx, bind_some, (proj2 (Z.leb_gt _ i)) by lia. done.
Qed.

Lemma update_refines s a m e :
  cache_inv (arp_cache s) -> fits 32 a ->
  exists s' r, net_arp_cache_update s a (Some m) e = Some (s', r) /\ cache_inv (arp_cache s') /\
    arp_step (arp_map (arp_cache s)) (ArpUpdate a m e) (arp_map (arp_cache s')) (r, None).
Proof.
  intros Hinv Ha. pose proof Hinv as [Hl Hn]. unfold net_arp_cache_update.
  destruct (Z.eqb_spec a 0); [by eexists _, _; split; [done|]; split; [done|]; constructor; left|].
  destruct (Z.eqb_spec e 0); [by eexists _, _; split; [done|]; split; [done|]; constructor; right|].
  cbn [orb]. destruct (choose_slot_spec (arp_cache s) a Hl) as (slot & -> & Hslot). rewrite bind_some.
  set (y := {| entry_valid := 1; address := a; mac := m; expires_at := e |}).
  destruct Hslot as [(x & Hr & Hx & Hv & Hxa)|[Hno [(x & Hr & Hx & Hv)|[-> Hall]]]].
  - rewrite (proj2 (Z.eqb_neq slot _)) by (unfold NET_ARP_CACHE_SIZE; lia). rewrite wr_ok, bind_some by lia.
    destruct (arp_map_put (arp_cache s) (Z.to_nat slot) x y) as [Hinv' Hm]; [done..| |].
    { intros j z Hj Hz Hzv Hza. apply Hj. eapply (NoDup_live_index (arp_cache s)); eauto. simpl in Hza. congruence. }
    eexists _, _. split; [reflexivity|]. split; [done|]. simpl arp_cache. rewrite Hm.
    rewrite decide_False by done. simpl address. rewrite Hxa, insert_delete_eq. simpl mac. simpl expires_at.
    constructor; [done..|]. left. exists (mac x, expires_at x). apply arp_map_Some; [done|].
    exists (Z.to_nat slot), x. unfold entry_pair. by rewrite Hxa.
  - rewrite (proj2 (Z.eqb_neq slot _)) by (unfold NET_ARP_CACHE_SIZE; lia). rewrite wr_ok, bind_some by lia.
    destruct (arp_map_put (arp_cache s) (Z.to_nat slot) x y) as [Hinv' Hm]; [done..|by eauto|].
    eexists _, _. split; [reflexivity|]. split; [done|]. simpl arp_cache. rewrite Hm.
    rewrite decide_True by done. constructor; [done..|]. right. rewrite arp_map_size by done.
    rewrite <- Hl. apply (length_filter_lt _ _ x); [by eapply list_elem_of_lookup_2|]. tauto.
  - rewrite (proj2 (Z.eqb_eq 32 _)) by done. unfold NET_ARP_CACHE_SIZE.
    assert (0 <= a mod 32 < 32) as Hb by (apply Z.mod_pos_bound; lia).
    destruct (lookup_lt_is_Some_2 (arp_cache s) (Z.to_nat (a mod 32))) as [x Hx]; [lia|].
    rewrite wr_ok, bind_some by lia.
    destruct (arp_map_put (arp_cache s) (Z.to_nat (a mod 32)) x y) as [Hinv' Hm]; [done..|by eauto|].
    eexists _, _. split; [reflexivity|]. split; [done|]. simpl arp_cache. rewrite Hm.
    pose proof (Hall _ _ Hx) as Hxv. rewrite decide_False by done.
    constructor; [done..| | |].
    + destruct (arp_map (arp_cache s) !! a) as [v|] eqn:E; [|done].
      apply arp_map_Some in E as (i & z & Hz & Hzv & Hp); [|done].
      unfold entry_pair in Hp. simplify_eq. by destruct (Hno i z).
    + rewrite arp_map_size by done. rewrite <- Hl. f_equal. by apply live_all.
    + exists (mac x, expires_at x). apply arp_map_Some; [done|]. by exists (Z.to_nat (a mod 32)), x.
Qed.

Definition expire_entry (now : Z) (x : net_arp_entry) : net_arp_entry :=
  if negb (entry_valid x =? 0) && (expires_at x <=? now) then invalidate x else x.

Lemma expire_entry_live now x :
  entry_valid (expire_entry now x) <> 0 <-> entry_valid x <> 0 /\ now < expires_at x.
Proof. unfold expire_entry. zcmp; simpl; lia. Qed.

Lemma expire_entry_pair now x : entry_pair (expire_entry now x) = entry_pair x.
Proof. unfold expire_entry. by destruct (_ && _). Qed.

Lemma live_expire now c :
  address <$> live (expire_entry now <$> c) = address <$> filter (fun x => now < expires_at x) (live c).
Proof.
  unfold live. induction c as [|x c IH]; [done|]. rewrite fmap_cons, !filter_cons.
  pose proof (expire_entry_live now x) as Hl. pose proof (expire_entry_pair now x) as Hp.
  unfold entry_pair in Hp. simplify_eq.
  destruct (decide (entry_valid (expire_entry now x) <> 0)) as [E|E], (decide (entry_valid x <> 0)) as [E'|E'];
    rewrite ?filter_cons; try destruct (decide (now < expires_at x)); rewrite ?fmap_cons; try (tauto || lia).
  - by rewrite IH, H.
Qed.

Lemma expire_refines s now :
  cache_inv (arp_cache s) ->
  exists s', net_arp_cache_expire s now = Some s' /\ cache_inv (arp_cache s') /\
    arp_map (arp_cache s') = filter (fun kv => now < snd (snd kv)) (arp_map (arp_cache s)).
Proof.
  intros [Hl Hn]. unfold net_arp_cache_expire. rewrite (map_loop (expire_entry now)), bind_some.
  - eexists. split; [reflexivity|]. simpl arp_cache.
    assert (NoDup (address <$> live (expire_entry now <$> arp_cache s))) as Hn'.
    { rewrite live_expire. eapply sublist_NoDup; [done|]. apply fmap_sublist, sublist_filter. }
    split; [split; [by rewrite length_fmap|done]|]. apply map_eq. intros a. apply option_eq. intros v.
    rewrite arp_map_Some by done. rewrite map_lookup_filter_Some, arp_map_Some by done. split.
    + intros (i & x & Hi & Hv & Hp). rewrite list_lookup_fmap in Hi.
      destruct (arp_cache s !! i) as [y|] eqn:Hy; [|done]. simplify_eq/=.
      apply expire_entry_live in Hv as [Hv Ht]. rewrite expire_entry_pair in Hp.
      split; [by exists i, y|]. unfold entry_pair in Hp. by simplify_eq/=.
    + intros [(i & x & Hi & Hv & Hp) Ht]. exists i, (expire_entry now x).
      rewrite list_lookup_fmap, Hi, expire_entry_pair, expire_entry_live. unfold entry_pair in *.
      by simplify_eq/=.
  - done.
  - intros i l x Hi Hx. unfold rd, wr. pose proof (lookup_lt_Some _ _ _ Hx).
    rewrite (proj2 (Z.ltb_ge i 0)), Hx, bind_some, (proj2 (Z.leb_gt _ i)) by lia. cbn [orb].
    unfold expire_entry. destruct (_ && _); [done|]. by rewrite list_insert_id.
Qed.

Lemma lookup_refines s a now out :
  cache_inv (arp_cache s) ->
  exists s' m r, net_arp_cache_lookup s a now (Some out) = Some (s', m, r) /\ cache_inv (arp_cache s') /\
    arp_step (arp_map (arp_cache s)) (ArpLookup a now out) (arp_map (arp_cache s')) (r, m).
Proof.
  intros Hinv. pose proof Hinv as [Hl Hn]. unfold net_arp_cache_lookup, NET_ARP_CACHE_SIZE.
  set (c := arp_cache s) in *.
  set (P := fun (j : Z) (_ : unit) =>
    forall i x, Z.of_nat i < j -> c !! i = Some x -> entry_valid x <> 0 -> address x <> a).
  set (Q := fun v : net * option net_mac * Z => let '(s', m, r) := v in cache_inv (arp_cache s') /\
    arp_step (arp_map c) (ArpLookup a now out) (arp_map (arp_cache s')) (r, m)).
  match goal with |- context [for_break _ _ ?loop_body ?start] =>
    destruct (for_break_rule P Q (Z.to_nat 32) 0 loop_body start) as [([] & -> & HP)|([[s' m] r] & -> & HQ)] end.
  - intros i x. lia.
  - intros j [] Hj Hne. destruct (rd_ok c j) as [x Hx]; [lia|]. rewrite Hx, bind_some.
    apply rd_Some in Hx as [_ Hx].
    destruct (Z.eqb_spec (entry_valid x) 0) as [Ev|Ev]; cbn [negb andb].
    { left. exists tt. split; [done|]. intros i y Hi Hy.
      destruct (decide (i = Z.to_nat j)) as [->|]; [congruence|]. apply (Hne i y); [lia|done]. }
    destruct (Z.eqb_spec (address x) a) as [Ea|Ea].
    2: { left. exists tt. split; [done|]. intros i y Hi Hy.
         destruct (decide (i = Z.to_nat j)) as [->|]; [congruence|]. apply (Hne i y); [lia|done]. }
    right. assert (arp_map c !! a = Some (mac x, expires_at x)) as Hm.
    { apply arp_map_Some; [done|]. exists (Z.to_nat j), x. unfold entry_pair. by rewrite Ea. }
    destruct (Z.leb_spec (expires_at x) now).
    + rewrite wr_ok, bind_some by lia. eexists. split; [reflexivity|].
      destruct (arp_map_drop c (Z.to_nat j) x) as [Hinv' E]; [done..|].
      split; [done|]. simpl arp_cache. rewrite E, Ea. by eapply step_stale.
    + eexists. split; [reflexivity|]. split; [done|]. by eapply step_hit.
  - rewrite bind_some. eexists _, _, _. split; [reflexivity|]. split; [done|]. apply step_miss.
    destruct (arp_map c !! a) as [v|] eqn:E; [|done].
    apply arp_map_Some in E as (i & x & Hi & Hv & Hp); [|done]. unfold entry_pair in Hp. simplify_eq.
    destruct (HP i x); [|done..]. apply lookup_lt_Some in Hi. lia.
  - rewrite bind_some. destruct HQ as [? ?]. by eexists _, _, _.
Qed.

(** The cache operations leave the routes alone. *)
Lemma update_routes s a m e s' r : net_arp_cache_update s a m e = Some (s', r) -> routes s' = routes s.
Proof.
  unfold net_arp_cache_update. destruct m as [m|]; [|congruence]. split_if; [congruence|].
  destruct (choose_slot _ _) as [slot|]; [|done]. rewrite bind_some.
  destruct (wr _ _ _) as [c|]; [|done]. rewrite bind_some. by intros [= <- _].
Qed.

Lemma lookup_routes s a now out s' m r :
  net_arp_cache_lookup s a now out = Some (s', m, r) -> routes s' = routes s.
Proof.
  unfold net_arp_cache_lookup. destruct out as [out|]; [|congruence].
  match goal with |- context [for_break ?count ?from ?b ?st] =>
    enough (forall n i v, for_break n i b st = Some (inr v) -> routes (fst (fst v)) = routes s) as H;
      [destruct (for_break count from b st) as [[[]|[[s1 m1] r1]]|] eqn:E; rewrite ?bind_some|] end.
  - by intros [= <- _ _].
  - intros [= <- _ _]. by apply H in E.
  - done.
  - induction n as [|n IH]; intros i v Hf; [done|]. rewrite for_break_S in Hf.
    destruct (rd _ i) as [e|]; [|done]. rewrite bind_some in Hf.
    destruct (_ && _); [|by apply IH in Hf]. destruct (_ <=? _).
    + destruct (wr _ _ _); [|done]. rewrite !bind_some in Hf. by simplify_eq.
    + rewrite bind_some in Hf. by simplify_eq.
Qed.

(** A sequence of calls on the cache, and on the map. *)
Fixpoint arp_run_all (s : net) (calls : list arp_call) : option (net * list (Z * option net_mac)) :=
  match calls with
  | [] => Some (s, [])
  | call :: calls =>
      '(s, r) ← arp_run s call; '(s, rs) ← arp_run_all s calls; Some (s, r :: rs)
  end.

Inductive arp_trace : gmap Z (net_mac * Z) -> list arp_call -> gmap Z (net_mac * Z) ->
    list (Z * option net_mac) -> Prop :=
  | trace_nil α : arp_trace α [] α []
  | trace_cons α call β r calls γ rs :
      arp_step α call β r -> arp_trace β calls γ rs -> arp_trace α (call :: calls) γ (r :: rs).

Lemma arp_run_refines s call :
  cache_inv (arp_cache s) -> call_ok call ->
  exists s' r, arp_run s call = Some (s', r) /\ cache_inv (arp_cache s') /\
    arp_step (arp_map (arp_cache s)) call (arp_map (arp_cache s')) r.
Proof.
  intros Hinv Hok. destruct call as [|now|a m e|a now out]; cbn [arp_run].
  - destruct (init_refines s) as (s' & -> & Hi & E & _); [apply Hinv|]. eexists _, _.
    split; [done|]. split; [done|]. rewrite E. constructor.
  - destruct (expire_refines s now Hinv) as (s' & -> & Hi & E). eexists _, _.
    split; [done|]. split; [done|]. rewrite E. constructor.
  - destruct (update_refines s a m e Hinv Hok) as (s' & r & -> & Hi & Hs). by eexists _, _.
  - destruct (lookup_refines s a now out Hinv) as (s' & m & r & -> & Hi & Hs). by eexists _, _.
Qed.

(** C27: The ARP cache implements a map from addresses to hardware addresses with
    expiry times.  After [net_arp_cache_init], from any contents of the table,
    every sequence of updates, lookups and expirations runs without a fault
    and returns what the same sequence does on a map that is empty at first
    and holds at most 32 addresses: a lookup returns the last unexpired value
    stored for the address, and an address is lost only when it is stale or
    when a new one needs its slot in a full table. *)
Theorem net_arp_cache_refines s calls :
  length (arp_cache s) = 32%nat -> Forall call_ok calls ->
  exists s0 s' rs, net_arp_cache_init s = Some s0 /\ arp_run_all s0 calls = Some (s', rs) /\
    arp_trace ∅ calls (arp_map (arp_cache s')) rs /\ (size (arp_map (arp_cache s')) <= 32)%nat.
Proof.
  intros Hl Hok. destruct (init_refines s Hl) as (s0 & -> & Hi & E & _). exists s0.
  enough (exists s' rs, arp_run_all s0 calls = Some (s', rs) /\ cache_inv (arp_cache s') /\
    arp_trace (arp_map (arp_cache s0)) calls (arp_map (arp_cache s')) rs) as (s' & rs & Hrun & Hinv & Htr).
  { exists s', rs. rewrite E in Htr. split; [done|]. split; [done|]. split; [done|].
    rewrite arp_map_size by done. destruct Hinv as [<- _]. apply length_filter. }
  clear s Hl E. revert s0 Hi. induction Hok as [|call calls Hc Hok IH]; intros s0 Hi.
  - by eexists _, _; split; [done|]; split; [done|]; constructor.
  - destruct (arp_run_refines s0 call Hi Hc) as (s1 & r & Hr & Hi1 & Hs).
    destruct (IH s1 Hi1) as (s' & rs & Hrs & Hi' & Ht). exists s', (r :: rs). simpl.
    rewrite Hr, bind_some, Hrs. split; [done|]. split; [done|]. by econstructor.
Qed.

Lemma net_arp_cache_refines_witness :
  let m := {| bytes := [2; 0; 0; 0; 0; 1] |} in
  let e := {| entry_valid := 1; address := 5; mac := m; expires_at := 9 |} in
  let calls := [ArpUpdate 7 m 100; ArpLookup 7 50 m; ArpLookup 5 0 m] in
  exists s' rs, arp_trace ∅ calls (arp_map (arp_cache s')) rs.
Proof.
  intros m e calls.
  destruct (net_arp_cache_refines {| arp_cache := replicate 32 e; routes := [] |} calls)
    as (s0 & s' & rs & _ & _ & H & _); [reflexivity|repeat constructor; warith|].
  exists s', rs. exact H.
Defined.

(** ** Routes *)

(** The number of one bits below bit [n]. *)
Fixpoint bit_count (n : nat) (m : Z) : Z :=
  match n with O => 0 | S n => Z.b2z (Z.testbit m (Z.of_nat n)) + bit_count n m end.

Lemma bit_count_bounds n m : 0 <= bit_count n m <= Z.of_nat n.
Proof. induction n as [|n IH]; simpl bit_count; [lia|]. destruct (Z.testbit _ _); simpl Z.b2z; lia. Qed.

Lemma bit_count_shift n m : bit_count (S n) m = Z.b2z (Z.testbit m 0) + bit_count n (m >> 1).
Proof.
  induction n as [|n IH]; [done|]. cbn [bit_count] in *. rewrite IH.
  rewrite Z.shiftr_spec by lia. replace (Z.of_nat n + 1) with (Z.of_nat (S n)) by lia. lia.
Qed.

Lemma bit_count_0 n : bit_count n 0 = 0.
Proof. induction n as [|n IH]; [done|]. simpl bit_count. rewrite Z.testbit_0_l, IH. done. Qed.

Lemma mask_bits_spec m : fits 32 m -> mask_bits m = Some (bit_count 32 m).
Proof.
  intros Hm. unfold mask_bits.
  enough (forall n m count, fits (Z.of_nat n) m -> 0 <= count -> count + Z.of_nat n < 2 ^ 32 ->
    while_loop (S n) (fun '(mask, count) =>
       if negb (mask =? 0) then Some (inl (mask >> 1, u32 (count + (mask &&& 1))))
       else Some (inr count)) (m, count) = Some (count + bit_count n m)) as H
    by (exact (H 32%nat m 0 Hm ltac:(lia) ltac:(lia))).
  clear m Hm. induction n as [|n IH]; intros m count Hm Hc Hb; rewrite while_loop_S.
  - assert (m = 0) as -> by (unfold fits in Hm; change (2 ^ Z.of_nat 0) with 1 in Hm; lia).
    simpl. f_equal. lia.
  - destruct (Z.eqb_spec m 0) as [->|Hm0]; cbn [negb]; rewrite bind_some.
    + rewrite bit_count_0. f_equal. lia.
    + rewrite land_1, <- Z.bit0_mod. rewrite u32_small by (destruct (Z.testbit m 0); simpl; warith).
      rewrite IH.
      * rewrite bit_count_shift. f_equal. lia.
      * unfold fits in *. rewrite Z.shiftr_div_pow2 by lia. change (2 ^ 1) with 2.
        rewrite Nat2Z.inj_succ, Z.pow_succ_r in Hm by lia. divlia.
      * destruct (Z.testbit m 0); simpl; lia.
      * destruct (Z.testbit m 0); simpl; lia.
Qed.

Definition prefix_bits (r : net_route) : Z := bit_count 32 (netmask r).

Definition route_matches (dst : Z) (r : net_route) : Prop :=
  route_valid r <> 0 /\ dst &&& netmask r = network r.

(** [r] at index [i] is preferred to the route [r'] at index [j]. *)
Definition preferred (i : nat) (r : net_route) (j : nat) (r' : net_route) : Prop :=
  prefix_bits r' < prefix_bits r \/
  prefix_bits r' = prefix_bits r /\ (metric r < metric r' \/ metric r = metric r' /\ (i <= j)%nat).

(** The loop of [net_route_lookup] has [best] as the best of the first [j]. *)
Definition best_of (table : list net_route) (dst j best bits : Z) : Prop :=
  (best = 16 /\ bits = 0 /\
     forall i r, Z.of_nat i < j -> table !! i = Some r -> ~ route_matches dst r) \/
  (exists r, 0 <= best < j /\ table !! Z.to_nat best = Some r /\ route_matches dst r /\
     bits = prefix_bits r /\
     forall i r', Z.of_nat i < j -> table !! i = Some r' -> route_matches dst r' ->
       preferred (Z.to_nat best) r i r').

Lemma route_step_spec table dst j best bits :
  length table = 16%nat -> Forall (fun r => fits 32 (netmask r)) table -> 0 <= j < 16 ->
  best_of table dst j best bits ->
  exists st, route_step table dst j (best, bits) = Some st /\ best_of table dst (j + 1) (fst st) (snd st).
Proof.
  intros Hl Hm Hj Hbest. unfold route_step, or_else.
  destruct (rd_ok table j) as [r Hr]; [lia|]. rewrite Hr, bind_some.
  apply rd_Some in Hr as [_ Hr]. pose proof (Forall_lookup_1 _ _ _ _ Hm Hr) as Hmr.
  assert (forall i, Z.of_nat i < j + 1 -> Z.of_nat i < j \/ i = Z.to_nat j) as Hsplit by lia.
  assert (best_of table dst j best bits -> ~ route_matches dst r -> best_of table dst (j + 1) best bits) as Hskip.
  { intros [(-> & -> & Hno)|(b & Hb & Hbr & Hbm & -> & Hall)] Hnm.
    - left. split; [done|]. split; [done|]. intros i y [Hi| ->]%Hsplit Hy; [by eapply Hno|]. congruence.
    - right. exists b. split; [lia|]. split; [done|]. split; [done|]. split; [done|].
      intros i y [Hi| ->]%Hsplit Hy Hym; [by apply Hall|]. congruence. }
  destruct (Z.eqb_spec (route_valid r) 0) as [Ev|Ev]; cbn [orb].
  { eexists. split; [reflexivity|]. apply Hskip; [done|]. by intros [? _]. }
  destruct (Z.eqb_spec (dst &&& netmask r) (network r)) as [En|En]; cbn [negb].
  2: { eexists. split; [reflexivity|]. apply Hskip; [done|]. by intros [_ ?]. }
  rewrite mask_bits_spec, bind_some by done. fold (prefix_bits r). unfold NET_ROUTE_MAX.
  assert ((forall i y, Z.of_nat i < j -> table !! i = Some y -> route_matches dst y ->
             prefix_bits y < prefix_bits r \/ prefix_bits y = prefix_bits r /\ metric r < metric y) ->
          best_of table dst (j + 1) j (prefix_bits r)) as Htake.
  { intros H. right. exists r. split; [lia|]. split; [done|]. split; [done|]. split; [done|].
    intros i y [Hi| ->]%Hsplit Hy Hym.
    - destruct (H i y Hi Hy Hym) as [?|[? ?]]; [by left|right]. split; [done|]. by left.
    - simplify_eq. right. split; [done|]. by right. }
  destruct Hbest as [(-> & -> & Hno)|(b & Hb & Hbr & Hbm & -> & Hall)].
  { cbn. eexists. split; [reflexivity|]. simpl. apply Htake. intros i y Hi Hy Hym.
    by destruct (Hno i y). }
  rewrite (proj2 (Z.eqb_neq best 16)) by lia. cbn [orb]. rewrite !bind_some.
  destruct (Z.ltb_spec (prefix_bits b) (prefix_bits r)).
  { rewrite bind_some. eexists. split; [reflexivity|]. simpl. apply Htake. intros i y Hi Hy Hym. left.
    destruct (Hall i y Hi Hy Hym) as [?|[? _]]; lia. }
  assert (best_of table dst (j + 1) best (prefix_bits b) <-> preferred (Z.to_nat best) b (Z.to_nat j) r) as Hkeep.
  { split.
    - intros [(? & _)|(b' & Hb' & Hbr' & _ & _ & H')]; [lia|]. simplify_eq. apply H'; [lia|done|done].
    - intros Hp. right. exists b. split; [lia|]. split; [done|]. split; [done|]. split; [done|].
      intros i y [Hi| ->]%Hsplit Hy Hym; [by apply Hall|]. by simplify_eq. }
  destruct (Z.eqb_spec (prefix_bits r) (prefix_bits b)) as [Eb|Eb].
  - unfold rd. rewrite (proj2 (Z.ltb_ge best 0)) by lia. rewrite Hbr, bind_some.
    destruct (Z.ltb_spec (metric r) (metric b)); rewrite bind_some; eexists; (split; [reflexivity|]); simpl.
    + apply Htake. intros i y Hi Hy Hym. destruct (Hall i y Hi Hy Hym) as [?|[? [?|[? _]]]]; [left|right..]; lia.
    + apply Hkeep. right. split; [done|]. destruct (Z.eq_dec (metric b) (metric r)); [right|left]; lia.
  - rewrite bind_some. eexists. split; [reflexivity|]. simpl. apply Hkeep. left. lia.
Qed.

Lemma route_lookup_best s dst out :
  length (routes s) = 16%nat -> Forall (fun r => fits 32 (netmask r)) (routes s) ->
  (net_route_lookup s dst (Some out) = Some (Some out, -1) /\
     forall i r, routes s !! i = Some r -> ~ route_matches dst r) \/
  (exists i r, net_route_lookup s dst (Some out) = Some (Some r, 0) /\
     routes s !! i = Some r /\ route_matches dst r /\
     forall j r', routes s !! j = Some r' -> route_matches dst r' -> preferred i r j r').
Proof.
  intros Hl Hm. unfold net_route_lookup, NET_ROUTE_MAX.
  destruct (for_loop_rule (fun j st => best_of (routes s) dst j (fst st) (snd st)) (Z.to_nat 16) 0
              (route_step (routes s) dst) (16, 0)) as ([best bits] & -> & H).
  - left. split; [done|]. split; [done|]. lia.
  - intros j [best bits] Hj Hb. by apply route_step_spec; [done|done|lia|].
  - rewrite bind_some. simpl in H.
    assert (forall i r, routes s !! i = Some r -> Z.of_nat i < 16) as Hlt
      by (intros i r ?%lookup_lt_Some; lia).
    destruct H as [(-> & _ & Hno)|(r & Hb & Hr & Hmr & _ & Hall)].
    + left. split; [done|]. eauto.
    + right. exists (Z.to_nat best), r. rewrite (proj2 (Z.eqb_neq best 16)) by lia. cbn [is_null orb].
      unfold rd. rewrite (proj2 (Z.ltb_ge best 0)), Hr, bind_some by lia. eauto 10.
Qed.

(** C28: Route lookup by the most specific mask.  [net_route_lookup] fails
    exactly when no valid route contains the destination; else it returns a valid route that contains
    it, and among those one whose mask has the most bits set (the prefix length,
    when the mask is contiguous), of those one with the least metric, and of
    those the first. *)
Theorem net_route_lookup_best s dst out :
  length (routes s) = 16%nat -> Forall (fun r => fits 32 (netmask r)) (routes s) ->
  (net_route_lookup s dst (Some out) = Some (Some out, -1) /\
     forall i r, routes s !! i = Some r -> ~ route_matches dst r) \/
  (exists i r, net_route_lookup s dst (Some out) = Some (Some r, 0) /\
     routes s !! i = Some r /\ route_matches dst r /\
     forall j r', routes s !! j = Some r' -> route_matches dst r' -> preferred i r j r').
Proof. apply route_lookup_best. Qed.

(** A default route, two routes to 10.0.0.0/8 and one to 10.1.0.0/16. *)
Definition sample_route (net mask gw m : Z) : net_route :=
  {| route_valid := 1; network := net; netmask := mask; gateway := gw; metric := m; interface_id := 1 |}.
Definition sample_routes : net :=
  {| arp_cache := [];
     routes := [sample_route 0 0 1 5; sample_route 0x0a000000 0xff000000 2 9; sample_route 0x0a000000 0xff000000 3 4;
                sample_route 0x0a010000 0xffff0000 4 7] ++ replicate 12 (sample_route 0xc0a80000 0xffff0000 5 1) |}.

Lemma net_route_lookup_best_witness :
  exists i r, net_route_lookup sample_routes 0x0a020304 (Some (sample_route 0 0 0 0)) = Some (Some r, 0) /\ gateway r = 3 /\
    routes sample_routes !! i = Some r /\
    forall j r', routes sample_routes !! j = Some r' -> route_matches 0x0a020304 r' -> preferred i r j r'.
Proof.
  destruct (net_route_lookup_best sample_routes 0x0a020304 (sample_route 0 0 0 0)) as [[_ H]|(i & r & H & Hr & _ & Hp)].
  - reflexivity.
  - repeat (apply Forall_cons; split; [by split|]). apply Forall_nil. exact I.
  - destruct (H 0%nat (sample_route 0 0 1 5)); [reflexivity|split; [done|reflexivity]].
  - exists i, r. split; [exact H|]. split; [|split; [exact Hr|exact Hp]]. vm_compute in H. injection H as <-. reflexivity.
Defined.

Definition clear_route (r : net_route) : net_route :=
  {| route_valid := 0; network := network r; netmask := netmask r; gateway := gateway r;
     metric := metric r; interface_id := interface_id r |}.

Lemma route_init_spec s :
  length (routes s) = 16%nat -> net_route_init s = Some (with_routes s (clear_route <$> routes s)).
Proof.
  intros Hl. unfold net_route_init. rewrite (map_loop clear_route), bind_some; [done|done|].
  intros i l x Hi Hx. unfold rd, wr. pose proof (lookup_lt_Some _ _ _ Hx).
  rewrite (proj2 (Z.ltb_ge i 0)), Hx, bind_some, (proj2 (Z.leb_gt _ i)) by lia. done.
Qed.

(** A route without host bits goes into the first free slot. *)
Lemma route_add_spec s net' mask gw metr iface i r :
  length (routes s) = 16%nat -> net' &&& compl 32 mask = 0 ->
  routes s !! i = Some r -> route_valid r = 0 ->
  (forall j x, (j < i)%nat -> routes s !! j = Some x -> route_valid x <> 0) ->
  net_route_add s net' mask gw metr iface =
    Some (with_routes s (<[i := {| route_valid := 1; network := net'; netmask := mask; gateway := gw;
                                   metric := metr; interface_id := iface |}]> (routes s)), 0).
Proof.
  intros Hl Hnet Hi Hr Hall. unfold net_route_add. rewrite Hnet. cbn [Z.eqb negb].
  pose proof (lookup_lt_Some _ _ _ Hi) as Hlt. unfold NET_ROUTE_MAX.
  match goal with |- _ = Some ?v => set (result := v) end.
  match goal with |- context [for_break _ _ ?loop_body ?start] =>
    destruct (for_break_rule (fun j (_ : unit) => j <= Z.of_nat i) (fun v => v = result) (Z.to_nat 16) 0
                loop_body start) as [([] & -> & HP)|(v & -> & ->)] end.
  - lia.
  - intros j [] Hj Hji. destruct (rd_ok (routes s) j) as [x Hx]; [lia|]. rewrite Hx, bind_some.
    apply rd_Some in Hx as [_ Hx].
    destruct (decide (Z.to_nat j = i)) as [<-|Hne].
    + right. simplify_eq. rewrite Hr. cbn [Z.eqb]. rewrite wr_ok, bind_some by lia. by eexists.
    + left. rewrite (proj2 (Z.eqb_neq (route_valid x) 0)) by (apply (Hall (Z.to_nat j)); [lia|done]).
      exists tt. split; [done|lia].
  - lia.
  - done.
Qed.

Lemma mac_equal_refl m : mac_ok m -> mac_equal m m = Some 1.
Proof.
  intros [Hl _]. unfold mac_equal.
  match goal with |- context [for_break _ _ ?loop_body ?start] =>
    destruct (for_break_rule (fun _ (_ : unit) => True) (fun _ : Z => False) 6 0 loop_body start)
      as [([] & -> & _)|(v & _ & [])] end; [done| |done].
  intros j [] Hj _. left. destruct (rd_ok (bytes m) j) as [x ->]; [lia|]. rewrite !bind_some, Z.eqb_refl.
  by exists tt.
Qed.

(** Run the model up to the next call. *)
Ltac run :=
  cbn [Z.eqb Pos.eqb negb orb operation sender_ip sender_mac source_port destination_port udp_payload_size];
  repeat (rewrite bind_some;
    cbn [Z.eqb Pos.eqb negb orb operation sender_ip sender_mac source_port destination_port udp_payload_size]).

(** The part of the self test on the cache. *)
Lemma self_test_cache s a m out :
  length (arp_cache s) = 32%nat -> fits 32 a -> a <> 0 ->
  exists s0 s1 s2 s3,
    net_arp_cache_init s = Some s0 /\
    net_arp_cache_update s0 a (Some m) 100 = Some (s1, 0) /\
    net_arp_cache_lookup s1 a 99 (Some out) = Some (s2, Some m, 0) /\
    net_arp_cache_lookup s2 a 100 (Some m) = Some (s3, Some m, -1) /\
    routes s3 = routes s.
Proof.
  intros Hl Ha Ha0. destruct (init_refines s Hl) as (s0 & -> & Hi0 & E0 & Hrs). rewrite <- Hrs. exists s0.
  destruct (update_refines s0 a m 100 Hi0 Ha) as (s1 & r & Hu & Hi1 & Hs1). rewrite E0 in Hs1.
  assert (r = 0 /\ arp_map (arp_cache s1) = {[a := (m, 100)]}) as [-> E1].
  { inversion Hs1; subst; [lia|by rewrite <- insert_empty|]. by rewrite map_size_empty in *. }
  destruct (lookup_refines s1 a 99 out Hi1) as (s2 & m2 & r2 & Hl2 & Hi2 & Hs2). rewrite E1 in Hs2.
  assert (r2 = 0 /\ m2 = Some m /\ arp_map (arp_cache s2) = {[a := (m, 100)]}) as (-> & -> & E2).
  { inversion Hs2 as [| | | | |a' now' out' m' e' Hm He|a' now' out' m' e' Hm He|a' now' out' Hm]; subst;
      rewrite lookup_singleton_eq in Hm; simplify_eq; (done || lia). }
  destruct (lookup_refines s2 a 100 m Hi2) as (s3 & m3 & r3 & Hl3 & Hi3 & Hs3). rewrite E2 in Hs3.
  assert (r3 = -1 /\ m3 = Some m) as (-> & ->).
  { inversion Hs3 as [| | | | |a' now' out' m' e' Hm He|a' now' out' m' e' Hm He|a' now' out' Hm]; subst;
      rewrite lookup_singleton_eq in Hm; simplify_eq; (done || lia). }
  exists s1, s2, s3. do 4 (split; [done|]).
  rewrite (lookup_routes _ _ _ _ _ _ _ Hl3), (lookup_routes _ _ _ _ _ _ _ Hl2).
  by rewrite (update_routes _ _ _ _ _ _ Hu).
Qed.

(** A table whose only valid routes are the first two. *)
Lemma lookup_of_two s r0 r1 rest dst out :
  routes s = r0 :: r1 :: rest -> length rest = 14%nat -> Forall (fun r => route_valid r = 0) rest ->
  Forall (fun r => fits 32 (netmask r)) (routes s) ->
  route_matches dst r0 ->
  net_route_lookup s dst (Some out) =
    Some (Some (if decide (route_matches dst r1 /\ prefix_bits r0 < prefix_bits r1) then r1 else r0), 0) \/
  prefix_bits r1 = prefix_bits r0.
Proof.
  intros Hs Hlen Hrest Hf H0.
  destruct (route_lookup_best s dst out) as [[_ Hno]|(i & r & Hl & Hi & Hm & Hall)];
    [rewrite Hs; simpl; lia|done| |].
  { destruct (Hno 0%nat r0); [by rewrite Hs|done]. }
  destruct (Z.eq_dec (prefix_bits r1) (prefix_bits r0)) as [|Hne]; [by right|left]. rewrite Hl.
  pose proof (Hall 0%nat r0 ltac:(by rewrite Hs) H0) as Hp0.
  rewrite Hs in Hi. destruct i as [|[|i]]; simpl in Hi; simplify_eq.
  - rewrite decide_False; [done|]. intros [H1 Hlt].
    destruct (Hall 1%nat r1 ltac:(by rewrite Hs) H1) as [?|[? _]]; lia.
  - rewrite decide_True; [done|]. split; [done|]. destruct Hp0 as [?|[? _]]; lia.
  - destruct Hm as [Hv _]. by rewrite (Forall_lookup_1 _ _ _ _ Hrest Hi) in Hv.
Qed.

Lemma self_test_routes s out :
  length (routes s) = 16%nat -> Forall (fun r => fits 32 (netmask r)) (routes s) ->
  exists s1 s2 s3 r1 r2,
    net_route_init s = Some s1 /\
    net_route_add s1 0 0 3232235777 100 1 = Some (s2, 0) /\
    net_route_add s2 3232235776 4294967040 0 10 2 = Some (s3, 0) /\
    net_route_lookup s3 3232235844 (Some out) = Some (Some r1, 0) /\ interface_id r1 = 2 /\
    net_route_lookup s3 134744072 (Some r1) = Some (Some r2, 0) /\ gateway r2 = 3232235777.
Proof.
  intros Hl Hf. rewrite route_init_spec by done.
  destruct (routes s) as [|x0 [|x1 rest]] eqn:Hs; [done|done|]. simpl in Hl.
  eexists _, _, _, _, _. split; [reflexivity|].
  split; [apply (route_add_spec _ _ _ _ _ _ 0 (clear_route x0)); try done;
          [by simpl; rewrite length_fmap; lia|intros; lia]|].
  split; [apply (route_add_spec _ _ _ _ _ _ 1 (clear_route x1)); try done|].
  { by simpl; rewrite length_fmap; lia. }
  { intros j x Hj. by destruct j; [intros [= <-]|lia]. }
  simpl insert.
  match goal with |- net_route_lookup ?s3 _ _ = _ /\ _ => set (s3' := s3) end.
  assert (length (clear_route <$> rest) = 14%nat) as H14 by (rewrite length_fmap; lia).
  assert (Forall (fun r => route_valid r = 0) (clear_route <$> rest)) as Hdead
    by (by apply Forall_fmap, Forall_true).
  assert (Forall (fun r => fits 32 (netmask r)) (routes s3')) as Hf'.
  { apply Forall_cons in Hf as [_ [_ Hf]%Forall_cons]. repeat (apply Forall_cons; split); [done..|].
    apply Forall_fmap. eapply Forall_impl; [exact Hf|]. done. }
  pose proof (fun dst out => lookup_of_two s3' _ _ _ dst out eq_refl H14 Hdead Hf') as Hlook.
  destruct (Hlook 3232235844 out) as [->|E]; [done| |by vm_compute in E].
  rewrite decide_True by (split; [split|]; done). split; [reflexivity|]. split; [done|].
  match goal with |- net_route_lookup _ _ (Some ?o) = _ /\ _ =>
    destruct (Hlook 134744072 o) as [->|E]; [done| |by vm_compute in E] end.
  rewrite decide_False by (intros [[_ E] _]; done). split; [reflexivity|done].
Qed.

(** The part of the self test that damages one bit of the header checksum. *)
Lemma self_test_damage packet old x :
  all_bytes packet -> (32 <= length packet)%nat -> ipv4_ok packet 0 32 ->
  ipv4_header_length packet 0 = 20 -> rd packet 10 = Some x ->
  exists packet', wr packet 10 (x ^^^ 1) = Some packet' /\
    net_ipv4_parse (Some (packet', 0)) 32 (Some old) = Some (Some old, -1) /\
    rd packet' 10 = Some (x ^^^ 1) /\ is_Some (wr packet' 10 ((x ^^^ 1) ^^^ 1)).
Proof.
  intros Hb Hl Hok Hhl Hx. pose proof (rd_byte _ _ _ Hb Hx) as Hxf.
  assert (wr packet 10 (x ^^^ 1) = Some (<[10%nat := x ^^^ 1]> packet)) as Hw by (apply wr_ok; lia).
  eexists. split; [exact Hw|]. split; [|split].
  - apply (ipv4_damaged packet 0 32 old 10 (x ^^^ 1)); [done|unfold room; lia| |done|lia| |exact Hw].
    + apply lxor_fits; [done|done|done].
    + change (0 + 10) with 10. rewrite Hx. intros [= E].
      assert (x ^^^ (x ^^^ 1) = 1) as E' by (by rewrite <- Z.lxor_assoc, Z.lxor_nilpotent).
      rewrite <- E, Z.lxor_nilpotent in E'. done.
  - by rewrite (rd_wr _ _ 10 _ _ Hw).
  - eexists. apply wr_ok. rewrite length_insert. lia.
Qed.

(** The datagram and the message that the self test builds. *)
Lemma self_test_udp data udp :
  length data = 128%nat -> all_bytes data ->
  exists data', net_udp_build (Some (data, 32)) (128 - 32) 3232235786 3232235777 1234 4321
                  (Some ([109; 118; 104; 33], 0)) 4 = Some (data', 12) /\
    length data' = 128%nat /\ all_bytes data' /\
    net_udp_parse (Some (data', 32)) 12 (Some udp) =
      Some (Some {| source_port := 1234; destination_port := 4321; udp_payload := 40;
                    udp_payload_size := 4 |}, 0).
Proof.
  intros Hl Hb. assert (all_bytes [109; 118; 104; 33]) as Hpay
    by (repeat (apply Forall_cons; split); done).
  rewrite udp_build_image by (done || unfold room; simpl length; lia).
  eexists. split; [reflexivity|]. split; [|split].
  - rewrite length_splice; [done|]. unfold room. simpl. lia.
  - apply all_bytes_splice; [done|]. apply Forall_app. split; [apply udp_header_bytes|done].
  - rewrite udp_image_parse by (done || unfold room; lia). done.
Qed.

Lemma self_test_ipv4 data old :
  length data = 128%nat -> all_bytes data ->
  exists data' h, net_ipv4_build (Some (data, 0)) 128 3232235786 3232235777 NET_PROTOCOL_UDP 64 7
                    (Some (data, 32)) 12 = Some (data', 32) /\
    length data' = 128%nat /\ all_bytes data' /\ ipv4_ok data' 0 32 /\
    net_ipv4_parse (Some (data', 0)) 32 (Some old) = Some (Some h, 0) /\
    ipv4_header_length data' 0 = 20 /\ protocol h = 17 /\ payload_size h = 12.
Proof.
  intros Hl Hb. pose proof (length_slice data 32 12 ltac:(unfold room; lia)) as Hps.
  pose proof (all_bytes_slice data 32 12 Hb) as Hpb. unfold NET_PROTOCOL_UDP.
  rewrite ipv4_build_image by (done || (split; done || unfold room; lia) || unfold room; lia).
  change (20 + 12) with 32. change (payload_bytes (Some (data, 32)) 12) with (slice data 32 12).
  destruct (ipv4_image_parse data 0 3232235786 3232235777 17 64 7 (slice data 32 12) 12 old 32)
    as [Hok Hparse]; [first [exact Hb | exact Hpb | exact Hps | unfold room; lia | warith]..|].
  change (20 + 12) with 32 in *.
  set (h := ipv4_header _ _ _ _ _ _ _) in *.
  assert (room data 0 (Z.of_nat (length (h ++ slice data 32 12)))) as Hw.
  { rewrite length_app, Hps. change (length h) with 20%nat. unfold room. lia. }
  eexists _, _. split; [reflexivity|]. split; [by rewrite length_splice|].
  split; [|split; [exact Hok|split; [exact Hparse|split; [|split; reflexivity]]]].
  - apply all_bytes_splice; [exact Hb|]. apply Forall_app.
    split; [apply ipv4_header_bytes; warith|exact Hpb].
  - unfold ipv4_header_length. rewrite byte_first by (done || rewrite length_app, Hps; lia). done.
Qed.

(** The self test of the network stack passes, whatever the state of the
    tables and whatever its stack buffers hold: the ARP, UDP and IPv4 messages
    it builds are parsed back, the damaged header is refused, the cache entry
    is found before and not after it expires, and the two routes are chosen by
    prefix length. *)
Theorem net_self_test_passes s packet result_mac arp ipv4 udp route :
  length (arp_cache s) = 32%nat -> length (routes s) = 16%nat ->
  Forall (fun r => fits 32 (netmask r)) (routes s) ->
  length packet = 128%nat -> all_bytes packet -> mac_ok (sender_mac arp) -> mac_ok (target_mac arp) ->
  exists s', net_self_test s packet result_mac arp ipv4 udp route = Some (s', 0).
Proof.
  intros Hc Hr Hf Hpl Hpb Hm1 Hm2. unfold net_self_test.
  set (a := {| bytes := [2; 0; 0; 0; 0; 1] |}). set (b := {| bytes := [2; 0; 0; 0; 0; 2] |}).
  assert (mac_ok a /\ mac_ok b) as [Ha Hb] by (repeat split; repeat (apply Forall_cons; split); done).
  destruct (net_arp_build_parse packet 0 128 1 a 3232235786 b 3232235777 arp)
    as (p1 & -> & Hl1 & Hb1 & _ & Hparse); [done|unfold room; lia|done|by left|done..|].
  change NET_ARP_PACKET_SIZE with 28. run. rewrite Hparse by (done || unfold room; lia). run.
  unfold or_else. run. rewrite mac_equal_refl by done. run.
  destruct (self_test_udp p1 udp) as (p2 & -> & Hl2 & Hb2 & Hudp); [lia|done|].
  run. change (u32 12) with 12. rewrite Hudp. run.
  destruct (self_test_ipv4 p2 ipv4) as (p3 & h & -> & Hl3 & Hb3 & Hok & Hip & Hhl & Hproto & Hsize); [done..|].
  run. change (u32 32) with 32. rewrite Hip. run. rewrite Hproto, Hsize. unfold NET_PROTOCOL_UDP. run.
  destruct (rd_ok p3 10) as [x Hx]; [lia|]. rewrite Hx. run.
  destruct (self_test_damage p3 h x) as (p4 & -> & Hbad & Hx' & [p5 Hw5]); [done|lia|done..|].
  run. rewrite Hbad. run. rewrite Hx'. run. rewrite Hw5. run.
  destruct (self_test_cache s 3232235777 b result_mac)
    as (s0 & s1 & s2 & s3 & Hi & Hu & Hl4 & Hl5 & Hrs); [done..|].
  rewrite Hi. run. rewrite Hu. run. rewrite Hl4. run. rewrite mac_equal_refl by done. run. rewrite Hl5. run.
  destruct (self_test_routes s3 route) as (s4 & s5 & s6 & r1 & r2 & Hi' & Ha1 & Ha2 & Hk1 & Hif & Hk2 & Hgw);
    [by rewrite Hrs..|].
  rewrite Hi'. run. rewrite Ha1. run. rewrite Ha2. run. rewrite Hk1. run. rewrite Hif. run. rewrite Hk2. run.
  rewrite Hgw. run. by eexists.
Qed.

Lemma net_self_test_passes_witness :
  let m := {| bytes := [2; 0; 0; 0; 0; 1] |} in
  let e := {| entry_valid := 1; address := 5; mac := m; expires_at := 9 |} in
  let r := {| route_valid := 1; network := 0; netmask := 0; gateway := 1; metric := 5; interface_id := 1 |} in
  let s := {| arp_cache := replicate 32 e; routes := replicate 16 r |} in
  exists s', net_self_test s (replicate 128 255) m
    {| operation := 0; sender_mac := m; sender_ip := 0; target_mac := m; target_ip := 0 |}
    {| header_size := 0; dscp_ecn := 0; total_size := 0; identification := 0; fragment := 0; ttl := 0;
       protocol := 0; source := 0; destination := 0; payload := 0; payload_size := 0 |}
    {| source_port := 0; destination_port := 0; udp_payload := 0; udp_payload_size := 0 |} r = Some (s', 0).
Proof.
  intros m e r s.
  apply (net_self_test_passes s (replicate 128 255) m);
    [reflexivity|reflexivity|by apply Forall_replicate|reflexivity|by apply Forall_replicate|..];
    (split; [reflexivity|bytes_tac]).
Defined.
