(* ===== verification/Task.v ===== *)
(** * The scheduler: src/task/task.c

    The task table, the per-CPU current task and round-robin cursor, the
    statistics, and the operations on them.  Stacks come from the page allocator
    of Pmm.v, whose state is part of the state here.  Every critical section on
    [scheduler_lock] is one function; [task_sleep_until] is two of them, one
    after the other.  The identity of the executing CPU (what
    [smp_current_cpu] returns) is an argument, and so is the address of
    [task_bootstrap].  [task_yield] returns the pair of tasks it switches
    between; the switch itself is the assembly of task_context.S. *)

From Stdlib Require Import String.
From S2P Require Import Prelude Pmm.

#[local] Open Scope Z_scope.

Definition TASK_MAX : Z := 64.
Definition TASK_NAME_MAX : Z := 24.
Definition TASK_STACK_PAGES : Z := 4.
Definition TASK_NO_CURRENT : Z := 4294967295.
Definition SMP_MAX_CPUS : Z := 64.

(** ** Data *)

Inductive task_state :=
  | TASK_UNUSED | TASK_RUNNING | TASK_READY | TASK_SLEEPING
  | TASK_BLOCKED | TASK_STOPPED | TASK_ZOMBIE.

#[global] Instance task_state_eq_dec : EqDecision task_state.
Proof. solve_decision. Defined.

Record task_info : Type := {
  pid : Z;
  tid : Z;
  cpu_id : Z;
  priority : Z;
  state : task_state;
  affinity : Z;
  created_tick : Z;
  runtime_ticks : Z;
  wake_tick : Z;
  task_switches : Z;
  name : list Z;
}.

Record task_context : Type := {
  rsp : Z;
  rbx : Z; rbp : Z; r12 : Z; r13 : Z; r14 : Z; r15 : Z;
}.

Record task_control : Type := {
  info : task_info;
  context : task_context;
  entry : Z;
  argument : Z;
  stack_base : Z;
  stack_pages : Z;
}.

Record scheduler_stats : Type := {
  context_switches : Z;
  yields : Z;
  created : Z;
  reaped : Z;
  running : Z;
  ready : Z;
  sleeping : Z;
  blocked : Z;
  zombies : Z;
}.

(** The static variables, the page allocator, and the 64-bit words written on
    new stacks. *)
Record sched : Type := {
  tasks : list task_control;
  current_task : list Z;
  next_pid : Z;
  round_robin_cursor : list Z;
  stats : scheduler_stats;
  pages : pmm;
  words : gmap Z Z;
}.

(** What [clear_bytes] makes of the structs. *)
Definition zero_info : task_info :=
  {| pid := 0; tid := 0; cpu_id := 0; priority := 0; state := TASK_UNUSED; affinity := 0;
     created_tick := 0; runtime_ticks := 0; wake_tick := 0; task_switches := 0;
     name := replicate (Z.to_nat TASK_NAME_MAX) 0 |}.

Definition zero_context : task_context :=
  {| rsp := 0; rbx := 0; rbp := 0; r12 := 0; r13 := 0; r14 := 0; r15 := 0 |}.

Definition zero_task : task_control :=
  {| info := zero_info; context := zero_context; entry := 0; argument := 0;
     stack_base := 0; stack_pages := 0 |}.

Definition zero_stats : scheduler_stats :=
  {| context_switches := 0; yields := 0; created := 0; reaped := 0; running := 0; ready := 0;
     sleeping := 0; blocked := 0; zombies := 0 |}.

(** *** Field updates *)

Definition with_tasks (k : sched) (ts : list task_control) : sched :=
  {| tasks := ts; current_task := current_task k; next_pid := next_pid k;
     round_robin_cursor := round_robin_cursor k; stats := stats k; pages := pages k;
     words := words k |}.

Definition with_stats (k : sched) (st : scheduler_stats) : sched :=
  {| tasks := tasks k; current_task := current_task k; next_pid := next_pid k;
     round_robin_cursor := round_robin_cursor k; stats := st; pages := pages k;
     words := words k |}.

Definition with_pages (k : sched) (p : pmm) : sched :=
  {| tasks := tasks k; current_task := current_task k; next_pid := next_pid k;
     round_robin_cursor := round_robin_cursor k; stats := stats k; pages := p;
     words := words k |}.

Definition with_current (k : sched) (current cursor : list Z) : sched :=
  {| tasks := tasks k; current_task := current; next_pid := next_pid k;
     round_robin_cursor := cursor; stats := stats k; pages := pages k; words := words k |}.

Definition with_info (t : task_control) (i : task_info) : task_control :=
  {| info := i; context := context t; entry := entry t; argument := argument t;
     stack_base := stack_base t; stack_pages := stack_pages t |}.

(** The five counters change by the given amounts, in 32 bits. *)
Definition count (st : scheduler_stats) (dr dy ds db dz : Z) : scheduler_stats :=
  {| context_switches := context_switches st; yields := yields st; created := created st;
     reaped := reaped st; running := u32 (running st + dr); ready := u32 (ready st + dy);
     sleeping := u32 (sleeping st + ds); blocked := u32 (blocked st + db);
     zombies := u32 (zombies st + dz) |}.

Definition with_state (i : task_info) (s : task_state) : task_info :=
  {| pid := pid i; tid := tid i; cpu_id := cpu_id i; priority := priority i; state := s;
     affinity := affinity i; created_tick := created_tick i; runtime_ticks := runtime_ticks i;
     wake_tick := wake_tick i; task_switches := task_switches i; name := name i |}.

Definition set_state (t : task_control) (s : task_state) : task_control :=
  with_info t (with_state (info t) s).

Definition is_state (t : task_control) (s : task_state) : bool := bool_decide (state (info t) = s).

(** ** Helpers *)

(** The while loop ends by the bound on [index] at the latest. *)
Definition copy_name (target source : list Z) : option (list Z) :=
  '(target, index) ← while_loop (Z.to_nat TASK_NAME_MAX)
    (fun '(target, index) =>
       c ← rd source index;
       if negb (c =? 0) && (index + 1 <? TASK_NAME_MAX) then
         target ← wr target index c; Some (inl (target, index + 1))
       else Some (inr (target, index)))
    (target, 0);
  wr target index 0.

(** [cpu] is the logical id of the executing CPU, [None] before SMP is set up. *)
Definition local_cpu_id (cpu : option Z) : Z :=
  match cpu with Some id => if id <? SMP_MAX_CPUS then id else 0 | None => 0 end.

Definition index_by_pid (k : sched) (pid' : Z) : option Z :=
  r ← for_break (Z.to_nat TASK_MAX) 0
    (fun index (_ : unit) =>
       t ← rd (tasks k) index;
       if negb (is_state t TASK_UNUSED) && (pid (info t) =? pid') then Some (inr index)
       else Some (inl tt)) tt;
  Some (match r with inl _ => -1 | inr index => index end).

(** One iteration of the loop of [choose_next], on [(selected, best_priority)]. *)
Definition choose_step (k : sched) (cpu previous cursor offset : Z) (st : Z * Z) : option (Z * Z) :=
  let '(selected, best_priority) := st in
  let index := u32 (cursor + offset) mod TASK_MAX in
  t ← rd (tasks k) index;
  if is_state t TASK_READY && negb (affinity (info t) &&& u64 (1 << cpu) =? 0) &&
     ((selected =? previous) || (best_priority <? priority (info t)))
  then Some (index, priority (info t)) else Some st.

Definition choose_next (k : sched) (cpu previous : Z) : option Z :=
  cursor ← rd (round_robin_cursor k) cpu;
  '(selected, _) ← for_loop (Z.to_nat TASK_MAX) 1 (choose_step k cpu previous cursor) (previous, 0);
  Some selected.

(** ** Operations *)

Definition task_init (k : sched) (tick : Z) : option sched :=
  let ts := replicate (Z.to_nat TASK_MAX) zero_task in
  current ← for_loop (Z.to_nat SMP_MAX_CPUS) 0
    (fun index current => wr current index TASK_NO_CURRENT) (current_task k);
  cursor ← for_loop (Z.to_nat SMP_MAX_CPUS) 0 (fun index cursor => wr cursor index 0)
    (round_robin_cursor k);
  shell ← copy_name (name zero_info) [107; 101; 114; 110; 101; 108; 45; 115; 104; 101; 108; 108; 0];
  ts ← wr ts 0 (with_info zero_task
    {| pid := 1; tid := 1; cpu_id := 0; priority := 10; state := TASK_RUNNING; affinity := 1;
       created_tick := tick; runtime_ticks := 0; wake_tick := 0; task_switches := 0;
       name := shell |});
  current ← wr current 0 0;
  Some {| tasks := ts; current_task := current; next_pid := 2; round_robin_cursor := cursor;
          stats := {| context_switches := 0; yields := 0; created := 1; reaped := 0; running := 1;
                      ready := 0; sleeping := 0; blocked := 0; zombies := 0 |};
          pages := pages k; words := words k |}.

(** The search for a free slot: [TASK_MAX] when there is none. *)
Definition free_slot (k : sched) : option Z :=
  r ← for_break (Z.to_nat TASK_MAX - 1) 1
    (fun index (_ : unit) =>
       t ← rd (tasks k) index;
       if is_state t TASK_UNUSED then Some (inr index) else Some (inl tt)) tt;
  Some (match r with inl _ => TASK_MAX | inr index => index end).

Definition task_create_kernel (bootstrap : Z) (k : sched) (name' : option (list Z))
    (entry' argument' priority' affinity' : Z) : option (sched * Z) :=
  match name' with
  | None => Some (k, -1)
  | Some source =>
    c ← rd source 0;
    if (c =? 0) || (entry' =? 0) || (affinity' =? 0) then Some (k, -1) else
    '(p, stack) ← pmm_alloc_pages (pages k) TASK_STACK_PAGES;
    let k := with_pages k p in
    if stack =? 0 then Some (k, -1) else
    index ← free_slot k;
    if index =? TASK_MAX then
      p ← pmm_free_pages (pages k) stack TASK_STACK_PAGES; Some (with_pages k p, -1)
    else
      name'' ← copy_name (name zero_info) source;
      let top := u64 (stack + TASK_STACK_PAGES * 4096 - 16) in
      let t := {| info := {| pid := next_pid k; tid := next_pid k; cpu_id := 4294967295;
                             priority := priority'; state := TASK_READY; affinity := affinity';
                             created_tick := 0; runtime_ticks := 0; wake_tick := 0;
                             task_switches := 0; name := name'' |};
                  context := {| rsp := top; rbx := 0; rbp := 0; r12 := 0; r13 := 0; r14 := 0; r15 := 0 |};
                  entry := entry'; argument := argument'; stack_base := stack;
                  stack_pages := TASK_STACK_PAGES |} in
      ts ← wr (tasks k) index t;
      let st := stats k in
      Some ({| tasks := ts; current_task := current_task k; next_pid := u32 (next_pid k + 1);
               round_robin_cursor := round_robin_cursor k;
               stats := {| context_switches := context_switches st; yields := yields st;
                           created := u64 (created st + 1); reaped := reaped st;
                           running := running st; ready := u32 (ready st + 1);
                           sleeping := sleeping st; blocked := blocked st; zombies := zombies st |};
               pages := pages k; words := <[top := bootstrap]> (words k) |}, i32 (next_pid k))
  end.

(** The switch to [next], up to the release of the lock. *)
Definition switch_to (k : sched) (cpu next : Z) : option sched :=
  t ← rd (tasks k) next;
  let i := info t in
  ts ← wr (tasks k) next (with_info t
    {| pid := pid i; tid := tid i; cpu_id := cpu; priority := priority i; state := TASK_RUNNING;
       affinity := affinity i; created_tick := created_tick i; runtime_ticks := runtime_ticks i;
       wake_tick := wake_tick i; task_switches := u64 (task_switches i + 1); name := name i |});
  let st := stats k in
  current ← wr (current_task k) cpu next;
  cursor ← wr (round_robin_cursor k) cpu next;
  Some (with_current (with_stats (with_tasks k ts)
    {| context_switches := u64 (context_switches st + 1); yields := u64 (yields st + 1);
       created := created st; reaped := reaped st; running := u32 (running st + 1);
       ready := u32 (ready st - 1); sleeping := sleeping st; blocked := blocked st;
       zombies := zombies st |}) current cursor).

(** The result: the state and, when the CPU changes tasks, the two tasks of the
    [task_context_switch] call. *)
Definition task_yield (k : sched) (cpu : option Z) : option (sched * option (Z * Z)) :=
  let cpu := local_cpu_id cpu in
  previous ← rd (current_task k) cpu;
  if previous =? TASK_NO_CURRENT then Some (k, None) else
  t ← rd (tasks k) previous;
  k ← (if is_state t TASK_RUNNING then
         ts ← wr (tasks k) previous (set_state t TASK_READY);
         Some (with_stats (with_tasks k ts) (count (stats k) (-1) 1 0 0 0))
       else Some k);
  next ← choose_next k cpu previous;
  if next =? previous then
    t ← rd (tasks k) previous;
    ts ← wr (tasks k) previous (set_state t TASK_RUNNING);
    Some (with_stats (with_tasks k ts) (count (stats k) 1 (-1) 0 0 0), None)
  else
    k ← switch_to k cpu next;
    Some (k, Some (previous, next)).

(** What [task_bootstrap] does when the entry function of thread [index]
    returns, before it yields for ever. *)
Definition task_exit (k : sched) (index : Z) : option sched :=
  t ← rd (tasks k) index;
  ts ← wr (tasks k) index (set_state t TASK_ZOMBIE);
  Some (with_stats (with_tasks k ts) (count (stats k) (-1) 0 0 0 1)).

Definition with_wake (i : task_info) (tick : Z) : task_info :=
  {| pid := pid i; tid := tid i; cpu_id := cpu_id i; priority := priority i; state := TASK_SLEEPING;
     affinity := affinity i; created_tick := created_tick i; runtime_ticks := runtime_ticks i;
     wake_tick := tick; task_switches := task_switches i; name := name i |}.

(** The critical section of [task_sleep_until]; [None] in the result is the
    early return. *)
Definition sleep_begin (k : sched) (cpu : option Z) (wake_tick' : Z) : option (option sched) :=
  index ← rd (current_task k) (local_cpu_id cpu);
  if index =? TASK_NO_CURRENT then Some None else
  t ← rd (tasks k) index;
  ts ← wr (tasks k) index (with_info t (with_wake (info t) wake_tick'));
  Some (Some (with_stats (with_tasks k ts) (count (stats k) (-1) 0 1 0 0))).

Definition task_sleep_until (k : sched) (cpu : option Z) (wake_tick' : Z)
    : option (sched * option (Z * Z)) :=
  r ← sleep_begin k cpu wake_tick';
  match r with None => Some (k, None) | Some k => task_yield k cpu end.

Definition task_wake (k : sched) (pid' : Z) : option (sched * Z) :=
  index ← index_by_pid k pid';
  if index <? 0 then Some (k, -1) else
  t ← rd (tasks k) index;
  if negb (is_state t TASK_SLEEPING) && negb (is_state t TASK_BLOCKED) then Some (k, -1) else
  ts ← wr (tasks k) index (set_state t TASK_READY);
  let st := if is_state t TASK_SLEEPING then count (stats k) 0 1 (-1) 0 0
            else count (stats k) 0 1 0 (-1) 0 in
  Some (with_stats (with_tasks k ts) st, 0).

Definition task_block (k : sched) (pid' : Z) : option (sched * Z) :=
  index ← index_by_pid k pid';
  if index <? 0 then Some (k, -1) else
  t ← rd (tasks k) index;
  if negb (is_state t TASK_READY) then Some (k, -1) else
  ts ← wr (tasks k) index (set_state t TASK_BLOCKED);
  Some (with_stats (with_tasks k ts) (count (stats k) 0 (-1) 0 1 0), 0).

Definition with_affinity (i : task_info) (a : Z) : task_info :=
  {| pid := pid i; tid := tid i; cpu_id := cpu_id i; priority := priority i; state := state i;
     affinity := a; created_tick := created_tick i; runtime_ticks := runtime_ticks i;
     wake_tick := wake_tick i; task_switches := task_switches i; name := name i |}.

Definition task_set_affinity (k : sched) (pid' affinity' : Z) : option (sched * Z) :=
  if affinity' =? 0 then Some (k, -1) else
  index ← index_by_pid k pid';
  if 0 <=? index then
    t ← rd (tasks k) index;
    ts ← wr (tasks k) index (with_info t (with_affinity (info t) affinity'));
    Some (with_tasks k ts, 0)
  else Some (k, -1).

Definition with_runtime (i : task_info) (n : Z) : task_info :=
  {| pid := pid i; tid := tid i; cpu_id := cpu_id i; priority := priority i; state := state i;
     affinity := affinity i; created_tick := created_tick i; runtime_ticks := n;
     wake_tick := wake_tick i; task_switches := task_switches i; name := name i |}.

(** One iteration of the loop of [task_scheduler_tick]. *)
Definition tick_step (tick index : Z) (k : sched) : option sched :=
  t ← rd (tasks k) index;
  k ← (if is_state t TASK_RUNNING then
         ts ← wr (tasks k) index (with_info t (with_runtime (info t) (u64 (runtime_ticks (info t) + 1))));
         Some (with_tasks k ts)
       else Some k);
  t ← rd (tasks k) index;
  if is_state t TASK_SLEEPING && (wake_tick (info t) <=? tick) then
    ts ← wr (tasks k) index (set_state t TASK_READY);
    Some (with_stats (with_tasks k ts) (count (stats k) 0 1 (-1) 0 0))
  else Some k.

Definition task_scheduler_tick (k : sched) (tick : Z) : option sched :=
  for_loop (Z.to_nat TASK_MAX) 0 (tick_step tick) k.

Definition task_current_pid (k : sched) (cpu : option Z) : option Z :=
  index ← rd (current_task k) (local_cpu_id cpu);
  if negb (index =? TASK_NO_CURRENT) then t ← rd (tasks k) index; Some (pid (info t)) else Some 0.

Definition task_reap (k : sched) (pid' : Z) : option (sched * Z) :=
  index ← index_by_pid k pid';
  if index <? 0 then Some (k, -1) else
  t ← rd (tasks k) index;
  if negb (is_state t TASK_ZOMBIE) then Some (k, -1) else
  ts ← wr (tasks k) index zero_task;
  let st := count (stats k) 0 0 0 0 (-1) in
  let k := with_stats (with_tasks k ts)
    {| context_switches := context_switches st; yields := yields st; created := created st;
       reaped := u64 (reaped st + 1); running := running st; ready := ready st;
       sleeping := sleeping st; blocked := blocked st; zombies := zombies st |} in
  p ← pmm_free_pages (pages k) (stack_base t) (stack_pages t);
  Some (with_pages k p, 0).

Definition task_count (k : sched) : option Z :=
  for_loop (Z.to_nat TASK_MAX) 0
    (fun index n => t ← rd (tasks k) index;
                    Some (if is_state t TASK_UNUSED then n else u32 (n + 1))) 0.

(** The result: the caller's array (empty for null) and the number of entries;
    the loop ends at the last slot or when the array is full. *)
Definition task_list (k : sched) (result : option (list task_info)) (capacity : Z)
    : option (list task_info * Z) :=
  match result with
  | None => Some ([], 0)
  | Some array =>
    if capacity =? 0 then Some (array, 0) else
    r ← for_break (Z.to_nat TASK_MAX) 0
      (fun index '(array, n) =>
         if negb (n <? capacity) then Some (inr (array, n)) else
         t ← rd (tasks k) index;
         if is_state t TASK_UNUSED then Some (inl (array, n))
         else array ← wr array n (info t); Some (inl (array, u32 (n + 1)))) (array, 0);
    Some (match r with inl v => v | inr v => v end)
  end.

Definition task_scheduler_stats (k : sched) (out : option scheduler_stats)
    : option scheduler_stats :=
  match out with None => None | Some _ => Some (stats k) end.

Definition task_state_names : list string :=
  ["UNUSED"; "RUNNING"; "READY"; "SLEEPING"; "BLOCKED"; "STOPPED"; "ZOMBIE"]%string.

(** The enumeration's values are the integers 0 to 6. *)
Definition task_state_name (value : Z) : option string :=
  if value <=? 6 then rd task_state_names value else Some "INVALID"%string.
