(* ===== verification/TaskCorrect.v ===== *)
(** * The scheduler: what Task.v guarantees

    The choice of the next task (the first, in round-robin order, of the ready
    tasks of the highest priority), freedom from starvation, and the invariant of
    the task table over every sequence of operations: one running task, exact
    counters, distinct process ids, and a stack of its own for every thread. *)

From S2P Require Import Prelude Pmm Task.

(** ** Counting tasks by state *)

Definition count_in (s : task_state) (ts : list task_control) : Z :=
  Z.of_nat (length (filter (fun t => state (info t) = s) ts)).

Definition indicator (s : task_state) (t : task_control) : Z :=
  if decide (state (info t) = s) then 1 else 0.

Lemma count_in_cons s t ts : count_in s (t :: ts) = indicator s t + count_in s ts.
Proof. unfold count_in, indicator. rewrite filter_cons. destruct (decide _); cbn [length]; lia. Qed.

Lemma count_in_insert s ts i t t' :
  ts !! i = Some t -> count_in s (<[i := t']> ts) = count_in s ts - indicator s t + indicator s t'.
Proof.
  revert i. induction ts as [|x ts IH]; intros i Hi; [done|]. destruct i as [|i]; simplify_eq/=.
  - rewrite !count_in_cons. lia.
  - rewrite !count_in_cons, (IH i) by done. lia.
Qed.

Lemma count_in_bounds s ts : 0 <= count_in s ts <= Z.of_nat (length ts).
Proof. unfold count_in. pose proof (length_filter (fun t => state (info t) = s) ts). lia. Qed.

Lemma count_in_pos s ts i t : ts !! i = Some t -> state (info t) = s -> 1 <= count_in s ts.
Proof.
  revert i. induction ts as [|x ts IH]; intros i Hi Hs; [done|]. rewrite count_in_cons.
  pose proof (count_in_bounds s ts). destruct i as [|i]; simplify_eq/=.
  - unfold indicator. rewrite decide_True by done. lia.
  - specialize (IH i Hi eq_refl). unfold indicator. destruct (decide _); lia.
Qed.

(** ** The choice of the next task *)

(** A ready task that may run on [cpu]. *)
Definition eligible (ts : list task_control) (cpu i : Z) : Prop :=
  exists t, rd ts i = Some t /\ state (info t) = TASK_READY /\
            affinity (info t) &&& u64 (1 << cpu) <> 0.

Definition priority_of (ts : list task_control) (i : Z) : Z :=
  match rd ts i with Some t => priority (info t) | None => 0 end.

(** The place of [i] in the round-robin order that starts after [previous],
    from 1 to 64. *)
Definition turn (previous i : Z) : Z := (i - previous - 1) mod 64 + 1.

(** [n] is the first of the eligible tasks of the highest priority. *)
Definition best_choice (ts : list task_control) (cpu previous n : Z) : Prop :=
  eligible ts cpu n /\
  forall j, eligible ts cpu j ->
    priority_of ts j < priority_of ts n \/
    (priority_of ts j = priority_of ts n /\ turn previous n <= turn previous j).

Lemma turn_index previous o : 1 <= o <= 64 -> turn previous ((previous + o) mod 64) = o.
Proof.
  intros Ho. unfold turn. rewrite <- Z.sub_add_distr, Zminus_mod_idemp_l.
  replace (previous + o - (previous + 1)) with (o - 1) by lia. rewrite Z.mod_small; lia.
Qed.

Lemma index_turn previous i : 0 <= i < 64 -> (previous + turn previous i) mod 64 = i.
Proof.
  intros Hi. unfold turn.
  replace (previous + ((i - previous - 1) mod 64 + 1)) with ((i - previous - 1) mod 64 + (previous + 1)) by lia.
  rewrite Zplus_mod_idemp_l. replace (i - previous - 1 + (previous + 1)) with i by lia.
  by apply Z.mod_small.
Qed.

Lemma turn_bounds previous i : 1 <= turn previous i <= 64.
Proof. unfold turn. pose proof (Z.mod_pos_bound (i - previous - 1) 64). lia. Qed.

Lemma turn_self previous : turn previous previous = 64.
Proof. unfold turn. replace (previous - previous - 1) with (-1) by lia. done. Qed.

Section choose.
Variables (k : sched) (cpu previous : Z).
Hypothesis Hlen : length (tasks k) = 64%nat.
Hypothesis Hcursor : rd (round_robin_cursor k) cpu = Some previous.
Hypothesis Hprev : 0 <= previous < 64.

(** The best of the first [o - 1] tasks in round-robin order. *)
Definition best_before (o selected best : Z) : Prop :=
  (selected = previous /\ best = 0 /\
     forall j, 0 <= j < 64 -> turn previous j < o -> ~ eligible (tasks k) cpu j) \/
  (0 <= selected < 64 /\ turn previous selected < o /\ eligible (tasks k) cpu selected /\
   best = priority_of (tasks k) selected /\
   forall j, 0 <= j < 64 -> turn previous j < o -> eligible (tasks k) cpu j ->
     priority_of (tasks k) j < best \/
     (priority_of (tasks k) j = best /\ turn previous selected <= turn previous j)).

Lemma choose_step_spec o selected best :
  1 <= o <= 64 -> best_before o selected best ->
  exists st, choose_step k cpu previous previous o (selected, best) = Some st /\
             best_before (o + 1) (fst st) (snd st).
Proof.
  intros Ho Hb. unfold choose_step, TASK_MAX. rewrite u32_small by warith.
  set (i := (previous + o) mod 64). pose proof (turn_index previous o Ho) as Hti. fold i in Hti.
  assert (0 <= i < 64) as Hi by (apply Z.mod_pos_bound; lia).
  destruct (rd_ok (tasks k) i) as [t Ht]; [lia|]. rewrite Ht, bind_some.
  assert (forall j, 0 <= j < 64 -> turn previous j < o + 1 -> turn previous j < o \/ j = i) as Hsplit.
  { intros j Hj Hlt. destruct (Z.eq_dec (turn previous j) o) as [E|]; [right|left; lia].
    unfold i. rewrite <- E. symmetry. by apply index_turn. }
  assert (priority_of (tasks k) i = priority (info t)) as Hpi by (unfold priority_of; by rewrite Ht).
  assert (eligible (tasks k) cpu i <-> is_state t TASK_READY = true /\
            affinity (info t) &&& u64 (1 << cpu) <> 0) as Hel.
  { unfold eligible, is_state. rewrite bool_decide_eq_true. split.
    - intros (t' & Ht' & ? & ?). simplify_eq. done.
    - intros [? ?]. by exists t. }
  assert (~ eligible (tasks k) cpu i -> best_before (o + 1) selected best) as Hskip.
  { intros Hni. destruct Hb as [(? & ? & Hno)|(? & ? & ? & ? & Hall)]; [left|right].
    - split; [done|]. split; [done|]. intros j Hj Hjo; destruct (Hsplit j Hj Hjo) as [Hlt| ->]; [by apply Hno|done].
    - split; [done|]. split; [lia|]. split; [done|]. split; [done|].
      intros j Hj Hjo Hej; destruct (Hsplit j Hj Hjo) as [Hlt| ->]; [by apply Hall|done]. }
  destruct (is_state t TASK_READY) eqn:Es; cbn [andb].
  2: { eexists. split; [reflexivity|]. apply Hskip. by intros []%Hel. }
  destruct (Z.eqb_spec (affinity (info t) &&& u64 (1 << cpu)) 0) as [Ea|Ea]; cbn [negb andb].
  { eexists. split; [reflexivity|]. apply Hskip. by intros []%Hel. }
  assert (eligible (tasks k) cpu i) as Hei by (by apply Hel).
  destruct Hb as [(-> & -> & Hno)|(Hs & Hts & Hes & -> & Hall)].
  - rewrite Z.eqb_refl. cbn [orb]. eexists. split; [reflexivity|]. right. simpl.
    split; [lia|]; split; [lia|]; split; [done|]; split; [done|]. intros j Hj Hjo Hej; destruct (Hsplit j Hj Hjo) as [Hlt| ->]; [by destruct (Hno j)|right; lia].
  - rewrite (proj2 (Z.eqb_neq selected previous)) by (intros ->; rewrite turn_self in Hts; lia).
    cbn [orb]. destruct (Z.ltb_spec (priority_of (tasks k) selected) (priority (info t))).
    + eexists. split; [reflexivity|]. right. simpl. split; [lia|]; split; [lia|]; split; [done|]; split; [done|].
      intros j Hj Hjo Hej; destruct (Hsplit j Hj Hjo) as [Hlt| ->]; [|right; lia]. destruct (Hall j Hj Hlt Hej) as [?|[? _]]; left; lia.
    + eexists. split; [reflexivity|]. right. simpl. split; [lia|]; split; [lia|]; split; [done|]; split; [done|].
      intros j Hj Hjo Hej; destruct (Hsplit j Hj Hjo) as [Hlt| ->]; [by apply Hall|]. rewrite Hpi.
      destruct (Z.eq_dec (priority (info t)) (priority_of (tasks k) selected)); [right|left]; lia.
Qed.

Lemma choose_next_best :
  exists n, choose_next k cpu previous = Some n /\ 0 <= n < 64 /\
    ((n = previous /\ forall j, ~ eligible (tasks k) cpu j) \/ best_choice (tasks k) cpu previous n).
Proof.
  unfold choose_next, TASK_MAX. rewrite Hcursor, bind_some.
  destruct (for_loop_rule (fun o st => best_before o (fst st) (snd st)) (Z.to_nat 64) 1
              (choose_step k cpu previous previous) (previous, 0)) as ([n best] & -> & H).
  - left. split_and!; [done..|]. intros j Hj. pose proof (turn_bounds previous j). lia.
  - intros o [selected best] Ho Hb. by apply choose_step_spec; [lia|].
  - rewrite bind_some. exists n. split; [done|]. simpl in H.
    assert (forall j, eligible (tasks k) cpu j -> 0 <= j < 64 /\ turn previous j < 65) as Hj.
    { intros j (t & Ht & _). apply rd_range in Ht. pose proof (turn_bounds previous j). lia. }
    destruct H as [(-> & _ & Hno)|(Hn & _ & Hen & -> & Hall)].
    + split; [lia|]. left. split; [done|]. intros j He. destruct (Hj j He). by apply (Hno j).
    + split; [lia|]. right. split; [done|]. intros j He. destruct (Hj j He). by apply Hall.
Qed.
End choose.

(** ** The invariant *)

Definition live (t : task_control) : Prop := state (info t) <> TASK_UNUSED.

Definition counts_ok (st : scheduler_stats) (ts : list task_control) : Prop :=
  running st = count_in TASK_RUNNING ts /\ ready st = count_in TASK_READY ts /\
  sleeping st = count_in TASK_SLEEPING ts /\ blocked st = count_in TASK_BLOCKED ts /\
  zombies st = count_in TASK_ZOMBIE ts.

Definition pids_ok (next : Z) (ts : list task_control) : Prop :=
  (forall i t, rd ts i = Some t -> live t -> 1 <= pid (info t) < next) /\
  (forall i j t t', rd ts i = Some t -> rd ts j = Some t' -> live t -> live t' ->
     pid (info t) = pid (info t') -> i = j).

(** The thread [t] has the four pages from [p] as its stack. *)
Definition owns (pm : pmm) (t : task_control) (p : Z) : Prop :=
  stack_base t = p * PAGE_SIZE /\ stack_pages t = TASK_STACK_PAGES /\
  reserved_pages pm <= p /\ p + TASK_STACK_PAGES <= managed_pages pm /\
  forall q, p <= q < p + TASK_STACK_PAGES -> bit (page_bitmap pm) q = true.

Definition stacks_ok (pm : pmm) (ts : list task_control) : Prop :=
  (forall i t, 1 <= i -> rd ts i = Some t -> live t -> exists p, owns pm t p) /\
  (forall i j t t' p p', 1 <= i -> 1 <= j -> i <> j -> rd ts i = Some t -> rd ts j = Some t' ->
     live t -> live t' -> owns pm t p -> owns pm t' p' ->
     p + TASK_STACK_PAGES <= p' \/ p' + TASK_STACK_PAGES <= p).

(** The invariant between critical sections.  CPU 0 executes task [c], the only
    one that may be running; no other CPU has a task; [base] is the number of
    pages in use apart from the stacks. *)
Record core_inv (base : Z) (k : sched) (c : Z) : Prop := {
  inv_length : length (tasks k) = 64%nat /\ length (current_task k) = 64%nat /\
               length (round_robin_cursor k) = 64%nat;
  inv_current : rd (current_task k) 0 = Some c /\ rd (round_robin_cursor k) 0 = Some c /\ 0 <= c < 64;
  inv_others : forall cpu, 1 <= cpu < 64 -> rd (current_task k) cpu = Some TASK_NO_CURRENT;
  inv_running : forall i t, rd (tasks k) i = Some t -> state (info t) = TASK_RUNNING -> i = c;
  inv_shell : forall t, rd (tasks k) 0 = Some t -> live t /\ state (info t) <> TASK_ZOMBIE;
  inv_counts : counts_ok (stats k) (tasks k);
  inv_pids : fits 32 (next_pid k) /\ pids_ok (next_pid k) (tasks k);
  inv_stacks : stacks_ok (pages k) (tasks k);
  inv_pages : pmm_inv (pages k) /\ 0 < reserved_pages (pages k);
  inv_balance : used_pages (pages k) = base + TASK_STACK_PAGES * (63 - count_in TASK_UNUSED (tasks k));
}.

(** The invariant between operations: the task CPU 0 executes is running. *)
Definition sched_inv (base : Z) (k : sched) : Prop :=
  exists c t, core_inv base k c /\ rd (tasks k) c = Some t /\ state (info t) = TASK_RUNNING.

(** [t'] is [t] with another state or other information, on the same stack. *)
Definition same_thread (t t' : task_control) : Prop :=
  pid (info t') = pid (info t) /\ stack_base t' = stack_base t /\ stack_pages t' = stack_pages t /\
  (live t <-> live t').

Lemma rd_insert (ts : list task_control) i j t :
  0 <= i < Z.of_nat (length ts) ->
  rd (<[Z.to_nat i := t]> ts) j = if i =? j then Some t else rd ts j.
Proof. intros Hi. apply (rd_wr ts i j t). by apply wr_ok. Qed.

(** Replacing one task: who is who does not change. *)
Lemma same_thread_lookup ts i t t' j x :
  rd ts i = Some t -> same_thread t t' -> rd (<[Z.to_nat i := t']> ts) j = Some x ->
  exists y, rd ts j = Some y /\ same_thread y x.
Proof.
  intros Hi Hs Hj. rewrite rd_insert in Hj by (by eapply rd_range).
  destruct (Z.eqb_spec i j) as [->|]; simplify_eq; [by exists t|]. exists x. split; [done|].
  split_and!; done.
Qed.

Lemma pids_ok_update next ts i t t' :
  pids_ok next ts -> rd ts i = Some t -> same_thread t t' -> pids_ok next (<[Z.to_nat i := t']> ts).
Proof.
  intros [H1 H2] Hi Hs. split.
  - intros j x (y & Hy & -> & _ & _ & Hl)%(same_thread_lookup _ _ _ _ _ _ Hi Hs) Hlx. eapply H1; [done|tauto].
  - intros j l x x' (y & Hy & Ey & _ & _ & Hl)%(same_thread_lookup _ _ _ _ _ _ Hi Hs)
      (y' & Hy' & Ey' & _ & _ & Hl')%(same_thread_lookup _ _ _ _ _ _ Hi Hs) Hx Hx' E.
    eapply H2; [exact Hy|exact Hy'|tauto|tauto|congruence].
Qed.

Lemma owns_same pm t t' p : same_thread t t' -> owns pm t' p -> owns pm t p.
Proof. unfold owns. intros (_ & -> & -> & _). done. Qed.

Lemma stacks_ok_update pm ts i t t' :
  stacks_ok pm ts -> rd ts i = Some t -> same_thread t t' -> stacks_ok pm (<[Z.to_nat i := t']> ts).
Proof.
  intros [H1 H2] Hi Hs. split.
  - intros j x Hj Hx Hlx. destruct (same_thread_lookup _ _ _ _ _ _ Hi Hs Hx) as (y & Hy & Hsy).
    destruct (H1 j y) as (p & Hp); [done|done|apply Hsy, Hlx|]. exists p.
    destruct Hsy as (_ & E1 & E2 & _). unfold owns in *. by rewrite E1, E2.
  - intros j l x x' p p' Hj Hl Hne Hx Hx' Hlx Hlx' Hp Hp'.
    destruct (same_thread_lookup _ _ _ _ _ _ Hi Hs Hx) as (y & Hy & Hsy).
    destruct (same_thread_lookup _ _ _ _ _ _ Hi Hs Hx') as (y' & Hy' & Hsy').
    apply (H2 j l y y'); try done; [by apply Hsy|by apply Hsy'|by eapply owns_same|by eapply owns_same].
Qed.

Lemma indicator_unused t t' : (live t <-> live t') -> indicator TASK_UNUSED t = indicator TASK_UNUSED t'.
Proof. unfold indicator, live. intros H. by destruct (decide _), (decide _); tauto. Qed.

(** The counters follow one change of state. *)
Lemma counts_move st ts i t t' dr dy ds db dz :
  counts_ok st ts -> length ts = 64%nat -> rd ts i = Some t ->
  dr = indicator TASK_RUNNING t' - indicator TASK_RUNNING t ->
  dy = indicator TASK_READY t' - indicator TASK_READY t ->
  ds = indicator TASK_SLEEPING t' - indicator TASK_SLEEPING t ->
  db = indicator TASK_BLOCKED t' - indicator TASK_BLOCKED t ->
  dz = indicator TASK_ZOMBIE t' - indicator TASK_ZOMBIE t ->
  counts_ok (count st dr dy ds db dz) (<[Z.to_nat i := t']> ts).
Proof.
  intros (H1 & H2 & H3 & H4 & H5) Hl [_ Hi]%rd_Some -> -> -> -> ->.
  assert (forall s, u32 (count_in s ts + (indicator s t' - indicator s t)) =
                    count_in s (<[Z.to_nat i := t']> ts)) as E.
  { intros s. pose proof (count_in_bounds s (<[Z.to_nat i := t']> ts)) as Hb.
    rewrite length_insert, Hl in Hb. rewrite (count_in_insert _ _ _ _ _ Hi) in *.
    rewrite u32_small; [lia|]. warith. }
  unfold counts_ok, count. simpl. by rewrite H1, H2, H3, H4, H5, !E.
Qed.

Lemma core_update base k c i t t' st :
  core_inv base k c -> rd (tasks k) i = Some t -> same_thread t t' ->
  (state (info t') = TASK_RUNNING -> i = c) -> (i = 0 -> state (info t') <> TASK_ZOMBIE) ->
  counts_ok st (<[Z.to_nat i := t']> (tasks k)) ->
  core_inv base (with_stats (with_tasks k (<[Z.to_nat i := t']> (tasks k))) st) c.
Proof.
  intros [(Hl & Hlc & Hlr) Hc Ho Hr Hs Hcn [Hn Hp] Hst Hpg Hb] Hi Hsame Hrun Hz Hct.
  pose proof (rd_range _ _ _ Hi) as Hir.
  split; simpl; try done.
  - by rewrite length_insert.
  - intros j x. rewrite rd_insert by done. destruct (Z.eqb_spec i j) as [<-|]; [|apply Hr].
    by intros [= <-].
  - intros x. rewrite rd_insert by done. destruct (Z.eqb_spec i 0) as [->|]; [|apply Hs].
    intros [= <-]. split; [apply Hsame, (Hs t Hi)|auto].
  - split; [done|]. by eapply pids_ok_update.
  - by eapply stacks_ok_update.
  - rewrite (count_in_insert _ _ _ t) by (by apply rd_Some).
    rewrite (indicator_unused t t') by apply Hsame. lia.
Qed.

(** ** Yielding *)

Lemma set_state_same t s : live t -> s <> TASK_UNUSED -> same_thread t (set_state t s).
Proof. intros Hl Hs. split_and!; try done. Qed.

Lemma is_state_true t s : is_state t s = true <-> state (info t) = s.
Proof. apply bool_decide_eq_true. Qed.

Lemma is_state_false t s : is_state t s = false <-> state (info t) <> s.
Proof. apply bool_decide_eq_false. Qed.

(** The table in which [task_yield] chooses: the running task is ready again. *)
Definition requeue (ts : list task_control) (c : Z) : list task_control :=
  match rd ts c with
  | Some t => if is_state t TASK_RUNNING then <[Z.to_nat c := set_state t TASK_READY]> ts else ts
  | None => ts
  end.

Lemma requeue_core base k c t :
  core_inv base k c -> rd (tasks k) c = Some t -> live t ->
  exists st t1, (if is_state t TASK_RUNNING then
         ts ← wr (tasks k) c (set_state t TASK_READY);
         Some (with_stats (with_tasks k ts) (count (stats k) (-1) 1 0 0 0))
       else Some k) = Some (with_stats (with_tasks k (requeue (tasks k) c)) st) /\
    core_inv base (with_stats (with_tasks k (requeue (tasks k) c)) st) c /\
    rd (requeue (tasks k) c) c = Some t1 /\ same_thread t t1 /\
    priority (info t1) = priority (info t) /\ affinity (info t1) = affinity (info t) /\
    state (info t1) = (if is_state t TASK_RUNNING then TASK_READY else state (info t)).
Proof.
  intros Hinv Ht Hl. unfold requeue. rewrite Ht. pose proof (inv_length _ _ _ Hinv) as (Hlen & _).
  pose proof (rd_range _ _ _ Ht) as Hr.
  destruct (is_state t TASK_RUNNING) eqn:Es.
  - rewrite wr_ok, bind_some by done. eexists _, _. split; [reflexivity|]. split.
    { apply is_state_true in Es. apply (core_update base k c c t); try done; try (by apply set_state_same).
      apply (counts_move _ _ _ t); try done; [apply Hinv|..]; unfold indicator; rewrite Es; done. }
    rewrite rd_insert, Z.eqb_refl by done. split; [reflexivity|]. split; [by apply set_state_same|]. done.
  - exists (stats k), t. split; [by destruct k|]. split; [by destruct k|]. split; [done|].
    split_and!; done.
Qed.

Lemma local_cpu_0 cpu : local_cpu_id cpu = 0 -> 0 <= local_cpu_id cpu < 64.
Proof. lia. Qed.

Lemma core_switch base k c n t :
  core_inv base k c -> rd (tasks k) n = Some t -> state (info t) = TASK_READY ->
  (forall x, rd (tasks k) c = Some x -> state (info x) <> TASK_RUNNING) ->
  exists k' t', switch_to k 0 n = Some k' /\ core_inv base k' n /\
    tasks k' = <[Z.to_nat n := t']> (tasks k) /\ state (info t') = TASK_RUNNING /\
    priority (info t') = priority (info t) /\ affinity (info t') = affinity (info t).
Proof.
  intros Hinv Hn Hst Hnr. pose proof (rd_range _ _ _ Hn) as Hr.
  pose proof (inv_length _ _ _ Hinv) as (Hlen & Hlc & Hlr).
  unfold switch_to. rewrite Hn, bind_some.
  set (t' := with_info t _). rewrite !wr_ok, !bind_some by lia.
  assert (same_thread t t') as Hsame by (unfold same_thread, live; simpl; rewrite Hst; done).
  assert (counts_ok (count (stats k) 1 (-1) 0 0 0) (<[Z.to_nat n := t']> (tasks k))) as Hct.
  { apply (counts_move _ _ _ t); try done; [apply Hinv|..]; unfold indicator; rewrite Hst; done. }
  eexists _, t'. split; [reflexivity|]. split; [|split_and!; done].
  destruct Hinv as [_ (Hc & Hcu & Hcr) Ho Hrun Hsh Hcn [Hnp Hp] Hstk Hpg Hb].
  split; simpl; try done.
  - by rewrite !length_insert.
  - assert (forall l : list Z, length l = 64%nat -> rd (<[Z.to_nat 0 := n]> l) 0 = Some n) as H0.
    { intros l Hl. rewrite (rd_wr l 0 0 n) by (apply wr_ok; lia). done. }
    split_and!; [by apply H0|by apply H0|lia|lia].
  - intros cpu Hcpu. change 0%nat with (Z.to_nat 0). rewrite (rd_wr (current_task k) 0 cpu n) by (apply wr_ok; lia).
    rewrite (proj2 (Z.eqb_neq 0 cpu)) by lia. by apply Ho.
  - intros j x. rewrite rd_insert by done. destruct (Z.eqb_spec n j) as [<-|]; [done|].
    intros Hx Hxr. pose proof (Hrun j x Hx Hxr) as ->. by destruct (Hnr x Hx).
  - intros x. rewrite rd_insert by done. destruct (Z.eqb_spec n 0) as [->|]; [|apply Hsh].
    intros [= <-]. done.
  - destruct Hct as (? & ? & ? & ? & ?). unfold counts_ok, count in *. simpl in *.
    rewrite !Z.add_0_r, !u32_small in * by
      (destruct Hcn as (E1 & E2 & E3 & E4 & E5); rewrite ?E1, ?E2, ?E3, ?E4, ?E5;
       pose proof (count_in_bounds TASK_SLEEPING (tasks k)); pose proof (count_in_bounds TASK_BLOCKED (tasks k));
       pose proof (count_in_bounds TASK_ZOMBIE (tasks k)); warith).
    done.
  - split; [done|]. by eapply pids_ok_update.
  - by eapply stacks_ok_update.
  - rewrite (count_in_insert _ _ _ t) by (by apply rd_Some).
    rewrite (indicator_unused t t') by apply Hsame. lia.
Qed.

(** What a yield on CPU 0 does: the choice, the new table and the switch. *)
Definition yield_outcome (base : Z) (k : sched) (c : Z) (k' : sched) (n : Z) (out : option (Z * Z)) : Prop :=
  let ts := requeue (tasks k) c in
  core_inv base k' n /\
  ((n = c /\ forall j, ~ eligible ts 0 j) \/ best_choice ts 0 c n) /\
  out = (if n =? c then None else Some (c, n)) /\
  (forall i, i <> n -> rd (tasks k') i = rd ts i) /\
  exists t t', rd ts n = Some t /\ rd (tasks k') n = Some t' /\ state (info t') = TASK_RUNNING /\
    priority (info t') = priority (info t) /\ affinity (info t') = affinity (info t).

Lemma yield_core base k c t cpu :
  core_inv base k c -> local_cpu_id cpu = 0 -> rd (tasks k) c = Some t -> live t ->
  state (info t) = TASK_RUNNING \/ (exists j, eligible (tasks k) 0 j) ->
  exists k' n out, task_yield k cpu = Some (k', out) /\ yield_outcome base k c k' n out.
Proof.
  intros Hinv Hcpu Ht Hl Hcan. unfold task_yield. rewrite Hcpu.
  pose proof (inv_current _ _ _ Hinv) as (Hc & _ & Hcr). rewrite Hc, bind_some.
  rewrite (proj2 (Z.eqb_neq c TASK_NO_CURRENT)) by (unfold TASK_NO_CURRENT; lia). rewrite Ht, bind_some.
  destruct (requeue_core base k c t Hinv Ht Hl) as (st & t1 & -> & Hinv1 & Ht1 & Hsame & Hpr & Haf & Hst).
  rewrite bind_some. set (k1 := with_stats _ _) in *. set (ts := requeue (tasks k) c) in *.
  destruct (choose_next_best k1 0 c) as (n & -> & Hn & Hbest); [apply Hinv1|apply Hinv1|done|].
  rewrite bind_some. change (tasks k1) with ts in *.
  assert (live t1) as Hl1 by (by apply Hsame).
  assert (n = c -> state (info t1) = TASK_READY) as Hready.
  { intros ->. rewrite Hst. destruct (is_state t TASK_RUNNING) eqn:Es; [done|].
    destruct Hbest as [[_ Hno]|[(x & Hx & Hxr & _) _]]; [|by simplify_eq; congruence].
    exfalso. apply is_state_false in Es. destruct Hcan as [?|[j Hj]]; [done|]. apply (Hno j).
    unfold ts, requeue. rewrite Ht. by rewrite (proj2 (is_state_false _ _) Es). }
  destruct (Z.eqb_spec n c) as [->|Hne].
  - specialize (Hready eq_refl). rewrite Ht1, bind_some. pose proof (rd_range _ _ _ Ht1) as Hr1.
    rewrite wr_ok, bind_some by done. eexists _, c, _. split; [reflexivity|]. unfold yield_outcome.
    split; [|split; [done|split; [by rewrite Z.eqb_refl|split]]].
    + apply (core_update base k1 c c t1); try done.
      apply (counts_move _ _ _ t1); try done; [apply Hinv1|apply Hinv1|..];
        unfold indicator; rewrite Hready; done.
    + intros i Hi. simpl. fold ts. rewrite rd_insert by done. by rewrite (proj2 (Z.eqb_neq c i)) by done.
    + exists t1, (set_state t1 TASK_RUNNING). fold ts. simpl. rewrite rd_insert, Z.eqb_refl by done. done.
  - destruct Hbest as [[? _]|Hbest]; [done|]. pose proof Hbest as [(x & Hx & Hxr & _) _].
    destruct (core_switch base k1 c n x) as (k' & t' & -> & Hinv' & Hts & Hr' & Hp' & Ha'); [done..| |].
    { intros y Hy. change (tasks k1) with ts in Hy. simplify_eq. rewrite Hst.
      destruct (is_state t TASK_RUNNING) eqn:Es; [done|]. by apply is_state_false. }
    rewrite bind_some. eexists k', n, _. split; [reflexivity|]. unfold yield_outcome. fold ts.
    change (tasks k1) with ts in Hts. pose proof (rd_range _ _ _ Hx) as Hrx.
    split; [done|]. split; [by right|]. split; [by rewrite (proj2 (Z.eqb_neq n c))|]. split.
    + intros i Hi. rewrite Hts, rd_insert by done. by rewrite (proj2 (Z.eqb_neq n i)) by done.
    + exists x, t'. rewrite Hts, rd_insert, Z.eqb_refl by done. done.
Qed.

(** A yield on a CPU that has no task does nothing. *)
Lemma yield_idle base k c cpu :
  core_inv base k c -> local_cpu_id cpu <> 0 -> 0 <= local_cpu_id cpu < 64 ->
  task_yield k cpu = Some (k, None).
Proof.
  intros Hinv Hne Hr. unfold task_yield. by rewrite (inv_others _ _ _ Hinv) by lia.
Qed.

Lemma running_live t : state (info t) = TASK_RUNNING -> live t.
Proof. unfold live. by intros ->. Qed.

(** C33: A yield on CPU 0 gives the processor to the right task: of the tasks
    that are ready (the yielding one included) and allowed on this CPU it is
    one of the highest priority, and of those the first after the yielding task
    in round-robin order; if there is none the task keeps the processor.  That
    task alone is running afterwards, the context switch is made exactly when
    the task changes, every other task is left as it was, and the invariant of
    the table is kept. *)
Theorem task_yield_chooses_best base k cpu :
  sched_inv base k -> local_cpu_id cpu = 0 ->
  exists c k' n out, rd (current_task k) 0 = Some c /\ task_yield k cpu = Some (k', out) /\
    yield_outcome base k c k' n out /\ sched_inv base k' /\ rd (current_task k') 0 = Some n.
Proof.
  intros (c & t & Hinv & Ht & Hr) Hcpu.
  destruct (yield_core base k c t cpu Hinv Hcpu Ht (running_live t Hr) (or_introl Hr)) as (k' & n & out & Hy & Ho).
  exists c, k', n, out. split; [apply Hinv|]. split; [done|]. split; [done|].
  destruct Ho as (Hinv' & _ & _ & _ & _ & t' & _ & Ht' & Hr' & _).
  split; [by exists n, t'|apply Hinv'].
Qed.

(** ** No starvation *)

Fixpoint yield_times (n : nat) (k : sched) (cpu : option Z) : option sched :=
  match n with O => Some k | S n => '(k, _) ← task_yield k cpu; yield_times n k cpu end.

Lemma turn_between c n t : turn c n < turn c t -> turn n t = turn c t - turn c n.
Proof. unfold turn. intros H. divlia. Qed.

Lemma turn_inj c i j : 0 <= i < 64 -> 0 <= j < 64 -> turn c i = turn c j -> i = j.
Proof. intros Hi Hj E. rewrite <- (index_turn c i Hi), <- (index_turn c j Hj). by rewrite E. Qed.

Lemma requeue_other ts c i : i <> c -> rd (requeue ts c) i = rd ts i.
Proof.
  intros Hi. unfold requeue. destruct (rd ts c) as [t|] eqn:Ht; [|done]. destruct (is_state _ _); [|done].
  rewrite rd_insert by (by eapply rd_range). by rewrite (proj2 (Z.eqb_neq c i)) by done.
Qed.

Lemma requeue_priority ts c i : priority_of (requeue ts c) i = priority_of ts i.
Proof.
  destruct (Z.eq_dec i c) as [->|]; [|unfold priority_of; by rewrite requeue_other].
  unfold requeue, priority_of. destruct (rd ts c) as [t|] eqn:Ht; [|by rewrite Ht].
  destruct (is_state _ _); [|by rewrite Ht]. rewrite rd_insert, Z.eqb_refl by (by eapply rd_range). done.
Qed.

Lemma requeue_eligible ts c j : eligible (requeue ts c) 0 j -> eligible ts 0 j \/ j = c.
Proof.
  intros (t & Ht & H). destruct (Z.eq_dec j c) as [|Hne]; [by right|left].
  rewrite requeue_other in Ht by done. by exists t.
Qed.

(** [target] waits, and nothing that competes for the CPU is more urgent. *)
Definition waits_its_turn (k : sched) (c target : Z) : Prop :=
  eligible (tasks k) 0 target /\ priority_of (tasks k) c <= priority_of (tasks k) target /\
  forall j, eligible (tasks k) 0 j -> priority_of (tasks k) j <= priority_of (tasks k) target.

(** One yield runs the target or brings its turn closer. *)
Lemma yield_progress base k c k' n out t target :
  core_inv base k c -> rd (tasks k) c = Some t -> state (info t) = TASK_RUNNING ->
  waits_its_turn k c target -> yield_outcome base k c k' n out ->
  n = target \/ (waits_its_turn k' n target /\ turn n target < turn c target).
Proof.
  intros Hinv Ht Hrun (Het & Hpc & Hmax) (_ & Hbest & _ & Hsame & x & x' & Hx & Hx' & Hr' & Hp' & Ha').
  pose proof (inv_length _ _ _ Hinv) as (Hlen & _).
  assert (target <> c) as Htc by (intros ->; destruct Het as (y & Hy & Hyr & _); simplify_eq; congruence).
  assert (eligible (requeue (tasks k) c) 0 target) as Het'.
  { destruct Het as (y & Hy & H). exists y. by rewrite requeue_other. }
  destruct Hbest as [[_ Hno]|[Hen Hall]]; [by destruct (Hno target)|].
  destruct (Z.eq_dec n target) as [|Hnt]; [by left|right].
  assert (0 <= n < 64 /\ 0 <= target < 64) as [Hn Htr].
  { destruct Het as (y & Hy & _). apply rd_range in Hx, Hy.
    assert (length (requeue (tasks k) c) = 64%nat) as E; [|rewrite E in Hx; lia].
    unfold requeue. rewrite Ht. destruct (is_state _ _); by rewrite ?length_insert. }
  assert (forall j, priority_of (tasks k') j = priority_of (tasks k) j) as Hpri.
  { intros j. rewrite <- (requeue_priority (tasks k) c j). unfold priority_of.
    destruct (Z.eq_dec j n) as [->|]; [by rewrite Hx, Hx', Hp'|by rewrite Hsame]. }
  assert (forall j, eligible (tasks k') 0 j -> eligible (requeue (tasks k) c) 0 j) as Hel.
  { intros j (y & Hy & Hyr & Hya). destruct (Z.eq_dec j n) as [->|Hj].
    - simplify_eq. congruence.
    - rewrite Hsame in Hy by done. by exists y. }
  assert (forall j, eligible (requeue (tasks k) c) 0 j -> priority_of (tasks k) j <= priority_of (tasks k) target)
    as Hle by (intros j [Hj| ->]%requeue_eligible; auto).
  assert (turn c n < turn c target) as Hturn.
  { pose proof (Hle n Hen). destruct (Hall target Het') as [H'|[_ H']]; rewrite ?requeue_priority in H'; [lia|].
    destruct (Z.eq_dec (turn c n) (turn c target)) as [E|]; [|lia]. by apply turn_inj in E. }
  split.
  - split; [|split].
    + destruct Het' as (y & Hy & H). exists y. by rewrite Hsame.
    + rewrite !Hpri. by apply Hle.
    + intros j Hj. rewrite !Hpri. auto.
  - rewrite (turn_between c) by done. pose proof (turn_bounds c n). lia.
Qed.

(** C32: No starvation.  A ready task that may run on CPU 0, and that no task
    competing for this CPU exceeds in priority, is running after at most 63
    yields, whatever the other tasks of its priority are. *)
Theorem task_yield_no_starvation base k cpu c target :
  sched_inv base k -> local_cpu_id cpu = 0 -> rd (current_task k) 0 = Some c ->
  waits_its_turn k c target ->
  exists n k', (1 <= n <= 63)%nat /\ yield_times n k cpu = Some k' /\ sched_inv base k' /\
    rd (current_task k') 0 = Some target.
Proof.
  intros (c' & t & Hinv & Ht & Hr) Hcpu Hc Hw.
  assert (c' = c) as -> by (pose proof (inv_current _ _ _ Hinv) as (? & _); congruence). clear Hc.
  enough (exists n k', (1 <= n <= Z.to_nat (turn c target))%nat /\ yield_times n k cpu = Some k' /\
    sched_inv base k' /\ rd (current_task k') 0 = Some target) as (n & k' & Hn & H).
  { exists n, k'. split; [|done]. pose proof (turn_bounds c target).
    enough (turn c target <> 64) by lia. rewrite <- (turn_self c). intros E%turn_inj; [| |apply Hinv].
    - subst. destruct Hw as [(y & Hy & Hyr & _) _]. simplify_eq. congruence.
    - destruct Hw as [(y & Hy & _) _]. apply rd_range in Hy. destruct (inv_length _ _ _ Hinv) as [E' _]. lia. }
  remember (Z.to_nat (turn c target)) as d eqn:Hd. revert k c t Hinv Ht Hr Hw Hd.
  induction (lt_wf d) as [d _ IH]. intros k c t Hinv Ht Hr Hw Hd.
  destruct (yield_core base k c t cpu Hinv Hcpu Ht (running_live t Hr) (or_introl Hr)) as (k' & n & out & Hy & Ho).
  pose proof Ho as (Hinv' & _ & _ & _ & x & t' & _ & Ht' & Hr' & _).
  pose proof (turn_bounds c target) as Htb.
  destruct (yield_progress base k c k' n out t target Hinv Ht Hr Hw Ho) as [->|[Hw' Hlt]].
  - exists 1%nat, k'. split; [lia|]. simpl. rewrite Hy. split; [done|]. split; [by exists target, t'|apply Hinv'].
  - pose proof (turn_bounds n target).
    destruct (IH (Z.to_nat (turn n target)) ltac:(lia) k' n t' Hinv' Ht' Hr' Hw' eq_refl)
      as (m & k'' & Hm & Hym & Hs).
    exists (S m), k''. split; [lia|]. cbn [yield_times]. by rewrite Hy, bind_some.
Qed.

(** ** The other operations *)

Lemma inv_update base k i t t' st :
  sched_inv base k -> rd (tasks k) i = Some t -> same_thread t t' ->
  (state (info t') = TASK_RUNNING <-> state (info t) = TASK_RUNNING) ->
  (i = 0 -> state (info t') <> TASK_ZOMBIE) ->
  counts_ok st (<[Z.to_nat i := t']> (tasks k)) ->
  sched_inv base (with_stats (with_tasks k (<[Z.to_nat i := t']> (tasks k))) st).
Proof.
  intros (c & x & Hinv & Hx & Hxr) Ht Hs Hr Hz Hct. pose proof (rd_range _ _ _ Ht).
  assert (core_inv base (with_stats (with_tasks k (<[Z.to_nat i := t']> (tasks k))) st) c) as Hinv'.
  { apply (core_update base k c i t); try done. intros E%Hr. by apply (inv_running _ _ _ Hinv i t). }
  exists c. simpl. rewrite rd_insert by done. destruct (Z.eqb_spec i c) as [->|]; [|by exists x].
  simplify_eq. exists t'. by rewrite Hr.
Qed.

Lemma index_by_pid_spec k p :
  length (tasks k) = 64%nat ->
  exists r, index_by_pid k p = Some r /\
    ((r = -1 /\ forall i t, rd (tasks k) i = Some t -> live t -> pid (info t) <> p) \/
     (0 <= r < 64 /\ exists t, rd (tasks k) r = Some t /\ live t /\ pid (info t) = p)).
Proof.
  intros Hl. unfold index_by_pid, TASK_MAX.
  match goal with |- context [for_break _ _ ?loop_body ?start] =>
    destruct (for_break_rule
      (fun j (_ : unit) => forall i t, i < j -> rd (tasks k) i = Some t -> live t -> pid (info t) <> p)
      (fun r => 0 <= r < 64 /\ exists t, rd (tasks k) r = Some t /\ live t /\ pid (info t) = p)
      (Z.to_nat 64) 0 loop_body start) as [([] & -> & HP)|(r & -> & HQ)] end.
  - intros i t Hi Ht%rd_range. lia.
  - intros j [] Hj HP. destruct (rd_ok (tasks k) j) as [t Ht]; [lia|]. rewrite Ht, bind_some.
    destruct (is_state t TASK_UNUSED) eqn:Es; cbn [negb andb].
    + left. exists tt. split; [done|]. intros i x Hi Hx Hlx. apply is_state_true in Es.
      destruct (Z.eq_dec i j) as [->|]; [simplify_eq; done|]. apply (HP i x); [lia|done..].
    + apply is_state_false in Es. destruct (Z.eqb_spec (pid (info t)) p) as [E|E].
      * right. exists j. split; [done|]. split; [lia|]. by exists t.
      * left. exists tt. split; [done|]. intros i x Hi Hx Hlx.
        destruct (Z.eq_dec i j) as [->|]; [simplify_eq; done|]. apply (HP i x); [lia|done..].
  - rewrite bind_some. exists (-1). split; [done|]. left. split; [done|]. intros i t Ht. apply (HP i); [|done].
    apply rd_range in Ht. lia.
  - rewrite bind_some. exists r. split; [done|]. by right.
Qed.

(** Close the counter obligations of a change of one state. *)
Ltac moved H := unfold indicator; simpl; rewrite H; done.

Lemma wake_inv base k p :
  sched_inv base k -> exists k' r, task_wake k p = Some (k', r) /\ sched_inv base k'.
Proof.
  intros Hinv. pose proof Hinv as (c & x & Hcore & _). pose proof (inv_length _ _ _ Hcore) as (Hl & _).
  unfold task_wake. destruct (index_by_pid_spec k p Hl) as (r & -> & [[-> _]|(Hr & t & Ht & Hlt & _)]).
  - by eexists _, _.
  - rewrite bind_some, (proj2 (Z.ltb_ge r 0)), Ht, bind_some by lia.
    destruct (is_state t TASK_SLEEPING) eqn:E1; cbn [negb andb].
    + apply is_state_true in E1. rewrite wr_ok, bind_some by lia. eexists _, _. split; [reflexivity|].
      apply (inv_update base k r t); try done; [simpl; rewrite E1; done|].
      apply (counts_move _ _ _ t); try done; [apply Hcore|..]; moved E1.
    + destruct (is_state t TASK_BLOCKED) eqn:E2; cbn [negb]; [|by eexists _, _].
      apply is_state_true in E2. rewrite wr_ok, bind_some by lia. eexists _, _. split; [reflexivity|].
      apply (inv_update base k r t); try done; [simpl; rewrite E2; done|].
      apply (counts_move _ _ _ t); try done; [apply Hcore|..]; moved E2.
Qed.

Lemma block_inv base k p :
  sched_inv base k -> exists k' r, task_block k p = Some (k', r) /\ sched_inv base k'.
Proof.
  intros Hinv. pose proof Hinv as (c & x & Hcore & _). pose proof (inv_length _ _ _ Hcore) as (Hl & _).
  unfold task_block. destruct (index_by_pid_spec k p Hl) as (r & -> & [[-> _]|(Hr & t & Ht & Hlt & _)]).
  - by eexists _, _.
  - rewrite bind_some, (proj2 (Z.ltb_ge r 0)), Ht, bind_some by lia.
    destruct (is_state t TASK_READY) eqn:E1; cbn [negb]; [|by eexists _, _].
    apply is_state_true in E1. rewrite wr_ok, bind_some by lia. eexists _, _. split; [reflexivity|].
    apply (inv_update base k r t); try done; [simpl; rewrite E1; done|].
    apply (counts_move _ _ _ t); try done; [apply Hcore|..]; moved E1.
Qed.

(** A change that keeps the state keeps the counters. *)
Lemma counts_keep st ts i t t' :
  counts_ok st ts -> rd ts i = Some t -> state (info t') = state (info t) ->
  counts_ok st (<[Z.to_nat i := t']> ts).
Proof.
  intros (H1 & H2 & H3 & H4 & H5) [_ Hi]%rd_Some Hs. unfold counts_ok.
  rewrite !(count_in_insert _ _ _ _ _ Hi). unfold indicator. rewrite Hs. lia.
Qed.

Lemma affinity_inv base k p a :
  sched_inv base k -> exists k' r, task_set_affinity k p a = Some (k', r) /\ sched_inv base k'.
Proof.
  intros Hinv. pose proof Hinv as (c & x & Hcore & _). pose proof (inv_length _ _ _ Hcore) as (Hl & _).
  unfold task_set_affinity. split_if; [by eexists _, _|].
  destruct (index_by_pid_spec k p Hl) as (r & -> & [[-> _]|(Hr & t & Ht & Hlt & _)]).
  - by eexists _, _.
  - rewrite bind_some, (proj2 (Z.leb_le 0 r)), Ht, bind_some, wr_ok, bind_some by lia.
    eexists _, _. split; [reflexivity|].
    apply (inv_update base k r t _ (stats k)); try done; [intros ->; by apply (inv_shell _ _ _ Hcore t)|].
    apply (counts_keep _ _ _ t); try done. apply Hcore.
Qed.

Lemma tick_step_inv base tick i k :
  sched_inv base k -> 0 <= i < 64 -> exists k', tick_step tick i k = Some k' /\ sched_inv base k'.
Proof.
  intros Hinv Hi. pose proof Hinv as (c & x & Hcore & _). pose proof (inv_length _ _ _ Hcore) as (Hl & _).
  unfold tick_step. destruct (rd_ok (tasks k) i) as [t Ht]; [lia|]. rewrite Ht, bind_some.
  destruct (is_state t TASK_RUNNING) eqn:E1.
  - apply is_state_true in E1. rewrite wr_ok, !bind_some by lia. simpl tasks.
    rewrite rd_insert, Z.eqb_refl, bind_some by lia.
    rewrite (proj2 (is_state_false _ _)) by (simpl; congruence). cbn [andb].
    eexists. split; [reflexivity|].
    apply (inv_update base k i t _ (stats k)); try done; [simpl; rewrite E1; done|].
    apply (counts_keep _ _ _ t); try done. apply Hcore.
  - rewrite bind_some, Ht, bind_some. destruct (is_state t TASK_SLEEPING) eqn:E2; cbn [andb]; [|by eexists].
    apply is_state_true in E2. split_if; [|by eexists]. rewrite wr_ok, bind_some by lia.
    eexists. split; [reflexivity|].
    apply (inv_update base k i t); try done.
    + split_and!; try done. by unfold live; rewrite E2.
    + simpl. rewrite E2. done.
    + apply (counts_move _ _ _ t); try done; [apply Hcore|..]; moved E2.
Qed.

Lemma tick_inv base k tick :
  sched_inv base k -> exists k', task_scheduler_tick k tick = Some k' /\ sched_inv base k'.
Proof.
  intros Hinv. unfold task_scheduler_tick, TASK_MAX.
  destruct (for_loop_rule (fun _ k => sched_inv base k) (Z.to_nat 64) 0 (tick_step tick) k Hinv)
    as (k' & -> & Hinv'); [|by exists k'].
  intros j k1 Hj Hk1. apply tick_step_inv; [done|lia].
Qed.

(** The running task goes to sleep or ends, and another one is ready. *)
Definition other_ready (k : sched) : Prop :=
  exists c j, rd (current_task k) 0 = Some c /\ j <> c /\ eligible (tasks k) 0 j.

(** The running task [c] stops running and yields. *)
Lemma stop_and_yield base k c t t' cpu dz ds :
  core_inv base k c -> rd (tasks k) c = Some t -> state (info t) = TASK_RUNNING ->
  local_cpu_id cpu = 0 -> same_thread t t' -> state (info t') <> TASK_RUNNING ->
  (c = 0 -> state (info t') <> TASK_ZOMBIE) ->
  ds = indicator TASK_SLEEPING t' -> dz = indicator TASK_ZOMBIE t' ->
  state (info t') <> TASK_READY -> state (info t') <> TASK_BLOCKED ->
  (exists j, j <> c /\ eligible (tasks k) 0 j) ->
  exists k' out, task_yield (with_stats (with_tasks k (<[Z.to_nat c := t']> (tasks k)))
      (count (stats k) (-1) 0 ds 0 dz)) cpu = Some (k', out) /\ sched_inv base k'.
Proof.
  intros Hcore Ht Hr Hcpu Hsame Hn1 Hz -> -> Hn2 Hn3 (j & Hj & y & Hy & Hyr & Hya).
  pose proof (inv_length _ _ _ Hcore) as (Hl & _). pose proof (rd_range _ _ _ Ht) as Hc.
  set (k1 := with_stats _ _).
  assert (core_inv base k1 c) as Hcore1.
  { apply (core_update base k c c t); try done.
    apply (counts_move _ _ _ t); try done; [apply Hcore|..]; unfold indicator; rewrite Hr;
      repeat (destruct (decide _)); try done; lia. }
  destruct (yield_core base k1 c t' cpu Hcore1 Hcpu) as (k' & n & out & Hy' & Hinv' & _ & _ & _ & u & u' & _ & Hu' & Hr' & _).
  - simpl. by rewrite rd_insert, Z.eqb_refl.
  - apply Hsame. by apply running_live.
  - right. exists j, y. simpl. rewrite rd_insert by done. by rewrite (proj2 (Z.eqb_neq c j)) by done.
  - exists k', out. split; [done|]. by exists n, u'.
Qed.

Lemma sleep_inv base k cpu w :
  sched_inv base k -> 0 <= local_cpu_id cpu < 64 -> other_ready k ->
  exists k' out, task_sleep_until k cpu w = Some (k', out) /\ sched_inv base k'.
Proof.
  intros Hinv Hcpu (c' & j & Hc' & Hj & He). pose proof Hinv as (c & t & Hcore & Ht & Hr).
  pose proof (inv_current _ _ _ Hcore) as (Hc & _ & Hcr). assert (c' = c) as -> by congruence.
  unfold task_sleep_until, sleep_begin.
  destruct (Z.eq_dec (local_cpu_id cpu) 0) as [E|E].
  - rewrite E, Hc, bind_some. rewrite (proj2 (Z.eqb_neq c TASK_NO_CURRENT)) by (unfold TASK_NO_CURRENT; lia).
    rewrite Ht, bind_some, wr_ok, bind_some by (by eapply rd_range). rewrite bind_some.
    apply (stop_and_yield base k c t (with_info t (with_wake (info t) w))); try done; [|by exists j].
    split_and!; try done. by unfold live; rewrite Hr.
  - rewrite (inv_others _ _ _ Hcore), bind_some by lia. rewrite Z.eqb_refl. by eexists _, _.
Qed.

(** The end of the running thread: [task_bootstrap] after the entry function
    returns, up to its first yield. *)
Definition task_finish (k : sched) (cpu : option Z) : option (sched * option (Z * Z)) :=
  index ← rd (current_task k) (local_cpu_id cpu); k ← task_exit k index; task_yield k cpu.

Lemma finish_inv base k cpu :
  sched_inv base k -> local_cpu_id cpu = 0 -> rd (current_task k) 0 <> Some 0 -> other_ready k ->
  exists k' out, task_finish k cpu = Some (k', out) /\ sched_inv base k'.
Proof.
  intros Hinv Hcpu Hc0 (c' & j & Hc' & Hj & He). pose proof Hinv as (c & t & Hcore & Ht & Hr).
  pose proof (inv_current _ _ _ Hcore) as (Hc & _ & Hcr). assert (c' = c) as -> by congruence.
  unfold task_finish, task_exit. rewrite Hcpu, Hc, bind_some, Ht, bind_some, wr_ok, !bind_some
    by (by eapply rd_range).
  apply (stop_and_yield base k c t (set_state t TASK_ZOMBIE)); try done; [|congruence|by exists j].
  apply set_state_same; [by apply running_live|done].
Qed.

(** ** Creating and reaping threads *)

Lemma owns_mono pm pm' t p :
  reserved_pages pm' = reserved_pages pm -> managed_pages pm' = managed_pages pm ->
  (forall q, p <= q < p + TASK_STACK_PAGES -> bit (page_bitmap pm) q = true -> bit (page_bitmap pm') q = true) ->
  owns pm t p -> owns pm' t p.
Proof. intros Hr Hm Hb (H1 & H2 & H3 & H4 & H5). unfold owns. rewrite Hr, Hm. split_and!; auto. Qed.

Lemma owns_unique pm t p p' : owns pm t p -> owns pm t p' -> p = p'.
Proof. unfold owns, PAGE_SIZE. lia. Qed.

(** The stack of a thread is determined by its control block. *)
Lemma owns_page pm pm' t p p' : owns pm t p -> owns pm' t p' -> p = p'.
Proof. unfold owns, PAGE_SIZE. lia. Qed.

Lemma stacks_mono pm pm' ts :
  reserved_pages pm' = reserved_pages pm -> managed_pages pm' = managed_pages pm ->
  (forall i t p q, 1 <= i -> rd ts i = Some t -> live t -> owns pm t p -> p <= q < p + TASK_STACK_PAGES ->
     bit (page_bitmap pm) q = true -> bit (page_bitmap pm') q = true) ->
  stacks_ok pm ts -> stacks_ok pm' ts.
Proof.
  intros Hr Hm Hb [H1 H2]. split.
  - intros i t Hi Ht Hl. destruct (H1 i t Hi Ht Hl) as [p Hp]. exists p.
    eapply owns_mono; [done|done| |exact Hp]. intros q Hq. by apply (Hb i t p).
  - intros i j t t' p p' Hi Hj Hne Ht Ht' Hl Hl' Hp Hp'.
    destruct (H1 i t Hi Ht Hl) as [x Hx]. destruct (H1 j t' Hj Ht' Hl') as [y Hy].
    rewrite (owns_page _ _ _ _ _ Hp Hx), (owns_page _ _ _ _ _ Hp' Hy). by apply (H2 i j t t').
Qed.

Lemma core_pages base k c pm :
  core_inv base k c -> pmm_inv pm ->
  reserved_pages pm = reserved_pages (pages k) -> managed_pages pm = managed_pages (pages k) ->
  used_pages pm = used_pages (pages k) ->
  (forall q, bit (page_bitmap pm) q = bit (page_bitmap (pages k)) q) ->
  core_inv base (with_pages k pm) c.
Proof.
  intros [Hlen Hc Ho Hr Hs Hcn Hp Hst Hpg Hb] Hpm Hres Hman Hu Hbit. split; simpl; try done.
  - eapply stacks_mono; [exact Hres|exact Hman| |exact Hst]. intros. by rewrite Hbit.
  - rewrite Hres. split; [done|apply Hpg].
  - by rewrite Hu.
Qed.

Lemma inv_with_pages base k pm :
  sched_inv base k -> pmm_inv pm ->
  reserved_pages pm = reserved_pages (pages k) -> managed_pages pm = managed_pages (pages k) ->
  used_pages pm = used_pages (pages k) ->
  (forall q, bit (page_bitmap pm) q = bit (page_bitmap (pages k)) q) ->
  sched_inv base (with_pages k pm).
Proof. intros (c & t & Hcore & Ht & Hr) ? ? ? ? ?. exists c, t. split; [by apply core_pages|done]. Qed.

Lemma free_slot_spec k :
  length (tasks k) = 64%nat ->
  exists i, free_slot k = Some i /\
    ((i = 64 /\ forall j t, 1 <= j -> rd (tasks k) j = Some t -> live t) \/
     (1 <= i < 64 /\ exists t, rd (tasks k) i = Some t /\ state (info t) = TASK_UNUSED)).
Proof.
  intros Hl. unfold free_slot, TASK_MAX.
  match goal with |- context [for_break _ _ ?loop_body ?start] =>
    destruct (for_break_rule
      (fun n (_ : unit) => forall j t, 1 <= j < n -> rd (tasks k) j = Some t -> live t)
      (fun i => 1 <= i < 64 /\ exists t, rd (tasks k) i = Some t /\ state (info t) = TASK_UNUSED)
      (Z.to_nat 64 - 1) 1 loop_body start) as [([] & -> & HP)|(r & -> & HQ)] end.
  - intros. lia.
  - intros n [] Hn HP. destruct (rd_ok (tasks k) n) as [t Ht]; [lia|]. rewrite Ht, bind_some.
    destruct (is_state t TASK_UNUSED) eqn:E.
    + right. exists n. split; [done|]. split; [lia|]. exists t. split; [done|]. by apply is_state_true.
    + left. exists tt. split; [done|]. intros j x Hj Hx. apply is_state_false in E.
      destruct (Z.eq_dec j n) as [->|]; [by simplify_eq|]. apply (HP j); [lia|done].
  - rewrite bind_some. exists 64. split; [done|]. left. split; [done|]. intros j t Hj Ht.
    apply (HP j); [|done]. apply rd_range in Ht. lia.
  - rewrite bind_some. exists r. split; [done|]. by right.
Qed.

(** A C string: there is a terminator. *)
Definition terminated (source : list Z) : Prop := exists n, rd source n = Some 0.

Lemma copy_name_total target source :
  terminated source -> length target = 24%nat ->
  exists r, copy_name target source = Some r /\ length r = 24%nat.
Proof.
  intros [n Hn] Hl. unfold copy_name, TASK_NAME_MAX. pose proof (rd_range _ _ _ Hn) as Hr.
  destruct (while_loop_rule
    (fun '(l, i) => length l = 24%nat /\ 0 <= i <= 23 /\ i <= n)
    (fun '(l, i) => length l = 24%nat /\ 0 <= i <= 23)
    (fun '(_, i) => Z.to_nat (23 - i)) (Z.to_nat 24)
    (fun '(target, index) =>
       c ← rd source index;
       if negb (c =? 0) && (index + 1 <? 24) then
         target ← wr target index c; Some (inl (target, index + 1))
       else Some (inr (target, index))) (target, 0)) as ([l i] & -> & Hl' & Hi).
  - split; [done|lia].
  - lia.
  - intros [l i] (Hl' & Hi & Hin). destruct (rd_ok source i) as [c Hc]; [lia|]. rewrite Hc, bind_some.
    destruct (Z.eqb_spec c 0) as [->|Hc0]; cbn [negb andb]; [right; eexists; split; [reflexivity|cbn beta iota; lia]|].
    assert (i <> n) by (intros ->; congruence).
    destruct (Z.ltb_spec (i + 1) 24).
    + left. rewrite wr_ok, bind_some by lia. eexists. split; [reflexivity|].
      cbn beta iota. rewrite length_insert. lia.
    + right. eexists. split; [reflexivity|]. cbn beta iota. lia.
  - rewrite bind_some, wr_ok by lia. eexists. split; [reflexivity|]. by rewrite length_insert.
Qed.

Lemma page_address p : 0 <= p < PMM_MAX_PAGES ->
  (p * PAGE_SIZE) &&& (PAGE_SIZE - 1) = 0 /\ u32 (p * PAGE_SIZE / PAGE_SIZE) = p.
Proof.
  intros Hp. split.
  - change (PAGE_SIZE - 1) with (2 ^ 12 - 1). rewrite land_mask by done. by apply Z.mod_mul.
  - rewrite Z.div_mul by done. apply small_u32. lia.
Qed.

(** Freeing four pages that are all in use. *)
Lemma free_stack pm p :
  pmm_inv pm -> reserved_pages pm <= p -> p + TASK_STACK_PAGES <= managed_pages pm -> 0 <= p ->
  (forall q, p <= q < p + TASK_STACK_PAGES -> bit (page_bitmap pm) q = true) ->
  exists pm', pmm_free_pages pm (p * PAGE_SIZE) TASK_STACK_PAGES = Some pm' /\ pmm_inv pm' /\
    managed_pages pm' = managed_pages pm /\ reserved_pages pm' = reserved_pages pm /\
    used_pages pm' = used_pages pm - TASK_STACK_PAGES /\
    forall q, bit (page_bitmap pm') q = negb (in_run p TASK_STACK_PAGES q) && bit (page_bitmap pm) q.
Proof.
  intros Hpm Hr Hm Hp Hb. pose proof (inv_range pm Hpm) as [_ Hmax]. unfold TASK_STACK_PAGES in *.
  destruct (page_address p) as [Ha Hs]; [lia|].
  destruct (pmm_free_outcome pm (p * PAGE_SIZE) p 4) as (pm' & Hf & H1 & H2 & H3 & H4 & H5); [done..|lia|done|done|].
  exists pm'. split_and!; try done. rewrite H4, (count_true_const true); [done|].
  intros q Hq. apply Hb. lia.
Qed.

(** The table with a new thread in a free slot. *)
Section new_thread.
Variables (base : Z) (k : sched) (c : Z) (pm : pmm) (start i : Z) (old t : task_control).
Variables (st : scheduler_stats) (w : gmap Z Z).
Hypothesis Hcore : core_inv base k c.
Hypothesis Hpm : pmm_inv pm.
Hypothesis Hman : managed_pages pm = managed_pages (pages k).
Hypothesis Hres : reserved_pages pm = reserved_pages (pages k).
Hypothesis Halloc : allocated (pages k) pm TASK_STACK_PAGES start.
Hypothesis Hi : 1 <= i < 64.
Hypothesis Hold : rd (tasks k) i = Some old.
Hypothesis Hunused : state (info old) = TASK_UNUSED.
Hypothesis Ht : state (info t) = TASK_READY /\ pid (info t) = next_pid k /\
                stack_base t = start * PAGE_SIZE /\ stack_pages t = TASK_STACK_PAGES.
Hypothesis Hst : running st = running (stats k) /\ ready st = u32 (ready (stats k) + 1) /\
  sleeping st = sleeping (stats k) /\ blocked st = blocked (stats k) /\ zombies st = zombies (stats k).
Hypothesis Hpid : 1 <= next_pid k < 2 ^ 32 - 1.

Let ts := <[Z.to_nat i := t]> (tasks k).

Lemma new_lookup j x : rd ts j = Some x -> (j = i /\ x = t) \/ (j <> i /\ rd (tasks k) j = Some x).
Proof using All.
  unfold ts. rewrite rd_insert by (by eapply rd_range). destruct (Z.eqb_spec i j) as [->|]; [|auto].
  intros [= <-]. auto.
Qed.

Lemma new_counts : counts_ok st ts.
Proof using All.
  pose proof (inv_counts _ _ _ Hcore) as (H1 & H2 & H3 & H4 & H5).
  destruct Hst as (E1 & E2 & E3 & E4 & E5), Ht as (Hr & _).
  pose proof (count_in_bounds TASK_READY (tasks k)) as Hb. destruct (inv_length _ _ _ Hcore) as [Hl _].
  rewrite H2, u32_small in E2 by warith.
  unfold counts_ok, ts. rewrite !(count_in_insert _ _ _ old) by (by apply rd_Some).
  unfold indicator. rewrite Hr, Hunused. rewrite E1, E2, E3, E4, E5. simpl. lia.
Qed.

Lemma new_pids : pids_ok (next_pid k + 1) ts.
Proof using All.
  destruct (inv_pids _ _ _ Hcore) as [_ [H1 H2]]. destruct Ht as (_ & Hp & _). split.
  - intros j x [[-> ->]|[Hj Hx]]%new_lookup Hl; [lia|]. specialize (H1 j x Hx Hl). lia.
  - intros j l x x' [[-> ->]|[Hj Hx]]%new_lookup [[-> ->]|[Hj' Hx']]%new_lookup Hl Hl' E.
    + done.
    + specialize (H1 l x' Hx' Hl'). lia.
    + specialize (H1 j x Hx Hl). lia.
    + by apply (H2 j l x x').
Qed.

Lemma new_stacks : stacks_ok pm ts.
Proof using All.
  destruct Halloc as (_ & Hs1 & Hs2 & Hfree & _ & Hb & _). destruct Ht as (_ & _ & Hsb & Hsp).
  assert (stacks_ok pm (tasks k)) as [H1 H2].
  { eapply stacks_mono; [exact Hres|exact Hman| |apply Hcore].
    intros. rewrite Hb. by rewrite H4, orb_true_r. }
  assert (owns pm t start) as Hown.
  { unfold owns. rewrite Hres, Hman. split_and!; try done. intros q Hq. rewrite Hb.
    unfold in_run. rewrite (proj2 (Z.leb_le start q)), (proj2 (Z.ltb_lt q _)) by lia. done. }
  assert (forall j x p, 1 <= j -> rd (tasks k) j = Some x -> live x -> owns pm x p ->
    start + TASK_STACK_PAGES <= p \/ p + TASK_STACK_PAGES <= start) as Hdis.
  { intros j x p Hj Hx Hl Hp. destruct (inv_stacks _ _ _ Hcore) as [H1' _].
    destruct (H1' j x Hj Hx Hl) as [p' Hp']. rewrite (owns_page _ _ _ _ _ Hp Hp').
    destruct Hp' as (_ & _ & _ & _ & Hbits). unfold TASK_STACK_PAGES in *.
    destruct (Z_le_gt_dec (start + 4) p'); [by left|]. destruct (Z_le_gt_dec (p' + 4) start); [by right|].
    exfalso. specialize (Hfree (Z.max start p') ltac:(lia)). rewrite Hbits in Hfree by lia. done. }
  split.
  - intros j x Hj [[-> ->]|[Hji Hx]]%new_lookup Hl; [by exists start|]. by apply (H1 j).
  - intros j l x x' p p' Hj Hl' Hne [[-> ->]|[Hji Hx]]%new_lookup [[-> ->]|[Hli Hx']]%new_lookup Hlx Hlx' Hp Hp'.
    + done.
    + rewrite (owns_unique _ _ _ _ Hp Hown). by apply (Hdis l x').
    + rewrite (owns_unique _ _ _ _ Hp' Hown). destruct (Hdis j x p Hj Hx Hlx Hp); [by right|by left].
    + by apply (H2 j l x x').
Qed.

Lemma new_core :
  core_inv base {| tasks := ts; current_task := current_task k; next_pid := u32 (next_pid k + 1);
                   round_robin_cursor := round_robin_cursor k; stats := st; pages := pm; words := w |} c.
Proof using All.
  pose proof Hcore as [(Hl & Hlc & Hlr) Hc Ho Hr Hs Hcn [Hn Hp] Hstk Hpg Hb]. destruct Ht as (Hrd & _).
  split; simpl; try done.
  - unfold ts. by rewrite length_insert.
  - intros j x [[-> ->]|[Hj Hx]]%new_lookup; [congruence|by apply Hr].
  - intros x [[? _]|[_ Hx]]%new_lookup; [lia|by apply Hs].
  - apply new_counts.
  - rewrite u32_small by warith. split; [warith|apply new_pids].
  - apply new_stacks.
  - split; [done|]. rewrite Hres. apply Hpg.
  - destruct Halloc as (_ & _ & _ & _ & _ & _ & ->). rewrite Hb. unfold ts.
    rewrite (count_in_insert _ _ _ old) by (by apply rd_Some). unfold indicator. rewrite Hunused, Hrd.
    simpl. unfold TASK_STACK_PAGES. lia.
Qed.
End new_thread.

Lemma next_pid_pos base k c : core_inv base k c -> 1 <= next_pid k.
Proof.
  intros Hcore. destruct (inv_length _ _ _ Hcore) as [Hl _]. destruct (rd_ok (tasks k) 0) as [t Ht]; [lia|].
  destruct (inv_shell _ _ _ Hcore t Ht) as [Hlive _].
  destruct (inv_pids _ _ _ Hcore) as [_ [H _]]. specialize (H 0 t Ht Hlive). lia.
Qed.

(** [k'] has a new thread in the free slot [i]: ready, with the next process id,
    the entry, priority and affinity given, and [task_bootstrap] as the return
    address on top of a stack of its own. *)
Definition thread_added (boot : Z) (k : sched) (e a pr af : Z) (k' : sched) (i : Z) (t : task_control) : Prop :=
  1 <= i < 64 /\ (exists old, rd (tasks k) i = Some old /\ state (info old) = TASK_UNUSED) /\
  tasks k' = <[Z.to_nat i := t]> (tasks k) /\ current_task k' = current_task k /\
  state (info t) = TASK_READY /\ pid (info t) = next_pid k /\ next_pid k' = next_pid k + 1 /\
  priority (info t) = pr /\ affinity (info t) = af /\ entry t = e /\ argument t = a /\
  (exists p, owns (pages k') t p) /\
  rsp (context t) = stack_base t + TASK_STACK_PAGES * PAGE_SIZE - 16 /\
  words k' !! rsp (context t) = Some boot.

Lemma create_outcome base boot k source e a pr af :
  sched_inv base k -> terminated source -> next_pid k < 2 ^ 32 - 1 ->
  rd source 0 <> Some 0 -> e <> 0 -> af <> 0 ->
  exists k' r, task_create_kernel boot k (Some source) e a pr af = Some (k', r) /\ sched_inv base k' /\
    ((exists i t, r = i32 (next_pid k) /\ thread_added boot k e a pr af k' i t) \/
     (r = -1 /\ tasks k' = tasks k /\ current_task k' = current_task k /\
      ((forall q, reserved_pages (pages k) <= q -> q + TASK_STACK_PAGES <= managed_pages (pages k) ->
          Pmm.blocked (page_bitmap (pages k)) q TASK_STACK_PAGES) \/
       forall j t, 1 <= j -> rd (tasks k) j = Some t -> live t))).
Proof.
  intros Hinv Hsrc Hpid Hch He Haf. pose proof Hinv as (c & x & Hcore & Hx & Hxr).
  pose proof (inv_length _ _ _ Hcore) as (Hl & _). pose proof (inv_pages _ _ _ Hcore) as [Hpm Hres].
  pose proof (next_pid_pos _ _ _ Hcore) as Hnp. pose proof (inv_range _ Hpm) as [_ Hmax].
  unfold task_create_kernel. pose proof Hsrc as [n Hn]. apply rd_range in Hn.
  destruct (rd_ok source 0) as [ch Hc0]; [lia|]. rewrite Hc0, bind_some.
  rewrite (proj2 (Z.eqb_neq ch 0)), (proj2 (Z.eqb_neq e 0)), (proj2 (Z.eqb_neq af 0)) by congruence. cbn [orb].
  destruct (pmm_alloc_outcome (pages k) TASK_STACK_PAGES Hpm) as (pm & addr & -> & Hpm' & Hman & Hres' & Hout);
    [done|]. rewrite bind_some.
  destruct Hout as [(start & -> & Hal)|(-> & [?|Hblk] & Hbm & Hu & _)]; [|done|].
  2: { eexists _, _. split; [reflexivity|]. split; [|right; split_and!; try done; by left].
       apply inv_with_pages; try done. intros q. by rewrite Hbm. }
  pose proof Hal as (_ & Hs1 & Hs2 & Hfree & _ & Hb & Hu).
  assert (forall q, start <= q < start + TASK_STACK_PAGES -> bit (page_bitmap pm) q = true) as Hset.
  { intros q Hq. rewrite Hb. unfold in_run. by rewrite (proj2 (Z.leb_le start q)), (proj2 (Z.ltb_lt q _)) by lia. }
  rewrite (proj2 (Z.eqb_neq (start * PAGE_SIZE) 0)) by (unfold PAGE_SIZE; lia).
  destruct (free_slot_spec (with_pages k pm)) as (i & -> & Hi); [done|]. rewrite bind_some.
  destruct Hi as [[-> Hfull]|(Hi & old & Hold & Hun)].
  - rewrite (proj2 (Z.eqb_eq 64 TASK_MAX)) by done. simpl pages.
    destruct (free_stack pm start) as (pm2 & -> & Hpm2 & Hman2 & Hres2 & Hu2 & Hb2); [done|lia|lia|lia|done|].
    rewrite bind_some. eexists _, _. split; [reflexivity|]. split; [|right; split_and!; try done; by right].
    unfold with_pages at 2. simpl. apply (inv_with_pages base k pm2); try done; [congruence|congruence|lia|].
    intros q. rewrite Hb2, Hb. destruct (in_run start TASK_STACK_PAGES q) eqn:E; [|done]. simpl.
    unfold in_run in E. symmetry. apply Hfree. zcmp.
  - rewrite (proj2 (Z.eqb_neq i TASK_MAX)) by (unfold TASK_MAX; lia).
    destruct (copy_name_total (name zero_info) source) as (nm & -> & _); [done|done|]. rewrite bind_some.
    simpl tasks in *. rewrite wr_ok, bind_some by lia. eexists _, _. split; [reflexivity|]. split.
    + exists c, x. split; [apply (new_core base k c pm start i old); done|].
      simpl. rewrite rd_insert by lia. rewrite (proj2 (Z.eqb_neq i c)); [done|]. intros ->. congruence.
    + left. eexists i, _. split; [done|]. unfold thread_added. split; [done|]. split; [by exists old|].
      split; [done|]. simpl. rewrite (u32_small (next_pid k + 1)) by warith. do 8 (split; [done|]). split.
      * exists start. unfold owns. simpl. rewrite Hman, Hres'. split_and!; done.
      * unfold PAGE_SIZE, TASK_STACK_PAGES, PMM_MAX_PAGES in *. rewrite lookup_insert_eq.
        split; [apply u64_small; warith|done].
Qed.

Lemma create_inv base boot k source e a pr af :
  sched_inv base k -> terminated source -> next_pid k < 2 ^ 32 - 1 ->
  exists k' r, task_create_kernel boot k (Some source) e a pr af = Some (k', r) /\ sched_inv base k'.
Proof.
  intros Hinv Hsrc Hpid. pose proof Hsrc as [n Hn]. apply rd_range in Hn.
  destruct (rd_ok source 0) as [ch Hc]; [lia|].
  destruct (Z.eq_dec ch 0) as [->|], (Z.eq_dec e 0) as [->|], (Z.eq_dec af 0) as [->|];
    try (unfold task_create_kernel; rewrite Hc, bind_some;
         rewrite ?Z.eqb_refl, ?orb_true_r; cbn [orb]; rewrite ?orb_true_r; by eexists _, _).
  destruct (create_outcome base boot k source e a pr af) as (k' & r & ? & ? & _); [done..|congruence|done|done|].
  by exists k', r.
Qed.

Lemma reap_inv base k p :
  sched_inv base k -> exists k' r, task_reap k p = Some (k', r) /\ sched_inv base k'.
Proof.
  intros Hinv. pose proof Hinv as (c & x & Hcore & Hx & Hxr).
  pose proof (inv_length _ _ _ Hcore) as (Hl & Hlc & Hlr).
  unfold task_reap. destruct (index_by_pid_spec k p Hl) as (r & -> & [[-> _]|(Hr & t & Ht & Hlt & _)]);
    [by eexists _, _|].
  rewrite bind_some, (proj2 (Z.ltb_ge r 0)), Ht, bind_some by lia.
  destruct (is_state t TASK_ZOMBIE) eqn:E; cbn [negb]; [|by eexists _, _]. apply is_state_true in E.
  rewrite wr_ok, bind_some by lia. cbn [pages with_stats with_tasks].
  assert (r <> 0) as Hr0 by (intros ->; by apply (inv_shell _ _ _ Hcore t) in Ht as [_ ?]).
  pose proof (inv_pages _ _ _ Hcore) as [Hpm Hres]. pose proof (inv_stacks _ _ _ Hcore) as [Hst1 Hst2].
  destruct (Hst1 r t) as [s Hs]; [lia|done..|]. pose proof Hs as (Hsb & Hsp & Hs1 & Hs2 & Hs3).
  rewrite Hsb, Hsp.
  destruct (free_stack (pages k) s) as (pm & -> & Hpm' & Hman & Hres' & Hu & Hb); [done|lia|lia|lia|done|].
  rewrite bind_some. eexists _, _. split; [reflexivity|].
  exists c, x. split; [|simpl; rewrite rd_insert by lia; rewrite (proj2 (Z.eqb_neq r c)); [done|intros ->; congruence]].
  assert (forall j y, rd (<[Z.to_nat r := zero_task]> (tasks k)) j = Some y ->
    (j = r /\ y = zero_task) \/ (j <> r /\ rd (tasks k) j = Some y)) as Hlook.
  { intros j y. rewrite rd_insert by lia. destruct (Z.eqb_spec r j) as [->|]; [|auto]. intros [= <-]. auto. }
  assert (~ live zero_task) as Hz by (unfold live; simpl; tauto).
  pose proof Hcore as [_ Hc Ho Hrun Hsh Hcn [Hn [Hp1 Hp2]] _ _ Hbal].
  split; simpl; try done.
  - by rewrite length_insert.
  - intros j y [[-> ->]|[_ Hy]]%Hlook; [done|by apply Hrun].
  - intros y [[? _]|[_ Hy]]%Hlook; [done|by apply Hsh].
  - assert (counts_ok (count (stats k) 0 0 0 0 (-1)) (<[Z.to_nat r := zero_task]> (tasks k))) as H
      by (apply (counts_move _ _ _ t); try done; moved E).
    done.
  - split; [done|]. split.
    + intros j y [[-> ->]|[_ Hy]]%Hlook Hly; [done|by apply (Hp1 j)].
    + intros j l y y' [[-> ->]|[_ Hy]]%Hlook [[-> ->]|[_ Hy']]%Hlook Hly Hly' Ep; [done..|by apply (Hp2 j l y y')].
  - split.
    + intros j y Hj [[-> ->]|[Hjr Hy]]%Hlook Hly; [done|].
      destruct (Hst1 j y Hj Hy Hly) as [q Hq]. exists q. eapply owns_mono; [done|done| |exact Hq].
      intros z Hz' Hbz. rewrite Hb, Hbz, andb_true_r. apply negb_true_iff.
      destruct (Hst2 j r y t q s) as [?|?]; try done; try lia; unfold in_run, TASK_STACK_PAGES in *; zcmp.
    + intros j l y y' q q' Hj Hl' Hne [[-> ->]|[Hjr Hy]]%Hlook [[-> ->]|[Hlr' Hy']]%Hlook Hly Hly' Hq Hq'; [done..|].
      destruct (Hst1 j y Hj Hy Hly) as [u Hu1]. destruct (Hst1 l y' Hl' Hy' Hly') as [u' Hu1'].
      rewrite (owns_page _ _ _ _ _ Hq Hu1), (owns_page _ _ _ _ _ Hq' Hu1'). by apply (Hst2 j l y y').
  - split; [done|]. by rewrite Hres'.
  - rewrite Hu, Hbal, (count_in_insert _ _ _ t) by (by apply rd_Some). unfold indicator. rewrite E. simpl.
    unfold TASK_STACK_PAGES. lia.
Qed.

(** ** Reachable states *)

Lemma const_loop (l : list Z) (v : Z) :
  length l = 64%nat -> for_loop (Z.to_nat 64) 0 (fun i l => wr l i v) l = Some (replicate 64 v).
Proof.
  intros Hl. rewrite (map_loop (fun _ => v)); [|done|].
  - f_equal. rewrite <- Hl. clear Hl. by induction l as [|x l IH]; simpl; [|rewrite <- IH].
  - intros i l' x Hi Hx%lookup_lt_Some. apply wr_ok. lia.
Qed.

Lemma count_in_replicate s n t :
  count_in s (replicate n t) = if decide (state (info t) = s) then Z.of_nat n else 0.
Proof.
  induction n as [|n IH]; simpl replicate; [by destruct (decide _)|].
  rewrite count_in_cons, IH. unfold indicator. destruct (decide _); lia.
Qed.

Lemma rd_replicate {A} n (x y : A) i : rd (replicate n x) i = Some y -> y = x.
Proof. intros [_ H]%rd_Some. by apply lookup_replicate in H as [? _]. Qed.

Lemma init_inv k tick :
  length (current_task k) = 64%nat -> length (round_robin_cursor k) = 64%nat ->
  pmm_inv (pages k) -> 0 < reserved_pages (pages k) ->
  exists k' shell, task_init k tick = Some k' /\ sched_inv (used_pages (pages k)) k' /\ next_pid k' = 2 /\
    pages k' = pages k /\ rd (current_task k') 0 = Some 0 /\
    tasks k' = <[0%nat := shell]> (replicate 64 zero_task) /\ priority (info shell) = 10 /\
    state (info shell) = TASK_RUNNING.
Proof.
  intros Hc Hr Hpm Hres. unfold task_init, SMP_MAX_CPUS, TASK_MAX.
  rewrite !const_loop, !bind_some by done.
  destruct (copy_name_total (name zero_info) [107; 101; 114; 110; 101; 108; 45; 115; 104; 101; 108; 108; 0])
    as (nm & -> & _); [by exists 12|done|]. rewrite bind_some.
  rewrite !wr_ok, !bind_some by (rewrite length_replicate; lia).
  set (shell := with_info _ _). eexists _, shell. split; [reflexivity|].
  split; [|split_and!; done]. change (Z.to_nat 0) with 0%nat. exists 0, shell.
  assert (forall j y, rd (<[0%nat := shell]> (replicate (Z.to_nat 64) zero_task)) j = Some y ->
    (j = 0 /\ y = shell) \/ (j <> 0 /\ y = zero_task)) as Hlook.
  { intros j y. change 0%nat with (Z.to_nat 0). rewrite rd_insert by (rewrite length_replicate; lia).
    destruct (Z.eqb_spec 0 j) as [<-|]; [intros [= <-]; auto|]. intros H%rd_replicate. auto. }
  assert (forall s, count_in s (<[0%nat := shell]> (replicate (Z.to_nat 64) zero_task)) =
    (if decide (TASK_UNUSED = s) then 63 else 0) + (if decide (TASK_RUNNING = s) then 1 else 0)) as Hcount.
  { intros s. rewrite (count_in_insert _ _ _ zero_task) by done. rewrite count_in_replicate.
    unfold indicator. simpl. by destruct s. }
  assert (~ live zero_task) as Hz by (unfold live; simpl; tauto).
  split; [|done]. split; cbn [tasks current_task round_robin_cursor stats pages next_pid].
  - by rewrite !length_insert.
  - done.
  - intros cpu Hcpu. change 0%nat with (Z.to_nat 0).
    rewrite (rd_wr (replicate 64 TASK_NO_CURRENT) 0 cpu 0) by (by apply wr_ok).
    rewrite (proj2 (Z.eqb_neq 0 cpu)) by lia. unfold rd. rewrite (proj2 (Z.ltb_ge cpu 0)) by lia.
    apply lookup_replicate_2. lia.
  - intros j y [[-> _]|[_ ->]]%Hlook; done.
  - intros y [[_ ->]|[? _]]%Hlook; done.
  - unfold counts_ok. rewrite !Hcount. done.
  - split; [done|]. split.
    + intros j y [[_ ->]|[_ ->]]%Hlook Hl; [simpl; lia|done].
    + intros i j y y' [[-> ->]|[_ ->]]%Hlook [[-> ->]|[_ ->]]%Hlook Hl Hl' _; done.
  - split.
    + intros j y Hj [[-> _]|[_ ->]]%Hlook Hl; [lia|done].
    + intros i j y y' p p' Hi Hj Hne [[-> _]|[_ ->]]%Hlook _ Hl; [lia|done].
  - done.
  - rewrite Hcount. simpl. unfold TASK_STACK_PAGES. lia.
Qed.

Inductive sched_op :=
  | OpCreate (source : list Z) (entry argument priority affinity : Z)
  | OpYield (cpu : option Z)
  | OpSleep (cpu : option Z) (wake : Z)
  | OpFinish (cpu : option Z)
  | OpWake (pid : Z)
  | OpBlock (pid : Z)
  | OpAffinity (pid affinity : Z)
  | OpTick (tick : Z)
  | OpReap (pid : Z).

Definition run_op (boot : Z) (k : sched) (op : sched_op) : option sched :=
  match op with
  | OpCreate source e a pr af => fst <$> task_create_kernel boot k (Some source) e a pr af
  | OpYield cpu => fst <$> task_yield k cpu
  | OpSleep cpu w => fst <$> task_sleep_until k cpu w
  | OpFinish cpu => fst <$> task_finish k cpu
  | OpWake p => fst <$> task_wake k p
  | OpBlock p => fst <$> task_block k p
  | OpAffinity p a => fst <$> task_set_affinity k p a
  | OpTick tick => task_scheduler_tick k tick
  | OpReap p => fst <$> task_reap k p
  end.

(** What the callers have to respect: names are C strings and process ids do
    not wrap; the executing CPU exists; a task goes to sleep, and a thread
    ends, only when another task is ready to run; threads end on CPU 0, and the
    shell (task 0) does not end.  The condition on sleeping is needed: without
    another ready task the counters go wrong ([task_sleep_alone], task.c:171). *)
Definition allowed (k : sched) (op : sched_op) : Prop :=
  match op with
  | OpCreate source _ _ _ _ => terminated source /\ next_pid k < 2 ^ 32 - 1
  | OpYield cpu => 0 <= local_cpu_id cpu < 64
  | OpSleep cpu _ => 0 <= local_cpu_id cpu < 64 /\ other_ready k
  | OpFinish cpu => local_cpu_id cpu = 0 /\ rd (current_task k) 0 <> Some 0 /\ other_ready k
  | _ => True
  end.

Inductive reachable (boot : Z) (k0 : sched) (tick : Z) : sched -> Prop :=
  | reach_init k : task_init k0 tick = Some k -> reachable boot k0 tick k
  | reach_step k op k' :
      reachable boot k0 tick k -> allowed k op -> run_op boot k op = Some k' ->
      reachable boot k0 tick k'.

Lemma run_op_inv base boot k op :
  sched_inv base k -> allowed k op -> exists k', run_op boot k op = Some k' /\ sched_inv base k'.
Proof.
  intros Hinv Hok. destruct op as [source e a pr af|cpu|cpu w|cpu|p|p|p a|tick|p]; cbn [run_op allowed] in *.
  - destruct Hok as [Hs Hp]. destruct (create_inv base boot k source e a pr af) as (k' & r & -> & H); [done..|]. by exists k'.
  - pose proof Hinv as (c & t & Hcore & Ht & Hr). destruct (Z.eq_dec (local_cpu_id cpu) 0) as [E|E].
    + destruct (yield_core base k c t cpu Hcore E Ht (running_live t Hr) (or_introl Hr))
        as (k' & n & out & -> & Hinv' & _ & _ & _ & _ & t' & _ & Ht' & Hr' & _). exists k'. split; [done|]. by exists n, t'.
    + rewrite (yield_idle base k c) by done. by exists k.
  - destruct Hok. destruct (sleep_inv base k cpu w) as (k' & out & -> & H'); [done..|]. by exists k'.
  - destruct Hok as (? & ? & ?). destruct (finish_inv base k cpu) as (k' & out & -> & H'); [done..|]. by exists k'.
  - destruct (wake_inv base k p Hinv) as (k' & r & -> & H). by exists k'.
  - destruct (block_inv base k p Hinv) as (k' & r & -> & H). by exists k'.
  - destruct (affinity_inv base k p a Hinv) as (k' & r & -> & H). by exists k'.
  - apply (tick_inv base k tick Hinv).
  - destruct (reap_inv base k p Hinv) as (k' & r & -> & H). by exists k'.
Qed.


(** The state before [task_init], with a small machine's memory. *)
Definition blank : sched :=
  {| tasks := replicate 64 zero_task; current_task := replicate 64 0; next_pid := 0;
     round_robin_cursor := replicate 64 0; stats := zero_stats; pages := Pmm.demo; words := ∅ |}.


Lemma task_yield_chooses_best_witness :
  exists k k' out, sched_inv 8 k /\ task_yield k None = Some (k', out) /\ sched_inv 8 k'.
Proof.
  destruct (init_inv blank 5) as (k & shell & _ & Hk & _);
    [reflexivity|reflexivity|apply Pmm.demo_inv|reflexivity|].
  destruct (task_yield_chooses_best 8 k None Hk) as (c & k' & n & out & _ & Hy & _ & Hk' & _); [reflexivity|].
  exists k, k', out. split; [exact Hk|]. split; [exact Hy|exact Hk'].
Defined.

(** Creating a thread.  With a nonempty name, an entry point and an affinity
    [task_create_kernel] returns the new process id and adds exactly one ready
    thread, with a fresh stack whose top holds the address of
    [task_bootstrap]; it fails only when the page allocator has no four free
    pages in a row or every slot is taken, and then the table is unchanged and
    no page is lost. *)
Theorem task_create_kernel_correct base boot k source e a pr af :
  sched_inv base k -> terminated source -> next_pid k < 2 ^ 32 - 1 ->
  rd source 0 <> Some 0 -> e <> 0 -> af <> 0 ->
  exists k' r, task_create_kernel boot k (Some source) e a pr af = Some (k', r) /\ sched_inv base k' /\
    ((exists i t, r = i32 (next_pid k) /\ thread_added boot k e a pr af k' i t) \/
     (r = -1 /\ tasks k' = tasks k /\ current_task k' = current_task k /\
      ((forall q, reserved_pages (pages k) <= q -> q + TASK_STACK_PAGES <= managed_pages (pages k) ->
          Pmm.blocked (page_bitmap (pages k)) q TASK_STACK_PAGES) \/
       forall j t, 1 <= j -> rd (tasks k) j = Some t -> live t))).
Proof. apply create_outcome. Qed.

(** A thread of the shell's priority, right after boot. *)
Lemma first_thread :
  exists k k' r i t, sched_inv 8 k /\ next_pid k = 2 /\
    task_create_kernel 4096 k (Some [97; 0]) 1 0 10 1 = Some (k', r) /\ sched_inv 8 k' /\
    thread_added 4096 k 1 0 10 1 k' i t /\ rd (current_task k') 0 = Some 0 /\ waits_its_turn k' 0 i.
Proof.
  destruct (init_inv blank 5) as (k & shell & _ & Hk & Hp & Hpg & Hc & Hts & Hpr & Hrun); [done|done|apply Pmm.demo_inv|done|].
  assert (forall j y, rd (tasks k) j = Some y -> (j = 0 /\ y = shell) \/ (j <> 0 /\ y = zero_task)) as Hlook.
  { intros j y. rewrite Hts. change 0%nat with (Z.to_nat 0). rewrite rd_insert by (rewrite length_replicate; lia).
    destruct (Z.eqb_spec 0 j) as [<-|]; [intros [= <-]; auto|]. intros H%rd_replicate. auto. }
  destruct (create_outcome 8 4096 k [97; 0] 1 0 10 1) as (k' & r & Hcr & Hk' & [(i & t & _ & Hadd)|(_ & _ & _ & Hno)]);
    [done|by exists 1|lia|done..| |].
  - exists k, k', r, i, t. do 5 (split; [done|]).
    destruct Hadd as (Hi & _ & Hts' & Hcur & Hst & _ & _ & Hprt & Haf & _). rewrite Hcur. split; [done|].
    assert (length (tasks k) = 64%nat) as Hl by (rewrite Hts; by rewrite length_insert).
    assert (priority_of (tasks k') i = 10) as Hpi.
    { unfold priority_of. by rewrite Hts', rd_insert, Z.eqb_refl by lia. }
    split; [|split].
    + exists t. rewrite Hts', rd_insert, Z.eqb_refl, Haf by lia. done.
    + rewrite Hpi. unfold priority_of. rewrite Hts', rd_insert by lia. rewrite (proj2 (Z.eqb_neq i 0)) by lia.
      destruct (rd (tasks k) 0) as [y|] eqn:Hy; [|lia]. apply Hlook in Hy as [[_ ->]|[? _]]; [lia|done].
    + intros j (y & Hy & Hyr & _). rewrite Hpi. unfold priority_of. rewrite Hy.
      rewrite Hts', rd_insert in Hy by lia. destruct (Z.eqb_spec i j) as [_|]; [simplify_eq; lia|].
      apply Hlook in Hy as [[_ ->]|[_ ->]]; [congruence|done].
  - exfalso. destruct Hno as [Hno|Hno].
    + rewrite Hpg in Hno. cbn [blank pages] in Hno.
      destruct (Hno 8) as (q & Hq & Hbit);
        [cbn [demo reserved_pages]; lia|cbn [demo managed_pages]; unfold TASK_STACK_PAGES; lia|].
      unfold TASK_STACK_PAGES in Hq.
      rewrite demo_bit in Hbit by (unfold PMM_MAX_PAGES; lia). unfold in_run in Hbit. clear -Hq Hbit. zcmp.
    + destruct (rd_ok (tasks k) 1) as [y Hy]; [rewrite Hts, length_insert, length_replicate; lia|].
      specialize (Hno 1 y ltac:(lia) Hy). apply Hlook in Hy as [[? _]|[_ ->]]; [done|]. by apply Hno.
Qed.

Lemma task_create_kernel_correct_witness :
  exists k k' r, task_create_kernel 4096 k (Some [97; 0]) 1 0 10 1 = Some (k', r) /\ sched_inv 8 k'.
Proof.
  destruct first_thread as (k & _ & _ & _ & _ & Hk & Hp & _).
  destruct (task_create_kernel_correct 8 4096 k [97; 0] 1 0 10 1) as (k' & r & Hc & Hk' & _);
    [exact Hk|by exists 1|lia|done|done|done|].
  exists k, k', r. split; [exact Hc|exact Hk'].
Defined.

Lemma task_yield_no_starvation_witness :
  exists k k' n i, yield_times n k None = Some k' /\ rd (current_task k) 0 = Some 0 /\
    rd (current_task k') 0 = Some i /\ i <> 0.
Proof.
  destruct first_thread as (_ & k & _ & i & t & _ & _ & _ & Hk & (Hi & _) & Hc & Hw).
  destruct (task_yield_no_starvation 8 k None 0 i Hk eq_refl Hc Hw) as (n & k' & _ & Hy & _ & Hc').
  exists k, k', n, i. split; [exact Hy|]. split; [exact Hc|]. split; [exact Hc'|lia].
Defined.

(** ** Sleeping alone *)

(** A task that goes to sleep while no other task can run does not sleep, and
    the statistics are wrong from then on: [task_yield] finds no other task,
    makes the sleeping task run again at once, and takes it off the [ready]
    counter, in which it never was, instead of the [sleeping] one.  With no
    ready task [ready] becomes 4294967295. *)
Theorem task_sleep_alone base k c cpu w :
  sched_inv base k -> local_cpu_id cpu = 0 -> rd (current_task k) 0 = Some c ->
  (forall j, ~ eligible (tasks k) 0 j) ->
  exists k' t', task_sleep_until k cpu w = Some (k', None) /\
    rd (tasks k') c = Some t' /\ state (info t') = TASK_RUNNING /\
    ready (stats k') = u32 (count_in TASK_READY (tasks k') - 1) /\
    sleeping (stats k') = count_in TASK_SLEEPING (tasks k') + 1.
Proof.
  intros (c' & t & Hcore & Ht & Hr) Hcpu Hc Hno.
  pose proof (inv_current _ _ _ Hcore) as (Hc' & Hcu & Hcr). assert (c' = c) as -> by congruence.
  pose proof (inv_length _ _ _ Hcore) as (Hl & _).
  unfold task_sleep_until, sleep_begin, task_yield. rewrite Hcpu, Hc', bind_some.
  rewrite (proj2 (Z.eqb_neq c TASK_NO_CURRENT)) by (unfold TASK_NO_CURRENT; lia).
  rewrite Ht, bind_some, wr_ok, !bind_some by lia. set (t1 := with_info t (with_wake (info t) w)).
  set (k1 := with_stats _ _). change (current_task k1) with (current_task k).
  rewrite Hc', bind_some, (proj2 (Z.eqb_neq c TASK_NO_CURRENT)) by (unfold TASK_NO_CURRENT; lia).
  assert (rd (tasks k1) c = Some t1) as Ht1 by (simpl; by rewrite rd_insert, Z.eqb_refl by lia).
  rewrite Ht1, bind_some. rewrite (proj2 (is_state_false t1 TASK_RUNNING)) by done. rewrite bind_some.
  assert (forall j, ~ eligible (tasks k1) 0 j) as Hno1.
  { intros j (y & Hy & Hyr & Hya). simpl in Hy. rewrite rd_insert in Hy by lia.
    destruct (Z.eqb_spec c j) as [->|]; [by simplify_eq|]. apply (Hno j). by exists y. }
  destruct (choose_next_best k1 0 c) as (n & -> & Hn & [[-> _]|[He _]]);
    [simpl; by rewrite length_insert|done|done| |by destruct (Hno1 n)].
  rewrite bind_some, Z.eqb_refl, Ht1, bind_some, wr_ok, bind_some by (simpl; rewrite length_insert; lia).
  eexists _, (set_state t1 TASK_RUNNING). split; [reflexivity|]. simpl. rewrite list_insert_insert_eq.
  rewrite rd_insert, Z.eqb_refl by lia. split; [done|]. split; [done|].
  pose proof (inv_counts _ _ _ Hcore) as (_ & E2 & E3 & _).
  pose proof (count_in_bounds TASK_SLEEPING (tasks k)) as Hb. pose proof (count_in_bounds TASK_READY (tasks k)) as Hb2.
  rewrite !(count_in_insert _ _ _ t) by (by apply rd_Some). unfold indicator. simpl. rewrite Hr. simpl.
  rewrite E2, E3, !Z.add_0_r, Z.sub_0_r. rewrite (u32_small (count_in TASK_READY (tasks k))) by warith.
  rewrite Z.sub_0_r. split; [done|]. rewrite (u32_small (count_in TASK_SLEEPING _ + 1)) by warith. rewrite u32_small; [done|warith].
Qed.

Lemma task_sleep_alone_witness :
  exists k k', sched_inv 8 k /\ task_sleep_until k None 77 = Some (k', None) /\
    sleeping (stats k') = count_in TASK_SLEEPING (tasks k') + 1.
Proof.
  destruct (init_inv blank 5) as (k & shell & _ & Hk & _ & _ & Hc & Hts & _ & Hrun);
    [reflexivity|reflexivity|apply Pmm.demo_inv|reflexivity|].
  destruct (task_sleep_alone 8 k 0 None 77 Hk eq_refl Hc) as (k' & t' & Hs & _ & _ & _ & H).
  - intros j (y & Hy & Hyr & _). rewrite Hts in Hy. change 0%nat with (Z.to_nat 0) in Hy.
    rewrite rd_insert in Hy by (rewrite length_replicate; lia).
    destruct (Z.eqb_spec 0 j); [simplify_eq; congruence|]. apply rd_replicate in Hy as ->. discriminate.
  - exists k, k'. split; [exact Hk|]. split; [exact Hs|exact H].
Defined.
