(* ===== verification/Ramfs.v ===== *)
(** * The RAM file system and the VFS layer: src/fs/ramfs.c and src/fs/vfs.c

    Sixty-four nodes with a parent index, and a current directory.  A C string
    is the list of its characters with the terminator and whatever follows; a
    read or a write outside an array is a fault.  The uninitialised arrays on
    the C stack are parameters of the section. *)

From Stdlib Require Import String Ascii.
From S2P Require Import Prelude.

#[local] Open Scope Z_scope.

Definition FS_NAME_MAX : Z := 24.
Definition FS_DATA_MAX : Z := 256.
Definition FS_PATH_MAX : Z := 128.
Definition FS_NODE_MAX : Z := 64.

Record fs_entry : Type := {
  entry_name : list Z;
  entry_is_directory : Z;
  entry_size : Z;
}.

Record fs_node : Type := {
  used : Z;
  is_directory : Z;
  parent : Z;
  size : Z;
  name : list Z;
  data : list Z;
}.

Record ramfs : Type := {
  nodes : list fs_node;
  current_directory : Z;
}.

Definition with_node (s : ramfs) (index : Z) (n : fs_node) : option ramfs :=
  l ← wr (nodes s) index n; Some {| nodes := l; current_directory := current_directory s |}.

(** A string literal, with its terminator. *)
Fixpoint literal (text : string) : list Z :=
  match text with
  | EmptyString => [0]
  | String c text => Z.of_nat (nat_of_ascii c) :: literal text
  end.

Definition SLASH : Z := 47.

(** ** Strings *)

Definition string_length (text : list Z) : option Z :=
  while_loop (S (length text))
    (fun len => c ← rd text len;
                if negb (c =? 0) then Some (inl (u32 (len + 1))) else Some (inr len)) 0.

Definition string_copy (target source : list Z) (capacity : Z) : option (list Z) :=
  if capacity =? 0 then Some target else
  '(target, index) ← while_loop (S (length source))
    (fun '(target, index) =>
       c ← rd source index;
       if negb (c =? 0) && (u32 (index + 1) <? capacity) then
         target ← wr target index c; Some (inl (target, u32 (index + 1)))
       else Some (inr (target, index))) (target, 0);
  wr target index 0.

Definition string_equal (left right : list Z) : option Z :=
  while_loop (S (length left))
    (fun i => a ← rd left i;
              if a =? 0 then b ← rd right i; Some (inr (if a =? b then 1 else 0)) else
              b ← rd right i;
              if b =? 0 then Some (inr (if a =? b then 1 else 0))
              else if negb (a =? b) then Some (inr 0) else Some (inl (i + 1))) 0.

(** ** Looking nodes up *)

Definition find_child (s : ramfs) (parent' : Z) (name' : list Z) : option Z :=
  r ← for_break (Z.to_nat FS_NODE_MAX - 1) 1
    (fun index (_ : unit) =>
       n ← rd (nodes s) index;
       if negb (used n =? 0) && (parent n =? parent') then
         e ← string_equal (name n) name';
         Some (if negb (e =? 0) then inr index else inl tt)
       else Some (inl tt)) tt;
  Some (match r with inl _ => -1 | inr index => index end).

(** [while (path[position] == '/') position++] *)
Definition skip_slashes (path : list Z) (position : Z) : option Z :=
  while_loop (S (length path))
    (fun position => c ← rd path position;
                     if c =? SLASH then Some (inl (u32 (position + 1))) else Some (inr position)) position.

(** The loop that copies one path segment: [None] in the result is the return
    of -1 for a segment that is too long. *)
Definition take_segment (path segment : list Z) (position : Z)
    : option (option (list Z * Z * Z)) :=
  while_loop (S (length path))
    (fun '(segment, len, position) =>
       c ← rd path position;
       if negb (c =? 0) && negb (c =? SLASH) then
         if FS_NAME_MAX <=? u32 (len + 1) then Some (inr None) else
         segment ← wr segment len c; Some (inl (segment, u32 (len + 1), u32 (position + 1)))
       else Some (inr (Some (segment, len, position)))) (segment, 0, position).

Section stack.
(** The uninitialised stack arrays of [resolve], [resolve_parent],
    [create_node] and [fs_pwd]. *)
Variables (segment0 parent_path0 name0 chain0 : list Z).

(** One round of the loop of [resolve]: [inr] is the returned value. *)
Definition resolve_step (s : ramfs) (path : list Z) (st : Z * Z * list Z)
    : option (Z * Z * list Z + Z) :=
  let '(node, position, segment) := st in
  c ← rd path position;
  if c =? 0 then Some (inr node) else
  position ← skip_slashes path position;
  c ← rd path position;
  if c =? 0 then Some (inr node) else
  r ← take_segment path segment position;
  match r with
  | None => Some (inr (-1))
  | Some (segment, len, position) =>
    segment ← wr segment len 0;
    dot ← string_equal segment (literal ".");
    if negb (dot =? 0) then Some (inl (node, position, segment)) else
    dots ← string_equal segment (literal "..");
    n ← rd (nodes s) node;
    if negb (dots =? 0) then Some (inl (parent n, position, segment)) else
    if is_directory n =? 0 then Some (inr (-1)) else
    child ← find_child s node segment;
    if child <? 0 then Some (inr (-1)) else Some (inl (u8 child, position, segment))
  end.

Definition resolve (s : ramfs) (path : list Z) : option Z :=
  c ← rd path 0;
  let node := if c =? SLASH then 0 else current_directory s in
  let position := if c =? SLASH then 1 else 0 in
  while_loop (S (length path)) (resolve_step s path) (node, position, segment0).

(** [while (split > 0u && path[split - 1u] != '/') split--] *)
Definition find_split (path : list Z) (split : Z) : option Z :=
  while_loop (S (length path))
    (fun split =>
       if 0 <? split then
         c ← rd path (u32 (split - 1));
         if negb (c =? SLASH) then Some (inl (u32 (split - 1))) else Some (inr split)
       else Some (inr split)) split.

(** The result: the status, the parent (when 0) and the caller's name buffer. *)
Definition resolve_parent (s : ramfs) (path name' : list Z) : option (Z * Z * list Z) :=
  length' ← string_length path;
  bad ← (if (length' =? 0) || (FS_PATH_MAX <=? length') then Some true
         else c ← rd path (u32 (length' - 1)); Some (c =? SLASH));
  if bad : bool then Some (-1, 0, name') else
  split ← find_split path length';
  let n := u32 (length' - split) in
  if (n =? 0) || (FS_NAME_MAX <=? n) then Some (-1, 0, name') else
  name' ← for_loop (Z.to_nat n) 0
    (fun index name' => c ← rd path (u32 (split + index)); wr name' index c) name';
  name' ← wr name' n 0;
  dot ← string_equal name' (literal ".");
  if negb (dot =? 0) then Some (-1, 0, name') else
  dots ← string_equal name' (literal "..");
  if negb (dots =? 0) then Some (-1, 0, name') else
  if split =? 0 then Some (0, current_directory s, name') else
  parent_path ← (if split =? 1 then
                   p ← wr parent_path0 0 SLASH; wr p 1 0
                 else
                   p ← for_loop (Z.to_nat (split - 1)) 0
                     (fun index p => c ← rd path index; wr p index c) parent_path0;
                   wr p (u32 (split - 1)) 0);
  resolved ← resolve s parent_path;
  if resolved <? 0 then Some (-1, 0, name') else
  n ← rd (nodes s) resolved;
  if is_directory n =? 0 then Some (-1, 0, name') else Some (0, u8 resolved, name').

(** ** Changing the tree *)

Definition create_node (s : ramfs) (path : list Z) (is_directory' : Z) : option (ramfs * Z) :=
  '(r, parent', name') ← resolve_parent s path name0;
  if negb (r =? 0) then Some (s, -1) else
  child ← find_child s parent' name';
  if 0 <=? child then Some (s, -1) else
  r ← for_break (Z.to_nat FS_NODE_MAX - 1) 1
    (fun index (_ : unit) =>
       n ← rd (nodes s) index;
       if used n =? 0 then
         d ← wr (data n) 0 0;
         nm ← string_copy (name n) name' FS_NAME_MAX;
         s ← with_node s index {| used := 1; is_directory := is_directory'; parent := parent';
                                  size := 0; name := nm; data := d |};
         Some (inr (s, 0))
       else Some (inl tt)) tt;
  Some (match r with inl _ => (s, -1) | inr v => v end).

Definition fs_mkdir (s : ramfs) (path : list Z) : option (ramfs * Z) := create_node s path 1.

Definition fs_touch (s : ramfs) (path : list Z) : option (ramfs * Z) :=
  node ← resolve s path;
  if 0 <=? node then
    n ← rd (nodes s) node; Some (s, if is_directory n =? 0 then 0 else -1)
  else create_node s path 0.

(** The copy loop of [fs_write]. *)
Definition write_text (data' text : list Z) (position : Z) : option (list Z * Z * Z) :=
  while_loop (S (length text))
    (fun '(data', position, index) =>
       c ← rd text index;
       if negb (c =? 0) && (u32 (position + 1) <? FS_DATA_MAX) then
         data' ← wr data' position c; Some (inl (data', u32 (position + 1), u32 (index + 1)))
       else Some (inr (data', position, index))) (data', position, 0).

Definition fs_write (s : ramfs) (path text : list Z) (append : Z) : option (ramfs * Z) :=
  node ← resolve s path;
  if node <? 0 then Some (s, -1) else
  n ← rd (nodes s) node;
  if negb (is_directory n =? 0) then Some (s, -1) else
  let position := if negb (append =? 0) then size n else 0 in
  '(d, position, index) ← write_text (data n) text position;
  d ← wr d position 0;
  s ← with_node s node {| used := used n; is_directory := is_directory n; parent := parent n;
                          size := u16 position; name := name n; data := d |};
  c ← rd text index;
  Some (s, if c =? 0 then 0 else -2).

(** The result: the status, the node whose [data] the caller's pointer is set
    to, and the size. *)
Definition fs_read (s : ramfs) (path : list Z) : option (Z * option (Z * Z)) :=
  node ← resolve s path;
  if node <? 0 then Some (-1, None) else
  n ← rd (nodes s) node;
  if negb (is_directory n =? 0) then Some (-1, None) else Some (0, Some (node, size n)).

(** The scan of [fs_remove] for children. *)
Definition has_child (s : ramfs) (node : Z) : option bool :=
  r ← for_break (Z.to_nat FS_NODE_MAX - 1) 1
    (fun index (_ : unit) =>
       n ← rd (nodes s) index;
       if negb (used n =? 0) && (parent n =? u8 node) then Some (inr tt) else Some (inl tt)) tt;
  Some (match r with inl _ => false | inr _ => true end).

Definition fs_remove (s : ramfs) (path : list Z) : option (ramfs * Z) :=
  node ← resolve s path;
  if node <=? 0 then Some (s, -1) else
  n ← rd (nodes s) node;
  busy ← (if negb (is_directory n =? 0) then has_child s node else Some false);
  if busy : bool then Some (s, -2) else
  s ← with_node s node {| used := 0; is_directory := is_directory n; parent := parent n;
                          size := size n; name := name n; data := data n |};
  Some (s, 0).

Definition fs_chdir (s : ramfs) (path : list Z) : option (ramfs * Z) :=
  node ← resolve s path;
  if node <? 0 then Some (s, -1) else
  n ← rd (nodes s) node;
  if is_directory n =? 0 then Some (s, -1)
  else Some ({| nodes := nodes s; current_directory := u8 node |}, 0).

(** ** The path of the current directory *)

(** The first loop of [fs_pwd]: the chain of nodes up to the root. *)
Definition collect_chain (s : ramfs) : option (list Z * Z) :=
  while_loop (S (Z.to_nat FS_NODE_MAX))
    (fun '(chain, node, depth) =>
       if negb (node =? 0) && (depth <? FS_NODE_MAX) then
         chain ← wr chain depth node;
         n ← rd (nodes s) node;
         Some (inl (chain, parent n, u32 (depth + 1)))
       else Some (inr (chain, depth))) (chain0, current_directory s, 0).

(** The second loop; [inr] with [None] is the early return of -1, which leaves
    what has been written so far in the caller's buffer. *)
Definition print_step (s : ramfs) (capacity : Z) (chain : list Z) (st : list Z * Z * Z)
    : option (list Z * Z * Z + list Z * option Z) :=
  let '(output, position, depth) := st in
  if 0 <? depth then
    let depth := u32 (depth - 1) in
    node ← rd chain depth;
    n ← rd (nodes s) node;
    len ← string_length (name n);
    if capacity <=? u32 (position + len + 1) then Some (inr (output, None)) else
    output ← for_loop (Z.to_nat len) 0
      (fun index output => c ← rd (name n) index; wr output (u32 (position + index)) c) output;
    let position := u32 (position + len) in
    '(output, position) ← (if 0 <? depth then
                             output ← wr output position SLASH; Some (output, u32 (position + 1))
                           else Some (output, position));
    Some (inl (output, position, depth))
  else Some (inr (output, Some position)).

(** The result: the caller's buffer and the status. *)
Definition fs_pwd (s : ramfs) (output : list Z) (capacity : Z) : option (list Z * Z) :=
  if capacity <? 2 then Some (output, -1) else
  '(chain, depth) ← collect_chain s;
  output ← wr output 0 SLASH;
  '(output, r) ← while_loop (S (Z.to_nat FS_NODE_MAX)) (print_step s capacity chain) (output, 1, depth);
  match r with
  | Some position => output ← wr output position 0; Some (output, 0)
  | None => Some (output, -1)
  end.

(** ** Listing *)

Definition entry_of (e : fs_entry) (n : fs_node) (is_directory' : Z) : option fs_entry :=
  nm ← string_copy (entry_name e) (name n) FS_NAME_MAX;
  Some {| entry_name := nm; entry_is_directory := is_directory'; entry_size := size n |}.

Definition fs_list (s : ramfs) (path : list Z) (entries : list fs_entry) (capacity : Z)
    : option (list fs_entry * Z) :=
  c ← rd path 0;
  node ← (if c =? 0 then Some (current_directory s) else resolve s path);
  if node <? 0 then Some (entries, -1) else
  n ← rd (nodes s) node;
  if is_directory n =? 0 then
    if capacity =? 0 then Some (entries, 0) else
    e ← rd entries 0;
    e ← entry_of e n 0;
    entries ← wr entries 0 e;
    Some (entries, 1)
  else
    r ← for_break (Z.to_nat FS_NODE_MAX - 1) 1
      (fun index '(entries, count) =>
         if negb (count <? capacity) then Some (inr (entries, count)) else
         n ← rd (nodes s) index;
         if negb (used n =? 0) && (parent n =? u8 node) then
           e ← rd entries count;
           e ← entry_of e n (is_directory n);
           entries ← wr entries count e;
           Some (inl (entries, u32 (count + 1)))
         else Some (inl (entries, count))) (entries, 0);
    let '(entries, count) := match r with inl v => v | inr v => v end in
    Some (entries, i32 count).

(** ** Initialisation *)

Definition clear_used (n : fs_node) : fs_node :=
  {| used := 0; is_directory := is_directory n; parent := parent n; size := size n;
     name := name n; data := data n |}.

(** The calls at the end of [fs_init]; their status is ignored. *)
Definition fs_init (s : ramfs) : option ramfs :=
  l ← for_loop (Z.to_nat FS_NODE_MAX) 0
    (fun index l => n ← rd l index; wr l index (clear_used n)) (nodes s);
  root ← rd l 0;
  nm ← wr (name root) 0 0;
  l ← wr l 0 {| used := 1; is_directory := 1; parent := 0; size := size root; name := nm;
                data := data root |};
  let s := {| nodes := l; current_directory := 0 |} in
  '(s, _) ← fs_mkdir s (literal "/home");
  '(s, _) ← fs_mkdir s (literal "/bin");
  '(s, _) ← fs_mkdir s (literal "/dev");
  '(s, _) ← fs_mkdir s (literal "/etc");
  '(s, _) ← fs_mkdir s (literal "/kernel");
  '(s, _) ← fs_mkdir s (literal "/tmp");
  '(s, _) ← fs_mkdir s (literal "/var");
  '(s, _) ← fs_touch s (literal "/home/welcome.txt");
  '(s, _) ← fs_write s (literal "/home/welcome.txt")
              (literal (String.append "Welcome to MVH Kernel 1.1.10" (String "010" EmptyString))) 0;
  '(s, _) ← fs_touch s (literal "/etc/version");
  '(s, _) ← fs_write s (literal "/etc/version") (literal (String.append "1.1.10" (String "010" EmptyString))) 0;
  '(s, _) ← fs_touch s (literal "/kernel/release");
  '(s, _) ← fs_write s (literal "/kernel/release")
              (literal (String.append "MVHKernel 1.1.10 x86_64" (String "010" EmptyString))) 0;
  Some s.

(** ** The VFS layer: every call is forwarded to the RAM file system *)

Definition vfs_init (s : ramfs) : option ramfs := fs_init s.
Definition vfs_root_type : list Z := literal "ramfs".
Definition vfs_chdir (s : ramfs) (path : list Z) : option (ramfs * Z) := fs_chdir s path.
Definition vfs_pwd (s : ramfs) (output : list Z) (capacity : Z) : option (list Z * Z) :=
  fs_pwd s output capacity.
Definition vfs_list (s : ramfs) (path : list Z) (entries : list fs_entry) (capacity : Z)
    : option (list fs_entry * Z) := fs_list s path entries capacity.
Definition vfs_mkdir (s : ramfs) (path : list Z) : option (ramfs * Z) := fs_mkdir s path.
Definition vfs_touch (s : ramfs) (path : list Z) : option (ramfs * Z) := fs_touch s path.
Definition vfs_write (s : ramfs) (path text : list Z) (append : Z) : option (ramfs * Z) :=
  fs_write s path text append.
Definition vfs_read (s : ramfs) (path : list Z) : option (Z * option (Z * Z)) := fs_read s path.
Definition vfs_remove (s : ramfs) (path : list Z) : option (ramfs * Z) := fs_remove s path.

End stack.
