(* ===== verification/RamfsTree.v ===== *)
(** * The RAM file system as a tree

    The string routines of ramfs.c, the names of a path text, the invariant of
    the node table, the map from paths to entries that a table stands for, and
    the proof that path resolution is a walk in that map. *)

From Stdlib Require Import String Ascii.
From S2P Require Import Prelude Buffer Ramfs.

#[local] Open Scope Z_scope.

(** ** Strings *)

Lemma string_length_spec array str :
  c_string array str -> Z.of_nat (length str) < 2 ^ 32 ->
  string_length array = Some (Z.of_nat (length str)).
Proof.
  intros Hs Hl. unfold string_length.
  match goal with |- while_loop _ ?loop_body _ = _ =>
  destruct (while_loop_rule (fun i => 0 <= i <= Z.of_nat (length str)) (fun r => r = Z.of_nat (length str))
    (fun i => length str - Z.to_nat i)%nat (S (length array)) loop_body 0) as (r & -> & ->) end; [lia| | |done].
  - pose proof (c_string_length _ _ Hs). lia.
  - intros i Hi. destruct (c_string_rd array str i Hs Hi) as [-> E]. rewrite bind_some.
    destruct (Z.eqb_spec (nth (Z.to_nat i) str 0) 0) as [H0|H0]; simpl negb; cbn match.
    + right. eexists. split; [done|]. tauto.
    + left. eexists. split; [done|]. assert (i <> Z.of_nat (length str)) by tauto.
      rewrite u32_small by warith. lia.
Qed.

Lemma string_equal_spec left right l r :
  c_string left l -> c_string right r ->
  string_equal left right = Some (if decide (l = r) then 1 else 0).
Proof.
  intros Hl Hr. unfold string_equal.
  match goal with |- while_loop _ ?loop_body _ = _ =>
  destruct (while_loop_rule
    (fun i => 0 <= i <= Z.of_nat (length l) /\ i <= Z.of_nat (length r) /\ take (Z.to_nat i) l = take (Z.to_nat i) r)
    (fun v => v = if decide (l = r) then 1 else 0)
    (fun i => length l - Z.to_nat i)%nat (S (length left)) loop_body 0) as (v & -> & ->) end; [split; [lia|split; [lia|done]]| | |done].
  { pose proof (c_string_length _ _ Hl). lia. }
  intros i (Hi & Hi' & E).
  destruct (c_string_rd left l i Hl Hi) as [-> El]. destruct (c_string_rd right r i Hr ltac:(lia)) as [-> Er].
  rewrite !bind_some.
  destruct (Z.eqb_spec (nth (Z.to_nat i) l 0) 0) as [H0|H0];
    [|destruct (Z.eqb_spec (nth (Z.to_nat i) r 0) 0) as [H1|H1]; [|
      destruct (Z.eqb_spec (nth (Z.to_nat i) l 0) (nth (Z.to_nat i) r 0)) as [H2|H2]]].
  - right. eexists. split; [done|]. apply El in H0. rewrite take_ge in E by lia.
    destruct (decide (l = r)) as [->|Hne].
    + by rewrite Z.eqb_refl.
    + destruct (Z.eqb_spec (nth (Z.to_nat i) l 0) (nth (Z.to_nat i) r 0)) as [H2|H2]; [|done].
      rewrite (proj2 El H0) in H2. symmetry in H2. apply Er in H2. rewrite take_ge in E by lia. done.
  - right. eexists. split; [done|].
    destruct (Z.eqb_spec (nth (Z.to_nat i) l 0) (nth (Z.to_nat i) r 0)) as [H2|H2]; [lia|].
    destruct (decide (l = r)) as [->|Hne]; done.
  - left. eexists. split; [done|]. assert (i <> Z.of_nat (length l) /\ i <> Z.of_nat (length r)) as [] by tauto.
    split; [|lia]. split; [lia|]. split; [lia|]. replace (Z.to_nat (i + 1)) with (S (Z.to_nat i)) by lia.
    destruct (lookup_lt_is_Some_2 l (Z.to_nat i)) as [x Hx]; [lia|].
    destruct (lookup_lt_is_Some_2 r (Z.to_nat i)) as [y Hy]; [lia|].
    rewrite (take_S_r _ _ _ Hx), (take_S_r _ _ _ Hy), E.
    rewrite (nth_lookup_Some _ _ _ _ Hx), (nth_lookup_Some _ _ _ _ Hy) in H2. by subst.
  - right. eexists. split; [done|]. destruct (decide (l = r)) as [->|Hne]; done.
Qed.

(** The bounded copy loops write a prefix of the source. *)
Lemma string_copy_spec target source str capacity :
  c_string source str -> 0 < capacity <= Z.of_nat (length target) -> capacity < 2 ^ 32 ->
  string_copy target source capacity =
    Some (splice target 0 (take (Z.to_nat (capacity - 1)) str ++ [0])).
Proof.
  intros Hs Hc Hw. unfold string_copy. replace (capacity =? 0) with false by lia.
  set (t := take (Z.to_nat (capacity - 1)) str).
  assert (length t = Z.to_nat (capacity - 1) `min` length str)%nat as Ht by apply length_take.
  match goal with |- context [while_loop _ ?loop_body _] =>
  destruct (while_loop_rule
    (fun '(a, i) => 0 <= i <= Z.of_nat (length t) /\ a = splice target 0 (take (Z.to_nat i) str))
    (fun '(a, i) => i = Z.of_nat (length t) /\ a = splice target 0 t)
    (fun '(_, i) => length t - Z.to_nat i)%nat (S (length source)) loop_body (target, 0))
    as ([a i] & -> & -> & ->) end.
  - split; [lia|]. unfold splice. by rewrite take_0.
  - pose proof (c_string_length _ _ Hs). lia.
  - intros [a i] (Hi & ->). destruct (c_string_rd source str i Hs ltac:(lia)) as [-> E]. rewrite bind_some.
    rewrite u32_small by warith.
    destruct (Z.eqb_spec (nth (Z.to_nat i) str 0) 0) as [H0|H0]; simpl negb;
      [|destruct (Z.ltb_spec (i + 1) capacity) as [Hl|Hl]]; cbn [andb]; cbn match.
    + right. eexists. split; [done|]. apply E in H0. split; [lia|]. unfold t. rewrite !take_ge by lia. done.
    + left. assert (i <> Z.of_nat (length str)) by tauto. rewrite wr_splice.
      2: { unfold room. rewrite length_splice; [lia|]. unfold room. rewrite length_take. lia. }
      rewrite bind_some. eexists. split; [done|]. split; [|lia]. split; [lia|].
      rewrite splice_next; [|rewrite length_take; lia|unfold room; rewrite length_app, length_take; simpl; lia].
      f_equal. replace (Z.to_nat (i + 1)) with (S (Z.to_nat i)) by lia. symmetry. apply take_S_r.
      destruct (nth_lookup_or_length str (Z.to_nat i) 0) as [|Hlen]; [done|lia].
    + right. eexists. split; [done|]. split; [lia|]. unfold t. do 2 f_equal. lia.
  - rewrite bind_some, wr_splice.
    2: { unfold room. rewrite length_splice; [lia|]. unfold room. lia. }
    f_equal. apply splice_next; [lia|]. unfold room. rewrite length_app. cbn [length]. lia.
Qed.

Lemma write_text_spec d source str position :
  c_string source str -> length d = 256%nat -> 0 <= position < 256 ->
  let t := take (Z.to_nat (255 - position)) str in
  write_text d source position =
    Some (splice d position t, position + Z.of_nat (length t), Z.of_nat (length t)).
Proof.
  intros Hs Hd Hp t. unfold write_text.
  assert (length t = Z.to_nat (255 - position) `min` length str)%nat as Ht by apply length_take.
  match goal with |- while_loop _ ?loop_body _ = _ =>
  destruct (while_loop_rule
    (fun '(a, p, i) => 0 <= i <= Z.of_nat (length t) /\ p = position + i /\
                       a = splice d position (take (Z.to_nat i) str))
    (fun r => r = (splice d position t, position + Z.of_nat (length t), Z.of_nat (length t)))
    (fun '(_, _, i) => length t - Z.to_nat i)%nat (S (length source)) loop_body (d, position, 0))
    as (r & -> & ->) end; [| | |done].
  - split; [lia|]. split; [lia|]. unfold splice. simpl. by rewrite Nat.add_0_r, take_drop.
  - pose proof (c_string_length _ _ Hs). lia.
  - intros [[a p] i] (Hi & -> & ->). destruct (c_string_rd source str i Hs ltac:(lia)) as [-> E].
    rewrite bind_some, !u32_small by warith. unfold FS_DATA_MAX.
    destruct (Z.eqb_spec (nth (Z.to_nat i) str 0) 0) as [H0|H0]; simpl negb;
      [|destruct (Z.ltb_spec (position + i + 1) 256) as [Hl|Hl]]; cbn [andb]; cbn match.
    + right. eexists. split; [done|]. apply E in H0. assert (t = str) as -> by (apply take_ge; lia).
      rewrite take_ge by lia. subst i. done.
    + left. assert (i <> Z.of_nat (length str)) by tauto. rewrite wr_splice.
      2: { unfold room. rewrite length_splice; [lia|]. unfold room. rewrite length_take. lia. }
      rewrite bind_some. eexists. split; [done|]. split; [|lia]. split; [lia|]. split; [lia|].
      rewrite splice_next; [|rewrite length_take; lia|unfold room; rewrite length_app, length_take; simpl; lia].
      f_equal. replace (Z.to_nat (i + 1)) with (S (Z.to_nat i)) by lia. symmetry. apply take_S_r.
      destruct (nth_lookup_or_length str (Z.to_nat i) 0) as [|Hlen]; [done|lia].
    + right. eexists. split; [done|]. assert (i = Z.of_nat (length t)) as -> by lia.
      do 3 f_equal. unfold t at 2. f_equal. lia.
Qed.

(** ** Paths

    The names of a path text: what is between the slashes. *)

Fixpoint pieces (t : list Z) : list Z * list (list Z) :=
  match t with
  | [] => ([], [])
  | c :: t => let '(g, gs) := pieces t in if c =? SLASH then ([], g :: gs) else (c :: g, gs)
  end.

Definition segments (t : list Z) : list (list Z) :=
  let '(g, gs) := pieces t in filter (fun g => g <> []) (g :: gs).

Lemma segments_slash t : segments (SLASH :: t) = segments t.
Proof. unfold segments. simpl. by destruct (pieces t). Qed.

(** A text is its first name and a rest that is empty or starts with a slash. *)
Definition first_name (t : list Z) : list Z := fst (pieces t).

Definition at_break (t : list Z) : Prop := t = [] \/ exists t', t = SLASH :: t'.

Lemma first_name_split t :
  exists rest, t = first_name t ++ rest /\ at_break rest /\ Forall (fun c => c <> SLASH) (first_name t).
Proof.
  unfold first_name. induction t as [|c t (rest & E & Hb & Hf)]; simpl.
  - exists []. split; [done|]. split; [by left|constructor].
  - destruct (pieces t) as [g gs]. simpl in *. destruct (Z.eqb_spec c SLASH) as [->|Hc]; simpl.
    + exists (SLASH :: t). split; [done|]. split; [right; eauto|constructor].
    + exists rest. split; [by rewrite E at 1|]. split; [done|]. by constructor.
Qed.

Lemma pieces_app g t :
  Forall (fun c => c <> SLASH) g -> at_break t ->
  pieces (g ++ t) = (g, snd (pieces t)).
Proof.
  intros Hg Ht. induction Hg as [|c g Hc _ IH]; simpl.
  - destruct Ht as [->|[t' ->]]; simpl; [done|]. by destruct (pieces t').
  - rewrite IH. by destruct (Z.eqb_spec c SLASH).
Qed.

Lemma segments_app g t :
  g <> [] -> Forall (fun c => c <> SLASH) g -> at_break t ->
  segments (g ++ t) = g :: segments t.
Proof.
  intros Hne Hg Ht. unfold segments. rewrite pieces_app by done.
  assert (fst (pieces t) = []) as E
    by (destruct Ht as [->|[t' ->]]; simpl; [done|by destruct (pieces t')]).
  destruct (pieces t) as [h gs]. simpl in E. subst h. rewrite filter_cons_True by done.
  done.
Qed.

Lemma skip_slashes_spec path t position :
  c_string path t -> Z.of_nat (length t) < 2 ^ 32 - 1 -> 0 <= position <= Z.of_nat (length t) ->
  exists k, skip_slashes path position = Some k /\ position <= k <= Z.of_nat (length t) /\
    segments (drop (Z.to_nat k) t) = segments (drop (Z.to_nat position) t) /\
    t !! Z.to_nat k <> Some SLASH.
Proof.
  intros Hs Hl Hp. unfold skip_slashes.
  match goal with |- context [while_loop _ ?loop_body _] =>
  apply (while_loop_rule
    (fun k => position <= k <= Z.of_nat (length t) /\
              segments (drop (Z.to_nat k) t) = segments (drop (Z.to_nat position) t))
    (fun k => position <= k <= Z.of_nat (length t) /\
       segments (drop (Z.to_nat k) t) = segments (drop (Z.to_nat position) t) /\
       t !! Z.to_nat k <> Some SLASH)
    (fun k => length t - Z.to_nat k)%nat (S (length path)) loop_body position) end.
  - split; [lia|done].
  - pose proof (c_string_length _ _ Hs). lia.
  - intros k (Hk & E). destruct (c_string_rd path t k Hs ltac:(lia)) as [-> Ez]. rewrite bind_some.
    destruct (Z.eqb_spec (nth (Z.to_nat k) t 0) SLASH) as [H1|H1].
    + left. eexists. split; [done|]. rewrite u32_small by warith.
      assert (k <> Z.of_nat (length t)) by (rewrite H1 in Ez; unfold SLASH in *; lia).
      split; [|lia]. split; [lia|]. rewrite <- E. replace (Z.to_nat (k + 1)) with (S (Z.to_nat k)) by lia.
      rewrite (drop_S t SLASH (Z.to_nat k)), segments_slash; [done|]. rewrite <- H1.
      destruct (nth_lookup_or_length t (Z.to_nat k) 0) as [|Hlen]; [done|lia].
    + right. eexists. split; [done|]. split; [lia|]. split; [done|]. intros H.
      by rewrite (nth_lookup_Some _ _ _ _ H) in H1.
Qed.

(** The loop that copies a segment copies the first name of the rest of the
    path, unless it has 24 characters or more. *)
Lemma take_segment_spec path t segment position :
  c_string path t -> Z.of_nat (length t) < 2 ^ 32 - 1 -> 0 <= position <= Z.of_nat (length t) ->
  length segment = 24%nat ->
  let g := first_name (drop (Z.to_nat position) t) in
  take_segment path segment position =
    Some (if (24 <=? length g)%nat then None
          else Some (splice segment 0 g, Z.of_nat (length g), position + Z.of_nat (length g))).
Proof.
  intros Hs Hl Hp Hseg g. unfold take_segment.
  destruct (first_name_split (drop (Z.to_nat position) t)) as (rest & E & Hb & Hns). fold g in E, Hns.
  assert (length g + length rest = length t - Z.to_nat position)%nat as Hlen
    by (rewrite <- length_app, <- E; apply length_drop).
  assert (Hat : forall i, 0 <= i <= Z.of_nat (length g) ->
    exists c, rd path (position + i) = Some c /\
      (i = Z.of_nat (length g) -> c = 0 \/ c = SLASH) /\
      (i < Z.of_nat (length g) -> g !! Z.to_nat i = Some c /\ c <> 0 /\ c <> SLASH)).
  { intros i Hi. destruct (c_string_rd path t (position + i) Hs ltac:(lia)) as [-> Ez].
    eexists. split; [done|]. split.
    - intros ->. destruct Hb as [->|[rest' ->]]; simpl in Hlen; [left; apply Ez; lia|right].
      apply nth_lookup_Some. replace (Z.to_nat _) with (Z.to_nat position + length g)%nat by lia.
      rewrite <- lookup_drop, E, lookup_app_r, Nat.sub_diag by lia. done.
    - intros Hi'. destruct (lookup_lt_is_Some_2 g (Z.to_nat i)) as [c Hc]; [lia|].
      assert (t !! Z.to_nat (position + i) = Some c) as Ht.
      { replace (Z.to_nat _) with (Z.to_nat position + Z.to_nat i)%nat by lia.
        rewrite <- lookup_drop, E. by apply lookup_app_l_Some. }
      rewrite (nth_lookup_Some _ _ _ _ Ht) in *. split; [done|]. split; [lia|].
      exact (Forall_lookup_1 _ _ _ _ Hns Hc). }
  match goal with |- while_loop _ ?loop_body _ = _ =>
  destruct (while_loop_rule
    (fun '(a, i, p) => 0 <= i <= Z.of_nat (length g) /\ i <= 23 /\ p = position + i /\
                       a = splice segment 0 (take (Z.to_nat i) g))
    (fun r => r = if (24 <=? length g)%nat then None
          else Some (splice segment 0 g, Z.of_nat (length g), position + Z.of_nat (length g)))
    (fun '(_, i, _) => length g - Z.to_nat i)%nat (S (length path)) loop_body (segment, 0, position))
    as (r & -> & ->) end; [| | |done].
  - split; [lia|]. split; [lia|]. split; [lia|]. unfold splice. by rewrite take_0.
  - pose proof (c_string_length _ _ Hs). lia.
  - intros [[a i] p] (Hi & Hi' & -> & ->). destruct (Hat i Hi) as (c & -> & Hend & Hmid).
    rewrite bind_some, !u32_small by warith.
    destruct (Z.eq_dec i (Z.of_nat (length g))) as [->|Hne].
    + replace (negb (c =? 0) && negb (c =? SLASH)) with false by (destruct (Hend eq_refl) as [->| ->]; done).
      right. eexists. split; [done|]. rewrite take_ge by lia.
      destruct (Nat.leb_spec 24 (length g)); [lia|done].
    + destruct Hmid as (Hc & Hc0 & Hc1); [lia|].
      replace (negb (c =? 0) && negb (c =? SLASH)) with true by lia. unfold FS_NAME_MAX.
      destruct (Z.leb_spec 24 (i + 1)) as [Hl24|Hl24].
      * right. eexists. split; [done|]. destruct (Nat.leb_spec 24 (length g)); [done|lia].
      * left. rewrite wr_splice.
        2: { unfold room. rewrite length_splice; [lia|]. unfold room. rewrite length_take. lia. }
        rewrite bind_some. eexists. split; [done|]. split; [|lia]. split; [lia|]. split; [lia|]. split; [lia|].
        rewrite splice_next; [|rewrite length_take; lia|unfold room; rewrite length_app, length_take; simpl; lia].
        f_equal. replace (Z.to_nat (i + 1)) with (S (Z.to_nat i)) by lia. symmetry. by apply take_S_r.
Qed.

(** ** The node table as a tree

    A path is the list of its names, innermost first.  [at_path s n p]: node
    [n] is reached from the root by [p]. *)

Notation path := (list (list Z)).

Inductive at_path (s : ramfs) : Z -> path -> Prop :=
| at_root : at_path s 0 []
| at_child n x nm p :
    rd (nodes s) n = Some x -> n <> 0 -> used x <> 0 -> c_string (name x) nm ->
    at_path s (parent x) p -> at_path s n (nm :: p).

(** The names a node may have. *)
Definition dot : list Z := [46].
Definition dots : list Z := [46; 46].

Record legal (nm : list Z) : Prop := {
  legal_nonempty : nm <> [];
  legal_length : (length nm < 24)%nat;
  legal_slash : Forall (fun c => c <> SLASH) nm;
  legal_dot : nm <> dot;
  legal_dots : nm <> dots;
}.

(** A used node other than the root. *)
Record node_ok (s : ramfs) (x : fs_node) : Prop := {
  node_name : exists nm, c_string (name x) nm /\ legal nm;
  node_size : 0 <= size x < 256;
  node_end : rd (data x) (size x) = Some 0;
  node_parent : exists y p, rd (nodes s) (parent x) = Some y /\ is_directory y <> 0 /\ at_path s (parent x) p;
}.

Record fs_inv (s : ramfs) : Prop := {
  inv_length : length (nodes s) = 64%nat;
  inv_arrays n x : rd (nodes s) n = Some x -> length (name x) = 24%nat /\ length (data x) = 256%nat;
  inv_root : exists x, rd (nodes s) 0 = Some x /\ used x <> 0 /\ is_directory x <> 0 /\ parent x = 0;
  inv_node n x : rd (nodes s) n = Some x -> n <> 0 -> used x <> 0 -> node_ok s x;
  inv_siblings i j x y nm :
    rd (nodes s) i = Some x -> rd (nodes s) j = Some y -> i <> 0 -> j <> 0 -> used x <> 0 -> used y <> 0 ->
    parent x = parent y -> c_string (name x) nm -> c_string (name y) nm -> i = j;
  inv_current : exists x p, rd (nodes s) (current_directory s) = Some x /\ is_directory x <> 0 /\
                  at_path s (current_directory s) p;
}.

Lemma c_string_inj a s t : c_string a s -> c_string a t -> s = t.
Proof. intros H1%c_string_text H2%c_string_text. congruence. Qed.

Lemma at_path_fun s n p q : at_path s n p -> at_path s n q -> p = q.
Proof.
  intros H. revert q. induction H as [|n x nm p Hx Hn _ Hnm _ IH]; intros q Hq; inversion Hq; subst; try done.
  assert (x0 = x) as -> by congruence. f_equal; [|by apply IH]. by eapply c_string_inj.
Qed.

Section tree.
Context (s : ramfs) (Hinv : fs_inv s).

Lemma at_path_range n p : at_path s n p -> 0 <= n < 64.
Proof.
  intros [|m x nm q Hx _ _ _ _]; [lia|]. apply rd_range in Hx. rewrite (inv_length s Hinv) in Hx. lia.
Qed.

Lemma at_path_node n p : at_path s n p -> exists x, rd (nodes s) n = Some x /\ used x <> 0.
Proof. intros [|m x nm q Hx _ Hu _ _]; [|eauto]. destruct (inv_root s Hinv) as (x & ? & ? & _). eauto. Qed.

Lemma at_path_inj i j p : at_path s i p -> at_path s j p -> i = j.
Proof.
  revert i j. induction p as [|nm p IH]; intros i j Hi Hj; inversion Hi as [|? x ? ? Hx Hi0 Hux Hnx Hpx];
    inversion Hj as [|? y ? ? Hy Hj0 Huy Hny Hpy]; subst; [done|].
  apply (inv_siblings s Hinv i j x y nm); try done. by apply IH.
Qed.

Lemma used_at_path n x : rd (nodes s) n = Some x -> used x <> 0 -> exists p, at_path s n p.
Proof.
  intros Hx Hu. destruct (Z.eq_dec n 0) as [->|Hn]; [exists []; constructor|].
  destruct (inv_node s Hinv n x Hx Hn Hu) as [(nm & Hnm & _) _ _ (y & p & _ & _ & Hp)].
  exists (nm :: p). by econstructor.
Qed.

Lemma at_path_legal n nm p : at_path s n (nm :: p) -> legal nm.
Proof.
  intros H. inversion H as [|? x ? ? Hx Hn Hu Hnm _]; subst.
  destruct (inv_node s Hinv n x Hx Hn Hu) as [(nm' & Hnm' & Hleg) _ _ _].
  by rewrite (c_string_inj _ _ _ Hnm Hnm').
Qed.

(** A child's parent is a directory. *)
Lemma at_path_parent n nm p :
  at_path s n (nm :: p) ->
  exists m y, at_path s m p /\ rd (nodes s) m = Some y /\ is_directory y <> 0.
Proof.
  intros H. inversion H as [|? x ? ? Hx Hn Hu Hnm Hp]; subst.
  destruct (inv_node s Hinv n x Hx Hn Hu) as [_ _ _ (y & q & Hy & Hd & Hq)].
  by exists (parent x), y.
Qed.

(** The parent link of a node that has a path. *)
Lemma parent_path n x p : at_path s n p -> rd (nodes s) n = Some x -> at_path s (parent x) (tail p).
Proof.
  intros H Hx. inversion H as [|? x' ? ? Hx' Hn Hu Hnm Hp]; subst; simpl.
  - destruct (inv_root s Hinv) as (r & Hr & _ & _ & E). assert (x = r) as -> by congruence.
    rewrite E. constructor.
  - by assert (x = x') as -> by congruence.
Qed.

Lemma find_child_spec d p array g :
  at_path s d p -> c_string array g ->
  exists r, find_child s d array = Some r /\
    ((r = -1 /\ forall n, ~ at_path s n (g :: p)) \/ (0 < r < 64 /\ at_path s r (g :: p))).
Proof.
  intros Hd Hg. unfold find_child.
  match goal with |- context [for_break _ _ ?loop_body _] =>
  destruct (for_break_rule
    (fun i (_ : unit) => 0 < i /\ forall j, j < i -> ~ at_path s j (g :: p)) (fun i => 0 < i < 64 /\ at_path s i (g :: p))
    (Z.to_nat FS_NODE_MAX - 1) 1 loop_body tt) as [([] & -> & _ & H)|(i & -> & Hi & Hp)] end.
  - split; [lia|]. intros j Hj H. pose proof (at_path_range _ _ H).
    assert (j = 0) as -> by lia. inversion H; lia.
  - intros i [] Hi (_ & H). unfold FS_NODE_MAX in Hi. destruct (rd_ok (nodes s) i) as [x Hx];
      [rewrite (inv_length s Hinv); lia|]. rewrite Hx, bind_some.
    assert (Hskip : ~ at_path s i (g :: p) -> 0 < i + 1 /\ forall j, j < i + 1 -> ~ at_path s j (g :: p)).
    { intros Hno. split; [lia|]. intros j Hj. destruct (Z.eq_dec j i) as [->|]; [done|]. apply H. lia. }
    destruct (Z.eqb_spec (used x) 0) as [Hu|Hu]; simpl negb; [|destruct (Z.eqb_spec (parent x) d) as [Hpa|Hpa]];
      cbn [andb]; cbn match.
    + left. exists tt. split; [done|]. apply Hskip. intros Hno. inversion Hno; congruence.
    + destruct (inv_node s Hinv i x Hx ltac:(lia) Hu) as [(nm & Hnm & _) _ _ _].
      rewrite (string_equal_spec _ _ nm g Hnm Hg), bind_some. destruct (decide (nm = g)) as [->|Hne]; simpl.
      * right. eexists. split; [done|]. split; [lia|]. econstructor; try done; [lia|]. by rewrite Hpa.
      * left. exists tt. split; [done|]. apply Hskip. intros Hno.
        inversion Hno as [|? x' ? ? Hx' _ _ Hnm' _]; subst. assert (x' = x) as -> by congruence.
        by apply Hne, (c_string_inj (name x)).
    + left. exists tt. split; [done|]. apply Hskip. intros Hno.
      inversion Hno as [|? x' ? ? Hx' _ _ _ Hp']; subst. assert (x' = x) as -> by congruence.
      by apply Hpa, (at_path_inj _ _ p).
  - rewrite bind_some. eexists. split; [done|]. left. split; [done|]. intros n Hn.
    pose proof (at_path_range _ _ Hn). apply (H n); [unfold FS_NODE_MAX; simpl; lia|done].
  - rewrite bind_some. eexists. split; [done|]. by right.
Qed.
End tree.

(** ** The abstract file system

    A map from paths to directories and file contents.  [walk] follows names in it:
    a dot stays, two dots go to the parent (of a file as well as of a
    directory), any other name needs a directory that has an entry with it. *)

Inductive entry : Type := Dir | File (contents : list Z).

#[global] Instance entry_eq_dec : EqDecision entry.
Proof. solve_decision. Defined.

Notation tree := (gmap path entry).

Fixpoint walk (f : path -> option entry) (cur : path) (names : list (list Z)) : option path :=
  match names with
  | [] => Some cur
  | g :: names =>
    if (24 <=? length g)%nat then None
    else if decide (g = dot) then walk f cur names
    else if decide (g = dots) then walk f (tail cur) names
    else match f cur, f (g :: cur) with
         | Some Dir, Some _ => walk f (g :: cur) names
         | _, _ => None
         end
  end.

(** Where a path text starts: at the root or in the current directory. *)
Definition start (cwd : path) (t : list Z) : path := if decide (head t = Some SLASH) then [] else cwd.

Definition lookup_path (f : path -> option entry) (cwd : path) (t : list Z) : option path :=
  walk f (start cwd t) (segments t).

Definition entry_of_node (x : fs_node) : entry :=
  if is_directory x =? 0 then File (take (Z.to_nat (size x)) (data x)) else Dir.

(** What a node table stands for. *)
Record abstracts (s : ramfs) (m : tree) (cwd : path) : Prop := {
  abs_map p e : m !! p = Some e <->
    exists n x, at_path s n p /\ rd (nodes s) n = Some x /\ entry_of_node x = e;
  abs_cwd : at_path s (current_directory s) cwd;
}.

Lemma entry_of_dir x : is_directory x <> 0 -> entry_of_node x = Dir.
Proof. unfold entry_of_node. by destruct (Z.eqb_spec (is_directory x) 0). Qed.

Lemma entry_of_file x : is_directory x = 0 -> entry_of_node x = File (take (Z.to_nat (size x)) (data x)).
Proof. unfold entry_of_node. by intros ->. Qed.

Section resolution.
Context (s : ramfs) (m : tree) (cwd : path) (Hinv : fs_inv s) (Habs : abstracts s m cwd).

Lemma abs_node n p x : at_path s n p -> rd (nodes s) n = Some x -> m !! p = Some (entry_of_node x).
Proof. intros Hp Hx. apply (abs_map _ _ _ Habs). eauto. Qed.

Lemma abs_none p : m !! p = None <-> forall n, ~ at_path s n p.
Proof.
  split.
  - intros H n Hn. destruct (at_path_node s Hinv n p Hn) as (x & Hx & _). by rewrite (abs_node n p x) in H.
  - intros H. destruct (m !! p) as [e|] eqn:E; [|done]. apply (abs_map _ _ _ Habs) in E as (n & x & Hn & _).
    by destruct (H n).
Qed.

Context (segment0 : list Z) (Hseg : length segment0 = 24%nat).

Lemma resolve_step_spec array t node position segment cur :
  c_string array t -> Z.of_nat (length t) < 2 ^ 32 - 1 ->
  at_path s node cur -> length segment = 24%nat -> 0 <= position <= Z.of_nat (length t) ->
  let w := walk (m !!.) cur (segments (drop (Z.to_nat position) t)) in
  (exists node' position' segment' cur',
     resolve_step s array (node, position, segment) = Some (inl (node', position', segment')) /\
     at_path s node' cur' /\ length segment' = 24%nat /\ position < position' <= Z.of_nat (length t) /\
     w = walk (m !!.) cur' (segments (drop (Z.to_nat position') t))) \/
  (exists r, resolve_step s array (node, position, segment) = Some (inr r) /\
     match w with None => r = -1 | Some q => at_path s r q end).
Proof.
  intros Ht Hl Hn Hsg Hp. cbv zeta. cbn [resolve_step].
  destruct (c_string_rd array t position Ht Hp) as [-> Ez]. rewrite bind_some.
  destruct (Z.eqb_spec (nth (Z.to_nat position) t 0) 0) as [H0|H0].
  { right. eexists. split; [done|]. rewrite drop_ge by lia. done. }
  destruct (skip_slashes_spec array t position Ht Hl Hp) as (k & -> & Hk & Hsk & Hns). rewrite bind_some.
  rewrite <- Hsk. destruct (c_string_rd array t k Ht ltac:(lia)) as [-> Ek]. rewrite bind_some.
  destruct (Z.eqb_spec (nth (Z.to_nat k) t 0) 0) as [H1|H1].
  { right. eexists. split; [done|]. rewrite drop_ge by lia. done. }
  assert (k < Z.of_nat (length t)) as Hk' by lia.
  destruct (first_name_split (drop (Z.to_nat k) t)) as (rest & E & Hb & Hf).
  rewrite (take_segment_spec array t segment k Ht Hl ltac:(lia) Hsg), bind_some.
  set (g := first_name (drop (Z.to_nat k) t)) in *.
  assert (length g + length rest = length t - Z.to_nat k)%nat as Hlen
    by (rewrite <- length_app, <- E; apply length_drop).
  assert (g <> []) as Hg.
  { intros Hg. rewrite Hg in E. simpl in E. destruct Hb as [->|[rest' ->]].
    - rewrite Hg in Hlen. simpl in Hlen. lia.
    - apply Hns. pose proof (lookup_drop t (Z.to_nat k) 0) as HH. rewrite Nat.add_0_r, E in HH. by rewrite <- HH. }
  assert (segments (drop (Z.to_nat k) t) = g :: segments (drop (Z.to_nat (k + Z.of_nat (length g))) t)) as ->.
  { rewrite E, segments_app by done. do 2 f_equal.
    replace (Z.to_nat _) with (Z.to_nat k + length g)%nat by lia.
    rewrite <- drop_drop, E, drop_app_length. done. }
  assert (Forall (fun c => c <> 0) g) as Hnz.
  { pose proof (c_string_nonzero _ _ Ht) as H. rewrite <- (take_drop (Z.to_nat k) t), E in H.
    by apply Forall_app in H as [_ [H _]%Forall_app]. }
  cbn [walk]. destruct (Nat.leb_spec 24 (length g)) as [Hg24|Hg24]; [by right; eexists|].
  rewrite wr_splice.
  2: { unfold room. rewrite length_splice; [lia|]. unfold room. lia. }
  rewrite bind_some, splice_next; [|lia|unfold room; rewrite length_app; simpl; lia].
  assert (c_string (splice segment 0 (g ++ [0])) g) as Hc by (apply c_string_splice; [lia|done]).
  assert (length (splice segment 0 (g ++ [0])) = 24%nat) as Hlen'.
  { rewrite length_splice; [done|]. unfold room. rewrite length_app. simpl. lia. }
  rewrite (string_equal_spec _ (literal ".") g dot Hc) by (by exists []; repeat constructor).
  rewrite bind_some. destruct (decide (g = dot)) as [Ed|Ed].
  { left. do 4 eexists. split; [done|]. split; [done|]. split; [done|]. split; [|done].
    destruct g; [done|]. simpl in *. lia. }
  cbn [Z.eqb negb]. rewrite (string_equal_spec _ (literal "..") g dots Hc) by (by exists []; repeat constructor).
  rewrite bind_some. destruct (at_path_node s Hinv node cur Hn) as (x & Hx & _). rewrite Hx, bind_some.
  destruct (decide (g = dots)) as [Edd|Edd].
  { left. do 4 eexists. split; [done|]. split; [by apply (parent_path s Hinv node x)|]. split; [done|].
    split; [|done]. destruct g; [done|]. simpl in *. lia. }
  cbn [Z.eqb negb]. rewrite (abs_node node cur x Hn Hx).
  destruct (Z.eqb_spec (is_directory x) 0) as [Hd|Hd].
  { right. eexists. split; [done|]. by rewrite entry_of_file. }
  rewrite entry_of_dir by done.
  destruct (find_child_spec s Hinv node cur _ g Hn Hc) as (r & -> & [[-> Hno]|[Hr Hr']]); rewrite bind_some.
  - right. eexists. split; [done|]. by rewrite (proj2 (abs_none (g :: cur)) Hno).
  - destruct (Z.ltb_spec r 0); [lia|]. rewrite u8_small by warith.
    destruct (at_path_node s Hinv r _ Hr') as (y & Hy & _). rewrite (abs_node r _ y Hr' Hy).
    left. do 4 eexists. split; [done|]. split; [done|]. split; [done|]. split; [|done].
    destruct g; [done|]. simpl in *. lia.
Qed.

(** Resolution follows the path in the abstract tree. *)
Lemma resolve_spec array t :
  c_string array t -> Z.of_nat (length t) < 2 ^ 32 - 1 ->
  exists r, resolve segment0 s array = Some r /\
    match lookup_path (m !!.) cwd t with None => r = -1 | Some q => at_path s r q end.
Proof.
  intros Ht Hl. unfold resolve. destruct (c_string_rd array t 0 Ht ltac:(lia)) as [-> Ez]. rewrite bind_some.
  set (c := nth (Z.to_nat 0) t 0) in *.
  assert (head t = if c =? 0 then None else Some c) as Hc.
  { destruct t as [|c' t]; [done|]. unfold c in *. simpl in *. destruct (Z.eqb_spec c' 0); [lia|done]. }
  apply (while_loop_rule
    (fun '(node, position, segment) => exists cur, at_path s node cur /\ length segment = 24%nat /\
       0 <= position <= Z.of_nat (length t) /\
       lookup_path (m !!.) cwd t = walk (m !!.) cur (segments (drop (Z.to_nat position) t)))
    _ (fun '(_, position, _) => length t - Z.to_nat position)%nat).
  - unfold lookup_path, start. rewrite Hc. destruct (Z.eqb_spec c SLASH) as [E|E].
    + rewrite E. simpl. exists []. split; [constructor|]. split; [done|].
      destruct t as [|c' t]; [by unfold c in E|]. unfold c in E. simpl in E. subst c'.
      rewrite segments_slash. simpl. rewrite drop_0. split; [lia|done].
    + exists cwd. split; [apply (abs_cwd _ _ _ Habs)|]. split; [done|]. split; [lia|].
      rewrite drop_0. rewrite decide_False; [done|]. by destruct (c =? 0); intros [=].
  - pose proof (c_string_length _ _ Ht). lia.
  - intros [[node position] segment] (cur & Hn & Hsg & Hp & ->).
    destruct (resolve_step_spec array t node position segment cur Ht Hl Hn Hsg Hp)
      as [(node' & position' & segment' & cur' & -> & Hn' & Hsg' & Hp' & ->)|(r & -> & Hr)].
    + left. eexists. split; [done|]. split; [|lia]. exists cur'. split; [done|]. split; [done|]. split; [lia|done].
    + right. by exists r.
Qed.
End resolution.

(** ** Creating entries *)

(** A counted loop that writes the characters of [l] in turn. *)
Lemma copy_loop l (body : Z -> list Z -> option (list Z)) a o n :
  n = length l -> room a o (Z.of_nat n) ->
  (forall j c a, 0 <= j -> l !! Z.to_nat j = Some c -> body j a = wr a (o + j) c) ->
  for_loop n 0 body a = Some (splice a o l).
Proof.
  intros -> Hr Hbody.
  destruct (for_loop_rule (fun j a' => a' = splice a o (take (Z.to_nat j) l)) (length l) 0 body a) as (a' & -> & ->).
  - unfold splice. simpl. by rewrite Nat.add_0_r, take_drop.
  - intros j a' Hj ->. destruct (lookup_lt_is_Some_2 l (Z.to_nat j)) as [c Hc]; [lia|].
    rewrite (Hbody _ c) by (lia || done). unfold room in Hr. rewrite wr_splice.
    2: { unfold room. rewrite length_splice; [lia|]. unfold room. rewrite length_take. lia. }
    eexists. split; [done|].
    rewrite splice_next; [|rewrite length_take; lia|unfold room; rewrite length_app, length_take; simpl; lia].
    f_equal. replace (Z.to_nat (j + 1)) with (S (Z.to_nat j)) by lia. symmetry. by apply take_S_r.
  - rewrite take_ge by lia. done.
Qed.

Lemma pieces_split a b :
  pieces (a ++ SLASH :: b) =
    (fst (pieces a), snd (pieces a) ++ fst (pieces b) :: snd (pieces b)).
Proof.
  induction a as [|c a IH]; simpl; [by destruct (pieces b)|]. rewrite IH.
  destruct (pieces a) as [g gs]. simpl. by destruct (c =? SLASH).
Qed.

Lemma segments_split a b : segments (a ++ SLASH :: b) = segments a ++ segments b.
Proof.
  unfold segments. rewrite pieces_split. destruct (pieces a) as [g gs], (pieces b) as [h hs]. simpl fst. simpl snd.
  by rewrite <- filter_app.
Qed.

Lemma segments_single g : g <> [] -> Forall (fun c => c <> SLASH) g -> segments g = [g].
Proof. intros Hne Hg. rewrite <- (app_nil_r g) at 1. rewrite segments_app; [done..|by left]. Qed.

(** The last slash of a text. *)
Lemma last_slash t :
  exists d nm, t = d ++ nm /\ Forall (fun c => c <> SLASH) nm /\ (d = [] \/ exists d', d = d' ++ [SLASH]).
Proof.
  induction t as [|c t (d & nm & -> & Hnm & Hd)] using rev_ind; [by exists [], []; repeat constructor; left|].
  destruct (Z.eq_dec c SLASH) as [->|Hc].
  - exists (d ++ nm ++ [SLASH]), []. rewrite app_nil_r, app_assoc. split; [done|]. split; [constructor|].
    right. by exists (d ++ nm).
  - exists d, (nm ++ [c]). rewrite app_assoc. split; [done|]. split; [|done]. apply Forall_app. by repeat constructor.
Qed.

Lemma find_split_spec array d nm :
  c_string array (d ++ nm) -> Forall (fun c => c <> SLASH) nm -> (d = [] \/ exists d', d = d' ++ [SLASH]) ->
  Z.of_nat (length (d ++ nm)) < 2 ^ 32 ->
  find_split array (Z.of_nat (length (d ++ nm))) = Some (Z.of_nat (length d)).
Proof.
  intros Ht Hnm Hd Hl. unfold find_split. rewrite length_app in *.
  match goal with |- while_loop _ ?loop_body _ = _ =>
  destruct (while_loop_rule (fun k => Z.of_nat (length d) <= k <= Z.of_nat (length d + length nm))
    (fun k => k = Z.of_nat (length d)) (fun k => Z.to_nat k - length d)%nat (S (length array)) loop_body
    (Z.of_nat (length d + length nm))) as (k & -> & ->) end; [lia| | |done].
  - pose proof (c_string_length _ _ Ht). rewrite length_app in *. lia.
  - intros k Hk. destruct (Z.ltb_spec 0 k) as [H0|H0].
    2: { right. eexists. split; [done|]. lia. }
    rewrite u32_small by warith.
    destruct (Z.eq_dec k (Z.of_nat (length d))) as [->|Hne].
    + destruct Hd as [->|[d' ->]]; [simpl in H0; lia|]. rewrite length_app in *. simpl length in *.
      destruct (c_string_char array ((d' ++ [SLASH]) ++ nm) (length d') SLASH Ht) as [E _].
      { rewrite <- app_assoc. by rewrite lookup_app_r, Nat.sub_diag by lia. }
      replace (Z.of_nat (length d' + 1) - 1) with (Z.of_nat (length d')) by lia.
      rewrite E, bind_some. simpl. right. by eexists.
    + destruct (lookup_lt_is_Some_2 nm (Z.to_nat (k - 1) - length d)) as [c Hc]; [lia|].
      destruct (c_string_char array (d ++ nm) (Z.to_nat (k - 1)) c Ht) as [E _].
      { by rewrite lookup_app_r by lia. }
      rewrite Z2Nat.id in E by lia. rewrite E, bind_some.
      pose proof (Forall_lookup_1 _ _ _ _ Hnm Hc) as Hcs. simpl in Hcs.
      destruct (Z.eqb_spec c SLASH); [done|]. simpl. left. eexists. split; [done|]. lia.
Qed.

(** The path a text names for a new entry: its directory must exist. *)
Definition target (f : path -> option entry) (cwd : path) (t : list Z) : option path :=
  if (128 <=? length t)%nat || bool_decide (last t = Some SLASH) then None else
  match reverse (segments t) with
  | [] => None
  | nm :: dirs =>
    if (24 <=? length nm)%nat || bool_decide (nm = dot) || bool_decide (nm = dots) then None else
    match walk f (start cwd t) (reverse dirs) with
    | Some p => if decide (f p = Some Dir) then Some (nm :: p) else None
    | None => None
    end
  end.

(** The names of a text whose last slash is known. *)
Definition dir_text (d : list Z) : list Z := take (length d - 1) d.

Lemma target_split (m : tree) cwd d nm :
  nm <> [] -> Forall (fun c => c <> SLASH) nm -> (d = [] \/ exists d', d = d' ++ [SLASH]) ->
  (length (d ++ nm) < 128)%nat ->
  target (m !!.) cwd (d ++ nm) =
    if (24 <=? length nm)%nat || bool_decide (nm = dot) || bool_decide (nm = dots) then None else
    match walk (m !!.) (start cwd (d ++ nm)) (segments (dir_text d)) with
    | Some p => if decide (m !! p = Some Dir) then Some (nm :: p) else None
    | None => None
    end.
Proof.
  intros Hne Hnm Hd Hl. unfold target. destruct (Nat.leb_spec 128 (length (d ++ nm))); [lia|].
  destruct (exists_last Hne) as (nm' & c & E).
  rewrite bool_decide_false.
  2: { rewrite E, app_assoc, last_snoc. intros [= ->]. rewrite E in Hnm. apply Forall_app in Hnm as [_ Hnm].
       by inversion Hnm. }
  assert (segments (d ++ nm) = segments (dir_text d) ++ [nm]) as ->.
  { unfold dir_text. destruct Hd as [->|[d' ->]]; [by rewrite app_nil_l, segments_single|].
    rewrite <- app_assoc. change ([SLASH] ++ nm) with (SLASH :: nm). rewrite segments_split, (segments_single nm) by done.
    f_equal. f_equal. rewrite length_app. simpl. rewrite Nat.add_sub. by rewrite take_app_length. }
  rewrite reverse_app. simpl. by rewrite reverse_involutive.
Qed.

Section parents.
Context (s : ramfs) (m : tree) (cwd : path) (Hinv : fs_inv s) (Habs : abstracts s m cwd).
Context (segment0 parent_path0 : list Z).
Context (Hseg : length segment0 = 24%nat) (Hpp : length parent_path0 = 128%nat).

Lemma current_is_dir : m !! cwd = Some Dir.
Proof.
  destruct (inv_current s Hinv) as (x & p & Hx & Hd & _).
  rewrite (abs_node s m cwd Habs _ _ _ (abs_cwd _ _ _ Habs) Hx). by rewrite entry_of_dir.
Qed.

Lemma start_app d nm : d <> [] -> start cwd (d ++ nm) = start cwd d.
Proof. by destruct d. Qed.

(** The directory part of the path is copied and resolved. *)
Lemma parent_path_spec array d nm :
  c_string array (d ++ nm) -> (length (d ++ nm) < 128)%nat -> (exists d', d = d' ++ [SLASH]) ->
  exists pp r,
    (if Z.of_nat (length d) =? 1 then p ← wr parent_path0 0 SLASH; wr p 1 0
     else p ← for_loop (Z.to_nat (Z.of_nat (length d) - 1)) 0
              (fun index p => c ← rd array index; wr p index c) parent_path0;
          wr p (u32 (Z.of_nat (length d) - 1)) 0) = Some pp /\
    resolve segment0 s pp = Some r /\
    match walk (m !!.) (start cwd (d ++ nm)) (segments (dir_text d)) with None => r = -1 | Some q => at_path s r q end.
Proof.
  intros Ht Hl [d' ->]. rewrite length_app in Hl |- *.
  assert (dir_text (d' ++ [SLASH]) = d') as ->.
  { unfold dir_text. rewrite length_app. simpl. by rewrite Nat.add_sub, take_app_length. }
  rewrite start_app by (by destruct d'). rewrite length_app in Hl. simpl length in *.
  set (text' := if decide (d' = []) then [SLASH] else d').
  assert (walk (m !!.) (start cwd (d' ++ [SLASH])) (segments d') = lookup_path (m !!.) cwd text') as ->.
  { unfold lookup_path, text'. destruct (decide (d' = [])) as [->|Hne]; [done|]. by rewrite start_app. }
  assert (c_string (splice parent_path0 0 (text' ++ [0])) text') as Hc.
  { unfold text'. apply c_string_splice; [destruct (decide (d' = [])); simpl; lia|].
    destruct (decide (d' = [])); [by repeat constructor|]. pose proof (c_string_nonzero _ _ Ht) as H.
    by apply Forall_app in H as [[H _]%Forall_app _]. }
  destruct (resolve_spec s m cwd Hinv Habs segment0 Hseg _ text' Hc) as (r & Er & Hr).
  { unfold text'. destruct (decide (d' = [])); simpl; lia. }
  exists (splice parent_path0 0 (text' ++ [0])), r. split; [|done]. unfold text'. clear -Hpp Hl Ht.
  destruct (decide (d' = [])) as [->|Hne].
  - simpl length. cbn [Z.of_nat Z.eqb Pos.of_succ_nat Nat.add Pos.eqb]. rewrite wr_splice by (unfold room; lia).
    rewrite bind_some, wr_splice.
    2: { unfold room. rewrite length_splice; [lia|]. unfold room. simpl. lia. }
    f_equal. apply splice_next; [done|]. unfold room. simpl. lia.
  - assert (length d' <> 0)%nat by (by destruct d'). destruct (Z.eqb_spec (Z.of_nat (length d' + 1)) 1); [lia|].
    rewrite (copy_loop d' _ _ 0); [|lia|unfold room; lia|].
    2: { intros j c a Hj Hc. destruct (c_string_char array ((d' ++ [SLASH]) ++ nm) (Z.to_nat j) c Ht) as [E _].
         { rewrite <- app_assoc. by apply lookup_app_l_Some. }
         rewrite Z2Nat.id in E by lia. by rewrite E, bind_some, Z.add_0_l. }
    rewrite bind_some, u32_small by warith. rewrite wr_splice.
    2: { unfold room. rewrite length_splice; [lia|]. unfold room. lia. }
    f_equal. apply splice_next; [lia|]. unfold room. rewrite length_app. simpl. lia.
Qed.

Lemma resolve_parent_spec array t name0 :
  c_string array t -> Z.of_nat (length t) < 2 ^ 32 - 1 -> length name0 = 24%nat ->
  exists r pa nm', resolve_parent segment0 parent_path0 s array name0 = Some (r, pa, nm') /\
    match target (m !!.) cwd t with
    | None => r = -1
    | Some q => exists nm p, q = nm :: p /\ r = 0 /\ at_path s pa p /\ m !! p = Some Dir /\
                  c_string nm' nm /\ legal nm
    end.
Proof.
  intros Ht Hl Hn0. unfold resolve_parent. rewrite (string_length_spec _ _ Ht) by lia. rewrite bind_some.
  unfold FS_PATH_MAX. destruct (Z.eqb_spec (Z.of_nat (length t)) 0) as [E0|E0].
  { do 3 eexists. split; [done|]. by destruct t. }
  cbn [orb]. destruct (Z.leb_spec 128 (Z.of_nat (length t))) as [E1|E1].
  { do 3 eexists. split; [done|]. unfold target. by destruct (Nat.leb_spec 128 (length t)); [|lia]. }
  rewrite u32_small by warith. destruct (last t) as [c|] eqn:Elast; [|by apply last_None in Elast; subst t].
  assert (rd array (Z.of_nat (length t) - 1) = Some c) as ->.
  { rewrite last_lookup in Elast. destruct (c_string_char _ _ _ _ Ht Elast) as [E _]. rewrite <- E. f_equal. lia. }
  rewrite !bind_some. destruct (Z.eqb_spec c SLASH) as [->|Hc].
  { do 3 eexists. split; [done|]. unfold target. by rewrite Elast, bool_decide_true, orb_true_r by done. }
  destruct (last_slash t) as (d & nm & -> & Hnm & Hd).
  assert (nm <> []) as Hne.
  { intros ->. rewrite app_nil_r in *. destruct Hd as [->|[d' ->]]; [done|].
    rewrite last_snoc in Elast. congruence. }
  rewrite (find_split_spec array d nm Ht Hnm Hd), bind_some by lia. cbv zeta.
  rewrite (target_split m cwd d nm Hne Hnm Hd) by lia. rewrite length_app in *.
  replace (Z.of_nat (length d + length nm) - Z.of_nat (length d)) with (Z.of_nat (length nm)) by lia.
  rewrite u32_small by warith. assert (length nm <> 0)%nat by (by destruct nm).
  destruct (Z.eqb_spec (Z.of_nat (length nm)) 0) as [|_]; [lia|]. cbn [orb]. unfold FS_NAME_MAX.
  destruct (Z.leb_spec 24 (Z.of_nat (length nm))) as [E2|E2], (Nat.leb_spec 24 (length nm)) as [E2'|E2']; try lia.
  { by do 3 eexists. }
  rewrite (copy_loop nm _ name0 0); [|lia|unfold room; lia|].
  2: { intros j x a Hj Hx. pose proof (lookup_lt_Some _ _ _ Hx). rewrite u32_small by warith.
       destruct (c_string_char array (d ++ nm) (length d + Z.to_nat j) x Ht) as [E _].
       { rewrite lookup_app_r by lia. rewrite <- Hx. f_equal. lia. }
       replace (Z.of_nat (length d) + j) with (Z.of_nat (length d + Z.to_nat j)) by lia.
       by rewrite E, bind_some, Z.add_0_l. }
  rewrite bind_some, (wr_splice (splice name0 0 nm)).
  2: { unfold room. rewrite length_splice; [lia|]. unfold room. lia. }
  rewrite bind_some, splice_next; [|lia|unfold room; rewrite length_app; simpl; lia].
  assert (c_string (splice name0 0 (nm ++ [0])) nm) as Hcs.
  { apply c_string_splice; [lia|]. pose proof (c_string_nonzero _ _ Ht) as H1. by apply Forall_app in H1 as [_ H1]. }
  rewrite (string_equal_spec _ (literal ".") nm dot Hcs) by (by exists []; repeat constructor).
  rewrite (string_equal_spec _ (literal "..") nm dots Hcs) by (by exists []; repeat constructor).
  rewrite !bind_some. cbn [orb].
  destruct (decide (nm = dot)) as [Ed|Ed]; [rewrite bool_decide_true by done; by do 3 eexists|].
  rewrite (bool_decide_false (nm = dot)) by done.
  destruct (decide (nm = dots)) as [Edd|Edd]; [rewrite bool_decide_true by done; by do 3 eexists|].
  rewrite (bool_decide_false (nm = dots)) by done. cbn [Z.eqb negb orb].
  assert (legal nm) as Hlegal by done.
  destruct Hd as [->|Hd].
  { simpl length. cbn [Z.of_nat Z.eqb]. do 3 eexists. split; [done|]. simpl app.
    assert (start cwd nm = cwd) as ->.
    { unfold start. apply decide_False. destruct nm; [done|]. intros [= ->]. by inversion Hnm. }
    change (segments (dir_text [])) with (@nil (list Z)). cbn [walk]. rewrite decide_True by apply current_is_dir.
    do 2 eexists. split; [done|]. split; [done|]. split; [apply (abs_cwd _ _ _ Habs)|]. split; [apply current_is_dir|done]. }
  destruct (parent_path_spec array d nm Ht ltac:(rewrite length_app; lia) Hd) as (pp & r & -> & Hr & Hw).
  destruct (Z.eqb_spec (Z.of_nat (length d)) 0) as [Hd0|_].
  { destruct Hd as [d' ->]. rewrite length_app in Hd0. simpl in Hd0. lia. }
  rewrite bind_some, Hr, bind_some.
  destruct (walk (m !!.) (start cwd (d ++ nm)) (segments (dir_text d))) as [q|]; [|subst r; by do 3 eexists].
  pose proof (at_path_range s Hinv _ _ Hw) as Hrange. destruct (Z.ltb_spec r 0); [lia|].
  destruct (at_path_node s Hinv _ _ Hw) as (x & Hx & _). rewrite Hx, bind_some.
  pose proof (abs_node s m cwd Habs _ _ _ Hw Hx) as Hmq.
  destruct (Z.eqb_spec (is_directory x) 0) as [Hdir|Hdir]; do 3 eexists; (split; [done|]).
  - rewrite decide_False; [done|]. by rewrite Hmq, entry_of_file.
  - rewrite entry_of_dir in Hmq by done. rewrite decide_True by done.
    do 2 eexists. split; [done|]. split; [done|]. rewrite u8_small by warith. done.
Qed.
End parents.
