(* ===== verification/RamfsCorrect.v ===== *)
(** * Correctness of the RAM file system

    Every operation of ramfs.c refines an operation on a map from paths to
    directories and file contents, and keeps the invariant of the node table. *)

From Stdlib Require Import String Ascii.
From S2P Require Import Prelude Buffer Ramfs RamfsTree.

#[local] Open Scope Z_scope.

(** ** The abstract operations *)

Definition create (m : tree) (cwd : path) (t : list Z) (e : entry) : tree * Z :=
  match target (m !!.) cwd t with
  | Some q => if decide (m !! q = None /\ (base.size m < 64)%nat) then (<[q := e]> m, 0) else (m, -1)
  | None => (m, -1)
  end.

Definition is_child (q : path) (p : path) : bool :=
  match p with [] => false | _ :: p => bool_decide (p = q) end.

Definition has_entries (m : tree) (q : path) : bool :=
  existsb (is_child q) (map_to_list m).*1.

(** The calls that change the file system, with their C arguments. *)
Inductive call : Type :=
| Mkdir (p : list Z)
| Touch (p : list Z)
| Write (p t : list Z) (append : Z)
| Remove (p : list Z)
| Chdir (p : list Z).

Definition effect (c : call) (m : tree) (cwd : path) : tree * path * Z :=
  match c with
  | Mkdir p => let '(m, r) := create m cwd (text p) Dir in (m, cwd, r)
  | Touch p =>
    match lookup_path (m !!.) cwd (text p) with
    | Some q => (m, cwd, if decide (m !! q = Some Dir) then -1 else 0)
    | None => let '(m, r) := create m cwd (text p) (File []) in (m, cwd, r)
    end
  | Write p t append =>
    match (q ← lookup_path (m !!.) cwd (text p); e ← m !! q; Some (q, e)) with
    | Some (q, File old) =>
      let new := (if append =? 0 then [] else old) ++ text t in
      (<[q := File (take 255 new)]> m, cwd, if (length new <=? 255)%nat then 0 else -2)
    | _ => (m, cwd, -1)
    end
  | Remove p =>
    match lookup_path (m !!.) cwd (text p) with
    | None | Some [] => (m, cwd, -1)
    | Some q => if has_entries m q then (m, cwd, -2) else (delete q m, cwd, 0)
    end
  | Chdir p =>
    match lookup_path (m !!.) cwd (text p) with
    | Some q => if decide (m !! q = Some Dir) then (m, q, 0) else (m, cwd, -1)
    | None => (m, cwd, -1)
    end
  end.

(** ** Changing one node *)

Definition put (s : ramfs) (n : Z) (x : fs_node) : ramfs :=
  {| nodes := <[Z.to_nat n := x]> (nodes s); current_directory := current_directory s |}.

Lemma with_node_put s n x : 0 <= n < Z.of_nat (length (nodes s)) -> with_node s n x = Some (put s n x).
Proof. intros H. unfold with_node. by rewrite wr_ok by done. Qed.

Lemma rd_put s n x j :
  0 <= n < Z.of_nat (length (nodes s)) ->
  rd (nodes (put s n x)) j = if n =? j then Some x else rd (nodes s) j.
Proof. intros H. apply (rd_wr _ n). by apply wr_ok. Qed.

Section change.
Context (s : ramfs) (m : tree) (cwd : path) (Hinv : fs_inv s) (Habs : abstracts s m cwd).
Context (n : Z) (x0 x : fs_node) (Hn : 0 < n < 64) (Hx0 : rd (nodes s) n = Some x0).
Context (Hname : length (name x) = 24%nat) (Hdata : length (data x) = 256%nat).

Lemma rd_changed j : rd (nodes (put s n x)) j = if n =? j then Some x else rd (nodes s) j.
Proof. apply rd_put. rewrite (inv_length s Hinv). lia. Qed.

Lemma changed_arrays j y :
  rd (nodes (put s n x)) j = Some y -> length (name y) = 24%nat /\ length (data y) = 256%nat.
Proof.
  rewrite rd_changed. destruct (n =? j); [by intros [= <-]|]. apply (inv_arrays s Hinv).
Qed.

Lemma changed_root :
  exists r, rd (nodes (put s n x)) 0 = Some r /\ used r <> 0 /\ is_directory r <> 0 /\ parent r = 0.
Proof. rewrite rd_changed. destruct (Z.eqb_spec n 0); [lia|]. apply (inv_root s Hinv). Qed.

(** *** A new node *)

Section new.
Context (Hfree : used x0 = 0) (Hused : used x <> 0).
Context (nm : list Z) (p : path) (Hnm : c_string (name x) nm) (Hlegal : legal nm).
Context (Hp : at_path s (parent x) p) (Hdir : m !! p = Some Dir) (Hnew : m !! (nm :: p) = None).
Context (Hsize : size x = 0) (Hend : rd (data x) 0 = Some 0).

Lemma new_not_used j q : at_path s j q -> j <> n.
Proof. intros Hj ->. destruct (at_path_node s Hinv n q Hj) as (y & Hy & Hu). congruence. Qed.

Lemma new_mono j q : at_path s j q -> at_path (put s n x) j q.
Proof.
  intros H. induction H as [|j y g q Hy Hj Hu Hg Hq IH]; [constructor|].
  apply (at_child _ j y); try done. rewrite rd_changed.
  destruct (Z.eqb_spec n j) as [->|]; [congruence|done].
Qed.

Lemma new_path : at_path (put s n x) n (nm :: p).
Proof.
  apply (at_child _ n x); try done; [by rewrite rd_changed, Z.eqb_refl|lia|by apply new_mono].
Qed.

Lemma new_inv_path j q : at_path (put s n x) j q -> (j = n /\ q = nm :: p) \/ (j <> n /\ at_path s j q).
Proof.
  intros H. induction H as [|j y g q Hy Hj Hu Hg Hq IH]; [right; split; [lia|constructor]|].
  rewrite rd_changed in Hy. destruct (Z.eqb_spec n j) as [<-|Hne].
  - left. split; [done|]. injection Hy as <-. f_equal; [by eapply c_string_inj|].
    destruct IH as [[E _]|[_ IH]]; [by destruct (new_not_used _ _ Hp)|]. by apply (at_path_fun s (parent x)).
  - right. split; [done|]. apply (at_child _ j y); try done. destruct IH as [[E _]|[_ IH]]; [|done].
    destruct (inv_node s Hinv j y Hy Hj Hu) as [_ _ _ (z & r & _ & _ & Hr)].
    by destruct (new_not_used _ _ Hr).
Qed.

Lemma new_inv : fs_inv (put s n x).
Proof.
  constructor.
  - simpl. rewrite length_insert. apply (inv_length s Hinv).
  - apply changed_arrays.
  - apply changed_root.
  - intros j y Hy Hj Hu. rewrite rd_changed in Hy. destruct (Z.eqb_spec n j) as [<-|Hne].
    + injection Hy as <-. destruct (proj1 (abs_map _ _ _ Habs _ _) Hdir) as (k & z & Hk & Hz & Ed).
      assert (k = parent x) as -> by (by apply (at_path_inj s Hinv _ _ p)).
      constructor; [by exists nm|lia|by rewrite Hsize|]. exists z, p. rewrite rd_changed.
      destruct (Z.eqb_spec n (parent x)) as [E|_]; [by destruct (new_not_used _ _ Hp)|].
      split; [done|]. split; [|by apply new_mono]. unfold entry_of_node in Ed. by destruct (Z.eqb_spec (is_directory z) 0).
    + destruct (inv_node s Hinv j y Hy Hj Hu) as [Hnm' Hsz He (z & r & Hz & Hd & Hr)].
      constructor; try done. exists z, r. rewrite rd_changed.
      destruct (Z.eqb_spec n (parent y)) as [E|_]; [by destruct (new_not_used _ _ Hr)|].
      split; [done|]. split; [done|by apply new_mono].
  - assert (Hclash : forall j y, rd (nodes s) j = Some y -> j <> 0 -> used y <> 0 ->
      parent y = parent x -> c_string (name y) nm -> False).
    { intros j y Hy Hj Hu Hpar Hny. apply (proj1 (abs_none s m cwd Hinv Habs _) Hnew j).
      apply (at_child _ j y); try done. by rewrite Hpar. }
    intros i j y z g Hy Hz Hi Hj Huy Huz Hpar Hny Hnz. rewrite rd_changed in Hy, Hz.
    destruct (Z.eqb_spec n i) as [<-|Hni], (Z.eqb_spec n j) as [<-|Hnj]; [done| | |by eapply (inv_siblings s Hinv)].
    + injection Hy as <-. assert (g = nm) as -> by (by apply (c_string_inj (name x))). by destruct (Hclash j z).
    + injection Hz as <-. assert (g = nm) as -> by (by apply (c_string_inj (name x))). by destruct (Hclash i y).
  - destruct (inv_current s Hinv) as (y & q & Hy & Hd & Hq). exists y, q. simpl current_directory. rewrite rd_changed.
    destruct (Z.eqb_spec n (current_directory s)) as [E|_]; [by destruct (new_not_used _ _ Hq)|].
    split; [done|]. split; [done|by apply new_mono].
Qed.

Lemma new_abs : abstracts (put s n x) (<[nm :: p := entry_of_node x]> m) cwd.
Proof.
  constructor; [|apply new_mono, (abs_cwd _ _ _ Habs)]. intros q e. destruct (decide (q = nm :: p)) as [->|Hne].
  - rewrite lookup_insert_eq. split.
    + intros [= <-]. exists n, x. split; [apply new_path|]. by rewrite rd_changed, Z.eqb_refl.
    + intros (j & y & Hj & Hy & <-). destruct (new_inv_path _ _ Hj) as [[-> _]|[_ Hj']].
      * rewrite rd_changed, Z.eqb_refl in Hy. by injection Hy as ->.
      * by destruct (proj1 (abs_none s m cwd Hinv Habs _) Hnew j).
  - rewrite lookup_insert_ne by done. rewrite (abs_map _ _ _ Habs). split; intros (j & y & Hj & Hy & <-); exists j, y.
    + split; [by apply new_mono|]. rewrite rd_changed. destruct (Z.eqb_spec n j) as [E|]; [|done].
      by destruct (new_not_used _ _ Hj).
    + destruct (new_inv_path _ _ Hj) as [[_ ->]|[Hjn Hj']]; [done|]. rewrite rd_changed in Hy.
      destruct (Z.eqb_spec n j); [done|]. done.
Qed.
End new.

(** *** New contents *)

Section contents.
Context (Hsame : used x = used x0 /\ is_directory x = is_directory x0 /\ parent x = parent x0 /\ name x = name x0).
Context (Hu0 : used x0 <> 0) (Hsize : 0 <= size x < 256) (Hend : rd (data x) (size x) = Some 0).

Lemma contents_path j q : at_path (put s n x) j q <-> at_path s j q.
Proof.
  destruct Hsame as (Eu & _ & Ep & En). split; intros H; induction H as [|j y g q Hy Hj Hu Hg Hq IH];
    [constructor| |constructor|].
  - rewrite rd_changed in Hy. destruct (Z.eqb_spec n j) as [<-|Hne]; [|by apply (at_child _ j y)]. injection Hy as <-.
    apply (at_child _ n x0); try done; [by rewrite <- En|by rewrite <- Ep].
  - destruct (Z.eq_dec n j) as [<-|Hne].
    + assert (y = x0) as -> by congruence. apply (at_child _ n x); [by rewrite rd_changed, Z.eqb_refl|done|congruence| |].
      * by rewrite En.
      * by rewrite Ep.
    + apply (at_child _ j y); try done. rewrite rd_changed. by destruct (Z.eqb_spec n j).
Qed.

(** The node at [j] is the old one, up to its contents. *)
Lemma contents_node j y :
  rd (nodes (put s n x)) j = Some y ->
  exists z, rd (nodes s) j = Some z /\ used y = used z /\ is_directory y = is_directory z /\
    parent y = parent z /\ name y = name z.
Proof.
  rewrite rd_changed. destruct (Z.eqb_spec n j) as [<-|Hne]; [|eauto 10]. intros [= <-]. by exists x0.
Qed.

Lemma contents_node' j z :
  rd (nodes s) j = Some z ->
  exists y, rd (nodes (put s n x)) j = Some y /\ is_directory y = is_directory z.
Proof.
  intros Hz. rewrite rd_changed. destruct (Z.eqb_spec n j) as [<-|Hne]; [|eauto].
  assert (z = x0) as -> by congruence. exists x. split; [done|]. tauto.
Qed.

Lemma contents_inv : fs_inv (put s n x).
Proof.
  constructor.
  - simpl. rewrite length_insert. apply (inv_length s Hinv).
  - apply changed_arrays.
  - apply changed_root.
  - intros j y Hy Hj Hu. destruct (contents_node j y Hy) as (z & Hz & Eu & Ed & Ep & En).
    destruct (inv_node s Hinv j z Hz Hj ltac:(congruence)) as [Hnm Hs He (w & q & Hw & Hd & Hq)].
    destruct (contents_node' _ _ Hw) as (w' & Hw' & Ew).
    constructor; [by rewrite En| | |rewrite Ep; exists w', q; rewrite contents_path; split; [done|by rewrite Ew]].
    + rewrite rd_changed in Hy. destruct (n =? j); [by injection Hy as <-|congruence].
    + rewrite rd_changed in Hy. destruct (n =? j); [by injection Hy as <-|congruence].
  - intros i j y z g Hy Hz Hi Hj Huy Huz Hpar Hny Hnz.
    destruct (contents_node i y Hy) as (y' & Hy' & Eu & _ & Ep & En).
    destruct (contents_node j z Hz) as (z' & Hz' & Eu' & _ & Ep' & En').
    apply (inv_siblings s Hinv i j y' z' g); congruence.
  - destruct (inv_current s Hinv) as (y & q & Hy & Hd & Hq). destruct (contents_node' _ _ Hy) as (y' & Hy' & Ey).
    exists y', q. simpl current_directory. rewrite contents_path. split; [done|by rewrite Ey].
Qed.

Lemma contents_abs q : at_path s n q -> abstracts (put s n x) (<[q := entry_of_node x]> m) cwd.
Proof.
  intros Hq. constructor; [|simpl; rewrite contents_path; apply (abs_cwd _ _ _ Habs)].
  intros r e. setoid_rewrite contents_path. setoid_rewrite rd_changed. destruct (decide (r = q)) as [->|Hne].
  - rewrite lookup_insert_eq. split.
    + intros [= <-]. exists n, x. by rewrite Z.eqb_refl.
    + intros (j & y & Hj & Hy & <-). rewrite (at_path_inj s Hinv j n q Hj Hq), Z.eqb_refl in Hy.
      by injection Hy as ->.
  - rewrite lookup_insert_ne by done. rewrite (abs_map _ _ _ Habs).
    assert (forall j, at_path s j r -> n =? j = false) as Hj.
    { intros j Hj. apply Z.eqb_neq. intros <-. by apply Hne, (at_path_fun s n). }
    split; intros (j & y & Hr & Hy & <-); exists j, y; rewrite (Hj j Hr) in *; done.
Qed.
End contents.

(** *** A removed node *)

Section removed.
Context (Hfree : used x = 0) (Hu0 : used x0 <> 0) (Hcur : current_directory s <> n).
Context (Hleaf : forall j y, rd (nodes s) j = Some y -> j <> 0 -> used y <> 0 -> parent y <> n).

Lemma removed_path j q : at_path (put s n x) j q <-> j <> n /\ at_path s j q.
Proof.
  split.
  - intros H. induction H as [|j y g q Hy Hj Hu Hg Hq IH]; [split; [lia|constructor]|]. rewrite rd_changed in Hy.
    destruct (Z.eqb_spec n j) as [<-|Hne]; [by injection Hy as <-|]. split; [done|].
    apply (at_child _ j y); try done. apply IH.
  - intros [Hjn H]. revert Hjn. induction H as [|j y g q Hy Hj Hu Hg Hq IH]; intros Hjn; [constructor|].
    apply (at_child _ j y); try done; [|apply IH; by apply (Hleaf j)].
    rewrite rd_changed. by destruct (Z.eqb_spec n j) as [E|].
Qed.

Lemma removed_node j y :
  rd (nodes (put s n x)) j = Some y -> used y <> 0 -> j <> n /\ rd (nodes s) j = Some y.
Proof. rewrite rd_changed. destruct (Z.eqb_spec n j) as [<-|Hne]; [by intros [= <-]|done]. Qed.

Lemma removed_inv : fs_inv (put s n x).
Proof.
  constructor.
  - simpl. rewrite length_insert. apply (inv_length s Hinv).
  - apply changed_arrays.
  - apply changed_root.
  - intros j y Hy Hj Hu. destruct (removed_node j y Hy Hu) as [Hjn Hy'].
    destruct (inv_node s Hinv j y Hy' Hj Hu) as [Hnm Hs He (w & q & Hw & Hd & Hq)].
    pose proof (Hleaf j y Hy' Hj Hu) as Hpar. constructor; try done. exists w, q. rewrite removed_path, rd_changed.
    destruct (Z.eqb_spec n (parent y)); [congruence|done].
  - intros i j y z g Hy Hz Hi Hj Huy Huz Hpar Hny Hnz.
    apply removed_node in Hy as [_ Hy]; [|done]. apply removed_node in Hz as [_ Hz]; [|done].
    by apply (inv_siblings s Hinv i j y z g).
  - destruct (inv_current s Hinv) as (y & q & Hy & Hd & Hq). exists y, q. simpl current_directory.
    rewrite removed_path, rd_changed. destruct (Z.eqb_spec n (current_directory s)); [congruence|done].
Qed.

Lemma removed_abs q : at_path s n q -> abstracts (put s n x) (delete q m) cwd.
Proof.
  intros Hq. constructor; [|simpl; rewrite removed_path; split; [done|apply (abs_cwd _ _ _ Habs)]].
  intros r e. setoid_rewrite removed_path. setoid_rewrite rd_changed. destruct (decide (r = q)) as [->|Hne].
  - rewrite lookup_delete_eq. split; [done|]. intros (j & y & [Hj Hj'] & _). destruct Hj.
    by apply (at_path_inj s Hinv _ _ q).
  - rewrite lookup_delete_ne by done. rewrite (abs_map _ _ _ Habs).
    split; intros (j & y & Hr & Hy & <-); exists j, y.
    + assert (j <> n) as Hjn by (intros ->; by apply Hne, (at_path_fun s n)).
      by destruct (Z.eqb_spec n j); [congruence|].
    + destruct Hr as [Hjn Hr]. by destruct (Z.eqb_spec n j); [congruence|].
Qed.
End removed.
End change.

(** ** The number of entries *)

Definition used_at (s : ramfs) (n : Z) : bool :=
  match rd (nodes s) n with Some x => negb (used x =? 0) | None => false end.

Definition used_nodes (s : ramfs) : list Z := filter (fun n => used_at s n) (seqZ 0 64).

Lemma used_at_iff s n : used_at s n <-> exists x, rd (nodes s) n = Some x /\ used x <> 0.
Proof.
  unfold used_at. destruct (rd (nodes s) n) as [x|]; [|by split; [|intros (x & ? & _)]].
  destruct (Z.eqb_spec (used x) 0); simpl; split; try done; [by intros (y & [= <-] & ?)|intros _; eauto].
Qed.

Lemma filter_all {A} (P : A -> Prop) `{!forall x, Decision (P x)} l : Forall P l -> filter P l = l.
Proof. induction 1 as [|x l Hx _ IH]; [done|]. rewrite filter_cons_True by done. by f_equal. Qed.

Section counting.
Context (s : ramfs) (m : tree) (cwd : path) (Hinv : fs_inv s) (Habs : abstracts s m cwd).

Lemma used_nodes_iff n : n ∈ used_nodes s <-> exists p, at_path s n p.
Proof.
  unfold used_nodes. rewrite list_elem_of_filter, used_at_iff, elem_of_seqZ. split.
  - intros [(x & Hx & Hu) _]. by apply (used_at_path s Hinv n x).
  - intros [p Hp]. split; [by apply (at_path_node s Hinv n p)|]. pose proof (at_path_range s Hinv n p Hp). lia.
Qed.

Lemma paths_of ids :
  (forall n, n ∈ ids -> exists p, at_path s n p) -> exists ps, Forall2 (at_path s) ids ps.
Proof.
  induction ids as [|n ids IH]; intros H; [by exists []|].
  destruct (H n ltac:(set_solver)) as [p Hp]. destruct IH as [ps Hps]; [intros; apply H; set_solver|].
  exists (p :: ps). by constructor.
Qed.

Lemma tree_size : base.size m = length (used_nodes s).
Proof.
  destruct (paths_of (used_nodes s)) as [ps Hps]; [by intros n ?%used_nodes_iff|].
  rewrite <- length_map_to_list, <- (length_fmap fst), (Forall2_length _ _ _ Hps). apply Permutation_length, NoDup_Permutation.
  - apply NoDup_fst_map_to_list.
  - assert (NoDup (used_nodes s)) as Hnd by apply NoDup_filter, NoDup_seqZ.
    apply NoDup_alt. intros i j p Hi Hj.
    destruct (Forall2_lookup_r _ _ _ _ _ Hps Hi) as (n & Hn & Hpn).
    destruct (Forall2_lookup_r _ _ _ _ _ Hps Hj) as (k & Hk & Hpk).
    assert (k = n) as -> by (by apply (at_path_inj s Hinv _ _ p)). by apply (NoDup_lookup (used_nodes s) i j n).
  - intros p. rewrite list_elem_of_fmap. split.
    + intros ([q e] & -> & He%elem_of_map_to_list). apply (abs_map _ _ _ Habs) in He as (n & x & Hn & _).
      assert (n ∈ used_nodes s) as [i Hi]%list_elem_of_lookup by (apply used_nodes_iff; eauto).
      destruct (Forall2_lookup_l _ _ _ _ _ Hps Hi) as (q' & Hq' & Hn').
      rewrite (at_path_fun s n _ _ Hn Hn'). by apply (list_elem_of_lookup_2 _ i).
    + intros [i Hi]%list_elem_of_lookup. destruct (Forall2_lookup_r _ _ _ _ _ Hps Hi) as (n & Hn & Hpn).
      destruct (at_path_node s Hinv n p Hpn) as (x & Hx & _). exists (p, entry_of_node x). split; [done|].
      apply elem_of_map_to_list. by apply (abs_node s m cwd Habs n).
Qed.

Lemma tree_size_max : (base.size m <= 64)%nat.
Proof. rewrite tree_size. unfold used_nodes. etrans; [apply length_filter|]. by rewrite length_seqZ. Qed.

Lemma tree_has_room : (base.size m < 64)%nat <-> exists n x, 0 < n < 64 /\ rd (nodes s) n = Some x /\ used x = 0.
Proof.
  rewrite tree_size. unfold used_nodes. replace 64%nat with (length (seqZ 0 64)) by done. split.
  - intros Hlt. destruct (decide (Forall (fun n => used_at s n) (seqZ 0 64))) as [H|H].
    + rewrite filter_all in Hlt by done. lia.
    + apply not_Forall_Exists in H; [|intros ?; apply _]. apply Exists_exists in H as (n & Hn%elem_of_seqZ & Hu). destruct (rd_ok (nodes s) n) as [x Hx];
        [rewrite (inv_length s Hinv); lia|]. exists n, x.
      destruct (Z.eq_dec (used x) 0) as [E|E]; [|destruct Hu; apply used_at_iff; eauto]. split; [|done].
      assert (n <> 0); [intros ->|lia]. destruct (inv_root s Hinv) as (r & Hr & Hur & _). congruence.
  - intros (n & x & Hn & Hx & Hu). apply length_filter_lt with n; [apply elem_of_seqZ; lia|].
    rewrite used_at_iff. intros (y & Hy & Huy). congruence.
Qed.
End counting.

(** ** The operations *)

(** A C string argument that 32-bit positions can index. *)
Definition arg (array t : list Z) : Prop := c_string array t /\ Z.of_nat (length t) < 2 ^ 32 - 1.

Lemma has_entries_iff m q : has_entries m q = true <-> exists g, m !! (g :: q) <> None.
Proof.
  unfold has_entries. rewrite existsb_exists. split.
  - intros (p & Hp & Hc). destruct p as [|g p]; [done|]. apply bool_decide_eq_true in Hc as ->. exists g.
    apply list_elem_of_In, list_elem_of_fmap in Hp as ([k e] & -> & He%elem_of_map_to_list). simpl in *. by rewrite He.
  - intros (g & Hg). destruct (m !! (g :: q)) as [e|] eqn:E; [|done]. exists (g :: q).
    split; [|by apply bool_decide_eq_true]. apply list_elem_of_In, list_elem_of_fmap. exists (g :: q, e).
    split; [done|]. by apply elem_of_map_to_list.
Qed.

Section operations.
Context (segment0 parent_path0 name0 : list Z).
Context (Hseg : length segment0 = 24%nat) (Hpp : length parent_path0 = 128%nat) (Hn0 : length name0 = 24%nat).
Context (s : ramfs) (m : tree) (cwd : path) (Hinv : fs_inv s) (Habs : abstracts s m cwd).

(** What [create_node] stores in a free node. *)
Definition fresh (x0 : fs_node) (flag pa : Z) (nm : list Z) : fs_node :=
  {| used := 1; is_directory := flag; parent := pa; size := 0;
     name := splice (name x0) 0 (nm ++ [0]); data := <[0%nat := 0]> (data x0) |}.

Lemma create_node_spec array t flag :
  arg array t ->
  exists s', create_node segment0 parent_path0 name0 s array flag =
      Some (s', snd (create m cwd t (if flag =? 0 then File [] else Dir))) /\
    fs_inv s' /\ abstracts s' (fst (create m cwd t (if flag =? 0 then File [] else Dir))) cwd.
Proof.
  intros [Ht Hl]. unfold create_node, create.
  destruct (resolve_parent_spec s m cwd Hinv Habs segment0 parent_path0 Hseg Hpp array t name0 Ht Hl Hn0)
    as (r & pa & nm' & -> & Hr). rewrite bind_some.
  destruct (target (m !!.) cwd t) as [q|]; [|subst r; by exists s].
  destruct Hr as (nm & p & -> & -> & Hp & Hdir & Hnm & Hlegal). cbn [Z.eqb negb].
  destruct (find_child_spec s Hinv pa p nm' nm Hp Hnm) as (c & -> & [[-> Hno]|[Hc Hc']]); rewrite bind_some.
  2: { destruct (Z.leb_spec 0 c); [|lia]. exists s. rewrite decide_False; [done|]. intros [E _].
       by destruct (proj1 (abs_none s m cwd Hinv Habs _) E c). }
  apply (abs_none s m cwd Hinv Habs) in Hno. cbn [Z.leb Z.compare].
  match goal with |- context [for_break _ _ ?loop_body _] =>
  destruct (for_break_rule
    (fun i (_ : unit) => 0 < i /\ forall j x, 0 < j < i -> rd (nodes s) j = Some x -> used x <> 0)
    (fun v => exists n x0, v = (put s n (fresh x0 flag pa nm), 0) /\ 0 < n < 64 /\ rd (nodes s) n = Some x0 /\ used x0 = 0)
    (Z.to_nat FS_NODE_MAX - 1) 1 loop_body tt) as [([] & -> & _ & H)|(v & -> & n & x0 & -> & Hn & Hx0 & Hu)] end.
  - split; [lia|]. intros. lia.
  - intros i [] Hi (_ & H). unfold FS_NODE_MAX in Hi. destruct (rd_ok (nodes s) i) as [x Hx];
      [rewrite (inv_length s Hinv); lia|]. rewrite Hx, bind_some.
    destruct (Z.eqb_spec (used x) 0) as [Hu|Hu].
    + right. destruct (inv_arrays s Hinv i x Hx) as [Ha Hb]. rewrite wr_ok by lia. rewrite bind_some.
      pose proof (legal_length nm Hlegal).
      rewrite (string_copy_spec _ _ nm) by (done || (unfold FS_NAME_MAX; warith)). rewrite bind_some.
      rewrite take_ge by (unfold FS_NAME_MAX; lia).
      rewrite with_node_put by (rewrite (inv_length s Hinv); lia). rewrite bind_some.
      eexists. split; [done|]. exists i, x. split; [done|]. split; [lia|done].
    + left. exists tt. split; [done|]. split; [lia|]. intros j y Hj Hy. destruct (Z.eq_dec j i) as [->|]; [congruence|].
      apply (H j); [lia|done].
  - rewrite bind_some. exists s. rewrite decide_False; [done|].
    intros [_ (n & x & Hn & Hx & Hu)%(tree_has_room s m cwd Hinv Habs)].
    by apply (H n x); [unfold FS_NODE_MAX; simpl; lia|..].
  - rewrite bind_some. rewrite decide_True; [|split; [done|apply (tree_has_room s m cwd Hinv Habs); eauto]].
    eexists. split; [done|]. destruct (inv_arrays s Hinv n x0 Hx0) as [Ha Hb]. pose proof (legal_length nm Hlegal).
    assert (length (name (fresh x0 flag pa nm)) = 24%nat) as Hnl.
    { simpl. rewrite length_splice; [done|]. unfold room. rewrite length_app. simpl. lia. }
    assert (length (data (fresh x0 flag pa nm)) = 256%nat) as Hdl by (simpl; by rewrite length_insert).
    assert (c_string (name (fresh x0 flag pa nm)) nm) as Hcs.
    { apply c_string_splice; [lia|]. apply (c_string_nonzero _ _ Hnm). }
    assert (rd (data (fresh x0 flag pa nm)) 0 = Some 0) as Hd0.
    { unfold rd. simpl. apply list_lookup_insert_eq. lia. }
    assert ((if flag =? 0 then File [] else Dir) = entry_of_node (fresh x0 flag pa nm)) as -> by done.
    split; [by apply (new_inv s m cwd Hinv Habs n x0 _ Hn Hx0) with (nm := nm) (p := p)
           |by apply (new_abs s m cwd Hinv Habs n x0 _ Hn Hx0)].
Qed.

Lemma fs_touch_spec array t :
  arg array t ->
  exists s', let '(m', cwd', r) := effect (Touch array) m cwd in
    fs_touch segment0 parent_path0 name0 s array = Some (s', r) /\ fs_inv s' /\ abstracts s' m' cwd'.
Proof.
  intros [Ht Hl]. unfold fs_touch, effect. rewrite (c_string_text _ _ Ht).
  destruct (resolve_spec s m cwd Hinv Habs segment0 Hseg array t Ht Hl) as (r & -> & Hr). rewrite bind_some.
  destruct (lookup_path (m !!.) cwd t) as [q|].
  - exists s. pose proof (at_path_range s Hinv _ _ Hr). destruct (Z.leb_spec 0 r); [|lia].
    destruct (at_path_node s Hinv _ _ Hr) as (x & Hx & _). rewrite Hx, bind_some.
    rewrite (abs_node s m cwd Habs _ _ _ Hr Hx). split; [|done]. do 2 f_equal.
    destruct (Z.eqb_spec (is_directory x) 0) as [E|E];
      [by rewrite entry_of_file, decide_False|by rewrite entry_of_dir, decide_True].
  - subst r. cbn [Z.leb Z.compare]. destruct (create_node_spec array t 0) as (s' & -> & H); [done|]. exists s'.
    cbn [Z.eqb] in *. by destruct (create m cwd t (File [])).
Qed.

Lemma fs_chdir_spec array t :
  arg array t ->
  exists s', let '(m', cwd', r) := effect (Chdir array) m cwd in
    fs_chdir segment0 s array = Some (s', r) /\ fs_inv s' /\ abstracts s' m' cwd'.
Proof.
  intros [Ht Hl]. unfold fs_chdir, effect. rewrite (c_string_text _ _ Ht).
  destruct (resolve_spec s m cwd Hinv Habs segment0 Hseg array t Ht Hl) as (r & -> & Hr). rewrite bind_some.
  destruct (lookup_path (m !!.) cwd t) as [q|]; [|subst r; by exists s].
  pose proof (at_path_range s Hinv _ _ Hr). destruct (Z.ltb_spec r 0); [lia|].
  destruct (at_path_node s Hinv _ _ Hr) as (x & Hx & _). rewrite Hx, bind_some.
  rewrite (abs_node s m cwd Habs _ _ _ Hr Hx). destruct (Z.eqb_spec (is_directory x) 0) as [E|E].
  - exists s. by rewrite entry_of_file, decide_False.
  - rewrite entry_of_dir, decide_True by done. eexists. split; [done|].
    rewrite u8_small by warith.
    assert (Hsame : forall j p, at_path {| nodes := nodes s; current_directory := r |} j p <-> at_path s j p).
    { intros j p. split; intros Hj; induction Hj; by econstructor. }
    split.
    + destruct Hinv as [H1 H2 H3 H4 H5 H6]. constructor; try done.
      * intros j y Hy Hj Hu. destruct (H4 j y Hy Hj Hu) as [Hnm Hs He (z & p & Hz & Hd & Hp)].
        constructor; try done. exists z, p. by rewrite Hsame.
      * exists x, q. by rewrite Hsame.
    + constructor; [|by apply Hsame]. intros p e. rewrite (abs_map _ _ _ Habs). by setoid_rewrite Hsame.
Qed.

(** What is in the data array after a write at [position]. *)
Lemma written d position t :
  length d = 256%nat -> 0 <= position < 256 -> (length t <= Z.to_nat (255 - position))%nat ->
  take (Z.to_nat (position + Z.of_nat (length t))) (splice d position (t ++ [0])) = take (Z.to_nat position) d ++ t.
Proof.
  intros Hd Hp Ht. unfold splice. rewrite app_assoc, (app_assoc _ t), <- app_assoc.
  apply take_app_length'. rewrite length_app, length_take. lia.
Qed.

Lemma fs_write_spec array t source str append :
  arg array t -> arg source str ->
  exists s', let '(m', cwd', r) := effect (Write array source append) m cwd in
    fs_write segment0 s array source append = Some (s', r) /\ fs_inv s' /\ abstracts s' m' cwd'.
Proof.
  intros [Ht Hl] [Hs Hsl]. unfold fs_write, effect. rewrite (c_string_text _ _ Ht), (c_string_text _ _ Hs).
  destruct (resolve_spec s m cwd Hinv Habs segment0 Hseg array t Ht Hl) as (n & -> & Hr). rewrite bind_some.
  destruct (lookup_path (m !!.) cwd t) as [q|]; [|subst n; by exists s]. rewrite bind_some.
  pose proof (at_path_range s Hinv _ _ Hr) as Hrange. destruct (Z.ltb_spec n 0); [lia|].
  destruct (at_path_node s Hinv _ _ Hr) as (x & Hx & Hu). rewrite Hx, bind_some.
  rewrite (abs_node s m cwd Habs _ _ _ Hr Hx), bind_some.
  destruct (Z.eqb_spec (is_directory x) 0) as [E|E]; [|rewrite entry_of_dir by done; by exists s].
  rewrite entry_of_file by done. cbn [negb].
  assert (0 < n) as Hn.
  { assert (n <> 0); [intros ->|lia]. destruct (inv_root s Hinv) as (y & Hy & _ & Hd & _). congruence. }
  destruct (inv_node s Hinv n x Hx ltac:(lia) Hu) as [_ Hsz He _]. destruct (inv_arrays s Hinv n x Hx) as [Ha Hb].
  set (position := if negb (append =? 0) then size x else 0).
  assert (0 <= position < 256) as Hp by (unfold position; destruct (negb (append =? 0)); lia).
  set (old := if append =? 0 then [] else take (Z.to_nat (size x)) (data x)).
  assert (take (Z.to_nat position) (data x) = old) as Hold
    by (unfold position, old; by destruct (append =? 0)).
  assert (length old = Z.to_nat position) as Hol by (rewrite <- Hold, length_take; lia).
  rewrite (write_text_spec _ _ str) by done. rewrite bind_some.
  set (w := take (Z.to_nat (255 - position)) str).
  assert (length w = Z.to_nat (255 - position) `min` length str)%nat as Hw by apply length_take.
  rewrite wr_splice.
  2: { unfold room. rewrite length_splice; [lia|]. unfold room. lia. }
  rewrite bind_some, splice_next; [|done|unfold room; rewrite length_app; simpl; lia].
  rewrite with_node_put by (rewrite (inv_length s Hinv); lia). rewrite bind_some.
  rewrite u16_small by warith.
  destruct (c_string_rd source str (Z.of_nat (length w)) Hs ltac:(lia)) as [-> Ez]. rewrite bind_some.
  assert (take 255 (old ++ str) = old ++ w) as Hnew.
  { unfold w. rewrite take_app, (take_ge old) by lia. do 2 f_equal. lia. }
  rewrite Hnew. set (x' := {| used := _ |}).
  assert (entry_of_node x' = File (old ++ w)) as <-.
  { unfold x', entry_of_node. simpl. rewrite E. simpl. f_equal. rewrite <- Hold. apply written; [done|done|lia]. }
  assert (length (data x') = 256%nat) as Hdl.
  { simpl. rewrite length_splice; [done|]. unfold room. rewrite length_app. simpl. lia. }
  assert (rd (data x') (size x') = Some 0) as Hend.
  { simpl. apply rd_Some. split; [lia|]. unfold splice. rewrite lookup_app_r, length_take by (rewrite length_take; lia).
    rewrite <- app_assoc, lookup_app_r by lia.
    match goal with |- _ !! ?k = _ => replace k with 0%nat by lia end. done. }
  exists (put s n x'). split; [|split].
  - do 3 f_equal. rewrite length_app.
    destruct (Z.eqb_spec (nth (Z.to_nat (Z.of_nat (length w))) str 0) 0) as [H0|H0],
      (Nat.leb_spec (length old + length str) 255); lia.
  - apply (contents_inv s Hinv n x x'); first [done|lia|simpl; lia].
  - apply (contents_abs s m cwd Hinv Habs n x x'); first [done|lia|simpl; lia].
Qed.

Lemma has_child_spec n :
  0 <= n < 64 ->
  exists b, has_child s n = Some b /\
    (b = true <-> exists j y, rd (nodes s) j = Some y /\ j <> 0 /\ used y <> 0 /\ parent y = n).
Proof.
  intros Hn. unfold has_child. rewrite u8_small by warith.
  match goal with |- context [for_break _ _ ?loop_body _] =>
  destruct (for_break_rule
    (fun i (_ : unit) => 0 < i /\ forall j y, 0 < j < i -> rd (nodes s) j = Some y -> used y <> 0 -> parent y <> n)
    (fun _ => exists j y, rd (nodes s) j = Some y /\ j <> 0 /\ used y <> 0 /\ parent y = n)
    (Z.to_nat FS_NODE_MAX - 1) 1 loop_body tt) as [([] & -> & _ & H)|([] & -> & H)] end.
  - split; [lia|]. intros. lia.
  - intros i [] Hi (_ & H). unfold FS_NODE_MAX in Hi. destruct (rd_ok (nodes s) i) as [x Hx];
      [rewrite (inv_length s Hinv); lia|]. rewrite Hx, bind_some.
    destruct (Z.eqb_spec (used x) 0) as [Hu|Hu], (Z.eqb_spec (parent x) n) as [Hp|Hp]; simpl; [left|left|right|left];
      exists tt; (split; [done|]).
    3: { exists i, x. split; [done|]. split; [lia|done]. }
    all: split; [lia|]; intros j y Hj Hy; destruct (Z.eq_dec j i) as [->|]; [congruence|apply (H j); [lia|done]].
  - rewrite bind_some. exists false. split; [done|]. split; [done|]. intros (j & y & Hy & Hj & Hu & Hp).
    pose proof (rd_range _ _ _ Hy) as Hr. rewrite (inv_length s Hinv) in Hr.
    by destruct (H j y); [unfold FS_NODE_MAX; simpl; lia|..].
  - rewrite bind_some. by exists true.
Qed.

(** A node has an entry below it exactly when some used node has it as parent. *)
Lemma has_entries_node n q :
  at_path s n q ->
  has_entries m q = true <-> exists j y, rd (nodes s) j = Some y /\ j <> 0 /\ used y <> 0 /\ parent y = n.
Proof.
  intros Hq. rewrite has_entries_iff. split.
  - intros (g & Hg). destruct (m !! (g :: q)) as [e|] eqn:Ee; [|done].
    apply (abs_map _ _ _ Habs) in Ee as (j & x & Hj & _). inversion Hj as [|? y ? ? Hy Hj0 Hu Hnm Hp]; subst.
    exists j, y. repeat split; try done. by apply (at_path_inj s Hinv _ _ q).
  - intros (j & y & Hy & Hj & Hu & Hp). destruct (inv_node s Hinv j y Hy Hj Hu) as [(nm & Hnm & _) _ _ _].
    exists nm. rewrite (abs_node s m cwd Habs j _ y); [done| |done]. apply (at_child _ j y); try done. by rewrite Hp.
Qed.

Lemma fs_remove_spec array t :
  arg array t -> lookup_path (m !!.) cwd t <> Some cwd ->
  exists s', let '(m', cwd', r) := effect (Remove array) m cwd in
    fs_remove segment0 s array = Some (s', r) /\ fs_inv s' /\ abstracts s' m' cwd'.
Proof.
  intros [Ht Hl] Hcwd. unfold fs_remove, effect. rewrite (c_string_text _ _ Ht).
  destruct (resolve_spec s m cwd Hinv Habs segment0 Hseg array t Ht Hl) as (n & -> & Hr). rewrite bind_some.
  destruct (lookup_path (m !!.) cwd t) as [q|]; [|subst n; by exists s].
  pose proof (at_path_range s Hinv _ _ Hr) as Hrange.
  destruct (Z.leb_spec n 0) as [H0|H0].
  { assert (n = 0) as -> by lia. inversion Hr; [by exists s|lia]. }
  destruct (at_path_node s Hinv _ _ Hr) as (x & Hx & Hu). rewrite Hx, bind_some.
  destruct (inv_arrays s Hinv n x Hx) as [Ha Hb].
  assert (exists b, (if negb (is_directory x =? 0) then has_child s n else Some false) = Some b /\
            b = has_entries m q) as (b & -> & ->).
  { destruct (Z.eqb_spec (is_directory x) 0) as [E|E]; simpl negb; cbn match.
    - exists false. split; [done|]. symmetry. apply not_true_iff_false. intros (g & Hg)%has_entries_iff.
      destruct (m !! (g :: q)) as [e|] eqn:Ee; [|done].
      apply (abs_map _ _ _ Habs) in Ee as (j & y & Hj & _).
      destruct (at_path_parent s Hinv _ _ _ Hj) as (k & z & Hk & Hz & Hd).
      rewrite (at_path_inj s Hinv _ _ _ Hk Hr) in Hz. congruence.
    - destruct (has_child_spec n ltac:(lia)) as (b & -> & Hiff). exists b. split; [done|].
      apply eq_true_iff_eq. by rewrite Hiff, (has_entries_node n q Hr). }
  rewrite bind_some. assert (q <> []) as Hne by (intros ->; inversion Hr; lia).
  destruct q as [|g q]; [done|]. destruct (has_entries m (g :: q)) eqn:Eh; [by exists s|].
  rewrite with_node_put by (rewrite (inv_length s Hinv); lia). rewrite bind_some. eexists. split; [done|].
  assert (current_directory s <> n) as Hcur.
  { intros E. apply Hcwd. f_equal. symmetry. apply (at_path_fun s n); [|done]. rewrite <- E. apply (abs_cwd _ _ _ Habs). }
  assert (forall j y, rd (nodes s) j = Some y -> j <> 0 -> used y <> 0 -> parent y <> n) as Hleaf.
  { intros j y Hy Hj Huy Hp. assert (has_entries m (g :: q) = true); [|congruence].
    apply (has_entries_node n _ Hr). eauto 10. }
  split; [apply (removed_inv s Hinv n)|apply (removed_abs s m cwd Hinv Habs n)]; (done || lia).
Qed.
End operations.

(** ** Sequences of calls *)

(** What the stack of a call holds. *)
Record stack : Type := { stack_segment : list Z; stack_parent : list Z; stack_name : list Z }.

Definition stack_ok (k : stack) : Prop :=
  length (stack_segment k) = 24%nat /\ length (stack_parent k) = 128%nat /\ length (stack_name k) = 24%nat.

Definition run (k : stack) (c : call) (s : ramfs) : option (ramfs * Z) :=
  let '{| stack_segment := sg; stack_parent := pp; stack_name := nm |} := k in
  match c with
  | Mkdir p => fs_mkdir sg pp nm s p
  | Touch p => fs_touch sg pp nm s p
  | Write p t append => fs_write sg s p t append
  | Remove p => fs_remove sg s p
  | Chdir p => fs_chdir sg s p
  end.

Fixpoint runs (l : list (stack * call)) (s : ramfs) : option (ramfs * list Z) :=
  match l with
  | [] => Some (s, [])
  | (k, c) :: l => '(s, r) ← run k c s; '(s, rs) ← runs l s; Some (s, r :: rs)
  end.

Fixpoint effects (l : list call) (m : tree) (cwd : path) : tree * path * list Z :=
  match l with
  | [] => (m, cwd, [])
  | c :: l => let '(m, cwd, r) := effect c m cwd in
              let '(m, cwd, rs) := effects l m cwd in (m, cwd, r :: rs)
  end.

(** The arguments are C strings. *)
Definition string_arg (p : list Z) : Prop := 0 ∈ p /\ Z.of_nat (length p) < 2 ^ 32.

Definition call_ok (c : call) : Prop :=
  match c with
  | Mkdir p | Touch p | Remove p | Chdir p => string_arg p
  | Write p t _ => string_arg p /\ string_arg t
  end.

(** No call of the sequence removes the directory that is then current.
    [fs_remove] does not check for it (ramfs.c:309): it frees the node that
    [current_directory] names, and a relative [fs_mkdir] after it can make that
    node its own parent ([ramfs_remove_current]). *)
Definition keeps_current (c : call) (m : tree) (cwd : path) : Prop :=
  match c with Remove p => lookup_path (m !!.) cwd (text p) <> Some cwd | _ => True end.

Fixpoint all_keep_current (l : list call) (m : tree) (cwd : path) : Prop :=
  match l with
  | [] => True
  | c :: l => keeps_current c m cwd /\
              let '(m, cwd, _) := effect c m cwd in all_keep_current l m cwd
  end.

Lemma string_arg_arg p : string_arg p -> arg p (text p).
Proof.
  intros [Hp Hl]. pose proof (text_c_string p Hp) as Hs. split; [done|].
  pose proof (c_string_length _ _ Hs). lia.
Qed.

Lemma run_spec k c s m cwd :
  stack_ok k -> call_ok c -> keeps_current c m cwd -> fs_inv s -> abstracts s m cwd ->
  exists s', let '(m', cwd', r) := effect c m cwd in
    run k c s = Some (s', r) /\ fs_inv s' /\ abstracts s' m' cwd'.
Proof.
  destruct k as [sg pp nm]. intros (Hsg & Hpp & Hnm) Hc Hkeep Hinv Habs. simpl in *.
  destruct c as [p|p|p t append|p|p]; simpl in Hc.
  - apply string_arg_arg in Hc. unfold effect.
    destruct (create_node_spec sg pp nm Hsg Hpp Hnm s m cwd Hinv Habs p _ 1 Hc) as (s' & E & H). exists s'.
    cbn [Z.eqb] in *. destruct (create m cwd (text p) Dir). done.
  - by apply (fs_touch_spec sg pp nm Hsg Hpp Hnm s m cwd Hinv Habs p (text p)), string_arg_arg.
  - destruct Hc as [? ?]. by apply (fs_write_spec sg pp nm Hsg Hpp Hnm s m cwd Hinv Habs p (text p) t (text t)); apply string_arg_arg.
  - by apply (fs_remove_spec sg pp nm Hsg Hpp Hnm s m cwd Hinv Habs p (text p)); [apply string_arg_arg|].
  - by apply (fs_chdir_spec sg pp nm Hsg Hpp Hnm s m cwd Hinv Habs p (text p)), string_arg_arg.
Qed.

Lemma runs_spec l s m cwd :
  Forall stack_ok l.*1 -> Forall call_ok l.*2 -> all_keep_current l.*2 m cwd -> fs_inv s -> abstracts s m cwd ->
  exists s', let '(m', cwd', rs) := effects l.*2 m cwd in
    runs l s = Some (s', rs) /\ fs_inv s' /\ abstracts s' m' cwd'.
Proof.
  revert s m cwd. induction l as [|[k c] l IH]; intros s m cwd Hk Hc Hkeep Hinv Habs; [by exists s|].
  rewrite !fmap_cons in *. cbn [fst snd effects runs all_keep_current] in *. apply Forall_cons in Hk as [Hk Hks]. apply Forall_cons in Hc as [Hc Hcs]. destruct Hkeep as [Hkeep Hkeeps].
  destruct (run_spec k c s m cwd Hk Hc Hkeep Hinv Habs) as (s1 & H1).
  destruct (effect c m cwd) as [[m1 cwd1] r1]. destruct H1 as (E1 & Hinv1 & Habs1).
  destruct (IH s1 m1 cwd1 Hks Hcs Hkeeps Hinv1 Habs1) as (s2 & H2).
  destruct (effects l.*2 m1 cwd1) as [[m2 cwd2] rs]. destruct H2 as (E2 & H2).
  exists s2. rewrite E1, bind_some, E2. done.
Qed.

(** C25: refinement, for sequences of calls none of which removes the directory
    that is current at that point ([all_keep_current]; [ramfs_remove_current]
    shows what happens otherwise).  Every such sequence of calls that create
    directories and files, write, remove and change the current directory, with
    C strings as arguments, on a well-formed node table and with any stack
    contents, runs without a fault and does to the tree what the calls say: the
    returned statuses, the map from paths to directories and file contents, and
    the current directory are those of the abstract calls, and the table stays
    well formed. *)
Theorem ramfs_refines l s m cwd :
  Forall stack_ok l.*1 -> Forall call_ok l.*2 -> all_keep_current l.*2 m cwd -> fs_inv s -> abstracts s m cwd ->
  exists s', let '(m', cwd', rs) := effects l.*2 m cwd in
    runs l s = Some (s', rs) /\ fs_inv s' /\ abstracts s' m' cwd'.
Proof. apply runs_spec. Qed.

(** ** Initialisation *)

(** The node table as the loader leaves it: only the sizes of the arrays are
    known. *)
Definition memory_ok (s : ramfs) : Prop :=
  length (nodes s) = 64%nat /\
  Forall (fun x => length (name x) = 24%nat /\ length (data x) = 256%nat) (nodes s).

(** A table whose only used node is the root. *)
Lemma root_only s :
  memory_ok s -> current_directory s = 0 ->
  (exists x, rd (nodes s) 0 = Some x /\ used x <> 0 /\ is_directory x <> 0 /\ parent x = 0) ->
  (forall n x, rd (nodes s) n = Some x -> n <> 0 -> used x = 0) ->
  fs_inv s /\ abstracts s {[ [] := Dir ]} [].
Proof.
  intros [Hl Ha] Hc Hroot Hfree. destruct Hroot as (r & Hr & Hu & Hd & Hp). split.
  - constructor; try done.
    + intros n x [_ Hx]%rd_Some. exact (Forall_lookup_1 _ _ _ _ Ha Hx).
    + by exists r.
    + intros n x Hx Hn Hux. by destruct Hux; apply (Hfree n).
    + intros i j x y nm Hx _ Hi _ Hux. by destruct Hux; apply (Hfree i).
    + exists r, []. rewrite Hc. split; [done|]. split; [done|constructor].
  - constructor; [|rewrite Hc; constructor]. intros p e. split.
    + intros [<- <-]%lookup_singleton_Some. exists 0, r. split; [constructor|]. split; [done|by apply entry_of_dir].
    + intros (n & x & Hn & Hx & <-). inversion Hn as [|? y ? ? Hy Hn0 Huy]; subst.
      * assert (x = r) as -> by congruence. rewrite entry_of_dir by done. apply lookup_singleton_eq.
      * by destruct Huy; apply (Hfree n).
Qed.

Definition name_of (t : string) : list Z := text (literal t).

Definition line (t : string) : string := String.append t (String "010" EmptyString).

Definition boot_calls : list call :=
  [Mkdir (literal "/home"); Mkdir (literal "/bin"); Mkdir (literal "/dev"); Mkdir (literal "/etc");
   Mkdir (literal "/kernel"); Mkdir (literal "/tmp"); Mkdir (literal "/var");
   Touch (literal "/home/welcome.txt");
   Write (literal "/home/welcome.txt") (literal (line "Welcome to MVH Kernel 1.1.10")) 0;
   Touch (literal "/etc/version"); Write (literal "/etc/version") (literal (line "1.1.10")) 0;
   Touch (literal "/kernel/release");
   Write (literal "/kernel/release") (literal (line "MVHKernel 1.1.10 x86_64")) 0].

(** The tree after initialisation. *)
Definition boot_list : list (path * entry) :=
  [([name_of "release"; name_of "kernel"], File (name_of (line "MVHKernel 1.1.10 x86_64")));
   ([name_of "version"; name_of "etc"], File (name_of (line "1.1.10")));
   ([name_of "welcome.txt"; name_of "home"], File (name_of (line "Welcome to MVH Kernel 1.1.10")));
   ([name_of "var"], Dir); ([name_of "tmp"], Dir); ([name_of "kernel"], Dir); ([name_of "etc"], Dir);
   ([name_of "dev"], Dir); ([name_of "bin"], Dir); ([name_of "home"], Dir); ([], Dir)].

Definition boot_tree : tree := list_to_map boot_list.

(** Trees given by a list are searched in the list. *)
Fixpoint alookup (l : list (path * entry)) (p : path) : option entry :=
  match l with
  | [] => None
  | (k, e) :: l => if decide (k = p) then Some e else alookup l p
  end.

Lemma alookup_spec l p : (list_to_map l : tree) !! p = alookup l p.
Proof.
  induction l as [|[k e] l IH]; [done|]. simpl. destruct (decide (k = p)) as [->|Hne].
  - apply lookup_insert_eq.
  - by rewrite lookup_insert_ne.
Qed.

Lemma walk_ext f g cur names : (forall p, f p = g p) -> walk f cur names = walk g cur names.
Proof.
  intros H. revert cur. induction names as [|x names IH]; intros cur; [done|]. simpl. rewrite !IH, !H.
  by destruct (g cur) as [[]|], (g (x :: cur)).
Qed.

Lemma target_ext f g cwd t : (forall p, f p = g p) -> target f cwd t = target g cwd t.
Proof.
  intros H. unfold target. destruct (_ || _); [done|]. destruct (reverse (segments t)) as [|nm dirs]; [done|].
  destruct (_ || _); [done|]. rewrite (walk_ext f g) by done. destruct (walk g _ _) as [p|]; [|done]. by rewrite H.
Qed.

Lemma list_size_le (l : list (path * entry)) : (base.size (list_to_map l : tree) <= length l)%nat.
Proof.
  induction l as [|[k e] l IH]; [done|]. cbn [list_to_map foldr fst snd]. rewrite map_size_insert.
  destruct (_ !! k); simpl; lia.
Qed.

Lemma create_on l t q e :
  target (alookup l) [] t = Some q -> alookup l q = None -> (length l <? 64)%nat = true ->
  create (list_to_map l) [] t e = (list_to_map ((q, e) :: l), 0).
Proof.
  intros Ht Hq Hl%Nat.ltb_lt. unfold create. rewrite (target_ext _ (alookup l)) by apply alookup_spec. rewrite Ht.
  rewrite decide_True; [done|]. rewrite alookup_spec. split; [done|]. pose proof (list_size_le l). lia.
Qed.

Lemma mkdir_on l p q :
  target (alookup l) [] (text p) = Some q -> alookup l q = None -> (length l <? 64)%nat = true ->
  effect (Mkdir p) (list_to_map l) [] = (list_to_map ((q, Dir) :: l), [], 0).
Proof. intros Ht Hq Hl. unfold effect. by rewrite (create_on l _ q). Qed.

Lemma touch_on l p q :
  lookup_path (alookup l) [] (text p) = None ->
  target (alookup l) [] (text p) = Some q -> alookup l q = None -> (length l <? 64)%nat = true ->
  effect (Touch p) (list_to_map l) [] = (list_to_map ((q, File []) :: l), [], 0).
Proof.
  intros Hp Ht Hq Hl. unfold effect. unfold lookup_path in *.
  rewrite (walk_ext _ (alookup l)), Hp by apply alookup_spec. by rewrite (create_on l _ q).
Qed.

Lemma write_on l p q t :
  lookup_path (alookup ((q, File []) :: l)) [] (text p) = Some q -> (length (text t) <=? 255)%nat = true ->
  effect (Write p t 0) (list_to_map ((q, File []) :: l)) [] =
    (list_to_map ((q, File (take 255 (text t))) :: l), [], 0).
Proof.
  intros Hp Ht. unfold effect. unfold lookup_path in *.
  rewrite (walk_ext _ (alookup ((q, File []) :: l))), Hp by apply alookup_spec. rewrite bind_some.
  cbn [list_to_map foldr fst snd]. rewrite lookup_insert_eq, bind_some. cbn [Z.eqb]. rewrite app_nil_l, Ht.
  by rewrite insert_insert_eq.
Qed.

Ltac computed := vm_compute; reflexivity.
Ltac boot_step :=
  first [erewrite mkdir_on; [|computed..] | erewrite touch_on; [|computed..] | erewrite write_on; [|computed..]].

Lemma boot_effects : effects boot_calls {[ [] := Dir ]} [] = (boot_tree, [], replicate 13 0).
Proof.
  change ({[ [] := Dir ]} : tree) with (list_to_map [([], Dir)] : tree). unfold boot_calls.
  cbn [effects]. do 13 boot_step. unfold boot_tree. do 3 f_equal.
Qed.

Lemma boot_keeps : all_keep_current boot_calls {[ [] := Dir ]} [].
Proof.
  change ({[ [] := Dir ]} : tree) with (list_to_map [([], Dir)] : tree). unfold boot_calls.
  cbn [all_keep_current keeps_current]. do 13 (split; [exact I|boot_step]). exact I.
Qed.

(** The first part of [fs_init]: an empty table with a root. *)
Definition rooted (s : ramfs) (r : fs_node) : ramfs :=
  {| nodes := <[0%nat := {| used := 1; is_directory := 1; parent := 0; size := size r;
                            name := <[0%nat := 0]> (name r); data := data r |}]> (clear_used <$> nodes s);
     current_directory := 0 |}.

Lemma rooted_ok s r :
  memory_ok s -> nodes s !! 0%nat = Some r -> fs_inv (rooted s r) /\ abstracts (rooted s r) {[ [] := Dir ]} [].
Proof.
  intros [Hl Ha] Hr. pose proof (Forall_lookup_1 _ _ _ _ Ha Hr) as [Hn Hd].
  assert (length (clear_used <$> nodes s) = 64%nat) as Hl' by (by rewrite length_fmap).
  apply root_only; [|done| |].
  - split; [simpl; by rewrite length_insert|]. apply Forall_insert; [|simpl; by rewrite length_insert].
    by apply Forall_fmap.
  - eexists. split; [unfold rd; simpl; apply list_lookup_insert_eq; lia|done].
  - intros n x [Hn0 Hx]%rd_Some Hne. simpl in Hx. rewrite list_lookup_insert_ne in Hx by lia.
    rewrite list_lookup_fmap in Hx. destruct (nodes s !! Z.to_nat n); [|done]. by injection Hx as <-.
Qed.

Section init.
Context (segment0 parent_path0 name0 : list Z).
Notation frame := {| stack_segment := segment0; stack_parent := parent_path0; stack_name := name0 |}.

(** The state after a sequence of calls whose statuses are ignored. *)
Definition finish (l : list (stack * call)) (s : ramfs) : option ramfs := '(s', _) ← runs l s; Some s'.

Lemma finish_cons k c l s : finish ((k, c) :: l) s = '(s, _) ← run k c s; finish l s.
Proof. unfold finish. simpl. by destruct (run k c s) as [[s1 r]|]; [simpl; destruct (runs l s1) as [[]|]|]. Qed.

(** [fs_init] is that table followed by thirteen calls. *)
Lemma fs_init_runs s r :
  memory_ok s -> nodes s !! 0%nat = Some r ->
  fs_init segment0 parent_path0 name0 s =
    finish ((fun c => (frame, c)) <$> boot_calls) (rooted s r).
Proof.
  intros [Hl Ha] Hr. unfold fs_init. rewrite (map_loop clear_used); [|exact Hl|].
  2: { intros i l x Hi Hx. assert (rd l i = Some x) as -> by (by apply rd_Some). rewrite bind_some.
       apply wr_ok. apply lookup_lt_Some in Hx. lia. }
  rewrite bind_some. assert (rd (clear_used <$> nodes s) 0 = Some (clear_used r)) as ->.
  { apply rd_Some. split; [lia|]. change (Z.to_nat 0) with 0%nat. by rewrite list_lookup_fmap, Hr. }
  pose proof (Forall_lookup_1 _ _ _ _ Ha Hr) as [Hn Hd].
  rewrite bind_some, wr_ok by (simpl; lia). rewrite bind_some, wr_ok by (rewrite length_fmap; lia).
  rewrite bind_some. cbv zeta.
  match goal with |- context [fs_mkdir _ _ _ ?st (literal "/home")] => change st with (rooted s r) end. unfold boot_calls, line. rewrite !fmap_cons.
  do 13 (rewrite finish_cons; cbn [run];
    match goal with |- (?f ≫= _) = (?f ≫= _) => destruct f as [[? ?]|]; [rewrite 2!bind_some|done] end).
  done.
Qed.

Lemma fs_init_spec s :
  stack_ok frame -> memory_ok s ->
  exists s', fs_init segment0 parent_path0 name0 s = Some s' /\ fs_inv s' /\ abstracts s' boot_tree [].
Proof.
  intros Hk Hs. destruct (lookup_lt_is_Some_2 (nodes s) 0) as [r Hr]; [destruct Hs as [-> _]; lia|].
  destruct (rooted_ok s r Hs Hr) as [Hinv Habs].
  assert (((fun c => (frame, c)) <$> boot_calls).*2 = boot_calls) as E
    by (rewrite <- list_fmap_compose; apply list_fmap_id).
  destruct (runs_spec ((fun c => (frame, c)) <$> boot_calls) (rooted s r) {[ [] := Dir ]} [])
    as (s' & H); [| | |exact Hinv|exact Habs|].
  - rewrite <- list_fmap_compose. by apply Forall_fmap, Forall_true.
  - rewrite E. unfold boot_calls. repeat constructor; simpl; set_solver.
  - rewrite E. apply boot_keeps.
  - exists s'. rewrite (fs_init_runs s r Hs Hr). rewrite E, boot_effects in H. unfold finish.
    by destruct H as (-> & ? & ?).
Qed.
End init.

(** Initialisation.  Whatever the memory of the node table holds, [fs_init]
    completes and leaves a well-formed table that stands for exactly the tree
    [boot_tree], seven directories and three files below the root with the
    contents that the source gives, with the root as current directory. *)
Theorem fs_init_correct segment0 parent_path0 name0 s :
  stack_ok {| stack_segment := segment0; stack_parent := parent_path0; stack_name := name0 |} -> memory_ok s ->
  exists s', fs_init segment0 parent_path0 name0 s = Some s' /\ fs_inv s' /\ abstracts s' boot_tree [].
Proof. apply fs_init_spec. Qed.

(** ** The tree that a table stands for *)

Record tree_ok (m : tree) : Prop := {
  tree_root : m !! [] = Some Dir;
  tree_parent g p e : m !! (g :: p) = Some e -> m !! p = Some Dir /\ legal g;
  tree_contents p c : m !! p = Some (File c) -> (length c <= 255)%nat;
  tree_entries : (base.size m <= 64)%nat;
}.

Lemma abstracts_tree_ok s m cwd : fs_inv s -> abstracts s m cwd -> tree_ok m /\ m !! cwd = Some Dir.
Proof.
  intros Hinv Habs. split; [|by apply (current_is_dir s)]. constructor.
  - destruct (inv_root s Hinv) as (x & Hx & _ & Hd & _). rewrite (abs_node s m cwd Habs 0 [] x); [|constructor|done].
    by rewrite entry_of_dir.
  - intros g p e He. apply (abs_map _ _ _ Habs) in He as (n & x & Hn & Hx & _).
    split; [|by apply (at_path_legal s Hinv n g p)].
    destruct (at_path_parent s Hinv n g p Hn) as (k & y & Hk & Hy & Hd).
    rewrite (abs_node s m cwd Habs k p y Hk Hy). by rewrite entry_of_dir.
  - intros p c Hc. apply (abs_map _ _ _ Habs) in Hc as (n & x & Hn & Hx & Hc).
    unfold entry_of_node in Hc. destruct (Z.eqb_spec (is_directory x) 0) as [E|]; [|done]. injection Hc as <-.
    rewrite length_take. destruct (at_path_node s Hinv n p Hn) as (y & Hy & Hu). assert (y = x) as -> by congruence.
    assert (n <> 0) as Hn0.
    { intros ->. destruct (inv_root s Hinv) as (r & Hr & _ & Hd & _). congruence. }
    pose proof (node_size _ _ (inv_node s Hinv n x Hx Hn0 Hu)). lia.
  - by apply (tree_size_max s m cwd).
Qed.

Lemma effect_status c m cwd m' cwd' r : effect c m cwd = (m', cwd', r) -> r ∈ [0; -1; -2].
Proof.
  unfold effect, create. intros H.
  repeat case_match; simplify_eq; set_solver.
Qed.

Lemma effects_status l m cwd m' cwd' rs : effects l m cwd = (m', cwd', rs) -> Forall (fun r => r ∈ [0; -1; -2]) rs.
Proof.
  revert m cwd rs. induction l as [|c l IH]; intros m cwd rs; simpl; [by intros [= <- <- <-]|].
  destruct (effect c m cwd) as [[m1 cwd1] r] eqn:E. destruct (effects l m1 cwd1) as [[m2 cwd2] rs'] eqn:Es.
  intros [= <- <- <-]. constructor; [by eapply effect_status|by eapply IH].
Qed.

(** C26: well-formedness, again for sequences of calls none of which removes the
    directory that is current at that point.  After [fs_init] and every such
    sequence, the node table stands for a tree: the root is a directory, every
    other entry lies in an existing directory under a legal name (1 to 23
    characters, no slash, not a dot or two dots), no file has more than 255
    characters, there are at most 64 entries, and the current directory is a
    directory of the tree.  Every call returns 0, -1 or -2. *)
Theorem ramfs_well_formed segment0 parent_path0 name0 s l :
  stack_ok {| stack_segment := segment0; stack_parent := parent_path0; stack_name := name0 |} -> memory_ok s ->
  Forall stack_ok l.*1 -> Forall call_ok l.*2 -> all_keep_current l.*2 boot_tree [] ->
  exists s0 s' m cwd rs, fs_init segment0 parent_path0 name0 s = Some s0 /\ runs l s0 = Some (s', rs) /\
    abstracts s' m cwd /\ tree_ok m /\ m !! cwd = Some Dir /\ Forall (fun r => r ∈ [0; -1; -2]) rs.
Proof.
  intros Hk Hs Hks Hcs Hkeep. destruct (fs_init_spec _ _ _ s Hk Hs) as (s0 & Hs0 & Hinv & Habs).
  destruct (runs_spec l s0 boot_tree [] Hks Hcs Hkeep Hinv Habs) as (s' & H).
  destruct (effects l.*2 boot_tree []) as [[m cwd] rs] eqn:E. destruct H as (Hr & Hinv' & Habs').
  destruct (abstracts_tree_ok s' m cwd Hinv' Habs') as [Hm Hc].
  exists s0, s', m, cwd, rs. repeat (split; [done|]). by eapply effects_status.
Qed.

(** ** Instances *)

Definition blank_node : fs_node :=
  {| used := 0; is_directory := 0; parent := 0; size := 0; name := replicate 24 0; data := replicate 256 0 |}.

Definition blank : ramfs := {| nodes := replicate 64 blank_node; current_directory := 0 |}.

Definition blank_stack : stack :=
  {| stack_segment := replicate 24 0; stack_parent := replicate 128 0; stack_name := replicate 24 0 |}.

Lemma blank_memory : memory_ok blank.
Proof. split; [done|]. by apply Forall_replicate. Qed.

Definition sample_calls : list call :=
  [Mkdir (literal "/a"); Touch (literal "/a/f"); Write (literal "/a/f") (literal "hi") 0; Remove (literal "/a/f")].

Lemma sample_args : Forall call_ok sample_calls.
Proof. repeat constructor; simpl; set_solver. Qed.

Lemma sample_keeps : all_keep_current sample_calls {[ [] := Dir ]} [].
Proof.
  change ({[ [] := Dir ]} : tree) with (list_to_map [([], Dir)] : tree). unfold sample_calls.
  cbn [all_keep_current keeps_current]. do 3 (split; [exact I|boot_step]). split.
  - unfold lookup_path. rewrite (walk_ext _ _ _ _ (alookup_spec _)). vm_compute. discriminate.
  - by destruct (effect _ _ _) as [[] ?].
Qed.

Lemma ramfs_refines_witness :
  exists s', let '(m', cwd', rs) := effects sample_calls {[ [] := Dir ]} [] in
    runs ((fun c => (blank_stack, c)) <$> sample_calls) (rooted blank blank_node) = Some (s', rs) /\
    fs_inv s' /\ abstracts s' m' cwd'.
Proof.
  destruct (rooted_ok blank blank_node blank_memory eq_refl) as [Hinv Habs].
  change (effects sample_calls) with (effects ((fun c => (blank_stack, c)) <$> sample_calls).*2).
  apply (ramfs_refines ((fun c => (blank_stack, c)) <$> sample_calls) (rooted blank blank_node) {[ [] := Dir ]} []);
    [..|exact Hinv|exact Habs].
  - by repeat constructor.
  - exact sample_args.
  - exact sample_keeps.
Defined.

Lemma fs_init_correct_witness :
  exists s', fs_init (replicate 24 0) (replicate 128 0) (replicate 24 0) blank = Some s' /\
    fs_inv s' /\ abstracts s' boot_tree [].
Proof. apply fs_init_correct; [done|exact blank_memory]. Defined.

Lemma ramfs_well_formed_witness :
  exists s0 s' m cwd rs, fs_init (replicate 24 0) (replicate 128 0) (replicate 24 0) blank = Some s0 /\
    runs [(blank_stack, Mkdir (literal "/a")); (blank_stack, Chdir (literal "/a"))] s0 = Some (s', rs) /\
    abstracts s' m cwd /\ tree_ok m /\ m !! cwd = Some Dir /\ Forall (fun r => r ∈ [0; -1; -2]) rs.
Proof.
  apply (ramfs_well_formed _ _ _ blank [(blank_stack, Mkdir (literal "/a")); (blank_stack, Chdir (literal "/a"))]);
    [done|exact blank_memory|by repeat constructor|repeat constructor; simpl; set_solver|].
  rewrite !fmap_cons. cbn [all_keep_current keeps_current snd]. split; [exact I|].
  destruct (effect _ _ _) as [[m1 c1] r1]. split; [exact I|]. by destruct (effect _ _ _) as [[m2 c2] r2].
Defined.
