(* ===== verification/RamfsQuery.v ===== *)
(** * Reading, listing and printing the RAM file system

    What [fs_read], [fs_list] and [fs_pwd] return, in terms of the tree that
    the node table stands for, and how they fit the calls that change it. *)

From Stdlib Require Import String Ascii.
From S2P Require Import Prelude Buffer Ramfs RamfsTree RamfsCorrect.

#[local] Open Scope Z_scope.

(** ** Walks *)

Lemma walk_app f cur a b : walk f cur (a ++ b) = c ← walk f cur a; walk f c b.
Proof.
  revert cur. induction a as [|g a IH]; intros cur; [done|]. rewrite <- app_comm_cons. cbn [walk]. rewrite !IH.
  repeat case_match; done.
Qed.

Lemma walk_mono (m m' : tree) cur names q :
  m ⊆ m' -> walk (m !!.) cur names = Some q -> walk (m' !!.) cur names = Some q.
Proof.
  intros Hm. revert cur. induction names as [|g names IH]; intros cur; cbn [walk]; [done|].
  destruct (24 <=? length g)%nat; [done|]. destruct (decide (g = dot)); [apply IH|].
  destruct (decide (g = dots)); [apply IH|].
  destruct (m !! cur) as [[|c]|] eqn:E1; try done. destruct (m !! (g :: cur)) as [e|] eqn:E2; [|done].
  rewrite (lookup_weaken _ _ _ _ E1 Hm), (lookup_weaken _ _ _ _ E2 Hm). apply IH.
Qed.

(** New contents of a file do not change where paths lead. *)
Lemma walk_contents (m : tree) q c c' cur names :
  m !! q = Some (File c) -> walk (<[q := File c']> m !!.) cur names = walk (m !!.) cur names.
Proof.
  intros Hq. revert cur. induction names as [|g names IH]; intros cur; cbn [walk]; [done|]. rewrite !IH.
  destruct (24 <=? length g)%nat; [done|]. destruct (decide (g = dot)); [done|].
  destruct (decide (g = dots)); [done|]. destruct (decide (cur = q)) as [->|H1].
  - by rewrite lookup_insert_eq, Hq.
  - rewrite (lookup_insert_ne _ q cur) by done. destruct (decide (g :: cur = q)) as [<-|H2].
    + by rewrite lookup_insert_eq, Hq.
    + by rewrite lookup_insert_ne.
Qed.

(** A walk stays in the tree. *)
Lemma walk_in (m : tree) cur names q :
  tree_ok m -> m !! cur <> None -> walk (m !!.) cur names = Some q -> m !! q <> None.
Proof.
  intros Hm. revert cur. induction names as [|g names IH]; intros cur Hcur; cbn [walk]; [by intros [= <-]|].
  destruct (24 <=? length g)%nat; [done|]. destruct (decide (g = dot)); [by apply IH|].
  destruct (decide (g = dots)).
  - apply IH. destruct cur as [|h cur]; simpl; [done|]. destruct (m !! (h :: cur)) as [v|] eqn:E; [|done].
    by destruct (tree_parent m Hm h cur v E) as [-> _].
  - destruct (m !! cur) as [[|c]|] eqn:E1; try done. destruct (m !! (g :: cur)) as [e|] eqn:E2; [|done].
    apply IH. by rewrite E2.
Qed.

Lemma start_in (m : tree) cwd t : tree_ok m -> m !! cwd = Some Dir -> m !! start cwd t <> None.
Proof. intros Hm Hc. unfold start. destruct (decide _); [by rewrite (tree_root m Hm)|by rewrite Hc]. Qed.

(** What is created is found. *)
Lemma target_found (m : tree) cwd t q e :
  target (m !!.) cwd t = Some q -> m !! q = None -> lookup_path (<[q := e]> m !!.) cwd t = Some q.
Proof.
  unfold target, lookup_path. intros Ht Hq. destruct (_ || _); [done|].
  destruct (reverse (segments t)) as [|nm dirs] eqn:E; [done|].
  apply (f_equal reverse) in E. rewrite reverse_involutive, reverse_cons in E. rewrite E.
  destruct (24 <=? length nm)%nat eqn:E24; [done|]. destruct (bool_decide (nm = dot)) eqn:Ed; [done|].
  destruct (bool_decide (nm = dots)) eqn:Edd; [done|]. simpl in Ht.
  apply bool_decide_eq_false in Ed. apply bool_decide_eq_false in Edd.
  destruct (walk (m !!.) (start cwd t) (reverse dirs)) as [p|] eqn:Ew; [|done].
  destruct (decide (m !! p = Some Dir)) as [Hp|]; [|done]. injection Ht as <-.
  rewrite walk_app. rewrite (walk_mono m _ _ _ p); [|by apply insert_subseteq|done]. rewrite bind_some. cbn [walk].
  rewrite E24, decide_False, decide_False by done.
  rewrite lookup_insert_ne by (intros E'; by apply (f_equal length) in E'; simpl in E'; lia).
  by rewrite Hp, lookup_insert_eq.
Qed.

(** ** Reading *)

Section reading.
Context (segment0 : list Z) (Hseg : length segment0 = 24%nat).

(** [fs_read] gives the node and the size of a file; its characters are at the
    start of the node's array, followed by a terminator. *)
Lemma fs_read_spec s m cwd array t :
  fs_inv s -> abstracts s m cwd -> arg array t ->
  exists r, fs_read segment0 s array = Some r /\
    match (q ← lookup_path (m !!.) cwd t; m !! q) with
    | Some (File c) =>
      exists n x, r = (0, Some (n, Z.of_nat (length c))) /\ rd (nodes s) n = Some x /\
        take (length c) (data x) = c /\ rd (data x) (Z.of_nat (length c)) = Some 0
    | _ => r = (-1, None)
    end.
Proof.
  intros Hinv Habs [Ht Hl]. unfold fs_read.
  destruct (resolve_spec s m cwd Hinv Habs segment0 Hseg array t Ht Hl) as (n & -> & Hr). rewrite bind_some.
  destruct (lookup_path (m !!.) cwd t) as [q|]; [|subst n; by eexists]. rewrite bind_some.
  pose proof (at_path_range s Hinv _ _ Hr). destruct (Z.ltb_spec n 0); [lia|].
  destruct (at_path_node s Hinv _ _ Hr) as (x & Hx & Hu). rewrite Hx, bind_some.
  rewrite (abs_node s m cwd Habs _ _ _ Hr Hx).
  destruct (Z.eqb_spec (is_directory x) 0) as [E|E]; cbn [negb]; [|rewrite entry_of_dir by done; by eexists].
  rewrite entry_of_file by done.
  assert (n <> 0) as Hn0.
  { intros ->. destruct (inv_root s Hinv) as (y & Hy & _ & Hd & _). congruence. }
  destruct (inv_node s Hinv n x Hx Hn0 Hu) as [_ Hsz He _]. destruct (inv_arrays s Hinv n x Hx) as [_ Hb].
  rewrite length_take, Hb. replace (Z.to_nat (size x) `min` 256)%nat with (Z.to_nat (size x)) by lia.
  rewrite Z2Nat.id by lia. eexists. split; [done|]. by exists n, x.
Qed.
End reading.

(** A file that was touched is there. *)
Lemma touched (m : tree) cwd p m1 cwd1 :
  tree_ok m -> m !! cwd = Some Dir -> effect (Touch p) m cwd = (m1, cwd1, 0) ->
  cwd1 = cwd /\ exists q c, lookup_path (m1 !!.) cwd (text p) = Some q /\ m1 !! q = Some (File c).
Proof.
  intros Hm Hc. unfold effect. destruct (lookup_path (m !!.) cwd (text p)) as [q|] eqn:Eq.
  - destruct (decide (m !! q = Some Dir)) as [|Hq]; intros [= <- <-]. split; [done|].
    pose proof (walk_in m _ _ q Hm (start_in m cwd (text p) Hm Hc) Eq) as Hin.
    destruct (m !! q) as [[|c]|] eqn:E; [done| |done]. by exists q, c.
  - unfold create. destruct (target (m !!.) cwd (text p)) as [q|] eqn:Et; [|done].
    destruct (decide _) as [[Hq _]|]; intros [= <- <-]. split; [done|]. exists q, [].
    split; [by apply target_found|apply lookup_insert_eq].
Qed.

(** Round trip.  When touching a path succeeds, writing a text to the same
    path stores its first 255 characters, with status 0 if that is all of it
    and -2 otherwise, and reading the path gives exactly these characters,
    their number and a terminator after them. *)
Theorem ramfs_touch_write_read k s m cwd p t s1 :
  stack_ok k -> fs_inv s -> abstracts s m cwd -> string_arg p -> string_arg t ->
  run k (Touch p) s = Some (s1, 0) ->
  let c := take 255 (text t) in
  exists s2 n x,
    run k (Write p t 0) s1 = Some (s2, if (length (text t) <=? 255)%nat then 0 else -2) /\
    fs_read (stack_segment k) s2 p = Some (0, Some (n, Z.of_nat (length c))) /\
    rd (nodes s2) n = Some x /\ take (length c) (data x) = c /\ rd (data x) (Z.of_nat (length c)) = Some 0.
Proof.
  intros Hk Hinv Habs Hp Ht Htouch c.
  destruct (abstracts_tree_ok s m cwd Hinv Habs) as [Hm Hc].
  destruct (run_spec k (Touch p) s m cwd Hk Hp I Hinv Habs) as (s1' & H1).
  destruct (effect (Touch p) m cwd) as [[m1 cwd1] r1] eqn:E1. destruct H1 as (R1 & Hinv1 & Habs1).
  rewrite R1 in Htouch. injection Htouch as -> ->.
  destruct (touched m cwd p m1 cwd1 Hm Hc E1) as (-> & q & old & Hq & Hold).
  destruct (run_spec k (Write p t 0) s1 m1 cwd Hk (conj Hp Ht) I Hinv1 Habs1) as (s2 & H2).
  unfold effect in H2. rewrite Hq, bind_some, Hold, bind_some in H2. cbn [Z.eqb] in H2. rewrite app_nil_l in H2.
  fold c in H2. destruct H2 as (R2 & Hinv2 & Habs2).
  destruct (fs_read_spec (stack_segment k) (proj1 Hk) s2 _ cwd p (text p) Hinv2 Habs2 (string_arg_arg p Hp)) as (r & Hr & H).
  unfold lookup_path in H, Hq. rewrite (walk_contents m1 q old) in H by done. rewrite Hq, bind_some in H.
  rewrite lookup_insert_eq in H. destruct H as (n & x & -> & Hx). by exists s2, n, x.
Qed.

(** ** The path of the current directory *)

(** The text of a path, outermost name first. *)
Fixpoint joined (names : list (list Z)) : list Z :=
  match names with
  | [] => []
  | [g] => g
  | g :: names => g ++ SLASH :: joined names
  end.

Definition render (p : path) : list Z := SLASH :: joined (reverse p).

(** The nodes from [n] up to the root, without the root. *)
Inductive chain (s : ramfs) : Z -> path -> list Z -> Prop :=
| chain_root : chain s 0 [] []
| chain_node n x nm p l :
    rd (nodes s) n = Some x -> n <> 0 -> c_string (name x) nm -> legal nm ->
    chain s (parent x) p l -> chain s n (nm :: p) (n :: l).

Section pwd.
Context (s : ramfs) (Hinv : fs_inv s).

Lemma chain_exists n p : at_path s n p -> exists l, chain s n p l.
Proof.
  induction 1 as [|n x nm p Hx Hn Hu Hnm Hp [l IH]]; [exists []; constructor|].
  destruct (inv_node s Hinv n x Hx Hn Hu) as [(nm' & Hnm' & Hleg) _ _ _].
  rewrite (c_string_inj _ _ _ Hnm' Hnm) in Hleg. exists (n :: l). by econstructor.
Qed.

Lemma chain_length n p l : chain s n p l -> length l = length p.
Proof. induction 1; simpl; lia. Qed.

(** The [i]th node of the chain and its name. *)
Lemma chain_lookup n p l i k :
  chain s n p l -> l !! i = Some k ->
  exists x nm, rd (nodes s) k = Some x /\ c_string (name x) nm /\ legal nm /\ p !! i = Some nm.
Proof.
  intros H. revert i. induction H as [|n x nm p l Hx Hn Hnm Hleg _ IH]; intros i Hi; [done|].
  destruct i as [|i]; [|by apply IH]. injection Hi as <-. by exists x, nm.
Qed.

Lemma chain_paths n p l i k : chain s n p l -> at_path s n p -> l !! i = Some k -> at_path s k (drop i p) /\ k <> 0.
Proof.
  intros H. revert i. induction H as [|n x nm p l Hx Hn Hnm Hleg _ IH]; intros i Hp Hi; [done|].
  destruct i as [|i]; [injection Hi as <-; done|]. apply IH; [|done].
  inversion Hp; subst. by assert (x0 = x) as -> by congruence.
Qed.

(** The nodes of a chain are distinct, so there are at most 63. *)
Lemma chain_short n p l : chain s n p l -> at_path s n p -> (length l < 64)%nat.
Proof.
  intros Hc Hp. assert (NoDup l) as Hnd.
  { apply NoDup_alt. intros i j k Hi Hj.
    destruct (chain_paths n p l i k Hc Hp Hi) as [H1 _]. destruct (chain_paths n p l j k Hc Hp Hj) as [H2 _].
    pose proof (at_path_fun s k _ _ H1 H2) as E. apply (f_equal length) in E. rewrite !length_drop in E.
    apply lookup_lt_Some in Hi, Hj. rewrite (chain_length n p l Hc) in *. lia. }
  assert (l ⊆ seqZ 1 63) as Hsub.
  { intros k [i Hi]%list_elem_of_lookup. destruct (chain_paths n p l i k Hc Hp Hi) as [H1 H2].
    pose proof (at_path_range s Hinv _ _ H1). apply elem_of_seqZ. lia. }
  apply (NoDup_submseteq _ _ Hnd) in Hsub. apply submseteq_length in Hsub. rewrite length_seqZ in Hsub. lia.
Qed.

Context (chain0 : list Z) (Hchain0 : length chain0 = 64%nat).
Context (cwd : path) (l : list Z) (Hcwd : at_path s (current_directory s) cwd) (Hl : chain s (current_directory s) cwd l).

Lemma chain_from i n p r :
  chain s n p r -> r = drop i l -> (i <= length l)%nat ->
  while_loop (65 - i)
    (fun '(chain, node, depth) =>
       if negb (node =? 0) && (depth <? FS_NODE_MAX) then
         chain ← wr chain depth node;
         n ← rd (nodes s) node;
         Some (inl (chain, parent n, u32 (depth + 1)))
       else Some (inr (chain, depth))) (splice chain0 0 (take i l), n, Z.of_nat i) =
    Some (splice chain0 0 l, Z.of_nat (length l)).
Proof.
  intros H. revert i. pose proof (chain_short _ _ _ Hl Hcwd) as Hshort.
  induction H as [|n x nm p r Hx Hn Hnm Hleg _ IH]; intros i Er Hi.
  - replace (65 - i)%nat with (S (64 - i)) by lia. rewrite while_loop_S. cbn [Z.eqb negb andb]. cbn match.
    rewrite bind_some. assert (length (drop i l) = 0)%nat as E by (by rewrite <- Er). rewrite length_drop in E.
    rewrite take_ge by lia. do 2 f_equal. lia.
  - assert (l !! i = Some n) as Hli.
    { rewrite <- (Nat.add_0_r i), <- lookup_drop, <- Er. done. }
    pose proof (lookup_lt_Some _ _ _ Hli). replace (65 - i)%nat with (S (65 - S i)) by lia. rewrite while_loop_S.
    destruct (Z.eqb_spec n 0); [done|]. unfold FS_NODE_MAX. destruct (Z.ltb_spec (Z.of_nat i) 64); [|lia].
    cbn [negb andb]. cbn match. rewrite wr_splice.
    2: { unfold room. rewrite length_splice; [lia|]. unfold room. rewrite length_take. lia. }
    rewrite bind_some, Hx, bind_some, bind_some, u32_small by warith.
    rewrite splice_next; [|rewrite length_take; lia|unfold room; rewrite length_app, length_take; simpl; lia].
    rewrite <- (take_S_r l i n Hli). replace (Z.of_nat i + 1) with (Z.of_nat (S i)) by lia.
    apply IH; [|lia]. rewrite (drop_S l n i Hli) in Er. by injection Er.
Qed.

Lemma collect_chain_spec : collect_chain chain0 s = Some (splice chain0 0 l, Z.of_nat (length l)).
Proof.
  pose proof (chain_from 0 _ _ _ Hl eq_refl ltac:(lia)) as H.
  assert (splice chain0 0 (take 0 l) = chain0) as E by (unfold splice; by rewrite take_0). rewrite E in H. exact H.
Qed.

Context (output : list Z) (capacity : Z).
Context (Hcap : 2 <= capacity <= Z.of_nat (length output)) (Hcap32 : capacity < 2 ^ 32).

(** Where the printing loop is: [pre] is written, the names of the innermost
    [depth] directories are still to come. *)
Definition printing (st : list Z * Z * Z) : Prop :=
  exists d pre, st = (splice output 0 pre, Z.of_nat (length pre), Z.of_nat d) /\ (d <= length cwd)%nat /\
    render cwd = pre ++ joined (reverse (take d cwd)) /\ Z.of_nat (length pre) < capacity /\
    (d = 0%nat -> cwd = [] \/ Z.of_nat (length (render cwd)) + 1 < capacity).

Definition printed (r : list Z * option Z) : Prop :=
  if bool_decide (cwd = []) || (Z.of_nat (length (render cwd)) + 1 <? capacity)
  then r = (splice output 0 (render cwd), Some (Z.of_nat (length (render cwd)))) /\
       Z.of_nat (length (render cwd)) < capacity
  else snd r = None /\ length (fst r) = length output.

Lemma joined_step d g :
  cwd !! d = Some g ->
  joined (reverse (take (S d) cwd)) = g ++ (if (0 <? d)%nat then [SLASH] else []) ++ joined (reverse (take d cwd)).
Proof.
  intros Hg. rewrite (take_S_r cwd d g Hg), reverse_snoc.
  destruct d as [|d]; [simpl; by rewrite app_nil_r|]. cbn [Nat.ltb Nat.leb].
  assert (reverse (take (S d) cwd) <> []) as Hne.
  { intros E. apply (f_equal length) in E. rewrite length_reverse, length_take in E.
    apply lookup_lt_Some in Hg. cbn [length] in E. lia. }
  destruct (reverse (take (S d) cwd)); done.
Qed.

(** The text is short: 63 names of at most 23 characters. *)
Lemma joined_bound names :
  Forall (fun g => (length g < 24)%nat) names -> (length (joined names) <= 24 * length names)%nat.
Proof.
  induction 1 as [|g names Hg _ IH]; [simpl; lia|]. destruct names as [|h names]; [simpl; lia|].
  change (joined (g :: h :: names)) with (g ++ SLASH :: joined (h :: names)). rewrite length_app, !length_cons in *. lia.
Qed.

Lemma render_bound : (length (render cwd) <= 1513)%nat.
Proof.
  pose proof (chain_short _ _ _ Hl Hcwd) as Hshort. pose proof (chain_length _ _ _ Hl) as Hlen.
  assert (Forall (fun g => (length g < 24)%nat) (reverse cwd)) as H.
  { apply Forall_reverse, Forall_lookup. intros i g Hg. destruct (lookup_lt_is_Some_2 l i) as [k Hk];
      [apply lookup_lt_Some in Hg; lia|].
    destruct (chain_lookup _ _ _ _ _ Hl Hk) as (x & nm & _ & _ & Hleg & Hnm).
    assert (nm = g) as -> by congruence. apply (legal_length g Hleg). }
  apply joined_bound in H. rewrite length_reverse in H. unfold render. cbn [length]. lia.
Qed.

Lemma print_step_spec st :
  printing st ->
  (exists st', print_step s capacity (splice chain0 0 l) st = Some (inl st') /\ printing st' /\
     (Z.to_nat (snd st') < Z.to_nat (snd st))%nat) \/
  (exists r, print_step s capacity (splice chain0 0 l) st = Some (inr r) /\ printed r).
Proof.
  intros (d & pre & -> & Hd & HF & Hpre & Hdone). cbn [print_step]. pose proof (chain_length _ _ _ Hl) as Hlen.
  pose proof (chain_short _ _ _ Hl Hcwd) as Hshort.
  destruct d as [|d].
  { right. eexists. split; [done|]. simpl in HF. rewrite app_nil_r in HF. unfold printed.
    destruct (bool_decide_reflect (cwd = [])) as [Hc|Hc]; cbn [orb]; [by rewrite HF|].
    destruct (Hdone eq_refl) as [?|Hlt]; [done|]. destruct (Z.ltb_spec (Z.of_nat (length (render cwd)) + 1) capacity); [|lia].
    by rewrite HF. }
  destruct (Z.ltb_spec 0 (Z.of_nat (S d))) as [_|]; [|lia]. cbv zeta. rewrite u32_small by warith.
  replace (Z.of_nat (S d) - 1) with (Z.of_nat d) by lia.
  destruct (lookup_lt_is_Some_2 l d) as [n Hn]; [lia|].
  assert (rd (splice chain0 0 l) (Z.of_nat d) = Some n) as ->.
  { apply rd_Some. split; [lia|]. rewrite Nat2Z.id. unfold splice. simpl. by apply lookup_app_l_Some. }
  rewrite bind_some. destruct (chain_lookup _ _ _ _ _ Hl Hn) as (x & g & Hx & Hg & Hleg & Hcg).
  rewrite Hx, bind_some. pose proof (legal_length g Hleg) as Hgl.
  rewrite (string_length_spec _ _ Hg), bind_some by warith.
  rewrite (joined_step d g Hcg) in HF. assert (cwd <> []) as Hne by (by destruct cwd).
  assert (length (render cwd) = length pre + length g + (if (0 <? d)%nat then 1 else 0) +
            length (joined (reverse (take d cwd))))%nat as HFl.
  { rewrite HF, !length_app. destruct (0 <? d)%nat; simpl; lia. }
  pose proof render_bound as Hbound.
  rewrite u32_small by warith. destruct (Z.leb_spec capacity (Z.of_nat (length pre) + Z.of_nat (length g) + 1)) as [Hf|Hf].
  { right. eexists. split; [done|]. unfold printed. rewrite bool_decide_false by done. cbn [orb].
    destruct (Z.ltb_spec (Z.of_nat (length (render cwd)) + 1) capacity) as [|_]; [destruct (0 <? d)%nat; lia|].
    split; [done|]. apply length_splice. unfold room. lia. }
  left. rewrite Nat2Z.id. rewrite (copy_loop g _ _ (Z.of_nat (length pre))); [|done| |].
  2: { unfold room. rewrite length_splice; [lia|]. unfold room. lia. }
  2: { intros j c a Hj Hc. pose proof (lookup_lt_Some _ _ _ Hc).
       destruct (c_string_char _ _ _ _ Hg Hc) as [E _]. rewrite Z2Nat.id in E by lia.
       rewrite E, bind_some, u32_small by warith. done. }
  rewrite bind_some, splice_next; [|done|unfold room; rewrite length_app; lia].
  rewrite (u32_small (Z.of_nat (length pre) + Z.of_nat (length g))) by warith. rewrite <- Nat2Z.inj_add, <- length_app.
  destruct (Z.ltb_spec 0 (Z.of_nat d)) as [H0|H0].
  - rewrite wr_splice.
    2: { unfold room. rewrite length_splice; [|unfold room]; rewrite length_app; lia. }
    rewrite bind_some, splice_next; [|done|unfold room; rewrite !length_app; simpl; lia].
    rewrite bind_some. eexists. split; [done|]. split; [|simpl; lia].
    exists d, ((pre ++ g) ++ [SLASH]).
    split; [rewrite u32_small by (rewrite length_app; warith); do 2 f_equal; rewrite !length_app; cbn [length]; lia|].
    split; [lia|].
    destruct (Nat.ltb_spec 0 d) as [Hd0|]; [|lia]. split; [by rewrite HF, <- !app_assoc|].
    rewrite !length_app. cbn [length]. split; [lia|]. intros ->. lia.
  - rewrite bind_some. eexists. split; [done|]. split; [|simpl; lia]. assert (d = 0)%nat as -> by lia.
    exists 0%nat, (pre ++ g). split; [done|]. split; [lia|].
    change (0 <? 0)%nat with false in HFl. change (joined (reverse (take 0 cwd))) with (@nil Z) in *.
    split; [by rewrite HF, <- app_assoc|]. cbn [length] in HFl.
    rewrite length_app. split; [lia|]. intros _. right. lia.
Qed.

Lemma fs_pwd_spec :
  exists out, fs_pwd chain0 s output capacity =
      Some (out, if bool_decide (cwd = []) || (Z.of_nat (length (render cwd)) + 1 <? capacity) then 0 else -1) /\
    (bool_decide (cwd = []) || (Z.of_nat (length (render cwd)) + 1 <? capacity) = true ->
       out = splice output 0 (render cwd ++ [0])).
Proof.
  unfold fs_pwd. destruct (Z.ltb_spec capacity 2); [lia|]. rewrite collect_chain_spec, bind_some.
  pose proof (chain_length _ _ _ Hl) as Hlen. pose proof (chain_short _ _ _ Hl Hcwd) as Hshort.
  rewrite wr_splice by (unfold room; lia). rewrite bind_some.
  destruct (while_loop_rule printing printed (fun st => Z.to_nat (snd st)) (S (Z.to_nat FS_NODE_MAX))
    (print_step s capacity (splice chain0 0 l)) (splice output 0 [SLASH], 1, Z.of_nat (length l)))
    as ([out r] & -> & Hr).
  - exists (length l), [SLASH]. split; [done|]. split; [lia|]. rewrite take_ge by lia. split; [done|].
    split; [simpl; lia|]. intros H0. left. destruct cwd; [done|]. simpl in Hlen. lia.
  - simpl. unfold FS_NODE_MAX. lia.
  - apply print_step_spec.
  - rewrite bind_some. unfold printed in Hr. destruct (_ || _) eqn:Ec.
    + destruct Hr as (E & Hlt). pose proof (f_equal fst E) as E1. pose proof (f_equal snd E) as E2.
      cbn [fst snd] in E1, E2. subst out r. rewrite wr_splice.
      2: { unfold room. rewrite length_splice; [lia|]. unfold room. lia. }
      rewrite bind_some, splice_next; [|done|unfold room; rewrite length_app; cbn [length]; lia]. by eexists.
    + destruct Hr as [Hn Hout]. simpl in Hn. subst r. by eexists.
Qed.
End pwd.

(** *** The text leads back *)

Lemma segments_joined names :
  Forall (fun g => g <> [] /\ Forall (fun c => c <> SLASH) g) names -> segments (joined names) = names.
Proof.
  induction 1 as [|g names [Hg Hs] _ IH]; [done|]. destruct names as [|h names]; [by apply segments_single|].
  change (joined (g :: h :: names)) with (g ++ SLASH :: joined (h :: names)).
  by rewrite segments_split, segments_single, IH.
Qed.

Lemma tree_names m p : tree_ok m -> m !! p <> None -> Forall legal p.
Proof.
  intros Hm. induction p as [|g p IH]; intros Hp; [constructor|].
  destruct (m !! (g :: p)) as [e|] eqn:E; [|done]. destruct (tree_parent m Hm g p e E) as [E' Hg].
  constructor; [done|]. apply IH. by rewrite E'.
Qed.

Lemma walk_down m p : tree_ok m -> m !! p <> None -> walk (m !!.) [] (reverse p) = Some p.
Proof.
  intros Hm. induction p as [|g p IH]; intros Hp; [done|]. destruct (m !! (g :: p)) as [e|] eqn:E; [|done].
  destruct (tree_parent m Hm g p e E) as [E' Hg]. rewrite reverse_cons, walk_app, IH by (by rewrite E').
  rewrite bind_some. cbn [walk]. destruct Hg as [_ Hl _ Hd Hdd].
  destruct (Nat.leb_spec 24 (length g)); [lia|]. rewrite decide_False, decide_False by done. by rewrite E', E.
Qed.

Lemma lookup_render m cwd p : tree_ok m -> m !! p <> None -> lookup_path (m !!.) cwd (render p) = Some p.
Proof.
  intros Hm Hp. unfold lookup_path, start, render. rewrite decide_True by done. rewrite segments_slash, segments_joined.
  - by apply walk_down.
  - apply Forall_reverse. eapply Forall_impl; [by apply (tree_names m)|]. intros g []. done.
Qed.

(** Round trip.  [fs_pwd] succeeds exactly when the current directory is the
    root or its path fits the buffer with two bytes to spare; it then writes the
    path as a C string, and changing to that path, later and from any current
    directory, leads back to the same directory as long as the tree is the same. *)
Theorem ramfs_pwd_chdir chain0 s m cwd output capacity :
  fs_inv s -> abstracts s m cwd -> length chain0 = 64%nat ->
  2 <= capacity <= Z.of_nat (length output) -> Z.of_nat (length output) < 2 ^ 32 ->
  exists out, fs_pwd chain0 s output capacity =
      Some (out, if bool_decide (cwd = []) || (Z.of_nat (length (render cwd)) + 1 <? capacity) then 0 else -1) /\
    (bool_decide (cwd = []) || (Z.of_nat (length (render cwd)) + 1 <? capacity) = true ->
       c_string out (render cwd) /\ length out = length output /\
       forall k s1 cwd1, stack_ok k -> fs_inv s1 -> abstracts s1 m cwd1 ->
         exists s2, run k (Chdir out) s1 = Some (s2, 0) /\ fs_inv s2 /\ abstracts s2 m cwd).
Proof.
  intros Hinv Habs Hc0 Hcap Hlen. pose proof (abs_cwd _ _ _ Habs) as Hcwd.
  destruct (chain_exists s Hinv _ _ Hcwd) as [l Hl].
  assert (capacity < 2 ^ 32) as Hcap32 by lia.
  destruct (fs_pwd_spec s Hinv chain0 Hc0 cwd l Hcwd Hl output capacity Hcap) as (out & E & Hout).
  exists out. split; [exact E|]. intros Hok. specialize (Hout Hok) as ->.
  destruct (abstracts_tree_ok s m cwd Hinv Habs) as [Hm Hdir].
  assert (Z.of_nat (length (render cwd)) < capacity) as Hlt.
  { apply orb_true_iff in Hok as [->%bool_decide_eq_true|?%Z.ltb_lt]; [simpl; lia|lia]. }
  assert (room output 0 (Z.of_nat (length (render cwd ++ [0])))) as Hroom
    by (unfold room; rewrite length_app; cbn [length]; lia).
  pose proof (length_splice output 0 (render cwd ++ [0]) Hroom) as Hlo.
  assert (c_string (splice output 0 (render cwd ++ [0])) (render cwd)) as Hcs.
  { apply c_string_splice; [lia|]. unfold render. constructor; [done|].
    clear -Hl. assert (Forall (Forall (fun c => c <> 0)) (reverse cwd)) as H.
    { apply Forall_reverse. clear -Hl. induction Hl; constructor; [by eapply c_string_nonzero|done]. }
    induction H as [|g names Hg _ IH]; [constructor|]. destruct names as [|h names]; [done|].
    change (joined (g :: h :: names)) with (g ++ SLASH :: joined (h :: names)).
    apply Forall_app. split; [done|]. by constructor. }
  split; [done|]. split; [done|]. intros k s1 cwd1 Hk Hinv1 Habs1.
  destruct (run_spec k (Chdir (splice output 0 (render cwd ++ [0]))) s1 m cwd1 Hk) as (s2 & H2); try done.
  { split; [|lia]. destruct Hcs as (rest & -> & _). set_solver. }
  exists s2. unfold effect in H2. rewrite (c_string_text _ _ Hcs) in H2.
  rewrite (lookup_render m cwd1 cwd Hm) in H2 by (by rewrite Hdir). by rewrite decide_True in H2.
Qed.

(** ** Listing *)

(** A listing entry shows an entry of the tree. *)
Definition shown (e : fs_entry) (gv : list Z * entry) : Prop :=
  c_string (entry_name e) (fst gv) /\
  match snd gv with
  | Dir => entry_is_directory e <> 0
  | File c => entry_is_directory e = 0 /\ entry_size e = Z.of_nat (length c)
  end.

Definition entries_ok (entries : list fs_entry) : Prop :=
  Forall (fun e => length (entry_name e) = 24%nat) entries.

Section listing.
Context (s : ramfs) (m : tree) (cwd : path) (Hinv : fs_inv s) (Habs : abstracts s m cwd).

Lemma entry_of_spec e x n nm p v flag :
  length (entry_name e) = 24%nat -> at_path s n (nm :: p) -> rd (nodes s) n = Some x ->
  v = entry_of_node x -> flag = is_directory x ->
  exists e', entry_of e x flag = Some e' /\ shown e' (nm, v).
Proof.
  intros He Hn Hx -> ->. inversion Hn as [|? y ? ? Hy Hn0 Hu Hnm Hp]; subst.
  assert (y = x) as -> by congruence.
  destruct (inv_node s Hinv n x Hx Hn0 Hu) as [_ Hsz _ _]. destruct (inv_arrays s Hinv n x Hx) as [_ Hb].
  pose proof (legal_length _ (at_path_legal s Hinv _ _ _ Hn)) as Hlen.
  unfold entry_of. rewrite (string_copy_spec _ _ nm) by (done || (unfold FS_NAME_MAX; warith)).
  rewrite bind_some. eexists. split; [done|]. rewrite take_ge by (unfold FS_NAME_MAX; lia). split.
  - cbn [fst]. apply c_string_splice; [lia|]. by eapply c_string_nonzero.
  - unfold entry_of_node. simpl. destruct (Z.eqb_spec (is_directory x) 0); [|done]. split; [done|].
    rewrite length_take. lia.
Qed.

(** The children of a node, in the order of the table. *)
Definition child_at (d n : Z) : bool :=
  match rd (nodes s) n with Some x => negb (used x =? 0) && (parent x =? d) | None => false end.

Definition child_nodes (d i : Z) : list Z := filter (fun n => child_at d n) (seqZ 1 (i - 1)).

Lemma child_at_iff d q n : at_path s d q -> n <> 0 -> child_at d n <-> exists g, at_path s n (g :: q).
Proof.
  intros Hd Hn. unfold child_at. split.
  - destruct (rd (nodes s) n) as [x|] eqn:Hx; [|done]. destruct (Z.eqb_spec (used x) 0) as [|Hu]; [done|].
    destruct (Z.eqb_spec (parent x) d) as [Hp|]; [|done]. intros _.
    destruct (inv_node s Hinv n x Hx Hn Hu) as [(nm & Hnm & _) _ _ _]. exists nm.
    apply (at_child _ n x); try done. by rewrite Hp.
  - intros [g Hg]. inversion Hg as [|? x ? ? Hx _ Hu _ Hp]; subst. rewrite Hx.
    rewrite (at_path_inj s Hinv _ _ _ Hp Hd), Z.eqb_refl. by destruct (Z.eqb_spec (used x) 0).
Qed.

Lemma child_nodes_S d i :
  1 <= i -> child_nodes d (i + 1) = child_nodes d i ++ (if child_at d i then [i] else []).
Proof.
  intros Hi. unfold child_nodes. replace (i + 1 - 1) with ((i - 1) + 1) by lia.
  rewrite seqZ_app, filter_app by lia. f_equal. replace (1 + (i - 1)) with i by lia.
  rewrite (seqZ_cons i 1), (seqZ_nil (Z.succ i)) by lia. rewrite filter_cons, filter_nil.
  destruct (child_at d i) eqn:E; [rewrite decide_True|rewrite decide_False]; rewrite ?E; auto.
Qed.

(** What the nodes stand for. *)
Definition stands_for (q : path) (n : Z) (gv : list Z * entry) : Prop :=
  at_path s n (fst gv :: q) /\ exists x, rd (nodes s) n = Some x /\ snd gv = entry_of_node x.

Lemma children_exist d q ns :
  at_path s d q -> Forall (fun n => n <> 0 /\ child_at d n) ns -> exists l, Forall2 (stands_for q) ns l.
Proof.
  intros Hd. induction 1 as [|n ns [Hn Hc] _ [l IH]]; [by exists []|].
  apply (child_at_iff d q n Hd Hn) in Hc as [g Hg]. destruct (at_path_node s Hinv _ _ Hg) as (x & Hx & _).
  exists ((g, entry_of_node x) :: l). constructor; [|done]. split; [done|]. eauto.
Qed.

Lemma child_nodes_ok d i : Forall (fun n => n <> 0 /\ child_at d n) (child_nodes d i).
Proof.
  apply Forall_forall. intros n [Hc Hn%elem_of_seqZ]%list_elem_of_filter. split; [lia|done].
Qed.

(** All children, as entries of the tree. *)
Lemma all_children d q :
  at_path s d q ->
  exists l, Forall2 (stands_for q) (child_nodes d 64) l /\ NoDup l.*1 /\
    forall g v, (g, v) ∈ l <-> m !! (g :: q) = Some v.
Proof.
  intros Hd. destruct (children_exist d q _ Hd (child_nodes_ok d 64)) as [l Hl]. exists l. split; [done|]. split.
  - apply NoDup_alt. intros i j g Hi Hj. rewrite list_lookup_fmap in Hi, Hj.
    apply fmap_Some in Hi as ([g1 v1] & Hi & ->). apply fmap_Some in Hj as ([g2 v2] & Hj & E). simpl in E. subst g2.
    destruct (Forall2_lookup_r _ _ _ _ _ Hl Hi) as (n1 & Hn1 & [Hp1 _]).
    destruct (Forall2_lookup_r _ _ _ _ _ Hl Hj) as (n2 & Hn2 & [Hp2 _]). simpl in *.
    assert (n2 = n1) as -> by (by apply (at_path_inj s Hinv _ _ (g1 :: q))).
    apply (NoDup_lookup (child_nodes d 64) i j n1); [|done..]. apply NoDup_filter, NoDup_seqZ.
  - intros g v. split.
    + intros [i Hi]%list_elem_of_lookup. destruct (Forall2_lookup_r _ _ _ _ _ Hl Hi) as (n & _ & [Hp (x & Hx & Hv)]).
      simpl in *. subst v. by apply (abs_node s m cwd Habs n).
    + intros Hv. apply (abs_map _ _ _ Habs) in Hv as (n & x & Hn & Hx & <-).
      assert (n ∈ child_nodes d 64) as [i Hi]%list_elem_of_lookup.
      { apply list_elem_of_filter. pose proof (at_path_range s Hinv _ _ Hn).
        assert (n <> 0) by (intros ->; inversion Hn; done).
        split; [apply (child_at_iff d q); eauto|]. apply elem_of_seqZ. lia. }
      destruct (Forall2_lookup_l _ _ _ _ _ Hl Hi) as ([g' v'] & Hl' & [Hp (y & Hy & Hv')]). simpl in *.
      pose proof (at_path_fun s n _ _ Hn Hp) as E. injection E as <-. assert (y = x) as -> by congruence.
      subst v'. by apply (list_elem_of_lookup_2 _ i).
Qed.

Lemma child_nodes_prefix d i j : 1 <= i <= j -> child_nodes d i `prefix_of` child_nodes d j.
Proof.
  intros Hij. unfold child_nodes. replace (j - 1) with ((i - 1) + (j - i)) by lia.
  rewrite seqZ_app, filter_app by lia. by eexists.
Qed.

(** A listing entry for a node. *)
Definition lists (q : path) (n : Z) (e : fs_entry) : Prop := exists gv, stands_for q n gv /\ shown e gv.

Lemma lists_shown q ns l es :
  Forall2 (stands_for q) ns l -> Forall2 (lists q) ns es -> Forall2 shown es l.
Proof.
  intros Hl. revert es. induction Hl as [|n [g v] ns l [Hp (x & Hx & Hv)] _ IH]; intros es Hes;
    inversion Hes as [|? e ? es' ([g' v'] & [Hp' (y & Hy & Hv')] & Hsh)]; subst; [constructor|].
  simpl in *. pose proof (at_path_fun s n _ _ Hp Hp') as E. injection E as <-.
  assert (y = x) as -> by congruence. subst v v'. constructor; [done|by apply IH].
Qed.

Context (entries : list fs_entry) (capacity : Z) (Hentries : entries_ok entries).
Context (Hcap : 0 <= capacity <= Z.of_nat (length entries)) (Hcap32 : capacity < 2 ^ 32).

Definition listed (q : path) (d i : Z) (st : list fs_entry * Z) : Prop :=
  exists es, st = (es ++ drop (length es) entries, Z.of_nat (length es)) /\
    Forall2 (lists q) (child_nodes d i) es /\ Z.of_nat (length es) <= capacity.

Lemma list_step d q i en count :
  at_path s d q -> 1 <= i < 64 -> listed q d i (en, count) -> count < capacity ->
  exists st, (n ← rd (nodes s) i;
     if negb (used n =? 0) && (parent n =? d) then
       e ← rd en count; e ← entry_of e n (is_directory n); en ← wr en count e;
       Some (inl (en, u32 (count + 1)))
     else Some (inl (en, count) : (list fs_entry * Z) + (list fs_entry * Z))) = Some (inl st) /\
    listed q d (i + 1) st.
Proof.
  intros Hd Hi (es & [= -> ->] & Hes & Hle) Hlt. destruct (rd_ok (nodes s) i) as [x Hx];
    [rewrite (inv_length s Hinv); lia|]. rewrite Hx, bind_some.
  pose proof (child_nodes_S d i ltac:(lia)) as Hcn.
  assert (child_at d i = negb (used x =? 0) && (parent x =? d)) as Hca by (unfold child_at; by rewrite Hx).
  rewrite <- Hca in *. destruct (child_at d i) eqn:Ec.
  2: { eexists. split; [done|]. exists es. rewrite Hcn, app_nil_r. done. }
  destruct (lookup_lt_is_Some_2 entries (length es)) as [e He]; [lia|].
  assert (rd (es ++ drop (length es) entries) (Z.of_nat (length es)) = Some e) as ->.
  { apply rd_Some. split; [lia|]. rewrite Nat2Z.id, lookup_app_r, Nat.sub_diag, lookup_drop, Nat.add_0_r by lia. done. }
  rewrite bind_some. assert (exists g, at_path s i (g :: q)) as [g Hg].
  { apply (child_at_iff d q i Hd); [lia|]. by rewrite Ec. }
  destruct (entry_of_spec e x i g q (entry_of_node x) (is_directory x)) as (e' & -> & Hsh); try done.
  { exact (Forall_lookup_1 _ _ _ _ Hentries He). }
  rewrite bind_some, wr_ok.
  2: { rewrite length_app, length_drop. lia. }
  rewrite bind_some, Nat2Z.id. eexists. split; [done|]. exists (es ++ [e']). rewrite length_app. simpl length.
  split; [|split; [|lia]].
  - f_equal; [|rewrite u32_small by warith; lia].
    rewrite insert_app_r_alt, Nat.sub_diag by lia. rewrite (drop_S _ e) by done. simpl. rewrite <- app_assoc.
    by rewrite Nat.add_1_r.
  - rewrite Hcn. apply Forall2_app; [done|]. constructor; [|constructor]. exists (g, entry_of_node x).
    split; [|done]. split; [done|]. eauto.
Qed.

Lemma list_children d q :
  at_path s d q ->
  exists r es, for_break (Z.to_nat FS_NODE_MAX - 1) 1
      (fun index '(en, count) =>
         if negb (count <? capacity) then Some (inr (en, count)) else
         n ← rd (nodes s) index;
         if negb (used n =? 0) && (parent n =? d) then
           e ← rd en count; e ← entry_of e n (is_directory n); en ← wr en count e;
           Some (inl (en, u32 (count + 1)))
         else Some (inl (en, count))) (entries, 0) = Some r /\
    match r with inl v => v | inr v => v end = (es ++ drop (length es) entries, Z.of_nat (length es)) /\
    Forall2 (lists q) (take (Z.to_nat capacity) (child_nodes d 64)) es.
Proof.
  intros Hd. match goal with |- context [for_break _ _ ?loop_body _] =>
  destruct (for_break_rule (listed q d) (fun v => exists i, 1 <= i < 64 /\ listed q d i v /\ snd v = capacity)
    (Z.to_nat FS_NODE_MAX - 1) 1 loop_body (entries, 0)) as [(v & -> & H)|(v & -> & i & Hi & H & Hc)] end.
  - exists []. split; [done|]. split; [constructor|simpl; lia].
  - intros i [en count] Hi H. unfold FS_NODE_MAX in Hi.
    destruct (Z.ltb_spec count capacity) as [Hlt|Hge]; cbn [negb].
    + left. apply (list_step d q i en count); [done|lia|done|done].
    + right. eexists. split; [done|]. exists i. split; [lia|]. split; [done|].
      destruct H as (es & [= -> ->] & _ & Hle). simpl. lia.
  - destruct H as (es & -> & Hes & Hle). exists (inl (es ++ drop (length es) entries, Z.of_nat (length es))), es.
    split; [done|]. split; [done|]. pose proof (Forall2_length _ _ _ Hes) as Hlen.
    change (1 + Z.of_nat (Z.to_nat FS_NODE_MAX - 1)) with 64 in *. rewrite take_ge by lia. done.
  - destruct H as (es & -> & Hes & Hle). simpl in Hc. exists (inr (es ++ drop (length es) entries, Z.of_nat (length es))), es.
    split; [done|]. split; [done|]. destruct (child_nodes_prefix d i 64 ltac:(lia)) as [rest E]. rewrite E.
    pose proof (Forall2_length _ _ _ Hes) as Hlen. rewrite take_app_length'; [done|]. lia.
Qed.
End listing.

(** Listing.  [fs_list] of a directory fills the caller's array, from the
    start, with one entry per directory entry, each with its name, kind and (for
    a file) size, in some order without repetition, until they are all listed or
    the array is full, and returns how many it wrote; the rest of the array is
    unchanged.  For a file it lists the file itself.  A path that leads nowhere
    gives -1. *)
Theorem fs_list_exact segment0 s m cwd array entries capacity :
  length segment0 = 24%nat -> fs_inv s -> abstracts s m cwd -> string_arg array ->
  entries_ok entries -> 0 <= capacity <= Z.of_nat (length entries) -> capacity < 2 ^ 32 ->
  match lookup_path (m !!.) cwd (text array) with
  | None => fs_list segment0 s array entries capacity = Some (entries, -1)
  | Some q =>
    exists l es, fs_list segment0 s array entries capacity =
        Some (es ++ drop (length es) entries, Z.of_nat (length es)) /\
      Forall2 shown es (take (Z.to_nat capacity) l) /\ NoDup l.*1 /\
      match m !! q with
      | Some Dir => forall g v, (g, v) ∈ l <-> m !! (g :: q) = Some v
      | Some (File c) => exists g, head q = Some g /\ l = [(g, File c)]
      | None => False
      end
  end.
Proof.
  intros Hseg Hinv Habs Harg Hent Hcap Hcap32. apply string_arg_arg in Harg as [Ht Hl].
  set (t := text array) in *. unfold fs_list. destruct (c_string_rd array t 0 Ht ltac:(lia)) as [-> Ez].
  rewrite bind_some.
  assert (exists r, (if nth (Z.to_nat 0) t 0 =? 0 then Some (current_directory s) else resolve segment0 s array) = Some r /\
    match lookup_path (m !!.) cwd t with None => r = -1 | Some q => at_path s r q end) as (n & -> & Hn).
  { destruct (Z.eqb_spec (nth (Z.to_nat 0) t 0) 0) as [H0|H0].
    - eexists. split; [done|]. apply Ez in H0.
      assert (t = []) as -> by (apply length_zero_iff_nil; lia).
      apply (abs_cwd _ _ _ Habs).
    - by apply (resolve_spec s m cwd Hinv Habs segment0 Hseg). }
  rewrite bind_some. destruct (lookup_path (m !!.) cwd t) as [q|]; [|by subst n].
  pose proof (at_path_range s Hinv _ _ Hn). destruct (Z.ltb_spec n 0); [lia|].
  destruct (at_path_node s Hinv _ _ Hn) as (x & Hx & Hu). rewrite Hx, bind_some.
  rewrite (abs_node s m cwd Habs _ _ _ Hn Hx). destruct (Z.eqb_spec (is_directory x) 0) as [E|E].
  - rewrite entry_of_file by done. destruct q as [|g q].
    { inversion Hn; subst. destruct (inv_root s Hinv) as (y & Hy & _ & Hd & _). congruence. }
    exists [(g, File (take (Z.to_nat (size x)) (data x)))]. destruct (Z.eqb_spec capacity 0) as [->|Hc].
    { exists []. split; [done|]. split; [constructor|]. split; [by repeat constructor; set_solver|]. by exists g. }
    destruct (lookup_lt_is_Some_2 entries 0) as [e He]; [lia|].
    assert (rd entries 0 = Some e) as -> by (by apply rd_Some). rewrite bind_some.
    destruct (entry_of_spec s Hinv e x n g q (entry_of_node x) 0) as (e' & -> & Hsh); try done.
    { exact (Forall_lookup_1 _ _ _ _ Hent He). }
    rewrite bind_some, wr_ok by lia. rewrite bind_some. exists [e']. split; [|split; [|split]].
    + destruct entries; [done|]. done.
    + rewrite take_ge by (simpl; lia). rewrite entry_of_file in Hsh by done. constructor; [exact Hsh|constructor].
    + by repeat constructor; set_solver.
    + by exists g.
  - rewrite entry_of_dir by done. rewrite u8_small by warith.
    destruct (list_children s Hinv entries capacity Hent Hcap Hcap32 n q Hn) as (r & es & -> & Hr & Hes).
    rewrite bind_some, Hr. destruct (all_children s m cwd Hinv Habs n q Hn) as (l & Hl' & Hnd & Hiff).
    exists l, es. split; [|split; [|done]].
    + do 2 f_equal. pose proof (Forall2_length _ _ _ Hes) as Hlen. rewrite length_take in Hlen.
      assert (length (child_nodes s n 64) <= 63)%nat.
      { etrans; [apply length_filter|]. by rewrite length_seqZ. }
      unfold i32. rewrite Z.mod_small; lia.
    + apply (lists_shown s q (take (Z.to_nat capacity) (child_nodes s n 64))); [|done]. by apply Forall2_take.
Qed.

(** ** Removing the current directory *)

Definition blank_entries : list fs_entry :=
  replicate 4 {| entry_name := replicate 24 0; entry_is_directory := 0; entry_size := 0 |}.

(** After initialisation: make a directory, change to it, remove it, make a
    directory with a relative path, and try to remove that one; then print the
    current directory and resolve the path of the new one from the root. *)
Definition stale_calls : list call :=
  [Mkdir (literal "/a"); Chdir (literal "/a"); Remove (literal "/a"); Mkdir (literal "b"); Remove (literal "b")].

Definition stale : option (list Z * list Z * Z * Z) :=
  let sg := stack_segment blank_stack in
  s ← fs_init sg (stack_parent blank_stack) (stack_name blank_stack) blank;
  '(s, rs) ← runs ((fun c => (blank_stack, c)) <$> stale_calls) s;
  '(out, _) ← fs_pwd (replicate 64 0) s (replicate 160 0) 160;
  inside ← resolve sg s (literal "b/b/b");
  outside ← resolve sg s (literal "/a");
  Some (rs, text out, if inside =? current_directory s then 1 else 0, outside).

(** The current directory can be removed.  [fs_remove] accepts the empty
    directory that is current.  The next [fs_mkdir] with a relative path reports
    success, but it takes the node just freed and makes it its own parent: no
    path from the root reaches it, every path b/b/b inside it leads back to it,
    it cannot be removed any more (-2), and [fs_pwd] prints its name 64 times. *)
Theorem ramfs_remove_current :
  stale = Some ([0; 0; 0; 0; -2], concat (replicate 64 (name_of "/b")), 1, -1).
Proof. vm_compute. reflexivity. Qed.

(** ** Instances *)

Lemma rooted_blank : fs_inv (rooted blank blank_node) /\ abstracts (rooted blank blank_node) {[ [] := Dir ]} [].
Proof. exact (rooted_ok blank blank_node blank_memory eq_refl). Qed.

Lemma ramfs_touch_write_read_witness :
  let c := take 255 (text (literal "hi")) in
  exists s1 s2 n x,
    run blank_stack (Touch (literal "/f")) (rooted blank blank_node) = Some (s1, 0) /\
    run blank_stack (Write (literal "/f") (literal "hi") 0) s1 =
      Some (s2, if (length (text (literal "hi")) <=? 255)%nat then 0 else -2) /\
    fs_read (stack_segment blank_stack) s2 (literal "/f") = Some (0, Some (n, Z.of_nat (length c))) /\
    rd (nodes s2) n = Some x /\ take (length c) (data x) = c /\ rd (data x) (Z.of_nat (length c)) = Some 0.
Proof.
  intros c. destruct rooted_blank as [Hinv Habs].
  assert (string_arg (literal "/f")) as Hf by (split; [simpl; set_solver|done]).
  assert (string_arg (literal "hi")) as Hhi by (split; [simpl; set_solver|done]).
  assert (exists s1, run blank_stack (Touch (literal "/f")) (rooted blank blank_node) = Some (s1, 0)) as (s1 & H1)
    by (eexists; vm_compute; reflexivity).
  exists s1. destruct (ramfs_touch_write_read blank_stack (rooted blank blank_node) {[ [] := Dir ]} []
    (literal "/f") (literal "hi") s1) as (s2 & n & x & H2); [done|exact Hinv|exact Habs|exact Hf|exact Hhi|exact H1|].
  exists s2, n, x. split; [exact H1|exact H2].
Defined.

Lemma ramfs_pwd_chdir_witness :
  exists out, fs_pwd (replicate 64 0) (rooted blank blank_node) (replicate 8 0) 8 = Some (out, 0).
Proof.
  destruct rooted_blank as [Hinv Habs].
  destruct (ramfs_pwd_chdir (replicate 64 0) (rooted blank blank_node) {[ [] := Dir ]} [] (replicate 8 0) 8)
    as (out & E & _); [exact Hinv|exact Habs|done|simpl; lia|simpl; lia|].
  exists out. exact E.
Defined.

Lemma fs_list_exact_witness :
  match lookup_path (({[ [] := Dir ]} : tree) !!.) [] (text (literal "/")) with
  | None => fs_list (replicate 24 0) (rooted blank blank_node) (literal "/") blank_entries 4 = Some (blank_entries, -1)
  | Some q =>
    exists l es, fs_list (replicate 24 0) (rooted blank blank_node) (literal "/") blank_entries 4 =
        Some (es ++ drop (length es) blank_entries, Z.of_nat (length es)) /\
      Forall2 shown es (take (Z.to_nat 4) l) /\ NoDup l.*1 /\
      match ({[ [] := Dir ]} : tree) !! q with
      | Some Dir => forall g v, (g, v) ∈ l <-> ({[ [] := Dir ]} : tree) !! (g :: q) = Some v
      | Some (File c) => exists g, head q = Some g /\ l = [(g, File c)]
      | None => False
      end
  end.
Proof.
  destruct rooted_blank as [Hinv Habs].
  apply (fs_list_exact (replicate 24 0) (rooted blank blank_node) {[ [] := Dir ]} [] (literal "/") blank_entries 4);
    [done|exact Hinv|exact Habs|split; [simpl; set_solver|done]|by repeat constructor|simpl; lia|done].
Defined.
