(* ===== verification/Firmware.v ===== *)
(** * Memory that firmware fills

    The boot loader and the firmware hand over addresses of physical memory.  A
    pointer into it is the function that gives the byte at every offset from it,
    with [None], a fault, where nothing is mapped; the same type serves for a
    pointer to a local array.  This file has the little-endian loads, the
    comparison with a literal and the byte sum that core/bootinfo.c,
    firmware/acpi.c and firmware/smbios.c use on such pointers. *)

From S2P Require Import Prelude Buffer.

#[local] Open Scope Z_scope.

Definition pointer := Z -> option Z.

(** [p + n] *)
Definition plus (p : pointer) (n : Z) : pointer := fun o => p (n + o).

Definition load16 (p : pointer) (o : Z) : option Z :=
  b0 ← p o; b1 ← p (o + 1); Some (b0 ||| u16 (b1 << 8)).

Definition load32 (p : pointer) (o : Z) : option Z :=
  b0 ← p o; b1 ← p (o + 1); b2 ← p (o + 2); b3 ← p (o + 3);
  Some (b0 ||| u32 (b1 << 8) ||| u32 (b2 << 16) ||| u32 (b3 << 24)).

Definition load64 (p : pointer) (o : Z) : option Z :=
  lo ← load32 p o; hi ← load32 p (o + 4); Some (lo ||| u64 (hi << 32)).

(** The comparison with the characters of a literal stops at the first that
    differs. *)
Fixpoint equal_text (p : pointer) (o : Z) (text : list Z) : option bool :=
  match text with
  | [] => Some true
  | c :: text => b ← p o; if negb (b =? c) then Some false else equal_text p (o + 1) text
  end.

(** The sum of [length] bytes, in eight bits. *)
Definition byte_sum (p : pointer) (length : Z) : option Z :=
  for_loop (Z.to_nat length) 0 (fun index sum => b ← p index; Some (u8 (sum + b))) 0.

(** ** Readable memory *)

(** [n] bytes can be read from [p] on. *)
Definition readable (p : pointer) (n : Z) : Prop := forall o, 0 <= o < n -> exists b, p o = Some b /\ fits 8 b.

Lemma readable_plus p n k : readable p n -> 0 <= k -> readable (plus p k) (n - k).
Proof. intros Hp Hk o Ho. apply Hp. lia. Qed.

Lemma readable_le p n n' : readable p n -> n' <= n -> readable p n'.
Proof. intros Hp Hn o Ho. apply Hp. lia. Qed.

Lemma readable_array l : all_bytes l -> readable (rd l) (Z.of_nat (length l)).
Proof.
  intros Hl o Ho. destruct (rd_ok l o Ho) as [b Hb]. exists b. split; [done|].
  apply rd_Some in Hb as [_ Hb]. by apply (Forall_lookup_1 _ _ _ _ Hl Hb).
Qed.

(** The bytes behind a pointer. *)
Definition contents (p : pointer) (l : list Z) : Prop := all_bytes l /\ forall o, 0 <= o < Z.of_nat (length l) -> p o = rd l o.

Lemma readable_contents p n : 0 <= n -> readable p n -> exists l, contents p l /\ Z.of_nat (length l) = n.
Proof.
  intros Hn. pattern n. apply natlike_ind; [|clear n Hn; intros n Hn IH Hp|done].
  - intros _. exists []. split; [split; [constructor|simpl; lia]|done].
  - destruct IH as (l & [Hb Hl] & E); [apply (readable_le p _ _ Hp); lia|].
    destruct (Hp n) as (b & Eb & Hf); [lia|]. exists (l ++ [b]). split; [split|rewrite length_app; simpl; lia].
    + apply Forall_app. split; [done|]. by constructor.
    + intros o Ho. rewrite length_app in Ho. simpl in Ho. rewrite rd_app. destruct (Z.ltb_spec o (Z.of_nat (length l))); [apply Hl; lia|].
      replace o with n by lia. rewrite E, Z.sub_diag. done.
Qed.

Lemma contents_readable p l : contents p l -> readable p (Z.of_nat (length l)).
Proof. intros [Hb Hl] o Ho. rewrite Hl by done. by apply readable_array. Qed.

Section contents.
Context (p : pointer) (l : list Z) (Hp : contents p l).

Lemma contents_rd o : 0 <= o < Z.of_nat (length l) -> p o = rd l o.
Proof using Hp. apply Hp. Qed.

Lemma contents_16 o : 0 <= o -> o + 2 <= Z.of_nat (length l) -> load16 p o = get16 l o.
Proof using Hp. intros H1 H2. unfold load16, get16. by rewrite !contents_rd by lia. Qed.
Lemma contents_32 o : 0 <= o -> o + 4 <= Z.of_nat (length l) -> load32 p o = get32 l o.
Proof using Hp. intros H1 H2. unfold load32, get32. by rewrite !contents_rd by lia. Qed.
Lemma contents_64 o : 0 <= o -> o + 8 <= Z.of_nat (length l) -> load64 p o = get64 l o.
Proof using Hp. intros H1 H2. unfold load64, get64. by rewrite !contents_32 by lia. Qed.
End contents.

Lemma le_value_slice_fits l o n :
  all_bytes l -> room l o n -> 0 <= le_value (slice l o n) < 256 ^ n.
Proof.
  intros Hl Hr. pose proof (le_value_fits _ (all_bytes_slice l o n Hl)) as Hf. rewrite length_slice in Hf by done.
  rewrite Z2Nat.id in Hf; [done|apply Hr].
Qed.

Section loads.
Context (p : pointer) (n : Z) (Hp : readable p n).

Lemma load16_ok o : 0 <= o -> o + 2 <= n -> exists v, load16 p o = Some v /\ fits 16 v.
Proof using Hp.
  intros H1 H2. destruct (readable_contents p n) as (l & Hl & E); [lia|done|]. rewrite (contents_16 p l Hl) by lia.
  rewrite get16_spec by (apply Hl || (unfold room; lia)). eexists. split; [done|].
  apply (le_value_slice_fits l o 2); [apply Hl|unfold room; lia].
Qed.
Lemma load32_ok o : 0 <= o -> o + 4 <= n -> exists v, load32 p o = Some v /\ fits 32 v.
Proof using Hp.
  intros H1 H2. destruct (readable_contents p n) as (l & Hl & E); [lia|done|]. rewrite (contents_32 p l Hl) by lia.
  rewrite get32_spec by (apply Hl || (unfold room; lia)). eexists. split; [done|].
  apply (le_value_slice_fits l o 4); [apply Hl|unfold room; lia].
Qed.
Lemma load64_ok o : 0 <= o -> o + 8 <= n -> exists v, load64 p o = Some v /\ fits 64 v.
Proof using Hp.
  intros H1 H2. destruct (readable_contents p n) as (l & Hl & E); [lia|done|]. rewrite (contents_64 p l Hl) by lia.
  rewrite get64_spec by (apply Hl || (unfold room; lia)). eexists. split; [done|].
  apply (le_value_slice_fits l o 8); [apply Hl|unfold room; lia].
Qed.
End loads.

(** ** Values in the bytes of a table *)

Definition byte (l : list Z) (o : Z) : Z := default 0 (rd l o).
Definition le (l : list Z) (o n : Z) : Z := le_value (slice l o n).
Definition size (l : list Z) : Z := Z.of_nat (length l).
Definition sum (l : list Z) : Z := foldr Z.add 0 l.

Lemma sum_app l1 l2 : sum (l1 ++ l2) = sum l1 + sum l2.
Proof. induction l1 as [|x l1 IH]; cbn [app sum foldr]; [done|]. fold (sum (l1 ++ l2)) (sum l1). lia. Qed.

Lemma byte_rd l o : 0 <= o < size l -> rd l o = Some (byte l o).
Proof. intros Ho. destruct (rd_ok l o Ho) as [b Hb]. unfold byte. by rewrite Hb. Qed.

Lemma fits_byte l o : all_bytes l -> fits 8 (byte l o).
Proof.
  intros Hl. unfold byte. destruct (rd l o) as [b|] eqn:E; [|done]. apply rd_Some in E as [_ E]. by apply (Forall_lookup_1 _ _ _ _ Hl E).
Qed.

Lemma le_fits l o n : all_bytes l -> 0 <= o -> 0 <= n -> o + n <= size l -> 0 <= le l o n < 256 ^ n.
Proof. intros Hl Ho Hn Hs. by apply le_value_slice_fits; [|unfold room, size in *; lia]. Qed.

Section values.
Context (p : pointer) (l : list Z) (Hp : contents p l).

Lemma value_8 o : 0 <= o < size l -> p o = Some (byte l o).
Proof using Hp. intros Ho. rewrite (contents_rd p l Hp) by done. by apply byte_rd. Qed.
Lemma value_16 o : 0 <= o -> o + 2 <= size l -> load16 p o = Some (le l o 2).
Proof using Hp. intros H1 H2. rewrite (contents_16 p l Hp) by done. apply get16_spec; [apply Hp|]. unfold room, size in *. lia. Qed.
Lemma value_32 o : 0 <= o -> o + 4 <= size l -> load32 p o = Some (le l o 4).
Proof using Hp. intros H1 H2. rewrite (contents_32 p l Hp) by done. apply get32_spec; [apply Hp|]. unfold room, size in *. lia. Qed.
Lemma value_64 o : 0 <= o -> o + 8 <= size l -> load64 p o = Some (le l o 8).
Proof using Hp. intros H1 H2. rewrite (contents_64 p l Hp) by done. apply get64_spec; [apply Hp|]. unfold room, size in *. lia. Qed.

Lemma equal_text_spec text o :
  0 <= o -> o + Z.of_nat (length text) <= size l -> equal_text p o text = Some (bool_decide (slice l o (Z.of_nat (length text)) = text)).
Proof using Hp.
  revert o. induction text as [|c text IH]; intros o Ho Hs; cbn [equal_text].
  - by rewrite bool_decide_true.
  - cbn [length] in Hs. rewrite value_8, bind_some by lia.
    assert (slice l o (Z.of_nat (length (c :: text))) = byte l o :: slice l (o + 1) (Z.of_nat (length text))) as ->.
    { unfold slice. cbn [length]. replace (Z.to_nat (Z.of_nat (S (length text)))) with (S (length text)) by lia. rewrite Nat2Z.id.
      pose proof (byte_rd l o ltac:(lia)) as E. apply rd_Some in E as [_ E]. rewrite (drop_S _ _ _ E). cbn [take]. by replace (Z.to_nat (o + 1)) with (S (Z.to_nat o)) by lia. }
    destruct (Z.eqb_spec (byte l o) c) as [->|Hne]; cbn [negb].
    + rewrite IH by lia. f_equal. apply bool_decide_ext. split; [by intros ->|by intros [=]].
    + f_equal. symmetry. apply bool_decide_eq_false. by intros [=].
Qed.

Lemma byte_sum_spec n : 0 <= n <= size l -> byte_sum p n = Some (sum (take (Z.to_nat n) l) mod 256).
Proof using Hp.
  intros Hn. unfold byte_sum.
  destruct (for_loop_rule (fun j s => s = sum (take (Z.to_nat j) l) mod 256) (Z.to_nat n) 0 (fun index sum => b ← p index; Some (u8 (sum + b))) 0) as (s & -> & ->).
  - done.
  - intros j s Hj ->. rewrite value_8, bind_some by lia. eexists. split; [done|].
    pose proof (byte_rd l j ltac:(lia)) as E. apply rd_Some in E as [_ E]. replace (Z.to_nat (j + 1)) with (S (Z.to_nat j)) by lia.
    rewrite (take_S_r _ _ _ E), sum_app. cbn [sum foldr]. unfold u8. change (2 ^ 8) with 256. rewrite Z.add_0_r. apply Zplus_mod_idemp_l.
  - do 3 f_equal. f_equal. lia.
Qed.
End values.

(** ** Parts of a table *)

Lemma byte_slice l o n i : 0 <= o -> o + n <= size l -> 0 <= i < n -> byte (slice l o n) i = byte l (o + i).
Proof. intros Ho Hn Hi. unfold byte. rewrite rd_slice by (unfold room, size in *; lia). by rewrite (proj2 (Z.leb_le 0 i)), (proj2 (Z.ltb_lt i n)) by lia. Qed.

Lemma size_slice l o n : 0 <= o -> 0 <= n -> o + n <= size l -> size (slice l o n) = n.
Proof. intros Ho Hn Hs. unfold size in *. rewrite length_slice by (unfold room; lia). lia. Qed.

Lemma le_slice l o n i k : 0 <= o -> o + n <= size l -> 0 <= i -> 0 <= k -> i + k <= n -> le (slice l o n) i k = le l (o + i) k.
Proof.
  intros Ho Hn Hi Hk Hik. unfold le, slice. f_equal. rewrite skipn_firstn_comm, take_take, drop_drop. f_equal; [lia|]. f_equal. lia.
Qed.

Lemma drop_slice l o n : 0 <= o -> 0 <= n -> drop (Z.to_nat o) l = slice l o n ++ drop (Z.to_nat (o + n)) l.
Proof.
  intros Ho Hn. unfold slice. rewrite Z2Nat.inj_add, <- drop_drop by lia. symmetry. apply take_drop.
Qed.

Lemma contents_unique p l l' : contents p l -> contents p l' -> size l = size l' -> l = l'.
Proof.
  intros [_ H1] [_ H2] E. unfold size in E. apply rd_eq; [lia|]. intros i Hi. rewrite <- H1, <- H2 by lia. done.
Qed.

Lemma contents_plus m r l k : contents (plus m r) l -> 0 <= k <= size l -> contents (plus m (r + k)) (drop (Z.to_nat k) l).
Proof.
  intros [Hb Hl] Hk. unfold size in Hk. split; [by apply Forall_drop|]. intros o Ho. rewrite length_drop in Ho. unfold plus.
  replace (r + k + o) with (r + (k + o)) by lia. change (m (r + (k + o))) with (plus m r (k + o)). rewrite Hl by lia. unfold rd.
  rewrite !(proj2 (Z.ltb_ge _ _)) by lia. rewrite lookup_drop. f_equal. lia.
Qed.

Lemma le_drop l k n : 0 <= k -> le (drop (Z.to_nat k) l) 0 n = le l k n.
Proof. intros Hk. unfold le, slice. by rewrite drop_drop, Nat.add_0_r. Qed.

(** Bytes with the checksum at [o]. *)
Definition summed (o : nat) (l : list Z) : list Z := <[o := (- sum l) mod 256]> l.
