(* ===== verification/Bootinfo.v ===== *)
(** * Boot information: src/core/bootinfo.c

    The record that a boot loader hands over, its validation, and the snapshot
    that the rest of the kernel uses.  Physical memory is a pointer ([m], from
    address 0 on); the first gigabyte above the null page is mapped. *)

From S2P Require Import Prelude Buffer Firmware.

#[local] Open Scope Z_scope.

Definition MVH_BOOTINFO_HANDOFF_MAGIC : Z := 0x32564F464E494856.
Definition MVH_BOOTINFO_MAGIC : Z := 0x324F464E4948564D.
Definition MVH_BOOTINFO_VERSION : Z := 2.
Definition MVH_BOOTINFO_MAX_SIZE : Z := 4096.
Definition MVH_BOOTINFO_IDENTITY_LIMIT : Z := 0x40000000.
Definition MVH_BOOTINFO_FLAG_MEMORY_MAP : Z := 1 << 0.
Definition MVH_BOOTINFO_FLAG_ACPI_RSDP : Z := 1 << 1.
Definition MVH_BOOTINFO_FLAG_SMBIOS : Z := 1 << 2.
Definition MVH_BOOTINFO_FLAG_FRAMEBUFFER : Z := 1 << 3.
Definition MVH_BOOTINFO_FLAG_RANDOM_SEED : Z := 1 << 4.
Definition MVH_BOOTINFO_FLAG_COMMAND_LINE : Z := 1 << 5.
Definition MVH_BOOTINFO_FLAG_IDENTITY_4G : Z := 1 << 6.
Definition MVH_BOOTINFO_KNOWN_FLAGS : Z := (1 << 7) - 1.
Definition MVH_MEMORY_USABLE : Z := 1.
Definition MVH_MEMORY_MMIO : Z := 6.
Definition BOOTINFO_MIN_MEMORY_KIB : Z := 4096.
Definition BOOTINFO_MAX_MEMORY_KIB : Z := U64_MAX / 1024.

Definition sizeof_bootinfo : Z := 136.
Definition sizeof_map_entry : Z := 24.

Record mvh_framebuffer_info := Framebuffer {
  fb_address : Z; fb_width : Z; fb_height : Z; fb_pitch : Z; fb_bits_per_pixel : Z;
  fb_red_mask : Z; fb_green_mask : Z; fb_blue_mask : Z; fb_reserved : Z;
}.
Definition no_framebuffer : mvh_framebuffer_info := Framebuffer 0 0 0 0 0 0 0 0 0.

(** The record of the boot loader, and the snapshot. *)
Record mvh_bootinfo_v2 := BootinfoV2 {
  i_magic : Z; i_version : Z; i_size : Z; i_flags : Z; i_memory_kib : Z;
  i_memory_map_address : Z; i_memory_map_entries : Z; i_memory_map_entry_size : Z;
  i_acpi_rsdp_address : Z; i_smbios_address : Z; i_framebuffer : mvh_framebuffer_info;
  i_random_seed_address : Z; i_random_seed_size : Z; i_reserved0 : Z;
  i_command_line_address : Z; i_command_line_size : Z; i_reserved1 : Z;
}.

Record mvh_bootinfo_snapshot := Snapshot {
  b_versioned : Z; b_version : Z; b_size : Z; b_flags : Z; b_memory_kib : Z;
  b_memory_map_address : Z; b_memory_map_entries : Z; b_memory_map_entry_size : Z;
  b_acpi_rsdp_address : Z; b_smbios_address : Z; b_framebuffer : mvh_framebuffer_info;
  b_random_seed_address : Z; b_random_seed_size : Z; b_command_line_address : Z; b_command_line_size : Z;
}.

Definition clear_snapshot : mvh_bootinfo_snapshot := Snapshot 0 0 0 0 0 0 0 0 0 0 no_framebuffer 0 0 0 0.

(** The record at a pointer. *)
Definition framebuffer_at (p : pointer) : option mvh_framebuffer_info :=
  address ← load64 p 0; width ← load32 p 8; height ← load32 p 12; pitch ← load32 p 16; bits ← load32 p 20;
  red ← load32 p 24; green ← load32 p 28; blue ← load32 p 32; reserved ← load32 p 36;
  Some (Framebuffer address width height pitch bits red green blue reserved).

Definition bootinfo_at (p : pointer) : option mvh_bootinfo_v2 :=
  magic ← load64 p 0; version ← load32 p 8; size ← load32 p 12; flags ← load64 p 16; memory_kib ← load64 p 24;
  map_address ← load64 p 32; map_entries ← load32 p 40; map_entry_size ← load32 p 44;
  rsdp ← load64 p 48; smbios ← load64 p 56; framebuffer ← framebuffer_at (plus p 64);
  seed_address ← load64 p 104; seed_size ← load32 p 112; reserved0 ← load32 p 116;
  line_address ← load64 p 120; line_size ← load32 p 128; reserved1 ← load32 p 132;
  Some (BootinfoV2 magic version size flags memory_kib map_address map_entries map_entry_size rsdp smbios framebuffer
    seed_address seed_size reserved0 line_address line_size reserved1).

Definition range_is_mapped (address size : Z) : bool :=
  (0x1000 <=? address) && negb (size =? 0) && (address <? MVH_BOOTINFO_IDENTITY_LIMIT) &&
  (size <=? MVH_BOOTINFO_IDENTITY_LIMIT - address).

Definition optional_range (flags flag address size : Z) : bool :=
  if flags &&& flag =? 0 then address =? 0 else range_is_mapped address size.

(** One entry of the memory map. *)
Definition map_entry_valid (entry : pointer) : option bool :=
  base ← load64 entry 0; length ← load64 entry 8; type ← load32 entry 16;
  Some (negb ((length =? 0) || (U64_MAX - length <? base) || (type <? MVH_MEMORY_USABLE) || (MVH_MEMORY_MMIO <? type))).

Definition memory_map_valid (m : pointer) (info : mvh_bootinfo_v2) : option bool :=
  if negb (i_flags info &&& MVH_BOOTINFO_FLAG_MEMORY_MAP =? 0) then
    if (i_memory_map_entries info =? 0) || negb (i_memory_map_address info &&& 7 =? 0) ||
       (i_memory_map_entry_size info <? sizeof_map_entry) || negb (i_memory_map_entry_size info &&& 7 =? 0) ||
       (65536 <? i_memory_map_entries info) || (MVH_BOOTINFO_MAX_SIZE <? i_memory_map_entry_size info)
    then Some false else
    let map_size := u64 (i_memory_map_entries info * i_memory_map_entry_size info) in
    if negb (range_is_mapped (i_memory_map_address info) map_size) then Some false else
    r ← for_break (Z.to_nat (i_memory_map_entries info)) 0 (fun index u =>
          ok ← map_entry_valid (plus m (i_memory_map_address info + index * i_memory_map_entry_size info));
          Some (if negb ok then inr tt else inl u)) tt;
    Some (match r with inl _ => true | inr _ => false end)
  else Some (negb (negb (i_memory_map_address info =? 0) || negb (i_memory_map_entries info =? 0) ||
                   negb (i_memory_map_entry_size info =? 0))).

Definition framebuffer_valid (flags : Z) (f : mvh_framebuffer_info) : bool :=
  if negb (flags &&& MVH_BOOTINFO_FLAG_FRAMEBUFFER =? 0) then
    negb ((fb_address f =? 0) || (fb_width f =? 0) || (fb_height f =? 0) || (fb_pitch f =? 0) ||
          (negb (fb_bits_per_pixel f =? 24) && negb (fb_bits_per_pixel f =? 32)))
  else
    negb (negb (fb_address f =? 0) || negb (fb_width f =? 0) || negb (fb_height f =? 0) || negb (fb_pitch f =? 0) ||
          negb (fb_bits_per_pixel f =? 0) || negb (fb_red_mask f =? 0) || negb (fb_green_mask f =? 0) ||
          negb (fb_blue_mask f =? 0) || negb (fb_reserved f =? 0)).

Definition validate_v2 (m : pointer) (info : mvh_bootinfo_v2) : option Z :=
  let flags := i_flags info in
  if negb (i_magic info =? MVH_BOOTINFO_MAGIC) || negb (i_version info =? MVH_BOOTINFO_VERSION) ||
     (i_size info <? sizeof_bootinfo) || (MVH_BOOTINFO_MAX_SIZE <? i_size info) ||
     negb (flags &&& compl 64 MVH_BOOTINFO_KNOWN_FLAGS =? 0) || (i_memory_kib info <? BOOTINFO_MIN_MEMORY_KIB) ||
     (BOOTINFO_MAX_MEMORY_KIB <? i_memory_kib info) || negb (i_reserved0 info =? 0) || negb (i_reserved1 info =? 0)
  then Some (-1) else
  ok ← memory_map_valid m info;
  if negb ok then Some (-1) else
  if negb (optional_range flags MVH_BOOTINFO_FLAG_ACPI_RSDP (i_acpi_rsdp_address info) 20) ||
     negb (optional_range flags MVH_BOOTINFO_FLAG_SMBIOS (i_smbios_address info) 16) then Some (-1) else
  if negb (framebuffer_valid flags (i_framebuffer info)) then Some (-1) else
  if negb (optional_range flags MVH_BOOTINFO_FLAG_RANDOM_SEED (i_random_seed_address info) (i_random_seed_size info)) ||
     (256 <? i_random_seed_size info) ||
     ((flags &&& MVH_BOOTINFO_FLAG_RANDOM_SEED =? 0) && negb (i_random_seed_size info =? 0)) ||
     negb (optional_range flags MVH_BOOTINFO_FLAG_COMMAND_LINE (i_command_line_address info) (i_command_line_size info)) ||
     (4096 <? i_command_line_size info) ||
     ((flags &&& MVH_BOOTINFO_FLAG_COMMAND_LINE =? 0) && negb (i_command_line_size info =? 0)) then Some (-1) else
  Some 0.

Definition snapshot_of (info : mvh_bootinfo_v2) : mvh_bootinfo_snapshot :=
  Snapshot 1 (i_version info) (i_size info) (i_flags info) (i_memory_kib info) (i_memory_map_address info)
    (i_memory_map_entries info) (i_memory_map_entry_size info) (i_acpi_rsdp_address info) (i_smbios_address info)
    (i_framebuffer info) (i_random_seed_address info) (i_random_seed_size info) (i_command_line_address info)
    (i_command_line_size info).

(** The new snapshot and the status. *)
Definition bootinfo_capture (m : pointer) (argument0 argument1 : Z) : option (mvh_bootinfo_snapshot * Z) :=
  if negb (argument1 =? MVH_BOOTINFO_HANDOFF_MAGIC) then
    if (argument0 <? BOOTINFO_MIN_MEMORY_KIB) || (BOOTINFO_MAX_MEMORY_KIB <? argument0) then Some (clear_snapshot, -1)
    else Some (Snapshot 0 0 0 0 argument0 0 0 0 0 0 no_framebuffer 0 0 0 0, 0)
  else
  if negb (argument0 &&& 7 =? 0) || negb (range_is_mapped argument0 sizeof_bootinfo) then Some (clear_snapshot, -1) else
  info ← bootinfo_at (plus m argument0);
  code ← validate_v2 m info;
  if negb (code =? 0) || negb (range_is_mapped argument0 (i_size info)) then Some (clear_snapshot, -1) else
  Some (snapshot_of info, 0).

(** The self test changes fields of one record. *)
Definition test_info (flags size : Z) : mvh_bootinfo_v2 :=
  BootinfoV2 MVH_BOOTINFO_MAGIC MVH_BOOTINFO_VERSION size flags 65536 0 0 0 0 0 no_framebuffer 0 0 0 0 0 0.

Definition bootinfo_self_test (m : pointer) : option Z :=
  code ← validate_v2 m (test_info 0 sizeof_bootinfo);
  if negb (code =? 0) then Some (-1) else
  code ← validate_v2 m (test_info (1 << 63) sizeof_bootinfo);
  if code =? 0 then Some (-1) else
  code ← validate_v2 m (test_info 0 (sizeof_bootinfo - 1));
  Some (if negb (code =? 0) then 0 else -1).

Lemma bootinfo_self_test_passes m : bootinfo_self_test m = Some 0.
Proof. reflexivity. Qed.

(** ** Correctness *)

(** The memory the boot code has mapped, one to one. *)
Definition identity_mapped (m : pointer) (limit : Z) : Prop := forall a, 0x1000 <= a < limit -> exists b, m a = Some b /\ fits 8 b.

Definition within (limit address size : Z) : Prop := 0x1000 <= address /\ 0 < size /\ address + size <= limit.

(** A memory that holds [l] at [base] and is zero elsewhere. *)
Definition memory_at (base : Z) (l : list Z) : pointer := fun a => Some (default 0 (rd l (a - base))).
Lemma memory_at_mapped base l limit : all_bytes l -> identity_mapped (memory_at base l) limit.
Proof.
  intros Hb a _. eexists. split; [done|].
  destruct (rd l (a - base)) as [b|] eqn:E; [|done]. apply rd_Some in E as [_ E]. by apply (Forall_lookup_1 _ _ _ _ Hb E).
Qed.

Lemma within_readable m limit address size : identity_mapped m limit -> within limit address size -> readable (plus m address) size.
Proof. intros Hm Hw o Ho. unfold within in Hw. apply Hm. lia. Qed.

Lemma range_is_mapped_spec address size : 0 <= size -> range_is_mapped address size = true <-> within MVH_BOOTINFO_IDENTITY_LIMIT address size.
Proof.
  intros Hs. unfold range_is_mapped, within. rewrite !andb_true_iff, negb_true_iff, Z.eqb_neq, !Z.leb_le, Z.ltb_lt. lia.
Qed.

(** A range is announced by a flag, or its address is 0. *)
Definition announced (info : mvh_bootinfo_v2) (flag address size : Z) : Prop :=
  (i_flags info &&& flag <> 0 -> within MVH_BOOTINFO_IDENTITY_LIMIT address size) /\
  (i_flags info &&& flag = 0 -> address = 0).

Lemma optional_range_spec info flag address size :
  0 <= size -> optional_range (i_flags info) flag address size = true <-> announced info flag address size.
Proof.
  intros Hs. unfold optional_range, announced. destruct (Z.eqb_spec (i_flags info &&& flag) 0).
  - rewrite Z.eqb_eq. tauto.
  - rewrite range_is_mapped_spec by done. tauto.
Qed.

Definition map_entry_ok (p : pointer) : Prop :=
  exists base length type, load64 p 0 = Some base /\ load64 p 8 = Some length /\ load32 p 16 = Some type /\
    0 < length /\ base + length < 2 ^ 64 /\ 1 <= type <= 6.

Lemma map_entry_valid_spec p : readable p sizeof_map_entry -> exists b, map_entry_valid p = Some b /\ (b = true <-> map_entry_ok p).
Proof.
  intros Hp. unfold sizeof_map_entry in Hp. unfold map_entry_valid, map_entry_ok.
  destruct (load64_ok p _ Hp 0) as (base & Eb & Fb); [lia..|]. destruct (load64_ok p _ Hp 8) as (len & El & Fl); [lia..|].
  destruct (load32_ok p _ Hp 16) as (type & Et & Ft); [lia..|]. rewrite Eb, El, Et, !bind_some. eexists. split; [done|].
  unfold MVH_MEMORY_USABLE, MVH_MEMORY_MMIO, U64_MAX. unfold fits in *.
  rewrite negb_true_iff, !orb_false_iff, Z.eqb_neq, !Z.ltb_ge. split.
  - intros (((? & ?) & ?) & ?). exists base, len, type. split_and!; try done; lia.
  - intros (base' & len' & type' & [= <-] & [= <-] & [= <-] & ?). lia.
Qed.

Record memory_map_ok (m : pointer) (address entries entry_size : Z) : Prop := {
  map_entries : 0 < entries <= 65536;
  map_aligned : address &&& 7 = 0;
  map_entry_size : sizeof_map_entry <= entry_size <= MVH_BOOTINFO_MAX_SIZE;
  map_entry_aligned : entry_size &&& 7 = 0;
  map_within : within MVH_BOOTINFO_IDENTITY_LIMIT address (entries * entry_size);
  map_entries_ok : forall i, 0 <= i < entries -> map_entry_ok (plus m (address + i * entry_size));
}.

Definition memory_map_announced (m : pointer) (info : mvh_bootinfo_v2) : Prop :=
  (i_flags info &&& MVH_BOOTINFO_FLAG_MEMORY_MAP <> 0 ->
     memory_map_ok m (i_memory_map_address info) (i_memory_map_entries info) (i_memory_map_entry_size info)) /\
  (i_flags info &&& MVH_BOOTINFO_FLAG_MEMORY_MAP = 0 ->
     i_memory_map_address info = 0 /\ i_memory_map_entries info = 0 /\ i_memory_map_entry_size info = 0).

Definition framebuffer_announced (info : mvh_bootinfo_v2) : Prop :=
  let f := i_framebuffer info in
  (i_flags info &&& MVH_BOOTINFO_FLAG_FRAMEBUFFER <> 0 ->
     fb_address f <> 0 /\ fb_width f <> 0 /\ fb_height f <> 0 /\ fb_pitch f <> 0 /\ (fb_bits_per_pixel f = 24 \/ fb_bits_per_pixel f = 32)) /\
  (i_flags info &&& MVH_BOOTINFO_FLAG_FRAMEBUFFER = 0 -> f = no_framebuffer).

(** A buffer of at most [limit] bytes that a flag announces. *)
Definition buffer_announced (info : mvh_bootinfo_v2) (flag address size limit : Z) : Prop :=
  announced info flag address size /\ size <= limit /\ (i_flags info &&& flag = 0 -> size = 0).

(** What the documentation of the record asks for. *)
Record info_ok (m : pointer) (info : mvh_bootinfo_v2) : Prop := {
  info_magic : i_magic info = MVH_BOOTINFO_MAGIC;
  info_version : i_version info = MVH_BOOTINFO_VERSION;
  info_size : sizeof_bootinfo <= i_size info <= MVH_BOOTINFO_MAX_SIZE;
  info_known : i_flags info < 2 ^ 7;
  info_memory : BOOTINFO_MIN_MEMORY_KIB <= i_memory_kib info <= BOOTINFO_MAX_MEMORY_KIB;
  info_reserved : i_reserved0 info = 0 /\ i_reserved1 info = 0;
  info_map : memory_map_announced m info;
  info_rsdp : announced info MVH_BOOTINFO_FLAG_ACPI_RSDP (i_acpi_rsdp_address info) 20;
  info_smbios : announced info MVH_BOOTINFO_FLAG_SMBIOS (i_smbios_address info) 16;
  info_framebuffer : framebuffer_announced info;
  info_seed : buffer_announced info MVH_BOOTINFO_FLAG_RANDOM_SEED (i_random_seed_address info) (i_random_seed_size info) 256;
  info_line : buffer_announced info MVH_BOOTINFO_FLAG_COMMAND_LINE (i_command_line_address info) (i_command_line_size info) 4096;
}.

(** The field types. *)
Record info_typed (info : mvh_bootinfo_v2) : Prop := {
  typed_flags : fits 64 (i_flags info);
  typed_map : fits 64 (i_memory_map_address info) /\ fits 32 (i_memory_map_entries info) /\ fits 32 (i_memory_map_entry_size info);
  typed_sizes : fits 32 (i_size info) /\ fits 32 (i_random_seed_size info) /\ fits 32 (i_command_line_size info);
}.

Lemma known_flags_spec flags : fits 64 flags -> (flags &&& compl 64 MVH_BOOTINFO_KNOWN_FLAGS =? 0) = true <-> flags < 2 ^ 7.
Proof.
  intros Hf. rewrite Z.eqb_eq. change (compl 64 MVH_BOOTINFO_KNOWN_FLAGS) with (Z.shiftl (Z.ones 57) 7). split.
  - intros E. destruct (Z.lt_ge_cases flags (2 ^ 7)) as [|Hge]; [done|]. exfalso. unfold fits in Hf.
    pose proof (Z.log2_le_mono _ _ Hge) as Hlog. change (Z.log2 (2 ^ 7)) with 7 in Hlog.
    assert (Z.log2 flags < 64) as Hlt by (apply Z.log2_lt_pow2; lia).
    assert (Z.testbit flags (Z.log2 flags) = true) as Hb by (apply Z.bit_log2; lia).
    apply (f_equal (fun z => Z.testbit z (Z.log2 flags))) in E. rewrite Z.land_spec, Hb, Z.shiftl_spec, Z.ones_spec_low, Z.bits_0 in E by lia. done.
  - intros Hlt. apply Z.bits_inj'. intros i Hi. rewrite Z.land_spec, Z.bits_0. destruct (Z.lt_ge_cases i 7).
    + rewrite Z.shiftl_spec_low, andb_false_r by done. done.
    + unfold fits in Hf. destruct (Z.eq_dec flags 0) as [->|]; [by rewrite Z.bits_0|].
      rewrite (Z.bits_above_log2 flags i); [done|lia|]. apply Z.log2_lt_pow2; [lia|]. apply (Z.lt_le_trans _ (2 ^ 7)); [done|]. apply Z.pow_le_mono_r; lia.
Qed.

Section validation.
Context (m : pointer) (Hm : identity_mapped m MVH_BOOTINFO_IDENTITY_LIMIT).

Lemma map_loop_spec address entries entry_size :
  0 < entries -> sizeof_map_entry <= entry_size -> within MVH_BOOTINFO_IDENTITY_LIMIT address (entries * entry_size) ->
  exists r : unit + unit,
    for_break (Z.to_nat entries) 0 (fun index u =>
      ok ← map_entry_valid (plus m (address + index * entry_size)); Some (if negb ok then inr tt else inl u)) tt = Some r /\
    (match r with inl _ => true | inr _ => false end = true <-> forall i, 0 <= i < entries -> map_entry_ok (plus m (address + i * entry_size))).
Proof using Hm.
  intros Hn Hs Hw.
  assert (Hread : forall i, 0 <= i < entries -> readable (plus m (address + i * entry_size)) sizeof_map_entry).
  { intros i Hi. apply (within_readable m MVH_BOOTINFO_IDENTITY_LIMIT); [done|]. unfold within, sizeof_map_entry in *. nia. }
  match goal with |- context [for_break ?n 0 ?f tt] =>
    destruct (for_break_rule (R := unit) (fun j (_ : unit) => forall i, 0 <= i < j -> map_entry_ok (plus m (address + i * entry_size)))
      (fun _ => exists i, 0 <= i < entries /\ ~ map_entry_ok (plus m (address + i * entry_size))) n 0 f tt) as [(u & E & Hu)|(u & E & i & Hi & Hno)] end.
  - lia.
  - intros j [] Hj Hall. destruct (map_entry_valid_spec _ (Hread j ltac:(lia))) as (b & -> & Hb). rewrite bind_some. destruct b; cbn [negb].
    + left. eexists. split; [done|]. intros i Hi. destruct (Z.eq_dec i j) as [->|]; [by apply Hb|apply Hall; lia].
    + right. eexists. split; [done|]. exists j. split; [lia|]. intros Hok%Hb. done.
  - exists (inl u). split; [done|]. split; [|done]. intros _ i Hi. apply Hu. lia.
  - exists (inr u). split; [done|]. split; [done|]. intros Hall. destruct Hno. by apply Hall.
Qed.

Lemma memory_map_valid_spec info :
  info_typed info -> exists b, memory_map_valid m info = Some b /\ (b = true <-> memory_map_announced m info).
Proof using Hm.
  intros [_ (Fa & Fe & Fs) _]. unfold memory_map_valid, memory_map_announced.
  destruct (Z.eqb_spec (i_flags info &&& MVH_BOOTINFO_FLAG_MEMORY_MAP) 0) as [E|E]; cbn [negb].
  { eexists. split; [done|]. rewrite negb_true_iff, !orb_false_iff, !negb_false_iff, !Z.eqb_eq. tauto. }
  set (address := i_memory_map_address info) in *. set (entries := i_memory_map_entries info) in *. set (size := i_memory_map_entry_size info) in *.
  assert (Hno : ~ memory_map_ok m address entries size -> exists b, Some false = Some b /\
    (b = true <-> (i_flags info &&& MVH_BOOTINFO_FLAG_MEMORY_MAP <> 0 -> memory_map_ok m address entries size) /\
      (i_flags info &&& MVH_BOOTINFO_FLAG_MEMORY_MAP = 0 -> address = 0 /\ entries = 0 /\ size = 0))).
  { intros Hn. exists false. split; [done|]. split; [done|]. intros [Hok _]. by destruct (Hn (Hok E)). }
  destruct (_ || _) eqn:Ec.
  { apply Hno. intros []. revert Ec. apply not_true_iff_false. unfold sizeof_map_entry, MVH_BOOTINFO_MAX_SIZE in *.
    rewrite !orb_false_iff, !negb_false_iff, !Z.eqb_eq, Z.eqb_neq, !Z.ltb_ge. lia. }
  rewrite !orb_false_iff, !negb_false_iff, !Z.eqb_eq, Z.eqb_neq, !Z.ltb_ge in Ec. unfold fits in *.
  unfold sizeof_map_entry, MVH_BOOTINFO_MAX_SIZE in Ec. rewrite u64_small by (unfold fits; pow2; nia).
  pose proof (range_is_mapped_spec address (entries * size) ltac:(nia)) as Hrange.
  destruct (range_is_mapped _ _); cbn [negb]; [|apply Hno; intros []; by apply Hrange in map_within0].
  destruct (map_loop_spec address entries size) as (r & -> & Hr); [lia|unfold sizeof_map_entry; lia|by apply Hrange|].
  rewrite bind_some. eexists. split; [done|]. rewrite Hr. split.
  - intros Hall. split; [intros _|done]. constructor; [lia|tauto|unfold sizeof_map_entry, MVH_BOOTINFO_MAX_SIZE; lia|tauto|by apply Hrange|done].
  - intros [Hok _]. by apply map_entries_ok, Hok.
Qed.

Lemma framebuffer_valid_spec info : framebuffer_valid (i_flags info) (i_framebuffer info) = true <-> framebuffer_announced info.
Proof using.
  unfold framebuffer_valid, framebuffer_announced. destruct (Z.eqb_spec (i_flags info &&& MVH_BOOTINFO_FLAG_FRAMEBUFFER) 0) as [E|E]; cbn [negb].
  - rewrite negb_true_iff, !orb_false_iff, !negb_false_iff, !Z.eqb_eq. destruct (i_framebuffer info); cbn. unfold no_framebuffer. split.
    + intros H. split; [done|]. intros _. f_equal; tauto.
    + intros [_ H]. specialize (H E). injection H as -> -> -> -> -> -> -> -> ->. tauto.
  - rewrite negb_true_iff, !orb_false_iff, andb_false_iff, !negb_false_iff, !Z.eqb_eq, !Z.eqb_neq. tauto.
Qed.

Lemma validate_v2_spec info : info_typed info -> exists code, validate_v2 m info = Some code /\ (code = 0 \/ code = -1) /\ (code = 0 <-> info_ok m info).
Proof using Hm.
  intros Ht. pose proof Ht as [Fflags _ (Fsize & Fseed & Fline)]. unfold fits in Fseed, Fline. unfold validate_v2.
  assert (Hno : ~ info_ok m info -> exists code, Some (-1) = Some code /\ (code = 0 \/ code = -1) /\ (code = 0 <-> info_ok m info)).
  { intros Hn. exists (-1). split; [done|]. split; [by right|]. split; [lia|done]. }
  destruct (_ || _) eqn:Ec.
  { apply Hno. intros [? ? ? Hk ? [] ? ? ? ? ? ?]. revert Ec. apply not_true_iff_false.
    rewrite !orb_false_iff, !negb_false_iff, (known_flags_spec _ Fflags), !Z.eqb_eq, !Z.ltb_ge. lia. }
  rewrite !orb_false_iff, !negb_false_iff, (known_flags_spec _ Fflags), !Z.eqb_eq, !Z.ltb_ge in Ec.
  destruct (memory_map_valid_spec info Ht) as (b & -> & Hmap). rewrite bind_some. destruct b; cbn [negb]; [|by apply Hno; intros [? ? ? ? ? ? ?%Hmap ? ? ? ? ?]].
  pose proof (optional_range_spec info MVH_BOOTINFO_FLAG_ACPI_RSDP (i_acpi_rsdp_address info) 20 ltac:(lia)) as Hr.
  pose proof (optional_range_spec info MVH_BOOTINFO_FLAG_SMBIOS (i_smbios_address info) 16 ltac:(lia)) as Hs.
  destruct (optional_range _ MVH_BOOTINFO_FLAG_ACPI_RSDP _ _); [|by apply Hno; intros [? ? ? ? ? ? ? ?%Hr ? ? ? ?]].
  destruct (optional_range _ MVH_BOOTINFO_FLAG_SMBIOS _ _); [|by apply Hno; intros [? ? ? ? ? ? ? ? ?%Hs ? ? ?]]. cbn [negb orb].
  pose proof (framebuffer_valid_spec info) as Hf. destruct (framebuffer_valid _ _); [|by apply Hno; intros [? ? ? ? ? ? ? ? ? ?%Hf ? ?]]. cbn [negb].
  pose proof (optional_range_spec info MVH_BOOTINFO_FLAG_RANDOM_SEED (i_random_seed_address info) _ (proj1 Fseed)) as Ha.
  pose proof (optional_range_spec info MVH_BOOTINFO_FLAG_COMMAND_LINE (i_command_line_address info) _ (proj1 Fline)) as Hl.
  assert (Hlast : (negb (optional_range (i_flags info) MVH_BOOTINFO_FLAG_RANDOM_SEED (i_random_seed_address info) (i_random_seed_size info)) ||
     (256 <? i_random_seed_size info) || ((i_flags info &&& MVH_BOOTINFO_FLAG_RANDOM_SEED =? 0) && negb (i_random_seed_size info =? 0)) ||
     negb (optional_range (i_flags info) MVH_BOOTINFO_FLAG_COMMAND_LINE (i_command_line_address info) (i_command_line_size info)) ||
     (4096 <? i_command_line_size info) || ((i_flags info &&& MVH_BOOTINFO_FLAG_COMMAND_LINE =? 0) && negb (i_command_line_size info =? 0))) = false <->
     buffer_announced info MVH_BOOTINFO_FLAG_RANDOM_SEED (i_random_seed_address info) (i_random_seed_size info) 256 /\
     buffer_announced info MVH_BOOTINFO_FLAG_COMMAND_LINE (i_command_line_address info) (i_command_line_size info) 4096).
  { unfold buffer_announced. rewrite <- Ha, <- Hl, !orb_false_iff, !andb_false_iff, !negb_false_iff, !Z.ltb_ge, !Z.eqb_eq, !Z.eqb_neq.
    destruct (Z.eq_dec (i_flags info &&& MVH_BOOTINFO_FLAG_RANDOM_SEED) 0), (Z.eq_dec (i_flags info &&& MVH_BOOTINFO_FLAG_COMMAND_LINE) 0); tauto. }
  destruct (_ || _) eqn:El; [apply Hno; intros [? ? ? ? ? ? ? ? ? ? Hx Hy]; by discriminate (proj2 Hlast (conj Hx Hy))|].
  exists 0. split; [done|]. split; [by left|]. split; [intros _|done]. destruct (proj1 Hlast eq_refl) as [? ?].
  constructor; try done; try tauto; lia.
Qed.

End validation.

Lemma bootinfo_at_ok p : readable p sizeof_bootinfo -> exists info, bootinfo_at p = Some info /\ info_typed info.
Proof.
  intros Hp. unfold sizeof_bootinfo in Hp. pose proof (readable_plus p _ 64 Hp ltac:(lia)) as Hq.
  assert (exists f, framebuffer_at (plus p 64) = Some f) as (f & Ef).
  { unfold framebuffer_at. destruct (load64_ok _ _ Hq 0) as (? & -> & _); [lia..|]. rewrite bind_some.
    repeat match goal with |- context [load32 (plus p 64) ?o] => destruct (load32_ok _ _ Hq o) as (? & -> & _); [lia..|]; rewrite bind_some end. eauto. }
  unfold bootinfo_at. rewrite Ef.
  repeat match goal with
  | |- context [load64 p ?o] => let v := fresh "v" in destruct (load64_ok p _ Hp o) as (v & -> & ?); [lia..|]; rewrite bind_some
  | |- context [load32 p ?o] => let v := fresh "v" in destruct (load32_ok p _ Hp o) as (v & -> & ?); [lia..|]; rewrite bind_some
  | |- _ => rewrite bind_some
  end. eexists. split; [done|]. by constructor.
Qed.

Lemma aligned8 a : (a &&& 7 =? 0) = true <-> a mod 8 = 0.
Proof. change 7 with (Z.ones 3). rewrite Z.land_ones by lia. apply Z.eqb_eq. Qed.

(** What a snapshot has to hold of the record at [p], field by field, at the
    offsets of [mvh_bootinfo_v2_t]. *)
Record snapshot_reads (p : pointer) (s : mvh_bootinfo_snapshot) : Prop := {
  reads_version : load32 p 8 = Some (b_version s);
  reads_size : load32 p 12 = Some (b_size s);
  reads_flags : load64 p 16 = Some (b_flags s);
  reads_memory : load64 p 24 = Some (b_memory_kib s);
  reads_map : load64 p 32 = Some (b_memory_map_address s) /\ load32 p 40 = Some (b_memory_map_entries s) /\
    load32 p 44 = Some (b_memory_map_entry_size s);
  reads_tables : load64 p 48 = Some (b_acpi_rsdp_address s) /\ load64 p 56 = Some (b_smbios_address s);
  reads_framebuffer : let f := b_framebuffer s in
    load64 (plus p 64) 0 = Some (fb_address f) /\ load32 (plus p 64) 8 = Some (fb_width f) /\ load32 (plus p 64) 12 = Some (fb_height f) /\
    load32 (plus p 64) 16 = Some (fb_pitch f) /\ load32 (plus p 64) 20 = Some (fb_bits_per_pixel f) /\
    load32 (plus p 64) 24 = Some (fb_red_mask f) /\ load32 (plus p 64) 28 = Some (fb_green_mask f) /\
    load32 (plus p 64) 32 = Some (fb_blue_mask f) /\ load32 (plus p 64) 36 = Some (fb_reserved f);
  reads_seed : load64 p 104 = Some (b_random_seed_address s) /\ load32 p 112 = Some (b_random_seed_size s);
  reads_line : load64 p 120 = Some (b_command_line_address s) /\ load32 p 128 = Some (b_command_line_size s);
}.

Lemma snapshot_of_reads p info : bootinfo_at p = Some info -> snapshot_reads p (snapshot_of info).
Proof.
  unfold bootinfo_at, framebuffer_at. intros H.
  repeat (let E := fresh "E" in apply bind_Some in H as (? & E & H)).
  repeat match goal with E : (_ ≫= _) = Some _ |- _ => let E' := fresh "E" in apply bind_Some in E as (? & E' & E) end.
  simplify_eq. by constructor.
Qed.

(** C24: the hand-over from the boot loader.  On any memory whose first gigabyte
    is mapped, [bootinfo_capture] ends without a fault.  A record is accepted
    exactly when it is aligned, inside the mapped gigabyte and well formed: its
    magic, version, size, flags and reserved fields are right, every entry of its
    memory map is sound, and every range it announces is mapped (the conditions of
    [info_ok]).  The snapshot then is marked as versioned and has the values that
    are in memory at the offsets of the record, field by field.  Without the
    magic number of the hand-over, the argument is a memory size: it is accepted
    exactly when it is in range, and is then the only field of the snapshot that
    is not zero.  When anything is refused the snapshot is all zero. *)
Theorem bootinfo_capture_exact m argument0 argument1 :
  identity_mapped m MVH_BOOTINFO_IDENTITY_LIMIT ->
  exists s code, bootinfo_capture m argument0 argument1 = Some (s, code) /\ (code = 0 \/ code = -1 /\ s = clear_snapshot) /\
    (argument1 <> MVH_BOOTINFO_HANDOFF_MAGIC ->
       (code = 0 <-> BOOTINFO_MIN_MEMORY_KIB <= argument0 <= BOOTINFO_MAX_MEMORY_KIB) /\
       (code = 0 -> s = Snapshot 0 0 0 0 argument0 0 0 0 0 0 no_framebuffer 0 0 0 0)) /\
    (argument1 = MVH_BOOTINFO_HANDOFF_MAGIC ->
       (code = 0 <-> exists info, argument0 mod 8 = 0 /\ within MVH_BOOTINFO_IDENTITY_LIMIT argument0 sizeof_bootinfo /\
          bootinfo_at (plus m argument0) = Some info /\ info_ok m info /\ within MVH_BOOTINFO_IDENTITY_LIMIT argument0 (i_size info)) /\
       (code = 0 -> exists info, bootinfo_at (plus m argument0) = Some info /\ info_ok m info /\ s = snapshot_of info /\
          b_versioned s = 1 /\ snapshot_reads (plus m argument0) s)).
Proof.
  intros Hm. unfold bootinfo_capture. destruct (Z.eqb_spec argument1 MVH_BOOTINFO_HANDOFF_MAGIC) as [E1|E1]; cbn [negb].
  2:{ destruct (_ || _) eqn:Ec.
      - apply orb_true_iff in Ec. rewrite !Z.ltb_lt in Ec. eexists _, (-1). split; [done|]. split; [by right|]. split; [intros _; lia|done].
      - apply orb_false_iff in Ec. rewrite !Z.ltb_ge in Ec. eexists _, 0. split; [done|]. split; [by left|]. split; [intros _; split; [lia|done]|done]. }
  pose proof (aligned8 argument0) as Ha. pose proof (range_is_mapped_spec argument0 sizeof_bootinfo ltac:(done)) as Hr.
  destruct (negb (argument0 &&& 7 =? 0) || negb (range_is_mapped argument0 sizeof_bootinfo)) eqn:Ec.
  { eexists _, (-1). split; [done|]. split; [by right|]. split; [done|]. intros _. split; [|done]. split; [done|].
    intros (info & Hx%Ha & Hy%Hr & _). by rewrite Hx, Hy in Ec. }
  apply orb_false_iff in Ec. rewrite !negb_false_iff, Ha, Hr in Ec. destruct Ec as [Hal Hw].
  destruct (bootinfo_at_ok (plus m argument0)) as (info & Ei & Ht); [by apply (within_readable m MVH_BOOTINFO_IDENTITY_LIMIT)|].
  rewrite Ei, bind_some. destruct (validate_v2_spec m Hm info Ht) as (code & -> & Hcode & Hok). rewrite bind_some.
  destruct Ht as [_ _ [Fs _]]. pose proof (range_is_mapped_spec argument0 (i_size info) (proj1 Fs)) as Hr2.
  destruct (negb (code =? 0) || _) eqn:Ec.
  - eexists _, (-1). split; [done|]. split; [by right|]. split; [done|]. intros _. split; [|done]. split; [done|].
    intros (info' & _ & _ & [= <-] & Hx%Hok & Hy%Hr2). by rewrite Hx, Hy in Ec.
  - apply orb_false_iff in Ec. rewrite !negb_false_iff, Z.eqb_eq, Hok, Hr2 in Ec. eexists _, 0. split; [done|]. split; [by left|].
    split; [done|]. intros _. pose proof (snapshot_of_reads _ _ Ei). split; [split; [intros _|done]|intros _]; exists info; tauto.
Qed.

(** A record at address 0x1000 that announces a command line. *)
Definition sample_record : list Z :=
  le_bytes 8 MVH_BOOTINFO_MAGIC ++ le_bytes 4 2 ++ le_bytes 4 136 ++ le_bytes 8 32 ++ le_bytes 8 65536 ++ replicate 88 0 ++
  le_bytes 8 8192 ++ le_bytes 4 16 ++ le_bytes 4 0.
Definition sample_memory : pointer := memory_at 0x1000 sample_record.

Lemma sample_mapped : identity_mapped sample_memory MVH_BOOTINFO_IDENTITY_LIMIT.
Proof. apply memory_at_mapped. apply (bool_decide_unpack _). by vm_compute. Qed.

Lemma bootinfo_capture_exact_witness :
  exists s info, bootinfo_capture sample_memory 0x1000 MVH_BOOTINFO_HANDOFF_MAGIC = Some (s, 0) /\ info_ok sample_memory info /\
    s = snapshot_of info /\ snapshot_reads (plus sample_memory 0x1000) s /\ b_command_line_address s = 8192.
Proof.
  destruct (bootinfo_capture_exact sample_memory 0x1000 MVH_BOOTINFO_HANDOFF_MAGIC sample_mapped) as (s & code & E & _ & _ & Hv).
  assert (match bootinfo_capture sample_memory 0x1000 MVH_BOOTINFO_HANDOFF_MAGIC with
          | Some (s, 0) => b_command_line_address s = 8192 | _ => False end) as Hc by (by vm_compute).
  rewrite E in Hc. destruct code as [|?|?]; [|destruct Hc|destruct Hc]. destruct (Hv eq_refl) as [_ Hi]. destruct (Hi eq_refl) as (info & _ & Hok & Es & _ & Hreads).
  exists s, info. split; [exact E|]. split; [exact Hok|]. split; [exact Es|]. split; [exact Hreads|exact Hc].
Defined.
