(* ===== verification/Acpi.v ===== *)
(** * ACPI tables: src/firmware/acpi.c

    Discovery and validation of the root pointer and the tables, the parsers of
    the known tables, and the registry of tables.  Physical memory is the
    pointer [m]; the address of a table is a number, and the pointer to it is
    [plus m address].  Which memory the boot code has mapped depends on a flag
    of the boot information. *)

From Stdlib Require Import String.
From S2P Require Import Prelude Buffer Firmware Bootinfo.

#[local] Open Scope Z_scope.

Definition RSDP_V1_SIZE : Z := 20.
Definition RSDP_V2_SIZE : Z := 36.
Definition SDT_HEADER_SIZE : Z := 36.
Definition ACPI_MAX_TABLES : Z := 64.
Definition ACPI_MAX_TABLE_SIZE : Z := 1024 * 1024.
Definition ACPI_MAX_CPUS : Z := 256.
Definition ACPI_MAX_IOAPICS : Z := 16.
Definition ACPI_MAX_OVERRIDES : Z := 32.
Definition ACPI_MAX_MCFG_SEGMENTS : Z := 32.

Record acpi_gas := Gas { gas_address_space : Z; gas_bit_width : Z; gas_bit_offset : Z; gas_access_size : Z; gas_address : Z }.
Record acpi_rsdp_info := RsdpInfo { ri_revision : Z; ri_root_address : Z; ri_uses_xsdt : Z; ri_oem_id : list Z }.
Record acpi_table_info := TableInfo { ti_signature : list Z; ti_length : Z; ti_revision : Z; ti_address : Z }.
Record acpi_cpu_info := CpuInfo { cpu_processor_uid : Z; cpu_apic_id : Z; cpu_enabled : Z; cpu_online_capable : Z; cpu_x2apic : Z }.
Record acpi_ioapic_info := IoapicInfo { io_id : Z; io_address : Z; io_global_interrupt_base : Z }.
Record acpi_interrupt_override := Override { ov_bus : Z; ov_source_irq : Z; ov_global_interrupt : Z; ov_flags : Z }.
Record acpi_mcfg_segment := McfgSegment { seg_base_address : Z; seg_group : Z; seg_start_bus : Z; seg_end_bus : Z }.

Record acpi_status := Status {
  st_available : Z; st_revision : Z; st_uses_xsdt : Z; st_table_count : Z; st_rejected_tables : Z;
  st_unknown_tables : Z; st_lapic_address : Z; st_lapic_flags : Z; st_local_apics : Z; st_local_x2apics : Z;
  st_ioapics : Z; st_interrupt_overrides : Z; st_nmi_sources : Z; st_local_apic_nmis : Z; st_mcfg_segments : Z;
  st_srat_cpu_affinities : Z; st_srat_memory_affinities : Z; st_hpet_address : Z; st_pm_timer_port : Z; st_reset_register : acpi_gas;
  st_reset_value : Z; st_slit_localities : Z;
}.

(** Assignments to the fields. *)
Definition set_available (v : Z) (s : acpi_status) : acpi_status :=
  Status v (st_revision s) (st_uses_xsdt s) (st_table_count s) (st_rejected_tables s) (st_unknown_tables s)
    (st_lapic_address s) (st_lapic_flags s) (st_local_apics s) (st_local_x2apics s) (st_ioapics s)
    (st_interrupt_overrides s) (st_nmi_sources s) (st_local_apic_nmis s) (st_mcfg_segments s)
    (st_srat_cpu_affinities s) (st_srat_memory_affinities s) (st_hpet_address s) (st_pm_timer_port s)
    (st_reset_register s) (st_reset_value s) (st_slit_localities s).
Definition set_revision (v : Z) (s : acpi_status) : acpi_status :=
  Status (st_available s) v (st_uses_xsdt s) (st_table_count s) (st_rejected_tables s) (st_unknown_tables s)
    (st_lapic_address s) (st_lapic_flags s) (st_local_apics s) (st_local_x2apics s) (st_ioapics s)
    (st_interrupt_overrides s) (st_nmi_sources s) (st_local_apic_nmis s) (st_mcfg_segments s)
    (st_srat_cpu_affinities s) (st_srat_memory_affinities s) (st_hpet_address s) (st_pm_timer_port s)
    (st_reset_register s) (st_reset_value s) (st_slit_localities s).
Definition set_uses_xsdt (v : Z) (s : acpi_status) : acpi_status :=
  Status (st_available s) (st_revision s) v (st_table_count s) (st_rejected_tables s) (st_unknown_tables s)
    (st_lapic_address s) (st_lapic_flags s) (st_local_apics s) (st_local_x2apics s) (st_ioapics s)
    (st_interrupt_overrides s) (st_nmi_sources s) (st_local_apic_nmis s) (st_mcfg_segments s)
    (st_srat_cpu_affinities s) (st_srat_memory_affinities s) (st_hpet_address s) (st_pm_timer_port s)
    (st_reset_register s) (st_reset_value s) (st_slit_localities s).
Definition set_table_count (v : Z) (s : acpi_status) : acpi_status :=
  Status (st_available s) (st_revision s) (st_uses_xsdt s) v (st_rejected_tables s) (st_unknown_tables s)
    (st_lapic_address s) (st_lapic_flags s) (st_local_apics s) (st_local_x2apics s) (st_ioapics s)
    (st_interrupt_overrides s) (st_nmi_sources s) (st_local_apic_nmis s) (st_mcfg_segments s)
    (st_srat_cpu_affinities s) (st_srat_memory_affinities s) (st_hpet_address s) (st_pm_timer_port s)
    (st_reset_register s) (st_reset_value s) (st_slit_localities s).
Definition set_rejected_tables (v : Z) (s : acpi_status) : acpi_status :=
  Status (st_available s) (st_revision s) (st_uses_xsdt s) (st_table_count s) v (st_unknown_tables s)
    (st_lapic_address s) (st_lapic_flags s) (st_local_apics s) (st_local_x2apics s) (st_ioapics s)
    (st_interrupt_overrides s) (st_nmi_sources s) (st_local_apic_nmis s) (st_mcfg_segments s)
    (st_srat_cpu_affinities s) (st_srat_memory_affinities s) (st_hpet_address s) (st_pm_timer_port s)
    (st_reset_register s) (st_reset_value s) (st_slit_localities s).
Definition set_unknown_tables (v : Z) (s : acpi_status) : acpi_status :=
  Status (st_available s) (st_revision s) (st_uses_xsdt s) (st_table_count s) (st_rejected_tables s) v
    (st_lapic_address s) (st_lapic_flags s) (st_local_apics s) (st_local_x2apics s) (st_ioapics s)
    (st_interrupt_overrides s) (st_nmi_sources s) (st_local_apic_nmis s) (st_mcfg_segments s)
    (st_srat_cpu_affinities s) (st_srat_memory_affinities s) (st_hpet_address s) (st_pm_timer_port s)
    (st_reset_register s) (st_reset_value s) (st_slit_localities s).
Definition set_lapic_address (v : Z) (s : acpi_status) : acpi_status :=
  Status (st_available s) (st_revision s) (st_uses_xsdt s) (st_table_count s) (st_rejected_tables s)
    (st_unknown_tables s) v (st_lapic_flags s) (st_local_apics s) (st_local_x2apics s) (st_ioapics s)
    (st_interrupt_overrides s) (st_nmi_sources s) (st_local_apic_nmis s) (st_mcfg_segments s)
    (st_srat_cpu_affinities s) (st_srat_memory_affinities s) (st_hpet_address s) (st_pm_timer_port s)
    (st_reset_register s) (st_reset_value s) (st_slit_localities s).
Definition set_lapic_flags (v : Z) (s : acpi_status) : acpi_status :=
  Status (st_available s) (st_revision s) (st_uses_xsdt s) (st_table_count s) (st_rejected_tables s)
    (st_unknown_tables s) (st_lapic_address s) v (st_local_apics s) (st_local_x2apics s) (st_ioapics s)
    (st_interrupt_overrides s) (st_nmi_sources s) (st_local_apic_nmis s) (st_mcfg_segments s)
    (st_srat_cpu_affinities s) (st_srat_memory_affinities s) (st_hpet_address s) (st_pm_timer_port s)
    (st_reset_register s) (st_reset_value s) (st_slit_localities s).
Definition set_local_apics (v : Z) (s : acpi_status) : acpi_status :=
  Status (st_available s) (st_revision s) (st_uses_xsdt s) (st_table_count s) (st_rejected_tables s)
    (st_unknown_tables s) (st_lapic_address s) (st_lapic_flags s) v (st_local_x2apics s) (st_ioapics s)
    (st_interrupt_overrides s) (st_nmi_sources s) (st_local_apic_nmis s) (st_mcfg_segments s)
    (st_srat_cpu_affinities s) (st_srat_memory_affinities s) (st_hpet_address s) (st_pm_timer_port s)
    (st_reset_register s) (st_reset_value s) (st_slit_localities s).
Definition set_local_x2apics (v : Z) (s : acpi_status) : acpi_status :=
  Status (st_available s) (st_revision s) (st_uses_xsdt s) (st_table_count s) (st_rejected_tables s)
    (st_unknown_tables s) (st_lapic_address s) (st_lapic_flags s) (st_local_apics s) v (st_ioapics s)
    (st_interrupt_overrides s) (st_nmi_sources s) (st_local_apic_nmis s) (st_mcfg_segments s)
    (st_srat_cpu_affinities s) (st_srat_memory_affinities s) (st_hpet_address s) (st_pm_timer_port s)
    (st_reset_register s) (st_reset_value s) (st_slit_localities s).
Definition set_ioapics (v : Z) (s : acpi_status) : acpi_status :=
  Status (st_available s) (st_revision s) (st_uses_xsdt s) (st_table_count s) (st_rejected_tables s)
    (st_unknown_tables s) (st_lapic_address s) (st_lapic_flags s) (st_local_apics s) (st_local_x2apics s) v
    (st_interrupt_overrides s) (st_nmi_sources s) (st_local_apic_nmis s) (st_mcfg_segments s)
    (st_srat_cpu_affinities s) (st_srat_memory_affinities s) (st_hpet_address s) (st_pm_timer_port s)
    (st_reset_register s) (st_reset_value s) (st_slit_localities s).
Definition set_interrupt_overrides (v : Z) (s : acpi_status) : acpi_status :=
  Status (st_available s) (st_revision s) (st_uses_xsdt s) (st_table_count s) (st_rejected_tables s)
    (st_unknown_tables s) (st_lapic_address s) (st_lapic_flags s) (st_local_apics s) (st_local_x2apics s)
    (st_ioapics s) v (st_nmi_sources s) (st_local_apic_nmis s) (st_mcfg_segments s) (st_srat_cpu_affinities s)
    (st_srat_memory_affinities s) (st_hpet_address s) (st_pm_timer_port s) (st_reset_register s) (st_reset_value
    s) (st_slit_localities s).
Definition set_nmi_sources (v : Z) (s : acpi_status) : acpi_status :=
  Status (st_available s) (st_revision s) (st_uses_xsdt s) (st_table_count s) (st_rejected_tables s)
    (st_unknown_tables s) (st_lapic_address s) (st_lapic_flags s) (st_local_apics s) (st_local_x2apics s)
    (st_ioapics s) (st_interrupt_overrides s) v (st_local_apic_nmis s) (st_mcfg_segments s)
    (st_srat_cpu_affinities s) (st_srat_memory_affinities s) (st_hpet_address s) (st_pm_timer_port s)
    (st_reset_register s) (st_reset_value s) (st_slit_localities s).
Definition set_local_apic_nmis (v : Z) (s : acpi_status) : acpi_status :=
  Status (st_available s) (st_revision s) (st_uses_xsdt s) (st_table_count s) (st_rejected_tables s)
    (st_unknown_tables s) (st_lapic_address s) (st_lapic_flags s) (st_local_apics s) (st_local_x2apics s)
    (st_ioapics s) (st_interrupt_overrides s) (st_nmi_sources s) v (st_mcfg_segments s) (st_srat_cpu_affinities s)
    (st_srat_memory_affinities s) (st_hpet_address s) (st_pm_timer_port s) (st_reset_register s) (st_reset_value
    s) (st_slit_localities s).
Definition set_mcfg_segments (v : Z) (s : acpi_status) : acpi_status :=
  Status (st_available s) (st_revision s) (st_uses_xsdt s) (st_table_count s) (st_rejected_tables s)
    (st_unknown_tables s) (st_lapic_address s) (st_lapic_flags s) (st_local_apics s) (st_local_x2apics s)
    (st_ioapics s) (st_interrupt_overrides s) (st_nmi_sources s) (st_local_apic_nmis s) v (st_srat_cpu_affinities
    s) (st_srat_memory_affinities s) (st_hpet_address s) (st_pm_timer_port s) (st_reset_register s)
    (st_reset_value s) (st_slit_localities s).
Definition set_srat_cpu_affinities (v : Z) (s : acpi_status) : acpi_status :=
  Status (st_available s) (st_revision s) (st_uses_xsdt s) (st_table_count s) (st_rejected_tables s)
    (st_unknown_tables s) (st_lapic_address s) (st_lapic_flags s) (st_local_apics s) (st_local_x2apics s)
    (st_ioapics s) (st_interrupt_overrides s) (st_nmi_sources s) (st_local_apic_nmis s) (st_mcfg_segments s) v
    (st_srat_memory_affinities s) (st_hpet_address s) (st_pm_timer_port s) (st_reset_register s) (st_reset_value
    s) (st_slit_localities s).
Definition set_srat_memory_affinities (v : Z) (s : acpi_status) : acpi_status :=
  Status (st_available s) (st_revision s) (st_uses_xsdt s) (st_table_count s) (st_rejected_tables s)
    (st_unknown_tables s) (st_lapic_address s) (st_lapic_flags s) (st_local_apics s) (st_local_x2apics s)
    (st_ioapics s) (st_interrupt_overrides s) (st_nmi_sources s) (st_local_apic_nmis s) (st_mcfg_segments s)
    (st_srat_cpu_affinities s) v (st_hpet_address s) (st_pm_timer_port s) (st_reset_register s) (st_reset_value s)
    (st_slit_localities s).
Definition set_hpet_address (v : Z) (s : acpi_status) : acpi_status :=
  Status (st_available s) (st_revision s) (st_uses_xsdt s) (st_table_count s) (st_rejected_tables s)
    (st_unknown_tables s) (st_lapic_address s) (st_lapic_flags s) (st_local_apics s) (st_local_x2apics s)
    (st_ioapics s) (st_interrupt_overrides s) (st_nmi_sources s) (st_local_apic_nmis s) (st_mcfg_segments s)
    (st_srat_cpu_affinities s) (st_srat_memory_affinities s) v (st_pm_timer_port s) (st_reset_register s)
    (st_reset_value s) (st_slit_localities s).
Definition set_pm_timer_port (v : Z) (s : acpi_status) : acpi_status :=
  Status (st_available s) (st_revision s) (st_uses_xsdt s) (st_table_count s) (st_rejected_tables s)
    (st_unknown_tables s) (st_lapic_address s) (st_lapic_flags s) (st_local_apics s) (st_local_x2apics s)
    (st_ioapics s) (st_interrupt_overrides s) (st_nmi_sources s) (st_local_apic_nmis s) (st_mcfg_segments s)
    (st_srat_cpu_affinities s) (st_srat_memory_affinities s) (st_hpet_address s) v (st_reset_register s)
    (st_reset_value s) (st_slit_localities s).
Definition set_reset_register (v : acpi_gas) (s : acpi_status) : acpi_status :=
  Status (st_available s) (st_revision s) (st_uses_xsdt s) (st_table_count s) (st_rejected_tables s)
    (st_unknown_tables s) (st_lapic_address s) (st_lapic_flags s) (st_local_apics s) (st_local_x2apics s)
    (st_ioapics s) (st_interrupt_overrides s) (st_nmi_sources s) (st_local_apic_nmis s) (st_mcfg_segments s)
    (st_srat_cpu_affinities s) (st_srat_memory_affinities s) (st_hpet_address s) (st_pm_timer_port s) v
    (st_reset_value s) (st_slit_localities s).
Definition set_reset_value (v : Z) (s : acpi_status) : acpi_status :=
  Status (st_available s) (st_revision s) (st_uses_xsdt s) (st_table_count s) (st_rejected_tables s)
    (st_unknown_tables s) (st_lapic_address s) (st_lapic_flags s) (st_local_apics s) (st_local_x2apics s)
    (st_ioapics s) (st_interrupt_overrides s) (st_nmi_sources s) (st_local_apic_nmis s) (st_mcfg_segments s)
    (st_srat_cpu_affinities s) (st_srat_memory_affinities s) (st_hpet_address s) (st_pm_timer_port s)
    (st_reset_register s) v (st_slit_localities s).
Definition set_slit_localities (v : Z) (s : acpi_status) : acpi_status :=
  Status (st_available s) (st_revision s) (st_uses_xsdt s) (st_table_count s) (st_rejected_tables s)
    (st_unknown_tables s) (st_lapic_address s) (st_lapic_flags s) (st_local_apics s) (st_local_x2apics s)
    (st_ioapics s) (st_interrupt_overrides s) (st_nmi_sources s) (st_local_apic_nmis s) (st_mcfg_segments s)
    (st_srat_cpu_affinities s) (st_srat_memory_affinities s) (st_hpet_address s) (st_pm_timer_port s)
    (st_reset_register s) (st_reset_value s) v.

Definition zero_status : acpi_status := Status 0 0 0 0 0 0 0 0 0 0 0 0 0 0 0 0 0 0 0 (Gas 0 0 0 0 0) 0 0.

(** An entry of the registry: both fields are the address of the table. *)
Record registry_entry := RegistryEntry { re_header : Z; re_address : Z }.

(** An array with the number of its elements in use. *)
Record stored (A : Type) := Stored { items : list A; number : Z }.
Arguments Stored {A} items number.
Arguments items {A} s.
Arguments number {A} s.

(** The statics of the file. *)
Record acpi := Acpi {
  registry : list registry_entry;
  cpus : stored acpi_cpu_info;
  ioapics : stored acpi_ioapic_info;
  overrides : stored acpi_interrupt_override;
  mcfg_segments : stored acpi_mcfg_segment;
  state : acpi_status;
}.

Definition with_state (a : acpi) (s : acpi_status) : acpi := Acpi (registry a) (cpus a) (ioapics a) (overrides a) (mcfg_segments a) s.
Definition with_cpus (a : acpi) (l : stored acpi_cpu_info) : acpi := Acpi (registry a) l (ioapics a) (overrides a) (mcfg_segments a) (state a).
Definition with_ioapics (a : acpi) (l : stored acpi_ioapic_info) : acpi := Acpi (registry a) (cpus a) l (overrides a) (mcfg_segments a) (state a).
Definition with_overrides (a : acpi) (l : stored acpi_interrupt_override) : acpi :=
  Acpi (registry a) (cpus a) (ioapics a) l (mcfg_segments a) (state a).
Definition with_mcfg (a : acpi) (l : stored acpi_mcfg_segment) : acpi := Acpi (registry a) (cpus a) (ioapics a) (overrides a) l (state a).

(** [state.field++] *)
Definition bump (get : acpi_status -> Z) (set : Z -> acpi_status -> acpi_status) (a : acpi) : acpi :=
  with_state a (set (u32 (get (state a) + 1)) (state a)).

(** [if (number < limit) { array[number] = x; number++; }], where the fields of
    [x] are read from memory *)
Definition store {A} (limit : Z) (x : option A) (s : stored A) : option (stored A) :=
  if number s <? limit then x ← x; l ← wr (items s) (number s) x; Some (Stored l (u32 (number s + 1))) else Some s.

(** ** Checksums, root pointer and table headers *)

Definition acpi_checksum_valid (data : option pointer) (length : Z) : option bool :=
  match data with
  | None => Some false
  | Some p => if length =? 0 then Some false else sum ← byte_sum p length; Some (sum =? 0)
  end.

Definition mapped_range (b : mvh_bootinfo_snapshot) (address length : Z) : bool :=
  let limit := if negb (b_flags b &&& MVH_BOOTINFO_FLAG_IDENTITY_4G =? 0) then 0x100000000 else MVH_BOOTINFO_IDENTITY_LIMIT in
  (0x1000 <=? address) && negb (length =? 0) && (address <? limit) && (length <=? limit - address).

(** The fields of the root pointer and of a table header. *)
Definition rsdp_revision (p : pointer) : option Z := p 15.
Definition rsdp_rsdt_address (p : pointer) : option Z := load32 p 16.
Definition rsdp_length (p : pointer) : option Z := load32 p 20.
Definition rsdp_xsdt_address (p : pointer) : option Z := load64 p 24.
Definition sdt_length (p : pointer) : option Z := load32 p 4.

Definition scan_step (m : pointer) (end_ address : Z) : option bool :=
  let candidate := plus m address in
  ok ← equal_text candidate 0 (chars "RSD PTR "%string);
  if negb ok then Some false else
  ok ← acpi_checksum_valid (Some candidate) RSDP_V1_SIZE;
  if negb ok then Some false else
  revision ← rsdp_revision candidate;
  if 2 <=? revision then
    length ← rsdp_length candidate;
    if (length <? RSDP_V2_SIZE) || (4096 <? length) || (end_ <? u64 (address + length)) then Some false
    else acpi_checksum_valid (Some candidate) length
  else Some true.

Definition scan_rsdp_range (m : pointer) (start end_ : Z) : option Z :=
  let start := u64 (start + 15) &&& compl 64 15 in
  while_loop (S (Z.to_nat ((end_ - start) / 16) + 1)) (fun address =>
    if u64 (address + RSDP_V1_SIZE) <=? end_ then
      found ← scan_step m end_ address;
      Some (if found : bool then inr address else inl (u64 (address + 16)))
    else Some (inr 0)) start.

Definition acpi_discover_rsdp (m : pointer) : option Z :=
  ebda_segment ← load16 m 0x40e;
  let ebda := u64 (ebda_segment << 4) in
  result ← (if (0x80000 <=? ebda) && (ebda <? 0xA0000) then scan_rsdp_range m ebda (u64 (ebda + 1024)) else Some 0);
  if result =? 0 then scan_rsdp_range m 0xE0000 0x100000 else Some result.

(** The status, and [*result] when it was given and has been written. *)
Definition acpi_validate_rsdp_blob (data : option pointer) (size : Z) (result : option acpi_rsdp_info)
  : option (option acpi_rsdp_info * Z) :=
  match data, result with
  | Some p, Some _ =>
    if size <? RSDP_V1_SIZE then Some (result, -1) else
    ok ← equal_text p 0 (chars "RSD PTR "%string);
    if negb ok then Some (result, -1) else
    ok ← acpi_checksum_valid data RSDP_V1_SIZE;
    if negb ok then Some (result, -1) else
    revision ← rsdp_revision p;
    b0 ← p 9; b1 ← p 10; b2 ← p 11; b3 ← p 12; b4 ← p 13; b5 ← p 14;
    let filled := fun root uses => Some (RsdpInfo revision root uses [b0; b1; b2; b3; b4; b5; 0]) in
    let finish := fun root uses => Some (filled root uses, if negb (root =? 0) then 0 else -1) in
    if 2 <=? revision then
      if size <? RSDP_V2_SIZE then Some (filled 0 0, -1) else
      length ← rsdp_length p;
      if (length <? RSDP_V2_SIZE) || (size <? length) then Some (filled 0 0, -1) else
      ok ← acpi_checksum_valid data length;
      if negb ok then Some (filled 0 0, -1) else
      xsdt ← rsdp_xsdt_address p;
      if negb (xsdt =? 0) then finish xsdt 1 else
      rsdt ← rsdp_rsdt_address p; finish rsdt 0
    else rsdt ← rsdp_rsdt_address p; finish rsdt 0
  | _, _ => Some (result, -1)
  end.

Definition acpi_validate_sdt_blob (data : option pointer) (available : Z) (signature : option (list Z)) : option Z :=
  match data with
  | None => Some (-1)
  | Some p =>
    if available <? SDT_HEADER_SIZE then Some (-1) else
    length ← sdt_length p;
    if (length <? SDT_HEADER_SIZE) || (available <? length) || (ACPI_MAX_TABLE_SIZE <? length) then Some (-1) else
    same ← (match signature with None => Some true | Some text => equal_text p 0 text end);
    if negb same then Some (-1) else
    ok ← acpi_checksum_valid data length;
    Some (if ok : bool then 0 else -1)
  end.

Definition known : list (list Z) :=
  map chars ["APIC"; "FACP"; "HPET"; "MCFG"; "SRAT"; "SLIT"; "DMAR"; "IVRS"; "SPCR"; "TPM2"]%string.

Definition known_signature (p : pointer) : option bool :=
  r ← for_break (length known) 0 (fun index u =>
        text ← rd known index; same ← equal_text p 0 text; Some (if same : bool then inr tt else inl u)) tt;
  Some (match r with inl _ => false | inr _ => true end).

(** ** Parsers *)

(** [(value & bit) != 0] *)
Definition flag (value bit : Z) : Z := Z.b2z (negb (value &&& bit =? 0)).

Definition local_apic (data : pointer) (offset : Z) : option acpi_cpu_info :=
  uid ← data (offset + 2); id ← data (offset + 3); flags ← data (offset + 4);
  Some (CpuInfo uid id (flag flags 1) (flag flags 2) 0).

Definition local_x2apic (data : pointer) (offset : Z) : option acpi_cpu_info :=
  id ← load32 data (offset + 4); flags ← data (offset + 8); uid ← load32 data (offset + 12);
  Some (CpuInfo uid id (flag flags 1) (flag flags 2) 1).

Definition io_apic (data : pointer) (offset : Z) : option acpi_ioapic_info :=
  id ← data (offset + 2); address ← load32 data (offset + 4); base ← load32 data (offset + 8);
  Some (IoapicInfo id address base).

Definition interrupt_override (data : pointer) (offset : Z) : option acpi_interrupt_override :=
  bus ← data (offset + 2); source ← data (offset + 3); global ← load32 data (offset + 4); flags ← load16 data (offset + 8);
  Some (Override bus source global flags).

(** One entry of the MADT. *)
Definition madt_entry (data : pointer) (offset type length : Z) (a : acpi) : option acpi :=
  if (type =? 0) && (8 <=? length) then
    let a := bump st_local_apics set_local_apics a in
    l ← store ACPI_MAX_CPUS (local_apic data offset) (cpus a); Some (with_cpus a l)
  else if (type =? 1) && (12 <=? length) then
    let a := bump st_ioapics set_ioapics a in
    l ← store ACPI_MAX_IOAPICS (io_apic data offset) (ioapics a); Some (with_ioapics a l)
  else if (type =? 2) && (10 <=? length) then
    let a := bump st_interrupt_overrides set_interrupt_overrides a in
    l ← store ACPI_MAX_OVERRIDES (interrupt_override data offset) (overrides a); Some (with_overrides a l)
  else if (type =? 3) && (8 <=? length) then Some (bump st_nmi_sources set_nmi_sources a)
  else if (type =? 4) && (6 <=? length) then Some (bump st_local_apic_nmis set_local_apic_nmis a)
  else if (type =? 5) && (12 <=? length) then
    address ← load64 data (offset + 4); Some (with_state a (set_lapic_address address (state a)))
  else if (type =? 9) && (16 <=? length) then
    let a := bump st_local_x2apics set_local_x2apics a in
    l ← store ACPI_MAX_CPUS (local_x2apic data offset) (cpus a); Some (with_cpus a l)
  else if (type =? 10) && (12 <=? length) then Some (bump st_local_apic_nmis set_local_apic_nmis a)
  else Some a.

(** The loop over entries that start with their type and length, of the MADT
    and the SRAT: [while (offset + 2 <= total) { ... offset += length; }] *)
Definition entries_step (data : pointer) (total : Z) (entry : Z -> Z -> Z -> acpi -> option acpi) (st : Z * acpi)
  : option (Z * acpi + acpi * Z) :=
  let '(offset, a) := st in
  if u32 (offset + 2) <=? total then
    type ← data offset; length ← data (offset + 1);
    if (length <? 2) || (total - offset <? length) then Some (inr (a, -1)) else
    a ← entry offset type length a;
    Some (inl (u32 (offset + length), a))
  else Some (inr (a, if offset =? total then 0 else -1)).

Definition parse_entries (data : pointer) (total : Z) (entry : Z -> Z -> Z -> acpi -> option acpi) (offset : Z) (a : acpi)
  : option (acpi * Z) :=
  while_loop (S (Z.to_nat total)) (entries_step data total entry) (offset, a).

Definition parse_madt (data : pointer) (a : acpi) : option (acpi * Z) :=
  total ← sdt_length data;
  if total <? 44 then Some (a, -1) else
  address ← load32 data 36; flags ← load32 data 40;
  parse_entries data total (madt_entry data) 44 (with_state a (set_lapic_flags flags (set_lapic_address address (state a)))).

Definition parse_fadt (data : pointer) (a : acpi) : option (acpi * Z) :=
  total ← sdt_length data;
  if total <? 80 then Some (a, -1) else
  port ← load32 data 76;
  let s := set_pm_timer_port port (state a) in
  if 129 <=? total then
    space ← data 116; width ← data 117; offset ← data 118; access ← data 119; address ← load64 data 120; value ← data 128;
    Some (with_state a (set_reset_value value (set_reset_register (Gas space width offset access address) s)), 0)
  else Some (with_state a s, 0).

Definition parse_hpet (data : pointer) (a : acpi) : option (acpi * Z) :=
  total ← sdt_length data;
  if total <? 56 then Some (a, -1) else
  address ← load64 data 44;
  space ← data 40;
  Some (with_state a (set_hpet_address address (state a)), if (space =? 0) && negb (address =? 0) then 0 else -1).

Definition mcfg_step (data : pointer) (total : Z) (st : Z * acpi) : option (Z * acpi + acpi * Z) :=
  let '(offset, a) := st in
  if offset <? total then
    base ← load64 data offset; segment ← load16 data (offset + 8); start_bus ← data (offset + 10); end_bus ← data (offset + 11);
    if (base =? 0) || negb (base &&& ((1 << 20) - 1) =? 0) || (end_bus <? start_bus) then Some (inr (a, -1)) else
    let a := bump st_mcfg_segments set_mcfg_segments a in
    l ← store ACPI_MAX_MCFG_SEGMENTS (Some (McfgSegment base segment start_bus end_bus)) (mcfg_segments a);
    Some (inl (u32 (offset + 16), with_mcfg a l))
  else Some (inr (a, 0)).

Definition parse_mcfg (data : pointer) (a : acpi) : option (acpi * Z) :=
  total ← sdt_length data;
  if (total <? 44) || negb ((total - 44) mod 16 =? 0) then Some (a, -1) else
  while_loop (S (Z.to_nat total)) (mcfg_step data total) (44, a).

Definition srat_entry (offset type length : Z) (a : acpi) : option acpi :=
  if ((type =? 0) && (16 <=? length)) || ((type =? 2) && (24 <=? length))
  then Some (bump st_srat_cpu_affinities set_srat_cpu_affinities a)
  else if (type =? 1) && (40 <=? length) then Some (bump st_srat_memory_affinities set_srat_memory_affinities a)
  else Some a.

Definition parse_srat (data : pointer) (a : acpi) : option (acpi * Z) :=
  total ← sdt_length data;
  if total <? 48 then Some (a, -1) else parse_entries data total srat_entry 48 a.

Definition parse_slit (data : pointer) (a : acpi) : option (acpi * Z) :=
  total ← sdt_length data;
  if total <? 44 then Some (a, -1) else
  count ← load64 data 36;
  if (count =? 0) || (4096 <? count) || (U64_MAX / count <? count) then Some (a, -1) else
  let matrix_size := u64 (count * count) in
  if negb (matrix_size =? u64 (total - 44)) then Some (a, -1) else
  Some (with_state a (set_slit_localities count (state a)), 0).

Definition parse_known (data : pointer) (a : acpi) : option (acpi * Z) :=
  same ← equal_text data 0 (chars "APIC"%string); if same : bool then parse_madt data a else
  same ← equal_text data 0 (chars "FACP"%string); if same : bool then parse_fadt data a else
  same ← equal_text data 0 (chars "HPET"%string); if same : bool then parse_hpet data a else
  same ← equal_text data 0 (chars "MCFG"%string); if same : bool then parse_mcfg data a else
  same ← equal_text data 0 (chars "SRAT"%string); if same : bool then parse_srat data a else
  same ← equal_text data 0 (chars "SLIT"%string); if same : bool then parse_slit data a else
  Some (a, 0).

(** ** The registry *)

(** What a failed parser leaves: only the arrays behind the counts keep what it
    stored. *)
Definition roll_back (before a : acpi) : acpi :=
  Acpi (registry a) (Stored (items (cpus a)) (number (cpus before))) (Stored (items (ioapics a)) (number (ioapics before)))
    (Stored (items (overrides a)) (number (overrides before))) (Stored (items (mcfg_segments a)) (number (mcfg_segments before)))
    (state before).

Definition register_table (m : pointer) (b : mvh_bootinfo_snapshot) (address : Z) (a : acpi) : option (acpi * Z) :=
  if negb (mapped_range b address SDT_HEADER_SIZE) then Some (a, -1) else
  let header := plus m address in
  length ← sdt_length header;
  if negb (mapped_range b address length) then Some (a, -1) else
  code ← acpi_validate_sdt_blob (Some header) length None;
  if negb (code =? 0) then Some (a, -1) else
  if ACPI_MAX_TABLES <=? st_table_count (state a) then Some (a, -1) else
  is_known ← known_signature header;
  '(a, code) ← (if is_known : bool then
                  '(a', code) ← parse_known header a;
                  Some (if negb (code =? 0) then (roll_back a a', -1) else (a', 0))
                else Some (bump st_unknown_tables set_unknown_tables a, 0));
  if negb (code =? 0) then Some (a, -1) else
  r ← wr (registry a) (st_table_count (state a)) (RegistryEntry address address);
  Some (bump st_table_count set_table_count (Acpi r (cpus a) (ioapics a) (overrides a) (mcfg_segments a) (state a)), 0).

Definition zero_stored {A} (n : Z) (x : A) : stored A := Stored (replicate (Z.to_nat n) x) 0.

Definition cleared : acpi :=
  Acpi (replicate (Z.to_nat ACPI_MAX_TABLES) (RegistryEntry 0 0)) (zero_stored ACPI_MAX_CPUS (CpuInfo 0 0 0 0 0))
    (zero_stored ACPI_MAX_IOAPICS (IoapicInfo 0 0 0)) (zero_stored ACPI_MAX_OVERRIDES (Override 0 0 0 0))
    (zero_stored ACPI_MAX_MCFG_SEGMENTS (McfgSegment 0 0 0 0)) zero_status.

(** One round at the label [retry_root]: the root table is accepted, or the
    RSDT is tried in place of the XSDT, or there is none ([None]). *)
Definition root_step (m : pointer) (b : mvh_bootinfo_snapshot) (rsdp : pointer) (info : acpi_rsdp_info)
  : option (acpi_rsdp_info + option acpi_rsdp_info) :=
  let retry :=
    if negb (ri_uses_xsdt info =? 0) then
      rsdt ← rsdp_rsdt_address rsdp;
      Some (if negb (rsdt =? 0) then inl (RsdpInfo (ri_revision info) rsdt 0 (ri_oem_id info)) else inr None)
    else Some (inr None) in
  if negb (mapped_range b (ri_root_address info) SDT_HEADER_SIZE) then retry else
  let root := plus m (ri_root_address info) in
  length ← sdt_length root;
  if negb (mapped_range b (ri_root_address info) length) then retry else
  code ← acpi_validate_sdt_blob (Some root) length (Some (chars (if negb (ri_uses_xsdt info =? 0) then "XSDT"%string else "RSDT"%string)));
  if negb (code =? 0) then retry else Some (inr (Some info)).

(** The loop over the entries of the root table. *)
Definition register_entry (m : pointer) (b : mvh_bootinfo_snapshot) (info : acpi_rsdp_info) (entry_size index : Z) (a : acpi) : option acpi :=
  let entry := plus m (ri_root_address info + SDT_HEADER_SIZE + u32 (index * entry_size)) in
  address ← (if negb (ri_uses_xsdt info =? 0) then load64 entry 0 else load32 entry 0);
  '(a, code) ← register_table m b address a;
  Some (if negb (code =? 0) then bump st_rejected_tables set_rejected_tables a else a).

(** Where the root table is, from the root pointer. *)
Definition acpi_root (m : pointer) (b : mvh_bootinfo_snapshot) (rsdp_address : Z) (info : acpi_rsdp_info) : option (option acpi_rsdp_info) :=
  if negb (mapped_range b rsdp_address RSDP_V1_SIZE) then Some None else
  let rsdp := plus m rsdp_address in
  revision ← rsdp_revision rsdp;
  rsdp_size ← (if 2 <=? revision then
                 if negb (mapped_range b rsdp_address RSDP_V2_SIZE) then Some None else
                 length ← rsdp_length rsdp;
                 Some (if (length <? RSDP_V2_SIZE) || (4096 <? length) || negb (mapped_range b rsdp_address length) then None else Some length)
               else Some (Some RSDP_V1_SIZE));
  match rsdp_size with
  | None => Some None
  | Some rsdp_size =>
    '(info, code) ← acpi_validate_rsdp_blob (Some rsdp) rsdp_size (Some info);
    if negb (code =? 0) then Some None else
    info ← info;
    while_loop 3 (root_step m b rsdp) info
  end.

(** [info] is what the local variable of that name holds before. *)
Definition acpi_init (m : pointer) (b : mvh_bootinfo_snapshot) (rsdp_address : Z) (info : acpi_rsdp_info) : option (acpi * Z) :=
  let a := cleared in
  root ← acpi_root m b rsdp_address info;
  match root with
  | None => Some (a, -1)
  | Some info =>
    let entry_size := if negb (ri_uses_xsdt info =? 0) then 8 else 4 in
    length ← sdt_length (plus m (ri_root_address info));
    if negb ((length - SDT_HEADER_SIZE) mod entry_size =? 0) then Some (a, -1) else
    let entry_count := (length - SDT_HEADER_SIZE) / entry_size in
    let a := with_state a (set_uses_xsdt (ri_uses_xsdt info) (set_revision (ri_revision info) (state a))) in
    a ← for_loop (Z.to_nat entry_count) 0 (register_entry m b info entry_size) a;
    Some (with_state a (set_available 1 (state a)), 0)
  end.

(** ** Queries *)

Definition acpi_table_count (a : acpi) : Z := st_table_count (state a).

Definition acpi_table_get (m : pointer) (a : acpi) (index : Z) (result : option acpi_table_info) : option (option acpi_table_info * Z) :=
  if bool_decide (result = None) || (st_table_count (state a) <=? index) then Some (result, -1) else
  e ← rd (registry a) index;
  let header := plus m (re_header e) in
  c0 ← header 0; c1 ← header 1; c2 ← header 2; c3 ← header 3; length ← sdt_length header; revision ← header 8;
  Some (Some (TableInfo [c0; c1; c2; c3; 0] length revision (re_address e)), 0).

(** The address of the table, 0 where there is none. *)
Definition acpi_find_table (m : pointer) (a : acpi) (signature : option (list Z)) (instance : Z) : option Z :=
  match signature with
  | None => Some 0
  | Some text =>
    r ← for_break (Z.to_nat (st_table_count (state a))) 0 (fun index instance =>
          e ← rd (registry a) index;
          same ← equal_text (plus m (re_header e)) 0 text;
          Some (if same : bool then if instance =? 0 then inr (re_header e) else inl (instance - 1) else inl instance)) instance;
    Some (match r with inl _ => 0 | inr header => header end)
  end.

(** [acpi_cpu_info] and the three functions like it. *)
Definition stored_info {A} (s : stored A) (index : Z) (result : option A) : option (option A * Z) :=
  match result with
  | None => Some (None, -1)
  | Some _ => if number s <=? index then Some (result, -1) else x ← rd (items s) index; Some (Some x, 0)
  end.
Definition acpi_cpu_count (a : acpi) : Z := number (cpus a).
Definition acpi_cpu_get (a : acpi) := stored_info (cpus a).
Definition acpi_ioapic_count (a : acpi) : Z := number (ioapics a).
Definition acpi_ioapic_get (a : acpi) := stored_info (ioapics a).
Definition acpi_interrupt_override_count (a : acpi) : Z := number (overrides a).
Definition acpi_interrupt_override_get (a : acpi) := stored_info (overrides a).
Definition acpi_mcfg_segment_count (a : acpi) : Z := number (mcfg_segments a).
Definition acpi_mcfg_segment_get (a : acpi) := stored_info (mcfg_segments a).

(** ** Self test *)

Definition set_checksum (data : list Z) (length checksum_offset : Z) : option (list Z) :=
  data ← wr data checksum_offset 0;
  sum ← byte_sum (rd data) length;
  wr data checksum_offset (u8 (0 - sum)).

Definition test_rsdp (revision rsdt length xsdt : Z) : list Z :=
  chars "RSD PTR "%string ++ replicate 7 0 ++ [revision] ++ le_bytes 4 rsdt ++ le_bytes 4 length ++ le_bytes 8 xsdt ++ replicate 4 0.
Definition test_sdt (length : Z) : list Z := chars "TEST"%string ++ le_bytes 4 length ++ replicate 28 0.

Definition acpi_self_test (info : acpi_rsdp_info) : option Z :=
  rsdp ← set_checksum (test_rsdp 2 0 RSDP_V2_SIZE 0x2000) RSDP_V1_SIZE 8;
  rsdp ← set_checksum rsdp RSDP_V2_SIZE 32;
  '(r, code) ← acpi_validate_rsdp_blob (Some (rd rsdp)) RSDP_V2_SIZE (Some info);
  info ← r;
  if negb (code =? 0) || (ri_uses_xsdt info =? 0) || negb (ri_root_address info =? 0x2000) then Some (-1) else
  b ← rd rsdp 9; rsdp ← wr rsdp 9 (u8 (b + 1));
  '(r, code) ← acpi_validate_rsdp_blob (Some (rd rsdp)) RSDP_V2_SIZE (Some info);
  info ← r;
  if code =? 0 then Some (-1) else
  rsdp ← set_checksum (test_rsdp 0 0x3000 0 0) RSDP_V1_SIZE 8;
  '(r, code) ← acpi_validate_rsdp_blob (Some (rd rsdp)) RSDP_V1_SIZE (Some info);
  info ← r;
  if negb (code =? 0) || negb (ri_uses_xsdt info =? 0) || negb (ri_root_address info =? 0x3000) then Some (-1) else
  sdt ← set_checksum (test_sdt SDT_HEADER_SIZE) SDT_HEADER_SIZE 9;
  code ← acpi_validate_sdt_blob (Some (rd sdt)) SDT_HEADER_SIZE (Some (chars "TEST"%string));
  if negb (code =? 0) then Some (-1) else
  b ← rd sdt 10; sdt ← wr sdt 10 (u8 (b + 1));
  code ← acpi_validate_sdt_blob (Some (rd sdt)) SDT_HEADER_SIZE (Some (chars "TEST"%string));
  if code =? 0 then Some (-1) else
  b ← rd sdt 10; sdt ← wr sdt 10 (u8 (b - 1));
  sdt ← put32 sdt 4 (SDT_HEADER_SIZE - 1);
  code ← acpi_validate_sdt_blob (Some (rd sdt)) SDT_HEADER_SIZE (Some (chars "TEST"%string));
  Some (if negb (code =? 0) then 0 else -1).

Lemma acpi_self_test_passes info : acpi_self_test info = Some 0.
Proof. by vm_compute. Qed.
