(* ===== verification/AcpiSpec.v ===== *)
(** * ACPI tables: what they say

    The hardware that a list of tables describes, as a function of the bytes of
    the tables: tables are cut into entries, every entry adds to unbounded lists
    and counts, and a table that is not well formed adds nothing. *)

From Stdlib Require Import String.
From S2P Require Import Prelude Buffer Firmware Bootinfo Acpi.

#[local] Open Scope Z_scope.

Record hardware := Hardware {
  h_tables : list Z; h_rejected : Z; h_unknown : Z;
  h_lapic_address : Z; h_lapic_flags : Z;
  h_cpus : list acpi_cpu_info; h_ioapics : list acpi_ioapic_info; h_overrides : list acpi_interrupt_override;
  h_nmis : Z; h_lapic_nmis : Z; h_segments : list acpi_mcfg_segment; h_srat_cpus : Z; h_srat_memory : Z;
  h_hpet : Z; h_pm_timer : Z; h_reset : acpi_gas; h_reset_value : Z; h_slit : Z;
}.

Definition no_hardware : hardware := Hardware [] 0 0 0 0 [] [] [] 0 0 [] 0 0 0 0 (Gas 0 0 0 0 0) 0 0.

(** Changes of one field. *)
Definition add_table (t : Z) (h : hardware) : hardware :=
  let '(Hardware ts rj un la lf cs io ov nm ln sg sc sm hp pt rs rv sl) := h in Hardware (ts ++ [t]) rj un la lf cs io ov nm ln sg sc sm hp pt rs rv sl.
Definition add_rejected (h : hardware) : hardware :=
  let '(Hardware ts rj un la lf cs io ov nm ln sg sc sm hp pt rs rv sl) := h in Hardware ts (rj + 1) un la lf cs io ov nm ln sg sc sm hp pt rs rv sl.
Definition add_unknown (h : hardware) : hardware :=
  let '(Hardware ts rj un la lf cs io ov nm ln sg sc sm hp pt rs rv sl) := h in Hardware ts rj (un + 1) la lf cs io ov nm ln sg sc sm hp pt rs rv sl.
Definition put_lapic (address : Z) (h : hardware) : hardware :=
  let '(Hardware ts rj un la lf cs io ov nm ln sg sc sm hp pt rs rv sl) := h in Hardware ts rj un address lf cs io ov nm ln sg sc sm hp pt rs rv sl.
Definition put_lapic_flags (flags : Z) (h : hardware) : hardware :=
  let '(Hardware ts rj un la lf cs io ov nm ln sg sc sm hp pt rs rv sl) := h in Hardware ts rj un la flags cs io ov nm ln sg sc sm hp pt rs rv sl.
Definition add_cpu (c : acpi_cpu_info) (h : hardware) : hardware :=
  let '(Hardware ts rj un la lf cs io ov nm ln sg sc sm hp pt rs rv sl) := h in Hardware ts rj un la lf (cs ++ [c]) io ov nm ln sg sc sm hp pt rs rv sl.
Definition add_ioapic (c : acpi_ioapic_info) (h : hardware) : hardware :=
  let '(Hardware ts rj un la lf cs io ov nm ln sg sc sm hp pt rs rv sl) := h in Hardware ts rj un la lf cs (io ++ [c]) ov nm ln sg sc sm hp pt rs rv sl.
Definition add_override (c : acpi_interrupt_override) (h : hardware) : hardware :=
  let '(Hardware ts rj un la lf cs io ov nm ln sg sc sm hp pt rs rv sl) := h in Hardware ts rj un la lf cs io (ov ++ [c]) nm ln sg sc sm hp pt rs rv sl.
Definition add_nmi (h : hardware) : hardware :=
  let '(Hardware ts rj un la lf cs io ov nm ln sg sc sm hp pt rs rv sl) := h in Hardware ts rj un la lf cs io ov (nm + 1) ln sg sc sm hp pt rs rv sl.
Definition add_lapic_nmi (h : hardware) : hardware :=
  let '(Hardware ts rj un la lf cs io ov nm ln sg sc sm hp pt rs rv sl) := h in Hardware ts rj un la lf cs io ov nm (ln + 1) sg sc sm hp pt rs rv sl.
Definition add_segment (c : acpi_mcfg_segment) (h : hardware) : hardware :=
  let '(Hardware ts rj un la lf cs io ov nm ln sg sc sm hp pt rs rv sl) := h in Hardware ts rj un la lf cs io ov nm ln (sg ++ [c]) sc sm hp pt rs rv sl.
Definition add_srat_cpu (h : hardware) : hardware :=
  let '(Hardware ts rj un la lf cs io ov nm ln sg sc sm hp pt rs rv sl) := h in Hardware ts rj un la lf cs io ov nm ln sg (sc + 1) sm hp pt rs rv sl.
Definition add_srat_memory (h : hardware) : hardware :=
  let '(Hardware ts rj un la lf cs io ov nm ln sg sc sm hp pt rs rv sl) := h in Hardware ts rj un la lf cs io ov nm ln sg sc (sm + 1) hp pt rs rv sl.
Definition put_hpet (address : Z) (h : hardware) : hardware :=
  let '(Hardware ts rj un la lf cs io ov nm ln sg sc sm hp pt rs rv sl) := h in Hardware ts rj un la lf cs io ov nm ln sg sc sm address pt rs rv sl.
Definition put_pm_timer (port : Z) (h : hardware) : hardware :=
  let '(Hardware ts rj un la lf cs io ov nm ln sg sc sm hp pt rs rv sl) := h in Hardware ts rj un la lf cs io ov nm ln sg sc sm hp port rs rv sl.
Definition put_reset (g : acpi_gas) (value : Z) (h : hardware) : hardware :=
  let '(Hardware ts rj un la lf cs io ov nm ln sg sc sm hp pt rs rv sl) := h in Hardware ts rj un la lf cs io ov nm ln sg sc sm hp pt g value sl.
Definition put_slit (n : Z) (h : hardware) : hardware :=
  let '(Hardware ts rj un la lf cs io ov nm ln sg sc sm hp pt rs rv sl) := h in Hardware ts rj un la lf cs io ov nm ln sg sc sm hp pt rs rv n.

(** ** Entries *)

(** Bytes cut into entries whose second byte is their length. *)
Inductive cut : list Z -> list (list Z) -> Prop :=
  | cut_nil : cut [] []
  | cut_cons e rest es : 2 <= size e -> byte e 1 = size e -> cut rest es -> cut (e ++ rest) (e :: es).

Definition cpu_of_local (e : list Z) : acpi_cpu_info := CpuInfo (byte e 2) (byte e 3) (flag (byte e 4) 1) (flag (byte e 4) 2) 0.
Definition cpu_of_x2apic (e : list Z) : acpi_cpu_info := CpuInfo (le e 12 4) (le e 4 4) (flag (byte e 8) 1) (flag (byte e 8) 2) 1.
Definition ioapic_of (e : list Z) : acpi_ioapic_info := IoapicInfo (byte e 2) (le e 4 4) (le e 8 4).
Definition override_of (e : list Z) : acpi_interrupt_override := Override (byte e 2) (byte e 3) (le e 4 4) (le e 8 2).

Definition madt_says (e : list Z) (h : hardware) : hardware :=
  let t := byte e 0 in
  if (t =? 0) && (8 <=? size e) then add_cpu (cpu_of_local e) h
  else if (t =? 1) && (12 <=? size e) then add_ioapic (ioapic_of e) h
  else if (t =? 2) && (10 <=? size e) then add_override (override_of e) h
  else if (t =? 3) && (8 <=? size e) then add_nmi h
  else if (t =? 4) && (6 <=? size e) then add_lapic_nmi h
  else if (t =? 5) && (12 <=? size e) then put_lapic (le e 4 8) h
  else if (t =? 9) && (16 <=? size e) then add_cpu (cpu_of_x2apic e) h
  else if (t =? 10) && (12 <=? size e) then add_lapic_nmi h
  else h.

Definition srat_says (e : list Z) (h : hardware) : hardware :=
  let t := byte e 0 in
  if ((t =? 0) && (16 <=? size e)) || ((t =? 2) && (24 <=? size e)) then add_srat_cpu h
  else if (t =? 1) && (40 <=? size e) then add_srat_memory h
  else h.

(** Entry after entry. *)
Definition all_say (says : list Z -> hardware -> hardware) (es : list (list Z)) (h : hardware) : hardware :=
  foldl (fun h e => says e h) h es.

(** The segments of an MCFG. *)
Definition segment_of (e : list Z) : acpi_mcfg_segment := McfgSegment (le e 0 8) (le e 8 2) (byte e 10) (byte e 11).
Definition segment_ok (e : list Z) : Prop := le e 0 8 <> 0 /\ le e 0 8 mod 2 ^ 20 = 0 /\ byte e 10 <= byte e 11.
Inductive segments : list Z -> list acpi_mcfg_segment -> Prop :=
  | segments_nil : segments [] []
  | segments_cons e rest l : size e = 16 -> segment_ok e -> segments rest l -> segments (e ++ rest) (segment_of e :: l).

(** ** Tables *)

Definition signature (l : list Z) : list Z := take 4 l.
Definition sig (s : String.string) : list Z := chars s.

(** [says l h h']: a well-formed table with the bytes [l] takes [h] to [h']. *)
Inductive says (l : list Z) (h : hardware) : hardware -> Prop :=
  | says_madt es : signature l = sig "APIC" -> 44 <= size l -> cut (drop 44 l) es ->
      says l h (all_say madt_says es (put_lapic_flags (le l 40 4) (put_lapic (le l 36 4) h)))
  | says_fadt : signature l = sig "FACP" -> 80 <= size l < 129 -> says l h (put_pm_timer (le l 76 4) h)
  | says_fadt_reset : signature l = sig "FACP" -> 129 <= size l ->
      says l h (put_reset (Gas (byte l 116) (byte l 117) (byte l 118) (byte l 119) (le l 120 8)) (byte l 128) (put_pm_timer (le l 76 4) h))
  | says_hpet : signature l = sig "HPET" -> 56 <= size l -> byte l 40 = 0 -> le l 44 8 <> 0 -> says l h (put_hpet (le l 44 8) h)
  | says_mcfg ss : signature l = sig "MCFG" -> 44 <= size l -> segments (drop 44 l) ss -> says l h (foldl (fun h s => add_segment s h) h ss)
  | says_srat es : signature l = sig "SRAT" -> 48 <= size l -> cut (drop 48 l) es -> says l h (all_say srat_says es h)
  | says_slit : signature l = sig "SLIT" -> 44 <= size l -> 0 < le l 36 8 <= 4096 -> le l 36 8 * le l 36 8 = size l - 44 ->
      says l h (put_slit (le l 36 8) h)
  | says_noted : signature l ∈ map sig ["DMAR"; "IVRS"; "SPCR"; "TPM2"]%string -> says l h h
  | says_unknown : signature l ∉ known -> says l h (add_unknown h).

(** No table changes the list of tables. *)
Lemma madt_says_tables e h : h_tables (madt_says e h) = h_tables h.
Proof. unfold madt_says. destruct h. by repeat destruct (_ && _). Qed.
Lemma srat_says_tables e h : h_tables (srat_says e h) = h_tables h.
Proof. unfold srat_says. destruct h. destruct (_ || _); [done|]. by destruct (_ && _). Qed.
Lemma all_say_tables f es h : (forall e h, h_tables (f e h) = h_tables h) -> h_tables (all_say f es h) = h_tables h.
Proof. intros Hf. revert h. induction es as [|e es IH]; intros h; [done|]. cbn. unfold all_say in IH. by rewrite IH, Hf. Qed.

Lemma says_tables l h h' : says l h h' -> length (h_tables h') = length (h_tables h).
Proof.
  intros Hs. f_equal. destruct Hs; try (by destruct h).
  - rewrite all_say_tables by apply madt_says_tables. by destruct h.
  - clear. revert h. induction ss as [|s ss IH]; intros h; [done|]. cbn. rewrite IH. by destruct h.
  - by rewrite all_say_tables by apply srat_says_tables.
Qed.

(** ** Registration *)

(** A table in memory: mapped, of a sensible length, with a valid checksum. *)
Record sdt (m : pointer) (limit address : Z) (l : list Z) : Prop := {
  sdt_contents : contents (plus m address) l;
  sdt_size : SDT_HEADER_SIZE <= size l <= ACPI_MAX_TABLE_SIZE;
  sdt_announced : le l 4 4 = size l;
  sdt_within : within limit address (size l);
  sdt_checksum : sum l mod 256 = 0;
}.

(** The table at an address is accepted. *)
Definition accepted (m : pointer) (limit address : Z) (h h' : hardware) : Prop :=
  (length (h_tables h) < 64)%nat /\ exists l h1, sdt m limit address l /\ says l h h1 /\ h' = add_table address h1.

(** The tables at a list of addresses, one after the other. *)
Inductive registers (m : pointer) (limit : Z) : hardware -> list Z -> hardware -> Prop :=
  | registers_nil h : registers m limit h [] h
  | registers_accept h t ts h' h'' : accepted m limit t h h' -> registers m limit h' ts h'' -> registers m limit h (t :: ts) h''
  | registers_reject h t ts h'' :
      (forall h', ~ accepted m limit t h h') -> registers m limit (add_rejected h) ts h'' -> registers m limit h (t :: ts) h''.

(** The root pointer at an address: version, addresses of RSDT and XSDT. *)
Record rsdp (m : pointer) (limit address : Z) (revision rsdt xsdt : Z) : Prop := {
  rsdp_bytes : exists l, contents (plus m address) l /\ within limit address (size l) /\ take 8 l = sig "RSD PTR " /\
    revision = byte l 15 /\ rsdt = le l 16 4 /\ sum (take 20 l) mod 256 = 0 /\
    (revision < 2 -> size l = 20 /\ xsdt = 0) /\
    (2 <= revision -> 36 <= size l <= 4096 /\ le l 20 4 = size l /\ xsdt = le l 24 8 /\ sum l mod 256 = 0);
}.

(** The tables that may be the root, best first, and the first that is one. *)
Definition candidates (rsdt xsdt : Z) : list (Z * Z) :=
  (if xsdt =? 0 then [] else [(xsdt, 1)]) ++ (if rsdt =? 0 then [] else [(rsdt, 0)]).
Definition is_root (m : pointer) (limit : Z) (c : Z * Z) (l : list Z) : Prop :=
  sdt m limit c.1 l /\ signature l = if c.2 =? 0 then sig "RSDT" else sig "XSDT".
Inductive root_of (m : pointer) (limit : Z) : list (Z * Z) -> Z * Z -> list Z -> Prop :=
  | root_here c cs l : is_root m limit c l -> root_of m limit (c :: cs) c l
  | root_later c cs c' l : (forall l', ~ is_root m limit c l') -> root_of m limit cs c' l -> root_of m limit (c :: cs) c' l.

(** The addresses in a root table. *)
Definition pointers (l : list Z) (width : Z) : list Z :=
  map (fun i => le l (SDT_HEADER_SIZE + Z.of_nat i * width) width) (seq 0 (Z.to_nat ((size l - SDT_HEADER_SIZE) / width))).

(** ** The state that stands for some hardware *)

(** An array that keeps the first [limit] elements of a list. *)
Record shows {A} (limit : Z) (s : stored A) (l : list A) : Prop := {
  shows_size : Z.of_nat (length (items s)) = limit;
  shows_number : number s = Z.min limit (Z.of_nat (length l));
  shows_items : take (Z.to_nat (number s)) (items s) = take (Z.to_nat limit) l;
}.

Definition kind_count (x2apic : Z) (l : list acpi_cpu_info) : Z := Z.of_nat (length (filter (fun c => cpu_x2apic c = x2apic) l)).

(** The status, where [f] is what the width of the counters does. *)
Definition status_of (f : Z -> Z) (available revision uses_xsdt : Z) (h : hardware) : acpi_status :=
  Status available revision uses_xsdt (Z.of_nat (length (h_tables h))) (f (h_rejected h)) (f (h_unknown h)) (h_lapic_address h) (h_lapic_flags h)
    (f (kind_count 0 (h_cpus h))) (f (kind_count 1 (h_cpus h))) (f (Z.of_nat (length (h_ioapics h)))) (f (Z.of_nat (length (h_overrides h))))
    (f (h_nmis h)) (f (h_lapic_nmis h)) (f (Z.of_nat (length (h_segments h)))) (f (h_srat_cpus h)) (f (h_srat_memory h))
    (h_hpet h) (h_pm_timer h) (h_reset h) (h_reset_value h) (h_slit h).

Record represents (f : Z -> Z) (a : acpi) (available revision uses_xsdt : Z) (h : hardware) : Prop := {
  rep_state : state a = status_of f available revision uses_xsdt h;
  rep_tables : (length (h_tables h) <= 64)%nat /\ length (registry a) = 64%nat /\
    take (length (h_tables h)) (registry a) = map (fun t => RegistryEntry t t) (h_tables h);
  rep_cpus : shows ACPI_MAX_CPUS (cpus a) (h_cpus h);
  rep_ioapics : shows ACPI_MAX_IOAPICS (ioapics a) (h_ioapics h);
  rep_overrides : shows ACPI_MAX_OVERRIDES (overrides a) (h_overrides h);
  rep_segments : shows ACPI_MAX_MCFG_SEGMENTS (mcfg_segments a) (h_segments h);
}.
