(* ===== verification/AcpiCorrect.v ===== *)
(** * ACPI tables: correctness

    The parsers of Acpi.v compute what AcpiSpec.v says the tables mean, on any
    memory, without a fault; a table that is rejected leaves nothing behind. *)

From Stdlib Require Import String.
From S2P Require Import Prelude Buffer Firmware Bootinfo Acpi AcpiSpec.

#[local] Open Scope Z_scope.

(** The memory that the boot code has mapped. *)
Definition limit_of (b : mvh_bootinfo_snapshot) : Z :=
  if negb (b_flags b &&& MVH_BOOTINFO_FLAG_IDENTITY_4G =? 0) then 0x100000000 else MVH_BOOTINFO_IDENTITY_LIMIT.

Lemma limit_of_bound b : limit_of b <= 2 ^ 32.
Proof. unfold limit_of. by destruct (negb _). Qed.

Lemma mapped_range_spec b address length : 0 <= length -> mapped_range b address length = true <-> within (limit_of b) address length.
Proof.
  intros Hl. unfold mapped_range, within. fold (limit_of b). rewrite !andb_true_iff, negb_true_iff, Z.eqb_neq, !Z.leb_le, Z.ltb_lt. lia.
Qed.

Lemma checksum_spec p l n :
  contents p l -> 0 < n <= size l -> acpi_checksum_valid (Some p) n = Some (bool_decide (sum (take (Z.to_nat n) l) mod 256 = 0)).
Proof.
  intros Hp Hn. unfold acpi_checksum_valid. rewrite (proj2 (Z.eqb_neq n 0)) by lia. rewrite (byte_sum_spec p l Hp), bind_some by lia.
  f_equal. apply eq_true_iff_eq. by rewrite Z.eqb_eq, bool_decide_eq_true.
Qed.

Section tables.
Context (m : pointer) (b : mvh_bootinfo_snapshot) (Hm : identity_mapped m (limit_of b)).

Lemma header_length address :
  mapped_range b address SDT_HEADER_SIZE = true ->
  exists n, sdt_length (plus m address) = Some n /\ fits 32 n /\ forall l, sdt m (limit_of b) address l -> size l = n.
Proof using Hm.
  intros Hr%mapped_range_spec; [|done]. pose proof (within_readable m _ _ _ Hm Hr) as Hp.
  destruct (load32_ok _ _ Hp 4) as (n & E & F); [lia|done|]. exists n. split; [done|]. split; [done|].
  intros l [Hc Hs Ha _ _]. unfold SDT_HEADER_SIZE in *. rewrite (value_32 _ l Hc) in E by lia. injection E as <-. done.
Qed.

Lemma not_mapped address n l :
  mapped_range b address n = false -> sdt m (limit_of b) address l -> n = SDT_HEADER_SIZE \/ n = size l -> False.
Proof using.
  intros E [_ Hs _ Hw _] Hn. apply not_true_iff_false in E. destruct E. unfold SDT_HEADER_SIZE in *.
  apply mapped_range_spec; [lia|]. unfold within in *. lia.
Qed.

Lemma validate_sdt_spec address n text :
  mapped_range b address SDT_HEADER_SIZE = true -> sdt_length (plus m address) = Some n -> mapped_range b address n = true ->
  match text with Some t => length t = 4%nat | None => True end ->
  exists code, acpi_validate_sdt_blob (Some (plus m address)) n text = Some code /\
    ((code = 0 /\ exists l, sdt m (limit_of b) address l /\ match text with Some t => signature l = t | None => True end) \/
     (code = -1 /\ forall l, sdt m (limit_of b) address l -> match text with Some t => signature l <> t | None => False end)).
Proof using Hm.
  intros Hr En Hn Ht. destruct (header_length address Hr) as (n' & En' & F & Hsize). rewrite En in En'. injection En' as <-. unfold fits in F.
  apply mapped_range_spec in Hn; [|lia]. unfold acpi_validate_sdt_blob. unfold SDT_HEADER_SIZE, ACPI_MAX_TABLE_SIZE in *.
  assert (Hno : (forall l, sdt m (limit_of b) address l -> match text with Some t => signature l <> t | None => False end) ->
    exists code, Some (-1) = Some code /\
    ((code = 0 /\ exists l, sdt m (limit_of b) address l /\ match text with Some t => signature l = t | None => True end) \/
     (code = -1 /\ forall l, sdt m (limit_of b) address l -> match text with Some t => signature l <> t | None => False end)))
    by (intros; exists (-1); split; [done|]; by right).
  assert (Hbad : n < 36 \/ 1024 * 1024 < n -> forall l, sdt m (limit_of b) address l -> False).
  { intros Hb l Hl. pose proof (Hsize l Hl). destruct Hl as [_ Hs _ _ _]. unfold SDT_HEADER_SIZE, ACPI_MAX_TABLE_SIZE in Hs. lia. }
  destruct (Z.ltb_spec n 36); [apply Hno; intros l Hl; destruct (Hbad ltac:(lia) l Hl)|]. rewrite En, bind_some.
  rewrite (proj2 (Z.ltb_ge n 36)), (proj2 (Z.ltb_ge n n)) by lia. cbn [orb].
  destruct (Z.ltb_spec (1024 * 1024) n); [apply Hno; intros l Hl; destruct (Hbad ltac:(lia) l Hl)|]. clear Hbad.
  destruct (readable_contents (plus m address) n) as (l & Hl & Hlen); [lia|by apply (within_readable m _ _ _ Hm)|]. fold (size l) in Hlen.
  assert (Huniq : forall l', sdt m (limit_of b) address l' -> l' = l).
  { intros l' Hl'. pose proof (Hsize l' Hl'). destruct Hl' as [Hc _ _ _ _]. apply (contents_unique _ _ _ Hc Hl). lia. }
  assert (Hann : le l 4 4 = size l) by (unfold sdt_length in En; rewrite (value_32 _ l Hl) in En by lia; injection En; lia).
  assert ((match text with None => Some true | Some t => equal_text (plus m address) 0 t end) =
    Some (match text with None => true | Some t => bool_decide (signature l = t) end)) as ->.
  { destruct text as [t|]; [|done]. rewrite (equal_text_spec _ l Hl) by lia. by rewrite Ht. }
  rewrite bind_some.
  assert (Hsig : match text with None => true | Some t => bool_decide (signature l = t) end = true <-> match text with Some t => signature l = t | None => True end)
    by (destruct text; [apply bool_decide_eq_true|done]).
  destruct (match text with None => true | Some t => bool_decide (signature l = t) end) eqn:Es; cbn [negb].
  2:{ apply Hno. intros l' ->%Huniq. destruct text; [|done]. by apply bool_decide_eq_false in Es. }
  rewrite (checksum_spec _ l) by (done || lia). rewrite bind_some, take_ge by (unfold size in Hlen; lia). case_bool_decide as Hsum.
  - exists 0. split; [done|]. left. split; [done|]. exists l. split; [|by apply Hsig]. constructor; [done| |done|by rewrite Hlen|done].
    unfold SDT_HEADER_SIZE, ACPI_MAX_TABLE_SIZE. lia.
  - apply Hno. intros l' Hl'. destruct Hsum. rewrite <- (Huniq l' Hl'). apply Hl'.
Qed.

End tables.

(** ** Arrays and counters *)

(** What was stored stays. *)
Record keeps_items {A} (s s' : stored A) : Prop := {
  keeps_length : length (items s') = length (items s);
  keeps_number : number s <= number s';
  keeps_prefix : take (Z.to_nat (number s)) (items s') = take (Z.to_nat (number s)) (items s);
}.

#[global] Instance keeps_items_preorder A : PreOrder (@keeps_items A).
Proof.
  split; [done|]. intros s1 s2 s3 [L1 N1 P1] [L2 N2 P2]. split; [congruence|lia|].
  rewrite <- P1. apply (f_equal (take (Z.to_nat (number s1)))) in P2. by rewrite !take_take, !Nat.min_l in P2 by lia.
Qed.

Record kept (a a' : acpi) : Prop := {
  kept_registry : registry a' = registry a;
  kept_cpus : keeps_items (cpus a) (cpus a');
  kept_ioapics : keeps_items (ioapics a) (ioapics a');
  kept_overrides : keeps_items (overrides a) (overrides a');
  kept_segments : keeps_items (mcfg_segments a) (mcfg_segments a');
}.

#[global] Instance kept_preorder : PreOrder kept.
Proof.
  split; [by intros a; split|]. intros a1 a2 a3 [] []. split; [congruence|..]; by etrans.
Qed.

Lemma store_spec {A} limit (v : A) s l :
  shows limit s l -> limit < 2 ^ 32 -> exists s', store limit (Some v) s = Some s' /\ shows limit s' (l ++ [v]) /\ keeps_items s s'.
Proof.
  intros [Hs Hn Hi] Hl. unfold store. destruct (Z.ltb_spec (number s) limit).
  - rewrite bind_some, wr_ok, bind_some by lia. rewrite u32_small by (unfold fits; lia). eexists. split; [done|].
    assert (number s = Z.of_nat (length l)) as En by lia. rewrite En, Nat2Z.id in *. rewrite (take_ge l) in Hi by lia. split; constructor; cbn.
    + by rewrite length_insert.
    + rewrite length_app. simpl. lia.
    + replace (Z.to_nat (Z.of_nat (length l) + 1)) with (S (length l)) by lia.
      rewrite (take_S_r _ _ v) by (apply list_lookup_insert_eq; lia). rewrite take_insert_ge, Hi by lia. by rewrite take_ge by (rewrite length_app; simpl; lia).
    + by rewrite length_insert.
    + lia.
    + rewrite En, Nat2Z.id. by rewrite take_insert_ge by lia.
  - exists s. split; [done|]. split; [|done]. constructor; [done|rewrite length_app; simpl; lia|].
    rewrite Hi. by rewrite take_app_le by lia.
Qed.

Lemma shows_back {A} limit (s s' : stored A) l : shows limit s l -> keeps_items s s' -> shows limit (Stored (items s') (number s)) l.
Proof. intros [] []. constructor; cbn; congruence. Qed.

Lemma roll_back_represents f a a' av rev x h : represents f a av rev x h -> kept a a' -> represents f (roll_back a a') av rev x h.
Proof.
  intros [] []. constructor; cbn; [done|by rewrite kept_registry0|..]; by apply shows_back.
Qed.

Lemma u32_succ n : u32 (u32 n + 1) = u32 (n + 1).
Proof. unfold u32. apply Zplus_mod_idemp_l. Qed.

Lemma kind_count_app k l c : kind_count k (l ++ [c]) = kind_count k l + (if decide (cpu_x2apic c = k) then 1 else 0).
Proof.
  unfold kind_count. rewrite filter_app, length_app. rewrite filter_cons. destruct (decide _); rewrite filter_nil; simpl; lia.
Qed.

(** ** One change *)

(** A change of the status alone. *)
Lemma represents_state f a av rev x h av' rev' x' h' s :
  represents f a av rev x h -> s = status_of f av' rev' x' h' -> h_tables h' = h_tables h -> h_cpus h' = h_cpus h ->
  h_ioapics h' = h_ioapics h -> h_overrides h' = h_overrides h -> h_segments h' = h_segments h -> represents f (with_state a s) av' rev' x' h'.
Proof. intros [] Es Et Ec Ei Eo Eg. constructor; cbn; rewrite ?Et, ?Ec, ?Ei, ?Eo, ?Eg; done. Qed.

Lemma kept_state a s : kept a (with_state a s).
Proof. by split. Qed.

Section changes.
Context (a : acpi) (av rev x : Z) (h : hardware) (Ha : represents u32 a av rev x h).

Ltac one_field := destruct h; (apply (represents_state u32 a av rev x _ _ _ _ _ _ Ha); [|done..]); rewrite ?(rep_state _ _ _ _ _ _ Ha); unfold status_of; cbn; rewrite ?u32_succ; done.

Lemma rep_lapic v : represents u32 (with_state a (set_lapic_address v (state a))) av rev x (put_lapic v h).
Proof using Ha. one_field. Qed.
Lemma rep_lapic_flags v : represents u32 (with_state a (set_lapic_flags v (state a))) av rev x (put_lapic_flags v h).
Proof using Ha. one_field. Qed.
Lemma rep_nmi : represents u32 (bump st_nmi_sources set_nmi_sources a) av rev x (add_nmi h).
Proof using Ha. one_field. Qed.
Lemma rep_lapic_nmi : represents u32 (bump st_local_apic_nmis set_local_apic_nmis a) av rev x (add_lapic_nmi h).
Proof using Ha. one_field. Qed.
Lemma rep_srat_cpu : represents u32 (bump st_srat_cpu_affinities set_srat_cpu_affinities a) av rev x (add_srat_cpu h).
Proof using Ha. one_field. Qed.
Lemma rep_srat_memory : represents u32 (bump st_srat_memory_affinities set_srat_memory_affinities a) av rev x (add_srat_memory h).
Proof using Ha. one_field. Qed.
Lemma rep_unknown : represents u32 (bump st_unknown_tables set_unknown_tables a) av rev x (add_unknown h).
Proof using Ha. one_field. Qed.
Lemma rep_rejected : represents u32 (bump st_rejected_tables set_rejected_tables a) av rev x (add_rejected h).
Proof using Ha. one_field. Qed.
Lemma rep_pm_timer v : represents u32 (with_state a (set_pm_timer_port v (state a))) av rev x (put_pm_timer v h).
Proof using Ha. one_field. Qed.
Lemma rep_reset g v : represents u32 (with_state a (set_reset_value v (set_reset_register g (state a)))) av rev x (put_reset g v h).
Proof using Ha. one_field. Qed.
Lemma rep_hpet v : represents u32 (with_state a (set_hpet_address v (state a))) av rev x (put_hpet v h).
Proof using Ha. one_field. Qed.
Lemma rep_slit v : represents u32 (with_state a (set_slit_localities v (state a))) av rev x (put_slit v h).
Proof using Ha. one_field. Qed.

Lemma rep_local_apic c :
  cpu_x2apic c = 0 -> exists l, store ACPI_MAX_CPUS (Some c) (cpus a) = Some l /\
    represents u32 (with_cpus (bump st_local_apics set_local_apics a) l) av rev x (add_cpu c h) /\ kept a (with_cpus (bump st_local_apics set_local_apics a) l).
Proof using Ha.
  intros Ec. destruct (store_spec ACPI_MAX_CPUS c _ _ (rep_cpus _ _ _ _ _ _ Ha)) as (l & E & Hs & Hk); [done|]. exists l. split; [done|]. split; [|by split].
  destruct h, Ha as [Es]. constructor; cbn in *; try done. rewrite Es. unfold status_of. cbn. by rewrite u32_succ, !kind_count_app, Ec, decide_True, decide_False, Z.add_0_r.
Qed.

Lemma rep_x2apic c :
  cpu_x2apic c = 1 -> exists l, store ACPI_MAX_CPUS (Some c) (cpus a) = Some l /\
    represents u32 (with_cpus (bump st_local_x2apics set_local_x2apics a) l) av rev x (add_cpu c h) /\ kept a (with_cpus (bump st_local_x2apics set_local_x2apics a) l).
Proof using Ha.
  intros Ec. destruct (store_spec ACPI_MAX_CPUS c _ _ (rep_cpus _ _ _ _ _ _ Ha)) as (l & E & Hs & Hk); [done|]. exists l. split; [done|]. split; [|by split].
  destruct h, Ha as [Es]. constructor; cbn in *; try done. rewrite Es. unfold status_of. cbn. by rewrite u32_succ, !kind_count_app, Ec, decide_False, decide_True, Z.add_0_r.
Qed.

Lemma rep_ioapic c :
  exists l, store ACPI_MAX_IOAPICS (Some c) (ioapics a) = Some l /\
    represents u32 (with_ioapics (bump st_ioapics set_ioapics a) l) av rev x (add_ioapic c h) /\ kept a (with_ioapics (bump st_ioapics set_ioapics a) l).
Proof using Ha.
  destruct (store_spec ACPI_MAX_IOAPICS c _ _ (rep_ioapics _ _ _ _ _ _ Ha)) as (l & E & Hs & Hk); [done|]. exists l. split; [done|]. split; [|by split].
  destruct h, Ha as [Es]. constructor; cbn in *; try done. rewrite Es. unfold status_of. cbn. by rewrite u32_succ, length_app, Nat2Z.inj_add.
Qed.

Lemma rep_override c :
  exists l, store ACPI_MAX_OVERRIDES (Some c) (overrides a) = Some l /\
    represents u32 (with_overrides (bump st_interrupt_overrides set_interrupt_overrides a) l) av rev x (add_override c h) /\
    kept a (with_overrides (bump st_interrupt_overrides set_interrupt_overrides a) l).
Proof using Ha.
  destruct (store_spec ACPI_MAX_OVERRIDES c _ _ (rep_overrides _ _ _ _ _ _ Ha)) as (l & E & Hs & Hk); [done|]. exists l. split; [done|]. split; [|by split].
  destruct h, Ha as [Es]. constructor; cbn in *; try done. rewrite Es. unfold status_of. cbn. by rewrite u32_succ, length_app, Nat2Z.inj_add.
Qed.

Lemma rep_segment c :
  exists l, store ACPI_MAX_MCFG_SEGMENTS (Some c) (mcfg_segments a) = Some l /\
    represents u32 (with_mcfg (bump st_mcfg_segments set_mcfg_segments a) l) av rev x (add_segment c h) /\
    kept a (with_mcfg (bump st_mcfg_segments set_mcfg_segments a) l).
Proof using Ha.
  destruct (store_spec ACPI_MAX_MCFG_SEGMENTS c _ _ (rep_segments _ _ _ _ _ _ Ha)) as (l & E & Hs & Hk); [done|]. exists l. split; [done|]. split; [|by split].
  destruct h, Ha as [Es]. constructor; cbn in *; try done. rewrite Es. unfold status_of. cbn. by rewrite u32_succ, length_app, Nat2Z.inj_add.
Qed.

End changes.

(** ** Entries *)

Lemma cut_inv l o es :
  cut (drop (Z.to_nat o) l) es -> 0 <= o < size l ->
  o + 2 <= size l /\ 2 <= byte l (o + 1) <= size l - o /\
  exists es', es = slice l o (byte l (o + 1)) :: es' /\ cut (drop (Z.to_nat (o + byte l (o + 1))) l) es'.
Proof.
  intros Hc Ho. unfold size in *. inversion Hc as [E|e rest es' H2 He Hrest E]; subst.
  { apply (f_equal length) in E. rewrite length_drop in E. simpl in E. lia. }
  pose proof (f_equal length E) as El. rewrite length_app, length_drop in El. unfold size in *.
  assert (byte l (o + 1) = Z.of_nat (length e)) as Eb.
  { rewrite <- He. unfold byte. f_equal. transitivity (rd (drop (Z.to_nat o) l) 1).
    - unfold rd. rewrite !(proj2 (Z.ltb_ge _ _)) by lia. rewrite lookup_drop. f_equal. lia.
    - rewrite <- E. rewrite rd_app. by rewrite (proj2 (Z.ltb_lt _ _)) by lia. }
  rewrite Eb. split; [lia|]. split; [lia|]. exists es'. split.
  - f_equal. unfold slice. rewrite Nat2Z.id, <- E. by rewrite take_app_length.
  - replace (Z.to_nat (o + Z.of_nat (length e))) with (Z.to_nat o + length e)%nat by lia. rewrite <- drop_drop, <- E. by rewrite drop_app_length.
Qed.

Lemma cut_step l o es :
  0 <= o -> o + 2 <= size l -> 2 <= byte l (o + 1) <= size l - o -> cut (drop (Z.to_nat (o + byte l (o + 1))) l) es ->
  cut (drop (Z.to_nat o) l) (slice l o (byte l (o + 1)) :: es).
Proof.
  intros Ho H2 Hn Hc. rewrite (drop_slice l o (byte l (o + 1))) by lia.
  apply cut_cons; [rewrite size_slice by lia; lia| |done]. rewrite size_slice, byte_slice by lia. done.
Qed.

Lemma entries_step_eq data total entry offset a :
  entries_step data total entry (offset, a) =
    if u32 (offset + 2) <=? total then
      type ← data offset; length ← data (offset + 1);
      if (length <? 2) || (total - offset <? length) then Some (inr (a, -1)) else
      a ← entry offset type length a; Some (inl (u32 (offset + length), a))
    else Some (inr (a, if offset =? total then 0 else -1)).
Proof. done. Qed.

Section entries.
Context (data : pointer) (l : list Z) (Hl : contents data l) (Hsize : size l <= ACPI_MAX_TABLE_SIZE).
Context (entry : Z -> Z -> Z -> acpi -> option acpi) (says_entry : list Z -> hardware -> hardware).

(** The code for an entry does what the entry says. *)
Definition entry_ok : Prop := forall o n a av rev x h,
  represents u32 a av rev x h -> 0 <= o -> 2 <= n -> o + n <= size l ->
  exists a', entry o (byte (slice l o n) 0) n a = Some a' /\ represents u32 a' av rev x (says_entry (slice l o n) h) /\ kept a a'.

Lemma parse_entries_spec : entry_ok -> forall o a av rev x h, represents u32 a av rev x h -> 0 <= o <= size l ->
  exists a' code, parse_entries data (size l) entry o a = Some (a', code) /\ kept a a' /\
    ((code = 0 /\ exists es, cut (drop (Z.to_nat o) l) es /\ represents u32 a' av rev x (all_say says_entry es h)) \/
     (code = -1 /\ forall es, ~ cut (drop (Z.to_nat o) l) es)).
Proof using Hl Hsize.
  intros Hentry. unfold parse_entries, ACPI_MAX_TABLE_SIZE in *.
  assert (Hgen : forall fuel o a av rev x h, represents u32 a av rev x h -> 0 <= o <= size l -> size l - o < Z.of_nat fuel ->
    exists a' code, while_loop fuel (entries_step data (size l) entry) (o, a) = Some (a', code) /\ kept a a' /\
    ((code = 0 /\ exists es, cut (drop (Z.to_nat o) l) es /\ represents u32 a' av rev x (all_say says_entry es h)) \/
     (code = -1 /\ forall es, ~ cut (drop (Z.to_nat o) l) es))).
  2:{ intros o a av rev x h Ha Ho. apply Hgen; [done|done|]. lia. }
  induction fuel as [|fuel IH]; intros o a av rev x h Ha Ho Hf; [lia|]. rewrite while_loop_S, entries_step_eq.
  rewrite u32_small by (unfold fits; change (2 ^ 32) with 4294967296; lia). destruct (Z.leb_spec (o + 2) (size l)) as [H2|H2].
  - rewrite !(value_8 _ l Hl), !bind_some by lia. pose proof (fits_byte l (o + 1) (proj1 Hl)) as Fn. unfold fits in Fn. change (2 ^ 8) with 256 in Fn.
    set (n := byte l (o + 1)) in *. destruct ((n <? 2) || (size l - o <? n)) eqn:Ec.
    + rewrite bind_some. exists a, (-1). split; [done|]. split; [done|]. right. split; [done|]. intros es (_ & Hn & _)%cut_inv; [|lia]. fold n in Hn.
      apply orb_true_iff in Ec. rewrite !Z.ltb_lt in Ec. lia.
    + apply orb_false_iff in Ec. rewrite !Z.ltb_ge in Ec. destruct (Hentry o n a av rev x h Ha) as (a1 & E1 & Ha1 & Hk1); [lia..|].
      rewrite byte_slice, Z.add_0_r in E1 by lia. rewrite E1, !bind_some. rewrite u32_small by (unfold fits; change (2 ^ 32) with 4294967296; lia).
      destruct (IH (o + n) a1 av rev x _ Ha1) as (a' & code & E & Hk & Hcase); [lia..|]. exists a', code. split; [done|]. split; [by trans a1|].
      destruct Hcase as [(-> & es & Hc & Hr)|(-> & Hno)].
      * left. split; [done|]. exists (slice l o n :: es). split; [by apply cut_step; [lia..|fold n; lia|]|done].
      * right. split; [done|]. intros es (_ & _ & es' & _ & Hc)%cut_inv; [|lia]. by destruct (Hno es').
  - rewrite bind_some. destruct (Z.eqb_spec o (size l)) as [->|Hne].
    + exists a, 0. split; [done|]. split; [done|]. left. split; [done|]. exists []. split; [|done].
      rewrite drop_ge by (unfold size; lia). constructor.
    + exists a, (-1). split; [done|]. split; [done|]. right. split; [done|]. intros es (Hc & _)%cut_inv; lia.
Qed.

End entries.

(** ** Parsers *)

Lemma segments_size bytes ss : segments bytes ss -> size bytes mod 16 = 0.
Proof.
  induction 1 as [|e rest ss He _ _ IH]; [done|]. unfold size in *. rewrite length_app, Nat2Z.inj_add, He.
  replace (16 + Z.of_nat (length rest)) with (Z.of_nat (length rest) + 1 * 16) by lia. by rewrite Z.mod_add.
Qed.

Section parsers.
Context (data : pointer) (l : list Z) (Hl : contents data l) (Hsize : SDT_HEADER_SIZE <= size l <= ACPI_MAX_TABLE_SIZE) (Hann : le l 4 4 = size l).

Lemma total_spec : sdt_length data = Some (size l).
Proof using Hl Hsize Hann. unfold sdt_length, SDT_HEADER_SIZE in *. rewrite (value_32 _ l Hl) by lia. by rewrite Hann. Qed.

(** Reads inside the entry at [o]. *)
Ltac reads := repeat first [rewrite (value_8 _ l Hl) by lia | rewrite (value_16 _ l Hl) by lia | rewrite (value_32 _ l Hl) by lia | rewrite (value_64 _ l Hl) by lia | rewrite bind_some].

Lemma local_apic_spec o n : 0 <= o -> 8 <= n -> o + n <= size l -> local_apic data o = Some (cpu_of_local (slice l o n)).
Proof using Hl. intros Ho Hn Hs. unfold local_apic, cpu_of_local. reads. by rewrite !byte_slice by lia. Qed.
Lemma local_x2apic_spec o n : 0 <= o -> 16 <= n -> o + n <= size l -> local_x2apic data o = Some (cpu_of_x2apic (slice l o n)).
Proof using Hl. intros Ho Hn Hs. unfold local_x2apic, cpu_of_x2apic. reads. by rewrite !byte_slice, !le_slice by lia. Qed.
Lemma io_apic_spec o n : 0 <= o -> 12 <= n -> o + n <= size l -> io_apic data o = Some (ioapic_of (slice l o n)).
Proof using Hl. intros Ho Hn Hs. unfold io_apic, ioapic_of. reads. by rewrite !byte_slice, !le_slice by lia. Qed.
Lemma override_spec o n : 0 <= o -> 10 <= n -> o + n <= size l -> interrupt_override data o = Some (override_of (slice l o n)).
Proof using Hl. intros Ho Hn Hs. unfold interrupt_override, override_of. reads. by rewrite !byte_slice, !le_slice by lia. Qed.

Lemma madt_entry_ok : entry_ok l (madt_entry data) madt_says.
Proof using Hl.
  intros o n a av rev x h Ha Ho Hn Hs. unfold madt_entry, madt_says. rewrite size_slice by lia. set (t := byte (slice l o n) 0). cbv zeta.
  assert (Hguard : forall k c, (t =? k) && (c <=? n) = true -> c <= n) by (intros k c [_ Hc%Z.leb_le]%andb_true_iff; done).
  destruct ((t =? 0) && (8 <=? n)) eqn:E0.
  { rewrite (local_apic_spec o n) by (lia || eauto). destruct (rep_local_apic a av rev x h Ha (cpu_of_local (slice l o n)) eq_refl) as (s & E & Hr & Hk).
    change (cpus (bump _ _ a)) with (cpus a). rewrite E, bind_some. eauto. }
  destruct ((t =? 1) && (12 <=? n)) eqn:E1.
  { rewrite (io_apic_spec o n) by (lia || eauto). destruct (rep_ioapic a av rev x h Ha (ioapic_of (slice l o n))) as (s & E & Hr & Hk).
    change (ioapics (bump _ _ a)) with (ioapics a). rewrite E, bind_some. eauto. }
  destruct ((t =? 2) && (10 <=? n)) eqn:E2.
  { rewrite (override_spec o n) by (lia || eauto). destruct (rep_override a av rev x h Ha (override_of (slice l o n))) as (s & E & Hr & Hk).
    change (overrides (bump _ _ a)) with (overrides a). rewrite E, bind_some. eauto. }
  destruct ((t =? 3) && _); [eexists; split; [done|]; split; [by apply rep_nmi|apply kept_state]|].
  destruct ((t =? 4) && _); [eexists; split; [done|]; split; [by apply rep_lapic_nmi|apply kept_state]|].
  destruct ((t =? 5) && (12 <=? n)) eqn:E5.
  { apply Hguard in E5. reads. eexists. split; [done|]. rewrite le_slice by lia. split; [by apply rep_lapic|apply kept_state]. }
  destruct ((t =? 9) && (16 <=? n)) eqn:E9.
  { rewrite (local_x2apic_spec o n) by (lia || eauto). destruct (rep_x2apic a av rev x h Ha (cpu_of_x2apic (slice l o n)) eq_refl) as (s & E & Hr & Hk).
    change (cpus (bump _ _ a)) with (cpus a). rewrite E, bind_some. eauto. }
  destruct ((t =? 10) && _); [eexists; split; [done|]; split; [by apply rep_lapic_nmi|apply kept_state]|].
  by exists a.
Qed.

Lemma srat_entry_ok : entry_ok l srat_entry srat_says.
Proof using.
  intros o n a av rev x h Ha Ho Hn Hs. unfold srat_entry, srat_says. rewrite size_slice by lia. cbv zeta.
  destruct (_ || _); [eexists; split; [done|]; split; [by apply rep_srat_cpu|apply kept_state]|].
  destruct (_ && _); [eexists; split; [done|]; split; [by apply rep_srat_memory|apply kept_state]|]. by exists a.
Qed.

(** A parser of tables with the bytes [l]. *)
Definition parser_ok (parse : pointer -> acpi -> option (acpi * Z)) : Prop :=
  forall a av rev x h, represents u32 a av rev x h ->
  exists a' code, parse data a = Some (a', code) /\ kept a a' /\
    ((code = 0 /\ exists h', says l h h' /\ represents u32 a' av rev x h') \/ (code = -1 /\ forall h', ~ says l h h')).

(** Leaves the cases of [says] for the right signature. *)
Ltac right_table Hs Hx :=
  inversion Hx; subst;
  try (match goal with H : signature l = _ |- _ => rewrite Hs in H; vm_compute in H; discriminate H end);
  try (match goal with H : signature l ∈ _ |- _ => rewrite Hs in H; apply list_elem_of_In in H; vm_compute in H; intuition discriminate end);
  try (match goal with H : signature l ∉ _ |- _ => rewrite Hs in H; destruct H; apply list_elem_of_In; vm_compute; tauto end).

Lemma parse_madt_ok : signature l = sig "APIC" -> parser_ok parse_madt.
Proof using Hl Hsize Hann.
  intros Hs a av rev x h Ha. unfold parse_madt. rewrite total_spec, bind_some. destruct (Z.ltb_spec (size l) 44).
  { exists a, (-1). split; [done|]. split; [done|]. right. split; [done|]. intros h' Hx. right_table Hs Hx. lia. }
  reads. set (a1 := with_state a _). assert (represents u32 a1 av rev x (put_lapic_flags (le l 40 4) (put_lapic (le l 36 4) h))) as Ha1
    by (apply (rep_lapic_flags _ _ _ _ _ (rep_lapic a av rev x h Ha (le l 36 4)))).
  destruct (parse_entries_spec data l Hl (proj2 Hsize) _ _ madt_entry_ok 44 a1 _ _ _ _ Ha1) as (a' & code & E & Hk & Hcase); [lia|].
  exists a', code. split; [done|]. split; [trans a1; [apply kept_state|done]|]. destruct Hcase as [(-> & es & Hc & Hr)|(-> & Hno)].
  - left. split; [done|]. eexists. split; [by apply says_madt|done].
  - right. split; [done|]. intros h' Hx. right_table Hs Hx. by destruct (Hno es).
Qed.

Lemma parse_srat_ok : signature l = sig "SRAT" -> parser_ok parse_srat.
Proof using Hl Hsize Hann.
  intros Hs a av rev x h Ha. unfold parse_srat. rewrite total_spec, bind_some. destruct (Z.ltb_spec (size l) 48).
  { exists a, (-1). split; [done|]. split; [done|]. right. split; [done|]. intros h' Hx. right_table Hs Hx. lia. }
  destruct (parse_entries_spec data l Hl (proj2 Hsize) _ _ srat_entry_ok 48 a _ _ _ _ Ha) as (a' & code & E & Hk & Hcase); [lia|].
  exists a', code. split; [done|]. split; [done|]. destruct Hcase as [(-> & es & Hc & Hr)|(-> & Hno)].
  - left. split; [done|]. eexists. split; [by apply says_srat|done].
  - right. split; [done|]. intros h' Hx. right_table Hs Hx. by destruct (Hno es).
Qed.

Lemma parse_fadt_ok : signature l = sig "FACP" -> parser_ok parse_fadt.
Proof using Hl Hsize Hann.
  intros Hs a av rev x h Ha. unfold parse_fadt. rewrite total_spec, bind_some. destruct (Z.ltb_spec (size l) 80).
  { exists a, (-1). split; [done|]. split; [done|]. right. split; [done|]. intros h' Hx. right_table Hs Hx; lia. }
  reads. pose proof (rep_pm_timer a av rev x h Ha (le l 76 4)) as H1. cbv zeta. destruct (Z.leb_spec 129 (size l)).
  - reads. eexists _, 0. split; [done|]. split; [apply kept_state|]. left. split; [done|]. eexists. split; [by apply says_fadt_reset|].
    apply (rep_reset _ _ _ _ _ H1).
  - eexists _, 0. split; [done|]. split; [apply kept_state|]. left. split; [done|]. eexists. split; [by apply says_fadt|done].
Qed.

Lemma parse_hpet_ok : signature l = sig "HPET" -> parser_ok parse_hpet.
Proof using Hl Hsize Hann.
  intros Hs a av rev x h Ha. unfold parse_hpet. rewrite total_spec, bind_some. destruct (Z.ltb_spec (size l) 56).
  { exists a, (-1). split; [done|]. split; [done|]. right. split; [done|]. intros h' Hx. right_table Hs Hx. lia. }
  reads. eexists _, _. split; [done|]. split; [apply kept_state|]. destruct (Z.eqb_spec (byte l 40) 0), (Z.eqb_spec (le l 44 8) 0); cbn [andb negb].
  2:{ left. split; [done|]. eexists. split; [by apply says_hpet|]. by apply rep_hpet. }
  all: right; split; [done|]; intros h' Hx; by right_table Hs Hx.
Qed.

Lemma parse_slit_ok : signature l = sig "SLIT" -> parser_ok parse_slit.
Proof using Hl Hsize Hann.
  intros Hs a av rev x h Ha. unfold parse_slit, ACPI_MAX_TABLE_SIZE in *. rewrite total_spec, bind_some. destruct (Z.ltb_spec (size l) 44).
  { exists a, (-1). split; [done|]. split; [done|]. right. split; [done|]. intros h' Hx. right_table Hs Hx. lia. }
  reads. pose proof (le_fits l 36 8 (proj1 Hl) ltac:(lia) ltac:(lia) ltac:(lia)) as Fc. set (c := le l 36 8) in *.
  assert (Hno : ~ (0 < c <= 4096 /\ c * c = size l - 44) -> exists a' code, Some (a, -1) = Some (a', code) /\ kept a a' /\
    ((code = 0 /\ exists h', says l h h' /\ represents u32 a' av rev x h') \/ (code = -1 /\ forall h', ~ says l h h'))).
  { intros Hn. exists a, (-1). split; [done|]. split; [done|]. right. split; [done|]. intros h' Hx. right_table Hs Hx. tauto. }
  destruct ((c =? 0) || (4096 <? c) || (U64_MAX / c <? c)) eqn:Ec.
  { apply Hno. intros [Hc _]. rewrite (proj2 (Z.eqb_neq c 0)), (proj2 (Z.ltb_ge 4096 c)) in Ec by lia. cbn [orb] in Ec. apply Z.ltb_lt in Ec.
    assert (4096 <= U64_MAX / c); [|lia]. apply Z.div_le_lower_bound; [lia|]. unfold U64_MAX. pow2. lia. }
  rewrite !orb_false_iff, Z.eqb_neq, !Z.ltb_ge in Ec. cbv zeta.
  rewrite !u64_small by (unfold fits; pow2; nia). destruct (Z.eqb_spec (c * c) (size l - 44)) as [Eq|Ne]; cbn [negb]; [|apply Hno; tauto].
  eexists _, 0. split; [done|]. split; [apply kept_state|]. left. split; [done|]. eexists. split; [apply says_slit; [done|lia|fold c; lia|done]|].
  by apply rep_slit.
Qed.

Lemma mcfg_step_eq offset a :
  mcfg_step data (size l) (offset, a) =
  if offset <? size l then
    base ← load64 data offset; segment ← load16 data (offset + 8); start_bus ← data (offset + 10); end_bus ← data (offset + 11);
    if (base =? 0) || negb (base &&& ((1 << 20) - 1) =? 0) || (end_bus <? start_bus) then Some (inr (a, -1)) else
    s ← store ACPI_MAX_MCFG_SEGMENTS (Some (McfgSegment base segment start_bus end_bus)) (mcfg_segments a);
    Some (inl (u32 (offset + 16), with_mcfg (bump st_mcfg_segments set_mcfg_segments a) s))
  else Some (inr (a, 0)).
Proof using. done. Qed.

Lemma segments_inv o ss :
  segments (drop (Z.to_nat o) l) ss -> 0 <= o -> o + 16 <= size l ->
  segment_ok (slice l o 16) /\ exists ss', ss = segment_of (slice l o 16) :: ss' /\ segments (drop (Z.to_nat (o + 16)) l) ss'.
Proof using Hsize.
  intros Hc Ho Hs. inversion Hc as [E|e rest ss' H16 Hok Hrest E]; subst.
  { apply (f_equal length) in E. rewrite length_drop in E. simpl in E. unfold size in *. lia. }
  unfold size in H16. assert (length e = 16%nat) as He by lia.
  assert (slice l o 16 = e) as ->. { unfold slice. rewrite <- E. change (Z.to_nat 16) with 16%nat. rewrite <- He. by rewrite take_app_length. }
  split; [done|]. exists ss'. split; [done|]. rewrite Z2Nat.inj_add, <- drop_drop, <- E by lia. change (Z.to_nat 16) with 16%nat. rewrite <- He.
  by rewrite drop_app_length.
Qed.

Lemma segment_guard o :
  0 <= o -> o + 16 <= size l ->
  (le l o 8 =? 0) || negb (le l o 8 &&& ((1 << 20) - 1) =? 0) || (byte l (o + 11) <? byte l (o + 10)) = false <-> segment_ok (slice l o 16).
Proof using Hsize.
  intros Ho Hs. unfold segment_ok. rewrite !byte_slice, le_slice, Z.add_0_r by lia. change ((1 << 20) - 1) with (Z.ones 20). rewrite Z.land_ones by lia.
  rewrite !orb_false_iff, negb_false_iff, Z.eqb_eq, Z.eqb_neq, Z.ltb_ge. tauto.
Qed.

Lemma mcfg_loop fuel o a av rev x h :
  represents u32 a av rev x h -> 0 <= o <= size l -> (size l - o) mod 16 = 0 -> size l - o < Z.of_nat fuel ->
  exists a' code, while_loop fuel (mcfg_step data (size l)) (o, a) = Some (a', code) /\ kept a a' /\
    ((code = 0 /\ exists ss, segments (drop (Z.to_nat o) l) ss /\ represents u32 a' av rev x (foldl (fun h s => add_segment s h) h ss)) \/
     (code = -1 /\ forall ss, ~ segments (drop (Z.to_nat o) l) ss)).
Proof using Hl Hsize.
  revert o a h. induction fuel as [|fuel IH]; intros o a h Ha Ho Hmod Hf; [lia|]. rewrite while_loop_S, mcfg_step_eq.
  destruct (Z.ltb_spec o (size l)).
  2:{ rewrite bind_some. exists a, 0. split; [done|]. split; [done|]. left. split; [done|]. exists []. split; [|done].
      rewrite drop_ge by (unfold size in *; lia). constructor. }
  assert (o + 16 <= size l) as H16 by (apply Z.mod_divide in Hmod as [k Hk]; lia).
  reads. pose proof (segment_guard o (proj1 Ho) H16) as Hg. destruct ((le l o 8 =? 0) || _ || _) eqn:Eg.
  { rewrite bind_some. exists a, (-1). split; [done|]. split; [done|]. right. split; [done|]. intros ss [Hok _]%segments_inv; [|lia..]. by apply Hg in Hok. }
  pose proof (proj1 Hg eq_refl) as Hok. clear Hg Eg.
  assert (McfgSegment (le l o 8) (le l (o + 8) 2) (byte l (o + 10)) (byte l (o + 11)) = segment_of (slice l o 16)) as ->.
  { unfold segment_of. by rewrite !byte_slice, !le_slice, Z.add_0_r by lia. }
  destruct (rep_segment a av rev x h Ha (segment_of (slice l o 16))) as (s & -> & Hr & Hk). rewrite !bind_some.
  unfold ACPI_MAX_TABLE_SIZE in *. rewrite u32_small by (unfold fits; change (2 ^ 32) with 4294967296; lia).
  destruct (IH (o + 16) _ _ Hr) as (a' & code & E & Hk' & Hcase); [lia| |lia|].
  { replace (size l - (o + 16)) with (size l - o + -1 * 16) by lia. by rewrite Z.mod_add. }
  exists a', code. split; [done|]. split; [by etrans|]. destruct Hcase as [(-> & ss & Hc & Hrep)|(-> & Hno)].
  - left. split; [done|]. exists (segment_of (slice l o 16) :: ss). split; [|done]. rewrite (drop_slice l o 16) by lia.
    apply segments_cons; [rewrite size_slice; lia|done|done].
  - right. split; [done|]. intros ss (_ & ss' & _ & Hc)%segments_inv; [|lia..]. by destruct (Hno ss').
Qed.

Lemma parse_mcfg_ok : signature l = sig "MCFG" -> parser_ok parse_mcfg.
Proof using Hl Hsize Hann.
  intros Hs a av rev x h Ha. unfold parse_mcfg. rewrite total_spec, bind_some. destruct (Z.ltb_spec (size l) 44); cbn [orb].
  { exists a, (-1). split; [done|]. split; [done|]. right. split; [done|]. intros h' Hx. right_table Hs Hx. lia. }
  destruct (Z.eqb_spec ((size l - 44) mod 16) 0) as [Hmod|Hmod]; cbn [negb].
  2:{ exists a, (-1). split; [done|]. split; [done|]. right. split; [done|]. intros h' Hx. right_table Hs Hx.
      match goal with H : segments _ _ |- _ => apply segments_size in H; unfold size in *; rewrite length_drop in H end. destruct Hmod.
      replace (Z.of_nat (length l) - 44) with (Z.of_nat (length l - 44)) by lia. done. }
  destruct (mcfg_loop (S (Z.to_nat (size l))) 44 a av rev x h Ha) as (a' & code & E & Hk & Hcase); [lia|done|lia|].
  exists a', code. split; [done|]. split; [done|]. destruct Hcase as [(-> & ss & Hc & Hr)|(-> & Hno)].
  - left. split; [done|]. eexists. split; [by apply says_mcfg|done].
  - right. split; [done|]. intros h' Hx. right_table Hs Hx. by destruct (Hno ss).
Qed.

End parsers.

(** ** Registration *)

Lemma known_lengths : Forall (fun t => length t = 4%nat) known.
Proof. by repeat constructor. Qed.

Section register.
Context (m : pointer) (b : mvh_bootinfo_snapshot) (Hm : identity_mapped m (limit_of b)).

Lemma signature_spec data l text :
  contents data l -> SDT_HEADER_SIZE <= size l -> length text = 4%nat -> equal_text data 0 text = Some (bool_decide (signature l = text)).
Proof. intros Hl Hs Ht. unfold SDT_HEADER_SIZE in Hs. rewrite (equal_text_spec _ l Hl) by lia. by rewrite Ht. Qed.

Lemma known_signature_spec data l :
  contents data l -> SDT_HEADER_SIZE <= size l -> known_signature data = Some (bool_decide (signature l ∈ known)).
Proof.
  intros Hl Hs. unfold known_signature. 
  destruct (for_break_rule (R := unit) (fun j (_ : unit) => forall i t, Z.of_nat i < j -> known !! i = Some t -> signature l <> t) (fun _ => signature l ∈ known)
    (length known) 0 (fun index u => text ← rd known index; same ← equal_text data 0 text; Some (if same : bool then inr tt else inl u)) tt)
    as [(u & -> & Hno)|(u & -> & Hin)].
  - lia.
  - intros j [] Hj Hno. destruct (rd_ok known j) as (t & Ht); [lia|]. rewrite Ht, bind_some. apply rd_Some in Ht as [_ Ht].
    rewrite (signature_spec data l) by (done || apply (Forall_lookup_1 _ _ _ _ known_lengths Ht)). rewrite bind_some. case_bool_decide as E.
    + right. eexists. split; [done|]. rewrite E. by apply list_elem_of_lookup_2 in Ht.
    + left. eexists. split; [done|]. intros i t' Hi Ht'. destruct (decide (i = Z.to_nat j)) as [->|]; [congruence|apply (Hno i); [lia|done]].
  - rewrite bind_some. f_equal. symmetry. apply bool_decide_eq_false. intros (i & Hi)%list_elem_of_lookup. apply (Hno i (signature l)); [|done|done].
    apply lookup_lt_Some in Hi. lia.
  - rewrite bind_some. f_equal. symmetry. by apply bool_decide_eq_true.
Qed.

Lemma parse_known_ok data l :
  contents data l -> SDT_HEADER_SIZE <= size l <= ACPI_MAX_TABLE_SIZE -> le l 4 4 = size l -> signature l ∈ known -> parser_ok data l parse_known.
Proof.
  intros Hl Hs Ha Hk a av rev x h Hrep. unfold parse_known.
  rewrite !(signature_spec data l) by (done || apply Hs). rewrite ?bind_some.
  case_bool_decide as E1; [by apply (parse_madt_ok data l)|]. rewrite ?bind_some. case_bool_decide as E2; [by apply (parse_fadt_ok data l)|]. rewrite ?bind_some.
  case_bool_decide as E3; [by apply (parse_hpet_ok data l)|]. rewrite ?bind_some. case_bool_decide as E4; [by apply (parse_mcfg_ok data l)|]. rewrite ?bind_some.
  case_bool_decide as E5; [by apply (parse_srat_ok data l)|]. rewrite ?bind_some. case_bool_decide as E6; [by apply (parse_slit_ok data l)|].
  exists a, 0. split; [done|]. split; [done|]. left. split; [done|]. exists h. split; [|done]. apply says_noted.
  unfold known in Hk. cbn [map] in Hk. unfold sig. cbn [map]. rewrite !elem_of_cons in Hk. rewrite !elem_of_cons. tauto.
Qed.

Lemma rep_table a av rev x h address :
  represents u32 a av rev x h -> (length (h_tables h) < 64)%nat ->
  exists r, wr (registry a) (st_table_count (state a)) (RegistryEntry address address) = Some r /\
    represents u32 (bump st_table_count set_table_count (Acpi r (cpus a) (ioapics a) (overrides a) (mcfg_segments a) (state a))) av rev x (add_table address h).
Proof.
  intros [Es (Ht & Hr & Hp) Hc Hi Ho Hg] Hlt. rewrite Es. cbn [st_table_count status_of]. rewrite wr_ok by lia. eexists. split; [done|].
  destruct h. cbn in *. constructor; cbn; try done.
  - unfold status_of. cbn. rewrite u32_small by (unfold fits; change (2 ^ 32) with 4294967296; lia). by rewrite length_app, Nat2Z.inj_add.
  - rewrite length_app, length_insert, Nat2Z.id. cbn. split; [lia|]. split; [done|]. rewrite Nat.add_1_r, (take_S_r _ _ (RegistryEntry address address)).
    + rewrite take_insert_ge, Hp by lia. by rewrite map_app.
    + apply list_lookup_insert_eq. lia.
Qed.

Lemma register_table_spec address a av rev x h :
  represents u32 a av rev x h ->
  exists a' code, register_table m b address a = Some (a', code) /\
    ((code = 0 /\ exists h', accepted m (limit_of b) address h h' /\ represents u32 a' av rev x h') \/
     (code = -1 /\ (forall h', ~ accepted m (limit_of b) address h h') /\ represents u32 a' av rev x h)).
Proof using Hm.
  intros Ha. unfold register_table.
  assert (Hno : (forall l, sdt m (limit_of b) address l -> False) -> exists a' code, Some (a, -1) = Some (a', code) /\
    ((code = 0 /\ exists h', accepted m (limit_of b) address h h' /\ represents u32 a' av rev x h') \/
     (code = -1 /\ (forall h', ~ accepted m (limit_of b) address h h') /\ represents u32 a' av rev x h))).
  { intros Hn. exists a, (-1). split; [done|]. right. split; [done|]. split; [|done]. intros h' (_ & l & h1 & Hl & _). by destruct (Hn l). }
  destruct (mapped_range b address SDT_HEADER_SIZE) eqn:Hr; cbn [negb]; [|apply Hno; intros l Hl; by apply (not_mapped m b address _ l Hr Hl); left].
  destruct (header_length m b Hm address Hr) as (n & En & _ & Hsize). rewrite En, bind_some.
  destruct (mapped_range b address n) eqn:Hn; cbn [negb]; [|apply Hno; intros l Hl; apply (not_mapped m b address _ l Hn Hl); right; by rewrite (Hsize l Hl)].
  destruct (validate_sdt_spec m b Hm address n None Hr En Hn I) as (code & -> & [(-> & l & Hl & _)|(-> & Hbad)]); rewrite bind_some; cbn [Z.eqb negb]; [|by apply Hno].
  clear Hno. pose proof Hl as [Hc Hs Hann _ _].
  assert (Hacc : forall h', accepted m (limit_of b) address h h' -> (length (h_tables h) < 64)%nat /\ exists h1, says l h h1 /\ h' = add_table address h1).
  { intros h' (Ht & l' & h1 & Hl' & Hsay & ->). split; [done|]. exists h1. split; [|done].
    assert (l' = l) as -> by (apply (contents_unique (plus m address)); [apply Hl'|done|]; rewrite (Hsize l'), (Hsize l); done). done. }
  pose proof (rep_tables _ _ _ _ _ _ Ha) as (Ht & _). assert (st_table_count (state a) = Z.of_nat (length (h_tables h))) as -> by (by rewrite (rep_state _ _ _ _ _ _ Ha)).
  unfold ACPI_MAX_TABLES.
  destruct (Z.leb_spec 64 (Z.of_nat (length (h_tables h)))).
  { exists a, (-1). split; [done|]. right. split; [done|]. split; [|done]. intros h' [? _]%Hacc. lia. }
  rewrite (known_signature_spec _ l Hc (proj1 Hs)), bind_some.
  assert (Hend : forall a1 h1, says l h h1 -> represents u32 a1 av rev x h1 -> length (h_tables h1) = length (h_tables h) ->
    exists a' code, (r ← wr (registry a1) (st_table_count (state a1)) (RegistryEntry address address);
      Some (bump st_table_count set_table_count (Acpi r (cpus a1) (ioapics a1) (overrides a1) (mcfg_segments a1) (state a1)), 0)) = Some (a', code) /\
    ((code = 0 /\ exists h', accepted m (limit_of b) address h h' /\ represents u32 a' av rev x h') \/
     (code = -1 /\ (forall h', ~ accepted m (limit_of b) address h h') /\ represents u32 a' av rev x h))).
  { intros a1 h1 Hsay H1 El. destruct (rep_table a1 av rev x h1 address H1) as (r & -> & Hrep); [lia|]. rewrite bind_some. eexists _, 0. split; [done|].
    left. split; [done|]. eexists. split; [|done]. split; [lia|]. by exists l, h1. }
  case_bool_decide as Hk.
  - destruct (parse_known_ok (plus m address) l Hc Hs Hann Hk a av rev x h Ha) as (a1 & code & -> & Hkept & Hcase). rewrite !bind_some.
    destruct Hcase as [(-> & h1 & Hsay & H1)|(-> & Hnone)]; cbn [Z.eqb negb]; cbv beta iota; rewrite ?bind_some; cbn [Z.eqb negb].
    + by apply (Hend a1 h1 Hsay H1), (says_tables l h h1).
    + eexists _, (-1). split; [done|]. right. split; [done|]. split; [|by apply roll_back_represents]. intros h' (_ & h1 & Hsay & _)%Hacc. by destruct (Hnone h1).
  - rewrite bind_some. cbn [Z.eqb negb]. apply (Hend _ (add_unknown h)); [by apply says_unknown|by apply rep_unknown|by destruct h].
Qed.

End register.
