(* ===== verification/AcpiInit.v ===== *)
(** * ACPI tables: initialisation and queries

    From the root pointer to the registered tables: the whole of [acpi_init],
    with the claims on it and on the queries. *)

From Stdlib Require Import String.
From S2P Require Import Prelude Arith Buffer Firmware Bootinfo Acpi AcpiSpec AcpiCorrect.

#[local] Open Scope Z_scope.

(** ** No counter wraps *)

(** The sum of all counters, and that none is negative. *)
Definition weight (h : hardware) : Z :=
  h_unknown h + Z.of_nat (length (h_cpus h)) + Z.of_nat (length (h_ioapics h)) + Z.of_nat (length (h_overrides h)) + h_nmis h + h_lapic_nmis h +
  Z.of_nat (length (h_segments h)) + h_srat_cpus h + h_srat_memory h.
Definition sound (h : hardware) : Prop :=
  0 <= h_unknown h /\ 0 <= h_nmis h /\ 0 <= h_lapic_nmis h /\ 0 <= h_srat_cpus h /\ 0 <= h_srat_memory h /\ 0 <= h_rejected h.

(** [h'] has at most [n] more. *)
Definition grows (n : Z) (h h' : hardware) : Prop :=
  (sound h -> sound h') /\ weight h' <= weight h + n /\ h_rejected h' = h_rejected h /\ h_tables h' = h_tables h.

Lemma grows_trans n1 n2 h1 h2 h3 : grows n1 h1 h2 -> grows n2 h2 h3 -> grows (n1 + n2) h1 h3.
Proof. intros (S1 & W1 & R1 & T1) (S2 & W2 & R2 & T2). split; [tauto|]. split; [lia|]. split; congruence. Qed.

Lemma grows_le n n' h h' : grows n h h' -> n <= n' -> grows n' h h'.
Proof. intros (S1 & W1 & R1 & T1) Hn. split; [done|]. split; [lia|done]. Qed.

Ltac grow := match goal with h : hardware |- _ => destruct h end; unfold grows, sound, weight; cbn; rewrite ?length_app, ?Nat2Z.inj_add; cbn; (split; [lia|split; [lia|split; [lia|done]]]).

Lemma madt_grows e h : grows 1 h (madt_says e h).
Proof. unfold madt_says. repeat destruct (_ && _); grow. Qed.
Lemma srat_grows e h : grows 1 h (srat_says e h).
Proof. unfold srat_says. destruct (_ || _); [grow|]. destruct (_ && _); grow. Qed.

Lemma all_grow f es h : (forall e h, grows 1 h (f e h)) -> grows (Z.of_nat (length es)) h (all_say f es h).
Proof.
  intros Hf. revert h. induction es as [|e es IH]; intros h; [cbn; grow|]. cbn [length]. replace (Z.of_nat (S (length es))) with (1 + Z.of_nat (length es)) by lia.
  apply (grows_trans _ _ _ (f e h)); [apply Hf|apply IH].
Qed.

Lemma cut_length bytes es : cut bytes es -> Z.of_nat (length es) <= size bytes.
Proof. induction 1 as [|e rest es H2 _ _ IH]; [done|]. unfold size in *. rewrite length_app. cbn [length]. lia. Qed.
Lemma segments_length bytes ss : segments bytes ss -> Z.of_nat (length ss) <= size bytes.
Proof. induction 1 as [|e rest ss H2 _ _ IH]; [done|]. unfold size in *. rewrite length_app. cbn [length]. lia. Qed.
Lemma size_drop n l : size (drop n l) <= size l.
Proof. unfold size. rewrite length_drop. lia. Qed.

Lemma segments_grow ss h : grows (Z.of_nat (length ss)) h (foldl (fun h s => add_segment s h) h ss).
Proof.
  revert h. induction ss as [|s ss IH]; intros h; [cbn; grow|]. cbn [length foldl]. replace (Z.of_nat (S (length ss))) with (1 + Z.of_nat (length ss)) by lia.
  apply (grows_trans _ _ _ (add_segment s h)); [grow|apply IH].
Qed.

Lemma says_grows l h h' : says l h h' -> 36 <= size l -> grows (size l) h h'.
Proof.
  intros Hs H36. destruct Hs as [es _ _ Hc|_ _|_ _|_ _ _ _|ss _ _ Hc|es _ _ Hc|_ _ _ _|_|_]; try (apply (grows_le 1); [grow|lia]).
  - apply (grows_le (0 + Z.of_nat (length es))); [|pose proof (cut_length _ _ Hc); pose proof (size_drop 44 l); lia].
    apply (grows_trans _ _ _ (put_lapic_flags (le l 40 4) (put_lapic (le l 36 4) h))); [grow|apply all_grow, madt_grows].
  - apply (grows_le (Z.of_nat (length ss))); [apply segments_grow|]. pose proof (segments_length _ _ Hc). pose proof (size_drop 44 l). lia.
  - apply (grows_le (Z.of_nat (length es))); [apply all_grow, srat_grows|]. pose proof (cut_length _ _ Hc). pose proof (size_drop 48 l). lia.
Qed.

Lemma registers_bounds m limit h ts h' :
  registers m limit h ts h' -> sound h -> (length (h_tables h) <= 64)%nat ->
  sound h' /\ (length (h_tables h') <= 64)%nat /\ h_rejected h' <= h_rejected h + Z.of_nat (length ts) /\
  weight h' <= weight h + ACPI_MAX_TABLE_SIZE * (Z.of_nat (length (h_tables h')) - Z.of_nat (length (h_tables h))).
Proof.
  induction 1 as [h|h t ts h1 h' Ha Hr IH|h t ts h' Hno Hr IH]; intros Hs Ht; cbn [length].
  - split; [done|]. split; [done|]. lia.
  - destruct Ha as (Hlt & l & h0 & Hl & Hsay & ->). pose proof (sdt_size _ _ _ _ Hl) as Hsize. unfold SDT_HEADER_SIZE in Hsize.
    destruct (says_grows l h h0 Hsay ltac:(lia)) as (S0 & W0 & R0 & T0).
    assert (sound (add_table t h0) /\ weight (add_table t h0) = weight h0 /\ h_rejected (add_table t h0) = h_rejected h0 /\
      length (h_tables (add_table t h0)) = S (length (h_tables h))) as (S1 & W1 & R1 & T1).
    { specialize (S0 Hs). rewrite <- T0. destruct h0. cbn. rewrite length_app. cbn. split; [done|]. split; [done|]. split; [done|]. lia. }
    destruct IH as (S2 & T2 & R2 & W2); [done|lia|]. split; [done|]. split; [done|]. split; [lia|]. rewrite T1, W1 in W2. unfold ACPI_MAX_TABLE_SIZE in *. lia.
  - assert (sound (add_rejected h) /\ weight (add_rejected h) = weight h /\ h_rejected (add_rejected h) = h_rejected h + 1 /\
      h_tables (add_rejected h) = h_tables h) as (S1 & W1 & R1 & T1).
    { destruct h. unfold sound in *. cbn in *. split; [lia|done]. }
    rewrite T1 in IH. destruct IH as (S2 & T2 & R2 & W2); [done|lia|]. split; [done|]. split; [done|]. lia.
Qed.

Lemma status_exact av rev x h :
  sound h -> weight h < 2 ^ 32 -> h_rejected h < 2 ^ 32 -> status_of u32 av rev x h = status_of (fun z => z) av rev x h.
Proof.
  intros Hs Hw Hr. destruct h as [ts rj un la lf cs io ov nm ln sg sc sm hp pt rs rv sl]. unfold sound, weight in *. cbn in *. unfold status_of. cbn.
  assert (forall k, 0 <= kind_count k cs <= Z.of_nat (length cs)) as Hk.
  { intros k. unfold kind_count. pose proof (length_filter (fun c => cpu_x2apic c = k) cs). lia. }
  pose proof (Hk 0). pose proof (Hk 1). rewrite !u32_small by (unfold fits; lia). done.
Qed.

(** ** The root pointer *)

(** What its bytes must satisfy, apart from their number. *)
Definition rsdp_ok (l : list Z) : Prop :=
  take 8 l = sig "RSD PTR " /\ sum (take 20 l) mod 256 = 0 /\ (2 <= byte l 15 -> sum l mod 256 = 0).
Definition rsdp_xsdt (l : list Z) : Z := if 2 <=? byte l 15 then le l 24 8 else 0.

Lemma validate_rsdp_spec p l info :
  contents p l -> RSDP_V1_SIZE <= size l -> (2 <= byte l 15 -> RSDP_V2_SIZE <= size l /\ le l 20 4 = size l) ->
  exists r code, acpi_validate_rsdp_blob (Some p) (size l) (Some info) = Some (r, code) /\
    ((code = 0 /\ rsdp_ok l /\ exists oem c cs, candidates (le l 16 4) (rsdp_xsdt l) = c :: cs /\ r = Some (RsdpInfo (byte l 15) c.1 c.2 oem)) \/
     (code = -1 /\ (rsdp_ok l -> candidates (le l 16 4) (rsdp_xsdt l) = []))).
Proof.
  intros Hl H1 H2. unfold acpi_validate_rsdp_blob, RSDP_V1_SIZE, RSDP_V2_SIZE in *. rewrite (proj2 (Z.ltb_ge _ _)) by lia.
  assert (Hno : forall r, (rsdp_ok l -> False) -> exists r' code, Some (r, -1) = Some (r', code) /\
    ((code = 0 /\ rsdp_ok l /\ exists oem c cs, candidates (le l 16 4) (rsdp_xsdt l) = c :: cs /\ r' = Some (RsdpInfo (byte l 15) c.1 c.2 oem)) \/
     (code = -1 /\ (rsdp_ok l -> candidates (le l 16 4) (rsdp_xsdt l) = [])))).
  { intros r Hn. exists r, (-1). split; [done|]. right. split; [done|]. intros Hok. by destruct Hn. }
  rewrite (equal_text_spec _ l Hl) by (cbn; lia). change (slice l 0 (Z.of_nat (length (chars "RSD PTR ")))) with (take 8 l). rewrite bind_some.
  case_bool_decide as Esig; cbn [negb]; [|apply Hno; by intros []].
  rewrite (checksum_spec p l), bind_some by (done || lia). case_bool_decide as Esum; cbn [negb]; [|apply Hno; by intros (_ & ? & _)].
  unfold rsdp_revision, rsdp_length, rsdp_xsdt_address, rsdp_rsdt_address. rewrite !(value_8 _ l Hl), !bind_some by lia. cbv zeta.
  set (rsdt := le l 16 4). set (oem := [byte l 9; byte l 10; byte l 11; byte l 12; byte l 13; byte l 14; 0]).
  assert (Hrsdt : (2 <= byte l 15 -> sum l mod 256 = 0) -> rsdp_xsdt l = 0 ->
    exists r code, (rsdt ← load32 p 16; Some (Some (RsdpInfo (byte l 15) rsdt 0 oem), if negb (rsdt =? 0) then 0 else -1)) = Some (r, code) /\
    ((code = 0 /\ rsdp_ok l /\ exists oem c cs, candidates rsdt (rsdp_xsdt l) = c :: cs /\ r = Some (RsdpInfo (byte l 15) c.1 c.2 oem)) \/
     (code = -1 /\ (rsdp_ok l -> candidates rsdt (rsdp_xsdt l) = [])))).
  { intros Hs Ex. rewrite (value_32 _ l Hl), bind_some by lia. fold rsdt. eexists _, _. split; [done|]. rewrite Ex. unfold candidates. cbn [Z.eqb app].
    destruct (Z.eqb_spec rsdt 0) as [->|Hne]; cbn [negb]; [by right|]. left. split; [done|]. split; [done|]. by exists oem, (rsdt, 0), []. }
  unfold rsdp_xsdt in *. destruct (Z.leb_spec 2 (byte l 15)) as [H15|H15]; [|apply Hrsdt; [lia|done]].
  destruct (H2 H15) as [H36 Hlen]. rewrite (proj2 (Z.ltb_ge _ _)) by lia. rewrite (value_32 _ l Hl 20), bind_some, Hlen by lia.
  rewrite (proj2 (Z.ltb_ge _ _)), (proj2 (Z.ltb_ge (size l) (size l))) by lia. cbn [orb].
  rewrite (checksum_spec p l), bind_some by (done || lia). rewrite (take_ge l (Z.to_nat (size l))) by (unfold size; lia).
  case_bool_decide as Eall; cbn [negb]; [|apply Hno; intros (_ & _ & ?); tauto].
  rewrite (value_64 _ l Hl), bind_some by lia. destruct (Z.eqb_spec (le l 24 8) 0) as [Ex|Ex]; cbn [negb]; [by apply Hrsdt|].
  eexists _, 0. split; [done|]. left. split; [done|]. split; [done|]. unfold candidates. rewrite (proj2 (Z.eqb_neq _ _) Ex). cbn [app].
  by eexists oem, (le l 24 8, 1), _.
Qed.

Section init.
Context (m : pointer) (b : mvh_bootinfo_snapshot) (Hm : identity_mapped m (limit_of b)).

(** ** The root table *)

Lemma root_step_spec rsdp rsdt info :
  load32 rsdp 16 = Some rsdt -> ri_uses_xsdt info = 0 \/ ri_uses_xsdt info = 1 ->
  exists res, root_step m b rsdp info = Some res /\
    ((res = inr (Some info) /\ exists l, is_root m (limit_of b) (ri_root_address info, ri_uses_xsdt info) l) \/
     ((forall l, ~ is_root m (limit_of b) (ri_root_address info, ri_uses_xsdt info) l) /\
      res = if (ri_uses_xsdt info =? 1) && negb (rsdt =? 0) then inl (RsdpInfo (ri_revision info) rsdt 0 (ri_oem_id info)) else inr None)).
Proof using Hm.
  intros Er Hu. unfold root_step, rsdp_rsdt_address. rewrite Er, bind_some. cbv zeta.
  set (retry := if negb (ri_uses_xsdt info =? 0) then _ else _).
  assert (Hretry : (forall l, ~ is_root m (limit_of b) (ri_root_address info, ri_uses_xsdt info) l) -> exists res, retry = Some res /\
    ((res = inr (Some info) /\ exists l, is_root m (limit_of b) (ri_root_address info, ri_uses_xsdt info) l) \/
     ((forall l, ~ is_root m (limit_of b) (ri_root_address info, ri_uses_xsdt info) l) /\
      res = if (ri_uses_xsdt info =? 1) && negb (rsdt =? 0) then inl (RsdpInfo (ri_revision info) rsdt 0 (ri_oem_id info)) else inr None))).
  { intros Hno. eexists. split; [|by right]. unfold retry. destruct Hu as [-> | ->]; cbn [Z.eqb negb andb]; [done|]. by destruct (negb _). }
  clearbody retry. set (address := ri_root_address info) in *.
  destruct (mapped_range b address SDT_HEADER_SIZE) eqn:Hr; cbn [negb]; [|apply Hretry; intros l [Hl _]; by apply (not_mapped m b address _ l Hr Hl); left].
  destruct (header_length m b Hm address Hr) as (n & En & _ & Hsize). rewrite En, bind_some.
  destruct (mapped_range b address n) eqn:Hn; cbn [negb].
  2:{ apply Hretry. intros l [Hl _]. apply (not_mapped m b address _ l Hn Hl). right. by rewrite (Hsize l Hl). }
  set (text := chars _). assert (text = if ri_uses_xsdt info =? 0 then sig "RSDT" else sig "XSDT") as Etext
    by (unfold text; by destruct (ri_uses_xsdt info =? 0)).
  destruct (validate_sdt_spec m b Hm address n (Some text) Hr En Hn) as (code & -> & [(-> & l & Hl & Hs)|(-> & Hbad)]); [rewrite Etext; by destruct (ri_uses_xsdt info =? 0)|..];
    rewrite bind_some; cbn [Z.eqb negb].
  - eexists. split; [done|]. left. split; [done|]. exists l. split; [done|]. cbn [snd]. by rewrite Hs.
  - apply Hretry. intros l [Hl Hs]. apply (Hbad l Hl). cbn [snd] in Hs. by rewrite Hs.
Qed.

Lemma root_loop_spec rsdp rsdt xsdt revision oem c cs :
  load32 rsdp 16 = Some rsdt -> candidates rsdt xsdt = c :: cs ->
  exists res, while_loop 3 (root_step m b rsdp) (RsdpInfo revision c.1 c.2 oem) = Some res /\
    match res with
    | Some info => ri_revision info = revision /\ exists l, root_of m (limit_of b) (c :: cs) (ri_root_address info, ri_uses_xsdt info) l
    | None => forall c' l, ~ root_of m (limit_of b) (c :: cs) c' l
    end.
Proof using Hm.
  intros Er Ec. assert ((c.2 = 1 /\ cs = if rsdt =? 0 then [] else [(rsdt, 0)]) \/ (c.2 = 0 /\ cs = [])) as Hc.
  { unfold candidates in Ec. destruct (xsdt =? 0), (rsdt =? 0); cbn in Ec; try discriminate Ec; injection Ec as <- <-; auto. }
  rewrite while_loop_S. set (info := RsdpInfo _ _ _ _).
  destruct (root_step_spec rsdp rsdt info Er) as (res & -> & Hres); [cbn; tauto|]. rewrite bind_some. cbn [ri_root_address ri_uses_xsdt info] in Hres. rewrite <- surjective_pairing in Hres.
  destruct Hres as [(-> & l & Hl)|(Hno & ->)].
  { exists (Some info). split; [done|]. split; [done|]. exists l. cbn. rewrite <- surjective_pairing. by apply root_here. }
  assert (Hlater : forall c' l, root_of m (limit_of b) (c :: cs) c' l -> root_of m (limit_of b) cs c' l).
  { intros c' l Hx. inversion Hx; subst; [by destruct (Hno l)|done]. }
  destruct Hc as [[-> ->]|[-> ->]]; [change (1 =? 1) with true|change (0 =? 1) with false]; cbn [andb].
  2:{ exists None. split; [done|]. intros c' l Hx%Hlater. inversion Hx. }
  destruct (Z.eqb_spec rsdt 0) as [->|Hne]; cbn [negb].
  { exists None. split; [done|]. intros c' l Hx%Hlater. inversion Hx. }
  rewrite while_loop_S. set (info2 := RsdpInfo _ rsdt 0 _).
  destruct (root_step_spec rsdp rsdt info2 Er) as (res & -> & Hres); [by left|]. rewrite bind_some. cbn [ri_root_address ri_uses_xsdt info2] in Hres.
  destruct Hres as [(-> & l & Hl)|(Hno2 & ->)].
  - exists (Some info2). split; [done|]. split; [done|]. exists l. by apply root_later, root_here.
  - exists None. split; [done|]. intros c' l Hx%Hlater. inversion Hx as [? ? ? Hy|? ? ? ? _ Hy]; subst; [by destruct (Hno2 l)|inversion Hy].
Qed.

(** The root pointer at an address, if any, is read as it is. *)
Lemma rsdp_unique address revision rsdt xsdt l :
  rsdp m (limit_of b) address revision rsdt xsdt -> contents (plus m address) l -> size l = (if 2 <=? byte l 15 then le l 20 4 else 20) ->
  20 <= size l -> (2 <= byte l 15 -> 36 <= size l) ->
  rsdp_ok l /\ revision = byte l 15 /\ rsdt = le l 16 4 /\ xsdt = rsdp_xsdt l.
Proof using.
  intros [(l' & Hc & Hw & Hsig & -> & -> & Hsum & Hold & Hnew)] Hl Hs H20 H36.
  assert (20 <= size l') as H20' by (destruct (Z.lt_ge_cases (byte l' 15) 2); lia).
  assert (byte l 15 = byte l' 15) as E15.
  { pose proof (value_8 _ l Hl 15 ltac:(lia)) as E. rewrite (value_8 _ l' Hc) in E by lia. by injection E. }
  assert (l' = l) as ->.
  { apply (contents_unique _ _ _ Hc Hl). rewrite Hs, E15. destruct (Z.leb_spec 2 (byte l' 15)); [|by apply Hold]. destruct Hnew as (Hx & <- & _); [done|].
    specialize (H36 ltac:(lia)). pose proof (value_32 _ l Hl 20 ltac:(lia) ltac:(lia)) as E. rewrite (value_32 _ l' Hc) in E by lia. by injection E. }
  split; [split; [done|split; [done|tauto]]|]. split; [done|]. split; [done|]. unfold rsdp_xsdt. destruct (Z.leb_spec 2 (byte l 15)); tauto.
Qed.

(** The bytes of the root pointer, as far as they are mapped. *)
Lemma rsdp_read address :
  mapped_range b address RSDP_V1_SIZE = true ->
  exists revision, rsdp_revision (plus m address) = Some revision /\ fits 8 revision /\
    forall l, contents (plus m address) l -> 20 <= size l -> byte l 15 = revision.
Proof using Hm.
  intros Hr%mapped_range_spec; [|done]. unfold RSDP_V1_SIZE in Hr. pose proof (within_readable m _ _ _ Hm Hr) as Hp.
  destruct (Hp 15) as (v & E & F); [lia|]. exists v. split; [done|]. split; [done|]. intros l Hl Hs. rewrite (value_8 _ l Hl) in E by lia. by injection E.
Qed.

(** The decision on the root table, from bytes of the right number. *)
Lemma root_decision address l info :
  contents (plus m address) l -> within (limit_of b) address (size l) -> 20 <= size l ->
  (byte l 15 < 2 -> size l = 20) -> (2 <= byte l 15 -> 36 <= size l <= 4096 /\ le l 20 4 = size l) ->
  exists res, ('(info, code) ← acpi_validate_rsdp_blob (Some (plus m address)) (size l) (Some info);
      if negb (code =? 0) then Some None else info ← info; while_loop 3 (root_step m b (plus m address)) info) = Some res /\
    match res with
    | Some info => exists rsdt xsdt bytes, rsdp m (limit_of b) address (ri_revision info) rsdt xsdt /\
        root_of m (limit_of b) (candidates rsdt xsdt) (ri_root_address info, ri_uses_xsdt info) bytes
    | None => forall revision rsdt xsdt c bytes, rsdp m (limit_of b) address revision rsdt xsdt -> ~ root_of m (limit_of b) (candidates rsdt xsdt) c bytes
    end.
Proof using Hm.
  intros Hl Hw H20 Hold Hnew.
  assert (Huniq : forall revision rsdt xsdt, rsdp m (limit_of b) address revision rsdt xsdt ->
    rsdp_ok l /\ revision = byte l 15 /\ rsdt = le l 16 4 /\ xsdt = rsdp_xsdt l).
  { intros revision rsdt xsdt Hx. apply (rsdp_unique address revision rsdt xsdt l Hx Hl); [|done|lia]. destruct (Z.leb_spec 2 (byte l 15)); [|by apply Hold].
    symmetry. by apply Hnew. }
  destruct (validate_rsdp_spec _ l info Hl) as (r & code & -> & Hcase); [done|unfold RSDP_V2_SIZE; lia|]. rewrite bind_some.
  destruct Hcase as [(-> & Hok & oem & c & cs & Ec & ->)|(-> & Hnone)]; cbn [Z.eqb negb].
  2:{ exists None. split; [done|]. intros revision rsdt xsdt c bytes (Hok & -> & -> & ->)%Huniq. rewrite (Hnone Hok). intros Hx. inversion Hx. }
  rewrite bind_some. pose proof (value_32 _ l Hl 16 ltac:(lia) ltac:(lia)) as E16.
  destruct (root_loop_spec _ _ _ (byte l 15) oem c cs E16 Ec) as (res & -> & Hres). exists res. split; [done|]. destruct res as [info'|].
  - destruct Hres as (Erev & bytes & Hroot). exists (le l 16 4), (rsdp_xsdt l), bytes. rewrite Ec. split; [|done]. rewrite Erev.
    destruct Hok as (Hsig & Hsum & Hall). constructor. exists l. split; [done|]. split; [done|]. split; [done|]. split; [done|]. split; [done|].
    split; [done|]. unfold rsdp_xsdt. destruct (Z.leb_spec 2 (byte l 15)).
    + split; [lia|]. intros _. destruct Hnew as [? ?]; [done|]. split; [done|]. split; [done|]. split; [done|]. by apply Hall.
    + split; [|lia]. intros _. split; [by apply Hold|done].
  - intros revision rsdt xsdt c' bytes (_ & -> & -> & ->)%Huniq. rewrite Ec. apply Hres.
Qed.

Lemma acpi_root_spec address info :
  exists res, acpi_root m b address info = Some res /\
    match res with
    | Some info => exists rsdt xsdt bytes, rsdp m (limit_of b) address (ri_revision info) rsdt xsdt /\
        root_of m (limit_of b) (candidates rsdt xsdt) (ri_root_address info, ri_uses_xsdt info) bytes
    | None => forall revision rsdt xsdt c bytes, rsdp m (limit_of b) address revision rsdt xsdt -> ~ root_of m (limit_of b) (candidates rsdt xsdt) c bytes
    end.
Proof using Hm.
  unfold acpi_root.
  assert (Hno : (forall revision rsdt xsdt, rsdp m (limit_of b) address revision rsdt xsdt -> False) -> exists res, Some None = Some res /\
    match res with
    | Some info => exists rsdt xsdt bytes, rsdp m (limit_of b) address (ri_revision info) rsdt xsdt /\
        root_of m (limit_of b) (candidates rsdt xsdt) (ri_root_address info, ri_uses_xsdt info) bytes
    | None => forall revision rsdt xsdt c bytes, rsdp m (limit_of b) address revision rsdt xsdt -> ~ root_of m (limit_of b) (candidates rsdt xsdt) c bytes
    end) by (intros Hn; exists None; split; [done|]; intros revision rsdt xsdt c bytes Hx; by destruct (Hn _ _ _ Hx)).
  assert (Hshort : forall n revision rsdt xsdt, mapped_range b address n = false -> 0 < n -> rsdp m (limit_of b) address revision rsdt xsdt ->
    (n <= 20 \/ 2 <= revision /\ n <= 36) -> False).
  { intros n revision rsdt xsdt E Hn [(l & _ & Hw & _ & _ & _ & _ & Hold & Hnew)] Hcase. apply not_true_iff_false in E. apply E, mapped_range_spec; [lia|].
    unfold within in *. destruct (Z.lt_ge_cases revision 2); lia. }
  destruct (mapped_range b address RSDP_V1_SIZE) eqn:H1; cbn [negb]; [|apply Hno; intros revision rsdt xsdt Hx; apply (Hshort _ _ _ _ H1 ltac:(done) Hx); by left].
  destruct (rsdp_read address H1) as (revision & -> & Frev & Hrev). rewrite bind_some.
  assert (Hrevision : forall revision' rsdt xsdt, rsdp m (limit_of b) address revision' rsdt xsdt -> revision' = revision).
  { intros revision' rsdt xsdt [(l & Hc & _ & _ & -> & _ & _ & Hold & Hnew)]. apply Hrev; [done|]. destruct (Z.lt_ge_cases (byte l 15) 2); lia. }
  destruct (Z.leb_spec 2 revision) as [H2|H2].
  2:{ rewrite bind_some. apply mapped_range_spec in H1; [|done]. destruct (readable_contents (plus m address) RSDP_V1_SIZE) as (l & Hl & Es);
        [done|by apply (within_readable m _ _ _ Hm)|]. fold (size l) in Es. rewrite <- Es in *. unfold RSDP_V1_SIZE in Es.
      apply root_decision; [done|done|lia|done|rewrite (Hrev l) by (done || lia); lia]. }
  destruct (mapped_range b address RSDP_V2_SIZE) eqn:H36; cbn [negb].
  2:{ rewrite bind_some. apply Hno. intros revision' rsdt xsdt Hx. pose proof (Hrevision _ _ _ Hx) as ->. apply (Hshort _ _ _ _ H36 ltac:(done) Hx). by right. }
  apply mapped_range_spec in H36; [|done]. pose proof (within_readable m _ _ _ Hm H36) as Hp.
  destruct (load32_ok _ _ Hp 20) as (n & En & Fn); [lia|done|]. unfold rsdp_length. rewrite En, bind_some. unfold fits in Fn.
  assert (Hlen : forall revision' rsdt xsdt, rsdp m (limit_of b) address revision' rsdt xsdt -> 36 <= n <= 4096 /\ within (limit_of b) address n).
  { intros revision' rsdt xsdt Hx. pose proof (Hrevision _ _ _ Hx) as ->. destruct Hx as [(l & Hc & Hw & _ & _ & _ & _ & _ & Hnew)].
    destruct (Hnew H2) as (Hs & Ha & _). rewrite (value_32 _ l Hc) in En by lia. injection En as <-. by rewrite Ha. }
  destruct ((n <? RSDP_V2_SIZE) || (4096 <? n) || negb (mapped_range b address n)) eqn:Ec; rewrite bind_some.
  { apply Hno. intros revision' rsdt xsdt [Hx Hw]%Hlen. apply mapped_range_spec in Hw; [|lia]. unfold RSDP_V2_SIZE in Ec.
    rewrite Hw, (proj2 (Z.ltb_ge n 36)), (proj2 (Z.ltb_ge 4096 n)) in Ec by lia. done. }
  rewrite !orb_false_iff, negb_false_iff, mapped_range_spec, !Z.ltb_ge in Ec by lia. destruct Ec as [[H36' H4096] Hw]. unfold RSDP_V2_SIZE in *.
  destruct (readable_contents (plus m address) n) as (l & Hl & Es); [lia|by apply (within_readable m _ _ _ Hm)|]. fold (size l) in Es. rewrite <- Es in *.
  apply root_decision; [done|done|lia|rewrite (Hrev l) by (done || lia); lia|]. intros _. split; [lia|]. rewrite (value_32 _ l Hl) in En by lia. by injection En.
Qed.

(** ** The loop over the root table *)

Lemma registers_app h ts h' t h'' : registers m (limit_of b) h ts h' -> registers m (limit_of b) h' [t] h'' -> registers m (limit_of b) h (ts ++ [t]) h''.
Proof using. induction 1; intros Hx; cbn [app]; [done|by eapply registers_accept; eauto|by eapply registers_reject; eauto]. Qed.

(** The width of the pointers in a root table. *)
Definition width (uses_xsdt : Z) : Z := if uses_xsdt =? 0 then 4 else 8.

Lemma entry_address info l index :
  contents (plus m (ri_root_address info)) l -> SDT_HEADER_SIZE <= size l <= ACPI_MAX_TABLE_SIZE ->
  0 <= index < (size l - SDT_HEADER_SIZE) / width (ri_uses_xsdt info) ->
  (let entry := plus m (ri_root_address info + SDT_HEADER_SIZE + u32 (index * width (ri_uses_xsdt info))) in
   if negb (ri_uses_xsdt info =? 0) then load64 entry 0 else load32 entry 0) =
  Some (le l (SDT_HEADER_SIZE + index * width (ri_uses_xsdt info)) (width (ri_uses_xsdt info))).
Proof using.
  intros Hl Hs Hi. set (w := width (ri_uses_xsdt info)) in *. assert (w = 4 \/ w = 8) as Hw by (unfold w, width; destruct (_ =? 0); lia).
  unfold SDT_HEADER_SIZE, ACPI_MAX_TABLE_SIZE in *. assert (36 + index * w + w <= size l) as Hin.
  { pose proof (Z.mul_div_le (size l - 36) w ltac:(lia)). nia. }
  cbv zeta. rewrite u32_small by (unfold fits; change (2 ^ 32) with 4294967296; nia). rewrite <- Z.add_assoc.
  pose proof (contents_plus m _ l (36 + index * w) Hl ltac:(nia)) as Hc.
  assert (size (drop (Z.to_nat (36 + index * w)) l) = size l - (36 + index * w)) as Hd by (unfold size in *; rewrite length_drop; nia).
  unfold w, width in *. destruct (ri_uses_xsdt info =? 0); cbn [negb].
  - rewrite (value_32 _ _ Hc) by lia. by rewrite le_drop by lia.
  - rewrite (value_64 _ _ Hc) by lia. by rewrite le_drop by lia.
Qed.

Lemma register_entry_spec info l index a av rev x h :
  contents (plus m (ri_root_address info)) l -> SDT_HEADER_SIZE <= size l <= ACPI_MAX_TABLE_SIZE ->
  0 <= index < (size l - SDT_HEADER_SIZE) / width (ri_uses_xsdt info) -> represents u32 a av rev x h ->
  exists a' h', register_entry m b info (width (ri_uses_xsdt info)) index a = Some a' /\ represents u32 a' av rev x h' /\
    registers m (limit_of b) h [le l (SDT_HEADER_SIZE + index * width (ri_uses_xsdt info)) (width (ri_uses_xsdt info))] h'.
Proof using Hm.
  intros Hl Hs Hi Ha. unfold register_entry. pose proof (entry_address info l index Hl Hs Hi) as E. cbv zeta in E |- *. rewrite E, bind_some. clear E.
  set (t := le l _ _). destruct (register_table_spec m b Hm t a av rev x h Ha) as (a1 & code & -> & [(-> & h1 & Hacc & H1)|(-> & Hno & H1)]); rewrite bind_some; cbn [Z.eqb negb].
  - exists a1, h1. split; [done|]. split; [done|]. eapply registers_accept; [done|constructor].
  - eexists _, (add_rejected h). split; [done|]. split; [by apply rep_rejected|]. eapply registers_reject; [done|constructor].
Qed.

Lemma register_loop info l a av rev x h :
  contents (plus m (ri_root_address info)) l -> SDT_HEADER_SIZE <= size l <= ACPI_MAX_TABLE_SIZE -> represents u32 a av rev x h ->
  exists a' h', for_loop (Z.to_nat ((size l - SDT_HEADER_SIZE) / width (ri_uses_xsdt info))) 0 (register_entry m b info (width (ri_uses_xsdt info))) a = Some a' /\
    represents u32 a' av rev x h' /\ registers m (limit_of b) h (pointers l (width (ri_uses_xsdt info))) h'.
Proof using Hm.
  intros Hl Hs Ha. unfold pointers. set (w := width (ri_uses_xsdt info)). set (n := (size l - SDT_HEADER_SIZE) / w).
  destruct (for_loop_rule (fun j a' => exists h', represents u32 a' av rev x h' /\
    registers m (limit_of b) h (map (fun i => le l (SDT_HEADER_SIZE + Z.of_nat i * w) w) (seq 0 (Z.to_nat j))) h')
    (Z.to_nat n) 0 (register_entry m b info w) a) as (a' & -> & h' & Ha' & Hr).
  - exists h. split; [done|]. constructor.
  - intros j a1 Hj (h1 & H1 & Hr1). destruct (register_entry_spec info l j a1 av rev x h1 Hl Hs) as (a2 & h2 & E & H2 & Hr2); [fold w n; lia|done|].
    exists a2. split; [done|]. exists h2. split; [done|]. replace (Z.to_nat (j + 1)) with (Z.to_nat j + 1)%nat by lia. rewrite seq_app, map_app.
    cbn [seq map]. rewrite Nat.add_0_l, Z2Nat.id by lia. by apply (registers_app _ _ h1).
  - exists a', h'. split; [done|]. split; [done|]. by replace (Z.to_nat (0 + Z.of_nat (Z.to_nat n))) with (Z.to_nat n) in Hr by lia.
Qed.

Lemma cleared_represents rev x : represents u32 (with_state cleared (set_uses_xsdt x (set_revision rev (state cleared)))) 0 rev x no_hardware.
Proof using. constructor; try done. split; [cbn; lia|done]. Qed.

End init.

Lemma root_of_sdt m limit cs c l : root_of m limit cs c l -> sdt m limit c.1 l.
Proof. induction 1 as [c cs l [Hl _]|]; done. Qed.

(** The bytes at an address have one reading. *)
Lemma sdt_fun m limit address l l' : sdt m limit address l -> sdt m limit address l' -> l = l'.
Proof.
  intros [Hc Hs Ha _ _] [Hc' Hs' Ha' _ _]. unfold SDT_HEADER_SIZE in *. apply (contents_unique _ _ _ Hc Hc'). rewrite <- Ha, <- Ha'.
  pose proof (value_32 _ l Hc 4 ltac:(lia) ltac:(lia)) as E. rewrite (value_32 _ l' Hc') in E by lia. by injection E.
Qed.

Lemma root_of_fun m limit cs c c' l l' : root_of m limit cs c l -> root_of m limit cs c' l' -> c = c' /\ l = l'.
Proof.
  intros Hx. revert c' l'. induction Hx as [c cs l Hr|c cs c1 l Hno Hr IH]; intros c' l' Hy; inversion Hy as [? ? ? Hr'|? ? ? ? Hno' Hr']; subst.
  - split; [done|]. by apply (sdt_fun m limit c'.1); [apply Hr|apply Hr'].
  - by destruct (Hno' l).
  - by destruct (Hno l').
  - by apply IH.
Qed.

Lemma rsdp_fun m limit address revision rsdt xsdt revision' rsdt' xsdt' :
  rsdp m limit address revision rsdt xsdt -> rsdp m limit address revision' rsdt' xsdt' -> revision = revision' /\ rsdt = rsdt' /\ xsdt = xsdt'.
Proof.
  intros [(l & Hc & _ & _ & -> & -> & _ & Hold & Hnew)] [(l' & Hc' & _ & _ & -> & -> & _ & Hold' & Hnew')].
  assert (20 <= size l /\ 20 <= size l') as [H1 H2] by (destruct (Z.lt_ge_cases (byte l 15) 2), (Z.lt_ge_cases (byte l' 15) 2); lia).
  pose proof (value_8 _ l Hc 15 ltac:(lia)) as E15. rewrite (value_8 _ l' Hc') in E15 by lia. injection E15 as E15. rewrite E15 in *.
  pose proof (value_32 _ l Hc 16 ltac:(lia) ltac:(lia)) as E16. rewrite (value_32 _ l' Hc') in E16 by lia. injection E16 as E16.
  split; [done|]. split; [done|]. destruct (Z.lt_ge_cases (byte l 15) 2) as [Hlt|Hge].
  - destruct (Hold Hlt) as [_ ->]. by destruct (Hold' Hlt) as [_ ->].
  - destruct (Hnew Hge) as (? & _ & -> & _). destruct (Hnew' Hge) as (? & _ & -> & _).
    pose proof (value_64 _ l Hc 24 ltac:(lia) ltac:(lia)) as E. rewrite (value_64 _ l' Hc') in E by lia. by injection E.
Qed.

(** The tables at the addresses in the root table, of a width that divides it. *)
Definition described (m : pointer) (limit address revision uses_xsdt : Z) (l : list Z) : Prop :=
  exists rsdt xsdt root, rsdp m limit address revision rsdt xsdt /\ root_of m limit (candidates rsdt xsdt) (root, uses_xsdt) l /\
    (size l - SDT_HEADER_SIZE) mod width uses_xsdt = 0.

(** C22: discovery of the hardware.  On any contents of the mapped memory
    [acpi_init] ends without a fault.  It succeeds exactly when the root pointer
    is valid and leads to a valid root table (the XSDT, or else the RSDT) of whole
    entries, and then the state is what the tables it lists say, in order: a table
    counts if its range, length, checksum and contents are valid and there is
    room, and else is rejected and adds nothing; the arrays keep the first
    processors, I/O APICs, overrides and segments, and no counter wraps.  When it
    fails the state is empty. *)
Theorem acpi_init_exact m b address info :
  identity_mapped m (limit_of b) ->
  exists a code, acpi_init m b address info = Some (a, code) /\
    ((code = 0 /\ exists revision uses_xsdt l h, described m (limit_of b) address revision uses_xsdt l /\
        registers m (limit_of b) no_hardware (pointers l (width uses_xsdt)) h /\ represents (fun z => z) a 1 revision uses_xsdt h) \/
     (code = -1 /\ a = cleared /\ forall revision uses_xsdt l, ~ described m (limit_of b) address revision uses_xsdt l)).
Proof.
  intros Hm. unfold acpi_init. destruct (acpi_root_spec m b Hm address info) as (res & -> & Hres). rewrite bind_some. cbv zeta.
  destruct res as [info'|].
  2:{ exists cleared, (-1). split; [done|]. right. split; [done|]. split; [done|]. intros revision uses l (rsdt & xsdt & root & Hr & Hroot & _). by apply (Hres _ _ _ _ _ Hr Hroot). }
  destruct Hres as (rsdt & xsdt & l & Hrsdp & Hroot).
  pose proof (root_of_sdt _ _ _ _ _ Hroot) as Hsdt. cbn [fst] in Hsdt. pose proof Hsdt as [Hc Hs Hann _ _].
  assert ((if negb (ri_uses_xsdt info' =? 0) then 8 else 4) = width (ri_uses_xsdt info')) as -> by (unfold width; by destruct (_ =? 0)).
  rewrite (total_spec _ l Hc Hs Hann), bind_some.
  destruct (Z.eqb_spec ((size l - SDT_HEADER_SIZE) mod width (ri_uses_xsdt info')) 0) as [Hmod|Hmod]; cbn [negb].
  2:{ exists cleared, (-1). split; [done|]. right. split; [done|]. split; [done|]. intros revision uses l' (rsdt' & xsdt' & root & Hr' & Hroot' & Hmod').
      destruct (rsdp_fun _ _ _ _ _ _ _ _ _ Hrsdp Hr') as (_ & -> & ->). destruct (root_of_fun _ _ _ _ _ _ _ Hroot Hroot') as [[= _ <-] <-]. done. }
  destruct (register_loop m b Hm info' l _ _ _ _ _ Hc Hs (cleared_represents (ri_revision info') (ri_uses_xsdt info'))) as (a & h & -> & Ha & Hr).
  rewrite bind_some. eexists _, 0. split; [done|]. left. split; [done|]. exists (ri_revision info'), (ri_uses_xsdt info'), l, h.
  split; [by exists rsdt, xsdt, (ri_root_address info')|]. split; [done|].
  destruct (registers_bounds _ _ _ _ _ Hr) as (Hsound & Ht & Hrej & Hw); [done|cbn; lia|].
  assert (Z.of_nat (length (pointers l (width (ri_uses_xsdt info')))) <= size l) as Hn.
  { unfold pointers. rewrite length_map, length_seq. unfold SDT_HEADER_SIZE, width in *. destruct (_ =? 0); rewrite Z2Nat.id; try (apply Z.div_pos; lia);
      apply Z.div_le_upper_bound; lia. }
  change (weight no_hardware) with 0 in Hw. change (h_rejected no_hardware) with 0 in Hrej. change (length (h_tables no_hardware)) with 0%nat in Hw.
  unfold ACPI_MAX_TABLE_SIZE in *. destruct Ha as [Es Htab Hcpu Hio Hov Hseg]. constructor; cbn; try done.
  rewrite Es, status_exact by (done || (change (2 ^ 32) with 4294967296; lia)). done.
Qed.

(** ** Discovery *)

Section discovery.
Context (m : pointer) (end_ : Z) (Hend : 0 <= end_ < 2 ^ 40).

(** The memory from [address] to the end of the area. *)
Lemma scan_step_ok address :
  readable (plus m address) (end_ - address) -> 0 <= address -> address + 32 <= end_ -> exists found, scan_step m end_ address = Some found.
Proof using Hend.
  intros Hr Ha He. destruct (readable_contents _ (end_ - address) ltac:(lia) Hr) as (l & Hl & Es). fold (size l) in Es. unfold scan_step, RSDP_V1_SIZE, RSDP_V2_SIZE.
  rewrite (equal_text_spec _ l Hl) by (cbn; lia). rewrite bind_some. destruct (negb _); [by eexists|].
  rewrite (checksum_spec _ l), bind_some by (done || lia). destruct (negb _); [by eexists|]. unfold rsdp_revision, rsdp_length.
  rewrite (value_8 _ l Hl), bind_some by lia. destruct (2 <=? _); [|by eexists]. rewrite (value_32 _ l Hl), bind_some by lia.
  pose proof (le_fits l 20 4 (proj1 Hl) ltac:(lia) ltac:(lia) ltac:(lia)) as Fn. destruct (_ || _) eqn:Ec; [by eexists|].
  change (256 ^ 4) with 4294967296 in Fn. change (2 ^ 40) with 1099511627776 in Hend. rewrite u64_small in Ec by (unfold fits; pow2; lia).
  rewrite !orb_false_iff, !Z.ltb_ge in Ec. rewrite (checksum_spec _ l) by (done || lia). by eexists.
Qed.

Lemma scan_loop fuel address :
  0 < address <= end_ -> (end_ - address) mod 16 = 0 -> (forall k, address <= k <= end_ -> readable (plus m k) (end_ - k)) -> end_ - address < 16 * Z.of_nat fuel ->
  exists r, while_loop fuel (fun address =>
      if u64 (address + RSDP_V1_SIZE) <=? end_ then
        found ← scan_step m end_ address; Some (if found : bool then inr address else inl (u64 (address + 16)))
      else Some (inr 0)) address = Some r /\
    (r = 0 \/ address <= r /\ r + 32 <= end_ /\ (end_ - r) mod 16 = 0 /\ scan_step m end_ r = Some true) /\
    (forall k, address <= k -> k + 32 <= end_ -> (end_ - k) mod 16 = 0 -> r = 0 \/ k < r -> scan_step m end_ k = Some false).
Proof using Hend.
  change (2 ^ 40) with 1099511627776 in Hend. unfold RSDP_V1_SIZE. revert address. induction fuel as [|fuel IH]; intros address Ha Hmod Hr Hf; [lia|].
  assert (exists q, end_ - address = 16 * q) as [q Hq] by (exists ((end_ - address) / 16); by apply Z.div_exact).
  rewrite while_loop_S, u64_small by (unfold fits; pow2; lia). destruct (Z.leb_spec (address + 20) end_).
  2:{ rewrite bind_some. exists 0. split; [done|]. split; [by left|]. intros k H1 H2. lia. }
  destruct (scan_step_ok address) as [found E]; [apply Hr; lia|lia|lia|]. rewrite E, bind_some. destruct found.
  { rewrite bind_some. exists address. split; [done|]. split; [right; split; [lia|]; split; [lia|done]|]. intros k H1 H2 H3 H4. lia. }
  rewrite !bind_some, u64_small by (unfold fits; pow2; lia). destruct (IH (address + 16)) as (r & E' & Hcase & Hno); [lia| |intros k Hk; apply Hr; lia|lia|].
  { replace (end_ - (address + 16)) with (end_ - address + -1 * 16) by lia. by rewrite Z.mod_add. }
  exists r. split; [done|]. split; [destruct Hcase as [|(? & ?)]; [by left|right; split; [lia|done]]|]. intros k H1 H2 H3 H4.
  destruct (Z.eq_dec k address) as [->|]; [done|]. apply Hno; [|done..].
  assert (exists q', end_ - k = 16 * q') as [q' Hq'] by (exists ((end_ - k) / 16); by apply Z.div_exact). lia.
Qed.

Lemma scan_rsdp_range_spec start :
  0 < start <= end_ -> start mod 16 = 0 -> end_ mod 16 = 0 -> (forall k, start <= k <= end_ -> readable (plus m k) (end_ - k)) ->
  exists r, scan_rsdp_range m start end_ = Some r /\
    (r = 0 \/ start <= r /\ r + 32 <= end_ /\ (end_ - r) mod 16 = 0 /\ scan_step m end_ r = Some true) /\
    (forall k, start <= k -> k + 32 <= end_ -> (end_ - k) mod 16 = 0 -> r = 0 \/ k < r -> scan_step m end_ k = Some false).
Proof using Hend.
  intros Hs H1 H2 Hr. unfold scan_rsdp_range. change (2 ^ 40) with 1099511627776 in Hend.
  assert (u64 (start + 15) &&& compl 64 15 = start) as ->.
  { rewrite u64_small by (unfold fits; pow2; lia). change 15 with (2 ^ 4 - 1) at 2. rewrite land_compl_mask by (unfold fits; pow2; lia). change (2 ^ 4) with 16.
    apply Z.div_exact in H1; [|done]. rewrite <- (Z.div_unique (start + 15) 16 (start / 16) 15) by lia. lia. }
  apply scan_loop; [lia| |done|].
  - by rewrite Zminus_mod, H1, H2.
  - pose proof (Z.mul_succ_div_gt (end_ - start) 16 ltac:(lia)). lia.
Qed.

End discovery.

(** Discovery ends, with 0 or the first valid root pointer of the extended BIOS
    data area, or else of the BIOS. *)
Lemma acpi_discover_rsdp_ok m :
  (forall a, 0 <= a < 0x100000 -> exists b, m a = Some b /\ fits 8 b) ->
  exists r, acpi_discover_rsdp m = Some r /\
    (r = 0 \/ exists end_, scan_step m end_ r = Some true /\ (0x80000 <= r < 0xA0000 + 1024 \/ 0xE0000 <= r < 0x100000)).
Proof.
  intros Hm. assert (Hr : forall e, 0 <= e <= 0x100000 -> forall k, 0 <= k <= e -> readable (plus m k) (e - k)) by (intros e He k Hk o Ho; apply Hm; lia).
  unfold acpi_discover_rsdp. destruct (load16_ok m 0x1000) with (o := 0x40e) as (segment & -> & Fs); [intros o Ho; apply Hm; lia|lia|done|].
  rewrite bind_some. unfold fits in Fs. change (2 ^ 16) with 65536 in Fs. rewrite Z.shiftl_mul_pow2 by lia. change (2 ^ 4) with 16.
  rewrite !u64_small by (unfold fits; pow2; lia). cbv zeta. set (ebda := segment * 16).
  assert (Hlast : exists r, scan_rsdp_range m 0xE0000 0x100000 = Some r /\
    (r = 0 \/ exists end_, scan_step m end_ r = Some true /\ (0x80000 <= r < 0xA0000 + 1024 \/ 0xE0000 <= r < 0x100000))).
  { destruct (scan_rsdp_range_spec m 0x100000 ltac:(done) 0xE0000) as (r & -> & Hcase & _); [lia|done|done|intros k Hk; apply Hr; lia|].
    exists r. split; [done|]. destruct Hcase as [->|(? & ? & ? & ?)]; [by left|right]. exists 0x100000. split; [done|]. right. lia. }
  destruct ((0x80000 <=? ebda) && (ebda <? 0xA0000)) eqn:E; [|by rewrite bind_some]. apply andb_true_iff in E as [E1%Z.leb_le E2%Z.ltb_lt].
  destruct (scan_rsdp_range_spec m (ebda + 1024) ltac:(change (2 ^ 40) with 1099511627776; lia) ebda) as (r & -> & Hcase & _);
    [lia|by apply Z.mod_mul|unfold ebda; replace (segment * 16 + 1024) with ((segment + 64) * 16) by lia; by apply Z.mod_mul|intros k Hk; apply Hr; lia|].
  rewrite bind_some. destruct (Z.eqb_spec r 0) as [->|Hne]; [done|]. exists r. split; [done|]. right. destruct Hcase as [|(? & ? & ? & ?)]; [done|].
  exists (ebda + 1024). split; [done|]. left. lia.
Qed.

(** ** Queries *)

Lemma stored_info_spec {A} limit (s : stored A) l index r :
  shows limit s l -> 0 <= index -> stored_info s index (Some r) =
    Some (if index <? Z.min limit (Z.of_nat (length l)) then (l !! Z.to_nat index, 0) else (Some r, -1)).
Proof.
  intros [Hs Hn Hi] Hx. unfold stored_info. rewrite Hn. destruct (Z.leb_spec (Z.min limit (Z.of_nat (length l))) index); [by rewrite (proj2 (Z.ltb_ge _ _)) by lia|].
  rewrite (proj2 (Z.ltb_lt _ _)) by lia. rewrite Hn in Hi. apply (f_equal (fun l => l !! Z.to_nat index)) in Hi. rewrite !lookup_take_lt in Hi by lia.
  unfold rd. rewrite (proj2 (Z.ltb_ge _ _)) by lia. rewrite Hi. destruct (lookup_lt_is_Some_2 l (Z.to_nat index)) as [x ->]; [lia|]. done.
Qed.

Lemma registers_sdt m limit h ts h' ls :
  registers m limit h ts h' -> Forall2 (sdt m limit) (h_tables h) ls -> exists ls', Forall2 (sdt m limit) (h_tables h') ls'.
Proof.
  intros Hr. revert ls. induction Hr as [h|h t ts h1 h' (_ & l & h0 & Hl & Hsay & ->) Hr IH|h t ts h' _ Hr IH]; intros ls Hls; [by exists ls|..].
  - apply (IH (ls ++ [l])). destruct (says_grows l h h0 Hsay) as (_ & _ & _ & Et); [pose proof (sdt_size _ _ _ _ Hl); unfold SDT_HEADER_SIZE in *; lia|].
    rewrite <- Et in Hls. destruct h0. apply Forall2_app; [done|]. by constructor.
  - apply (IH ls). by destruct h.
Qed.

(** Finding a table.  When the state stands for some hardware and [ls] are
    the bytes of the registered tables, [acpi_find_table] ends without a fault
    and returns the address of the [instance]-th registered table with the
    signature, or NULL when there are not as many. *)
Theorem acpi_find_table_exact f m limit a av rev x h ls text instance :
  represents f a av rev x h -> Forall2 (sdt m limit) (h_tables h) ls -> length text = 4%nat -> 0 <= instance ->
  acpi_find_table m a (Some text) instance =
    Some (default 0 ((filter (fun e => signature e.2 = text) (zip (h_tables h) ls)).*1 !! Z.to_nat instance)).
Proof.
  intros Ha Hls Ht Hi. unfold acpi_find_table. rewrite (rep_state _ _ _ _ _ _ Ha). cbn [st_table_count status_of]. rewrite Nat2Z.id.
  destruct (rep_tables _ _ _ _ _ _ Ha) as (_ & _ & Hreg).
  set (es := zip (h_tables h) ls). assert (length es = length (h_tables h)) as Hlen by (unfold es; rewrite length_zip_with, <- (Forall2_length _ _ _ Hls); lia).
  assert (Hes : forall i e, es !! i = Some e -> rd (registry a) (Z.of_nat i) = Some (RegistryEntry e.1 e.1) /\ sdt m limit e.1 e.2).
  { intros i [t l] He. apply lookup_zip_with_Some in He as (t' & l' & [= <- <-] & Et & El). split; [|by apply (Forall2_lookup_lr _ _ _ _ _ _ Hls Et El)].
    apply rd_Some. split; [lia|]. rewrite Nat2Z.id. apply (f_equal (fun l => l !! i)) in Hreg. rewrite lookup_take_lt in Hreg by (by apply lookup_lt_Some in Et).
    rewrite Hreg, list_lookup_fmap, Et. done. }
  assert (Hgen : forall n i k, (i + n = length es)%nat -> 0 <= k ->
    (r ← for_break n (Z.of_nat i) (fun index instance => e ← rd (registry a) index; same ← equal_text (plus m (re_header e)) 0 text;
       Some (if same : bool then if instance =? 0 then inr (re_header e) else inl (instance - 1) else inl instance)) k;
     Some (match r with inl _ => 0 | inr header => header end)) = Some (default 0 ((filter (fun e => signature e.2 = text) (drop i es)).*1 !! Z.to_nat k))).
  { induction n as [|n IH]; intros i k Hn Hk; [by rewrite for_break_0, bind_some, drop_ge by lia|]. rewrite for_break_S.
    destruct (lookup_lt_is_Some_2 es i) as [e He]; [lia|]. destruct (Hes i e He) as [-> Hsdt]. pose proof Hsdt as [Hc Hs _ _ _]. rewrite !bind_some. cbn [re_header].
    rewrite (signature_spec _ e.2 text Hc (proj1 Hs) Ht), bind_some, (drop_S _ _ _ He), filter_cons. replace (Z.of_nat i + 1) with (Z.of_nat (S i)) by lia.
    case_bool_decide as E; [rewrite decide_True by done|rewrite decide_False by done; apply IH; lia]. cbn [fmap list_fmap].
    destruct (Z.eqb_spec k 0) as [->|Hne]; [done|]. etransitivity; [apply (IH (S i) (k - 1)); lia|]. do 2 f_equal. replace (Z.to_nat k) with (S (Z.to_nat (k - 1))) by lia. done. }
  rewrite <- Hlen. apply (Hgen (length es) 0%nat instance); [lia|done].
Qed.

(** ** A small machine *)

Definition sample_rsdp : list Z := summed 8 (sig "RSD PTR " ++ replicate 8 0 ++ le_bytes 4 0x1020).
Definition sample_rsdt : list Z := summed 9 (sig "RSDT" ++ le_bytes 4 40 ++ replicate 28 0 ++ le_bytes 4 0x1060).
(** An interrupt table with one processor, number 7. *)
Definition sample_madt : list Z :=
  summed 9 (sig "APIC" ++ le_bytes 4 52 ++ replicate 28 0 ++ le_bytes 4 0xFEE00000 ++ le_bytes 4 1 ++ [0; 8; 3; 7; 1; 0; 0; 0]).
Definition sample_tables : list Z := sample_rsdp ++ replicate 12 0 ++ sample_rsdt ++ replicate 24 0 ++ sample_madt.
Definition acpi_memory : pointer := memory_at 0x1000 sample_tables.

Lemma acpi_memory_mapped : identity_mapped acpi_memory (limit_of clear_snapshot).
Proof. apply memory_at_mapped. apply (bool_decide_unpack _). by vm_compute. Qed.

(** What [acpi_init] finds: its status, and the processors. *)
Lemma acpi_sample : match acpi_init acpi_memory clear_snapshot 0x1000 (RsdpInfo 0 0 0 []) with
  | Some (a, 0) => acpi_cpu_get a 0 (Some (CpuInfo 0 0 0 0 0)) = Some (Some (CpuInfo 3 7 1 0 0), 0) /\ acpi_table_count a = 1 | _ => False end.
Proof. by vm_compute. Qed.

Lemma acpi_init_exact_witness :
  exists a h, acpi_init acpi_memory clear_snapshot 0x1000 (RsdpInfo 0 0 0 []) = Some (a, 0) /\ represents (fun z => z) a 1 0 0 h /\
    acpi_cpu_get a 0 (Some (CpuInfo 0 0 0 0 0)) = Some (Some (CpuInfo 3 7 1 0 0), 0).
Proof.
  destruct (acpi_init_exact acpi_memory clear_snapshot 0x1000 (RsdpInfo 0 0 0 []) acpi_memory_mapped) as (a & code & E & Hcase).
  pose proof acpi_sample as Hs. rewrite E in Hs.
  destruct Hcase as [(-> & revision & uses & l & h & _ & _ & Hr)|(-> & _)]; [|destruct Hs].
  exists a, h. split; [exact E|]. split; [|exact (proj1 Hs)].
  assert (match acpi_init acpi_memory clear_snapshot 0x1000 (RsdpInfo 0 0 0 []) with
    | Some (a, _) => st_revision (state a) = 0 /\ st_uses_xsdt (state a) = 0 | None => False end) as Hx by (vm_compute; split; reflexivity).
  rewrite E in Hx. rewrite (rep_state _ _ _ _ _ _ Hr) in Hx. cbn [st_revision st_uses_xsdt status_of] in Hx. destruct Hx as [-> ->]. exact Hr.
Defined.

Lemma sample_madt_sdt : sdt acpi_memory (limit_of clear_snapshot) 0x1060 sample_madt.
Proof.
  assert (contents (plus acpi_memory 0x1000) sample_tables) as Hc.
  { split; [apply (bool_decide_unpack _); by vm_compute|]. intros o Ho. unfold plus, acpi_memory, memory_at. replace (0x1000 + o - 0x1000) with o by lia.
    destruct (rd_ok sample_tables o Ho) as [v ->]. done. }
  constructor; [|by vm_compute..]. apply (contents_plus acpi_memory 0x1000 sample_tables 0x60 Hc). by vm_compute.
Qed.

Lemma acpi_find_table_exact_witness :
  exists a, acpi_find_table acpi_memory a (Some (sig "APIC")) 0 = Some 0x1060 /\ acpi_find_table acpi_memory a (Some (sig "APIC")) 1 = Some 0.
Proof.
  set (h := add_table 0x1060 no_hardware).
  set (a := Acpi (RegistryEntry 0x1060 0x1060 :: replicate 63 (RegistryEntry 0 0)) (cpus cleared) (ioapics cleared) (overrides cleared) (mcfg_segments cleared)
    (status_of (fun z => z) 0 0 0 h)).
  assert (represents (fun z => z) a 0 0 0 h) as Ha by (constructor; try done; split; [cbn; lia|done]).
  assert (Forall2 (sdt acpi_memory (limit_of clear_snapshot)) (h_tables h) [sample_madt]) as Hf by (constructor; [apply sample_madt_sdt|constructor]).
  exists a. split.
  - exact (acpi_find_table_exact _ _ _ a 0 0 0 h _ (sig "APIC") 0 Ha Hf eq_refl ltac:(lia)).
  - exact (acpi_find_table_exact _ _ _ a 0 0 0 h _ (sig "APIC") 1 Ha Hf eq_refl ltac:(lia)).
Defined.
