(* ===== verification/Smbios.v ===== *)
(** * SMBIOS tables: src/firmware/smbios.c

    The entry point and the table of structures that describe the machine.
    Pointers are those of Firmware.v; inside the table a pointer is an offset.
    The fields of [smbios_info_t] are in three records: the header, the counts,
    and the eight arrays of characters. *)

From Stdlib Require Import String.
From S2P Require Import Prelude Buffer Firmware Bootinfo.

#[local] Open Scope Z_scope.

Definition SMBIOS2_MIN_SIZE : Z := 31.
Definition SMBIOS3_MIN_SIZE : Z := 24.
Definition SMBIOS_TEXT_MAX : Z := 64.
Definition SMBIOS_MAX_TABLE_SIZE : Z := 1024 * 1024.

Record smbios_counts := Counts {
  parsed_structures : Z; bios_structures : Z; system_structures : Z; baseboard_structures : Z; processor_structures : Z;
  memory_device_structures : Z; populated_memory_devices : Z; installed_memory_mib : Z; maximum_memory_speed_mhz : Z;
}.

Record smbios_texts := Texts {
  bios_vendor : list Z; bios_version : list Z; system_manufacturer : list Z; system_product : list Z;
  system_version : list Z; system_serial : list Z; baseboard_manufacturer : list Z; baseboard_product : list Z;
}.

Record smbios_info := Info {
  available : Z; entry_point_64 : Z; major : Z; minor : Z; document_revision : Z;
  table_address : Z; table_size : Z; announced_structures : Z;
  counts : smbios_counts; texts : smbios_texts;
}.

Definition no_counts : smbios_counts := Counts 0 0 0 0 0 0 0 0 0.
Definition no_text : list Z := replicate (Z.to_nat SMBIOS_TEXT_MAX) 0.
Definition no_texts : smbios_texts := Texts no_text no_text no_text no_text no_text no_text no_text no_text.
Definition no_info : smbios_info := Info 0 0 0 0 0 0 0 0 no_counts no_texts.

Definition checksum_valid (data : pointer) (length : Z) : option bool :=
  sum ← byte_sum data length; Some (sum =? 0).

Definition mapped_range (address length : Z) : bool :=
  (0x1000 <=? address) && negb (length =? 0) && (address <? MVH_BOOTINFO_IDENTITY_LIMIT) &&
  (length <=? MVH_BOOTINFO_IDENTITY_LIMIT - address).

(** ** Texts *)

Definition printable (value : Z) : Z := if (0x20 <=? value) && (value <=? 0x7E) then value else 63.

Definition copy_text (output : list Z) (text : pointer) (length : Z) : option (list Z) :=
  let count := if SMBIOS_TEXT_MAX <=? length then SMBIOS_TEXT_MAX - 1 else length in
  output ← for_loop (Z.to_nat count) 0 (fun index output => value ← text index; wr output index (printable value)) output;
  wr output count 0.

(** [while (cursor < end && *cursor != 0) cursor++] *)
Definition skip_text (p : pointer) (end_ cursor : Z) : option Z :=
  while_loop (S (Z.to_nat (end_ - cursor))) (fun cursor =>
    if cursor <? end_ then c ← p cursor; Some (if negb (c =? 0) then inl (cursor + 1) else inr cursor) else Some (inr cursor)) cursor.

Definition string_step (output : list Z) (p : pointer) (end_ wanted : Z) (st : Z * Z) : option (Z * Z + list Z) :=
  let '(cursor, current_index) := st in
  if cursor <? end_ then
    c ← p cursor;
    if negb (c =? 0) then
      let start := cursor in
      cursor ← skip_text p end_ cursor;
      if current_index =? wanted then output ← copy_text output (plus p start) (u32 (cursor - start)); Some (inr output)
      else Some (inl (if cursor <? end_ then cursor + 1 else cursor, u8 (current_index + 1)))
    else Some (inr output)
  else Some (inr output).

Definition copy_structure_string (output : list Z) (p : pointer) (strings end_ wanted : Z) : option (list Z) :=
  output ← wr output 0 0;
  if wanted =? 0 then Some output else
  while_loop (S (Z.to_nat (end_ - strings))) (string_step output p end_ wanted) (strings, 1).

(** ** The entry point *)

Definition smbios_validate_entry_blob (data : option pointer) (size : Z) (result : option smbios_info) : option (option smbios_info * Z) :=
  match data, result with
  | Some bytes, Some _ =>
    let finish := fun r =>
      Some (Some r, if (major r =? 0) || (table_size r =? 0) || (SMBIOS_MAX_TABLE_SIZE <? table_size r) || (table_address r =? 0) then -1 else 0) in
    three ← (if SMBIOS3_MIN_SIZE <=? size then equal_text bytes 0 (chars "_SM3_"%string) else Some false);
    if three : bool then
      length ← bytes 6;
      if (length <? SMBIOS3_MIN_SIZE) || (size <? length) then Some (Some no_info, -1) else
      ok ← checksum_valid bytes length;
      if negb ok then Some (Some no_info, -1) else
      v_major ← bytes 7; v_minor ← bytes 8; v_document ← bytes 9; v_size ← load32 bytes 12; v_address ← load64 bytes 16;
      finish (Info 0 1 v_major v_minor v_document v_address v_size 0 no_counts no_texts)
    else
    two ← (if SMBIOS2_MIN_SIZE <=? size then equal_text bytes 0 (chars "_SM_"%string) else Some false);
    if two : bool then
      length ← bytes 5;
      if (length <? SMBIOS2_MIN_SIZE) || (size <? length) then Some (Some no_info, -1) else
      ok ← checksum_valid bytes length;
      if negb ok then Some (Some no_info, -1) else
      ok ← equal_text (plus bytes 16) 0 (chars "_DMI_"%string);
      if negb ok then Some (Some no_info, -1) else
      ok ← checksum_valid (plus bytes 16) 15;
      if negb ok then Some (Some no_info, -1) else
      v_major ← bytes 6; v_minor ← bytes 7; v_size ← load16 bytes 22; v_address ← load32 bytes 24; v_count ← load16 bytes 28;
      finish (Info 0 0 v_major v_minor 0 v_address v_size v_count no_counts no_texts)
    else Some (Some no_info, -1)
  | _, _ => Some (result, -1)
  end.

(** ** Structures *)

Definition bump_parsed (c : smbios_counts) : smbios_counts :=
  let '(Counts n b s bb p m pm mib mhz) := c in Counts (u32 (n + 1)) b s bb p m pm mib mhz.
Definition bump_bios (c : smbios_counts) : smbios_counts :=
  let '(Counts n b s bb p m pm mib mhz) := c in Counts n (u32 (b + 1)) s bb p m pm mib mhz.
Definition bump_system (c : smbios_counts) : smbios_counts :=
  let '(Counts n b s bb p m pm mib mhz) := c in Counts n b (u32 (s + 1)) bb p m pm mib mhz.
Definition bump_baseboard (c : smbios_counts) : smbios_counts :=
  let '(Counts n b s bb p m pm mib mhz) := c in Counts n b s (u32 (bb + 1)) p m pm mib mhz.
Definition bump_processor (c : smbios_counts) : smbios_counts :=
  let '(Counts n b s bb p m pm mib mhz) := c in Counts n b s bb (u32 (p + 1)) m pm mib mhz.

Definition parse_memory_device (structure : pointer) (length : Z) (c : smbios_counts) : option smbios_counts :=
  let '(Counts n b s bb p m pm mib mhz) := c in
  let m := u32 (m + 1) in
  if length <? 14 then Some (Counts n b s bb p m pm mib mhz) else
  size ← load16 structure 12;
  if (size =? 0) || (size =? 0xFFFF) then Some (Counts n b s bb p m pm mib mhz) else
  size_mib ← (if (size =? 0x7FFF) && (32 <=? length) then v ← load32 structure 28; Some (v &&& 0x7FFFFFFF)
              else if negb (size &&& 0x8000 =? 0) then Some ((size &&& 0x7FFF) / 1024) else Some size);
  let mib := if mib <=? U64_MAX - size_mib then u64 (mib + size_mib) else mib in
  speed ← (if 23 <=? length then load16 structure 21 else Some 0);
  Some (Counts n b s bb p m (u32 (pm + 1)) mib (if mhz <? speed then speed else mhz)).

(** The texts of one structure; [strings] and [cursor] bound its strings. *)
Definition structure_texts (bytes : pointer) (offset type length strings cursor : Z) (t : smbios_texts) : option smbios_texts :=
  let copy := fun output field => wanted ← bytes (offset + field); copy_structure_string output bytes strings cursor wanted in
  let '(Texts bv bver sm sp sv ss bm bp) := t in
  if (type =? 0) && (6 <=? length) then
    bv ← copy bv 4; bver ← copy bver 5; Some (Texts bv bver sm sp sv ss bm bp)
  else if (type =? 1) && (8 <=? length) then
    sm ← copy sm 4; sp ← copy sp 5; sv ← copy sv 6; ss ← copy ss 7; Some (Texts bv bver sm sp sv ss bm bp)
  else if (type =? 2) && (6 <=? length) then
    bm ← copy bm 4; bp ← copy bp 5; Some (Texts bv bver sm sp sv ss bm bp)
  else Some t.

Definition structure_counts (structure : pointer) (type length : Z) (c : smbios_counts) : option smbios_counts :=
  if type =? 0 then Some (bump_bios c) else
  if type =? 1 then Some (bump_system c) else
  if type =? 2 then Some (bump_baseboard c) else
  if type =? 4 then Some (bump_processor c) else
  if type =? 17 then parse_memory_device structure length c else Some c.

(** [while (cursor + 1 < end && !(cursor[0] == 0 && cursor[1] == 0)) cursor++] *)
Definition skip_strings (bytes : pointer) (size cursor : Z) : option Z :=
  while_loop (S (Z.to_nat (size - cursor))) (fun cursor =>
    if cursor + 1 <? size then
      c0 ← bytes cursor;
      if negb (c0 =? 0) then Some (inl (cursor + 1)) else
      c1 ← bytes (cursor + 1); Some (if negb (c1 =? 0) then inl (cursor + 1) else inr cursor)
    else Some (inr cursor)) cursor.

(** The state is the offset and the result; the loop ends with the result and
    [found_end], or fails ([None]). *)
Definition table_step (bytes : pointer) (size announced : Z) (st : Z * smbios_info)
  : option (Z * smbios_info + smbios_info * option bool) :=
  let '(offset, r) := st in
  if u32 (offset + 4) <=? size then
    let structure := plus bytes offset in
    type ← structure 0; length ← structure 1;
    if (length <? 4) || (size - offset <? length) then Some (inr (r, None)) else
    let strings := offset + length in
    cursor ← skip_strings bytes size strings;
    if size <=? cursor + 1 then Some (inr (r, None)) else
    c ← structure_counts structure type length (bump_parsed (counts r));
    t ← structure_texts bytes offset type length strings cursor (texts r);
    let r := Info (available r) (entry_point_64 r) (major r) (minor r) (document_revision r) (table_address r) (table_size r)
               (announced_structures r) c t in
    if type =? 127 then Some (inr (r, Some true)) else
    if negb (announced =? 0) && (announced <? parsed_structures c) then Some (inr (r, None)) else
    Some (inl (u32 (cursor + 2), r))
  else Some (inr (r, Some false)).

Definition smbios_parse_table_blob (data : option pointer) (size announced : Z) (result : option smbios_info)
  : option (option smbios_info * Z) :=
  match data, result with
  | Some bytes, Some r =>
    if (size <? 6) || (SMBIOS_MAX_TABLE_SIZE <? size) then Some (result, -1) else
    '(r, found_end) ← while_loop (S (Z.to_nat size)) (table_step bytes size announced) (0, r);
    Some (Some r, match found_end with
                  | None => -1
                  | Some found_end =>
                    if negb found_end && (announced =? 0) then -1 else
                    if negb (announced =? 0) && negb (parsed_structures (counts r) =? announced) then -1 else 0
                  end)
  | _, _ => Some (result, -1)
  end.

(** ** Initialisation and discovery *)

(** The size of the entry point, from its length byte; [None] is not one. *)
Definition entry_size (entry : pointer) : option (option Z) :=
  three ← equal_text entry 0 (chars "_SM3_"%string);
  if three : bool then n ← entry 6; Some (Some n) else
  two ← equal_text entry 0 (chars "_SM_"%string);
  if two : bool then n ← entry 5; Some (Some n) else Some None.

(** The new value of [current] and the status; [parsed] is what the local
    variable of that name holds before. *)
Definition smbios_init (m : pointer) (entry_address : Z) (parsed : smbios_info) : option (smbios_info * Z) :=
  if negb (mapped_range entry_address 16) then Some (no_info, -1) else
  let entry := plus m entry_address in
  n ← entry_size entry;
  match n with
  | None => Some (no_info, -1)
  | Some size =>
    if negb (mapped_range entry_address size) then Some (no_info, -1) else
    '(parsed, code) ← smbios_validate_entry_blob (Some entry) size (Some parsed);
    if negb (code =? 0) then Some (no_info, -1) else
    parsed ← parsed;
    if negb (mapped_range (table_address parsed) (table_size parsed)) then Some (no_info, -1) else
    '(parsed, code) ← smbios_parse_table_blob (Some (plus m (table_address parsed))) (table_size parsed) (announced_structures parsed) (Some parsed);
    if negb (code =? 0) then Some (no_info, -1) else
    r ← parsed;
    Some (Info 1 (entry_point_64 r) (major r) (minor r) (document_revision r) (table_address r) (table_size r) (announced_structures r)
            (counts r) (texts r), 0)
  end.

Definition smbios_discover_entry (m : pointer) (parsed : smbios_info) : option Z :=
  r ← for_break (Z.to_nat ((0x100000 - 32 - 0xF0000) / 16 + 1)) 0 (fun index parsed =>
        let address := 0xF0000 + 16 * index in
        let entry := plus m address in
        n ← entry_size entry;
        match n with
        | None => Some (inl parsed)
        | Some size =>
          if (16 <=? size) && (size <=? 64) && (address + size <=? 0x100000) then
            '(r, code) ← smbios_validate_entry_blob (Some entry) size (Some parsed);
            parsed ← r;
            Some (if code =? 0 then inr address else inl parsed)
          else Some (inl parsed)
        end) parsed;
  Some (match r with inl _ => 0 | inr address => address end).

(** ** Self test *)

Definition set_checksum (data : list Z) (start length offset : Z) : option (list Z) :=
  data ← wr data (start + offset) 0;
  sum ← byte_sum (plus (rd data) start) length;
  wr data (start + offset) (u8 (0 - sum)).

Definition test_entry : list Z := chars "_SM3_"%string ++ [0; SMBIOS3_MIN_SIZE; 3; 6; 0; 0; 0; 16; 0; 0; 0; 0; 0x20; 0; 0; 0; 0; 0; 0].
Definition test_entry2 : list Z :=
  chars "_SM_"%string ++ [0; SMBIOS2_MIN_SIZE; 2; 8; 0; 0; 0; 0; 0; 0; 0; 0] ++ chars "_DMI_"%string ++ [0; 16; 0; 0; 0x20; 0; 0; 1; 0; 0].
Definition test_table (length : Z) : list Z := [127; length] ++ replicate 14 0.

Definition smbios_self_test (parsed : smbios_info) : option Z :=
  entry ← set_checksum test_entry 0 SMBIOS3_MIN_SIZE 5;
  '(r, code) ← smbios_validate_entry_blob (Some (rd entry)) SMBIOS3_MIN_SIZE (Some parsed);
  parsed ← r;
  if negb (code =? 0) || negb (major parsed =? 3) || negb (table_size parsed =? 16) then Some (-1) else
  '(r, code) ← smbios_parse_table_blob (Some (rd (test_table 4))) 16 0 (Some parsed);
  parsed ← r;
  if negb (code =? 0) || negb (parsed_structures (counts parsed) =? 1) then Some (-1) else
  b ← rd entry 5; entry ← wr entry 5 (u8 (b + 1));
  '(r, code) ← smbios_validate_entry_blob (Some (rd entry)) SMBIOS3_MIN_SIZE (Some parsed);
  parsed ← r;
  if code =? 0 then Some (-1) else
  entry2 ← set_checksum test_entry2 16 15 5;
  entry2 ← set_checksum entry2 0 SMBIOS2_MIN_SIZE 4;
  '(r, code) ← smbios_validate_entry_blob (Some (rd entry2)) SMBIOS2_MIN_SIZE (Some parsed);
  parsed ← r;
  if negb (code =? 0) || negb (entry_point_64 parsed =? 0) || negb (major parsed =? 2) || negb (announced_structures parsed =? 1) then Some (-1) else
  '(r, code) ← smbios_parse_table_blob (Some (rd (test_table 3))) 16 0 (Some parsed);
  Some (if negb (code =? 0) then 0 else -1).

Lemma smbios_self_test_passes parsed : smbios_self_test parsed = Some 0.
Proof. by vm_compute. Qed.
