(* ===== verification/SmbiosSpec.v ===== *)
(** * SMBIOS tables: what they say

    A table is a sequence of structures: a formatted area that begins with its
    type and length, and a set of strings that ends with two NUL bytes.  The
    machine that a list of structures describes is a function of their bytes. *)

From Stdlib Require Import String.
From S2P Require Import Prelude Buffer Firmware Bootinfo Smbios.

#[local] Open Scope Z_scope.

(** ** Structures *)

Record structure := Structure { formatted : list Z; area : list Z }.
Definition kind (s : structure) : Z := byte (formatted s) 0.
Definition bytes_of (s : structure) : list Z := formatted s ++ area s ++ [0; 0].

(** Two NUL bytes at a place. *)
Definition pair (l : list Z) (i : Z) : Prop := byte l i = 0 /\ byte l (i + 1) = 0.

(** The two NUL bytes after the strings are the first there are. *)
Definition structure_ok (s : structure) : Prop :=
  4 <= size (formatted s) /\ byte (formatted s) 1 = size (formatted s) /\
  forall i, 0 <= i < size (area s) -> ~ pair (area s ++ [0; 0]) i.

(** A table: structures up to the one of type 127, or up to the end. *)
Inductive table : list Z -> list structure -> bool -> Prop :=
  | table_end l : size l < 4 -> table l [] false
  | table_stop s rest : structure_ok s -> kind s = 127 -> table (bytes_of s ++ rest) [s] true
  | table_more s rest ss f : structure_ok s -> kind s <> 127 -> table rest ss f -> table (bytes_of s ++ rest) (s :: ss) f.

(** With a number of structures announced (0: none) or without. *)
Definition table_ok (l : list Z) (announced : Z) (ss : list structure) : Prop :=
  6 <= size l <= SMBIOS_MAX_TABLE_SIZE /\ exists f, table l ss f /\ (announced = 0 -> f = true) /\ (announced <> 0 -> Z.of_nat (length ss) = announced).

(** ** Strings *)

(** The bytes between the NULs. *)
Fixpoint words (t : list Z) : list (list Z) :=
  match t with
  | [] => [[]]
  | c :: t => if c =? 0 then [] :: words t else match words t with w :: ws => (c :: w) :: ws | [] => [[c]] end
  end.
Fixpoint until_empty (ws : list (list Z)) : list (list Z) :=
  match ws with [] => [] | w :: ws => match w with [] => [] | _ => w :: until_empty ws end end.
Definition string_set (t : list Z) : list (list Z) := until_empty (words t).

(** String number [n] of a structure, from 1 on; 0 is none. *)
Definition string_number (s : structure) (n : Z) : list Z :=
  if n =? 0 then [] else default [] (string_set (area s) !! Z.to_nat (n - 1)).

(** What is kept of it: 63 characters, and a question mark where a character
    cannot be printed. *)
Definition shown (w : list Z) : list Z := map printable (take 63 w).
Definition field_text (s : structure) (o : Z) : list Z := shown (string_number s (byte (formatted s) o)).

(** ** The machine *)

(** The size of a memory device in MiB, if it is there, and its speed. *)
Definition device_mib (f : list Z) : option Z :=
  if size f <? 14 then None else
  let n := le f 12 2 in
  if (n =? 0) || (n =? 0xFFFF) then None else
  Some (if (n =? 0x7FFF) && (32 <=? size f) then le f 28 4 mod 2 ^ 31 else if 0x8000 <=? n then (n - 0x8000) / 1024 else n).
Definition device_mhz (f : list Z) : Z := if 23 <=? size f then le f 21 2 else 0.

Definition counts_says (s : structure) (c : smbios_counts) : smbios_counts :=
  let '(Counts n b sy bb p m pm mib mhz) := c in
  let n := n + 1 in
  if kind s =? 0 then Counts n (b + 1) sy bb p m pm mib mhz else
  if kind s =? 1 then Counts n b (sy + 1) bb p m pm mib mhz else
  if kind s =? 2 then Counts n b sy (bb + 1) p m pm mib mhz else
  if kind s =? 4 then Counts n b sy bb (p + 1) m pm mib mhz else
  if kind s =? 17 then
    match device_mib (formatted s) with
    | None => Counts n b sy bb p (m + 1) pm mib mhz
    | Some k => Counts n b sy bb p (m + 1) (pm + 1) (mib + k) (Z.max mhz (device_mhz (formatted s)))
    end
  else Counts n b sy bb p m pm mib mhz.

Definition texts_say (s : structure) (t : smbios_texts) : smbios_texts :=
  let '(Texts bv bver sm sp sv ss bm bp) := t in
  let f := field_text s in
  if (kind s =? 0) && (6 <=? size (formatted s)) then Texts (f 4) (f 5) sm sp sv ss bm bp
  else if (kind s =? 1) && (8 <=? size (formatted s)) then Texts bv bver (f 4) (f 5) (f 6) (f 7) bm bp
  else if (kind s =? 2) && (6 <=? size (formatted s)) then Texts bv bver sm sp sv ss (f 4) (f 5)
  else t.

Definition machine_counts (ss : list structure) (c : smbios_counts) : smbios_counts := foldl (fun c s => counts_says s c) c ss.
Definition machine_texts (ss : list structure) (t : smbios_texts) : smbios_texts := foldl (fun t s => texts_say s t) t ss.

(** An array that holds a text. *)
Definition holds_text (output s : list Z) : Prop := length output = 64%nat /\ exists rest, output = s ++ 0 :: rest.
Record hold_texts (t s : smbios_texts) : Prop := {
  hold_bv : holds_text (bios_vendor t) (bios_vendor s);
  hold_bver : holds_text (bios_version t) (bios_version s);
  hold_sm : holds_text (system_manufacturer t) (system_manufacturer s);
  hold_sp : holds_text (system_product t) (system_product s);
  hold_sv : holds_text (system_version t) (system_version s);
  hold_ss : holds_text (system_serial t) (system_serial s);
  hold_bm : holds_text (baseboard_manufacturer t) (baseboard_manufacturer s);
  hold_bp : holds_text (baseboard_product t) (baseboard_product s);
}.

(** ** The entry point *)

Inductive entry : list Z -> smbios_info -> Prop :=
  | entry_3 e : take 5 e = chars "_SM3_"%string -> SMBIOS3_MIN_SIZE <= size e -> byte e 6 = size e -> sum e mod 256 = 0 ->
      entry e (Info 0 1 (byte e 7) (byte e 8) (byte e 9) (le e 16 8) (le e 12 4) 0 no_counts no_texts)
  | entry_2 e : take 4 e = chars "_SM_"%string -> SMBIOS2_MIN_SIZE <= size e -> byte e 5 = size e -> sum e mod 256 = 0 ->
      slice e 16 5 = chars "_DMI_"%string -> sum (slice e 16 15) mod 256 = 0 ->
      entry e (Info 0 0 (byte e 6) (byte e 7) 0 (le e 24 4) (le e 22 2) (le e 28 2) no_counts no_texts).

Definition entry_ok (e : list Z) (r : smbios_info) : Prop :=
  entry e r /\ major r <> 0 /\ 0 < table_size r <= SMBIOS_MAX_TABLE_SIZE /\ table_address r <> 0.

(** The entry point and the table in memory. *)
Definition machine_described (m : pointer) (address : Z) (r : smbios_info) (ss : list structure) : Prop :=
  exists e l, contents (plus m address) e /\ within MVH_BOOTINFO_IDENTITY_LIMIT address (size e) /\ entry_ok e r /\
    contents (plus m (table_address r)) l /\ size l = table_size r /\ within MVH_BOOTINFO_IDENTITY_LIMIT (table_address r) (size l) /\
    table_ok l (announced_structures r) ss.
