(* ===== verification/SmbiosCorrect.v ===== *)
(** * SMBIOS tables: correctness

    [smbios_init] reads from any memory what SmbiosSpec.v says the entry point
    and the table mean, and never leaves the mapped memory or an array. *)

From Stdlib Require Import String.
From S2P Require Import Prelude Buffer Firmware Bootinfo Smbios SmbiosSpec.

#[local] Open Scope Z_scope.

(** ** Texts *)

Lemma copy_text_spec output p s :
  length output = 64%nat -> contents p s -> exists output', copy_text output p (size s) = Some output' /\ holds_text output' (shown s).
Proof.
  intros Ho Hp. unfold copy_text, SMBIOS_TEXT_MAX. set (count := if 64 <=? size s then 64 - 1 else size s).
  assert (0 <= count <= 63 /\ count <= size s /\ length (take 63 s) = Z.to_nat count) as (Hc & Hs & Ht).
  { unfold count, size. rewrite length_take. destruct (Z.leb_spec 64 (Z.of_nat (length s))); lia. }
  destruct (for_loop_rule (fun j out => length out = 64%nat /\ take (Z.to_nat j) out = map printable (take (Z.to_nat j) s))
    (Z.to_nat count) 0 (fun index output => value ← p index; wr output index (printable value)) output) as (out & -> & Hl & Hout).
  - done.
  - intros j out Hj [Hl Hout]. rewrite (value_8 _ s Hp), bind_some, wr_ok by lia. eexists. split; [done|]. split; [by rewrite length_insert|].
    replace (Z.to_nat (j + 1)) with (S (Z.to_nat j)) by lia. pose proof (byte_rd s j ltac:(lia)) as E. apply rd_Some in E as [_ E].
    rewrite (take_S_r _ _ _ E), map_app. rewrite (take_S_r _ _ (printable (byte s j))) by (apply list_lookup_insert_eq; lia). by rewrite take_insert_ge, Hout by lia.
  - rewrite bind_some, wr_ok by lia. eexists. split; [done|]. split; [by rewrite length_insert|].
    replace (Z.to_nat (0 + Z.of_nat (Z.to_nat count))) with (Z.to_nat count) in Hout by lia.
    exists (drop (S (Z.to_nat count)) out). unfold shown. replace (take 63 s) with (take (Z.to_nat count) s).
    + rewrite <- Hout. by rewrite insert_take_drop by lia.
    + unfold count, size in *. destruct (Z.leb_spec 64 (Z.of_nat (length s))); [done|]. by rewrite !take_ge by lia.
Qed.

(** ** The set of strings *)

Lemma words_cons w t : Forall (fun c => c <> 0) w -> words (w ++ 0 :: t) = w :: words t.
Proof. induction 1 as [|c w Hc Hw IH]; [done|]. cbn [app words]. rewrite (proj2 (Z.eqb_neq _ _) Hc). by rewrite IH. Qed.

Lemma words_last w : Forall (fun c => c <> 0) w -> words w = [w].
Proof. induction 1 as [|c w Hc Hw IH]; [done|]. cbn [words]. rewrite (proj2 (Z.eqb_neq _ _) Hc). by rewrite IH. Qed.

Section strings.
Context (p : pointer) (l : list Z) (Hp : contents p l).

(** The first word from [o] on, before [end_]. *)
Lemma skip_text_spec end_ o :
  0 <= o <= end_ -> end_ <= size l ->
  exists c, skip_text p end_ o = Some c /\ o <= c <= end_ /\ Forall (fun c => c <> 0) (slice l o (c - o)) /\ (c < end_ -> byte l c = 0).
Proof using Hp.
  intros Ho He. unfold skip_text.
  assert (Hgen : forall fuel c0, o <= c0 <= end_ -> end_ - c0 < Z.of_nat fuel -> (forall i, o <= i < c0 -> byte l i <> 0) ->
    exists c, while_loop fuel (fun cursor => if cursor <? end_ then c ← p cursor; Some (if negb (c =? 0) then inl (cursor + 1) else inr cursor) else Some (inr cursor)) c0 = Some c /\
      c0 <= c <= end_ /\ (forall i, o <= i < c -> byte l i <> 0) /\ (c < end_ -> byte l c = 0)).
  { induction fuel as [|fuel IH]; intros c0 Hc Hf Hall; [lia|]. rewrite while_loop_S. destruct (Z.ltb_spec c0 end_).
    - rewrite (value_8 _ l Hp), bind_some by lia. destruct (Z.eqb_spec (byte l c0) 0) as [E|E]; cbn [negb]; rewrite bind_some.
      + exists c0. split; [done|]. split; [lia|]. split; [done|]. done.
      + destruct (IH (c0 + 1)) as (c & Ec & Hc' & Hall' & Hend); [lia|lia| |].
        { intros i Hi. destruct (Z.eq_dec i c0) as [->|]; [done|]. apply Hall. lia. }
        exists c. split; [done|]. split; [lia|]. done.
    - rewrite bind_some. exists c0. split; [done|]. split; [lia|]. split; [done|lia]. }
  destruct (Hgen (S (Z.to_nat (end_ - o))) o) as (c & E & Hc & Hall & Hend); [lia|lia|lia|]. exists c. split; [done|]. split; [lia|]. split; [|done].
  apply Forall_lookup. intros i x Hx. assert (i < Z.to_nat (c - o))%nat as Hi.
  { apply lookup_lt_Some in Hx. by rewrite length_slice in Hx by (unfold room, size in *; lia). }
  pose proof (Hall (o + Z.of_nat i) ltac:(lia)) as Hne. rewrite <- (byte_slice l o (c - o)) in Hne by lia. unfold byte, rd in Hne.
  rewrite (proj2 (Z.ltb_ge _ _)), Nat2Z.id, Hx in Hne by lia. done.
Qed.

Lemma slice_split o a b : 0 <= o -> o <= a <= b -> slice l o (b - o) = slice l o (a - o) ++ slice l a (b - a).
Proof using.
  intros Ho Ha. unfold slice. replace (Z.to_nat (b - o)) with (Z.to_nat (a - o) + Z.to_nat (b - a))%nat by lia. rewrite <- take_take_drop. f_equal.
  rewrite drop_drop. do 2 f_equal. lia.
Qed.

Lemma slice_first o n : 0 <= o < size l -> 0 < n -> slice l o n = byte l o :: slice l (o + 1) (n - 1).
Proof using.
  intros Ho Hn. unfold slice. pose proof (byte_rd l o Ho) as E. apply rd_Some in E as [_ E]. rewrite (drop_S _ _ _ E).
  replace (Z.to_nat n) with (S (Z.to_nat (n - 1))) by lia. cbn [take]. do 3 f_equal. lia.
Qed.

Lemma string_step_eq output end_ wanted cursor current_index :
  string_step output p end_ wanted (cursor, current_index) =
  if cursor <? end_ then
    c ← p cursor;
    if negb (c =? 0) then
      cursor' ← skip_text p end_ cursor;
      if current_index =? wanted then output ← copy_text output (plus p cursor) (u32 (cursor' - cursor)); Some (inr output)
      else Some (inl (if cursor' <? end_ then cursor' + 1 else cursor', u8 (current_index + 1)))
    else Some (inr output)
  else Some (inr output).
Proof using. done. Qed.

(** From string number [k] at [o] on. *)
Lemma string_loop output end_ wanted fuel o k :
  length output = 64%nat -> holds_text output [] -> 0 <= o <= end_ -> end_ <= size l -> size l < 2 ^ 32 -> 1 <= k <= wanted -> wanted < 256 -> end_ - o < Z.of_nat fuel ->
  exists output', while_loop fuel (string_step output p end_ wanted) (o, k) = Some output' /\
    holds_text output' (shown (default [] (string_set (slice l o (end_ - o)) !! Z.to_nat (wanted - k)))).
Proof using Hp.
  intros Hlen Hout. revert o k. induction fuel as [|fuel IH]; intros o k Ho He Hsz Hk Hw Hf; [lia|]. rewrite while_loop_S, string_step_eq.
  destruct (Z.ltb_spec o end_) as [Hlt|Hge].
  2:{ rewrite bind_some. exists output. split; [done|]. replace (end_ - o) with 0 by lia. by destruct (Z.to_nat (wanted - k)). }
  rewrite (value_8 _ l Hp), bind_some by lia. destruct (Z.eqb_spec (byte l o) 0) as [E0|E0]; cbn [negb].
  { rewrite bind_some. exists output. split; [done|]. rewrite slice_first, E0 by lia. by destruct (Z.to_nat (wanted - k)). }
  destruct (skip_text_spec end_ o) as (c & -> & Hc & Hall & Hz); [lia|lia|]. rewrite bind_some.
  assert (o < c) as Hoc by (destruct (Z.eq_dec c o) as [->|]; [by destruct (E0 (Hz Hlt))|lia]).
  set (w := slice l o (c - o)) in *. assert (size w = c - o) as Hwsize by (apply size_slice; lia).
  assert (w <> []) as Hne by (intros E; rewrite E in Hwsize; change (size []) with 0 in Hwsize; lia).
  set (o' := if c <? end_ then c + 1 else c).
  assert (string_set (slice l o (end_ - o)) = w :: string_set (slice l o' (end_ - o'))) as Hset.
  { rewrite (slice_split o c end_) by lia. fold w. unfold string_set, o'. destruct (Z.ltb_spec c end_).
    - rewrite (slice_first c) by lia. rewrite Hz by lia. rewrite words_cons by done. cbn [until_empty]. replace (end_ - c - 1) with (end_ - (c + 1)) by lia. by destruct w.
    - replace (end_ - c) with 0 by lia. change (slice l c 0) with (@nil Z). rewrite app_nil_r, words_last by done. cbn. by destruct w. }
  rewrite Hset. destruct (Z.eqb_spec k wanted) as [->|Hnk].
  - rewrite Z.sub_diag. cbn [Z.to_nat lookup list_lookup default].
    assert (contents (plus p o) w) as Hcw.
    { destruct Hp as [Hb Hl]. split; [by apply all_bytes_slice|]. intros i Hi. fold (size w) in Hi. unfold plus. rewrite (value_8 _ l Hp) by lia.
      rewrite <- (byte_slice l o (c - o)) by lia. fold w. symmetry. apply byte_rd. done. }
    rewrite u32_small by (unfold fits; lia). rewrite <- Hwsize. destruct (copy_text_spec output _ w Hlen Hcw) as (out' & -> & Ho'). rewrite !bind_some. by exists out'.
  - rewrite bind_some. rewrite u8_small by (unfold fits; change (2 ^ 8) with 256; lia). fold o'.
    destruct (IH o' (k + 1)) as (out' & E & Ho'); [unfold o'; destruct (_ <? _) eqn:Ex; lia|lia..|unfold o'; destruct (_ <? _); lia|].
    exists out'. split; [done|]. replace (Z.to_nat (wanted - k)) with (S (Z.to_nat (wanted - (k + 1)))) by lia. done.
Qed.

End strings.

(** ** One structure *)

(** Bounds on the counts after [k] structures. *)
Record counts_ok (k : Z) (c : smbios_counts) : Prop := {
  ok_parsed : parsed_structures c = k;
  ok_small : 0 <= bios_structures c <= k /\ 0 <= system_structures c <= k /\ 0 <= baseboard_structures c <= k /\ 0 <= processor_structures c <= k /\
    0 <= memory_device_structures c <= k /\ 0 <= populated_memory_devices c <= k;
  ok_mib : 0 <= installed_memory_mib c <= k * 2 ^ 31;
}.

Section structure.
Context (p : pointer) (l : list Z) (Hp : contents p l) (Hsize : size l <= SMBIOS_MAX_TABLE_SIZE).
Context (o n c : Z) (Ho : 0 <= o) (Hn : 4 <= n) (Hc : o + n <= c <= size l).

(** The structure with its strings up to [c]. *)
Definition here : structure := Structure (slice l o n) (slice l (o + n) (c - (o + n))).

Lemma here_size : size (formatted here) = n.
Proof using Ho Hn Hc. apply size_slice; lia. Qed.
Lemma here_byte i : 0 <= i < n -> byte (formatted here) i = byte l (o + i).
Proof using Ho Hn Hc. intros Hi. apply byte_slice; lia. Qed.
Lemma here_le i k : 0 <= i -> 0 <= k -> i + k <= n -> le (formatted here) i k = le l (o + i) k.
Proof using Ho Hn Hc. intros Hi Hk Hs. apply le_slice; lia. Qed.

Lemma copy_structure_string_spec output wanted :
  length output = 64%nat -> fits 8 wanted ->
  exists output', copy_structure_string output p (o + n) c wanted = Some output' /\ holds_text output' (shown (string_number here wanted)).
Proof using Hp Hsize Ho Hn Hc.
  intros Hl Hw. unfold fits in Hw. change (2 ^ 8) with 256 in Hw. unfold copy_structure_string, SMBIOS_MAX_TABLE_SIZE in *. rewrite wr_ok, bind_some by lia.
  assert (holds_text (<[0%nat := 0]> output) []) as Hempty.
  { split; [by rewrite length_insert|]. destruct output as [|x output]; [done|]. by exists output. }
  change (Z.to_nat 0) with 0%nat. unfold string_number. destruct (Z.eqb_spec wanted 0) as [|Hne]; [by eexists|].
  destruct (string_loop p l Hp (<[0%nat := 0]> output) c wanted (S (Z.to_nat (c - (o + n)))) (o + n) 1) as (out & -> & Hout);
    [by rewrite length_insert|done|lia|lia|change (2 ^ 32) with 4294967296; lia|lia|lia|lia|]. by exists out.
Qed.

(** A field that names a string. *)
Lemma field_copy output i :
  length output = 64%nat -> 0 <= i < n ->
  exists output', (wanted ← p (o + i); copy_structure_string output p (o + n) c wanted) = Some output' /\ holds_text output' (field_text here i).
Proof using Hp Hsize Ho Hn Hc.
  intros Hl Hi. rewrite (value_8 _ l Hp), bind_some by lia. unfold field_text. rewrite here_byte by done.
  apply copy_structure_string_spec; [done|]. apply fits_byte, Hp.
Qed.

Lemma structure_texts_spec t s :
  hold_texts t s -> exists t', structure_texts p o (kind here) n (o + n) c t = Some t' /\ hold_texts t' (texts_say here s).
Proof using Hp Hsize Ho Hn Hc.
  intros Ht. unfold structure_texts, texts_say. rewrite here_size. destruct t as [bv bver sm sp sv ss bm bp], s as [bv' bver' sm' sp' sv' ss' bm' bp'].
  destruct Ht as [K1 K2 K3 K4 K5 K6 K7 K8]. cbn [bios_vendor bios_version system_manufacturer system_product system_version system_serial baseboard_manufacturer baseboard_product] in *. cbv zeta.
  destruct ((kind here =? 0) && (6 <=? n)) eqn:E0.
  { apply andb_true_iff in E0 as [_ E0%Z.leb_le].
    destruct (field_copy bv 4) as (bv1 & -> & ?); [apply K1|lia|]. rewrite bind_some.
    destruct (field_copy bver 5) as (bver1 & -> & ?); [apply K2|lia|]. rewrite bind_some. eexists. split; [done|]. by constructor. }
  destruct ((kind here =? 1) && (8 <=? n)) eqn:E1.
  { apply andb_true_iff in E1 as [_ E1%Z.leb_le].
    destruct (field_copy sm 4) as (sm1 & -> & ?); [apply K3|lia|]. rewrite bind_some.
    destruct (field_copy sp 5) as (sp1 & -> & ?); [apply K4|lia|]. rewrite bind_some.
    destruct (field_copy sv 6) as (sv1 & -> & ?); [apply K5|lia|]. rewrite bind_some.
    destruct (field_copy ss 7) as (ss1 & -> & ?); [apply K6|lia|]. rewrite bind_some. eexists. split; [done|]. by constructor. }
  destruct ((kind here =? 2) && (6 <=? n)) eqn:E2.
  { apply andb_true_iff in E2 as [_ E2%Z.leb_le].
    destruct (field_copy bm 4) as (bm1 & -> & ?); [apply K7|lia|]. rewrite bind_some.
    destruct (field_copy bp 5) as (bp1 & -> & ?); [apply K8|lia|]. rewrite bind_some. eexists. split; [done|]. by constructor. }
  eexists. split; [done|]. by constructor.
Qed.

(** The size of a memory device, as the code computes it. *)
Lemma device_size_spec :
  14 <= n -> let v := le (formatted here) 12 2 in
  exists k, (if (v =? 0x7FFF) && (32 <=? n) then x ← load32 (plus p o) 28; Some (x &&& 0x7FFFFFFF)
             else if negb (v &&& 0x8000 =? 0) then Some ((v &&& 0x7FFF) / 1024) else Some v) = Some k /\ 0 <= k < 2 ^ 31 /\
    (v <> 0 -> v <> 0xFFFF -> device_mib (formatted here) = Some k).
Proof using Hp Ho Hn Hc.
  intros H14 v. assert (contents (plus p o) (drop (Z.to_nat o) l)) as Hd.
  { pose proof (contents_plus p 0 l o) as Hx. rewrite Z.add_0_l in Hx. apply Hx; [|lia]. destruct Hp as [Hb Hl]. split; [done|]. intros i Hi. by apply Hl. }
  assert (size (drop (Z.to_nat o) l) = size l - o) as Hds by (unfold size in *; rewrite length_drop; lia).
  pose proof (le_fits (formatted here) 12 2 (all_bytes_slice l o n (proj1 Hp)) ltac:(lia) ltac:(lia) ltac:(rewrite here_size; lia)) as Fv. fold v in Fv. change (256 ^ 2) with 65536 in Fv.
  unfold device_mib. rewrite here_size, (proj2 (Z.ltb_ge _ _)) by lia. fold v. cbv zeta.
  assert (Hguard : v <> 0 -> v <> 0xFFFF -> (v =? 0) || (v =? 0xFFFF) = false) by (intros; by rewrite orb_false_iff, !Z.eqb_neq).
  destruct ((v =? 0x7FFF) && (32 <=? n)) eqn:E.
  - apply andb_true_iff in E as [_ E%Z.leb_le]. rewrite (value_32 _ _ Hd), bind_some by lia. change 0x7FFFFFFF with (Z.ones 31). rewrite Z.land_ones by lia.
    eexists. split; [done|]. split; [apply Z.mod_pos_bound; lia|]. intros H0 HF. rewrite Hguard by done. rewrite here_le by lia. do 2 f_equal.
    unfold le, slice. rewrite drop_drop. do 3 f_equal. lia.
  - change 0x8000 with (2 ^ 15). change 0x7FFF with (Z.ones 15). rewrite Z.land_ones by lia.
    assert (negb (v &&& 2 ^ 15 =? 0) = (2 ^ 15 <=? v)) as ->.
    { apply eq_true_iff_eq. rewrite negb_true_iff, Z.eqb_neq, Z.leb_le. change (2 ^ 15) with 32768. split.
      - intros Hne. destruct (Z.lt_ge_cases v 32768) as [Hlt|]; [|done]. destruct Hne. change 32768 with (2 ^ 15). apply Z.bits_inj'. intros i Hi.
        rewrite Z.land_spec, Z.bits_0, Z.pow2_bits_eqb by lia. destruct (Z.eqb_spec 15 i) as [<-|]; [|by rewrite andb_false_r].
        destruct (Z.eq_dec v 0) as [->|]; [done|]. rewrite Z.bits_above_log2; [done|lia|]. apply Z.log2_lt_pow2; [lia|done].
      - intros Hge E'. apply (f_equal (fun z => Z.testbit z 15)) in E'. rewrite Z.land_spec, Z.bits_0, andb_comm in E'. change (Z.testbit 32768 15) with true in E'.
        cbn [andb] in E'. rewrite Z.testbit_eqb in E' by lia. change (2 ^ 15) with 32768 in E'. rewrite <- (Z.div_unique v 32768 1 (v - 32768)) in E' by lia. done. }
    change (2 ^ 15) with 32768. change (2 ^ 31) with 2147483648. destruct (Z.leb_spec 32768 v); eexists; (split; [done|]).
    + rewrite <- (Z.mod_unique v 32768 1 (v - 32768)) by lia. split; [|intros H0 HF; by rewrite Hguard by done].
      pose proof (Z.div_pos (v - 32768) 1024 ltac:(lia) ltac:(lia)). pose proof (Z.div_le_upper_bound (v - 32768) 1024 32 ltac:(lia) ltac:(lia)). lia.
    + split; [lia|]. intros H0 HF. by rewrite Hguard by done.
Qed.

Lemma here_load16 i : 0 <= i -> i + 2 <= n -> load16 (plus p o) i = Some (le (formatted here) i 2).
Proof using Hp Ho Hn Hc.
  intros Hi Hi2. rewrite here_le by lia. rewrite <- (value_16 p l Hp) by lia. unfold load16, plus. by rewrite Z.add_assoc.
Qed.

Lemma structure_counts_spec k d :
  counts_ok k d -> 0 <= k < 2 ^ 20 ->
  structure_counts (plus p o) (kind here) n (bump_parsed d) = Some (counts_says here d) /\ counts_ok (k + 1) (counts_says here d).
Proof using Hp Ho Hn Hc.
  change (2 ^ 20) with 1048576. intros [Hk Hs Hm] Hb. destruct d as [pa b sy bb pr m pm mib mhz].
  cbn [parsed_structures bios_structures system_structures baseboard_structures processor_structures memory_device_structures populated_memory_devices installed_memory_mib] in *.
  unfold structure_counts, counts_says, bump_parsed, bump_bios, bump_system, bump_baseboard, bump_processor, parse_memory_device.
  change (2 ^ 31) with 2147483648 in Hm. rewrite !u32_small by (unfold fits; change (2 ^ 32) with 4294967296; lia).
  assert (Hok : forall b' sy' bb' pr' m' pm' mib' mhz', 0 <= b' <= k + 1 -> 0 <= sy' <= k + 1 -> 0 <= bb' <= k + 1 -> 0 <= pr' <= k + 1 -> 0 <= m' <= k + 1 -> 0 <= pm' <= k + 1 ->
    0 <= mib' <= (k + 1) * 2 ^ 31 -> counts_ok (k + 1) (Counts (pa + 1) b' sy' bb' pr' m' pm' mib' mhz')) by (intros; constructor; cbn; lia).
  change (2 ^ 31) with 2147483648 in Hok.
  destruct (kind here =? 0); [split; [done|apply Hok; lia]|]. destruct (kind here =? 1); [split; [done|apply Hok; lia]|].
  destruct (kind here =? 2); [split; [done|apply Hok; lia]|]. destruct (kind here =? 4); [split; [done|apply Hok; lia]|].
  destruct (kind here =? 17); [|split; [done|apply Hok; lia]].
  destruct (Z.ltb_spec n 14).
  { unfold device_mib. rewrite here_size, (proj2 (Z.ltb_lt _ _)) by lia. split; [done|apply Hok; lia]. }
  rewrite (here_load16 12), bind_some by lia. set (v := le (formatted here) 12 2).
  destruct (device_size_spec ltac:(lia)) as (mb & E & Hmb & Hdev). fold v in E, Hdev. cbv zeta in E, Hdev. change (2 ^ 31) with 2147483648 in Hmb.
  destruct ((v =? 0) || (v =? 0xFFFF)) eqn:Ev.
  { unfold device_mib. rewrite here_size, (proj2 (Z.ltb_ge _ _)) by lia. fold v. rewrite Ev. split; [done|apply Hok; lia]. }
  rewrite E, bind_some. clear E. apply orb_false_iff in Ev as [E1%Z.eqb_neq E2%Z.eqb_neq]. rewrite (Hdev E1 E2).
  rewrite (proj2 (Z.leb_le _ _)) by (unfold U64_MAX; pow2; lia). rewrite u64_small by (unfold fits; pow2; lia).
  assert ((if 23 <=? n then load16 (plus p o) 21 else Some 0) = Some (device_mhz (formatted here))) as ->.
  { unfold device_mhz. rewrite here_size. destruct (Z.leb_spec 23 n); [|done]. by apply here_load16. }
  rewrite bind_some. split; [|apply Hok; lia]. do 2 f_equal. destruct (Z.ltb_spec mhz (device_mhz (formatted here))); lia.
Qed.

End structure.

(** ** The table *)

Lemma byte_app_l l1 l2 i : i < size l1 -> byte (l1 ++ l2) i = byte l1 i.
Proof. intros Hi. unfold byte. rewrite rd_app. unfold size in Hi. by rewrite (proj2 (Z.ltb_lt _ _)) by lia. Qed.
Lemma byte_app_r l1 l2 i : 0 <= i -> byte (l1 ++ l2) (size l1 + i) = byte l2 i.
Proof. intros Hi. unfold byte. rewrite rd_app. unfold size. rewrite (proj2 (Z.ltb_ge _ _)) by lia. f_equal. f_equal. lia. Qed.
Lemma byte_drop l o i : 0 <= o -> 0 <= i -> byte (drop (Z.to_nat o) l) i = byte l (o + i).
Proof. intros Ho Hi. unfold byte, rd. rewrite !(proj2 (Z.ltb_ge _ _)) by lia. rewrite lookup_drop. do 2 f_equal. lia. Qed.

Lemma skip_strings_spec p l o :
  contents p l -> 0 <= o <= size l ->
  exists c, skip_strings p (size l) o = Some c /\ o <= c <= size l /\ (forall i, o <= i < c -> ~ pair l i) /\ (c + 1 < size l -> pair l c).
Proof.
  intros Hp Ho. unfold skip_strings.
  assert (Hgen : forall fuel c0, o <= c0 <= size l -> size l - c0 < Z.of_nat fuel -> (forall i, o <= i < c0 -> ~ pair l i) ->
    exists c, while_loop fuel (fun cursor =>
      if cursor + 1 <? size l then
        c0 ← p cursor;
        if negb (c0 =? 0) then Some (inl (cursor + 1)) else
        c1 ← p (cursor + 1); Some (if negb (c1 =? 0) then inl (cursor + 1) else inr cursor)
      else Some (inr cursor)) c0 = Some c /\ o <= c <= size l /\ (forall i, o <= i < c -> ~ pair l i) /\ (c + 1 < size l -> pair l c)).
  { induction fuel as [|fuel IH]; intros c0 Hc Hf Hall; [lia|]. rewrite while_loop_S. destruct (Z.ltb_spec (c0 + 1) (size l)).
    2:{ rewrite bind_some. exists c0. split; [done|]. split; [lia|]. split; [done|lia]. }
    assert (Hnext : ~ pair l c0 -> forall i, o <= i < c0 + 1 -> ~ pair l i).
    { intros Hn i Hi. destruct (Z.eq_dec i c0) as [->|]; [done|]. apply Hall. lia. }
    rewrite (value_8 _ l Hp c0), bind_some by lia. destruct (Z.eqb_spec (byte l c0) 0) as [E0|E0]; cbn [negb].
    - rewrite (value_8 _ l Hp), bind_some by lia. destruct (Z.eqb_spec (byte l (c0 + 1)) 0) as [E1|E1]; cbn [negb]; rewrite bind_some.
      + exists c0. split; [done|]. split; [lia|]. split; [done|]. done.
      + apply IH; [lia|lia|]. apply Hnext. by intros [_ ?].
    - rewrite bind_some. apply IH; [lia|lia|]. apply Hnext. by intros [? _]. }
  apply Hgen; [lia|lia|lia].
Qed.

(** The structure at [o], whose strings end at [c]. *)
Definition ends_at (l : list Z) (o n c : Z) : Prop :=
  4 <= n /\ o + n <= c /\ c + 1 < size l /\ pair l c /\ forall i, o + n <= i < c -> ~ pair l i.

Lemma ends_at_fun l o n c c' : ends_at l o n c -> ends_at l o n c' -> c = c'.
Proof.
  intros (_ & H1 & _ & P & N) (_ & H1' & _ & P' & N'). destruct (Z.lt_trichotomy c c') as [Hlt|[->|Hlt]]; [|done|].
  - destruct (N' c); [lia|done].
  - destruct (N c'); [lia|done].
Qed.

Lemma structure_inv l o s rest :
  0 <= o <= size l -> structure_ok s -> bytes_of s ++ rest = drop (Z.to_nat o) l ->
  exists c, ends_at l o (byte l (o + 1)) c /\ s = here l o (byte l (o + 1)) c /\ rest = drop (Z.to_nat (c + 2)) l.
Proof.
  intros Ho (H4 & Hlen & Hfirst) E. destruct s as [f t]. unfold bytes_of in E. cbn [formatted area] in *. rewrite <- !app_assoc in E.
  set (n := size f) in *. set (k := size t) in *. assert (0 <= k) as Hk by (unfold k, size; lia).
  assert (size l = o + n + k + 2 + size rest) as Hsize.
  { apply (f_equal length) in E. rewrite length_drop, !length_app in E. simpl in E. unfold n, k, size in *. lia. }
  assert (0 <= size rest) as Hrest by (unfold size; lia).
  assert (byte l (o + 1) = n) as En by (rewrite <- (byte_drop l o 1), <- E, byte_app_l by (fold n; lia); done).
  assert (Hat : forall i, 0 <= i <= k -> pair l (o + n + i) <-> pair (t ++ [0; 0]) i).
  { intros i Hi. assert (Hb : forall j, 0 <= j <= k + 1 -> byte l (o + n + j) = byte (t ++ [0; 0]) j).
    { intros j Hj. replace (o + n + j) with (o + (n + j)) by lia. rewrite <- byte_drop, <- E by lia. unfold n. rewrite byte_app_r by lia. rewrite app_assoc. apply byte_app_l.
      unfold size in *. rewrite length_app. simpl. unfold k in Hj. lia. }
    unfold pair. replace (o + n + i + 1) with (o + n + (i + 1)) by lia. by rewrite !Hb by lia. }
  rewrite En. exists (o + n + k). split; [|split].
  - split; [done|]. split; [lia|]. split; [lia|]. split.
    + apply Hat; [lia|]. split; replace k with (size t + 0) at 1 by (unfold k; lia); [by rewrite byte_app_r|].
      replace (size t + 0 + 1) with (size t + 1) by lia. by rewrite byte_app_r.
    + intros i Hi. replace i with (o + n + (i - (o + n))) by lia. rewrite Hat by lia. apply Hfirst. lia.
  - unfold here. f_equal.
    + unfold slice. rewrite <- E. by rewrite take_app_length' by (unfold n, size; lia).
    + unfold slice. replace (Z.to_nat (o + n)) with (Z.to_nat o + Z.to_nat n)%nat by lia. rewrite <- drop_drop, <- E.
      rewrite drop_app_length' by (unfold n, size; lia). by rewrite take_app_length' by (unfold k, size; lia).
  - replace (Z.to_nat (o + n + k + 2)) with (Z.to_nat o + (length f + (length t + 2)))%nat by (unfold n, k, size in *; lia).
    rewrite <- drop_drop, <- E, <- drop_drop, drop_app_length, <- drop_drop, drop_app_length. done.
Qed.

Lemma structure_step l o c :
  0 <= o -> ends_at l o (byte l (o + 1)) c ->
  structure_ok (here l o (byte l (o + 1)) c) /\ drop (Z.to_nat o) l = bytes_of (here l o (byte l (o + 1)) c) ++ drop (Z.to_nat (c + 2)) l.
Proof.
  intros Ho (H4 & Hc & Hs & [P0 P1] & Hno). set (n := byte l (o + 1)) in *. unfold here, bytes_of, structure_ok. cbn [formatted area].
  assert (slice l c 2 = [0; 0]) as E2.
  { rewrite slice_first, (slice_first l (c + 1)) by lia. rewrite P0, P1. done. }
  assert (slice l (o + n) (c - (o + n)) ++ [0; 0] = slice l (o + n) (c + 2 - (o + n))) as E3.
  { rewrite (slice_split l (o + n) c (c + 2)) by lia. replace (c + 2 - c) with 2 by lia. by rewrite E2. }
  split.
  - rewrite size_slice, byte_slice by lia. split; [done|]. split; [done|]. rewrite size_slice by lia. intros i Hi. rewrite E3. unfold pair. rewrite !byte_slice by lia.
    rewrite Z.add_assoc. apply Hno. lia.
  - rewrite E3, (drop_slice l o n), (drop_slice l (o + n) (c + 2 - (o + n))) by lia. rewrite <- app_assoc. do 2 f_equal. f_equal. lia.
Qed.

Lemma table_inv l o ss f :
  table (drop (Z.to_nat o) l) ss f -> 0 <= o <= size l ->
  (size l < o + 4 /\ ss = [] /\ f = false) \/
  (o + 4 <= size l /\ exists c, ends_at l o (byte l (o + 1)) c /\
     ((byte l o = 127 /\ ss = [here l o (byte l (o + 1)) c] /\ f = true) \/
      (byte l o <> 127 /\ exists ss', ss = here l o (byte l (o + 1)) c :: ss' /\ table (drop (Z.to_nat (c + 2)) l) ss' f))).
Proof.
  intros Ht Ho. assert (size (drop (Z.to_nat o) l) = size l - o) as Hd by (unfold size in *; rewrite length_drop; lia).
  assert (Hkind : forall c, ends_at l o (byte l (o + 1)) c -> o + 4 <= size l /\ kind (here l o (byte l (o + 1)) c) = byte l o).
  { intros c (H4 & Hc & Hs & _). split; [lia|]. unfold kind, here. cbn [formatted]. rewrite byte_slice by lia. f_equal. lia. }
  inversion Ht as [l' Hs E1 E2 E3|s rest Hok Hk E1 E2 E3|s rest ss' f' Hok Hk Hrest E1 E2 E3]; subst.
  - left. split; [lia|done].
  - right. destruct (structure_inv l o s rest Ho Hok E1) as (c & Hc & -> & ->). destruct (Hkind c Hc) as [Hle Ek]. split; [done|]. exists c. split; [done|]. left. split; [congruence|done].
  - right. destruct (structure_inv l o s rest Ho Hok E1) as (c & Hc & -> & ->). destruct (Hkind c Hc) as [Hle Ek]. split; [done|]. exists c. split; [done|]. right. split; [congruence|]. by exists ss'.
Qed.

Lemma table_fun l o ss f ss' f' : 0 <= o <= size l -> table (drop (Z.to_nat o) l) ss f -> table (drop (Z.to_nat o) l) ss' f' -> ss = ss' /\ f = f'.
Proof.
  revert o ss'. induction ss as [|s ss IH]; intros o ss' Ho H1 H2.
  - destruct (table_inv l o _ _ H1 Ho) as [(Hs & _ & ->)|(Hs & c & _ & [(_ & [=] & _)|(_ & ss0 & [=] & _)])].
    destruct (table_inv l o _ _ H2 Ho) as [(_ & -> & ->)|(Hs' & _)]; [done|lia].
  - destruct (table_inv l o _ _ H1 Ho) as [(Hs & [=] & _)|(Hs & c & Hc & Hcase)].
    destruct (table_inv l o _ _ H2 Ho) as [(Hs' & _)|(_ & c' & Hc' & Hcase')]; [lia|]. pose proof (ends_at_fun _ _ _ _ _ Hc Hc') as <-.
    destruct Hcase as [(E & [= -> ->] & ->)|(E & ss1 & [= -> ->] & Ht)], Hcase' as [(E' & -> & ->)|(E' & ss1' & -> & Ht')]; try done.
    destruct Hc as (H4 & Hc1 & Hc2 & _). assert (0 <= c + 2 <= size l) as Hb by lia. destruct (IH (c + 2) ss1' Hb Ht Ht') as [-> ->]. done.
Qed.

(** [r] with other counts and texts. *)
Definition with_counts (r : smbios_info) (c : smbios_counts) (t : smbios_texts) : smbios_info :=
  Info (available r) (entry_point_64 r) (major r) (minor r) (document_revision r) (table_address r) (table_size r) (announced_structures r) c t.

Lemma table_step_eq bytes size announced offset r :
  table_step bytes size announced (offset, r) =
  if u32 (offset + 4) <=? size then
    type ← plus bytes offset 0; length ← plus bytes offset 1;
    if (length <? 4) || (size - offset <? length) then Some (inr (r, None)) else
    cursor ← skip_strings bytes size (offset + length);
    if size <=? cursor + 1 then Some (inr (r, None)) else
    c ← structure_counts (plus bytes offset) type length (bump_parsed (counts r));
    t ← structure_texts bytes offset type length (offset + length) cursor (texts r);
    if type =? 127 then Some (inr (with_counts r c t, Some true)) else
    if negb (announced =? 0) && (announced <? parsed_structures c) then Some (inr (with_counts r c t, None)) else
    Some (inl (u32 (cursor + 2), with_counts r c t))
  else Some (inr (r, Some false)).
Proof. done. Qed.

Section table.
Context (p : pointer) (l : list Z) (Hp : contents p l) (Hsize : size l <= SMBIOS_MAX_TABLE_SIZE) (announced : Z).

(** What the loop is to end with. *)
Definition loop_result (o k : Z) (r : smbios_info) (t : smbios_texts) (out : smbios_info * option bool) : Prop :=
  match out.2 with
  | Some f => exists ss t', table (drop (Z.to_nat o) l) ss f /\ out.1 = with_counts r (machine_counts ss (counts r)) t' /\
      hold_texts t' (machine_texts ss t) /\ counts_ok (k + Z.of_nat (length ss)) (counts out.1)
  | None => forall ss f, table (drop (Z.to_nat o) l) ss f -> announced <> 0 /\ announced < k + Z.of_nat (length ss)
  end.

Lemma table_loop fuel o k r t :
  counts_ok k (counts r) -> hold_texts (texts r) t -> 0 <= o <= size l -> 0 <= k -> 6 * k <= o -> size l - o < Z.of_nat fuel ->
  exists out, while_loop fuel (table_step p (size l) announced) (o, r) = Some out /\ loop_result o k r t out.
Proof using Hp Hsize.
  revert o k r t. induction fuel as [|fuel IH]; intros o k r t Hk Ht Ho Hk0 Hk6 Hf; [lia|]. unfold SMBIOS_MAX_TABLE_SIZE in *. rewrite while_loop_S, table_step_eq.
  rewrite u32_small by (unfold fits; change (2 ^ 32) with 4294967296; lia). destruct (Z.leb_spec (o + 4) (size l)) as [H4|H4].
  2:{ rewrite bind_some. exists (r, Some false). split; [done|]. exists [], (texts r). cbn. split; [|split; [by destruct r|split; [done|by rewrite Z.add_0_r]]].
      constructor. unfold size in *. rewrite length_drop. lia. }
  change (plus p o 0) with (p (o + 0)). change (plus p o 1) with (p (o + 1)). rewrite Z.add_0_r, !(value_8 _ l Hp), !bind_some by lia. set (n := byte l (o + 1)).
  assert (Hstuck : (forall c, ~ ends_at l o n c) -> forall r', exists out, Some (r', None) = Some out /\ loop_result o k r t out).
  { intros Hn r'. exists (r', None). split; [done|]. intros ss f [(? & _)|(_ & c & Hc & _)]%table_inv; [lia| |done]. by destruct (Hn c). }
  destruct ((n <? 4) || (size l - o <? n)) eqn:En.
  { rewrite bind_some. apply Hstuck. intros c (? & ? & ? & _). apply orb_true_iff in En. rewrite !Z.ltb_lt in En. lia. }
  apply orb_false_iff in En. rewrite !Z.ltb_ge in En. destruct (skip_strings_spec p l (o + n) Hp) as (c & -> & Hc & Hno & Hpair); [lia|]. rewrite bind_some.
  destruct (Z.leb_spec (size l) (c + 1)) as [Hend|Hend].
  { rewrite bind_some. apply Hstuck. intros c' (_ & H1 & H2 & P & _). destruct (Z.lt_ge_cases c' c) as [Hlt|]; [|lia]. by apply (Hno c'); [lia|]. }
  assert (ends_at l o n c) as Hat by (split; [lia|]; split; [lia|]; split; [lia|]; split; [by apply Hpair|done]). clear Hstuck Hpair Hno.
  set (s := here l o n c). assert (byte l o = kind s) as Ekind by (unfold s, kind, here; cbn [formatted]; rewrite byte_slice by lia; f_equal; lia).
  destruct (structure_counts_spec p l Hp o n c (proj1 Ho) (proj1 En) ltac:(lia) k (counts r) Hk ltac:(change (2 ^ 20) with 1048576; lia)) as [Ecnt Hcnt].
  destruct (structure_texts_spec p l Hp Hsize o n c (proj1 Ho) (proj1 En) ltac:(lia) (texts r) t Ht) as (t1 & Etxt & Ht1). fold s in Ecnt, Hcnt, Etxt, Ht1.
  rewrite <- Ekind in Ecnt, Etxt. rewrite Ecnt, bind_some, Etxt, bind_some. destruct (structure_step l o c (proj1 Ho) Hat) as [Hok Edrop]. fold n s in Hok, Edrop.
  destruct (Z.eqb_spec (byte l o) 127) as [E127|E127].
  { rewrite bind_some. eexists. split; [done|]. exists [s], t1. split; [rewrite Edrop; apply table_stop; [done|by rewrite <- Ekind]|]. by split. }
  rewrite (ok_parsed _ _ Hcnt). destruct (negb (announced =? 0) && (announced <? k + 1)) eqn:Ea; rewrite bind_some.
  { eexists. split; [done|]. intros ss f Htab. apply andb_true_iff in Ea as [Ea1%negb_true_iff%Z.eqb_neq Ea2%Z.ltb_lt]. split; [done|].
    apply table_inv in Htab as [(? & _)|(_ & c' & _ & [(_ & -> & _)|(_ & ss' & -> & _)])]; cbn [length]; lia. }
  rewrite u32_small by (unfold fits; change (2 ^ 32) with 4294967296; lia).
  destruct (IH (c + 2) (k + 1) (with_counts r (counts_says s (counts r)) t1) (texts_say s t)) as (out & Eo & Hout); [done|done|lia|lia|lia|lia|].
  exists out. split; [done|]. unfold loop_result in *. destruct (out.2) as [f|].
  - destruct Hout as (ss & t' & Htab & E1 & Ht' & Hc'). exists (s :: ss), t'. split; [rewrite Edrop; apply table_more; [done|by rewrite <- Ekind|done]|].
    split; [done|]. split; [done|]. cbn [length]. replace (k + Z.of_nat (S (length ss))) with (k + 1 + Z.of_nat (length ss)) by lia. done.
  - intros ss f Htab. apply table_inv in Htab as [(? & _)|(_ & c' & Hc' & [(? & _)|(_ & ss' & -> & Htab)])]; [lia|done| |done].
    pose proof (ends_at_fun _ _ _ _ _ Hat Hc') as <-. destruct (Hout _ _ Htab) as [Hne Hlt]. split; [done|]. cbn [length]. lia.
Qed.

End table.

Lemma parse_table_spec p l announced r t :
  contents p l -> counts r = no_counts -> hold_texts (texts r) t -> 0 <= announced ->
  exists r' code, smbios_parse_table_blob (Some p) (size l) announced (Some r) = Some (Some r', code) /\
    ((code = 0 /\ exists ss t', table_ok l announced ss /\ r' = with_counts r (machine_counts ss no_counts) t' /\ hold_texts t' (machine_texts ss t)) \/
     (code = -1 /\ forall ss, ~ table_ok l announced ss)).
Proof.
  intros Hp Hc Ht Ha. unfold smbios_parse_table_blob.
  destruct ((size l <? 6) || (SMBIOS_MAX_TABLE_SIZE <? size l)) eqn:Es.
  { exists r, (-1). split; [done|]. right. split; [done|]. intros ss (Hs & _). apply orb_true_iff in Es. rewrite !Z.ltb_lt in Es. lia. }
  apply orb_false_iff in Es. rewrite !Z.ltb_ge in Es.
  destruct (table_loop p l Hp (proj2 Es) announced (S (Z.to_nat (size l))) 0 0 r t) as ([r' res] & -> & Hres); [by rewrite Hc|done|lia|lia|lia|lia|].
  rewrite bind_some. unfold loop_result in Hres. cbn [fst snd] in Hres. change (drop (Z.to_nat 0) l) with l in Hres.
  assert (Hfun : forall ss f ss' f', table l ss f -> table l ss' f' -> ss = ss' /\ f = f').
  { intros ss f ss' f' H1 H2. apply (table_fun l 0 ss f ss' f'); [lia|done|done]. }
  destruct res as [f|].
  - destruct Hres as (ss & t' & Htab & -> & Ht' & Hcnt). cbn [counts with_counts] in *. rewrite Hc in *. rewrite (ok_parsed _ _ Hcnt), Z.add_0_l.
    assert (Hno : ~ ((announced = 0 -> f = true) /\ (announced <> 0 -> Z.of_nat (length ss) = announced)) -> forall ss', ~ table_ok l announced ss').
    { intros Hn ss' (_ & f' & Htab' & Hx). destruct (Hfun _ _ _ _ Htab Htab') as [<- <-]. by destruct Hn. }
    destruct (negb f && (announced =? 0)) eqn:E1.
    { eexists _, _. split; [done|]. right. split; [done|]. apply Hno. intros [Hx _]. apply andb_true_iff in E1 as [E1 E2%Z.eqb_eq]. by rewrite (Hx E2) in E1. }
    destruct (negb (announced =? 0) && negb (Z.of_nat (length ss) =? announced)) eqn:E2.
    { eexists _, _. split; [done|]. right. split; [done|]. apply Hno. intros [_ Hx]. apply andb_true_iff in E2 as [E2%negb_true_iff%Z.eqb_neq E3%negb_true_iff%Z.eqb_neq]. by destruct (E3 (Hx E2)). }
    eexists _, 0. split; [done|]. left. split; [done|]. exists ss, t'. split; [|done]. split; [lia|]. exists f. split; [done|].
    destruct f, (Z.eqb_spec announced 0), (Z.eqb_spec (Z.of_nat (length ss)) announced); done || tauto.
  - eexists _, _. split; [done|]. right. split; [done|]. intros ss (_ & f & Htab & _ & Hx). destruct (Hres _ _ Htab) as [Hne Hlt]. specialize (Hx Hne). lia.
Qed.

(** ** The entry point *)

Lemma checksum_valid_spec p l n : contents p l -> 0 <= n <= size l -> checksum_valid p n = Some (bool_decide (sum (take (Z.to_nat n) l) mod 256 = 0)).
Proof.
  intros Hp Hn. unfold checksum_valid. rewrite (byte_sum_spec p l Hp), bind_some by lia. f_equal. apply eq_true_iff_eq. by rewrite Z.eqb_eq, bool_decide_eq_true.
Qed.

(** The length byte of an entry point. *)
Definition length_byte (e : list Z) : option Z :=
  if decide (take 5 e = chars "_SM3_"%string) then Some (byte e 6) else if decide (take 4 e = chars "_SM_"%string) then Some (byte e 5) else None.

Lemma entry_size_spec p e : contents p e -> 7 <= size e -> entry_size p = Some (length_byte e).
Proof.
  intros Hp Hs. unfold entry_size, length_byte. rewrite !(equal_text_spec _ e Hp) by (cbn; lia). rewrite bind_some.
  change (slice e 0 (Z.of_nat (length (chars "_SM3_")))) with (take 5 e). change (slice e 0 (Z.of_nat (length (chars "_SM_")))) with (take 4 e).
  case_bool_decide as E3; [rewrite decide_True by done|rewrite decide_False by done]; [by rewrite (value_8 _ e Hp), bind_some by lia|]. rewrite bind_some.
  case_bool_decide as E2; [rewrite decide_True by done|by rewrite decide_False by done]. by rewrite (value_8 _ e Hp), bind_some by lia.
Qed.

Lemma kinds_differ e : take 5 e = chars "_SM3_"%string -> take 4 e <> chars "_SM_"%string.
Proof.
  intros H5 H4. apply (f_equal (take 4)) in H5. rewrite take_take in H5. change (4 `min` 5)%nat with 4%nat in H5. rewrite H4 in H5. by vm_compute in H5.
Qed.

Lemma entry_point_length e r : entry e r -> length_byte e = Some (size e) /\ 24 <= size e.
Proof.
  unfold length_byte, SMBIOS3_MIN_SIZE, SMBIOS2_MIN_SIZE. destruct 1 as [e H5 Hs Hb _|e H4 Hs Hb _ _ _]; unfold SMBIOS3_MIN_SIZE, SMBIOS2_MIN_SIZE in *.
  - rewrite decide_True by done. by rewrite Hb.
  - rewrite decide_False, decide_True by (done || (intros H5; by apply (kinds_differ e))).
    rewrite Hb. split; [done|lia].
Qed.

Lemma validate_entry_spec p e r0 :
  contents p e -> (24 <= size e -> length_byte e = Some (size e)) ->
  exists r code, smbios_validate_entry_blob (Some p) (size e) (Some r0) = Some (Some r, code) /\
    ((code = 0 /\ entry_ok e r) \/ (code = -1 /\ forall r, ~ entry_ok e r)).
Proof.
  intros Hp Hlen. unfold smbios_validate_entry_blob, SMBIOS3_MIN_SIZE, SMBIOS2_MIN_SIZE.
  assert (Hno : (forall r, ~ entry e r) -> exists r code, Some (Some no_info, -1) = Some (Some r, code) /\ ((code = 0 /\ entry_ok e r) \/ (code = -1 /\ forall r, ~ entry_ok e r))).
  { intros Hn. exists no_info, (-1). split; [done|]. right. split; [done|]. intros r [Hr _]. by destruct (Hn r). }
  set (finish := fun r => Some (Some r, if (major r =? 0) || (table_size r =? 0) || (SMBIOS_MAX_TABLE_SIZE <? table_size r) || (table_address r =? 0) then -1 else 0)).
  assert (Hfinish : forall r, entry e r -> 0 <= table_size r -> (forall r', entry e r' -> r' = r) ->
    exists r' code, finish r = Some (Some r', code) /\ ((code = 0 /\ entry_ok e r') \/ (code = -1 /\ forall r, ~ entry_ok e r))).
  { intros r Hr Hts Huniq. eexists _, _. split; [done|]. destruct (_ || _) eqn:E.
    - right. split; [done|]. intros r' (Hr' & H1 & H2 & H3). rewrite (Huniq r' Hr') in *. revert E. apply not_true_iff_false.
      rewrite !orb_false_iff, !Z.eqb_neq, Z.ltb_ge. lia.
    - left. split; [done|]. rewrite !orb_false_iff, !Z.eqb_neq, Z.ltb_ge in E. split; [done|]. lia. }
  cbv zeta. fold finish. pose proof (proj1 Hp) as Hb.
  assert (E3 : (if 24 <=? size e then equal_text p 0 (chars "_SM3_") else Some false) = Some ((24 <=? size e) && bool_decide (take 5 e = chars "_SM3_"))).
  { destruct (Z.leb_spec 24 (size e)); [|done]. by rewrite (equal_text_spec _ e Hp) by (cbn; lia). }
  rewrite E3, bind_some. clear E3. destruct (Z.leb_spec 24 (size e)) as [H24|H24]; cbn [andb].
  2:{ rewrite (proj2 (Z.leb_gt 31 (size e))), bind_some by lia. apply Hno. intros r Hr. destruct (entry_point_length e r Hr). lia. }
  specialize (Hlen H24). unfold length_byte in Hlen. case_bool_decide as T3.
  - rewrite decide_True in Hlen by done. injection Hlen as Hlen. rewrite !(value_8 _ e Hp), !bind_some by lia. rewrite Hlen.
    rewrite (proj2 (Z.ltb_ge (size e) 24)), Z.ltb_irrefl by lia. cbn [orb]. rewrite (checksum_valid_spec p e), bind_some by (done || lia).
    rewrite (take_ge e) by (unfold size; lia).
    assert (Honly : forall r, entry e r -> sum e mod 256 = 0 /\ r = Info 0 1 (byte e 7) (byte e 8) (byte e 9) (le e 16 8) (le e 12 4) 0 no_counts no_texts).
    { intros r Hr. destruct Hr as [e' H5 Hs Hb6 Hsum|e' H4 Hs Hb5 Hsum _ _]; [done|]. by destruct (kinds_differ e' T3). }
    case_bool_decide as Esum; cbn [negb]; [|apply Hno; by intros r [? _]%Honly].
    rewrite (value_32 _ e Hp), (value_64 _ e Hp), !bind_some by lia. apply Hfinish; [by apply entry_3| |by intros r' [_ ->]%Honly].
    cbn [table_size]. pose proof (le_fits e 12 4 Hb). lia.
  - rewrite decide_False in Hlen by done. destruct (decide (take 4 e = chars "_SM_")) as [T2|]; [|done]. injection Hlen as Hlen.
    assert (E2 : (if 31 <=? size e then equal_text p 0 (chars "_SM_") else Some false) = Some (31 <=? size e)).
    { destruct (Z.leb_spec 31 (size e)); [|done]. rewrite (equal_text_spec _ e Hp) by (cbn; lia). change (slice e 0 (Z.of_nat (length (chars "_SM_")))) with (take 4 e).
      by rewrite bool_decide_true. }
    rewrite E2, bind_some. clear E2.
    assert (Honly : forall r, entry e r -> 31 <= size e /\ sum e mod 256 = 0 /\ slice e 16 5 = chars "_DMI_" /\ sum (slice e 16 15) mod 256 = 0 /\
      r = Info 0 0 (byte e 6) (byte e 7) 0 (le e 24 4) (le e 22 2) (le e 28 2) no_counts no_texts) by (intros r Hr; by destruct Hr).
    destruct (Z.leb_spec 31 (size e)) as [H31|H31]; [|apply Hno; intros r [? _]%Honly; lia].
    rewrite !(value_8 _ e Hp), !bind_some by lia. rewrite Hlen. rewrite (proj2 (Z.ltb_ge (size e) 31)), Z.ltb_irrefl by lia. cbn [orb].
    rewrite (checksum_valid_spec p e), bind_some by (done || lia). rewrite (take_ge e) by (unfold size; lia).
    case_bool_decide as Esum; cbn [negb]; [|apply Hno; by intros r (_ & ? & _)%Honly].
    assert (contents (plus p 16) (drop (Z.to_nat 16) e)) as Hd.
    { pose proof (contents_plus p 0 e 16) as Hx. rewrite Z.add_0_l in Hx. apply Hx; [|lia]. split; [done|]. intros i Hi. by apply Hp. }
    assert (size (drop (Z.to_nat 16) e) = size e - 16) as Hds by (unfold size in *; rewrite length_drop; lia).
    rewrite (equal_text_spec _ _ Hd), bind_some by (cbn; lia). change (slice (drop (Z.to_nat 16) e) 0 (Z.of_nat (length (chars "_DMI_")))) with (slice e 16 5).
    case_bool_decide as Edmi; cbn [negb]; [|apply Hno; by intros r (_ & _ & ? & _)%Honly].
    rewrite (checksum_valid_spec _ _ 15 Hd), bind_some by lia. change (take (Z.to_nat 15) (drop (Z.to_nat 16) e)) with (slice e 16 15).
    case_bool_decide as Esum2; cbn [negb]; [|apply Hno; by intros r (_ & _ & _ & ? & _)%Honly].
    rewrite !(value_16 _ e Hp), (value_32 _ e Hp), !bind_some by lia. apply Hfinish; [by apply entry_2| |by intros r' (_ & _ & _ & _ & ->)%Honly].
    cbn [table_size]. pose proof (le_fits e 22 2 Hb). lia.
Qed.

(** ** Initialisation *)

Lemma mapped_range_within address length : 0 <= length -> Smbios.mapped_range address length = true <-> within MVH_BOOTINFO_IDENTITY_LIMIT address length.
Proof.
  intros Hl. unfold Smbios.mapped_range, within. rewrite !andb_true_iff, negb_true_iff, Z.eqb_neq, !Z.leb_le, Z.ltb_lt. lia.
Qed.

Lemma entry_header e r : entry e r -> all_bytes e -> 0 <= announced_structures r /\ counts r = no_counts /\ texts r = no_texts /\ 0 <= table_size r.
Proof.
  intros Hr Hb. destruct Hr as [e H5 Hs _ _|e H4 Hs _ _ _ _]; unfold SMBIOS3_MIN_SIZE, SMBIOS2_MIN_SIZE in *; cbn.
  - pose proof (le_fits e 12 4 Hb). split; [lia|]. split; [done|]. split; [done|lia].
  - pose proof (le_fits e 28 2 Hb). pose proof (le_fits e 22 2 Hb). split; [lia|]. split; [done|]. split; [done|lia].
Qed.

Lemma entry_fun e r r' : entry e r -> entry e r' -> r = r'.
Proof.
  intros H1 H2. destruct H1 as [e H5 _ _ _|e H4 _ _ _ _ _]; inversion H2; subst; try done; by destruct (kinds_differ e).
Qed.

Definition empty_texts : smbios_texts := Texts [] [] [] [] [] [] [] [].
Lemma no_texts_hold : hold_texts no_texts empty_texts.
Proof. by constructor; (split; [done|by eexists]). Qed.

(** What an initialisation publishes, and that there is nothing to publish. *)
Definition published (m : pointer) (address : Z) (i : smbios_info) : Prop :=
  exists r ss, machine_described m address r ss /\ available i = 1 /\ major i = major r /\ minor i = minor r /\
    table_address i = table_address r /\ table_size i = table_size r /\ counts i = machine_counts ss no_counts /\ hold_texts (texts i) (machine_texts ss empty_texts).

Lemma nothing_published m address :
  (forall e r, contents (plus m address) e -> within MVH_BOOTINFO_IDENTITY_LIMIT address (size e) -> entry_ok e r ->
    forall l ss, contents (plus m (table_address r)) l -> size l = table_size r -> within MVH_BOOTINFO_IDENTITY_LIMIT (table_address r) (size l) ->
    ~ table_ok l (announced_structures r) ss) ->
  exists i code, Some (no_info, -1) = Some (i, code) /\
    ((code = 0 /\ published m address i) \/ (code = -1 /\ i = no_info /\ forall r ss, ~ machine_described m address r ss)).
Proof.
  intros Hn. exists no_info, (-1). split; [done|]. right. split; [done|]. split; [done|].
  intros r ss (e & l & H1 & H2 & H3 & H4 & H5 & H6 & H7). by apply (Hn e r H1 H2 H3 l ss).
Qed.

Lemma length_byte_prefix p e e16 : contents p e16 -> size e16 = 16 -> contents p e -> 16 <= size e -> length_byte e = length_byte e16.
Proof.
  intros He16 Hs16 He Hs. assert (e16 = take 16 e) as ->.
  { apply (contents_unique p); [done| |unfold size in *; rewrite length_take; lia]. destruct He as [Hb Hl]. split; [by apply Forall_take|]. intros o Ho.
    rewrite length_take in Ho. rewrite Hl by lia. unfold rd. rewrite !(proj2 (Z.ltb_ge _ _)) by lia. by rewrite lookup_take_lt by lia. }
  unfold length_byte. rewrite !take_take. change (5 `min` 16)%nat with 5%nat. change (4 `min` 16)%nat with 4%nat.
  assert (forall i, 0 <= i < 16 -> byte (take 16 e) i = byte e i) as Hbt; [|by rewrite !Hbt by lia].
  intros i Hi. unfold byte, rd. rewrite (proj2 (Z.ltb_ge _ _)) by lia. by rewrite lookup_take_lt by lia.
Qed.

Lemma length_byte_nonneg e n : all_bytes e -> length_byte e = Some n -> 0 <= n.
Proof.
  intros Hb En. unfold length_byte in En. pose proof (fits_byte e 6 Hb) as F6. pose proof (fits_byte e 5 Hb) as F5. unfold fits in *.
  destruct (decide _); [injection En; lia|]. destruct (decide _); [injection En; lia|done].
Qed.

(** C23: the description of the machine.  On any contents of the mapped gigabyte
    [smbios_init] ends without a fault, and never stores outside an array.  It
    succeeds exactly when there is a valid entry point whose table consists of
    well-formed structures up to the end marker, or of as many as it announces;
    then the counts, the sum of the memory devices and their greatest speed are
    those of the structures, and every text is the string that the last structure
    of its kind names, cut to 63 printable characters.  When it fails, nothing is
    published. *)
Theorem smbios_init_exact m address parsed :
  identity_mapped m MVH_BOOTINFO_IDENTITY_LIMIT ->
  exists i code, smbios_init m address parsed = Some (i, code) /\
    ((code = 0 /\ published m address i) \/ (code = -1 /\ i = no_info /\ forall r ss, ~ machine_described m address r ss)).
Proof.
  intros Hm. unfold smbios_init. destruct (Smbios.mapped_range address 16) eqn:H16; cbn [negb].
  2:{ apply nothing_published. intros e r _ Hw [Hr _]. destruct (entry_point_length e r Hr) as [_ Hs]. apply not_true_iff_false in H16. destruct H16.
      apply mapped_range_within; [lia|]. unfold within in *. lia. }
  apply mapped_range_within in H16; [|lia].
  destruct (readable_contents (plus m address) 16) as (e16 & He16 & Hs16); [lia|by apply (within_readable m MVH_BOOTINFO_IDENTITY_LIMIT)|].
  fold (size e16) in Hs16. rewrite (entry_size_spec _ e16 He16), bind_some by lia.
  assert (Hlen : forall e r, contents (plus m address) e -> entry_ok e r -> length_byte e16 = Some (size e)).
  { intros e r He [Hr _]. destruct (entry_point_length e r Hr) as [E Hs]. by rewrite <- (length_byte_prefix _ e e16 He16 Hs16 He) by lia. }
  destruct (length_byte e16) as [n|] eqn:En.
  2:{ apply nothing_published. intros e r He _ Hr. by pose proof (Hlen e r He Hr). }
  pose proof (length_byte_nonneg _ _ (proj1 He16) En) as Hn0. destruct (Smbios.mapped_range address n) eqn:Hmap; cbn [negb].
  2:{ apply nothing_published. intros e r He Hw Hr. injection (Hlen e r He Hr) as ->. apply not_true_iff_false in Hmap. destruct Hmap. by apply mapped_range_within. }
  apply mapped_range_within in Hmap; [|lia].
  destruct (readable_contents (plus m address) n) as (e & He & Hse); [lia|by apply (within_readable m MVH_BOOTINFO_IDENTITY_LIMIT)|]. fold (size e) in Hse.
  assert (Huniq : forall e' r, contents (plus m address) e' -> entry_ok e' r -> e' = e).
  { intros e' r He' Hr. apply (contents_unique (plus m address)); [done|done|]. pose proof (Hlen e' r He' Hr) as [= E]. unfold size in *. lia. }
  rewrite <- Hse. destruct (validate_entry_spec (plus m address) e parsed He) as (r & code & -> & [[-> Hr]|[-> Hr]]).
  { intros H24. by rewrite (length_byte_prefix _ e e16 He16 Hs16 He), En, Hse by lia. }
  2:{ rewrite bind_some. apply nothing_published. intros e' r' He' _ Hr'. pose proof (Huniq e' r' He' Hr') as ->. by destruct (Hr r'). }
  rewrite bind_some. change (negb (0 =? 0)) with false. cbn iota. rewrite bind_some. destruct (entry_header e r (proj1 Hr) (proj1 He)) as (Ha & Hc & Ht & Hts).
  assert (Hsole : forall e' r', contents (plus m address) e' -> entry_ok e' r' -> r' = r).
  { intros e' r' He' Hr'. pose proof (Huniq e' r' He' Hr') as ->. by apply (entry_fun e); [apply Hr'|apply Hr]. }
  destruct (Smbios.mapped_range (table_address r) (table_size r)) eqn:Hmt; cbn [negb].
  2:{ apply nothing_published. intros e' r' He' _ Hr' l ss _ Hsl Hwl _. pose proof (Hsole e' r' He' Hr') as ->. apply not_true_iff_false in Hmt. destruct Hmt.
      apply mapped_range_within; [lia|]. by rewrite <- Hsl. }
  apply mapped_range_within in Hmt; [|lia].
  destruct (readable_contents (plus m (table_address r)) (table_size r)) as (l & Hl & Hsl); [lia|by apply (within_readable m MVH_BOOTINFO_IDENTITY_LIMIT)|].
  fold (size l) in Hsl. rewrite <- Hsl.
  destruct (parse_table_spec (plus m (table_address r)) l (announced_structures r) r empty_texts Hl Hc) as (r' & code & -> & Hres);
    [rewrite Ht; exact no_texts_hold|done|]. rewrite bind_some. destruct Hres as [(-> & ss & t' & Hok & -> & Hhold)|[-> Hbad]].
  - eexists _, 0. split; [done|]. left. split; [done|]. exists r, ss. cbn. split; [|auto 10].
    exists e, l. rewrite Hse, Hsl. auto 10.
  - apply nothing_published. intros e' r'' He' _ Hr' l' ss Hl' Hsl' _. pose proof (Hsole e' r'' He' Hr') as ->.
    assert (l' = l) as ->; [|apply Hbad]. apply (contents_unique (plus m (table_address r))); [done|done|]. unfold size in *. lia.
Qed.

(** An entry point at 0x1000, and a table with the firmware's vendor, one module
    of 4 GiB at 3200 MHz and the end marker at 0x1020. *)
Definition sample_table : list Z :=
  [0; 6; 0; 0; 1; 0] ++ chars "MVH"%string ++ [0; 0] ++ [17; 23; 1; 0; 0; 0; 0; 0; 0; 0; 0; 0] ++ le_bytes 2 4096 ++ replicate 7 0 ++ le_bytes 2 3200 ++ [0; 0] ++
  [127; 4; 2; 0; 0; 0].
Definition sample_entry : list Z :=
  summed 5 (chars "_SM3_"%string ++ [0; 24; 3; 6; 0; 1; 0] ++ le_bytes 4 (size sample_table) ++ le_bytes 8 0x1020).
Definition smbios_memory : pointer := memory_at 0x1000 (sample_entry ++ replicate 8 0 ++ sample_table).

Lemma smbios_sample : match smbios_init smbios_memory 0x1000 no_info with
  | Some (i, 0) => counts i = Counts 3 1 0 0 0 1 1 4096 3200 /\ take 4 (bios_vendor (texts i)) = chars "MVH"%string ++ [0] | _ => False end.
Proof. by vm_compute. Qed.

Lemma smbios_init_exact_witness :
  exists i, smbios_init smbios_memory 0x1000 no_info = Some (i, 0) /\ published smbios_memory 0x1000 i /\ installed_memory_mib (counts i) = 4096.
Proof.
  assert (identity_mapped smbios_memory MVH_BOOTINFO_IDENTITY_LIMIT) as Hm by (apply memory_at_mapped; apply (bool_decide_unpack _); by vm_compute).
  destruct (smbios_init_exact smbios_memory 0x1000 no_info Hm) as (i & code & E & Hcase).
  pose proof smbios_sample as Hs. rewrite E in Hs. destruct Hcase as [(-> & Hp)|(-> & _)]; [|destruct Hs].
  exists i. split; [exact E|]. split; [exact Hp|]. destruct Hs as [-> _]. reflexivity.
Defined.
