(* ===== verification/Random.v ===== *)
(** * random.c: the random number generator

    A ChaCha block function over a pool of sixteen words.  Half of each block
    replaces the key, the other half is handed out byte by byte.  Every public
    function holds [random_lock], so each is one step.  What the processor and the
    timer return are arguments of [random_init]. *)

From S2P Require Import Prelude Buffer.

Definition RANDOM_OUTPUT_BYTES : Z := 32.

Record random := Random {
  random_state : list Z;
  random_buffer : list Z;
  random_available : Z;
  entropy_bits : Z;
}.

Definition rotate_left (value amount : Z) : Z := u32 (value << amount) ||| (value >> (32 - amount)).

Definition quarter (a b c d : Z) : Z * Z * Z * Z :=
  let a := u32 (a + b) in let d := rotate_left (d ^^^ a) 16 in
  let c := u32 (c + d) in let b := rotate_left (b ^^^ c) 12 in
  let a := u32 (a + b) in let d := rotate_left (d ^^^ a) 8 in
  let c := u32 (c + d) in let b := rotate_left (b ^^^ c) 7 in
  (a, b, c, d).

(** [quarter(&working[i], ...)]: the four words are distinct. *)
Definition quarter_at (i j k l : Z) (w : list Z) : option (list Z) :=
  a ← rd w i; b ← rd w j; c ← rd w k; d ← rd w l;
  let '(a, b, c, d) := quarter a b c d in
  w ← wr w i a; w ← wr w j b; w ← wr w k c; wr w l d.

Definition double_round (w : list Z) : option (list Z) :=
  w ← quarter_at 0 4 8 12 w; w ← quarter_at 1 5 9 13 w; w ← quarter_at 2 6 10 14 w; w ← quarter_at 3 7 11 15 w;
  w ← quarter_at 0 5 10 15 w; w ← quarter_at 1 6 11 12 w; w ← quarter_at 2 7 8 13 w; quarter_at 3 4 9 14 w.

(** [random_buffer[index * 4]] to [random_buffer[index * 4 + 3]] *)
Definition put_word (b : list Z) (index value : Z) : option (list Z) :=
  b ← wr b (index * 4) (u8 value); b ← wr b (index * 4 + 1) (u8 (value >> 8));
  b ← wr b (index * 4 + 2) (u8 (value >> 16)); wr b (index * 4 + 3) (u8 (value >> 24)).

Definition advance_counter (state : list Z) : option (list Z) :=
  c ← rd state 12; state ← wr state 12 (u32 (c + 1));
  c ← rd state 12; if c =? 0 then h ← rd state 13; wr state 13 (u32 (h + 1)) else Some state.

(** [junk]: the uninitialised words on the stack. *)
Definition generate_block (junk : list Z) (r : random) : option random :=
  working ← for_loop 16 0 (fun index working => v ← rd (random_state r) index; wr working index v) junk;
  working ← for_loop 10 0 (fun _ working => double_round working) working;
  working ← for_loop 16 0 (fun index working => v ← rd working index; x ← rd (random_state r) index; wr working index (u32 (v + x))) working;
  state ← advance_counter (random_state r);
  state ← for_loop 8 0 (fun index state => v ← rd state (4 + index); x ← rd working index; wr state (4 + index) (v ^^^ x)) state;
  buffer ← for_loop 8 0 (fun index buffer => value ← rd working (8 + index); put_word buffer index value) (random_buffer r);
  Some (Random state buffer RANDOM_OUTPUT_BYTES (entropy_bits r)).

Definition mix_byte (bytes : list Z) (index : Z) (state : list Z) : option (list Z) :=
  let slot := index &&& 7 in
  b ← rd bytes index; v ← rd state (4 + slot);
  state ← wr state (4 + slot) (v ^^^ rotate_left (u32 (u32 (b + 0x9E3779B9) + index)) (index mod 31 + 1));
  p ← rd state 14; v ← rd state (4 + slot); q ← rd state 15;
  state ← wr state 14 (p ^^^ u32 (v + q));
  wr state 15 (rotate_left (q ^^^ b) 7).

Definition entropy_add (data : option (list Z)) (size estimated_bits : Z) (r : random) : option random :=
  match data with
  | None => Some r
  | Some bytes =>
    if size =? 0 then Some r else
    state ← for_loop (Z.to_nat size) 0 (mix_byte bytes) (random_state r);
    let bits := if u32 (256 - entropy_bits r) <=? estimated_bits then 256 else u32 (entropy_bits r + estimated_bits) in
    Some (Random state (random_buffer r) 0 bits)
  end.

(** One attempt of the loop over the hardware generator: [found] is the value it
    gave, if it gave one; the state is the generator and the last value. *)
Definition hardware_step (found : option Z) (st : random * option Z) : option (random * option Z) :=
  let '(r, previous) := st in
  match found with
  | Some value =>
    if bool_decide (previous = Some value) then Some st else
    r ← entropy_add (Some (le_bytes 8 value)) 8 64 r; Some (r, Some value)
  | None => Some st
  end.

(** [tsc], [tsc']: the two readings of [cpu_read_tsc]; [hardware]: what the four
    calls of [cpu_random64] gave; [address]: that of the local variable. *)
Definition random_init (tsc ticks address : Z) (hardware : list (option Z)) (tsc' frequency : Z) (r : random) : option random :=
  let r := Random ([0x61707865; 0x3320646E; 0x79622D32; 0x6B206574] ++ replicate 12 0) (random_buffer r) 0 0 in
  r ← entropy_add (Some (le_bytes 8 (tsc ^^^ ticks ^^^ address))) 8 8 r;
  '(r, _) ← for_loop 4 0 (fun index st => found ← rd hardware index; hardware_step found st) (r, None);
  entropy_add (Some (le_bytes 8 (tsc' ^^^ u64 (frequency << 32)))) 8 4 r.

Definition random_is_ready (r : random) : Z := Z.b2z (256 <=? entropy_bits r).
Definition random_entropy_bits (r : random) : Z := entropy_bits r.

(** One byte of the loop of [random_bytes]. *)
Definition next_byte (junk : list Z) (r : random) : option (random * Z) :=
  r ← (if random_available r =? 0 then generate_block junk r else Some r);
  b ← rd (random_buffer r) (u32 (RANDOM_OUTPUT_BYTES - random_available r));
  Some (Random (random_state r) (random_buffer r) (u32 (random_available r - 1)) (entropy_bits r), b).

Definition random_bytes (junk : list Z) (output : option (list Z)) (size : Z) (r : random) : option (option (list Z) * random) :=
  match output with
  | None => Some (None, r)
  | Some bytes =>
    if size =? 0 then Some (output, r) else
    '(bytes, r) ← for_loop (Z.to_nat size) 0 (fun index '(bytes, r) =>
       '(r, b) ← next_byte junk r; bytes ← wr bytes index b; Some (bytes, r)) (bytes, r);
    Some (Some bytes, r)
  end.

(** [value]: the uninitialised variable. *)
Definition random_u64 (junk value : list Z) (r : random) : option (Z * random) :=
  '(out, r) ← random_bytes junk (Some value) 8 r; bytes ← out; v ← get64 bytes 0; Some (v, r).

Definition random_self_test (junk value value' : list Z) (r : random) : option (random * Z) :=
  '(first, r) ← random_u64 junk value r;
  '(second, r) ← random_u64 junk value' r;
  let '(a, b, c, d) := quarter 0x11111111 0x01020304 0x9B8D6F43 0x01234567 in
  if negb (a =? 0xEA2A92F4) || negb (b =? 0xCB1CF8CE) || negb (c =? 0x4581472E) || negb (d =? 0x5881C4BB) then Some (r, -1) else
  Some (r, if negb (first =? second) && (negb (first =? 0) || negb (second =? 0)) then 0 else -1).

(** ** The block function permutes the states *)

Definition words (n : nat) (l : list Z) : Prop := length l = n /\ Forall (fits 32) l.

Lemma words_rd n l i : words n l -> 0 <= i < Z.of_nat n -> exists v, rd l i = Some v /\ fits 32 v.
Proof.
  intros [Hl Hf] Hi. destruct (rd_ok l i) as [v Hv]; [lia|]. exists v. split; [done|]. apply rd_Some in Hv as [_ Hv]. by apply (Forall_lookup_1 _ _ _ _ Hf Hv).
Qed.

Lemma words_wr n l i v : words n l -> 0 <= i < Z.of_nat n -> fits 32 v -> exists l', wr l i v = Some l' /\ words n l' /\ forall m, rd l' m = if i =? m then Some v else rd l m.
Proof.
  intros [Hl Hf] Hi Hv. eexists. rewrite wr_ok by lia. split; [done|]. split.
  - split; [by rewrite length_insert|by apply Forall_insert].
  - intros m. apply (rd_wr l). apply wr_ok. lia.
Qed.

Lemma rotate_bits x n m : fits 32 x -> 0 < n < 32 -> 0 <= m ->
  Z.testbit (rotate_left x n) m = (m <? 32) && Z.testbit x (if m <? n then m + (32 - n) else m - n).
Proof.
  intros Hx Hn Hm. unfold rotate_left, u32. rewrite Z.lor_spec, Z.testbit_mod_pow2, Z.shiftl_spec, Z.shiftr_spec by lia.
  destruct (Z.ltb_spec m n).
  - rewrite (Z.testbit_neg_r x (m - n)) by lia. rewrite andb_false_r. destruct (Z.ltb_spec m 32); [done|lia].
  - rewrite (testbit_above 32 x (m + (32 - n))) by (done || lia). apply orb_false_r.
Qed.

Lemma rotate_fits x n : fits 32 x -> 0 < n < 32 -> fits 32 (rotate_left x n).
Proof. intros Hx Hn. unfold rotate_left. apply lor_fits; [lia|apply u32_range|apply shiftr_fits; (done || lia)]. Qed.

Lemma rotate_back x n k : fits 32 x -> 0 < n < 32 -> n + k = 32 -> rotate_left (rotate_left x n) k = x.
Proof.
  intros Hx Hn Hk. replace k with (32 - n) by lia. apply Z.bits_inj'. intros m Hm. rewrite rotate_bits by (try apply rotate_fits; (done || lia)).
  destruct (Z.ltb_spec m 32) as [Hlt|Hge]; [|by rewrite (testbit_above 32 x m) by (done || lia)]. cbn [andb].
  destruct (Z.ltb_spec m (32 - n)); rewrite rotate_bits by (done || lia).
  - rewrite (proj2 (Z.ltb_lt _ _)), (proj2 (Z.ltb_ge (m + _) n)) by lia. cbn [andb]. f_equal. lia.
  - rewrite (proj2 (Z.ltb_lt (m - (32 - n)) 32)), (proj2 (Z.ltb_lt (m - (32 - n)) n)) by lia. cbn [andb]. f_equal. lia.
Qed.

Lemma add_back x y : fits 32 x -> u32 (u32 (x + y) - y) = x.
Proof. intros Hx. unfold u32, fits in *. rewrite Zminus_mod_idemp_l. replace (x + y - y) with x by lia. by apply Z.mod_small. Qed.

Lemma xor_back x y : (x ^^^ y) ^^^ y = x.
Proof. by rewrite Z.lxor_assoc, Z.lxor_nilpotent, Z.lxor_0_r. Qed.

(** The inverse of a quarter round. *)
Definition unquarter (a b c d : Z) : Z * Z * Z * Z :=
  let b := rotate_left b 25 ^^^ c in let c := u32 (c - d) in let d := rotate_left d 24 ^^^ a in let a := u32 (a - b) in
  let b := rotate_left b 20 ^^^ c in let c := u32 (c - d) in let d := rotate_left d 16 ^^^ a in let a := u32 (a - b) in
  (a, b, c, d).

Create HintDb rnd.
#[local] Hint Resolve lxor_fits u32_range rotate_fits : rnd.
#[local] Hint Extern 1 (0 <= 32) => lia : rnd.
#[local] Hint Extern 1 (0 < _ < 32) => lia : rnd.

Lemma quarter_fits a b c d : fits 32 a -> fits 32 b -> fits 32 c -> fits 32 d ->
  let '(a', b', c', d') := quarter a b c d in fits 32 a' /\ fits 32 b' /\ fits 32 c' /\ fits 32 d'.
Proof. intros Ha Hb Hc Hd. unfold quarter. cbv zeta. split_and!; eauto 12 with rnd. Qed.

Lemma unquarter_quarter a b c d : fits 32 a -> fits 32 b -> fits 32 c -> fits 32 d ->
  let '(a', b', c', d') := quarter a b c d in unquarter a' b' c' d' = (a, b, c, d).
Proof.
  intros Ha Hb Hc Hd. unfold quarter, unquarter. cbv zeta.
  set (a1 := u32 (a + b)). set (d1 := rotate_left (d ^^^ a1) 16). set (c1 := u32 (c + d1)). set (b1 := rotate_left (b ^^^ c1) 12).
  set (a2 := u32 (a1 + b1)). set (d2 := rotate_left (d1 ^^^ a2) 8). set (c2 := u32 (c1 + d2)).
  assert (fits 32 a1 /\ fits 32 c1 /\ fits 32 a2 /\ fits 32 c2) as (Fa1 & Fc1 & Fa2 & Fc2) by (unfold a1, c1, a2, c2; eauto 10 with rnd).
  assert (fits 32 d1) as Fd1 by (apply rotate_fits; [apply lxor_fits; (done || lia)|lia]).
  assert (fits 32 b1) as Fb1 by (apply rotate_fits; [apply lxor_fits; (done || lia)|lia]).
  assert (fits 32 d2) as Fd2 by (apply rotate_fits; [apply lxor_fits; (done || lia)|lia]).
  rewrite (rotate_back (b1 ^^^ c2) 7 25), xor_back by (try apply lxor_fits; (done || lia)).
  assert (u32 (c2 - d2) = c1) as -> by (by apply add_back).
  assert (rotate_left d2 24 ^^^ a2 = d1) as -> by (unfold d2; rewrite (rotate_back _ 8 24) by (try apply lxor_fits; (done || lia)); apply xor_back).
  assert (u32 (a2 - b1) = a1) as -> by (by apply add_back).
  assert (rotate_left b1 20 ^^^ c1 = b) as -> by (unfold b1; rewrite (rotate_back _ 12 20) by (try apply lxor_fits; (done || lia)); apply xor_back).
  assert (u32 (c1 - d1) = c) as -> by (by apply add_back).
  assert (rotate_left d1 16 ^^^ a1 = d) as -> by (unfold d1; rewrite (rotate_back _ 16 16) by (try apply lxor_fits; (done || lia)); apply xor_back).
  unfold a1. by rewrite (add_back a b Ha).
Qed.

Definition distinct (i j k l : Z) : Prop :=
  (0 <= i < 16 /\ 0 <= j < 16 /\ 0 <= k < 16 /\ 0 <= l < 16) /\ i <> j /\ i <> k /\ i <> l /\ j <> k /\ j <> l /\ k <> l.

Lemma quarter_at_spec i j k l w : words 16 w -> distinct i j k l ->
  exists w' a b c d, rd w i = Some a /\ rd w j = Some b /\ rd w k = Some c /\ rd w l = Some d /\ fits 32 a /\ fits 32 b /\ fits 32 c /\ fits 32 d /\
    quarter_at i j k l w = Some w' /\ words 16 w' /\
    let '(a', b', c', d') := quarter a b c d in
    forall m, rd w' m = if l =? m then Some d' else if k =? m then Some c' else if j =? m then Some b' else if i =? m then Some a' else rd w m.
Proof.
  intros Hw ((Hi & Hj & Hk & Hl) & _). unfold quarter_at.
  destruct (words_rd 16 w i Hw Hi) as (a & Ea & Fa), (words_rd 16 w j Hw Hj) as (b & Eb & Fb), (words_rd 16 w k Hw Hk) as (c & Ec & Fc),
    (words_rd 16 w l Hw Hl) as (d & Ed & Fd). rewrite Ea, Eb, Ec, Ed, !bind_some.
  pose proof (quarter_fits a b c d Fa Fb Fc Fd) as HF. destruct (quarter a b c d) as [[[a' b'] c'] d'] eqn:E. destruct HF as (Fa' & Fb' & Fc' & Fd').
  destruct (words_wr 16 w i a' Hw Hi Fa') as (w1 & -> & H1 & R1). rewrite bind_some.
  destruct (words_wr 16 w1 j b' H1 Hj Fb') as (w2 & -> & H2 & R2). rewrite bind_some.
  destruct (words_wr 16 w2 k c' H2 Hk Fc') as (w3 & -> & H3 & R3). rewrite bind_some.
  destruct (words_wr 16 w3 l d' H3 Hl Fd') as (w4 & -> & H4 & R4).
  exists w4, a, b, c, d. rewrite E. do 10 (split; [done|]). intros m. by rewrite R4, R3, R2, R1.
Qed.

Definition permutes (f : list Z -> option (list Z)) : Prop :=
  (forall w, words 16 w -> exists w', f w = Some w' /\ words 16 w') /\
  (forall w1 w2, words 16 w1 -> words 16 w2 -> f w1 = f w2 -> w1 = w2).

Lemma quarter_at_permutes i j k l : distinct i j k l -> permutes (quarter_at i j k l).
Proof.
  intros D. split.
  - intros w Hw. destruct (quarter_at_spec i j k l w Hw D) as (w' & a & b & c & d & _ & _ & _ & _ & _ & _ & _ & _ & E & H & _). by exists w'.
  - intros w1 w2 H1 H2 E. pose proof D as ((Hi & Hj & Hk & Hl) & Hd).
    destruct (quarter_at_spec i j k l w1 H1 D) as (w & a1 & b1 & c1 & d1 & A1 & B1 & C1 & D1 & Fa1 & Fb1 & Fc1 & Fd1 & E1 & _ & R1).
    destruct (quarter_at_spec i j k l w2 H2 D) as (w' & a2 & b2 & c2 & d2 & A2 & B2 & C2 & D2 & Fa2 & Fb2 & Fc2 & Fd2 & E2 & _ & R2).
    assert (w' = w) as -> by congruence. pose proof (unquarter_quarter a1 b1 c1 d1 Fa1 Fb1 Fc1 Fd1) as U1. pose proof (unquarter_quarter a2 b2 c2 d2 Fa2 Fb2 Fc2 Fd2) as U2.
    destruct (quarter a1 b1 c1 d1) as [[[x1 y1] z1] u1], (quarter a2 b2 c2 d2) as [[[x2 y2] z2] u2].
    assert (forall m, (if l =? m then Some u1 else if k =? m then Some z1 else if j =? m then Some y1 else if i =? m then Some x1 else rd w1 m) =
      (if l =? m then Some u2 else if k =? m then Some z2 else if j =? m then Some y2 else if i =? m then Some x2 else rd w2 m)) as R by (intros m; by rewrite <- R1, R2).
    assert (u1 = u2 /\ z1 = z2 /\ y1 = y2 /\ x1 = x2) as (-> & -> & -> & ->).
    { pose proof (R l) as Rl. pose proof (R k) as Rk. pose proof (R j) as Rj. pose proof (R i) as Ri.
      rewrite Z.eqb_refl in Rl. rewrite (proj2 (Z.eqb_neq l k)), Z.eqb_refl in Rk by lia.
      rewrite (proj2 (Z.eqb_neq l j)), (proj2 (Z.eqb_neq k j)), Z.eqb_refl in Rj by lia.
      rewrite (proj2 (Z.eqb_neq l i)), (proj2 (Z.eqb_neq k i)), (proj2 (Z.eqb_neq j i)), Z.eqb_refl in Ri by lia. by simplify_eq. }
    rewrite U1 in U2. injection U2 as -> -> -> ->.
    apply rd_eq; [by rewrite (proj1 H1), (proj1 H2)|]. intros m _. pose proof (R m) as Rm. clear R R1 R2.
    destruct (Z.eqb_spec l m) as [E'|]; [by rewrite <- E', D1, D2|]. destruct (Z.eqb_spec k m) as [E'|]; [by rewrite <- E', C1, C2|].
    destruct (Z.eqb_spec j m) as [E'|]; [by rewrite <- E', B1, B2|]. destruct (Z.eqb_spec i m) as [E'|]; [by rewrite <- E', A1, A2|]. done.
Qed.

Lemma permutes_bind f g : permutes f -> permutes g -> permutes (fun w => w ← f w; g w).
Proof.
  intros [F1 F2] [G1 G2]. split.
  - intros w Hw. destruct (F1 w Hw) as (w' & -> & Hw'). apply (G1 w' Hw').
  - intros w1 w2 H1 H2 E. destruct (F1 w1 H1) as (x1 & E1 & Hx1), (F1 w2 H2) as (x2 & E2 & Hx2). rewrite E1, E2, !bind_some in E.
    apply F2; [done..|]. rewrite E1, E2. f_equal. by apply G2.
Qed.

Lemma permutes_rounds f n i : permutes f -> permutes (fun w => for_loop n i (fun _ w => f w) w).
Proof.
  intros Hf. revert i. induction n as [|n IH]; intros i.
  - split; [intros w Hw; by exists w|]. intros w1 w2 _ _ E. by injection E.
  - exact (permutes_bind f _ Hf (IH (i + 1))).
Qed.

Lemma double_round_permutes : permutes double_round.
Proof.
  unfold double_round. repeat (apply permutes_bind; [apply quarter_at_permutes; unfold distinct; lia|]). apply quarter_at_permutes. unfold distinct. lia.
Qed.

(** ** Blocks *)

Record random_inv (r : random) : Prop := {
  inv_words : words 16 (random_state r);
  inv_buffer : length (random_buffer r) = 32%nat /\ all_bytes (random_buffer r);
  inv_available : 0 <= random_available r <= RANDOM_OUTPUT_BYTES;
  inv_entropy : 0 <= entropy_bits r <= 256;
}.

Definition word (l : list Z) (i : Z) : Z := default 0 (rd l i).
Lemma word_rd n l i : words n l -> 0 <= i < Z.of_nat n -> rd l i = Some (word l i) /\ fits 32 (word l i).
Proof. intros Hl Hi. unfold word. destruct (words_rd n l i Hl Hi) as (v & -> & Hv). done. Qed.

(** A loop that replaces the words from [o] by [g]. *)
Lemma update_loop n o (g : Z -> Z) (body : Z -> list Z -> option (list Z)) l : 0 <= o -> o + Z.of_nat n <= Z.of_nat (length l) ->
  (forall i c, 0 <= i < Z.of_nat n -> length c = length l -> rd c (o + i) = rd l (o + i) -> body i c = wr c (o + i) (g i)) ->
  exists l', for_loop n 0 body l = Some l' /\ length l' = length l /\ forall m, rd l' m = if (o <=? m) && (m <? o + Z.of_nat n) then Some (g (m - o)) else rd l m.
Proof.
  intros Ho Hn Hbody.
  destruct (for_loop_rule (fun i c => length c = length l /\ forall m, rd c m = if (o <=? m) && (m <? o + i) then Some (g (m - o)) else rd l m) n 0 body l) as (l' & E & Hl & Hr).
  - split; [done|]. intros m. zcmp.
  - intros i c Hi [Hl Hr]. rewrite Hbody by (try rewrite Hr; try done; try lia; zcmp). rewrite wr_ok by lia. eexists. split; [done|].
    split; [by rewrite length_insert|]. intros m. rewrite (rd_wr c (o + i) m (g i)) by (apply wr_ok; lia). rewrite Hr.
    destruct (Z.eqb_spec (o + i) m) as [<-|]; [|zcmp]. rewrite (proj2 (Z.leb_le o (o + i))), (proj2 (Z.ltb_lt (o + i) _)) by lia. cbn [andb]. do 2 f_equal. lia.
  - exists l'. by split_and!.
Qed.

Lemma words_of_rd n l (f : Z -> Z) : length l = n -> (forall m, 0 <= m < Z.of_nat n -> rd l m = Some (f m) /\ fits 32 (f m)) -> words n l.
Proof.
  intros Hl Hf. split; [done|]. apply Forall_lookup. intros i v Hv. pose proof (lookup_lt_Some _ _ _ Hv).
  destruct (Hf (Z.of_nat i)) as [E F]; [lia|]. assert (rd l (Z.of_nat i) = Some v) as E' by (apply rd_Some; split; [lia|by rewrite Nat2Z.id]). congruence.
Qed.

Lemma output_bytes l : length (concat (le_bytes 4 <$> l)) = (4 * length l)%nat /\ all_bytes (concat (le_bytes 4 <$> l)).
Proof.
  induction l as [|x l [IH IHb]]; [by split; [|constructor]|]. cbn [fmap list_fmap concat length]. rewrite length_app, length_le_bytes, IH.
  split; [lia|]. apply Forall_app. split; [apply le_bytes_bytes|done].
Qed.

Lemma output_loop w b : words 16 w -> length b = 32%nat ->
  for_loop 8 0 (fun index buffer => value ← rd w (8 + index); put_word buffer index value) b = Some (concat (le_bytes 4 <$> drop 8 w)).
Proof.
  intros Hw Hb. assert (Hlen : forall k, (k <= 8)%nat -> length (concat (le_bytes 4 <$> take k (drop 8 w))) = (4 * k)%nat).
  { intros k Hk. rewrite (proj1 (output_bytes _)), length_take, length_drop, (proj1 Hw). lia. }
  destruct (for_loop_rule (fun i c => 0 <= i /\ c = splice b 0 (concat (le_bytes 4 <$> take (Z.to_nat i) (drop 8 w)))) 8 0
    (fun index buffer => value ← rd w (8 + index); put_word buffer index value) b) as (c & -> & _ & ->).
  - split; [done|]. unfold splice. simpl. by rewrite drop_0.
  - intros i c Hi [_ ->]. destruct (word_rd 16 w (8 + i) Hw) as [E _]; [lia|]. rewrite E, bind_some.
    pose proof (Hlen (Z.to_nat i) ltac:(lia)) as HL.
    change (put_word (splice b 0 (concat (le_bytes 4 <$> take (Z.to_nat i) (drop 8 w)))) i (word w (8 + i))) with
      (put32 (splice b 0 (concat (le_bytes 4 <$> take (Z.to_nat i) (drop 8 w)))) (i * 4) (word w (8 + i))).
    rewrite put32_spec by (unfold room; rewrite length_splice; unfold room; lia). eexists. split; [done|]. split; [lia|].
    replace (i * 4) with (0 + Z.of_nat (length (concat (le_bytes 4 <$> take (Z.to_nat i) (drop 8 w))))) by lia.
    rewrite splice_splice by (unfold room; rewrite ?length_app, length_le_bytes; lia). f_equal.
    replace (Z.to_nat (0 + i + 1)) with (S (Z.to_nat i)) by lia. replace (Z.to_nat (i + 1)) with (S (Z.to_nat i)) by lia.
    rewrite (take_S_r _ _ (word w (8 + i))).
    + by rewrite fmap_app, concat_app; cbn [fmap list_fmap concat]; rewrite app_nil_r.
    + apply rd_Some in E as [_ E]. rewrite lookup_drop. replace (8 + Z.to_nat i)%nat with (Z.to_nat (8 + i)) by lia. done.
  - f_equal. change (Z.to_nat (0 + Z.of_nat 8)) with 8%nat. pose proof (Hlen 8%nat ltac:(lia)) as HL.
    rewrite (take_ge (drop 8 w)) in * by (rewrite length_drop, (proj1 Hw); lia). unfold splice. change (Z.to_nat 0) with 0%nat. cbn [take app].
    rewrite (drop_ge b) by lia. by rewrite app_nil_r.
Qed.

(** The 64-bit block counter. *)
Definition block_counter (state : list Z) : Z := word state 12 + 2 ^ 32 * word state 13.

(** The block of a state: the rounds, then the state added word by word. *)
Definition is_block (state w : list Z) : Prop :=
  exists p, for_loop 10 0 (fun _ working => double_round working) state = Some p /\ words 16 w /\
    forall i, 0 <= i < 16 -> word w i = u32 (word p i + word state i).

(** What a generated block does to the pool. *)
Record block_effect (r r' : random) (w : list Z) : Prop := {
  be_output : random_buffer r' = concat (le_bytes 4 <$> drop 8 w);
  be_available : random_available r' = RANDOM_OUTPUT_BYTES;
  be_key : forall i, 4 <= i < 12 -> word (random_state r') i = word (random_state r) i ^^^ word w (i - 4);
  be_counter : block_counter (random_state r') = u64 (block_counter (random_state r) + 1);
  be_rest : forall i, i < 4 \/ 14 <= i -> word (random_state r') i = word (random_state r) i;
  be_entropy : entropy_bits r' = entropy_bits r;
}.

Lemma counter_step state : words 16 state ->
  exists s1, advance_counter state = Some s1 /\ words 16 s1 /\
    block_counter s1 = u64 (block_counter state + 1) /\ forall m, m <> 12 -> m <> 13 -> rd s1 m = rd state m.
Proof.
  intros Hs. destruct (word_rd 16 state 12 Hs) as [E12 F12]; [lia|]. destruct (word_rd 16 state 13 Hs) as [E13 F13]; [lia|]. unfold block_counter, advance_counter.
  set (lo := word state 12) in *. set (hi := word state 13) in *. rewrite E12, bind_some.
  destruct (words_wr 16 state 12 (u32 (lo + 1)) Hs) as (s & -> & Hs' & R); [lia|apply u32_range|]. rewrite bind_some. rewrite (R 12), Z.eqb_refl, bind_some.
  assert (rd s 13 = Some hi) as E by (rewrite R; done). unfold fits in *. destruct (Z.eqb_spec (u32 (lo + 1)) 0) as [H0|H0].
  - rewrite E, bind_some. destruct (words_wr 16 s 13 (u32 (hi + 1)) Hs') as (s2 & -> & Hs2 & R2); [lia|apply u32_range|].
    exists s2. split; [done|]. split; [done|]. split; [|intros m H1 H2; rewrite R2, R; zcmp].
    assert (word s2 12 = 0 /\ word s2 13 = u32 (hi + 1)) as [-> ->] by (unfold word; rewrite !R2, R, H0; done).
    assert (lo = 2 ^ 32 - 1) as -> by (unfold u32 in H0; divlia). unfold u32, u64. change (2 ^ 64) with (2 ^ 32 * 2 ^ 32).
    replace (2 ^ 32 - 1 + 2 ^ 32 * hi + 1) with (2 ^ 32 * (hi + 1)) by lia. rewrite Z.mul_mod_distr_l by lia. lia.
  - exists s. split; [done|]. split; [done|]. split; [|intros m H1 H2; rewrite R; zcmp].
    assert (word s 12 = u32 (lo + 1) /\ word s 13 = hi) as [-> ->] by (unfold word; rewrite R, E; done). assert (lo + 1 < 2 ^ 32) as Hlt.
    { destruct (Z.eq_dec lo (2 ^ 32 - 1)) as [E1|]; [|lia]. rewrite E1 in H0. by destruct H0. }
    rewrite u32_small, u64_small by (unfold fits; lia). lia.
Qed.

Lemma generate_block_spec junk r : random_inv r -> length junk = 16%nat ->
  exists r' w, generate_block junk r = Some r' /\ random_inv r' /\ is_block (random_state r) w /\ block_effect r r' w.
Proof.
  intros [Hs [Hb _] _ He] Hj. unfold generate_block. set (st := random_state r) in *.
  destruct (update_loop 16 0 (word st) (fun index working => v ← rd st index; wr working index v) junk) as (w0 & -> & Hl0 & R0); [lia|rewrite Hj; lia| |].
  { intros i c Hi Hc _. destruct (word_rd 16 st i Hs) as [-> _]; [lia|]. by rewrite bind_some. }
  assert (w0 = st) as ->.
  { apply rd_eq; [by rewrite Hl0, Hj, (proj1 Hs)|]. intros i Hi. rewrite R0, Z.sub_0_r. destruct (word_rd 16 st i Hs) as [-> _]; [lia|]. zcmp. }
  rewrite bind_some. destruct (proj1 (permutes_rounds double_round 10 0 double_round_permutes) st Hs) as (p & Ep & Hp). rewrite Ep, bind_some.
  destruct (update_loop 16 0 (fun i => u32 (word p i + word st i)) (fun index working => v ← rd working index; x ← rd st index; wr working index (u32 (v + x))) p)
    as (w & -> & Hl1 & R1); [lia|rewrite (proj1 Hp); lia| |].
  { intros i c Hi Hc Hr. rewrite Z.add_0_l in Hr |- *. rewrite Hr. destruct (word_rd 16 p i Hp) as [-> _]; [lia|]. destruct (word_rd 16 st i Hs) as [-> _]; [lia|]. done. }
  rewrite bind_some. assert (Hrw : forall i, 0 <= i < 16 -> rd w i = Some (u32 (word p i + word st i))) by (intros i Hi; rewrite R1, Z.sub_0_r; zcmp).
  assert (Hw : words 16 w).
  { apply (words_of_rd 16 w (fun i => u32 (word p i + word st i))); [by rewrite Hl1, (proj1 Hp)|]. intros i Hi. split; [by apply Hrw|apply u32_range]. }
  destruct (counter_step st Hs) as (s1 & -> & Hs1 & Hcnt & Rs1). rewrite bind_some.
  destruct (update_loop 8 4 (fun i => word s1 (4 + i) ^^^ word w i) (fun index state => v ← rd state (4 + index); x ← rd w index; wr state (4 + index) (v ^^^ x)) s1)
    as (s2 & -> & Hl2 & R2); [lia|rewrite (proj1 Hs1); lia| |].
  { intros i c Hi Hc ->. destruct (word_rd 16 s1 (4 + i) Hs1) as [-> _]; [lia|]. destruct (word_rd 16 w i Hw) as [-> _]; [lia|]. done. }
  rewrite bind_some, (output_loop w _ Hw Hb), bind_some. eexists _, w. split; [done|].
  assert (Hws2 : words 16 s2).
  { apply (words_of_rd 16 s2 (word s2)); [by rewrite Hl2, (proj1 Hs1)|]. intros m Hm. unfold word. rewrite R2. destruct ((4 <=? m) && _) eqn:E.
    - split; [done|]. apply andb_true_iff in E. rewrite Z.leb_le, Z.ltb_lt in E. cbn [default]. apply lxor_fits; [lia|apply (word_rd 16 s1 (4 + (m - 4)) Hs1); lia|apply (word_rd 16 w (m - 4) Hw); lia].
    - destruct (word_rd 16 s1 m Hs1 Hm) as [-> F]. done. }
  destruct (output_bytes (drop 8 w)) as [Hol Hob]. rewrite length_drop, (proj1 Hw) in Hol. split; [constructor; cbn; try done; unfold RANDOM_OUTPUT_BYTES; lia|].
  split; [exists p; split; [done|]; split; [done|]; intros i Hi; unfold word at 1; by rewrite Hrw|].
  assert (Hkeep : forall i, i < 4 \/ 12 <= i -> word s2 i = word s1 i) by (intros i Hi; unfold word; rewrite R2; zcmp).
  constructor; cbn [random_buffer random_available random_state entropy_bits]; [done|done| | | |done]; fold st.
  - intros i Hi. unfold word at 1. rewrite R2. rewrite (proj2 (Z.leb_le 4 i)), (proj2 (Z.ltb_lt i _)) by lia. cbn [andb default]. replace (4 + (i - 4)) with i by lia.
    unfold word at 1. rewrite Rs1 by lia. done.
  - unfold block_counter. rewrite !Hkeep by lia. exact Hcnt.
  - intros i Hi. rewrite Hkeep by lia. unfold word. by rewrite Rs1 by lia.
Qed.

(** ** The stream of bytes *)

(** The bytes of the last block that nobody has had. *)
Definition pending (r : random) : list Z := drop (Z.to_nat (RANDOM_OUTPUT_BYTES - random_available r)) (random_buffer r).

(** [generated r bs r']: from [r] on, the blocks [bs] come out. *)
Inductive generated (r : random) : list (list Z) -> random -> Prop :=
  | generated_none : generated r [] r
  | generated_more bs r1 w r2 : generated r bs r1 -> is_block (random_state r1) w -> block_effect r1 r2 w -> generated r (bs ++ [random_buffer r2]) r2.

Lemma generated_counter r bs r' : generated r bs r' ->
  block_counter (random_state r') mod 2 ^ 64 = (block_counter (random_state r) + Z.of_nat (length bs)) mod 2 ^ 64.
Proof.
  induction 1 as [|bs r1 w r2 _ IH _ Heff]; [by rewrite Z.add_0_r|]. rewrite (be_counter _ _ _ Heff), length_app. unfold u64. rewrite Z.mod_mod by done.
  rewrite Z.add_mod, IH, <- Z.add_mod by done. f_equal. cbn [length]. lia.
Qed.

Lemma generated_entropy r bs r' : generated r bs r' -> entropy_bits r' = entropy_bits r.
Proof. induction 1 as [|bs r1 w r2 _ IH _ Heff]; [done|]. by rewrite (be_entropy _ _ _ Heff). Qed.

Lemma generated_length r bs r' : generated r bs r' -> length (concat bs) = (32 * length bs)%nat.
Proof.
  induction 1 as [|bs r1 w r2 _ IH (p & _ & Hw & _) Heff]; [done|]. rewrite concat_app, !length_app, IH. cbn [concat]. rewrite app_nil_r, (be_output _ _ _ Heff).
  rewrite (proj1 (output_bytes _)), length_drop, (proj1 Hw). cbn [length]. lia.
Qed.

Record streamed (r : random) (out : list Z) (n : Z) (st : list Z * random) (bytes : list Z) (bs : list (list Z)) (rk : random) : Prop := {
  st_bytes : st.1 = bytes ++ drop (Z.to_nat n) out;
  st_number : Z.of_nat (length bytes) = n;
  st_inv : random_inv st.2;
  st_blocks : generated r bs rk;
  st_state : random_state st.2 = random_state rk /\ entropy_bits st.2 = entropy_bits rk;
  st_stream : bytes ++ pending st.2 = pending r ++ concat bs;
  st_needed : bs = [] \/ Z.of_nat (length (pending r)) + 32 * (Z.of_nat (length bs) - 1) < n;
}.

Lemma pending_length r : random_inv r -> Z.of_nat (length (pending r)) = random_available r.
Proof. intros [_ [Hb _] Ha _]. unfold pending, RANDOM_OUTPUT_BYTES in *. rewrite length_drop, Hb. lia. Qed.

Lemma next_byte_spec junk r : random_inv r -> length junk = 16%nat ->
  exists r1 b, next_byte junk r = Some (r1, b) /\ random_inv r1 /\ fits 8 b /\
    ((random_available r <> 0 /\ random_state r1 = random_state r /\ entropy_bits r1 = entropy_bits r /\ pending r = b :: pending r1) \/
     (random_available r = 0 /\ exists r2 w, is_block (random_state r) w /\ block_effect r r2 w /\ random_state r1 = random_state r2 /\ entropy_bits r1 = entropy_bits r2 /\
        random_buffer r2 = b :: pending r1)).
Proof.
  intros Hi Hj. unfold next_byte.
  assert (Hout : forall r, random_inv r -> random_available r <> 0 ->
    exists r1 b, (b ← rd (random_buffer r) (u32 (RANDOM_OUTPUT_BYTES - random_available r));
      Some (Random (random_state r) (random_buffer r) (u32 (random_available r - 1)) (entropy_bits r), b)) = Some (r1, b) /\ random_inv r1 /\ fits 8 b /\
      random_state r1 = random_state r /\ entropy_bits r1 = entropy_bits r /\ pending r = b :: pending r1).
  { clear. intros r [Hs [Hb Hbb] Ha He] Hne. unfold RANDOM_OUTPUT_BYTES in *. rewrite !u32_small by (unfold fits; lia).
    destruct (rd_ok (random_buffer r) (32 - random_available r)) as (b & Eb); [lia|]. rewrite Eb, bind_some. eexists _, b. split; [done|].
    apply rd_Some in Eb as [_ Eb]. split; [constructor; cbn; unfold RANDOM_OUTPUT_BYTES; (done || lia)|]. split; [by apply (Forall_lookup_1 _ _ _ _ Hbb Eb)|]. split; [done|]. split; [done|].
    unfold pending, RANDOM_OUTPUT_BYTES. cbn [random_buffer random_available]. rewrite (drop_S _ _ _ Eb). do 2 f_equal. lia. }
  destruct (Z.eqb_spec (random_available r) 0) as [E0|Hne].
  - destruct (generate_block_spec junk r Hi Hj) as (r2 & w & -> & Hi2 & Hblk & Heff). rewrite bind_some.
    destruct (Hout r2 Hi2) as (r1 & b & -> & Hi1 & Hb & Es & Ee & Ep); [by rewrite (be_available _ _ _ Heff)|].
    exists r1, b. split; [done|]. split; [done|]. split; [done|]. right. split; [done|]. exists r2, w. do 4 (split; [done|]).
    rewrite <- Ep. unfold pending. by rewrite (be_available _ _ _ Heff).
  - rewrite bind_some. destruct (Hout r Hi Hne) as (r1 & b & -> & Hi1 & Hb & Es & Ee & Ep). exists r1, b. split; [done|]. split; [done|]. split; [done|]. by left.
Qed.

Lemma block_effect_same r r' r2 w : random_state r = random_state r' -> entropy_bits r = entropy_bits r' -> block_effect r r2 w -> block_effect r' r2 w.
Proof. intros Es Ee []. constructor; rewrite <- ?Es, <- ?Ee; done. Qed.

Lemma stream_loop junk r out size : random_inv r -> length junk = 16%nat -> 0 <= size <= Z.of_nat (length out) ->
  exists st bytes bs rk, for_loop (Z.to_nat size) 0 (fun index '(bytes, r) => '(r, b) ← next_byte junk r; bytes ← wr bytes index b; Some (bytes, r)) (out, r) = Some st /\
    streamed r out size st bytes bs rk.
Proof.
  intros Hi Hj Hsize.
  destruct (for_loop_rule (fun n st => exists bytes bs rk, streamed r out n st bytes bs rk) (Z.to_nat size) 0
    (fun index '(bytes, r) => '(r, b) ← next_byte junk r; bytes ← wr bytes index b; Some (bytes, r)) (out, r)) as (st & E & bytes & bs & rk & Hst).
  - exists [], [], r. constructor; cbn; try done; [constructor|by rewrite app_nil_r|by left].
  - intros n [c r'] Hn (bytes & bs & rk & [Hc Hlen Hi' Hgen [Es Ee] Hstr Hneed]). cbn [fst snd] in *.
    destruct (next_byte_spec junk r' Hi' Hj) as (r1 & b & -> & Hi1 & _ & Hcase). rewrite bind_some.
    assert (Hwr : wr c n b = Some ((bytes ++ [b]) ++ drop (Z.to_nat (n + 1)) out)).
    { rewrite Hc, wr_ok by (rewrite length_app, length_drop; lia). rewrite insert_app_r_alt by lia. replace (Z.to_nat n - length bytes)%nat with 0%nat by lia.
      destruct (lookup_lt_is_Some_2 out (Z.to_nat n)) as [x Hx]; [lia|]. rewrite (drop_S _ _ _ Hx), <- app_assoc. cbn. do 4 f_equal. lia. }
    rewrite Hwr, bind_some. eexists. split; [done|]. pose proof (pending_length r' Hi') as HP.
    destruct Hcase as [(_ & Es1 & Ee1 & Ep)|(E0 & r2 & w & Hblk & Heff & Es1 & Ee1 & Ep)].
    + exists (bytes ++ [b]), bs, rk. constructor; cbn [fst snd]; [done|rewrite length_app; cbn; lia|done|done|split; congruence| |destruct Hneed; [by left|right; lia]].
      rewrite <- Hstr, Ep, <- app_assoc. done.
    + exists (bytes ++ [b]), (bs ++ [random_buffer r2]), r2. rewrite E0 in HP. destruct (pending r') as [|? ?] eqn:EP; [|cbn in HP; lia].
      constructor; cbn [fst snd]; [done|rewrite length_app; cbn; lia|done| |done| |].
      * apply (generated_more r bs rk w r2); [done|by rewrite <- Es|by apply (block_effect_same r')].
      * rewrite concat_app. cbn [concat]. rewrite app_nil_r, Ep, app_assoc, <- Hstr, app_nil_r, <- app_assoc. done.
      * right. rewrite app_nil_r in Hstr. assert (length (pending r) + 32 * length bs = length bytes)%nat as HL.
        { by rewrite Hstr, length_app, (generated_length r bs rk). }
        rewrite length_app. cbn [length]. lia.
  - exists st, bytes, bs, rk. split; [exact E|]. replace (0 + Z.of_nat (Z.to_nat size)) with size in Hst by lia. done.
Qed.

(** C21: random bytes.  From any pool the call ends without a fault and fills
    exactly the bytes asked for.  They are the bytes left over from the last block
    followed by those of fresh blocks of the generator, each byte handed out once
    and none skipped, whatever the sizes of the requests; a block is generated
    only when it is needed, every block from another value of the 64-bit counter.
    The ten double rounds, before the state is added to their result, permute
    the states. *)
Theorem random_bytes_stream junk out size r :
  random_inv r -> length junk = 16%nat -> 0 <= size <= Z.of_nat (length out) ->
  exists bytes bs rk r', random_bytes junk (Some out) size r = Some (Some (bytes ++ drop (Z.to_nat size) out), r') /\
    random_inv r' /\ Z.of_nat (length bytes) = size /\ generated r bs rk /\ random_state r' = random_state rk /\ entropy_bits r' = entropy_bits r /\
    bytes ++ pending r' = pending r ++ concat bs /\
    (bs = [] \/ Z.of_nat (length (pending r)) + 32 * (Z.of_nat (length bs) - 1) < size) /\
    block_counter (random_state r') mod 2 ^ 64 = (block_counter (random_state r) + Z.of_nat (length bs)) mod 2 ^ 64 /\
    permutes (fun state => for_loop 10 0 (fun _ working => double_round working) state).
Proof.
  intros Hi Hj Hsize. destruct (stream_loop junk r out size Hi Hj Hsize) as ([c r'] & bytes & bs & rk & E & [Hc Hn Hi' Hgen [Es Ee] Hstr Hneed]). cbn [fst snd] in *.
  exists bytes, bs, rk, r'. assert (random_bytes junk (Some out) size r = Some (Some c, r')) as ->.
  { unfold random_bytes. destruct (Z.eqb_spec size 0) as [E0|]; [|by rewrite E]. rewrite E0 in E. by injection E as -> ->. }
  rewrite Hc. split; [done|]. split; [done|]. split; [done|]. split; [done|]. split; [done|]. split; [by rewrite Ee, (generated_entropy _ _ _ Hgen)|].
  split; [done|]. split; [done|]. split; [rewrite Es; by apply generated_counter|]. apply permutes_rounds, double_round_permutes.
Qed.

(** ** Entropy *)

Lemma mix_byte_ok bytes i state : all_bytes bytes -> 0 <= i < Z.of_nat (length bytes) -> words 16 state ->
  exists state', mix_byte bytes i state = Some state' /\ words 16 state'.
Proof.
  intros Hb Hi Hs. unfold mix_byte. destruct (rd_ok bytes i Hi) as (b & Eb). rewrite Eb, bind_some.
  assert (fits 32 b) as Fb by (apply rd_Some in Eb as [_ Eb]; apply (Forall_lookup_1 _ _ _ _ Hb) in Eb; unfold fits in *; lia).
  change (i &&& 7) with (i &&& (2 ^ 3 - 1)). rewrite land_mask by lia. change (2 ^ 3) with 8. pose proof (Z.mod_pos_bound i 8 eq_refl) as Hm. set (k := i mod 8) in *.
  pose proof (Z.mod_pos_bound i 31 eq_refl) as Hm'. set (q := i mod 31) in *.
  destruct (word_rd 16 state (4 + k) Hs) as [-> Fv]; [lia|]. rewrite bind_some.
  destruct (words_wr 16 state (4 + k) (word state (4 + k) ^^^ rotate_left (u32 (u32 (b + 0x9E3779B9) + i)) (q + 1)) Hs) as (s1 & -> & H1 & _);
    [lia|apply lxor_fits; [lia|done|apply rotate_fits; [apply u32_range|lia]]|].
  rewrite bind_some. destruct (word_rd 16 s1 14 H1) as [-> F14]; [lia|]. destruct (word_rd 16 s1 (4 + k) H1) as [-> F4]; [lia|]. destruct (word_rd 16 s1 15 H1) as [-> F15]; [lia|].
  rewrite !bind_some. destruct (words_wr 16 s1 14 (word s1 14 ^^^ u32 (word s1 (4 + k) + word s1 15)) H1) as (s2 & -> & H2 & _); [lia|apply lxor_fits; [lia|done|apply u32_range]|].
  rewrite bind_some. destruct (words_wr 16 s2 15 (rotate_left (word s1 15 ^^^ b) 7) H2) as (s3 & E3 & H3 & _); [lia|apply rotate_fits; [by apply lxor_fits|lia]|]. by exists s3.
Qed.

Lemma entropy_add_spec bytes size estimated r :
  random_inv r -> all_bytes bytes -> 0 < size <= Z.of_nat (length bytes) -> fits 32 estimated ->
  exists r', entropy_add (Some bytes) size estimated r = Some r' /\ random_inv r' /\ entropy_bits r' = Z.min 256 (entropy_bits r + estimated) /\
    random_buffer r' = random_buffer r /\ pending r' = [].
Proof.
  intros [Hs Hb Ha He] Hbytes Hsize Hest. unfold entropy_add. rewrite (proj2 (Z.eqb_neq size 0)) by lia.
  destruct (for_loop_rule (fun _ state => words 16 state) (Z.to_nat size) 0 (mix_byte bytes) (random_state r)) as (state & -> & Hs'); [done| |].
  { intros i c Hi Hc. apply mix_byte_ok; [done|lia|done]. }
  rewrite bind_some. eexists. split; [done|]. unfold fits in Hest. rewrite (u32_small (256 - _)) by (unfold fits; lia).
  assert ((if 256 - entropy_bits r <=? estimated then 256 else u32 (entropy_bits r + estimated)) = Z.min 256 (entropy_bits r + estimated)) as ->.
  { destruct (Z.leb_spec (256 - entropy_bits r) estimated); [lia|]. rewrite u32_small by (unfold fits; lia). lia. }
  split; [constructor; cbn; [done|done|by split|lia]|]. split; [done|]. split; [done|]. unfold pending, RANDOM_OUTPUT_BYTES. cbn [random_available random_buffer].
  apply drop_ge. rewrite (proj1 Hb). done.
Qed.

(** The values of the hardware generator that count: each that differs from the
    last one that counted. *)
Fixpoint counted (previous : option Z) (hardware : list (option Z)) : nat :=
  match hardware with
  | [] => 0
  | Some v :: l => if bool_decide (previous = Some v) then counted previous l else S (counted (Some v) l)
  | None :: l => counted previous l
  end.

Lemma hardware_loop hardware : forall n i r previous, random_inv r -> 0 <= i -> (Z.to_nat i + n = length hardware)%nat ->
  exists r' previous', for_loop n i (fun index st => found ← rd hardware index; hardware_step found st) (r, previous) = Some (r', previous') /\ random_inv r' /\
    entropy_bits r' = Z.min 256 (entropy_bits r + 64 * Z.of_nat (counted previous (drop (Z.to_nat i) hardware))).
Proof.
  induction n as [|n IH]; intros i r previous Hi Hi0 Hn.
  - rewrite for_loop_0, drop_ge by lia. eexists _, _. split; [done|]. split; [done|]. cbn. pose proof (inv_entropy r Hi). lia.
  - rewrite for_loop_S. destruct (lookup_lt_is_Some_2 hardware (Z.to_nat i)) as [found Hf]; [lia|].
    rewrite (proj2 (rd_Some hardware i found)), bind_some by done. rewrite (drop_S _ _ _ Hf). replace (S (Z.to_nat i)) with (Z.to_nat (i + 1)) by lia.
    destruct found as [v|]; cbn [hardware_step counted]; [|rewrite bind_some; apply IH; (done || lia)].
    case_bool_decide as E; [rewrite bind_some; apply IH; (done || lia)|].
    destruct (entropy_add_spec (le_bytes 8 v) 8 64 r Hi) as (r1 & -> & Hi1 & He1 & _); [apply le_bytes_bytes|rewrite length_le_bytes; lia|by split|].
    rewrite !bind_some. destruct (IH (i + 1) r1 (Some v) Hi1) as (r' & p' & -> & Hi' & He'); [lia|lia|]. exists r', p'. split; [done|]. split; [done|].
    pose proof (inv_entropy r Hi). lia.
Qed.

(** Readiness.  Initialisation ends with a well-formed pool, whatever the
    readings are.  The generator calls itself ready exactly when all four calls of
    the hardware generator gave a value, each different from the one before: the
    clocks alone never make it ready.  Adding entropy keeps the pool well formed,
    adds the estimate up to 256 bits without wrapping and discards the bytes that
    were generated before. *)
Theorem random_entropy_exact tsc ticks address hardware tsc' frequency r0 :
  length hardware = 4%nat -> length (random_buffer r0) = 32%nat -> all_bytes (random_buffer r0) ->
  exists r, random_init tsc ticks address hardware tsc' frequency r0 = Some r /\ random_inv r /\
    random_entropy_bits r = Z.min 256 (12 + 64 * Z.of_nat (counted None hardware)) /\
    (random_is_ready r = 1 <-> counted None hardware = 4%nat) /\
    forall bytes size estimated, all_bytes bytes -> 0 < size <= Z.of_nat (length bytes) -> fits 32 estimated ->
      exists r', entropy_add (Some bytes) size estimated r = Some r' /\ random_inv r' /\
        random_entropy_bits r' = Z.min 256 (random_entropy_bits r + estimated) /\ pending r' = [].
Proof.
  intros Hh Hl Hb. unfold random_init. set (r1 := Random _ _ 0 0).
  assert (random_inv r1) as Hi1 by (constructor; cbn; [split; [done|by repeat constructor]|done|done|lia]).
  destruct (entropy_add_spec (le_bytes 8 (tsc ^^^ ticks ^^^ address)) 8 8 r1 Hi1) as (r2 & -> & Hi2 & He2 & _); [apply le_bytes_bytes|rewrite length_le_bytes; lia|by split|].
  rewrite bind_some. destruct (hardware_loop hardware 4 0 r2 None Hi2) as (r3 & p & -> & Hi3 & He3); [lia|by rewrite Hh|]. rewrite bind_some.
  destruct (entropy_add_spec (le_bytes 8 (tsc' ^^^ u64 (frequency << 32))) 8 4 r3 Hi3) as (r4 & -> & Hi4 & He4 & _); [apply le_bytes_bytes|rewrite length_le_bytes; lia|by split|].
  exists r4. split; [done|]. split; [done|]. change (drop (Z.to_nat 0) hardware) with hardware in He3. change (entropy_bits r1) with 0 in He2.
  assert (counted None hardware <= 4)%nat as Hc.
  { rewrite <- Hh. clear. generalize (@None Z). induction hardware as [|[v|] l IH]; intros p; cbn [counted length]; [lia| |specialize (IH p); lia].
    case_bool_decide; [specialize (IH p)|specialize (IH (Some v))]; lia. }
  unfold random_entropy_bits, random_is_ready. split; [lia|]. split.
  - destruct (Z.leb_spec 256 (entropy_bits r4)); cbn [Z.b2z]; lia.
  - intros bytes size estimated Hbytes Hsize Hest. destruct (entropy_add_spec bytes size estimated r4 Hi4 Hbytes Hsize Hest) as (r' & E & Hi' & He & _ & Hp). by exists r'.
Qed.

Definition zero_pool : random := Random (replicate 16 0) (replicate 32 0) 0 0.

Lemma zero_pool_inv : random_inv zero_pool.
Proof. constructor; cbn; [split; [done|by repeat constructor]|split; [done|by repeat constructor]|done|done]. Qed.

Lemma random_bytes_stream_witness :
  exists bytes bs rk r', random_bytes (replicate 16 0) (Some (replicate 40 0)) 40 zero_pool = Some (Some bytes, r') /\ generated zero_pool bs rk /\
    bytes ++ pending r' = concat bs /\ length bs = 2%nat.
Proof.
  destruct (random_bytes_stream (replicate 16 0) (replicate 40 0) 40 zero_pool zero_pool_inv) as (bytes & bs & rk & r' & E & Hi & Hn & Hg & _ & _ & Hs & Hneed & _);
    [reflexivity|rewrite length_replicate; lia|].
  change (drop (Z.to_nat 40) (replicate 40 0)) with (@nil Z) in E. rewrite app_nil_r in E. exists bytes, bs, rk, r'.
  change (pending zero_pool) with (@nil Z) in Hs, Hneed. cbn [app length] in Hs, Hneed.
  split; [exact E|]. split; [exact Hg|]. split; [exact Hs|].
  pose proof (f_equal length Hs) as HL. rewrite length_app, (generated_length _ _ _ Hg) in HL. pose proof (pending_length r' Hi). pose proof (inv_available r' Hi).
  unfold RANDOM_OUTPUT_BYTES in *. destruct Hneed as [->|Hneed]; [cbn in HL; lia|lia].
Defined.

Lemma random_entropy_exact_witness :
  exists r, random_init 7 100 4096 [Some 1; Some 2; None; Some 2] 9 100 zero_pool = Some r /\ random_entropy_bits r = 140 /\ random_is_ready r <> 1.
Proof.
  destruct (random_entropy_exact 7 100 4096 [Some 1; Some 2; None; Some 2] 9 100 zero_pool) as (r & E & _ & He & Hr & _); [reflexivity|reflexivity|apply zero_pool_inv|].
  exists r. split; [exact E|]. split; [exact He|]. intros Hx. apply Hr in Hx. discriminate Hx.
Defined.

(** The vector of the self test is right: it fails only when two successive numbers
    are equal. *)
Lemma random_self_test_outcome junk value value' r :
  random_inv r -> length junk = 16%nat -> length value = 8%nat -> length value' = 8%nat ->
  exists first second r' r'', random_u64 junk value r = Some (first, r') /\ random_u64 junk value' r' = Some (second, r'') /\ random_inv r'' /\
    random_self_test junk value value' r = Some (r'', if first =? second then -1 else 0).
Proof.
  intros Hi Hj Hv Hv'.
  assert (Hu : forall v r, random_inv r -> length v = 8%nat -> exists x r', random_u64 junk v r = Some (x, r') /\ random_inv r').
  { clear - Hj. intros v r Hi Hv. destruct (stream_loop junk r v 8 Hi Hj) as ([c r'] & bytes & bs & rk & E & [Hc Hn Hi' _ _ _ _]); [lia|]. cbn [fst snd] in *.
    unfold random_u64, random_bytes. change (8 =? 0) with false. cbn iota. rewrite E, !bind_some.
    rewrite drop_ge, app_nil_r in Hc by (rewrite Hv; done). subst c.
    destruct bytes as [|b0 [|b1 [|b2 [|b3 [|b4 [|b5 [|b6 [|b7 [|]]]]]]]]]; cbn [length] in Hn; try lia. eexists _, r'. split; [reflexivity|done]. }
  destruct (Hu value r Hi Hv) as (x & r' & E1 & Hi'), (Hu value' r' Hi' Hv') as (y & r'' & E2 & Hi''). exists x, y, r', r''. split; [done|]. split; [done|]. split; [done|].
  unfold random_self_test. rewrite E1, bind_some, E2, bind_some.
  assert (quarter 0x11111111 0x01020304 0x9B8D6F43 0x01234567 = (0xEA2A92F4, 0xCB1CF8CE, 0x4581472E, 0x5881C4BB)) as -> by (vm_compute; reflexivity).
  cbn [Z.eqb Pos.eqb negb orb]. do 2 f_equal. destruct (Z.eqb_spec x y) as [|]; [done|]. cbn [negb andb]. destruct (Z.eqb_spec x 0), (Z.eqb_spec y 0); try done. lia.
Qed.
