(* ===== verification/Clock.v ===== *)
(** * rtc.c, timer.c and hpet.c: the clocks

    The arithmetic of the real-time clock, of the interval timer and of the
    high-precision timer.  What the hardware returns is an argument: [ready] is
    what successive reads of status register A give, [cmos] the registers of the
    clock. *)

From S2P Require Import Prelude.

(** ** The real-time clock *)

Record rtc_time := RtcTime { second : Z; minute : Z; hour : Z; day : Z; month : Z; year : Z }.

Definition from_bcd (value : Z) : Z := u8 ((value &&& 0x0F) + (value >> 4) * 10).

(** [while ((cmos_read(0x0A) & 0x80) != 0)]; [None] when the update never ends. *)
Fixpoint wait_update (ready : list Z) : option unit :=
  match ready with [] => None | a :: ready => if negb (a &&& 0x80 =? 0) then wait_update ready else Some tt end.

Definition rtc_read (ready : list Z) (cmos : Z -> Z) : option rtc_time :=
  _ ← wait_update ready;
  let t := RtcTime (cmos 0x00) (cmos 0x02) (cmos 0x04) (cmos 0x07) (cmos 0x08) (cmos 0x09) in
  let status_b := cmos 0x0B in
  let t := if status_b &&& 0x04 =? 0 then
      RtcTime (from_bcd (second t)) (from_bcd (minute t)) (u8 ((hour t &&& 0x80) ||| from_bcd (hour t &&& 0x7F))) (from_bcd (day t))
        (from_bcd (month t)) (from_bcd (u8 (year t)))
    else t in
  let h := if (status_b &&& 0x02 =? 0) && negb (hour t &&& 0x80 =? 0) then u8 (((hour t &&& 0x7F) + 12) mod 24) else hour t in
  Some (RtcTime (second t) (minute t) h (day t) (month t) (u16 (2000 + year t))).

(** A number of two digits in a register, as BCD or in binary. *)
Definition stored_as (bcd : bool) (n v : Z) : Prop := 0 <= n < 100 /\ v = if bcd then n / 10 * 16 + n mod 10 else n.

Lemma all_below (n : nat) (P : Z -> bool) : forallb (fun k => P (Z.of_nat k)) (seq 0 n) = true -> forall v, 0 <= v < Z.of_nat n -> P v = true.
Proof.
  intros H v Hv. rewrite forallb_forall in H. replace v with (Z.of_nat (Z.to_nat v)) by lia. apply H, in_seq. lia.
Qed.

Lemma from_bcd_spec n v : stored_as true n v -> from_bcd v = n /\ 0 <= v < 256.
Proof.
  intros [Hn ->]. pose proof (all_below 100 (fun n => (from_bcd (n / 10 * 16 + n mod 10) =? n) && (0 <=? n / 10 * 16 + n mod 10) && (n / 10 * 16 + n mod 10 <? 256))
    ltac:(vm_compute; reflexivity) n Hn) as H. cbn beta in H. rewrite !andb_true_iff, Z.eqb_eq, Z.leb_le, Z.ltb_lt in H. lia.
Qed.

(** The registers hold a date and time of the years 2000 to 2099. *)
Record holds (cmos : Z -> Z) (bcd : bool) (t : rtc_time) (h : Z) : Prop := {
  holds_mode : (cmos 0x0B &&& 0x04 =? 0) = bcd;
  holds_second : stored_as bcd (second t) (cmos 0x00);
  holds_minute : stored_as bcd (minute t) (cmos 0x02);
  holds_hour : cmos 0x04 = h;
  holds_day : stored_as bcd (day t) (cmos 0x07);
  holds_month : stored_as bcd (month t) (cmos 0x08);
  holds_year : stored_as bcd (year t - 2000) (cmos 0x09);
}.

Definition decoded_hour (bcd : bool) (status_b h : Z) : Z :=
  let h := if bcd then u8 ((h &&& 0x80) ||| from_bcd (h &&& 0x7F)) else h in
  if (status_b &&& 0x02 =? 0) && negb (h &&& 0x80 =? 0) then u8 (((h &&& 0x7F) + 12) mod 24) else h.

(** The date is decoded exactly, in both encodings, once an update is over. *)
Lemma rtc_read_date ready cmos bcd t h a :
  a &&& 0x80 = 0 -> a ∈ ready -> holds cmos bcd t h ->
  rtc_read ready cmos = Some (RtcTime (second t) (minute t) (decoded_hour bcd (cmos 0x0B) h) (day t) (month t) (year t)).
Proof.
  intros Ha Hin [Hm Hs Hmi Hh Hd Hmo Hy]. unfold rtc_read.
  assert (wait_update ready = Some tt) as ->.
  { clear - Ha Hin. induction ready as [|b ready IH]; [by apply not_elem_of_nil in Hin|]. cbn [wait_update].
    destruct (negb (b &&& 0x80 =? 0)) eqn:E; [|done]. apply elem_of_cons in Hin as [<-|Hin]; [by rewrite Ha in E|by apply IH]. }
  rewrite bind_some. cbv zeta. rewrite Hm, Hh. unfold decoded_hour. destruct Hy as [Hy Ey]. destruct bcd; cbn [second minute hour day month year].
  - assert (cmos 0x09 = u8 (cmos 0x09) /\ from_bcd (cmos 0x09) = year t - 2000) as [<- ->].
    { destruct (from_bcd_spec (year t - 2000) (cmos 0x09)) as [E F]; [by split|]. split; [|done]. symmetry. by apply u8_small. }
    destruct (from_bcd_spec _ _ Hs) as [-> _], (from_bcd_spec _ _ Hmi) as [-> _], (from_bcd_spec _ _ Hd) as [-> _], (from_bcd_spec _ _ Hmo) as [-> _].
    rewrite u16_small by (unfold fits; lia). do 2 f_equal. lia.
  - destruct Hs as [_ ->], Hmi as [_ ->], Hd as [_ ->], Hmo as [_ ->]. rewrite Ey, u16_small by (unfold fits; lia). do 2 f_equal. lia.
Qed.

(** With a 24-hour clock the hour is exact as well. *)
Lemma rtc_hour_24 bcd status_b n h : status_b &&& 0x02 <> 0 -> 0 <= n < 24 -> stored_as bcd n h -> decoded_hour bcd status_b h = n.
Proof.
  intros Hb Hn [_ ->]. unfold decoded_hour. rewrite (proj2 (Z.eqb_neq _ 0) Hb). cbn [andb]. destruct bcd; [|done].
  apply Z.eqb_eq. apply (all_below 24 (fun n => u8 (((n / 10 * 16 + n mod 10) &&& 0x80) ||| from_bcd ((n / 10 * 16 + n mod 10) &&& 0x7F)) =? n)); [vm_compute; reflexivity|done].
Qed.

(** On a 12-hour clock the register holds 1 to 12, with bit 7 in the afternoon. *)
Definition hour_register (bcd pm : bool) (n : Z) : Z := (if bcd then n / 10 * 16 + n mod 10 else n) + (if pm then 0x80 else 0).
Definition hour_of_day (pm : bool) (n : Z) : Z := n mod 12 + (if pm then 12 else 0).

(** On a 12-hour clock the hours 1 to 11 are exact, in the morning and in the
    afternoon; noon is read as midnight, and midnight as noon. *)
Lemma rtc_hour_12 bcd pm status_b n : status_b &&& 0x02 = 0 -> 1 <= n <= 12 ->
  decoded_hour bcd status_b (hour_register bcd pm n) = if n =? 12 then hour_of_day (negb pm) 12 else hour_of_day pm n.
Proof.
  intros Hb Hn. unfold decoded_hour. rewrite Hb. change (0 =? 0) with true. cbn [andb].
  assert (n = 1 \/ n = 2 \/ n = 3 \/ n = 4 \/ n = 5 \/ n = 6 \/ n = 7 \/ n = 8 \/ n = 9 \/ n = 10 \/ n = 11 \/ n = 12) as Hcase by lia.
  repeat (destruct Hcase as [->|Hcase]; [by destruct bcd, pm|]). subst n. by destruct bcd, pm.
Qed.

(** ** The interval timer *)

Definition TIMER_BASE : Z := 1193182.

Record timer := Timer { timer_ticks_value : Z; configured_frequency : Z }.

(** The second result is what is written to the ports, in order. *)
Definition timer_init (frequency : Z) : timer * list (Z * Z) :=
  let frequency := if frequency <? 19 then 19 else frequency in
  let frequency := if TIMER_BASE <? frequency then TIMER_BASE else frequency in
  let divisor := TIMER_BASE / frequency in
  (Timer 0 (TIMER_BASE / divisor), [(0x43, 0x36); (0x40, u8 (divisor &&& 0xFF)); (0x40, u8 ((divisor >> 8) &&& 0xFF))]).

Definition timer_uptime_seconds (t : timer) : Z := timer_ticks_value t / configured_frequency t.

(** The tick at which [timer_sleep_ms] returns. *)
Definition sleep_target (t : timer) (milliseconds : Z) : Z :=
  u64 (timer_ticks_value t + u64 (u64 (milliseconds * configured_frequency t) + 999) / 1000).

(** The divisor fits the two bytes of the port, so the hardware divides by what the
    kernel computes with; the frequency is at least the one asked for, within the
    range of the device, and never 0. *)
Lemma timer_init_exact frequency : 0 <= frequency ->
  let '(t, writes) := timer_init frequency in
  exists divisor, 0 < divisor < 2 ^ 16 /\ writes = [(0x43, 0x36); (0x40, divisor mod 256); (0x40, divisor / 256)] /\
    configured_frequency t = TIMER_BASE / divisor /\ Z.min TIMER_BASE (Z.max 19 frequency) <= configured_frequency t <= TIMER_BASE.
Proof.
  intros Hf. unfold timer_init. set (f := if TIMER_BASE <? _ then TIMER_BASE else _).
  assert (f = Z.min TIMER_BASE (Z.max 19 frequency)) as Ef by (unfold f, TIMER_BASE; destruct (Z.ltb_spec frequency 19); [|destruct (Z.ltb_spec 1193182 frequency)]; cbn; lia).
  assert (19 <= f <= TIMER_BASE) as Hr by (unfold TIMER_BASE in *; lia). rewrite <- Ef. clearbody f. exists (TIMER_BASE / f).
  assert (0 < TIMER_BASE / f < 2 ^ 16) as Hd.
  { split; [apply Z.div_str_pos; lia|]. apply Z.div_lt_upper_bound; unfold TIMER_BASE in *; lia. }
  split; [done|]. cbn [configured_frequency]. set (d := TIMER_BASE / f) in *. split; [|split; [done|]].
  - change 0xFF with (2 ^ 8 - 1). rewrite !land_mask, Z.shiftr_div_pow2 by lia. change (2 ^ 8) with 256. change (2 ^ 16) with 65536 in Hd.
    pose proof (Z.mod_pos_bound d 256 eq_refl). assert (d / 256 < 256) by (apply Z.div_lt_upper_bound; lia). assert (0 <= d / 256) by (apply Z.div_pos; lia).
    rewrite (Z.mod_small (d / 256)), !u8_small by (unfold fits; lia). done.
  - split; [|apply Z.div_le_upper_bound; unfold TIMER_BASE in *; nia]. apply Z.div_le_lower_bound; [lia|]. unfold d. pose proof (Z.mul_div_le TIMER_BASE f ltac:(lia)). lia.
Qed.

(** A sleep lasts at least the time asked for. *)
Lemma sleep_target_enough t milliseconds : 0 < configured_frequency t -> 0 <= milliseconds -> 0 <= timer_ticks_value t ->
  milliseconds * configured_frequency t + 999 < 2 ^ 64 -> timer_ticks_value t + milliseconds * configured_frequency t < 2 ^ 64 ->
  1000 * (sleep_target t milliseconds - timer_ticks_value t) >= milliseconds * configured_frequency t.
Proof.
  intros Hf Hm Ht H1 H2. unfold sleep_target. set (x := milliseconds * configured_frequency t) in *. assert (0 <= x) by (unfold x; nia).
  rewrite (u64_small x), (u64_small (x + 999)), u64_small by (unfold fits; divlia). divlia.
Qed.

(** ** The high-precision timer *)

Definition hpet_nanoseconds (ticks period_femtoseconds : Z) : Z :=
  u64 (u64 (ticks / 1000000 * period_femtoseconds) + u64 (ticks mod 1000000 * period_femtoseconds) / 1000000).

(** The nanoseconds are exact for every reading of the counter, modulo the width of
    the result: splitting the division loses nothing and the second product does not
    wrap, for the periods that [hpet_init] accepts. *)
Lemma hpet_nanoseconds_exact ticks period : 0 <= ticks -> 0 < period <= 1000000000 ->
  hpet_nanoseconds ticks period = u64 (ticks * period / 1000000).
Proof.
  intros Ht Hp. unfold hpet_nanoseconds. pose proof (Z.mod_pos_bound ticks 1000000 eq_refl) as Hm.
  rewrite (u64_small (ticks mod 1000000 * period)) by (unfold fits; nia).
  assert (ticks * period / 1000000 = ticks / 1000000 * period + ticks mod 1000000 * period / 1000000) as ->.
  { rewrite (Z.div_mod ticks 1000000) at 1 by done. rewrite <- Z.div_add_l by done. f_equal. ring. }
  unfold u64. by rewrite Zplus_mod_idemp_l.
Qed.
