(* ===== verification/Log.v ===== *)
(** * log.c: the kernel log ring

    The state is the ring buffer with its two indices and the console flag;
    [console] is the sequence of characters sent to the serial port and the
    screen, which the source only writes.  Text arguments are the characters of
    the C string; the tick counter of [timer_ticks] is an argument. *)

From S2P Require Import Prelude Arith Memory Text.

Definition KLOG_CAPACITY : Z := 16384.

Record klog := Klog {
  log_buffer : list Z;
  log_start : Z;
  log_length : Z;
  console_enabled : Z;
  console : list Z;
}.

Definition log_put (s : klog) (value : Z) : option klog :=
  let '(position, start, length) :=
    if log_length s <? KLOG_CAPACITY
    then (u32 (log_start s + log_length s) mod KLOG_CAPACITY, log_start s, u32 (log_length s + 1))
    else (log_start s, u32 (log_start s + 1) mod KLOG_CAPACITY, log_length s) in
  buffer ← wr (log_buffer s) position value;
  Some (Klog buffer start length (console_enabled s)
          (if negb (console_enabled s =? 0) then console s ++ [value] else console s)).

Fixpoint log_text (s : klog) (text : list Z) : option klog :=
  match text with [] => Some s | c :: text => s ← log_put s c; log_text s text end.

Definition log_digits (value : Z) : option (list Z * Z) :=
  while_loop 22 (fun '(digits, length, value) =>
    if negb (value =? 0) then
      digits ← wr digits length (48 + value mod 10);
      Some (inl (digits, u32 (length + 1), value / 10))
    else Some (inr (digits, length))) (replicate 21 0, 0, value).

Definition log_number (s : klog) (value : Z) : option klog :=
  if value =? 0 then log_put s 48 else
  r ← log_digits value;
  while_loop 22 (fun '(s, length) =>
    if negb (length =? 0) then
      c ← rd (fst r) (u32 (length - 1));
      s ← log_put s c;
      Some (inl (s, u32 (length - 1)))
    else Some (inr s)) (s, snd r).

Definition klog_init (s : klog) : klog := Klog (log_buffer s) 0 0 0 (console s).

Definition klog_write_category (ticks : Z) (s : klog) (level category message : list Z)
  : option klog :=
  s ← log_put s 91; s ← log_number s ticks; s ← log_put s 93;
  s ← log_put s 91; s ← log_text s level; s ← log_put s 93;
  s ← log_put s 91; s ← log_text s category; s ← log_put s 93;
  s ← log_put s 32; s ← log_text s message; log_put s 10.

Definition klog_write (ticks : Z) (s : klog) (level message : list Z) : option klog :=
  klog_write_category ticks s level [107; 101; 114; 110; 101; 108] message.

Definition klog_set_console (s : klog) (enabled : Z) : klog :=
  Klog (log_buffer s) (log_start s) (log_length s) enabled (console s).

Definition klog_size (s : klog) : Z := log_length s.

(** [output] is the caller's buffer; the result is the buffer and the count. *)
Definition klog_copy (s : klog) (output : list Z) (capacity : Z) : option (list Z * Z) :=
  if capacity =? 0 then Some (output, 0) else
  let count := if capacity <=? log_length s then capacity - 1 else log_length s in
  output ← for_loop (Z.to_nat count) 0 (fun index output =>
             c ← rd (log_buffer s) (u32 (log_start s + index) mod KLOG_CAPACITY);
             wr output index c) output;
  output ← wr output count 0;
  Some (output, count).

(** ** The ring as a queue *)

Record klog_inv (s : klog) : Prop := {
  inv_buffer : Z.of_nat (length (log_buffer s)) = KLOG_CAPACITY;
  inv_start : 0 <= log_start s < KLOG_CAPACITY;
  inv_length : 0 <= log_length s <= KLOG_CAPACITY;
}.

(** The characters of the ring, oldest first. *)
Definition contents (s : klog) : list Z :=
  (fun i => default 0 (rd (log_buffer s) ((log_start s + i) mod KLOG_CAPACITY)))
    <$> seqZ 0 (log_length s).

(** The abstract log: the last [KLOG_CAPACITY] characters written. *)
Definition last_chars (l : list Z) : list Z := drop (length l - Z.to_nat KLOG_CAPACITY) l.

Lemma contents_length s : klog_inv s -> Z.of_nat (length (contents s)) = log_length s.
Proof. intros [_ _ H]. unfold contents. rewrite length_fmap, length_seqZ. lia. Qed.

Lemma contents_lookup s i :
  0 <= i < log_length s ->
  contents s !! Z.to_nat i = Some (default 0 (rd (log_buffer s) ((log_start s + i) mod KLOG_CAPACITY))).
Proof.
  intros Hi. unfold contents. rewrite list_lookup_fmap, lookup_seqZ_lt by lia. simpl.
  do 4 f_equal. lia.
Qed.

Lemma mod_distinct a b n : 0 < n -> 0 < b - a < n -> a mod n <> b mod n.
Proof.
  intros Hn Hab E. assert ((b - a) mod n = 0) as H0.
  { rewrite Zminus_mod, E, Z.sub_diag. done. }
  rewrite Z.mod_small in H0 by lia. lia.
Qed.

Lemma last_chars_small l : Z.of_nat (length l) <= KLOG_CAPACITY -> last_chars l = l.
Proof.
  intros H. unfold last_chars. by replace (length l - Z.to_nat KLOG_CAPACITY)%nat with 0%nat by lia.
Qed.

Lemma last_chars_app l t : last_chars (last_chars l ++ t) = last_chars (l ++ t).
Proof.
  unfold last_chars. set (n := Z.to_nat KLOG_CAPACITY). set (k := (length l - n)%nat).
  assert (drop (length (l ++ t) - n) (l ++ t) =
          drop (length (l ++ t) - n) (take k l ++ (drop k l ++ t))) as ->
    by (by rewrite app_assoc, take_drop).
  rewrite !length_app, length_drop. destruct (decide (length l <= n)%nat).
  - replace k with 0%nat by lia. rewrite take_0. simpl. f_equal. lia.
  - rewrite (drop_app_ge (take _ _)) by (rewrite length_take; lia). f_equal.
    rewrite length_take. lia.
Qed.

(** The byte at [position] after a store there, through the ring index. *)
Lemma ring_store buffer position c buffer' j :
  wr buffer position c = Some buffer' ->
  default 0 (rd buffer' j) = if position =? j then c else default 0 (rd buffer j).
Proof. intros H. rewrite (rd_wr _ _ j _ _ H). by destruct (position =? j). Qed.

Lemma contents_eq s l :
  klog_inv s -> Z.of_nat (length l) = log_length s ->
  (forall i, 0 <= i < log_length s -> l !! Z.to_nat i =
     Some (default 0 (rd (log_buffer s) ((log_start s + i) mod KLOG_CAPACITY)))) ->
  contents s = l.
Proof.
  intros Hi Hl H. pose proof (contents_length s Hi). apply rd_eq; [lia|]. intros i Hr.
  unfold rd at 1 2. rewrite (proj2 (Z.ltb_ge i 0)) by lia. by rewrite contents_lookup, H by lia.
Qed.

Lemma put_room s c buffer b' out :
  klog_inv s -> log_length s < KLOG_CAPACITY ->
  wr (log_buffer s) ((log_start s + log_length s) mod KLOG_CAPACITY) c = Some buffer ->
  let s' := Klog buffer (log_start s) (log_length s + 1) b' out in
  klog_inv s' /\ contents s' = contents s ++ [c].
Proof.
  intros Hi Hlt Hw s'. pose proof (contents_length s Hi) as Hcl. pose proof Hi as [Hb Hs Hl].
  assert (klog_inv s') as Hi'.
  { split; simpl; [by rewrite (wr_length _ _ _ _ Hw)|lia..]. }
  split; [done|]. apply contents_eq; [done|rewrite length_app; simpl; lia|].
  simpl. intros i Hir. rewrite (ring_store _ _ _ _ _ Hw).
  destruct (Z.eq_dec i (log_length s)) as [->|].
  - rewrite Z.eqb_refl. rewrite lookup_app_r by lia.
    by replace (Z.to_nat (log_length s) - length (contents s))%nat with 0%nat by lia.
  - rewrite lookup_app_l, contents_lookup by lia.
    rewrite (proj2 (Z.eqb_neq _ _)); [done|]. apply not_eq_sym, mod_distinct; (done || lia).
Qed.

Lemma put_full s c buffer b' out :
  klog_inv s -> log_length s = KLOG_CAPACITY ->
  wr (log_buffer s) (log_start s) c = Some buffer ->
  let s' := Klog buffer ((log_start s + 1) mod KLOG_CAPACITY) (log_length s) b' out in
  klog_inv s' /\ contents s' = drop 1 (contents s ++ [c]).
Proof.
  intros Hi Hfull Hw s'. pose proof (contents_length s Hi) as Hcl. pose proof Hi as [Hb Hs Hl].
  pose proof (Z.mod_pos_bound (log_start s + 1) KLOG_CAPACITY ltac:(done)) as Hm.
  assert (klog_inv s') as Hi'.
  { split; simpl; [by rewrite (wr_length _ _ _ _ Hw)|lia..]. }
  split; [done|]. apply contents_eq; [done|rewrite length_drop, length_app; simpl; lia|].
  simpl. intros i Hir. rewrite (ring_store _ _ _ _ _ Hw), Zplus_mod_idemp_l, lookup_drop.
  replace (log_start s + 1 + i) with (log_start s + (i + 1)) by lia.
  replace (1 + Z.to_nat i)%nat with (Z.to_nat (i + 1)) by lia.
  destruct (Z.eq_dec (i + 1) (log_length s)) as [E|].
  - rewrite E, Hfull. replace (log_start s + KLOG_CAPACITY) with (log_start s + 1 * KLOG_CAPACITY) by lia.
    rewrite Z.mod_add, Z.mod_small, Z.eqb_refl by (done || lia). rewrite lookup_app_r by lia.
    by replace (Z.to_nat KLOG_CAPACITY - length (contents s))%nat with 0%nat by lia.
  - rewrite lookup_app_l, contents_lookup by lia.
    rewrite (proj2 (Z.eqb_neq _ _)); [done|].
    rewrite <- (Z.mod_small (log_start s) KLOG_CAPACITY) at 1 by lia. apply mod_distinct; (done || lia).
Qed.

Lemma log_put_spec s c :
  klog_inv s ->
  exists s', log_put s c = Some s' /\ klog_inv s' /\ contents s' = last_chars (contents s ++ [c]) /\
    console_enabled s' = console_enabled s /\
    console s' = if negb (console_enabled s =? 0) then console s ++ [c] else console s.
Proof.
  intros Hi. pose proof (contents_length s Hi) as Hcl. pose proof Hi as [Hb Hs Hl].
  assert (0 < KLOG_CAPACITY <= 2 ^ 20) as Hcap by done. unfold log_put.
  destruct (Z.ltb_spec (log_length s) KLOG_CAPACITY) as [Hlt|Hge].
  - rewrite !u32_small by (unfold fits; pow2; lia).
    pose proof (Z.mod_pos_bound (log_start s + log_length s) KLOG_CAPACITY ltac:(lia)).
    pose proof (wr_ok (log_buffer s) ((log_start s + log_length s) mod KLOG_CAPACITY) c ltac:(lia)) as Hw.
    rewrite Hw. simpl. eexists. split; [done|].
    rewrite last_chars_small by (rewrite length_app; simpl; lia).
    split_and!; [by eapply put_room..|done|done].
  - rewrite u32_small by (unfold fits; pow2; lia).
    pose proof (wr_ok (log_buffer s) (log_start s) c ltac:(lia)) as Hw. rewrite Hw. simpl.
    eexists. split; [done|]. unfold last_chars. rewrite length_app. simpl length.
    replace (length (contents s) + 1 - Z.to_nat KLOG_CAPACITY)%nat with 1%nat by lia.
    split_and!; [eapply put_full; (done || lia)..|done|done].
Qed.

(** Writing a run of characters. *)
Definition wrote (s s' : klog) (l : list Z) : Prop :=
  klog_inv s' /\ contents s' = last_chars (contents s ++ l) /\
  console_enabled s' = console_enabled s /\
  console s' = if negb (console_enabled s =? 0) then console s ++ l else console s.

Lemma wrote_refl s : klog_inv s -> wrote s s [].
Proof.
  intros Hi. pose proof (contents_length s Hi). destruct Hi as [? ? ?] eqn:E. clear E.
  split_and!; [done| |done|].
  - rewrite app_nil_r, last_chars_small by lia. done.
  - rewrite app_nil_r. by destruct (negb _).
Qed.

Lemma wrote_trans s1 s2 s3 l1 l2 : wrote s1 s2 l1 -> wrote s2 s3 l2 -> wrote s1 s3 (l1 ++ l2).
Proof.
  intros (H1 & C1 & E1 & O1) (H2 & C2 & E2 & O2). split_and!; [done| |congruence|].
  - rewrite C2, C1, last_chars_app, app_assoc. done.
  - rewrite O2, O1, E1. destruct (negb _); [by rewrite app_assoc|done].
Qed.

Lemma log_put_wrote s c : klog_inv s -> exists s', log_put s c = Some s' /\ wrote s s' [c].
Proof. intros Hi. destruct (log_put_spec s c Hi) as (s' & ? & ?). by exists s'. Qed.

Lemma log_text_wrote s l : klog_inv s -> exists s', log_text s l = Some s' /\ wrote s s' l.
Proof.
  revert s. induction l as [|c l IH]; intros s Hi; simpl.
  - exists s. split; [done|by apply wrote_refl].
  - destruct (log_put_wrote s c Hi) as (s1 & -> & H1). simpl.
    destruct (IH s1) as (s2 & -> & H2); [apply H1|].
    exists s2. split; [done|]. by apply (wrote_trans s s1 s2 [c] l).
Qed.

(** ** Numbers *)

(** [l] is the decimal text of [v]. *)
Definition decimal (v : Z) (l : list Z) : Prop :=
  l <> [] /\ digits_value mvh_ascii_digit_value 10 l 0 = Some v.

Lemma log_digits_spec v :
  0 < v < 2 ^ 64 -> exists r, log_digits v = Some r /\ format_done 10 dec_char 21 v r.
Proof.
  intros Hv. unfold log_digits.
  apply (while_loop_rule
    (fun st => (snd st <> 0 /\ format_inv 10 dec_char 21 v st) \/
               (snd st = 0 /\ 0 <= snd (fst st) <= 21 /\ format_done 10 dec_char 21 v (fst st)))
    _ (fun st => if snd st =? 0 then 0%nat else (21 - Z.to_nat (snd (fst st)))%nat)).
  - left. split; [simpl; lia|]. exists []. simpl. split_and!; try done; try lia.
  - cbn [snd fst]. destruct (v =? 0); lia.
  - intros [[rv len] value] [[Hne Hi]|(H0 & Hlen & Hd)]; cbn [snd fst] in *.
    + destruct (format_step 10 dec_char ltac:(done) 21 v rv len value Hi) as (Hw & Hl & Hv0 & Hn).
      rewrite (proj2 (Z.eqb_neq value 0)) by done. cbn [negb].
      change (48 + value mod 10) with (dec_char (value mod 10)). rewrite Hw. cbn [mbind option_bind].
      left. eexists. split; [done|]. rewrite u32_small by (unfold fits; pow2; lia).
      cbn [snd fst]. destruct (Z.eqb_spec (value / 10) 0) as [E|E]; cbn [negb] in Hn.
      * split; [right; split_and!; [done|lia..|done]|lia].
      * split; [left; by split|lia].
    + subst value. simpl. right. by eexists.
Qed.

Lemma log_number_wrote s v :
  klog_inv s -> fits 64 v -> exists s' l, log_number s v = Some s' /\ wrote s s' l /\ decimal v l.
Proof.
  intros Hi Hv. unfold log_number. destruct (Z.eqb_spec v 0) as [->|Hne].
  { destruct (log_put_wrote s 48 Hi) as (s' & -> & Hw). by exists s', [48]. }
  destruct (log_digits_spec v) as ([rv len] & -> & ds & Hlen & Hl & Ht & Hf & Hval & Hds);
    [unfold fits in *; lia|]. cbn [mbind option_bind fst snd] in *. subst len.
  match goal with |- context [while_loop ?f ?b ?i] =>
    destruct (while_loop_rule
      (fun st => 0 <= snd st <= Z.of_nat (length ds) /\ klog_inv (fst st) /\
         wrote s (fst st) (dec_char <$> reverse (drop (Z.to_nat (snd st)) ds)))
      (fun s' => wrote s s' (dec_char <$> reverse ds)) (fun st => Z.to_nat (snd st)) f b i)
      as (s' & -> & Hw) end.
  - cbn [fst snd]. rewrite Nat2Z.id, drop_all. split_and!; [lia..|done|by apply wrote_refl].
  - cbn [snd]. lia.
  - intros [s1 n] (Hn & Hi1 & Hw1). cbn [fst snd] in *.
    destruct (Z.eqb_spec n 0) as [->|Hn0]; cbn [negb]; [right; eauto|left].
    rewrite u32_small by (unfold fits; pow2; lia).
    destruct (lookup_lt_is_Some_2 ds (Z.to_nat (n - 1))) as [d Hd]; [lia|].
    assert (rd rv (n - 1) = Some (dec_char d)) as ->.
    { unfold rd. rewrite (proj2 (Z.ltb_ge _ _)) by lia.
      rewrite <- (lookup_take_lt rv (length ds)), Ht, list_lookup_fmap, Hd by lia. done. }
    cbn [mbind option_bind].
    destruct (log_put_wrote s1 (dec_char d) Hi1) as (s2 & -> & Hw2). cbn [mbind option_bind].
    eexists. split; [done|]. cbn [fst snd]. split_and!; [lia..|apply Hw2| |lia].
    rewrite (drop_S ds d) by done. replace (S (Z.to_nat (n - 1))) with (Z.to_nat n) by lia.
    rewrite reverse_cons, fmap_app. by eapply wrote_trans.
  - exists s', (dec_char <$> reverse ds). split_and!; [done..|split].
    + intros E%(f_equal length). rewrite length_fmap, length_reverse in E. simpl in E. lia.
    + rewrite (digits_value_rev 10 dec_char mvh_ascii_digit_value dec_char_value) by done.
      simpl. by rewrite Hval.
Qed.

(** ** Correctness *)

(** The line [klog_write_category] appends. *)
Definition log_line (number level category message : list Z) : list Z :=
  [91] ++ number ++ [93] ++ [91] ++ level ++ [93] ++ [91] ++ category ++ [93] ++ [32] ++
  message ++ [10].


(** The kernel log as a bounded queue.  Writing a line never leaves the
    buffer, and afterwards the log holds, oldest first, the last 16384
    characters of what it held before followed by the line; the tick count is
    printed in decimal, and the console receives the whole line exactly when
    it is enabled. *)
Theorem klog_write_category_spec ticks s level category message :
  klog_inv s -> fits 64 ticks ->
  exists s' number, klog_write_category ticks s level category message = Some s' /\
    decimal ticks number /\ klog_inv s' /\
    contents s' = last_chars (contents s ++ log_line number level category message) /\
    console s' = if negb (console_enabled s =? 0)
                 then console s ++ log_line number level category message else console s.
Proof.
  intros Hi Ht. unfold klog_write_category.
  destruct (log_put_wrote s 91 Hi) as (s1 & -> & W1). cbn [mbind option_bind].
  destruct (log_number_wrote s1 ticks (proj1 W1) Ht) as (s2 & number & -> & W2 & Hd). cbn [mbind option_bind].
  destruct (log_put_wrote s2 93 (proj1 W2)) as (s3 & -> & W3). cbn [mbind option_bind].
  destruct (log_put_wrote s3 91 (proj1 W3)) as (s4 & -> & W4). cbn [mbind option_bind].
  destruct (log_text_wrote s4 level (proj1 W4)) as (s5 & -> & W5). cbn [mbind option_bind].
  destruct (log_put_wrote s5 93 (proj1 W5)) as (s6 & -> & W6). cbn [mbind option_bind].
  destruct (log_put_wrote s6 91 (proj1 W6)) as (s7 & -> & W7). cbn [mbind option_bind].
  destruct (log_text_wrote s7 category (proj1 W7)) as (s8 & -> & W8). cbn [mbind option_bind].
  destruct (log_put_wrote s8 93 (proj1 W8)) as (s9 & -> & W9). cbn [mbind option_bind].
  destruct (log_put_wrote s9 32 (proj1 W9)) as (s10 & -> & W10). cbn [mbind option_bind].
  destruct (log_text_wrote s10 message (proj1 W10)) as (s11 & -> & W11). cbn [mbind option_bind].
  destruct (log_put_wrote s11 10 (proj1 W11)) as (s12 & -> & W12).
  assert (wrote s s12 (log_line number level category message)) as (Hi' & Hc & _ & Ho)
    by (repeat (eapply wrote_trans; [eassumption|]); done).
  exists s12, number. split_and!; done.
Qed.

(** A log of the declared size, empty. *)
Definition klog_demo : klog := Klog (replicate (Z.to_nat KLOG_CAPACITY) 0) 0 0 0 [].

Lemma klog_demo_inv : klog_inv klog_demo.
Proof.
  split; cbn [klog_demo log_buffer log_start log_length]; [|done..].
  by rewrite length_replicate, Z2Nat.id.
Qed.

Lemma klog_write_category_spec_witness :
  exists s' number, klog_write_category 42 klog_demo [105] [107] [104; 105] = Some s' /\
    decimal 42 number /\ klog_inv s' /\
    contents s' = last_chars (contents klog_demo ++ log_line number [105] [107] [104; 105]) /\
    console s' = if negb (console_enabled klog_demo =? 0)
                 then console klog_demo ++ log_line number [105] [107] [104; 105]
                 else console klog_demo.
Proof. apply (klog_write_category_spec 42 klog_demo); [apply klog_demo_inv|by split]. Defined.

(** One more element copied. *)
Lemma take_copy (out src orig : list Z) i c :
  (i < length out)%nat -> take i out = take i src -> drop i out = drop i orig -> src !! i = Some c ->
  take (S i) (<[i:=c]> out) = take (S i) src /\ drop (S i) (<[i:=c]> out) = drop (S i) orig.
Proof.
  intros Hi Ht Hd Hc. split.
  - rewrite (take_S_r _ _ c) by (by apply list_lookup_insert_eq).
    rewrite (take_S_r src _ c) by done. by rewrite take_insert_ge, Ht by lia.
  - rewrite drop_insert_lt by lia. replace (S i) with (i + 1)%nat by lia. by rewrite <- !drop_drop, Hd.
Qed.

(** [klog_copy].  Copying into a buffer of [capacity > 0] bytes stays
    inside it, writes the oldest characters that fit, terminates them, leaves
    the rest of the buffer alone and returns their number. *)
Theorem klog_copy_spec s output capacity :
  klog_inv s -> 0 < capacity <= Z.of_nat (length output) -> fits 32 capacity ->
  let count := Z.min (log_length s) (capacity - 1) in
  klog_copy s output capacity =
    Some (take (Z.to_nat count) (contents s) ++ [0] ++ drop (Z.to_nat count + 1) output, count).
Proof.
  intros Hi Hcap Hf count. pose proof (contents_length s Hi) as Hcl. pose proof Hi as [Hb Hs Hl].
  unfold klog_copy. rewrite (proj2 (Z.eqb_neq capacity 0)) by lia.
  assert ((if capacity <=? log_length s then capacity - 1 else log_length s) = count) as ->
    by (unfold count; zcmp).
  match goal with |- context [for_loop ?n ?z ?b ?s0] =>
    destruct (for_loop_rule (fun i out => length out = length output /\
      take (Z.to_nat i) out = take (Z.to_nat i) (contents s) /\
      drop (Z.to_nat i) out = drop (Z.to_nat i) output) n z b s0) as (out & -> & Hlen & Ht & Hd) end.
  - done.
  - intros i out Hi' (Hlen & Ht & Hd).
    rewrite u32_small by (unfold fits, KLOG_CAPACITY in *; pow2; lia).
    destruct (rd_ok (log_buffer s) ((log_start s + i) mod KLOG_CAPACITY)) as [c Hc];
      [rewrite Hb; by apply Z.mod_pos_bound|].
    rewrite Hc. cbn [mbind option_bind]. rewrite wr_ok by lia. eexists. split; [done|].
    split; [by rewrite length_insert|]. replace (Z.to_nat (i + 1)) with (S (Z.to_nat i)) by lia.
    apply take_copy; [lia|done..|]. rewrite contents_lookup, Hc by lia. done.
  - cbn [mbind option_bind]. rewrite Z.add_0_l, Z2Nat.id in * by lia.
    assert (drop (Z.to_nat count + 1) out = drop (Z.to_nat count + 1) output) as Hd1
      by (by rewrite <- !drop_drop, Hd).
    rewrite wr_ok by lia. cbn [mbind option_bind]. rewrite insert_take_drop, Ht by lia.
    replace (S (Z.to_nat count)) with (Z.to_nat count + 1)%nat by lia. by rewrite Hd1.
Qed.

Lemma klog_copy_spec_witness :
  klog_copy klog_demo [1; 2; 3] 3 =
    Some (take (Z.to_nat (Z.min (log_length klog_demo) (3 - 1))) (contents klog_demo) ++ [0] ++
          drop (Z.to_nat (Z.min (log_length klog_demo) (3 - 1)) + 1) [1; 2; 3],
          Z.min (log_length klog_demo) (3 - 1)).
Proof. apply (klog_copy_spec klog_demo [1; 2; 3] 3); [apply klog_demo_inv|by split..]. Defined.
