(* ===== verification/Sync.v ===== *)
(** * sync.c: atomics, locks and other synchronisation objects

    Every access to shared state in sync.c goes through an atomic operation;
    one atomic operation is one step of the model.  A blocking function is a
    step function: from a program point and the shared object it performs one
    atomic operation and gives the new object and either the next program
    point ([inl]) or the function's result ([inr]).  Threads run these steps in
    any interleaving ([sys_step]).  The interleaving is sequentially
    consistent: the target is x86-64, where every read-modify-write of the
    source is a full barrier. *)

From S2P Require Import Prelude.

(** ** Atomics: the new value of the cell and the result *)

Definition atomic_u32_load (value : Z) : Z := value.
Definition atomic_u32_store (value next : Z) : Z := u32 next.
Definition atomic_u32_fetch_add (value amount : Z) : Z * Z := (u32 (value + amount), value).
Definition atomic_u32_compare_exchange (value expected desired : Z) : Z * bool :=
  if value =? expected then (desired, true) else (value, false).
Definition atomic_u64_load (value : Z) : Z := value.
Definition atomic_u64_store (value next : Z) : Z := u64 next.
Definition atomic_u64_fetch_add (value amount : Z) : Z * Z := (u64 (value + amount), value).
Definition atomic_u64_compare_exchange (value expected desired : Z) : Z * bool :=
  if value =? expected then (desired, true) else (value, false).

(** [(uint32_t)-1] *)
Definition MINUS_ONE : Z := u32 (-1).

(** Run a step function alone until it returns. *)
Definition run {P S R : Type} (fuel : nat) (step : P -> S -> S * (P + R)) (p : P) (s : S)
  : option (S * R) :=
  while_loop fuel (fun '(p, s) =>
    let '(s, next) := step p s in
    Some (match next with inl p => inl (p, s) | inr r => inr (s, r) end)) (p, s).

(** ** Spin lock and mutex; the object is the 32-bit state word *)

Definition spinlock_init (state : Z) : Z := atomic_u32_store state 0.

Inductive lock_pc := LCas | LSpin.

Definition spinlock_lock (p : lock_pc) (state : Z) : Z * (lock_pc + unit) :=
  match p with
  | LCas => let '(state, ok) := atomic_u32_compare_exchange state 0 1 in
            (state, if ok then inr tt else inl LSpin)
  | LSpin => (state, inl (if negb (atomic_u32_load state =? 0) then LSpin else LCas))
  end.

Definition spinlock_try_lock (state : Z) : Z * bool := atomic_u32_compare_exchange state 0 1.
Definition spinlock_unlock (state : Z) : Z := atomic_u32_store state 0.

Definition mutex_init (mutex : Z) : Z := spinlock_init mutex.
Definition mutex_lock (p : lock_pc) (mutex : Z) : Z * (lock_pc + unit) := spinlock_lock p mutex.
Definition mutex_try_lock (mutex : Z) : Z * bool := spinlock_try_lock mutex.
Definition mutex_unlock (mutex : Z) : Z := spinlock_unlock mutex.

(** ** Ticket lock *)

Record ticket_lock := TicketLock { next : Z; serving : Z }.

Definition ticket_lock_init (lock : ticket_lock) : ticket_lock :=
  TicketLock (atomic_u32_store (next lock) 0) (atomic_u32_store (serving lock) 0).

Inductive ticket_pc := TFetch | TWait (ticket : Z).

Definition ticket_lock_acquire (p : ticket_pc) (lock : ticket_lock)
  : ticket_lock * (ticket_pc + unit) :=
  match p with
  | TFetch => let '(n, ticket) := atomic_u32_fetch_add (next lock) 1 in
              (TicketLock n (serving lock), inl (TWait ticket))
  | TWait ticket => (lock, if negb (atomic_u32_load (serving lock) =? ticket)
                           then inl (TWait ticket) else inr tt)
  end.

Definition ticket_lock_release (lock : ticket_lock) : ticket_lock :=
  TicketLock (next lock) (fst (atomic_u32_fetch_add (serving lock) 1)).

(** ** Reader-writer lock *)

Record rwlock := RwLock { readers : Z; writer : Z }.

Definition rwlock_init (lock : rwlock) : rwlock :=
  RwLock (atomic_u32_store (readers lock) 0) (atomic_u32_store (writer lock) 0).

Inductive read_pc := RCheck | RAdd | RRecheck | RUndo.

Definition rwlock_read_lock (p : read_pc) (lock : rwlock) : rwlock * (read_pc + unit) :=
  match p with
  | RCheck => (lock, inl (if negb (atomic_u32_load (writer lock) =? 0) then RCheck else RAdd))
  | RAdd => (RwLock (fst (atomic_u32_fetch_add (readers lock) 1)) (writer lock), inl RRecheck)
  | RRecheck => (lock, if atomic_u32_load (writer lock) =? 0 then inr tt else inl RUndo)
  | RUndo => (RwLock (fst (atomic_u32_fetch_add (readers lock) MINUS_ONE)) (writer lock), inl RCheck)
  end.

Definition rwlock_read_unlock (lock : rwlock) : rwlock :=
  RwLock (fst (atomic_u32_fetch_add (readers lock) MINUS_ONE)) (writer lock).

Inductive write_pc := WCas | WDrain.

Definition rwlock_write_lock (p : write_pc) (lock : rwlock) : rwlock * (write_pc + unit) :=
  match p with
  | WCas => let '(w, ok) := atomic_u32_compare_exchange (writer lock) 0 1 in
            (RwLock (readers lock) w, inl (if ok then WDrain else WCas))
  | WDrain => (lock, if negb (atomic_u32_load (readers lock) =? 0) then inl WDrain else inr tt)
  end.

Definition rwlock_write_unlock (lock : rwlock) : rwlock :=
  RwLock (readers lock) (atomic_u32_store (writer lock) 0).

(** ** Counting objects: semaphore and completion; the object is the count *)

Definition semaphore_init (count : Z) : Z := atomic_u32_store 0 count.

Inductive try_pc := SLoad | SCas (seen : Z).

(** Both loads of [semaphore_try_wait] lead to the test of the loop head. *)
Definition semaphore_try_wait (p : try_pc) (count : Z) : Z * (try_pc + bool) :=
  match p with
  | SLoad => let seen := atomic_u32_load count in
             (count, if negb (seen =? 0) then inl (SCas seen) else inr false)
  | SCas seen => let '(count, ok) := atomic_u32_compare_exchange count seen (u32 (seen - 1)) in
                 (count, if ok then inr true else inl SLoad)
  end.

(** [semaphore_wait] repeats [semaphore_try_wait] until it succeeds. *)
Definition semaphore_wait (p : try_pc) (count : Z) : Z * (try_pc + unit) :=
  let '(count, r) := semaphore_try_wait p count in
  (count, match r with inl p => inl p | inr true => inr tt | inr false => inl SLoad end).

Definition semaphore_signal (count : Z) : Z := fst (atomic_u32_fetch_add count 1).

Definition completion_init (done : Z) : Z := atomic_u32_store done 0.
Definition completion_complete (done : Z) : Z := fst (atomic_u32_fetch_add done 1).
Definition completion_complete_all (done : Z) : Z := atomic_u32_store done U32_MAX.

Definition completion_try_wait (p : try_pc) (done : Z) : Z * (try_pc + bool) :=
  match p with
  | SLoad => let seen := atomic_u32_load done in
             (done, if negb (seen =? 0) then
                      if seen =? U32_MAX then inr true else inl (SCas seen)
                    else inr false)
  | SCas seen => let '(done, ok) := atomic_u32_compare_exchange done seen (u32 (seen - 1)) in
                 (done, if ok then inr true else inl SLoad)
  end.

Definition completion_wait (p : try_pc) (done : Z) : Z * (try_pc + unit) :=
  let '(done, r) := completion_try_wait p done in
  (done, match r with inl p => inl p | inr true => inr tt | inr false => inl SLoad end).

(** ** Condition and sequence lock *)

Definition condition_init (sequence : Z) : Z := atomic_u32_store sequence 0.
Definition condition_snapshot (sequence : Z) : Z := atomic_u32_load sequence.
Definition condition_signal (sequence : Z) : Z := fst (atomic_u32_fetch_add sequence 1).
Definition condition_wait (snapshot : Z) (p : unit) (sequence : Z) : Z * (unit + unit) :=
  (sequence, if atomic_u32_load sequence =? snapshot then inl tt else inr tt).

Record seqlock := SeqLock { sequence : Z; seq_writer : Z }.

Definition seqlock_init (lock : seqlock) : seqlock :=
  SeqLock (atomic_u32_store (sequence lock) 0) (spinlock_init (seq_writer lock)).

Inductive seq_write_pc := QLock (p : lock_pc) | QAdd.

Definition seqlock_write_lock (p : seq_write_pc) (lock : seqlock) : seqlock * (seq_write_pc + unit) :=
  match p with
  | QLock p => let '(w, r) := spinlock_lock p (seq_writer lock) in
               (SeqLock (sequence lock) w, inl (match r with inl p => QLock p | inr _ => QAdd end))
  | QAdd => (SeqLock (fst (atomic_u32_fetch_add (sequence lock) 1)) (seq_writer lock), inr tt)
  end.

Inductive seq_unlock_pc := QBump | QUnlock.

Definition seqlock_write_unlock (p : seq_unlock_pc) (lock : seqlock)
  : seqlock * (seq_unlock_pc + unit) :=
  match p with
  | QBump => (SeqLock (fst (atomic_u32_fetch_add (sequence lock) 1)) (seq_writer lock), inl QUnlock)
  | QUnlock => (SeqLock (sequence lock) (spinlock_unlock (seq_writer lock)), inr tt)
  end.

Definition seqlock_read_begin (p : unit) (lock : seqlock) : seqlock * (unit + Z) :=
  let seq := atomic_u32_load (sequence lock) in
  (lock, if negb ((seq &&& 1) =? 0) then inl tt else inr seq).

Definition seqlock_read_retry (lock : seqlock) (seq : Z) : bool :=
  negb (atomic_u32_load (sequence lock) =? seq).

(** ** The self test, run by a single thread *)

Definition alone {P S R} (step : P -> S -> S * (P + R)) (p : P) (s : S) : option (S * R) :=
  run 4 step p s.

Definition sync_self_test : option Z :=
  let value := atomic_u32_store 0 4 in
  let '(value, old) := atomic_u32_fetch_add value 3 in
  if negb (old =? 4) || negb (atomic_u32_load value =? 7) then Some (-1) else
  let '(value, ok) := atomic_u32_compare_exchange value 7 9 in
  if negb ok || negb (atomic_u32_load value =? 9) then Some (-1) else
  let spinlock := spinlock_init 0 in
  let '(spinlock, first) := spinlock_try_lock spinlock in
  if negb first then Some (-1) else
  let '(spinlock, second) := spinlock_try_lock spinlock in
  if (second : bool) then Some (-1) else
  let spinlock := spinlock_unlock spinlock in
  let mutex := mutex_init 0 in
  let '(mutex, first) := mutex_try_lock mutex in
  if negb first then Some (-1) else
  let '(mutex, second) := mutex_try_lock mutex in
  if (second : bool) then Some (-1) else
  let mutex := mutex_unlock mutex in
  let ticket := ticket_lock_init (TicketLock 0 0) in
  ticket ← alone ticket_lock_acquire TFetch ticket;
  if negb (atomic_u32_load (serving (fst ticket)) =? 0) then Some (-1) else
  let ticket := ticket_lock_release (fst ticket) in
  if negb (atomic_u32_load (serving ticket) =? 1) then Some (-1) else
  let rw := rwlock_init (RwLock 0 0) in
  rw ← alone rwlock_read_lock RCheck rw;
  if negb (atomic_u32_load (readers (fst rw)) =? 1) then Some (-1) else
  let rw := rwlock_read_unlock (fst rw) in
  rw ← alone rwlock_write_lock WCas rw;
  if negb (atomic_u32_load (writer (fst rw)) =? 1) then Some (-1) else
  let rw := rwlock_write_unlock (fst rw) in
  let value64 := atomic_u64_store 0 8 in
  let '(value64, old) := atomic_u64_fetch_add value64 2 in
  if negb (old =? 8) || negb (atomic_u64_load value64 =? 10) ||
     negb (snd (atomic_u64_compare_exchange value64 10 12)) then Some (-1) else
  let semaphore := semaphore_init 1 in
  w1 ← alone semaphore_try_wait SLoad semaphore;
  if negb (snd w1 : bool) then Some (-1) else
  w2 ← alone semaphore_try_wait SLoad (fst w1);
  if (snd w2 : bool) then Some (-1) else
  let semaphore := semaphore_signal (fst w2) in
  let completion := completion_complete (completion_init 0) in
  w3 ← alone completion_try_wait SLoad completion;
  if negb (snd w3 : bool) then Some (-1) else
  let condition := condition_signal (condition_init 0) in
  if negb (condition_snapshot condition =? 1) then Some (-1) else
  let seq := seqlock_init (SeqLock 0 0) in
  seq ← alone seqlock_write_lock (QLock LCas) seq;
  seq ← alone seqlock_write_unlock QBump (fst seq);
  begin ← alone seqlock_read_begin tt (fst seq);
  Some (if negb (snd begin =? 2) then -1 else 0).

Lemma sync_self_test_passes : sync_self_test = Some 0.
Proof. reflexivity. Qed.

(** ** Interleavings *)

Section system.
Context {S L : Type} (step : S -> L -> S -> L -> Prop).

(** Any thread takes one step. *)
Inductive sys_step : S * list L -> S * list L -> Prop :=
  | sys_one i s l s' l' ls :
      ls !! i = Some l -> step s l s' l' -> sys_step (s, ls) (s', <[i := l']> ls).

Lemma sys_invariant (I : S * list L -> Prop) c0 c :
  I c0 -> (forall c c', I c -> sys_step c c' -> I c') -> rtc sys_step c0 c -> I c.
Proof. intros H0 Hs Hr. induction Hr as [|x y z Hxy _ IH]; eauto. Qed.
End system.

(** The number of threads in a given kind of state. *)
Fixpoint nthreads {L} (f : L -> bool) (ls : list L) : Z :=
  match ls with [] => 0 | l :: ls => Z.b2z (f l) + nthreads f ls end.

Section nthreads.
Context {L : Type} (f : L -> bool).

Lemma nthreads_insert ls i l l' :
  ls !! i = Some l ->
  nthreads f (<[i := l']> ls) = nthreads f ls - Z.b2z (f l) + Z.b2z (f l').
Proof.
  revert i. induction ls as [|x ls IH]; intros [|i] Hi; simpl in *; [done|done| |].
  - injection Hi as ->. lia.
  - rewrite (IH i Hi). lia.
Qed.

Lemma nthreads_range ls : 0 <= nthreads f ls <= Z.of_nat (length ls).
Proof. induction ls as [|x ls IH]; simpl; [lia|]. destruct (f x); simpl; lia. Qed.

Lemma nthreads_pos ls i l : ls !! i = Some l -> f l = true -> 0 < nthreads f ls.
Proof.
  revert i. induction ls as [|x ls IH]; intros [|i] Hi Hf; simpl in *; try done.
  - injection Hi as ->. rewrite Hf. pose proof (nthreads_range ls). simpl. lia.
  - specialize (IH i Hi Hf). destruct (f x); simpl; lia.
Qed.

Lemma nthreads_unique ls i j a b :
  nthreads f ls <= 1 -> ls !! i = Some a -> ls !! j = Some b -> f a = true -> f b = true -> i = j.
Proof.
  revert i j. induction ls as [|x ls IH]; intros [|i] [|j] Hn Hi Hj Ha Hb; simpl in *; try done.
  - injection Hi as ->. pose proof (nthreads_pos ls j b Hj Hb). rewrite Ha in Hn. simpl in Hn. lia.
  - injection Hj as ->. pose proof (nthreads_pos ls i a Hi Ha). rewrite Hb in Hn. simpl in Hn. lia.
  - f_equal. apply IH; try done. destruct (f x); simpl in Hn; lia.
Qed.

Lemma nthreads_not_all ls i l :
  ls !! i = Some l -> f l = false -> nthreads f ls < Z.of_nat (length ls).
Proof.
  revert i. induction ls as [|x ls IH]; intros [|i] Hi Hf; simpl in *; try done.
  - injection Hi as ->. rewrite Hf. pose proof (nthreads_range ls). simpl. lia.
  - specialize (IH i Hi Hf). destruct (f x); simpl; lia.
Qed.

Lemma nthreads_none ls :
  (forall i l, ls !! i = Some l -> f l = false) -> nthreads f ls = 0.
Proof.
  induction ls as [|x ls IH]; intros H; simpl; [done|]. rewrite (H 0%nat x eq_refl), IH; [done|].
  intros i l Hi. by apply (H (S i)).
Qed.

Lemma nthreads_replicate n l : f l = false -> nthreads f (replicate n l) = 0.
Proof. intros H. induction n as [|n IH]; simpl; [done|]. by rewrite H, IH. Qed.
End nthreads.

(** ** Spin lock: mutual exclusion and progress *)

Inductive spin_thread := Outside | Locking (p : lock_pc) | Inside.

Definition is_inside (t : spin_thread) : bool := match t with Inside => true | _ => false end.

(** What a thread that uses the lock may do. *)
Inductive spin_step : Z -> spin_thread -> Z -> spin_thread -> Prop :=
  | spin_call s : spin_step s Outside s (Locking LCas)
  | spin_loop s p s' p' :
      spinlock_lock p s = (s', inl p') -> spin_step s (Locking p) s' (Locking p')
  | spin_enter s p s' :
      spinlock_lock p s = (s', inr tt) -> spin_step s (Locking p) s' Inside
  | spin_try s s' (ok : bool) :
      spinlock_try_lock s = (s', ok) -> spin_step s Outside s' (if ok then Inside else Outside)
  | spin_leave s : spin_step s Inside (spinlock_unlock s) Outside.

Definition spin_inv (c : Z * list spin_thread) : Prop :=
  fst c = nthreads is_inside (snd c) /\ 0 <= fst c <= 1.

Lemma spin_inv_step c c' : spin_inv c -> sys_step spin_step c c' -> spin_inv c'.
Proof.
  intros [Hs Hr] Hstep. destruct Hstep as [i s l s' l' ls Hi Hstep]. unfold spin_inv in *. simpl in *.
  rewrite (nthreads_insert is_inside ls i l l' Hi). pose proof (nthreads_pos is_inside ls i l Hi) as Hp.
  destruct Hstep as [s|s p s' p' H|s p s' H|s s' ok H|s]; simpl in *.
  - lia.
  - destruct p; simpl in H; unfold atomic_u32_compare_exchange in H;
      [destruct (Z.eqb_spec s 0)|]; simplify_eq; lia.
  - destruct p; simpl in H; unfold atomic_u32_compare_exchange in H;
      [destruct (Z.eqb_spec s 0)|]; simplify_eq; simpl; lia.
  - unfold spinlock_try_lock, atomic_u32_compare_exchange in H.
    destruct (Z.eqb_spec s 0); simplify_eq; simpl; lia.
  - specialize (Hp eq_refl). change (spinlock_unlock s) with 0. simpl. lia.
Qed.

(** C36: [spinlock_lock], [spinlock_try_lock], [spinlock_unlock] (and the mutex
    built on them).  In every interleaving of any number of threads that lock,
    try-lock and unlock, at most one thread is inside the critical section; and
    the lock is never lost: when no thread is inside, a thread at its
    compare-and-exchange enters with its next step. *)
Theorem spinlock_mutual_exclusion x n s ls :
  rtc (sys_step spin_step) (spinlock_init x, replicate n Outside) (s, ls) ->
  (forall i j, ls !! i = Some Inside -> ls !! j = Some Inside -> i = j) /\
  ((forall i, ls !! i <> Some Inside) -> spinlock_lock LCas s = (1, inr tt)).
Proof.
  intros Hr. apply (sys_invariant spin_step spin_inv) in Hr as [Hs Hr];
    [|split; simpl; rewrite ?nthreads_replicate; done|exact spin_inv_step].
  simpl in *. split.
  - intros i j Hi Hj. by apply (nthreads_unique is_inside ls i j Inside Inside); [lia|..].
  - intros Hno. rewrite Hs, nthreads_none; [done|].
    intros i [] Hi; try done. by apply Hno in Hi.
Qed.

(** Two threads, one of which has entered. *)
Lemma spinlock_mutual_exclusion_witness :
  let ls := [Inside; Outside] in
  (forall i j, ls !! i = Some Inside -> ls !! j = Some Inside -> i = j) /\
  ((forall i, ls !! i <> Some Inside) -> spinlock_lock LCas 1 = (1, inr tt)).
Proof.
  intros ls. apply (spinlock_mutual_exclusion 0 2 1 ls).
  apply (rtc_l _ _ (0, [Locking LCas; Outside])).
  { by apply (sys_one spin_step 0 0 Outside 0 (Locking LCas)); [|apply spin_call]. }
  apply rtc_once. by apply (sys_one spin_step 0 0 (Locking LCas) 1 Inside); [|apply spin_enter].
Defined.

(** ** Ticket lock: it implements a first-in first-out queue *)

Inductive ticket_thread := TOutside | TAcquiring (p : ticket_pc) | TInside.

Inductive ticket_step : ticket_lock -> ticket_thread -> ticket_lock -> ticket_thread -> Prop :=
  | ticket_call s : ticket_step s TOutside s (TAcquiring TFetch)
  | ticket_loop s p s' p' :
      ticket_lock_acquire p s = (s', inl p') -> ticket_step s (TAcquiring p) s' (TAcquiring p')
  | ticket_enter s p s' :
      ticket_lock_acquire p s = (s', inr tt) -> ticket_step s (TAcquiring p) s' TInside
  | ticket_leave s : ticket_step s TInside (ticket_lock_release s) TOutside.

(** The specification: a queue of threads, and whether its head is inside. *)
Inductive fifo_step : list nat * bool -> list nat * bool -> Prop :=
  | fifo_join i q b : i ∉ q -> fifo_step (q, b) (q ++ [i], b)
  | fifo_enter i q : fifo_step (i :: q, false) (i :: q, true)
  | fifo_leave i q : fifo_step (i :: q, true) (q, false).

(** The thread at position [k] of the queue holds ticket [serving + k] modulo
    2^32; only the head can be inside. *)
Definition queued (serving : Z) (inside : bool) (k : nat) (t : ticket_thread) : Prop :=
  match t with
  | TAcquiring (TWait ticket) => ticket = u32 (serving + Z.of_nat k) /\ (k = 0%nat -> inside = false)
  | TInside => k = 0%nat /\ inside = true
  | _ => False
  end.

Definition has_ticket (t : ticket_thread) : bool :=
  match t with TAcquiring (TWait _) | TInside => true | _ => false end.

Record ticket_rel (c : ticket_lock * list ticket_thread) (a : list nat * bool) : Prop := {
  rel_nodup : NoDup (fst a);
  rel_serving : fits 32 (serving (fst c));
  rel_next : next (fst c) = u32 (serving (fst c) + Z.of_nat (length (fst a)));
  rel_queue : forall k i, fst a !! k = Some i ->
    exists t, snd c !! i = Some t /\ queued (serving (fst c)) (snd a) k t;
  rel_threads : forall i t, snd c !! i = Some t -> has_ticket t = true -> i ∈ fst a;
  rel_head : snd a = true -> fst a <> [];
}.

(** No more threads wait than there are. *)
Lemma queue_length c a :
  ticket_rel c a -> (length (fst a) <= length (snd c))%nat.
Proof.
  intros [Hnd _ _ Hq _ _].
  rewrite <- (length_seq (length (snd c)) 0). apply submseteq_length, NoDup_submseteq; [done|].
  intros i [k Hk]%list_elem_of_lookup_1. destruct (Hq k i Hk) as (t & Ht & _).
  apply elem_of_seq. apply lookup_lt_Some in Ht. lia.
Qed.

Lemma queued_has_ticket s b k t : queued s b k t -> has_ticket t = true.
Proof. by destruct t as [|[]|]. Qed.

(** Behind the head, whether the head is inside does not matter. *)
Lemma queued_behind s b b' k t : queued s b (S k) t -> queued s b' (S k) t.
Proof. destruct t as [|[|ticket]|]; simpl; [done|done| |by intros []]. intros [-> _]. by split. Qed.

(** After a release everybody moves up. *)
Lemma queued_advance s b k t : queued s b (S k) t -> queued (u32 (s + 1)) false k t.
Proof.
  destruct t as [|[|ticket]|]; simpl; [done|done| |by intros []]. intros [-> _]. split; [|done].
  unfold u32. rewrite Zplus_mod_idemp_l. f_equal. lia.
Qed.

(** Positions in the queue are determined by the thread. *)
Lemma queue_position c a i t :
  ticket_rel c a -> snd c !! i = Some t -> has_ticket t = true ->
  exists k, fst a !! k = Some i /\ queued (serving (fst c)) (snd a) k t.
Proof.
  intros Hrel Hi Ht. destruct (list_elem_of_lookup_1 _ _ (rel_threads c a Hrel i t Hi Ht)) as [k Hk].
  destruct (rel_queue c a Hrel k i Hk) as (t' & Hi' & Hq). rewrite Hi in Hi'. injection Hi' as <-. eauto.
Qed.

(** A step that changes a thread outside the queue only. *)
Lemma ticket_rel_other s ls q b i t t' :
  ticket_rel (s, ls) (q, b) -> ls !! i = Some t -> has_ticket t = false -> has_ticket t' = false ->
  ticket_rel (s, <[i := t']> ls) (q, b).
Proof.
  intros [Hnd Hs Hn Hq Ht Hh] Hi Hno Hno'. split; simpl in *; try done.
  - intros k j Hk. destruct (Hq k j Hk) as (t0 & Hj & Hqd). exists t0.
    destruct (decide (i = j)) as [<-|]; [|by rewrite list_lookup_insert_ne].
    rewrite Hi in Hj. injection Hj as <-. by rewrite (queued_has_ticket _ _ _ _ Hqd) in Hno.
  - intros j t0 Hj Ht0. destruct (decide (i = j)) as [<-|].
    + rewrite list_lookup_insert_eq in Hj by (by eapply lookup_lt_Some). congruence.
    + rewrite list_lookup_insert_ne in Hj by done. by eapply Ht.
Qed.

Lemma ticket_rel_join s ls q b i :
  ticket_rel (s, ls) (q, b) -> ls !! i = Some (TAcquiring TFetch) ->
  (i ∉ q) /\
  ticket_rel (TicketLock (u32 (next s + 1)) (serving s),
              <[i := TAcquiring (TWait (next s))]> ls) (q ++ [i], b).
Proof.
  intros Hrel Hi. pose proof Hrel as [Hnd Hs Hn Hq Ht Hh]. simpl in *.
  assert (i ∉ q) as Hnot.
  { intros [k Hk]%list_elem_of_lookup_1. destruct (Hq k i Hk) as (t & Hi' & Hqd).
    rewrite Hi in Hi'. by injection Hi' as <-. }
  split; [done|]. split; simpl.
  - apply NoDup_app. split_and!; [done| |apply NoDup_singleton].
    intros x Hx ->%list_elem_of_singleton. done.
  - done.
  - rewrite Hn, length_app. simpl. unfold u32. rewrite Zplus_mod_idemp_l. f_equal. lia.
  - intros k j Hk. apply lookup_app_Some in Hk as [Hk|[Hge Hk]].
    + destruct (Hq k j Hk) as (t & Hj & Hqd). exists t. split; [|done].
      rewrite list_lookup_insert_ne; [done|]. intros ->. apply Hnot. by eapply list_elem_of_lookup_2.
    + apply list_lookup_singleton_Some in Hk as [Hk <-].
      exists (TAcquiring (TWait (next s))). split.
      { apply list_lookup_insert_eq. by eapply lookup_lt_Some. }
      simpl. rewrite Hn. split; [f_equal; lia|]. intros ->. destruct b; [|done].
      destruct q; [by destruct (Hh eq_refl)|simpl in Hge; lia].
  - intros j t Hj Htk. apply elem_of_app. destruct (decide (i = j)) as [<-|]; [right; by apply list_elem_of_singleton|].
    rewrite list_lookup_insert_ne in Hj by done. left. by eapply Ht.
  - intros _ E. by destruct q.
Qed.

Lemma ticket_head serving k : fits 32 serving -> (Z.of_nat k < 2 ^ 32) -> serving = u32 (serving + Z.of_nat k) -> k = 0%nat.
Proof.
  intros Hs Hk E. destruct k as [|k]; [done|exfalso]. unfold u32, fits in *.
  rewrite <- (Z.mod_small serving (2 ^ 32)) in E at 1 by lia. revert E.
  destruct (Z.lt_ge_cases (serving + Z.of_nat (S k)) (2 ^ 32)).
  - rewrite !Z.mod_small by lia. lia.
  - rewrite (Z.mod_small serving) by lia.
    rewrite <- (Z.mod_unique_pos (serving + Z.of_nat (S k)) (2 ^ 32) 1
      (serving + Z.of_nat (S k) - 2 ^ 32)) by lia. lia.
Qed.

Lemma ticket_rel_enter s ls a i ticket :
  ticket_rel (s, ls) a -> Z.of_nat (length ls) <= 2 ^ 32 ->
  ls !! i = Some (TAcquiring (TWait ticket)) -> serving s = ticket ->
  exists q, a = (i :: q, false) /\ ticket_rel (s, <[i := TInside]> ls) (i :: q, true).
Proof.
  intros Hrel Hlen Hi Hsv. pose proof (queue_length _ _ Hrel) as Hql.
  destruct (queue_position _ _ i _ Hrel Hi eq_refl) as (k & Hk & Htk & Hin). simpl in *.
  apply lookup_lt_Some in Hk as Hkl. destruct a as [q b]. simpl in *.
  assert (k = 0%nat) as ->.
  { apply (ticket_head (serving s)); [apply Hrel|lia|congruence]. }
  specialize (Hin eq_refl). subst b. destruct q as [|i' q]; [done|]. injection Hk as ->.
  exists q. split; [done|]. destruct Hrel as [Hnd Hs Hn Hq Ht _].
  assert (i < length ls)%nat as Hil by (by eapply lookup_lt_Some).
  split; simpl in *; try done.
  - intros [|k] j Hj; simpl in Hj.
    + injection Hj as <-. exists TInside. by rewrite list_lookup_insert_eq.
    + destruct (Hq (S k) j Hj) as (t & Hj' & Hqd). exists t. rewrite list_lookup_insert_ne.
      * split; [done|]. by eapply queued_behind.
      * intros ->. apply NoDup_cons in Hnd as [Hnd _]. apply Hnd. by eapply list_elem_of_lookup_2.
  - intros j t Hj Htk'. destruct (decide (i = j)) as [<-|]; [by left|].
    rewrite list_lookup_insert_ne in Hj by done. by eapply Ht.
Qed.

Lemma ticket_rel_leave s ls a i :
  ticket_rel (s, ls) a -> ls !! i = Some TInside ->
  exists q, a = (i :: q, true) /\ ticket_rel (ticket_lock_release s, <[i := TOutside]> ls) (q, false).
Proof.
  intros Hrel Hi. destruct (queue_position _ _ i _ Hrel Hi eq_refl) as (k & Hk & -> & Hb).
  destruct a as [q b]. simpl in *. subst b. destruct q as [|i' q]; [done|]. injection Hk as ->.
  exists q. split; [done|]. destruct Hrel as [Hnd Hs Hn Hq Ht _]. simpl in *.
  apply NoDup_cons in Hnd as [Hnot Hnd]. split; simpl; try done.
  - apply u32_range.
  - rewrite Hn. unfold u32. rewrite Zplus_mod_idemp_l. f_equal. lia.
  - intros k j Hj. destruct (Hq (S k) j Hj) as (t & Hj' & Hqd). exists t.
    rewrite list_lookup_insert_ne by (intros ->; apply Hnot; by eapply list_elem_of_lookup_2).
    split; [done|]. by eapply queued_advance.
  - intros j t Hj Htk. destruct (decide (i = j)) as [<-|].
    + rewrite list_lookup_insert_eq in Hj by (by eapply lookup_lt_Some). by injection Hj as <-.
    + rewrite list_lookup_insert_ne in Hj by done. specialize (Ht j t Hj Htk).
      apply elem_of_cons in Ht as [->|]; done.
Qed.

Lemma ticket_simulation c a c' :
  ticket_rel c a -> Z.of_nat (length (snd c)) <= 2 ^ 32 -> sys_step ticket_step c c' ->
  exists a', ticket_rel c' a' /\ rtc fifo_step a a'.
Proof.
  intros Hrel Hlen Hstep. destruct Hstep as [i s l s' l' ls Hi Hstep]. destruct a as [q b].
  destruct Hstep as [s|s p s' p' H|s p s' H|s]; simpl in *.
  - exists (q, b). split; [|done]. by eapply ticket_rel_other.
  - destruct p as [|ticket]; simpl in H.
    + injection H as <- <-. destruct (ticket_rel_join s ls q b i Hrel Hi) as [Hnot Hrel'].
      exists (q ++ [i], b). split; [done|]. by apply rtc_once, fifo_join.
    + unfold atomic_u32_load in H. destruct (serving s =? ticket); simpl in H; simplify_eq.
      exists (q, b). rewrite list_insert_id by done. by split.
  - destruct p as [|ticket]; simpl in H; [done|].
    unfold atomic_u32_load in H. destruct (Z.eqb_spec (serving s) ticket) as [E|]; simpl in H; simplify_eq.
    destruct (ticket_rel_enter s' ls (q, b) i (serving s') Hrel Hlen Hi eq_refl) as (q' & [= -> ->] & Hrel').
    exists (i :: q', true). split; [done|]. apply rtc_once, fifo_enter.
  - destruct (ticket_rel_leave s ls (q, b) i Hrel Hi) as (q' & [= -> ->] & Hrel').
    exists (q', false). split; [done|]. apply rtc_once, fifo_leave.
Qed.

(** C37: [ticket_lock_acquire] and [ticket_lock_release] refine a FIFO queue.
    In every interleaving of up to 2^32 threads, wrap-around of the two 32-bit
    counters included, the lock is in a state of the queue specification:
    threads enter in the order in which they took their tickets, and a thread
    is inside exactly when it is the head of the queue and has been admitted,
    so at most one thread is inside. *)
Theorem ticket_lock_refines_fifo lock n s ls :
  Z.of_nat n <= 2 ^ 32 ->
  rtc (sys_step ticket_step) (ticket_lock_init lock, replicate n TOutside) (s, ls) ->
  exists q inside, rtc fifo_step ([], false) (q, inside) /\ ticket_rel (s, ls) (q, inside) /\
    (forall i, ls !! i = Some TInside <-> inside = true /\ head q = Some i).
Proof.
  intros Hn Hr.
  assert (exists a, (rtc fifo_step ([], false) a /\ ticket_rel (s, ls) a) /\
    Z.of_nat (length ls) <= 2 ^ 32) as ([q b] & [Hf Hrel] & _).
  { apply (sys_invariant ticket_step (fun c => exists a,
      (rtc fifo_step ([], false) a /\ ticket_rel c a) /\ Z.of_nat (length (snd c)) <= 2 ^ 32)) in Hr;
      [done| |].
    - exists ([], false). split_and!; [done| |by simpl; rewrite length_replicate].
      split; simpl; try done; [apply NoDup_nil_2|].
      intros i t [-> _]%lookup_replicate. done.
    - intros c c' (a & [Hf Hrel] & Hl) Hstep.
      destruct (ticket_simulation c a c' Hrel Hl Hstep) as (a' & Hrel' & Hf').
      exists a'. split_and!; [by etrans|done|].
      destruct Hstep as [i s1 l s' l' ls1 Hi Hs]. simpl in *. by rewrite length_insert. }
  exists q, b. split_and!; [done..|]. intros i. split.
  - intros Hi. destruct (queue_position _ _ i _ Hrel Hi eq_refl) as (k & Hk & -> & Hb).
    simpl in *. split; [done|]. by destruct q.
  - intros [-> Hh]. destruct q as [|i' q]; [done|]. injection Hh as ->.
    destruct (rel_queue _ _ Hrel 0%nat i eq_refl) as (t & Hi & Hq). simpl in *.
    destruct t as [|[]|]; simpl in Hq; [done|done| |done]. destruct Hq as [_ Hq]. by specialize (Hq eq_refl).
Qed.

(** One thread has taken ticket 0 and entered, a second waits. *)
Lemma ticket_lock_refines_fifo_witness :
  let ls := [TInside; TAcquiring (TWait 1)] in
  exists q inside, rtc fifo_step ([], false) (q, inside) /\
    ticket_rel (TicketLock 2 0, ls) (q, inside) /\
    (forall i, ls !! i = Some TInside <-> inside = true /\ head q = Some i).
Proof.
  intros ls. apply (ticket_lock_refines_fifo (TicketLock 0 0) 2 (TicketLock 2 0) ls); [done|].
  pose (t0 := TicketLock 0 0). pose (w k := TAcquiring (TWait k)). pose (f := TAcquiring TFetch).
  apply (rtc_l _ _ (t0, [f; TOutside])).
  { by apply (sys_one ticket_step 0 t0 TOutside t0 f [TOutside; TOutside]); [|apply ticket_call]. }
  apply (rtc_l _ _ (t0, [f; f])).
  { by apply (sys_one ticket_step 1 t0 TOutside t0 f [f; TOutside]); [|apply ticket_call]. }
  apply (rtc_l _ _ (TicketLock 1 0, [w 0; f])).
  { by apply (sys_one ticket_step 0 t0 f (TicketLock 1 0) (w 0) [f; f]); [|apply ticket_loop]. }
  apply (rtc_l _ _ (TicketLock 2 0, [w 0; w 1])).
  { by apply (sys_one ticket_step 1 (TicketLock 1 0) f (TicketLock 2 0) (w 1) [w 0; f]);
      [|apply ticket_loop]. }
  apply rtc_once.
  by apply (sys_one ticket_step 0 (TicketLock 2 0) (w 0) (TicketLock 2 0) TInside [w 0; w 1]);
    [|apply ticket_enter].
Defined.

(** ** Reader-writer lock *)

Inductive rw_thread :=
  | RwOutside
  | Reading (p : read_pc) | ReadInside
  | Writing (p : write_pc) | WriteInside.

Inductive rw_step : rwlock -> rw_thread -> rwlock -> rw_thread -> Prop :=
  | rw_call_read s : rw_step s RwOutside s (Reading RCheck)
  | rw_read_loop s p s' p' :
      rwlock_read_lock p s = (s', inl p') -> rw_step s (Reading p) s' (Reading p')
  | rw_read_enter s p s' :
      rwlock_read_lock p s = (s', inr tt) -> rw_step s (Reading p) s' ReadInside
  | rw_read_leave s : rw_step s ReadInside (rwlock_read_unlock s) RwOutside
  | rw_call_write s : rw_step s RwOutside s (Writing WCas)
  | rw_write_loop s p s' p' :
      rwlock_write_lock p s = (s', inl p') -> rw_step s (Writing p) s' (Writing p')
  | rw_write_enter s p s' :
      rwlock_write_lock p s = (s', inr tt) -> rw_step s (Writing p) s' WriteInside
  | rw_write_leave s : rw_step s WriteInside (rwlock_write_unlock s) RwOutside.

(** Threads counted by [readers], and threads that own [writer]. *)
Definition counted (t : rw_thread) : bool :=
  match t with Reading RRecheck | Reading RUndo | ReadInside => true | _ => false end.
Definition owns (t : rw_thread) : bool :=
  match t with Writing WDrain | WriteInside => true | _ => false end.
Definition reads (t : rw_thread) : bool := match t with ReadInside => true | _ => false end.
Definition writes (t : rw_thread) : bool := match t with WriteInside => true | _ => false end.

Definition rw_inv (c : rwlock * list rw_thread) : Prop :=
  let '(s, ls) := c in
  readers s = nthreads counted ls /\ writer s = nthreads owns ls /\ writer s <= 1 /\
  Z.of_nat (length ls) < 2 ^ 32 /\ (nthreads writes ls = 0 \/ nthreads reads ls = 0).

Lemma fetch_add_dec x : 0 < x < 2 ^ 32 -> u32 (x + MINUS_ONE) = x - 1.
Proof.
  intros Hx. unfold MINUS_ONE. change (u32 (-1)) with (2 ^ 32 - 1). unfold u32.
  replace (x + (2 ^ 32 - 1)) with (x - 1 + 1 * 2 ^ 32) by lia.
  rewrite Z.mod_add by done. apply Z.mod_small. lia.
Qed.

Lemma nthreads_mono {L} (f g : L -> bool) ls :
  (forall l, f l = true -> g l = true) -> nthreads f ls <= nthreads g ls.
Proof.
  intros H. induction ls as [|x ls IH]; simpl; [lia|].
  specialize (H x). destruct (f x), (g x); simpl; lia.
Qed.

Lemma reads_counted l : reads l = true -> counted l = true.
Proof. by destruct l as [|[]| |[]|]. Qed.

Lemma writes_owns l : writes l = true -> owns l = true.
Proof. by destruct l as [|[]| |[]|]. Qed.

Lemma rw_inv_step c c' : rw_inv c -> sys_step rw_step c c' -> rw_inv c'.
Proof.
  intros Hinv Hstep. destruct Hstep as [i s l s' l' ls Hi Hstep].
  destruct Hinv as (Hr & Hw & Hw1 & Hn & Hx). unfold rw_inv. rewrite length_insert.
  rewrite !(nthreads_insert _ ls i l l' Hi).
  pose proof (nthreads_range counted ls). pose proof (nthreads_range owns ls).
  pose proof (nthreads_range reads ls). pose proof (nthreads_range writes ls).
  pose proof (nthreads_mono reads counted ls reads_counted).
  pose proof (nthreads_mono writes owns ls writes_owns).
  pose proof (nthreads_pos counted ls i l Hi) as Hpc. pose proof (nthreads_pos owns ls i l Hi) as Hpo.
  pose proof (nthreads_pos reads ls i l Hi) as Hpr. pose proof (nthreads_pos writes ls i l Hi) as Hpw.
  destruct Hstep as [s|s p s' p' H'|s p s' H'|s|s|s p s' p' H'|s p s' H'|s].
  - simpl. lia.
  - destruct p; simpl in H'; unfold atomic_u32_load in H'.
    + simplify_eq. destruct (negb _); simpl; lia.
    + simplify_eq. pose proof (nthreads_not_all counted ls i _ Hi eq_refl).
      simpl. rewrite u32_small by (unfold fits; lia). lia.
    + destruct (writer s =? 0); simplify_eq. simpl. lia.
    + simplify_eq. specialize (Hpc eq_refl). cbn [readers writer]. rewrite fetch_add_dec by lia.
      simpl. lia.
  - destruct p; simpl in H'; unfold atomic_u32_load in H'; try done.
    destruct (Z.eqb_spec (writer s) 0); simplify_eq; simpl in *; lia.
  - specialize (Hpc eq_refl). specialize (Hpr eq_refl). simpl.
    rewrite fetch_add_dec by lia. simpl. lia.
  - simpl. lia.
  - destruct p; simpl in H'; unfold atomic_u32_load, atomic_u32_compare_exchange in H'.
    + destruct (Z.eqb_spec (writer s) 0); simplify_eq; simpl in *; lia.
    + destruct (negb _); simplify_eq; simpl in *; lia.
  - destruct p; simpl in H'; unfold atomic_u32_load, atomic_u32_compare_exchange in H'.
    + destruct (writer s =? 0); simplify_eq.
    + destruct (Z.eqb_spec (readers s) 0); simplify_eq; simpl in *; lia.
  - specialize (Hpo eq_refl). specialize (Hpw eq_refl). cbn [rwlock_write_unlock readers writer].
    change (atomic_u32_store (writer s) 0) with 0. simpl. lia.
Qed.

(** C38: the reader-writer lock.  In every interleaving of fewer than 2^32
    threads, a writer inside excludes every other writer and every reader. *)
Theorem rwlock_exclusion lock n s ls i j :
  Z.of_nat n < 2 ^ 32 ->
  rtc (sys_step rw_step) (rwlock_init lock, replicate n RwOutside) (s, ls) ->
  ls !! i = Some WriteInside ->
  ls !! j <> Some ReadInside /\ (ls !! j = Some WriteInside -> i = j).
Proof.
  intros Hn Hr Hi.
  apply (sys_invariant rw_step rw_inv) in Hr as (_ & Hw & Hw1 & _ & Hx); [| |exact rw_inv_step].
  2:{ simpl. rewrite length_replicate, !nthreads_replicate by done. repeat split; (done || lia). }
  split.
  - intros Hj. pose proof (nthreads_pos writes ls i _ Hi eq_refl).
    pose proof (nthreads_pos reads ls j _ Hj eq_refl). lia.
  - intros Hj. by apply (nthreads_unique owns ls i j WriteInside WriteInside); [lia|..].
Qed.

Lemma rwlock_exclusion_witness :
  let ls := [WriteInside; Reading RCheck] in
  ls !! 1%nat <> Some ReadInside /\ (ls !! 1%nat = Some WriteInside -> 0%nat = 1%nat).
Proof.
  intros ls. apply (rwlock_exclusion (RwLock 0 0) 2 (RwLock 0 1) ls 0 1); [done| |done].
  pose (z := RwLock 0 0). pose (w := RwLock 0 1). pose (r := Reading RCheck).
  apply (rtc_l _ _ (z, [Writing WCas; RwOutside])).
  { by apply (sys_one rw_step 0 z RwOutside z (Writing WCas) [RwOutside; RwOutside]);
      [|apply rw_call_write]. }
  apply (rtc_l _ _ (w, [Writing WDrain; RwOutside])).
  { by apply (sys_one rw_step 0 z (Writing WCas) w (Writing WDrain) [Writing WCas; RwOutside]);
      [|apply rw_write_loop]. }
  apply (rtc_l _ _ (w, [Writing WDrain; r])).
  { by apply (sys_one rw_step 1 w RwOutside w r [Writing WDrain; RwOutside]); [|apply rw_call_read]. }
  apply rtc_once. by apply (sys_one rw_step 0 w (Writing WDrain) w WriteInside [Writing WDrain; r]);
    [|apply rw_write_enter].
Defined.

(** ** Semaphore *)

Inductive sem_thread := SOutside | SWaiting (p : try_pc) | STrying (p : try_pc) | SHolding.

Inductive sem_step : Z -> sem_thread -> Z -> sem_thread -> Prop :=
  | sem_call s : sem_step s SOutside s (SWaiting SLoad)
  | sem_loop s p s' p' : semaphore_wait p s = (s', inl p') -> sem_step s (SWaiting p) s' (SWaiting p')
  | sem_enter s p s' : semaphore_wait p s = (s', inr tt) -> sem_step s (SWaiting p) s' SHolding
  | sem_try s : sem_step s SOutside s (STrying SLoad)
  | sem_try_loop s p s' p' :
      semaphore_try_wait p s = (s', inl p') -> sem_step s (STrying p) s' (STrying p')
  | sem_try_end s p s' (ok : bool) :
      semaphore_try_wait p s = (s', inr ok) ->
      sem_step s (STrying p) s' (if ok then SHolding else SOutside)
  | sem_leave s : sem_step s SHolding (semaphore_signal s) SOutside.

Definition holds (t : sem_thread) : bool := match t with SHolding => true | _ => false end.

(** A thread never tries to exchange a count it saw as 0. *)
Definition seen_positive (t : sem_thread) : Prop :=
  match t with SWaiting (SCas k) | STrying (SCas k) => k <> 0 | _ => True end.

Definition sem_inv (count : Z) (c : Z * list sem_thread) : Prop :=
  fst c + nthreads holds (snd c) = count /\ 0 <= fst c /\ Forall seen_positive (snd c).

(** One step of the shared part: what [semaphore_try_wait] does to the count. *)
Lemma try_wait_step p s s' r :
  0 <= s < 2 ^ 32 -> (forall k, p = SCas k -> k <> 0) -> semaphore_try_wait p s = (s', r) ->
  match r with
  | inl (SCas k) => s' = s /\ k <> 0
  | inl SLoad => s' = s
  | inr ok => s' = s - Z.b2z ok /\ 0 <= s'
  end.
Proof.
  intros Hs Hp H. destruct p as [|k]; simpl in H; unfold atomic_u32_load, atomic_u32_compare_exchange in H.
  - destruct (Z.eqb_spec s 0); simplify_eq; simpl; [lia|done].
  - specialize (Hp k eq_refl). destruct (Z.eqb_spec s k); simplify_eq; simpl; [|done].
    rewrite u32_small by (unfold fits; lia). lia.
Qed.

Lemma sem_inv_step count c c' :
  count < 2 ^ 32 -> sem_inv count c -> sys_step sem_step c c' -> sem_inv count c'.
Proof.
  intros Hcount Hinv Hstep. destruct Hstep as [i s l s' l' ls Hi Hstep].
  destruct Hinv as (Hc & H0 & Hf). simpl in *. pose proof (nthreads_range holds ls).
  pose proof (nthreads_pos holds ls i l Hi) as Hp.
  assert (seen_positive l) as Hl by (by eapply Forall_lookup_1).
  unfold sem_inv. simpl. rewrite (nthreads_insert holds ls i l l' Hi).
  assert (s' + Z.b2z (holds l') = s + Z.b2z (holds l) /\ 0 <= s' /\ seen_positive l')
    as (E & ? & ?); [|split_and!; [lia..|by apply Forall_insert]].
  destruct Hstep as [s|s p s' p' H'|s p s' H'|s|s p s' p' H'|s p s' ok H'|s].
  - done.
  - unfold semaphore_wait in H'. destruct (semaphore_try_wait p s) as [s1 r] eqn:Ht.
    apply try_wait_step in Ht; [|lia|by intros k ->].
    destruct r as [[|k]|[]]; simplify_eq; simpl in *; (split_and!; (done || lia || tauto)).
  - unfold semaphore_wait in H'. destruct (semaphore_try_wait p s) as [s1 r] eqn:Ht.
    apply try_wait_step in Ht; [|lia|by intros k ->].
    destruct r as [[|k]|[]]; simplify_eq; simpl in *; (split_and!; (done || lia)).
  - done.
  - apply try_wait_step in H'; [|lia|by intros k ->].
    destruct p' as [|k]; simpl in *; (split_and!; (done || lia || tauto)).
  - apply try_wait_step in H'; [|lia|by intros k ->].
    destruct ok; simpl in *; (split_and!; (done || lia)).
  - specialize (Hp eq_refl). unfold semaphore_signal. simpl in *.
    rewrite u32_small by (unfold fits; lia). split_and!; (done || lia).
Qed.

(** The semaphore.  A semaphore initialised with [count] admits at most
    [count] threads at a time, in every interleaving of waits, try-waits and
    signals by threads that hold a permit; permits are neither lost nor
    duplicated. *)
Theorem semaphore_bound count n s ls :
  fits 32 count ->
  rtc (sys_step sem_step) (semaphore_init count, replicate n SOutside) (s, ls) ->
  s + nthreads holds ls = count /\ 0 <= s /\ nthreads holds ls <= count.
Proof.
  intros Hc Hr. unfold fits in Hc.
  apply (sys_invariant sem_step (sem_inv count)) in Hr as (H1 & H2 & _).
  - simpl in *. lia.
  - unfold sem_inv. simpl. rewrite nthreads_replicate by done.
    unfold semaphore_init, atomic_u32_store. rewrite u32_small by done.
    split_and!; [lia..|]. by apply Forall_replicate.
  - intros c c'. apply sem_inv_step. lia.
Qed.

Lemma semaphore_bound_witness :
  let ls := [SHolding; SOutside] in 0 + nthreads holds ls = 1 /\ 0 <= 0 /\ nthreads holds ls <= 1.
Proof.
  intros ls. apply (semaphore_bound 1 2 0 ls); [by split|].
  apply (rtc_l _ _ (1, [SWaiting SLoad; SOutside])).
  { by apply (sys_one sem_step 0 1 SOutside 1 (SWaiting SLoad) [SOutside; SOutside]); [|apply sem_call]. }
  apply (rtc_l _ _ (1, [SWaiting (SCas 1); SOutside])).
  { by apply (sys_one sem_step 0 1 (SWaiting SLoad) 1 (SWaiting (SCas 1)) [SWaiting SLoad; SOutside]);
      [|apply sem_loop]. }
  apply rtc_once.
  by apply (sys_one sem_step 0 1 (SWaiting (SCas 1)) 0 SHolding [SWaiting (SCas 1); SOutside]);
    [|apply sem_enter].
Defined.

(** [completion_complete] after [completion_complete_all] adds 1 to the
    all-ones mark: the completion is empty again and a waiter is refused. *)
Lemma completion_complete_after_all done :
  let state := completion_complete (completion_complete_all done) in
  state = 0 /\ alone completion_try_wait SLoad state = Some (0, false).
Proof. split; reflexivity. Qed.

(** ** Sequence lock *)

(** Data of two words protected by the lock.  [version] is the number of
    increments of the sequence word so far, a ghost counter the code does not
    have; readers remember the version at which they began. *)
Record seq_state := SeqState { slock : seqlock; word1 : Z; word2 : Z; version : Z }.

Inductive seq_thread :=
  | SeqOutside
  | SeqLocking (p : seq_write_pc) (v : Z) | SeqWrite1 (v : Z) | SeqWrite2 (v : Z)
  | SeqUnlocking (p : seq_unlock_pc)
  | SeqBegin | SeqRead1 (seq ver : Z) | SeqRead2 (seq ver x : Z) | SeqCheck (seq ver x y : Z)
  | SeqAccepted (passed x y : Z).

Definition set_lock (s : seq_state) (l : seqlock) (bump : Z) : seq_state :=
  SeqState l (word1 s) (word2 s) (version s + bump).

Inductive seq_step : seq_state -> seq_thread -> seq_state -> seq_thread -> Prop :=
  | seq_call_write s v : seq_step s SeqOutside s (SeqLocking (QLock LCas) v)
  | seq_lock_loop s p v l p' :
      seqlock_write_lock p (slock s) = (l, inl p') ->
      seq_step s (SeqLocking p v) (set_lock s l 0) (SeqLocking p' v)
  | seq_lock_enter s p v l :
      seqlock_write_lock p (slock s) = (l, inr tt) ->
      seq_step s (SeqLocking p v) (set_lock s l 1) (SeqWrite1 v)
  | seq_write1 s v : seq_step s (SeqWrite1 v) (SeqState (slock s) v (word2 s) (version s)) (SeqWrite2 v)
  | seq_write2 s v :
      seq_step s (SeqWrite2 v) (SeqState (slock s) (word1 s) v (version s)) (SeqUnlocking QBump)
  | seq_unlock_loop s p l p' :
      seqlock_write_unlock p (slock s) = (l, inl p') ->
      seq_step s (SeqUnlocking p) (set_lock s l 1) (SeqUnlocking p')
  | seq_unlock_leave s p l :
      seqlock_write_unlock p (slock s) = (l, inr tt) ->
      seq_step s (SeqUnlocking p) (set_lock s l 0) SeqOutside
  | seq_call_read s : seq_step s SeqOutside s SeqBegin
  | seq_begin_loop s : seqlock_read_begin tt (slock s) = (slock s, inl tt) -> seq_step s SeqBegin s SeqBegin
  | seq_begin_end s seq :
      seqlock_read_begin tt (slock s) = (slock s, inr seq) ->
      seq_step s SeqBegin s (SeqRead1 seq (version s))
  | seq_read1 s seq ver : seq_step s (SeqRead1 seq ver) s (SeqRead2 seq ver (word1 s))
  | seq_read2 s seq ver x : seq_step s (SeqRead2 seq ver x) s (SeqCheck seq ver x (word2 s))
  | seq_retry s seq ver x y :
      seqlock_read_retry (slock s) seq = true -> seq_step s (SeqCheck seq ver x y) s SeqBegin
  | seq_accept s seq ver x y :
      seqlock_read_retry (slock s) seq = false -> seq_step s (SeqCheck seq ver x y) s (SeqAccepted (version s - ver) x y).

(** Threads that own the writer lock; that hold an odd version; that have not
    finished writing both words. *)
Definition seq_owns (t : seq_thread) : bool :=
  match t with SeqLocking QAdd _ | SeqWrite1 _ | SeqWrite2 _ | SeqUnlocking _ => true | _ => false end.
Definition seq_mid (t : seq_thread) : bool :=
  match t with SeqWrite1 _ | SeqWrite2 _ | SeqUnlocking QBump => true | _ => false end.
Definition seq_dirty (t : seq_thread) : bool :=
  match t with SeqWrite1 _ | SeqWrite2 _ => true | _ => false end.

(** What a thread knows. *)
Definition seq_knows (s : seq_state) (t : seq_thread) : Prop :=
  match t with
  | SeqWrite2 v => word1 s = v
  | SeqRead1 seq ver => seq = u32 ver /\ ver <= version s /\ ver mod 2 = 0
  | SeqRead2 seq ver x =>
      seq = u32 ver /\ ver <= version s /\ ver mod 2 = 0 /\ (version s = ver -> x = word1 s)
  | SeqCheck seq ver x y =>
      seq = u32 ver /\ ver <= version s /\ ver mod 2 = 0 /\
      (version s = ver -> x = word1 s /\ y = word2 s)
  | SeqAccepted passed x y => passed mod 2 ^ 32 = 0 /\ (passed = 0 -> x = y)
  | _ => True
  end.

Record seq_inv (c : seq_state * list seq_thread) : Prop := {
  seq_word : sequence (slock (fst c)) = u32 (version (fst c)) /\ 0 <= version (fst c);
  seq_own : seq_writer (slock (fst c)) = nthreads seq_owns (snd c) /\ seq_writer (slock (fst c)) <= 1;
  seq_parity : version (fst c) mod 2 = nthreads seq_mid (snd c);
  seq_data : nthreads seq_dirty (snd c) = 0 -> word1 (fst c) = word2 (fst c);
  seq_local : forall i t, snd c !! i = Some t -> seq_knows (fst c) t;
}.

(** Knowledge survives a step that keeps the words, or that a writer makes
    while the version is odd. *)
Lemma seq_knows_stable s s' t :
  seq_knows s t -> version s <= version s' ->
  (version s' = version s -> version s mod 2 = 0 -> word1 s' = word1 s /\ word2 s' = word2 s) ->
  (seq_mid t = true -> word1 s' = word1 s) -> seq_knows s' t.
Proof.
  intros Hk Hv Hw Hm. destruct t as [|p v|v|v|p| |seq ver|seq ver x|seq ver x y|passed x y]; simpl in *; try done.
  - by rewrite Hm.
  - lia.
  - destruct Hk as (-> & Hle & He & Hx). split_and!; [done|lia|done|]. intros E.
    destruct Hw as [-> _]; [lia|congruence || (replace (version s) with ver by lia; done)|].
    apply Hx. lia.
  - destruct Hk as (-> & Hle & He & Hx). split_and!; [done|lia|done|]. intros E.
    destruct Hw as [-> ->]; [lia|replace (version s) with ver by lia; done|]. apply Hx. lia.
Qed.

Lemma seq_local_step s ls i l s' l' :
  seq_inv (s, ls) -> ls !! i = Some l -> version s <= version s' -> seq_knows s' l' ->
  (version s' = version s -> version s mod 2 = 0 -> word1 s' = word1 s /\ word2 s' = word2 s) ->
  (word1 s' = word1 s \/ seq_mid l = true) ->
  forall j t, <[i := l']> ls !! j = Some t -> seq_knows s' t.
Proof.
  intros [_ _ Hpar _ Hloc] Hi Hv Hl' Hw Hm j t Hj. simpl in *.
  destruct (decide (i = j)) as [<-|Hne].
  - rewrite list_lookup_insert_eq in Hj by (by eapply lookup_lt_Some). by injection Hj as <-.
  - rewrite list_lookup_insert_ne in Hj by done.
    apply (seq_knows_stable s); [by eapply Hloc|done..|].
    intros Ht. destruct Hm as [|Hm]; [done|]. exfalso. apply Hne.
    apply (nthreads_unique seq_mid ls i j l t); [|done..].
    pose proof (Z.mod_pos_bound (version s) 2). lia.
Qed.

Lemma mod2_succ v : (v + 1) mod 2 = 1 - v mod 2.
Proof. divlia. Qed.

Lemma dirty_mid l : seq_dirty l = true -> seq_mid l = true.
Proof. by destruct l as [|[]| | |[]| | | | |]. Qed.
Lemma mid_owns l : seq_mid l = true -> seq_owns l = true.
Proof. by destruct l as [|[]| | |[]| | | | |]. Qed.

(** A step that keeps the words and the version. *)
Lemma seq_inv_quiet s ls i l lk l' :
  seq_inv (s, ls) -> ls !! i = Some l -> sequence lk = sequence (slock s) ->
  seq_writer lk = seq_writer (slock s) - Z.b2z (seq_owns l) + Z.b2z (seq_owns l') ->
  seq_writer lk <= 1 -> seq_mid l' = seq_mid l -> seq_dirty l' = seq_dirty l ->
  seq_knows (set_lock s lk 0) l' -> seq_inv (set_lock s lk 0, <[i := l']> ls).
Proof.
  intros Hinv Hi Hsq Hw Hw1 Hmid Hdirty Hk. pose proof Hinv as [[Hseq Hv] [Hown Hown1] Hpar Hdata Hloc].
  simpl in *. split; simpl; rewrite ?Z.add_0_r.
  - by rewrite Hsq.
  - rewrite (nthreads_insert seq_owns ls i l l' Hi). lia.
  - rewrite (nthreads_insert seq_mid ls i l l' Hi), Hmid. lia.
  - rewrite (nthreads_insert seq_dirty ls i l l' Hi), Hdirty. intros H0. apply Hdata. lia.
  - eapply seq_local_step; simpl; eauto; lia.
Qed.

(** A step of a writer that increments the sequence. *)
Lemma seq_inv_bump s ls i l l' lk :
  seq_inv (s, ls) -> ls !! i = Some l -> sequence lk = u32 (sequence (slock s) + 1) ->
  seq_writer lk = seq_writer (slock s) -> seq_owns l = true -> seq_owns l' = true ->
  seq_mid l' = negb (seq_mid l) -> nthreads seq_mid ls = Z.b2z (seq_mid l) ->
  seq_dirty l = false -> (seq_dirty l' = true \/ seq_dirty l' = false) ->
  seq_knows (set_lock s lk 1) l' -> seq_inv (set_lock s lk 1, <[i := l']> ls).
Proof.
  intros Hinv Hi Hsq Hw Ho Ho' Hmid Hmids Hd Hd' Hk.
  pose proof Hinv as [[Hseq Hv] [Hown Hown1] Hpar Hdata Hloc]. simpl in *. split; simpl.
  - rewrite Hsq, Hseq. unfold u32. rewrite Zplus_mod_idemp_l. split; [done|lia].
  - rewrite (nthreads_insert seq_owns ls i l l' Hi), Ho, Ho'. lia.
  - rewrite (nthreads_insert seq_mid ls i l l' Hi), Hmid, mod2_succ, Hpar, Hmids.
    destruct (seq_mid l); done.
  - rewrite (nthreads_insert seq_dirty ls i l l' Hi), Hd. intros H0. apply Hdata.
    pose proof (nthreads_range seq_dirty ls). destruct (seq_dirty l'); simpl in H0; lia.
  - eapply seq_local_step; simpl; eauto; try lia.
Qed.

(** A thread that owns the lock is the only one; the others are not in the
    middle of a write. *)
Lemma seq_sole_owner s ls i l :
  seq_inv (s, ls) -> ls !! i = Some l -> seq_owns l = true -> nthreads seq_mid ls = Z.b2z (seq_mid l).
Proof.
  intros [_ [Hown Hown1] _ _ _] Hi Ho. simpl in *.
  assert (nthreads seq_mid (<[i := SeqOutside]> ls) = 0) as H0.
  { apply nthreads_none. intros j t Hj. destruct (seq_mid t) eqn:Ht; [|done]. exfalso.
    destruct (decide (i = j)) as [<-|Hne].
    - rewrite list_lookup_insert_eq in Hj by (by eapply lookup_lt_Some). by injection Hj as <-.
    - rewrite list_lookup_insert_ne in Hj by done. apply Hne.
      apply (nthreads_unique seq_owns ls i j l t); [lia|done..|by apply mid_owns]. }
  rewrite (nthreads_insert seq_mid ls i l SeqOutside Hi) in H0. simpl in H0. lia.
Qed.

(** A writer stores one word. *)
Lemma seq_inv_store s ls i l l' w1 w2 :
  seq_inv (s, ls) -> ls !! i = Some l -> seq_mid l = true -> seq_mid l' = true ->
  seq_owns l = true -> seq_owns l' = true -> (seq_dirty l' = false -> w1 = w2) ->
  let s' := SeqState (slock s) w1 w2 (version s) in
  seq_knows s' l' -> seq_inv (s', <[i := l']> ls).
Proof.
  intros Hinv Hi Hm Hm' Ho Ho' Hd s' Hk.
  pose proof (seq_sole_owner s ls i l Hinv Hi Ho) as Hsole.
  pose proof Hinv as [[Hseq Hv] [Hown Hown1] Hpar Hdata Hloc]. simpl in *. rewrite Hm in Hsole. simpl in Hsole.
  split; simpl; [done| | | |].
  - rewrite (nthreads_insert seq_owns ls i l l' Hi), Ho, Ho'. lia.
  - rewrite (nthreads_insert seq_mid ls i l l' Hi), Hm, Hm'. lia.
  - intros H0. apply Hd. destruct (seq_dirty l') eqn:E; [|done]. exfalso.
    pose proof (nthreads_pos seq_dirty (<[i:=l']> ls) i l'). rewrite list_lookup_insert_eq in H
      by (by eapply lookup_lt_Some). specialize (H eq_refl E). lia.
  - eapply seq_local_step; simpl; eauto; [lia|]. intros _ He. rewrite Hpar, Hsole in He. done.
Qed.

Lemma seq_inv_step c c' : seq_inv c -> sys_step seq_step c c' -> seq_inv c'.
Proof.
  intros Hinv Hstep. destruct Hstep as [i s l s' l' ls Hi Hstep].
  assert (forall l', seq_mid l' = seq_mid l -> seq_dirty l' = seq_dirty l -> seq_owns l' = seq_owns l ->
    seq_knows s l' -> seq_inv (s, <[i := l']> ls)) as Hquiet.
  { intros l1 H1 H2 H3 Hk. pose proof (seq_inv_quiet s ls i l (slock s) l1 Hinv Hi) as Hq.
    unfold set_lock in Hq. destruct s as [lk a b v]. simpl in *. rewrite Z.add_0_r in Hq.
    apply Hq; try done; [rewrite H3; lia|apply Hinv]. }
  assert (seq_knows s l) as Hkl by (by eapply (seq_local _ Hinv)).
  destruct Hstep as [s v|s p v lk p' H|s p v lk H|s v|s v|s p lk p' H|s p lk H|s|s H|s seq H
                    |s seq ver|s seq ver x|s seq ver x y H|s seq ver x y H].
  - by apply Hquiet.
  - destruct p as [p|]; simpl in H; [|done].
    pose proof (seq_own _ Hinv) as [Hown Hown1]. simpl in Hown, Hown1.
    destruct p; simpl in H; unfold atomic_u32_compare_exchange, atomic_u32_load in H.
    + destruct (Z.eqb_spec (seq_writer (slock s)) 0); simplify_eq;
        apply (seq_inv_quiet s ls i _ _ _ Hinv Hi); simpl; (done || lia).
    + destruct (negb _); simplify_eq;
        apply (seq_inv_quiet s ls i _ _ _ Hinv Hi); simpl; (done || lia).
  - destruct p as [p|]; simpl in H; [by destruct (spinlock_lock p _)|]. simplify_eq.
    apply (seq_inv_bump s ls i (SeqLocking QAdd v)); try done; [by eapply seq_sole_owner|by left].
  - apply (seq_inv_store s ls i (SeqWrite1 v)); try done.
  - apply (seq_inv_store s ls i (SeqWrite2 v)); try done.
  - destruct p; simpl in H; simplify_eq.
    apply (seq_inv_bump s ls i (SeqUnlocking QBump)); try done; [by eapply seq_sole_owner|by right].
  - destruct p; simpl in H; simplify_eq. pose proof (seq_own _ Hinv) as [Hown Hown1].
    pose proof (nthreads_pos seq_owns ls i _ Hi eq_refl). simpl in Hown, Hown1.
    apply (seq_inv_quiet s ls i _ _ _ Hinv Hi); simpl; try done. change (spinlock_unlock _) with 0. lia.
  - by apply Hquiet.
  - by apply Hquiet.
  - apply Hquiet; try done. pose proof (seq_word _ Hinv) as [Hsq Hv]. simpl in Hsq, Hv.
    unfold seqlock_read_begin, atomic_u32_load in H. rewrite Hsq, land_1 in H.
    destruct (Z.eqb_spec (u32 (version s) mod 2) 0) as [E|]; simpl in H; simplify_eq. simpl.
    split_and!; [done|lia|]. unfold u32 in E. revert E. clear. divlia.
  - apply Hquiet; try done. destruct Hkl as (? & ? & ?). by repeat split.
  - apply Hquiet; try done. destruct Hkl as (? & ? & ? & Hx). split_and!; try done.
    intros E. split; [by apply Hx|done].
  - by apply Hquiet.
  - apply Hquiet; try done. destruct Hkl as (-> & Hle & He & Hx). simpl.
    pose proof (seq_word _ Hinv) as [Hsq Hv]. simpl in Hsq, Hv.
    unfold seqlock_read_retry, atomic_u32_load in H. rewrite Hsq in H.
    apply negb_false_iff, Z.eqb_eq in H.
    split; [revert H; unfold u32; change (2 ^ 32) with 4294967296; clear; divlia|].
    intros E0. assert (version s = ver) as E by lia. destruct (Hx E) as [-> ->]. apply (seq_data _ Hinv). simpl.
    pose proof (seq_parity _ Hinv) as Hpar. simpl in Hpar. rewrite E, He in Hpar.
    pose proof (nthreads_mono seq_dirty seq_mid ls dirty_mid). pose proof (nthreads_range seq_dirty ls). lia.
Qed.

(** C39: the sequence lock.  In every interleaving of readers and writers that
    update both protected words, a reader whose [seqlock_read_retry] asks for
    no retry, and during whose read the sequence was incremented fewer than 2^32
    times ([passed] counts them), has read the two words of one and the same
    version, never a mix of two updates; no write began or ended in between.
    The code cannot notice a complete turn of its 32-bit sequence. *)
Theorem seqlock_consistent_reads lock w n s ls i passed x y :
  rtc (sys_step seq_step) (SeqState (seqlock_init lock) w w 0, replicate n SeqOutside) (s, ls) ->
  ls !! i = Some (SeqAccepted passed x y) -> 0 <= passed < 2 ^ 32 -> passed = 0 /\ x = y.
Proof.
  intros Hr Hi Hp. apply (sys_invariant seq_step seq_inv) in Hr; [| |exact seq_inv_step].
  - apply (seq_local _ Hr i) in Hi as [Hm Hx]. rewrite Z.mod_small in Hm by done. auto.
  - split; simpl; rewrite ?nthreads_replicate by done; try done.
    intros j t [-> _]%lookup_replicate. done.
Qed.

(** A reader starts, a writer updates both words between its two reads, and
    the reader has to read again. *)
Definition seq_demo (w : Z) : seq_state := SeqState (seqlock_init (SeqLock 0 0)) w w 0.

Lemma seq_demo_step i s l s' l' ls ls' : ls !! i = Some l -> seq_step s l s' l' -> ls' = <[i := l']> ls -> sys_step seq_step (s, ls) (s', ls').
Proof. intros Hi Hs ->. by apply (sys_one seq_step i s l). Qed.

Lemma seqlock_consistent_reads_witness :
  exists s, rtc (sys_step seq_step) (seq_demo 7, [SeqOutside; SeqOutside]) (s, [SeqAccepted 0 9 9; SeqOutside]) /\ version s = 2 /\ 0 = 0 /\ 9 = 9.
Proof.
  pose (s1 := SeqState (SeqLock 0 1) 7 7 0). pose (s2 := SeqState (SeqLock 1 1) 7 7 1). pose (s3 := SeqState (SeqLock 1 1) 9 7 1).
  pose (s4 := SeqState (SeqLock 1 1) 9 9 1). pose (s5 := SeqState (SeqLock 2 1) 9 9 2). pose (s6 := SeqState (SeqLock 2 0) 9 9 2).
  assert (rtc (sys_step seq_step) (seq_demo 7, [SeqOutside; SeqOutside]) (s6, [SeqAccepted 0 9 9; SeqOutside])) as Hr.
  { apply (rtc_l _ _ (seq_demo 7, [SeqBegin; SeqOutside])); [eapply (seq_demo_step 0); [reflexivity|apply seq_call_read|reflexivity]|].
    apply (rtc_l _ _ (seq_demo 7, [SeqRead1 0 0; SeqOutside])); [eapply (seq_demo_step 0); [reflexivity|by apply seq_begin_end|reflexivity]|].
    apply (rtc_l _ _ (seq_demo 7, [SeqRead2 0 0 7; SeqOutside])); [eapply (seq_demo_step 0); [reflexivity|apply seq_read1|reflexivity]|].
    apply (rtc_l _ _ (seq_demo 7, [SeqRead2 0 0 7; SeqLocking (QLock LCas) 9])); [eapply (seq_demo_step 1); [reflexivity|apply seq_call_write|reflexivity]|].
    apply (rtc_l _ _ (s1, [SeqRead2 0 0 7; SeqLocking QAdd 9])); [eapply (seq_demo_step 1); [reflexivity|by apply (seq_lock_loop (seq_demo 7) _ 9 (SeqLock 0 1))|reflexivity]|].
    apply (rtc_l _ _ (s2, [SeqRead2 0 0 7; SeqWrite1 9])); [eapply (seq_demo_step 1); [reflexivity|by apply (seq_lock_enter s1 _ 9 (SeqLock 1 1))|reflexivity]|].
    apply (rtc_l _ _ (s3, [SeqRead2 0 0 7; SeqWrite2 9])); [eapply (seq_demo_step 1); [reflexivity|apply (seq_write1 s2)|reflexivity]|].
    apply (rtc_l _ _ (s4, [SeqRead2 0 0 7; SeqUnlocking QBump])); [eapply (seq_demo_step 1); [reflexivity|apply (seq_write2 s3)|reflexivity]|].
    apply (rtc_l _ _ (s4, [SeqCheck 0 0 7 9; SeqUnlocking QBump])); [eapply (seq_demo_step 0); [reflexivity|apply (seq_read2 s4)|reflexivity]|].
    apply (rtc_l _ _ (s5, [SeqCheck 0 0 7 9; SeqUnlocking QUnlock])); [eapply (seq_demo_step 1); [reflexivity|by apply (seq_unlock_loop s4 _ (SeqLock 2 1))|reflexivity]|].
    apply (rtc_l _ _ (s6, [SeqCheck 0 0 7 9; SeqOutside])); [eapply (seq_demo_step 1); [reflexivity|by apply (seq_unlock_leave s5 _ (SeqLock 2 0))|reflexivity]|].
    apply (rtc_l _ _ (s6, [SeqBegin; SeqOutside])); [eapply (seq_demo_step 0); [reflexivity|by apply seq_retry|reflexivity]|].
    apply (rtc_l _ _ (s6, [SeqRead1 2 2; SeqOutside])); [eapply (seq_demo_step 0); [reflexivity|by apply (seq_begin_end s6 2)|reflexivity]|].
    apply (rtc_l _ _ (s6, [SeqRead2 2 2 9; SeqOutside])); [eapply (seq_demo_step 0); [reflexivity|apply (seq_read1 s6)|reflexivity]|].
    apply (rtc_l _ _ (s6, [SeqCheck 2 2 9 9; SeqOutside])); [eapply (seq_demo_step 0); [reflexivity|apply (seq_read2 s6)|reflexivity]|].
    apply rtc_once. eapply (seq_demo_step 0); [reflexivity|by apply (seq_accept s6)|reflexivity]. }
  exists s6. split; [exact Hr|]. split; [reflexivity|].
  apply (seqlock_consistent_reads (SeqLock 0 0) 7 2 s6 [SeqAccepted 0 9 9; SeqOutside] 0 0 9 9); [exact Hr|reflexivity|lia].
Defined.
